(* ===== verification/_CoqProject ===== *)
-Q . S2P
Prelude.v
Bitset.v
CString.v
LinkedList.v
Hashmap.v
Ring.v
RingBuffer.v
Pipe.v
Frames.v
Paging.v
Tmpfs.v
Vfs.v
Ext2Cache.v
Ext2.v
Ext2Files.v
Ext2Write.v
Alloc.v
SkipList.v
AllocSafe.v
AllocSpec.v
Tty.v
LocalTime.v
Cmos.v
Vsprintf.v
VsprintfSpec.v
Kprintf.v
Tree.v
Keyboard.v
Descriptors.v
Process.v
TaskRing.v
Scheduler.v
Ata.v
V86.v
Spaces.v
ShmNames.v
Shm.v
ShmSpec.v
ShmCorrect.v
Release.v
Elf.v
Exec.v
UserSpace.v
Wait.v
Signals.v
Exit.v
Strftime.v
Args.v
Kutils.v
Console.v
Interrupts.v
Syscalls.v
Pci.v
Tables.v
Rtl8139.v
