(* ===== verification/Prelude.v ===== *)
(** * ChiffOS: verification library

    ChiffOS is a small i386 kernel in C.  This library translates the part of
    it that keeps its data (containers, blocking queues, memory from page frames
    to the kernel heap and shared memory, file systems, the disk driver, terminals,
    processes and their descriptors, the program loader, the scheduler, formatting and
    the clock) into executable definitions and proves what makes each part correct.

    ** The program and its model

    The parts form layers, and each file of the library is one of them:

    - [Prelude]: machine integers, the [outcome] monad, arrays and [memcpy] with
      their bounds, the tactics and the hint databases.
    - [Bitset]: [kernel/src/bitset.c], the set of bits that process numbers are kept in.
    - [CString]: the string functions of [kernel/src/kutils.c] that the other
      parts call, and [tokenize] of [ext2.c].
    - [LinkedList]: [kernel/src/list.c], nodes and headers in a heap of cells.
      Module [Seq] is the sequence it implements; clients use [Seq].
    - [Hashmap]: [kernel/src/hashmap.c], chains in an array of buckets.
    - [Ring], [RingBuffer], [Pipe]: the queue of bytes that
      [kernel/src/ringbuffer.c] and [kernel/src/pipe.c] keep in an array, the
      tasks that block on it ([wakeup_queue] and [sleep_on] of
      [kernel/src/task/proc.c]), and the two ends of [kernel/src/unixpipe.c].
    - [Frames]: the bitmap of page frames of [kernel/src/mem/mem.c].
    - [Paging]: page tables and directories, the placement allocator, [sbrk] and
      the copy of an address space ([clone_directory]) of the same file.
    - [Tmpfs]: [kernel/src/tmpfs.c], files whose blocks are page frames.
    - [Vfs]: [kernel/src/fs/vfs.c].  Module [Path] is [canonicalize_path];
      module [Vfs] is the tree of mount points, [kopen_recur] with symbolic links
      and the operations that create and remove files by path.
    - [Ext2Cache], [Ext2], [Ext2Files]: [kernel/src/ext2.c], the block cache; then
      inodes, allocation and the tables of block numbers; then byte ranges of
      files, directory entries, new files and links, and mounting.  [Ext2Write]
      holds the theorem on writing to a file.
    - [Alloc], [SkipList], [AllocSafe], [AllocSpec]: [kernel/src/mem/alloc.c].
      [Alloc] has the code (headers, stacks of cells, page lists and the skip list
      of large blocks as words of a byte memory); [SkipList] the skip list as a
      sorted sequence; [AllocSafe] the invariant of the heap; [AllocSpec] the
      abstract heap (a map from live blocks to their sizes) and the refinement.
    - [Tty]: [kernel/src/tty.c], the line discipline of a pseudo terminal over two
      ring buffers.
    - [LocalTime], [Cmos]: [kernel/src/localtime.c] and [kernel/src/cmos.c], dates
      from seconds and seconds from the real-time clock.
    - [Vsprintf], [Kprintf]: [kernel/src/vsprintf.c] and [kernel/src/kprintf.c], the
      two formatters, as stores into a buffer, and the parsing of numbers.
      [VsprintfSpec] is a syntax of formats with its meaning, written without the
      functions of the code, and the theorem that [vsnprintf] implements it.
    - [Tree]: [kernel/src/tree.c], nodes in a store with parent pointers.
    - [Keyboard]: [kernel/src/dev/kbd.c] and [stdio_read__] of
      [kernel/src/syscalls.c], characters from interrupts and lines from characters.
    - [Descriptors]: the descriptor table of [kernel/src/task/proc.c] and the
      descriptor calls of [kernel/src/syscalls.c], on nodes that are shared.
    - [Process]: the process tree, process numbers, [waitpid] and [delete_process] of
      [kernel/src/task/proc.c].
    - [TaskRing], [Scheduler]: the ring of [kernel/src/task/list.c] and
      [kernel/src/task/sched.c]; the ready queue, [_task_switch], creation and exit
      of tasks of [kernel/src/task/proc.c].
    - [Ata]: [kernel/src/dev/ata.c], byte ranges of a disk from sectors, and sectors
      from the ports of the controller.
    - [V86]: [kernel/src/task/v86mon.c], the monitor of virtual-8086 tasks.
    - [Spaces]: [get_page] as the users of a task's directory call it, and what it
      leaves alone in other directories.
    - [ShmNames], [Shm], [ShmSpec], [ShmCorrect]: [kernel/src/mem/shm.c].  [ShmNames] is
      the tree of names, [Shm] the chunks and the mappings, [ShmSpec] the invariant
      that ties reference counts, mappings and page tables together, [ShmCorrect] the
      theorems on the calls.
    - [Release]: [release_directory], [release_directory_for_exec] and the memory part of
      [cleanup_process] of [kernel/src/task/proc.c].
    - [Elf], [Exec], [UserSpace]: [kernel/src/elf.c].  [Elf] has the file format, the
      loading of segments and the layout of arguments over an address space; [Exec] has
      [exec], [exec_elf] and [exec_shebang] whole, down to the queues of [Scheduler];
      [UserSpace] is the address space on page tables and frames.
    - [Wait]: the queues of sleeping processes and the list of ready ones of
      [kernel/src/task/proc.c], whose nodes are members of the tasks.
    - [Signals]: [kernel/src/signal.c] and the calls [sys_signal] and [sys_kill].
    - [Exit]: [cleanup_process] and [task_exit] of [kernel/src/task/proc.c], over the
      models of waiting, memory, descriptors and the process tree.
    - [Strftime]: [kernel/src/strftime.c], dates as text, over [Kprintf].
    - [Args]: [kernel/src/args.c], the arguments of the kernel in a hash map.
    - [Kutils]: the memory and string routines of [kernel/src/kutils.c] on a memory of
      bytes, by words as the code has them.
    - [Console]: [kernel/src/video.c], the text screen in that memory.
    - [Interrupts]: module [Sync] is the nesting of sections with interrupts off of
      [kernel/src/dev/cpu/interrupts.c]; module [Interrupts] is the entry of an interrupt
      of that file, over [_task_switch], and the timer of [kernel/src/dev/timer.c].
    - [Syscalls]: the calls of [kernel/src/syscalls.c] that work on names, the heap of a
      program, pipes, and the dispatch by number.
    - [Pci]: the scan of the buses of [kernel/src/pci.c] over a configuration space.
    - [Tables]: [kernel/src/dev/cpu/gdt.c] and [kernel/src/dev/cpu/idt.c], the entries of the
      segment and interrupt tables as bytes.
    - [Rtl8139]: the network card of [kernel/src/8139.c], sending as a bounded queue,
      receiving, and the interrupt.

    A struct is a [Record] with the fields of the source, a function is a
    definition with the source's name, and a loop is a [Fixpoint] whose name says
    which loop it is.  A C integer is a [Z] reduced to its width where the code
    can leave the range ([size_t] is [int] in this kernel, and [char] is
    signed).  State is passed explicitly; an access outside an object, through
    [NULL] or a division by zero is [Fault].  Where aliasing matters (list and tree
    nodes, page tables, directory entries, file nodes, tasks) the state is a map from
    addresses.

    ** Interfaces

    What a part relies on another for is a class: [Valloc] (fresh cells for
    lists), [HashOps] (hash and comparison of keys, with instances for strings
    and integers), [FrameAllocator] (frames for [Tmpfs], discharged by the
    bitmap in module [FrameInstance]), [KernelHeap] with [HeapOk] (memory for
    page tables, with a concrete heap in module [Bump]), [Vnode] (the
    operations of a mounted file system, with a small file system in module
    [Toy]), [MoreCore] (pages for the kernel heap, discharged by [sbrk] of [Paging]),
    [NodeAlloc] and [ElementAlloc] (cells for trees and for the ring), [NodeOps] (the
    callbacks of an open node), [Stdin] (descriptor 0, with the keyboard as its
    instance), [Controller] with [ControllerOk] (the ports of a disk and what a drive does
    behind them, with a drive that is slow and loses writes in module [Simulated]),
    [UserHeap] (what the kernel heap leaves alone), [SnodeAlloc] and [ChunkAlloc] (memory
    for shared memory), [AddressSpace] with [AddressSpaceOk] (pages for the loader,
    discharged by [UserSpace]), [SigAlloc] (memory for a signal), [StrAlloc]
    (memory for the copy of a string), [FileNames] with [FileNamesOk] (files found by name, for
    the system calls).  The theorems of a client are proved against the
    class.

    ** What is proved

    - Containers: the list operations refine operations on sequences and leave
      the rest of the heap alone; the hash map operations refine those of a
      finite map; setting a bit adds that bit and no other; splitting a string
      at its separators inverts joining; whatever is inserted and removed, the cells
      of a tree stay one finite tree with right parent pointers and count.
    - Queues: while no task sleeps on them, a read returns the oldest unread bytes and a
      write appends, from every position of the indices.  With a sleeper on the queue the
      wake-up reads a task through a pointer that the kernel never sets, and faults
      ([wakeup_sleeper_faults], [sleeper_stops_writer]).
    - Memory: allocation returns the least free frame and marks it, freeing undoes
      it; growing the kernel heap backs every new page with a frame of its own; a
      cloned address space shares the kernel's tables and has fresh frames,
      distinct from one another, for everything else.  The kernel heap hands out
      blocks that are large enough, overlap no other live block and no header, and
      takes them back; over any sequence of requests and of writes into the blocks no
      assertion of it fails ([heap_run_safe]).
    - Shared memory: obtaining a name maps the frames of its chunk, the same ones in
      every process; releasing it takes the pages away, and the frames are free when
      the last user is gone; two pages lead to the same frame only if they are the same
      page of the same chunk.  The end of a process breaks this
      ([cleanup_frees_shared]).
    - Programs: a loadable executable is in memory as its file says, with its arguments
      where it looks for them, and its task is in the queues; a script is run by its
      interpreter.  The monitor returns, keeps a virtual-8086 task from changing the
      protected flags, stores only on the task's stack (whose linear address wraps at 2^32),
      and an interrupt and its return cancel out.
    - Disk: a range of bytes that is read is the drive's, a range that is written is
      on the drive and the rest is unchanged, although the drive may be busy and may lose
      writes; ranges that end inside their first sector are excluded, as the code
      transfers bytes behind the buffer for them.
    - Files: writing bytes of a tmpfs file within its table of blocks stores them and keeps
      all others, reading returns them; when the table has to grow, the old blocks are those
      that [realloc] returns ([write_tmpfs_grows]); creating and removing directory entries does so by name; the
      canonical path has no empty, dot or dot-dot component; a path is resolved
      at the deepest mount point above it; opening a path always returns, follows the
      directory entries, and gives NULL for a chain of more than eight links.
    - ext2: through the cache the file system sees one disk, reading and writing
      one block of which touches no other, and [ext2_sync] puts it on the device;
      a block number or an inode that was written is read back and no other
      changes.  Mounting a device establishes what these theorems assume; reading a
      range of a file returns its bytes across blocks and writing one changes those
      bytes only; a name is found at its first
      entry in use; adding an entry changes no other block, and removing one leaves every
      byte but the inode number of the entry.
    - Terminals and keyboard: while no task sleeps on its buffers the terminal refines a
      line editor on sequences of bytes; the line that is read is the line that was typed with
      its corrections, the interrupts coming before or after any statement, as long as the
      256 bytes of the keyboard's buffer are not exceeded.
    - Processes: numbers given out are free; reference counts of nodes are right
      after every descriptor call, so no descriptor refers to a freed node, the calls that
      use a descriptor without testing it ([dup2], [write]) being given one in range; [waitpid]
      answers with the first finished child that matches; a removed process leaves
      its children to the first process; a process that ends closes its descriptors and gives
      back its memory ([task_exit_ends]).
    - Scheduling: the ring refines a list and is round robin; a switch wakes
      exactly the sleepers whose time has come and picks the first task that does not sleep;
      a task that exits leaves ring and queue, and the others keep their order.
    - Waiting and signals: a process is in at most one queue; falling asleep and being
      made ready move it between the queues.  Waking a queue with a sleeper and
      sending a signal fault, because the pointers they follow are never set
      ([wakeup_unset], [send_signal_faults]); what the code does for a receiver that was
      found is [signal_receiver_queues].
    - Formatting and time: a format is rendered as its specification says within
      the buffer, and the number printed is read back by the parser; the seconds computed from the clock are the days of the calendar;
      [asctime] fills its buffer exactly.
    - Memory and strings: moving bytes is right for ranges that overlap in either way and
      for every alignment; the search by words finds the first byte that a search by bytes
      would; the tokenizer on memory refines the one on sequences; the settings of the
      command line are those found in the map; the screen shows the last lines of a
      printed text whose lines have at most 80 characters, and printing changes nothing else.
    - Devices: a scan of PCI buses whose bridges lead to higher numbers ends and finds exactly
      the functions behind the bridges;
      segments and gates are read back by the processor as they were meant, all segments
      covering the whole memory.
    - System calls: opening a file gives the least free descriptor to a node that the caller
      may use; the calls that only look at a file leave no reference behind; the heap of a
      program grows by memory that is backed.
    - Faults: some theorems state what the code does where it departs from its
      purpose, among them [bitset_set_overrun], [list_copy_diverges],
      [list_remove_behaviour], [hashmap_remove_refines], [first_n_frames_overrun],
      [read_tmpfs_past_end], [set_block_number_triple_wrong], [create_entry_adds],
      [klrealloc_malloc_address], [localtime_r_gaps], [sprintf_dec_value],
      [keyboard_overrun], [get_next_pid_fresh], [switch_after_kexit],
      [read_ata_first_sector], [cleanup_frees_shared], [exec_script_overruns], [wakeup_unset],
      [wakeup_sleeper_faults], [send_signal_faults], [signal_receiver_overruns], [fix_signal_stacks_unsaved], [memset_large],
      [strncmp_undefined], [hex_last_digit], [resume_turns_on] and
      [idt_gate_decodes].

    ** Bounds and fuel

    A loop over a list, tree or ring in a store has as fuel the number of cells, which
    a well formed structure does not exceed; the theorems about such loops conclude with
    a result, so fuel is enough under their hypotheses.  The tokenizer consumes a
    byte a call and has the length of the string, the formatters the length of the
    format.  The walks of the kernel heap's skip list have the number of pages of the
    heap.  [kopen_recur] has fuel 9, one
    more than MAX_SYMLINK_DEPTH, and [kopen2_returns] shows that is enough.  The
    loops of blocking calls are recursive on the list of what happens during the
    sleeps; [stdio_read__] has the number of characters that can still come.
    [list_copy] and [grow_inode] take their fuel as an argument or from
    the block asked for because the loop may not end.  The loops over a directory of
    ext2 have its size in bytes, and [chain] (every entry has a positive length)
    makes that enough.  The loops that poll a controller have as fuel [patience], within
    which the class says that it answers; the loops over sectors have the length of the
    buffer.  [_get_node] has the length of the path, which every component shortens.
    The loops of the loader have the number of pages or bytes they go over.
    [monitor_loop] consumes prefixes and takes its fuel as an argument, and
    [monitor_confines] shows that one unit for each prefix and one for the instruction are
    enough; [exec] takes one
    unit for every script it goes through, [exec_elf] one for the program and one for
    [ld.so].  [wakeup_loop] has one unit for each task, [fix_loop] one for each node.
    The string loops of [Kutils] have the length of the string, [strchrnul] the number of
    words it looks at; the scan of the PCI buses has the number of buses, since the numbers
    grow behind a bridge; [sys_sbrk] has the number of pages that the address space can
    still back.  Counts in hypotheses
    (such as [ready n]) keep a 32-bit counter from wrapping during the calls.

    ** Not modelled

    Device drivers other than the keyboard, the clock, the timer, the text screen, the disk
    and the network card, the set-up of that card, the detection of drives and ATAPI, the
    entry of exceptions, the saving and restoring of registers and other assembly,
    the vendored network stack, user programs, and locks, which are commented out in
    the source.  [fork] and [clone] put the running task itself, or one that lacks most of its
    fields, into the queues and are not modelled; the remaining system calls forward to
    modelled operations or to the network stack.  Of [ext2.c] the
    operations are all modelled; theorems on
    the paths that allocate blocks and inodes are left for later. *)

From stdpp Require Import base gmap numbers strings list.
From Stdlib Require Import Lia.

#[global] Open Scope Z_scope.

(** ** Machine integers

    C integers are kept in [Z]; the width of the C type is written out with
    one of the following reductions where the code can leave the range. *)

Definition u8 (z : Z) : Z := z mod 256.
Definition u16 (z : Z) : Z := z mod 65536.
Definition u32 (z : Z) : Z := z mod 4294967296.
Definition u64 (z : Z) : Z := z mod 18446744073709551616.
Definition s8 (z : Z) : Z := (z + 128) mod 256 - 128.
Definition s32 (z : Z) : Z := (z + 2147483648) mod 4294967296 - 2147483648.
Definition s64 (z : Z) : Z := (z + 9223372036854775808) mod 18446744073709551616 - 9223372036854775808.

(** [b2z] is the C value of a comparison, [truthy] the C test of an integer. *)
Definition b2z (b : bool) : Z := if b then 1 else 0.
Definition truthy (z : Z) : bool := negb (z =? 0).

Lemma u32_small z : 0 <= z < 4294967296 -> u32 z = z.
Proof. apply Z.mod_small. Qed.

Lemma u32_bound z : 0 <= u32 z < 4294967296.
Proof. apply Z.mod_pos_bound; lia. Qed.

Lemma u8_small z : 0 <= z < 256 -> u8 z = z.
Proof. apply Z.mod_small. Qed.

Lemma u8_bound z : 0 <= u8 z < 256.
Proof. apply Z.mod_pos_bound; lia. Qed.

(** Bits that do not overlap add up. *)
Lemma lor_apart a b k : 0 <= k -> 0 <= b < 2 ^ k -> Z.lor (Z.shiftl a k) b = a * 2 ^ k + b.
Proof.
  intros Hk Hb. rewrite <- (Z.shiftl_mul_pow2 a k Hk). assert (Z.land (Z.shiftl a k) b = 0) as E.
  { apply Z.bits_inj'. intros n Hn. rewrite Z.land_spec, Z.bits_0, Z.shiftl_spec by done. destruct (Z_lt_ge_dec n k) as [Hlt|Hge]; [rewrite Z.testbit_neg_r by lia; done|].
    rewrite <- (Z.mod_small b (2 ^ k)) by lia. rewrite Z.mod_pow2_bits_high by lia. apply andb_false_r. }
  pose proof (Z.add_lor_land (Z.shiftl a k) b). lia.
Qed.

Lemma s32_small z : -2147483648 <= z < 2147483648 -> s32 z = z.
Proof. intros. unfold s32. rewrite Z.mod_small; lia. Qed.

(** ** Pointers and outcomes

    A pointer is an address, [NULL] the address 0.  A computation that reads
    or writes memory returns an [outcome]: a value, a [Fault] (an access the
    C program has no right to make: a null or dangling pointer, an index out
    of range, a division by zero) or [OutOfFuel] when the fuel given to a
    loop that is not structurally recursive runs out. *)

Abbreviation ptr := Z (only parsing).
Definition NULL : ptr := 0.

Inductive outcome (A : Type) : Type :=
  | Ret (a : A)
  | Fault
  | OutOfFuel.
Arguments Ret {A} a.
Arguments Fault {A}.
Arguments OutOfFuel {A}.

#[global] Instance outcome_ret : MRet outcome := fun A a => Ret a.
#[global] Instance outcome_bind : MBind outcome := fun A B f m =>
  match m with
  | Ret a => f a
  | Fault => Fault
  | OutOfFuel => OutOfFuel
  end.
#[global] Instance outcome_fmap : FMap outcome := fun A B f m =>
  match m with
  | Ret a => Ret (f a)
  | Fault => Fault
  | OutOfFuel => OutOfFuel
  end.

Lemma bind_Ret_inv {A B} (m : outcome A) (f : A -> outcome B) b :
  m ≫= f = Ret b -> exists a, m = Ret a /\ f a = Ret b.
Proof. destruct m; simpl; intros; try discriminate. eauto. Qed.

Lemma bind_assoc {A B C} (m : outcome A) (f : A -> outcome B) (g : B -> outcome C) :
  (m ≫= f) ≫= g = m ≫= (fun a => f a ≫= g).
Proof. by destruct m. Qed.

(** [of_option] turns a failed lookup into a fault. *)
Definition of_option {A} (o : option A) : outcome A :=
  match o with Some a => Ret a | None => Fault end.

(** ** Arrays indexed by C integers *)

Definition aget {A} (l : list A) (i : Z) : outcome A :=
  if i <? 0 then Fault else of_option (l !! Z.to_nat i).

Definition aset {A} (l : list A) (i : Z) (a : A) : outcome (list A) :=
  if (0 <=? i) && (i <? Z.of_nat (length l))
  then Ret (<[Z.to_nat i := a]> l)
  else Fault.

Lemma aget_lookup {A} (l : list A) (i : Z) a :
  0 <= i -> l !! Z.to_nat i = Some a -> aget l i = Ret a.
Proof. intros Hi Hl. unfold aget. destruct (Z.ltb_spec i 0); [lia|]. by rewrite Hl. Qed.

Lemma aget_in_range {A} (l : list A) (i : Z) :
  0 <= i < Z.of_nat (length l) ->
  exists a, l !! Z.to_nat i = Some a /\ aget l i = Ret a.
Proof.
  intros Hi. destruct (lookup_lt_is_Some_2 l (Z.to_nat i)) as [a Ha]; [lia|].
  exists a. split; [done|]. by apply aget_lookup; [lia|].
Qed.

Lemma aget_out_of_range {A} (l : list A) (i : Z) :
  Z.of_nat (length l) <= i -> aget l i = Fault.
Proof.
  intros Hi. unfold aget. destruct (Z.ltb_spec i 0); [done|].
  rewrite lookup_ge_None_2; [done|lia].
Qed.

Lemma aset_in_range {A} (l : list A) (i : Z) a :
  0 <= i < Z.of_nat (length l) -> aset l i a = Ret (<[Z.to_nat i := a]> l).
Proof.
  intros Hi. unfold aset.
  destruct (Z.leb_spec 0 i), (Z.ltb_spec i (Z.of_nat (length l))); simpl; (done || lia).
Qed.

Lemma aset_out_of_range {A} (l : list A) (i : Z) a :
  Z.of_nat (length l) <= i -> aset l i a = Fault.
Proof.
  intros Hi. unfold aset.
  destruct (Z.ltb_spec i (Z.of_nat (length l))); [lia|]. by rewrite andb_false_r.
Qed.

(** [memcpy] out of and into an array of bytes. *)
Definition mem_read (l : list Z) (pos n : Z) : outcome (list Z) :=
  if (0 <=? pos) && (0 <=? n) && (pos + n <=? Z.of_nat (length l))
  then Ret (take (Z.to_nat n) (drop (Z.to_nat pos) l))
  else Fault.

Definition mem_write (l : list Z) (pos : Z) (bytes : list Z) : outcome (list Z) :=
  if (0 <=? pos) && (pos + Z.of_nat (length bytes) <=? Z.of_nat (length l))
  then Ret (list_inserts (Z.to_nat pos) bytes l)
  else Fault.

Lemma mem_read_ok l pos n :
  0 <= pos -> 0 <= n -> pos + n <= Z.of_nat (length l) ->
  exists bytes, mem_read l pos n = Ret bytes /\ Z.of_nat (length bytes) = n /\
    forall p, 0 <= p < n -> bytes !! Z.to_nat p = l !! Z.to_nat (pos + p).
Proof.
  intros. unfold mem_read. destruct (Z.leb_spec 0 pos), (Z.leb_spec 0 n); try lia.
  destruct (Z.leb_spec (pos + n) (Z.of_nat (length l))); [|lia]. eexists. split; [done|].
  split; [rewrite length_take, length_drop; lia|]. intros p Hp.
  rewrite lookup_take_lt, lookup_drop by lia. f_equal. lia.
Qed.

Lemma mem_write_ok l pos bytes :
  0 <= pos -> pos + Z.of_nat (length bytes) <= Z.of_nat (length l) ->
  exists l', mem_write l pos bytes = Ret l' /\ length l' = length l /\
    forall p, 0 <= p -> l' !! Z.to_nat p =
      if (pos <=? p) && (p <? pos + Z.of_nat (length bytes)) then bytes !! Z.to_nat (p - pos)
      else l !! Z.to_nat p.
Proof.
  intros. unfold mem_write. destruct (Z.leb_spec 0 pos); [|lia].
  destruct (Z.leb_spec (pos + Z.of_nat (length bytes)) (Z.of_nat (length l))); [|lia].
  eexists. split; [done|]. split; [apply length_inserts|]. intros p Hp.
  destruct (Z.leb_spec pos p), (Z.ltb_spec p (pos + Z.of_nat (length bytes))); simpl.
  - rewrite list_lookup_inserts by lia. f_equal. lia.
  - by rewrite list_lookup_inserts_ge by lia.
  - by rewrite list_lookup_inserts_lt by lia.
  - by rewrite list_lookup_inserts_lt by lia.
Qed.

(** What was copied in is read back, and other ranges are kept. *)
Lemma mem_write_read l pos bytes :
  0 <= pos -> pos + Z.of_nat (length bytes) <= Z.of_nat (length l) ->
  exists l', mem_write l pos bytes = Ret l' /\ length l' = length l /\
    mem_read l' pos (Z.of_nat (length bytes)) = Ret bytes /\
    forall pos' n, 0 <= pos' -> pos' + n <= pos \/ pos + Z.of_nat (length bytes) <= pos' ->
      mem_read l' pos' n = mem_read l pos' n.
Proof.
  intros Hp Hl. destruct (mem_write_ok l pos bytes) as (l' & E & Hl' & Hlook); [done|done|].
  exists l'. split; [done|]. split; [done|]. split.
  - destruct (mem_read_ok l' pos (Z.of_nat (length bytes))) as (bs & -> & Hbl & Hbs); [lia|lia|lia|]. f_equal.
    apply list_eq_same_length with (length bytes); [lia|lia|].
    intros i x y Hi Hx Hy. specialize (Hbs (Z.of_nat i)). rewrite Nat2Z.id, Hlook in Hbs by lia.
    destruct (Z.leb_spec pos (pos + Z.of_nat i)), (Z.ltb_spec (pos + Z.of_nat i) (pos + Z.of_nat (length bytes))); try lia.
    cbn [andb] in Hbs. replace (Z.to_nat (pos + Z.of_nat i - pos)) with i in Hbs by lia.
    rewrite Hx, Hy in Hbs by lia. injection Hbs as ->; [done|lia].
  - intros pos' n Hp' Hd. unfold mem_read. rewrite Hl'. destruct (_ && _ && _) eqn:E'; [|done].
    f_equal. apply list_eq. intros i. apply andb_true_iff in E' as [_ E'%Z.leb_le].
    destruct (decide (i < Z.to_nat n)%nat) as [Hi|Hi].
    2: { rewrite !lookup_ge_None_2; [done| |]; rewrite length_take; lia. }
    rewrite !lookup_take_lt, !lookup_drop by lia. specialize (Hlook (pos' + Z.of_nat i)).
    replace (Z.to_nat (pos' + Z.of_nat i)) with (Z.to_nat pos' + i)%nat in Hlook by lia. rewrite Hlook by lia.
    destruct (Z.leb_spec pos (pos' + Z.of_nat i)), (Z.ltb_spec (pos' + Z.of_nat i) (pos + Z.of_nat (length bytes)));
      simpl; done || lia.
Qed.

(** Reading inside what was read. *)
Lemma mem_write_all (old bytes : list Z) : length old = length bytes -> mem_write old 0 bytes = Ret bytes.
Proof.
  intros E. unfold mem_write. rewrite E. destruct (Z.leb_spec (0 + Z.of_nat (length bytes)) (Z.of_nat (length bytes))); [|lia]. cbn [Z.leb andb Z.compare]. f_equal. change (Z.to_nat 0) with O.
  apply list_eq. intros i. destruct (decide (i < length bytes)%nat).
  - rewrite list_lookup_inserts by lia. f_equal. lia.
  - rewrite !lookup_ge_None_2; [done|lia|]. rewrite length_inserts. lia.
Qed.

Lemma mem_read_sub l off n s pos m :
  mem_read l off n = Ret s -> 0 <= pos -> 0 <= m -> pos + m <= n -> mem_read s pos m = mem_read l (off + pos) m.
Proof.
  intros E Hp Hm Hpm. unfold mem_read in E. destruct (Z.leb_spec 0 off), (Z.leb_spec 0 n),
    (Z.leb_spec (off + n) (Z.of_nat (length l))); try done. cbn [andb] in E. injection E as <-.
  unfold mem_read. rewrite length_take, length_drop.
  destruct (Z.leb_spec 0 pos), (Z.leb_spec 0 m), (Z.leb_spec 0 (off + pos)), (Z.leb_spec (off + pos + m) (Z.of_nat (length l))),
    (Z.leb_spec (pos + m) (Z.of_nat (Z.to_nat n `min` (length l - Z.to_nat off)))); try lia.
  cbn [andb]. f_equal. rewrite skipn_firstn_comm, take_take, drop_drop. f_equal; [lia|f_equal; lia].
Qed.

(** Copying all of an array. *)
Lemma mem_read_all l n : Z.of_nat (length l) = n -> mem_read l 0 n = Ret l.
Proof.
  intros <-. unfold mem_read. destruct (Z.leb_spec 0 (Z.of_nat (length l))); [|lia].
  destruct (Z.leb_spec (0 + Z.of_nat (length l)) (Z.of_nat (length l))); [|lia].
  simpl. f_equal. apply take_ge. lia.
Qed.

(** ** Membership and duplicates around one element of a list *)

Lemma NoDup_middle {A} (a b : list A) q : NoDup (a ++ q :: b) <-> (q ∉ a ++ b) /\ NoDup (a ++ b).
Proof. by rewrite <- Permutation_middle, NoDup_cons. Qed.

Lemma elem_of_middle {A} (a b : list A) q x : (x ∈ a ++ q :: b) <-> x = q \/ (x ∈ a ++ b).
Proof. by rewrite <- Permutation_middle, elem_of_cons. Qed.

Lemma elem_of_concat {A} (bs : list (list A)) x :
  x ∈ concat bs <-> exists i b, bs !! i = Some b /\ x ∈ b.
Proof.
  rewrite list_elem_of_In, in_concat. setoid_rewrite <- list_elem_of_In. split.
  - intros (b & Hb & Hx). apply list_elem_of_lookup in Hb as [i Hi]. eauto.
  - intros (i & b & Hb & Hx). exists b. split; [by eapply list_elem_of_lookup_2|done].
Qed.

Lemma Forall2_impl_in {A B} (P Q : A -> B -> Prop) l k :
  Forall2 P l k -> (forall x y, x ∈ l -> P x y -> Q x y) -> Forall2 Q l k.
Proof.
  induction 1 as [|x y l k Hxy Hlk IH]; intros H; constructor.
  - apply H; [left|done].
  - apply IH. intros. apply H; [by right|done].
Qed.

(** A property of the integers of a range, by evaluation. *)
Lemma forall_range (P : Z -> bool) n :
  forallb P (seqZ 0 n) = true -> forall x, 0 <= x < n -> P x = true.
Proof.
  intros H x Hx. rewrite forallb_forall in H. apply H, list_elem_of_In, elem_of_seqZ. lia.
Qed.

(** ** Proof automation of the development *)

Create HintDb chiff.
#[export] Hint Resolve u32_bound u8_bound : chiff.
Create Rewrite HintDb lens.
#[export] Hint Rewrite @length_insert @length_app @length_replicate @length_take
  @length_drop @length_fmap : lens.

(** [lens] normalises lengths and closes the linear goal that is left. *)
Ltac lens := autorewrite with lens in *; simpl in *; lia.

(** [zcases] splits the integer comparisons the goal branches on. *)
Ltac zcases :=
  repeat match goal with
  | |- context [?a <? ?b] => destruct (Z.ltb_spec a b)
  | |- context [?a <=? ?b] => destruct (Z.leb_spec a b)
  | |- context [?a =? ?b] => destruct (Z.eqb_spec a b)
  end.

(** [outcome_inv H] inverts a chain of binds that returned. *)
Ltac outcome_inv H :=
  repeat match type of H with
  | ?m ≫= ?f = Ret ?b =>
      let x := fresh "r" in let E := fresh "E" in
      apply bind_Ret_inv in H as (x & E & H); cbv beta in H
  end.

(** [mem] decides list membership goals after splitting the hypotheses. *)
Ltac mem :=
  rewrite ?NoDup_middle, ?NoDup_cons, ?not_elem_of_app, ?not_elem_of_cons, ?elem_of_app, ?elem_of_cons,
    ?not_elem_of_nil, ?elem_of_nil in *;
  intuition congruence.

(** [by_decide] evaluates a decidable proposition about concrete values. *)
Ltac by_decide := refine (bool_decide_unpack _ _); vm_compute; exact I.
