(* ===== verification/Bitset.v ===== *)
(** * The growable bit set of [kernel/src/bitset.c]

    [size_t] is [int] in that file, so indices are signed; the [iom] macro is
    the pair [iom_index]/[iom_mask].  [calloc] and [realloc] give the bytes the
    set owns; an access outside them is a [Fault]. *)

From stdpp Require Import base list numbers.
From S2P Require Import Prelude.

Module Bitset.

Record bitset_t := Build_bitset {
  data : list Z;
  size : Z
}.

Definition CEIL (number base : Z) : Z :=
  Z.land (number + base - 1) (Z.lnot (base - 1)).

Definition iom_index (bit : Z) : Z := Z.shiftr bit 3.
Definition iom_mask (bit : Z) : Z :=
  let bit' := bit - iom_index bit * 8 in
  let offset := Z.land bit' 7 in
  Z.shiftl 1 offset.

Definition bitset_init (sz : Z) : bitset_t :=
  let n := CEIL sz 8 in
  Build_bitset (replicate (Z.to_nat n) 0) n.

Definition bitset_resize (set : bitset_t) (sz : Z) : bitset_t :=
  if sz <=? size set then set
  else Build_bitset (data set ++ replicate (Z.to_nat (sz - size set)) 0) sz.

Definition bitset_set (set : bitset_t) (bit : Z) : outcome bitset_t :=
  let index := iom_index bit in
  let mask := iom_mask bit in
  let set := if size set <=? index
             then bitset_resize set (Z.shiftl (size set) 1) else set in
  b ← aget (data set) index;
  d ← aset (data set) index (u8 (Z.lor b mask));
  Ret (Build_bitset d (size set)).

Definition bitset_clear (set : bitset_t) (bit : Z) : outcome bitset_t :=
  let index := iom_index bit in
  let mask := iom_mask bit in
  b ← aget (data set) index;
  d ← aset (data set) index (u8 (Z.land b (Z.lnot mask)));
  Ret (Build_bitset d (size set)).

Definition bitset_test (set : bitset_t) (bit : Z) : outcome Z :=
  let index := iom_index bit in
  let mask := iom_mask bit in
  b ← aget (data set) index;
  Ret (b2z (truthy (Z.land mask b))).

(** The loop of [bitset_ffub] from index [i] with [n] iterations left. *)
Fixpoint ffub_from (set : bitset_t) (n : nat) (i : Z) : outcome Z :=
  match n with
  | O => Ret (-1)
  | S n' =>
      t ← bitset_test set i;
      if truthy t then ffub_from set n' (i + 1) else Ret i
  end.

Definition bitset_ffub (set : bitset_t) : outcome Z :=
  ffub_from set (Z.to_nat (size set * 8)) 0.

(** ** Specification *)

(** The bytes are bytes and the recorded size is the allocated one. *)
Definition wf (set : bitset_t) : Prop :=
  Z.of_nat (length (data set)) = size set /\ Forall (fun b => 0 <= b < 256) (data set).

(** Membership of bit [i]: false beyond the allocated bytes. *)
Definition member (set : bitset_t) (i : Z) : bool :=
  Z.testbit (default 0 (data set !! Z.to_nat (i / 8))) (i mod 8).

Lemma iom_index_div bit : iom_index bit = bit / 8.
Proof. unfold iom_index. by rewrite Z.shiftr_div_pow2. Qed.

Lemma iom_mask_pow bit : iom_mask bit = 2 ^ (bit mod 8).
Proof.
  unfold iom_mask. rewrite iom_index_div.
  replace (bit - bit / 8 * 8) with (bit mod 8) by (rewrite Z.mod_eq; lia).
  replace 7 with (Z.ones 3) by done. rewrite Z.land_ones by lia.
  change (2 ^ 3) with 8. rewrite Z.mod_mod by lia.
  rewrite Z.shiftl_mul_pow2; [lia|]. apply Z.mod_pos_bound; lia.
Qed.

Lemma byte_testbit_high b i : 0 <= b < 256 -> 8 <= i -> Z.testbit b i = false.
Proof.
  intros Hb Hi. apply Z.bits_above_log2; [lia|].
  destruct (Z.eq_dec b 0) as [->|]; [simpl; lia|].
  apply Z.log2_lt_pow2; [lia|]. apply Z.lt_le_trans with (2 ^ 8); [lia|].
  apply Z.pow_le_mono_r; lia.
Qed.

(** A value whose bits from 8 up are clear is a byte, so the [u8] store keeps it. *)
Lemma byte_of_testbit b : 0 <= b -> (forall i, 8 <= i -> Z.testbit b i = false) -> 0 <= b < 256.
Proof.
  intros Hb Hbits. split; [done|]. change 256 with (2 ^ 8).
  destruct (Z.eq_dec b 0) as [->|Hne]; [done|].
  apply Z.log2_lt_pow2; [lia|].
  destruct (Z.lt_ge_cases (Z.log2 b) 8) as [|Hge]; [done|].
  specialize (Hbits _ Hge). rewrite Z.bit_log2 in Hbits; [done|lia].
Qed.

Lemma lor_mask_byte b k : 0 <= b < 256 -> 0 <= k < 8 -> 0 <= Z.lor b (2 ^ k) < 256.
Proof.
  intros Hb Hk. apply byte_of_testbit.
  - apply Z.lor_nonneg. split; [lia|]. apply Z.pow_nonneg; lia.
  - intros i Hi. rewrite Z.lor_spec, byte_testbit_high by lia.
    rewrite Z.pow2_bits_eqb by lia. destruct (Z.eqb_spec k i); [lia|done].
Qed.

Lemma clear_mask_byte b k : 0 <= b < 256 -> 0 <= Z.land b (Z.lnot k) < 256.
Proof.
  intros Hb. apply byte_of_testbit.
  - apply Z.land_nonneg. lia.
  - intros i Hi. by rewrite Z.land_spec, byte_testbit_high by lia.
Qed.

Lemma wf_byte set i b : wf set -> data set !! i = Some b -> 0 <= b < 256.
Proof. intros [_ Hf] Hb. by eapply Forall_lookup_1 in Hf. Qed.

Lemma mod8_bound i : 0 <= i mod 8 < 8.
Proof. apply Z.mod_pos_bound. lia. Qed.

Lemma bit_split i j : i / 8 = j / 8 -> i mod 8 = j mod 8 -> i = j.
Proof. intros. pose proof (Z.div_mod i 8). pose proof (Z.div_mod j 8). lia. Qed.

(** The effect of storing byte [b'] at byte index [k] on membership. *)
Lemma member_store set k b' j :
  (k < length (data set))%nat -> 0 <= j ->
  member (Build_bitset (<[k := b']> (data set)) (size set)) j =
    if decide (Z.to_nat (j / 8) = k) then Z.testbit b' (j mod 8) else member set j.
Proof.
  intros Hk Hj. unfold member. simpl. case_decide as Hd.
  - rewrite <- Hd in *. by rewrite list_lookup_insert_eq.
  - by rewrite list_lookup_insert_ne.
Qed.

Lemma wf_store set k b' :
  wf set -> 0 <= b' < 256 -> wf (Build_bitset (<[k := b']> (data set)) (size set)).
Proof.
  intros [Hl Hf] Hb. split; simpl; [by rewrite length_insert|].
  by apply Forall_insert.
Qed.

Lemma bitset_resize_wf set sz : wf set -> wf (bitset_resize set sz).
Proof.
  intros [Hl Hf]. unfold bitset_resize. zcases; [done|]. split; simpl.
  - rewrite length_app, length_replicate. lia.
  - apply Forall_app; split; [done|]. apply Forall_replicate. lia.
Qed.

Lemma bitset_resize_member set sz j : member (bitset_resize set sz) j = member set j.
Proof.
  unfold bitset_resize. zcases; [done|]. unfold member; simpl. f_equal.
  destruct (decide (Z.to_nat (j / 8) < length (data set))%nat).
  - by rewrite lookup_app_l.
  - rewrite lookup_app_r, (lookup_ge_None_2 (data set)) by lia.
    match goal with |- default 0 ?o = _ => destruct o eqn:E end; [|done].
    apply lookup_replicate in E as [-> _]. done.
Qed.

Lemma bitset_resize_size set sz : size (bitset_resize set sz) = Z.max (size set) sz.
Proof. unfold bitset_resize. zcases; simpl; lia. Qed.

(** [bitset_set] without the growth step. *)
Lemma set_in_range set bit :
  wf set -> 0 <= bit -> bit / 8 < size set ->
  exists d, (b ← aget (data set) (iom_index bit);
             d ← aset (data set) (iom_index bit) (u8 (Z.lor b (iom_mask bit)));
             Ret (Build_bitset d (size set))) = Ret (Build_bitset d (size set)) /\
    wf (Build_bitset d (size set)) /\
    forall j, 0 <= j ->
      member (Build_bitset d (size set)) j = (j =? bit) || member set j.
Proof.
  intros Hwf Hbit Hlt. pose proof (proj1 Hwf) as Hlen.
  assert (0 <= bit / 8) by (apply Z.div_pos; lia).
  rewrite iom_index_div, iom_mask_pow.
  destruct (aget_in_range (data set) (bit / 8)) as (b & Hb & ->); [lia|]. simpl.
  rewrite aset_in_range by lia. simpl.
  pose proof (wf_byte _ _ _ Hwf Hb) as Hbyte. pose proof (mod8_bound bit) as Hm.
  rewrite u8_small by (by apply lor_mask_byte).
  eexists. split; [done|]. split; [by apply wf_store; [|apply lor_mask_byte]|].
  intros j Hj. assert (0 <= j / 8) by (apply Z.div_pos; lia).
  rewrite member_store by lia. case_decide as Hd.
  - assert (j / 8 = bit / 8) as Hq by lia.
    rewrite Z.lor_spec, Z.pow2_bits_eqb by lia. unfold member. rewrite Hq, Hb. simpl.
    rewrite orb_comm. f_equal.
    destruct (Z.eqb_spec (bit mod 8) (j mod 8)), (Z.eqb_spec j bit); try done; subst.
    + exfalso; by eauto using bit_split.
    + done.
  - destruct (Z.eqb_spec j bit); [subst; lia|done].
Qed.

(** ** Properties *)

(** Inserting a bit whose byte index is below twice the current size
    succeeds, keeps the set well formed, makes exactly that bit a member and
    leaves every other bit as it was, whether or not the set has to grow. *)
Theorem bitset_set_correct set bit :
  wf set -> 0 <= bit -> bit / 8 < 2 * size set ->
  exists set', bitset_set set bit = Ret set' /\ wf set' /\
    forall j, 0 <= j -> member set' j = (j =? bit) || member set j.
Proof.
  intros Hwf Hbit Hlt. unfold bitset_set. rewrite iom_index_div.
  destruct (Z.leb_spec (size set) (bit / 8)) as [Hg|Hg].
  - rewrite Z.shiftl_mul_pow2 by lia. change (2 ^ 1) with 2.
    pose proof (bitset_resize_wf set (size set * 2) Hwf) as Hwf'.
    destruct (set_in_range (bitset_resize set (size set * 2)) bit) as (d & He & Hw & Hm);
      [done|done|rewrite bitset_resize_size; lia|].
    rewrite iom_index_div in He. rewrite He. eexists. split; [done|]. split; [done|].
    intros j Hj. rewrite Hm by done. by rewrite bitset_resize_member.
  - destruct (set_in_range set bit) as (d & He & Hw & Hm); [done|done|done|].
    rewrite iom_index_div in He. rewrite He. eauto.
Qed.

(** The set only doubles once, so inserting a bit whose byte index is at
    least twice the size writes outside the allocation. *)
Theorem bitset_set_overrun set bit :
  wf set -> 0 <= bit -> 2 * size set <= bit / 8 -> bitset_set set bit = Fault.
Proof.
  intros Hwf Hbit Hge. unfold bitset_set. rewrite iom_index_div.
  assert (0 <= size set) by (destruct Hwf; lia).
  destruct (Z.leb_spec (size set) (bit / 8)); [|lia].
  rewrite Z.shiftl_mul_pow2 by lia. change (2 ^ 1) with 2.
  rewrite aget_out_of_range; [done|].
  pose proof (bitset_resize_wf set (size set * 2) Hwf) as [-> _].
  rewrite bitset_resize_size. lia.
Qed.

Lemma bitset_test_correct set bit :
  wf set -> 0 <= bit -> bit / 8 < size set ->
  bitset_test set bit = Ret (b2z (member set bit)).
Proof.
  intros Hwf Hbit Hlt. unfold bitset_test. rewrite iom_index_div, iom_mask_pow.
  assert (0 <= bit / 8) by (apply Z.div_pos; lia).
  destruct (aget_in_range (data set) (bit / 8)) as (b & Hb & ->).
  { destruct Hwf; lia. }
  simpl. unfold member. rewrite Hb. simpl. do 2 f_equal.
  pose proof (mod8_bound bit).
  destruct (Z.testbit b (bit mod 8)) eqn:Ht; unfold truthy.
  - destruct (Z.eqb_spec (Z.land (2 ^ (bit mod 8)) b) 0) as [E|]; [|done].
    apply (f_equal (fun z => Z.testbit z (bit mod 8))) in E.
    rewrite Z.land_spec, Z.pow2_bits_eqb, Z.eqb_refl, Ht, Z.bits_0 in E by lia. done.
  - destruct (Z.eqb_spec (Z.land (2 ^ (bit mod 8)) b) 0) as [|E]; [done|].
    exfalso. apply E. apply Z.bits_inj'. intros i Hi.
    rewrite Z.land_spec, Z.pow2_bits_eqb, Z.bits_0 by lia.
    destruct (Z.eqb_spec (bit mod 8) i); [subst; by rewrite Ht|done].
Qed.

(** Clearing a bit inside the set keeps it well formed and removes exactly
    that bit. *)
Theorem bitset_clear_correct set bit :
  wf set -> 0 <= bit -> bit / 8 < size set ->
  exists set', bitset_clear set bit = Ret set' /\ wf set' /\
    forall j, 0 <= j -> member set' j = negb (j =? bit) && member set j.
Proof.
  intros Hwf Hbit Hlt. unfold bitset_clear. rewrite iom_index_div, iom_mask_pow.
  assert (0 <= bit / 8) by (apply Z.div_pos; lia).
  pose proof (proj1 Hwf) as Hlen.
  destruct (aget_in_range (data set) (bit / 8)) as (b & Hb & ->); [lia|]. simpl.
  rewrite aset_in_range by lia. simpl.
  pose proof (wf_byte _ _ _ Hwf Hb) as Hbyte. pose proof (mod8_bound bit) as Hm.
  rewrite u8_small by (by apply clear_mask_byte).
  eexists. split; [done|]. split; [by apply wf_store; [|apply clear_mask_byte]|].
  intros j Hj. assert (0 <= j / 8) by (apply Z.div_pos; lia).
  rewrite member_store by lia. case_decide as Hd.
  - assert (j / 8 = bit / 8) as Hq by lia. pose proof (mod8_bound j).
    rewrite Z.land_spec, Z.lnot_spec, Z.pow2_bits_eqb by lia.
    unfold member. rewrite Hq, Hb. simpl. rewrite andb_comm. f_equal. f_equal.
    destruct (Z.eqb_spec (bit mod 8) (j mod 8)), (Z.eqb_spec j bit); try done; subst.
    + exfalso; by eauto using bit_split.
    + done.
  - destruct (Z.eqb_spec j bit); [subst; lia|done].
Qed.

Lemma ffub_from_spec set n i :
  wf set -> 0 <= i -> i + Z.of_nat n <= size set * 8 ->
  (ffub_from set n i = Ret (-1) /\
     forall j, i <= j < i + Z.of_nat n -> member set j = true) \/
  (exists k, ffub_from set n i = Ret k /\ i <= k < i + Z.of_nat n /\
     member set k = false /\ forall j, i <= j < k -> member set j = true).
Proof.
  intros Hwf. revert i. induction n as [|n IH]; intros i Hi Hn; simpl.
  { left. split; [done|]. intros; lia. }
  rewrite bitset_test_correct; [|done|done|].
  2:{ apply Z.div_lt_upper_bound; lia. }
  simpl. destruct (member set i) eqn:Hm; simpl.
  - destruct (IH (i + 1)) as [[-> Hall]|(k & -> & Hk & Hf & Hall)]; [lia|lia| |].
    + left. split; [done|]. intros j Hj. destruct (Z.eq_dec j i); [by subst|].
      apply Hall; lia.
    + right. exists k. repeat split; try done; [lia|lia|].
      intros j Hj. destruct (Z.eq_dec j i); [by subst|]. apply Hall; lia.
  - right. exists i. repeat split; try done; lia.
Qed.

(** [bitset_ffub] never faults on a well formed set; it returns -1 exactly
    when every bit is set and otherwise the least bit that is not a member. *)
Theorem bitset_ffub_correct set :
  wf set ->
  (bitset_ffub set = Ret (-1) /\
     forall j, 0 <= j < size set * 8 -> member set j = true) \/
  (exists k, bitset_ffub set = Ret k /\ 0 <= k < size set * 8 /\
     member set k = false /\ forall j, 0 <= j < k -> member set j = true).
Proof.
  intros Hwf. assert (0 <= size set) by (destruct Hwf; lia).
  unfold bitset_ffub.
  destruct (ffub_from_spec set (Z.to_nat (size set * 8)) 0) as [[-> Hall]|(k & -> & Hk & ?)];
    [done|lia|lia| |].
  - left. split; [done|]. intros; apply Hall; lia.
  - right. exists k. repeat split; try tauto; lia.
Qed.

(** ** Witnesses *)

Definition three := Build_bitset [255; 7] 2.

Lemma three_wf : wf three.
Proof. split; [done|]. repeat constructor; lia. Qed.

Lemma bitset_set_correct_witness :
  exists set', bitset_set three 17 = Ret set' /\ wf set' /\
    forall j, 0 <= j -> member set' j = (j =? 17) || member three j.
Proof. apply (bitset_set_correct three 17 three_wf); (reflexivity || by vm_compute). Defined.

Lemma bitset_set_overrun_witness : bitset_set three 32 = Fault.
Proof. apply (bitset_set_overrun three 32 three_wf); (reflexivity || by vm_compute). Defined.

Lemma bitset_clear_correct_witness :
  exists set', bitset_clear three 9 = Ret set' /\ wf set' /\
    forall j, 0 <= j -> member set' j = negb (j =? 9) && member three j.
Proof. apply (bitset_clear_correct three 9 three_wf); (reflexivity || by vm_compute). Defined.

Lemma bitset_ffub_correct_witness :
  (bitset_ffub three = Ret (-1) /\
     forall j, 0 <= j < size three * 8 -> member three j = true) \/
  (exists k, bitset_ffub three = Ret k /\ 0 <= k < size three * 8 /\
     member three k = false /\ forall j, 0 <= j < k -> member three j = true).
Proof. apply (bitset_ffub_correct three three_wf). Defined.

Example ffub_three : bitset_ffub three = Ret 11.
Proof. reflexivity. Qed.

End Bitset.
