(* ===== verification/CString.v ===== *)
(** * C strings and the tokenizer ([kernel/src/kutils.c], [tokenize] of [ext2.c])

    A C string is the list of its bytes before the terminating NUL, each in
    1..255.  [char] is signed on this target, so a byte becomes a [char] value
    by [s8].  [strtok_r] cuts its argument in place: the token it returns is the
    string that starts at the token once the delimiter has become a NUL, and
    [*saveptr] is the string that starts after it. *)

From stdpp Require Import base list numbers strings.
From S2P Require Import Prelude.

Abbreviation cstring := (list Z).

(** A literal, for the constants of the source and the witnesses. *)
Fixpoint cstr (s : string) : cstring :=
  match s with
  | EmptyString => []
  | String c s' => Z.of_nat (Ascii.nat_of_ascii c) :: cstr s'
  end.

Definition byte_ok (c : Z) : Prop := 0 < c < 256.
Definition cstring_ok (s : cstring) : Prop := Forall byte_ok s.

Definition strlen (s : cstring) : Z := Z.of_nat (length s).

(** [strcmp] returns the difference of the first characters that differ, as
    an unsigned number. *)
Fixpoint strcmp (s1 s2 : cstring) : Z :=
  match s1, s2 with
  | [], [] => 0
  | [], c2 :: _ => u32 (0 - s8 c2)
  | c1 :: _, [] => u32 (s8 c1 - 0)
  | c1 :: s1', c2 :: s2' =>
      if s8 c1 =? s8 c2 then strcmp s1' s2' else u32 (s8 c1 - s8 c2)
  end.

Definition strdup (s : cstring) : cstring := s.

(** [strspn] with a one-character set: the rest of the string after it. *)
Fixpoint skip_delim (delim : Z) (s : cstring) : cstring :=
  match s with
  | c :: s' => if c =? delim then skip_delim delim s' else s
  | [] => []
  end.

(** [strpbrk] with a one-character set: what precedes the delimiter, and what
    follows it, or nothing when the string ends first. *)
Fixpoint cut_delim (delim : Z) (s : cstring) : cstring * option cstring :=
  match s with
  | [] => ([], None)
  | c :: s' =>
      if c =? delim then ([], Some s')
      else let '(tok, rest) := cut_delim delim s' in (c :: tok, rest)
  end.

(** [strtok_r] on the string at [str] ([*saveptr] when called with [NULL]):
    the token, or [None], and the new [*saveptr]. *)
Definition strtok_r (str : cstring) (delim : Z) : option cstring * cstring :=
  let str := skip_delim delim str in
  match str with
  | [] => (None, [])
  | _ =>
      match cut_delim delim str with
      | (token, None) => (Some token, [])
      | (token, Some rest) => (Some token, rest)
      end
  end.

(** The tokenizing loop; each call consumes at least one byte, so the length
    of the string is enough fuel. *)
Fixpoint strtok_loop (fuel : nat) (save : cstring) (delim : Z) : list cstring :=
  match fuel with
  | O => []
  | S fuel' =>
      match strtok_r save delim with
      | (None, _) => []
      | (Some tok, save') => tok :: strtok_loop fuel' save' delim
      end
  end.

Definition tokenize (str : cstring) (sep : Z) : list cstring :=
  strtok_loop (S (length str)) str sep.

(** ** Lemmas *)

Lemma s8_inj a b : byte_ok a -> byte_ok b -> s8 a = s8 b -> a = b.
Proof.
  unfold byte_ok, s8. intros Ha Hb E.
  pose proof (Z.div_mod (a + 128) 256). pose proof (Z.div_mod (b + 128) 256).
  pose proof (Z.mod_pos_bound (a + 128) 256). pose proof (Z.mod_pos_bound (b + 128) 256).
  lia.
Qed.

Lemma s8_nonzero a : byte_ok a -> u32 (s8 a - 0) <> 0 /\ u32 (0 - s8 a) <> 0.
Proof.
  unfold byte_ok, s8, u32. intros Ha.
  pose proof (Z.div_mod (a + 128) 256). pose proof (Z.mod_pos_bound (a + 128) 256).
  set (r := (a + 128) mod 256) in *.
  pose proof (Z.div_mod (r - 128 - 0) 4294967296). pose proof (Z.mod_pos_bound (r - 128 - 0) 4294967296).
  pose proof (Z.div_mod (0 - (r - 128)) 4294967296). pose proof (Z.mod_pos_bound (0 - (r - 128)) 4294967296).
  lia.
Qed.

Lemma s8_diff_nonzero a b : s8 a <> s8 b -> u32 (s8 a - s8 b) <> 0.
Proof.
  unfold u32, s8. intros Hne.
  pose proof (Z.mod_pos_bound (a + 128) 256). pose proof (Z.mod_pos_bound (b + 128) 256).
  set (x := (a + 128) mod 256) in *. set (y := (b + 128) mod 256) in *.
  pose proof (Z.div_mod (x - 128 - (y - 128)) 4294967296).
  pose proof (Z.mod_pos_bound (x - 128 - (y - 128)) 4294967296). lia.
Qed.

(** [strcmp] is zero exactly on equal strings. *)
Lemma strcmp_zero s1 s2 : cstring_ok s1 -> cstring_ok s2 -> strcmp s1 s2 = 0 <-> s1 = s2.
Proof.
  intros H1. revert s2. induction H1 as [|a s1 Ha H1 IH]; intros s2 H2.
  - destruct H2 as [|b s2 Hb H2]; simpl; [done|].
    split; [|done]. by intros E%(s8_nonzero b Hb).
  - destruct H2 as [|b s2 Hb H2]; cbn [strcmp].
    + split; [|done]. by intros E%(s8_nonzero a Ha).
    + destruct (Z.eqb_spec (s8 a) (s8 b)) as [E|E].
      * rewrite IH by done. apply s8_inj in E; [|done|done]. subst. naive_solver.
      * split; [by intros ?%s8_diff_nonzero|]. congruence.
Qed.

Lemma skip_delim_suffix d s : exists p, s = p ++ skip_delim d s.
Proof.
  induction s as [|c s IH]; [by exists []|]. simpl. destruct (c =? d); [|by exists []].
  destruct IH as [p E]. exists (c :: p). simpl. by f_equal.
Qed.

Lemma skip_delim_length d s : (length (skip_delim d s) <= length s)%nat.
Proof. destruct (skip_delim_suffix d s) as [p E]. rewrite E at 2. rewrite length_app. lia. Qed.

Lemma skip_delim_head d s c s' : skip_delim d s = c :: s' -> c <> d.
Proof.
  induction s as [|x s IH]; [done|]. simpl. destruct (Z.eqb_spec x d); [done|].
  intros [= -> ->]. done.
Qed.

Lemma cut_delim_length d s tok rest :
  cut_delim d s = (tok, Some rest) -> (length rest < length s)%nat.
Proof.
  revert tok. induction s as [|c s IH]; intros tok; [done|]. simpl.
  destruct (c =? d); [intros [= _ ->]; lia|].
  destruct (cut_delim d s) as [tok' o] eqn:E. intros [= _ ->]. specialize (IH _ eq_refl). lia.
Qed.

Lemma cut_delim_token d s tok o : cut_delim d s = (tok, o) -> d ∉ tok.
Proof.
  revert tok o. induction s as [|c s IH]; intros tok o; simpl; [intros [= <- _]; apply not_elem_of_nil|].
  destruct (Z.eqb_spec c d); [intros [= <- _]; apply not_elem_of_nil|].
  destruct (cut_delim d s) as [tok' o'] eqn:E. intros [= <- _]. specialize (IH _ _ eq_refl). mem.
Qed.

Lemma cut_delim_no_delim d s : d ∉ s -> cut_delim d s = (s, None).
Proof.
  induction s as [|c s IH]; [done|]. simpl. intros Hn.
  destruct (Z.eqb_spec c d); [exfalso; mem|]. by rewrite IH by mem.
Qed.

Lemma cut_delim_app d tok rest : d ∉ tok -> cut_delim d (tok ++ d :: rest) = (tok, Some rest).
Proof.
  induction tok as [|c tok IH]; simpl; intros Hn; [by rewrite Z.eqb_refl|].
  destruct (Z.eqb_spec c d); [exfalso; mem|]. by rewrite IH by mem.
Qed.

(** A token is never empty and never holds the delimiter. *)
Definition token_ok (d : Z) (t : cstring) : Prop := t <> [] /\ d ∉ t.

Lemma strtok_r_token d s t s' :
  strtok_r s d = (Some t, s') -> token_ok d t /\ (length s' < length s)%nat.
Proof.
  unfold strtok_r. pose proof (skip_delim_length d s) as Hl.
  destruct (skip_delim d s) as [|c r] eqn:E; [done|]. pose proof (skip_delim_head _ _ _ _ E).
  destruct (cut_delim d (c :: r)) as [tok o] eqn:Ec. pose proof (cut_delim_token _ _ _ _ Ec).
  assert (tok <> []).
  { simpl in Ec. destruct (Z.eqb_spec c d); [done|]. destruct (cut_delim d r). by simplify_eq. }
  destruct o as [rest|]; intros Heq; simplify_eq; (split; [done|]).
  - apply cut_delim_length in Ec. lia.
  - simpl in *. lia.
Qed.

Lemma strtok_loop_ok fuel s d : Forall (token_ok d) (strtok_loop fuel s d).
Proof.
  revert s. induction fuel as [|fuel IH]; intros s; simpl; [constructor|].
  destruct (strtok_r s d) as [[t|] s'] eqn:E; [|constructor].
  constructor; [by eapply strtok_r_token|apply IH].
Qed.

(** More fuel than the length of the string changes nothing. *)
Lemma strtok_loop_fuel fuel1 fuel2 s d :
  (length s < fuel1)%nat -> (length s < fuel2)%nat ->
  strtok_loop fuel1 s d = strtok_loop fuel2 s d.
Proof.
  revert fuel2 s. induction fuel1 as [|f1 IH]; intros [|f2] s H1 H2; try lia. simpl.
  destruct (strtok_r s d) as [[t|] s'] eqn:E; [|done].
  apply strtok_r_token in E as [_ Hl]. f_equal. apply IH; lia.
Qed.

(** The strings the tokenizer is the inverse of: every token after a delimiter. *)
Definition join (d : Z) (ts : list cstring) : cstring := ts ≫= fun t => d :: t.

Lemma strtok_loop_join fuel d ts :
  Forall (token_ok d) ts -> (length (join d ts) < fuel)%nat ->
  strtok_loop fuel (join d ts) d = ts.
Proof.
  intros Ht. revert fuel. induction Ht as [|t ts [Hne Hnd] Ht IH]; intros [|fuel] Hf; try (done || lia).
  destruct t as [|c t]; [done|].
  assert (c <> d) by mem.
  change (join d ((c :: t) :: ts)) with (d :: (c :: t) ++ join d ts) in *.
  cbn [strtok_loop]. unfold strtok_r. simpl skip_delim. rewrite Z.eqb_refl.
  destruct (Z.eqb_spec c d); [done|].
  assert (exists o, cut_delim d (c :: t ++ join d ts) = (c :: t, o) /\ default [] o = tail (join d ts))
    as (o & -> & Ho).
  { destruct ts as [|t' ts'].
    - exists None. simpl join. rewrite app_nil_r. by rewrite cut_delim_no_delim.
    - exists (Some (t' ++ join d ts')).
      change (join d (t' :: ts')) with (d :: (t' ++ join d ts')).
      change (c :: t ++ d :: t' ++ join d ts') with ((c :: t) ++ d :: (t' ++ join d ts')).
      by rewrite cut_delim_app. }
  assert (strtok_loop fuel (default [] o) d = ts) as Hrest.
  { rewrite Ho. simpl in Hf. rewrite length_app in Hf.
    rewrite <- (IH fuel) at 2 by lia. destruct ts as [|t' ts']; [done|].
    change (join d (t' :: ts')) with (d :: (t' ++ join d ts')) in *. simpl tail.
    destruct fuel as [|f]; [lia|]. cbn [strtok_loop]. unfold strtok_r. simpl.
    by rewrite Z.eqb_refl. }
  destruct o; by f_equal.
Qed.

(** The tokenizer recovers the tokens of a string built by writing each
    after a separator. *)
Theorem tokenize_join d ts :
  Forall (token_ok d) ts -> tokenize (join d ts) d = ts.
Proof. intros Ht. apply strtok_loop_join; [done|lia]. Qed.

(** The tokens of a string are made of its bytes. *)
Lemma cut_delim_bytes d s tok o :
  cut_delim d s = (tok, o) -> cstring_ok s -> cstring_ok tok /\ cstring_ok (default [] o).
Proof.
  revert tok o. induction s as [|c s IH]; intros tok o; simpl; [intros [= <- <-]; done|].
  intros E Hs. apply Forall_cons_1 in Hs as [Hc Hs]. destruct (c =? d); [simplify_eq; split; [constructor|done]|].
  destruct (cut_delim d s) as [tok' o'] eqn:Ec. simplify_eq. destruct (IH _ _ eq_refl Hs).
  split; [by constructor|done].
Qed.

Lemma strtok_loop_cstring_ok fuel s d : cstring_ok s -> Forall cstring_ok (strtok_loop fuel s d).
Proof.
  revert s. induction fuel as [|fuel IH]; intros s Hs; cbn [strtok_loop]; [constructor|].
  unfold strtok_r. destruct (skip_delim_suffix d s) as [p Hp].
  assert (cstring_ok (skip_delim d s)) as Hk by (unfold cstring_ok in *; rewrite Hp in Hs; by apply Forall_app in Hs as [_ ?]).
  destruct (skip_delim d s) as [|c r]; [constructor|].
  destruct (cut_delim d (c :: r)) as [tok o] eqn:E. apply cut_delim_bytes in E as [H1 H2]; [|done].
  destruct o; (constructor; [done|]); by apply IH.
Qed.

Lemma tokenize_cstring_ok s d : cstring_ok s -> Forall cstring_ok (tokenize s d).
Proof. apply strtok_loop_cstring_ok. Qed.

Lemma tokenize_ok s d : Forall (token_ok d) (tokenize s d).
Proof. apply strtok_loop_ok. Qed.

Lemma tokenize_join_witness :
  tokenize (join 47 [cstr "usr"; cstr "bin"]) 47 = [cstr "usr"; cstr "bin"].
Proof.
  apply (tokenize_join 47). repeat constructor; try discriminate; by_decide.
Defined.

Example tokenize_slashes : tokenize (cstr "//usr///bin/") 47 = [cstr "usr"; cstr "bin"].
Proof. reflexivity. Qed.
