(* ===== verification/LinkedList.v ===== *)
(** * The doubly linked list of [kernel/src/list.c]

    The heap holds the [node_t] and [list_t] structures the list code allocates
    ([struct]s of [kernel/h/list.h]); every operation is translated statement
    by statement as a heap transformer.  [assert] is not a macro in this file:
    it links to the empty function [assert] of [dev/timer.c], so a failed
    assertion has no effect.

    [list_rep h l ps vs] says that the list header at [l] heads a well formed
    doubly linked list whose nodes are at [ps] and carry the values [vs].  The
    theorems show each operation refines the operation on the sequence [vs]
    that the module [Seq] names; the clients of the list use [Seq]. *)

From stdpp Require Import base list gmap numbers fin_maps fin_map_dom.
From S2P Require Import Prelude.

(** ** The abstract sequence the list implements *)

Module Seq.

Definition insert (vs : list ptr) (v : ptr) : list ptr := vs ++ [v].
Definition pop (vs : list ptr) : option ptr * list ptr := (last vs, take (Nat.pred (length vs)) vs).
Definition dequeue (vs : list ptr) : option ptr * list ptr := (List.hd_error vs, tail vs).

(** Position of the first occurrence of [v]. *)
Fixpoint index (vs : list ptr) (v : ptr) : option nat :=
  match vs with
  | [] => None
  | x :: vs' => if x =? v then Some O else S <$> index vs' v
  end.

Definition delete (k : nat) (vs : list ptr) : list ptr := take k vs ++ drop (S k) vs.

End Seq.

Module LinkedList.

Record node_t := Node { next : ptr; prev : ptr; value : ptr; owner : ptr }.
Record list_t := Header { head_ : ptr; tail_ : ptr; length_ : Z }.

Record heap := Heap {
  nodes : gmap ptr node_t;
  lists : gmap ptr list_t;
  freed : list ptr   (* addresses given to [free], most recent first *)
}.

(** What the list code relies on the allocator for: [valloc] returns the
    address of a block no live structure uses, and never [NULL]. *)
Class Valloc := {
  valloc : heap -> ptr;
  valloc_nonnull h : valloc h <> NULL;
  valloc_node h : nodes h !! valloc h = None;
  valloc_list h : lists h !! valloc h = None
}.

(** ** Memory accesses *)

Definition get_node (h : heap) (p : ptr) : outcome node_t :=
  if p =? NULL then Fault else of_option (nodes h !! p).
Definition put_node (h : heap) (p : ptr) (n : node_t) : heap :=
  Heap (<[p := n]> (nodes h)) (lists h) (freed h).
Definition get_list (h : heap) (l : ptr) : outcome list_t :=
  if l =? NULL then Fault else of_option (lists h !! l).
Definition put_list (h : heap) (l : ptr) (hd : list_t) : heap :=
  Heap (nodes h) (<[l := hd]> (lists h)) (freed h).

Definition set_next (h : heap) (p v : ptr) : outcome heap :=
  n ← get_node h p; Ret (put_node h p (Node v (prev n) (value n) (owner n))).
Definition set_prev (h : heap) (p v : ptr) : outcome heap :=
  n ← get_node h p; Ret (put_node h p (Node (next n) v (value n) (owner n))).
Definition set_owner (h : heap) (p v : ptr) : outcome heap :=
  n ← get_node h p; Ret (put_node h p (Node (next n) (prev n) (value n) v)).
Definition set_head (h : heap) (l v : ptr) : outcome heap :=
  hd ← get_list h l; Ret (put_list h l (Header v (tail_ hd) (length_ hd))).
Definition set_tail (h : heap) (l v : ptr) : outcome heap :=
  hd ← get_list h l; Ret (put_list h l (Header (head_ hd) v (length_ hd))).
Definition add_length (h : heap) (l : ptr) (d : Z) : outcome heap :=
  hd ← get_list h l; Ret (put_list h l (Header (head_ hd) (tail_ hd) (s32 (length_ hd + d)))).

Definition free (h : heap) (p : ptr) : heap :=
  Heap (delete p (nodes h)) (delete p (lists h)) (p :: freed h).

(** ** The operations of list.c *)

Definition list_append (h : heap) (list node : ptr) : outcome heap :=
  h ← set_next h node NULL;
  h ← set_owner h node list;
  hd ← get_list h list;
  if length_ hd =? 0 then
    h ← set_head h list node;
    h ← set_tail h list node;
    h ← set_prev h node NULL;
    h ← set_next h node NULL;
    add_length h list 1
  else
    h ← set_next h (tail_ hd) node;
    h ← set_prev h node (tail_ hd);
    h ← set_tail h list node;
    add_length h list 1.

Definition list_append_after (h : heap) (list before node : ptr) : outcome heap :=
  h ← set_owner h node list;
  hd ← get_list h list;
  if length_ hd =? 0 then list_append h list node
  else if before =? NULL then
    h ← set_next h node (head_ hd);
    h ← set_prev h node NULL;
    h ← set_prev h (head_ hd) node;
    h ← set_head h list node;
    add_length h list 1
  else
    h ← (if before =? tail_ hd then set_tail h list node
         else
           b ← get_node h before;
           h ← set_prev h (next b) node;
           b ← get_node h before;
           set_next h node (next b));
    h ← set_prev h node before;
    h ← set_next h before node;
    add_length h list 1.

Definition list_append_before (h : heap) (list after node : ptr) : outcome heap :=
  h ← set_owner h node list;
  hd ← get_list h list;
  if length_ hd =? 0 then list_append h list node
  else if after =? NULL then
    h ← set_next h node NULL;
    h ← set_prev h node (tail_ hd);
    h ← set_next h (tail_ hd) node;
    h ← set_tail h list node;
    add_length h list 1
  else
    h ← (if after =? head_ hd then set_head h list node
         else
           a ← get_node h after;
           h ← set_next h (prev a) node;
           a ← get_node h after;
           set_prev h node (prev a));
    h ← set_next h node after;
    h ← set_prev h after node;
    add_length h list 1.

Definition list_delete (h : heap) (list node : ptr) : outcome heap :=
  n ← get_node h node;
  hd ← get_list h list;
  h ← (if node =? head_ hd then set_head h list (next n) else Ret h);
  hd ← get_list h list;
  h ← (if node =? tail_ hd then set_tail h list (prev n) else Ret h);
  h ← (if truthy (prev n) then set_next h (prev n) (next n) else Ret h);
  n ← get_node h node;
  h ← (if truthy (next n) then set_prev h (next n) (prev n) else Ret h);
  h ← set_prev h node NULL;
  h ← set_next h node NULL;
  h ← set_owner h node NULL;
  add_length h list (-1).

Definition list_pop (h : heap) (list : ptr) : outcome (heap * ptr) :=
  hd ← get_list h list;
  if tail_ hd =? NULL then Ret (h, NULL)
  else h ← list_delete h list (tail_ hd); Ret (h, tail_ hd).

Definition list_dequeue (h : heap) (list : ptr) : outcome (heap * ptr) :=
  hd ← get_list h list;
  if head_ hd =? NULL then Ret (h, NULL)
  else h ← list_delete h list (head_ hd); Ret (h, head_ hd).

(** [foreach] walks the [next] pointers; the number of live nodes bounds the
    walk of a list without a cycle, so it is the fuel of every walk below. *)
Definition walk_fuel (h : heap) : nat := S (size (nodes h)).

Fixpoint find_from (fuel : nat) (h : heap) (item value_ : ptr) : outcome ptr :=
  match fuel with
  | O => OutOfFuel
  | S fuel' =>
      if item =? NULL then Ret NULL
      else n ← get_node h item;
           if value n =? value_ then Ret item else find_from fuel' h (next n) value_
  end.

Definition list_find (h : heap) (list value_ : ptr) : outcome ptr :=
  hd ← get_list h list; find_from (walk_fuel h) h (head_ hd) value_.

Fixpoint index_of_from (fuel : nat) (h : heap) (item value_ : ptr) (i : Z) : outcome Z :=
  match fuel with
  | O => OutOfFuel
  | S fuel' =>
      if item =? NULL then Ret (-1)
      else n ← get_node h item;
           if value n =? value_ then Ret i else index_of_from fuel' h (next n) value_ (i + 1)
  end.

Definition list_index_of (h : heap) (list value_ : ptr) : outcome Z :=
  hd ← get_list h list; index_of_from (walk_fuel h) h (head_ hd) value_ 0.

(** [n] steps along [next]: the [while (i < index)] loop of [list_remove]. *)
Fixpoint advance (steps : nat) (h : heap) (n : ptr) : outcome ptr :=
  match steps with
  | O => Ret n
  | S steps' => nd ← get_node h n; advance steps' h (next nd)
  end.

Definition list_remove (h : heap) (list : ptr) (index : Z) : outcome heap :=
  hd ← get_list h list;
  if length_ hd <? index then Ret h
  else n ← advance (Z.to_nat index) h (head_ hd); list_delete h list n.

(** Both freeing loops read [next] and free a node's value or the node. *)
Fixpoint destroy_from (fuel : nat) (h : heap) (n : ptr) : outcome heap :=
  match fuel with
  | O => OutOfFuel
  | S fuel' =>
      if n =? NULL then Ret h
      else nd ← get_node h n;
           let h := free h (value nd) in
           nd ← get_node h n;
           destroy_from fuel' h (next nd)
  end.

Definition list_destroy (h : heap) (list : ptr) : outcome heap :=
  hd ← get_list h list; destroy_from (walk_fuel h) h (head_ hd).

Fixpoint free_from (fuel : nat) (h : heap) (n : ptr) : outcome heap :=
  match fuel with
  | O => OutOfFuel
  | S fuel' =>
      if n =? NULL then Ret h
      else nd ← get_node h n; free_from fuel' (free h n) (next nd)
  end.

Definition list_free (h : heap) (list : ptr) : outcome heap :=
  hd ← get_list h list; free_from (walk_fuel h) h (head_ hd).

(** The first loop of [list_merge]. *)
Fixpoint own_from (fuel : nat) (h : heap) (node target : ptr) : outcome heap :=
  match fuel with
  | O => OutOfFuel
  | S fuel' =>
      if node =? NULL then Ret h
      else h ← set_owner h node target;
           n ← get_node h node;
           own_from fuel' h (next n) target
  end.

Definition list_merge (h : heap) (target source : ptr) : outcome heap :=
  s ← get_list h source;
  h ← own_from (walk_fuel h) h (head_ s) target;
  t ← get_list h target;
  h ← (if truthy (head_ s) then set_prev h (head_ s) (tail_ t) else Ret h);
  h ← (if truthy (tail_ t) then set_next h (tail_ t) (head_ s)
       else set_head h target (head_ s));
  s ← get_list h source;
  h ← (if truthy (tail_ s) then set_tail h target (tail_ s) else Ret h);
  s ← get_list h source;
  h ← add_length h target (length_ s);
  Ret (free h source).

Section Allocating.
Context `{Valloc}.

Definition list_insert (h : heap) (list item : ptr) : outcome (heap * ptr) :=
  let node := valloc h in
  let h := put_node h node (Node NULL NULL item NULL) in
  h ← list_append h list node; Ret (h, node).

Definition list_insert_after (h : heap) (list before item : ptr) : outcome (heap * ptr) :=
  let node := valloc h in
  let h := put_node h node (Node NULL NULL item NULL) in
  h ← list_append_after h list before node; Ret (h, node).

Definition list_insert_before (h : heap) (list after item : ptr) : outcome (heap * ptr) :=
  let node := valloc h in
  let h := put_node h node (Node NULL NULL item NULL) in
  h ← list_append_before h list after node; Ret (h, node).

Definition list_create (h : heap) : heap * ptr :=
  let out := valloc h in (put_list h out (Header NULL NULL 0), out).

(** [list_copy] never advances [node]: the loop is the C one. *)
Fixpoint copy_loop (fuel : nat) (h : heap) (out node : ptr) : outcome heap :=
  match fuel with
  | O => OutOfFuel
  | S fuel' =>
      if node =? NULL then Ret h
      else n ← get_node h node;
           '(h, _) ← list_insert h out (value n);
           copy_loop fuel' h out node
  end.

Definition list_copy (fuel : nat) (h : heap) (original : ptr) : outcome (heap * ptr) :=
  let '(h, out) := list_create h in
  hd ← get_list h original;
  h ← copy_loop fuel h out (head_ hd);
  Ret (h, out).

End Allocating.

(** ** Representation predicate *)

(** [seg m l pr ps vs nx]: the nodes at [ps] carry [vs], are chained both ways,
    the first one's [prev] is [pr], the last one's [next] is [nx] and all of
    them are owned by [l]. *)
Fixpoint seg (m : gmap ptr node_t) (l pr : ptr) (ps vs : list ptr) (nx : ptr) : Prop :=
  match ps, vs with
  | [], [] => True
  | p :: ps', v :: vs' =>
      m !! p = Some (Node (hd nx ps') pr v l) /\ seg m l p ps' vs' nx
  | _, _ => False
  end.

Definition header_of (ps : list ptr) : list_t :=
  Header (hd NULL ps) (List.last ps NULL) (Z.of_nat (length ps)).

Record list_rep (h : heap) (l : ptr) (ps vs : list ptr) : Prop := ListRep {
  rep_addr : l <> NULL;
  rep_header : lists h !! l = Some (header_of ps);
  rep_nodup : NoDup ps;
  rep_null : NULL ∉ ps;
  rep_seg : seg (nodes h) l NULL ps vs NULL
}.

(** Everything outside the header [l] and the nodes [ps] is untouched. *)
Definition frame (h h' : heap) (l : ptr) (ps : list ptr) : Prop :=
  (forall p, p ∉ ps -> nodes h' !! p = nodes h !! p) /\
  (forall l', l' <> l -> lists h' !! l' = lists h !! l').

(** ** Lemmas on segments *)

Lemma seg_length m l pr ps vs nx : seg m l pr ps vs nx -> length vs = length ps.
Proof.
  revert pr vs. induction ps as [|p ps IH]; intros pr [|v vs]; simpl; try done.
  intros [_ Hs]. f_equal. by eapply IH.
Qed.

Lemma hd_app_ne (a b : list ptr) nx : hd nx (a ++ b) = hd (hd nx b) a.
Proof. by destruct a. Qed.

Lemma last_cons_d (p : ptr) ps d : List.last (p :: ps) d = List.last ps p.
Proof.
  revert p d. induction ps as [|q ps IH]; intros p d; [done|].
  change (List.last (q :: ps) d = List.last (q :: ps) p). by rewrite !IH.
Qed.

Lemma seg_app m l pr a b va vb nx :
  length va = length a ->
  seg m l pr (a ++ b) (va ++ vb) nx <->
  seg m l pr a va (hd nx b) /\ seg m l (List.last a pr) b vb nx.
Proof.
  revert pr va. induction a as [|p a IH]; intros pr [|v va] Hl; try done; simpl.
  { tauto. }
  rewrite hd_app_ne, IH by (simpl in Hl; lia).
  rewrite <- (last_cons_d p a pr). simpl. tauto.
Qed.

Lemma seg_insert m l pr ps vs nx p n :
  p ∉ ps -> seg (<[p := n]> m) l pr ps vs nx <-> seg m l pr ps vs nx.
Proof.
  revert pr vs. induction ps as [|q ps IH]; intros pr [|v vs] Hp; try done; simpl.
  apply not_elem_of_cons in Hp as [Hne Hp].
  rewrite lookup_insert_ne by done. by rewrite IH.
Qed.

Lemma seg_delete m l pr ps vs nx p :
  p ∉ ps -> seg (delete p m) l pr ps vs nx <-> seg m l pr ps vs nx.
Proof.
  revert pr vs. induction ps as [|q ps IH]; intros pr [|v vs] Hp; try done; simpl.
  apply not_elem_of_cons in Hp as [Hne Hp].
  rewrite lookup_delete_ne by done. by rewrite IH.
Qed.

Lemma seg_agree m m' l pr ps vs nx :
  (forall p, p ∈ ps -> m' !! p = m !! p) -> seg m l pr ps vs nx -> seg m' l pr ps vs nx.
Proof.
  revert pr vs. induction ps as [|q ps IH]; intros pr [|v vs] Hag; try done; simpl.
  intros [Hq Hs]. split; [rewrite Hag; [done|left]|].
  apply IH; [|done]. intros; apply Hag. by right.
Qed.

Lemma seg_dom m l pr ps vs nx p : seg m l pr ps vs nx -> p ∈ ps -> p ∈ dom m.
Proof.
  revert pr vs. induction ps as [|q ps IH]; intros pr [|v vs] Hs Hp; try done; simpl in *;
    try by apply elem_of_nil in Hp.
  destruct Hs as [Hq Hs]. apply elem_of_cons in Hp as [->|Hp]; [|by eauto].
  apply elem_of_dom. by eexists.
Qed.

Lemma seg_fuel m l pr ps vs nx :
  NoDup ps -> seg m l pr ps vs nx -> (length ps <= size m)%nat.
Proof.
  intros Hnd Hs. rewrite <- size_dom.
  rewrite <- (size_list_to_set (C := gset ptr)) by done.
  apply subseteq_size. intros p Hp. apply elem_of_list_to_set in Hp.
  by eapply seg_dom.
Qed.

(** Values of a segment split at a node split there too. *)
Lemma seg_values_split m l pr a b vs nx :
  seg m l pr (a ++ b) vs nx -> exists va vb, vs = va ++ vb /\ length va = length a.
Proof.
  intros Hs. apply seg_length in Hs. rewrite length_app in Hs.
  exists (take (length a) vs), (drop (length a) vs). rewrite take_drop.
  split; [done|]. rewrite length_take. lia.
Qed.

Lemma last_snoc_d (a : list ptr) x d : List.last (a ++ [x]) d = x.
Proof. apply List.last_last. Qed.

Lemma rep_length h l ps vs : list_rep h l ps vs -> length vs = length ps.
Proof. intros [_ _ _ _ Hs]. by eapply seg_length. Qed.

(** A node address in the list is a live, non-null node. *)
Lemma rep_get_node h l a x b va v vb :
  list_rep h l (a ++ x :: b) (va ++ v :: vb) -> length va = length a ->
  get_node h x = Ret (Node (hd NULL b) (List.last a NULL) v l).
Proof.
  intros [_ _ _ Hn Hs] Hl. apply seg_app in Hs as [_ [Hx _]]; [|done].
  unfold get_node. destruct (Z.eqb_spec x NULL) as [->|]; [|by rewrite Hx].
  exfalso. apply Hn. set_solver.
Qed.

Lemma rep_get_list h l ps vs : list_rep h l ps vs -> get_list h l = Ret (header_of ps).
Proof.
  intros [Hl Hh _ _ _]. unfold get_list. destruct (Z.eqb_spec l NULL); [done|].
  by rewrite Hh.
Qed.

(** ** Symbolic execution of the accessors *)

Lemma get_node_eq h p n : p <> NULL -> nodes h !! p = Some n -> get_node h p = Ret n.
Proof. intros Hp Hn. unfold get_node. destruct (Z.eqb_spec p NULL); [done|]. by rewrite Hn. Qed.
Lemma get_list_eq h l n : l <> NULL -> lists h !! l = Some n -> get_list h l = Ret n.
Proof. intros Hp Hn. unfold get_list. destruct (Z.eqb_spec l NULL); [done|]. by rewrite Hn. Qed.
Lemma set_next_eq h p v n :
  p <> NULL -> nodes h !! p = Some n ->
  set_next h p v = Ret (put_node h p (Node v (prev n) (value n) (owner n))).
Proof. intros Hp Hn. unfold set_next. by rewrite (get_node_eq _ _ _ Hp Hn). Qed.
Lemma set_prev_eq h p v n :
  p <> NULL -> nodes h !! p = Some n ->
  set_prev h p v = Ret (put_node h p (Node (next n) v (value n) (owner n))).
Proof. intros Hp Hn. unfold set_prev. by rewrite (get_node_eq _ _ _ Hp Hn). Qed.
Lemma set_owner_eq h p v n :
  p <> NULL -> nodes h !! p = Some n ->
  set_owner h p v = Ret (put_node h p (Node (next n) (prev n) (value n) v)).
Proof. intros Hp Hn. unfold set_owner. by rewrite (get_node_eq _ _ _ Hp Hn). Qed.
Lemma set_head_eq h l v n :
  l <> NULL -> lists h !! l = Some n ->
  set_head h l v = Ret (put_list h l (Header v (tail_ n) (length_ n))).
Proof. intros Hp Hn. unfold set_head. by rewrite (get_list_eq _ _ _ Hp Hn). Qed.
Lemma set_tail_eq h l v n :
  l <> NULL -> lists h !! l = Some n ->
  set_tail h l v = Ret (put_list h l (Header (head_ n) v (length_ n))).
Proof. intros Hp Hn. unfold set_tail. by rewrite (get_list_eq _ _ _ Hp Hn). Qed.
Lemma add_length_eq h l d n :
  l <> NULL -> lists h !! l = Some n ->
  add_length h l d = Ret (put_list h l (Header (head_ n) (tail_ n) (s32 (length_ n + d)))).
Proof. intros Hp Hn. unfold add_length. by rewrite (get_list_eq _ _ _ Hp Hn). Qed.

(** [heap_lookup] finds a structure through pending writes; [heap_step] runs
    one accessor of the goal. *)
Ltac heap_lookup :=
  simpl; repeat first
    [ rewrite lookup_insert_eq
    | rewrite lookup_insert_ne by congruence ]; done.
Ltac heap_step :=
  first
    [ erewrite get_node_eq by (done || heap_lookup)
    | erewrite get_list_eq by (done || heap_lookup)
    | erewrite set_next_eq by (done || heap_lookup)
    | erewrite set_prev_eq by (done || heap_lookup)
    | erewrite set_owner_eq by (done || heap_lookup)
    | erewrite set_head_eq by (done || heap_lookup)
    | erewrite set_tail_eq by (done || heap_lookup)
    | erewrite add_length_eq by (done || heap_lookup) ]; simpl.

(** A list that can still grow without its [int] length overflowing. *)
Definition room (ps : list ptr) : Prop := Z.of_nat (length ps) + 1 < 2147483648.

(** [list_append] of a node outside the list appends it. *)
Lemma list_append_rep h l ps vs q nd :
  list_rep h l ps vs -> room ps -> q <> NULL -> q ∉ ps -> nodes h !! q = Some nd ->
  exists h', list_append h l q = Ret h' /\
    list_rep h' l (ps ++ [q]) (vs ++ [value nd]) /\ frame h h' l (q :: ps).
Proof.
  intros [Hl Hh Hnd Hnull Hs] Hroom Hq Hnew Hnode. unfold room in Hroom.
  unfold list_append. do 2 heap_step. erewrite get_list_eq by done. simpl.
  destruct ps as [|p0 ps0 _] using rev_ind; simpl.
  - destruct vs; [|done]. repeat heap_step. eexists. split; [done|]. split.
    + constructor; simpl; try done.
      * by rewrite lookup_insert_eq, s32_small by lia.
      * apply NoDup_singleton.
      * mem.
      * by rewrite lookup_insert_eq.
    + split; intros; simpl; rewrite ?lookup_insert_ne; mem.
  - destruct (seg_values_split _ _ _ _ _ _ _ Hs) as (va & vb & -> & Hva).
    pose proof (seg_length _ _ _ _ _ _ Hs) as Hlen. rewrite !length_app in Hlen.
    destruct vb as [|v [|]]; simpl in Hlen; try lia.
    apply seg_app in Hs as [Hs1 Hs2]; [|done]. simpl in Hs2. destruct Hs2 as [Hp0 _].
    rewrite last_snoc_d. rewrite length_app. simpl.
    destruct (Z.eqb_spec (Z.of_nat (length ps0 + 1)) 0); [lia|].
    assert (p0 <> NULL /\ p0 <> q) as [? ?] by mem.
    apply NoDup_middle in Hnd as [Hp0n Hnd0]. rewrite app_nil_r in *.
    repeat heap_step. eexists. split; [done|]. split.
    + constructor; simpl; try done.
      * rewrite lookup_insert_eq. unfold header_of. rewrite last_snoc_d.
        rewrite !length_app in *. simpl in *. rewrite s32_small by lia.
        do 2 f_equal; [|lia]. by destruct ps0.
      * rewrite <- app_assoc. simpl. rewrite !NoDup_middle, app_nil_r. mem.
      * mem.
      * rewrite <- !app_assoc. simpl. rewrite seg_app by done. simpl.
        rewrite !seg_insert by mem. split; [done|].
        rewrite lookup_insert_ne by done. by rewrite !lookup_insert_eq.
    + split; intros; simpl; rewrite ?lookup_insert_ne; mem.
Qed.

Lemma last_app_cons (a b : list ptr) x d : List.last (a ++ x :: b) d = List.last b x.
Proof.
  revert d. induction a as [|y a IH]; intros d; [apply last_cons_d|].
  change ((y :: a) ++ x :: b) with (y :: (a ++ x :: b)). rewrite last_cons_d. apply IH.
Qed.

Lemma last_in (b : list ptr) y d : List.last (y :: b) d ∈ y :: b.
Proof.
  revert y d. induction b as [|z b IH]; intros y d; [by left|].
  rewrite last_cons_d. apply elem_of_cons. right. apply IH.
Qed.

(** Splitting the values along with the nodes around the node [x]. *)
Lemma rep_split h l a x b vs :
  list_rep h l (a ++ x :: b) vs ->
  exists va v vb, vs = va ++ v :: vb /\ length va = length a /\ length vb = length b.
Proof.
  intros Hr. pose proof (rep_length _ _ _ _ Hr) as Hlen. rewrite length_app in Hlen.
  simpl in Hlen. exists (take (length a) vs).
  destruct (drop (length a) vs) as [|v vb] eqn:E.
  { apply (f_equal length) in E. rewrite length_drop in E. simpl in E. lia. }
  exists v, vb. rewrite <- E, take_drop. split; [done|]. split; [rewrite length_take; lia|].
  apply (f_equal length) in E. rewrite length_drop in E. simpl in E. lia.
Qed.

(** [list_append_after] of a fresh node puts it right after [x]. *)
Lemma list_append_after_rep h l a x b va vx vb q v :
  list_rep h l (a ++ x :: b) (va ++ vx :: vb) -> length va = length a ->
  room (a ++ x :: b) -> q <> NULL -> q ∉ a ++ x :: b ->
  nodes h !! q = Some (Node NULL NULL v NULL) ->
  exists h', list_append_after h l x q = Ret h' /\
    list_rep h' l (a ++ x :: q :: b) (va ++ vx :: v :: vb) /\
    frame h h' l (q :: a ++ x :: b).
Proof.
  intros [Hl Hh Hnd Hnull Hs] Hva Hroom Hq Hnew Hnode. unfold room in Hroom.
  rewrite length_app in Hroom. simpl in Hroom.
  apply seg_app in Hs as [Hs1 [Hx Hs2]]; [|done]. simpl in Hs1.
  assert (x <> NULL /\ x <> q) as [? ?] by mem.
  unfold list_append_after. heap_step. erewrite get_list_eq by done. simpl.
  rewrite length_app. simpl. zcases; [lia|done| |].
  - (* x is the tail *)
    match goal with E : x = List.last _ _ |- _ => rename E into Ht end.
    assert (b = []) as ->.
    { destruct b as [|y b]; [done|]. exfalso. rewrite last_app_cons in Ht.
      pose proof (last_in b y x). rewrite <- Ht in *. mem. }
    destruct vb; [|done].
    repeat heap_step. eexists. split; [done|]. split.
    + constructor; simpl; try done; [| |mem|].
      * rewrite lookup_insert_eq. unfold header_of.
        rewrite !length_app, s32_small, !hd_app_ne, last_app_cons by (simpl in *; lia). simpl.
        do 2 f_equal. lia.
      * mem.
      * rewrite seg_app by done. simpl. rewrite !seg_insert by mem. split; [done|].
        rewrite !lookup_insert_eq, lookup_insert_ne by congruence.
        by rewrite lookup_insert_eq.
    + split; intros; simpl; rewrite ?lookup_insert_ne; mem.
  - (* x has a successor y *)
    destruct b as [|y b]; [by rewrite last_app_cons in *|].
    destruct vb as [|vy vb]; [done|]. destruct Hs2 as [Hy Hs2].
    assert (y <> NULL /\ y <> q /\ x <> y) as (? & ? & ?) by mem.
    repeat heap_step. eexists. split; [done|]. split.
    + constructor; simpl; try done; [|mem|mem|].
      * rewrite lookup_insert_eq. unfold header_of.
        rewrite !length_app, s32_small, !hd_app_ne, !last_app_cons by (simpl in *; lia). simpl.
        do 2 f_equal. lia.
      * rewrite seg_app by done. simpl. rewrite !seg_insert by mem. split; [done|].
        rewrite lookup_insert_eq. split; [done|].
        rewrite lookup_insert_ne, lookup_insert_eq by congruence. split; [done|].
        rewrite !(lookup_insert_ne _ _ y) by congruence. by rewrite lookup_insert_eq.
    + split; intros; simpl; rewrite ?lookup_insert_ne; mem.
Qed.

(** [list_append_before] of a fresh node puts it right before [x]. *)
Lemma list_append_before_rep h l a x b va vx vb q v :
  list_rep h l (a ++ x :: b) (va ++ vx :: vb) -> length va = length a ->
  room (a ++ x :: b) -> q <> NULL -> q ∉ a ++ x :: b ->
  nodes h !! q = Some (Node NULL NULL v NULL) ->
  exists h', list_append_before h l x q = Ret h' /\
    list_rep h' l (a ++ q :: x :: b) (va ++ v :: vx :: vb) /\
    frame h h' l (q :: a ++ x :: b).
Proof.
  intros [Hl Hh Hnd Hnull Hs] Hva Hroom Hq Hnew Hnode. unfold room in Hroom.
  rewrite length_app in Hroom. simpl in Hroom.
  assert (x <> NULL /\ x <> q) as [? ?] by mem.
  unfold list_append_before. heap_step. erewrite get_list_eq by done. simpl.
  rewrite length_app. simpl.
  destruct a as [|y a _] using rev_ind; simpl.
  - destruct va; [|done]. destruct Hs as [Hx Hs2]. zcases; try done; try lia.
    repeat heap_step. eexists. split; [done|]. split.
    + constructor; simpl; try done; [|mem|mem|].
      * rewrite lookup_insert_eq. unfold header_of.
        rewrite s32_small by (simpl in *; lia). simpl. do 2 f_equal. lia.
      * rewrite !seg_insert by mem. rewrite lookup_insert_ne, !lookup_insert_eq by congruence.
        done.
    + split; intros; simpl; rewrite ?lookup_insert_ne; mem.
  - assert (exists va' vy, va = va' ++ [vy] /\ length va' = length a) as (va' & vy & -> & Hva').
    { destruct va as [|vy va' _] using rev_ind; rewrite !length_app in Hva; simpl in Hva; [lia|].
      exists va', vy. split; [done|lia]. }
    rewrite <- !app_assoc in *. simpl in *. rewrite length_app in *. simpl in *.
    apply seg_app in Hs as [Hs1 [Hy [Hx Hs2]]]; [|done]. simpl in *.
    assert (y <> NULL /\ y <> q /\ x <> y) as (? & ? & ?) by mem.
    zcases; [lia|done| |].
    { exfalso. match goal with E : x = hd _ _ |- _ => rename E into Ht end.
      rewrite hd_app_ne in Ht. simpl in Ht. destruct a; simpl in Ht; mem. }
    repeat heap_step. eexists. split; [done|]. split.
    + constructor; simpl; try done; [|mem|mem|].
      * rewrite lookup_insert_eq. unfold header_of.
        rewrite !length_app, s32_small, !hd_app_ne, !last_app_cons, !last_cons_d by (simpl in *; lia).
        simpl. do 2 f_equal. lia.
      * rewrite seg_app by done. simpl. rewrite !seg_insert by mem. split; [done|].
        rewrite !(lookup_insert_ne _ _ y) by congruence. rewrite lookup_insert_eq. split; [done|].
        rewrite lookup_insert_ne, !lookup_insert_eq by congruence. done.
    + split; intros; simpl; rewrite ?lookup_insert_ne; mem.
Qed.

(** Relinking the right end of a segment, or its left end. *)
Definition relink_next (m : gmap ptr node_t) (a : list ptr) (nx : ptr) : gmap ptr node_t :=
  match last a with
  | Some w => alter (fun n => Node nx (prev n) (value n) (owner n)) w m
  | None => m
  end.
Definition relink_prev (m : gmap ptr node_t) (b : list ptr) (pr : ptr) : gmap ptr node_t :=
  match b with
  | y :: _ => alter (fun n => Node (next n) pr (value n) (owner n)) y m
  | [] => m
  end.

Lemma seg_alter m l pr ps vs nx p f :
  p ∉ ps -> seg (alter f p m) l pr ps vs nx <-> seg m l pr ps vs nx.
Proof.
  revert pr vs. induction ps as [|q ps IH]; intros pr [|v vs] Hp; try done; simpl.
  apply not_elem_of_cons in Hp as [Hne Hp].
  rewrite lookup_alter_ne by done. by rewrite IH.
Qed.

Lemma relink_next_other m a nx p : p ∉ a -> relink_next m a nx !! p = m !! p.
Proof.
  intros Hp. unfold relink_next. destruct (last a) as [w|] eqn:E; [|done].
  apply last_Some_elem_of in E. apply lookup_alter_ne. intros ->. done.
Qed.

Lemma relink_prev_other m b pr p : p ∉ b -> relink_prev m b pr !! p = m !! p.
Proof. intros Hp. destruct b; [done|]. apply lookup_alter_ne. mem. Qed.

Lemma seg_relink_next m l pr a va nx nx' :
  NoDup a -> seg m l pr a va nx -> seg (relink_next m a nx') l pr a va nx'.
Proof.
  intros Hnd Hs. unfold relink_next. destruct a as [|w a _] using rev_ind; [done|].
  destruct (seg_values_split _ _ _ _ _ _ _ Hs) as (va1 & vb & -> & Hl).
  apply seg_app in Hs as [Hs1 Hs2]; [|done]. rewrite last_snoc.
  apply NoDup_middle in Hnd as [Hw _]. rewrite app_nil_r in Hw.
  destruct vb as [|v [|]]; simpl in Hs2; try tauto. destruct Hs2 as [Hs2 _].
  apply seg_app; [done|]. simpl. rewrite seg_alter, lookup_alter_eq, Hs2 by done. done.
Qed.

Lemma seg_relink_prev m l pr b vb nx pr' :
  NoDup b -> seg m l pr b vb nx -> seg (relink_prev m b pr') l pr' b vb nx.
Proof.
  intros Hnd Hs. destruct b as [|y b], vb as [|v vb]; try done. destruct Hs as [Hy Hs].
  apply NoDup_cons in Hnd as [Hyn _].
  simpl. rewrite lookup_alter_eq, Hy, seg_alter by done. done.
Qed.

(** The two guarded stores of [list_delete] relink the neighbours. *)
Lemma store_relink_next h l pr a va nx v :
  NULL ∉ a -> seg (nodes h) l pr a va nx ->
  (if truthy (List.last a NULL) then set_next h (List.last a NULL) v else Ret h) =
  Ret (Heap (relink_next (nodes h) a v) (lists h) (freed h)).
Proof.
  intros Hn Hs. unfold relink_next. destruct a as [|w a _] using rev_ind; [by destruct h|].
  rewrite last_snoc, last_snoc_d. unfold truthy.
  destruct (Z.eqb_spec w 0) as [->|Hw]; [exfalso; unfold NULL in Hn; mem|]. simpl.
  destruct (seg_values_split _ _ _ _ _ _ _ Hs) as (va1 & vb & -> & Hl).
  apply seg_app in Hs as [_ Hs2]; [|done].
  destruct vb as [|vw [|]]; simpl in Hs2; try tauto. destruct Hs2 as [Hs2 _].
  erewrite set_next_eq by done. unfold put_node. do 2 f_equal. apply map_eq. intros p.
  destruct (decide (p = w)) as [->|]; simpl.
  - by rewrite lookup_insert_eq, lookup_alter_eq, Hs2.
  - by rewrite lookup_insert_ne, lookup_alter_ne by done.
Qed.

Lemma store_relink_prev h l pr b vb nx v :
  NULL ∉ b -> seg (nodes h) l pr b vb nx ->
  (if truthy (hd NULL b) then set_prev h (hd NULL b) v else Ret h) =
  Ret (Heap (relink_prev (nodes h) b v) (lists h) (freed h)).
Proof.
  intros Hn Hs. destruct b as [|y b]; [by destruct h|]. simpl. unfold truthy.
  destruct (Z.eqb_spec y 0) as [->|Hy]; [exfalso; unfold NULL in Hn; mem|]. simpl.
  destruct vb as [|vy vb]; [done|]. destruct Hs as [Hs _].
  erewrite set_prev_eq by done. unfold put_node. do 2 f_equal. apply map_eq. intros p.
  destruct (decide (p = y)) as [->|]; simpl.
  - by rewrite lookup_insert_eq, lookup_alter_eq, Hs.
  - by rewrite lookup_insert_ne, lookup_alter_ne by done.
Qed.

(** The header after the two guarded stores to [head] and [tail]. *)
Lemma header_unlink h l a x b :
  l <> NULL -> x <> NULL -> NoDup (a ++ x :: b) -> lists h !! l = Some (header_of (a ++ x :: b)) ->
  (h ← (if x =? hd NULL (a ++ x :: b) then set_head h l (hd NULL b) else Ret h);
   hd ← get_list h l;
   if x =? tail_ hd then set_tail h l (List.last a NULL) else Ret h) =
  Ret (put_list h l (Header (hd NULL (a ++ b)) (List.last (a ++ b) NULL)
                       (Z.of_nat (length (a ++ x :: b))))).
Proof.
  intros Hl Hx Hnd Hh.
  assert ((if x =? hd NULL (a ++ x :: b) then set_head h l (hd NULL b) else Ret h) =
    Ret (put_list h l (Header (hd NULL (a ++ b)) (List.last (a ++ x :: b) NULL)
           (Z.of_nat (length (a ++ x :: b)))))) as ->.
  { destruct a as [|w a]; simpl.
    - rewrite Z.eqb_refl. by erewrite set_head_eq by done.
    - destruct (Z.eqb_spec x w) as [->|]; [exfalso; mem|]. unfold put_list.
      rewrite insert_id by done. by destruct h. }
  simpl. erewrite get_list_eq by heap_lookup. simpl. rewrite last_app_cons.
  destruct b as [|y b].
  - simpl. rewrite Z.eqb_refl. erewrite set_tail_eq by heap_lookup. simpl. rewrite app_nil_r.
    unfold put_list. simpl. by rewrite insert_insert_eq.
  - destruct (Z.eqb_spec x (List.last (y :: b) x)) as [E|].
    + exfalso. pose proof (last_in b y x) as Hin. rewrite <- E in Hin. mem.
    + by rewrite last_app_cons, last_cons_d.
Qed.

(** [list_delete] unlinks the node and leaves it detached. *)
Lemma list_delete_rep h l a x b va vx vb :
  list_rep h l (a ++ x :: b) (va ++ vx :: vb) -> length va = length a ->
  Z.of_nat (length (a ++ x :: b)) < 2147483648 ->
  exists h', list_delete h l x = Ret h' /\ list_rep h' l (a ++ b) (va ++ vb) /\
    nodes h' !! x = Some (Node NULL NULL vx NULL) /\ frame h h' l (a ++ x :: b).
Proof.
  intros Hrep Hva Hlen. pose proof (rep_get_node _ _ _ _ _ _ _ _ Hrep Hva) as Hgx.
  destruct Hrep as [Hl Hh Hnd Hnull Hs]. assert (x <> NULL) by mem.
  apply seg_app in Hs as [Hs1 [Hx Hs2]]; [|done]. simpl in Hs1.
  pose proof Hnd as [Hxn Hnd']%NoDup_middle.
  apply NoDup_app in Hnd' as (Hna & Hdis & Hnb).
  assert ((x ∉ a) /\ (x ∉ b) /\ (NULL ∉ a) /\ (NULL ∉ b)) as (Hxa & Hxb & Hnua & Hnub) by mem.
  unfold list_delete. rewrite Hgx. simpl. erewrite get_list_eq by done. simpl.
  match goal with |- context [mbind _ (if _ then set_head ?h' _ _ else _)] =>
    pose proof (header_unlink h' l a x b Hl H Hnd Hh) as Hhd end.
  destruct (if x =? _ then _ else _) as [h1| |]; simpl in *; try done.
  destruct (get_list h1 l) as [hd1| |]; simpl in *; try done.
  rewrite Hhd. simpl. clear Hhd h1 hd1.
  erewrite store_relink_next by done. simpl.
  erewrite get_node_eq by (simpl; rewrite ?relink_next_other by done; done). simpl.
  erewrite store_relink_prev; [|done|].
  2:{ simpl. eapply seg_agree; [|done]. intros p Hp. apply relink_next_other. set_solver. }
  simpl.
  set (m2 := relink_prev _ _ _).
  assert (m2 !! x = Some (Node (hd NULL b) (List.last a NULL) vx l)) as Hm2
    by (unfold m2; by rewrite relink_prev_other, relink_next_other).
  repeat heap_step. eexists. split; [done|]. split; [|split].
  - constructor; simpl; try done; [|by apply NoDup_middle in Hnd as [_ ?]|mem|].
    + rewrite lookup_insert_eq. unfold header_of. rewrite s32_small by lens.
      do 2 f_equal. lens.
    + rewrite !seg_insert by done. apply seg_app; [done|]. split.
      * eapply seg_agree; [|by eapply seg_relink_next].
        intros p Hp. apply relink_prev_other. by apply Hdis.
      * apply seg_relink_prev with x; [done|]. eapply seg_agree; [|done].
        intros p Hp. apply relink_next_other. intros Hpa. by apply (Hdis p).
  - heap_lookup.
  - split; intros p Hp; simpl; [|by rewrite !lookup_insert_ne].
    rewrite elem_of_middle in Hp. rewrite !lookup_insert_ne by mem.
    unfold m2. rewrite relink_prev_other, relink_next_other; mem.
Qed.

(** ** Walks *)

Lemma find_from_seg h l pr ps vs v fuel :
  NULL ∉ ps -> seg (nodes h) l pr ps vs NULL -> (length ps < fuel)%nat ->
  find_from fuel h (hd NULL ps) v =
    Ret (default NULL (Seq.index vs v ≫= fun i => ps !! i)).
Proof.
  revert pr vs fuel. induction ps as [|q ps IH]; intros pr [|w vs] [|fuel] Hn Hs Hf;
    try (done || (simpl in Hf; lia)).
  destruct Hs as [Hq Hs]. assert (q <> NULL) as Hq0 by mem. cbn [find_from hd].
  destruct (Z.eqb_spec q NULL); [done|]. erewrite get_node_eq by done. simpl.
  destruct (w =? v); [done|].
  rewrite (IH q vs fuel); [|mem|done|simpl in Hf; lia]. by destruct (Seq.index vs v).
Qed.

Lemma index_of_from_seg h l pr ps vs v fuel i :
  NULL ∉ ps -> seg (nodes h) l pr ps vs NULL -> (length ps < fuel)%nat ->
  index_of_from fuel h (hd NULL ps) v i =
    Ret (match Seq.index vs v with Some k => i + Z.of_nat k | None => -1 end).
Proof.
  revert pr vs fuel i. induction ps as [|q ps IH]; intros pr [|w vs] [|fuel] i Hn Hs Hf;
    try (done || (simpl in Hf; lia)).
  destruct Hs as [Hq Hs]. assert (q <> NULL) as Hq0 by mem. cbn [index_of_from hd].
  destruct (Z.eqb_spec q NULL); [done|]. erewrite get_node_eq by done. simpl.
  destruct (w =? v); [f_equal; lia|].
  rewrite (IH q vs fuel); [|mem|done|simpl in Hf; lia].
  destruct (Seq.index vs v); simpl; f_equal; lia.
Qed.

Lemma rep_fuel h l ps vs : list_rep h l ps vs -> (length ps < walk_fuel h)%nat.
Proof. intros [_ _ Hnd _ Hs]. apply seg_fuel in Hs; [|done]. unfold walk_fuel. lia. Qed.

(** Walking [k] nodes of a list that has at least [k]. *)
Lemma advance_seg h l pr a b vs :
  NULL ∉ a ++ b -> seg (nodes h) l pr (a ++ b) vs NULL ->
  advance (length a) h (hd NULL (a ++ b)) = Ret (hd NULL b).
Proof.
  revert pr vs. induction a as [|q a IH]; intros pr [|w vs] Hn Hs; try done.
  destruct Hs as [Hq Hs]. assert (q <> NULL) by mem. simpl.
  erewrite get_node_eq by done. simpl. eapply IH; [mem|done].
Qed.

(** ** Properties *)

Section Properties.
Context `{Valloc}.

(** The node [list_insert] and its variants start from. *)
Definition with_node (h : heap) (v : ptr) : heap :=
  put_node h (valloc h) (Node NULL NULL v NULL).

Lemma valloc_not_in h l ps vs : list_rep h l ps vs -> valloc h ∉ ps.
Proof.
  intros Hr Hin. pose proof (seg_dom _ _ _ _ _ _ _ (rep_seg _ _ _ _ Hr) Hin) as Hd.
  apply elem_of_dom in Hd as [n Hn]. by rewrite valloc_node in Hn.
Qed.

Lemma rep_with_node h l ps vs v : list_rep h l ps vs -> list_rep (with_node h v) l ps vs.
Proof.
  intros Hr. pose proof (valloc_not_in _ _ _ _ Hr) as Hn. destruct Hr as [? ? ? ? ?].
  constructor; try done. simpl. by apply seg_insert.
Qed.

Lemma frame_with_node h h' v l ps :
  frame (with_node h v) h' l (valloc h :: ps) -> frame h h' l (valloc h :: ps).
Proof.
  intros [Hf1 Hf2]. split; [|done]. intros p Hp. rewrite Hf1 by done. simpl.
  apply lookup_insert_ne. mem.
Qed.

(** [list_insert] appends a fresh node carrying the item, and changes
    nothing outside the list. *)
Theorem list_insert_refines h l ps vs v :
  list_rep h l ps vs -> room ps ->
  exists h', list_insert h l v = Ret (h', valloc h) /\
    list_rep h' l (ps ++ [valloc h]) (Seq.insert vs v) /\
    frame h h' l (valloc h :: ps).
Proof.
  intros Hr Hroom. pose proof (rep_with_node _ _ _ _ v Hr) as Hr'.
  destruct (list_append_rep _ _ _ _ (valloc h) (Node NULL NULL v NULL) Hr' Hroom)
    as (h' & He & Hrep & Hf);
    [apply valloc_nonnull|by eapply valloc_not_in|apply lookup_insert_eq|].
  exists h'. unfold list_insert. unfold with_node in He. rewrite He. simpl.
  split; [done|]. split; [done|]. by eapply frame_with_node.
Qed.

(** Inserting after, or before, a node of the list puts a fresh node with
    the item at exactly that place, and changes nothing outside the list. *)
Theorem list_insert_beside_refines h l a x b va vx vb v :
  list_rep h l (a ++ x :: b) (va ++ vx :: vb) -> length va = length a ->
  room (a ++ x :: b) ->
  (exists h', list_insert_after h l x v = Ret (h', valloc h) /\
     list_rep h' l (a ++ x :: valloc h :: b) (va ++ vx :: v :: vb) /\
     frame h h' l (valloc h :: a ++ x :: b)) /\
  (exists h', list_insert_before h l x v = Ret (h', valloc h) /\
     list_rep h' l (a ++ valloc h :: x :: b) (va ++ v :: vx :: vb) /\
     frame h h' l (valloc h :: a ++ x :: b)).
Proof.
  intros Hr Hva Hroom. pose proof (rep_with_node _ _ _ _ v Hr) as Hr'.
  pose proof (valloc_not_in _ _ _ _ Hr) as Hnin. pose proof (valloc_nonnull h) as Hnn.
  split.
  - edestruct (list_append_after_rep _ _ _ _ _ _ _ _ (valloc h) v Hr' Hva Hroom Hnn Hnin)
      as (h' & He & Hrep & Hf); [apply lookup_insert_eq|].
    exists h'. unfold list_insert_after. unfold with_node in He. rewrite He. simpl.
    split; [done|]. split; [done|]. by eapply frame_with_node.
  - edestruct (list_append_before_rep _ _ _ _ _ _ _ _ (valloc h) v Hr' Hva Hroom Hnn Hnin)
      as (h' & He & Hrep & Hf); [apply lookup_insert_eq|].
    exists h'. unfold list_insert_before. unfold with_node in He. rewrite He. simpl.
    split; [done|]. split; [done|]. by eapply frame_with_node.
Qed.

(** [copy_loop] keeps a list it can insert into. *)
Definition insertable (h : heap) (l : ptr) : Prop :=
  l <> NULL /\ exists hd, lists h !! l = Some hd /\
    (length_ hd <> 0 -> tail_ hd <> NULL /\ is_Some (nodes h !! tail_ hd)).

Lemma list_insert_insertable h l v x :
  insertable h l -> x <> NULL -> is_Some (nodes h !! x) ->
  exists h' q, list_insert h l v = Ret (h', q) /\ insertable h' l /\ is_Some (nodes h' !! x).
Proof.
  intros (Hl & hd & Hh & Ht) Hx [nx Hnx].
  pose proof (valloc_nonnull h). pose proof (valloc_node h) as Hfree.
  assert (x <> valloc h) by congruence.
  unfold list_insert, list_append. do 2 heap_step. erewrite get_list_eq by done. simpl.
  destruct (Z.eqb_spec (length_ hd) 0) as [E|E].
  - repeat heap_step. do 2 eexists. split; [done|]. split.
    + split; [done|]. eexists. split; [heap_lookup|]. simpl. intros _. split; [done|].
      eexists. heap_lookup.
    + eexists. simpl. rewrite !lookup_insert_ne by congruence. done.
  - destruct (Ht E) as [Htn [nt Hnt]]. assert (tail_ hd <> valloc h) by congruence.
    repeat heap_step. do 2 eexists. split; [done|]. split.
    + split; [done|]. eexists. split; [heap_lookup|]. simpl. intros _. split; [done|].
      eexists. heap_lookup.
    + simpl. destruct (decide (x = tail_ hd)) as [->|]; eexists; heap_lookup.
Qed.

Lemma copy_loop_diverges fuel h out x :
  insertable h out -> x <> NULL -> is_Some (nodes h !! x) -> copy_loop fuel h out x = OutOfFuel.
Proof.
  revert h. induction fuel as [|fuel IH]; intros h Hi Hx Hn; [done|]. cbn [copy_loop].
  destruct (Z.eqb_spec x NULL) as [|_]; [done|]. destruct Hn as [n Hn].
  erewrite get_node_eq by done. simpl.
  destruct (list_insert_insertable h out (value n) x) as (h' & q & -> & Hi' & Hn'); eauto.
Qed.

(** [list_copy] of a non-empty list never returns: its loop tests the same
    node again and again, inserting its value each time. *)
Theorem list_copy_diverges h l ps vs fuel :
  list_rep h l ps vs -> ps <> [] -> list_copy fuel h l = OutOfFuel.
Proof.
  intros [Hl Hh Hnd Hnull Hs] Hne. unfold list_copy, list_create.
  pose proof (valloc_list h). assert (l <> valloc h) by congruence.
  erewrite get_list_eq by (done || heap_lookup). simpl.
  destruct ps as [|x ps]; [done|]. destruct vs as [|v vs]; [done|]. destruct Hs as [Hx _].
  rewrite copy_loop_diverges; [done| |simpl; mem|by eexists].
  split; [apply valloc_nonnull|]. eexists. split; [apply lookup_insert_eq|]. done.
Qed.

End Properties.

(** [list_pop] and [list_dequeue] return [NULL] on the empty list and
    otherwise unlink the last, respectively first, node, whose value is the
    one the sequence operation returns. *)
Theorem list_pop_dequeue_refine h l ps vs :
  list_rep h l ps vs -> Z.of_nat (length ps) < 2147483648 ->
  (exists h' q ps', list_pop h l = Ret (h', q) /\
     list_rep h' l ps' (Seq.pop vs).2 /\ ps' = take (Nat.pred (length ps)) ps /\
     match (Seq.pop vs).1 with
     | None => q = NULL /\ h' = h
     | Some v => nodes h' !! q = Some (Node NULL NULL v NULL)
     end /\ frame h h' l ps) /\
  (exists h' q ps', list_dequeue h l = Ret (h', q) /\
     list_rep h' l ps' (Seq.dequeue vs).2 /\ ps' = tail ps /\
     match (Seq.dequeue vs).1 with
     | None => q = NULL /\ h' = h
     | Some v => nodes h' !! q = Some (Node NULL NULL v NULL)
     end /\ frame h h' l ps).
Proof.
  intros Hr Hlen. pose proof (rep_get_list _ _ _ _ Hr) as Hg.
  pose proof (rep_length _ _ _ _ Hr) as Hvl.
  unfold list_pop, list_dequeue. rewrite Hg. simpl.
  destruct (decide (ps = [])) as [->|Hne].
  { destruct vs; [|done]. by split; eexists h, NULL, []. }
  split.
  - destruct ps as [|x a _] using rev_ind; [done|]. clear Hne.
    pose proof Hr as Hr'. apply rep_split in Hr as (va & v & vb & -> & Hva & Hvb).
    destruct vb; [|done]. rewrite last_snoc_d.
    pose proof (rep_null _ _ _ _ Hr'). destruct (Z.eqb_spec x NULL); [exfalso; mem|].
    edestruct list_delete_rep as (h' & -> & Hrep & Hx & Hf); [done|done|done|].
    simpl. rewrite !last_snoc, !length_app, !Nat.add_1_r. simpl.
    rewrite !take_app_length. rewrite !app_nil_r in Hrep. by do 3 eexists.
  - destruct ps as [|x b]; [done|]. destruct vs as [|v vb]; [done|]. simpl.
    pose proof (rep_null _ _ _ _ Hr). destruct (Z.eqb_spec x NULL); [exfalso; mem|].
    edestruct (list_delete_rep h l [] x b [] v vb) as (h' & -> & Hrep & Hx & Hf); [done|done|done|].
    by do 3 eexists.
Qed.

(** [list_find] returns the address of the first node carrying the value,
    or [NULL], and [list_index_of] its position, or -1; the walk always ends. *)
Theorem list_find_index_refine h l ps vs v :
  list_rep h l ps vs ->
  list_find h l v = Ret (default NULL (Seq.index vs v ≫= fun i => ps !! i)) /\
  list_index_of h l v =
    Ret (match Seq.index vs v with Some k => Z.of_nat k | None => -1 end).
Proof.
  intros Hr. pose proof (rep_get_list _ _ _ _ Hr) as Hg. pose proof (rep_fuel _ _ _ _ Hr).
  destruct Hr as [_ _ _ Hn Hs]. unfold list_find, list_index_of. rewrite Hg.
  cbn [mbind outcome_bind head_ header_of].
  erewrite find_from_seg, index_of_from_seg by done. split; [done|].
  by destruct (Seq.index vs v).
Qed.

(** [list_remove] deletes the node at a valid index; for an index equal to
    the length the guard [index > length] does not stop it and it dereferences
    [NULL]. *)
Theorem list_remove_behaviour h l ps vs (k : nat) :
  list_rep h l ps vs -> Z.of_nat (length ps) < 2147483648 -> (k <= length ps)%nat ->
  ((k < length ps)%nat -> exists h', list_remove h l (Z.of_nat k) = Ret h' /\
     list_rep h' l (Seq.delete k ps) (Seq.delete k vs)) /\
  (k = length ps -> list_remove h l (Z.of_nat k) = Fault).
Proof.
  intros Hr Hlen Hk. pose proof (rep_get_list _ _ _ _ Hr) as Hg.
  unfold list_remove. rewrite Hg. simpl.
  destruct (Z.ltb_spec (Z.of_nat (length ps)) (Z.of_nat k)); [lia|].
  rewrite Nat2Z.id. split.
  - intros Hlt. destruct (lookup_lt_is_Some_2 ps k Hlt) as [x Hx].
    pose proof (take_drop_middle ps k x Hx) as Hps.
    assert (length (take k ps) = k) as Htk by (rewrite length_take; lia).
    rewrite <- Hps in Hr. pose proof Hr as Hr'.
    apply rep_split in Hr as (va & v & vb & -> & Hva & Hvb). rewrite Htk in Hva.
    pose proof (advance_seg _ _ _ (take k ps) (x :: drop (S k) ps) _
      (rep_null _ _ _ _ Hr') (rep_seg _ _ _ _ Hr')) as Ha.
    rewrite Htk, Hps in Ha. rewrite Ha. simpl.
    edestruct list_delete_rep as (h' & -> & Hrep & _); [done|by rewrite Htk|by rewrite Hps|].
    exists h'. split; [done|]. unfold Seq.delete.
    replace (take k (va ++ v :: vb)) with va by (rewrite <- Hva; by rewrite take_app_length).
    replace (drop (S k) (va ++ v :: vb)) with vb; [done|].
    rewrite <- Hva, <- Nat.add_1_r. rewrite <- drop_drop. by rewrite drop_app_length.
  - intros ->. destruct Hr as [_ _ _ Hn Hs].
    rewrite <- (app_nil_r ps) in Hn, Hs. pose proof (advance_seg _ _ _ ps [] _ Hn Hs) as Ha.
    rewrite app_nil_r in Ha. by rewrite Ha.
Qed.

(** ** Merging *)

Lemma own_from_seg fuel h l pr ps vs t :
  NULL ∉ ps -> NoDup ps -> seg (nodes h) l pr ps vs NULL -> (length ps < fuel)%nat ->
  exists m, own_from fuel h (hd NULL ps) t = Ret (Heap m (lists h) (freed h)) /\
    seg m t pr ps vs NULL /\ forall p, p ∉ ps -> m !! p = nodes h !! p.
Proof.
  revert h pr vs fuel. induction ps as [|q ps IH]; intros h pr [|w vs] [|fuel] Hn Hnd Hs Hf;
    try (done || (simpl in Hf; lia)).
  { exists (nodes h). simpl. by destruct h. }
  destruct Hs as [Hq Hs]. assert (q <> NULL) as Hq0 by mem. cbn [own_from hd].
  apply NoDup_cons in Hnd as [Hqn Hnd].
  destruct (Z.eqb_spec q NULL) as [|_]; [done|]. repeat heap_step.
  destruct (IH (put_node h q (Node (hd NULL ps) pr w t)) q vs fuel) as (m & -> & Hm & Ho);
    [mem|done|by apply seg_insert|simpl in Hf; lia|].
  exists m. split; [done|]. split.
  - split; [|done]. rewrite Ho by done. apply lookup_insert_eq.
  - intros p Hp. rewrite Ho by mem. apply lookup_insert_ne. mem.
Qed.

(** The stores of [list_merge] to the target's end and header. *)
Lemma merge_link h t l ps vs nx hs :
  t <> NULL -> NULL ∉ ps -> seg (nodes h) l NULL ps vs nx ->
  lists h !! t = Some (header_of ps) ->
  (if truthy (List.last ps NULL) then set_next h (List.last ps NULL) hs
   else set_head h t hs) =
  Ret (Heap (relink_next (nodes h) ps hs)
         (<[t := Header (hd hs ps) (List.last ps NULL) (Z.of_nat (length ps))]> (lists h))
         (freed h)).
Proof.
  intros Ht Hn Hs Hh. pose proof (store_relink_next h l NULL ps vs nx hs Hn Hs) as Hst.
  destruct ps as [|p ps].
  - simpl in *. erewrite set_head_eq by done. by destruct h.
  - unfold truthy in *. pose proof (last_in ps p NULL) as Hl.
    destruct (Z.eqb_spec (List.last (p :: ps) NULL) 0) as [E|E].
    { exfalso. rewrite E in Hl. unfold NULL in *. mem. }
    simpl negb in *. cbv iota in *. rewrite Hst. do 2 f_equal.
    symmetry. by apply insert_id.
Qed.

(** [list_merge] appends the whole source list to the target, re-owns its
    nodes, frees the source header and touches nothing else. *)
Theorem list_merge_refines h t s ps vs ps2 vs2 :
  list_rep h t ps vs -> list_rep h s ps2 vs2 -> t <> s ->
  (forall p, p ∈ ps -> p ∉ ps2) -> nodes h !! s = None ->
  Z.of_nat (length ps + length ps2) < 2147483648 ->
  exists h', list_merge h t s = Ret h' /\ list_rep h' t (ps ++ ps2) (vs ++ vs2) /\
    lists h' !! s = None /\ freed h' = s :: freed h /\
    forall p, p ∉ ps ++ ps2 -> p <> s -> nodes h' !! p = nodes h !! p.
Proof.
  intros Ht Hs2 Hne Hdis Hsn Hlen.
  pose proof (rep_get_list _ _ _ _ Hs2) as Hgs. pose proof (rep_fuel _ _ _ _ Hs2) as Hfuel.
  pose proof (rep_length _ _ _ _ Ht) as Hvl.
  destruct Ht as [Htn Hth Htd Htnull Hts], Hs2 as [Hsnn Hsh Hsd Hsnull Hss].
  unfold list_merge. rewrite Hgs. cbn [mbind outcome_bind].
  destruct (own_from_seg (walk_fuel h) h s NULL ps2 vs2 t) as (m & Hm & Hm1 & Hm2);
    [done..|]. cbn [head_ header_of]. rewrite Hm. cbn [mbind outcome_bind].
  erewrite get_list_eq by done. cbn [mbind outcome_bind tail_ header_of].
  erewrite store_relink_prev by done. cbn [mbind outcome_bind nodes lists freed].
  set (m2 := relink_prev _ _ _).
  assert (seg m2 t NULL ps vs NULL) as Hts2.
  { eapply seg_agree; [|exact Hts]. intros p Hp. unfold m2.
    rewrite relink_prev_other, Hm2; [done|by apply Hdis..]. }
  erewrite merge_link by done. cbn [mbind outcome_bind nodes lists freed].
  set (m3 := relink_next _ _ _).
  erewrite get_list_eq by (done || heap_lookup). cbn [mbind outcome_bind tail_ header_of].
  assert (exists h4, (if truthy (List.last ps2 NULL) then
      set_tail (Heap m3 (<[t := Header (hd (hd NULL ps2) ps) (List.last ps NULL)
        (Z.of_nat (length ps))]> (lists h)) (freed h)) t (List.last ps2 NULL)
      else Ret (Heap m3 (<[t := Header (hd (hd NULL ps2) ps) (List.last ps NULL)
        (Z.of_nat (length ps))]> (lists h)) (freed h))) = Ret h4 /\
      nodes h4 = m3 /\ freed h4 = freed h /\ lists h4 !! s = Some (header_of ps2) /\
      lists h4 !! t = Some (Header (hd NULL (ps ++ ps2)) (List.last (ps ++ ps2) NULL)
        (Z.of_nat (length ps)))) as (h4 & -> & H4n & H4f & H4s & H4t).
  { rewrite hd_app_ne. destruct ps2 as [|y ps2].
    - eexists. split; [done|]. simpl. rewrite app_nil_r, lookup_insert_eq.
      by rewrite lookup_insert_ne.
    - unfold truthy. rewrite last_app_cons, last_cons_d.
      destruct (Z.eqb_spec (List.last ps2 y) 0) as [E|E].
      { exfalso. pose proof (last_in ps2 y NULL) as Hl. rewrite last_cons_d, E in Hl.
        unfold NULL in *. mem. }
      simpl negb. cbv iota. erewrite set_tail_eq by (done || heap_lookup).
      eexists. split; [done|]. simpl. rewrite !lookup_insert_eq.
      by rewrite !lookup_insert_ne. }
  cbn [mbind outcome_bind].
  erewrite get_list_eq by done. cbn [mbind outcome_bind length_ header_of].
  erewrite add_length_eq by done. cbn [mbind outcome_bind head_ tail_ length_].
  eexists. split; [done|]. unfold free, put_list. cbn [lists nodes freed].
  split; [|split; [|split]].
  - assert (s ∉ ps ++ ps2) as Hsin.
    { intros [Hin|Hin]%elem_of_app;
        [eapply seg_dom in Hts|eapply seg_dom in Hss]; eauto;
        [apply elem_of_dom in Hts as [? ?]|apply elem_of_dom in Hss as [? ?]]; congruence. }
    constructor; cbn [lists nodes].
    + done.
    + rewrite lookup_delete_ne, lookup_insert_eq by done. unfold header_of.
      rewrite s32_small, length_app by lia. do 2 f_equal. lia.
    + apply NoDup_app. split; [done|]. split; [|done]. intros p Hp. by apply Hdis.
    + mem.
    + rewrite H4n. rewrite seg_delete by done. apply seg_app; [lia|]. split.
      * unfold m3. by eapply seg_relink_next.
      * eapply seg_agree; [|by eapply seg_relink_prev].
        intros p Hp. unfold m3. apply relink_next_other. intros Hp'. by apply (Hdis p).
  - apply lookup_delete_eq.
  - by rewrite H4f.
  - intros p Hp Hps. rewrite lookup_delete_ne by done. rewrite H4n. unfold m3, m2.
    rewrite relink_next_other, relink_prev_other, Hm2; [done|mem..].
Qed.

(** ** Witnesses *)

(** An allocator that satisfies the interface. *)
#[export] Program Instance fresh_valloc : Valloc := {|
  valloc h := fresh ({[NULL]} ∪ dom (nodes h) ∪ dom (lists h) : gset ptr)
|}.
Next Obligation. intros h E. pose proof (is_fresh ({[NULL]} ∪ dom (nodes h) ∪ dom (lists h) : gset ptr)). rewrite E in *. set_solver. Qed.
Next Obligation. intros h. apply not_elem_of_dom. pose proof (is_fresh ({[NULL]} ∪ dom (nodes h) ∪ dom (lists h) : gset ptr)). set_solver. Qed.
Next Obligation. intros h. apply not_elem_of_dom. pose proof (is_fresh ({[NULL]} ∪ dom (nodes h) ∪ dom (lists h) : gset ptr)). set_solver. Qed.

(** Two lists: 16 - 32 at header 8 and 48 at header 12. *)
Definition demo : heap :=
  Heap (<[16 := Node 32 NULL 100 8]> (<[32 := Node NULL 16 200 8]>
        (<[48 := Node NULL NULL 300 12]> ∅)))
       (<[8 := Header 16 32 2]> (<[12 := Header 48 48 1]> ∅)) [].

Lemma demo_rep : list_rep demo 8 [16; 32] [100; 200].
Proof. constructor; (done || by_decide). Qed.
Lemma demo_rep2 : list_rep demo 12 [48] [300].
Proof. constructor; (done || by_decide). Qed.

Lemma list_insert_refines_witness :
  exists h', list_insert demo 8 7 = Ret (h', valloc demo) /\
    list_rep h' 8 ([16; 32] ++ [valloc demo]) (Seq.insert [100; 200] 7) /\
    frame demo h' 8 (valloc demo :: [16; 32]).
Proof. apply (list_insert_refines demo 8 [16; 32] [100; 200] 7 demo_rep). reflexivity. Defined.

Lemma list_insert_beside_refines_witness :
  (exists h', list_insert_after demo 8 16 7 = Ret (h', valloc demo) /\
     list_rep h' 8 ([] ++ 16 :: valloc demo :: [32]) ([] ++ 100 :: 7 :: [200]) /\
     frame demo h' 8 (valloc demo :: [] ++ 16 :: [32])) /\
  (exists h', list_insert_before demo 8 16 7 = Ret (h', valloc demo) /\
     list_rep h' 8 ([] ++ valloc demo :: 16 :: [32]) ([] ++ 7 :: 100 :: [200]) /\
     frame demo h' 8 (valloc demo :: [] ++ 16 :: [32])).
Proof.
  apply (list_insert_beside_refines demo 8 [] 16 [32] [] 100 [200] 7 demo_rep); reflexivity.
Defined.

Lemma list_copy_diverges_witness : list_copy 1000 demo 8 = OutOfFuel.
Proof. apply (list_copy_diverges demo 8 _ _ 1000 demo_rep). discriminate. Defined.

Lemma list_pop_dequeue_refine_witness :
  exists h' q ps', list_pop demo 8 = Ret (h', q) /\ list_rep h' 8 ps' [100] /\ ps' = [16] /\
    nodes h' !! q = Some (Node NULL NULL 200 NULL) /\ frame demo h' 8 [16; 32].
Proof. apply (list_pop_dequeue_refine demo 8 _ _ demo_rep). reflexivity. Defined.

Lemma list_find_index_refine_witness :
  list_find demo 8 200 = Ret 32 /\ list_index_of demo 8 200 = Ret 1.
Proof. apply (list_find_index_refine demo 8 _ _ 200 demo_rep). Defined.

Lemma list_remove_behaviour_witness :
  ((2 < 2)%nat -> exists h', list_remove demo 8 2 = Ret h' /\
     list_rep h' 8 (Seq.delete 2 [16; 32]) (Seq.delete 2 [100; 200])) /\
  (2%nat = 2%nat -> list_remove demo 8 2 = Fault).
Proof. apply (list_remove_behaviour demo 8 _ _ 2 demo_rep); [reflexivity|simpl; lia]. Defined.

Lemma list_merge_refines_witness :
  exists h', list_merge demo 8 12 = Ret h' /\ list_rep h' 8 ([16; 32] ++ [48]) ([100; 200] ++ [300]) /\
    lists h' !! 12 = None /\ freed h' = 12 :: freed demo /\
    forall p, p ∉ [16; 32] ++ [48] -> p <> 12 -> nodes h' !! p = nodes demo !! p.
Proof.
  apply (list_merge_refines demo 8 12 _ _ _ _ demo_rep demo_rep2); try done.
  intros p Hp; revert p Hp; apply Forall_forall; by_decide.
Defined.
End LinkedList.
