(* ===== verification/Hashmap.v ===== *)
(** * The chained hash table of [kernel/src/hashmap.c]

    The function pointers of [hashmap_t] are the interface [HashOps]; the two
    families the source installs ([hashmap_create], [hashmap_create_int]) are
    its instances.  A bucket is the chain of entries from [entries[i]], in
    order.  The abstraction [abs] is a finite map, and the operations are
    proved to be lookup, insertion and deletion on it. *)

From stdpp Require Import base list gmap numbers fin_maps.
From S2P Require Import Prelude CString LinkedList.

(** What the table needs of its key functions. *)
Class HashOps (K : Type) := {
  hash_func : K -> Z;
  hash_comp : K -> K -> Z;
  key_ok : K -> Prop;
  hash_func_u32 k : 0 <= hash_func k < 4294967296;
  hash_comp_eq a b : key_ok a -> key_ok b -> hash_comp a b <> 0 <-> a = b
}.

Module Hashmap.

(** ** Key functions *)

(** The "sdbm" hash: [hash = c + (hash << 6) + (hash << 16) - hash]. *)
Fixpoint sdbm (key : cstring) (hash : Z) : Z :=
  match key with
  | [] => hash
  | c :: key' =>
      sdbm key' (u32 (s8 c + u32 (Z.shiftl hash 6) + u32 (Z.shiftl hash 16) - hash))
  end.

Definition hashmap_string_hash (key : cstring) : Z := sdbm key 0.
Definition hashmap_string_comp (a b : cstring) : Z := b2z (negb (truthy (strcmp a b))).
Definition hashmap_int_hash (key : Z) : Z := u32 key.
Definition hashmap_int_comp (a b : Z) : Z := b2z (s32 a =? s32 b).

Lemma sdbm_u32 key hash : 0 <= hash < 4294967296 -> 0 <= sdbm key hash < 4294967296.
Proof. revert hash. induction key; intros hash Hh; [done|]. apply IHkey, u32_bound. Qed.

#[export] Program Instance string_hash : HashOps cstring := {|
  hash_func := hashmap_string_hash;
  hash_comp := hashmap_string_comp;
  key_ok := cstring_ok
|}.
Next Obligation. intros. apply sdbm_u32. lia. Qed.
Next Obligation.
  intros a b Ha Hb. rewrite <- (strcmp_zero a b Ha Hb).
  unfold hashmap_string_comp, truthy. destruct (Z.eqb_spec (strcmp a b) 0); simpl; lia.
Qed.

#[export] Program Instance int_hash : HashOps Z := {|
  hash_func := hashmap_int_hash;
  hash_comp := hashmap_int_comp;
  key_ok k := -2147483648 <= k < 2147483648
|}.
Next Obligation. intros. apply u32_bound. Qed.
Next Obligation.
  simpl. intros a b Ha Hb. unfold hashmap_int_comp. rewrite !s32_small by done.
  destruct (Z.eqb_spec a b); simpl; lia.
Qed.

(** ** The table *)

Section Table.
Context {K : Type} `{HashOps K}.

Abbreviation entry := (K * ptr)%type.

Record hashmap_t := Build_hashmap {
  size : Z;
  entries : list (list entry)
}.

Definition hashmap_create (sz : Z) : hashmap_t :=
  Build_hashmap sz (replicate (Z.to_nat sz) []).

(** [map->hash_func(key) % map->size]: unsigned, a fault when the size is 0. *)
Definition bucket_no (map : hashmap_t) (key : K) : outcome Z :=
  if u32 (size map) =? 0 then Fault else Ret (hash_func key mod u32 (size map)).

(** The [do ... while (x)] loop of [hashmap_set] on a non-empty chain. *)
Fixpoint chain_set (x : list entry) (key : K) (value : ptr) : list entry * ptr :=
  match x with
  | [] => ([(key, value)], NULL)
  | (k, out) :: next =>
      if truthy (hash_comp k key) then ((k, value) :: next, out)
      else let '(next', r) := chain_set next key value in ((k, out) :: next', r)
  end.

Definition hashmap_set (map : hashmap_t) (key : K) (value : ptr) : outcome (hashmap_t * ptr) :=
  hash ← bucket_no map key;
  x ← aget (entries map) hash;
  let '(x', out) := match x with
                    | [] => ([(key, value)], NULL)
                    | _ :: _ => chain_set x key value
                    end in
  es ← aset (entries map) hash x';
  Ret (Build_hashmap (size map) es, out).

Fixpoint chain_get (x : list entry) (key : K) : ptr :=
  match x with
  | [] => NULL
  | (k, v) :: next => if truthy (hash_comp k key) then v else chain_get next key
  end.

Definition hashmap_get (map : hashmap_t) (key : K) : outcome ptr :=
  hash ← bucket_no map key;
  x ← aget (entries map) hash;
  Ret (chain_get x key).

Fixpoint chain_has (x : list entry) (key : K) : Z :=
  match x with
  | [] => 0
  | (k, _) :: next => if truthy (hash_comp k key) then 1 else chain_has next key
  end.

Definition hashmap_has (map : hashmap_t) (key : K) : outcome Z :=
  hash ← bucket_no map key;
  x ← aget (entries map) hash;
  Ret (chain_has x key).

(** The loop of [hashmap_remove] after the first entry did not match: [x] is
    the rest of the chain, dereferenced before it is tested. *)
Fixpoint chain_remove (x : list entry) (key : K) : outcome (list entry * ptr) :=
  match x with
  | [] => Fault
  | (k, out) :: next =>
      if truthy (hash_comp k key) then Ret (next, out)
      else match next with
           | [] => Ret ([(k, out)], NULL)
           | _ :: _ => '(next', r) ← chain_remove next key; Ret ((k, out) :: next', r)
           end
  end.

Definition hashmap_remove (map : hashmap_t) (key : K) : outcome (hashmap_t * ptr) :=
  hash ← bucket_no map key;
  x ← aget (entries map) hash;
  '(x', out) ← match x with
               | [] => Ret ([], NULL)
               | (k, out) :: next =>
                   if truthy (hash_comp k key) then Ret (next, out)
                   else '(next', r) ← chain_remove next key; Ret ((k, out) :: next', r)
               end;
  es ← aset (entries map) hash x';
  Ret (Build_hashmap (size map) es, out).

(** The double loop of [hashmap_keys] and [hashmap_values]: every entry is
    appended to a fresh list in bucket order. *)
Definition hashmap_keys (map : hashmap_t) : list K :=
  fold_left (fun l x => fold_left (fun l e => l ++ [e.1]) x l) (entries map) [].
Definition hashmap_values (map : hashmap_t) : list ptr :=
  fold_left (fun l x => fold_left (fun l e => Seq.insert l e.2) x l) (entries map) [].

(** ** Invariant and abstraction *)

Definition bucket_inv (n i : Z) (b : list entry) : Prop :=
  NoDup b.*1 /\ Forall (fun e => key_ok e.1 /\ hash_func e.1 mod n = i) b.

Record inv (map : hashmap_t) : Prop := {
  inv_size : 0 < size map < 2147483648;
  inv_length : Z.of_nat (length (entries map)) = size map;
  inv_bucket : forall i b, entries map !! i = Some b -> bucket_inv (size map) (Z.of_nat i) b
}.

Context `{Countable K}.

Definition abs (map : hashmap_t) : gmap K ptr := list_to_map (concat (entries map)).

(** ** Lemmas *)

Lemma comp_true a b : key_ok a -> key_ok b -> truthy (hash_comp a b) = bool_decide (a = b).
Proof.
  intros Ha Hb. pose proof (hash_comp_eq a b Ha Hb) as E. unfold truthy.
  destruct (Z.eqb_spec (hash_comp a b) 0); case_bool_decide; simpl; tauto.
Qed.

Lemma bucket_no_inv map key :
  inv map -> bucket_no map key = Ret (hash_func key mod size map) /\
             0 <= hash_func key mod size map < Z.of_nat (length (entries map)).
Proof.
  intros [Hs Hl _]. unfold bucket_no. rewrite u32_small by lia.
  destruct (Z.eqb_spec (size map) 0); [lia|]. split; [done|].
  rewrite Hl. apply Z.mod_pos_bound. lia.
Qed.

(** The bucket a key belongs to. *)
Lemma get_bucket map key :
  inv map -> exists b, entries map !! Z.to_nat (hash_func key mod size map) = Some b /\
    aget (entries map) (hash_func key mod size map) = Ret b /\
    bucket_inv (size map) (hash_func key mod size map) b.
Proof.
  intros Hi. destruct (bucket_no_inv map key Hi) as [_ Hr].
  destruct (aget_in_range _ _ Hr) as (b & Hb & Hg). exists b. split; [done|]. split; [done|].
  apply (inv_bucket _ Hi) in Hb. by rewrite Z2Nat.id in Hb by lia.
Qed.

(** Keys of distinct buckets differ, so the whole table has no duplicate key. *)
Lemma buckets_keys_nodup n (bs : list (list entry)) (i0 : nat) :
  (forall i b, bs !! i = Some b -> bucket_inv n (Z.of_nat (i0 + i)) b) ->
  NoDup (concat bs).*1.
Proof.
  revert i0. induction bs as [|b bs IH]; intros i0 Hb; [constructor|].
  simpl. rewrite fmap_app. apply NoDup_app.
  destruct (Hb 0%nat b eq_refl) as [Hnd Hf]. split; [done|]. split.
  - intros k (e & -> & He)%list_elem_of_fmap (e' & Hk & He')%list_elem_of_fmap.
    rewrite Forall_forall in Hf. destruct (Hf _ He) as [_ Hh].
    apply elem_of_concat in He' as (j & b' & Hj & He').
    destruct (Hb (S j) b' Hj) as [_ Hf']. rewrite Forall_forall in Hf'.
    destruct (Hf' e' He') as [_ Hh'].
    rewrite <- Hk in Hh'. lia.
  - apply (IH (S i0)). intros i b' Hi. specialize (Hb (S i) b' Hi).
    by replace (S i0 + i)%nat with (i0 + S i)%nat by lia.
Qed.

Lemma abs_nodup map : inv map -> NoDup (concat (entries map)).*1.
Proof. intros Hi. apply (buckets_keys_nodup (size map) _ 0). apply inv_bucket, Hi. Qed.

(** The abstract map holds exactly the entries of the key's bucket. *)
Lemma abs_lookup map key b v :
  inv map -> key_ok key -> entries map !! Z.to_nat (hash_func key mod size map) = Some b ->
  abs map !! key = Some v <-> (key, v) ∈ b.
Proof.
  intros Hi Hk Hb. unfold abs. rewrite <- elem_of_list_to_map by (by apply abs_nodup).
  split.
  - intros (j & b' & Hj & Hin)%elem_of_concat.
    destruct (inv_bucket _ Hi _ _ Hj) as [_ Hf]. rewrite Forall_forall in Hf.
    destruct (Hf (key, v) Hin) as [_ Hh]. simpl in Hh.
    rewrite Hh, Nat2Z.id in Hb. assert (b = b') as -> by congruence. done.
  - intros Hin. apply elem_of_concat. eauto.
Qed.

Lemma chain_get_spec n i b key :
  bucket_inv n i b -> key_ok key ->
  (forall v, (key, v) ∈ b -> chain_get b key = v /\ chain_has b key = 1) /\
  ((forall v, (key, v) ∉ b) -> chain_get b key = NULL /\ chain_has b key = 0).
Proof.
  intros [Hnd Hf] Hk. induction b as [|[k w] b IH]; simpl.
  { split; [|done]. intros v Hv. by apply elem_of_nil in Hv. }
  apply Forall_cons in Hf as [[Hk' _] Hf]. simpl in *. apply NoDup_cons in Hnd as [Hn Hnd].
  rewrite comp_true by done. destruct (IH Hnd Hf) as [IH1 IH2].
  case_bool_decide as E; [subst|]; (split; [intros v Hv|intros Hno]).
  - apply elem_of_cons in Hv as [[= ->]|Hv]; [done|]. exfalso. apply Hn.
    apply list_elem_of_fmap. by exists (key, v).
  - exfalso. apply (Hno w). by left.
  - apply elem_of_cons in Hv as [[= ? ?]|Hv]; [congruence|]. by apply IH1.
  - apply IH2. intros v Hv. apply (Hno v). by right.
Qed.

(** Reading is looking up the abstract map. *)
Lemma lookup_cases map key b :
  inv map -> key_ok key -> entries map !! Z.to_nat (hash_func key mod size map) = Some b ->
  match abs map !! key with
  | Some v => (key, v) ∈ b
  | None => forall v, (key, v) ∉ b
  end.
Proof.
  intros Hi Hk Hb. destruct (abs map !! key) as [v|] eqn:E.
  - by apply (abs_lookup map key b v Hi Hk Hb).
  - intros v Hv. apply (abs_lookup map key b v Hi Hk Hb) in Hv. congruence.
Qed.

Lemma chain_get_abs map key b :
  inv map -> key_ok key -> entries map !! Z.to_nat (hash_func key mod size map) = Some b ->
  bucket_inv (size map) (hash_func key mod size map) b ->
  chain_get b key = default NULL (abs map !! key) /\
  chain_has b key = b2z (bool_decide (is_Some (abs map !! key))).
Proof.
  intros Hi Hk Hb Hbi. pose proof (lookup_cases map key b Hi Hk Hb) as Hc.
  destruct (chain_get_spec _ _ _ key Hbi Hk) as [H1 H2].
  destruct (abs map !! key) as [v|].
  - by destruct (H1 v Hc) as [-> ->].
  - by destruct (H2 Hc) as [-> ->].
Qed.

(** A chain after [chain_set]: same other entries, [key] bound to [value]. *)
Lemma chain_set_spec n i b key value :
  bucket_inv n i b -> key_ok key -> hash_func key mod n = i ->
  bucket_inv n i (chain_set b key value).1 /\
  (forall k v, (k, v) ∈ (chain_set b key value).1 <->
     (k = key /\ v = value) \/ (k <> key /\ (k, v) ∈ b)) /\
  (chain_set b key value).2 = chain_get b key.
Proof.
  intros [Hnd Hf] Hk Hh. induction b as [|[k w] b IH]; simpl.
  { split; [|split; [|done]].
    - split; simpl; [apply NoDup_singleton|by constructor].
    - intros k v. rewrite list_elem_of_singleton. pose proof (not_elem_of_nil (k, v)). naive_solver. }
  apply Forall_cons in Hf as [[Hk' Hh'] Hf]. simpl in *. apply NoDup_cons in Hnd as [Hn Hnd].
  rewrite comp_true by done. case_bool_decide as E; [subst k|]; simpl.
  - split; [|split; [|done]].
    + split; simpl; [by apply NoDup_cons|by constructor].
    + intros k' v. rewrite !elem_of_cons. split.
      * intros [[= -> ->]|Hin]; [by left|]. right. split; [|by right].
        intros ->. apply Hn, list_elem_of_fmap. by exists (key, v).
      * intros [[-> ->]|[Hne [[= -> _]|Hin]]]; [by left|done|by right].
  - destruct (IH Hnd Hf) as ([Hnd' Hf'] & Hel & Hout).
    destruct (chain_set b key value) as [b' r]. simpl in *. split; [|split; [|done]].
    + split; simpl; [|by constructor]. apply NoDup_cons. split; [|done].
      intros (e & -> & He)%list_elem_of_fmap. destruct e as [k0 v0].
      apply Hel in He as [[-> _]|[_ He]]; [done|]. apply Hn, list_elem_of_fmap. by exists (k0, v0).
    + intros k' v. rewrite !elem_of_cons, Hel. naive_solver.
Qed.

(** Replacing the bucket of a key. *)
Lemma inv_replace map i b :
  inv map -> bucket_inv (size map) (Z.of_nat i) b ->
  inv (Build_hashmap (size map) (<[i := b]> (entries map))).
Proof.
  intros Hi Hb. destruct Hi as [Hs Hl Hbk]. split; simpl; [done|by rewrite length_insert|].
  intros j b' Hj. destruct (decide (i = j)) as [->|Hne].
  - destruct (decide (j < length (entries map))%nat).
    + rewrite list_lookup_insert_eq in Hj by done. by simplify_eq.
    + rewrite list_insert_ge in Hj by lia. by apply Hbk.
  - rewrite list_lookup_insert_ne in Hj by done. by apply Hbk.
Qed.

Lemma abs_key_ok map k : inv map -> is_Some (abs map !! k) -> key_ok k.
Proof.
  intros Hi [v Hv]. unfold abs in Hv. apply elem_of_list_to_map in Hv; [|by apply abs_nodup].
  apply elem_of_concat in Hv as (j & b & Hj & Hv).
  destruct (inv_bucket _ Hi _ _ Hj) as [_ Hf]. rewrite Forall_forall in Hf.
  by destruct (Hf _ Hv).
Qed.

(** The abstract map after the bucket of [key] became [b'], whose entries are
    those of [f (key, v)]. *)
Lemma abs_replace map key b b' (m' : gmap K ptr) :
  inv map -> key_ok key ->
  let i := Z.to_nat (hash_func key mod size map) in
  entries map !! i = Some b ->
  bucket_inv (size map) (hash_func key mod size map) b' ->
  (forall k, k <> key -> m' !! k = abs map !! k) ->
  (forall v, m' !! key = Some v <-> (key, v) ∈ b') ->
  (forall k v, k <> key -> (k, v) ∈ b' <-> (k, v) ∈ b) ->
  (forall k, is_Some (m' !! k) -> key_ok k) ->
  abs (Build_hashmap (size map) (<[i := b']> (entries map))) = m'.
Proof.
  intros Hi Hk i Hb Hb' Hoth Hkey Hrest Hok1.
  destruct (bucket_no_inv map key Hi) as [_ Hrange].
  assert (inv (Build_hashmap (size map) (<[i := b']> (entries map)))) as Hi'.
  { apply inv_replace; [done|]. subst i. by rewrite Z2Nat.id by lia. }
  apply map_eq. intros k. apply option_eq. intros v.
  assert (forall k b0 v, key_ok k ->
     (<[i := b']> (entries map)) !! Z.to_nat (hash_func k mod size map) = Some b0 ->
     abs (Build_hashmap (size map) (<[i := b']> (entries map))) !! k = Some v <-> (k, v) ∈ b0) as Hab.
  { intros k0 b0 v0 Hk0 Hb0. by apply (abs_lookup (Build_hashmap _ _)). }
  assert (key_ok k -> abs (Build_hashmap (size map) (<[i := b']> (entries map))) !! k = Some v
          <-> m' !! k = Some v) as Hiff.
  { intros Hkk. destruct (decide (k = key)) as [->|Hne].
    - rewrite Hkey. apply Hab; [done|]. apply list_lookup_insert_eq.
      by apply lookup_lt_Some in Hb.
    - rewrite Hoth by done.
      destruct (get_bucket map k Hi) as (bk & Hbk & _ & _).
      destruct (decide (Z.to_nat (hash_func k mod size map) = i)) as [E|E].
      + rewrite (Hab k b' v), Hrest, (abs_lookup map k b v); try done.
        * by rewrite E.
        * rewrite E. apply list_lookup_insert_eq. by apply lookup_lt_Some in Hb.
      + rewrite (Hab k bk v), (abs_lookup map k bk v); try done.
        by rewrite list_lookup_insert_ne. }
  split; intros Hv; apply Hiff; try done; [eapply abs_key_ok|apply Hok1]; eauto.
Qed.


(** A chain after a removal that did not fault. *)
Lemma chain_remove_spec n i b key :
  bucket_inv n i b -> key_ok key -> b <> [] ->
  exists b', chain_remove b key = Ret (b', chain_get b key) /\ bucket_inv n i b' /\
    forall k v, (k, v) ∈ b' <-> (k <> key /\ (k, v) ∈ b).
Proof.
  intros [Hnd Hf] Hk Hne. induction b as [|[k w] b IH]; [done|].
  apply Forall_cons in Hf as [[Hk' Hh'] Hf]. simpl in *. apply NoDup_cons in Hnd as [Hn Hnd].
  rewrite comp_true by done. case_bool_decide as E; [subst k|].
  - exists b. split; [done|]. split; [done|]. intros k' v. rewrite elem_of_cons.
    split; [|naive_solver]. intros Hin. split; [|by right].
    intros ->. apply Hn, list_elem_of_fmap. by exists (key, v).
  - destruct b as [|e b].
    + exists [(k, w)]. split; [done|]. split; [split; [by apply NoDup_cons|by constructor]|].
      intros k' v. rewrite list_elem_of_singleton. naive_solver.
    + destruct (IH Hnd Hf) as (b' & -> & [Hnd' Hf'] & Hel); [done|].
      exists ((k, w) :: b'). split; [done|]. split.
      * split; simpl; [|by constructor]. apply NoDup_cons. split; [|done].
        intros ([k0 v0] & -> & He)%list_elem_of_fmap. apply Hel in He as [_ He].
        apply Hn, list_elem_of_fmap. by exists (k0, v0).
      * intros k' v. rewrite elem_of_cons, Hel, !(elem_of_cons (e :: b)). naive_solver.
Qed.

(** ** Properties *)

(** [hashmap_get] returns the value bound to the key, or [NULL], and
    [hashmap_has] tells whether there is one. *)
Theorem hashmap_get_refines map key :
  inv map -> key_ok key ->
  hashmap_get map key = Ret (default NULL (abs map !! key)) /\
  hashmap_has map key = Ret (b2z (bool_decide (is_Some (abs map !! key)))).
Proof.
  intros Hi Hk. unfold hashmap_get, hashmap_has.
  destruct (bucket_no_inv map key Hi) as [-> _]. simpl.
  destruct (get_bucket map key Hi) as (b & Hb & -> & Hbi). simpl.
  by destruct (chain_get_abs map key b Hi Hk Hb Hbi) as [-> ->].
Qed.

Lemma hashmap_set_ok map key value :
  inv map -> key_ok key ->
  exists map', hashmap_set map key value = Ret (map', default NULL (abs map !! key)) /\
    inv map' /\ abs map' = <[key := value]> (abs map).
Proof.
  intros Hi Hk. unfold hashmap_set.
  destruct (bucket_no_inv map key Hi) as [-> Hr]. simpl.
  destruct (get_bucket map key Hi) as (b & Hb & -> & Hbi). simpl.
  destruct (chain_get_abs map key b Hi Hk Hb Hbi) as [Hget _].
  destruct (chain_set_spec _ _ b key value Hbi Hk eq_refl) as (Hbi' & Hel & Hout).
  destruct (chain_set b key value) as [b' out] eqn:Ec. simpl in *.
  replace (match b with [] => _ | _ :: _ => _ end) with (b', out) by (by destruct b).
  rewrite aset_in_range by lia. simpl. rewrite Hout, Hget.
  eexists. split; [done|]. split.
  - apply inv_replace; [done|]. by rewrite Z2Nat.id by lia.
  - apply (abs_replace map key b b'); try done.
    + intros k Hne. by rewrite lookup_insert_ne.
    + intros v. rewrite lookup_insert_eq, Hel. naive_solver.
    + intros k v Hne. rewrite Hel. naive_solver.
    + intros k. destruct (decide (k = key)) as [->|]; [done|].
      rewrite lookup_insert_ne by done. by apply abs_key_ok.
Qed.

(** C12: On a well-formed table with at least one bucket, [hashmap_set] of a key (a string
    without NUL inside, or a 32-bit integer) binds the key in the abstract map, keeps every
    other binding and the invariant, and returns the previous value or [NULL].  That there is
    memory for the entry is assumed. *)
Theorem hashmap_set_refines map key value :
  inv map -> key_ok key ->
  exists map', hashmap_set map key value = Ret (map', default NULL (abs map !! key)) /\
    inv map' /\ abs map' = <[key := value]> (abs map).
Proof. apply hashmap_set_ok. Qed.

(** [hashmap_remove] deletes the key from the abstract map and returns
    its value or [NULL], except when the key's chain is a single entry with
    another key: then the loop dereferences the null [next] pointer. *)
Theorem hashmap_remove_refines map key b :
  inv map -> key_ok key -> entries map !! Z.to_nat (hash_func key mod size map) = Some b ->
  ((forall k v, b = [(k, v)] -> k = key) ->
   exists map', hashmap_remove map key = Ret (map', default NULL (abs map !! key)) /\
     inv map' /\ abs map' = delete key (abs map)) /\
  (forall k v, b = [(k, v)] -> k <> key -> hashmap_remove map key = Fault).
Proof.
  intros Hi Hk Hb. unfold hashmap_remove.
  destruct (bucket_no_inv map key Hi) as [-> Hr]. simpl.
  destruct (get_bucket map key Hi) as (b0 & Hb0 & -> & Hbi).
  assert (b0 = b) as -> by congruence. simpl.
  destruct (chain_get_abs map key b Hi Hk Hb Hbi) as [Hget _].
  split.
  - intros Hsingle.
    assert (exists b', match b with
       | [] => Ret ([], NULL)
       | (k, out) :: next =>
           if truthy (hash_comp k key) then Ret (next, out)
           else '(next', r) ← chain_remove next key; Ret ((k, out) :: next', r)
       end = Ret (b', chain_get b key) /\ bucket_inv (size map) (hash_func key mod size map) b' /\
       forall k v, (k, v) ∈ b' <-> (k <> key /\ (k, v) ∈ b)) as (b' & -> & Hbi' & Hel).
    { destruct b as [|[k w] [|e b]].
      - exists []. split; [done|]. split; [done|]. intros k v. pose proof (not_elem_of_nil (k, v)). naive_solver.
      - assert (k = key) as -> by (by eapply Hsingle).
        simpl. rewrite comp_true, bool_decide_eq_true_2 by done. exists []. split; [done|].
        split; [split; constructor|]. intros k v. rewrite list_elem_of_singleton.
        pose proof (not_elem_of_nil (k, v)). naive_solver.
      - destruct (chain_remove_spec _ _ ((k, w) :: e :: b) key Hbi Hk) as (b' & He & ? & ?); [done|].
        exists b'. cbn [chain_remove] in He. done. }
    simpl. rewrite aset_in_range by lia. simpl. rewrite Hget.
    eexists. split; [done|]. split.
    + apply inv_replace; [done|]. by rewrite Z2Nat.id by lia.
    + apply (abs_replace map key b b'); try done.
      * intros k Hne. by rewrite lookup_delete_ne.
      * intros v. rewrite lookup_delete_eq, Hel. naive_solver.
      * intros k v Hne. rewrite Hel. naive_solver.
      * intros k [v Hv]. apply lookup_delete_Some in Hv as [_ Hv]. eapply abs_key_ok; eauto.
  - intros k v -> Hne. destruct Hbi as [_ Hf]. apply Forall_cons in Hf as [[Hk' _] _].
    simpl in *. by rewrite comp_true, bool_decide_eq_false_2 by done.
Qed.

Lemma fold_keys {A} (f : K * ptr -> A) (bs : list (list (K * ptr))) acc :
  fold_left (fun l x => fold_left (fun l e => l ++ [f e]) x l) bs acc = acc ++ (f <$> concat bs).
Proof.
  revert acc. induction bs as [|b bs IH]; intros acc; simpl; [by rewrite app_nil_r|].
  rewrite IH, fmap_app, app_assoc. f_equal. clear IH. revert acc.
  induction b as [|e b IHb]; intros acc; simpl; [by rewrite app_nil_r|].
  by rewrite IHb, <- app_assoc.
Qed.

(** [hashmap_keys] and [hashmap_values] enumerate every binding of the
    table exactly once, keys and values in the same order. *)
Theorem hashmap_keys_values map :
  inv map ->
  zip (hashmap_keys map) (hashmap_values map) ≡ₚ map_to_list (abs map) /\
  length (hashmap_keys map) = length (hashmap_values map) /\ NoDup (hashmap_keys map).
Proof.
  intros Hi. unfold hashmap_keys, hashmap_values, Seq.insert.
  rewrite (fold_keys fst), (fold_keys snd). simpl. rewrite zip_fst_snd, !length_fmap.
  split; [|split; [done|by apply abs_nodup]].
  symmetry. apply map_to_list_to_map. by apply abs_nodup.
Qed.

Lemma create_inv sz :
  0 < sz < 2147483648 -> inv (hashmap_create sz) /\ abs (hashmap_create sz) = ∅.
Proof.
  intros Hs. split.
  - split; simpl; [done|rewrite length_replicate; lia|].
    intros i b Hb. apply lookup_replicate in Hb as [-> _]. by split; constructor.
  - unfold abs. simpl. induction (Z.to_nat sz); [done|]. simpl. done.
Qed.

End Table.

Arguments hashmap_t K : clear implicits.

(** ** Witnesses *)

Definition demo : hashmap_t Z := Build_hashmap 2 [[(4, 40); (6, 60)]; [(3, 30)]].

Lemma demo_map_inv : inv demo.
Proof.
  split; [by vm_compute|done|].
  intros [|[|i]] b Hb; simplify_eq/=; (split; [by_decide|repeat constructor; simpl; lia]).
Qed.

Lemma hashmap_get_refines_witness :
  hashmap_get demo 6 = Ret (default NULL (abs demo !! 6)) /\
  hashmap_has demo 6 = Ret (b2z (bool_decide (is_Some (abs demo !! 6)))).
Proof. apply (hashmap_get_refines demo 6 demo_map_inv). simpl. lia. Defined.

Lemma hashmap_set_refines_witness :
  exists map', hashmap_set demo 5 50 = Ret (map', default NULL (abs demo !! 5)) /\
    inv map' /\ abs map' = <[5 := 50]> (abs demo).
Proof. apply (hashmap_set_refines demo 5 50 demo_map_inv). simpl. lia. Defined.

Lemma hashmap_remove_refines_witness :
  ((forall k v, [(3, 30)] = [(k, v)] -> k = 7) ->
   exists map', hashmap_remove demo 7 = Ret (map', default NULL (abs demo !! 7)) /\
     inv map' /\ abs map' = delete 7 (abs demo)) /\
  (forall k v, [(3, 30)] = [(k, v)] -> k <> 7 -> hashmap_remove demo 7 = Fault).
Proof. apply (hashmap_remove_refines demo 7 _ demo_map_inv); [simpl; lia|reflexivity]. Defined.

Lemma hashmap_keys_values_witness :
  zip (hashmap_keys demo) (hashmap_values demo) ≡ₚ map_to_list (abs demo) /\
  length (hashmap_keys demo) = length (hashmap_values demo) /\ NoDup (hashmap_keys demo).
Proof. apply (hashmap_keys_values demo demo_map_inv). Defined.

Example remove_single_other : hashmap_remove demo 7 = Fault.
Proof. reflexivity. Qed.

Example remove_present : hashmap_remove demo 6 = Ret (Build_hashmap 2 [[(4, 40)]; [(3, 30)]], 60).
Proof. reflexivity. Qed.

End Hashmap.
