(* ===== verification/Ring.v ===== *)
(** * Arithmetic of a circular buffer

    The pipe ([pipe.c]) and the ring buffer ([ringbuffer.c]) keep the same four
    fields: a byte array, its size and a read and a write index, equal when the
    buffer is empty.  This file states what the four fields mean, the queue of
    unread bytes [contents], and proves the effect of one increment on it. *)

From stdpp Require Import base list numbers.
From S2P Require Import Prelude.

Module Ring.

Definition unread (r w n : Z) : Z :=
  if r =? w then 0 else if w <? r then (n - r) + w else w - r.

Definition available (r w n : Z) : Z :=
  if r =? w then n - 1 else if w <? r then r - w - 1 else (n - w) + r - 1.

Definition incr (p n : Z) : Z := if p + 1 =? n then 0 else p + 1.

(** Byte [k] places after index [r], around the end of the array. *)
Definition nth_from (buf : list Z) (r n : Z) (k : nat) : Z :=
  default 0 (buf !! Z.to_nat ((r + Z.of_nat k) mod n)).

Definition contents (buf : list Z) (r w n : Z) : list Z :=
  nth_from buf r n <$> seq 0 (Z.to_nat (unread r w n)).

Definition wf (buf : list Z) (r w n : Z) : Prop :=
  Z.of_nat (length buf) = n /\ 0 <= r < n /\ 0 <= w < n /\ n < 2147483648.

Lemma unread_bound r w n : 0 <= r < n -> 0 <= w < n -> 0 <= unread r w n < n.
Proof. unfold unread. zcases; lia. Qed.

(** The two counters always add up to the capacity, one less than the size. *)
Lemma unread_available r w n : unread r w n + available r w n = n - 1.
Proof. unfold unread, available. zcases; lia. Qed.

Lemma length_queue buf r w n :
  0 <= r < n -> 0 <= w < n -> Z.of_nat (length (contents buf r w n)) = unread r w n.
Proof.
  intros Hr Hw. unfold contents. rewrite length_fmap, length_seq.
  pose proof (unread_bound r w n Hr Hw). lia.
Qed.

Lemma incr_bound p n : 0 <= p < n -> 0 <= incr p n < n.
Proof. unfold incr. zcases; lia. Qed.

Lemma incr_mod p n : 0 <= p < n -> incr p n = (p + 1) mod n.
Proof.
  intros Hp. unfold incr. zcases.
  - subst. by rewrite Z.mod_same by lia.
  - by rewrite Z.mod_small by lia.
Qed.

Lemma unread_pop r w n :
  0 <= r < n -> 0 <= w < n -> 0 < unread r w n -> unread (incr r n) w n = unread r w n - 1.
Proof. intros Hr Hw. unfold incr. zcases; unfold unread; zcases; lia. Qed.

Lemma unread_push r w n :
  0 <= r < n -> 0 <= w < n -> 0 < available r w n -> unread r (incr w n) n = unread r w n + 1.
Proof. intros Hr Hw. unfold incr. zcases; unfold unread, available; zcases; lia. Qed.

Lemma nth_from_incr buf r n k :
  0 <= r < n -> nth_from buf (incr r n) n k = nth_from buf r n (S k).
Proof.
  intros Hr. unfold nth_from. rewrite incr_mod by done. do 3 f_equal.
  rewrite Zplus_mod_idemp_l. f_equal. lia.
Qed.

(** Taking the byte at [r] and incrementing [r] removes the head of the queue. *)
Lemma contents_pop buf r w n :
  wf buf r w n -> 0 < unread r w n ->
  exists b, buf !! Z.to_nat r = Some b /\
    contents buf r w n = b :: contents buf (incr r n) w n.
Proof.
  intros (Hl & Hr & Hw & _) Hu.
  destruct (lookup_lt_is_Some_2 buf (Z.to_nat r)) as [b Hb]; [lia|].
  exists b. split; [done|]. unfold contents. rewrite unread_pop by done.
  replace (Z.to_nat (unread r w n)) with (S (Z.to_nat (unread r w n - 1))) by lia.
  cbn [seq fmap list_fmap]. f_equal.
  - unfold nth_from. rewrite Z.add_0_r, Z.mod_small by done. by rewrite Hb.
  - rewrite <- fmap_S_seq, <- list_fmap_compose. apply list_fmap_ext.
    intros i k _. symmetry. by apply nth_from_incr.
Qed.

(** The index written is the one right after the last unread byte. *)
Lemma write_index r w n :
  0 <= r < n -> 0 <= w < n -> (r + unread r w n) mod n = w.
Proof.
  intros Hr Hw. unfold unread.
  destruct (Z.eqb_spec r w) as [->|]; [|destruct (Z.ltb_spec w r)].
  - rewrite Z.add_0_r. by apply Z.mod_small.
  - replace (r + (n - r + w)) with (w + 1 * n) by lia. rewrite Z.mod_add by lia.
    by apply Z.mod_small.
  - replace (r + (w - r)) with w by lia. by apply Z.mod_small.
Qed.

(** Storing at [w] and incrementing [w] appends a byte to the queue. *)
Lemma contents_push buf r w n b :
  wf buf r w n -> 0 < available r w n ->
  contents (<[Z.to_nat w := b]> buf) r (incr w n) n = contents buf r w n ++ [b].
Proof.
  intros (Hl & Hr & Hw & _) Ha. unfold contents. rewrite unread_push by done.
  pose proof (unread_bound r w n Hr Hw) as Hu. pose proof (unread_available r w n).
  replace (Z.to_nat (unread r w n + 1)) with (S (Z.to_nat (unread r w n))) by lia.
  rewrite seq_S, fmap_app. cbn [fmap list_fmap plus]. f_equal.
  - apply list_fmap_ext. intros i k Hk. apply lookup_seq in Hk as [-> Hi]. simpl.
    unfold nth_from. rewrite list_lookup_insert_ne; [done|]. intros E.
    rewrite <- (write_index r w n Hr Hw) in E at 1.
    apply Z2Nat.inj in E; [|apply Z.mod_pos_bound; lia..].
    pose proof (Z.div_mod (r + unread r w n) n). pose proof (Z.div_mod (r + Z.of_nat i) n).
    assert ((r + unread r w n) / n - (r + Z.of_nat i) / n = 0 \/
            1 <= (r + unread r w n) / n - (r + Z.of_nat i) / n \/
            (r + unread r w n) / n - (r + Z.of_nat i) / n <= -1) as [?|[?|?]] by lia; nia.
  - unfold nth_from. rewrite Z2Nat.id by lia. rewrite write_index by done.
    by rewrite list_lookup_insert_eq by lia.
Qed.

Lemma wf_pop buf r w n : wf buf r w n -> wf buf (incr r n) w n.
Proof. intros (? & ? & ? & ?). pose proof (incr_bound r n). repeat split; try done; lia. Qed.

Lemma wf_push buf r w n b : wf buf r w n -> wf (<[Z.to_nat w := b]> buf) r (incr w n) n.
Proof.
  intros (? & ? & ? & ?). pose proof (incr_bound w n). rewrite <- H in *.
  repeat split; rewrite ?length_insert; lia.
Qed.

End Ring.
