(* ===== verification/RingBuffer.v ===== *)
(** * The blocking ring buffer of [kernel/src/ringbuffer.c]

    The record is [ring_buffer_t] of [kernel/h/ringbuffer.h]; its wait queues
    are the sequences that [LinkedList] implements.  A call that blocks in
    [sleep_on] gives the processor away, so the state it wakes up in is decided
    by the other tasks: a call takes the list [sleeps] of what happens during
    its successive sleeps, each a function of the state that also gives the
    value [sleep_on] returns; what the call did not use of the list is part of
    its result.  When the list ends the call is still asleep ([Blocked]).  The
    state is the buffer together with whatever else of the kernel the caller
    looks at, of type [W]; [owner] says whether in it the caller is on a wait queue already.

    [process_alert_node] is the empty function of [dev/timer.c], so alerting
    the waiters only empties their list. *)

From stdpp Require Import base list numbers.
From S2P Require Import Prelude LinkedList Ring.

(** ** Wait queues ([wakeup_queue] and [sleep_on] of [task/proc.c]) *)

Module WaitQueue.

(** Pops the nodes from the tail; a task that is not finished is made ready, which the log
    [woken] records with the value its [sleep_interrupted] flag is set to, if it is.  A node is
    named by the task it belongs to.  The task is reached through [node->value], which nothing
    in the kernel assigns (the assignments in [task/proc.c] and [elf.c] are commented out):
    what reading [finished] through that pointer gives is the argument [finished], and
    [unset], which faults, is what the code as it stands gives. *)
Fixpoint wakeup_loop (finished : ptr -> outcome bool) (flag : bool) (n : nat) (queue : list ptr)
    (woken : list (ptr * bool)) (count : Z) : outcome (list ptr * list (ptr * bool) * Z) :=
  match n with
  | O => Ret (queue, woken, count)
  | S n' =>
      match Seq.pop queue with
      | (None, queue') => Ret (queue', woken, count)
      | (Some p, queue') =>
          f ← finished p;
          let woken := if (f : bool) then woken else woken ++ [(p, flag)] in
          wakeup_loop finished flag n' queue' woken (count + 1)
      end
  end.

Definition wakeup_queue finished queue woken :=
  wakeup_loop finished false (length queue) queue woken 0.
Definition wakeup_queue_interrupted finished queue woken :=
  wakeup_loop finished true (length queue) queue woken 0.

Definition unset : ptr -> outcome bool := fun _ => Fault.

(** The queue after [sleep_on]; [owner] says whether the [sleep_node] of the task is on a queue
    already, and then the call only switches and returns 0.  The switch to another task and the
    value returned otherwise are the [sleeps] of the calls below. *)
Definition sleep_on (owner : bool) (queue : list ptr) (current_task : ptr) : list ptr :=
  if owner then queue else Seq.insert queue current_task.
Definition slept (owner : bool) (r : Z) : Z := if owner then 0 else r.

(** The tasks whose flag is not set are made ready, the last to fall asleep first. *)
Lemma wakeup_loop_spec finished flag queue woken count :
  wakeup_loop (fun p => Ret (finished p)) flag (length queue) queue woken count =
  Ret ([], woken ++ ((fun p => (p, flag)) <$> filter (fun p => finished p = false) (rev queue)),
   count + Z.of_nat (length queue)).
Proof.
  revert woken count. induction queue as [|p queue IH] using rev_ind; intros woken count.
  { simpl. by rewrite app_nil_r, Z.add_0_r. }
  rewrite length_app, Nat.add_1_r, rev_app_distr. cbn [wakeup_loop]. unfold Seq.pop.
  rewrite last_snoc, length_app, Nat.add_1_r. simpl Nat.pred. rewrite take_app_length. cbn [mbind outcome_bind]. rewrite IH.
  simpl. rewrite filter_cons. destruct (finished p) eqn:E; case_decide; try done.
  - do 2 f_equal. lia.
  - simpl. rewrite <- app_assoc. simpl. do 2 f_equal. lia.
Qed.

(** The code is wrong here: with the pointers as the kernel leaves them, waking a queue on which
    a task sleeps faults. *)
Theorem wakeup_sleeper_faults flag queue woken : queue <> [] -> wakeup_loop unset flag (length queue) queue woken 0 = Fault.
Proof.
  destruct queue as [|p queue _] using rev_ind; [done|]. intros _. rewrite length_app, Nat.add_1_r. cbn [wakeup_loop]. unfold Seq.pop. by rewrite last_snoc.
Qed.

End WaitQueue.

Module RingBuffer.
Import WaitQueue.

Record ring_buffer_t := Build_ring_buffer {
  buffer : list Z;
  write_ptr : Z;
  read_ptr : Z;
  size : Z;
  wait_queue_readers : list ptr;
  wait_queue_writers : list ptr;
  internal_stop : Z;
  alert_waiters : option (list ptr);
  discard : Z;
  woken : list (ptr * bool)   (* processes the wake-ups made ready *)
}.

Definition ring_buffer_unread (rb : ring_buffer_t) : Z :=
  if read_ptr rb =? write_ptr rb then 0
  else if write_ptr rb <? read_ptr rb then (size rb - read_ptr rb) + write_ptr rb
  else write_ptr rb - read_ptr rb.

Definition ring_buffer_available (rb : ring_buffer_t) : Z :=
  if read_ptr rb =? write_ptr rb then size rb - 1
  else if write_ptr rb <? read_ptr rb then read_ptr rb - write_ptr rb - 1
  else (size rb - write_ptr rb) + read_ptr rb - 1.

(** Field updates. *)
Definition set_read (rb : ring_buffer_t) (r : Z) : ring_buffer_t :=
  Build_ring_buffer (buffer rb) (write_ptr rb) r (size rb) (wait_queue_readers rb)
    (wait_queue_writers rb) (internal_stop rb) (alert_waiters rb) (discard rb) (woken rb).
Definition set_write (rb : ring_buffer_t) (buf : list Z) (w : Z) : ring_buffer_t :=
  Build_ring_buffer buf w (read_ptr rb) (size rb) (wait_queue_readers rb)
    (wait_queue_writers rb) (internal_stop rb) (alert_waiters rb) (discard rb) (woken rb).
Definition set_queues (rb : ring_buffer_t) (rs ws : list ptr) (wk : list (ptr * bool)) : ring_buffer_t :=
  Build_ring_buffer (buffer rb) (write_ptr rb) (read_ptr rb) (size rb) rs ws
    (internal_stop rb) (alert_waiters rb) (discard rb) wk.
Definition set_stop (rb : ring_buffer_t) (s : Z) : ring_buffer_t :=
  Build_ring_buffer (buffer rb) (write_ptr rb) (read_ptr rb) (size rb) (wait_queue_readers rb)
    (wait_queue_writers rb) s (alert_waiters rb) (discard rb) (woken rb).
Definition set_alert (rb : ring_buffer_t) (a : option (list ptr)) : ring_buffer_t :=
  Build_ring_buffer (buffer rb) (write_ptr rb) (read_ptr rb) (size rb) (wait_queue_readers rb)
    (wait_queue_writers rb) (internal_stop rb) a (discard rb) (woken rb).

Definition ring_buffer_increment_read (rb : ring_buffer_t) : ring_buffer_t :=
  let r := read_ptr rb + 1 in
  set_read rb (if r =? size rb then 0 else r).

Definition ring_buffer_increment_write (rb : ring_buffer_t) : ring_buffer_t :=
  let w := write_ptr rb + 1 in
  set_write rb (buffer rb) (if w =? size rb then 0 else w).

(** Dequeues every waiter; alerting it has no effect. *)
Definition ring_buffer_alert_waiters (rb : ring_buffer_t) : ring_buffer_t :=
  match alert_waiters rb with
  | Some _ => set_alert rb (Some [])
  | None => rb
  end.

(** Returns the new state and the [node_waits] list of the process. *)
Definition ring_buffer_select_wait (rb : ring_buffer_t) (self process : ptr)
    (node_waits : list ptr) : ring_buffer_t * list ptr :=
  let waiters := match alert_waiters rb with None => [] | Some l => l end in
  let waiters := match Seq.index waiters process with
                 | None => Seq.insert waiters process
                 | Some _ => waiters
                 end in
  (set_alert rb (Some waiters), Seq.insert node_waits self).

Section Tasks.
Context {W : Type} (finished : ptr -> outcome bool) (owner : W -> bool) (current_task : ptr).

Definition wakeup_writers (rb : ring_buffer_t) : outcome ring_buffer_t :=
  '(q, wk, _) ← wakeup_queue finished (wait_queue_writers rb) (woken rb);
  Ret (set_queues rb (wait_queue_readers rb) q wk).
Definition wakeup_readers (rb : ring_buffer_t) : outcome ring_buffer_t :=
  '(q, wk, _) ← wakeup_queue finished (wait_queue_readers rb) (woken rb);
  Ret (set_queues rb q (wait_queue_writers rb) wk).

Definition sleep_reader (rb : ring_buffer_t) (o : W) : ring_buffer_t :=
  set_queues rb (sleep_on (owner o) (wait_queue_readers rb) current_task) (wait_queue_writers rb) (woken rb).
Definition sleep_writer (rb : ring_buffer_t) (o : W) : ring_buffer_t :=
  set_queues rb (wait_queue_readers rb) (sleep_on (owner o) (wait_queue_writers rb) current_task) (woken rb).

(** The inner loop of [ring_buffer_read]: [todo] is [size - collected] and
    [out] the bytes collected so far. *)
Fixpoint collect (todo : nat) (rb : ring_buffer_t) (out : list Z) : outcome (ring_buffer_t * list Z) :=
  match todo with
  | O => Ret (rb, out)
  | S todo' =>
      if 0 <? ring_buffer_unread rb then
        b ← aget (buffer rb) (read_ptr rb);
        collect todo' (ring_buffer_increment_read rb) (out ++ [b])
      else Ret (rb, out)
  end.

(** The inner loop of [ring_buffer_write] on the bytes still to write. *)
Fixpoint fill (data : list Z) (rb : ring_buffer_t) : outcome (ring_buffer_t * list Z) :=
  match data with
  | [] => Ret (rb, [])
  | b :: data' =>
      if 0 <? ring_buffer_available rb then
        buf ← aset (buffer rb) (write_ptr rb) b;
        fill data' (ring_buffer_increment_write (set_write rb buf (write_ptr rb)))
      else Ret (rb, data)
  end.

Definition env : Type := ring_buffer_t -> W -> ring_buffer_t * W * Z.

(** A call either returns, with the sleeps it did not need, or is still asleep. *)
Inductive call (A : Type) : Type :=
  | Done (a : A) (rb : ring_buffer_t) (o : W) (sleeps : list env)
  | Blocked (rb : ring_buffer_t) (o : W).
Arguments Done {A} a rb o sleeps.
Arguments Blocked {A} rb o.

Fixpoint read_loop (sleeps : list env) (rb : ring_buffer_t) (o : W) (sz : Z)
  : outcome (call (list Z)) :=
  '(rb, out) ← collect (Z.to_nat sz) rb [];
  rb ← wakeup_writers rb;
  match out with
  | _ :: _ => rb ← wakeup_writers rb; Ret (Done out rb o sleeps)
  | [] =>
      match sleeps with
      | [] => Ret (Blocked (sleep_reader rb o) o)
      | sleep :: sleeps' =>
          let '(rb, o', r) := sleep (sleep_reader rb o) o in
          if truthy (slept (owner o) r) && truthy (internal_stop rb)
          then rb ← wakeup_writers (set_stop rb 0); Ret (Done [] rb o' sleeps')
          else read_loop sleeps' rb o' sz
      end
  end.

(** Returns the bytes read; the C function returns their number. *)
Definition ring_buffer_read (sleeps : list env) (rb : ring_buffer_t) (o : W) (sz : Z)
  : outcome (call (list Z)) := read_loop sleeps rb o sz.

Definition finish_write (rb : ring_buffer_t) : outcome ring_buffer_t :=
  rb ← wakeup_readers rb; Ret (ring_buffer_alert_waiters rb).

Fixpoint write_loop (sleeps : list env) (rb : ring_buffer_t) (o : W) (written : Z) (data : list Z)
  : outcome (call Z) :=
  match data with
  | [] => rb ← finish_write rb; Ret (Done written rb o sleeps)
  | _ :: _ =>
      '(rb, rest) ← fill data rb;
      let written := written + Z.of_nat (length data - length rest) in
      rb ← finish_write rb;
      match rest with
      | [] => rb ← finish_write rb; Ret (Done written rb o sleeps)
      | _ :: _ =>
          if truthy (discard rb) then rb ← finish_write rb; Ret (Done written rb o sleeps)
          else
            match sleeps with
            | [] => Ret (Blocked (sleep_writer rb o) o)
            | sleep :: sleeps' =>
                let '(rb, o', r) := sleep (sleep_writer rb o) o in
                if truthy (slept (owner o) r) && truthy (internal_stop rb)
                then rb ← finish_write (set_stop rb 0); Ret (Done written rb o' sleeps')
                else write_loop sleeps' rb o' written rest
            end
      end
  end.

Definition ring_buffer_write (sleeps : list env) (rb : ring_buffer_t) (o : W) (data : list Z)
  : outcome (call Z) := write_loop sleeps rb o 0 data.

Definition ring_buffer_create (bytes : list Z) : ring_buffer_t :=
  Build_ring_buffer bytes 0 0 (Z.of_nat (length bytes)) [] [] 0 None 0 [].

(** Frees the bytes and wakes everybody; the waiter list is freed too. *)
Definition ring_buffer_destroy (rb : ring_buffer_t) : outcome ring_buffer_t :=
  let rb := set_write rb [] (write_ptr rb) in
  rb ← wakeup_writers rb;
  rb ← wakeup_readers rb;
  let rb := ring_buffer_alert_waiters rb in
  let rb := set_queues rb [] [] (woken rb) in
  Ret (set_alert rb None).

Definition ring_buffer_interrupt (rb : ring_buffer_t) : outcome ring_buffer_t :=
  let rb := set_stop rb 1 in
  '(q, wk, _) ← wakeup_queue_interrupted finished (wait_queue_readers rb) (woken rb);
  let rb := set_queues rb q (wait_queue_writers rb) wk in
  '(q, wk, _) ← wakeup_queue_interrupted finished (wait_queue_writers rb) (woken rb);
  Ret (set_queues rb (wait_queue_readers rb) q wk).

(** ** Specification *)

Definition contents (rb : ring_buffer_t) : list Z :=
  Ring.contents (buffer rb) (read_ptr rb) (write_ptr rb) (size rb).
Definition wf (rb : ring_buffer_t) : Prop :=
  Ring.wf (buffer rb) (read_ptr rb) (write_ptr rb) (size rb).
Definition capacity (rb : ring_buffer_t) : nat := Z.to_nat (size rb - 1).

(** Two states with the same queue of bytes: wake-ups and flags do not count. *)
Definition same_bytes (rb rb' : ring_buffer_t) : Prop :=
  buffer rb' = buffer rb /\ read_ptr rb' = read_ptr rb /\ write_ptr rb' = write_ptr rb /\
  size rb' = size rb /\ discard rb' = discard rb.

#[export] Instance same_bytes_equiv : Equivalence same_bytes.
Proof using.
  clear. split; unfold same_bytes; [intros x|intros x y|intros x y z]; intuition congruence.
Qed.

Lemma same_bytes_facts rb rb' :
  same_bytes rb rb' -> contents rb' = contents rb /\ (wf rb' <-> wf rb) /\ capacity rb' = capacity rb.
Proof. unfold same_bytes, contents, wf, capacity. intros (-> & -> & -> & -> & _). done. Qed.

#[export] Instance contents_proper : Proper (same_bytes ==> eq) contents.
Proof. intros rb rb' E. symmetry. apply (same_bytes_facts _ _ E). Qed.
#[export] Instance wf_proper : Proper (same_bytes ==> iff) wf.
Proof. intros rb rb' E. symmetry. apply (same_bytes_facts _ _ E). Qed.

#[export] Instance size_proper : Proper (same_bytes ==> eq) size.
Proof. intros rb rb' E. symmetry. apply E. Qed.
#[export] Instance discard_proper : Proper (same_bytes ==> eq) discard.
Proof. intros rb rb' E. symmetry. apply E. Qed.

(** Nobody sleeps on the buffer. *)
Definition quiet (rb : ring_buffer_t) : Prop := wait_queue_readers rb = [] /\ wait_queue_writers rb = [].

Lemma wakeup_writers_none rb : wait_queue_writers rb = [] -> wakeup_writers rb = Ret rb.
Proof. unfold wakeup_writers. destruct rb. cbn [wait_queue_writers]. intros ->. done. Qed.
Lemma wakeup_writers_quiet rb : quiet rb -> wakeup_writers rb = Ret rb.
Proof. intros [_ E]. by apply wakeup_writers_none. Qed.
Lemma wakeup_readers_quiet rb : quiet rb -> wakeup_readers rb = Ret rb.
Proof. unfold wakeup_readers. destruct rb. intros [Er Ew]. cbn in Er, Ew. by subst. Qed.
Lemma finish_write_quiet rb : quiet rb -> finish_write rb = Ret (ring_buffer_alert_waiters rb).
Proof. intros Hq. unfold finish_write. by rewrite wakeup_readers_quiet. Qed.
Lemma alert_waiters_same rb : same_bytes rb (ring_buffer_alert_waiters rb).
Proof. unfold ring_buffer_alert_waiters. by destruct (alert_waiters rb). Qed.
Lemma alert_waiters_quiet rb : quiet rb -> quiet (ring_buffer_alert_waiters rb).
Proof. unfold ring_buffer_alert_waiters. by destruct (alert_waiters rb). Qed.

Lemma alert_waiters_facts rb : wf rb -> quiet rb -> let rb' := ring_buffer_alert_waiters rb in
  wf rb' /\ contents rb' = contents rb /\ size rb' = size rb /\ discard rb' = discard rb /\ quiet rb'.
Proof. unfold ring_buffer_alert_waiters. by destruct (alert_waiters rb). Qed.

Lemma interrupt_quiet rb : quiet rb -> ring_buffer_interrupt rb = Ret (set_stop rb 1).
Proof. unfold ring_buffer_interrupt. destruct rb. intros [Er Ew]. cbn in Er, Ew. by subst. Qed.

Lemma unread_ring rb : ring_buffer_unread rb = Ring.unread (read_ptr rb) (write_ptr rb) (size rb).
Proof. done. Qed.
Lemma available_ring rb :
  ring_buffer_available rb = Ring.available (read_ptr rb) (write_ptr rb) (size rb).
Proof. done. Qed.

Lemma length_contents rb : wf rb -> Z.of_nat (length (contents rb)) = ring_buffer_unread rb.
Proof. intros (? & ? & ? & ?). by apply Ring.length_queue. Qed.

Lemma available_room rb :
  wf rb -> ring_buffer_available rb = size rb - 1 - Z.of_nat (length (contents rb)).
Proof.
  intros Hwf. rewrite length_contents by done. rewrite available_ring, unread_ring.
  pose proof (Ring.unread_available (read_ptr rb) (write_ptr rb) (size rb)). lia.
Qed.

Lemma wf_size rb : wf rb -> 0 < size rb.
Proof. intros (? & ? & ? & ?). lia. Qed.

(** One turn of each inner loop. *)
Lemma get_byte rb q b :
  wf rb -> contents rb = b :: q ->
  (0 <? ring_buffer_unread rb) = true /\ aget (buffer rb) (read_ptr rb) = Ret b /\
  wf (ring_buffer_increment_read rb) /\ contents (ring_buffer_increment_read rb) = q /\
  size (ring_buffer_increment_read rb) = size rb.
Proof.
  intros Hwf Hc. pose proof (length_contents rb Hwf) as Hl. rewrite Hc in Hl. simpl in Hl.
  destruct (Ring.contents_pop _ _ _ _ Hwf) as (b' & Hb & Hc'); [rewrite <- unread_ring; lia|].
  fold (contents rb) in Hc'. rewrite Hc in Hc'. injection Hc' as <- Hq.
  split; [apply Z.ltb_lt; lia|]. split; [apply aget_lookup; [|done]; destruct Hwf; lia|].
  split; [by apply Ring.wf_pop|]. done.
Qed.

Lemma put_byte rb b :
  wf rb -> (length (contents rb) < capacity rb)%nat ->
  exists buf, (0 <? ring_buffer_available rb) = true /\ aset (buffer rb) (write_ptr rb) b = Ret buf /\
    let rb' := ring_buffer_increment_write (set_write rb buf (write_ptr rb)) in
    wf rb' /\ contents rb' = contents rb ++ [b] /\ size rb' = size rb /\ discard rb' = discard rb.
Proof.
  intros Hwf Hc. pose proof (available_room rb Hwf) as Ha. unfold capacity in Hc.
  assert (0 < ring_buffer_available rb) by lia.
  exists (<[Z.to_nat (write_ptr rb) := b]> (buffer rb)).
  split; [apply Z.ltb_lt; lia|]. split; [apply aset_in_range; destruct Hwf; lia|].
  split; [by apply Ring.wf_push|]. split; [by apply Ring.contents_push|done].
Qed.

Lemma collect_spec todo rb out :
  wf rb -> exists rb', collect todo rb out = Ret (rb', out ++ take todo (contents rb)) /\
    wf rb' /\ contents rb' = drop todo (contents rb) /\ size rb' = size rb /\ discard rb' = discard rb /\ (quiet rb -> quiet rb').
Proof.
  revert rb out. induction todo as [|todo IH]; intros rb out Hwf; simpl.
  { exists rb. by rewrite app_nil_r. }
  destruct (contents rb) as [|b q] eqn:Hc.
  - exists rb. pose proof (length_contents rb Hwf) as Hl. rewrite Hc in Hl. simpl in Hl.
    rewrite <- Hl. simpl. by rewrite app_nil_r, Hc.
  - destruct (get_byte rb q b Hwf Hc) as (-> & -> & Hwf' & Hc' & Hs). simpl.
    destruct (IH _ (out ++ [b]) Hwf') as (rb' & -> & ? & Hc2 & Hs2 & Hd2 & Hq2).
    exists rb'. rewrite Hc2, Hs2, Hd2, Hc', <- app_assoc. done.
Qed.

Lemma fill_spec data rb :
  wf rb ->
  let n := (capacity rb - length (contents rb))%nat in
  exists rb', fill data rb = Ret (rb', drop n data) /\ wf rb' /\
    contents rb' = contents rb ++ take n data /\ size rb' = size rb /\ discard rb' = discard rb /\ (quiet rb -> quiet rb').
Proof.
  revert rb. induction data as [|b data IH]; intros rb Hwf; simpl.
  { exists rb. by rewrite drop_nil, take_nil, app_nil_r. }
  destruct (decide (length (contents rb) < capacity rb)%nat) as [Hlt|Hge].
  - destruct (put_byte rb b Hwf Hlt) as (buf & -> & -> & Hwf' & Hc' & Hs & Hd). simpl.
    destruct (IH _ Hwf') as (rb' & -> & ? & Hc2 & Hs2 & Hd2 & Hq2). rewrite Hc' in *.
    assert (capacity (ring_buffer_increment_write (set_write rb buf (write_ptr rb))) = capacity rb) as E
      by done.
    rewrite E in *. rewrite length_app in *. simpl in *.
    replace (capacity rb - length (contents rb))%nat
      with (S (capacity rb - (length (contents rb) + 1))) by lia.
    exists rb'. rewrite Hc2, <- app_assoc, Hs2, Hd2. done.
  - replace (capacity rb - length (contents rb))%nat with 0%nat by lia. simpl.
    pose proof (available_room rb Hwf). unfold capacity in Hge. pose proof (wf_size rb Hwf).
    destruct (Z.ltb_spec 0 (ring_buffer_available rb)); [lia|].
    exists rb. by rewrite app_nil_r.
Qed.

Lemma fill_keeps_queues data : forall rb, fill data rb = Fault \/
  exists rb' rest, fill data rb = Ret (rb', rest) /\ wait_queue_readers rb' = wait_queue_readers rb.
Proof.
  induction data as [|b data IH]; intros rb; cbn [fill]; [right; by eexists _, _|]. case_match; [|right; by eexists _, _].
  unfold aset. case_match; [|by left]. cbn [mbind outcome_bind]. destruct (IH (ring_buffer_increment_write (set_write rb (<[Z.to_nat (write_ptr rb):=b]> (buffer rb)) (write_ptr rb)))) as [->|(rb' & rest & -> & Er)]; [by left|right]. by eexists _, _.
Qed.

(** A call of the inner loops on a queue that can serve it does not sleep. *)
Lemma read_loop_now sleeps rb o sz :
  wf rb -> quiet rb -> contents rb <> [] -> 0 < sz ->
  exists rb', read_loop sleeps rb o sz =
      Ret (Done (take (Z.to_nat sz) (contents rb)) rb' o sleeps) /\
    wf rb' /\ contents rb' = drop (Z.to_nat sz) (contents rb) /\ size rb' = size rb /\ discard rb' = discard rb /\ quiet rb'.
Proof.
  intros Hwf Hq Hne Hsz.
  destruct (collect_spec (Z.to_nat sz) rb [] Hwf) as (rb1 & Hcol & Hwf1 & Hc1 & Hs1 & Hd1 & Hq1).
  specialize (Hq1 Hq). exists rb1. split; [|done].
  destruct sleeps; cbn [read_loop]; rewrite Hcol; cbn [mbind outcome_bind]; simpl app; rewrite wakeup_writers_quiet by done; cbn [mbind outcome_bind];
    (destruct (contents rb) as [|b q]; [done|]);
    (replace (Z.to_nat sz) with (S (Z.to_nat (sz - 1))) by lia); cbn [take]; by rewrite wakeup_writers_quiet.
Qed.

Lemma write_loop_now sleeps rb o data :
  wf rb -> quiet rb ->
  let n := (capacity rb - length (contents rb))%nat in
  (length data <= n)%nat \/ discard rb <> 0 ->
  exists rb', write_loop sleeps rb o 0 data =
      Ret (Done (Z.of_nat (Nat.min n (length data))) rb' o sleeps) /\
    wf rb' /\ contents rb' = contents rb ++ take n data /\ size rb' = size rb /\ discard rb' = discard rb /\ quiet rb'.
Proof.
  intros Hwf Hq n Hfit.
  destruct data as [|b data].
  { exists (ring_buffer_alert_waiters rb). rewrite take_nil, app_nil_r, Nat.min_0_r.
    split; [destruct sleeps; cbn [write_loop]; by rewrite finish_write_quiet|]. by apply alert_waiters_facts. }
  destruct (fill_spec (b :: data) rb Hwf) as (rb1 & Hf & Hwf1 & Hc1 & Hs1 & Hd & Hq1). specialize (Hq1 Hq).
  fold n in Hf, Hc1. set (d := b :: data) in *. set (rb2 := ring_buffer_alert_waiters rb1).
  destruct (alert_waiters_facts rb1 Hwf1 Hq1) as (Hwf2 & Hc2 & Hs2 & Hd2 & Hq2). fold rb2 in Hwf2, Hc2, Hs2, Hd2, Hq2. destruct (alert_waiters_facts rb2 Hwf2 Hq2) as (Hwf3 & Hc3 & Hs3 & Hd3 & Hq3).
  exists (ring_buffer_alert_waiters rb2).
  split; [|split; [done|]; split; [congruence|]; split; [congruence|]; split; [congruence|done]].
  assert (0 + Z.of_nat (length d - length (drop n d)) = Z.of_nat (Nat.min n (length d))) as Hn
    by (rewrite length_drop; lia).
  assert (discard rb2 = discard rb) as E by congruence.
  assert (drop n d = [] \/ truthy (discard rb) = true) as Hcase.
  { destruct Hfit as [Hle|Hd']; [left; by apply drop_ge|right].
    unfold truthy. by destruct (Z.eqb_spec (discard rb) 0). }
  destruct sleeps; cbn [write_loop]; subst d; rewrite Hf; cbn [mbind outcome_bind]; rewrite (finish_write_quiet rb1) by done; cbn [mbind outcome_bind]; fold rb2; rewrite Hn, E, (finish_write_quiet rb2) by done;
    (destruct Hcase as [->| ->]; [done|by destruct (drop n _)]).
Qed.

Lemma ring_buffer_read_one sleeps rb o b q :
  wf rb -> quiet rb -> contents rb = b :: q ->
  exists rb', ring_buffer_read sleeps rb o 1 = Ret (Done [b] rb' o sleeps) /\
    wf rb' /\ quiet rb' /\ contents rb' = q.
Proof.
  intros Hwf Hq Hc. destruct (read_loop_now sleeps rb o 1 Hwf Hq) as (rb' & E & Hwf' & Hc' & _ & _ & Hq');
    [by rewrite Hc|done|]. rewrite Hc in *. by exists rb'.
Qed.

Lemma ring_buffer_write_one sleeps rb o b :
  wf rb -> quiet rb -> (length (contents rb) < capacity rb)%nat ->
  exists rb', ring_buffer_write sleeps rb o [b] = Ret (Done 1 rb' o sleeps) /\
    wf rb' /\ contents rb' = contents rb ++ [b] /\ capacity rb' = capacity rb /\ discard rb' = discard rb /\ quiet rb'.
Proof.
  intros Hwf Hq Hr. destruct (write_loop_now sleeps rb o [b] Hwf Hq) as (rb' & E & Hwf' & Hc' & Hs & Hd & Hq');
    [left; simpl; lia|]. exists rb'. unfold ring_buffer_write. rewrite E.
  destruct (capacity rb - length (contents rb))%nat eqn:En; [lia|].
  cbn [take length] in *. rewrite take_nil in Hc'. replace (Nat.min (S n) 1) with 1%nat by lia.
  unfold capacity. by rewrite Hs.
Qed.

(** ** Properties *)

(** A read of a non-empty buffer on which nobody sleeps never sleeps: it returns the oldest
    bytes, as many as asked for and available, and leaves the rest of the queue. *)
Theorem ring_buffer_read_fifo sleeps rb o sz :
  wf rb -> quiet rb -> contents rb <> [] -> 0 < sz ->
  exists rb', ring_buffer_read sleeps rb o sz =
      Ret (Done (take (Z.to_nat sz) (contents rb)) rb' o sleeps) /\
    wf rb' /\ quiet rb' /\ contents rb' = drop (Z.to_nat sz) (contents rb).
Proof.
  intros Hwf Hq Hne Hsz. destruct (read_loop_now sleeps rb o sz Hwf Hq Hne Hsz) as (rb' & ? & ? & ? & _ & _ & ?). by exists rb'.
Qed.

(** A write to a buffer on which nobody sleeps that fits, or that may discard, never sleeps: it
    appends the longest prefix there is room for and returns its length. *)
Theorem ring_buffer_write_fifo sleeps rb o data :
  wf rb -> quiet rb ->
  let n := (capacity rb - length (contents rb))%nat in
  (length data <= n)%nat \/ discard rb <> 0 ->
  exists rb', ring_buffer_write sleeps rb o data =
      Ret (Done (Z.of_nat (Nat.min n (length data))) rb' o sleeps) /\
    wf rb' /\ quiet rb' /\ contents rb' = contents rb ++ take n data.
Proof.
  intros Hwf Hq n Hfit. destruct (write_loop_now sleeps rb o data Hwf Hq Hfit) as (rb' & ? & ? & ? & ? & ? & ?).
  by exists rb'.
Qed.

(** The code is wrong here: a reader that fell asleep on an empty buffer is not woken by the
    next write but makes it fault. *)
Theorem sleeper_stops_writer sleeps rb o data :
  wf rb -> wait_queue_readers rb <> [] -> finished = unset -> data <> [] ->
  ring_buffer_write sleeps rb o data = Fault.
Proof.
  intros Hwf Hr Hfin Hd. unfold ring_buffer_write. destruct data as [|b data]; [done|].
  destruct (fill_keeps_queues (b :: data) rb) as [E|(rb1 & rest & E & Er)]; destruct sleeps; cbn [write_loop]; rewrite E; try done;
    cbn [mbind outcome_bind]; unfold finish_write, wakeup_readers, wakeup_queue; rewrite Hfin, Er, wakeup_sleeper_faults by done; done.
Qed.

End Tasks.

#[export] Existing Instances same_bytes_equiv contents_proper wf_proper size_proper.

Arguments Done {W A} a rb o sleeps.
Arguments Blocked {W A} rb o.
Arguments env : clear implicits.
Arguments call : clear implicits.

(** ** Witnesses *)

(** Five bytes, indices wrapped: the queue is [50; 10; 20]. *)
Definition demo : ring_buffer_t :=
  Build_ring_buffer [10; 20; 0; 0; 50] 2 4 5 [] [] 0 None 1 [].

Lemma demo_buffer_wf : wf demo.
Proof. unfold wf, Ring.wf. simpl. lia. Qed.

Lemma ring_buffer_read_fifo_witness :
  exists rb', ring_buffer_read unset (fun _ => false) 7 [] demo tt 2 = Ret (Done [50; 10] rb' tt []) /\
    wf rb' /\ quiet rb' /\ contents rb' = [20].
Proof. apply (ring_buffer_read_fifo unset (fun _ => false) 7 [] demo tt 2 demo_buffer_wf); done. Defined.

Lemma ring_buffer_write_fifo_witness :
  exists rb', ring_buffer_write unset (fun _ => false) 7 [] demo tt [1; 2; 3] = Ret (Done 1 rb' tt []) /\
    wf rb' /\ quiet rb' /\ contents rb' = [50; 10; 20] ++ [1].
Proof. apply (ring_buffer_write_fifo unset (fun _ => false) 7 [] demo tt [1; 2; 3] demo_buffer_wf); [done|]. right. done. Defined.

End RingBuffer.
