(* ===== verification/Pipe.v ===== *)
(** * Pipes: [kernel/src/pipe.c] and [kernel/src/unixpipe.c]

    Module [Pipe] is the kernel pipe, with a circular buffer of its own; its
    loops are shown to be those of [RingBuffer], whose lemmas they inherit.
    Module [UnixPipe] is the pair of ends made by the [pipe] system call, a
    client of [ring_buffer_read] and [ring_buffer_write].  Sleeping is modelled
    as in [RingBuffer]. *)

From stdpp Require Import base list numbers.
From S2P Require Import Prelude LinkedList Ring RingBuffer.

Module Pipe.
Import WaitQueue.

Definition SIGPIPE : Z := 13.

Record pipe_device_t := Build_pipe {
  buffer : list Z;
  write_ptr : Z;
  read_ptr : Z;
  size : Z;
  refcount : Z;
  wait_queue_readers : list ptr;
  wait_queue_writers : list ptr;
  dead : Z;
  alert_waiters : option (list ptr);
  woken : list (ptr * bool);   (* processes the wake-ups made ready *)
  signals : list Z             (* signals sent to the calling process *)
}.

Definition pipe_unread (pipe : pipe_device_t) : Z :=
  if read_ptr pipe =? write_ptr pipe then 0
  else if write_ptr pipe <? read_ptr pipe then (size pipe - read_ptr pipe) + write_ptr pipe
  else write_ptr pipe - read_ptr pipe.

Definition pipe_available (pipe : pipe_device_t) : Z :=
  if read_ptr pipe =? write_ptr pipe then size pipe - 1
  else if write_ptr pipe <? read_ptr pipe then read_ptr pipe - write_ptr pipe - 1
  else (size pipe - write_ptr pipe) + read_ptr pipe - 1.

Definition set_read (p : pipe_device_t) (r : Z) : pipe_device_t :=
  Build_pipe (buffer p) (write_ptr p) r (size p) (refcount p) (wait_queue_readers p)
    (wait_queue_writers p) (dead p) (alert_waiters p) (woken p) (signals p).
Definition set_write (p : pipe_device_t) (buf : list Z) (w : Z) : pipe_device_t :=
  Build_pipe buf w (read_ptr p) (size p) (refcount p) (wait_queue_readers p)
    (wait_queue_writers p) (dead p) (alert_waiters p) (woken p) (signals p).
Definition set_queues (p : pipe_device_t) (rs ws : list ptr) (wk : list (ptr * bool)) : pipe_device_t :=
  Build_pipe (buffer p) (write_ptr p) (read_ptr p) (size p) (refcount p) rs ws (dead p)
    (alert_waiters p) wk (signals p).
Definition set_alert (p : pipe_device_t) (a : option (list ptr)) : pipe_device_t :=
  Build_pipe (buffer p) (write_ptr p) (read_ptr p) (size p) (refcount p) (wait_queue_readers p)
    (wait_queue_writers p) (dead p) a (woken p) (signals p).
Definition set_refcount (p : pipe_device_t) (n : Z) : pipe_device_t :=
  Build_pipe (buffer p) (write_ptr p) (read_ptr p) (size p) n (wait_queue_readers p)
    (wait_queue_writers p) (dead p) (alert_waiters p) (woken p) (signals p).
Definition send_signal (p : pipe_device_t) (sig : Z) : pipe_device_t :=
  Build_pipe (buffer p) (write_ptr p) (read_ptr p) (size p) (refcount p) (wait_queue_readers p)
    (wait_queue_writers p) (dead p) (alert_waiters p) (woken p) (signals p ++ [sig]).

Definition pipe_increment_read (p : pipe_device_t) : pipe_device_t :=
  let r := read_ptr p + 1 in set_read p (if r =? size p then 0 else r).
Definition pipe_increment_write (p : pipe_device_t) : pipe_device_t :=
  let w := write_ptr p + 1 in set_write p (buffer p) (if w =? size p then 0 else w).

(** C's [%] on the signed indices, which are never negative. *)
Definition pipe_increment_write_by (p : pipe_device_t) (amount : Z) : outcome pipe_device_t :=
  if size p =? 0 then Fault
  else Ret (set_write p (buffer p) (Z.rem (write_ptr p + amount) (size p))).

Definition pipe_alert_waiters (p : pipe_device_t) : pipe_device_t :=
  match alert_waiters p with
  | Some _ => set_alert p (Some [])
  | None => p
  end.

Section Tasks.
(** [owner n] says whether the task is on a wait queue already when [n] sleeps are left. *)
Context (finished : ptr -> outcome bool) (owner : nat -> bool) (current_task : ptr).

Definition wakeup_writers (p : pipe_device_t) : outcome pipe_device_t :=
  '(q, wk, _) ← wakeup_queue finished (wait_queue_writers p) (woken p);
  Ret (set_queues p (wait_queue_readers p) q wk).
Definition wakeup_readers (p : pipe_device_t) : outcome pipe_device_t :=
  '(q, wk, _) ← wakeup_queue finished (wait_queue_readers p) (woken p);
  Ret (set_queues p q (wait_queue_writers p) wk).
Definition sleep_reader (n : nat) (p : pipe_device_t) : pipe_device_t :=
  set_queues p (sleep_on (owner n) (wait_queue_readers p) current_task) (wait_queue_writers p) (woken p).
Definition sleep_writer (n : nat) (p : pipe_device_t) : pipe_device_t :=
  set_queues p (wait_queue_readers p) (sleep_on (owner n) (wait_queue_writers p) current_task) (woken p).

Fixpoint collect (todo : nat) (p : pipe_device_t) (out : list Z) : outcome (pipe_device_t * list Z) :=
  match todo with
  | O => Ret (p, out)
  | S todo' =>
      if 0 <? pipe_unread p then
        b ← aget (buffer p) (read_ptr p);
        collect todo' (pipe_increment_read p) (out ++ [b])
      else Ret (p, out)
  end.

Fixpoint fill (data : list Z) (p : pipe_device_t) : outcome (pipe_device_t * list Z) :=
  match data with
  | [] => Ret (p, [])
  | b :: data' =>
      if 0 <? pipe_available p then
        buf ← aset (buffer p) (write_ptr p) b;
        fill data' (pipe_increment_write (set_write p buf (write_ptr p)))
      else Ret (p, data)
  end.

Inductive call (A : Type) : Type :=
  | Done (a : A) (p : pipe_device_t)
  | Blocked (p : pipe_device_t).
Arguments Done {A} a p.
Arguments Blocked {A} p.

(** What the other tasks do during a sleep; its result is not looked at. *)
Definition env : Type := pipe_device_t -> pipe_device_t.

Fixpoint read_loop (sleeps : list env) (p : pipe_device_t) (sz : Z) : outcome (call (list Z)) :=
  '(p, out) ← collect (Z.to_nat sz) p [];
  p ← wakeup_writers p;
  match out with
  | _ :: _ => Ret (Done out p)
  | [] =>
      match sleeps with
      | [] => Ret (Blocked (sleep_reader 0 p))
      | sleep :: sleeps' => read_loop sleeps' (sleep (sleep_reader (length sleeps) p)) sz
      end
  end.

Definition read_pipe (sleeps : list env) (p : pipe_device_t) (sz : Z) : outcome (call (list Z)) :=
  if truthy (dead p) then Ret (Done [] (send_signal p SIGPIPE))
  else read_loop sleeps p sz.

Fixpoint write_loop (sleeps : list env) (p : pipe_device_t) (written : Z) (data : list Z)
  : outcome (call Z) :=
  match data with
  | [] => Ret (Done written p)
  | _ :: _ =>
      '(p, rest) ← fill data p;
      let written := written + Z.of_nat (length data - length rest) in
      p ← wakeup_readers p;
      let p := pipe_alert_waiters p in
      match rest with
      | [] => Ret (Done written p)
      | _ :: _ =>
          match sleeps with
          | [] => Ret (Blocked (sleep_writer 0 p))
          | sleep :: sleeps' => write_loop sleeps' (sleep (sleep_writer (length sleeps) p)) written rest
          end
      end
  end.

Definition write_pipe (sleeps : list env) (p : pipe_device_t) (data : list Z) : outcome (call Z) :=
  if truthy (dead p) then Ret (Done 0 (send_signal p SIGPIPE))
  else write_loop sleeps p 0 data.

Definition open_pipe (p : pipe_device_t) : pipe_device_t := set_refcount p (s32 (refcount p + 1)).
Definition close_pipe (p : pipe_device_t) : pipe_device_t := set_refcount p (s32 (refcount p - 1)).

Definition pipe_check (p : pipe_device_t) : Z := if 0 <? pipe_unread p then 0 else 1.

Definition pipe_wait (p : pipe_device_t) (self process : ptr) (node_waits : list ptr)
  : pipe_device_t * list ptr :=
  let waiters := match alert_waiters p with None => [] | Some l => l end in
  let waiters := match Seq.index waiters process with
                 | None => Seq.insert waiters process
                 | Some _ => waiters
                 end in
  (set_alert p (Some waiters), Seq.insert node_waits self).

Definition make_pipe (bytes : list Z) : pipe_device_t :=
  Build_pipe bytes 0 0 (Z.of_nat (length bytes)) 0 [] [] 0 None [] [].

(** ** The loops are those of the ring buffer *)

Definition to_rb (p : pipe_device_t) : RingBuffer.ring_buffer_t :=
  RingBuffer.Build_ring_buffer (buffer p) (write_ptr p) (read_ptr p) (size p)
    (wait_queue_readers p) (wait_queue_writers p) 0 (alert_waiters p) 0 (woken p).
Definition from_rb (p : pipe_device_t) (rb : RingBuffer.ring_buffer_t) : pipe_device_t :=
  Build_pipe (RingBuffer.buffer rb) (RingBuffer.write_ptr rb) (RingBuffer.read_ptr rb)
    (RingBuffer.size rb) (refcount p) (RingBuffer.wait_queue_readers rb)
    (RingBuffer.wait_queue_writers rb) (dead p) (RingBuffer.alert_waiters rb)
    (RingBuffer.woken rb) (signals p).

Definition contents (p : pipe_device_t) : list Z := RingBuffer.contents (to_rb p).
Definition wf (p : pipe_device_t) : Prop := RingBuffer.wf (to_rb p).
Definition capacity (p : pipe_device_t) : nat := Z.to_nat (size p - 1).

Lemma collect_sim todo p out :
  collect todo p out =
  (fun r => (from_rb p r.1, r.2)) <$> RingBuffer.collect todo (to_rb p) out.
Proof.
  revert p out. induction todo as [|todo IH]; intros p out; [by destruct p|]. simpl.
  change (RingBuffer.ring_buffer_unread (to_rb p)) with (pipe_unread p).
  destruct (0 <? pipe_unread p); [|by destruct p].
  destruct (aget (buffer p) (read_ptr p)); simpl; [|done..]. by rewrite IH.
Qed.

Lemma fill_sim data p :
  fill data p = (fun r => (from_rb p r.1, r.2)) <$> RingBuffer.fill data (to_rb p).
Proof.
  revert p. induction data as [|b data IH]; intros p; [by destruct p|]. simpl.
  change (RingBuffer.ring_buffer_available (to_rb p)) with (pipe_available p).
  destruct (0 <? pipe_available p); [|by destruct p].
  destruct (aset (buffer p) (write_ptr p) b); simpl; [|done..]. by rewrite IH.
Qed.

(** Nobody sleeps on the pipe. *)
Definition quiet (p : pipe_device_t) : Prop := wait_queue_readers p = [] /\ wait_queue_writers p = [].

Lemma pipe_wakeup_writers_quiet p : quiet p -> wakeup_writers p = Ret p.
Proof. unfold wakeup_writers. destruct p. intros [Er Ew]. cbn in Er, Ew. by subst. Qed.
Lemma pipe_wakeup_readers_quiet p : quiet p -> wakeup_readers p = Ret p.
Proof. unfold wakeup_readers. destruct p. intros [Er Ew]. cbn in Er, Ew. by subst. Qed.
Lemma pipe_alert_facts p : wf p -> quiet p -> let p' := pipe_alert_waiters p in
  wf p' /\ contents p' = contents p /\ dead p' = dead p /\ size p' = size p /\ quiet p'.
Proof. unfold pipe_alert_waiters. by destruct (alert_waiters p). Qed.

Lemma read_spec sleeps p sz :
  wf p -> quiet p -> dead p = 0 -> contents p <> [] -> 0 < sz ->
  exists p', read_pipe sleeps p sz = Ret (Done (take (Z.to_nat sz) (contents p)) p') /\
    wf p' /\ contents p' = drop (Z.to_nat sz) (contents p) /\ dead p' = 0 /\ size p' = size p /\ quiet p'.
Proof.
  intros Hwf Hq Hd Hne Hsz. unfold read_pipe. rewrite Hd. simpl.
  destruct (RingBuffer.collect_spec (Z.to_nat sz) (to_rb p) [] Hwf) as (rb & Hc & Hwf' & Hc' & Hs & _ & Hq').
  pose proof (collect_sim (Z.to_nat sz) p []) as Hsim. rewrite Hc in Hsim. simpl in Hsim.
  fold (contents p) in *. specialize (Hq' Hq). exists (from_rb p rb). split.
  - destruct (contents p) as [|b q]; [done|].
    assert (take (Z.to_nat sz) (b :: q) = b :: take (Z.to_nat (sz - 1)) q) as Ht
      by (by replace (Z.to_nat sz) with (S (Z.to_nat (sz - 1))) by lia).
    destruct sleeps; cbn [read_loop]; rewrite Hsim; cbn [mbind outcome_bind]; rewrite (pipe_wakeup_writers_quiet (from_rb p rb) Hq'); cbn [mbind outcome_bind]; by rewrite Ht.
  - split; [exact Hwf'|]. split; [exact Hc'|]. split; [exact Hd|]. split; [exact Hs|exact Hq'].
Qed.

Lemma write_spec sleeps p data :
  wf p -> quiet p -> dead p = 0 -> (length (contents p) + length data <= capacity p)%nat ->
  exists p', write_pipe sleeps p data = Ret (Done (Z.of_nat (length data)) p') /\
    wf p' /\ contents p' = contents p ++ data /\ dead p' = 0 /\ size p' = size p /\ quiet p'.
Proof.
  intros Hwf Hq Hd Hfit. unfold write_pipe. rewrite Hd. simpl.
  destruct data as [|b data].
  { exists p. rewrite app_nil_r. by destruct sleeps. }
  set (d := b :: data) in *.
  destruct (RingBuffer.fill_spec d (to_rb p) Hwf) as (rb & Hf & Hwf' & Hc' & Hs & _ & Hq'). specialize (Hq' Hq).
  fold (contents p) in *. change (RingBuffer.capacity (to_rb p)) with (capacity p) in *.
  rewrite drop_ge in Hf by lia. rewrite take_ge in Hc' by lia.
  pose proof (fill_sim d p) as Hsim. rewrite Hf in Hsim.
  cbn [fmap outcome_fmap fst snd] in Hsim.
  destruct (pipe_alert_facts (from_rb p rb) Hwf' Hq') as (Hwf2 & Hc2 & Hd2 & Hs2 & Hq2).
  exists (pipe_alert_waiters (from_rb p rb)). split.
  - assert (0 + Z.of_nat (length d - length (@nil Z)) = Z.of_nat (length d)) as E by (simpl; lia).
    destruct sleeps; cbn [write_loop]; subst d; rewrite Hsim; cbn [mbind outcome_bind]; rewrite (pipe_wakeup_readers_quiet (from_rb p rb) Hq'); cbn [mbind outcome_bind];
      by rewrite E.
  - split; [exact Hwf2|]. split; [rewrite Hc2; exact Hc'|]. split; [rewrite Hd2; exact Hd|]. split; [rewrite Hs2; exact Hs|exact Hq2].
Qed.

(** ** Properties *)

(** C13: Data written to a live pipe on which nobody sleeps, with room for it, is read back
    unchanged, after the bytes that were already there, without either call sleeping.  (A
    task that sleeps on the pipe makes the write fault, since its queue node does not lead
    back to it.) *)
Theorem pipe_round_trip sleeps sleeps' p data :
  wf p -> quiet p -> dead p = 0 -> data <> [] ->
  (length (contents p) + length data <= capacity p)%nat ->
  exists p1 p2, write_pipe sleeps p data = Ret (Done (Z.of_nat (length data)) p1) /\
    read_pipe sleeps' p1 (Z.of_nat (length (contents p) + length data)) =
      Ret (Done (contents p ++ data) p2) /\ wf p2 /\ quiet p2 /\ contents p2 = [].
Proof.
  intros Hwf Hq Hd Hne Hfit.
  destruct (write_spec sleeps p data Hwf Hq Hd Hfit) as (p1 & Hw & Hwf1 & Hc1 & Hd1 & Hs1 & Hq1).
  destruct (read_spec sleeps' p1 (Z.of_nat (length (contents p) + length data)) Hwf1 Hq1 Hd1)
    as (p2 & Hr & Hwf2 & Hc2 & _ & _ & Hq2); [rewrite Hc1; by destruct (contents p), data| |].
  { destruct data; [done|]. simpl. lia. }
  exists p1, p2. rewrite Hc1, Nat2Z.id in *.
  rewrite take_ge in Hr by (rewrite length_app; lia).
  rewrite drop_ge in Hc2 by (rewrite length_app; lia). done.
Qed.

(** The two calls on a dead pipe do nothing but send [SIGPIPE] and return 0. *)
Theorem pipe_dead sleeps p sz data :
  dead p <> 0 ->
  read_pipe sleeps p sz = Ret (Done [] (send_signal p SIGPIPE)) /\
  write_pipe sleeps p data = Ret (Done 0 (send_signal p SIGPIPE)).
Proof.
  intros Hd. unfold read_pipe, write_pipe, truthy.
  by destruct (Z.eqb_spec (dead p) 0).
Qed.

Lemma increment_write_iter p k :
  wf p -> write_ptr (Nat.iter k pipe_increment_write p) = (write_ptr p + Z.of_nat k) mod size p /\
          size (Nat.iter k pipe_increment_write p) = size p /\
          buffer (Nat.iter k pipe_increment_write p) = buffer p.
Proof.
  intros (Hl & Hr & Hw & Hn). simpl in *. induction k as [|k (IH1 & IH2 & IH3)].
  { rewrite Z.add_0_r, Z.mod_small by done. done. }
  change (Nat.iter (S k) pipe_increment_write p)
    with (pipe_increment_write (Nat.iter k pipe_increment_write p)).
  set (q := Nat.iter k pipe_increment_write p) in *.
  change (write_ptr (pipe_increment_write q)) with (Ring.incr (write_ptr q) (size q)).
  rewrite IH2, IH1, Ring.incr_mod by (apply Z.mod_pos_bound; lia).
  split; [|done]. rewrite Zplus_mod_idemp_l. f_equal. lia.
Qed.

(** [pipe_increment_write_by] is that many single increments. *)
Theorem increment_write_by_iter p k :
  wf p ->
  pipe_increment_write_by p (Z.of_nat k) = Ret (Nat.iter k pipe_increment_write p).
Proof.
  intros Hwf. destruct (increment_write_iter p k Hwf) as (H1 & H2 & H3).
  destruct Hwf as (Hl & Hr & Hw & Hn). simpl in *.
  unfold pipe_increment_write_by. destruct (Z.eqb_spec (size p) 0); [lia|].
  rewrite Z.rem_mod_nonneg, <- H1 by lia. f_equal.
  assert (forall q, q = set_write p (buffer q) (write_ptr q) ->
    pipe_increment_write q = set_write p (buffer (pipe_increment_write q))
                               (write_ptr (pipe_increment_write q))) as Hstep.
  { intros q E. unfold pipe_increment_write. rewrite E. done. }
  assert (forall j, Nat.iter j pipe_increment_write p =
    set_write p (buffer (Nat.iter j pipe_increment_write p))
                (write_ptr (Nat.iter j pipe_increment_write p))) as Hall.
  { induction j as [|j IH]; [by destruct p|]. simpl. by apply Hstep. }
  rewrite Hall at 2. by rewrite H3.
Qed.

End Tasks.

Arguments Done {A} a p.
Arguments Blocked {A} p.

(** ** Witnesses *)

Definition demo : pipe_device_t := Build_pipe [10; 20; 0; 0; 50] 1 4 5 1 [] [] 0 None [] [].

Lemma demo_pipe_wf : wf demo.
Proof. unfold wf, RingBuffer.wf, Ring.wf. simpl. lia. Qed.

Lemma pipe_round_trip_witness :
  exists p1 p2, write_pipe unset (fun _ => false) 7 [] demo [1; 2] = Ret (Done 2 p1) /\
    read_pipe unset (fun _ => false) 7 [] p1 4 = Ret (Done ([50; 10] ++ [1; 2]) p2) /\
    wf p2 /\ quiet p2 /\ contents p2 = [].
Proof.
  apply (pipe_round_trip unset (fun _ => false) 7 [] [] demo [1; 2] demo_pipe_wf); [done|done|done|].
  vm_compute. lia.
Defined.

Lemma pipe_dead_witness :
  read_pipe unset (fun _ => false) 7 [] (Build_pipe [0] 0 0 1 0 [] [] 1 None [] []) 4 =
    Ret (Done [] (send_signal (Build_pipe [0] 0 0 1 0 [] [] 1 None [] []) SIGPIPE)) /\
  write_pipe unset (fun _ => false) 7 [] (Build_pipe [0] 0 0 1 0 [] [] 1 None [] []) [3] =
    Ret (Done 0 (send_signal (Build_pipe [0] 0 0 1 0 [] [] 1 None [] []) SIGPIPE)).
Proof. apply (pipe_dead unset (fun _ => false) 7 []). discriminate. Defined.

Lemma increment_write_by_iter_witness :
  pipe_increment_write_by demo 7 = Ret (Nat.iter 7 pipe_increment_write demo).
Proof. apply (increment_write_by_iter demo 7 demo_pipe_wf). Defined.

End Pipe.

(** ** Unix pipes: the two ends of a ring buffer ([kernel/src/unixpipe.c]) *)

Module UnixPipe.
Import WaitQueue RingBuffer.

Definition UNIX_PIPE_BUFFER : Z := 512.
Definition SIGPIPE : Z := Pipe.SIGPIPE.
Definition newline : Z := 10.

(** The fields of [struct unix_pipe] beside the buffer, and the signals the
    current task was given; the two ends are the nodes that carry the
    operations, so they need no field. *)
Record ends := Build_ends {
  read_closed : Z;
  write_closed : Z;
  signals : list Z
}.

Definition raise (w : ends) (signum : Z) : ends :=
  Build_ends (read_closed w) (write_closed w) (signals w ++ [signum]).

Section Tasks.
Context (finished : ptr -> outcome bool) (owner : ends -> bool) (current_task : ptr).

(** The loop of [read_unixpipe]: [out] is what was read so far.  A turn either
    reads a byte or uses up a sleep. *)
Fixpoint unread_loop (fuel : nat) (sleeps : list (env ends)) (rb : ring_buffer_t) (w : ends)
    (size : Z) (out : list Z) : outcome (call ends (list Z)) :=
  match fuel with
  | O => OutOfFuel
  | S fuel' =>
      if Z.of_nat (length out) <? size then
        if truthy (write_closed w) && negb (truthy (ring_buffer_unread rb))
        then Ret (Done out rb w sleeps)
        else
          c ← ring_buffer_read finished owner current_task sleeps rb w 1;
          match c with
          | Blocked rb w => Ret (Blocked rb w)
          | Done bs rb w sleeps =>
              match bs with
              | b :: _ =>
                  if b =? newline then Ret (Done (out ++ bs) rb w sleeps)
                  else unread_loop fuel' sleeps rb w size (out ++ bs)
              | [] => unread_loop fuel' sleeps rb w size out
              end
          end
      else Ret (Done out rb w sleeps)
  end.

Definition read_unixpipe sleeps rb w (size : Z) : outcome (call ends (list Z)) :=
  unread_loop (S (Z.to_nat size + length sleeps)) sleeps rb w size [].

(** The loop of [write_unixpipe] on the bytes still to write. *)
Fixpoint unwrite_loop (fuel : nat) (sleeps : list (env ends)) (rb : ring_buffer_t) (w : ends)
    (written : Z) (data : list Z) : outcome (call ends Z) :=
  match fuel with
  | O => OutOfFuel
  | S fuel' =>
      match data with
      | [] => Ret (Done written rb w sleeps)
      | b :: data' =>
          if truthy (read_closed w) then Ret (Done written rb (raise w SIGPIPE) sleeps)
          else
            c ← ring_buffer_write finished owner current_task sleeps rb w [b];
            match c with
            | Blocked rb w => Ret (Blocked rb w)
            | Done n rb w sleeps =>
                unwrite_loop fuel' sleeps rb w (written + n) (drop (Z.to_nat n) data)
            end
      end
  end.

Definition write_unixpipe sleeps rb w (data : list Z) : outcome (call ends Z) :=
  unwrite_loop (S (length data + length sleeps)) sleeps rb w 0 data.

Definition close_read_pipe (rb : ring_buffer_t) (w : ends) : outcome (ring_buffer_t * ends) :=
  let w := Build_ends 1 (write_closed w) (signals w) in
  if truthy (write_closed w) then Ret (rb, w) else rb ← ring_buffer_interrupt finished rb; Ret (rb, w).

Definition close_write_pipe (rb : ring_buffer_t) (w : ends) : outcome (ring_buffer_t * ends) :=
  let w := Build_ends (read_closed w) 1 (signals w) in
  if truthy (read_closed w) then Ret (rb, w) else rb ← ring_buffer_interrupt finished rb; Ret (rb, w).

Definition check_pipe (rb : ring_buffer_t) : Z := if 0 <? ring_buffer_unread rb then 0 else 1.

Definition wait_pipe (rb : ring_buffer_t) (self process : ptr) (node_waits : list ptr)
  : ring_buffer_t * list ptr * Z :=
  (ring_buffer_select_wait rb self process node_waits, 0).

Definition close_complete (rb : ring_buffer_t) : outcome ring_buffer_t := ring_buffer_destroy finished rb.

(** [bytes] is the fresh memory of the ring buffer. *)
Definition make_unix_pipe (bytes : list Z) : ring_buffer_t * ends :=
  (ring_buffer_create (take (Z.to_nat UNIX_PIPE_BUFFER) bytes), Build_ends 0 0 []).

(** ** Specification: the first line of a queue of bytes, at most [n] of them *)

Fixpoint line (n : nat) (q : list Z) : list Z :=
  match n, q with
  | S n', b :: q' => if b =? newline then [b] else b :: line n' q'
  | _, _ => []
  end.

(** The line is complete: it ends in a newline or fills the request. *)
Definition complete (n : nat) (q : list Z) : Prop :=
  length (line n q) = n \/ newline ∈ line n q.

Lemma line_length n q : (length (line n q) <= n)%nat.
Proof.
  revert q. induction n as [|n IH]; intros [|b q]; simpl; try lia.
  destruct (b =? newline); simpl; [lia|]. specialize (IH q). lia.
Qed.

Lemma line_prefix n q : line n q `prefix_of` q.
Proof.
  revert q. induction n as [|n IH]; intros [|b q]; simpl; try apply prefix_nil.
  destruct (b =? newline); [apply (prefix_app_r [b] [b]); done|]. by apply prefix_cons.
Qed.

Lemma length_small {A} (l : list A) k size :
  Z.of_nat (length l) + Z.of_nat k = size -> (Z.of_nat (length l) <? size) = bool_decide (k <> 0%nat).
Proof. intros. destruct (Z.ltb_spec (Z.of_nat (length l)) size); case_bool_decide; lia. Qed.

(** Reading from an open or closed pipe what its queue can give. *)
Lemma unread_loop_line fuel sleeps rb w size out n :
  wf rb -> quiet rb -> Z.of_nat (length out) + Z.of_nat n = size -> (n < fuel)%nat ->
  complete n (contents rb) \/ write_closed w <> 0 ->
  exists rb', unread_loop fuel sleeps rb w size out =
      Ret (Done (out ++ line n (contents rb)) rb' w sleeps) /\
    wf rb' /\ quiet rb' /\ contents rb' = drop (length (line n (contents rb))) (contents rb).
Proof.
  revert rb out n. induction fuel as [|fuel IH]; intros rb out n Hwf Hq Hsz Hf Hc; [lia|].
  cbn [unread_loop]. rewrite (length_small _ n) by done.
  destruct n as [|n]; simpl bool_decide.
  { exists rb. by rewrite app_nil_r. }
  pose proof (length_contents rb Hwf) as Hl. destruct (contents rb) as [|b q] eqn:Eq.
  - simpl in Hl. rewrite <- Hl. destruct Hc as [[Hc|Hc]|Hc]; [done|by apply not_elem_of_nil in Hc|].
    unfold truthy at 1. destruct (Z.eqb_spec (write_closed w) 0); [done|]. simpl.
    exists rb. by rewrite app_nil_r.
  - assert (truthy (ring_buffer_unread rb) = true) as ->.
    { unfold truthy. rewrite <- Hl. by destruct (Z.eqb_spec (Z.of_nat (length (b :: q))) 0). }
    rewrite andb_false_r.
    destruct (ring_buffer_read_one finished owner current_task sleeps rb w b q Hwf Hq Eq)
      as (rb1 & -> & Hwf1 & Hq1 & Hc1).
    cbn [mbind outcome_bind]. simpl line. destruct (b =? newline) eqn:Eb.
    { exists rb1. simpl. by rewrite Hc1, drop_0. }
    destruct (IH rb1 (out ++ [b]) n Hwf1 Hq1) as (rb' & -> & Hwf' & Hq' & Hc').
    { rewrite length_app. simpl. lia. } { lia. }
    { rewrite Hc1. destruct Hc as [[Hc|Hc]|Hc]; [left; left|left; right|by right].
      - simpl in Hc. rewrite Eb in Hc. simpl in Hc. lia.
      - simpl in Hc. rewrite Eb in Hc. apply elem_of_cons in Hc as [Hc|Hc]; [|done].
        rewrite <- Hc in Eb. done. }
    exists rb'. rewrite Hc1 in *. by rewrite <- app_assoc, Hc'.
Qed.

Lemma unwrite_loop_room fuel sleeps rb w written data :
  wf rb -> quiet rb -> (length data < fuel)%nat -> read_closed w = 0 ->
  (length data <= capacity rb - length (contents rb))%nat ->
  exists rb', unwrite_loop fuel sleeps rb w written data =
      Ret (Done (written + Z.of_nat (length data)) rb' w sleeps) /\
    wf rb' /\ quiet rb' /\ contents rb' = contents rb ++ data.
Proof.
  revert rb written data. induction fuel as [|fuel IH]; intros rb written data Hwf Hq Hf Ho Hr; [lia|].
  cbn [unwrite_loop]. destruct data as [|b data].
  { exists rb. by rewrite app_nil_r, Z.add_0_r. }
  rewrite Ho. cbn [truthy Z.eqb negb].
  destruct (ring_buffer_write_one finished owner current_task sleeps rb w b Hwf Hq)
    as (rb1 & -> & Hwf1 & Hc1 & Hk & _ & Hq1); [simpl in Hr; lia|].
  cbn [mbind outcome_bind]. change (drop (Z.to_nat 1) (b :: data)) with (drop 0 data). rewrite drop_0.
  destruct (IH rb1 (written + 1) data Hwf1 Hq1) as (rb' & -> & Hwf' & Hq' & Hc');
    [simpl in *; lia|done|rewrite Hc1, Hk, length_app; simpl in *; lia|].
  exists rb'. split; [do 2 f_equal; simpl; lia|]. split; [done|]. split; [done|]. by rewrite Hc', Hc1, <- app_assoc.
Qed.

(** ** Properties *)

(** On a pipe on which nobody sleeps: a read of a pipe whose queue holds a complete line, or whose writer is
    gone, does not sleep: it returns the bytes up to the first newline, the size
    asked for or the end of the queue, whichever is first, and leaves the rest. *)
Theorem read_unixpipe_line sleeps rb w size :
  wf rb -> quiet rb -> 0 <= size -> complete (Z.to_nat size) (contents rb) \/ write_closed w <> 0 ->
  exists rb', read_unixpipe sleeps rb w size =
      Ret (Done (line (Z.to_nat size) (contents rb)) rb' w sleeps) /\
    wf rb' /\ quiet rb' /\ line (Z.to_nat size) (contents rb) ++ contents rb' = contents rb.
Proof.
  intros Hwf Hq Hs Hc. unfold read_unixpipe.
  destruct (unread_loop_line (S (Z.to_nat size + length sleeps)) sleeps rb w size []
              (Z.to_nat size) Hwf Hq) as (rb' & -> & Hwf' & Hq' & Hc'); [simpl; lia|lia|done|].
  exists rb'. split; [done|]. split; [done|]. split; [done|]. rewrite Hc'.
  destruct (line_prefix (Z.to_nat size) (contents rb)) as [k E].
  set (l := line _ _) in *. rewrite E. by rewrite drop_app_length.
Qed.

(** On a pipe on which nobody sleeps: a write to a pipe whose reader is gone writes nothing and raises
    SIGPIPE; a write that fits is queued whole, in order, without sleeping. *)
Theorem write_unixpipe_cases sleeps rb w data :
  wf rb -> quiet rb -> data <> [] ->
  (read_closed w <> 0 ->
     write_unixpipe sleeps rb w data = Ret (Done 0 rb (raise w SIGPIPE) sleeps)) /\
  (read_closed w = 0 -> (length data <= capacity rb - length (contents rb))%nat ->
     exists rb', write_unixpipe sleeps rb w data = Ret (Done (Z.of_nat (length data)) rb' w sleeps) /\
       wf rb' /\ quiet rb' /\ contents rb' = contents rb ++ data).
Proof.
  intros Hwf Hq Hd. split.
  - intros Hc. unfold write_unixpipe. destruct data as [|b data]; [done|]. cbn [unwrite_loop].
    unfold truthy. by destruct (Z.eqb_spec (read_closed w) 0).
  - intros Ho Hr. apply (unwrite_loop_room _ sleeps rb w 0 data); [done|done|lia|done|done].
Qed.

End Tasks.

(** ** Witnesses *)

(** The queue is [97; 10; 98] ("a", newline, "b"). *)
Definition demo : ring_buffer_t :=
  Build_ring_buffer [10; 98; 0; 0; 97] 2 4 5 [] [] 0 None 0 [].

Lemma demo_ends_wf : wf demo.
Proof. unfold wf, Ring.wf. simpl. lia. Qed.

Definition open : ends := Build_ends 0 0 [].

Lemma read_unixpipe_line_witness :
  exists rb', read_unixpipe unset (fun _ => false) 7 [] demo open 8 = Ret (Done [97; 10] rb' open []) /\
    wf rb' /\ quiet rb' /\ [97; 10] ++ contents rb' = [97; 10; 98].
Proof.
  apply (read_unixpipe_line unset (fun _ => false) 7 [] demo open 8 demo_ends_wf); [done|done|].
  left. right. by_decide.
Defined.

Lemma write_unixpipe_cases_witness :
  write_unixpipe unset (fun _ => false) 7 [] demo (Build_ends 1 0 []) [5] =
    Ret (Done 0 demo (Build_ends 1 0 [SIGPIPE]) []) /\
  exists rb', write_unixpipe unset (fun _ => false) 7 [] demo open [5] = Ret (Done 1 rb' open []) /\
    wf rb' /\ quiet rb' /\ contents rb' = [97; 10; 98] ++ [5].
Proof.
  split.
  - apply (write_unixpipe_cases unset (fun _ => false) 7 [] demo (Build_ends 1 0 []) [5] demo_ends_wf); done.
  - apply (write_unixpipe_cases unset (fun _ => false) 7 [] demo open [5] demo_ends_wf); [done|done|done|].
    vm_compute. lia.
Defined.

End UnixPipe.
