(* ===== verification/Frames.v ===== *)
(** * The physical frame allocator of [kernel/src/mem/mem.c]

    [frames] is a bitmap of 32-bit words, bit [k mod 32] of word [k / 32] being
    set when frame [k] is in use; [nframes] is the number of frames.  A frame
    is named by its address in most functions and by its number in the page
    entries.  Running out of frames prints a message and halts until the next
    interrupt, after which [first_frame] returns -1. *)

From stdpp Require Import base numbers list.
From S2P Require Import Prelude.

Module Frames.

Record frames_t := Build_frames { frames : list Z; nframes : Z }.

Definition INDEX_FROM_BIT (b : Z) : Z := b / 0x20.
Definition OFFSET_FROM_BIT (b : Z) : Z := b mod 0x20.

Definition set_frame (m : frames_t) (frame_addr : Z) : outcome frames_t :=
  if frame_addr <? u32 (nframes m * 4 * 0x400) then
    let frame := frame_addr / 0x1000 in
    let index := INDEX_FROM_BIT frame in
    let offset := OFFSET_FROM_BIT frame in
    w ← aget (frames m) index;
    fs ← aset (frames m) index (Z.lor w (u32 (Z.shiftl 1 offset)));
    Ret (Build_frames fs (nframes m))
  else Ret m.

Definition clear_frame (m : frames_t) (frame_addr : Z) : outcome frames_t :=
  let frame := frame_addr / 0x1000 in
  let index := INDEX_FROM_BIT frame in
  let offset := OFFSET_FROM_BIT frame in
  w ← aget (frames m) index;
  fs ← aset (frames m) index (Z.land w (u32 (Z.lnot (u32 (Z.shiftl 1 offset)))));
  Ret (Build_frames fs (nframes m)).

Definition test_frame (m : frames_t) (frame_addr : Z) : outcome Z :=
  let frame := frame_addr / 0x1000 in
  let index := INDEX_FROM_BIT frame in
  let offset := OFFSET_FROM_BIT frame in
  w ← aget (frames m) index;
  Ret (Z.land w (u32 (Z.shiftl 1 offset))).

(** The inner loop of [first_n_frames]; [bad] is the last bad offset plus one. *)
Fixpoint run_bad (m : frames_t) (i j : Z) (todo : nat) (bad : Z) : outcome Z :=
  match todo with
  | O => Ret bad
  | S todo' =>
      t ← test_frame m (u32 (i + 0x1000 * j));
      run_bad m i (j + 1) todo' (if truthy t then j + 1 else bad)
  end.

(** The outer loop from address [i]; [todo] bounds the turns left. *)
Fixpoint first_n_from (m : frames_t) (n : nat) (i : Z) (todo : nat) : outcome Z :=
  match todo with
  | O => Ret 0xFFFFFFFF
  | S todo' =>
      bad ← run_bad m i 0 n 0;
      if negb (truthy bad) then Ret (i / 0x1000) else first_n_from m n (u32 (i + 0x1000)) todo'
  end.

Definition first_n_frames (m : frames_t) (n : Z) : outcome Z :=
  first_n_from m (Z.to_nat n) 0 (Z.to_nat (u32 (nframes m * 0x1000) / 0x1000)).

(** The inner loop of [first_frame] on a word, from bit [j]. *)
Fixpoint free_bit (w : Z) (j : Z) (todo : nat) : option Z :=
  match todo with
  | O => None
  | S todo' => if truthy (Z.land w (u32 (Z.shiftl 1 j))) then free_bit w (j + 1) todo' else Some j
  end.

Fixpoint first_frame_from (m : frames_t) (i : Z) (todo : nat) : outcome Z :=
  match todo with
  | O => Ret (u32 (-1))
  | S todo' =>
      w ← aget (frames m) i;
      if w =? 0xFFFFFFFF then first_frame_from m (i + 1) todo'
      else match free_bit w 0 32 with
           | Some j => Ret (u32 (i * 0x20 + j))
           | None => first_frame_from m (i + 1) todo'
           end
  end.

Definition first_frame (m : frames_t) : outcome Z :=
  first_frame_from m 0 (Z.to_nat (INDEX_FROM_BIT (nframes m))).

(** The loops of [memory_use]. *)
Fixpoint count_bits (w j : Z) (todo : nat) : Z :=
  match todo with
  | O => 0
  | S todo' => b2z (truthy (Z.land w (u32 (Z.shiftl 1 j)))) + count_bits w (j + 1) todo'
  end.

Fixpoint count_words (m : frames_t) (i : Z) (todo : nat) : outcome Z :=
  match todo with
  | O => Ret 0
  | S todo' =>
      w ← aget (frames m) i;
      rest ← count_words m (i + 1) todo';
      Ret (count_bits w 0 32 + rest)
  end.

Definition memory_use (m : frames_t) : outcome Z :=
  n ← count_words m 0 (Z.to_nat (INDEX_FROM_BIT (nframes m)));
  Ret (u32 (n * 4)).

Definition memory_total (m : frames_t) : Z := u32 (nframes m * 4).

(** The bitmap part of [paging_install]: [memsize] is in kilobytes. *)
Definition paging_install (memsize : Z) : frames_t :=
  let n := memsize / 4 in
  Build_frames (replicate (Z.to_nat (INDEX_FROM_BIT (u32 (n * 8)) / 4)) 0) n.

Definition paging_mark_system (m : frames_t) (addr : Z) : outcome frames_t := set_frame m (u32 addr).

(** ** Page entries: the bit fields of [page_t]; [unused] is never accessed *)

Record page_t := Build_page {
  present : Z;
  rw : Z;
  user : Z;
  writethrough : Z;
  cachedisable : Z;
  frame : Z   (* 20 bits *)
}.

Definition zero_page : page_t := Build_page 0 0 0 0 0 0.

(** [page->present], [rw] and [user] become 1 whatever the other arguments are. *)
Definition grant (page : page_t) (is_kernel is_writeable : Z) (f : Z) : page_t :=
  Build_page 1 (if is_writeable =? 1 then 1 else 1) (if is_kernel =? 1 then 1 else 1)
    (writethrough page) (cachedisable page) f.

(** The failed assertion of the second branch is only reported. *)
Definition alloc_frame (m : frames_t) (page : page_t) (is_kernel is_writeable : Z)
  : outcome (frames_t * page_t) :=
  if negb (frame page =? 0) then Ret (m, grant page is_kernel is_writeable (frame page))
  else
    index ← first_frame m;
    m ← set_frame m (u32 (index * 0x1000));
    Ret (m, grant page is_kernel is_writeable (index mod 1048576)).

Definition dma_frame (m : frames_t) (page : page_t) (is_kernel is_writeable address : Z)
  : outcome (frames_t * page_t) :=
  let page := grant page is_kernel is_writeable (address / 0x1000 mod 1048576) in
  m ← set_frame m address;
  Ret (m, page).

Definition free_frame (m : frames_t) (page : page_t) : outcome (frames_t * page_t) :=
  if frame page =? 0 then Ret (m, page)
  else
    m ← clear_frame m (u32 (frame page * 0x1000));
    Ret (m, Build_page (present page) (rw page) (user page) (writethrough page) (cachedisable page) 0).

(** ** Specification *)

(** Frame number [k] is in use. *)
Definition used (m : frames_t) (k : Z) : bool :=
  match frames m !! Z.to_nat (k / 32) with Some w => Z.testbit w (k mod 32) | None => false end.

(** The bitmap [paging_install] makes: half a bit of slack per frame, and less
    than 4 GB of memory so that a byte count fits 32 bits. *)
Definition wf (m : frames_t) : Prop :=
  16 <= nframes m < 1048576 /\ Z.of_nat (length (frames m)) = nframes m / 16 /\
  Forall (fun w => 0 <= w < 4294967296) (frames m).

(** The frames [first_frame] looks at: whole words only. *)
Definition managed (m : frames_t) (k : Z) : Prop := 0 <= k < 32 * (nframes m / 32).

(** ** Bits of a word *)

Lemma bit_mask o : 0 <= o < 32 -> u32 (Z.shiftl 1 o) = 2 ^ o.
Proof.
  intros. rewrite Z.shiftl_mul_pow2, Z.mul_1_l by lia. apply u32_small.
  split; [apply Z.pow_nonneg; lia|]. change 4294967296 with (2 ^ 32). apply Z.pow_lt_mono_r; lia.
Qed.

Lemma mask_test w o : 0 <= o < 32 -> truthy (Z.land w (u32 (Z.shiftl 1 o))) = Z.testbit w o.
Proof.
  intros Ho. rewrite bit_mask by done. unfold truthy.
  destruct (Z.testbit w o) eqn:Hw.
  - destruct (Z.eqb_spec (Z.land w (2 ^ o)) 0) as [E|]; [|done].
    apply (f_equal (fun z => Z.testbit z o)) in E.
    rewrite Z.land_spec, Z.pow2_bits_true, Hw, Z.bits_0 in E by lia. done.
  - replace (Z.land w (2 ^ o)) with 0; [done|]. symmetry. apply Z.bits_inj'. intros j Hj.
    rewrite Z.land_spec, Z.bits_0, Z.pow2_bits_eqb by lia.
    destruct (Z.eqb_spec o j) as [<-|]; [by rewrite Hw|]. apply andb_false_r.
Qed.

Lemma lor_bit w o j : 0 <= o < 32 -> 0 <= j ->
  Z.testbit (Z.lor w (u32 (Z.shiftl 1 o))) j = (j =? o) || Z.testbit w j.
Proof.
  intros. rewrite bit_mask, Z.lor_spec, Z.pow2_bits_eqb, orb_comm, Z.eqb_sym by lia. done.
Qed.

Lemma clear_bit w o j : 0 <= o < 32 -> 0 <= j < 32 ->
  Z.testbit (Z.land w (u32 (Z.lnot (u32 (Z.shiftl 1 o))))) j = negb (j =? o) && Z.testbit w j.
Proof.
  intros. rewrite bit_mask by done. unfold u32. change 4294967296 with (2 ^ 32).
  rewrite Z.land_spec, Z.mod_pow2_bits_low, Z.lnot_spec, Z.pow2_bits_eqb by lia.
  rewrite andb_comm, (Z.eqb_sym o j). done.
Qed.

Lemma word_bound w : 0 <= w -> (forall j, 32 <= j -> Z.testbit w j = false) -> 0 <= w < 4294967296.
Proof.
  intros Hw Hbits. split; [done|]. change 4294967296 with (2 ^ 32).
  destruct (Z.eq_dec w 0) as [->|Hne]; [done|]. apply Z.log2_lt_pow2; [lia|].
  destruct (Z.lt_ge_cases (Z.log2 w) 32) as [|Hge]; [done|].
  specialize (Hbits _ Hge). rewrite Z.bit_log2 in Hbits; [done|lia].
Qed.

Lemma word_high w j : 0 <= w < 4294967296 -> 32 <= j -> Z.testbit w j = false.
Proof.
  intros Hw Hj. apply Z.bits_above_log2; [lia|].
  destruct (Z.eq_dec w 0) as [->|]; [simpl; lia|].
  apply Z.log2_lt_pow2; [lia|]. apply Z.lt_le_trans with (2 ^ 32); [lia|].
  apply Z.pow_le_mono_r; lia.
Qed.

Lemma lor_word w o : 0 <= w < 4294967296 -> 0 <= o < 32 ->
  0 <= Z.lor w (u32 (Z.shiftl 1 o)) < 4294967296.
Proof.
  intros Hw Ho. apply word_bound.
  - apply Z.lor_nonneg. split; [lia|apply u32_bound].
  - intros j Hj. rewrite lor_bit, word_high by lia. destruct (Z.eqb_spec j o); [lia|done].
Qed.

Lemma clear_word w z : 0 <= w < 4294967296 -> 0 <= Z.land w (u32 z) < 4294967296.
Proof.
  intros Hw. apply word_bound.
  - apply Z.land_nonneg. lia.
  - intros j Hj. by rewrite Z.land_spec, word_high by lia.
Qed.

Lemma full_word w : (forall j, 0 <= j < 32 -> Z.testbit w j = true) -> 0 <= w < 4294967296 ->
  w = 0xFFFFFFFF.
Proof.
  intros Hb Hw. change 0xFFFFFFFF with (Z.ones 32). apply Z.bits_inj'. intros j Hj.
  destruct (Z.lt_ge_cases j 32).
  - rewrite Hb, Z.ones_spec_low by lia. done.
  - rewrite word_high, Z.ones_spec_high by lia. done.
Qed.

Lemma frame_split k : 0 <= k -> 0 <= k mod 32 < 32 /\ 0 <= k / 32 /\ k = 32 * (k / 32) + k mod 32.
Proof.
  intros. pose proof (Z.mod_pos_bound k 32). pose proof (Z.div_pos k 32).
  pose proof (Z.div_mod k 32). lia.
Qed.

(** ** The bitmap as a set of frames *)

Lemma wf_in_range m k : wf m -> 0 <= k < 32 * (nframes m / 16) ->
  exists w, frames m !! Z.to_nat (k / 32) = Some w /\ aget (frames m) (k / 32) = Ret w /\
    0 <= w < 4294967296 /\ used m k = Z.testbit w (k mod 32).
Proof.
  intros (Hn & Hl & Hf) Hk. pose proof (frame_split k) as Hs.
  destruct (aget_in_range (frames m) (k / 32)) as (w & Hw & Hg); [lia|].
  exists w. split; [done|]. split; [done|]. split; [by eapply Forall_lookup_1 in Hf|].
  unfold used. by rewrite Hw.
Qed.

Lemma in_slack m k : wf m -> 0 <= k < nframes m -> 0 <= k < 32 * (nframes m / 16).
Proof. intros (? & _) ?. pose proof (Z.div_mod (nframes m) 16). pose proof (Z.mod_pos_bound (nframes m) 16). lia. Qed.

Lemma managed_frame m k : managed m k -> 0 <= k < nframes m.
Proof. unfold managed. pose proof (Z.mul_div_le (nframes m) 32). lia. Qed.

(** Storing a word keeps the invariant and changes the bits of that word only. *)
Lemma store_word m k w' (f : Z -> bool) :
  wf m -> 0 <= k < 32 * (nframes m / 16) -> 0 <= w' < 4294967296 ->
  (forall j, 0 <= j < 32 -> Z.testbit w' j = f (32 * (k / 32) + j)) ->
  (forall k', 0 <= k' -> k' / 32 <> k / 32 -> f k' = used m k') ->
  exists fs, aset (frames m) (k / 32) w' = Ret fs /\ wf (Build_frames fs (nframes m)) /\
    forall k', 0 <= k' -> used (Build_frames fs (nframes m)) k' = f k'.
Proof.
  intros Hwf Hk Hw' Hin Hout. pose proof Hwf as (Hn & Hl & Hf). pose proof (frame_split k) as Hs.
  exists (<[Z.to_nat (k / 32) := w']> (frames m)).
  split; [apply aset_in_range; lia|]. split.
  { split; [done|]. simpl. rewrite length_insert. split; [done|]. by apply Forall_insert. }
  intros k' Hk'. pose proof (frame_split k') as Hs'. unfold used at 1. cbn [frames].
  destruct (decide (k' / 32 = k / 32)) as [E|E].
  - rewrite E, list_lookup_insert_eq by lia. rewrite Hin by lia. f_equal. lia.
  - rewrite list_lookup_insert_ne by lia. symmetry. by apply Hout.
Qed.

Lemma frame_addr_div k : 0 <= k -> k * 0x1000 / 0x1000 = k.
Proof. intros. apply Z.div_mul. lia. Qed.

Lemma set_frame_spec m k :
  wf m -> 0 <= k < nframes m ->
  exists m', set_frame m (k * 0x1000) = Ret m' /\ wf m' /\ nframes m' = nframes m /\
    forall k', 0 <= k' -> used m' k' = (k' =? k) || used m k'.
Proof.
  intros Hwf Hk. pose proof (frame_split k) as Hs. unfold set_frame.
  rewrite u32_small by (destruct Hwf; lia). destruct (Z.ltb_spec (k * 0x1000) (nframes m * 4 * 0x400)); [|lia].
  rewrite frame_addr_div by lia.
  destruct (wf_in_range m k Hwf) as (w & Hw & Hg & Hb & Hu); [by apply in_slack|].
  unfold INDEX_FROM_BIT, OFFSET_FROM_BIT. rewrite Hg. cbn [mbind outcome_bind].
  destruct (store_word m k (Z.lor w (u32 (Z.shiftl 1 (k mod 32)))) (fun k' => (k' =? k) || used m k') Hwf)
    as (fs & -> & Hwf' & Hused).
  - by apply in_slack.
  - apply lor_word; [done|lia].
  - intros j Hj. rewrite lor_bit by lia. unfold used.
    replace ((32 * (k / 32) + j) / 32) with (k / 32) by (apply (Z.div_unique _ 32 _ j); lia).
    replace ((32 * (k / 32) + j) mod 32) with j by (apply (Z.mod_unique _ 32 (k / 32) j); lia).
    rewrite Hw. f_equal. destruct (Z.eqb_spec j (k mod 32)), (Z.eqb_spec (32 * (k / 32) + j) k); lia.
  - intros k' Hk' Hne. destruct (Z.eqb_spec k' k) as [->|]; done.
  - exists (Build_frames fs (nframes m)). done.
Qed.

Lemma clear_frame_spec m k :
  wf m -> 0 <= k < nframes m ->
  exists m', clear_frame m (k * 0x1000) = Ret m' /\ wf m' /\ nframes m' = nframes m /\
    forall k', 0 <= k' -> used m' k' = negb (k' =? k) && used m k'.
Proof.
  intros Hwf Hk. pose proof (frame_split k) as Hs. unfold clear_frame.
  rewrite frame_addr_div by lia.
  destruct (wf_in_range m k Hwf) as (w & Hw & Hg & Hb & Hu); [by apply in_slack|].
  unfold INDEX_FROM_BIT, OFFSET_FROM_BIT. rewrite Hg. cbn [mbind outcome_bind].
  destruct (store_word m k (Z.land w (u32 (Z.lnot (u32 (Z.shiftl 1 (k mod 32))))))
              (fun k' => negb (k' =? k) && used m k') Hwf) as (fs & -> & Hwf' & Hused).
  - by apply in_slack.
  - by apply clear_word.
  - intros j Hj. rewrite clear_bit by lia. unfold used.
    replace ((32 * (k / 32) + j) / 32) with (k / 32) by (apply (Z.div_unique _ 32 _ j); lia).
    replace ((32 * (k / 32) + j) mod 32) with j by (apply (Z.mod_unique _ 32 (k / 32) j); lia).
    rewrite Hw. f_equal. f_equal. destruct (Z.eqb_spec j (k mod 32)), (Z.eqb_spec (32 * (k / 32) + j) k); lia.
  - intros k' Hk' Hne. destruct (Z.eqb_spec k' k) as [->|]; done.
  - exists (Build_frames fs (nframes m)). done.
Qed.

Lemma test_frame_spec m k :
  wf m -> 0 <= k < 32 * (nframes m / 16) ->
  exists t, test_frame m (k * 0x1000) = Ret t /\ truthy t = used m k.
Proof.
  intros Hwf Hk. pose proof (frame_split k). unfold test_frame. rewrite frame_addr_div by lia.
  destruct (wf_in_range m k Hwf Hk) as (w & _ & Hg & _ & Hu).
  unfold INDEX_FROM_BIT, OFFSET_FROM_BIT. rewrite Hg. eexists. split; [done|].
  rewrite mask_test by lia. done.
Qed.

(** Two well-formed bitmaps that agree on every frame are equal. *)
Lemma used_ext m m' : wf m -> wf m' -> nframes m = nframes m' ->
  (forall k, 0 <= k -> used m k = used m' k) -> m = m'.
Proof.
  intros (Hn & Hl & Hf) (Hn' & Hl' & Hf') En Hu. destruct m as [fs n], m' as [fs' n']. simpl in *.
  subst n'. f_equal. apply list_eq_same_length with (length fs); [lia|lia|].
  intros i w w' Hi Hw Hw'. apply Z.bits_inj'. intros j Hj.
  assert (0 <= w < 4294967296) by (by eapply (Forall_lookup_1 _ _ _ _ Hf)).
  assert (0 <= w' < 4294967296) by (by eapply (Forall_lookup_1 _ _ _ _ Hf')).
  destruct (Z.lt_ge_cases j 32); [|by rewrite !word_high by lia].
  specialize (Hu (32 * Z.of_nat i + j)). unfold used in Hu. simpl in Hu.
  replace ((32 * Z.of_nat i + j) / 32) with (Z.of_nat i) in Hu by (apply (Z.div_unique _ 32 _ j); lia).
  replace ((32 * Z.of_nat i + j) mod 32) with j in Hu by (apply (Z.mod_unique _ 32 (Z.of_nat i) j); lia).
  rewrite Nat2Z.id, Hw, Hw' in Hu. apply Hu. lia.
Qed.

(** ** The searches *)

Lemma free_bit_spec w j todo :
  0 <= j -> j + Z.of_nat todo <= 32 ->
  match free_bit w j todo with
  | Some b => j <= b < j + Z.of_nat todo /\ Z.testbit w b = false /\
              forall x, j <= x < b -> Z.testbit w x = true
  | None => forall x, j <= x < j + Z.of_nat todo -> Z.testbit w x = true
  end.
Proof.
  revert j. induction todo as [|todo IH]; intros j Hj Ht; cbn [free_bit]; [intros; lia|].
  rewrite mask_test by lia. destruct (Z.testbit w j) eqn:Hw.
  - specialize (IH (j + 1)). destruct (free_bit w (j + 1) todo) as [b|].
    + destruct IH as (Hb & Hf & Hlt); [lia|lia|]. split; [lia|]. split; [done|].
      intros x Hx. destruct (Z.eq_dec x j) as [->|]; [done|]. apply Hlt. lia.
    + intros x Hx. destruct (Z.eq_dec x j) as [->|]; [done|]. apply IH; lia.
  - split; [lia|]. split; [done|]. intros; lia.
Qed.

Lemma used_word m i w j : 0 <= i -> 0 <= j < 32 -> frames m !! Z.to_nat i = Some w ->
  used m (32 * i + j) = Z.testbit w j.
Proof.
  intros. unfold used.
  replace ((32 * i + j) / 32) with i by (apply (Z.div_unique _ 32 _ j); lia).
  replace ((32 * i + j) mod 32) with j by (apply (Z.mod_unique _ 32 i j); lia).
  by simplify_option_eq.
Qed.

Lemma word_used m i w x : 0 <= i -> frames m !! Z.to_nat i = Some w -> 32 * i <= x < 32 * (i + 1) ->
  used m x = Z.testbit w (x - 32 * i).
Proof. intros. rewrite <- (used_word m i w (x - 32 * i)) by (done || lia). f_equal. lia. Qed.

Lemma first_frame_from_spec m i todo :
  wf m -> 0 <= i -> i + Z.of_nat todo = nframes m / 32 ->
  (exists k, first_frame_from m i todo = Ret k /\ 32 * i <= k < 32 * (nframes m / 32) /\
     used m k = false /\ forall x, 32 * i <= x < k -> used m x = true) \/
  (first_frame_from m i todo = Ret 0xFFFFFFFF /\
     forall x, 32 * i <= x < 32 * (nframes m / 32) -> used m x = true).
Proof.
  intros Hwf. revert i. induction todo as [|todo IH]; intros i Hi Ht; cbn [first_frame_from].
  { right. split; [done|]. intros; lia. }
  pose proof Hwf as (Hn & Hl & Hf).
  pose proof (Z.mul_div_le (nframes m) 32). pose proof (Z.div_mod (nframes m) 16).
  pose proof (Z.mod_pos_bound (nframes m) 16).
  destruct (aget_in_range (frames m) i) as (w & Hw & ->); [lia|]. cbn [mbind outcome_bind].
  assert (0 <= w < 4294967296) as Hwb by (by eapply (Forall_lookup_1 _ _ _ _ Hf)).
  assert (forall j, 0 <= j < 32 -> Z.testbit w j = used m (32 * i + j)) as Hbit
    by (intros; symmetry; by apply used_word).
  assert ((forall x, 32 * i <= x < 32 * (i + 1) -> used m x = true) ->
    (exists k, first_frame_from m (i + 1) todo = Ret k /\ 32 * i <= k < 32 * (nframes m / 32) /\
      used m k = false /\ forall x, 32 * i <= x < k -> used m x = true) \/
    (first_frame_from m (i + 1) todo = Ret 0xFFFFFFFF /\
      forall x, 32 * i <= x < 32 * (nframes m / 32) -> used m x = true)) as Hnext.
  { intros Hall. destruct (IH (i + 1)) as [(k & -> & Hk & Hu & Hlt)|[-> Hlt]]; [lia|lia|left|right].
    - exists k. split; [done|]. split; [lia|]. split; [done|]. intros x Hx.
      destruct (Z.lt_ge_cases x (32 * (i + 1))); [apply Hall|apply Hlt]; lia.
    - split; [done|]. intros x Hx.
      destruct (Z.lt_ge_cases x (32 * (i + 1))); [apply Hall|apply Hlt]; lia. }
  destruct (Z.eqb_spec w 0xFFFFFFFF) as [->|Hne].
  { apply Hnext. intros x Hx. rewrite (word_used m i _ x Hi Hw Hx).
    change 0xFFFFFFFF with (Z.ones 32). apply Z.ones_spec_low. lia. }
  pose proof (free_bit_spec w 0 32) as Hfb. destruct (free_bit w 0 32) as [b|].
  - destruct Hfb as (Hb & Hbf & Hlt); [lia|lia|]. left. exists (32 * i + b).
    split; [rewrite u32_small by lia; f_equal; lia|]. split; [lia|].
    split; [rewrite <- Hbit by lia; done|]. intros x Hx.
    rewrite (word_used m i _ x Hi Hw) by lia. apply Hlt. lia.
  - apply Hnext. intros x Hx. rewrite (word_used m i _ x Hi Hw Hx). apply Hfb; lia.
Qed.

Lemma first_frame_spec m :
  wf m ->
  (exists k, first_frame m = Ret k /\ managed m k /\ used m k = false /\
     forall x, 0 <= x < k -> used m x = true) \/
  (first_frame m = Ret 0xFFFFFFFF /\ forall x, managed m x -> used m x = true).
Proof.
  intros Hwf. pose proof Hwf as (Hn & _). pose proof (Z.div_pos (nframes m) 32).
  apply (first_frame_from_spec m 0 (Z.to_nat (nframes m / 32))); [done|lia|lia].
Qed.

Lemma alloc_frame_new m page ik iw :
  wf m -> frame page = 0 -> (exists k, managed m k /\ used m k = false) ->
  exists k m', alloc_frame m page ik iw = Ret (m', Build_page 1 1 1 (writethrough page) (cachedisable page) k) /\
    managed m k /\ used m k = false /\ (forall x, 0 <= x < k -> used m x = true) /\
    wf m' /\ nframes m' = nframes m /\ forall x, 0 <= x -> used m' x = (x =? k) || used m x.
Proof.
  intros Hwf Hp (k0 & Hk0 & Hu0). unfold alloc_frame. rewrite Hp. cbn [negb Z.eqb].
  destruct (first_frame_spec m Hwf) as [(k & -> & Hk & Hu & Hlt)|[_ Hall]];
    [|by rewrite Hall in Hu0].
  cbn [mbind outcome_bind]. pose proof (managed_frame m k Hk) as Hkn.
  pose proof Hwf as (Hn & _). rewrite u32_small by lia.
  destruct (set_frame_spec m k Hwf Hkn) as (m' & -> & Hwf' & En & Hu').
  exists k, m'. rewrite Z.mod_small by lia. unfold grant.
  replace (if iw =? 1 then 1 else 1) with 1 by (by destruct (iw =? 1)).
  replace (if ik =? 1 then 1 else 1) with 1 by (by destruct (ik =? 1)). done.
Qed.

Lemma run_bad_spec m k j todo bad :
  wf m -> 0 <= k -> 0 <= j -> 0 <= bad <= j ->
  k + j + Z.of_nat todo <= 32 * (nframes m / 16) -> k + j + Z.of_nat todo <= 1048576 ->
  exists bad', run_bad m (k * 0x1000) j todo bad = Ret bad' /\
    (truthy bad' = false <->
       bad = 0 /\ forall x, k + j <= x < k + j + Z.of_nat todo -> used m x = false).
Proof.
  intros Hwf. revert j bad. induction todo as [|todo IH]; intros j bad Hk Hj Hb Hr Ho; cbn [run_bad].
  - exists bad. split; [done|]. unfold truthy. destruct (Z.eqb_spec bad 0); simpl; split; try done; try lia.
    intros. split; [done|]. intros; lia.
  - replace (k * 0x1000 + 0x1000 * j) with ((k + j) * 0x1000) by lia. rewrite u32_small by lia.
    destruct (test_frame_spec m (k + j) Hwf) as (t & -> & Ht); [lia|]. cbn [mbind outcome_bind].
    rewrite Ht. destruct (IH (j + 1) (if used m (k + j) then j + 1 else bad)) as (bad' & -> & Hb');
      [lia|lia|destruct (used m (k + j)); lia|lia|lia|].
    exists bad'. split; [done|]. rewrite Hb'. clear Hb' IH. split.
    + intros [E Hx]. destruct (used m (k + j)) eqn:Hu; [lia|]. split; [done|]. intros x Hx'.
      destruct (Z.eq_dec x (k + j)) as [->|]; [done|]. apply Hx. lia.
    + intros [E Hx]. rewrite (Hx (k + j)) by lia. split; [done|]. intros x Hx'. apply Hx. lia.
Qed.

(** All [n] frames from [k] on are free in the bitmap. *)
Definition free_run (m : frames_t) (n k : Z) : Prop := forall x, k <= x < k + n -> used m x = false.

Lemma first_n_from_spec m n k todo :
  wf m -> 0 <= k -> k + Z.of_nat todo = nframes m ->
  nframes m + Z.of_nat n <= 32 * (nframes m / 16) -> nframes m + Z.of_nat n <= 1048576 ->
  (exists k', first_n_from m n (k * 0x1000) todo = Ret k' /\ k <= k' < nframes m /\
     free_run m (Z.of_nat n) k' /\ forall x, k <= x < k' -> ~ free_run m (Z.of_nat n) x) \/
  (first_n_from m n (k * 0x1000) todo = Ret 0xFFFFFFFF /\
     forall x, k <= x < nframes m -> ~ free_run m (Z.of_nat n) x).
Proof.
  intros Hwf. revert k. induction todo as [|todo IH]; intros k Hk Ht Hs Ho; cbn [first_n_from].
  { right. split; [done|]. intros; lia. }
  destruct (run_bad_spec m k 0 n 0 Hwf) as (bad & -> & Hbad); [lia|lia|lia|lia|lia|].
  cbn [mbind outcome_bind]. rewrite Z.add_0_r in Hbad. destruct (truthy bad) eqn:Hb; cbn [negb].
  - assert (~ free_run m (Z.of_nat n) k) as Hno.
    { intros Hfree. assert (true = false); [|done]. apply Hbad. split; [done|]. exact Hfree. }
    pose proof Hwf as (Hnb & _).
    replace (u32 (k * 0x1000 + 0x1000)) with ((k + 1) * 0x1000) by (rewrite u32_small; lia).
    destruct (IH (k + 1)) as [(k' & -> & Hk' & Hf & Hlt)|[-> Hlt]]; [lia|lia|lia|lia|left|right].
    + exists k'. split; [done|]. split; [lia|]. split; [done|]. intros x Hx.
      destruct (Z.eq_dec x k) as [->|]; [done|]. apply Hlt. lia.
    + split; [done|]. intros x Hx. destruct (Z.eq_dec x k) as [->|]; [done|]. apply Hlt. lia.
  - left. exists k. rewrite frame_addr_div by lia. split; [done|]. split; [lia|].
    split; [|intros; lia]. destruct Hbad as [Hbad _]. by destruct (Hbad eq_refl).
Qed.

Lemma first_n_frames_spec m n :
  wf m -> 0 <= n -> nframes m + n <= 32 * (nframes m / 16) -> nframes m + n <= 1048576 ->
  (exists k, first_n_frames m n = Ret k /\ 0 <= k < nframes m /\ free_run m n k /\
     forall x, 0 <= x < k -> ~ free_run m n x) \/
  (first_n_frames m n = Ret 0xFFFFFFFF /\ forall x, 0 <= x < nframes m -> ~ free_run m n x).
Proof.
  intros Hwf Hn Hs Ho. pose proof Hwf as (Hf & _). unfold first_n_frames.
  rewrite u32_small, frame_addr_div by lia.
  pose proof (first_n_from_spec m (Z.to_nat n) 0 (Z.to_nat (nframes m)) Hwf) as H.
  rewrite !Z2Nat.id in H by lia. apply H; lia.
Qed.

Lemma count_bits_seqZ m i w j todo :
  0 <= i -> 0 <= j -> j + Z.of_nat todo <= 32 -> frames m !! Z.to_nat i = Some w ->
  count_bits w j todo =
    Z.of_nat (length (filter (fun k => used m k = true) (seqZ (32 * i + j) (Z.of_nat todo)))).
Proof.
  intros Hi. revert j. induction todo as [|todo IH]; intros j Hj Ht Hw; cbn [count_bits].
  { done. }
  rewrite seqZ_cons by lia. rewrite Nat2Z.inj_succ, Z.pred_succ, list.filter_cons.
  rewrite mask_test, (used_word m i w j) by (done || lia).
  rewrite IH by (done || lia). replace (Z.succ (32 * i + j)) with (32 * i + (j + 1)) by lia.
  destruct (Z.testbit w j); case_decide; try done; cbn [b2z length]; lia.
Qed.

Lemma count_words_spec m i todo :
  wf m -> 0 <= i -> i + Z.of_nat todo = nframes m / 32 ->
  count_words m i todo =
    Ret (Z.of_nat (length (filter (fun k => used m k = true) (seqZ (32 * i) (32 * Z.of_nat todo))))).
Proof.
  intros Hwf. revert i. induction todo as [|todo IH]; intros i Hi Ht; cbn [count_words]; [done|].
  pose proof Hwf as (Hn & Hl & Hf).
  pose proof (Z.mul_div_le (nframes m) 32). pose proof (Z.div_mod (nframes m) 16).
  pose proof (Z.mod_pos_bound (nframes m) 16).
  destruct (aget_in_range (frames m) i) as (w & Hw & ->); [lia|]. cbn [mbind outcome_bind].
  rewrite (IH (i + 1)) by lia. cbn [mbind outcome_bind]. f_equal.
  rewrite (count_bits_seqZ m i w 0 32) by (done || lia).
  replace (32 * Z.of_nat (S todo)) with (Z.of_nat 32 + 32 * Z.of_nat todo) by lia.
  rewrite seqZ_app, list.filter_app, length_app, Z.add_0_r by lia.
  replace (32 * i + Z.of_nat 32) with (32 * (i + 1)) by lia. lia.
Qed.

(** ** Properties *)


(** Once frame 0 is reserved, freeing a page just allocated gives back the
    very same bitmap, and the page is without a frame again. *)
Theorem alloc_free_frame m page ik iw :
  wf m -> used m 0 = true -> frame page = 0 -> (exists k, managed m k /\ used m k = false) ->
  exists m' page' page'', alloc_frame m page ik iw = Ret (m', page') /\ frame page' <> 0 /\
    free_frame m' page' = Ret (m, page'') /\ frame page'' = 0.
Proof.
  intros Hwf H0 Hp Hex. destruct (alloc_frame_new m page ik iw Hwf Hp Hex)
    as (k & m' & -> & Hk & Hu & _ & Hwf' & En & Hu').
  pose proof (managed_frame m k Hk). pose proof Hwf as (Hn & _).
  assert (k <> 0) as Hk0 by congruence.
  do 3 eexists. split; [done|]. split; [done|]. unfold free_frame. cbn [frame].
  destruct (Z.eqb_spec k 0); [done|]. rewrite u32_small by lia.
  destruct (clear_frame_spec m' k Hwf') as (m'' & -> & Hwf'' & En' & Hu''); [lia|].
  assert (m'' = m) as ->.
  { apply used_ext; [done|done|congruence|]. intros x Hx. rewrite Hu'', Hu' by done.
    destruct (Z.eqb_spec x k) as [->|]; simpl; congruence. }
  cbn [mbind outcome_bind]. split; reflexivity.
Qed.

(** [first_n_frames] finds the first run of [n] clear bits of the bitmap, or
    returns 0xFFFFFFFF when no run starts below [nframes]. *)
Theorem first_n_frames_first m n :
  wf m -> 0 <= n -> nframes m + n <= 32 * (nframes m / 16) -> nframes m + n <= 1048576 ->
  exists r, first_n_frames m n = Ret r /\
    ((0 <= r < nframes m /\ free_run m n r /\ forall x, 0 <= x < r -> ~ free_run m n x) \/
     (r = 0xFFFFFFFF /\ forall x, 0 <= x < nframes m -> ~ free_run m n x)).
Proof.
  intros Hwf Hn Hs Ho. destruct (first_n_frames_spec m n Hwf Hn Hs Ho) as [(k & -> & Hk)|[-> Hx]].
  - exists k. split; [done|]. by left.
  - exists 0xFFFFFFFF. split; [done|]. by right.
Qed.

(** The run may leave memory: with only the last frame free, a request for
    [n] frames is granted there although [n - 1] of them do not exist. *)
Theorem first_n_frames_overrun m n :
  wf m -> 2 <= n -> nframes m + n <= 32 * (nframes m / 16) -> nframes m + n <= 1048576 ->
  (forall x, 0 <= x < nframes m - 1 -> used m x = true) ->
  (forall x, nframes m - 1 <= x -> used m x = false) ->
  first_n_frames m n = Ret (nframes m - 1) /\ nframes m - 1 + n > nframes m.
Proof.
  intros Hwf Hn Hs Ho Hlo Hhi. pose proof Hwf as (Hb & _). split; [|lia].
  destruct (first_n_frames_spec m n Hwf) as [(k & -> & Hk & Hf & Hlt)|[_ Hx]]; [lia|done|done| |].
  - f_equal. destruct (Z.lt_ge_cases k (nframes m - 1)) as [Hk1|]; [|lia].
    specialize (Hf k). rewrite Hlo in Hf by lia. discriminate Hf. lia.
  - exfalso. apply (Hx (nframes m - 1)); [lia|]. intros x Hx'. apply Hhi. lia.
Qed.

(** [memory_use] is four kilobytes per frame in use, over the frames the
    allocator manages; a new bitmap has none in use. *)
Theorem memory_use_counts m memsize :
  wf m -> 64 <= memsize < 4194304 ->
  memory_use m =
    Ret (4 * Z.of_nat (length (filter (fun k => used m k = true) (seqZ 0 (32 * (nframes m / 32)))))) /\
  wf (paging_install memsize) /\ (forall k, used (paging_install memsize) k = false) /\
  memory_use (paging_install memsize) = Ret 0.
Proof.
  intros Hwf Hms.
  assert (forall m, wf m -> memory_use m =
    Ret (4 * Z.of_nat (length (filter (fun k => used m k = true) (seqZ 0 (32 * (nframes m / 32))))))) as Hgen.
  { clear. intros m Hwf. pose proof Hwf as (Hn & _). pose proof (Z.div_pos (nframes m) 32).
    unfold memory_use, INDEX_FROM_BIT. rewrite (count_words_spec m 0) by (done || lia).
    cbn [mbind outcome_bind]. rewrite Z2Nat.id by lia. rewrite Z.mul_0_r.
    pose proof (list.length_filter (fun k => used m k = true) (seqZ 0 (32 * (nframes m / 32)))) as Hle.
    rewrite length_seqZ in Hle. pose proof (Z.mul_div_le (nframes m) 32).
    rewrite u32_small; [f_equal; lia|]. lia. }
  assert (wf (paging_install memsize)) as Hwfi.
  { assert (16 <= memsize / 4 < 1048576) as Hn.
    { split; [apply Z.div_le_lower_bound; lia|apply Z.div_lt_upper_bound; lia]. }
    unfold paging_install, wf, INDEX_FROM_BIT. cbn [frames nframes].
    rewrite length_replicate, u32_small by lia. rewrite Z.div_div by lia.
    split; [done|]. split; [|by apply Forall_replicate].
    rewrite Z2Nat.id by (apply Z.div_pos; lia). change (32 * 4) with (16 * 8).
    by rewrite Z.div_mul_cancel_r by lia. }
  assert (forall k, used (paging_install memsize) k = false) as Hnone.
  { intros k. unfold used, paging_install. cbn [frames].
    destruct (replicate _ _ !! _) as [w|] eqn:E; [|done]. apply lookup_replicate in E as [-> _]. apply Z.bits_0. }
  split; [by apply Hgen|]. split; [done|]. split; [done|]. rewrite Hgen by done.
  destruct (filter _ _) as [|k l] eqn:E; [done|].
  assert (k ∈ k :: l) as Hk by left. rewrite <- E in Hk.
  apply list_elem_of_filter in Hk as [Hk _]. by rewrite Hnone in Hk.
Qed.

(** ** Witnesses *)

(** 64 frames, the first 33 in use. *)
Definition demo : frames_t := Build_frames [0xFFFFFFFF; 1; 0; 0] 64.

Lemma demo_wf : wf demo.
Proof. split; [vm_compute; intuition done|]. split; [done|]. repeat constructor; vm_compute; intuition done. Qed.

Lemma demo_free : exists k, managed demo k /\ used demo k = false.
Proof. exists 33. split; [unfold managed; vm_compute; intuition done|done]. Qed.


Lemma alloc_free_frame_witness :
  exists m' page' page'', alloc_frame demo zero_page 0 0 = Ret (m', page') /\ frame page' <> 0 /\
    free_frame m' page' = Ret (demo, page'') /\ frame page'' = 0.
Proof. apply (alloc_free_frame demo zero_page 0 0 demo_wf); [done|done|apply demo_free]. Defined.

Lemma first_n_frames_first_witness :
  exists r, first_n_frames demo 5 = Ret r /\
    ((0 <= r < 64 /\ free_run demo 5 r /\ forall x, 0 <= x < r -> ~ free_run demo 5 x) \/
     (r = 0xFFFFFFFF /\ forall x, 0 <= x < 64 -> ~ free_run demo 5 x)).
Proof. apply (first_n_frames_first demo 5 demo_wf); vm_compute; discriminate. Defined.

(** 64 frames, all but the last in use. *)
Definition tight : frames_t := Build_frames [0xFFFFFFFF; 0x7FFFFFFF; 0; 0] 64.

Lemma tight_wf : wf tight.
Proof. split; [vm_compute; intuition done|]. split; [done|]. repeat constructor; vm_compute; intuition done. Qed.

Lemma tight_high x : 63 <= x -> used tight x = false.
Proof.
  intros Hx. destruct (Z.lt_ge_cases x 128).
  - assert ((x <? 63) || negb (used tight x) = true) as E.
    { apply (forall_range (fun x => (x <? 63) || negb (used tight x)) 128); [done|lia]. }
    destruct (Z.ltb_spec x 63); [lia|]. by apply negb_true_iff.
  - unfold used. rewrite lookup_ge_None_2; [done|]. simpl. pose proof (Z.div_le_lower_bound x 32 4). lia.
Qed.

Lemma first_n_frames_overrun_witness :
  first_n_frames tight 4 = Ret 63 /\ 64 - 1 + 4 > 64.
Proof.
  apply (first_n_frames_overrun tight 4 tight_wf); [lia|by vm_compute|by vm_compute| |].
  - by apply (forall_range (used tight)).
  - apply tight_high.
Defined.

Lemma memory_use_counts_witness :
  memory_use demo = Ret (4 * 33) /\ wf (paging_install 1024) /\
  (forall k, used (paging_install 1024) k = false) /\ memory_use (paging_install 1024) = Ret 0.
Proof. apply (memory_use_counts demo 1024 demo_wf). lia. Defined.

End Frames.

(** ** The interface the users of frames rely on

    [take_frame] is the pair of calls [index = first_frame();
    set_frame(index * 0x1000)] that tmpfs and the shared memory code make,
    [release_frame] the call [clear_frame(index * 0x1000)]. *)

Class FrameAllocator := {
  falloc : Type;
  take_frame : falloc -> outcome (Z * falloc);
  release_frame : falloc -> Z -> outcome falloc;
  fa_ok : falloc -> Prop;
  in_use : falloc -> Z -> bool;
  spare : falloc -> nat;
  take_frame_ok s : fa_ok s -> (0 < spare s)%nat ->
    exists k s', take_frame s = Ret (k, s') /\ fa_ok s' /\ 0 <= k < 1048576 /\ in_use s k = false /\
      (forall x, 0 <= x -> in_use s' x = (x =? k) || in_use s x) /\ spare s = S (spare s');
  release_frame_ok s k : fa_ok s -> in_use s k = true -> 0 <= k ->
    exists s', release_frame s k = Ret s' /\ fa_ok s' /\
      forall x, 0 <= x -> in_use s' x = negb (x =? k) && in_use s x
}.

Module FrameInstance.
Import Frames.

Definition take (m : frames_t) : outcome (Z * frames_t) :=
  index ← first_frame m;
  m ← set_frame m (u32 (index * 0x1000));
  Ret (index, m).

Definition release (m : frames_t) (k : Z) : outcome frames_t := clear_frame m (u32 (k * 0x1000)).

(** No frame beyond the last is marked. *)
Definition bounded (m : frames_t) : Prop := forall k, nframes m <= k -> used m k = false.

Definition free_list (m : frames_t) : list Z :=
  filter (fun k => used m k = false) (seqZ 0 (32 * (nframes m / 32))).

Lemma free_list_spec m k : k ∈ free_list m <-> used m k = false /\ managed m k.
Proof. unfold free_list, managed. rewrite list_elem_of_filter, elem_of_seqZ, Z.add_0_l. done. Qed.

Lemma free_list_NoDup m : NoDup (free_list m).
Proof. apply NoDup_filter, NoDup_seqZ. Qed.

Lemma free_list_take m m' k :
  nframes m' = nframes m -> managed m k -> used m k = false ->
  (forall x, 0 <= x -> used m' x = (x =? k) || used m x) -> free_list m ≡ₚ k :: free_list m'.
Proof.
  intros En Hk Hu Hu'. apply NoDup_Permutation.
  - apply free_list_NoDup.
  - constructor; [|apply free_list_NoDup]. rewrite free_list_spec. intros [Hc _].
    rewrite Hu', Z.eqb_refl in Hc by (destruct Hk; lia). done.
  - intros x. rewrite elem_of_cons, !free_list_spec. unfold managed in *. rewrite En. split.
    + intros [Hx Hm]. rewrite Hu' by lia. destruct (Z.eqb_spec x k); [by left|]. by right.
    + intros [->|[Hx Hm]]; [done|]. rewrite Hu' in Hx by lia. apply orb_false_iff in Hx as [_ Hx]. done.
Qed.

#[export] Program Instance bitmap_allocator : FrameAllocator := {
  falloc := frames_t;
  take_frame := take;
  release_frame := release;
  fa_ok m := wf m /\ bounded m;
  in_use := used;
  spare m := length (free_list m)
}.
Next Obligation.
  intros m [Hwf Hb] Hs. destruct (free_list m) as [|k0 l] eqn:El; [simpl in Hs; lia|].
  assert (k0 ∈ free_list m) as [Hu0 Hm0]%free_list_spec by (rewrite El; left).
  unfold take. destruct (first_frame_spec m Hwf) as [(k & -> & Hk & Hu & _)|[_ Hall]];
    [|by rewrite Hall in Hu0].
  pose proof (managed_frame m k Hk). pose proof Hwf as (Hn & _). cbn [mbind outcome_bind].
  rewrite u32_small by lia.
  destruct (set_frame_spec m k Hwf) as (m' & -> & Hwf' & En & Hu'); [done|].
  exists k, m'. split; [done|]. split.
  { split; [done|]. intros x Hx. rewrite En in Hx. rewrite Hu', Hb by lia.
    destruct (Z.eqb_spec x k); [lia|done]. }
  split; [lia|]. split; [done|]. split; [done|].
  rewrite <- El. apply (Permutation_length (free_list_take m m' k En Hk Hu Hu')).
Qed.
Next Obligation.
  intros m k [Hwf Hb] Hu Hk. assert (k < nframes m).
  { destruct (Z.lt_ge_cases k (nframes m)); [done|]. by rewrite Hb in Hu. }
  pose proof Hwf as (Hn & _). unfold release. rewrite u32_small by lia.
  destruct (clear_frame_spec m k Hwf) as (m' & -> & Hwf' & En & Hu'); [done|].
  exists m'. split; [done|]. split; [|done]. split; [done|]. intros x Hx. rewrite En in Hx.
  rewrite Hu', Hb by lia. apply andb_false_r.
Qed.

End FrameInstance.
