(* ===== verification/Paging.v ===== *)
(** * Page tables and the kernel heap of [kernel/src/mem/mem.c]

    The page tables and directories live in memory and are shared between
    address spaces, so the state maps their addresses to their contents; a
    [page_t *] is a table and an index.  What [malloc] and [valloc] of
    [mem/alloc.c] promise to this file is the class [KernelHeap].  The contents
    of pages are not part of the state: the pages [clone_table] asks the
    assembly routine [copy_page_physical] to copy are logged in [copies]. *)

From stdpp Require Import base gmap numbers list.
From S2P Require Import Prelude Frames.

Module Paging.
Import Frames.

Record page_directory_t := Build_directory {
  physical_tables : list Z;
  tables : list ptr;
  physical_address : Z;
  ref_count : Z
}.

Record memory := Build_memory {
  fr : frames_t;
  page_tables : gmap ptr (list page_t);
  directories : gmap ptr page_directory_t;
  placement_pointer : Z;
  heap_end : Z;
  kernel_heap_alloc_point : Z;
  kernel_directory : ptr;
  current_directory : ptr;
  copies : list (Z * Z)
}.

Definition SHM_START : Z := 0xB0000000.
Definition KERNEL_HEAP_END : Z := 0x20000000.
Definition sizeof_page_table_t : Z := 4096.
Definition sizeof_page_directory_t : Z := 8200.

Definition set_fr (m : memory) (f : frames_t) : memory :=
  Build_memory f (page_tables m) (directories m) (placement_pointer m) (heap_end m)
    (kernel_heap_alloc_point m) (kernel_directory m) (current_directory m) (copies m).
Definition set_tables (m : memory) (ts : gmap ptr (list page_t)) : memory :=
  Build_memory (fr m) ts (directories m) (placement_pointer m) (heap_end m)
    (kernel_heap_alloc_point m) (kernel_directory m) (current_directory m) (copies m).
Definition set_directories (m : memory) (ds : gmap ptr page_directory_t) : memory :=
  Build_memory (fr m) (page_tables m) ds (placement_pointer m) (heap_end m)
    (kernel_heap_alloc_point m) (kernel_directory m) (current_directory m) (copies m).
Definition set_placement (m : memory) (p : Z) : memory :=
  Build_memory (fr m) (page_tables m) (directories m) p (heap_end m)
    (kernel_heap_alloc_point m) (kernel_directory m) (current_directory m) (copies m).
Definition set_heap_end (m : memory) (h : Z) : memory :=
  Build_memory (fr m) (page_tables m) (directories m) (placement_pointer m) h
    (kernel_heap_alloc_point m) (kernel_directory m) (current_directory m) (copies m).
Definition set_copies (m : memory) (c : list (Z * Z)) : memory :=
  Build_memory (fr m) (page_tables m) (directories m) (placement_pointer m) (heap_end m)
    (kernel_heap_alloc_point m) (kernel_directory m) (current_directory m) c.

Definition directory (m : memory) (dir : ptr) : outcome page_directory_t :=
  of_option (directories m !! dir).

(** Reads and writes through a [page_t *]. *)
Definition read_page (m : memory) (loc : ptr * Z) : outcome page_t :=
  t ← of_option (page_tables m !! loc.1); aget t loc.2.
Definition write_page (m : memory) (loc : ptr * Z) (p : page_t) : outcome memory :=
  t ← of_option (page_tables m !! loc.1);
  t ← aset t loc.2 p;
  Ret (set_tables m (<[loc.1 := t]> (page_tables m))).

Definition map_to_physical (m : memory) (virtual : Z) : outcome Z :=
  let remaining := virtual mod 0x1000 in
  let frame_no := virtual / 0x1000 in
  let table := frame_no / 1024 in
  let subframe := frame_no mod 1024 in
  dir ← directory m (current_directory m);
  t ← aget (tables dir) table;
  if truthy t then
    p ← read_page m (t, subframe);
    Ret (u32 (frame p * 0x1000 + remaining))
  else Ret 0.

(** What the kernel heap provides to the paging code. *)
Class KernelHeap := {
  malloc : memory -> Z -> outcome (ptr * memory);
  valloc : memory -> Z -> outcome (ptr * memory)
}.

Section Heap.
Context `{KernelHeap}.

(** The first loop of the large aligned case: the frames of the new block are
    given back. *)
Fixpoint clear_block (m : memory) (i stop : Z) (todo : nat) : outcome memory :=
  match todo with
  | O => Ret m
  | S todo' =>
      if i <? stop then
        addr ← map_to_physical m i;
        f ← clear_frame (fr m) addr;
        clear_block (set_fr m f) (u32 (i + 0x1000)) stop todo'
      else Ret m
  end.

(** The page entry of an address that is already there; the case [make = 0] of
    [get_page]. *)
Definition find_page (m : memory) (address : Z) (dir : ptr) : outcome (option (ptr * Z)) :=
  let address := address / 0x1000 in
  let table_index := address / 1024 in
  d ← directory m dir;
  t ← aget (tables d) table_index;
  Ret (if truthy t then Some (t, address mod 1024) else None).

(** The second one: the run of frames [index], [index + 1], ... is mapped. *)
Fixpoint map_block (m : memory) (address index i : Z) (todo : nat) : outcome memory :=
  match todo with
  | O => Ret m
  | S todo' =>
      f ← set_frame (fr m) (u32 ((index + i) * 0x1000));
      let m := set_fr m f in
      loc ← find_page m (u32 (address + i * 0x1000)) (kernel_directory m);
      match loc with
      | None => Fault
      | Some loc =>
          p ← read_page m loc;
          m ← write_page m loc
                (Build_page (present p) (rw p) (user p) 1 1 ((index + i) mod 1048576));
          map_block m address index (i + 1) todo'
      end
  end.

(** Returns the address, the value stored through [phys] and the new state. *)
Definition kmalloc_real (m : memory) (size : Z) (align phys : bool) : outcome (ptr * Z * memory) :=
  if truthy (heap_end m) then
    '(address, m) ← (if align then valloc m size else malloc m size);
    if phys then
      if align && (0x3000 <=? size) then
        let n := (size + 0xFFF) / 0x1000 in
        m ← clear_block m address (u32 (address + size)) (Z.to_nat n);
        index ← first_n_frames (fr m) n;
        if index =? 0xFFFFFFFF then Ret (0, 0, m)
        else
          m ← map_block m address index 0 (Z.to_nat n);
          p ← map_to_physical m address;
          Ret (address, p, m)
      else
        p ← map_to_physical m address;
        Ret (address, p, m)
    else Ret (address, 0, m)
  else
    let pp := placement_pointer m in
    let pp := if align && truthy (Z.land pp 0xFFFFF000) then u32 (Z.land pp 0xFFFFF000 + 0x1000) else pp in
    Ret (pp, if phys then pp else 0, set_placement m (u32 (pp + size))).

Definition kmalloc (m : memory) (size : Z) := kmalloc_real m size false false.
Definition kvmalloc (m : memory) (size : Z) := kmalloc_real m size true false.
Definition kmalloc_p (m : memory) (size : Z) := kmalloc_real m size false true.
Definition kvmalloc_p (m : memory) (size : Z) := kmalloc_real m size true true.

Definition kmalloc_startat (m : memory) (address : Z) : memory := set_placement m address.

Definition get_page (m : memory) (address : Z) (make : bool) (dir : ptr)
  : outcome (option (ptr * Z) * memory) :=
  let address := address / 0x1000 in
  let table_index := address / 1024 in
  d ← directory m dir;
  t ← aget (tables d) table_index;
  if truthy t then Ret (Some (t, address mod 1024), m)
  else if make then
    '(t, temp, m) ← kvmalloc_p m sizeof_page_table_t;
    let m := set_tables m (<[t := replicate 1024 zero_page]> (page_tables m)) in
    d ← directory m dir;
    ts ← aset (tables d) table_index t;
    ps ← aset (physical_tables d) table_index (Z.lor temp 0x7);
    let m := set_directories m
      (<[dir := Build_directory ps ts (physical_address d) (ref_count d)]> (directories m)) in
    Ret (Some (t, address mod 1024), m)
  else Ret (None, m).

Definition heap_install (m : memory) : memory :=
  set_heap_end m (Z.land (u32 (placement_pointer m + 0x1000)) (u32 (Z.lnot 0xFFF))).

(** The loop of [sbrk]: a missing page entry is reported and then used. *)
Fixpoint sbrk_loop (m : memory) (i stop : Z) (todo : nat) : outcome memory :=
  match todo with
  | O => Ret m
  | S todo' =>
      if i <? stop then
        '(loc, m) ← get_page m i false (kernel_directory m);
        match loc with
        | None => Fault
        | Some loc =>
            p ← read_page m loc;
            '(f, p) ← alloc_frame (fr m) p 1 0;
            m ← write_page (set_fr m f) loc p;
            sbrk_loop m (u32 (i + 0x1000)) stop todo'
        end
      else Ret m
  end.

(** The failed assertions on the arguments are only reported; the memory is
    cleared, which the state does not show. *)
Definition sbrk (m : memory) (increment : Z) : outcome (ptr * memory) :=
  let address := heap_end m in
  let stop := u32 (heap_end m + increment) in
  m ← (if kernel_heap_alloc_point m <? stop
       then sbrk_loop m (heap_end m) stop (Z.to_nat ((increment + 0xFFF) / 0x1000))
       else Ret m);
  Ret (address, set_heap_end m stop).

(** The flags of a page of the source are added to its copy. *)
Definition copy_flags (src p : page_t) : page_t :=
  Build_page (if truthy (present src) then 1 else present p) (if truthy (rw src) then 1 else rw p)
    (if truthy (user src) then 1 else user p)
    (if truthy (writethrough src) then 1 else writethrough p)
    (if truthy (cachedisable src) then 1 else cachedisable p) (frame p).

(** The loop of [clone_table] over the pages of the source, on a table that
    starts out as zeros: the bitmap, the pages of the copy and the copies asked
    for. *)
Fixpoint clone_pages (f : frames_t) (src : list page_t) : outcome (frames_t * list page_t * list (Z * Z)) :=
  match src with
  | [] => Ret (f, [], [])
  | s :: src' =>
      if frame s =? 0 then
        '(f, ps, cs) ← clone_pages f src'; Ret (f, zero_page :: ps, cs)
      else
        '(f, p) ← alloc_frame f zero_page 0 0;
        let p := copy_flags s p in
        '(f, ps, cs) ← clone_pages f src';
        Ret (f, p :: ps, (u32 (frame s * 0x1000), u32 (frame p * 0x1000)) :: cs)
  end.

(** Returns the new table, the value stored through [physAddr] and the state. *)
Definition clone_table (m : memory) (src : ptr) : outcome (ptr * Z * memory) :=
  '(table, phys, m) ← kvmalloc_p m sizeof_page_table_t;
  pages ← of_option (page_tables m !! src);
  '(f, ps, cs) ← clone_pages (fr m) pages;
  Ret (table, phys,
       set_copies (set_fr (set_tables m (<[table := ps]> (page_tables m))) f) (copies m ++ cs)).

(** One turn of the loop of [clone_directory] on the entries of [src] and of
    the kernel directory at index [i]: the new entry and its physical address. *)
Definition clone_entry (m : memory) (i t phys kt : Z) : outcome (ptr * Z * memory) :=
  if (t =? 0) || (t =? 0xFFFFFFFF) then Ret (0, 0, m)
  else if kt =? t then Ret (t, phys, m)
  else if u32 (i * 0x1000 * 1024) <? SHM_START then
    '(t', p, m) ← clone_table m t;
    Ret (t', Z.lor p 0x07, m)
  else Ret (0, 0, m).

Fixpoint clone_entries (m : memory) (i : Z) (ts ps kts : list Z) : outcome (list ptr * list Z * memory) :=
  match ts, ps, kts with
  | t :: ts', p :: ps', kt :: kts' =>
      '(t', p', m) ← clone_entry m i t p kt;
      '(ts'', ps'', m) ← clone_entries m (i + 1) ts' ps' kts';
      Ret (t' :: ts'', p' :: ps'', m)
  | _, _, _ => Ret ([], [], m)
  end.

Definition clone_directory (m : memory) (src : ptr) : outcome (ptr * memory) :=
  '(dir, phys, m) ← kvmalloc_p m sizeof_page_directory_t;
  s ← directory m src;
  k ← directory m (kernel_directory m);
  '(ts, ps, m) ← clone_entries m 0 (tables s) (physical_tables s) (tables k);
  Ret (dir, set_directories m (<[dir := Build_directory ps ts phys 1]> (directories m))).

End Heap.

(** ** Specification *)

(** A later state: frames in use stay in use and the tables of user programs
    are not touched. *)
Definition user_table (m : memory) (t : ptr) : Prop :=
  forall k, directories m !! kernel_directory m = Some k -> t ∉ tables k.

Definition keeps (f f' : frames_t) : Prop :=
  wf f' /\ nframes f' = nframes f /\ forall x, 0 <= x -> used f x = true -> used f' x = true.

Definition grows (m m' : memory) : Prop :=
  keeps (fr m) (fr m') /\ directories m' = directories m /\
  kernel_directory m' = kernel_directory m /\
  (forall t, is_Some (page_tables m !! t) -> is_Some (page_tables m' !! t)) /\
  forall t pages, user_table m t -> page_tables m !! t = Some pages -> page_tables m' !! t = Some pages.

(** The state after a new table was stored at [a]. *)
Definition store (m : memory) (a : ptr) (ps : list page_t) (f : frames_t) (cs : list (Z * Z)) : memory :=
  set_copies (set_fr (set_tables m (<[a := ps]> (page_tables m))) f) cs.

(** What the heap promises: [heap_inv n m] says that in state [m] it can serve
    [n] more requests, each with a new block whose address is mapped. *)
Class HeapOk {KH : KernelHeap} := {
  heap_inv : nat -> memory -> Prop;
  heap_spare n m : heap_inv (S n) m -> heap_inv n m;
  heap_installed n m : heap_inv n m -> heap_end m <> 0 /\ wf (fr m);
  valloc_ok n m size : heap_inv (S n) m -> 0 < size ->
    exists a m' p, valloc m size = Ret (a, m') /\ map_to_physical m' a = Ret p /\ grows m m' /\
      page_tables m' !! a = None /\ directories m' !! a = None /\ a <> 0 /\ a <> 0xFFFFFFFF /\
      heap_inv n m' /\
      forall ps f cs, keeps (fr m') f -> heap_inv n (store m' a ps f cs)
}.

#[export] Instance keeps_trans : Transitive keeps.
Proof. intros f1 f2 f3 (? & ? & ?) (? & ? & ?). split; [done|]. split; [congruence|]. auto. Qed.

Lemma keeps_refl f : wf f -> keeps f f.
Proof. by repeat split; try apply H. Qed.

Lemma user_table_grows m m' t : grows m m' -> user_table m t -> user_table m' t.
Proof. unfold user_table. intros (_ & -> & -> & _). done. Qed.

#[export] Instance grows_trans : Transitive grows.
Proof.
  intros m1 m2 m3 H12 H23. pose proof H12 as (K1 & D1 & E1 & S1 & T1). pose proof H23 as (K2 & D2 & E2 & S2 & T2).
  split; [by etransitivity|]. split; [congruence|]. split; [congruence|]. split; [auto|].
  intros t pages Hu Ht. apply T2; [by eapply user_table_grows|]. by apply T1.
Qed.

Lemma store_grows m a ps f cs :
  page_tables m !! a = None -> keeps (fr m) f -> grows m (store m a ps f cs).
Proof.
  intros Ha Hk. split; [done|]. split; [done|]. split; [done|].
  assert (forall t pages, page_tables m !! t = Some pages -> page_tables (store m a ps f cs) !! t = Some pages) as E.
  { intros t pages Ht. simpl. rewrite lookup_insert_ne; [done|]. congruence. }
  split; [intros t [pages Ht]; rewrite (E t pages Ht); eauto|]. auto.
Qed.

(** The copy of a page: no frame if the source has none, else a frame of its own, for user
    and kernel to read and write, with the caching bits of the source. *)
Definition page_copy (f f' : frames_t) (s p : page_t) : Prop :=
  if frame s =? 0 then p = zero_page
  else present p = 1 /\ rw p = 1 /\ user p = 1 /\
       writethrough p = b2z (truthy (writethrough s)) /\ cachedisable p = b2z (truthy (cachedisable s)) /\
       0 < frame p /\ (frame p < nframes f -> used f (frame p) = false /\ used f' (frame p) = true).

Definition fresh_frame (f f' : frames_t) (p : page_t) : Prop :=
  0 <= frame p /\
  (frame p = 0 \/ nframes f <= frame p \/ (used f (frame p) = false /\ used f' (frame p) = true)).

Lemma page_copy_later f f1 f' s p : keeps f1 f' -> page_copy f f1 s p -> page_copy f f' s p.
Proof.
  unfold page_copy. intros (_ & _ & Hk). destruct (frame s =? 0); [done|].
  intros (? & ? & ? & ? & ? & ? & Hf). do 6 (split; [done|]). intros Hlt. destruct (Hf Hlt).
  split; [done|]. apply Hk; [lia|done].
Qed.

Lemma page_copy_earlier f f1 f' s p : keeps f f1 -> page_copy f1 f' s p -> page_copy f f' s p.
Proof.
  unfold page_copy. intros (_ & En & Hmono). destruct (frame s =? 0); [done|].
  intros (? & ? & ? & ? & ? & ? & Hf). do 6 (split; [done|]). rewrite En in Hf.
  intros Hlt. destruct (Hf Hlt) as [Hu ?]. split; [|done].
  destruct (used f (frame p)) eqn:E; [|done]. rewrite Hmono in Hu by (done || lia). done.
Qed.

Lemma fresh_earlier f f1 f' p : keeps f f1 -> fresh_frame f1 f' p -> fresh_frame f f' p.
Proof.
  intros (_ & En & Hmono) [Hp Hq]. rewrite En in Hq. split; [done|].
  destruct Hq as [?|[?|[Hu Hu']]]; [by left|by right; left|]. right. right. split; [|done].
  destruct (used f (frame p)) eqn:E; [|done]. rewrite Hmono in Hu by done. done.
Qed.

Lemma fresh_later f f1 f' p : keeps f1 f' -> fresh_frame f f1 p -> fresh_frame f f' p.
Proof.
  intros (_ & En & Hmono) [Hp Hq]. split; [done|].
  destruct Hq as [?|[?|[Hu Hu']]]; [by left|by right; left|]. right. right. auto.
Qed.

(** Frames given out before and after a point differ. *)
Lemma fresh_disjoint f f1 f' p q :
  nframes f1 = nframes f -> fresh_frame f f1 p -> fresh_frame f1 f' q ->
  frame p = frame q -> frame p <> 0 -> frame p < nframes f -> False.
Proof.
  intros En [_ Hp] [_ Hq] E Hne Hlt. rewrite En in Hq.
  destruct Hp as [?|[?|[_ Hp]]]; [done|lia|]. destruct Hq as [?|[?|[Hq _]]]; [lia|lia|congruence].
Qed.

(** A frame handed out when the bitmap is exhausted is beyond the last frame. *)
Lemma alloc_frame_any f p ik iw :
  wf f -> used f 0 = true -> frame p = 0 ->
  exists f' k, alloc_frame f p ik iw = Ret (f', Build_page 1 1 1 (writethrough p) (cachedisable p) k) /\ keeps f f' /\ 0 < k /\
    (k < nframes f -> used f k = false /\ used f' k = true).
Proof.
  intros Hwf H0 Hp. destruct (first_frame_spec f Hwf) as [(k0 & Hff & Hk0 & Hu0 & _)|[Hff Hall]].
  - destruct (alloc_frame_new f p ik iw Hwf Hp) as (k & f' & -> & Hk & Hu & _ & Hwf' & En & Hu');
      [eauto|]. pose proof (managed_frame f k Hk).
    assert (k <> 0) by congruence. exists f', k. split; [done|]. split.
    { split; [done|]. split; [done|]. intros x Hx Hux. rewrite Hu', Hux by done. apply orb_true_r. }
    split; [lia|]. intros _. rewrite Hu', Z.eqb_refl by lia. done.
  - pose proof Hwf as (Hn & _). exists f, 1048575. unfold alloc_frame. rewrite Hp. cbn [Z.eqb negb].
    rewrite Hff. cbn [mbind outcome_bind]. unfold set_frame.
    change (u32 (0xFFFFFFFF * 0x1000)) with 4294963200. rewrite u32_small by lia.
    destruct (Z.ltb_spec 4294963200 (nframes f * 4 * 0x400)); [lia|]. cbn [mbind outcome_bind].
    split; [unfold grant; by destruct (iw =? 1), (ik =? 1)|]. split; [by apply keeps_refl|].
    split; [lia|]. intros; lia.
Qed.

Lemma copy_flags_granted s k :
  copy_flags s (Build_page 1 1 1 0 0 k) =
  Build_page 1 1 1 (b2z (truthy (writethrough s))) (b2z (truthy (cachedisable s))) k.
Proof. unfold copy_flags. simpl. by destruct (truthy (present s)), (truthy (rw s)), (truthy (user s)). Qed.

(** No two entries of a list of pages share a frame. *)
Definition separate (n : Z) (ps : list page_t) : Prop :=
  forall x y p q, ps !! x = Some p -> ps !! y = Some q -> frame p = frame q ->
    frame p <> 0 -> frame p < n -> x = y.

Lemma separate_app n ps1 ps2 :
  separate n ps1 -> separate n ps2 ->
  (forall p q, p ∈ ps1 -> q ∈ ps2 -> frame p = frame q -> frame p <> 0 -> frame p < n -> False) ->
  separate n (ps1 ++ ps2).
Proof.
  intros H1 H2 H12 x y p q Hx Hy E Hne Hlt. rewrite lookup_app_Some in Hx, Hy.
  destruct Hx as [Hx|[Hx1 Hx]], Hy as [Hy|[Hy1 Hy]].
  - by eapply H1.
  - exfalso. eapply H12; eauto using list_elem_of_lookup_2.
  - exfalso. apply (H12 q p); eauto using list_elem_of_lookup_2; congruence.
  - assert (x - length ps1 = y - length ps1)%nat by (by eapply H2). lia.
Qed.

Lemma separate_single n p : separate n [p].
Proof.
  intros x y q r Hx Hy _ _ _. apply list_lookup_singleton_Some in Hx as [-> _].
  by apply list_lookup_singleton_Some in Hy as [-> _].
Qed.

Lemma clone_pages_spec f src :
  wf f -> used f 0 = true ->
  exists f' ps cs, clone_pages f src = Ret (f', ps, cs) /\ keeps f f' /\
    Forall2 (page_copy f f') src ps /\ Forall (fresh_frame f f') ps /\ separate (nframes f) ps.
Proof.
  revert f. induction src as [|s src IH]; intros f Hwf H0; cbn [clone_pages].
  { exists f, [], []. split; [done|]. split; [by apply keeps_refl|]. split; [constructor|].
    split; [constructor|]. intros x y p q Hx. by rewrite lookup_nil in Hx. }
  destruct (frame s =? 0) eqn:Es.
  - destruct (IH f Hwf H0) as (f' & ps & cs & -> & Hk & Hc & Hf & Hs).
    exists f', (zero_page :: ps), cs. split; [done|]. split; [done|]. split; [|split].
    + constructor; [|done]. unfold page_copy. by rewrite Es.
    + constructor; [|done]. split; [done|by left].
    + apply (separate_app _ [_]); [|done|].
      * apply separate_single.
      * intros p q Hp. apply list_elem_of_singleton in Hp as ->. done.
  - destruct (alloc_frame_any f zero_page 0 0 Hwf H0 eq_refl) as (f1 & k & -> & Hk1 & Hkp & Hku).
    cbn [mbind outcome_bind writethrough cachedisable zero_page]. rewrite copy_flags_granted.
    destruct (IH f1) as (f' & ps & cs & -> & Hk & Hc & Hf & Hs);
      [apply Hk1|apply Hk1; [lia|done]|].
    pose proof (keeps_trans _ _ _ Hk1 Hk) as Hk'. pose proof Hk1 as (_ & En & Hmono).
    cbn [mbind outcome_bind frame]. do 3 eexists. split; [done|]. split; [done|].
    assert (fresh_frame f f1 (Build_page 1 1 1 (b2z (truthy (writethrough s)))
              (b2z (truthy (cachedisable s))) k)) as Hnew.
    { split; simpl; [lia|]. destruct (Z.lt_ge_cases k (nframes f)) as [Hlt|]; [|by right; left].
      right. right. auto. }
    split; [|split].
    + constructor.
      * unfold page_copy. rewrite Es. cbn [present rw user writethrough cachedisable frame].
        do 5 (split; [done|]). split; [lia|]. intros Hlt. destruct (Hku Hlt).
        split; [done|]. apply Hk; [lia|done].
      * eapply Forall2_impl; [exact Hc|]. intros ? ?. by apply (page_copy_earlier f f1).
    + constructor; [by apply (fresh_later f f1)|]. eapply Forall_impl; [exact Hf|].
      intros ?. by apply (fresh_earlier f f1).
    + rewrite En in Hs. apply (separate_app _ [_]); [|done|].
      * apply separate_single.
      * intros p q Hp Hq. apply list_elem_of_singleton in Hp as ->.
        rewrite Forall_forall in Hf. eapply fresh_disjoint; eauto.
Qed.

(** ** Cloning address spaces *)

Section Clone.
Context `{HeapOk}.

Lemma kvmalloc_p_ok n m size :
  heap_inv (S n) m -> 0 < size < 0x3000 ->
  exists a p m', kvmalloc_p m size = Ret (a, p, m') /\ grows m m' /\
    page_tables m' !! a = None /\ directories m' !! a = None /\ a <> 0 /\ a <> 0xFFFFFFFF /\
    heap_inv n m' /\ forall ps f cs, keeps (fr m') f -> heap_inv n (store m' a ps f cs).
Proof.
  intros Hi Hs. destruct (heap_installed _ _ Hi) as [Hh _]. unfold kvmalloc_p, kmalloc_real.
  unfold truthy. destruct (Z.eqb_spec (heap_end m) 0); [done|]. cbn [negb].
  destruct (valloc_ok n m size Hi) as (a & m' & p & -> & Hp & Hrest); [lia|].
  cbn [mbind outcome_bind]. destruct (Z.leb_spec 0x3000 size); [lia|]. cbn [andb].
  rewrite Hp. by exists a, p, m'.
Qed.

(** The tables the kernel directory points to exist. *)
Definition kernel_ok (m : memory) : Prop :=
  forall k t, directories m !! kernel_directory m = Some k -> t ∈ tables k ->
    t = 0 \/ t = 0xFFFFFFFF \/ is_Some (page_tables m !! t).

Lemma kernel_ok_grows m m' : grows m m' -> kernel_ok m -> kernel_ok m'.
Proof.
  unfold kernel_ok. intros (_ & -> & -> & Hs & _) Hk k t Hd Ht. destruct (Hk k t Hd Ht) as [?|[?|?]]; auto.
Qed.

Lemma new_table_user m t :
  kernel_ok m -> t <> 0 -> t <> 0xFFFFFFFF -> page_tables m !! t = None -> user_table m t.
Proof. intros Hk H0 H1 Ht k Hd Hin. destruct (Hk k t Hd Hin) as [?|[?|[? E]]]; congruence. Qed.

Lemma clone_table_ok n m src pages :
  heap_inv (S n) m -> used (fr m) 0 = true -> kernel_ok m ->
  user_table m src -> page_tables m !! src = Some pages ->
  exists t p m' pages', clone_table m src = Ret (t, p, m') /\ heap_inv n m' /\ grows m m' /\
    page_tables m !! t = None /\ user_table m' t /\ page_tables m' !! t = Some pages' /\
    Forall2 (page_copy (fr m) (fr m')) pages pages' /\
    Forall (fresh_frame (fr m) (fr m')) pages' /\ separate (nframes (fr m)) pages'.
Proof.
  intros Hi H0 Hko Hus Hp. unfold clone_table.
  destruct (kvmalloc_p_ok n m sizeof_page_table_t Hi) as (t & p & m1 & -> & Hg & Ht & _ & Hn0 & Hn1 & _ & Hst);
    [unfold sizeof_page_table_t; lia|].
  cbn [mbind outcome_bind]. pose proof Hg as ((Hwf1 & En & Hmono) & _ & _ & Hsome & Htab).
  rewrite (Htab src pages Hus Hp). cbn [mbind outcome_bind of_option].
  destruct (clone_pages_spec (fr m1) pages Hwf1) as (f & ps & cs & -> & Hk & Hc & Hf & Hs);
    [by apply Hmono|]. cbn [mbind outcome_bind].
  pose proof (store_grows m1 t ps f (copies m1 ++ cs) Ht Hk) as Hg2.
  pose proof (grows_trans _ _ _ Hg Hg2) as Hg'.
  assert (page_tables m !! t = None) as Htm.
  { destruct (page_tables m !! t) eqn:E; [|done]. destruct (Hsome t) as [? Hx]; [eauto|congruence]. }
  exists t, p, (store m1 t ps f (copies m1 ++ cs)), ps. split; [done|]. split; [by apply Hst|].
  split; [done|]. split; [done|].
  split; [by eapply user_table_grows; [|apply new_table_user]|].
  split; [simpl; by rewrite lookup_insert_eq|]. rewrite En in Hs.
  split; [|split; [|done]].
  - eapply Forall2_impl; [exact Hc|]. intros ? ?. apply page_copy_earlier, Hg.
  - eapply Forall_impl; [exact Hf|]. intros ?. apply fresh_earlier, Hg.
Qed.

(** How the tables [ts'] of a clone relate to the tables [ts] of its source and
    [kts] of the kernel, from index [i] on; [pgs] are the pages of the tables
    that were copied. *)
Inductive cloned (m m' : memory) : Z -> list ptr -> list ptr -> list ptr -> list page_t -> Prop :=
  | cloned_nil i : cloned m m' i [] [] [] []
  | cloned_none i t kt ts kts ts' pgs :
      t = 0 \/ t = 0xFFFFFFFF \/ (kt <> t /\ SHM_START <= i * 0x400000) ->
      cloned m m' (i + 1) ts kts ts' pgs -> cloned m m' i (t :: ts) (kt :: kts) (0 :: ts') pgs
  | cloned_shared i t ts kts ts' pgs :
      t <> 0 -> t <> 0xFFFFFFFF ->
      cloned m m' (i + 1) ts kts ts' pgs -> cloned m m' i (t :: ts) (t :: kts) (t :: ts') pgs
  | cloned_copied i t kt t' pages pages' ts kts ts' pgs :
      t <> 0 -> t <> 0xFFFFFFFF -> kt <> t -> i * 0x400000 < SHM_START ->
      page_tables m !! t = Some pages -> page_tables m !! t' = None ->
      page_tables m' !! t' = Some pages' ->
      Forall2 (page_copy (fr m) (fr m')) pages pages' ->
      cloned m m' (i + 1) ts kts ts' pgs ->
      cloned m m' i (t :: ts) (kt :: kts) (t' :: ts') (pages' ++ pgs).

Lemma cloned_state m m1 m2 i ts kts ts' pgs :
  fr m2 = fr m1 -> page_tables m2 = page_tables m1 ->
  cloned m m1 i ts kts ts' pgs -> cloned m m2 i ts kts ts' pgs.
Proof. intros E1 E2. induction 1; econstructor; try rewrite ?E1, ?E2; eauto. Qed.

(** A source entry: absent, shared with the kernel or a table of its own. *)
Definition entry_ok (m : memory) (t kt : ptr) : Prop :=
  t = 0 \/ t = 0xFFFFFFFF \/ t = kt \/ (user_table m t /\ is_Some (page_tables m !! t)).

Lemma clone_entries_ok n m0 m i ts ps kts :
  heap_inv (n + length ts) m -> grows m0 m -> kernel_ok m0 -> used (fr m0) 0 = true ->
  Forall2 (entry_ok m0) ts kts -> length ps = length ts -> 0 <= i -> i + Z.of_nat (length ts) <= 1024 ->
  exists ts' ps' m' pgs, clone_entries m i ts ps kts = Ret (ts', ps', m') /\ heap_inv n m' /\ grows m m' /\
    cloned m0 m' i ts kts ts' pgs /\ Forall (fresh_frame (fr m) (fr m')) pgs /\ separate (nframes (fr m0)) pgs.
Proof.
  intros Hi Hg Hko H0 Hent. revert m i ps Hi Hg.
  induction Hent as [|t kt ts kts He Hent IH]; intros m i ps Hi Hg Hps Hi0 Hil.
  { destruct ps; [|done]. rewrite Nat.add_0_r in Hi.
    exists [], [], m, []. repeat split; try done; try apply Hg; constructor. }
  destruct ps as [|p ps]; [done|]. cbn [length] in *. injection Hps as Hps. cbn [clone_entries].
  rewrite Nat.add_succ_r in Hi. unfold clone_entry.
  assert (forall e, exists ts' ps' m' pgs,
    ('(ts'', ps'', m) ← clone_entries m (i + 1) ts ps kts; Ret (e.1 :: ts'', e.2 :: ps'', m)) =
      Ret (e.1 :: ts', e.2 :: ps', m') /\ heap_inv n m' /\ grows m m' /\
    cloned m0 m' (i + 1) ts kts ts' pgs /\ Forall (fresh_frame (fr m) (fr m')) pgs /\
    separate (nframes (fr m0)) pgs) as Hnext.
  { intros [e1 e2]. destruct (IH m (i + 1) ps) as (ts' & ps' & m' & pgs & -> & ?);
      [by apply heap_spare|done|done|lia|lia|]. by exists ts', ps', m', pgs. }
  destruct ((t =? 0) || (t =? 0xFFFFFFFF)) eqn:Esk.
  { destruct (Hnext (0, 0)) as (ts' & ps' & m' & pgs & E & Hi' & Hg' & Hc & Hf & Hs).
    exists (0 :: ts'), (0 :: ps'), m', pgs. do 3 (split; [done|]). split; [|done].
    constructor; [|done]. apply orb_true_iff in Esk as [E'|E']; apply Z.eqb_eq in E'; auto. }
  apply orb_false_iff in Esk as [Ht0%Z.eqb_neq Ht1%Z.eqb_neq].
  destruct (Z.eqb_spec kt t) as [->|Hkt].
  { destruct (Hnext (t, p)) as (ts' & ps' & m' & pgs & E & Hi' & Hg' & Hc & Hf & Hs).
    exists (t :: ts'), (p :: ps'), m', pgs. do 3 (split; [done|]). split; [|done]. by constructor. }
  rewrite u32_small by lia. replace (i * 0x1000 * 1024) with (i * 0x400000) by lia.
  destruct (Z.ltb_spec (i * 0x400000) SHM_START) as [Hshm|Hshm].
  2: { destruct (Hnext (0, 0)) as (ts' & ps' & m' & pgs & E & Hi' & Hg' & Hc & Hf & Hs).
       exists (0 :: ts'), (0 :: ps'), m', pgs. do 3 (split; [done|]). split; [|done].
       constructor; [|done]. auto. }
  destruct He as [?|[?|[?|[Hus [pages Hpg]]]]]; [done|done|congruence|].
  destruct (clone_table_ok (n + length ts) m t pages) as
    (t' & ph & m1 & pages' & -> & Hi1 & Hg1 & Htn & Htu & Htp & Hc1 & Hf1 & Hs1).
  { done. } { apply Hg; [lia|done]. } { by eapply kernel_ok_grows. } { by eapply user_table_grows. }
  { by apply Hg. }
  cbn [mbind outcome_bind]. pose proof (grows_trans _ _ _ Hg Hg1) as Hg01.
  destruct (IH m1 (i + 1) ps) as (ts' & ps' & m' & pgs & -> & Hi' & Hg' & Hc & Hf & Hs);
    [done|done|done|lia|lia|].
  cbn [mbind outcome_bind]. exists (t' :: ts'), (Z.lor ph 7 :: ps'), m', (pages' ++ pgs).
  split; [done|]. split; [done|]. split; [by etransitivity|].
  assert (nframes (fr m) = nframes (fr m0)) as En by apply Hg.
  assert (nframes (fr m1) = nframes (fr m)) as En1 by apply Hg1.
  split; [|split].
  - econstructor; try done.
    + destruct (page_tables m0 !! t') eqn:E; [|done].
      destruct Hg as (_ & _ & _ & Hsome & _). destruct (Hsome t') as [? Hx]; [eauto|congruence].
    + by apply Hg'.
    + eapply Forall2_impl; [exact Hc1|]. intros ? ? Hx. eapply page_copy_later; [apply Hg'|].
      eapply page_copy_earlier; [apply Hg|done].
  - apply Forall_app. split; (eapply Forall_impl; [eassumption|]); intros q.
    + apply fresh_later, Hg'.
    + apply fresh_earlier, Hg1.
  - rewrite En in Hs1. apply separate_app; [done|done|]. intros q r Hq Hr.
    rewrite Forall_forall in Hf1, Hf. rewrite <- En. eapply fresh_disjoint; eauto.
Qed.

(** C6: Forking an address space: the new directory shares the kernel's tables, has no entry
    for the shared-memory region, and gives every user table a new copy.  A page of the copy
    has no frame if the source has none; else it is present, writable and accessible to the user,
    whatever these bits were in the source, has the two caching bits of the source, and a frame
    that was free before and that no other page of the copy has, unless its frame number is
    not below the number of frames, which is what a page gets when memory has run out.  The
    heap of the kernel has room for the new directory and its tables. *)
Theorem clone_directory_isolates n m src s k :
  heap_inv (n + S (length (tables s))) m -> used (fr m) 0 = true -> kernel_ok m ->
  directories m !! src = Some s -> directories m !! kernel_directory m = Some k ->
  Forall2 (entry_ok m) (tables s) (tables k) ->
  length (physical_tables s) = length (tables s) -> Z.of_nat (length (tables s)) <= 1024 ->
  exists d m' ts ps phys pgs, clone_directory m src = Ret (d, m') /\ directories m !! d = None /\
    directories m' = <[d := Build_directory ps ts phys 1]> (directories m) /\
    cloned m m' 0 (tables s) (tables k) ts pgs /\ separate (nframes (fr m)) pgs.
Proof.
  intros Hi H0 Hko Hsrc Hk Hent Hps Hlen. unfold clone_directory. rewrite Nat.add_succ_r in Hi.
  destruct (kvmalloc_p_ok _ m sizeof_page_directory_t Hi) as (d & p & m1 & -> & Hg & _ & Hd & _ & _ & Hi1 & _);
    [unfold sizeof_page_directory_t; lia|].
  cbn [mbind outcome_bind]. pose proof Hg as (_ & Ed & Ek & _). unfold directory.
  rewrite Ed, Ek in *. rewrite Hsrc, Hk. cbn [mbind outcome_bind of_option].
  destruct (clone_entries_ok n m m1 0 (tables s) (physical_tables s) (tables k))
    as (ts & ps & m2 & pgs & -> & _ & Hg2 & Hc & _ & Hs); try done; try lia.
  cbn [mbind outcome_bind]. exists d. eexists. exists ts, ps, p, pgs. split; [done|]. split; [done|].
  split; [|split; [|done]].
  - simpl. pose proof Hg2 as (_ & -> & _). by rewrite Ed.
  - by apply (cloned_state m m2).
Qed.

End Clone.

(** ** Growing the kernel heap *)

(** Page number [q] of directory [dir], as the hardware would look it up. *)
Definition page_at (m : memory) (dir : ptr) (q : Z) : option page_t :=
  d ← directories m !! dir;
  t ← tables d !! Z.to_nat (q / 1024);
  pages ← page_tables m !! t;
  pages !! Z.to_nat (q mod 1024).

(** The tables of the kernel heap exist, are full size and are not shared. *)
Definition heap_tables (m : memory) : Prop :=
  exists k, directories m !! kernel_directory m = Some k /\ length (tables k) = 1024%nat /\
    (forall x, 0 <= x < KERNEL_HEAP_END / 0x400000 -> exists t pages, tables k !! Z.to_nat x = Some t /\
       t <> 0 /\ page_tables m !! t = Some pages /\ length pages = 1024%nat) /\
    (forall x y t, tables k !! x = Some t -> tables k !! y = Some t -> t <> 0 -> x = y).

Definition kernel_page (m : memory) (q : Z) : option page_t := page_at m (kernel_directory m) q.

Section Sbrk.
Context `{KernelHeap}.

(** One turn of the loop, on the page number [q]. *)
Definition touch (f : frames_t) (p : page_t) : outcome (frames_t * page_t) := alloc_frame f p 1 0.

Lemma page_split q : 0 <= q -> 0 <= q mod 1024 < 1024 /\ q = 1024 * (q / 1024) + q mod 1024 /\ 0 <= q / 1024.
Proof.
  intros. pose proof (Z.mod_pos_bound q 1024). pose proof (Z.div_mod q 1024).
  pose proof (Z.div_pos q 1024). lia.
Qed.

Lemma heap_page_found m q :
  heap_tables m -> 0 <= q < KERNEL_HEAP_END / 0x1000 ->
  exists loc p, get_page m (q * 0x1000) false (kernel_directory m) = Ret (Some loc, m) /\
    read_page m loc = Ret p /\ kernel_page m q = Some p /\
    forall f p', exists m', write_page (set_fr m f) loc p' = Ret m' /\ heap_tables m' /\ fr m' = f /\
      heap_end m' = heap_end m /\ kernel_directory m' = kernel_directory m /\
      kernel_heap_alloc_point m' = kernel_heap_alloc_point m /\
      forall x, 0 <= x -> kernel_page m' x = if x =? q then Some p' else kernel_page m x.
Proof.
  intros (k & Hk & Hlen & Htab & Hinj) Hq. pose proof (page_split q) as Hs.
  assert (0 <= q / 1024 < KERNEL_HEAP_END / 0x400000) as Hx.
  { split; [lia|]. apply Z.div_lt_upper_bound; [lia|]. change (KERNEL_HEAP_END / 0x400000) with 128.
    change (KERNEL_HEAP_END / 0x1000) with 131072 in Hq. lia. }
  destruct (Htab _ Hx) as (t & pages & Ht & Ht0 & Hpg & Hpl).
  destruct (aget_in_range pages (q mod 1024)) as (p & Hp & Hpa); [lia|].
  exists (t, q mod 1024), p. unfold get_page, directory. rewrite frame_addr_div, Hk by lia.
  cbn [mbind outcome_bind of_option]. rewrite (aget_lookup _ _ t) by (done || lia).
  cbn [mbind outcome_bind]. unfold truthy at 1. destruct (Z.eqb_spec t 0); [done|]. cbn [negb].
  split; [done|]. split; [unfold read_page; cbn [fst snd]; by rewrite Hpg|]. split.
  { unfold kernel_page, page_at. rewrite Hk. simpl. rewrite Ht. simpl. by rewrite Hpg. }
  intros f p'. unfold write_page. cbn [fst snd page_tables set_fr]. rewrite Hpg. cbn [mbind outcome_bind of_option].
  rewrite aset_in_range by lia. cbn [mbind outcome_bind]. eexists. split; [done|].
  split; [|do 4 (split; [done|])].
  - exists k. split; [done|]. split; [done|]. split; [|done]. intros x Hx'. simpl.
    destruct (Htab x Hx') as (t1 & pg1 & Ht1 & Hne & Hpg1 & Hl1).
    destruct (decide (t1 = t)) as [->|]; [|exists t1, pg1; by rewrite lookup_insert_ne].
    exists t. eexists. split; [done|]. split; [done|]. rewrite lookup_insert_eq. split; [done|].
    by rewrite length_insert.
  - intros x Hx'. pose proof (page_split x Hx') as Hs'. unfold kernel_page, page_at. simpl. rewrite Hk. simpl.
    destruct (tables k !! Z.to_nat (x / 1024)) as [t1|] eqn:Ht1; simpl.
    2: { destruct (Z.eqb_spec x q) as [->|]; congruence. }
    destruct (decide (t1 = t)) as [->|Hne].
    + rewrite lookup_insert_eq. simpl. pose proof (Hinj _ _ _ Ht Ht1 Ht0) as Hxy.
      destruct (Z.eqb_spec x q) as [->|Hxq]; [by rewrite list_lookup_insert_eq by lia|].
      rewrite list_lookup_insert_ne by lia. by rewrite Hpg.
    + rewrite lookup_insert_ne by done. destruct (Z.eqb_spec x q) as [->|]; congruence.
Qed.

(** What an entry becomes: kept if it had a frame, else given a new one. *)
Definition backed (f f' : frames_t) (p p' : page_t) : Prop :=
  (frame p <> 0 -> frame p' = frame p) /\
  (frame p = 0 -> 0 < frame p' /\ fresh_frame f f' p').

Lemma touch_ok f p :
  wf f -> used f 0 = true ->
  exists f' p', touch f p = Ret (f', p') /\ keeps f f' /\ present p' = 1 /\ backed f f' p p'.
Proof.
  intros Hwf H0. unfold touch. destruct (Z.eq_dec (frame p) 0) as [E|Hne].
  - destruct (alloc_frame_any f p 1 0 Hwf H0 E) as (f' & k & -> & Hk & Hkp & Hku).
    exists f', (Build_page 1 1 1 (writethrough p) (cachedisable p) k). do 3 (split; [done|]).
    split; [done|]. intros _. simpl. split; [lia|]. split; simpl; [lia|].
    destruct (Z.lt_ge_cases k (nframes f)); [right; right; auto|by right; left].
  - unfold alloc_frame. destruct (Z.eqb_spec (frame p) 0); [done|]. cbn [negb].
    do 2 eexists. split; [done|]. split; [by apply keeps_refl|]. split; [done|]. by split.
Qed.

Lemma sbrk_loop_ok m q todo :
  heap_tables m -> wf (fr m) -> used (fr m) 0 = true -> 0 <= q ->
  q + Z.of_nat todo < KERNEL_HEAP_END / 0x1000 ->
  exists m', sbrk_loop m (q * 0x1000) ((q + Z.of_nat todo) * 0x1000) todo = Ret m' /\
    heap_tables m' /\ keeps (fr m) (fr m') /\ heap_end m' = heap_end m /\
    kernel_directory m' = kernel_directory m /\
    kernel_heap_alloc_point m' = kernel_heap_alloc_point m /\
    forall x, 0 <= x -> if (q <=? x) && (x <? q + Z.of_nat todo)
      then exists p p', kernel_page m x = Some p /\ kernel_page m' x = Some p' /\
             present p' = 1 /\ backed (fr m) (fr m') p p'
      else kernel_page m' x = kernel_page m x.
Proof.
  revert m q. induction todo as [|todo IH]; intros m q Ht Hwf H0 Hq Hlim; cbn [sbrk_loop].
  { exists m. do 2 (split; [done|]). split; [by apply keeps_refl|]. do 3 (split; [done|]).
    intros x Hx. destruct (Z.leb_spec q x), (Z.ltb_spec x (q + Z.of_nat 0)); simpl; done || lia. }
  destruct (Z.ltb_spec (q * 0x1000) ((q + Z.of_nat (S todo)) * 0x1000)); [|lia].
  destruct (heap_page_found m q Ht) as (loc & p & -> & Hr & Hkp & Hw); [lia|].
  cbn [mbind outcome_bind]. rewrite Hr. cbn [mbind outcome_bind].
  destruct (touch_ok (fr m) p Hwf H0) as (f & p' & Hal & Hk1 & Hpr & Hb). unfold touch in Hal. rewrite Hal.
  cbn [mbind outcome_bind]. destruct (Hw f p') as (m1 & -> & Ht1 & Ef & Eh & Ekd & Ea & Hpg).
  cbn [mbind outcome_bind]. rewrite u32_small by (change (KERNEL_HEAP_END / 0x1000) with 131072 in *; lia).
  replace (q * 0x1000 + 0x1000) with ((q + 1) * 0x1000) by lia.
  replace (q + Z.of_nat (S todo)) with (q + 1 + Z.of_nat todo) by lia. subst f.
  destruct (IH m1 (q + 1)) as (m' & -> & Ht' & Hk' & Eh' & Ekd' & Ea' & Hpg');
    [done|apply Hk1|apply Hk1; [lia|done]|lia|lia|].
  exists m'. split; [done|]. split; [done|]. split; [by etransitivity|].
  do 3 (split; [congruence|]). intros x Hx. specialize (Hpg' x Hx). rewrite Hpg in Hpg' by done.
  destruct (Z.eqb_spec x q) as [Exq|Hne]; [subst x|].
  - destruct (Z.leb_spec q q), (Z.ltb_spec q (q + 1 + Z.of_nat todo)), (Z.leb_spec (q + 1) q); simpl in *; try lia.
    exists p, p'. do 3 (split; [done|]). destruct Hb as [Hb1 Hb2]. split; [done|].
    intros E. destruct (Hb2 E). split; [done|]. eapply fresh_later; eassumption.
  - destruct (Z.leb_spec q x), (Z.ltb_spec x (q + 1 + Z.of_nat todo)), (Z.leb_spec (q + 1) x);
      simpl in *; try lia; try done.
    destruct Hpg' as (p1 & p1' & ? & ? & ? & Hb1 & Hb2). exists p1, p1'. do 3 (split; [done|]).
    split; [done|]. intros E. destruct (Hb2 E). split; [done|]. eapply fresh_earlier; eassumption.
Qed.

Lemma sbrk_ok m h n :
  heap_tables m -> wf (fr m) -> used (fr m) 0 = true ->
  heap_end m = h * 0x1000 -> 0 <= h -> 0 <= n -> h + n < KERNEL_HEAP_END / 0x1000 ->
  exists m', sbrk m (n * 0x1000) = Ret (heap_end m, m') /\ heap_end m' = heap_end m + n * 0x1000 /\
    heap_tables m' /\ keeps (fr m) (fr m') /\
    forall x, 0 <= x ->
      if (kernel_heap_alloc_point m <? (h + n) * 0x1000) && (h <=? x) && (x <? h + n)
      then exists p p', kernel_page m x = Some p /\ kernel_page m' x = Some p' /\
             present p' = 1 /\ backed (fr m) (fr m') p p'
      else kernel_page m' x = kernel_page m x.
Proof.
  intros Ht Hwf H0 Eh Hh Hn Hlim. change (KERNEL_HEAP_END / 0x1000) with 131072 in Hlim.
  unfold sbrk. rewrite Eh. rewrite u32_small by lia.
  replace (h * 0x1000 + n * 0x1000) with ((h + n) * 0x1000) by lia.
  destruct (kernel_heap_alloc_point m <? (h + n) * 0x1000) eqn:Ec.
  - replace ((n * 0x1000 + 0xFFF) / 0x1000) with n
      by (apply (Z.div_unique _ _ _ 0xFFF); lia).
    destruct (sbrk_loop_ok m h (Z.to_nat n)) as (m' & Hl & Ht' & Hk & Eh' & Ekd & Ea & Hpg);
      [done|done|done|done|change (KERNEL_HEAP_END / 0x1000) with 131072; lia|].
    rewrite Z2Nat.id in * by lia. rewrite Hl. cbn [mbind outcome_bind]. eexists. split; [done|].
    split; [done|]. split; [done|]. split; [done|]. exact Hpg.
  - cbn [mbind outcome_bind]. eexists. split; [done|]. split; [done|]. split; [done|].
    split; [by apply keeps_refl|]. done.
Qed.

(** [sbrk] returns the old end of the heap and moves it; when the new part is
    beyond the preallocated region every page of it becomes present, keeps the
    frame it had or gets one that was free, and no other page of the kernel
    changes; otherwise no page changes. *)
Theorem sbrk_maps m h n :
  heap_tables m -> wf (fr m) -> used (fr m) 0 = true ->
  heap_end m = h * 0x1000 -> 0 <= h -> 0 <= n -> h + n < KERNEL_HEAP_END / 0x1000 ->
  exists m', sbrk m (n * 0x1000) = Ret (heap_end m, m') /\ heap_end m' = heap_end m + n * 0x1000 /\
    heap_tables m' /\ keeps (fr m) (fr m') /\
    forall x, 0 <= x ->
      if (kernel_heap_alloc_point m <? (h + n) * 0x1000) && (h <=? x) && (x <? h + n)
      then exists p p', kernel_page m x = Some p /\ kernel_page m' x = Some p' /\
             present p' = 1 /\ backed (fr m) (fr m') p p'
      else kernel_page m' x = kernel_page m x.
Proof. apply sbrk_ok. Qed.

End Sbrk.

(** ** Witnesses *)

(** A heap that hands out 12 KB blocks upwards from [heap_end]. *)
Module Bump.

#[export] Instance bump_heap : KernelHeap := {
  malloc m size := Ret (heap_end m, set_heap_end m (heap_end m + 0x3000));
  valloc m size := Ret (heap_end m, set_heap_end m (heap_end m + 0x3000))
}.

Definition bump_inv (n : nat) (m : memory) : Prop :=
  wf (fr m) /\ 0 < heap_end m /\ heap_end m + Z.of_nat n * 0x3000 <= 0x400000 /\
  (exists cd, directories m !! current_directory m = Some cd /\ tables cd !! 0%nat = Some 0) /\
  forall a, heap_end m <= a -> page_tables m !! a = None /\ directories m !! a = None.

Lemma bump_map m cd a :
  directories m !! current_directory m = Some cd -> tables cd !! 0%nat = Some 0 -> 0 <= a < 0x400000 ->
  map_to_physical m a = Ret 0.
Proof.
  intros Hd Ht Ha. unfold map_to_physical, directory. rewrite Hd. cbn [mbind outcome_bind of_option].
  replace (a / 0x1000 / 1024) with 0 by (rewrite Z.div_div by lia; symmetry; apply Z.div_small; lia).
  by rewrite (aget_lookup _ 0 0).
Qed.

#[export] Instance bump_ok : HeapOk.
Proof.
  refine {| heap_inv := bump_inv |}.
  - intros n m (? & ? & ? & ?). split; [done|]. split; [done|]. split; [lia|done].
  - intros n m (? & ? & ?). split; [lia|done].
  - intros n m size (Hwf & Hh & Hl & (cd & Hcd & Hc0) & Hfree) _.
    exists (heap_end m), (set_heap_end m (heap_end m + 0x3000)), 0. split; [done|].
    split; [by apply (bump_map _ cd); [| |lia]|]. split; [by repeat split; try apply Hwf|].
    destruct (Hfree (heap_end m)) as [Hf1 Hf2]; [lia|]. do 2 (split; [done|]). do 2 (split; [lia|]).
    assert (forall a, heap_end m + 0x3000 <= a -> page_tables m !! a = None /\ directories m !! a = None)
      by (intros; apply Hfree; lia).
    split; [split; [done|]; simpl; split; [lia|]; split; [lia|]; split; [eauto|done]|].
    intros ps f cs (Hwf' & _). split; [done|]. simpl. do 2 (split; [lia|]). split; [eauto|].
    intros a Ha. rewrite lookup_insert_ne by lia. auto.
Defined.

(** A kernel with one table, and a program that has one table more. *)
Definition kernel_dir := Build_directory [0; 7; 7] [0; 0x2000; 0] 0x1000 1.
Definition user_dir := Build_directory [0; 7; 7] [0; 0x2000; 0x2200] 0x1100 1.
Definition demo_memory : memory :=
  Build_memory Frames.demo
    {[ 0x2000 := [Build_page 1 1 1 0 0 3]; 0x2200 := [zero_page; Build_page 1 0 1 0 1 5] ]}
    {[ 0x1000 := kernel_dir; 0x1100 := user_dir ]} 0x800 0x3000 0x800000 0x1000 0x1000 [].

Lemma demo_bump_inv : bump_inv 4 demo_memory.
Proof.
  split; [exact Frames.demo_wf|]. do 2 (split; [simpl; lia|]). split; [exists kernel_dir; done|].
  intros a Ha. simpl in *. rewrite !lookup_insert_ne, !lookup_singleton_ne by lia. done.
Qed.

End Bump.
Import Bump.

Lemma clone_directory_isolates_witness :
  exists d m' ts ps phys pgs, clone_directory demo_memory 0x1100 = Ret (d, m') /\
    directories demo_memory !! d = None /\
    directories m' = <[d := Build_directory ps ts phys 1]> (directories demo_memory) /\
    cloned demo_memory m' 0 [0; 0x2000; 0x2200] [0; 0x2000; 0] ts pgs /\ separate 64 pgs.
Proof.
  apply (clone_directory_isolates 0 demo_memory 0x1100 user_dir kernel_dir);
    [exact demo_bump_inv|reflexivity| |reflexivity|reflexivity| |reflexivity|simpl; lia].
  - intros k t [= <-] Ht. change (t ∈ [0; 0x2000; 0]) in Ht. rewrite !elem_of_cons, elem_of_nil in Ht.
    destruct Ht as [->|[->|[->|[]]]]; [by left| |by left]. right. right. by eexists.
  - constructor; [by left|]. constructor; [by right; right; left|]. constructor; [|constructor].
    right. right. right. split; [|by eexists]. intros k [= <-] Ht. change (0x2200 ∈ [0; 0x2000; 0]) in Ht.
    rewrite !elem_of_cons, elem_of_nil in Ht. destruct Ht as [?|[?|[?|[]]]]; discriminate.
Defined.

(** The kernel's heap tables, at the addresses 1 to 128. *)
Definition heap_memory : memory :=
  Build_memory Frames.demo
    (list_to_map ((fun a => (a, replicate 1024 zero_page)) <$> seqZ 1 128))
    {[ 0x1000 := Build_directory [] (seqZ 1 128 ++ replicate 896 0) 0 1 ]} 0 (2000 * 0x1000) 0 0x1000 0x1000 [].

Lemma heap_memory_tables : heap_tables heap_memory.
Proof.
  eexists. split; [reflexivity|]. cbn [tables]. split; [by rewrite length_app, length_seqZ, length_replicate|].
  change (KERNEL_HEAP_END / 0x400000) with 128. split.
  - intros x Hx. exists (1 + x), (replicate 1024 zero_page).
    split; [rewrite lookup_app_l by (rewrite length_seqZ; lia); apply lookup_seqZ; lia|]. split; [lia|].
    split; [|by rewrite length_replicate]. cbn [page_tables heap_memory].
    apply elem_of_list_to_map.
    + rewrite <- list_fmap_compose. rewrite list_fmap_id. apply NoDup_seqZ.
    + apply list_elem_of_fmap. exists (1 + x). split; [done|]. apply elem_of_seqZ. lia.
  - assert (forall x t, (seqZ 1 128 ++ replicate 896 0) !! x = Some t -> t <> 0 -> t = 1 + Z.of_nat x) as Hl.
    { intros x t Hx Ht. apply lookup_app_Some in Hx as [Hx|[_ Hx]].
      - apply lookup_seqZ in Hx. lia.
      - by apply lookup_replicate in Hx as [-> _]. }
    intros x y t Hx Hy Ht. apply Hl in Hx, Hy; [lia|done|done].
Qed.

Lemma sbrk_maps_witness :
  exists m', sbrk heap_memory (2 * 0x1000) = Ret (2000 * 0x1000, m') /\
    heap_end m' = 2000 * 0x1000 + 2 * 0x1000 /\ heap_tables m' /\ keeps Frames.demo (fr m') /\
    forall x, 0 <= x ->
      if (0 <? (2000 + 2) * 0x1000) && (2000 <=? x) && (x <? 2000 + 2)
      then exists p p', kernel_page heap_memory x = Some p /\ kernel_page m' x = Some p' /\
             present p' = 1 /\ backed Frames.demo (fr m') p p'
      else kernel_page m' x = kernel_page heap_memory x.
Proof.
  apply (sbrk_maps heap_memory 2000 2 heap_memory_tables Frames.demo_wf);
    [reflexivity|reflexivity|lia|lia|reflexivity].
Defined.

End Paging.
