(* ===== verification/Tmpfs.v ===== *)
(** * The memory file system of [kernel/src/tmpfs.c]

    A file is a table of physical frames; a block is accessed by mapping its
    frame at the window [buf_space] in the current address space, so a block
    access is an access to the frame's bytes [ram].  Frames come from the
    interface [FrameAllocator] of [Frames].  [now] is a parameter of the
    operations that read the clock, [junk] the contents of memory that [malloc]
    returns uninitialised, and [realloc] the entries of the array that [realloc]
    returns: [klrealloc] takes the user's own data for the header of a block that
    [malloc] returned ([AllocSpec.klrealloc_malloc_address]), so they need not be the
    entries of the old array. *)

From stdpp Require Import base gmap numbers strings list.
From S2P Require Import Prelude CString LinkedList Frames.

Module Tmpfs.

Definition BLOCKSIZE : Z := 0x1000.
Definition TMPFS_TYPE_FILE : Z := 1.
Definition TMPFS_TYPE_DIR : Z := 2.
Definition TMPFS_TYPE_LINK : Z := 3.
Definition O_TRUNC : Z := 0x0400.

Record tmpfs_file := Build_file {
  name : cstring;
  type : Z;
  mask : Z;
  uid : Z;
  gid : Z;
  atime : Z;
  mtime : Z;
  ctime : Z;
  length_ : Z;
  block_count : Z;
  pointers : Z;
  blocks : list Z;
  target : cstring
}.

Definition set_blocks (t : tmpfs_file) (bc ps : Z) (bs : list Z) : tmpfs_file :=
  Build_file (name t) (type t) (mask t) (uid t) (gid t) (atime t) (mtime t) (ctime t) (length_ t)
    bc ps bs (target t).
Definition set_times (t : tmpfs_file) (at_ mt : Z) : tmpfs_file :=
  Build_file (name t) (type t) (mask t) (uid t) (gid t) at_ mt (ctime t) (length_ t)
    (block_count t) (pointers t) (blocks t) (target t).
Definition set_length (t : tmpfs_file) (n : Z) : tmpfs_file :=
  Build_file (name t) (type t) (mask t) (uid t) (gid t) (atime t) (mtime t) (ctime t) n
    (block_count t) (pointers t) (blocks t) (target t).
Definition set_owner (t : tmpfs_file) (m u g : Z) : tmpfs_file :=
  Build_file (name t) (type t) m u g (atime t) (mtime t) (ctime t) (length_ t)
    (block_count t) (pointers t) (blocks t) (target t).

Definition tmpfs_file_new (nm : cstring) (now : Z) : tmpfs_file :=
  Build_file (strdup nm) TMPFS_TYPE_FILE 0 0 0 now now now 0 0 2 [0; 0] [].

Definition chmod_tmpfs (t : tmpfs_file) (mode : Z) : tmpfs_file * Z :=
  (set_owner t mode (uid t) (gid t), 0).
Definition chown_tmpfs (t : tmpfs_file) (u g : Z) : tmpfs_file * Z :=
  (set_owner t (mask t) u g, 0).

(** The bytes stored in [buf] and the returned count. *)
Definition readlink_tmpfs (t : tmpfs_file) (size : Z) : list Z * Z :=
  if negb (type t =? TMPFS_TYPE_LINK) then ([], -1)
  else if size <? strlen (target t) + 1 then (take (Z.to_nat size) (target t) ++ [0], size - 1)
  else (target t ++ [0], strlen (target t)).

Section Blocks.
Context `{FrameAllocator} (realloc : list Z -> Z -> list Z).

(** The physical memory, by frame. *)
Definition ram_t : Type := Z -> list Z.
Definition store (ram : ram_t) (f : Z) (bytes : list Z) : ram_t :=
  fun f' => if f' =? f then bytes else ram f'.

Definition tmpfs_file_blocks_embiggen (t : tmpfs_file) : tmpfs_file :=
  let pointers := s32 (pointers t * 2) in
  set_blocks t (block_count t) pointers (realloc (blocks t) pointers).

Fixpoint embiggen_loop (fuel : nat) (t : tmpfs_file) (blockid : Z) : outcome tmpfs_file :=
  if pointers t <=? blockid then
    match fuel with
    | O => OutOfFuel
    | S fuel' => embiggen_loop fuel' (tmpfs_file_blocks_embiggen t) blockid
    end
  else Ret t.

Fixpoint alloc_loop (fuel : nat) (fa : falloc) (t : tmpfs_file) (blockid : Z)
  : outcome (falloc * tmpfs_file) :=
  if block_count t <=? blockid then
    match fuel with
    | O => OutOfFuel
    | S fuel' =>
        '(index, fa) ← take_frame fa;
        bs ← aset (blocks t) (block_count t) index;
        alloc_loop fuel' fa (set_blocks t (block_count t + 1) (pointers t) bs) blockid
    end
  else Ret (fa, t).

(** The result is the frame the window [buf_space] shows, [None] for [NULL];
    the [frame] field of a page has 20 bits. *)
Definition tmpfs_file_getset_block (fa : falloc) (t : tmpfs_file) (blockid : Z) (create : bool)
  : outcome (option Z * falloc * tmpfs_file) :=
  if create then
    t ← embiggen_loop (Z.to_nat blockid) t blockid;
    '(fa, t) ← alloc_loop (Z.to_nat (blockid + 1)) fa t blockid;
    b ← aget (blocks t) blockid;
    Ret (Some (b mod 1048576), fa, t)
  else if block_count t <=? blockid then Ret (None, fa, t)
  else
    b ← aget (blocks t) blockid;
    Ret (Some (b mod 1048576), fa, t).

(** One block copied to [buffer + dst], or out of it. *)
Definition read_chunk (fa : falloc) (ram : ram_t) (t : tmpfs_file) (buffer : list Z)
    (blockid off n dst : Z) : outcome (list Z) :=
  '(buf, fa, t) ← tmpfs_file_getset_block fa t blockid false;
  f ← of_option buf;
  bytes ← mem_read (ram f) off n;
  mem_write buffer dst bytes.

Definition write_chunk (fa : falloc) (ram : ram_t) (t : tmpfs_file) (buffer : list Z)
    (blockid off n src : Z) : outcome (falloc * ram_t * tmpfs_file) :=
  '(buf, fa, t) ← tmpfs_file_getset_block fa t blockid true;
  f ← of_option buf;
  bytes ← mem_read buffer src n;
  page ← mem_write (ram f) off bytes;
  Ret (fa, store ram f page, t).

(** The position in the buffer of a block after the first. *)
Definition buffer_pos (blocks_read offset : Z) : Z :=
  u32 (BLOCKSIZE * blocks_read - offset mod BLOCKSIZE).

Fixpoint read_blocks (fa : falloc) (ram : ram_t) (t : tmpfs_file) (offset start_block : Z)
    (todo : nat) (block_offset blocks_read : Z) (buffer : list Z) : outcome (list Z) :=
  match todo with
  | O => Ret buffer
  | S todo' =>
      buffer ← (if block_offset =? start_block
                then read_chunk fa ram t buffer block_offset (offset mod BLOCKSIZE)
                       (BLOCKSIZE - offset mod BLOCKSIZE) 0
                else read_chunk fa ram t buffer block_offset 0 BLOCKSIZE (buffer_pos blocks_read offset));
      read_blocks fa ram t offset start_block todo' (block_offset + 1) (blocks_read + 1) buffer
  end.

(** Returns the count, the buffer and the file. *)
Definition read_tmpfs (fa : falloc) (ram : ram_t) (now : Z) (t : tmpfs_file) (offset size : Z)
    (buffer : list Z) : outcome (Z * list Z * tmpfs_file) :=
  let t := set_times t now (mtime t) in
  let end_ := if u32 (length_ t) <? u32 (offset + size) then u32 (length_ t) else u32 (offset + size) in
  let start_block := offset / BLOCKSIZE in
  let end_block := end_ / BLOCKSIZE in
  let end_size := u32 (end_ - end_block * BLOCKSIZE) in
  let size_to_read := u32 (end_ - offset) in
  if (start_block =? end_block) && (offset =? end_) then Ret (0, buffer, t)
  else if start_block =? end_block then
    buffer ← read_chunk fa ram t buffer start_block (offset mod BLOCKSIZE) size_to_read 0;
    Ret (size_to_read, buffer, t)
  else
    let blocks_read := Z.max 0 (end_block - start_block) in
    buffer ← read_blocks fa ram t offset start_block (Z.to_nat blocks_read) start_block 0 buffer;
    buffer ← (if truthy end_size
              then read_chunk fa ram t buffer end_block 0 end_size (buffer_pos blocks_read offset)
              else Ret buffer);
    Ret (size_to_read, buffer, t).

Fixpoint write_blocks (fa : falloc) (ram : ram_t) (t : tmpfs_file) (offset start_block : Z)
    (todo : nat) (block_offset blocks_read : Z) (buffer : list Z) : outcome (falloc * ram_t * tmpfs_file) :=
  match todo with
  | O => Ret (fa, ram, t)
  | S todo' =>
      '(fa, ram, t) ← (if block_offset =? start_block
                then write_chunk fa ram t buffer block_offset (offset mod BLOCKSIZE)
                       (BLOCKSIZE - offset mod BLOCKSIZE) 0
                else write_chunk fa ram t buffer block_offset 0 BLOCKSIZE (buffer_pos blocks_read offset));
      write_blocks fa ram t offset start_block todo' (block_offset + 1) (blocks_read + 1) buffer
  end.

Definition write_tmpfs (fa : falloc) (ram : ram_t) (now : Z) (t : tmpfs_file) (offset size : Z)
    (buffer : list Z) : outcome (Z * falloc * ram_t * tmpfs_file) :=
  let t := set_times t now now in
  let t := if u32 (length_ t) <? u32 (offset + size) then set_length t (s32 (offset + size)) else t in
  let end_ := u32 (offset + size) in
  let start_block := offset / BLOCKSIZE in
  let end_block := end_ / BLOCKSIZE in
  let end_size := u32 (end_ - end_block * BLOCKSIZE) in
  let size_to_read := u32 (end_ - offset) in
  if start_block =? end_block then
    '(fa, ram, t) ← write_chunk fa ram t buffer start_block (offset mod BLOCKSIZE) size_to_read 0;
    Ret (size_to_read, fa, ram, t)
  else
    let blocks_read := Z.max 0 (end_block - start_block) in
    '(fa, ram, t) ← write_blocks fa ram t offset start_block (Z.to_nat blocks_read) start_block 0 buffer;
    '(fa, ram, t) ← (if truthy end_size
              then write_chunk fa ram t buffer end_block 0 end_size (buffer_pos blocks_read offset)
              else Ret (fa, ram, t));
    Ret (size_to_read, fa, ram, t).

(** Gives the frames of the first [n] blocks back; truncating also clears the
    table entries. *)
Fixpoint free_blocks (fa : falloc) (bs : list Z) (n : nat) : outcome falloc :=
  match n, bs with
  | O, _ => Ret fa
  | S n', b :: bs' => fa ← release_frame fa b; free_blocks fa bs' n'
  | S _, [] => Fault
  end.

Definition open_tmpfs (fa : falloc) (t : tmpfs_file) (flags : Z) : outcome (falloc * tmpfs_file) :=
  if truthy (Z.land flags O_TRUNC) then
    let n := Z.to_nat (block_count t) in
    fa ← free_blocks fa (blocks t) n;
    Ret (fa, set_length (set_blocks t 0 (pointers t) (replicate n 0 ++ drop n (blocks t))) 0)
  else Ret (fa, t).

Definition tmpfs_file_free (fa : falloc) (t : tmpfs_file) : outcome falloc :=
  free_blocks fa (blocks t) (Z.to_nat (block_count t)).

(** ** Specification: a file is the sequence of its bytes *)

Definition blk (t : tmpfs_file) (b : Z) : Z := default 0 (blocks t !! Z.to_nat b).
Definition byte (t : tmpfs_file) (ram : ram_t) (i : Z) : option Z :=
  ram (blk t (i / BLOCKSIZE)) !! Z.to_nat (i mod BLOCKSIZE).

(** The block table holds frames in use, each once. *)
Definition inv (fa : falloc) (ram : ram_t) (t : tmpfs_file) : Prop :=
  fa_ok fa /\ 0 <= block_count t <= pointers t /\ 2 <= pointers t /\
  Z.of_nat (length (blocks t)) = pointers t /\
  (forall b, 0 <= b < block_count t -> 0 <= blk t b < 1048576 /\ in_use fa (blk t b) = true) /\
  (forall b b', 0 <= b < block_count t -> 0 <= b' < block_count t -> blk t b = blk t b' -> b = b') /\
  (forall f, length (ram f) = 4096%nat).

Definition fits (t : tmpfs_file) : Prop := 0 <= length_ t <= block_count t * BLOCKSIZE.

Lemma block_of b i : b * BLOCKSIZE <= i < b * BLOCKSIZE + BLOCKSIZE ->
  i / BLOCKSIZE = b /\ i mod BLOCKSIZE = i - b * BLOCKSIZE.
Proof.
  unfold BLOCKSIZE. intros Hi. assert (i / 4096 = b) as <- by (symmetry; apply (Z.div_unique _ _ _ (i - b * 4096)); lia).
  split; [done|]. rewrite Z.mod_eq by lia. lia.
Qed.

Lemma of_block i : 0 <= i ->
  let b := i / BLOCKSIZE in 0 <= b /\ b * BLOCKSIZE <= i < b * BLOCKSIZE + BLOCKSIZE /\
  i mod BLOCKSIZE = i - b * BLOCKSIZE.
Proof.
  unfold BLOCKSIZE. intros Hi. pose proof (Z.div_mod i 4096). pose proof (Z.mod_pos_bound i 4096).
  pose proof (Z.div_pos i 4096). lia.
Qed.

Lemma byte_in t ram b i : b * BLOCKSIZE <= i < b * BLOCKSIZE + BLOCKSIZE ->
  byte t ram i = ram (blk t b) !! Z.to_nat (i - b * BLOCKSIZE).
Proof. intros Hi. unfold byte. by destruct (block_of b i Hi) as [-> ->]. Qed.

(** What the code expects of [realloc]: the old entries are kept. *)
Definition realloc_keeps : Prop := forall bs n, Z.of_nat (length bs) <= n ->
  exists rest, realloc bs n = bs ++ rest /\ Z.of_nat (length bs) + Z.of_nat (length rest) = n.

(** Either the table has room for a block, or [realloc] keeps the entries. *)
Definition room_for (t : tmpfs_file) (blockid : Z) : Prop := blockid < pointers t \/ realloc_keeps.

Lemma embiggen_loop_ok fa ram fuel t blockid :
  inv fa ram t -> 0 <= blockid < 1048576 -> blockid < pointers t + Z.of_nat fuel -> room_for t blockid ->
  exists t', embiggen_loop fuel t blockid = Ret t' /\ inv fa ram t' /\ blockid < pointers t' /\ pointers t <= pointers t' /\
    block_count t' = block_count t /\ length_ t' = length_ t /\
    forall b, 0 <= b < block_count t -> blk t' b = blk t b.
Proof.
  revert t. induction fuel as [|fuel IH]; intros t Hinv Hb Hf Hroom; cbn [embiggen_loop];
    destruct (Z.leb_spec (pointers t) blockid); try lia; try (exists t; do 3 (split; [done|]); split; [lia|done]).
  destruct Hroom as [|Hk]; [lia|].
  pose proof Hinv as (Hfa & Hbc & Hp & Hl & Huse & Hinj & Hram).
  set (t1 := tmpfs_file_blocks_embiggen t).
  destruct (Hk (blocks t) (s32 (pointers t * 2))) as (rest & Er & Hrl); [rewrite s32_small; lia|].
  assert (forall b, 0 <= b < block_count t -> blk t1 b = blk t b) as Hblk.
  { intros b Hb'. unfold blk, t1. simpl. by rewrite Er, lookup_app_l by lia. }
  assert (pointers t1 = pointers t * 2) as Hp1 by (unfold t1; simpl; rewrite s32_small; lia).
  assert (inv fa ram t1) as Hinv1.
  { split; [done|]. rewrite Hp1. change (block_count t1) with (block_count t). split; [lia|]. split; [lia|].
    split; [unfold t1; simpl; rewrite Er, length_app; rewrite s32_small in Hrl; lia|].
    split; [intros b Hb'; rewrite Hblk by done; auto|].
    split; [intros b b' Hb1 Hb2; rewrite !Hblk by done; auto|done]. }
  destruct (IH t1 Hinv1 Hb) as (t' & -> & Hinv' & Hlt & Hpp & Hbc' & Hlen & Hblk'); [lia|by right|].
  exists t'. do 3 (split; [done|]). split; [lia|]. split; [done|]. split; [done|].
  intros b Hb'. rewrite Hblk', Hblk by done. done.
Qed.

Lemma alloc_loop_ok ram fuel fa t blockid :
  inv fa ram t -> 0 <= blockid < pointers t -> blockid < block_count t + Z.of_nat fuel ->
  blockid + 1 - block_count t <= Z.of_nat (spare fa) ->
  exists fa' t', alloc_loop fuel fa t blockid = Ret (fa', t') /\ inv fa' ram t' /\
    block_count t' = Z.max (block_count t) (blockid + 1) /\ length_ t' = length_ t /\ pointers t' = pointers t /\
    Z.of_nat (spare fa') + block_count t' = Z.of_nat (spare fa) + block_count t /\
    forall b, 0 <= b < block_count t -> blk t' b = blk t b.
Proof.
  revert fa t. induction fuel as [|fuel IH]; intros fa t Hinv Hb Hf Hsp; cbn [alloc_loop];
    destruct (Z.leb_spec (block_count t) blockid); try lia;
    try (exists fa, t; split; [done|]; split; [done|]; split; [lia|]; split; [done|]; split; [done|]; split; [lia|done]).
  pose proof Hinv as (Hfa & Hbc & Hp & Hl & Huse & Hinj & Hram).
  destruct (take_frame_ok fa Hfa) as (k & fa1 & -> & Hfa1 & Hk & Hfree & Hu & Hs); [lia|].
  cbn [mbind outcome_bind]. rewrite aset_in_range by lia. cbn [mbind outcome_bind].
  set (t1 := set_blocks _ _ _ _).
  assert (forall b, 0 <= b < block_count t -> blk t1 b = blk t b) as Hblk.
  { intros b Hb'. unfold blk, t1. simpl. by rewrite list_lookup_insert_ne by lia. }
  assert (blk t1 (block_count t) = k) as Hnew.
  { unfold blk, t1. simpl. by rewrite list_lookup_insert_eq by lia. }
  assert (forall b, 0 <= b < block_count t -> blk t b <> k) as Hne.
  { intros b Hb' E. destruct (Huse b Hb') as [_ Hi]. congruence. }
  assert (inv fa1 ram t1) as Hinv1.
  { split; [done|]. change (block_count t1) with (block_count t + 1). change (pointers t1) with (pointers t).
    split; [lia|]. split; [lia|]. split; [unfold t1; simpl; by rewrite length_insert|].
    split; [|split; [|done]].
    - intros b Hb'. destruct (Z.eq_dec b (block_count t)) as [->|].
      + rewrite Hnew, Hu, Z.eqb_refl by lia. done.
      + rewrite Hblk by lia. destruct (Huse b) as [? Hi]; [lia|]. rewrite Hu, Hi by lia.
        by rewrite orb_true_r.
    - intros b b' Hb1 Hb2. destruct (Z.eq_dec b (block_count t)) as [->|], (Z.eq_dec b' (block_count t)) as [->|].
      + done.
      + rewrite Hnew, Hblk by lia. intros E. exfalso. apply (Hne b'); [lia|done].
      + rewrite Hnew, Hblk by lia. intros E. exfalso. apply (Hne b); [lia|done].
      + rewrite !Hblk by lia. apply Hinj; lia. }
  destruct (IH fa1 t1 Hinv1) as (fa' & t' & -> & Hinv' & Hbc' & Hlen & Hpt & Hsp' & Hblk');
    [done|unfold t1; simpl; lia|unfold t1; simpl; lia|].
  unfold t1 in Hbc', Hsp', Hblk'. simpl in Hbc', Hsp', Hblk'. fold t1 in Hblk'.
  exists fa', t'. split; [done|]. split; [done|]. split; [lia|]. split; [done|]. split; [done|]. split; [lia|].
  intros b Hb'. rewrite Hblk' by lia. auto.
Qed.

Lemma blk_aget fa ram t b : inv fa ram t -> 0 <= b < block_count t ->
  aget (blocks t) b = Ret (blk t b) /\ blk t b mod 1048576 = blk t b.
Proof.
  intros (_ & Hbc & _ & Hl & Huse & _) Hb. split.
  - unfold blk. destruct (aget_in_range (blocks t) b) as (k & -> & ->); [lia|done].
  - apply Z.mod_small, Huse, Hb.
Qed.

Lemma getset_create_ok fa ram t blockid :
  inv fa ram t -> 0 <= blockid < 1048576 -> blockid + 1 - block_count t <= Z.of_nat (spare fa) -> room_for t blockid ->
  exists fa' t', tmpfs_file_getset_block fa t blockid true = Ret (Some (blk t' blockid), fa', t') /\
    inv fa' ram t' /\ block_count t' = Z.max (block_count t) (blockid + 1) /\ length_ t' = length_ t /\ pointers t <= pointers t' /\
    Z.of_nat (spare fa') + block_count t' = Z.of_nat (spare fa) + block_count t /\
    forall b, 0 <= b < block_count t -> blk t' b = blk t b.
Proof.
  intros Hinv Hb Hsp Hroom. unfold tmpfs_file_getset_block. pose proof Hinv as (_ & Hbc0 & Hp & _).
  destruct (embiggen_loop_ok fa ram (Z.to_nat blockid) t blockid Hinv Hb)
    as (t1 & -> & Hinv1 & Hlt & Hpp & Hbc1 & Hl1 & Hblk1); [lia|done|]. cbn [mbind outcome_bind].
  pose proof Hinv1 as (_ & Hbc1' & _).
  destruct (alloc_loop_ok ram (Z.to_nat (blockid + 1)) fa t1 blockid Hinv1)
    as (fa' & t' & -> & Hinv' & Hbc' & Hl' & Hpt & Hsp' & Hblk'); [lia|lia|lia|].
  cbn [mbind outcome_bind]. destruct (blk_aget fa' ram t' blockid Hinv') as [-> E]; [lia|].
  cbn [mbind outcome_bind]. rewrite E. exists fa', t'. split; [done|]. split; [done|]. split; [lia|].
  split; [congruence|]. split; [lia|]. split; [lia|]. intros b Hb'. rewrite Hblk', Hblk1 by lia. done.
Qed.

(** Bytes [lo] to [hi] of the file come from the buffer, whose first byte is
    byte [offset] of the file; the other bytes there were are kept. *)
Definition wrote (t : tmpfs_file) (ram : ram_t) (t' : tmpfs_file) (ram' : ram_t)
    (buffer : list Z) (offset lo hi : Z) : Prop :=
  (forall i, lo <= i < hi -> byte t' ram' i = buffer !! Z.to_nat (i - offset)) /\
  (forall i, 0 <= i < block_count t * BLOCKSIZE -> ~ (lo <= i < hi) -> byte t' ram' i = byte t ram i) /\
  block_count t <= block_count t' /\ hi <= block_count t' * BLOCKSIZE.

Lemma wrote_trans t ram t1 ram1 t2 ram2 buffer offset lo mid hi :
  0 <= lo <= mid -> mid <= hi ->
  wrote t ram t1 ram1 buffer offset lo mid -> wrote t1 ram1 t2 ram2 buffer offset mid hi ->
  wrote t ram t2 ram2 buffer offset lo hi.
Proof.
  unfold wrote, BLOCKSIZE. intros Hlo Hhi (W1 & K1 & B1 & H1) (W2 & K2 & B2 & H2).
  split; [|split; [|lia]].
  - intros i Hi. destruct (Z.lt_ge_cases i mid); [|apply W2; lia]. rewrite K2 by lia. apply W1. lia.
  - intros i Hi Hn. rewrite K2 by lia. apply K1; lia.
Qed.

Lemma write_chunk_ok fa ram t buffer offset blockid off n src :
  inv fa ram t -> 0 <= blockid < 1048576 -> blockid + 1 - block_count t <= Z.of_nat (spare fa) ->
  0 <= off -> 0 <= n -> off + n <= BLOCKSIZE -> 0 <= src -> src + n <= Z.of_nat (length buffer) ->
  blockid * BLOCKSIZE + off = offset + src -> room_for t blockid ->
  exists fa' ram' t', write_chunk fa ram t buffer blockid off n src = Ret (fa', ram', t') /\
    inv fa' ram' t' /\ block_count t' = Z.max (block_count t) (blockid + 1) /\ length_ t' = length_ t /\ pointers t <= pointers t' /\
    Z.of_nat (spare fa') + block_count t' = Z.of_nat (spare fa) + block_count t /\
    wrote t ram t' ram' buffer offset (offset + src) (offset + src + n).
Proof.
  unfold BLOCKSIZE. intros Hinv Hb Hsp Hoff Hn Hon Hsrc Hsn Hpos Hroom. unfold write_chunk.
  destruct (getset_create_ok fa ram t blockid Hinv Hb Hsp Hroom) as (fa' & t' & -> & Hinv' & Hbc & Hlen & Hpp & Hs' & Hblk).
  cbn [mbind outcome_bind of_option]. pose proof Hinv' as (Hfa' & ? & ? & ? & Huse & Hinj & Hram).
  destruct (mem_read_ok buffer src n) as (bytes & -> & Hbl & Hbytes); [lia|lia|lia|].
  cbn [mbind outcome_bind]. pose proof (Hram (blk t' blockid)) as Hpl.
  destruct (mem_write_ok (ram (blk t' blockid)) off bytes) as (page & -> & Hpgl & Hpage); [lia|lia|].
  cbn [mbind outcome_bind]. set (ram' := store ram (blk t' blockid) page).
  assert (forall b, 0 <= b < block_count t' -> b <> blockid -> ram' (blk t' b) = ram (blk t' b)) as Hother.
  { intros b Hb' Hne. unfold ram', store. destruct (Z.eqb_spec (blk t' b) (blk t' blockid)) as [E|]; [|done].
    apply Hinj in E; [done|lia|lia]. }
  assert (ram' (blk t' blockid) = page) as Hself by (unfold ram', store; by rewrite Z.eqb_refl).
  exists fa', ram', t'. split; [done|]. split.
  { do 6 (split; [done|]). intros f. unfold ram', store. destruct (f =? _); [congruence|done]. }
  do 4 (split; [done|]).
  unfold wrote, BLOCKSIZE. split; [|split; [|lia]].
  - intros i Hi. rewrite (byte_in t' ram' blockid) by (unfold BLOCKSIZE; lia). unfold BLOCKSIZE.
    rewrite Hself, Hpage by lia.
    destruct (Z.leb_spec off (i - blockid * 4096)), (Z.ltb_spec (i - blockid * 4096) (off + Z.of_nat (length bytes)));
      simpl; try lia. rewrite Hbytes by lia. f_equal. lia.
  - intros i Hi Hout. destruct (of_block i) as (Hb0 & Hbi & Hm); [lia|].
    set (b := i / BLOCKSIZE) in *. unfold BLOCKSIZE in Hbi, Hm.
    rewrite (byte_in t' ram' b), (byte_in t ram b) by done. unfold BLOCKSIZE.
    rewrite <- Hblk by lia. destruct (Z.eq_dec b blockid) as [E|Hne]; [|by rewrite Hother by lia].
    rewrite E in *. rewrite Hself, Hpage by lia.
    destruct (Z.leb_spec off (i - blockid * 4096)), (Z.ltb_spec (i - blockid * 4096) (off + Z.of_nat (length bytes)));
      simpl; try lia; done.
Qed.

Lemma buffer_pos_eq offset b :
  0 <= offset -> offset / BLOCKSIZE < b -> b < 1048576 ->
  buffer_pos (b - offset / BLOCKSIZE) offset = b * BLOCKSIZE - offset.
Proof.
  intros Ho Hb Hm. destruct (of_block offset Ho) as (H0 & Hr & Hmod). unfold buffer_pos. rewrite Hmod.
  unfold BLOCKSIZE in *. rewrite u32_small; lia.
Qed.

(** The loop over the blocks before the last one. *)
Lemma write_blocks_ok fa ram t buffer offset todo b :
  let start := offset / BLOCKSIZE in
  inv fa ram t -> 0 <= offset -> start <= b -> (start < b \/ (0 < todo)%nat) -> (start < b -> b <= block_count t) ->
  b + Z.of_nat todo < 1048576 -> b + Z.of_nat todo - block_count t <= Z.of_nat (spare fa) ->
  (b + Z.of_nat todo) * BLOCKSIZE - offset <= Z.of_nat (length buffer) -> room_for t (b + Z.of_nat todo - 1) ->
  exists fa' ram' t', write_blocks fa ram t offset start todo b (b - start) buffer = Ret (fa', ram', t') /\
    inv fa' ram' t' /\ length_ t' = length_ t /\ pointers t <= pointers t' /\ block_count t' = Z.max (block_count t) (b + Z.of_nat todo) /\
    Z.of_nat (spare fa') + block_count t' = Z.of_nat (spare fa) + block_count t /\
    wrote t ram t' ram' buffer offset (Z.max offset (b * BLOCKSIZE)) ((b + Z.of_nat todo) * BLOCKSIZE).
Proof.
  intros start. pose proof (of_block offset) as Hof. revert fa ram t b.
  induction todo as [|todo IH]; intros fa ram t b Hinv Ho Hsb Hor Hbc Hlim Hsp Hlen Hroom; cbn [write_blocks];
    destruct (Hof Ho) as (Hst0 & Hst & Hmod); fold start in Hst0, Hst, Hmod; unfold BLOCKSIZE in Hst, Hmod, Hlen.
  { exists fa, ram, t. pose proof Hinv as (_ & ? & _).
    split; [done|]. split; [done|]. split; [done|]. split; [lia|]. split; [lia|]. split; [lia|].
    unfold wrote, BLOCKSIZE in *. split; [intros; lia|]. split; [done|]. lia. }
  assert (exists fa1 ram1 t1,
    (if b =? start then write_chunk fa ram t buffer b (offset mod BLOCKSIZE) (BLOCKSIZE - offset mod BLOCKSIZE) 0
     else write_chunk fa ram t buffer b 0 BLOCKSIZE (buffer_pos (b - start) offset)) = Ret (fa1, ram1, t1) /\
    inv fa1 ram1 t1 /\ block_count t1 = Z.max (block_count t) (b + 1) /\ length_ t1 = length_ t /\ pointers t <= pointers t1 /\
    Z.of_nat (spare fa1) + block_count t1 = Z.of_nat (spare fa) + block_count t /\
    wrote t ram t1 ram1 buffer offset (Z.max offset (b * BLOCKSIZE)) ((b + 1) * BLOCKSIZE))
    as (fa1 & ram1 & t1 & -> & Hinv1 & Hbc1 & Hl1 & Hpp1 & Hsp1 & Hw1).
  { destruct (Z.eqb_spec b start) as [E|Hne].
    - unfold BLOCKSIZE in *. destruct (write_chunk_ok fa ram t buffer offset b (offset mod 4096)
        (4096 - offset mod 4096) 0 Hinv) as (fa1 & ram1 & t1 & Hr & Hi & Hb & Hl & Hpp & Hs & Hw);
        unfold BLOCKSIZE; try lia; [unfold room_for in *; intuition lia|].
      exists fa1, ram1, t1. do 6 (split; [done|]).
      replace (Z.max offset (b * 4096)) with (offset + 0) by lia.
      replace ((b + 1) * 4096) with (offset + 0 + (4096 - offset mod 4096)) by lia. done.
    - unfold start. rewrite buffer_pos_eq by (fold start; lia).
      unfold BLOCKSIZE in *. destruct (write_chunk_ok fa ram t buffer offset b 0 4096 (b * 4096 - offset) Hinv)
        as (fa1 & ram1 & t1 & Hr & Hi & Hb & Hl & Hpp & Hs & Hw); unfold BLOCKSIZE; try lia; [unfold room_for in *; intuition lia|].
      exists fa1, ram1, t1. do 6 (split; [done|]).
      replace (Z.max offset (b * 4096)) with (offset + (b * 4096 - offset)) by lia.
      replace ((b + 1) * 4096) with (offset + (b * 4096 - offset) + 4096) by lia. done. }
  cbn [mbind outcome_bind]. replace (b - start + 1) with (b + 1 - start) by lia.
  destruct (IH fa1 ram1 t1 (b + 1) Hinv1 Ho) as (fa' & ram' & t' & -> & Hinv' & Hl' & Hpp' & Hbc' & Hsp' & Hw');
    [lia|left; lia|lia|lia|lia|unfold BLOCKSIZE; lia|unfold room_for in *; intuition lia|].
  exists fa', ram', t'. split; [done|]. split; [done|]. split; [congruence|]. split; [lia|]. split; [lia|]. split; [lia|].
  replace (b + 1 + Z.of_nat todo) with (b + Z.of_nat (S todo)) in Hw' by lia.
  unfold BLOCKSIZE in *. replace (Z.max offset ((b + 1) * 4096)) with ((b + 1) * 4096) in Hw' by lia.
  eapply wrote_trans; [| |exact Hw1|exact Hw']; lia.
Qed.

Lemma div_mod_block e : 0 <= e -> e - e / BLOCKSIZE * BLOCKSIZE = e mod BLOCKSIZE /\ 0 <= e mod BLOCKSIZE < BLOCKSIZE.
Proof. intros He. destruct (of_block e He) as (? & ? & ?). unfold BLOCKSIZE in *. lia. Qed.

Lemma write_body_ok fa ram t buffer offset :
  let size := Z.of_nat (length buffer) in let e := offset + size in
  let sb := offset / BLOCKSIZE in let eb := e / BLOCKSIZE in
  inv fa ram t -> 0 <= offset -> e < 2147483648 -> eb + 1 - block_count t <= Z.of_nat (spare fa) -> room_for t eb ->
  exists fa' ram' t',
    (if sb =? eb then
       '(fa, ram, t) ← write_chunk fa ram t buffer sb (offset mod BLOCKSIZE) size 0; Ret (size, fa, ram, t)
     else
       '(fa, ram, t) ← write_blocks fa ram t offset sb (Z.to_nat (Z.max 0 (eb - sb))) sb 0 buffer;
       '(fa, ram, t) ← (if truthy (u32 (e - eb * BLOCKSIZE))
                then write_chunk fa ram t buffer eb 0 (u32 (e - eb * BLOCKSIZE)) (buffer_pos (Z.max 0 (eb - sb)) offset)
                else Ret (fa, ram, t));
       Ret (size, fa, ram, t)) = Ret (size, fa', ram', t') /\
    inv fa' ram' t' /\ length_ t' = length_ t /\ wrote t ram t' ram' buffer offset offset e.
Proof.
  intros size e sb eb Hinv Ho He Hsp Hroom. unfold size in *.
  destruct (of_block offset Ho) as (Hs0 & Hs & Hsm). destruct (of_block e) as (He0 & Heb & Hem); [lia|].
  fold sb in Hs0, Hs, Hsm. fold eb in He0, Heb, Hem. unfold BLOCKSIZE in Hs, Hsm, Heb, Hem.
  destruct (Z.eqb_spec sb eb) as [E|Hne].
  - destruct (write_chunk_ok fa ram t buffer offset sb (offset mod BLOCKSIZE) (Z.of_nat (length buffer)) 0 Hinv)
      as (fa' & ram' & t' & -> & Hi & Hb & Hl & Hpp & Hsp' & Hw); try (unfold BLOCKSIZE; lia); [by rewrite E|].
    cbn [mbind outcome_bind]. exists fa', ram', t'. do 3 (split; [done|]). by rewrite Z.add_0_r in Hw.
  - assert (sb < eb) by lia. rewrite Z.max_r by lia.
    destruct (write_blocks_ok fa ram t buffer offset (Z.to_nat (eb - sb)) sb Hinv Ho)
      as (fa1 & ram1 & t1 & Hwb & Hinv1 & Hl1 & Hpp1 & Hbc1 & Hsp1 & Hw1); fold sb; try (unfold BLOCKSIZE; lia); [unfold room_for in *; intuition lia|].
    fold sb in Hwb. rewrite Z.sub_diag in Hwb. rewrite Hwb. cbn [mbind outcome_bind].
    replace (sb + Z.of_nat (Z.to_nat (eb - sb))) with eb in * by lia. unfold BLOCKSIZE in Hw1.
    replace (Z.max offset (sb * 4096)) with offset in Hw1 by lia.
    rewrite u32_small by (unfold BLOCKSIZE; lia). unfold truthy.
    destruct (Z.eqb_spec (e - eb * BLOCKSIZE) 0) as [E0|E0]; cbn [negb]; unfold BLOCKSIZE in E0.
    + exists fa1, ram1, t1. do 3 (split; [done|]). by replace e with (eb * 4096) by lia.
    + unfold sb. rewrite buffer_pos_eq by (fold sb; lia). unfold BLOCKSIZE in *.
      destruct (write_chunk_ok fa1 ram1 t1 buffer offset eb 0 (e - eb * 4096) (eb * 4096 - offset) Hinv1)
        as (fa' & ram' & t' & -> & Hi & Hb & Hl & Hpp & Hsp' & Hw); try (unfold BLOCKSIZE; lia); [unfold room_for in *; intuition lia|].
      cbn [mbind outcome_bind]. exists fa', ram', t'. split; [done|]. split; [done|]. split; [congruence|].
      replace (offset + (eb * 4096 - offset)) with (eb * 4096) in Hw by lia.
      replace (eb * 4096 + (e - eb * 4096)) with e in Hw by lia.
      eapply wrote_trans; [| |exact Hw1|exact Hw]; lia.
Qed.

Lemma write_tmpfs_ok fa ram now t offset buffer :
  let size := Z.of_nat (length buffer) in
  inv fa ram t -> fits t -> 0 <= offset -> offset + size < 2147483648 -> length_ t < 2147483648 ->
  (offset + size) / BLOCKSIZE + 1 - block_count t <= Z.of_nat (spare fa) -> room_for t ((offset + size) / BLOCKSIZE) ->
  exists fa' ram' t', write_tmpfs fa ram now t offset size buffer = Ret (size, fa', ram', t') /\
    inv fa' ram' t' /\ fits t' /\ length_ t' = Z.max (length_ t) (offset + size) /\
    (forall i, offset <= i < offset + size -> byte t' ram' i = buffer !! Z.to_nat (i - offset)) /\
    (forall i, 0 <= i < length_ t -> ~ (offset <= i < offset + size) -> byte t' ram' i = byte t ram i).
Proof.
  intros size Hinv Hfit Ho Hlim Hll Hsp Hroom. unfold write_tmpfs, fits, size in *. cbv zeta.
  rewrite !(u32_small (offset + _)), (u32_small (length_ (set_times t now now))), s32_small by (simpl; lia).
  match goal with |- context [if ?c then set_length ?a ?b else ?d] =>
    set (t0 := if c then set_length a b else d) end.
  assert (block_count t0 = block_count t /\ blocks t0 = blocks t /\ pointers t0 = pointers t /\ inv fa ram t0 /\
    length_ t0 = Z.max (length_ t) (offset + size)) as (Ebc & Ebl & Ept & Hinv0 & Elen).
  { unfold t0. destruct (Z.ltb_spec (length_ (set_times t now now)) (offset + Z.of_nat (length buffer)));
      (split; [reflexivity|]; split; [reflexivity|]; split; [reflexivity|]; split; [exact Hinv|]); simpl in *; lia. }
  rewrite (u32_small (offset + _ - offset)) by lia.
  replace (offset + Z.of_nat (length buffer) - offset) with (Z.of_nat (length buffer)) by lia.
  destruct (write_body_ok fa ram t0 buffer offset Hinv0 Ho Hlim) as (fa' & ram' & t' & E & Hi & Hl & W & K & B & H');
    [rewrite Ebc; done|unfold room_for; by rewrite Ept|].
  exists fa', ram', t'. split; [exact E|]. split; [done|]. unfold BLOCKSIZE in *.
  split; [lia|]. split; [lia|]. split; [done|].
  intros i Hi' Hout. rewrite K by lia. unfold byte, blk. by rewrite Ebl.
Qed.

(** C3: A write that ends inside the part of a file that its table of blocks has room for, with
    enough free frames, stores the whole buffer at the offset, extends the file if it ends
    later, keeps every other byte, and leaves a well-formed file.  (A write beyond that part
    enlarges the table with [realloc], which need not keep the entries; see
    [write_tmpfs_grows].) *)
Theorem write_tmpfs_correct fa ram now t offset buffer :
  let size := Z.of_nat (length buffer) in
  inv fa ram t -> fits t -> 0 <= offset -> offset + size < 2147483648 -> length_ t < 2147483648 ->
  offset + size < pointers t * BLOCKSIZE ->
  (offset + size) / BLOCKSIZE + 1 - block_count t <= Z.of_nat (spare fa) ->
  exists fa' ram' t', write_tmpfs fa ram now t offset size buffer = Ret (size, fa', ram', t') /\
    inv fa' ram' t' /\ fits t' /\ length_ t' = Z.max (length_ t) (offset + size) /\
    (forall i, offset <= i < offset + size -> byte t' ram' i = buffer !! Z.to_nat (i - offset)) /\
    (forall i, 0 <= i < length_ t -> ~ (offset <= i < offset + size) -> byte t' ram' i = byte t ram i).
Proof.
  intros size Hinv Hfit Ho Hlim Hll Hp Hsp. apply write_tmpfs_ok; try done. left. unfold BLOCKSIZE in *. apply Z.div_lt_upper_bound; lia.
Qed.

(** The same for a write of any length if [realloc] keeps the entries of the table. *)
Theorem write_tmpfs_grows fa ram now t offset buffer :
  let size := Z.of_nat (length buffer) in
  realloc_keeps -> inv fa ram t -> fits t -> 0 <= offset -> offset + size < 2147483648 -> length_ t < 2147483648 ->
  (offset + size) / BLOCKSIZE + 1 - block_count t <= Z.of_nat (spare fa) ->
  exists fa' ram' t', write_tmpfs fa ram now t offset size buffer = Ret (size, fa', ram', t') /\
    inv fa' ram' t' /\ fits t' /\ length_ t' = Z.max (length_ t) (offset + size) /\
    (forall i, offset <= i < offset + size -> byte t' ram' i = buffer !! Z.to_nat (i - offset)) /\
    (forall i, 0 <= i < length_ t -> ~ (offset <= i < offset + size) -> byte t' ram' i = byte t ram i).
Proof. intros size Hk Hinv Hfit Ho Hlim Hll Hsp. apply write_tmpfs_ok; try done. by right. Qed.

(** ** Reading *)

(** Bytes [lo] to [hi] of the file are in the buffer, whose first byte is byte
    [offset] of the file; the rest of the buffer is kept. *)
Definition got (t : tmpfs_file) (ram : ram_t) (buffer buffer' : list Z) (offset lo hi : Z) : Prop :=
  length buffer' = length buffer /\
  forall p, 0 <= p -> buffer' !! Z.to_nat p =
    if (lo <=? offset + p) && (offset + p <? hi) then byte t ram (offset + p) else buffer !! Z.to_nat p.

Lemma got_trans t ram b1 b2 b3 offset lo mid hi :
  lo <= mid <= hi -> got t ram b1 b2 offset lo mid -> got t ram b2 b3 offset mid hi ->
  got t ram b1 b3 offset lo hi.
Proof.
  intros Hm [L1 G1] [L2 G2]. split; [congruence|]. intros p Hp. rewrite G2, G1 by done.
  destruct (Z.leb_spec mid (offset + p)), (Z.ltb_spec (offset + p) hi), (Z.leb_spec lo (offset + p)),
    (Z.ltb_spec (offset + p) mid); simpl; done || lia.
Qed.

Lemma read_chunk_ok fa ram t buffer offset blockid off n dst :
  inv fa ram t -> 0 <= blockid < block_count t -> 0 <= off -> 0 <= n -> off + n <= BLOCKSIZE ->
  0 <= dst -> dst + n <= Z.of_nat (length buffer) -> blockid * BLOCKSIZE + off = offset + dst ->
  exists buffer', read_chunk fa ram t buffer blockid off n dst = Ret buffer' /\
    got t ram buffer buffer' offset (offset + dst) (offset + dst + n).
Proof.
  intros Hinv Hb Hoff Hn Hon Hd Hdn Hpos. unfold read_chunk, tmpfs_file_getset_block.
  destruct (Z.leb_spec (block_count t) blockid); [lia|].
  destruct (blk_aget fa ram t blockid Hinv Hb) as [-> E]. cbn [mbind outcome_bind of_option]. rewrite E.
  pose proof Hinv as (_ & _ & _ & _ & _ & _ & Hram). unfold BLOCKSIZE in Hon, Hpos.
  destruct (mem_read_ok (ram (blk t blockid)) off n) as (bytes & -> & Hbl & Hbytes); [lia|lia|rewrite Hram; lia|].
  cbn [mbind outcome_bind].
  destruct (mem_write_ok buffer dst bytes) as (buffer' & -> & Hl & Hb'); [lia|lia|].
  exists buffer'. split; [done|]. split; [done|]. intros p Hp. rewrite Hb' by done. rewrite Hbl.
  destruct (Z.leb_spec dst p), (Z.ltb_spec p (dst + n)), (Z.leb_spec (offset + dst) (offset + p)),
    (Z.ltb_spec (offset + p) (offset + dst + n)); cbn [andb]; try done; try lia.
  rewrite Hbytes, (byte_in t ram blockid) by (unfold BLOCKSIZE; lia). unfold BLOCKSIZE. f_equal. lia.
Qed.

Lemma read_blocks_ok fa ram t buffer offset todo b :
  let start := offset / BLOCKSIZE in
  inv fa ram t -> 0 <= offset -> start <= b -> (start < b \/ (0 < todo)%nat) ->
  b + Z.of_nat todo <= block_count t -> b + Z.of_nat todo < 1048576 ->
  (b + Z.of_nat todo) * BLOCKSIZE - offset <= Z.of_nat (length buffer) ->
  exists buffer', read_blocks fa ram t offset start todo b (b - start) buffer = Ret buffer' /\
    got t ram buffer buffer' offset (Z.max offset (b * BLOCKSIZE)) ((b + Z.of_nat todo) * BLOCKSIZE).
Proof.
  intros start. pose proof (of_block offset) as Hof. revert buffer b.
  induction todo as [|todo IH]; intros buffer b Hinv Ho Hsb Hor Hbc Hlim Hlen; cbn [read_blocks];
    destruct (Hof Ho) as (Hst0 & Hst & Hmod); fold start in Hst0, Hst, Hmod; unfold BLOCKSIZE in Hst, Hmod, Hlen.
  { exists buffer. split; [done|]. split; [done|]. unfold BLOCKSIZE. intros p Hp.
    destruct (Z.leb_spec (Z.max offset (b * 4096)) (offset + p)),
      (Z.ltb_spec (offset + p) ((b + Z.of_nat 0) * 4096)); simpl; done || lia. }
  assert (exists b1,
    (if b =? start then read_chunk fa ram t buffer b (offset mod BLOCKSIZE) (BLOCKSIZE - offset mod BLOCKSIZE) 0
     else read_chunk fa ram t buffer b 0 BLOCKSIZE (buffer_pos (b - start) offset)) = Ret b1 /\
    got t ram buffer b1 offset (Z.max offset (b * BLOCKSIZE)) ((b + 1) * BLOCKSIZE)) as (b1 & -> & G1).
  { destruct (Z.eqb_spec b start) as [E|Hne].
    - unfold BLOCKSIZE in *. destruct (read_chunk_ok fa ram t buffer offset b (offset mod 4096)
        (4096 - offset mod 4096) 0 Hinv) as (b1 & Hr & Hg); unfold BLOCKSIZE; try lia.
      exists b1. split; [done|]. replace (Z.max offset (b * 4096)) with (offset + 0) by lia.
      replace ((b + 1) * 4096) with (offset + 0 + (4096 - offset mod 4096)) by lia. done.
    - unfold start. rewrite buffer_pos_eq by (fold start; lia).
      unfold BLOCKSIZE in *. destruct (read_chunk_ok fa ram t buffer offset b 0 4096 (b * 4096 - offset) Hinv)
        as (b1 & Hr & Hg); unfold BLOCKSIZE; try lia.
      exists b1. split; [done|]. replace (Z.max offset (b * 4096)) with (offset + (b * 4096 - offset)) by lia.
      replace ((b + 1) * 4096) with (offset + (b * 4096 - offset) + 4096) by lia. done. }
  cbn [mbind outcome_bind]. replace (b - start + 1) with (b + 1 - start) by lia.
  destruct (IH b1 (b + 1) Hinv Ho) as (b2 & -> & G2);
    [lia|left; lia|lia|lia|destruct G1 as [-> _]; unfold BLOCKSIZE; lia|].
  exists b2. split; [done|]. replace (b + 1 + Z.of_nat todo) with (b + Z.of_nat (S todo)) in G2 by lia.
  unfold BLOCKSIZE in *. replace (Z.max offset ((b + 1) * 4096)) with ((b + 1) * 4096) in G2 by lia.
  eapply got_trans; [|exact G1|exact G2]; lia.
Qed.

(** A read that starts inside the file or at its end returns the bytes of the
    file from the offset on, as many as asked for and there are, and changes
    nothing but the access time. *)
Theorem read_tmpfs_correct fa ram now t offset size buffer :
  inv fa ram t -> fits t -> 0 <= offset <= length_ t -> 0 <= size <= Z.of_nat (length buffer) ->
  offset + size < 2147483648 -> length_ t < 2147483648 ->
  let e := Z.min (offset + size) (length_ t) in
  exists buffer', read_tmpfs fa ram now t offset size buffer =
      Ret (e - offset, buffer', set_times t now (mtime t)) /\ got t ram buffer buffer' offset offset e.
Proof.
  intros Hinv Hfit Ho Hs Hlim Hll e. unfold read_tmpfs. cbv zeta.
  change (length_ (set_times t now (mtime t))) with (length_ t).
  rewrite (u32_small (length_ t)), (u32_small (offset + size)) by lia.
  assert ((if length_ t <? offset + size then length_ t else offset + size) = e) as ->
    by (destruct (Z.ltb_spec (length_ t) (offset + size)); lia).
  set (t0 := set_times t now (mtime t)). assert (inv fa ram t0) as Hinv0 by exact Hinv.
  assert (forall b1 b2 lo hi, got t0 ram b1 b2 offset lo hi -> got t ram b1 b2 offset lo hi) as Hgot by done.
  destruct (of_block offset) as (Hs0 & Hsb & Hsm); [lia|]. destruct (of_block e) as (He0 & Heb & Hem); [lia|].
  set (sb := offset / BLOCKSIZE) in *. set (eb := e / BLOCKSIZE) in *.
  unfold fits in Hfit. change (block_count t) with (block_count t0) in Hfit. unfold BLOCKSIZE in Hsb, Hsm, Heb, Hem, Hfit.
  rewrite (u32_small (e - offset)) by lia.
  destruct (Z.eqb_spec sb eb) as [E|Hne]; cbn [andb].
  - destruct (Z.eqb_spec offset e) as [Eo|Hoe].
    + exists buffer. split; [rewrite <- Eo; by rewrite Z.sub_diag|]. split; [done|]. intros p Hp.
      destruct (Z.leb_spec offset (offset + p)), (Z.ltb_spec (offset + p) e); simpl; done || lia.
    + destruct (read_chunk_ok fa ram t0 buffer offset sb (offset mod BLOCKSIZE) (e - offset) 0 Hinv0)
        as (b1 & -> & G); try (unfold BLOCKSIZE; lia).
      cbn [mbind outcome_bind]. exists b1. split; [done|]. rewrite Z.add_0_r in G.
      replace (offset + (e - offset)) with e in G by lia. by apply Hgot.
  - assert (sb < eb) by lia. rewrite Z.max_r by lia.
    destruct (read_blocks_ok fa ram t0 buffer offset (Z.to_nat (eb - sb)) sb Hinv0) as (b1 & Hrb & G1);
      fold sb; try (unfold BLOCKSIZE; lia).
    fold sb in Hrb. rewrite Z.sub_diag in Hrb. rewrite Hrb. cbn [mbind outcome_bind].
    replace (sb + Z.of_nat (Z.to_nat (eb - sb))) with eb in * by lia. unfold BLOCKSIZE in G1.
    replace (Z.max offset (sb * 4096)) with offset in G1 by lia.
    rewrite u32_small by (unfold BLOCKSIZE; lia). unfold truthy.
    destruct (Z.eqb_spec (e - eb * BLOCKSIZE) 0) as [E0|E0]; cbn [negb]; unfold BLOCKSIZE in E0.
    + exists b1. split; [done|]. apply Hgot. by replace e with (eb * 4096) by lia.
    + unfold sb. rewrite buffer_pos_eq by (fold sb; lia). unfold BLOCKSIZE in *.
      destruct (read_chunk_ok fa ram t0 b1 offset eb 0 (e - eb * 4096) (eb * 4096 - offset) Hinv0)
        as (b2 & -> & G2); try (unfold BLOCKSIZE; destruct G1; lia).
      cbn [mbind outcome_bind]. exists b2. split; [done|]. apply Hgot.
      replace (offset + (eb * 4096 - offset)) with (eb * 4096) in G2 by lia.
      replace (eb * 4096 + (e - eb * 4096)) with e in G2 by lia.
      eapply got_trans; [|exact G1|exact G2]; lia.
Qed.

(** A read that starts past the end of the file, in its last block, does not
    return 0: the size it computes is negative, so it copies almost 4 GB out of
    the block. *)
Theorem read_tmpfs_past_end fa ram now t offset size buffer :
  inv fa ram t -> fits t -> length_ t < offset -> offset + size < 2147483648 -> 0 <= size ->
  offset / BLOCKSIZE = length_ t / BLOCKSIZE ->
  read_tmpfs fa ram now t offset size buffer = Fault.
Proof.
  intros Hinv Hfit Ho Hlim Hs Hsb. unfold fits in Hfit. unfold read_tmpfs. cbv zeta.
  change (length_ (set_times t now (mtime t))) with (length_ t).
  rewrite (u32_small (length_ t)), (u32_small (offset + size)) by lia.
  destruct (Z.ltb_spec (length_ t) (offset + size)); [|lia]. rewrite Hsb, Z.eqb_refl. cbn [andb].
  destruct (Z.eqb_spec offset (length_ t)); [lia|]. set (t0 := set_times t now (mtime t)).
  assert (inv fa ram t0) as Hinv0 by exact Hinv. pose proof Hinv0 as (_ & _ & _ & _ & _ & _ & Hram).
  assert (u32 (length_ t - offset) = length_ t - offset + 4294967296) as ->.
  { unfold u32. symmetry. apply (Z.mod_unique _ _ (-1)); lia. }
  unfold read_chunk, tmpfs_file_getset_block.
  destruct (of_block (length_ t)) as (Hb0 & Hb & Hm); [lia|].
  set (b := length_ t / BLOCKSIZE) in *. unfold BLOCKSIZE in Hb, Hfit.
  destruct (Z.leb_spec (block_count t0) b) as [|Hlt]; [done|].
  destruct (blk_aget fa ram t0 b Hinv0) as [-> E]; [lia|]. cbn [mbind outcome_bind of_option]. rewrite E.
  unfold mem_read. rewrite Hram.
  destruct (Z.leb_spec 0 (offset mod BLOCKSIZE)), (Z.leb_spec 0 (length_ t - offset + 4294967296)),
    (Z.leb_spec (offset mod BLOCKSIZE + (length_ t - offset + 4294967296)) (Z.of_nat 4096)); cbn [andb]; try done.
  lia.
Qed.

End Blocks.
(** ** Directories *)

(** [parent] is never set by [tmpfs_dir_new]: it holds what [malloc] returned. *)
Record tmpfs_dir := Build_dir {
  d_name : cstring;
  d_mask : Z;
  d_uid : Z;
  d_gid : Z;
  d_atime : Z;
  d_mtime : Z;
  d_ctime : Z;
  files : list ptr;   (* the values of the list [d->files] *)
  parent : Z
}.

Inductive entry := File (t : tmpfs_file) | Dir (d : tmpfs_dir).
Abbreviation store_t := (gmap ptr entry).

Definition entry_name (e : entry) : cstring :=
  match e with File t => name t | Dir d => d_name d end.

Definition set_files (d : tmpfs_dir) (fs : list ptr) : tmpfs_dir :=
  Build_dir (d_name d) (d_mask d) (d_uid d) (d_gid d) (d_atime d) (d_mtime d) (d_ctime d) fs (parent d).

Definition tmpfs_dir_new (nm : cstring) (now junk : Z) : tmpfs_dir :=
  Build_dir (strdup nm) 0 0 0 now now now [] junk.

(** The [foreach] loops: position and address of the first entry of that name. *)
Fixpoint find_name (s : store_t) (fs : list ptr) (nm : cstring) (j : nat) : outcome (option (nat * ptr)) :=
  match fs with
  | [] => Ret None
  | p :: fs' =>
      e ← of_option (s !! p);
      if strcmp nm (entry_name e) =? 0 then Ret (Some (j, p)) else find_name s fs' nm (S j)
  end.

Definition get_dir (s : store_t) (d : ptr) : outcome tmpfs_dir :=
  match s !! d with Some (Dir dir) => Ret dir | _ => Fault end.

(** The part of [fs_node_t] these nodes set; [ops] stands for the function
    pointers: those of a file, of a link or of a directory. *)
Inductive node_ops := file_ops | link_ops | dir_ops.
Record fs_node := Build_node {
  n_name : cstring; n_device : ptr; n_mask : Z; n_uid : Z; n_gid : Z;
  n_atime : Z; n_mtime : Z; n_ctime : Z; n_flags : Z; n_length : Z; n_nlink : Z; ops : node_ops
}.

Definition FS_FILE : Z := 1.
Definition FS_DIRECTORY : Z := 2.
Definition FS_SYMLINK : Z := 0x20.

Definition tmpfs_from_file (p : ptr) (t : tmpfs_file) : fs_node :=
  Build_node (name t) p (mask t) (uid t) (gid t) (atime t) (mtime t) (ctime t) FS_FILE (u32 (length_ t)) 1 file_ops.
Definition tmpfs_from_link (p : ptr) (t : tmpfs_file) : fs_node :=
  let n := tmpfs_from_file p t in
  Build_node (n_name n) (n_device n) (n_mask n) (n_uid n) (n_gid n) (n_atime n) (n_mtime n) (n_ctime n)
    (Z.lor (n_flags n) FS_SYMLINK) (n_length n) (n_nlink n) link_ops.
Definition tmpfs_from_dir (p : ptr) (d : tmpfs_dir) : fs_node :=
  Build_node (cstr "tmp"%string) p (d_mask d) (d_uid d) (d_gid d) (d_atime d) (d_mtime d) (d_ctime d)
    FS_DIRECTORY 0 1 dir_ops.

(** The node of an entry, by its [type] field. *)
Definition node_of (p : ptr) (e : entry) : option fs_node :=
  match e with
  | File t => if type t =? TMPFS_TYPE_FILE then Some (tmpfs_from_file p t)
              else if type t =? TMPFS_TYPE_LINK then Some (tmpfs_from_link p t)
              else None
  | Dir d => Some (tmpfs_from_dir p d)
  end.

Definition finddir_tmpfs (s : store_t) (d : ptr) (nm : option cstring) : outcome (option fs_node) :=
  match nm with
  | None => Ret None
  | Some nm =>
      dir ← get_dir s d;
      r ← find_name s (files dir) nm 0;
      match r with
      | None => Ret None
      | Some (_, p) => e ← of_option (s !! p); Ret (node_of p e)
      end
  end.

(** The inode number, of type [unsigned short], and the name of a [dirent]. *)
Definition readdir_tmpfs (s : store_t) (d : ptr) (index : Z) : outcome (option (Z * cstring)) :=
  dir ← get_dir s d;
  if index =? 0 then Ret (Some (0, cstr "."%string))
  else if index =? 1 then Ret (Some (0, cstr ".."%string))
  else
    match files dir !! Z.to_nat (index - 2) with
    | None => Ret None
    | Some p => e ← of_option (s !! p); Ret (Some (u16 p, entry_name e))
    end.

Section Directories.
Context `{FrameAllocator} (malloc : store_t -> ptr) (now user junk : Z).

(** Adds a new entry to the directory unless the name is taken. *)
Definition add_entry (s : store_t) (d : ptr) (nm : cstring) (e : entry) : outcome store_t :=
  dir ← get_dir s d;
  r ← find_name s (files dir) nm 0;
  match r with
  | Some _ => Ret s
  | None =>
      let p := malloc s in
      Ret (<[d := Dir (set_files dir (Seq.insert (files dir) p))]> (<[p := e]> s))
  end.

Definition create_tmpfs (s : store_t) (d : ptr) (nm : option cstring) (permission : Z) : outcome store_t :=
  match nm with
  | None => Ret s
  | Some nm => add_entry s d nm (File (set_owner (tmpfs_file_new nm now) permission user user))
  end.

Definition mkdir_tmpfs (s : store_t) (d : ptr) (nm : option cstring) (permission : Z) : outcome store_t :=
  match nm with
  | None => Ret s
  | Some nm =>
      let out := tmpfs_dir_new nm now junk in
      add_entry s d nm (Dir (Build_dir (d_name out) permission user user (d_atime out) (d_mtime out)
                               (d_ctime out) (files out) (parent out)))
  end.

Definition symlink_tmpfs (s : store_t) (d : ptr) (tgt nm : cstring) : outcome store_t :=
  let t := tmpfs_file_new nm now in
  add_entry s d nm (File (Build_file (name t) TMPFS_TYPE_LINK (mask t) (uid t) (gid t) (atime t) (mtime t)
                            (ctime t) (length_ t) (block_count t) (pointers t) (blocks t) (strdup tgt))).

(** [tmpfs_file_free] takes every entry for a file: in a directory the field
    [parent] is where a file has [block_count], and [blocks] is past its end. *)
Definition free_entry (fa : falloc) (e : entry) : outcome falloc :=
  match e with
  | File t => tmpfs_file_free fa t
  | Dir d => if s32 (parent d) <=? 0 then Ret fa else Fault
  end.

Definition unlink_tmpfs (fa : falloc) (s : store_t) (d : ptr) (nm : cstring) : outcome (falloc * store_t) :=
  dir ← get_dir s d;
  r ← find_name s (files dir) nm 0;
  match r with
  | None => Ret (fa, s)
  | Some (i, p) =>
      e ← of_option (s !! p);
      fa ← free_entry fa e;
      Ret (fa, <[d := Dir (set_files dir (Seq.delete i (files dir)))]> (delete p s))
  end.

Definition tmpfs_create (s : store_t) (nm : cstring) : fs_node * store_t :=
  let p := malloc s in
  let d := tmpfs_dir_new nm now junk in
  let d := Build_dir (d_name d) 511 0 0 (d_atime d) (d_mtime d) (d_ctime d) (files d) (parent d) in
  (tmpfs_from_dir p d, <[p := Dir d]> s).

(** ** Specification: a directory is a finite map from names to entries *)

(** The entries of a directory exist, have different names and are not the
    directory itself. *)
Definition dir_ok (s : store_t) (d : ptr) : Prop :=
  exists dir es, get_dir s d = Ret dir /\ Forall2 (fun p e => s !! p = Some e) (files dir) es /\
    NoDup (entry_name <$> es) /\ Forall (fun e => cstring_ok (entry_name e)) es /\
    NoDup (files dir) /\ d ∉ files dir.

(** What the directory says about a name. *)
Definition lookup_entry (s : store_t) (d : ptr) (nm : cstring) : option ptr :=
  match get_dir s d with
  | Ret dir => match find_name s (files dir) nm 0 with Ret (Some (_, p)) => Some p | _ => None end
  | _ => None
  end.

Lemma find_name_spec s fs es nm j :
  Forall2 (fun p e => s !! p = Some e) fs es -> cstring_ok nm -> Forall (fun e => cstring_ok (entry_name e)) es ->
  (exists i p e, find_name s fs nm j = Ret (Some ((j + i)%nat, p)) /\ fs !! i = Some p /\ s !! p = Some e /\
     es !! i = Some e /\ entry_name e = nm) \/
  (find_name s fs nm j = Ret None /\ nm ∉ entry_name <$> es).
Proof.
  intros Hfs Hnm. revert j. induction Hfs as [|p e fs es Hp Hfs IH]; intros j Hok; cbn [find_name].
  { right. split; [done|]. apply not_elem_of_nil. }
  apply Forall_cons_1 in Hok as [He Hok]. rewrite Hp. cbn [mbind outcome_bind of_option].
  destruct (Z.eqb_spec (strcmp nm (entry_name e)) 0) as [E|E].
  - left. apply strcmp_zero in E; [|done|done]. exists 0%nat, p, e. by rewrite Nat.add_0_r.
  - destruct (IH (S j) Hok) as [(i & q & e' & -> & ?)|[-> Hn]]; [left|right].
    + exists (S i), q, e'. rewrite Nat.add_succ_r. done.
    + split; [done|]. rewrite fmap_cons, not_elem_of_cons. split; [|done].
      intros ->. by rewrite (proj2 (strcmp_zero _ _ He He)) in E.
Qed.

Lemma find_name_ext s s' fs nm j :
  (forall p, p ∈ fs -> entry_name <$> (s' !! p) = entry_name <$> (s !! p)) ->
  find_name s' fs nm j = find_name s fs nm j.
Proof.
  revert j. induction fs as [|p fs IH]; intros j Hs; cbn [find_name]; [done|].
  specialize (Hs p) as Hp. specialize (Hp (list_elem_of_here _ _)).
  destruct (s' !! p) as [e'|], (s !! p) as [e|]; csimpl in Hp; try done.
  injection Hp as Hp. cbn [mbind outcome_bind of_option]. rewrite Hp.
  destruct (strcmp nm (entry_name e) =? 0); [done|]. apply IH. intros q Hq. apply Hs. by right.
Qed.

(** The starting position only shifts the position found. *)
Lemma find_name_shift s fs nm j j' :
  match find_name s fs nm j with Ret (Some (_, p)) => Some p | _ => None end =
  match find_name s fs nm j' with Ret (Some (_, p)) => Some p | _ => None end.
Proof.
  revert j j'. induction fs as [|p fs IH]; intros j j'; cbn [find_name]; [done|].
  destruct (s !! p) as [e|]; cbn [mbind outcome_bind of_option]; [|done].
  destruct (strcmp nm (entry_name e) =? 0); [done|]. apply IH.
Qed.

Lemma find_name_app s fs1 fs2 nm j :
  find_name s fs1 nm j = Ret None -> find_name s (fs1 ++ fs2) nm j = find_name s fs2 nm (length fs1 + j).
Proof.
  revert j. induction fs1 as [|p fs1 IH]; intros j; cbn [find_name app length]; [done|].
  destruct (s !! p) as [e|]; cbn [mbind outcome_bind of_option]; [|done].
  destruct (strcmp nm (entry_name e) =? 0); [done|]. intros Hn. rewrite IH by done.
  f_equal. lia.
Qed.

Lemma find_name_app_some s fs1 fs2 nm j r :
  find_name s fs1 nm j = Ret (Some r) -> find_name s (fs1 ++ fs2) nm j = Ret (Some r).
Proof.
  revert j. induction fs1 as [|p fs1 IH]; intros j; cbn [find_name app]; [done|].
  destruct (s !! p) as [e|]; cbn [mbind outcome_bind of_option]; [|done].
  destruct (strcmp nm (entry_name e) =? 0); [done|]. apply IH.
Qed.

Lemma get_dir_insert_eq s d dir : get_dir (<[d := Dir dir]> s) d = Ret dir.
Proof. unfold get_dir. by rewrite lookup_insert_eq. Qed.

Lemma get_dir_Some s d dir : get_dir s d = Ret dir -> s !! d = Some (Dir dir).
Proof. unfold get_dir. destruct (s !! d) as [[]|]; congruence. Qed.

Lemma lookup_entry_find s d dir nm :
  get_dir s d = Ret dir ->
  lookup_entry s d nm =
    match find_name s (files dir) nm 0 with Ret (Some (_, p)) => Some p | _ => None end.
Proof. unfold lookup_entry. by intros ->. Qed.

Lemma add_entry_ok s d nm e :
  dir_ok s d -> cstring_ok nm -> entry_name e = nm -> s !! malloc s = None ->
  (is_Some (lookup_entry s d nm) -> add_entry s d nm e = Ret s) /\
  (lookup_entry s d nm = None ->
   exists s', add_entry s d nm e = Ret s' /\ dir_ok s' d /\ lookup_entry s' d nm = Some (malloc s) /\
     s' !! malloc s = Some e /\
     (forall nm', cstring_ok nm' -> nm' <> nm -> lookup_entry s' d nm' = lookup_entry s d nm') /\
     forall q, q <> malloc s -> q <> d -> s' !! q = s !! q).
Proof.
  intros (dir & es & Hdir & Hfs & Hnd & Hok & Hnf & Hd) Hnm He Hfresh.
  rewrite (lookup_entry_find s d dir nm Hdir). unfold add_entry. rewrite Hdir. cbn [mbind outcome_bind].
  destruct (find_name_spec s (files dir) es nm 0 Hfs Hnm Hok) as [(i & p & e' & -> & _)|[E Hnot]].
  { split; [done|]. done. }
  rewrite E. split; [intros []; done|]. intros _. cbn [mbind outcome_bind].
  set (p := malloc s) in *. set (s' := <[d := _]> _).
  assert (p <> d) as Hpd.
  { intros E'. apply get_dir_Some in Hdir. congruence. }
  assert (p ∉ files dir) as Hpf.
  { intros Hin. apply list_elem_of_lookup in Hin as [i Hi].
    destruct (Forall2_lookup_l _ _ _ _ _ Hfs Hi) as (? & _ & ?). congruence. }
  assert (forall q, q ∈ files dir -> s' !! q = s !! q) as Hkeep.
  { intros q Hq. unfold s'. rewrite !lookup_insert_ne; [done| |]; intros ->; done. }
  assert (s' !! p = Some e) as Hp by (unfold s'; by rewrite lookup_insert_ne, lookup_insert_eq).
  assert (get_dir s' d = Ret (set_files dir (Seq.insert (files dir) p))) as Hdir' by apply get_dir_insert_eq.
  assert (forall nm, find_name s' (files dir) nm 0 = find_name s (files dir) nm 0) as Hext.
  { intros nm'. apply find_name_ext. intros q Hq. by rewrite Hkeep. }
  exists s'. split; [done|]. split; [|split; [|split; [done|split]]].
  - exists (set_files dir (Seq.insert (files dir) p)), (es ++ [e]). split; [done|].
    cbn [files set_files]. unfold Seq.insert. split.
    { apply Forall2_app; [|by repeat constructor]. eapply Forall2_impl_in; [exact Hfs|].
      intros q e' Hq Hqe. by rewrite Hkeep. }
    rewrite fmap_app, !NoDup_app, Forall_app. csimpl. rewrite He.
    split; [split; [done|]; split; [|apply NoDup_singleton]; intros x Hx; rewrite list_elem_of_singleton; congruence|].
    split; [split; [done|]; by repeat constructor; rewrite He|].
    split; [split; [done|]; split; [|apply NoDup_singleton]; intros x Hx; rewrite list_elem_of_singleton; congruence|].
    rewrite elem_of_app, list_elem_of_singleton. intros [?|?]; congruence.
  - rewrite (lookup_entry_find s' d _ nm Hdir'). cbn [files set_files]. unfold Seq.insert.
    rewrite find_name_app by (by rewrite Hext). cbn [find_name]. rewrite Hp. cbn [mbind outcome_bind of_option].
    rewrite He, (proj2 (strcmp_zero nm nm Hnm Hnm)); done.
  - intros nm' Hnm' Hne. rewrite (lookup_entry_find s' d _ nm' Hdir'), (lookup_entry_find s d dir nm' Hdir).
    cbn [files set_files]. unfold Seq.insert.
    destruct (find_name_spec s (files dir) es nm' 0 Hfs Hnm' Hok) as [(i & q & e' & E' & _)|[E' _]].
    + rewrite E'. by rewrite (find_name_app_some s' _ _ _ _ (0 + i, q)%nat) by (by rewrite Hext).
    + rewrite E', find_name_app by (by rewrite Hext). cbn [find_name]. rewrite Hp.
      cbn [mbind outcome_bind of_option]. rewrite He.
      destruct (Z.eqb_spec (strcmp nm' nm) 0) as [Ez|]; [|done]. apply strcmp_zero in Ez; done.
  - intros q Hq1 Hq2. unfold s'. by rewrite !lookup_insert_ne.
Qed.

(** Creating a file in a directory that has no entry of that name makes
    [finddir] find an empty file with the given permissions and the caller as
    owner, keeps the directory well formed and every other name as it was;
    when the name is taken nothing changes. *)
Theorem create_tmpfs_finds s d nm permission :
  dir_ok s d -> cstring_ok nm -> s !! malloc s = None ->
  (is_Some (lookup_entry s d nm) -> create_tmpfs s d (Some nm) permission = Ret s) /\
  (lookup_entry s d nm = None ->
   exists s', create_tmpfs s d (Some nm) permission = Ret s' /\ dir_ok s' d /\
     finddir_tmpfs s' d (Some nm) =
       Ret (Some (Build_node nm (malloc s) permission user user now now now FS_FILE 0 1 file_ops)) /\
     (forall nm', cstring_ok nm' -> nm' <> nm -> lookup_entry s' d nm' = lookup_entry s d nm')).
Proof.
  intros Hd Hnm Hf. set (t := set_owner (tmpfs_file_new nm now) permission user user).
  destruct (add_entry_ok s d nm (File t) Hd Hnm eq_refl Hf) as [Hex Hnew].
  split; [done|]. intros Hnone. destruct (Hnew Hnone) as (s' & Eadd & Hd' & Hl & Hp & Ho & _).
  exists s'. split; [exact Eadd|]. split; [done|]. split; [|done].
  destruct Hd' as (dir & es & Hdir & Hfs & _ & Hok & _). unfold finddir_tmpfs. rewrite Hdir.
  rewrite (lookup_entry_find s' d dir nm Hdir) in Hl. cbn [mbind outcome_bind].
  destruct (find_name_spec s' (files dir) es nm 0 Hfs Hnm Hok) as [(i & p & e & E & _ & Hpe & _)|[E _]];
    rewrite E in *; [|done]. injection Hl as ->. cbn [mbind outcome_bind]. by rewrite Hp.
Qed.

(** Releasing a list of different frames in use. *)
Lemma free_blocks_ok fa bs n :
  fa_ok fa -> (n <= length bs)%nat -> NoDup (take n bs) ->
  (forall k, k ∈ take n bs -> 0 <= k /\ in_use fa k = true) ->
  exists fa', free_blocks fa bs n = Ret fa' /\ fa_ok fa' /\
    forall x, 0 <= x -> in_use fa' x = true <-> in_use fa x = true /\ x ∉ take n bs.
Proof using.
  clear malloc now user junk.
  revert fa bs. induction n as [|n IH]; intros fa bs Hfa Hl Hnd Hu.
  { exists fa. destruct bs; cbn; split; try done; (split; [done|]); intros; split; intros; try done;
      (split; [done|apply not_elem_of_nil]) || tauto. }
  destruct bs as [|b bs]; [simpl in Hl; lia|]. cbn [free_blocks take] in *.
  apply NoDup_cons in Hnd as [Hb Hnd].
  destruct (Hu b) as [Hb0 Hbu]; [left|].
  destruct (release_frame_ok fa b Hfa Hbu Hb0) as (fa1 & -> & Hfa1 & Hu1). cbn [mbind outcome_bind].
  destruct (IH fa1 bs Hfa1) as (fa' & -> & Hfa' & Hu'); [simpl in Hl; lia|done| |].
  { intros k Hk. destruct (Hu k) as [Hk0 Hku]; [by right|]. rewrite Hu1, Hku by done.
    destruct (Z.eqb_spec k b) as [->|]; done. }
  exists fa'. split; [done|]. split; [done|]. intros x Hx. rewrite Hu', Hu1, not_elem_of_cons by done.
  destruct (Z.eqb_spec x b) as [->|]; simpl; intuition congruence.
Qed.

(** The frames of a file. *)
Definition frames_of (t : tmpfs_file) : list Z := take (Z.to_nat (block_count t)) (blocks t).

Lemma file_free_ok fa ram t :
  inv fa ram t ->
  exists fa', tmpfs_file_free fa t = Ret fa' /\ fa_ok fa' /\
    forall x, 0 <= x -> in_use fa' x = true <-> in_use fa x = true /\ x ∉ frames_of t.
Proof.
  intros (Hfa & Hbc & Hp & Hl & Huse & Hinj & _). unfold tmpfs_file_free.
  assert (forall i k, frames_of t !! i = Some k -> 0 <= Z.of_nat i < block_count t /\ blk t (Z.of_nat i) = k) as Hblk.
  { intros i k Hi. apply lookup_take_Some in Hi as [Hi Hlt]. split; [lia|]. unfold blk. by rewrite Nat2Z.id, Hi. }
  apply free_blocks_ok; [done|lia| |].
  - apply NoDup_alt. intros i j k Hi Hj. apply Hblk in Hi as [Hi Hi'], Hj as [Hj Hj'].
    apply Nat2Z.inj. apply Hinj; congruence.
  - intros k Hk. apply list_elem_of_lookup in Hk as [i Hi]. apply Hblk in Hi as [Hi <-].
    destruct (Huse _ Hi). split; [lia|done].
Qed.

(** Leaving out an entry of another name does not change a lookup. *)
Lemma unlinked_lookup s s' f1 f2 p e nm es :
  (forall q, q ∈ f1 ++ f2 -> s' !! q = s !! q) -> s !! p = Some e ->
  cstring_ok nm -> cstring_ok (entry_name e) -> nm <> entry_name e ->
  Forall2 (fun p e => s !! p = Some e) f1 es -> Forall (fun e => cstring_ok (entry_name e)) es ->
  match find_name s' (f1 ++ f2) nm 0 with Ret (Some (_, p)) => Some p | _ => None end =
  match find_name s (f1 ++ p :: f2) nm 0 with Ret (Some (_, p)) => Some p | _ => None end.
Proof.
  intros Hkeep Hp Hnm Hen Hne Hf1 Hok.
  rewrite (find_name_ext s s' (f1 ++ f2)) by (intros q Hq; by rewrite Hkeep).
  destruct (find_name_spec s f1 es nm 0 Hf1 Hnm Hok) as [(i & q & e' & E & _)|[E _]].
  - by rewrite !(find_name_app_some s _ _ _ _ _ E).
  - rewrite !find_name_app by done. cbn [find_name]. rewrite Hp. cbn [mbind outcome_bind of_option].
    destruct (Z.eqb_spec (strcmp nm (entry_name e)) 0) as [Ez|]; [apply strcmp_zero in Ez; done|].
    apply find_name_shift.
Qed.

(** Unlinking a regular file removes the name, and only that name, from the
    directory, and gives exactly the frames of the file back. *)
Theorem unlink_tmpfs_removes fa ram s d nm p t :
  dir_ok s d -> cstring_ok nm -> lookup_entry s d nm = Some p -> s !! p = Some (File t) -> inv fa ram t ->
  exists fa' s', unlink_tmpfs fa s d nm = Ret (fa', s') /\ dir_ok s' d /\
    finddir_tmpfs s' d (Some nm) = Ret None /\
    (forall nm', cstring_ok nm' -> nm' <> nm -> lookup_entry s' d nm' = lookup_entry s d nm') /\
    (forall x, 0 <= x -> in_use fa' x = true <-> in_use fa x = true /\ x ∉ frames_of t).
Proof using.
  clear malloc now user junk.
  intros (dir & es & Hdir & Hfs & Hnd & Hok & Hnf & Hd) Hnm Hl Hp Hinv.
  rewrite (lookup_entry_find s d dir nm Hdir) in Hl. unfold unlink_tmpfs. rewrite Hdir. cbn [mbind outcome_bind].
  destruct (find_name_spec s (files dir) es nm 0 Hfs Hnm Hok) as [(i & q & e & E & Hi & Hq & Hei & Hen)|[E _]];
    rewrite E in *; [|done]. injection Hl as ->. rewrite Hp in Hq. injection Hq as <-.
  cbn [mbind outcome_bind]. rewrite Hp. cbn [mbind outcome_bind of_option free_entry].
  destruct (file_free_ok fa ram t Hinv) as (fa' & -> & Hfa' & Hu'). cbn [mbind outcome_bind Nat.add].
  set (s' := <[d := _]> _).
  assert (get_dir s' d = Ret (set_files dir (Seq.delete i (files dir)))) as Hdir' by apply get_dir_insert_eq.
  pose proof (take_drop_middle _ _ _ Hi) as Ef. pose proof (take_drop_middle _ _ _ Hei) as Ee.
  set (f1 := take i (files dir)) in *. set (f2 := drop (S i) (files dir)) in *.
  set (e1 := take i es) in *. set (e2 := drop (S i) es) in *.
  rewrite <- Ef in Hnf, Hd. rewrite <- Ee, fmap_app, fmap_cons in Hnd. rewrite <- Ee in Hok.
  assert (Forall2 (fun p e => s !! p = Some e) f1 e1 /\ Forall2 (fun p e => s !! p = Some e) f2 e2) as [Hf1 Hf2]
    by (split; [by apply Forall2_take|by apply Forall2_drop]).
  assert (forall q, q ∈ f1 ++ f2 -> s' !! q = s !! q) as Hkeep.
  { intros q Hq. unfold s'. rewrite lookup_insert_ne, lookup_delete_ne; [done| |]; intros ->; mem. }
  assert (Forall2 (fun p e => s' !! p = Some e) (f1 ++ f2) (e1 ++ e2)) as Hfs'.
  { eapply Forall2_impl_in; [by apply Forall2_app|]. intros q e Hq Hqe. simpl in Hqe. by rewrite Hkeep. }
  apply Forall_app in Hok as [Hok1 Hok2]. apply Forall_cons_1 in Hok2 as [Hoke Hok2].
  assert (Forall (fun e => cstring_ok (entry_name e)) (e1 ++ e2)) as Hok' by (by apply Forall_app).
  rewrite Hen in Hnd. rewrite NoDup_middle in Hnd. destruct Hnd as [Hnin Hnd]. rewrite <- fmap_app in Hnin, Hnd.
  assert (find_name s' (f1 ++ f2) nm 0 = Ret None) as Hgone.
  { destruct (find_name_spec s' (f1 ++ f2) (e1 ++ e2) nm 0 Hfs' Hnm Hok')
      as [(j & q & e & _ & _ & _ & Hj & Hje)|[? _]]; [|done].
    exfalso. apply Hnin. apply list_elem_of_fmap. exists e. split; [done|]. by eapply list_elem_of_lookup_2. }
  exists fa', s'. split; [done|]. split; [|split; [|split; [|done]]].
  - exists (set_files dir (f1 ++ f2)), (e1 ++ e2). split; [done|]. cbn [files set_files].
    split; [done|]. split; [done|]. split; [done|]. mem.
  - unfold finddir_tmpfs. rewrite Hdir'. cbn [mbind outcome_bind]. cbn [files set_files].
    unfold Seq.delete. fold f1 f2. by rewrite Hgone.
  - intros nm' Hnm' Hne. rewrite (lookup_entry_find s' d _ nm' Hdir'), (lookup_entry_find s d dir nm' Hdir).
    cbn [files set_files]. unfold Seq.delete. fold f1 f2. rewrite <- Ef.
    apply (unlinked_lookup s s' f1 f2 p (File t) nm' e1); [done|done|done|done|by rewrite Hen|done|done].
Qed.

End Directories.

(** ** Witnesses *)

Import FrameInstance.

(** A two-frame file of 5000 bytes, in frames 1 and 2. *)
Definition demo_file : tmpfs_file :=
  Build_file (cstr "a"%string) TMPFS_TYPE_FILE 420 0 0 0 0 0 5000 2 2 [1; 2] [].
Definition demo_fa : @falloc bitmap_allocator := Frames.demo.
Definition demo_ram : ram_t := fun f => replicate 4096 f.

Lemma demo_bounded : Frames.wf Frames.demo /\ bounded Frames.demo.
Proof.
  split; [exact Frames.demo_wf|]. intros k Hk. simpl in Hk.
  destruct (Z.lt_ge_cases k 128).
  - assert ((k <? 64) || negb (Frames.used Frames.demo k) = true) as E.
    { apply (forall_range (fun x => (x <? 64) || negb (Frames.used Frames.demo x)) 128); [done|lia]. }
    destruct (Z.ltb_spec k 64); [lia|]. by apply negb_true_iff.
  - unfold Frames.used. rewrite lookup_ge_None_2; [done|]. simpl.
    pose proof (Z.div_le_lower_bound k 32 4). lia.
Qed.

Lemma demo_file_inv : inv demo_fa demo_ram demo_file.
Proof.
  split; [exact demo_bounded|]. do 2 (split; [simpl; lia|]). split; [done|].
  assert (forall b, 0 <= b < 2 -> b = 0 \/ b = 1) as Hb by lia.
  split; [|split].
  - intros b [->| ->]%Hb; split; done.
  - intros b b' [->| ->]%Hb [->| ->]%Hb; done.
  - intros f. apply length_replicate.
Qed.

Lemma demo_fits : fits demo_file.
Proof. unfold fits, BLOCKSIZE. simpl. lia. Qed.

Lemma write_tmpfs_correct_witness :
  exists fa' ram' t', write_tmpfs (fun bs _ => bs) demo_fa demo_ram 9 demo_file 4995 8 (replicate 8 7) =
      Ret (8, fa', ram', t') /\ inv fa' ram' t' /\ fits t' /\ length_ t' = 5003 /\
    (forall i, 4995 <= i < 5003 -> byte t' ram' i = replicate 8 7 !! Z.to_nat (i - 4995)) /\
    (forall i, 0 <= i < 5000 -> ~ (4995 <= i < 5003) -> byte t' ram' i = byte demo_file demo_ram i).
Proof.
  apply (write_tmpfs_correct (fun bs _ => bs) demo_fa demo_ram 9 demo_file 4995 (replicate 8 7) demo_file_inv demo_fits);
    [lia|simpl; lia|simpl; lia|unfold BLOCKSIZE; simpl; lia|by vm_compute].
Defined.

Lemma read_tmpfs_correct_witness :
  exists buffer', read_tmpfs (fun bs _ => bs) demo_fa demo_ram 9 demo_file 4090 10 (replicate 10 0) =
    Ret (10, buffer', set_times demo_file 9 0) /\
    got demo_file demo_ram (replicate 10 0) buffer' 4090 4090 4100.
Proof.
  apply (read_tmpfs_correct (fun bs _ => bs) demo_fa demo_ram 9 demo_file 4090 10 (replicate 10 0) demo_file_inv demo_fits);
    simpl; lia.
Defined.

Lemma read_tmpfs_past_end_witness :
  read_tmpfs (fun bs _ => bs) demo_fa demo_ram 9 demo_file 5001 10 (replicate 10 0) = Fault.
Proof.
  apply (read_tmpfs_past_end (fun bs _ => bs) demo_fa demo_ram 9 demo_file 5001 10 (replicate 10 0) demo_file_inv demo_fits);
    [simpl; lia|lia|lia|reflexivity].
Defined.

(** A directory at address 16 with that file at address 17. *)
Definition demo_dir : tmpfs_dir := Build_dir (cstr "d"%string) 511 0 0 0 0 0 [17] 0.
Definition demo_store : store_t := {[ 16 := Dir demo_dir; 17 := File demo_file ]}.

Lemma demo_dir_ok : dir_ok demo_store 16.
Proof.
  exists demo_dir, [File demo_file]. split; [done|]. split; [by repeat constructor|].
  split; [apply NoDup_singleton|]. split; [|split; [apply NoDup_singleton|by_decide]].
  repeat constructor; unfold byte_ok; simpl; lia.
Qed.

Lemma cstr_b_ok : cstring_ok (cstr "b"%string).
Proof. repeat constructor; unfold byte_ok; simpl; lia. Qed.
Lemma cstr_a_ok : cstring_ok (cstr "a"%string).
Proof. repeat constructor; unfold byte_ok; simpl; lia. Qed.

Lemma create_tmpfs_finds_witness :
  exists s', create_tmpfs (fun _ => 18) 9 3 demo_store 16 (Some (cstr "b"%string)) 420 = Ret s' /\ dir_ok s' 16 /\
     finddir_tmpfs s' 16 (Some (cstr "b"%string)) =
       Ret (Some (Build_node (cstr "b"%string) 18 420 3 3 9 9 9 FS_FILE 0 1 file_ops)) /\
     (forall nm', cstring_ok nm' -> nm' <> cstr "b"%string ->
        lookup_entry s' 16 nm' = lookup_entry demo_store 16 nm').
Proof.
  apply (create_tmpfs_finds (fun _ => 18) 9 3 demo_store 16 (cstr "b"%string) 420 demo_dir_ok cstr_b_ok); reflexivity.
Defined.

Lemma unlink_tmpfs_removes_witness :
  exists fa' s', unlink_tmpfs demo_fa demo_store 16 (cstr "a"%string) = Ret (fa', s') /\ dir_ok s' 16 /\
    finddir_tmpfs s' 16 (Some (cstr "a"%string)) = Ret None /\
    (forall nm', cstring_ok nm' -> nm' <> cstr "a"%string ->
       lookup_entry s' 16 nm' = lookup_entry demo_store 16 nm') /\
    (forall x, 0 <= x -> in_use fa' x = true <->
       in_use demo_fa x = true /\ (x ∉ frames_of demo_file)).
Proof.
  apply (unlink_tmpfs_removes demo_fa demo_ram demo_store 16 (cstr "a"%string) 17 demo_file
           demo_dir_ok cstr_a_ok); [reflexivity|reflexivity|exact demo_file_inv].
Defined.

End Tmpfs.
