(* ===== verification/Vfs.v ===== *)
(** * Paths, mount points and opening files ([kernel/src/fs/vfs.c])

    Module [Path] is the path canonicalizer.  Module [Vfs] is the mount tree
    (whose nodes are those of [kernel/src/tree.c]), the dispatch through the
    function pointers of [fs_node_t], reference counts, and [kopen_recur].  The
    function pointers are the interface [Vnode]: a file system provides nodes,
    and [world] is the state its operations read and change. *)

From stdpp Require Import base gmap numbers strings list.
From S2P Require Import Prelude CString LinkedList Hashmap.

Module Path.

Definition PATH_SEPARATOR : Z := 47.
Definition PATH_UP : cstring := [46; 46].
Definition PATH_DOT : cstring := [46].

(** The second tokenizing loop; [out] is the list used as a stack. *)
Fixpoint resolve (toks out : list cstring) : list cstring :=
  match toks with
  | [] => out
  | pch :: toks' =>
      if strcmp pch PATH_UP =? 0 then resolve toks' (take (Nat.pred (length out)) out)
      else if strcmp pch PATH_DOT =? 0 then resolve toks' out
      else resolve toks' (out ++ [pch])
  end.

Definition path_size (out : list cstring) : Z := foldr (fun s n => strlen s + 1 + n) 0 out.

Definition canonicalize_path (cwd input : cstring) : cstring :=
  let out := if (0 <? strlen input) && negb (default 0 (head input) =? PATH_SEPARATOR)
             then tokenize cwd PATH_SEPARATOR else [] in
  let out := resolve (tokenize input PATH_SEPARATOR) out in
  if path_size out =? 0 then [PATH_SEPARATOR] else join PATH_SEPARATOR out.

(** ** Specification *)

(** A path component that names an entry of its directory. *)
Definition component_ok (t : cstring) : Prop :=
  token_ok PATH_SEPARATOR t /\ t <> PATH_UP /\ t <> PATH_DOT.

Definition path_string (comps : list cstring) : cstring :=
  match comps with [] => [PATH_SEPARATOR] | _ => join PATH_SEPARATOR comps end.

Lemma up_ok : cstring_ok PATH_UP.
Proof. repeat constructor; unfold byte_ok; lia. Qed.
Lemma dot_ok : cstring_ok PATH_DOT.
Proof. repeat constructor; unfold byte_ok; lia. Qed.

Lemma resolve_ok toks out :
  Forall cstring_ok toks -> Forall (token_ok PATH_SEPARATOR) toks -> Forall component_ok out ->
  Forall component_ok (resolve toks out).
Proof.
  revert out. induction toks as [|t toks IH]; intros out Hs Ht Ho; cbn [resolve]; [done|].
  apply Forall_cons_1 in Hs as [Hs1 Hs]. apply Forall_cons_1 in Ht as [Ht1 Ht].
  destruct (Z.eqb_spec (strcmp t PATH_UP) 0) as [E|E]; [apply IH; try done; by apply Forall_take|].
  destruct (Z.eqb_spec (strcmp t PATH_DOT) 0) as [E'|E']; [by apply IH|].
  apply IH; [done|done|]. apply Forall_app. split; [done|]. constructor; [|done].
  rewrite (strcmp_zero t _ Hs1 up_ok) in E. rewrite (strcmp_zero t _ Hs1 dot_ok) in E'. done.
Qed.

Lemma resolve_app toks1 toks2 out : resolve (toks1 ++ toks2) out = resolve toks2 (resolve toks1 out).
Proof.
  revert out. induction toks1 as [|t toks1 IH]; intros out; cbn [resolve app]; [done|].
  destruct (strcmp t PATH_UP =? 0); [apply IH|]. destruct (strcmp t PATH_DOT =? 0); apply IH.
Qed.

(** Components that are not [.] or [..] are pushed one by one. *)
Lemma resolve_components toks out :
  Forall cstring_ok toks -> Forall component_ok toks -> resolve toks out = out ++ toks.
Proof.
  revert out. induction toks as [|t toks IH]; intros out Hs Ht; cbn [resolve]; [by rewrite app_nil_r|].
  apply Forall_cons_1 in Hs as [Hs1 Hs]. apply Forall_cons_1 in Ht as [(_ & Hu & Hd) Ht].
  rewrite <- (strcmp_zero t _ Hs1 up_ok) in Hu. rewrite <- (strcmp_zero t _ Hs1 dot_ok) in Hd.
  destruct (Z.eqb_spec (strcmp t PATH_UP) 0); [done|]. destruct (Z.eqb_spec (strcmp t PATH_DOT) 0); [done|].
  rewrite IH by done. by rewrite <- app_assoc.
Qed.

Lemma resolve_cstring_ok toks out :
  Forall cstring_ok toks -> Forall cstring_ok out -> Forall cstring_ok (resolve toks out).
Proof.
  revert out. induction toks as [|t toks IH]; intros out Ht Ho; cbn [resolve]; [done|].
  apply Forall_cons_1 in Ht as [Ht1 Ht].
  destruct (strcmp t PATH_UP =? 0); [apply IH; [done|by apply Forall_take]|].
  destruct (strcmp t PATH_DOT =? 0); [by apply IH|]. apply IH; [done|]. apply Forall_app. by repeat constructor.
Qed.

Lemma path_size_zero out : path_size out = 0 <-> out = [].
Proof.
  split; [|by intros ->]. destruct out as [|s out]; [done|]. unfold path_size, strlen. simpl.
  assert (0 <= foldr (fun s n => Z.of_nat (length s) + 1 + n) 0 out) by (clear; induction out; simpl; lia). lia.
Qed.

Lemma canonicalize_path_string cwd input :
  canonicalize_path cwd input =
  path_string (resolve (tokenize input PATH_SEPARATOR)
    (if (0 <? strlen input) && negb (default 0 (head input) =? PATH_SEPARATOR)
     then tokenize cwd PATH_SEPARATOR else [])).
Proof.
  unfold canonicalize_path. set (out := resolve _ _).
  destruct (Z.eqb_spec (path_size out) 0) as [E|E].
  - by rewrite path_size_zero in E; rewrite E.
  - rewrite path_size_zero in E. by destruct out.
Qed.

Lemma tokenize_path_string comps :
  Forall component_ok comps -> tokenize (path_string comps) PATH_SEPARATOR = comps.
Proof.
  intros Hc. destruct comps as [|c comps]; [done|]. unfold path_string, tokenize.
  apply strtok_loop_join; [|lia]. eapply Forall_impl; [exact Hc|]. by intros ? [].
Qed.

Lemma path_string_absolute comps : exists p, path_string comps = PATH_SEPARATOR :: p.
Proof. destruct comps as [|c comps]; simpl; eauto. Qed.

(** From a working directory without [.] and [..], a path is turned into an
    absolute one whose components are none of [.], [..] and the empty name, and
    doing it again, from anywhere, changes nothing. *)
Theorem canonicalize_path_clean cwd input cwd' :
  cstring_ok cwd -> cstring_ok input -> Forall component_ok (tokenize cwd PATH_SEPARATOR) ->
  exists comps, canonicalize_path cwd input = path_string comps /\ Forall component_ok comps /\
    canonicalize_path cwd' (path_string comps) = path_string comps.
Proof.
  intros Hcwd Hin Hclean. rewrite canonicalize_path_string. eexists. split; [done|].
  set (comps := resolve _ _).
  assert (Forall component_ok comps) as Hok.
  { apply resolve_ok; [by apply tokenize_cstring_ok|apply tokenize_ok|]. by destruct (_ && _). }
  assert (Forall cstring_ok comps) as Hs.
  { apply resolve_cstring_ok; [by apply tokenize_cstring_ok|].
    destruct (_ && _); [by apply tokenize_cstring_ok|constructor]. }
  split; [done|]. rewrite canonicalize_path_string, tokenize_path_string by done.
  destruct (path_string_absolute comps) as [p Hp]. rewrite Hp. cbn [head default]. rewrite Z.eqb_refl.
  cbn [negb]. rewrite andb_false_r, resolve_components by done. done.
Qed.

Lemma canonicalize_path_clean_witness :
  exists comps, canonicalize_path (cstr "/home/me"%string) (cstr "../you/./a//b/.."%string) = path_string comps /\
    Forall component_ok comps /\ canonicalize_path (cstr "/tmp"%string) (path_string comps) = path_string comps.
Proof.
  apply (canonicalize_path_clean (cstr "/home/me"%string) (cstr "../you/./a//b/.."%string) (cstr "/tmp"%string)).
  - repeat constructor; unfold byte_ok; simpl; lia.
  - repeat constructor; unfold byte_ok; simpl; lia.
  - repeat constructor; try done; by_decide.
Defined.

Example canonicalize_example :
  canonicalize_path (cstr "/home/me"%string) (cstr "../you/./a//b/.."%string) = cstr "/home/you/a"%string.
Proof. reflexivity. Qed.

End Path.

(** ** The interface of file system nodes *)

(** [fs_node_t] as the VFS sees it; a missing function pointer is [None]. *)
Class Vnode := {
  vnode : Type;
  world : Type;
  flags : vnode -> Z;
  mask : vnode -> Z;
  uid : vnode -> Z;
  refcount : vnode -> Z;
  set_refcount : vnode -> Z -> vnode;
  finddir : vnode -> option (world -> cstring -> option vnode);
  readlink : vnode -> option (world -> Z -> list Z * Z);
  open : vnode -> option (world -> Z -> world);
  close : vnode -> option (world -> world);
  create : vnode -> option (world -> cstring -> Z -> world);
  mkdir : vnode -> option (world -> cstring -> Z -> world);
  unlink : vnode -> option (world -> cstring -> world);
  symlink : vnode -> option (world -> cstring -> cstring -> world);
  refcount_set n r : refcount (set_refcount n r) = r;
  flags_set n r : flags (set_refcount n r) = flags n
}.

Module Vfs.
Import Path.

Definition MAX_SYMLINK_DEPTH : Z := 8.
Definition MAX_SYMLINK_SIZE : Z := 4096.
Definition FS_DIRECTORY : Z := 2.
Definition FS_SYMLINK : Z := 0x20.
Definition O_NOFOLLOW : Z := 0x1000.
Definition O_PATH : Z := 0x2000.
Definition EACCES : Z := 13.
Definition EEXIST : Z := 17.
Definition ENODEV : Z := 19.
Definition EINVAL : Z := 22.

Section Nodes.
Context `{Vnode}.

(** [None] is a null node. *)
Definition has_permission (node : option vnode) (user permission_bit : Z) : Z :=
  match node with
  | None => 0
  | Some n =>
      if user =? 0 then 1
      else
        let permissions := u32 (mask n) in
        let user_perm := Z.land (Z.shiftr permissions 6) 7 in
        let other_perm := Z.land permissions 7 in
        if user =? uid n then Z.land permission_bit user_perm else Z.land permission_bit other_perm
  end.

Definition vfs_lock (n : vnode) : vnode := set_refcount n (-1).

Definition open_fs (n : vnode) (fl : Z) (w : world) : vnode * world :=
  let n := if 0 <=? refcount n then set_refcount n (refcount n + 1) else n in
  (n, match open n with Some f => f w fl | None => w end).

(** The third component says whether the node was freed. *)
Definition close_fs (n : vnode) (w : world) : vnode * world * bool :=
  if refcount n =? -1 then (n, w, false)
  else
    let n := set_refcount n (refcount n - 1) in
    if refcount n =? 0 then (n, match close n with Some f => f w | None => w end, true)
    else (n, w, false).

Definition clone_fs (n : vnode) : vnode :=
  if 0 <=? refcount n then set_refcount n (refcount n + 1) else n.

Definition finddir_fs (n : vnode) (w : world) (nm : cstring) : option vnode :=
  if truthy (Z.land (flags n) FS_DIRECTORY)
  then match finddir n with Some f => f w nm | None => None end
  else None.

(** The buffer and the value returned. *)
Definition readlink_fs (n : vnode) (w : world) (size : Z) : list Z * Z :=
  match readlink n with Some f => f w size | None => ([], -1) end.

(** ** The mount tree *)

Record vfs_entry := Build_entry {
  e_name : cstring;
  e_file : option vnode;
  e_device : option cstring;
  e_type : option cstring
}.

(** A [tree_node_t]: its value and its children, in list order. *)
Inductive tree := TNode (value : vfs_entry) (children : list tree).

Definition value (t : tree) : vfs_entry := let '(TNode v _) := t in v.
Definition children (t : tree) : list tree := let '(TNode _ cs) := t in cs.

Record vfs := Build_vfs { fs_tree : option tree; fs_root : option vnode }.

Definition vfs_install : vfs :=
  Build_vfs (Some (TNode (Build_entry (cstr "[root]"%string) None None None) [])) None.

(** The [foreach] over the children: the first one of that name. *)
Fixpoint find_child (cs : list tree) (at_ : cstring) : option (nat * tree) :=
  match cs with
  | [] => None
  | c :: cs' =>
      if strcmp (e_name (value c)) at_ =? 0 then Some (O, c)
      else match find_child cs' at_ with Some (i, t) => Some (S i, t) | None => None end
  end.

(** The names of a path whose separators became NULs, as [vfs_mount] steps over
    them: up to the end of the path. *)
Fixpoint chop (fuel : nat) (at_ : cstring) : list cstring :=
  match fuel, at_ with
  | S fuel', _ :: _ =>
      match cut_delim PATH_SEPARATOR at_ with
      | (tok, Some rest) => tok :: chop fuel' rest
      | (tok, None) => [tok]
      end
  | _, _ => []
  end.

(** Walks down the path, making the nodes that are missing, and updates the
    entry at its end. *)
Fixpoint update_at (ts : list cstring) (f : vfs_entry -> vfs_entry) (t : tree) : tree :=
  match ts with
  | [] => TNode (f (value t)) (children t)
  | at_ :: ts' =>
      match find_child (children t) at_ with
      | Some (i, c) => TNode (value t) (<[i := update_at ts' f c]> (children t))
      | None =>
          TNode (value t) (children t ++
            [update_at ts' f (TNode (Build_entry (strdup at_) None None None) [])])
      end
  end.

Definition set_file (n : vnode) (e : vfs_entry) : vfs_entry :=
  Build_entry (e_name e) (Some n) (e_device e) (e_type e).

(** Returns the names of the node mounted on, [None] for a null result. *)
Definition vfs_mount (v : vfs) (path : cstring) (local_root : vnode) : vfs * option (list cstring) :=
  match fs_tree v with
  | None => (v, None)
  | Some t =>
      match path with
      | c :: i =>
          if c =? PATH_SEPARATOR then
            let local_root := set_refcount local_root (-1) in
            if match i with [] => true | c' :: _ => c' =? PATH_SEPARATOR end
            then (Build_vfs (Some (update_at [] (set_file local_root) t)) (Some local_root), Some [])
            else
              let ts := chop (length i) i in
              (Build_vfs (Some (update_at ts (set_file local_root) t)) (fs_root v), Some ts)
          else (v, None)
      | [] => (v, None)
      end
  end.

(** The loop of [get_mount_point] over the names still to look up. *)
Fixpoint mount_walk (t : tree) (at_ : list cstring) (depth : Z) (last : option vnode)
    (outpath : list cstring) (tree_depth : Z) : option vnode * list cstring * Z :=
  match at_ with
  | [] => (last, outpath, tree_depth)
  | nm :: at' =>
      match find_child (children t) nm with
      | None => (last, outpath, tree_depth)
      | Some (_, c) =>
          match e_file (value c) with
          | Some f => mount_walk c at' (depth + 1) (Some f) at' depth
          | None => mount_walk c at' (depth + 1) last outpath tree_depth
          end
      end
  end.

(** The node (a copy), the names left and the number of names consumed. *)
Definition get_mount_point (v : vfs) (ts : list cstring) : outcome (option vnode * list cstring * Z) :=
  t ← of_option (fs_tree v);
  Ret (mount_walk t ts 1 (fs_root v) ts 0).

(** ** Opening a path *)

(** The strings between the separators, the empty ones too. *)
Fixpoint split (fuel : nat) (s : cstring) : list cstring :=
  match fuel with
  | O => [s]
  | S fuel' =>
      match cut_delim PATH_SEPARATOR s with
      | (tok, Some rest) => tok :: split fuel' rest
      | (tok, None) => [tok]
      end
  end.

Definition count_separators (s : cstring) : Z :=
  Z.of_nat (length (filter (fun c => c = PATH_SEPARATOR) s)).

(** The first [depth] NULs of the path are separators again. *)
Definition rebuild (segs : list cstring) (depth : Z) : cstring :=
  match take (S (Z.to_nat depth)) segs with
  | [] => []
  | s :: ss => s ++ join PATH_SEPARATOR ss
  end.

Definition up_to_nul (buf : list Z) : cstring := (cut_delim 0 buf).1.

Section Open.
Context (v : vfs).

(** The file system state and the static variable [first]. *)
Record kstate := Build_kstate { w : world; first : Z }.

Definition set_w (s : kstate) (x : world) : kstate := Build_kstate x (first s).

(** The search below the mount point; [rec] opens the target of a link found in
    a directory. *)
Fixpoint walk (rec : cstring -> cstring -> kstate -> outcome (option vnode * kstate))
    (fl symlink_depth path_depth : Z) (segs : list cstring)
    (node_ptr : vnode) (path_offset : list cstring) (depth : Z) (s : kstate)
    {struct path_offset} : outcome (option vnode * kstate) :=
  if depth <? path_depth then
    match path_offset with
    | [] => Fault
    | nm :: path_offset' =>
        match finddir_fs node_ptr (w s) nm with
        | None => Ret (None, s)
        | Some n =>
            let leaf := depth =? path_depth - 1 in
            let nofollow := truthy (Z.land fl O_NOFOLLOW) in
            r ← (if truthy (Z.land (flags n) FS_SYMLINK) &&
                    negb (nofollow && truthy (Z.land fl O_PATH) && leaf) then
                   if nofollow && leaf then Ret (None, s)
                   else if MAX_SYMLINK_DEPTH <=? symlink_depth then Ret (None, s)
                   else
                     let '(buf, len) := readlink_fs n (w s) MAX_SYMLINK_SIZE in
                     if len <? 0 then Ret (None, s)
                     else
                       c ← aget buf len;
                       if negb (c =? 0) then Ret (None, s)
                       else rec (up_to_nul buf) (rebuild segs depth) s
                 else Ret (Some n, s));
            match r with
            | (None, s) => Ret (None, s)
            | (Some n, s) =>
                if leaf then
                  let '(n, x) := open_fs n fl (w s) in Ret (Some n, set_w s x)
                else walk rec fl symlink_depth path_depth segs n path_offset' (depth + 1) s
            end
        end
    end
  else Ret (None, s).

Fixpoint kopen_recur (fuel : nat) (filename : cstring) (fl symlink_depth : Z) (relative_to : cstring)
    (s : kstate) : outcome (option vnode * kstate) :=
  match fuel with
  | O => OutOfFuel
  | S fuel' =>
      let path := if first s =? 1 then filename else canonicalize_path relative_to filename in
      let s := Build_kstate (w s) (if first s =? 1 then 0 else first s) in
      if strlen path =? 1 then
        root ← of_option (fs_root v);
        let '(n, x) := open_fs root fl (w s) in Ret (Some n, set_w s x)
      else
        let toks := match path with [] => [] | _ :: r => split (length r) r end in
        '(node_ptr, path_offset, depth) ← get_mount_point v toks;
        match node_ptr with
        | None => Ret (None, s)
        | Some n =>
            match path_offset with
            | [] | [[]] => let '(n, x) := open_fs n fl (w s) in Ret (Some n, set_w s x)
            | _ =>
                walk (fun f rel s => kopen_recur fuel' f 0 (symlink_depth + 1) rel s)
                  fl symlink_depth (count_separators path) (split (length path) path)
                  n path_offset depth s
            end
        end
  end.

(** Links are followed [MAX_SYMLINK_DEPTH] deep, so nine calls are enough. *)
Definition kopen_fuel : nat := 9.
Definition kopen2 (wd_name filename : cstring) (fl : Z) (s : kstate) : outcome (option vnode * kstate) :=
  kopen_recur kopen_fuel filename fl 0 wd_name s.

(** ** Creating and removing entries by path *)

Definition slash_up : cstring := PATH_SEPARATOR :: PATH_UP.

(** The pointer that moves back from the last character to just after a
    separator, or to the start of the path. *)
Definition back_to_separator (path : cstring) : cstring :=
  match path with
  | [] => []
  | c :: r =>
      match rev (split (length r) r) with
      | nm :: _ :: _ => nm
      | _ => path
      end
  end.

Definition f_path (path : cstring) : cstring := skip_delim PATH_SEPARATOR (back_to_separator path).

Definition create_file_fs (user : Z) (wd_name name : cstring) (permission : Z) (s : kstate)
  : outcome (Z * kstate) :=
  let path := canonicalize_path wd_name name in
  '(parent, s) ← kopen2 wd_name (path ++ slash_up) 0 s;
  match parent with
  | None => Ret (-1, s)
  | Some n =>
      if negb (truthy (has_permission (Some n) user 2)) then Ret (- EACCES, s)
      else Ret (0, match create n with Some f => set_w s (f (w s) (f_path path) permission) | None => s end)
  end.

Definition unlink_fs (wd_name name : cstring) (s : kstate) : outcome (Z * kstate) :=
  let path := canonicalize_path wd_name name in
  '(parent, s) ← kopen2 wd_name (path ++ slash_up) 0 s;
  match parent with
  | None => Ret (-1, s)
  | Some n => Ret (0, match unlink n with Some f => set_w s (f (w s) (f_path path)) | None => s end)
  end.

Definition mkdir_fs (wd_name name : cstring) (permission : Z) (s : kstate) : outcome (Z * kstate) :=
  let path := canonicalize_path wd_name name in
  '(this, s) ← kopen2 wd_name path 0 s;
  '(parent, s) ← kopen2 wd_name (path ++ slash_up) 0 s;
  let exists_ := match this with Some _ => true | None => false end in
  match parent with
  | None => Ret (if exists_ then - EEXIST else -1, s)
  | Some n =>
      let s := match mkdir n with Some f => set_w s (f (w s) (f_path path) permission) | None => s end in
      let '(_, x, _) := close_fs n (w s) in
      Ret (if exists_ then - EEXIST else 0, set_w s x)
  end.

(** The separators before the name are not skipped here. *)
Definition symlink_fs (wd_name target name : cstring) (s : kstate) : outcome (Z * kstate) :=
  let path := canonicalize_path wd_name name in
  '(parent, s) ← kopen2 wd_name (path ++ slash_up) 0 s;
  match parent with
  | None => Ret (-1, s)
  | Some n =>
      let s := match symlink n with
               | Some f => set_w s (f (w s) target (back_to_separator path))
               | None => s
               end in
      let '(_, x, _) := close_fs n (w s) in
      Ret (0, set_w s x)
  end.

End Open.

(** ** File system types *)

#[local] Existing Instance Hashmap.string_hash.

Definition vfs_register (types : @Hashmap.hashmap_t cstring) (name : cstring) (callback : ptr)
  : outcome (@Hashmap.hashmap_t cstring * Z) :=
  t ← Hashmap.hashmap_get types name;
  if truthy t then Ret (types, 1)
  else '(types, _) ← Hashmap.hashmap_set types name callback; Ret (types, 0).

(** [call] runs the callback at an address; the type and the device recorded
    are always those of the root disk. *)
Definition vfs_mount_type (types : @Hashmap.hashmap_t cstring)
    (call : ptr -> cstring -> cstring -> option vnode) (v : vfs) (type mountpoint : cstring)
  : outcome (vfs * Z) :=
  t ← Hashmap.hashmap_get types type;
  if negb (truthy t) then Ret (v, - ENODEV)
  else
    match call t (cstr "ext2"%string) mountpoint with
    | None => Ret (v, - EINVAL)
    | Some n =>
        match vfs_mount v mountpoint n with
        | (Build_vfs (Some t) root, Some ts) =>
            Ret (Build_vfs (Some (update_at ts (fun e =>
                   Build_entry (e_name e) (e_file e) (Some (cstr "/dev/hda"%string)) (Some (cstr "ext2"%string))) t)) root, 0)
        | (v', _) => Ret (v', 0)
        end
    end.

(** ** Specification of the mount tree: a map from lists of names *)

Fixpoint mounted (t : tree) (ts : list cstring) : option vnode :=
  match ts with
  | [] => e_file (value t)
  | nm :: ts' => match find_child (children t) nm with Some (_, c) => mounted c ts' | None => None end
  end.

Fixpoint names_ok (t : tree) : Prop :=
  let '(TNode _ cs) := t in
  (fix all cs := match cs with [] => True | c :: cs' => (cstring_ok (e_name (value c)) /\ names_ok c) /\ all cs' end) cs.

Lemma names_ok_children v cs : names_ok (TNode v cs) <-> Forall (fun c => cstring_ok (e_name (value c)) /\ names_ok c) cs.
Proof.
  simpl. induction cs as [|c cs IH]; [split; [constructor|done]|].
  split; [intros [H1 H2]; constructor; [done|by apply IH]|].
  intros Hc. apply Forall_cons_1 in Hc as [? ?]. split; [done|by apply IH].
Qed.

Lemma find_child_Some cs nm i c :
  find_child cs nm = Some (i, c) -> cs !! i = Some c /\ strcmp (e_name (value c)) nm = 0 /\
    forall j c', (j < i)%nat -> cs !! j = Some c' -> strcmp (e_name (value c')) nm <> 0.
Proof.
  revert i. induction cs as [|c0 cs IH]; intros i; simpl; [done|].
  destruct (Z.eqb_spec (strcmp (e_name (value c0)) nm) 0) as [E|E].
  - intros [= <- <-]. split; [done|]. split; [done|]. intros; lia.
  - destruct (find_child cs nm) as [[i' c']|]; [|done]. intros [= <- <-].
    destruct (IH i' eq_refl) as (? & ? & Hlt). split; [done|]. split; [done|].
    intros [|j] c1 Hj; simpl; [congruence|]. apply Hlt. lia.
Qed.

(** Replacing a child by one of the same name, and adding one at the end. *)
Lemma find_child_insert cs i c c' nm :
  cs !! i = Some c -> e_name (value c') = e_name (value c) ->
  find_child (<[i := c']> cs) nm =
    match find_child cs nm with
    | Some (j, c1) => Some (j, if decide (j = i) then c' else c1)
    | None => None
    end.
Proof.
  revert i. induction cs as [|c0 cs IH]; intros i Hi En; [done|]. destruct i as [|i]; simpl in *.
  - injection Hi as ->. rewrite En. destruct (strcmp (e_name (value c)) nm =? 0); [done|].
    destruct (find_child cs nm) as [[j c1]|]; done.
  - destruct (strcmp (e_name (value c0)) nm =? 0); [done|]. rewrite IH by done.
    destruct (find_child cs nm) as [[j c1]|]; [|done]. do 2 f_equal.
    destruct (decide (j = i)), (decide (S j = S i)); done || congruence || lia.
Qed.

Lemma find_child_app cs c nm :
  find_child (cs ++ [c]) nm =
    match find_child cs nm with
    | Some r => Some r
    | None => if strcmp (e_name (value c)) nm =? 0 then Some (length cs, c) else None
    end.
Proof.
  induction cs as [|c0 cs IH]; simpl; [done|]. destruct (strcmp (e_name (value c0)) nm =? 0); [done|].
  rewrite IH. destruct (find_child cs nm) as [[j c1]|]; [done|]. by destruct (strcmp (e_name (value c)) nm =? 0).
Qed.

Definition keeps_name (f : vfs_entry -> vfs_entry) : Prop := forall e, e_name (f e) = e_name e.

Lemma update_at_name ts f t : keeps_name f -> e_name (value (update_at ts f t)) = e_name (value t).
Proof. intros Hf. destruct ts as [|nm ts]; simpl; [apply Hf|]. by destruct (find_child _ _) as [[i c]|]. Qed.

Lemma update_at_ok ts f t :
  keeps_name f -> Forall cstring_ok ts -> names_ok t -> names_ok (update_at ts f t).
Proof.
  intros Hf. revert t. induction ts as [|nm ts IH]; intros [v cs] Hts Ht; [done|].
  apply Forall_cons_1 in Hts as [Hnm Hts]. cbn [update_at children value]. rewrite names_ok_children in Ht.
  destruct (find_child cs nm) as [[i c]|] eqn:E; apply names_ok_children.
  - apply find_child_Some in E as (Hi & _). destruct (Forall_lookup_1 _ _ _ _ Ht Hi) as [Hc1 Hc2].
    apply Forall_insert; [done|]. rewrite update_at_name by done. auto.
  - apply Forall_app. split; [done|]. constructor; [|done]. rewrite update_at_name by done.
    split; [done|]. by apply IH.
Qed.

Lemma find_child_name cs nm i c :
  Forall (fun c => cstring_ok (e_name (value c)) /\ names_ok c) cs -> cstring_ok nm ->
  find_child cs nm = Some (i, c) -> cs !! i = Some c /\ e_name (value c) = nm /\ names_ok c.
Proof.
  intros Hcs Hnm (Hi & Hs & _)%find_child_Some. destruct (Forall_lookup_1 _ _ _ _ Hcs Hi) as [Hn Hc].
  split; [done|]. split; [|done]. by apply strcmp_zero in Hs.
Qed.

Lemma mounted_leaf e ts : ts <> [] -> mounted (TNode e []) ts = None.
Proof. by destruct ts. Qed.

Lemma mounted_update ts ts' n t :
  Forall cstring_ok ts -> Forall cstring_ok ts' -> names_ok t ->
  mounted (update_at ts (set_file n) t) ts' = if decide (ts' = ts) then Some n else mounted t ts'.
Proof.
  intros Hts. revert ts' t. induction Hts as [|nm ts Hnm Hts IH]; intros ts' [e cs] Hts' Ht.
  { destruct ts' as [|x ts']; [done|]. by case_decide. }
  pose proof Ht as Ht'. rewrite names_ok_children in Ht'. cbn [update_at children value].
  destruct ts' as [|x ts'].
  { destruct (find_child cs nm) as [[i c]|]; by case_decide. }
  apply Forall_cons_1 in Hts' as [Hx Hts'].
  destruct (find_child cs nm) as [[i c]|] eqn:Ef.
  - destruct (find_child_name _ _ _ _ Ht' Hnm Ef) as (Hi & Hn & Hc). cbn [mounted children].
    rewrite (find_child_insert _ _ c) by (done || by rewrite update_at_name).
    destruct (find_child cs x) as [[j c1]|] eqn:Ex.
    + destruct (find_child_name _ _ _ _ Ht' Hx Ex) as (Hj & Hn1 & Hc1).
      destruct (decide (j = i)) as [->|Hji].
      * assert (c1 = c) as -> by congruence. rewrite IH by done. assert (x = nm) as -> by congruence.
        destruct (decide (ts' = ts)), (decide (nm :: ts' = nm :: ts)); done || congruence.
      * case_decide as E; [|done]. injection E as -> ->. congruence.
    + case_decide as E; [|done]. injection E as -> ->. congruence.
  - cbn [mounted children]. rewrite find_child_app, update_at_name by done. cbn [value e_name].
    destruct (find_child cs x) as [[j c1]|] eqn:Ex.
    + case_decide as E; [|done]. injection E as -> ->. congruence.
    + destruct (Z.eqb_spec (strcmp (strdup nm) x) 0) as [E|E].
      * apply strcmp_zero in E; [|done|done]. unfold strdup in E. subst x.
        rewrite IH; [|done|constructor].
        destruct (decide (ts' = ts)), (decide (nm :: ts' = nm :: ts)); try (done || congruence).
        by destruct ts'.
      * case_decide as E'; [|done]. injection E' as -> ->. unfold strdup in E.
        by rewrite (proj2 (strcmp_zero nm nm Hnm Hnm)) in E.
Qed.

(** [k] is the number of names of the longest prefix of [ts] with a mount. *)
Definition longest_mount (t : tree) (ts : list cstring) (k : nat) : Prop :=
  (k <= length ts)%nat /\ is_Some (mounted t (take k ts)) /\
  forall j, (k < j <= length ts)%nat -> mounted t (take j ts) = None.

Lemma mount_walk_spec ts : forall t d last out td,
  (exists k f, (0 < k)%nat /\ longest_mount t ts k /\ mounted t (take k ts) = Some f /\
     mount_walk t ts d last out td = (Some f, drop k ts, d + Z.of_nat k - 1)) \/
  ((forall j, (0 < j <= length ts)%nat -> mounted t (take j ts) = None) /\
     mount_walk t ts d last out td = (last, out, td)).
Proof.
  induction ts as [|nm ts IH]; intros t d last out td; cbn [mount_walk].
  { right. split; [intros; simpl in *; lia|done]. }
  destruct (find_child (children t) nm) as [[i c]|] eqn:Ef.
  2: { right. split; [|done]. intros [|j] Hj; [lia|]. simpl. by rewrite Ef. }
  assert (forall j, mounted t (take (S j) (nm :: ts)) = mounted c (take j ts)) as Hm
    by (intros j; simpl; by rewrite Ef).
  assert (forall last out td,
    (exists k f, (0 < k)%nat /\ longest_mount t (nm :: ts) k /\ mounted t (take k (nm :: ts)) = Some f /\
       mount_walk c ts (d + 1) last out td = (Some f, drop k (nm :: ts), d + Z.of_nat k - 1)) \/
    ((forall j, (0 < j <= length ts)%nat -> mounted c (take j ts) = None) /\
       mount_walk c ts (d + 1) last out td = (last, out, td))) as Hdeep.
  { intros last' out' td'. destruct (IH c (d + 1) last' out' td') as [(k & f & Hk & Hl & Hf & ->)|[Hn ->]]; [left|by right].
    exists (S k), f. split; [lia|]. split; [|split; [by rewrite Hm|do 2 f_equal; lia]].
    destruct Hl as (Hkl & Hs & Hno). split; [simpl; lia|]. rewrite Hm. split; [done|].
    intros [|j] Hj; [lia|]. rewrite Hm. apply Hno. simpl in Hj. lia. }
  destruct (e_file (value c)) as [f|] eqn:Hfile.
  - destruct (Hdeep (Some f) ts d) as [?|[Hn ->]]; [by left|]. left. exists 1%nat, f. split; [lia|].
    assert (mounted t (take 1 (nm :: ts)) = Some f) as E1 by (rewrite Hm; by destruct ts).
    split; [|split; [done|do 2 f_equal; lia]]. split; [simpl; lia|]. split; [by rewrite E1|].
    intros [|j] Hj; [lia|]. rewrite Hm. apply Hn. simpl in Hj. lia.
  - destruct (Hdeep last out td) as [?|[Hn ->]]; [by left|right]. split; [|done].
    intros [|j] Hj; [lia|]. rewrite Hm. destruct j as [|j]; [by rewrite take_0|]. apply Hn. simpl in Hj. lia.
Qed.

(** The root mount of a tree and the shortcut [fs_root] are the same node. *)
Definition root_ok (v : vfs) : Prop :=
  exists t, fs_tree v = Some t /\ names_ok t /\ mounted t [] = fs_root v.

(** What a path resolves to: the mount at its longest mounted prefix, the names
    left and the number of names consumed. *)
Definition resolves (mounts : list cstring -> option vnode) (ts : list cstring)
    (r : option vnode * list cstring * Z) : Prop :=
  exists k, (k <= length ts)%nat /\ (k = 0%nat \/ is_Some (mounts (take k ts))) /\
    (forall j, (k < j <= length ts)%nat -> mounts (take j ts) = None) /\
    r = (mounts (take k ts), drop k ts, Z.of_nat k).

Lemma get_mount_point_resolves v t ts :
  fs_tree v = Some t -> mounted t [] = fs_root v ->
  exists r, get_mount_point v ts = Ret r /\ resolves (mounted t) ts r.
Proof.
  intros Ht Hr. unfold get_mount_point. rewrite Ht. cbn [mbind outcome_bind of_option].
  eexists. split; [done|].
  destruct (mount_walk_spec ts t 1 (fs_root v) ts 0) as [(k & f & Hk & (Hl & Hs & Hno) & Hf & ->)|[Hn ->]].
  - exists k. split; [done|]. split; [by right|]. split; [done|]. rewrite Hf. do 2 f_equal. lia.
  - exists 0%nat. split; [lia|]. split; [by left|]. split; [auto|]. by rewrite take_0, drop_0, Hr.
Qed.

Lemma chop_join fuel c ts :
  Forall (token_ok PATH_SEPARATOR) (c :: ts) -> (length (c ++ join PATH_SEPARATOR ts) <= fuel)%nat ->
  chop fuel (c ++ join PATH_SEPARATOR ts) = c :: ts.
Proof.
  revert fuel c. induction ts as [|c' ts IH]; intros fuel c Ht Hf; apply Forall_cons_1 in Ht as [[Hne Hnd] Ht].
  - simpl join in *. rewrite app_nil_r in *. destruct c as [|x c]; [done|].
    destruct fuel as [|fuel]; [simpl in Hf; lia|]. cbn [chop]. by rewrite cut_delim_no_delim.
  - change (join PATH_SEPARATOR (c' :: ts)) with (PATH_SEPARATOR :: (c' ++ join PATH_SEPARATOR ts)) in *.
    destruct c as [|x c]; [done|]. destruct fuel as [|fuel]; [simpl in Hf; lia|].
    change ((x :: c) ++ PATH_SEPARATOR :: c' ++ join PATH_SEPARATOR ts)
      with (x :: (c ++ PATH_SEPARATOR :: c' ++ join PATH_SEPARATOR ts)) in *.
    cbn [chop]. change (x :: (c ++ PATH_SEPARATOR :: c' ++ join PATH_SEPARATOR ts))
      with ((x :: c) ++ PATH_SEPARATOR :: (c' ++ join PATH_SEPARATOR ts)).
    rewrite cut_delim_app by done. f_equal. apply IH; [done|].
    simpl in Hf. rewrite length_app in Hf. simpl in Hf. lia.
Qed.

(** C2: mounting a node at a canonical path changes the mount table at that path
    only, and afterwards every path resolves to the mount at its longest mounted
    prefix, with the right rest and depth. *)
Theorem vfs_mount_resolves v t comps n ts :
  root_ok v -> fs_tree v = Some t -> Forall cstring_ok comps -> Forall component_ok comps -> Forall cstring_ok ts ->
  let n' := set_refcount n (-1) in
  exists v' t' r, vfs_mount v (path_string comps) n = (v', Some comps) /\
    fs_tree v' = Some t' /\ root_ok v' /\
    (forall ts, Forall cstring_ok ts -> mounted t' ts = if decide (ts = comps) then Some n' else mounted t ts) /\
    get_mount_point v' ts = Ret r /\ resolves (mounted t') ts r.
Proof.
  intros (t0 & Ht0 & Hok & Hroot) Ht Hs Hc Hts n'. rewrite Ht in Ht0. injection Ht0 as <-.
  set (t' := update_at comps (set_file n') t).
  assert (keeps_name (set_file n')) as Hkn by done.
  assert (names_ok t') as Hok' by (by apply update_at_ok).
  assert (forall ts, Forall cstring_ok ts ->
    mounted t' ts = if decide (ts = comps) then Some n' else mounted t ts) as Hm
    by (intros; by apply mounted_update).
  assert (exists root, vfs_mount v (path_string comps) n = (Build_vfs (Some t') root, Some comps) /\
    mounted t' [] = root) as (root & Hv & Hr).
  { unfold vfs_mount. rewrite Ht. destruct comps as [|c comps].
    - eexists. split; [done|]. by rewrite Hm.
    - exists (fs_root v). split; [|rewrite Hm by done; by case_decide].
      unfold path_string. change (join PATH_SEPARATOR (c :: comps))
        with (PATH_SEPARATOR :: (c ++ join PATH_SEPARATOR comps)). cbn match. rewrite Z.eqb_refl. cbv zeta.
      assert (Forall (token_ok PATH_SEPARATOR) (c :: comps)) as Htok
        by (eapply Forall_impl; [exact Hc|]; by intros ? []).
      rewrite chop_join by (done || lia).
      apply Forall_cons_1 in Htok as [[Hne Hnd] _]. destruct c as [|x c]; [done|]. simpl.
      destruct (Z.eqb_spec x PATH_SEPARATOR) as [->|]; [|done]. exfalso. apply Hnd. left. }
  exists (Build_vfs (Some t') root), t'.
  destruct (get_mount_point_resolves (Build_vfs (Some t') root) t' ts) as (r & Hg & Hres); [done|done|].
  exists r. split; [done|]. split; [done|]. split; [|done].
  exists t'. done.
Qed.

(** ** Opening *)

Lemma resolve_tokens toks out :
  Forall (token_ok PATH_SEPARATOR) toks -> Forall (token_ok PATH_SEPARATOR) out ->
  Forall (token_ok PATH_SEPARATOR) (resolve toks out).
Proof.
  revert out. induction toks as [|t toks IH]; intros out Ht Ho; cbn [resolve]; [done|].
  apply Forall_cons_1 in Ht as [Ht1 Ht].
  destruct (strcmp t PATH_UP =? 0); [apply IH; [done|by apply Forall_take]|].
  destruct (strcmp t PATH_DOT =? 0); [by apply IH|]. apply IH; [done|]. apply Forall_app. split; [done|]. by constructor.
Qed.

Lemma canonicalize_tokens cwd input :
  exists comps, canonicalize_path cwd input = path_string comps /\ Forall (token_ok PATH_SEPARATOR) comps.
Proof.
  rewrite canonicalize_path_string. eexists. split; [done|]. apply resolve_tokens; [apply tokenize_ok|].
  destruct (_ && _); [apply tokenize_ok|constructor].
Qed.

Lemma split_join fuel c ts :
  Forall (token_ok PATH_SEPARATOR) (c :: ts) -> (length (c ++ join PATH_SEPARATOR ts) <= fuel)%nat ->
  split fuel (c ++ join PATH_SEPARATOR ts) = c :: ts.
Proof.
  revert fuel c. induction ts as [|c' ts IH]; intros fuel c Ht Hf; apply Forall_cons_1 in Ht as [[Hne Hnd] Ht].
  - simpl join in *. rewrite app_nil_r in *. destruct fuel as [|fuel]; [done|]. cbn [split].
    by rewrite cut_delim_no_delim.
  - change (join PATH_SEPARATOR (c' :: ts)) with (PATH_SEPARATOR :: (c' ++ join PATH_SEPARATOR ts)) in *.
    rewrite length_app in Hf. simpl in Hf. destruct fuel as [|fuel]; [lia|]. cbn [split].
    rewrite cut_delim_app by done. f_equal. apply IH; [done|lia].
Qed.

Lemma count_app s1 s2 : count_separators (s1 ++ s2) = count_separators s1 + count_separators s2.
Proof. unfold count_separators. rewrite filter_app, length_app. lia. Qed.

Lemma count_token t : (PATH_SEPARATOR ∉ t) -> count_separators t = 0.
Proof.
  unfold count_separators. induction t as [|c t IH]; [done|]. rewrite not_elem_of_cons. intros [Hc Ht].
  rewrite filter_cons. case_decide; [congruence|]. by apply IH.
Qed.

Lemma count_join ts : Forall (token_ok PATH_SEPARATOR) ts ->
  count_separators (join PATH_SEPARATOR ts) = Z.of_nat (length ts).
Proof.
  induction 1 as [|t ts [_ Ht] Hts IH]; [done|].
  change (join PATH_SEPARATOR (t :: ts)) with ([PATH_SEPARATOR] ++ t ++ join PATH_SEPARATOR ts).
  rewrite !count_app, IH, (count_token t) by done. change (count_separators [PATH_SEPARATOR]) with 1. simpl length. lia.
Qed.

(** What a call does with a canonical path: the shape of [kopen_recur]. *)
Lemma kopen_unfold v fuel filename fl sd rel s :
  first s <> 1 -> root_ok v ->
  exists comps, canonicalize_path rel filename = path_string comps /\
    Forall (token_ok PATH_SEPARATOR) comps /\
    (comps = [] -> kopen_recur v (S fuel) filename fl sd rel s =
       (root ← of_option (fs_root v); let '(n, x) := open_fs root fl (w s) in Ret (Some n, set_w s x))) /\
    (comps <> [] -> exists t k, fs_tree v = Some t /\ (k <= length comps)%nat /\
       resolves (mounted t) comps (mounted t (take k comps), drop k comps, Z.of_nat k) /\
       kopen_recur v (S fuel) filename fl sd rel s =
         match mounted t (take k comps) with
         | None => Ret (None, s)
         | Some n =>
             match drop k comps with
             | [] => let '(n, x) := open_fs n fl (w s) in Ret (Some n, set_w s x)
             | _ => walk (fun f rel s => kopen_recur v fuel f 0 (sd + 1) rel s) fl sd
                      (Z.of_nat (length comps)) (split (length (path_string comps)) (path_string comps))
                      n (drop k comps) (Z.of_nat k) s
             end
         end).
Proof.
  intros Hf (t & Ht & Hok & Hroot). destruct (canonicalize_tokens rel filename) as (comps & Ec & Hc).
  exists comps. split; [done|]. split; [done|]. cbn [kopen_recur].
  destruct (Z.eqb_spec (first s) 1); [done|]. destruct s as [w0 f0]. cbn [w first] in *. rewrite Ec.
  split; [by intros ->|]. intros Hne. destruct comps as [|c comps]; [done|].
  pose proof Hc as Hc'. apply Forall_cons_1 in Hc' as [[Hcne Hcnd] _].
  assert ((strlen (path_string (c :: comps)) =? 1) = false) as ->.
  { apply Z.eqb_neq. unfold strlen. simpl. rewrite length_app. destruct c; [done|]. simpl. lia. }
  assert (match path_string (c :: comps) with [] => [] | _ :: r => split (length r) r end = c :: comps) as ->
    by (by apply split_join).
  destruct (get_mount_point_resolves v t (c :: comps) Ht Hroot) as (r & -> & Hres).
  pose proof Hres as (k & Hk & Hor & Hno & ->). cbn [mbind outcome_bind].
  exists t, k. split; [done|]. split; [done|]. split; [done|].
  assert (count_separators (path_string (c :: comps)) = Z.of_nat (length (c :: comps))) as ->
    by (by apply count_join).
  destruct (mounted t (take k (c :: comps))) as [n'|]; [|done].
  destruct (drop k (c :: comps)) as [|d ds] eqn:Ed; [done|].
  destruct d as [|x d]; [|done]. exfalso.
  assert (Forall (token_ok PATH_SEPARATOR) ([] :: ds)) as Hd by (rewrite <- Ed; by apply Forall_drop).
  by apply Forall_cons_1 in Hd as [[? _] _].
Qed.

(** A [readlink] returns the target with its NUL inside the buffer, or fails. *)
Definition links_ok : Prop :=
  forall n x f, readlink n = Some f -> let '(buf, len) := f x MAX_SYMLINK_SIZE in len < Z.of_nat (length buf).

Lemma walk_total rec fl sd pd segs :
  links_ok ->
  (sd < MAX_SYMLINK_DEPTH -> forall f rel s, first s <> 1 -> exists r s', rec f rel s = Ret (r, s') /\ first s' <> 1) ->
  forall toks n depth s, first s <> 1 -> Z.of_nat (length toks) = pd - depth ->
  exists r s', walk rec fl sd pd segs n toks depth s = Ret (r, s') /\ first s' <> 1.
Proof.
  intros Hlinks Hrec toks. induction toks as [|nm toks IH]; intros n depth s Hf Hl; cbn [walk].
  { destruct (Z.ltb_spec depth pd); [simpl in Hl; lia|]. eauto. }
  destruct (Z.ltb_spec depth pd); [|eauto]. destruct (finddir_fs n (w s) nm) as [n'|]; [|eauto].
  assert (forall n' s, first s <> 1 -> exists r s',
    (if depth =? pd - 1 then let '(n0, x) := open_fs n' fl (w s) in Ret (Some n0, set_w s x)
     else walk rec fl sd pd segs n' toks (depth + 1) s) = Ret (r, s') /\ first s' <> 1) as Hnext.
  { intros n0 s0 Hf0. destruct (depth =? pd - 1).
    - destruct (open_fs n0 fl (w s0)) as [n1 x]. eauto.
    - apply IH; [done|]. simpl in Hl. lia. }
  destruct (truthy (Z.land (flags n') FS_SYMLINK) && _); [|cbn [mbind outcome_bind]; by apply Hnext].
  destruct (truthy (Z.land fl O_NOFOLLOW) && _); [cbn; eauto|].
  destruct (Z.leb_spec MAX_SYMLINK_DEPTH sd) as [|Hsd]; [cbn; eauto|].
  unfold readlink_fs. destruct (readlink n') as [f|] eqn:Erl; [|cbn; eauto].
  specialize (Hlinks n' (w s) f Erl). destruct (f (w s) MAX_SYMLINK_SIZE) as [buf len].
  destruct (Z.ltb_spec len 0); [cbn; eauto|].
  destruct (aget_in_range buf len) as (c & _ & ->); [lia|]. cbn [mbind outcome_bind].
  destruct (negb (c =? 0)); [cbn; eauto|].
  destruct (Hrec Hsd (up_to_nul buf) (rebuild segs depth) s Hf) as ([n1|] & s1 & -> & Hf1); cbn [mbind outcome_bind];
    [by apply Hnext|eauto].
Qed.

Lemma kopen_recur_total v fuel filename fl sd rel s :
  links_ok -> root_ok v -> is_Some (fs_root v) -> first s <> 1 -> 0 <= sd <= MAX_SYMLINK_DEPTH ->
  MAX_SYMLINK_DEPTH - sd < Z.of_nat fuel ->
  exists r s', kopen_recur v fuel filename fl sd rel s = Ret (r, s') /\ first s' <> 1.
Proof.
  intros Hlinks Hroot [root Hfr]. revert filename fl sd rel s.
  induction fuel as [|fuel IH]; intros filename fl sd rel s Hf Hsd Hfuel; [unfold MAX_SYMLINK_DEPTH in *; lia|].
  destruct (kopen_unfold v fuel filename fl sd rel s Hf Hroot) as (comps & _ & _ & Hnil & Hcons).
  destruct comps as [|c comps].
  - rewrite Hnil, Hfr by done. cbn [mbind outcome_bind of_option]. destruct (open_fs root fl (w s)). eauto.
  - destruct Hcons as (t & k & _ & Hk & _ & ->); [done|].
    destruct (mounted t (take k (c :: comps))) as [n|]; [|eauto].
    destruct (drop k (c :: comps)) as [|d ds] eqn:Ed.
    { destruct (open_fs n fl (w s)). eauto. }
    apply walk_total; [done| |done|].
    + intros Hlt f rel' s' Hf'. apply IH; [done|lia|lia].
    + rewrite <- Ed, length_drop. lia.
Qed.

(** ** Chains of links *)

(** The names lead through directories to a symbolic link [l]. *)
Fixpoint ends_in_link (n : vnode) (x : world) (toks : list cstring) (l : vnode) : Prop :=
  match toks with
  | [] => False
  | nm :: toks' =>
      match finddir_fs n x nm with
      | None => False
      | Some n' =>
          if decide (toks' = []) then n' = l /\ truthy (Z.land (flags n') FS_SYMLINK) = true
          else truthy (Z.land (flags n') FS_SYMLINK) = false /\ ends_in_link n' x toks' l
      end
  end.

(** The path [filename], seen from [rel], names a link whose target is [target], seen from
    [rel']: the path of the directory that holds the link. *)
Definition link_at (v : vfs) (x : world) (rel filename rel' target : cstring) : Prop :=
  exists comps t k n l buf len,
    canonicalize_path rel filename = path_string comps /\ Forall (token_ok PATH_SEPARATOR) comps /\ fs_tree v = Some t /\
    resolves (mounted t) comps (Some n, drop k comps, Z.of_nat k) /\ ends_in_link n x (drop k comps) l /\
    readlink_fs l x MAX_SYMLINK_SIZE = (buf, len) /\ 0 <= len /\ aget buf len = Ret 0 /\ target = up_to_nul buf /\
    rel' = rebuild (split (length (path_string comps)) (path_string comps)) (Z.of_nat (length comps) - 1).

(** [k] links in a row. *)
Fixpoint chain (v : vfs) (x : world) (k : nat) (rel filename : cstring) : Prop :=
  match k with
  | O => True
  | S k' => exists rel' target, link_at v x rel filename rel' target /\ chain v x k' rel' target
  end.

Lemma tokenize_path comps : Forall (token_ok PATH_SEPARATOR) comps -> tokenize (path_string comps) PATH_SEPARATOR = comps.
Proof. intros Hc. destruct comps as [|c comps]; [done|]. change (path_string (c :: comps)) with (join PATH_SEPARATOR (c :: comps)). apply strtok_loop_join; [done|lia]. Qed.

Lemma path_string_inj comps comps' :
  Forall (token_ok PATH_SEPARATOR) comps -> Forall (token_ok PATH_SEPARATOR) comps' -> path_string comps = path_string comps' -> comps = comps'.
Proof. intros Hc Hc' E. by rewrite <- (tokenize_path comps Hc), E, tokenize_path. Qed.

Lemma resolves_unique m ts n n' d d' k k' :
  resolves m ts (n, d, Z.of_nat k) -> resolves m ts (n', d', Z.of_nat k') -> (n, d, k) = (n', d', k').
Proof.
  intros (j & Hj & Hor & Hno & E) (j' & Hj' & Hor' & Hno' & E'). injection E as -> -> Ek. injection E' as -> -> Ek'.
  assert (k = j) as -> by lia. assert (k' = j') as -> by lia. destruct (decide (j = j')) as [->|Hne]; [done|]. exfalso.
  destruct (decide (j < j')%nat) as [Hlt|Hge].
  - destruct Hor' as [->|Hs]; [lia|]. rewrite Hno in Hs by lia. by destruct Hs.
  - destruct Hor as [->|Hs]; [lia|]. rewrite Hno' in Hs by lia. by destruct Hs.
Qed.

Lemma walk_link rec fl sd pd segs l buf len s :
  truthy (Z.land fl O_NOFOLLOW) = false -> readlink_fs l (w s) MAX_SYMLINK_SIZE = (buf, len) -> 0 <= len -> aget buf len = Ret 0 ->
  (sd < MAX_SYMLINK_DEPTH -> rec (up_to_nul buf) (rebuild segs (pd - 1)) s = Ret (None, s)) ->
  forall toks n depth, ends_in_link n (w s) toks l -> Z.of_nat (length toks) = pd - depth ->
  walk rec fl sd pd segs n toks depth s = Ret (None, s).
Proof.
  intros Hnf Hrl Hlen Hnul Hrec toks. induction toks as [|nm toks IH]; intros n depth He Hl; [done|]. cbn [walk].
  cbn [ends_in_link] in He. cbn [length] in Hl. destruct (Z.ltb_spec depth pd); [|lia].
  destruct (finddir_fs n (w s) nm) as [n'|]; [|done]. rewrite Hnf. cbn [andb negb]. destruct (decide (toks = [])) as [->|Hne].
  - destruct He as [-> ->]. cbn [andb length] in *. destruct (Z.leb_spec MAX_SYMLINK_DEPTH sd) as [|Hsd]; [done|].
    rewrite Hrl. destruct (Z.ltb_spec len 0); [lia|]. rewrite Hnul. cbn [mbind outcome_bind Z.eqb negb].
    replace depth with (pd - 1) by lia. rewrite Hrec by done. done.
  - destruct He as [-> He]. cbn [andb mbind outcome_bind]. destruct (Z.eqb_spec depth (pd - 1)); [destruct toks; [done|cbn [length] in Hl; lia]|].
    apply IH; [done|lia].
Qed.

Lemma chain_null v fuel filename fl sd rel s :
  root_ok v -> first s <> 1 -> truthy (Z.land fl O_NOFOLLOW) = false -> 0 <= sd <= MAX_SYMLINK_DEPTH ->
  MAX_SYMLINK_DEPTH - sd < Z.of_nat fuel -> chain v (w s) (S (Z.to_nat (MAX_SYMLINK_DEPTH - sd))) rel filename ->
  kopen_recur v fuel filename fl sd rel s = Ret (None, s).
Proof.
  intros Hroot Hf. revert filename fl sd rel. induction fuel as [|fuel IH]; intros filename fl sd rel Hnf Hsd Hfuel (rel' & target & Hat & Hch); [lia|].
  destruct Hat as (comps & t & k & n & l & buf & len & Ec & Htok & Ht & Hres & Hlink & Hrl & Hlen & Hnul & -> & ->).
  destruct (kopen_unfold v fuel filename fl sd rel s Hf Hroot) as (comps' & Ec' & Htok' & _ & Hcons).
  assert (comps' = comps) as -> by (apply path_string_inj; [done|done|congruence]).
  assert (comps <> []) as Hne by (intros ->; by rewrite drop_nil in Hlink). destruct (Hcons Hne) as (t' & k' & Ht' & Hk' & Hres' & ->).
  rewrite Ht in Ht'. injection Ht' as <-. pose proof (resolves_unique _ _ _ _ _ _ _ _ Hres Hres') as [= Hn _ Hkk]. rewrite <- Hn, <- Hkk in *.
  destruct (drop k comps) as [|d ds] eqn:Ed; [done|]. rewrite <- Ed in *.
  apply (walk_link _ fl sd _ _ l buf len s Hnf Hrl Hlen Hnul); [|done|rewrite length_drop; lia].
  intros Hlt. apply IH; [done|lia|lia|]. replace (S (Z.to_nat (MAX_SYMLINK_DEPTH - (sd + 1)))) with (Z.to_nat (MAX_SYMLINK_DEPTH - sd)) by lia.
  exact Hch.
Qed.

(** C34: Once the first call was made, opening any path returns, if every [readlink]
    puts its NUL inside the buffer or fails; and a path that leads to more than eight links in
    a row, a link that leads to itself among them, gives a null result and changes
    nothing (without [O_NOFOLLOW]). *)
Theorem kopen2_returns v wd_name filename fl s :
  links_ok -> root_ok v -> is_Some (fs_root v) -> first s <> 1 ->
  (exists r s', kopen2 v wd_name filename fl s = Ret (r, s')) /\
  (truthy (Z.land fl O_NOFOLLOW) = false -> chain v (w s) 9 wd_name filename -> kopen2 v wd_name filename fl s = Ret (None, s)).
Proof.
  intros Hlinks Hroot Hfr Hf. unfold kopen2. split.
  - destruct (kopen_recur_total v kopen_fuel filename fl 0 wd_name s Hlinks Hroot Hfr Hf) as (r & s' & -> & _);
      [unfold MAX_SYMLINK_DEPTH; lia|unfold MAX_SYMLINK_DEPTH, kopen_fuel; lia|]. eauto.
  - intros Hnf Hch. apply chain_null; [done|done|done|unfold MAX_SYMLINK_DEPTH; lia|unfold MAX_SYMLINK_DEPTH, kopen_fuel; lia|exact Hch].
Qed.

(** Looking the names up one by one, and meeting no link. *)
Fixpoint lookup_path (n : vnode) (x : world) (toks : list cstring) : option vnode :=
  match toks with
  | [] => Some n
  | nm :: toks' => match finddir_fs n x nm with Some n' => lookup_path n' x toks' | None => None end
  end.

Fixpoint plain_path (n : vnode) (x : world) (toks : list cstring) : Prop :=
  match toks with
  | [] => True
  | nm :: toks' =>
      match finddir_fs n x nm with
      | Some n' => truthy (Z.land (flags n') FS_SYMLINK) = false /\ plain_path n' x toks'
      | None => True
      end
  end.

(** The result of opening a node, if there is one. *)
Definition opened (fl : Z) (s : kstate) (r : option vnode) : option vnode * kstate :=
  match r with
  | None => (None, s)
  | Some n => let '(n, x) := open_fs n fl (w s) in (Some n, set_w s x)
  end.

Lemma walk_plain rec fl sd pd segs toks n depth s :
  toks <> [] -> Z.of_nat (length toks) = pd - depth -> plain_path n (w s) toks ->
  walk rec fl sd pd segs n toks depth s = Ret (opened fl s (lookup_path n (w s) toks)).
Proof.
  revert n depth. induction toks as [|nm toks IH]; intros n depth Hne Hl Hp; [done|]. cbn [walk lookup_path].
  simpl in Hl, Hp. destruct (Z.ltb_spec depth pd); [|lia].
  destruct (finddir_fs n (w s) nm) as [n'|]; [|done]. destruct Hp as [Hs Hp]. rewrite Hs.
  cbn [andb mbind outcome_bind]. destruct (Z.eqb_spec depth (pd - 1)) as [E|E].
  - destruct toks as [|nm' toks]; [|simpl in Hl; lia]. simpl. by destruct (open_fs n' fl (w s)).
  - apply IH; [destruct toks; [simpl in Hl; lia|done]|lia|done].
Qed.

(** C18: Once the first call was made ([first s <> 1]; on the very first one the code does
    not canonicalise the path), a path without symbolic links is opened by making it canonical,
    taking the longest mount, and looking the other names up from its root one after the
    other; the result is null if one of them is not found. *)
Theorem kopen2_lookup v wd_name filename fl s :
  root_ok v -> first s <> 1 ->
  exists comps t k, canonicalize_path wd_name filename = path_string comps /\ fs_tree v = Some t /\
    resolves (mounted t) comps (mounted t (take k comps), drop k comps, Z.of_nat k) /\
    forall n, mounted t (take k comps) = Some n -> plain_path n (w s) (drop k comps) ->
      kopen2 v wd_name filename fl s = Ret (opened fl s (lookup_path n (w s) (drop k comps))).
Proof.
  intros Hroot Hf. unfold kopen2, kopen_fuel.
  destruct (kopen_unfold v 8 filename fl 0 wd_name s Hf Hroot) as (comps & Ec & Htok & Hnil & Hcons).
  destruct comps as [|c comps].
  - destruct Hroot as (t & Ht & _ & Hr). exists [], t, 0%nat. split; [done|]. split; [done|]. split.
    { exists 0%nat. split; [done|]. split; [by left|]. split; [|done]. intros; simpl in *; lia. }
    intros n Hn _. rewrite take_0 in Hn. rewrite Hnil by done. rewrite <- Hr, Hn. simpl. by destruct (open_fs n fl (w s)).
  - destruct Hcons as (t & k & Ht & Hk & Hres & ->); [done|]. exists (c :: comps), t, k.
    split; [done|]. split; [done|]. split; [done|]. intros n -> Hp.
    destruct (drop k (c :: comps)) as [|d ds] eqn:Ed.
    { simpl. by destruct (open_fs n fl (w s)). }
    apply walk_plain; [done| |done]. rewrite <- Ed, length_drop. lia.
Qed.

(** ** The parent directory of a path *)

Lemma join_app d ts1 ts2 : join d (ts1 ++ ts2) = join d ts1 ++ join d ts2.
Proof. unfold join. by rewrite bind_app. Qed.

Lemma path_string_snoc comps c : path_string (comps ++ [c]) = join PATH_SEPARATOR (comps ++ [c]).
Proof. by destruct comps. Qed.

(** For a canonical path, the path the creating functions open to get the
    parent directory is the one without the last component, and the name they
    pass on is that component; [symlink_fs] does so only below a directory that
    is not the root, in the root the name keeps its slash. *)
Theorem parent_and_name wd_name comps c :
  Forall cstring_ok (comps ++ [c]) -> Forall component_ok (comps ++ [c]) ->
  let path := path_string (comps ++ [c]) in
  canonicalize_path wd_name (path ++ slash_up) = path_string comps /\ f_path path = c /\
  back_to_separator path = (if decide (comps = []) then PATH_SEPARATOR :: c else c).
Proof.
  intros Hs Hc path. unfold path. rewrite path_string_snoc.
  assert (join PATH_SEPARATOR (comps ++ [c]) ++ slash_up = join PATH_SEPARATOR ((comps ++ [c]) ++ [PATH_UP])) as ->
    by (by rewrite (join_app _ (comps ++ [c]))).
  assert (Forall (token_ok PATH_SEPARATOR) (comps ++ [c])) as Htok
    by (eapply Forall_impl; [exact Hc|]; by intros ? []).
  split.
  { rewrite canonicalize_path_string. unfold tokenize at 1.
    rewrite strtok_loop_join; [|apply Forall_app; split; [done|]; constructor; [split; [done|by_decide]|done]|lia].
    assert (exists r, join PATH_SEPARATOR ((comps ++ [c]) ++ [PATH_UP]) = PATH_SEPARATOR :: r) as [r ->]
      by (destruct comps; simpl; eauto).
    cbn [head default]. rewrite Z.eqb_refl, andb_false_r.
    rewrite resolve_app, (resolve_components (comps ++ [c])) by done. cbn [app resolve]. simpl Z.eqb.
    by rewrite length_app, Nat.add_1_r, Nat.pred_succ, take_app_length. }
  apply Forall_app in Htok as [Htok Hc1]. apply Forall_cons_1 in Hc1 as [[Hne Hnd] _].
  assert (skip_delim PATH_SEPARATOR c = c) as Hskip.
  { destruct c as [|x c]; [done|]. simpl. destruct (Z.eqb_spec x PATH_SEPARATOR) as [->|]; [|done].
    exfalso. apply Hnd. left. }
  assert (back_to_separator (join PATH_SEPARATOR (comps ++ [c])) =
    if decide (comps = []) then PATH_SEPARATOR :: c else c) as Hback.
  { destruct comps as [|c0 comps].
    - simpl join. rewrite app_nil_r. cbn [back_to_separator].
      replace (split (length c) c) with [c]; [done|]. symmetry.
      pose proof (split_join (length c) c []) as E. simpl join in E. rewrite app_nil_r in E.
      apply E; [by constructor|lia].
    - change (join PATH_SEPARATOR ((c0 :: comps) ++ [c]))
        with (PATH_SEPARATOR :: (c0 ++ join PATH_SEPARATOR (comps ++ [c]))).
      cbn [back_to_separator]. rewrite split_join.
      + rewrite app_comm_cons, rev_app_distr. simpl. by destruct (rev comps).
      + apply Forall_cons_1 in Htok as [? ?]. constructor; [done|]. apply Forall_app. split; [done|]. by constructor.
      + lia. }
  split; [|done]. unfold f_path. rewrite Hback. case_decide; [|done].
  simpl. done.
Qed.

End Nodes.

(** ** Witnesses *)

(** A file system with a directory [d] that holds a file [f], and a link [a] to
    itself; nodes are numbers. *)
Module Toy.

Record node := Node { id : Z; refs : Z }.

Definition kids (n : Z) (nm : cstring) : option node :=
  if n =? 0 then
    if decide (nm = cstr "a"%string) then Some (Node 1 0)
    else if decide (nm = cstr "d"%string) then Some (Node 2 0) else None
  else if n =? 2 then if decide (nm = cstr "f"%string) then Some (Node 3 0) else None
  else None.

#[export] Program Instance toy : Vnode := {
  vnode := node; world := unit;
  flags n := if id n =? 0 then 2 else if id n =? 1 then 0x21 else if id n =? 2 then 2 else 1;
  mask n := 0; uid n := 0; refcount := refs; set_refcount n r := Node (id n) r;
  finddir n := Some (fun _ nm => kids (id n) nm);
  readlink n := if id n =? 1 then Some (fun _ _ => (cstr "/a"%string ++ [0], 2)) else None;
  open n := None; close n := None; create n := None; mkdir n := None; unlink n := None; symlink n := None
}.
Next Obligation. done. Qed.
Next Obligation. done. Qed.

Definition mounts : vfs :=
  Build_vfs (Some (TNode (Build_entry (cstr "[root]"%string) (Some (Node 0 (-1))) None None) [])) (Some (Node 0 (-1))).

Lemma mounts_ok : root_ok mounts.
Proof. by eexists. Qed.

Definition s0 : @kstate toy := @Build_kstate toy tt 0.

Lemma toy_links : links_ok.
Proof.
  intros n x f. simpl. destruct (id n =? 1); [|done]. intros [= <-]. simpl. lia.
Qed.

End Toy.
Import Toy.

Lemma ok_tmp : Forall cstring_ok [cstr "tmp"%string].
Proof. repeat constructor; unfold byte_ok; simpl; lia. Qed.
Lemma ok_component_tmp : Forall component_ok [cstr "tmp"%string].
Proof. repeat constructor; try done; by_decide. Qed.

Lemma vfs_mount_resolves_witness :
  exists t, fs_tree mounts = Some t /\
  exists v' t' r, vfs_mount mounts (path_string [cstr "tmp"%string]) (Node 7 0) = (v', Some [cstr "tmp"%string]) /\
    fs_tree v' = Some t' /\ root_ok v' /\
    (forall ts, Forall cstring_ok ts ->
       mounted t' ts = if decide (ts = [cstr "tmp"%string]) then Some (Node 7 (-1)) else mounted t ts) /\
    get_mount_point v' [cstr "tmp"%string; cstr "x"%string] = Ret r /\
    resolves (mounted t') [cstr "tmp"%string; cstr "x"%string] r.
Proof.
  eexists. split; [reflexivity|].
  apply (vfs_mount_resolves mounts _ [cstr "tmp"%string] (Node 7 0) [cstr "tmp"%string; cstr "x"%string] mounts_ok);
    [reflexivity|exact ok_tmp|exact ok_component_tmp|].
  repeat constructor; unfold byte_ok; simpl; lia.
Defined.

(** The link that points to itself. *)
Lemma self_link k : forall rel, chain mounts (w s0) k rel (cstr "/a"%string).
Proof.
  induction k as [|k IH]; intros rel; [done|]. exists [], (cstr "/a"%string). split; [|apply IH].
  eexists [cstr "a"%string], _, O, (Node 0 (-1)), (Node 1 0), (cstr "/a"%string ++ [0]), 2. split; [reflexivity|].
  split; [repeat constructor; try done; by_decide|]. split; [reflexivity|]. split.
  { exists O. split; [simpl; lia|]. split; [by left|]. split; [|done]. intros j Hj. destruct j as [|[|j]]; [lia|done|simpl in Hj; lia]. }
  split; [by split|]. split; [reflexivity|]. split; [lia|]. split_and!; reflexivity.
Qed.

Lemma kopen2_returns_witness :
  (exists r s', kopen2 mounts (cstr "/a"%string) (cstr "/a"%string) 0 s0 = Ret (r, s')) /\
  kopen2 mounts (cstr "/a"%string) (cstr "/a"%string) 0 s0 = Ret (None, s0).
Proof.
  destruct (kopen2_returns mounts (cstr "/a"%string) (cstr "/a"%string) 0 s0 toy_links mounts_ok) as [H1 H2]; [done|simpl; lia|].
  split; [exact H1|]. apply H2; [reflexivity|apply self_link].
Defined.

Lemma kopen2_lookup_witness :
  exists comps t k, canonicalize_path (cstr "/d"%string) (cstr "./f"%string) = path_string comps /\
    fs_tree mounts = Some t /\
    resolves (mounted t) comps (mounted t (take k comps), drop k comps, Z.of_nat k) /\
    forall n, mounted t (take k comps) = Some n -> plain_path n (w s0) (drop k comps) ->
      kopen2 mounts (cstr "/d"%string) (cstr "./f"%string) 0 s0 =
        Ret (opened 0 s0 (lookup_path n (w s0) (drop k comps))).
Proof.
  apply (kopen2_lookup mounts (cstr "/d"%string) (cstr "./f"%string) 0 s0 mounts_ok).
  simpl. lia.
Defined.

Example kopen_file :
  kopen2 mounts (cstr "/d"%string) (cstr "./f"%string) 0 s0 =
    Ret (Some (Node 3 1), s0).
Proof. reflexivity. Qed.

Lemma parent_and_name_witness :
  canonicalize_path (cstr "/"%string) (cstr "/tmp"%string ++ slash_up) = path_string [] /\
  f_path (cstr "/tmp"%string) = cstr "tmp"%string /\
  back_to_separator (cstr "/tmp"%string) = PATH_SEPARATOR :: cstr "tmp"%string.
Proof. apply (parent_and_name (cstr "/"%string) [] (cstr "tmp"%string)); [exact ok_tmp|exact ok_component_tmp]. Defined.

End Vfs.
