(* ===== verification/Ext2Cache.v ===== *)
(** * The block cache of [kernel/src/ext2.c]

    Blocks are read and written through an array of cache entries that is
    written back when an entry is replaced or on [ext2_sync].  The block device
    is an array of bytes; [read_fs] and [write_fs] on its node read and write a
    range of it.  [view] is the disk the rest of the file system sees, and the
    operations are shown to be reads and writes of that disk. *)

From stdpp Require Import base numbers list.
From S2P Require Import Prelude.

Module Ext2Cache.

Definition E_SUCCESS : Z := 0.
Definition E_BADBLOCK : Z := 1.
Definition UINT32_MAX : Z := 0xFFFFFFFF.

(** ** The block device *)

Definition device : Type := Z -> Z.
Definition dev_read (d : device) (offset size : Z) : list Z := (fun i => d (offset + i)) <$> seqZ 0 size.
Definition dev_write (d : device) (offset : Z) (bytes : list Z) : device :=
  fun a => if (offset <=? a) && (a <? offset + Z.of_nat (length bytes))
           then default 0 (bytes !! Z.to_nat (a - offset)) else d a.

(** ** The cache *)

Record ext2_disk_cache_entry_t := Build_entry {
  block_no : Z;
  last_use : Z;
  dirty : Z;
  block : list Z
}.
Abbreviation entry := ext2_disk_cache_entry_t.

(** The fields of [ext2_fs_t] the block layer uses; no cache is [None]. *)
Record blocks_t := Build_blocks {
  block_device : device;
  block_size : Z;
  cache_time : Z;
  disk_cache : option (list entry)
}.

Definition set_cache (this : blocks_t) (dc : list entry) : blocks_t :=
  Build_blocks (block_device this) (block_size this) (cache_time this) (Some dc).
Definition set_device (this : blocks_t) (d : device) : blocks_t :=
  Build_blocks d (block_size this) (cache_time this) (disk_cache this).

(** The time before the increment, and the new state. *)
Definition get_cache_time (this : blocks_t) : Z * blocks_t :=
  (cache_time this,
   Build_blocks (block_device this) (block_size this) (u32 (cache_time this + 1)) (disk_cache this)).

Definition write_device (this : blocks_t) (no : Z) (bytes : list Z) : blocks_t :=
  set_device this (dev_write (block_device this) (u32 (no * block_size this)) bytes).
Definition read_device (this : blocks_t) (no : Z) : list Z :=
  dev_read (block_device this) (u32 (no * block_size this)) (block_size this).

Definition cache_flush_dirty (this : blocks_t) (dc : list entry) (ent_no : nat) : outcome blocks_t :=
  e ← of_option (dc !! ent_no);
  let this := write_device this (block_no e) (block e) in
  Ret (set_cache this (<[ent_no := Build_entry (block_no e) (last_use e) 0 (block e)]> dc)).

(** The search loop: the entry of the block, or the oldest entry. *)
Fixpoint search (dc : list entry) (no : Z) (i : nat) (oldest : option nat) (oldest_age : Z)
  : nat + option nat :=
  match dc with
  | [] => inr oldest
  | e :: dc' =>
      if block_no e =? no then inl i
      else if last_use e <? oldest_age then search dc' no (S i) (Some i) (last_use e)
      else search dc' no (S i) oldest oldest_age
  end.

(** Writes the entry about to be replaced back if it was changed; an index of
    -1 is outside the array. *)
Definition make_room (this : blocks_t) (dc : list entry) (oldest : option nat) : outcome (nat * blocks_t) :=
  i ← of_option oldest;
  e ← of_option (dc !! i);
  this ← (if truthy (dirty e) then cache_flush_dirty this dc i else Ret this);
  Ret (i, this).

Definition store_entry (this : blocks_t) (i : nat) (no time dirt : Z) (bytes : list Z) : blocks_t :=
  match disk_cache this with
  | Some dc => set_cache this (<[i := Build_entry no time dirt bytes]> dc)
  | None => this
  end.

(** Returns the error code, the buffer, which holds one block, and the state. *)
Definition read_block (this : blocks_t) (no : Z) (buf : list Z) : outcome (Z * list Z * blocks_t) :=
  if no =? 0 then Ret (E_BADBLOCK, buf, this)
  else
    match disk_cache this with
    | None => Ret (E_SUCCESS, read_device this no, this)
    | Some dc =>
        match search dc no 0 None UINT32_MAX with
        | inl i =>
            e ← of_option (dc !! i);
            let '(time, this) := get_cache_time this in
            Ret (E_SUCCESS, block e, store_entry this i (block_no e) time (dirty e) (block e))
        | inr oldest =>
            '(i, this) ← make_room this dc oldest;
            let bytes := read_device this no in
            let '(time, this) := get_cache_time this in
            Ret (E_SUCCESS, bytes, store_entry this i no time 0 bytes)
        end
    end.

Definition write_block (this : blocks_t) (no : Z) (buf : list Z) : outcome (Z * blocks_t) :=
  if no =? 0 then Ret (E_BADBLOCK, this)
  else
    buf ← mem_read buf 0 (block_size this);
    match disk_cache this with
    | None => Ret (E_SUCCESS, write_device this no buf)
    | Some dc =>
        match search dc no 0 None UINT32_MAX with
        | inl i =>
            e ← of_option (dc !! i);
            let '(time, this) := get_cache_time this in
            Ret (E_SUCCESS, store_entry this i (block_no e) time 1 buf)
        | inr oldest =>
            '(i, this) ← make_room this dc oldest;
            let '(time, this) := get_cache_time this in
            Ret (E_SUCCESS, store_entry this i no time 1 buf)
        end
    end.

Fixpoint sync_loop (this : blocks_t) (i todo : nat) : outcome blocks_t :=
  match todo with
  | O => Ret this
  | S todo' =>
      dc ← of_option (disk_cache this);
      e ← of_option (dc !! i);
      this ← (if truthy (dirty e) then cache_flush_dirty this dc i else Ret this);
      sync_loop this (S i) todo'
  end.

Definition ext2_sync (this : blocks_t) : outcome (Z * blocks_t) :=
  match disk_cache this with
  | None => Ret (0, this)
  | Some dc => this ← sync_loop this 0 (length dc); Ret (0, this)
  end.

(** ** Specification *)

Fixpoint find_block (dc : list entry) (no : Z) : option entry :=
  match dc with
  | [] => None
  | e :: dc' => if block_no e =? no then Some e else find_block dc' no
  end.

(** The contents of a block as the file system sees it. *)
Definition view (this : blocks_t) (no : Z) : list Z :=
  match disk_cache this with
  | None => read_device this no
  | Some dc => match find_block dc no with Some e => block e | None => read_device this no end
  end.

(** Block numbers whose bytes have 32-bit addresses. *)
Definition valid (this : blocks_t) (no : Z) : Prop := 0 < no /\ (no + 1) * block_size this <= 4294967296.

(** An entry holds a whole block; a clean one agrees with the device, and no
    block has two entries. *)
Definition entry_ok (this : blocks_t) (e : entry) : Prop :=
  Z.of_nat (length (block e)) = block_size this /\ last_use e < UINT32_MAX /\
  (block_no e = 0 -> dirty e = 0) /\
  (block_no e <> 0 -> valid this (block_no e) /\ (dirty e = 0 -> block e = read_device this (block_no e))).

Definition distinct (dc : list entry) : Prop :=
  forall i j e e', dc !! i = Some e -> dc !! j = Some e' -> block_no e = block_no e' -> block_no e <> 0 -> i = j.

Definition cache_ok (this : blocks_t) (dc : list entry) : Prop :=
  dc <> [] /\ 0 < block_size this /\ Forall (entry_ok this) dc /\ distinct dc.

Definition inv (this : blocks_t) : Prop :=
  0 < block_size this /\ match disk_cache this with None => True | Some dc => cache_ok this dc end.

Lemma dev_read_write d off n off' bytes :
  0 <= n -> (off + n <= off' \/ off' + Z.of_nat (length bytes) <= off) ->
  dev_read (dev_write d off' bytes) off n = dev_read d off n.
Proof.
  intros Hn Hd. unfold dev_read. apply list_fmap_ext. intros i x Hx. apply lookup_seqZ in Hx as [-> Hi].
  unfold dev_write. destruct (Z.leb_spec off' (off + (0 + Z.of_nat i))), (Z.ltb_spec (off + (0 + Z.of_nat i)) (off' + Z.of_nat (length bytes)));
    simpl; done || lia.
Qed.

Lemma dev_read_self d off bytes :
  dev_read (dev_write d off bytes) off (Z.of_nat (length bytes)) = bytes.
Proof.
  apply list_eq_same_length with (length bytes).
  { done. } { unfold dev_read. by rewrite length_fmap, length_seqZ, Nat2Z.id. }
  intros i x y Hi Hx Hy. unfold dev_read in Hx. rewrite list_lookup_fmap in Hx.
  apply fmap_Some in Hx as (k & Hk & ->).
  apply lookup_seqZ in Hk as [-> _]. unfold dev_write.
  destruct (Z.leb_spec off (off + (0 + Z.of_nat i))), (Z.ltb_spec (off + (0 + Z.of_nat i)) (off + Z.of_nat (length bytes)));
    simpl; try lia. replace (Z.to_nat (off + (0 + Z.of_nat i) - off)) with i by lia. by rewrite Hy.
Qed.

(** Writing a whole block of the device. *)
Lemma read_write_device this no no' bytes :
  valid this no -> valid this no' -> 0 < block_size this -> Z.of_nat (length bytes) = block_size this ->
  read_device (write_device this no bytes) no' = if no' =? no then bytes else read_device this no'.
Proof.
  intros [Hn Hb] [Hn' Hb'] Hs Hl. unfold read_device, write_device. simpl.
  rewrite !u32_small by nia. destruct (Z.eqb_spec no' no) as [->|Hne].
  - rewrite <- Hl. apply dev_read_self.
  - apply dev_read_write; [lia|]. rewrite Hl. nia.
Qed.

Lemma find_block_index dc no i e :
  distinct dc -> no <> 0 -> dc !! i = Some e -> block_no e = no -> find_block dc no = Some e.
Proof.
  intros Hd Hno Hi He. assert (is_Some (find_block dc no)) as [e' Hf].
  { clear Hd. revert i Hi. induction dc as [|e0 dc IH]; intros i Hi; [done|]. simpl.
    destruct (Z.eqb_spec (block_no e0) no); [eauto|]. destruct i; simpl in Hi; [congruence|]. eauto. }
  assert (exists j, dc !! j = Some e' /\ block_no e' = no) as (j & Hj & He').
  { clear - Hf. induction dc as [|e0 dc IH]; [done|]. simpl in Hf.
    destruct (Z.eqb_spec (block_no e0) no); [exists 0%nat; by simplify_eq|].
    destruct (IH Hf) as (j & ? & ?). by exists (S j). }
  assert (i = j) as -> by (eapply Hd; eauto; congruence). congruence.
Qed.

Lemma find_block_None dc no : (forall i e, dc !! i = Some e -> block_no e <> no) <-> find_block dc no = None.
Proof.
  induction dc as [|e dc IH]; simpl; [split; [done|]; intros _ i e He; by rewrite lookup_nil in He|].
  destruct (Z.eqb_spec (block_no e) no) as [E|E].
  - split; [|done]. intros Hn. by destruct (Hn 0%nat e).
  - rewrite <- IH. split.
    + intros Hn i e' Hi. by apply (Hn (S i)).
    + intros Hn [|i] e' Hi; simpl in Hi; [congruence|by apply (Hn i)].
Qed.

Lemma search_spec dc no i oldest age :
  match search dc no i oldest age with
  | inl j => exists k e, j = (i + k)%nat /\ dc !! k = Some e /\ block_no e = no
  | inr r => find_block dc no = None /\
      (r = oldest \/ exists k e, r = Some (i + k)%nat /\ dc !! k = Some e) /\
      ((exists e, e ∈ dc /\ last_use e < age) -> r <> oldest \/ oldest <> None)
  end.
Proof.
  revert i oldest age. induction dc as [|e dc IH]; intros i oldest age; cbn [search find_block].
  { split; [done|]. split; [by left|]. intros (e & He & _). by apply elem_of_nil in He. }
  destruct (Z.eqb_spec (block_no e) no) as [E|E].
  { exists 0%nat, e. rewrite Nat.add_0_r. done. }
  destruct (Z.ltb_spec (last_use e) age) as [Hlt|Hge].
  - specialize (IH (S i) (Some i) (last_use e)). destruct (search dc no (S i) (Some i) (last_use e)) as [j|r].
    + destruct IH as (k & e' & -> & Hk & He'). exists (S k), e'. split; [lia|]. done.
    + destruct IH as (Hn & [->|(k & e' & -> & Hk)] & _).
      * split; [done|]. split; [right; exists 0%nat, e; by rewrite Nat.add_0_r|]. intros _.
        destruct oldest; [by right|by left].
      * split; [done|]. split; [right; exists (S k), e'; split; [f_equal; lia|done]|]. intros _.
        destruct oldest; [by right|by left].
  - specialize (IH (S i) oldest age). destruct (search dc no (S i) oldest age) as [j|r].
    + destruct IH as (k & e' & -> & Hk & He'). exists (S k), e'. split; [lia|]. done.
    + destruct IH as (Hn & Hr & Hex). split; [done|]. split.
      * destruct Hr as [->|(k & e' & -> & Hk)]; [by left|]. right. exists (S k), e'. split; [f_equal; lia|done].
      * intros (e' & He' & Hlt'). apply Hex. apply elem_of_cons in He' as [->|He']; [lia|]. by exists e'.
Qed.

(** The search on a well-formed cache. *)
Lemma search_ok this dc no :
  cache_ok this dc -> no <> 0 ->
  match search dc no 0 None UINT32_MAX with
  | inl i => exists e, dc !! i = Some e /\ block_no e = no /\ find_block dc no = Some e
  | inr r => find_block dc no = None /\ exists i e, r = Some i /\ dc !! i = Some e
  end.
Proof.
  intros (Hne & _ & Hok & Hd) Hno. pose proof (search_spec dc no 0 None UINT32_MAX) as Hs.
  destruct (search dc no 0 None UINT32_MAX) as [i|r].
  - destruct Hs as (k & e & -> & Hk & He). exists e. split; [done|]. split; [done|]. by eapply find_block_index.
  - destruct Hs as (Hn & Hr & Hex). split; [done|]. destruct dc as [|e dc]; [done|].
    apply Forall_cons_1 in Hok as [(_ & Hlu & _) _].
    destruct Hr as [->|(k & e' & -> & Hk)]; [|by exists k, e'].
    destruct Hex as [?|?]; [exists e; split; [left|done]|done|done].
Qed.

Lemma find_block_Some dc no e :
  find_block dc no = Some e -> exists i, dc !! i = Some e /\ block_no e = no.
Proof.
  induction dc as [|e0 dc IH]; simpl; [done|]. destruct (Z.eqb_spec (block_no e0) no).
  - intros [= <-]. by exists 0%nat.
  - intros (j & ? & ?)%IH. by exists (S j).
Qed.

(** A state in which only the cache and its clock changed. *)
Definition with_cache (this : blocks_t) (time : Z) (dc : list entry) : blocks_t :=
  Build_blocks (block_device this) (block_size this) time (Some dc).

Lemma lookup_insert_cases {A} (l : list A) i j x y :
  <[i := x]> l !! j = Some y -> (j = i /\ y = x) \/ (j <> i /\ l !! j = Some y).
Proof.
  intros Hl. destruct (decide (j = i)) as [->|]; [left|right; by rewrite list_lookup_insert_ne in Hl].
  split; [done|]. pose proof (lookup_lt_Some _ _ _ Hl) as Hlt. rewrite length_insert in Hlt.
  rewrite list_lookup_insert_eq in Hl by done. congruence.
Qed.

(** Giving entry [i] to block [no], which no other entry holds: the old block is
    [no] itself or is on the device. *)
Lemma replace_ok this dc i e no time t dirt bytes :
  disk_cache this = Some dc -> cache_ok this dc -> dc !! i = Some e ->
  (forall j e', dc !! j = Some e' -> j <> i -> block_no e' <> no) ->
  block_no e = no \/ dirty e = 0 -> valid this no ->
  Z.of_nat (length bytes) = block_size this -> time < UINT32_MAX -> (dirt = 0 -> bytes = read_device this no) ->
  let this' := with_cache this t (<[i := Build_entry no time dirt bytes]> dc) in
  inv this' /\ forall no', no' <> 0 -> view this' no' = if no' =? no then bytes else view this no'.
Proof.
  intros Hdc (Hne & Hbs & Hok & Hd) Hi Hother Hold Hv Hl Ht Hclean.
  set (x := Build_entry no time dirt bytes). intros this'.
  assert (no <> 0) as Hno by (destruct Hv; lia).
  assert (distinct (<[i := x]> dc)) as Hd'.
  { intros j k e1 e2 Hj Hk E Hn. apply lookup_insert_cases in Hj as [[-> ->]|[Hji Hj]], Hk as [[-> ->]|[Hki Hk]].
    - done.
    - exfalso. by apply (Hother k e2 Hk Hki).
    - exfalso. by apply (Hother j e1 Hj Hji).
    - by eapply Hd. }
  assert ((i < length dc)%nat) as Hlt by (by eapply lookup_lt_Some).
  assert (<[i := x]> dc !! i = Some x) as Hx by (by apply list_lookup_insert_eq).
  split.
  - split; [done|]. split; [intros E; apply (f_equal length) in E; rewrite length_insert in E; simpl in E; lia|].
    split; [done|]. split; [|done]. apply Forall_insert; [done|]. done.
  - intros no' Hno'. unfold view, this'. cbn [disk_cache with_cache]. rewrite Hdc.
    change (read_device (with_cache this t (<[i := x]> dc))) with (read_device this).
    destruct (Z.eqb_spec no' no) as [->|Hnn]; [by rewrite (find_block_index _ no i x)|].
    destruct (find_block dc no') as [y|] eqn:Ef.
    + apply find_block_Some in Ef as (j & Hj & Hy). destruct (decide (j = i)) as [->|Hji].
      * assert (y = e) as -> by congruence. destruct Hold as [?|Hcl]; [congruence|].
        destruct (Forall_lookup_1 _ _ _ _ Hok Hi) as (_ & _ & _ & Hr). destruct Hr as [_ Hr]; [congruence|].
        rewrite (proj1 (find_block_None _ no')); [rewrite Hr by done; by rewrite Hy|].
        intros k z Hk. apply lookup_insert_cases in Hk as [[-> ->]|[Hki Hk]]; [done|].
        intros Ez. apply Hki. eapply Hd; eauto; congruence.
      * by rewrite (find_block_index _ no' j y) by (done || by rewrite list_lookup_insert_ne).
    + rewrite (proj1 (find_block_None _ no')); [done|].
      intros k z Hk. apply lookup_insert_cases in Hk as [[-> ->]|[Hki Hk]]; [done|].
      apply (proj2 (find_block_None dc no') Ef k z Hk).
Qed.

(** Writing a dirty entry back. *)
Lemma flush_ok this dc i e :
  disk_cache this = Some dc -> cache_ok this dc -> dc !! i = Some e -> dirty e <> 0 ->
  exists this', cache_flush_dirty this dc i = Ret this' /\
    disk_cache this' = Some (<[i := Build_entry (block_no e) (last_use e) 0 (block e)]> dc) /\
    block_size this' = block_size this /\ cache_time this' = cache_time this /\
    cache_ok this' (<[i := Build_entry (block_no e) (last_use e) 0 (block e)]> dc) /\
    (forall no, valid this no -> view this' no = view this no).
Proof.
  intros Hdc (Hne & Hbs & Hok & Hd) Hi Hdirty. unfold cache_flush_dirty. rewrite Hi.
  cbn [mbind outcome_bind of_option]. set (x := Build_entry _ _ _ _).
  destruct (Forall_lookup_1 _ _ _ _ Hok Hi) as (Hl & Hlu & Hz & Hnz).
  assert (block_no e <> 0) as Hb by (intros E; by apply Hdirty, Hz). destruct (Hnz Hb) as [Hv _].
  assert ((i < length dc)%nat) as Hlt by (by eapply lookup_lt_Some).
  assert (distinct (<[i := x]> dc)) as Hd'.
  { intros j k e1 e2 Hj Hk E Hn. apply lookup_insert_cases in Hj as [[-> ->]|[Hji Hj]], Hk as [[-> ->]|[Hki Hk]];
      [done| | |by eapply Hd].
    - by apply (Hd i k e e2).
    - by apply (Hd j i e1 e). }
  eexists. split; [done|]. split; [done|]. split; [done|]. split; [done|].
  assert (forall no, valid this no -> read_device (write_device this (block_no e) (block e)) no =
    if no =? block_no e then block e else read_device this no) as Hread.
  { intros no Hno. by apply read_write_device. }
  split.
  - split; [intros E; apply (f_equal length) in E; rewrite length_insert in E; simpl in E; lia|].
    split; [done|]. split; [|done]. apply Forall_lookup_2. intros j y Hj.
    apply lookup_insert_cases in Hj as [[-> ->]|[Hji Hj]].
    + split; [done|]. split; [done|]. split; [done|]. intros _. split; [done|]. intros _. symmetry.
      transitivity (if block_no e =? block_no e then block e else read_device this (block_no e));
        [by apply Hread|by rewrite Z.eqb_refl].
    + destruct (Forall_lookup_1 _ _ _ _ Hok Hj) as (Hl' & Hlu' & Hz' & Hnz').
      split; [done|]. split; [done|]. split; [done|]. intros Hb'. destruct (Hnz' Hb') as [Hv' Hr'].
      split; [done|]. intros Hc. rewrite (Hr' Hc) at 1. symmetry.
      transitivity (if block_no y =? block_no e then block e else read_device this (block_no y)); [by apply Hread|].
      destruct (Z.eqb_spec (block_no y) (block_no e)) as [E|]; [|done]. exfalso. apply Hji. by eapply Hd.
  - intros no Hno. unfold view. simpl. rewrite Hdc.
    assert (no <> 0) as Hn0 by (destruct Hno; lia).
    destruct (find_block dc no) as [y|] eqn:Ef.
    + apply find_block_Some in Ef as (j & Hj & Hy). destruct (decide (j = i)) as [->|Hji].
      * assert (y = e) as -> by congruence.
        by rewrite (find_block_index _ no i x) by (done || by apply list_lookup_insert_eq).
      * by rewrite (find_block_index _ no j y) by (done || by rewrite list_lookup_insert_ne).
    + rewrite (proj1 (find_block_None _ no)).
      * transitivity (if no =? block_no e then block e else read_device this no); [by apply Hread|].
        destruct (Z.eqb_spec no (block_no e)) as [->|]; [|done].
        exfalso. by apply (proj2 (find_block_None dc _) Ef i e Hi).
      * intros k z Hk. apply lookup_insert_cases in Hk as [[-> ->]|[Hki Hk]].
        -- intros E. by apply (proj2 (find_block_None dc _) Ef i e Hi).
        -- apply (proj2 (find_block_None dc _) Ef k z Hk).
Qed.

Lemma make_room_ok this dc i e :
  disk_cache this = Some dc -> cache_ok this dc -> dc !! i = Some e ->
  exists this' dc' e', make_room this dc (Some i) = Ret (i, this') /\ disk_cache this' = Some dc' /\
    dc' !! i = Some e' /\ dirty e' = 0 /\ cache_ok this' dc' /\
    block_size this' = block_size this /\ cache_time this' = cache_time this /\
    (forall no, find_block dc no = None -> find_block dc' no = None) /\
    (forall no, valid this no -> view this' no = view this no).
Proof.
  intros Hdc Hok Hi. unfold make_room. cbn [mbind outcome_bind of_option]. rewrite Hi.
  cbn [mbind outcome_bind of_option]. unfold truthy. destruct (Z.eqb_spec (dirty e) 0) as [E|E]; cbn [negb].
  - exists this, dc, e. done.
  - destruct (flush_ok this dc i e Hdc Hok Hi E) as (this' & -> & Hdc' & Hbs & Hct & Hok' & Hv).
    cbn [mbind outcome_bind]. exists this'. do 2 eexists. split; [done|]. split; [done|].
    split; [apply list_lookup_insert_eq; by eapply lookup_lt_Some|]. do 4 (split; [done|]). split; [|done].
    intros no Hn. apply find_block_None. intros k z Hk. apply lookup_insert_cases in Hk as [[-> ->]|[Hki Hk]].
    + simpl. by apply (proj2 (find_block_None dc no) Hn i e).
    + by apply (proj2 (find_block_None dc no) Hn k z).
Qed.

Lemma others_differ this dc i e no :
  cache_ok this dc -> dc !! i = Some e -> block_no e = no -> no <> 0 ->
  forall j e', dc !! j = Some e' -> j <> i -> block_no e' <> no.
Proof. intros (_ & _ & _ & Hd) Hi <- Hn j e' Hj Hji E. apply Hji. eapply Hd; eauto. congruence. Qed.

Lemma length_read_device this no : 0 < block_size this -> Z.of_nat (length (read_device this no)) = block_size this.
Proof. intros. unfold read_device, dev_read. rewrite length_fmap, length_seqZ. lia. Qed.

(** Every block the file system sees is a whole block. *)
Lemma length_view this no : inv this -> Z.of_nat (length (view this no)) = block_size this.
Proof.
  intros [Hbs Hinv]. unfold view. destruct (disk_cache this) as [dc|]; [|by apply length_read_device].
  destruct (find_block dc no) as [e|] eqn:Ef; [|by apply length_read_device].
  apply find_block_Some in Ef as (i & Hi & _). destruct Hinv as (_ & _ & Hok & _).
  by destruct (Forall_lookup_1 _ _ _ _ Hok Hi).
Qed.

Lemma clock_step z : 0 <= z -> 0 <= u32 (z + 1) <= z + 1.
Proof. intros. split; [apply Z.mod_pos_bound; lia|apply Z.mod_le; lia]. Qed.

Lemma read_block_ok this no buf :
  inv this -> valid this no -> 0 <= cache_time this < UINT32_MAX -> 
  exists this', read_block this no buf = Ret (E_SUCCESS, view this no, this') /\ inv this' /\
    block_size this' = block_size this /\ 0 <= cache_time this' <= cache_time this + 1 /\
    forall no', valid this no' -> view this' no' = view this no'.
Proof.
  intros [Hbs Hinv] Hv Hct. assert (no <> 0) as Hno by (destruct Hv; lia). unfold read_block.
  destruct (Z.eqb_spec no 0); [done|]. unfold view at 1. destruct (disk_cache this) as [dc|] eqn:Hdc.
  2: { exists this. split; [done|]. split; [|split; [done|split; [lia|done]]]. split; [done|]. by rewrite Hdc. }
  pose proof (search_ok this dc no Hinv Hno) as Hs. destruct (search dc no 0 None UINT32_MAX) as [i|r].
  - destruct Hs as (e & Hi & He & ->). rewrite Hi. cbn [mbind outcome_bind of_option get_cache_time].
    pose proof Hinv as (_ & _ & Hok & _). destruct (Forall_lookup_1 _ _ _ _ Hok Hi) as (Hl & _ & _ & Hnz).
    rewrite He in *. destruct (Hnz Hno) as [_ Hr].
    unfold store_entry. cbn [disk_cache]. rewrite Hdc. eexists. split; [done|].
    destruct (replace_ok this dc i e no (cache_time this) (u32 (cache_time this + 1)) (dirty e) (block e))
      as [Hi' Hv']; try done; try lia; [by apply (others_differ this dc i e)|].
    split; [done|]. split; [done|]. split; [apply clock_step; lia|]. intros no' Hn'. rewrite Hv' by (destruct Hn'; lia).
    destruct (Z.eqb_spec no' no) as [->|]; [|done]. unfold view. rewrite Hdc.
    destruct Hinv as (_ & _ & _ & Hd). by rewrite (find_block_index _ no i e).
  - destruct Hs as (Hn & i & e & -> & Hi).
    destruct (make_room_ok this dc i e Hdc Hinv Hi) as (t1 & dc' & e' & -> & Hdc' & Hi' & Hcl & Hok' & Eb & Ec & Hnn & Hvw).
    cbn [mbind outcome_bind get_cache_time]. rewrite Hn. unfold store_entry. cbn [disk_cache]. rewrite Hdc'.
    assert (valid t1 no) as Hv1 by (unfold valid; by rewrite Eb).
    assert (read_device t1 no = read_device this no) as Er.
    { specialize (Hvw no Hv). unfold view in Hvw. rewrite Hdc, Hdc', Hn, (Hnn no Hn) in Hvw. done. }
    eexists. split; [by rewrite Er|].
    destruct (replace_ok t1 dc' i e' no (cache_time t1) (u32 (cache_time t1 + 1)) 0 (read_device this no))
      as [Hinv' Hv']; try done; [|by right| |lia|].
    + intros j z Hj _. by apply (proj2 (find_block_None dc' no) (Hnn no Hn) j z).
    + rewrite Eb. by apply length_read_device.
    + split; [done|]. split; [done|]. split; [rewrite <- Ec; apply clock_step; lia|].
      intros no' Hn'. rewrite Hv' by (destruct Hn'; lia). rewrite <- (Hvw no' Hn').
      destruct (Z.eqb_spec no' no) as [->|]; [|done]. unfold view. rewrite Hdc', (Hnn no Hn). done.
Qed.

Lemma write_block_ok this no buf :
  inv this -> valid this no -> 0 <= cache_time this < UINT32_MAX -> Z.of_nat (length buf) = block_size this ->
  exists this', write_block this no buf = Ret (E_SUCCESS, this') /\ inv this' /\
    block_size this' = block_size this /\ 0 <= cache_time this' <= cache_time this + 1 /\
    forall no', valid this no' -> view this' no' = if no' =? no then buf else view this no'.
Proof.
  intros [Hbs Hinv] Hv Hct Hl. assert (no <> 0) as Hno by (destruct Hv; lia). unfold write_block.
  destruct (Z.eqb_spec no 0); [done|]. rewrite mem_read_all by done. cbn [mbind outcome_bind].
  destruct (disk_cache this) as [dc|] eqn:Hdc.
  2: { eexists. split; [done|]. split; [split; simpl; by rewrite ?Hdc|].
       split; [done|]. split; [simpl; lia|]. intros no' Hn'. unfold view. simpl.
       rewrite Hdc. by apply read_write_device. }
  pose proof (search_ok this dc no Hinv Hno) as Hs. destruct (search dc no 0 None UINT32_MAX) as [i|r].
  - destruct Hs as (e & Hi & He & Hf). rewrite Hi. cbn [mbind outcome_bind of_option get_cache_time].
    rewrite He. unfold store_entry. cbn [disk_cache]. rewrite Hdc. eexists. split; [done|].
    destruct (replace_ok this dc i e no (cache_time this) (u32 (cache_time this + 1)) 1 buf)
      as [Hi' Hv']; try done; try lia; [by apply (others_differ this dc i e)|].
    split; [done|]. split; [done|]. split; [apply clock_step; lia|]. intros no' Hn'. apply Hv'. destruct Hn'. lia.
  - destruct Hs as (Hn & i & e & -> & Hi).
    destruct (make_room_ok this dc i e Hdc Hinv Hi) as (t1 & dc' & e' & -> & Hdc' & Hi' & Hcl & Hok' & Eb & Ec & Hnn & Hvw).
    cbn [mbind outcome_bind get_cache_time]. unfold store_entry. cbn [disk_cache]. rewrite Hdc'.
    assert (valid t1 no) as Hv1 by (unfold valid; by rewrite Eb).
    eexists. split; [done|].
    destruct (replace_ok t1 dc' i e' no (cache_time t1) (u32 (cache_time t1 + 1)) 1 buf)
      as [Hinv' Hv']; try done; [|by right|by rewrite Eb|lia|].
    + intros j z Hj _. by apply (proj2 (find_block_None dc' no) (Hnn no Hn) j z).
    + split; [done|]. split; [done|]. split; [rewrite <- Ec; apply clock_step; lia|].
      intros no' Hn'. rewrite Hv' by (destruct Hn'; lia). by rewrite (Hvw no' Hn').
Qed.

(** ** Properties *)

(** Reading a block gives what the file system last wrote there, from the
    cache or the device, and no block changes. *)
Theorem read_block_view this no buf :
  inv this -> valid this no -> 0 <= cache_time this < UINT32_MAX -> 
  exists this', read_block this no buf = Ret (E_SUCCESS, view this no, this') /\ inv this' /\
    forall no', valid this no' -> view this' no' = view this no'.
Proof.
  intros. destruct (read_block_ok this no buf) as (this' & ? & ? & _ & _ & ?); try done. by exists this'.
Qed.

(** C4: writing a block replaces that block and no other in what the file system
    sees. *)
Theorem write_block_view this no buf :
  inv this -> valid this no -> 0 <= cache_time this < UINT32_MAX -> Z.of_nat (length buf) = block_size this ->
  exists this', write_block this no buf = Ret (E_SUCCESS, this') /\ inv this' /\
    forall no', valid this no' -> view this' no' = if no' =? no then buf else view this no'.
Proof.
  intros. destruct (write_block_ok this no buf) as (this' & ? & ? & _ & _ & ?); try done. by exists this'.
Qed.

Lemma sync_loop_ok this dc i todo :
  disk_cache this = Some dc -> cache_ok this dc -> (i + todo = length dc)%nat ->
  (forall j e, (j < i)%nat -> dc !! j = Some e -> dirty e = 0) ->
  exists this' dc', sync_loop this i todo = Ret this' /\ disk_cache this' = Some dc' /\ cache_ok this' dc' /\
    block_size this' = block_size this /\ cache_time this' = cache_time this /\ Forall (fun e => dirty e = 0) dc' /\
    forall no, valid this no -> view this' no = view this no.
Proof.
  revert this dc i. induction todo as [|todo IH]; intros this dc i Hdc Hok Hl Hcl; cbn [sync_loop].
  { exists this, dc. do 5 (split; [done|]). split; [|done]. apply Forall_lookup_2. intros j e Hj.
    apply (Hcl j e); [|done]. apply lookup_lt_Some in Hj. lia. }
  rewrite Hdc. cbn [mbind outcome_bind of_option].
  destruct (lookup_lt_is_Some_2 dc i) as [e Hi]; [lia|]. rewrite Hi. cbn [mbind outcome_bind of_option].
  unfold truthy. destruct (Z.eqb_spec (dirty e) 0) as [E|E]; cbn [negb].
  - cbn [mbind outcome_bind]. apply IH with dc; [done|done|lia|]. intros j e' Hj Hje.
    destruct (decide (j = i)) as [->|]; [congruence|]. apply (Hcl j e'); [lia|done].
  - destruct (flush_ok this dc i e Hdc Hok Hi E) as (t1 & -> & Hdc1 & Hbs & Hct & Hok1 & Hv1).
    cbn [mbind outcome_bind].
    destruct (IH t1 _ (S i) Hdc1 Hok1) as (this' & dc' & -> & Hdc' & Hok' & Hbs' & Hct' & Hcl' & Hv').
    + rewrite length_insert. lia.
    + intros j e' Hj Hje. apply lookup_insert_cases in Hje as [[-> ->]|[Hji Hje]]; [done|]. apply (Hcl j e'); [lia|done].
    + exists this', dc'. do 3 (split; [done|]). do 2 (split; [congruence|]). split; [done|]. intros no Hno.
      rewrite Hv' by (unfold valid; by rewrite Hbs). by apply Hv1.
Qed.

Lemma ext2_sync_ok this :
  inv this ->
  exists this', ext2_sync this = Ret (0, this') /\ inv this' /\
    block_size this' = block_size this /\ cache_time this' = cache_time this /\
    forall no, valid this no -> read_device this' no = view this no /\ view this' no = view this no.
Proof.
  intros [Hbs Hinv]. unfold ext2_sync. destruct (disk_cache this) as [dc|] eqn:Hdc.
  2: { exists this. split; [done|]. split; [split; by rewrite ?Hdc|]. do 2 (split; [done|]).
       intros no _. unfold view. by rewrite Hdc. }
  destruct (sync_loop_ok this dc 0 (length dc) Hdc Hinv) as (this' & dc' & -> & Hdc' & Hok' & Eb & Ec & Hcl & Hv);
    [done|intros; lia|].
  cbn [mbind outcome_bind]. exists this'. split; [done|]. split; [split; [by rewrite Eb|by rewrite Hdc']|].
  do 2 (split; [done|]). intros no Hno. split; [|by apply Hv]. rewrite <- Hv by done. unfold view. rewrite Hdc'.
  destruct (find_block dc' no) as [e|] eqn:Ef; [|done]. apply find_block_Some in Ef as (i & Hi & He).
  destruct Hok' as (_ & _ & Hok' & _). destruct (Forall_lookup_1 _ _ _ _ Hok' Hi) as (_ & _ & _ & Hnz).
  rewrite Forall_lookup in Hcl. destruct Hnz as [_ Hr]; [destruct Hno; congruence || lia|].
  rewrite Hr by (by eapply Hcl). by rewrite He.
Qed.

(** After [ext2_sync] the device itself holds every block as the file system
    sees it. *)
Theorem ext2_sync_writes_back this :
  inv this ->
  exists this', ext2_sync this = Ret (0, this') /\ inv this' /\
    forall no, valid this no -> read_device this' no = view this no /\ view this' no = view this no.
Proof. intros. destruct (ext2_sync_ok this) as (this' & ? & ? & _ & _ & ?); [done|]. by exists this'. Qed.

(** ** Witnesses *)

(** Two-byte blocks; block 3 is cached and changed, the other entry is unused. *)
Definition demo : blocks_t :=
  Build_blocks (fun a => a mod 7) 2 5 (Some [Build_entry 3 1 1 [40; 41]; Build_entry 0 0 0 [0; 0]]).

Lemma demo_cache_inv : inv demo.
Proof.
  split; [done|]. split; [done|]. split; [done|]. split.
  - constructor; [|constructor; [|constructor]].
    + split; [done|]. split; [done|]. split; [done|]. intros _. split; [unfold valid; simpl; lia|done].
    + split; [done|]. split; [done|]. split; [done|]. done.
  - intros [|[|i]] [|[|j]] e e' Hi Hj; simpl in *; simplify_eq; try done; try (by rewrite lookup_nil in *).
Qed.

Lemma read_block_view_witness :
  exists this', read_block demo 3 [0; 0] = Ret (E_SUCCESS, [40; 41], this') /\ inv this' /\
    forall no', valid demo no' -> view this' no' = view demo no'.
Proof. apply (read_block_view demo 3 [0; 0] demo_cache_inv); [unfold valid; simpl; lia|simpl; unfold UINT32_MAX; lia]. Defined.

Lemma write_block_view_witness :
  exists this', write_block demo 4 [9; 8] = Ret (E_SUCCESS, this') /\ inv this' /\
    forall no', valid demo no' -> view this' no' = if no' =? 4 then [9; 8] else view demo no'.
Proof. apply (write_block_view demo 4 [9; 8] demo_cache_inv); [unfold valid; simpl; lia|simpl; unfold UINT32_MAX; lia|reflexivity]. Defined.

Lemma ext2_sync_writes_back_witness :
  exists this', ext2_sync demo = Ret (0, this') /\ inv this' /\
    forall no, valid demo no -> read_device this' no = view demo no /\ view this' no = view demo no.
Proof. apply (ext2_sync_writes_back demo demo_cache_inv). Defined.

End Ext2Cache.
