(* ===== verification/Ext2.v ===== *)
(** * Inodes and block numbers of [kernel/src/ext2.c]

    The superblock, the block group descriptors, inodes and the blocks that
    hold block numbers are overlays on bytes in the source, and are kept as
    bytes here: a field is a little-endian number at an offset.  Blocks are
    read and written through [Ext2Cache]; the error codes of these calls are
    ignored by the source.  [junk] is the contents of a buffer that [malloc]
    returned. *)

From stdpp Require Import base numbers list.
From S2P Require Import Prelude Ext2Cache.

(** ** Little-endian fields of byte arrays *)

Module Field.

Fixpoint combine (bytes : list Z) : Z :=
  match bytes with
  | [] => 0
  | b :: bytes' => b + 256 * combine bytes'
  end.

Fixpoint bytes_of (n : nat) (v : Z) : list Z :=
  match n with
  | O => []
  | S n' => v mod 256 :: bytes_of n' (v / 256)
  end.

Definition get (n : nat) (l : list Z) (pos : Z) : outcome Z :=
  bytes ← mem_read l pos (Z.of_nat n);
  Ret (combine bytes).

Definition put (n : nat) (l : list Z) (pos v : Z) : outcome (list Z) := mem_write l pos (bytes_of n v).

Lemma length_bytes_of n v : length (bytes_of n v) = n.
Proof. revert v. induction n as [|n IH]; intros v; simpl; [done|]. by rewrite IH. Qed.

Lemma combine_bytes_of n v : 0 <= v < 256 ^ Z.of_nat n -> combine (bytes_of n v) = v.
Proof.
  revert v. induction n as [|n IH]; intros v Hv; simpl.
  { change (256 ^ Z.of_nat 0) with 1 in Hv. lia. }
  rewrite Nat2Z.inj_succ, Z.pow_succ_r in Hv by lia.
  rewrite IH; [pose proof (Z.div_mod v 256); lia|].
  split; [apply Z.div_pos; lia|]. apply Z.div_lt_upper_bound; lia.
Qed.

Lemma get_ok n l pos :
  0 <= pos -> pos + Z.of_nat n <= Z.of_nat (length l) -> exists v, get n l pos = Ret v.
Proof.
  intros Hp Hl. unfold get. destruct (mem_read_ok l pos (Z.of_nat n)) as (bs & -> & _); [lia|lia|lia|].
  cbn [mbind outcome_bind]. eauto.
Qed.

(** A field is read back as written, and other fields are kept. *)
Lemma put_ok n l pos v :
  0 <= pos -> pos + Z.of_nat n <= Z.of_nat (length l) -> 0 <= v < 256 ^ Z.of_nat n ->
  exists l', put n l pos v = Ret l' /\ length l' = length l /\ get n l' pos = Ret v /\
    forall n' pos', 0 <= pos' -> pos' + Z.of_nat n' <= pos \/ pos + Z.of_nat n <= pos' ->
      get n' l' pos' = get n' l pos'.
Proof.
  intros Hp Hl Hv. unfold put, get.
  destruct (mem_write_read l pos (bytes_of n v)) as (l' & -> & Hl' & Hr & Ho); [done|by rewrite length_bytes_of|].
  rewrite length_bytes_of in Hr, Ho. exists l'. split; [done|]. split; [done|]. split.
  - rewrite Hr. cbn [mbind outcome_bind]. by rewrite combine_bytes_of.
  - intros n' pos' Hp' Hd. by rewrite Ho.
Qed.

End Field.

Module Ext2.
Import Ext2Cache.

Definition E_NOSPACE : Z := 2.
Definition EXT2_DIRECT_BLOCKS : Z := 12.

(** [ext2_fs_t]; the block groups and the superblock are bytes. *)
Record ext2_fs_t := Build_fs {
  blk : blocks_t;
  superblock : list Z;
  block_groups : list Z;
  pointers_per_block : Z;
  inodes_per_group : Z;
  block_group_count : Z;
  bgd_block_span : Z;
  bgd_offset : Z;
  inode_size : Z
}.

Definition bsize (this : ext2_fs_t) : Z := block_size (blk this).

Definition set_blk (this : ext2_fs_t) (b : blocks_t) : ext2_fs_t :=
  Build_fs b (superblock this) (block_groups this) (pointers_per_block this) (inodes_per_group this)
    (block_group_count this) (bgd_block_span this) (bgd_offset this) (inode_size this).
Definition set_groups (this : ext2_fs_t) (g : list Z) : ext2_fs_t :=
  Build_fs (blk this) (superblock this) g (pointers_per_block this) (inodes_per_group this)
    (block_group_count this) (bgd_block_span this) (bgd_offset this) (inode_size this).
Definition set_super (this : ext2_fs_t) (sb : list Z) : ext2_fs_t :=
  Build_fs (blk this) sb (block_groups this) (pointers_per_block this) (inodes_per_group this)
    (block_group_count this) (bgd_block_span this) (bgd_offset this) (inode_size this).

(** Fields of the superblock, of descriptor [i] and of an inode. *)
Definition SB_free_blocks_count : Z := 12.
Definition SB_free_inodes_count : Z := 16.
Definition SB_blocks_per_group : Z := 32.
Definition sizeof_bgdescriptor : Z := 32.
Definition BGD_block_bitmap (i : Z) : Z := i * sizeof_bgdescriptor.
Definition BGD_inode_bitmap (i : Z) : Z := i * sizeof_bgdescriptor + 4.
Definition BGD_inode_table (i : Z) : Z := i * sizeof_bgdescriptor + 8.
Definition BGD_free_blocks_count (i : Z) : Z := i * sizeof_bgdescriptor + 12.
Definition BGD_free_inodes_count (i : Z) : Z := i * sizeof_bgdescriptor + 14.
Definition inode_size_field : Z := 4.
Definition inode_blocks : Z := 28.
Definition inode_block (i : Z) : Z := 40 + 4 * i.

Section Driver.
Context (junk : list Z).

(** [read_block] and [write_block] with their result ignored. *)
Definition bread (this : ext2_fs_t) (no : Z) (buf : list Z) : outcome (list Z * ext2_fs_t) :=
  '(_, buf, b) ← read_block (blk this) no buf;
  Ret (buf, set_blk this b).
Definition bwrite (this : ext2_fs_t) (no : Z) (buf : list Z) : outcome ext2_fs_t :=
  '(_, b) ← write_block (blk this) no buf;
  Ret (set_blk this b).

Definition rewrite_superblock (this : ext2_fs_t) : ext2_fs_t :=
  set_blk this (set_device (blk this) (dev_write (block_device (blk this)) 1024 (superblock this))).

(** Block and offset of an inode in the inode table. *)
Definition inode_place (this : ext2_fs_t) (index : Z) : outcome (option (Z * Z)) :=
  if (inodes_per_group this =? 0) || (bsize this =? 0) || (inode_size this =? 0) then Fault
  else
    let group := index / inodes_per_group this in
    if block_group_count this <? group then Ret None
    else
      inode_table_block ← Field.get 4 (block_groups this) (BGD_inode_table group);
      let index := u32 (index - group * inodes_per_group this) in
      let block_offset := u32 (u32 (index - 1) * inode_size this) / bsize this in
      let offset_in_block := u32 (u32 (index - 1) - block_offset * (bsize this / inode_size this)) in
      Ret (Some (u32 (inode_table_block + block_offset), u32 (offset_in_block * inode_size this))).

Definition write_inode (this : ext2_fs_t) (inode : list Z) (index : Z) : outcome (Z * ext2_fs_t) :=
  place ← inode_place this index;
  match place with
  | None => Ret (E_BADBLOCK, this)
  | Some (no, pos) =>
      '(inodet, this) ← bread this no junk;
      bytes ← mem_read inode 0 (inode_size this);
      inodet ← mem_write inodet pos bytes;
      this ← bwrite this no inodet;
      Ret (E_SUCCESS, this)
  end.

(** Fills [inodet] from the disk. *)
Definition refresh_inode (this : ext2_fs_t) (inodet : list Z) (inode : Z) : outcome (list Z * ext2_fs_t) :=
  place ← inode_place this inode;
  match place with
  | None => Ret (inodet, this)
  | Some (no, pos) =>
      '(buf, this) ← bread this no junk;
      bytes ← mem_read buf pos (inode_size this);
      inodet ← mem_write inodet 0 bytes;
      Ret (inodet, this)
  end.

Definition read_inode (this : ext2_fs_t) (inode : Z) : outcome (list Z * ext2_fs_t) :=
  refresh_inode this (take (Z.to_nat (inode_size this)) junk) inode.

(** [BLOCKBIT(n)], and the loop that skips the bits that are set. *)
Definition BLOCKBIT (bg_buffer : list Z) (n : Z) : outcome Z :=
  b ← aget bg_buffer (Z.shiftr n 3);
  Ret (Z.land b (Z.shiftl 1 (n mod 8))).

Fixpoint skip_bits (fuel : nat) (bg_buffer : list Z) (off : Z) : outcome Z :=
  match fuel with
  | O => OutOfFuel
  | S fuel' =>
      bit ← BLOCKBIT bg_buffer off;
      if truthy bit then skip_bits fuel' bg_buffer (off + 1) else Ret off
  end.

(** The first group whose descriptor field [count_at] is not zero, with the
    bitmap that [bitmap_at] names and its first clear bit. *)
Fixpoint find_group (this : ext2_fs_t) (count_at bitmap_at : Z -> Z) (i : Z) (todo : nat)
  : outcome (option (Z * Z * list Z) * ext2_fs_t) :=
  match todo with
  | O => Ret (None, this)
  | S todo' =>
      count ← Field.get 2 (block_groups this) (count_at i);
      if 0 <? count then
        no ← Field.get 4 (block_groups this) (bitmap_at i);
        '(bg_buffer, this) ← bread this no junk;
        off ← skip_bits (S (8 * length bg_buffer)) bg_buffer 0;
        Ret (Some (i, off, bg_buffer), this)
      else find_group this count_at bitmap_at (i + 1) todo'
  end.

(** The loop that writes the descriptors to the disk. *)
Fixpoint write_groups (this : ext2_fs_t) (i : Z) (todo : nat) : outcome ext2_fs_t :=
  match todo with
  | O => Ret this
  | S todo' =>
      bytes ← mem_read (block_groups this) (bsize this * i) (bsize this);
      this ← bwrite this (bgd_offset this + i) bytes;
      write_groups this (i + 1) todo'
  end.

(** Marks the bit found, and counts it in the descriptor and the superblock. *)
Definition take_bit (this : ext2_fs_t) (group off : Z) (bg_buffer : list Z)
    (count_at bitmap_at : Z -> Z) (sb_count : Z) : outcome ext2_fs_t :=
  b ← aget bg_buffer (Z.shiftr off 3);
  bg_buffer ← aset bg_buffer (Z.shiftr off 3) (u8 (Z.lor b (Z.shiftl 1 (off mod 8))));
  no ← Field.get 4 (block_groups this) (bitmap_at group);
  this ← bwrite this no bg_buffer;
  count ← Field.get 2 (block_groups this) (count_at group);
  g ← Field.put 2 (block_groups this) (count_at group) (u16 (count - 1));
  this ← write_groups (set_groups this g) 0 (Z.to_nat (bgd_block_span this));
  free ← Field.get 4 (superblock this) sb_count;
  sb ← Field.put 4 (superblock this) sb_count (u32 (free - 1));
  Ret (rewrite_superblock (set_super this sb)).

Definition allocate_block (this : ext2_fs_t) : outcome (Z * ext2_fs_t) :=
  '(found, this) ← find_group this BGD_free_blocks_count BGD_block_bitmap 0 (Z.to_nat (block_group_count this));
  match found with
  | None => Ret (0, this)
  | Some (group, off, bg_buffer) =>
      per_group ← Field.get 4 (superblock this) SB_blocks_per_group;
      let block_no := u32 (off + per_group * group) in
      if block_no =? 0 then Ret (0, this)
      else
        this ← take_bit this group off bg_buffer BGD_free_blocks_count BGD_block_bitmap SB_free_blocks_count;
        this ← bwrite this block_no (replicate (Z.to_nat (bsize this)) 0);
        Ret (block_no, this)
  end.

Definition allocate_inode (this : ext2_fs_t) : outcome (Z * ext2_fs_t) :=
  '(found, this) ← find_group this BGD_free_inodes_count BGD_inode_bitmap 0 (Z.to_nat (block_group_count this));
  match found with
  | None => Ret (0, this)
  | Some (group, off, bg_buffer) =>
      let node_no := u32 (off + group * inodes_per_group this + 1) in
      if node_no =? 0 then Ret (0, this)
      else
        this ← take_bit this group off bg_buffer BGD_free_inodes_count BGD_inode_bitmap SB_free_inodes_count;
        Ret (node_no, this)
  end.

(** ** Block numbers of a file *)

Definition word (i : Z) : Z := 4 * i.

(** Allocates the table the inode field [i] names if there is none; [None] is
    the return of E_NOSPACE. *)
Definition inode_table_block (this : ext2_fs_t) (inode : list Z) (inode_no i : Z)
  : outcome (option (list Z) * ext2_fs_t) :=
  t ← Field.get 4 inode (inode_block i);
  if truthy t then Ret (Some inode, this)
  else
    '(block_no, this) ← allocate_block this;
    if block_no =? 0 then Ret (None, this)
    else
      inode ← Field.put 4 inode (inode_block i) block_no;
      '(_, this) ← write_inode this inode inode_no;
      Ret (Some inode, this).

(** The block that entry [i] of table [tab], whose contents are in [tmp],
    names, allocated if there is none. *)
Definition table_entry (this : ext2_fs_t) (tab : Z) (tmp : list Z) (i : Z)
  : outcome (option Z * ext2_fs_t) :=
  t ← Field.get 4 tmp (word i);
  if truthy t then Ret (Some t, this)
  else
    '(block_no, this) ← allocate_block this;
    if block_no =? 0 then Ret (None, this)
    else
      tmp ← Field.put 4 tmp (word i) block_no;
      this ← bwrite this tab tmp;
      Ret (Some block_no, this).

(** Returns the error code, the inode and the state. *)
Definition set_block_number (this : ext2_fs_t) (inode : list Z) (inode_no iblock rblock : Z)
  : outcome (Z * list Z * ext2_fs_t) :=
  let p := pointers_per_block this in
  if iblock <? EXT2_DIRECT_BLOCKS then
    inode ← Field.put 4 inode (inode_block iblock) rblock;
    Ret (E_SUCCESS, inode, this)
  else if iblock <? u32 (EXT2_DIRECT_BLOCKS + p) then
    '(r, this) ← inode_table_block this inode inode_no EXT2_DIRECT_BLOCKS;
    match r with
    | None => Ret (E_NOSPACE, inode, this)
    | Some inode =>
        tab ← Field.get 4 inode (inode_block EXT2_DIRECT_BLOCKS);
        '(tmp, this) ← bread this tab junk;
        tmp ← Field.put 4 tmp (word (iblock - EXT2_DIRECT_BLOCKS)) rblock;
        this ← bwrite this tab tmp;
        Ret (E_SUCCESS, inode, this)
    end
  else if iblock <? u32 (EXT2_DIRECT_BLOCKS + p + p * p) then
    let b := u32 (iblock - EXT2_DIRECT_BLOCKS - p) in
    let c := b / p in
    let d := u32 (b - c * p) in
    '(r, this) ← inode_table_block this inode inode_no (EXT2_DIRECT_BLOCKS + 1);
    match r with
    | None => Ret (E_NOSPACE, inode, this)
    | Some inode =>
        tab ← Field.get 4 inode (inode_block (EXT2_DIRECT_BLOCKS + 1));
        '(tmp, this) ← bread this tab junk;
        '(r, this) ← table_entry this tab tmp c;
        match r with
        | None => Ret (E_NOSPACE, inode, this)
        | Some nblock =>
            '(tmp, this) ← bread this nblock tmp;
            tmp ← Field.put 4 tmp (word d) rblock;
            this ← bwrite this nblock tmp;
            Ret (E_SUCCESS, inode, this)
        end
    end
  else if iblock <? u32 (EXT2_DIRECT_BLOCKS + p + p * p + p) then
    let c := u32 (iblock - EXT2_DIRECT_BLOCKS - p - p * p) in
    let d := c / u32 (p * p) in
    let e := u32 (c - d * p * p) in
    let f := e / p in
    let g := u32 (e - f * p) in
    '(r, this) ← inode_table_block this inode inode_no (EXT2_DIRECT_BLOCKS + 2);
    match r with
    | None => Ret (E_NOSPACE, inode, this)
    | Some inode =>
        tab ← Field.get 4 inode (inode_block (EXT2_DIRECT_BLOCKS + 2));
        '(tmp, this) ← bread this tab junk;
        '(r, this) ← table_entry this tab tmp d;
        match r with
        | None => Ret (E_NOSPACE, inode, this)
        | Some nblock =>
            '(tmp, this) ← bread this nblock tmp;
            '(r, this) ← table_entry this nblock tmp f;
            match r with
            | None => Ret (E_NOSPACE, inode, this)
            | Some nblock =>
                '(tmp, this) ← bread this nblock tmp;
                tmp ← Field.put 4 tmp (word g) nblock;
                this ← bwrite this nblock tmp;
                Ret (E_SUCCESS, inode, this)
            end
        end
    end
  else Ret (E_BADBLOCK, inode, this).

Definition get_block_number (this : ext2_fs_t) (inode : list Z) (iblock : Z) : outcome (Z * ext2_fs_t) :=
  let p := pointers_per_block this in
  if iblock <? EXT2_DIRECT_BLOCKS then
    out ← Field.get 4 inode (inode_block iblock);
    Ret (out, this)
  else if iblock <? u32 (EXT2_DIRECT_BLOCKS + p) then
    tab ← Field.get 4 inode (inode_block EXT2_DIRECT_BLOCKS);
    '(tmp, this) ← bread this tab junk;
    out ← Field.get 4 tmp (word (iblock - EXT2_DIRECT_BLOCKS));
    Ret (out, this)
  else if iblock <? u32 (EXT2_DIRECT_BLOCKS + p + p * p) then
    let b := u32 (iblock - EXT2_DIRECT_BLOCKS - p) in
    let c := b / p in
    let d := u32 (b - c * p) in
    tab ← Field.get 4 inode (inode_block (EXT2_DIRECT_BLOCKS + 1));
    '(tmp, this) ← bread this tab junk;
    nblock ← Field.get 4 tmp (word c);
    '(tmp, this) ← bread this nblock tmp;
    out ← Field.get 4 tmp (word d);
    Ret (out, this)
  else if iblock <? u32 (EXT2_DIRECT_BLOCKS + p + p * p + p) then
    let c := u32 (iblock - EXT2_DIRECT_BLOCKS - p - p * p) in
    let d := c / u32 (p * p) in
    let e := u32 (c - d * p * p) in
    let f := e / p in
    let g := u32 (e - f * p) in
    tab ← Field.get 4 inode (inode_block (EXT2_DIRECT_BLOCKS + 2));
    '(tmp, this) ← bread this tab junk;
    nblock ← Field.get 4 tmp (word d);
    '(tmp, this) ← bread this nblock tmp;
    nblock ← Field.get 4 tmp (word f);
    '(tmp, this) ← bread this nblock tmp;
    out ← Field.get 4 tmp (word g);
    Ret (out, this)
  else Ret (0, this).

(** The result of [set_block_number] is ignored. *)
Definition allocate_inode_block (this : ext2_fs_t) (inode : list Z) (inode_no block : Z)
  : outcome (Z * list Z * ext2_fs_t) :=
  '(block_no, this) ← allocate_block this;
  if block_no =? 0 then Ret (E_NOSPACE, inode, this)
  else
    '(_, inode, this) ← set_block_number this inode inode_no block block_no;
    let t := u32 ((block + 1) * (bsize this / 512)) in
    blocks ← Field.get 4 inode inode_blocks;
    inode ← (if blocks <? t then Field.put 4 inode inode_blocks t else Ret inode);
    '(_, this) ← write_inode this inode inode_no;
    Ret (E_SUCCESS, inode, this).

(** Returns the real block number, the buffer and the state. *)
Definition inode_read_block (this : ext2_fs_t) (inode : list Z) (block : Z) (buf : list Z)
  : outcome (Z * list Z * ext2_fs_t) :=
  blocks ← Field.get 4 inode inode_blocks;
  if bsize this / 512 =? 0 then Fault
  else if blocks / (bsize this / 512) <=? block then Ret (0, replicate (Z.to_nat (bsize this)) 0, this)
  else
    '(real_block, this) ← get_block_number this inode block;
    '(buf, this) ← bread this real_block buf;
    Ret (real_block, buf, this).

(** The loop that allocates the blocks up to the one asked for: it goes on for
    ever when the disk is full, which runs out of any fuel. *)
Fixpoint grow_inode (fuel : nat) (this : ext2_fs_t) (inode : list Z) (inode_no block : Z)
  : outcome (list Z * ext2_fs_t) :=
  match fuel with
  | O => OutOfFuel
  | S fuel' =>
      blocks ← Field.get 4 inode inode_blocks;
      if bsize this / 512 =? 0 then Fault
      else if blocks / (bsize this / 512) <=? block then
        '(_, inode, this) ← allocate_inode_block this inode inode_no (blocks / (bsize this / 512));
        '(inode, this) ← refresh_inode this inode inode_no;
        grow_inode fuel' this inode inode_no block
      else Ret (inode, this)
  end.

Definition inode_write_block (this : ext2_fs_t) (inode : list Z) (inode_no block : Z) (buf : list Z)
  : outcome (Z * list Z * ext2_fs_t) :=
  '(inode, this) ← grow_inode (S (S (Z.to_nat block))) this inode inode_no block;
  '(real_block, this) ← get_block_number this inode block;
  this ← bwrite this real_block buf;
  Ret (real_block, inode, this).

(** ** Specification: where the number of a block is stored *)

Definition disk (this : ext2_fs_t) : Z -> list Z := view (blk this).

(** The state after operations that cost the cache clock some ticks; [ready n]
    leaves room for [n] more. *)
Definition ready (n : Z) (this : ext2_fs_t) : Prop :=
  inv (blk this) /\ 0 <= cache_time (blk this) /\ cache_time (blk this) + n < UINT32_MAX.

(** Only the block layer changed. *)
Definition same_fields (this this' : ext2_fs_t) : Prop :=
  this' = set_blk this (blk this') /\ bsize this' = bsize this.

Definition usable (this : ext2_fs_t) (no : Z) : Prop := valid (blk this) no.

Definition unchanged (this this' : ext2_fs_t) : Prop :=
  same_fields this this' /\ forall no, usable this no -> disk this' no = disk this no.

Definition geometry (this : ext2_fs_t) : Prop :=
  let p := pointers_per_block this in
  0 < p /\ bsize this = 4 * p /\ EXT2_DIRECT_BLOCKS + p + p * p + p < 4294967296.

Inductive place :=
  | In_inode (i : Z)
  | In_block (no i : Z).

Definition slot (d : Z -> list Z) (inode : list Z) (p iblock : Z) : outcome place :=
  if iblock <? EXT2_DIRECT_BLOCKS then Ret (In_inode iblock)
  else if iblock <? EXT2_DIRECT_BLOCKS + p then
    tab ← Field.get 4 inode (inode_block EXT2_DIRECT_BLOCKS);
    Ret (In_block tab (iblock - EXT2_DIRECT_BLOCKS))
  else
    let b := iblock - EXT2_DIRECT_BLOCKS - p in
    root ← Field.get 4 inode (inode_block (EXT2_DIRECT_BLOCKS + 1));
    leaf ← Field.get 4 (d root) (word (b / p));
    Ret (In_block leaf (b mod p)).

Definition stored (d : Z -> list Z) (inode : list Z) (pl : place) : outcome Z :=
  match pl with
  | In_inode i => Field.get 4 inode (inode_block i)
  | In_block no i => Field.get 4 (d no) (word i)
  end.

(** Block [iblock] of the file is in the direct, indirect or doubly indirect
    range, its tables exist, and its number is stored at [pl]. *)
Definition mapped (this : ext2_fs_t) (inode : list Z) (iblock : Z) (pl : place) : Prop :=
  let p := pointers_per_block this in
  0 <= iblock < EXT2_DIRECT_BLOCKS + p + p * p /\
  slot (disk this) inode p iblock = Ret pl /\
  (forall no i, pl = In_block no i -> usable this no) /\
  (EXT2_DIRECT_BLOCKS + p <= iblock ->
   exists root, Field.get 4 inode (inode_block (EXT2_DIRECT_BLOCKS + 1)) = Ret root /\ usable this root).

(** The table that holds [pl] is not the root of the doubly indirect blocks. *)
Definition apart (inode : list Z) (pl : place) : Prop :=
  forall no i, pl = In_block no i -> Field.get 4 inode (inode_block (EXT2_DIRECT_BLOCKS + 1)) <> Ret no.

Lemma ready_le n m this : m <= n -> ready n this -> ready m this.
Proof. intros Hm (? & ? & ?). split; [done|lia]. Qed.

Lemma bread_ok n this no buf :
  0 <= n -> ready (1 + n) this -> usable this no ->
  exists this', bread this no buf = Ret (disk this no, this') /\ ready n this' /\ unchanged this this'.
Proof.
  intros Hn (Hi & Ht & Ht') Hv. unfold bread.
  destruct (read_block_ok (blk this) no buf) as (b & -> & Hb & Eb & Hct & Hvw); [done|done|lia|].
  cbn [mbind outcome_bind]. eexists. split; [done|]. split; [split; [done|simpl; lia]|]. done.
Qed.

Lemma bwrite_ok n this no buf :
  0 <= n -> ready (1 + n) this -> usable this no -> Z.of_nat (length buf) = bsize this ->
  exists this', bwrite this no buf = Ret this' /\ ready n this' /\ same_fields this this' /\
    forall no', usable this no' -> disk this' no' = if no' =? no then buf else disk this no'.
Proof.
  intros Hn (Hi & Ht & Ht') Hv Hl. unfold bwrite.
  destruct (write_block_ok (blk this) no buf) as (b & -> & Hb & Eb & Hct & Hvw); [done|done|lia|done|].
  cbn [mbind outcome_bind]. eexists. split; [done|]. split; [split; [done|simpl; lia]|]. done.
Qed.

Lemma length_disk n this no : ready n this -> Z.of_nat (length (disk this no)) = bsize this.
Proof. intros [Hi _]. by apply length_view. Qed.

Lemma same_fields_p this this' : same_fields this this' -> pointers_per_block this' = pointers_per_block this.
Proof. by intros [-> _]. Qed.

Lemma unchanged_refl this : unchanged this this.
Proof. split; [|done]. split; [by destruct this|done]. Qed.

Lemma usable_same this this' no : same_fields this this' -> usable this no -> usable this' no.
Proof. intros [_ Hb] [? ?]. unfold bsize in Hb. by split; rewrite ?Hb. Qed.

Lemma unchanged_trans t1 t2 t3 : unchanged t1 t2 -> unchanged t2 t3 -> unchanged t1 t3.
Proof.
  intros [[E1 B1] V1] [[E2 B2] V2]. split; [split|].
  - rewrite E2, E1. by destruct t1.
  - congruence.
  - intros no Hno. rewrite V2 by (by apply (usable_same t1)). by apply V1.
Qed.

(** The quotient and the remainder the source computes for a block in the
    doubly indirect range. *)
Lemma double_index this iblock :
  let p := pointers_per_block this in
  geometry this -> EXT2_DIRECT_BLOCKS + p <= iblock < EXT2_DIRECT_BLOCKS + p + p * p ->
  let b := iblock - EXT2_DIRECT_BLOCKS - p in
  u32 b = b /\ u32 (b - b / p * p) = b mod p /\ 0 <= b / p < p /\ 0 <= b mod p < p.
Proof.
  intros p (Hp & _ & Hmax) Hi b. fold p in Hp, Hmax.
  assert (0 <= b < p * p) as Hb by (unfold b; lia).
  assert (b - b / p * p = b mod p) as Hm by (rewrite Z.mod_eq by lia; lia).
  pose proof (Z.mod_pos_bound b p Hp) as Hr. split; [apply u32_small; unfold EXT2_DIRECT_BLOCKS in Hmax; lia|].
  split; [rewrite Hm; apply u32_small; unfold EXT2_DIRECT_BLOCKS in Hmax; nia|]. split; [|done].
  split; [apply Z.div_pos; lia|apply Z.div_lt_upper_bound; lia].
Qed.

Lemma get_block_number_ok n this inode iblock pl :
  0 <= n -> geometry this -> ready (2 + n) this -> (100 <= length inode)%nat -> mapped this inode iblock pl ->
  exists v this', get_block_number this inode iblock = Ret (v, this') /\
    stored (disk this) inode pl = Ret v /\ ready n this' /\ unchanged this this'.
Proof.
  intros Hn Hg Hr Hl (Hi & Hs & Hu & Hroot). pose proof Hg as (Hp & Hb & Hmax). unfold get_block_number, slot in *.
  set (p := pointers_per_block this) in *.
  destruct (Z.ltb_spec iblock EXT2_DIRECT_BLOCKS) as [H1|H1].
  - injection Hs as <-. unfold stored. destruct (Field.get_ok 4 inode (inode_block iblock)) as [v ->];
      [unfold inode_block; lia|unfold inode_block, EXT2_DIRECT_BLOCKS in *; lia|].
    cbn [mbind outcome_bind]. exists v, this. split; [done|]. split; [done|].
    split; [by apply (ready_le (2 + n)); [lia|]|apply unchanged_refl].
  - rewrite u32_small by (unfold EXT2_DIRECT_BLOCKS in *; nia).
    destruct (Z.ltb_spec iblock (EXT2_DIRECT_BLOCKS + p)) as [H2|H2].
    + destruct (bind_Ret_inv _ _ _ Hs) as (tab & Et & Hs'). rewrite Et. cbn [mbind outcome_bind] in *.
      injection Hs' as <-. destruct (bread_ok (1 + n) this tab junk) as (t1 & -> & Hr1 & Hu1);
        [lia|by replace (1 + (1 + n)) with (2 + n) by lia|by eapply Hu|].
      cbn [mbind outcome_bind stored].
      destruct (Field.get_ok 4 (disk this tab) (word (iblock - EXT2_DIRECT_BLOCKS))) as [v ->];
        [unfold word; lia|rewrite (length_disk _ _ _ Hr), Hb; unfold word; lia|].
      cbn [mbind outcome_bind]. exists v, t1. split; [done|]. split; [done|].
      split; [by apply (ready_le (1 + n)); [lia|]|done].
    + rewrite u32_small by (unfold EXT2_DIRECT_BLOCKS in *; nia).
      destruct (Z.ltb_spec iblock (EXT2_DIRECT_BLOCKS + p + p * p)) as [H3|H3]; [|lia].
      destruct (double_index this iblock Hg) as (E1 & E2 & Hc & Hd); [done|].
      fold p in E1, E2, Hc, Hd. rewrite E1, E2.
      destruct (Hroot H2) as (root & Er & Hru). rewrite Er in *. cbn [mbind outcome_bind] in *.
      destruct (bind_Ret_inv _ _ _ Hs) as (leaf & El & Hs'). cbn [mbind outcome_bind] in *.
      injection Hs' as <-. destruct (bread_ok (1 + n) this root junk) as (t1 & -> & Hr1 & Hu1);
        [lia|by replace (1 + (1 + n)) with (2 + n) by lia|done|].
      cbn [mbind outcome_bind]. rewrite El. cbn [mbind outcome_bind].
      destruct (bread_ok n t1 leaf (disk this root)) as (t2 & -> & Hr2 & Hu2);
        [lia|done|apply (usable_same this); [by destruct Hu1|by eapply Hu]|].
      cbn [mbind outcome_bind stored]. rewrite (proj2 Hu1) by (by eapply Hu).
      destruct (Field.get_ok 4 (disk this leaf) (word ((iblock - EXT2_DIRECT_BLOCKS - p) mod p))) as [v ->];
        [unfold word; lia|rewrite (length_disk _ _ _ Hr), Hb; unfold word; lia|].
      cbn [mbind outcome_bind]. exists v, t2. split; [done|]. split; [done|]. split; [done|by eapply unchanged_trans].
Qed.

(** Reading a table, changing one entry and writing it back. *)
Lemma table_update n this no buf i v :
  0 <= n -> ready (2 + n) this -> usable this no -> 0 <= i -> word i + 4 <= bsize this -> 0 <= v < 4294967296 ->
  exists t1 tab this', bread this no buf = Ret (disk this no, t1) /\
    Field.put 4 (disk this no) (word i) v = Ret tab /\ bwrite t1 no tab = Ret this' /\ ready n this' /\
    same_fields this this' /\ forall no', usable this no' -> disk this' no' = if no' =? no then tab else disk this no'.
Proof.
  intros Hn Hr Hu Hi Hw Hv.
  destruct (bread_ok (1 + n) this no buf) as (t1 & E1 & Hr1 & [[S1 B1] V1]);
    [lia|by replace (1 + (1 + n)) with (2 + n) by lia|done|].
  destruct (Field.put_ok 4 (disk this no) (word i) v) as (tab & E2 & Hl & _);
    [unfold word; lia|rewrite (length_disk _ _ _ Hr); lia|done|].
  destruct (bwrite_ok n t1 no tab) as (t2 & E3 & Hr2 & [S2 B2] & V2);
    [lia|done|by apply (usable_same this)|rewrite Hl, (length_disk _ _ _ Hr); congruence|].
  exists t1, tab, t2. do 4 (split; [done|]). split; [split; [rewrite S2, S1; by destruct this|congruence]|].
  intros no' Hno'. rewrite V2 by (by apply (usable_same this)). by rewrite V1.
Qed.

Lemma truthy_usable this no : usable this no -> truthy no = true.
Proof. intros [? _]. unfold truthy. by destruct (Z.eqb_spec no 0); [lia|]. Qed.

Lemma inode_table_block_exists this inode inode_no i t :
  Field.get 4 inode (inode_block i) = Ret t -> usable this t ->
  inode_table_block this inode inode_no i = Ret (Some inode, this).
Proof.
  intros E Hu. unfold inode_table_block. rewrite E. cbn [mbind outcome_bind]. by rewrite (truthy_usable this).
Qed.

Lemma table_entry_exists this tab tmp i t :
  Field.get 4 tmp (word i) = Ret t -> usable this t -> table_entry this tab tmp i = Ret (Some t, this).
Proof. intros E Hu. unfold table_entry. rewrite E. cbn [mbind outcome_bind]. by rewrite (truthy_usable this). Qed.

(** The number at [pl] replaced, and nothing else. *)
Definition updated (this this' : ext2_fs_t) (inode inode' : list Z) (pl : place) (v : Z) : Prop :=
  match pl with
  | In_inode i => Field.put 4 inode (inode_block i) v = Ret inode' /\ unchanged this this'
  | In_block no i =>
      inode' = inode /\ same_fields this this' /\
      exists tab, Field.put 4 (disk this no) (word i) v = Ret tab /\
        forall no', usable this no' -> disk this' no' = if no' =? no then tab else disk this no'
  end.

Lemma set_block_number_ok n this inode inode_no iblock rblock pl :
  0 <= n -> geometry this -> ready (3 + n) this -> (100 <= length inode)%nat -> 0 <= rblock < 4294967296 ->
  mapped this inode iblock pl ->
  exists inode' this', set_block_number this inode inode_no iblock rblock = Ret (E_SUCCESS, inode', this') /\
    ready n this' /\ updated this this' inode inode' pl rblock.
Proof.
  intros Hn Hg Hr Hl Hv (Hi & Hs & Hu & Hroot). pose proof Hg as (Hp & Hb & Hmax). unfold set_block_number, slot in *.
  set (p := pointers_per_block this) in *.
  assert (forall k, 0 <= k <= 3 -> ready (k + n) this) as Hr' by (intros k Hk; destruct Hr as (? & ? & ?); split; [done|lia]).
  destruct (Z.ltb_spec iblock EXT2_DIRECT_BLOCKS) as [H1|H1].
  - injection Hs as <-. destruct (Field.put_ok 4 inode (inode_block iblock) rblock) as (inode' & E & _);
      [unfold inode_block; lia|unfold inode_block, EXT2_DIRECT_BLOCKS in *; lia|done|].
    rewrite E. exists inode', this. split; [done|]. split; [apply (Hr' 0); lia|]. split; [done|]. apply unchanged_refl.
  - rewrite u32_small by (unfold EXT2_DIRECT_BLOCKS in *; nia).
    destruct (Z.ltb_spec iblock (EXT2_DIRECT_BLOCKS + p)) as [H2|H2].
    + destruct (bind_Ret_inv _ _ _ Hs) as (tab & Et & Hs'). rewrite Et in Hs. cbn [mbind outcome_bind] in *.
      injection Hs' as <-. rewrite (inode_table_block_exists _ _ _ _ tab) by (done || by eapply Hu).
      cbn [mbind outcome_bind]. rewrite Et. cbn [mbind outcome_bind].
      destruct (table_update n this tab junk (iblock - EXT2_DIRECT_BLOCKS) rblock) as (t1 & tab' & t2 & -> & E2 & E3 & Hr2 & S2 & V2);
        [lia|apply (Hr' 2); lia|by eapply Hu|lia|unfold word; lia|done|].
      cbn [mbind outcome_bind]. rewrite E2. cbn [mbind outcome_bind]. rewrite E3. cbn [mbind outcome_bind].
      exists inode, t2. split; [done|]. split; [done|]. split; [done|]. split; [done|]. by exists tab'.
    + rewrite u32_small by (unfold EXT2_DIRECT_BLOCKS in *; nia).
      destruct (Z.ltb_spec iblock (EXT2_DIRECT_BLOCKS + p + p * p)) as [H3|H3]; [|lia].
      destruct (double_index this iblock Hg) as (E1 & E2 & Hc & Hd); [done|].
      fold p in E1, E2, Hc, Hd. rewrite E1, E2.
      destruct (Hroot H2) as (root & Er & Hru). rewrite Er in Hs. cbn [mbind outcome_bind] in Hs.
      destruct (bind_Ret_inv _ _ _ Hs) as (leaf & El & Hs'). injection Hs' as <-.
      assert (usable this leaf) as Hlu by (by eapply Hu).
      rewrite (inode_table_block_exists _ _ _ _ root) by done. cbn [mbind outcome_bind]. rewrite Er. cbn [mbind outcome_bind].
      destruct (bread_ok (2 + n) this root junk) as (t1 & -> & Hr1 & [S1 V1]);
        [lia|by replace (1 + (2 + n)) with (3 + n) by lia|done|].
      cbn [mbind outcome_bind].
      rewrite (table_entry_exists _ _ _ _ leaf) by (done || by apply (usable_same this)). cbn [mbind outcome_bind].
      destruct (table_update n t1 leaf (disk this root) ((iblock - EXT2_DIRECT_BLOCKS - p) mod p) rblock)
        as (t2 & tab' & t3 & -> & E3 & E4 & Hr3 & [S3 B3] & V3);
        [lia|done|by apply (usable_same this)|lia|destruct S1 as [_ ->]; unfold word; lia|done|].
      cbn [mbind outcome_bind]. rewrite E3. cbn [mbind outcome_bind]. rewrite E4. cbn [mbind outcome_bind].
      exists inode, t3. split; [done|]. split; [done|]. split; [done|].
      destruct S1 as [S1 B1]. split; [split; [rewrite S3, S1; by destruct this|congruence]|].
      exists tab'. rewrite V1 in E3 by done. split; [done|]. intros no' Hno'.
      rewrite V3 by (by apply (usable_same this)). by rewrite V1.
Qed.

Lemma mapped_index this inode iblock pl :
  geometry this -> mapped this inode iblock pl ->
  match pl with
  | In_inode i => 0 <= i < EXT2_DIRECT_BLOCKS
  | In_block no i => 0 <= i < pointers_per_block this
  end.
Proof.
  intros Hg (Hi & Hs & _). pose proof Hg as (Hp & _). unfold slot in Hs.
  destruct (Z.ltb_spec iblock EXT2_DIRECT_BLOCKS); [injection Hs as <-; lia|].
  destruct (Z.ltb_spec iblock (EXT2_DIRECT_BLOCKS + pointers_per_block this)).
  - destruct (bind_Ret_inv _ _ _ Hs) as (tab & _ & [= <-]). lia.
  - destruct (bind_Ret_inv _ _ _ Hs) as (root & _ & Hs'). destruct (bind_Ret_inv _ _ _ Hs') as (leaf & _ & [= <-]).
    by apply Z.mod_pos_bound.
Qed.

(** The place of a block depends on two fields of the inode and on the root. *)
Lemma mapped_transfer this this' inode inode' j pl :
  mapped this inode j pl -> same_fields this this' ->
  (forall i, EXT2_DIRECT_BLOCKS <= i -> Field.get 4 inode' (inode_block i) = Field.get 4 inode (inode_block i)) ->
  (forall root, Field.get 4 inode (inode_block (EXT2_DIRECT_BLOCKS + 1)) = Ret root -> usable this root ->
    disk this' root = disk this root) ->
  mapped this' inode' j pl.
Proof.
  intros (Hj & Hs & Hu & Hroot) HS Hin Hd. pose proof (same_fields_p _ _ HS) as Ep. unfold mapped. rewrite Ep.
  split; [done|]. split; [|split].
  - unfold slot in *. rewrite !Hin by lia. destruct (Z.ltb_spec j EXT2_DIRECT_BLOCKS); [done|].
    destruct (Z.ltb_spec j (EXT2_DIRECT_BLOCKS + pointers_per_block this)) as [|Hge]; [done|].
    destruct (Hroot Hge) as (root & Er & Hru). rewrite Er in *. cbn [mbind outcome_bind] in *. by rewrite Hd.
  - intros no i E. apply (usable_same this); [done|]. by eapply Hu.
  - intros Hge. destruct (Hroot Hge) as (root & Er & Hru). exists root. rewrite Hin by lia.
    split; [done|]. by apply (usable_same this).
Qed.

(** An update at [pl] keeps the place of every block, and what is stored at the
    other places. *)
Lemma updated_mapped n this this' inode inode' iblock j pl plj v :
  ready n this -> geometry this -> (100 <= length inode)%nat -> 0 <= v < 4294967296 ->
  mapped this inode iblock pl -> apart inode pl ->
  updated this this' inode inode' pl v -> mapped this inode j plj ->
  mapped this' inode' j plj /\ (100 <= length inode')%nat /\
  (plj = pl -> stored (disk this') inode' plj = Ret v) /\
  (plj <> pl -> stored (disk this') inode' plj = stored (disk this) inode plj).
Proof.
  intros Hr Hg Hl Hv Hm Ha Hup Hmj. pose proof (mapped_index _ _ _ _ Hg Hm) as Hix.
  pose proof (mapped_index _ _ _ _ Hg Hmj) as Hixj. pose proof Hmj as (_ & _ & Huj & _). pose proof Hm as (_ & _ & Hu & _).
  pose proof Hg as (_ & Hb & _). destruct pl as [i|no i]; simpl in Hup.
  - destruct Hup as [Hput [HS HV]].
    destruct (Field.put_ok 4 inode (inode_block i) v) as (l & E & Hll & Hget & Hother);
      [unfold inode_block; lia|unfold inode_block, EXT2_DIRECT_BLOCKS in *; lia|done|].
    assert (l = inode') as -> by congruence.
    split; [|split; [lia|split]].
    + apply (mapped_transfer this this' inode); [done|done| |intros; by apply HV].
      intros k Hk. apply Hother; unfold inode_block, EXT2_DIRECT_BLOCKS in *; lia.
    + intros ->. done.
    + destruct plj as [k|no k]; intros Hne; simpl.
      * apply Hother; [unfold inode_block; lia|]. assert (k <> i) by congruence. unfold inode_block. lia.
      * rewrite HV; [done|]. by eapply Huj.
  - destruct Hup as (-> & HS & tab & Hput & HV). assert (usable this no) as Hno by (by eapply Hu).
    destruct (Field.put_ok 4 (disk this no) (word i) v) as (l & E & _ & Hget & Hother);
      [unfold word; lia|rewrite (length_disk _ _ _ Hr); unfold word; lia|done|].
    assert (l = tab) as -> by congruence. split; [|split; [done|split]].
    + apply (mapped_transfer this this' inode); [done|done|done|]. intros root Er Hru. rewrite HV by done.
      destruct (Z.eqb_spec root no) as [->|]; [|done]. exfalso. by apply (Ha no i).
    + intros ->. simpl. rewrite HV by done. by rewrite Z.eqb_refl.
    + destruct plj as [k|no' k]; intros Hne; simpl; [done|]. rewrite HV by (by eapply Huj).
      destruct (Z.eqb_spec no' no) as [->|]; [|done]. apply Hother; [unfold word; lia|].
      assert (k <> i) by congruence. unfold word. lia.
Qed.

(** ** Properties *)

(** [get_block_number] returns the number stored for the block in the inode,
    in the indirect table or in a leaf of the doubly indirect one, and changes no
    block of the disk. *)
Theorem get_block_number_maps this inode iblock pl :
  geometry this -> ready 2 this -> (100 <= length inode)%nat -> mapped this inode iblock pl ->
  exists v this', get_block_number this inode iblock = Ret (v, this') /\
    stored (disk this) inode pl = Ret v /\ unchanged this this'.
Proof.
  intros. destruct (get_block_number_ok 0 this inode iblock pl) as (v & t & ? & ? & _ & ?); [lia|done..|].
  by exists v, t.
Qed.

(** C5: In the direct, indirect and doubly indirect ranges, where the tables of the block are
    allocated and the table that holds its number is not the root of the doubly indirect blocks,
    [set_block_number] succeeds: after it the block has the new number, and every other block of
    these ranges whose number is stored elsewhere keeps its own.  (The triply indirect range is
    excluded: the code stores another number there.) *)
Theorem set_block_number_updates this inode inode_no iblock rblock pl :
  geometry this -> ready 5 this -> (100 <= length inode)%nat -> 0 <= rblock < 4294967296 ->
  mapped this inode iblock pl -> apart inode pl ->
  exists inode' this', set_block_number this inode inode_no iblock rblock = Ret (E_SUCCESS, inode', this') /\
    (exists t, get_block_number this' inode' iblock = Ret (rblock, t)) /\
    forall j plj, mapped this inode j plj -> plj <> pl ->
      exists v t t', get_block_number this inode j = Ret (v, t) /\ get_block_number this' inode' j = Ret (v, t').
Proof.
  intros Hg Hr Hl Hv Hm Ha.
  destruct (set_block_number_ok 2 this inode inode_no iblock rblock pl) as (inode' & this' & -> & Hr' & Hup); [lia|done..|].
  exists inode', this'. split; [done|].
  assert (same_fields this this') as HS by (destruct pl; [by destruct Hup as (_ & ? & _)|by destruct Hup as (_ & ? & _)]).
  assert (geometry this') as Hg' by (unfold geometry; rewrite (same_fields_p _ _ HS); destruct HS as [_ ->]; done).
  split.
  - destruct (updated_mapped 5 this this' inode inode' iblock iblock pl pl rblock) as (Hm' & Hl' & Hst & _); try done.
    destruct (get_block_number_ok 0 this' inode' iblock pl) as (v & t & -> & Hst' & _); [lia|done..|].
    exists t. rewrite Hst in Hst' by done. congruence.
  - intros j plj Hmj Hne.
    destruct (updated_mapped 5 this this' inode inode' iblock j pl plj rblock) as (Hm' & Hl' & _ & Hst); try done.
    destruct (get_block_number_ok 3 this inode j plj) as (v & t & -> & Hst1 & _); [lia|done..|].
    destruct (get_block_number_ok 0 this' inode' j plj) as (v' & t' & -> & Hst2 & _); [lia|done..|].
    exists v, t, t'. rewrite Hst in Hst2 by done. split; congruence.
Qed.

(** Only the first [p] blocks of the triply indirect range are reached, so the
    first two indices are zero. *)
Lemma triple_index this iblock :
  let p := pointers_per_block this in
  geometry this -> EXT2_DIRECT_BLOCKS + p + p * p <= iblock < EXT2_DIRECT_BLOCKS + p + p * p + p ->
  let c := iblock - EXT2_DIRECT_BLOCKS - p - p * p in
  u32 c = c /\ c / u32 (p * p) = 0 /\ u32 (c - 0 * p * p) = c /\ c / p = 0 /\ u32 (c - 0 * p) = c /\ 0 <= c < p.
Proof.
  intros p (Hp & _ & Hmax) Hi c. fold p in Hp, Hmax. unfold EXT2_DIRECT_BLOCKS in *.
  assert (0 <= c < p) as Hc by (unfold c; lia). assert (p <= p * p) by nia.
  rewrite (u32_small (p * p)) by lia. rewrite !Z.div_small, !Z.mul_0_l, !Z.sub_0_r, !u32_small by lia. done.
Qed.

(** The tables of the triply indirect blocks exist and are distinct. *)
Definition triple_tables (this : ext2_fs_t) (inode : list Z) (root mid leaf : Z) : Prop :=
  Field.get 4 inode (inode_block (EXT2_DIRECT_BLOCKS + 2)) = Ret root /\ usable this root /\
  Field.get 4 (disk this root) (word 0) = Ret mid /\ usable this mid /\
  Field.get 4 (disk this mid) (word 0) = Ret leaf /\ usable this leaf /\ leaf <> root /\ leaf <> mid.

Lemma set_triple_ok n this inode inode_no iblock rblock root mid leaf :
  let p := pointers_per_block this in
  0 <= n -> geometry this -> ready (4 + n) this -> triple_tables this inode root mid leaf ->
  EXT2_DIRECT_BLOCKS + p + p * p <= iblock < EXT2_DIRECT_BLOCKS + p + p * p + p ->
  exists this', set_block_number this inode inode_no iblock rblock = Ret (E_SUCCESS, inode, this') /\
    ready n this' /\ updated this this' inode inode (In_block leaf (iblock - EXT2_DIRECT_BLOCKS - p - p * p)) leaf.
Proof.
  intros p Hn Hg Hr (E1 & U1 & E2 & U2 & E3 & U3 & Hlr & Hlm) Hi. unfold set_block_number. fold p.
  pose proof Hg as (Hp & Hb & Hmax). fold p in Hp, Hb, Hmax.
  rewrite (u32_small (EXT2_DIRECT_BLOCKS + p)), (u32_small (EXT2_DIRECT_BLOCKS + p + p * p)),
    (u32_small (EXT2_DIRECT_BLOCKS + p + p * p + p)) by (unfold EXT2_DIRECT_BLOCKS in *; nia).
  destruct (triple_index this iblock Hg) as (I1 & I2 & I3 & I4 & I5 & Hc); [exact Hi|]. fold p in I1, I2, I3, I4, I5, Hc.
  rewrite I1, I2, I3, I4, I5.
  destruct (Z.ltb_spec iblock EXT2_DIRECT_BLOCKS); [nia|]. destruct (Z.ltb_spec iblock (EXT2_DIRECT_BLOCKS + p)); [nia|].
  destruct (Z.ltb_spec iblock (EXT2_DIRECT_BLOCKS + p + p * p)); [lia|]. destruct (Z.ltb_spec iblock (EXT2_DIRECT_BLOCKS + p + p * p + p)); [|lia].
  rewrite (inode_table_block_exists _ _ _ _ root) by done. cbn [mbind outcome_bind]. rewrite E1. cbn [mbind outcome_bind].
  destruct (bread_ok (3 + n) this root junk) as (t1 & -> & Hr1 & C1); [lia|by replace (1 + (3 + n)) with (4 + n) by lia|done|].
  cbn [mbind outcome_bind]. pose proof C1 as [S1 V1].
  rewrite (table_entry_exists _ _ _ _ mid) by (done || by apply (usable_same this)). cbn [mbind outcome_bind].
  destruct (bread_ok (2 + n) t1 mid (disk this root)) as (t2 & -> & Hr2 & C2);
    [lia|by replace (1 + (2 + n)) with (3 + n) by lia|by apply (usable_same this)|].
  cbn [mbind outcome_bind]. destruct (unchanged_trans _ _ _ C1 C2) as [S2 V2]. rewrite V1 by done.
  rewrite (table_entry_exists _ _ _ _ leaf) by (done || by apply (usable_same this)). cbn [mbind outcome_bind].
  assert (leaf < 4294967296) by (destruct U3 as [? ?]; unfold bsize in Hb; nia).
  destruct (table_update n t2 leaf (disk this mid) (iblock - EXT2_DIRECT_BLOCKS - p - p * p) leaf)
    as (t3 & tab' & t4 & -> & E4 & E5 & Hr4 & [S4 B4] & V4);
    [lia|done|by apply (usable_same this)|lia|destruct S2 as [_ ->]; unfold word; lia|destruct U3; lia|].
  cbn [mbind outcome_bind]. rewrite E4. cbn [mbind outcome_bind]. rewrite E5. cbn [mbind outcome_bind].
  exists t4. split; [done|]. split; [done|]. split; [done|].
  split; [split; [rewrite S4, (proj1 S2); by destruct this|rewrite B4; by destruct S2]|].
  exists tab'. rewrite V2 in E4 by done. split; [done|]. intros no' Hno'.
  rewrite V4 by (by apply (usable_same this)). by rewrite V2.
Qed.

Lemma get_triple_ok this inode iblock root mid leaf :
  let p := pointers_per_block this in
  geometry this -> ready 3 this -> triple_tables this inode root mid leaf ->
  EXT2_DIRECT_BLOCKS + p + p * p <= iblock < EXT2_DIRECT_BLOCKS + p + p * p + p ->
  exists t v, Field.get 4 (disk this leaf) (word (iblock - EXT2_DIRECT_BLOCKS - p - p * p)) = Ret v /\
    get_block_number this inode iblock = Ret (v, t).
Proof.
  intros p Hg Hr (E1 & U1 & E2 & U2 & E3 & U3 & Hlr & Hlm) Hi. unfold get_block_number. fold p.
  pose proof Hg as (Hp & Hb & Hmax). fold p in Hp, Hb, Hmax.
  rewrite (u32_small (EXT2_DIRECT_BLOCKS + p)), (u32_small (EXT2_DIRECT_BLOCKS + p + p * p)),
    (u32_small (EXT2_DIRECT_BLOCKS + p + p * p + p)) by (unfold EXT2_DIRECT_BLOCKS in *; nia).
  destruct (triple_index this iblock Hg) as (I1 & I2 & I3 & I4 & I5 & Hc); [exact Hi|]. fold p in I1, I2, I3, I4, I5, Hc.
  rewrite I1, I2, I3, I4, I5.
  destruct (Z.ltb_spec iblock EXT2_DIRECT_BLOCKS); [nia|]. destruct (Z.ltb_spec iblock (EXT2_DIRECT_BLOCKS + p)); [nia|].
  destruct (Z.ltb_spec iblock (EXT2_DIRECT_BLOCKS + p + p * p)); [lia|]. destruct (Z.ltb_spec iblock (EXT2_DIRECT_BLOCKS + p + p * p + p)); [|lia].
  rewrite E1. cbn [mbind outcome_bind].
  destruct (bread_ok 2 this root junk) as (t1 & -> & Hr1 & C1); [lia|done|done|]. pose proof C1 as [S1 V1].
  cbn [mbind outcome_bind]. rewrite E2. cbn [mbind outcome_bind].
  destruct (bread_ok 1 t1 mid (disk this root)) as (t2 & -> & Hr2 & C2); [lia|done|by apply (usable_same this)|].
  destruct (unchanged_trans _ _ _ C1 C2) as [S2 V2].
  cbn [mbind outcome_bind]. rewrite V1 by done. rewrite E3. cbn [mbind outcome_bind].
  destruct (bread_ok 0 t2 leaf (disk this mid)) as (t3 & -> & Hr3 & C3); [lia|done|by apply (usable_same this)|].
  cbn [mbind outcome_bind]. rewrite V2 by done.
  destruct (Field.get_ok 4 (disk this leaf) (word (iblock - EXT2_DIRECT_BLOCKS - p - p * p))) as [v ->];
    [unfold word; lia|rewrite (length_disk _ _ _ Hr), Hb; unfold word; lia|].
  by exists t3, v.
Qed.

(** C40: in the triply indirect range [set_block_number] reports success but does
    not store the number it was given: the block is mapped to the table itself. *)
Theorem set_block_number_triple_wrong this inode inode_no iblock rblock root mid leaf :
  let p := pointers_per_block this in
  geometry this -> ready 7 this -> triple_tables this inode root mid leaf ->
  EXT2_DIRECT_BLOCKS + p + p * p <= iblock < EXT2_DIRECT_BLOCKS + p + p * p + p ->
  exists this' t, set_block_number this inode inode_no iblock rblock = Ret (E_SUCCESS, inode, this') /\
    get_block_number this' inode iblock = Ret (leaf, t).
Proof.
  intros p Hg Hr Ht Hi.
  destruct (set_triple_ok 3 this inode inode_no iblock rblock root mid leaf) as (t1 & -> & Hr1 & (_ & HS & tab & Hput & HV));
    [lia|done..|].
  pose proof Hg as (Hp & Hb & _). fold p in Hp, Hb, Hput. pose proof Ht as (E1 & U1 & E2 & U2 & E3 & U3 & Hlr & Hlm).
  assert (leaf < 4294967296) by (destruct U3 as [? ?]; unfold bsize in Hb; nia).
  destruct (Field.put_ok 4 (disk this leaf) (word (iblock - EXT2_DIRECT_BLOCKS - p - p * p)) leaf)
    as (l & E & _ & Hget & _); [unfold word; lia|rewrite (length_disk _ _ _ Hr); unfold word; lia|destruct U3; lia|].
  assert (l = tab) as -> by congruence.
  pose proof (same_fields_p _ _ HS) as Ep.
  destruct (get_triple_ok t1 inode iblock root mid leaf) as (t2 & v & Ev & Eg).
  - unfold geometry. rewrite Ep. destruct HS as [_ ->]. done.
  - done.
  - unfold triple_tables. rewrite !HV by done.
    destruct (Z.eqb_spec root leaf), (Z.eqb_spec mid leaf); try congruence.
    do 7 (split; [done || by apply (usable_same this)|]). done.
  - by rewrite Ep.
  - exists t1, t2. split; [done|]. rewrite Ep in Ev. fold p in Ev. rewrite HV, Z.eqb_refl in Ev by done. congruence.
Qed.

(** ** Inodes *)

Definition inode_layout (this : ext2_fs_t) : Prop :=
  0 < inodes_per_group this /\ 0 < inode_size this /\
  inodes_per_group this * inode_size this <= 4294967296 /\
  0 < bsize this /\ bsize this mod inode_size this = 0.

(** Inode [index] is entry [at_] of block [no] of the inode table of its group. *)
Definition located (this : ext2_fs_t) (index no at_ : Z) : Prop :=
  let r := index mod inodes_per_group this in
  let k := bsize this / inode_size this in
  0 <= index /\ r <> 0 /\ index / inodes_per_group this <= block_group_count this /\
  (exists t, Field.get 4 (block_groups this) (BGD_inode_table (index / inodes_per_group this)) = Ret t /\
    no = t + (r - 1) / k) /\
  at_ = (r - 1) mod k /\ usable this no.

Lemma inode_place_ok this index no at_ :
  inode_layout this -> located this index no at_ ->
  inode_place this index = Ret (Some (no, at_ * inode_size this)) /\
  0 <= at_ * inode_size this /\ at_ * inode_size this + inode_size this <= bsize this.
Proof.
  intros (Hg & Hs & Hmax & Hb & Hdiv) (Hi & Hr & Hc & (t & Ht & Hno) & Hat & Hu).
  set (r := index mod inodes_per_group this) in *. set (k := bsize this / inode_size this) in *.
  assert (bsize this = k * inode_size this) as Hk by (unfold k; pose proof (Z.div_mod (bsize this) (inode_size this)); lia).
  assert (0 < k) as Hk0 by nia.
  pose proof (Z.mod_pos_bound index (inodes_per_group this) Hg) as Hrb. fold r in Hrb.
  pose proof (Z.mod_pos_bound (r - 1) k Hk0) as Hmb.
  assert (0 <= (r - 1) / k) as Hq by (apply Z.div_pos; lia).
  assert (no < 4294967296) as Hn32 by (destruct Hu as [? ?]; unfold bsize in Hb; nia).
  assert (bsize this < 4294967296) as Hb32 by (destruct Hu as [? ?]; unfold bsize in Hb |- *; nia).
  unfold inode_place. destruct (Z.eqb_spec (inodes_per_group this) 0), (Z.eqb_spec (bsize this) 0), (Z.eqb_spec (inode_size this) 0); try lia.
  cbn [orb]. destruct (Z.ltb_spec (block_group_count this) (index / inodes_per_group this)); [lia|].
  rewrite Ht. cbn [mbind outcome_bind].
  replace (index - index / inodes_per_group this * inodes_per_group this) with r
    by (unfold r; rewrite Z.mod_eq by lia; lia).
  rewrite (u32_small r), (u32_small (r - 1)), (u32_small ((r - 1) * inode_size this)) by nia.
  assert ((r - 1) * inode_size this / bsize this = (r - 1) / k) as -> by (rewrite Hk; apply Z.div_mul_cancel_r; lia).
  fold k. replace (r - 1 - (r - 1) / k * k) with ((r - 1) mod k) by (rewrite Z.mod_eq by lia; lia).
  rewrite <- Hno. rewrite (u32_small ((r - 1) mod k)) by nia. rewrite <- Hat in *.
  rewrite !u32_small by (destruct Hu; nia). split; [done|]. nia.
Qed.

Lemma located_same this this' index no at_ : same_fields this this' -> located this index no at_ -> located this' index no at_.
Proof.
  intros [E B] H. pose proof H as (H1 & H2 & H3 & H4 & H5 & Hu). rewrite E in B. unfold located. rewrite E.
  do 4 (split; [done || (unfold bsize in *; simpl in *; by rewrite B)|]).
  split; [unfold bsize in *; simpl in *; by rewrite B|]. apply (usable_same this); [split; done|done].
Qed.

(** [read_inode] returns the bytes of the inode's place. *)
Lemma read_inode_ok n this index no at_ :
  0 <= n -> inode_layout this -> ready (1 + n) this -> located this index no at_ ->
  inode_size this <= Z.of_nat (length junk) ->
  exists bytes this', read_inode this index = Ret (bytes, this') /\
    mem_read (disk this no) (at_ * inode_size this) (inode_size this) = Ret bytes /\
    ready n this' /\ unchanged this this'.
Proof.
  intros Hn Hlay Hr Hloc Hj. destruct (inode_place_ok this index no at_ Hlay Hloc) as (Hp & Hp0 & Hp1).
  pose proof Hlay as (_ & Hs & _). unfold read_inode, refresh_inode. rewrite Hp. cbn [mbind outcome_bind].
  destruct (bread_ok n this no junk) as (t1 & -> & Hr1 & C1); [lia|done|by destruct Hloc as (_ & _ & _ & _ & _ & ?)|].
  cbn [mbind outcome_bind]. destruct C1 as [[E1 B1] V1].
  assert (inode_size t1 = inode_size this) as -> by (by rewrite E1).
  destruct (mem_read_ok (disk this no) (at_ * inode_size this) (inode_size this)) as (bs & -> & Hbl & _);
    [lia|lia|rewrite (length_disk _ _ _ Hr); lia|].
  cbn [mbind outcome_bind].
  destruct (mem_write_read (take (Z.to_nat (inode_size this)) junk) 0 bs) as (l & -> & Hl & Hrd & _);
    [lia|rewrite length_take; lia|].
  cbn [mbind outcome_bind]. exists bs, t1. split; [|done]. do 2 f_equal.
  rewrite length_take in Hl. rewrite mem_read_all in Hrd by lia. congruence.
Qed.

Lemma write_inode_ok n this inode index no at_ :
  0 <= n -> inode_layout this -> ready (2 + n) this -> located this index no at_ ->
  Z.of_nat (length inode) = inode_size this ->
  exists this' tab, write_inode this inode index = Ret (E_SUCCESS, this') /\ ready n this' /\ same_fields this this' /\
    mem_write (disk this no) (at_ * inode_size this) inode = Ret tab /\
    forall no', usable this no' -> disk this' no' = if no' =? no then tab else disk this no'.
Proof.
  intros Hn Hlay Hr Hloc Hl. destruct (inode_place_ok this index no at_ Hlay Hloc) as (Hp & Hp0 & Hp1).
  assert (usable this no) as Hu by (by destruct Hloc as (_ & _ & _ & _ & _ & ?)).
  unfold write_inode. rewrite Hp. cbn [mbind outcome_bind].
  destruct (bread_ok (1 + n) this no junk) as (t1 & -> & Hr1 & [[E1 B1] V1]);
    [lia|by replace (1 + (1 + n)) with (2 + n) by lia|done|].
  cbn [mbind outcome_bind]. assert (inode_size t1 = inode_size this) as -> by (by rewrite E1).
  rewrite mem_read_all by done. cbn [mbind outcome_bind].
  destruct (mem_write_read (disk this no) (at_ * inode_size this) inode) as (tab & Et & Htl & _);
    [lia|rewrite (length_disk _ _ _ Hr); lia|].
  rewrite Et. cbn [mbind outcome_bind].
  destruct (bwrite_ok n t1 no tab) as (t2 & -> & Hr2 & [E2 B2] & V2);
    [lia|done|by apply (usable_same this)|rewrite Htl, (length_disk _ _ _ Hr); congruence|].
  cbn [mbind outcome_bind]. exists t2, tab. do 2 (split; [done|]).
  split; [split; [rewrite E2, E1; by destruct this|congruence]|]. split; [done|].
  intros no' Hno'. rewrite V2 by (by apply (usable_same this)). by rewrite V1.
Qed.

(** C17: an inode that was written is read back, and every inode at another place
    of the tables is read as before.  Numbers that are multiples of [inodes_per_group], which
    the code looks for in the wrong group, are excluded ([located]). *)
Theorem write_read_inode this inode index no at_ :
  inode_layout this -> ready 3 this -> located this index no at_ ->
  Z.of_nat (length inode) = inode_size this -> inode_size this <= Z.of_nat (length junk) ->
  exists this', write_inode this inode index = Ret (E_SUCCESS, this') /\
    (exists t, read_inode this' index = Ret (inode, t)) /\
    forall index' no' at', located this index' no' at' -> (no', at') <> (no, at_) ->
      exists bytes t t', read_inode this index' = Ret (bytes, t) /\ read_inode this' index' = Ret (bytes, t').
Proof.
  intros Hlay Hr Hloc Hl Hj.
  destruct (write_inode_ok 1 this inode index no at_) as (this' & tab & -> & Hr' & HS & Htab & HV); [lia|done..|].
  exists this'. split; [done|]. pose proof HS as [E B].
  assert (inode_size this' = inode_size this) as Es by (by rewrite E).
  assert (inode_layout this') as Hlay' by (unfold inode_layout; rewrite B, E; done).
  destruct (inode_place_ok this index no at_ Hlay Hloc) as (_ & Hp0 & Hp1).
  destruct (mem_write_read (disk this no) (at_ * inode_size this) inode) as (tab' & Et & _ & Hrd & Hoth);
    [lia|rewrite (length_disk _ _ _ Hr); lia|].
  assert (tab' = tab) as -> by congruence. split.
  - destruct (read_inode_ok 0 this' index no at_) as (bs & t & -> & Hbs & _);
      [lia|done|done|by apply (located_same this)|by rewrite Es|].
    exists t. rewrite Hl in Hrd.
    rewrite Es, HV, Z.eqb_refl, Hrd in Hbs by (by destruct Hloc as (_ & _ & _ & _ & _ & ?)). congruence.
  - intros index' no' at' Hloc' Hne.
    destruct (read_inode_ok 2 this index' no' at') as (bs & t & -> & Hbs & _); [lia|done..|].
    destruct (read_inode_ok 0 this' index' no' at') as (bs' & t' & -> & Hbs' & _);
      [lia|done|done|by apply (located_same this)|by rewrite Es|].
    exists bs, t, t'. split; [done|]. rewrite Es, HV in Hbs' by (by destruct Hloc' as (_ & _ & _ & _ & _ & ?)).
    destruct (inode_place_ok this index' no' at' Hlay Hloc') as (_ & Hq0 & Hq1). destruct Hlay as (_ & Hs & _).
    destruct (Z.eqb_spec no' no) as [->|]; [|congruence].
    rewrite Hoth in Hbs'; [congruence|lia|]. assert (at' <> at_) by congruence. nia.
Qed.

(** ** Blocks of a file *)

(** Block [k] of the file is allocated and its real number is [no]. *)
Definition holds (this : ext2_fs_t) (inode : list Z) (k no : Z) : Prop :=
  exists pl, mapped this inode k pl /\ stored (disk this) inode pl = Ret no /\ usable this no.

(** The inode counts at least [n] blocks. *)
Definition allocated (this : ext2_fs_t) (inode : list Z) (n : Z) : Prop :=
  0 < bsize this / 512 /\ exists c, Field.get 4 inode inode_blocks = Ret c /\ n <= c / (bsize this / 512).

Lemma inode_read_block_ok n this inode k no buf :
  0 <= n -> geometry this -> ready (3 + n) this -> (100 <= length inode)%nat ->
  allocated this inode (k + 1) -> holds this inode k no ->
  exists this', inode_read_block this inode k buf = Ret (no, disk this no, this') /\ ready n this' /\ unchanged this this'.
Proof.
  intros Hn Hg Hr Hl (Hb & c & Ec & Hc) (pl & Hm & Hst & Hu). unfold inode_read_block. rewrite Ec.
  cbn [mbind outcome_bind]. destruct (Z.eqb_spec (bsize this / 512) 0); [lia|].
  destruct (Z.leb_spec (c / (bsize this / 512)) k); [lia|].
  destruct (get_block_number_ok (1 + n) this inode k pl) as (v & t1 & -> & Hst1 & Hr1 & C1); [lia|done| |done|done|].
  { by apply (ready_le (3 + n)); [lia|]. }
  cbn [mbind outcome_bind]. assert (v = no) as -> by congruence. pose proof C1 as [S1 V1].
  destruct (bread_ok n t1 no buf) as (t2 & -> & Hr2 & C2); [lia|done|by apply (usable_same this)|].
  cbn [mbind outcome_bind]. exists t2. rewrite V1 by done. split; [done|]. split; [done|]. by eapply unchanged_trans.
Qed.

(** A file whose blocks [0] to [n - 1] are allocated at [nos]. *)
Definition file_at (this : ext2_fs_t) (inode : list Z) (nos : Z -> Z) (n : Z) : Prop :=
  (100 <= length inode)%nat /\ allocated this inode n /\ forall k, 0 <= k < n -> holds this inode k (nos k).

Lemma geometry_same this this' : same_fields this this' -> geometry this -> geometry this'.
Proof. intros HS Hg. unfold geometry. rewrite (same_fields_p _ _ HS). destruct HS as [_ ->]. done. Qed.

Lemma file_at_unchanged this this' inode nos n :
  unchanged this this' -> file_at this inode nos n -> file_at this' inode nos n.
Proof.
  intros [HS HV] (Hl & Ha & Hh). split; [done|]. split.
  - unfold allocated. destruct HS as [_ ->]. done.
  - intros k Hk. destruct (Hh k Hk) as (pl & Hm & Hst & Hu). exists pl.
    split; [|split; [|by apply (usable_same this)]].
    + apply (mapped_transfer this this' inode inode); [done|done|done|]. intros root _ Hr. by apply HV.
    + destruct pl as [j|no j]; simpl in *; [done|]. rewrite HV; [done|]. destruct Hm as (_ & _ & Hm & _). by eapply Hm.
Qed.

End Driver.
(** ** Witnesses *)

(** Blocks of eight bytes hold two block numbers.  Block 9 is the indirect table,
    3 the root and 4 and 6 the leaves of the doubly indirect blocks, 10, 11 and 12
    the tables of the triply indirect ones; inodes of four bytes start at block 5. *)
Definition demo_device : device :=
  fun a => if a =? 24 then 4 else if a =? 28 then 6 else if a =? 80 then 11 else if a =? 88 then 12 else 0.
Definition demo_inode : list Z :=
  replicate 88 0 ++ [9; 0; 0; 0] ++ [3; 0; 0; 0] ++ [10; 0; 0; 0].
Definition demo_fs : ext2_fs_t :=
  Build_fs (Build_blocks demo_device 8 5 (Some [Build_entry 0 0 0 (replicate 8 0)])) [] ([0; 0; 0; 0; 0; 0; 0; 0; 5] ++ replicate 23 0)
    2 5 1 1 2 4.

Lemma demo_ready n : n < 1000 -> ready n demo_fs.
Proof.
  intros Hn. split; [|simpl; unfold UINT32_MAX; lia]. split; [done|]. split; [done|]. split; [done|]. split.
  - constructor; [|constructor]. done.
  - intros [|i] [|j] e e' Hi Hj; simpl in *; done || (by rewrite lookup_nil in *).
Qed.

Lemma demo_geometry : geometry demo_fs.
Proof. done. Qed.

Lemma demo_mapped : mapped demo_fs demo_inode 17 (In_block 6 1).
Proof.
  split; [vm_compute; split; congruence|]. split; [reflexivity|]. split.
  - intros no i [= <- <-]. done.
  - intros _. exists 3. done.
Qed.

Lemma get_block_number_maps_witness :
  exists v this', get_block_number [] demo_fs demo_inode 17 = Ret (v, this') /\
    stored (disk demo_fs) demo_inode (In_block 6 1) = Ret v /\ unchanged demo_fs this'.
Proof.
  apply get_block_number_maps; [exact demo_geometry|apply demo_ready; lia|vm_compute; lia|exact demo_mapped].
Defined.

Lemma set_block_number_updates_witness :
  exists inode' this', set_block_number [] demo_fs demo_inode 7 17 1234 = Ret (E_SUCCESS, inode', this') /\
    (exists t, get_block_number [] this' inode' 17 = Ret (1234, t)) /\
    forall j plj, mapped demo_fs demo_inode j plj -> plj <> In_block 6 1 ->
      exists v t t', get_block_number [] demo_fs demo_inode j = Ret (v, t) /\ get_block_number [] this' inode' j = Ret (v, t').
Proof.
  apply set_block_number_updates;
    [exact demo_geometry|apply demo_ready; lia|vm_compute; lia|lia|exact demo_mapped|].
  intros no i [= <- <-]. vm_compute. congruence.
Defined.

Lemma set_block_number_triple_wrong_witness :
  exists this' t, set_block_number [] demo_fs demo_inode 7 19 1234 = Ret (E_SUCCESS, demo_inode, this') /\
    get_block_number [] this' demo_inode 19 = Ret (12, t).
Proof.
  apply (set_block_number_triple_wrong [] demo_fs demo_inode 7 19 1234 10 11 12);
    [exact demo_geometry|apply demo_ready; lia| |vm_compute; split; congruence].
  do 6 (split; [done|]). done.
Defined.

Lemma write_read_inode_witness :
  exists this', write_inode [7; 7; 7; 7] demo_fs [1; 2; 3; 4] 4 = Ret (E_SUCCESS, this') /\
    (exists t, read_inode [7; 7; 7; 7] this' 4 = Ret ([1; 2; 3; 4], t)) /\
    forall index' no' at', located demo_fs index' no' at' -> (no', at') <> (6, 1) ->
      exists bytes t t', read_inode [7; 7; 7; 7] demo_fs index' = Ret (bytes, t) /\
        read_inode [7; 7; 7; 7] this' index' = Ret (bytes, t').
Proof.
  apply (write_read_inode [7; 7; 7; 7] demo_fs [1; 2; 3; 4] 4 6 1); [done|apply demo_ready; lia| |done|done].
  split; [done|]. split; [done|]. split; [vm_compute; congruence|]. split; [exists 5; done|]. done.
Defined.

End Ext2.
