(* ===== verification/Ext2Files.v ===== *)
(** * Files and directories of [kernel/src/ext2.c]

    Byte ranges of a file, directory entries, and mounting, on the inodes and
    blocks of [Ext2].  A directory entry is an overlay on the bytes of a block:
    inode number, record length, length of the name, type, name.  [now] is the
    time of day and [user] the user of the current task; an [inode] is the copy
    of an inode the source allocates, and [ino] the number of the inode of the
    node a call is about.  Copies made for debugging messages are left out. *)

From stdpp Require Import base numbers strings list.
From S2P Require Import Prelude CString Ext2Cache Ext2.

Module Ext2Files.
Import Ext2Cache Ext2.

Definition E_BADPARENT : Z := 3.
Definition EXT2_S_IFLNK : Z := 0xA000.
Definition EXT2_S_IFREG : Z := 0x8000.
Definition EXT2_S_IFBLK : Z := 0x6000.
Definition EXT2_S_IFDIR : Z := 0x4000.
Definition EXT2_S_IFCHR : Z := 0x2000.
Definition EXT2_S_IFIFO : Z := 0x1000.
Definition EXT2_SUPER_MAGIC : Z := 0xEF53.
Definition EXT2_FLAG_NOCACHE : Z := 1.
Definition O_TRUNC : Z := 0x400.
Definition FS_FILE : Z := 0x01.
Definition FS_DIRECTORY : Z := 0x02.
Definition FS_CHARDEVICE : Z := 0x04.
Definition FS_BLOCKDEVICE : Z := 0x08.
Definition FS_PIPE : Z := 0x10.
Definition FS_SYMLINK : Z := 0x20.

(** Fields of an inode ([inode_size_field] and [inode_blocks] are in [Ext2]). *)
Definition inode_mode : Z := 0.
Definition inode_uid : Z := 2.
Definition inode_atime : Z := 8.
Definition inode_ctime : Z := 12.
Definition inode_mtime : Z := 16.
Definition inode_dtime : Z := 20.
Definition inode_gid : Z := 24.
Definition inode_links_count : Z := 26.
Definition inode_flags : Z := 32.
Definition inode_osd1 : Z := 36.
Definition inode_generation : Z := 100.
Definition inode_file_acl : Z := 104.
Definition inode_dir_acl : Z := 108.
Definition inode_faddr : Z := 112.
Definition inode_osd2 : Z := 116.
Definition BGD_used_dirs_count (i : Z) : Z := i * sizeof_bgdescriptor + 16.

(** Fields of the directory entry at [off]. *)
Definition sizeof_ext2_dir_t : Z := 8.
Definition d_rec_len (off : Z) : Z := off + 4.
Definition d_name_len (off : Z) : Z := off + 6.
Definition d_file_type (off : Z) : Z := off + 7.
Definition d_name (off : Z) : Z := off + 8.

(** The length of an entry with a name of [n] bytes, rounded up to a word. *)
Definition entry_len (n : Z) : Z :=
  let r := n + sizeof_ext2_dir_t in r + (if truthy (r mod 4) then 4 - r mod 4 else 0).

Section Driver.
Context (junk : list Z).

(** ** Byte ranges *)

(** Position in the caller's buffer of a block after the first. *)
Definition span_pos (this : ext2_fs_t) (blocks_read offset : Z) : Z :=
  u32 (bsize this * blocks_read - offset mod bsize this).

Fixpoint read_span (this : ext2_fs_t) (inode : list Z) (offset start_block : Z) (todo : nat)
    (block_offset blocks_read : Z) (buf buffer : list Z) : outcome (list Z * list Z * ext2_fs_t) :=
  match todo with
  | O => Ret (buf, buffer, this)
  | S todo' =>
      '(_, buf, this) ← inode_read_block junk this inode block_offset buf;
      buffer ← (if block_offset =? start_block then
                  bytes ← mem_read buf (offset mod bsize this) (bsize this - offset mod bsize this);
                  mem_write buffer 0 bytes
                else
                  bytes ← mem_read buf 0 (bsize this);
                  mem_write buffer (span_pos this blocks_read offset) bytes);
      read_span this inode offset start_block todo' (block_offset + 1) (blocks_read + 1) buf buffer
  end.

(** The bytes from [offset] to [end_] of the file, in one block or in several. *)
Definition read_range (this : ext2_fs_t) (inode : list Z) (offset end_ : Z) (buffer : list Z)
  : outcome (list Z * ext2_fs_t) :=
  let start_block := offset / bsize this in
  let end_block := end_ / bsize this in
  let end_size := u32 (end_ - end_block * bsize this) in
  let size_to_read := u32 (end_ - offset) in
  if start_block =? end_block then
    '(_, buf, this) ← inode_read_block junk this inode start_block junk;
    bytes ← mem_read buf (offset mod bsize this) size_to_read;
    buffer ← mem_write buffer 0 bytes;
    Ret (buffer, this)
  else
    let n := Z.max 0 (end_block - start_block) in
    '(buf, buffer, this) ← read_span this inode offset start_block (Z.to_nat n) start_block 0 junk buffer;
    if truthy end_size then
      '(_, buf, this) ← inode_read_block junk this inode end_block buf;
      bytes ← mem_read buf 0 end_size;
      buffer ← mem_write buffer (span_pos this n offset) bytes;
      Ret (buffer, this)
    else Ret (buffer, this).

Definition read_ext2 (this : ext2_fs_t) (ino offset size : Z) (buffer : list Z)
  : outcome (Z * list Z * ext2_fs_t) :=
  '(inode, this) ← read_inode junk this ino;
  sz ← Field.get 4 inode inode_size_field;
  if sz =? 0 then Ret (0, buffer, this)
  else if bsize this =? 0 then Fault
  else
    let end_ := if sz <? u32 (offset + size) then sz else u32 (offset + size) in
    '(buffer, this) ← read_range this inode offset end_ buffer;
    Ret (u32 (end_ - offset), buffer, this).

(** Overwrites a part of one block of the file: the block is read, the bytes of
    the caller's buffer from [src] on are copied to [pos], and it is written;
    also gives the real block number that was read. *)
Definition write_part (this : ext2_fs_t) (inode : list Z) (inode_number block pos n src : Z)
    (buf buffer : list Z) : outcome (Z * list Z * list Z * ext2_fs_t) :=
  '(b, buf, this) ← inode_read_block junk this inode block buf;
  bytes ← mem_read buffer src n;
  buf ← mem_write buf pos bytes;
  '(_, inode, this) ← inode_write_block junk this inode inode_number block buf;
  Ret (b, inode, buf, this).

Fixpoint write_span (this : ext2_fs_t) (inode : list Z) (inode_number offset start_block : Z) (todo : nat)
    (block_offset blocks_read : Z) (buf buffer : list Z) : outcome (list Z * list Z * ext2_fs_t) :=
  match todo with
  | O => Ret (inode, buf, this)
  | S todo' =>
      '(b, inode, buf, this) ←
        (if block_offset =? start_block then
           write_part this inode inode_number block_offset (offset mod bsize this)
             (bsize this - offset mod bsize this) 0 buf buffer
         else
           write_part this inode inode_number block_offset 0 (bsize this)
             (span_pos this blocks_read offset) buf buffer);
      '(inode, this) ← (if b =? 0 then refresh_inode junk this inode inode_number else Ret (inode, this));
      write_span this inode inode_number offset start_block todo' (block_offset + 1) (blocks_read + 1) buf buffer
  end.

(** Returns the number of bytes, the inode and the state. *)
Definition write_inode_buffer (this : ext2_fs_t) (inode : list Z) (inode_number offset size : Z) (buffer : list Z)
  : outcome (Z * list Z * ext2_fs_t) :=
  let end_ := u32 (offset + size) in
  sz ← Field.get 4 inode inode_size_field;
  '(inode, this) ← (if sz <? end_ then
                      inode ← Field.put 4 inode inode_size_field end_;
                      '(_, this) ← write_inode junk this inode inode_number;
                      Ret (inode, this)
                    else Ret (inode, this));
  if bsize this =? 0 then Fault
  else
    let start_block := offset / bsize this in
    let end_block := end_ / bsize this in
    let end_size := u32 (end_ - end_block * bsize this) in
    let size_to_read := u32 (end_ - offset) in
    if start_block =? end_block then
      '(_, inode, _, this) ← write_part this inode inode_number start_block (offset mod bsize this)
                               size_to_read 0 junk buffer;
      Ret (size_to_read, inode, this)
    else
      let n := Z.max 0 (end_block - start_block) in
      '(inode, buf, this) ← write_span this inode inode_number offset start_block (Z.to_nat n) start_block 0 junk buffer;
      '(inode, this) ← (if truthy end_size then
                          '(_, inode, _, this) ← write_part this inode inode_number end_block 0 end_size
                                                   (span_pos this n offset) buf buffer;
                          Ret (inode, this)
                        else Ret (inode, this));
      Ret (size_to_read, inode, this).

Definition write_ext2 (this : ext2_fs_t) (ino offset size : Z) (buffer : list Z) : outcome (Z * ext2_fs_t) :=
  '(inode, this) ← read_inode junk this ino;
  '(rv, _, this) ← write_inode_buffer this inode ino offset size buffer;
  Ret (rv, this).

Definition open_ext2 (this : ext2_fs_t) (ino flags : Z) : outcome ext2_fs_t :=
  if truthy (Z.land flags O_TRUNC) then
    '(inode, this) ← read_inode junk this ino;
    inode ← Field.put 4 inode inode_size_field 0;
    '(_, this) ← write_inode junk this inode ino;
    Ret this
  else Ret this.

Definition ext2_sync_fs (this : ext2_fs_t) : outcome ext2_fs_t :=
  '(_, b) ← ext2_sync (blk this);
  Ret (set_blk this b).

Definition chmod_ext2 (this : ext2_fs_t) (ino mode : Z) : outcome (Z * ext2_fs_t) :=
  '(inode, this) ← read_inode junk this ino;
  m ← Field.get 2 inode inode_mode;
  inode ← Field.put 2 inode inode_mode (u16 (Z.lor (Z.land m 0xFFFFF000) mode));
  '(_, this) ← write_inode junk this inode ino;
  this ← ext2_sync_fs this;
  Ret (0, this).

(** ** Directories *)

(** The step to the next block at the head of the loops; the block number is a
    byte. *)
Definition next_block (this : ext2_fs_t) (inode block : list Z) (block_nr dir_offset : Z)
  : outcome (list Z * Z * Z * ext2_fs_t) :=
  if bsize this <=? dir_offset then
    '(_, block, this) ← inode_read_block junk this inode (u8 (block_nr + 1)) block;
    Ret (block, u8 (block_nr + 1), u32 (dir_offset - bsize this), this)
  else Ret (block, block_nr, dir_offset, this).

(** The search loop of [finddir_ext2] and [unlink_ext2]: the offset of the entry
    in the block, the block and its number.  Every entry has a positive length in
    a well-formed directory, so its size is enough fuel; an entry of length zero
    makes the loop go on for ever. *)
Fixpoint find_entry (fuel : nat) (this : ext2_fs_t) (inode : list Z) (name : cstring) (block : list Z)
    (block_nr dir_offset total_offset : Z) : outcome (option Z * list Z * Z * ext2_fs_t) :=
  match fuel with
  | O => OutOfFuel
  | S fuel' =>
      size ← Field.get 4 inode inode_size_field;
      if total_offset <? size then
        '(block, block_nr, dir_offset, this) ← next_block this inode block block_nr dir_offset;
        ino ← Field.get 4 block dir_offset;
        name_len ← Field.get 1 block (d_name_len dir_offset);
        rec_len ← Field.get 2 block (d_rec_len dir_offset);
        if (ino =? 0) || negb (strlen name =? name_len) then
          find_entry fuel' this inode name block block_nr (u32 (dir_offset + rec_len)) (u32 (total_offset + rec_len))
        else
          dname ← mem_read block (d_name dir_offset) name_len;
          if strcmp (cut_delim 0 dname).1 name =? 0 then Ret (Some dir_offset, block, block_nr, this)
          else
            find_entry fuel' this inode name block block_nr (u32 (dir_offset + rec_len)) (u32 (total_offset + rec_len))
      else Ret (None, block, block_nr, this)
  end.

(** The search from the first block of the directory [ino]. *)
Definition search_dir (this : ext2_fs_t) (ino : Z) (name : cstring)
  : outcome (option Z * list Z * Z * list Z * ext2_fs_t) :=
  '(inode, this) ← read_inode junk this ino;
  '(_, block, this) ← inode_read_block junk this inode 0 junk;
  size ← Field.get 4 inode inode_size_field;
  '(found, block, block_nr, this) ← find_entry (S (Z.to_nat size)) this inode name block 0 0 0;
  Ret (found, block, block_nr, inode, this).

(** The node handed to the virtual file system; the last fields say which of
    the function pointers are set. *)
Record fnode_t := Build_fnode {
  fn_inode : Z;
  fn_name : list Z;
  fn_uid : Z;
  fn_gid : Z;
  fn_length : Z;
  fn_mask : Z;
  fn_nlink : Z;
  fn_flags : Z;
  fn_atime : Z;
  fn_mtime : Z;
  fn_ctime : Z;
  fn_read : bool;
  fn_write : bool;
  fn_create : bool;
  fn_mkdir : bool;
  fn_readdir : bool;
  fn_finddir : bool;
  fn_unlink : bool;
  fn_symlink : bool;
  fn_readlink : bool
}.

(** [direntry] is a copy of the entry; the node starts out as zeros. *)
Definition node_from_file (inode direntry : list Z) : outcome fnode_t :=
  ino ← Field.get 4 direntry 0;
  name_len ← Field.get 1 direntry (d_name_len 0);
  name ← mem_read direntry (d_name 0) name_len;
  uid ← Field.get 2 inode inode_uid;
  gid ← Field.get 2 inode inode_gid;
  size ← Field.get 4 inode inode_size_field;
  mode ← Field.get 2 inode inode_mode;
  links ← Field.get 2 inode inode_links_count;
  atime ← Field.get 4 inode inode_atime;
  mtime ← Field.get 4 inode inode_mtime;
  ctime ← Field.get 4 inode inode_ctime;
  let has kind := Z.land mode kind =? kind in
  let flag kind f flags := if has kind then Z.lor flags f else flags in
  let flags := flag EXT2_S_IFLNK FS_SYMLINK (flag EXT2_S_IFIFO FS_PIPE (flag EXT2_S_IFCHR FS_CHARDEVICE
                 (flag EXT2_S_IFBLK FS_BLOCKDEVICE (flag EXT2_S_IFDIR FS_DIRECTORY (flag EXT2_S_IFREG FS_FILE 0))))) in
  let reg := has EXT2_S_IFREG in
  let dir := has EXT2_S_IFDIR in
  let lnk := has EXT2_S_IFLNK in
  Ret (Build_fnode ino (cut_delim 0 name).1 uid gid size (Z.land mode 0xFFF) links flags atime mtime ctime
         (reg && negb lnk) (reg && negb dir && negb lnk)
         (dir && negb lnk) (dir && negb lnk) (dir && negb lnk) (dir && negb lnk)
         dir dir lnk).

Definition finddir_ext2 (this : ext2_fs_t) (ino : Z) (name : cstring) : outcome (option fnode_t * ext2_fs_t) :=
  '(found, block, _, _, this) ← search_dir this ino name;
  match found with
  | None => Ret (None, this)
  | Some off =>
      rec_len ← Field.get 2 block (d_rec_len off);
      direntry ← mem_read block off rec_len;
      child ← Field.get 4 direntry 0;
      '(inode, this) ← read_inode junk this child;
      n ← node_from_file inode direntry;
      Ret (Some n, this)
  end.

(** The directory's inode is used after it was freed: [freed inode] is what its memory
    holds by then. *)
Definition unlink_ext2 (freed : list Z -> list Z) (this : ext2_fs_t) (ino : Z) (name : cstring) : outcome ext2_fs_t :=
  '(found, block, block_nr, inode, this) ← search_dir this ino name;
  match found with
  | None => Ret this
  | Some off =>
      block ← Field.put 4 block off 0;
      '(_, _, this) ← inode_write_block junk this (freed inode) ino block_nr block;
      ext2_sync_fs this
  end.

(** A copy of the entry with number [index] among those in use. *)
Fixpoint direntry_loop (fuel : nat) (this : ext2_fs_t) (inode : list Z) (index : Z) (block : list Z)
    (block_nr dir_offset total_offset dir_index : Z) : outcome (option (list Z) * ext2_fs_t) :=
  match fuel with
  | O => OutOfFuel
  | S fuel' =>
      size ← Field.get 4 inode inode_size_field;
      if (total_offset <? size) && (dir_index <=? index) then
        ino ← Field.get 4 block dir_offset;
        rec_len ← Field.get 2 block (d_rec_len dir_offset);
        if truthy ino && (dir_index =? index) then
          out ← mem_read block dir_offset rec_len;
          Ret (Some out, this)
        else
          let dir_index := if truthy ino then dir_index + 1 else dir_index in
          '(block, block_nr, dir_offset, this) ←
            next_block this inode block block_nr (u32 (dir_offset + rec_len));
          direntry_loop fuel' this inode index block block_nr dir_offset (u32 (total_offset + rec_len)) dir_index
      else Ret (None, this)
  end.

Definition direntry_ext2 (this : ext2_fs_t) (inode : list Z) (index : Z) : outcome (option (list Z) * ext2_fs_t) :=
  '(_, block, this) ← inode_read_block junk this inode 0 junk;
  size ← Field.get 4 inode inode_size_field;
  direntry_loop (S (Z.to_nat size)) this inode index block 0 0 0 0.

(** The inode number, of type [unsigned short], and the name of the [dirent]. *)
Definition readdir_ext2 (this : ext2_fs_t) (ino index : Z) : outcome (option (Z * list Z) * ext2_fs_t) :=
  '(inode, this) ← read_inode junk this ino;
  '(entry, this) ← direntry_ext2 this inode index;
  match entry with
  | None => Ret (None, this)
  | Some direntry =>
      name_len ← Field.get 1 direntry (d_name_len 0);
      name ← mem_read direntry (d_name 0) name_len;
      d_ino ← Field.get 4 direntry 0;
      Ret (Some (u16 d_ino, name), this)
  end.

(** How [create_entry] places the new entry. *)
Inductive placing := Nowhere | Modify (previous : Z) | Replace.

Fixpoint place_entry (fuel : nat) (this : ext2_fs_t) (pinode block : list Z)
    (block_nr dir_offset total_offset : Z) (how : placing) : outcome (placing * Z * list Z * Z * ext2_fs_t) :=
  match fuel with
  | O => OutOfFuel
  | S fuel' =>
      size ← Field.get 4 pinode inode_size_field;
      if total_offset <? size then
        '(block, block_nr, dir_offset, this) ← next_block this pinode block block_nr dir_offset;
        name_len ← Field.get 1 block (d_name_len dir_offset);
        rec_len ← Field.get 2 block (d_rec_len dir_offset);
        ino ← Field.get 4 block dir_offset;
        let sreclen := entry_len name_len in
        if negb (rec_len =? sreclen) && (u32 (total_offset + rec_len) =? size) then
          Ret (Modify dir_offset, u32 (dir_offset + sreclen), block, block_nr, this)
        else
          place_entry fuel' this pinode block block_nr (u32 (dir_offset + rec_len)) (u32 (total_offset + rec_len))
            (if ino =? 0 then Replace else how)
      else Ret (how, dir_offset, block, block_nr, this)
  end.

(** Writes the fields of the new entry, which reaches to the end of the block. *)
Definition put_entry (this : ext2_fs_t) (block : list Z) (dir_offset inode : Z) (name : cstring) : outcome (list Z) :=
  block ← Field.put 4 block dir_offset inode;
  block ← Field.put 2 block (d_rec_len dir_offset) (u16 (bsize this - dir_offset));
  block ← Field.put 1 block (d_name_len dir_offset) (u8 (strlen name));
  block ← Field.put 1 block (d_file_type dir_offset) 0;
  mem_write block (d_name dir_offset) name.

(** The callers have checked that the name is not [NULL]. *)
Definition create_entry (this : ext2_fs_t) (parent : Z) (name : cstring) (inode : Z) : outcome (Z * ext2_fs_t) :=
  '(pinode, this) ← read_inode junk this parent;
  mode ← Field.get 2 pinode inode_mode;
  if Z.land mode EXT2_S_IFDIR =? 0 then Ret (E_BADPARENT, this)
  else
    let rec_len := u32 (entry_len (strlen name)) in
    '(_, block, this) ← inode_read_block junk this pinode 0 junk;
    size ← Field.get 4 pinode inode_size_field;
    '(how, dir_offset, block, block_nr, this) ← place_entry (S (Z.to_nat size)) this pinode block 0 0 0 Nowhere;
    let write block :=
      block ← put_entry this block dir_offset inode name;
      '(_, _, this) ← inode_write_block junk this pinode parent block_nr block;
      Ret (E_NOSPACE, this) in
    match how with
    | Modify previous =>
        if bsize this <=? u32 (dir_offset + rec_len) then Ret (E_NOSPACE, this)
        else
          name_len ← Field.get 1 block (d_name_len previous);
          block ← Field.put 2 block (d_rec_len previous) (u16 (entry_len name_len));
          write block
    | _ => write block
    end.

(** ** New files *)

(** The fields of a new inode, in the order the source sets them. *)
Definition new_inode (inode : list Z) (now user links mode : Z) : outcome (list Z) :=
  inode ← Field.put 4 inode inode_atime (u32 now);
  inode ← Field.put 4 inode inode_ctime (u32 now);
  inode ← Field.put 4 inode inode_mtime (u32 now);
  inode ← Field.put 4 inode inode_dtime 0;
  inode ← mem_write inode (inode_block 0) (replicate 60 0);
  inode ← Field.put 4 inode inode_blocks 0;
  inode ← Field.put 4 inode inode_size_field 0;
  inode ← Field.put 2 inode inode_uid (u16 user);
  inode ← Field.put 2 inode inode_gid (u16 user);
  inode ← Field.put 4 inode inode_faddr 0;
  inode ← Field.put 2 inode inode_links_count links;
  inode ← Field.put 4 inode inode_flags 0;
  inode ← Field.put 4 inode inode_osd1 0;
  inode ← Field.put 4 inode inode_generation 0;
  inode ← Field.put 4 inode inode_file_acl 0;
  inode ← Field.put 4 inode inode_dir_acl 0;
  inode ← Field.put 2 inode inode_mode mode;
  mem_write inode inode_osd2 (replicate 12 0).

Definition create_ext2 (this : ext2_fs_t) (now user parent : Z) (name : option cstring) (permission : Z)
  : outcome ext2_fs_t :=
  match name with
  | None => Ret this
  | Some name =>
      '(check, this) ← finddir_ext2 this parent name;
      match check with
      | Some _ => Ret this
      | None =>
          '(inode_no, this) ← allocate_inode junk this;
          '(inode, this) ← read_inode junk this inode_no;
          inode ← new_inode inode now user 1 (Z.lor EXT2_S_IFREG (Z.land 0xFFF permission));
          '(_, this) ← write_inode junk this inode inode_no;
          '(_, this) ← create_entry this parent name inode_no;
          ext2_sync_fs this
      end
  end.

(** The bytes of one of the first two entries of a directory. *)
Definition dot_entry (ino rec_len name_len c2 : Z) : list Z :=
  Field.bytes_of 4 ino ++ Field.bytes_of 2 rec_len ++ [name_len; 0; 46; c2; 0; 0].

Definition mkdir_ext2 (this : ext2_fs_t) (now user parent : Z) (name : option cstring) (permission : Z)
  : outcome ext2_fs_t :=
  match name with
  | None => Ret this
  | Some name =>
      '(check, this) ← finddir_ext2 this parent name;
      match check with
      | Some _ => Ret this
      | None =>
          '(inode_no, this) ← allocate_inode junk this;
          '(inode, this) ← read_inode junk this inode_no;
          inode ← new_inode inode now user 2 (Z.lor EXT2_S_IFDIR (Z.land 0xFFF permission));
          '(_, this) ← write_inode junk this inode inode_no;
          '(_, this) ← create_entry this parent name inode_no;
          inode ← Field.put 4 inode inode_size_field (bsize this);
          '(_, this) ← write_inode junk this inode inode_no;
          tmp ← mem_write (take (Z.to_nat (bsize this)) junk) 0 (dot_entry inode_no 12 1 0);
          tmp ← mem_write tmp 12 (dot_entry parent (u16 (bsize this - 12)) 2 46);
          '(_, _, this) ← inode_write_block junk this inode inode_no 0 tmp;
          '(pinode, this) ← read_inode junk this parent;
          links ← Field.get 2 pinode inode_links_count;
          pinode ← Field.put 2 pinode inode_links_count (u16 (links + 1));
          '(_, this) ← write_inode junk this pinode parent;
          if inodes_per_group this =? 0 then Fault
          else
            let group := inode_no / inodes_per_group this in
            dirs ← Field.get 2 (block_groups this) (BGD_used_dirs_count group);
            g ← Field.put 2 (block_groups this) (BGD_used_dirs_count group) (u16 (dirs + 1));
            this ← write_groups (set_groups this g) 0 (Z.to_nat (bgd_block_span this));
            ext2_sync_fs this
      end
  end.

(** A target of at most 60 bytes is kept in the inode's block numbers. *)
Definition symlink_ext2 (this : ext2_fs_t) (now user parent : Z) (target : cstring) (name : option cstring)
  : outcome ext2_fs_t :=
  match name with
  | None => Ret this
  | Some name =>
      '(check, this) ← finddir_ext2 this parent name;
      match check with
      | Some _ => Ret this
      | None =>
          '(inode_no, this) ← allocate_inode junk this;
          '(inode, this) ← read_inode junk this inode_no;
          inode ← new_inode inode now user 1 (Z.lor EXT2_S_IFLNK 0x1FF);
          let embedded := strlen target <=? 60 in
          inode ← (if embedded then
                     inode ← mem_write inode (inode_block 0) target;
                     Field.put 4 inode inode_size_field (strlen target)
                   else Ret inode);
          '(_, this) ← write_inode junk this inode inode_no;
          '(_, this) ← create_entry this parent name inode_no;
          this ← (if embedded then Ret this
                  else '(_, _, this) ← write_inode_buffer this inode inode_no 0 (strlen target) target; Ret this);
          ext2_sync_fs this
      end
  end.

(** [size] and [read_size] are of type [int], compared with the size of the file
    as unsigned numbers and with each other as signed ones. *)
Definition readlink_ext2 (this : ext2_fs_t) (ino : Z) (buf : list Z) (size : Z) : outcome (Z * list Z * ext2_fs_t) :=
  '(inode, this) ← read_inode junk this ino;
  sz ← Field.get 4 inode inode_size_field;
  let read_size := s32 (if sz <? u32 size then sz else size) in
  '(buf, this) ← (if 60 <? sz then
                    '(_, buf, this) ← read_ext2 this ino 0 (u32 read_size) buf; Ret (buf, this)
                  else
                    bytes ← mem_read inode (inode_block 0) read_size;
                    buf ← mem_write buf 0 bytes;
                    Ret (buf, this));
  buf ← (if read_size <? size then aset buf read_size 0 else Ret buf);
  Ret (read_size, buf, this).

(** ** Mounting *)

Definition SB_inodes_count : Z := 0.
Definition SB_blocks_count : Z := 4.
Definition SB_log_block_size : Z := 24.
Definition SB_magic : Z := 56.
Definition SB_inode_size : Z := 88.

Fixpoint read_groups (this : ext2_fs_t) (i : Z) (todo : nat) : outcome (list Z * ext2_fs_t) :=
  match todo with
  | O => Ret ([], this)
  | S todo' =>
      '(b, this) ← bread this (bgd_offset this + i) (take (Z.to_nat (bsize this)) junk);
      '(rest, this) ← read_groups this (i + 1) todo';
      Ret (b ++ rest, this)
  end.

(** [mount_ext2] up to the descriptors: [None] when the magic number is wrong. *)
Definition load_ext2 (block_device : device) (flags : Z) : outcome (option ext2_fs_t) :=
  let first := Build_blocks block_device 1024 0 None in
  '(_, sb, _) ← read_block first 1 (take 1024 junk);
  magic ← Field.get 2 sb SB_magic;
  if negb (magic =? EXT2_SUPER_MAGIC) then Ret None
  else
    isz ← Field.get 2 sb SB_inode_size;
    let isz := if isz =? 0 then 128 else isz in
    log_block_size ← Field.get 4 sb SB_log_block_size;
    let bs := u32 (Z.shiftl 1024 log_block_size) in
    let cache_entries := if 2048 <? bs then 10240 / 4 else 10240 in
    blocks_count ← Field.get 4 sb SB_blocks_count;
    blocks_per_group ← Field.get 4 sb SB_blocks_per_group;
    inodes_count ← Field.get 4 sb SB_inodes_count;
    if (blocks_per_group =? 0) || (bs =? 0) then Fault
    else
      let bgds := blocks_count / blocks_per_group in
      let bgds := if u32 (blocks_per_group * bgds) <? blocks_count then u32 (bgds + 1) else bgds in
      if bgds =? 0 then Fault
      else
        let dc := if truthy (Z.land flags EXT2_FLAG_NOCACHE) then None
                  else Some (replicate (Z.to_nat cache_entries) (Build_entry 0 0 0 (replicate (Z.to_nat bs) 0))) in
        let span := u32 (sizeof_bgdescriptor * bgds) / bs + 1 in
        let this := Build_fs (Build_blocks block_device bs 0 dc) sb [] (bs / 4) (inodes_count / bgds) bgds span
                      (if 1024 <? bs then 1 else 2) isz in
        '(g, this) ← read_groups this 0 (Z.to_nat span);
        Ret (Some (set_groups this g)).

(** The root node: [None] when the inode is not a directory's.  The pointers
    [symlink] and [readlink] are not set: [stale] says whether the memory of the
    node holds something there. *)
Definition ext2_root (stale : bool) (inode : list Z) : outcome (option fnode_t) :=
  uid ← Field.get 2 inode inode_uid;
  gid ← Field.get 2 inode inode_gid;
  size ← Field.get 4 inode inode_size_field;
  mode ← Field.get 2 inode inode_mode;
  links ← Field.get 2 inode inode_links_count;
  atime ← Field.get 4 inode inode_atime;
  mtime ← Field.get 4 inode inode_mtime;
  ctime ← Field.get 4 inode inode_ctime;
  let has kind := Z.land mode kind =? kind in
  let flag kind f flags := if has kind then Z.lor flags f else flags in
  if has EXT2_S_IFREG then Ret None
  else if negb (has EXT2_S_IFDIR) then Ret None
  else
    let flags := Z.lor (flag EXT2_S_IFLNK FS_SYMLINK (flag EXT2_S_IFIFO FS_PIPE (flag EXT2_S_IFCHR FS_CHARDEVICE
                   (flag EXT2_S_IFBLK FS_BLOCKDEVICE 0)))) FS_DIRECTORY in
    Ret (Some (Build_fnode 2 [47] uid gid size (Z.land mode 0xFFF) links flags atime mtime ctime
                 false false true true true true true stale stale)).

Definition mount_ext2 (stale : bool) (block_device : device) (flags : Z) : outcome (option (fnode_t * ext2_fs_t)) :=
  loaded ← load_ext2 block_device flags;
  match loaded with
  | None => Ret None
  | Some this =>
      '(inode, this) ← read_inode junk this 2;
      root ← ext2_root stale inode;
      match root with
      | None => Ret None
      | Some n => Ret (Some (n, this))
      end
  end.

(** [opens] says for which names [kopen] returns a node; the file system is read
    from the disk [block_device] whatever the name.  The table of the arguments
    has ten places, one of them for the [NULL] at the end, and is left unset for an
    empty string. *)
Definition ext2_fs_mount (stale : bool) (opens : cstring -> bool) (block_device : device) (dev : cstring)
  : outcome (option (fnode_t * ext2_fs_t)) :=
  match tokenize dev 44 with
  | [] => Fault
  | arg :: options =>
      if (8 <? length options)%nat then Fault
      else if negb (opens arg) then Ret None
      else
        let flags := fold_left (fun flags o => if strcmp o (cstr "nocache"%string) =? 0 then Z.lor flags EXT2_FLAG_NOCACHE else flags)
                       options 0 in
        mount_ext2 stale block_device flags
  end.

(** ** Mounting establishes the invariants of the driver *)

Lemma dev_read_app d off n m : 0 <= n -> 0 <= m -> dev_read d off (n + m) = dev_read d off n ++ dev_read d (off + n) m.
Proof.
  intros Hn Hm. unfold dev_read. rewrite seqZ_app by done. rewrite fmap_app. f_equal.
  rewrite Z.add_0_l. rewrite <- (Z.add_0_r n) at 1. rewrite <- fmap_add_seqZ, <- list_fmap_compose.
  apply list_fmap_ext. intros i x _. simpl. f_equal. lia.
Qed.

Lemma fresh_cache_inv d bs n : 0 < bs -> (0 < n)%nat ->
  inv (Build_blocks d bs 0 (Some (replicate n (Build_entry 0 0 0 (replicate (Z.to_nat bs) 0))))).
Proof.
  intros Hb Hn. split; [done|]. split; [destruct n; [lia|done]|]. split; [done|]. split.
  - apply Forall_replicate. split; [simpl; rewrite length_replicate; lia|]. done.
  - intros i j e e' Hi _ _ He. apply lookup_replicate in Hi as [-> _]. done.
Qed.

(** Before anything is cached the file system sees the device. *)
Lemma fresh_cache_view d bs n no : no <> 0 ->
  view (Build_blocks d bs 0 (Some (replicate n (Build_entry 0 0 0 (replicate (Z.to_nat bs) 0))))) no =
  dev_read d (u32 (no * bs)) bs.
Proof.
  intros Hno. unfold view. cbn [disk_cache]. rewrite (proj1 (find_block_None _ no)); [done|].
  intros i e He. apply lookup_replicate in He as [-> _]. simpl. congruence.
Qed.

Lemma read_groups_ok n this i todo d :
  0 <= n -> ready (Z.of_nat todo + n) this -> 0 <= i -> 0 < bgd_offset this ->
  (bgd_offset this + i + Z.of_nat todo) * bsize this <= 4294967296 ->
  (forall no, usable this no -> disk this no = dev_read d (no * bsize this) (bsize this)) ->
  exists this', read_groups this i todo =
      Ret (dev_read d ((bgd_offset this + i) * bsize this) (Z.of_nat todo * bsize this), this') /\
    ready n this' /\ unchanged this this'.
Proof.
  intros Hn. revert this i. induction todo as [|todo IH]; intros this i Hr Hi Ho Hlim Hd; cbn [read_groups].
  { exists this. split; [by rewrite Z.mul_0_l|]. split; [done|]. apply unchanged_refl. }
  assert (0 < bsize this) as Hb by (by destruct Hr as [[? _] _]).
  assert (usable this (bgd_offset this + i)) as Hu by (split; [lia|unfold bsize in *; nia]).
  destruct (bread_ok (Z.of_nat todo + n) this (bgd_offset this + i) (take (Z.to_nat (bsize this)) junk))
    as (t1 & E1 & Hr1 & HC1); [lia|by replace (1 + (Z.of_nat todo + n)) with (Z.of_nat (S todo) + n) by lia|done|].
  pose proof HC1 as [[Es Eb] V1]. rewrite E1. cbn [mbind outcome_bind].
  assert (bgd_offset t1 = bgd_offset this) as Eo by (by rewrite Es).
  destruct (IH t1 (i + 1)) as (t2 & -> & Hr2 & HC2); [done|lia|lia|rewrite Eo, Eb; lia| |].
  { intros no Hno. rewrite Eb. assert (usable this no) by (destruct Hno; split; [done|]; unfold bsize in Eb; by rewrite <- Eb).
    rewrite V1 by done. by apply Hd. }
  cbn [mbind outcome_bind]. exists t2. split; [|split; [done|by eapply unchanged_trans]].
  rewrite Eo, Eb, (Hd _ Hu). do 2 f_equal.
  replace (Z.of_nat (S todo) * bsize this) with (bsize this + Z.of_nat todo * bsize this) by lia.
  rewrite dev_read_app by lia. do 2 f_equal. lia.
Qed.

(** The fields of a superblock that can be mounted: blocks of at most 64 KB, and
    descriptors that end below 2 GB. *)
Definition mountable (sb : list Z) (log_block_size blocks_count blocks_per_group : Z) : Prop :=
  Field.get 2 sb SB_magic = Ret EXT2_SUPER_MAGIC /\
  Field.get 4 sb SB_log_block_size = Ret log_block_size /\ 0 <= log_block_size <= 6 /\
  Field.get 4 sb SB_blocks_count = Ret blocks_count /\ 0 < blocks_count < 4294967296 /\
  Field.get 4 sb SB_blocks_per_group = Ret blocks_per_group /\ 0 < blocks_per_group /\
  blocks_count / blocks_per_group < 67108864.

(** Number of block groups. *)
Definition groups (blocks_count blocks_per_group : Z) : Z :=
  if blocks_per_group * (blocks_count / blocks_per_group) <? blocks_count
  then blocks_count / blocks_per_group + 1 else blocks_count / blocks_per_group.

Lemma groups_bound b g : 0 < b -> 0 < g -> b / g < 67108864 -> 0 < groups b g <= 67108864.
Proof.
  intros Hb Hg Hlt. unfold groups. pose proof (Z.div_pos b g). pose proof (Z.mul_div_le b g).
  destruct (Z.ltb_spec (g * (b / g)) b); [lia|]. split; [|lia]. destruct (Z.eq_dec (b / g) 0) as [E|]; [|lia].
  rewrite E in *. lia.
Qed.

(** Loading a file system whose superblock can be mounted succeeds: the cache
    is well formed and the file system sees the blocks of the device, the number
    of pointers fits the block size, and the descriptors are those of the device. *)
Theorem load_ext2_ready d flags log b g n :
  mountable (dev_read d 1024 1024) log b g -> 0 <= n < 2000000000 ->
  let bs := 1024 * 2 ^ log in
  exists this, load_ext2 d flags = Ret (Some this) /\ ready n this /\ geometry this /\ bsize this = bs /\
    block_group_count this = groups b g /\
    block_groups this = dev_read d (bgd_offset this * bs) ((32 * groups b g / bs + 1) * bs) /\
    forall no, usable this no -> disk this no = dev_read d (no * bs) bs.
Proof.
  intros (Em & El & Hl & Eb & Hb & Eg & Hg & Hbg) Hn bs.
  assert (1024 <= bs <= 65536 /\ bs = 4 * (bs / 4)) as [Hbs Hp].
  { unfold bs. pose proof (Z.pow_le_mono_r 2 0 log). pose proof (Z.pow_le_mono_r 2 log 6).
    replace (1024 * 2 ^ log) with (256 * 2 ^ log * 4) by lia. rewrite Z.div_mul by lia. lia. }
  assert (0 < groups b g <= 67108864) as Hgr by (apply groups_bound; lia). set (gs := groups b g) in *. unfold load_ext2.
  change (read_block (Build_blocks d 1024 0 None) 1 (take 1024 junk))
    with (Ret (E_SUCCESS, dev_read d 1024 1024, Build_blocks d 1024 0 None)).
  set (sb := dev_read d 1024 1024) in *.
  assert (length sb = 1024%nat) as Hsb by (unfold sb, dev_read; by rewrite length_fmap, length_seqZ).
  cbn [mbind outcome_bind]. rewrite Em. cbn [mbind outcome_bind]. rewrite Z.eqb_refl. cbn [negb].
  destruct (Field.get_ok 2 sb SB_inode_size) as [isz ->]; [done|rewrite Hsb; done|]. cbn [mbind outcome_bind].
  rewrite El, Eb, Eg. cbn [mbind outcome_bind].
  destruct (Field.get_ok 4 sb SB_inodes_count) as [ic ->]; [done|rewrite Hsb; done|]. cbn [mbind outcome_bind].
  rewrite Z.shiftl_mul_pow2 by lia. fold bs. rewrite (u32_small bs) by lia.
  destruct (Z.eqb_spec g 0), (Z.eqb_spec bs 0); try lia. cbn [orb].
  assert ((if u32 (g * (b / g)) <? b then u32 (b / g + 1) else b / g) = gs) as ->.
  { assert (g * (b / g) <= b) by (apply Z.mul_div_le; lia). assert (0 <= b / g) by (apply Z.div_pos; lia).
    assert (0 <= g * (b / g)) by (apply Z.mul_nonneg_nonneg; lia). unfold gs, groups.
    rewrite !u32_small by lia. done. }
  destruct (Z.eqb_spec gs 0); [lia|]. unfold sizeof_bgdescriptor. rewrite (u32_small (32 * gs)) by lia.
  set (dc := if truthy (Z.land flags EXT2_FLAG_NOCACHE) then _ else _).
  set (off := if 1024 <? bs then 1 else 2). assert (1 <= off <= 2) as Hoff by (unfold off; destruct (1024 <? bs); lia).
  set (t0 := Build_fs _ _ _ _ _ _ _ _ _). set (span := 32 * gs / bs + 1).
  assert (0 < span /\ span * bs <= 32 * gs + bs /\ span <= 67108864) as (Hs0 & Hs1 & Hs2).
  { unfold span. assert (bs * (32 * gs / bs) <= 32 * gs) by (apply Z.mul_div_le; lia).
    assert (0 <= 32 * gs / bs) by (apply Z.div_pos; lia). nia. }
  assert (inv (blk t0) /\ forall no, no <> 0 -> disk t0 no = dev_read d (u32 (no * bs)) bs) as [Hinv Hd].
  { unfold disk, t0, dc. cbn [blk]. destruct (truthy _).
    - split; [|done]. split; [simpl; lia|done].
    - split; [apply fresh_cache_inv; [lia|]|intros; by apply fresh_cache_view].
      destruct (2048 <? bs); vm_compute; lia. }
  destruct (read_groups_ok n t0 0 (Z.to_nat span) d) as (t1 & Eg1 & Hr1 & [[ES EB] HV]).
  - lia.
  - split; [done|]. split; [done|]. simpl. unfold UINT32_MAX. lia.
  - done.
  - simpl. lia.
  - change (bgd_offset t0) with off. change (bsize t0) with bs. rewrite Z2Nat.id by lia.
    assert (off * bs <= 131072) by nia. lia.
  - intros no Hno. change (bsize t0) with bs. rewrite Hd by (destruct Hno; lia).
    rewrite u32_small; [done|]. destruct Hno as [? Hno]. change (block_size (blk t0)) with bs in Hno. nia.
  - rewrite Eg1. cbn [mbind outcome_bind]. eexists. split; [done|]. split; [done|].
    change (bsize (set_groups t1 _)) with (bsize t1). rewrite EB. split.
    { unfold geometry. change (pointers_per_block (set_groups t1 _)) with (pointers_per_block t1).
      change (bsize (set_groups t1 _)) with (bsize t1). rewrite EB, ES. cbn [pointers_per_block set_blk].
      change (bsize t0) with bs. change (pointers_per_block t0) with (bs / 4). unfold EXT2_DIRECT_BLOCKS. nia. }
    split; [done|]. split; [by rewrite ES|]. split.
    + cbn [set_groups block_groups bgd_offset]. rewrite ES. cbn [bgd_offset set_blk].
      change (bgd_offset t0) with off. change (bsize t0) with bs. rewrite Z.add_0_r. do 2 f_equal. lia.
    + intros no Hno. unfold disk. cbn [set_groups blk]. assert (usable t0 no) as Hu.
      { destruct Hno as [? Hno]. split; [done|]. cbn [set_groups blk] in Hno. unfold bsize in EB. by rewrite <- EB. }
      change (disk t1 no = dev_read d (no * bs) bs). rewrite HV, Hd by (done || destruct Hno; lia).
      rewrite u32_small; [done|]. destruct Hu as [? Hu]. change (block_size (blk t0)) with bs in Hu. nia.
Qed.

(** ** Reading a range of a file *)

(** Byte [i] of the file whose block [k] is [nos k]. *)
Definition file_byte (this : ext2_fs_t) (nos : Z -> Z) (i : Z) : option Z :=
  disk this (nos (i / bsize this)) !! Z.to_nat (i mod bsize this).

(** Bytes [lo] to [hi] of the file are in the buffer, whose first byte is byte
    [offset] of the file; the rest of the buffer is kept. *)
Definition fetched (byte : Z -> option Z) (buffer buffer' : list Z) (offset lo hi : Z) : Prop :=
  length buffer' = length buffer /\
  forall p, 0 <= p -> buffer' !! Z.to_nat p =
    if (lo <=? offset + p) && (offset + p <? hi) then byte (offset + p) else buffer !! Z.to_nat p.

Lemma fetched_trans byte b1 b2 b3 offset lo mid hi :
  lo <= mid <= hi -> fetched byte b1 b2 offset lo mid -> fetched byte b2 b3 offset mid hi ->
  fetched byte b1 b3 offset lo hi.
Proof.
  intros Hm [L1 G1] [L2 G2]. split; [congruence|]. intros p Hp. rewrite G2, G1 by done.
  destruct (Z.leb_spec mid (offset + p)), (Z.ltb_spec (offset + p) hi), (Z.leb_spec lo (offset + p)),
    (Z.ltb_spec (offset + p) mid); simpl; done || lia.
Qed.

Lemma block_position bs k i : 0 < bs -> k * bs <= i < k * bs + bs -> i / bs = k /\ i mod bs = i - k * bs.
Proof.
  intros Hb Hi. assert (i / bs = k) as <- by (symmetry; apply (Z.div_unique _ _ _ (i - k * bs)); lia).
  split; [done|]. rewrite Z.mod_eq by lia. lia.
Qed.

(** Copying a part of block [k] to the buffer. *)
Lemma fetch_ok n this nos buffer offset k pos m dst :
  let bs := bsize this in
  ready n this -> 0 <= pos -> 0 <= m -> pos + m <= bs -> 0 <= dst -> dst + m <= Z.of_nat (length buffer) ->
  k * bs + pos = offset + dst ->
  exists bytes buffer', mem_read (disk this (nos k)) pos m = Ret bytes /\ mem_write buffer dst bytes = Ret buffer' /\
    fetched (file_byte this nos) buffer buffer' offset (offset + dst) (offset + dst + m).
Proof.
  intros bs Hr Hp Hm Hpm Hd Hdm Hpos. pose proof (length_disk _ _ (nos k) Hr) as Hl.
  assert (0 < bs) as Hb by (unfold bs; by destruct Hr as [[? _] _]).
  destruct (mem_read_ok (disk this (nos k)) pos m) as (bytes & Er & Hbl & Hbytes); [lia|lia|fold bs in Hl; lia|].
  destruct (mem_write_ok buffer dst bytes) as (buffer' & Ew & Hl' & Hb'); [lia|lia|].
  exists bytes, buffer'. split; [done|]. split; [done|]. split; [done|]. intros p Hp0. rewrite Hb' by done. rewrite Hbl.
  destruct (Z.leb_spec dst p), (Z.ltb_spec p (dst + m)), (Z.leb_spec (offset + dst) (offset + p)),
    (Z.ltb_spec (offset + p) (offset + dst + m)); cbn [andb]; try done; try lia.
  rewrite Hbytes by lia. unfold file_byte. fold bs. destruct (block_position bs k (offset + p)) as [-> ->]; [lia|lia|].
  f_equal. lia.
Qed.

Lemma file_byte_unchanged this this' inode nos n i :
  0 < bsize this -> 0 <= i < n * bsize this -> file_at this inode nos n -> unchanged this this' ->
  file_byte this' nos i = file_byte this nos i.
Proof.
  intros Hb Hi (_ & _ & Hh) [[_ HB] HV]. unfold file_byte. rewrite HB. rewrite HV; [done|].
  destruct (Hh (i / bsize this)) as (_ & _ & _ & Hu); [|done].
  split; [apply Z.div_pos; lia|]. apply Z.div_lt_upper_bound; lia.
Qed.

Lemma fetched_ext byte byte' b1 b2 offset lo hi :
  (forall i, lo <= i < hi -> byte i = byte' i) -> fetched byte b1 b2 offset lo hi -> fetched byte' b1 b2 offset lo hi.
Proof.
  intros He [L G]. split; [done|]. intros p Hp. rewrite G by done.
  destruct (Z.leb_spec lo (offset + p)), (Z.ltb_spec (offset + p) hi); cbn [andb]; try done. apply He. lia.
Qed.

Lemma span_pos_eq this b start offset :
  0 < bsize this -> 0 <= offset -> start = offset / bsize this -> start < b -> b * bsize this < 4294967296 ->
  span_pos this (b - start) offset = b * bsize this - offset.
Proof.
  intros Hb Ho -> Hlt Hlim. unfold span_pos. pose proof (Z.mod_pos_bound offset (bsize this) Hb) as Hr.
  pose proof (Z.div_mod offset (bsize this)) as Hd.
  set (q := offset / bsize this) in *. set (r := offset mod bsize this) in *. set (bs := bsize this) in *.
  assert (offset = bs * q + r) as Hoff by (apply Hd; lia). clearbody q r bs.
  assert ((q + 1) * bs <= b * bs) by (apply Z.mul_le_mono_nonneg_r; lia).
  rewrite u32_small; lia.
Qed.

(** The loop over the whole blocks, from block [b] on. *)
Lemma read_span_ok n this inode nos total offset todo b buf buffer :
  let bs := bsize this in
  let start := offset / bs in
  0 <= n -> geometry this -> ready (3 * Z.of_nat todo + n) this -> file_at this inode nos total ->
  0 <= offset -> start <= b -> (start < b \/ (0 < todo)%nat) -> b + Z.of_nat todo <= total ->
  (b + Z.of_nat todo) * bs < 4294967296 ->
  (b + Z.of_nat todo) * bs - offset <= Z.of_nat (length buffer) ->
  exists buf' buffer' this', read_span this inode offset start todo b (b - start) buf buffer = Ret (buf', buffer', this') /\
    ready n this' /\ unchanged this this' /\
    fetched (file_byte this nos) buffer buffer' offset (Z.max offset (b * bs)) ((b + Z.of_nat todo) * bs).
Proof.
  intros bs start Hn. revert this b buf buffer bs start.
  induction todo as [|todo IH]; intros this b buf buffer bs start Hg Hr Hf Ho Hsb Hor Htot Hlim Hlen; cbn [read_span].
  { exists buf, buffer, this. split; [done|]. split; [done|]. split; [apply unchanged_refl|]. split; [done|].
    intros p Hp. destruct (Z.leb_spec (Z.max offset (b * bs)) (offset + p)),
      (Z.ltb_spec (offset + p) ((b + Z.of_nat 0) * bs)); cbn [andb]; done || lia. }
  assert (0 < bs) as Hb by (unfold bs; by destruct Hr as [[? _] _]).
  assert (0 <= start) as Hst by (apply Z.div_pos; lia).
  assert (start * bs <= offset < start * bs + bs /\ offset mod bs = offset - start * bs) as [Hso Hmod].
  { pose proof (Z.div_mod offset bs). pose proof (Z.mod_pos_bound offset bs). unfold start. lia. }
  pose proof Hf as (Hl & Ha & Hh).
  destruct (inode_read_block_ok junk (3 * Z.of_nat todo + n) this inode b (nos b) buf) as (t1 & -> & Hr1 & HC); [lia|done| |done| | |].
  { by replace (3 + (3 * Z.of_nat todo + n)) with (3 * Z.of_nat (S todo) + n) by lia. }
  { destruct Ha as (Hb5 & c & Ec & Hc). split; [done|]. exists c. split; [done|lia]. }
  { apply Hh. lia. }
  cbn [mbind outcome_bind]. pose proof HC as [[ES EB] HV].
  assert (exists b1,
    (if b =? start then
       bytes ← mem_read (disk this (nos b)) (offset mod bsize t1) (bsize t1 - offset mod bsize t1);
       mem_write buffer 0 bytes
     else bytes ← mem_read (disk this (nos b)) 0 (bsize t1); mem_write buffer (span_pos t1 (b - start) offset) bytes) = Ret b1 /\
    fetched (file_byte this nos) buffer b1 offset (Z.max offset (b * bs)) ((b + 1) * bs)) as (b1 & -> & G1).
  { rewrite EB. fold bs. destruct (Z.eqb_spec b start) as [E|Hne].
    - destruct (fetch_ok _ this nos buffer offset b (offset mod bs) (bs - offset mod bs) 0 Hr) as (bytes & b1 & -> & Hw & G);
        [fold bs; nia..|].
      cbn [mbind outcome_bind]. exists b1. split; [done|].
      replace (Z.max offset (b * bs)) with (offset + 0) by nia.
      replace ((b + 1) * bs) with (offset + 0 + (bs - offset mod bs)) by nia. done.
    - assert ((start + 1) * bs <= b * bs) by (apply Z.mul_le_mono_nonneg_r; lia).
      unfold span_pos. rewrite EB. fold (span_pos this (b - start) offset).
      rewrite span_pos_eq by (done || fold bs; nia). fold bs.
      destruct (fetch_ok _ this nos buffer offset b 0 bs (b * bs - offset) Hr) as (bytes & b1 & -> & Hw & G);
        [fold bs; nia..|].
      cbn [mbind outcome_bind]. exists b1. split; [done|].
      replace (Z.max offset (b * bs)) with (offset + (b * bs - offset)) by lia.
      replace ((b + 1) * bs) with (offset + (b * bs - offset) + bs) by lia. done. }
  cbn [mbind outcome_bind]. replace (b - start + 1) with (b + 1 - start) by lia.
  destruct (IH t1 (b + 1) (disk this (nos b)) b1) as (buf' & b2 & t2 & E2 & Hr2 & HC2 & G2).
  - by apply (geometry_same this).
  - done.
  - by apply (file_at_unchanged this).
  - done.
  - rewrite EB. fold bs. fold start. lia.
  - left. rewrite EB. fold bs. fold start. lia.
  - lia.
  - rewrite EB. fold bs. lia.
  - rewrite EB. fold bs. destruct G1 as [-> _]. lia.
  - rewrite EB in E2. fold bs in E2. fold start in E2. rewrite E2. exists buf', b2, t2.
    split; [done|]. split; [done|]. split; [by eapply unchanged_trans|].
    rewrite EB in G2. fold bs in G2. replace (b + 1 + Z.of_nat todo) with (b + Z.of_nat (S todo)) in G2 by lia.
    assert (offset <= (b + 1) * bs) by nia.
    replace (Z.max offset ((b + 1) * bs)) with ((b + 1) * bs) in G2 by lia.
    eapply fetched_trans; [|exact G1|].
    + nia.
    + eapply fetched_ext; [|exact G2]. intros i Hi. apply (file_byte_unchanged this t1 inode nos total); [done|fold bs; nia|done|done].
Qed.

(** The inode [ino] of the tables is [inode], a file of [sz] bytes in the blocks [nos]. *)
Definition file_inode (this : ext2_fs_t) (ino : Z) (inode : list Z) (sz : Z) (nos : Z -> Z) : Prop :=
  (exists no at_, located this ino no at_ /\
    mem_read (disk this no) (at_ * inode_size this) (inode_size this) = Ret inode) /\
  Field.get 4 inode inode_size_field = Ret sz /\
  file_at this inode nos ((sz + bsize this - 1) / bsize this).

(** One part of a block of the file, in the state after the inode was read. *)
Lemma fetch_block_ok n this inode nos total buf buffer offset k pos m dst :
  0 <= n -> geometry this -> ready (3 + n) this -> file_at this inode nos total -> 0 <= k < total ->
  0 <= pos -> 0 <= m -> pos + m <= bsize this -> 0 <= dst -> dst + m <= Z.of_nat (length buffer) ->
  k * bsize this + pos = offset + dst ->
  exists r buf' this' bytes buffer', inode_read_block junk this inode k buf = Ret (r, buf', this') /\
    mem_read buf' pos m = Ret bytes /\ mem_write buffer dst bytes = Ret buffer' /\
    ready n this' /\ unchanged this this' /\
    fetched (file_byte this nos) buffer buffer' offset (offset + dst) (offset + dst + m).
Proof.
  intros Hn Hg Hr (Hl & Ha & Hh) Hk. intros.
  destruct (inode_read_block_ok junk n this inode k (nos k) buf) as (t1 & -> & Hr1 & HC); [lia|done|done|done| |by apply Hh|].
  { destruct Ha as (Hb5 & c & Ec & Hc). split; [done|]. exists c. split; [done|lia]. }
  destruct (fetch_ok _ this nos buffer offset k pos m dst Hr) as (bytes & b1 & Er & Ew & G); [done..|].
  exists (nos k), (disk this (nos k)), t1, bytes, b1. done.
Qed.

(** The blocks below the end of a file. *)
Lemma below_end bs sz k : 0 < bs -> k * bs < sz -> k < (sz + bs - 1) / bs.
Proof. intros Hb Hk. assert (k + 1 <= (sz + bs - 1) / bs) by (apply Z.div_le_lower_bound; lia). lia. Qed.

(** A position and its block. *)
Lemma position bs i : 0 < bs -> i / bs * bs <= i < i / bs * bs + bs /\ i mod bs = i - i / bs * bs.
Proof. intros Hb. pose proof (Z.div_mod i bs). pose proof (Z.mod_pos_bound i bs Hb). lia. Qed.

Lemma total_bytes bs sz : 0 < bs -> sz <= (sz + bs - 1) / bs * bs.
Proof. intros Hb. destruct (position bs (sz + bs - 1) Hb). lia. Qed.

Section Range.
Context (n : Z) (this : ext2_fs_t) (inode : list Z) (nos : Z -> Z) (sz offset e : Z) (buffer : list Z).
Hypothesis Hn : 0 <= n.
Hypothesis Hg : geometry this.
Hypothesis Hr : ready (6 + 3 * (sz / bsize this) + n) this.
Hypothesis Hf : file_at this inode nos ((sz + bsize this - 1) / bsize this).
Hypothesis Hoff : 0 <= offset < e.
Hypothesis Hend : e <= sz < 4294967296.
Hypothesis Hlen : e - offset <= Z.of_nat (length buffer).

Let bs := bsize this.
Let sb := offset / bs.
Let eb := e / bs.

Local Lemma range_facts :
  0 < bs /\ sb * bs <= offset < sb * bs + bs /\ offset mod bs = offset - sb * bs /\
  eb * bs <= e < eb * bs + bs /\ 0 <= sb <= eb /\ 0 <= eb * bs /\ eb <= sz / bs.
Proof using Hr Hoff Hend Hlen.
  assert (0 < bs) as Hb by (unfold bs; by destruct Hr as [[? _] _]).
  destruct (position bs offset Hb) as [P1 P2]. destruct (position bs e Hb) as [P3 _].
  fold sb in P1, P2. fold eb in P3.
  assert (0 <= sb <= eb) by (split; [apply Z.div_pos; lia|apply Z.div_le_mono; lia]).
  assert (eb <= sz / bs) by (apply Z.div_le_mono; lia).
  assert (0 <= eb * bs) by (apply Z.mul_nonneg_nonneg; lia). auto 10 with lia.
Qed.

Local Lemma range_one : sb = eb ->
  exists buffer' this', read_range this inode offset e buffer = Ret (buffer', this') /\ unchanged this this' /\
    fetched (file_byte this nos) buffer buffer' offset offset e.
Proof using Hn Hg Hr Hf Hoff Hend Hlen.
  intros E. destruct range_facts as (Hb & Hso & Hsm & He & Hord & He0 & Hq). unfold read_range. fold bs sb eb.
  rewrite E, Z.eqb_refl, <- E. rewrite (u32_small (e - offset)) by lia.
  destruct (fetch_block_ok (3 + 3 * (sz / bs) + n) this inode nos ((sz + bs - 1) / bs) junk buffer offset sb (offset mod bs) (e - offset) 0)
    as (r & buf' & t2 & bytes & b1 & -> & Hrd & Hwr & Hr2 & HC2 & G);
    [lia|done|by replace (3 + (3 + 3 * (sz / bs) + n)) with (6 + 3 * (sz / bs) + n) by lia|done|
     split; [lia|apply below_end; lia]|lia|lia|fold bs; lia|lia|lia|fold bs; lia|].
  cbn [mbind outcome_bind]. rewrite (proj2 (proj1 HC2)). fold bs. rewrite Hrd. cbn [mbind outcome_bind]. rewrite Hwr.
  cbn [mbind outcome_bind]. exists b1, t2. split; [done|]. split; [done|].
  rewrite Z.add_0_r in G. by replace (offset + (e - offset)) with e in G by lia.
Qed.

Local Lemma range_many : sb <> eb ->
  exists buffer' this', read_range this inode offset e buffer = Ret (buffer', this') /\ unchanged this this' /\
    fetched (file_byte this nos) buffer buffer' offset offset e.
Proof using Hn Hg Hr Hf Hoff Hend Hlen.
  intros Hne. destruct range_facts as (Hb & Hso & Hsm & He & Hord & He0 & Hq). unfold read_range. fold bs sb eb.
  destruct (Z.eqb_spec sb eb); [done|]. rewrite Z.max_r by lia. set (q := sz / bs) in *.
  assert ((sb + 1) * bs <= eb * bs) by (apply Z.mul_le_mono_nonneg_r; lia).
  assert (sb + Z.of_nat (Z.to_nat (eb - sb)) = eb) as Etodo by lia.
  destruct (read_span_ok (3 + 3 * (q - (eb - sb)) + n) this inode nos ((sz + bs - 1) / bs) offset (Z.to_nat (eb - sb)) sb junk buffer)
    as (buf' & b1 & t2 & E2 & Hr2 & HC2 & G1);
    [lia|done|apply (ready_le (6 + 3 * q + n)); [lia|done]|done|lia|fold bs sb; lia|right; lia|
     rewrite Etodo; assert (eb - 1 < (sz + bs - 1) / bs) by (apply below_end; lia); lia|
     rewrite Etodo; fold bs; lia|rewrite Etodo; fold bs; lia|].
  fold bs in E2, G1. fold sb in E2. rewrite Z.sub_diag in E2. rewrite Etodo in G1.
  replace (Z.max offset (sb * bs)) with offset in G1 by lia.
  rewrite E2. cbn [mbind outcome_bind]. rewrite (u32_small (e - eb * bs)) by lia. unfold truthy.
  destruct (Z.eqb_spec (e - eb * bs) 0) as [E0|E0]; cbn [negb mbind outcome_bind].
  { exists b1, t2. split; [done|]. split; [done|]. by replace e with (eb * bs) by lia. }
  pose proof HC2 as [[ES EB] HV]. fold bs in EB.
  destruct (fetch_block_ok (3 * (q - (eb - sb)) + n) t2 inode nos ((sz + bs - 1) / bs) buf' b1 offset eb 0 (e - eb * bs) (eb * bs - offset))
    as (r & buf2 & t3 & bytes & b2 & -> & Hrd & Hwr & Hr3 & HC3 & G2);
    [lia|by apply (geometry_same this); [by destruct HC2|]|by rewrite Z.add_assoc|by apply (file_at_unchanged this)|
     split; [lia|apply below_end; lia]|lia|lia|rewrite EB; lia|lia|destruct G1 as [-> _]; lia|rewrite EB; lia|].
  cbn [mbind outcome_bind]. rewrite Hrd. cbn [mbind outcome_bind]. unfold span_pos. rewrite (proj2 (proj1 HC3)), EB.
  replace (bs * (eb - sb) - offset mod bs) with (eb * bs - offset) by lia. rewrite u32_small by lia.
  rewrite Hwr. cbn [mbind outcome_bind]. exists b2, t3. split; [done|]. split; [by eapply unchanged_trans|].
  replace (offset + (eb * bs - offset)) with (eb * bs) in G2 by lia.
  replace (eb * bs + (e - eb * bs)) with e in G2 by lia.
  apply (fetched_trans _ buffer b1 b2 offset offset (eb * bs) e); [lia|done|].
  eapply fetched_ext; [|exact G2]. intros i Hi. pose proof (total_bytes bs sz Hb).
  apply (file_byte_unchanged this t2 inode nos ((sz + bs - 1) / bs)); [done|fold bs; lia|done|done].
Qed.

Lemma read_range_ok :
  exists buffer' this', read_range this inode offset e buffer = Ret (buffer', this') /\ unchanged this this' /\
    fetched (file_byte this nos) buffer buffer' offset offset e.
Proof using Hn Hg Hr Hf Hoff Hend Hlen. destruct (Z.eq_dec sb eb); [by apply range_one|by apply range_many]. Qed.

End Range.

(** C32: a read that starts inside the file returns its bytes from the offset on,
    as many as asked for and there are, and changes no block. *)
Theorem read_ext2_correct this ino inode sz nos offset size buffer :
  let e := Z.min (offset + size) sz in
  inode_layout this -> geometry this -> inode_size this <= Z.of_nat (length junk) ->
  file_inode this ino inode sz nos -> ready (7 + 3 * (sz / bsize this)) this ->
  0 <= offset < sz -> 0 < size <= Z.of_nat (length buffer) -> offset + size < 4294967296 -> sz < 4294967296 ->
  exists buffer' this', read_ext2 this ino offset size buffer = Ret (e - offset, buffer', this') /\
    unchanged this this' /\ fetched (file_byte this nos) buffer buffer' offset offset e.
Proof.
  intros e Hlay Hg Hj ((no & at_ & Hloc & Hin) & Esz & Hf) Hr Ho Hs Hlim Hlim2.
  set (bs := bsize this) in *. assert (0 < bs) as Hb by (unfold bs; by destruct Hr as [[? _] _]).
  assert (0 <= sz / bs) as Hq by (apply Z.div_pos; lia).
  destruct (read_inode_ok junk (6 + 3 * (sz / bs)) this ino no at_) as (i' & t1 & E1 & Hi' & Hr1 & HC1);
    [lia|done|by replace (1 + (6 + 3 * (sz / bs))) with (7 + 3 * (sz / bs)) by lia|done|done|].
  assert (i' = inode) as -> by congruence. unfold read_ext2. rewrite E1. cbn [mbind outcome_bind].
  rewrite Esz. cbn [mbind outcome_bind]. pose proof HC1 as [[ES EB] HV]. fold bs in EB. rewrite EB.
  destruct (Z.eqb_spec sz 0); [lia|]. destruct (Z.eqb_spec bs 0); [lia|]. rewrite (u32_small (offset + size)) by lia.
  assert ((if sz <? offset + size then sz else offset + size) = e) as ->
    by (unfold e; destruct (Z.ltb_spec sz (offset + size)); lia).
  destruct (read_range_ok 0 t1 inode nos sz offset e buffer) as (b1 & t2 & -> & HC2 & G);
    [lia|by apply (geometry_same this); [by destruct HC1|]|rewrite EB, Z.add_0_r; done|
     rewrite EB; by apply (file_at_unchanged this)|lia|lia|lia|].
  cbn [mbind outcome_bind]. rewrite u32_small by lia. exists b1, t2. split; [done|].
  split; [by eapply unchanged_trans|]. eapply fetched_ext; [|exact G]. intros i Hi. pose proof (total_bytes bs sz Hb).
  apply (file_byte_unchanged this t1 inode nos ((sz + bs - 1) / bs)); [done|fold bs; lia|done|done].
Qed.

(** ** The entries of a directory *)

Record dent := Dent { de_ino : Z; de_rec : Z; de_name : cstring }.

(** The bytes of [block] at [off] are the entry [e]. *)
Definition entry_at (block : list Z) (off : Z) (e : dent) : Prop :=
  Field.get 4 block off = Ret (de_ino e) /\ Field.get 2 block (d_rec_len off) = Ret (de_rec e) /\
  Field.get 1 block (d_name_len off) = Ret (strlen (de_name e)) /\
  mem_read block (d_name off) (strlen (de_name e)) = Ret (de_name e) /\
  cstring_ok (de_name e) /\ sizeof_ext2_dir_t + strlen (de_name e) <= de_rec e /\ 0 <= de_ino e.

(** The place a loop is at once it has stepped to the next block if needed. *)
Definition turn (bs k off : Z) : Z * Z := if bs <=? off then (k + 1, off - bs) else (k, off).

(** From offset [off] of block [k] on the directory holds the entries [es], none
    of which crosses a block, and ends there. *)
Fixpoint chain (bl : Z -> list Z) (bs size k off : Z) (es : list dent) : Prop :=
  match es with
  | [] => k * bs + off = size
  | e :: es' =>
      let '(k, off) := turn bs k off in
      entry_at (bl k) off e /\ off + de_rec e <= bs /\ chain bl bs size k (off + de_rec e) es'
  end.

Definition matches (name : cstring) (e : dent) : bool := truthy (de_ino e) && bool_decide (de_name e = name).

(** The first entry in use with the name, and its place. *)
Fixpoint first_entry (bs : Z) (name : cstring) (k off : Z) (es : list dent) : option (Z * Z * dent) :=
  match es with
  | [] => None
  | e :: es' =>
      let '(k, off) := turn bs k off in
      if matches name e then Some (k, off, e) else first_entry bs name k (off + de_rec e) es'
  end.

(** The directory without it. *)
Fixpoint remove_name (name : cstring) (es : list dent) : list dent :=
  match es with
  | [] => []
  | e :: es' =>
      if matches name e then Dent 0 (de_rec e) (de_name e) :: es' else e :: remove_name name es'
  end.

Lemma turn_position bs k off : let '(k', off') := turn bs k off in k' * bs + off' = k * bs + off.
Proof. unfold turn. destruct (Z.leb_spec bs off); lia. Qed.

Lemma turn_bound bs k off : 0 < bs -> 0 <= off <= bs ->
  let '(k', off') := turn bs k off in 0 <= off' < bs /\ k <= k' <= k + 1.
Proof. intros. unfold turn. destruct (Z.leb_spec bs off); lia. Qed.

Lemma entry_rec block off e : entry_at block off e -> 8 <= de_rec e.
Proof. intros (_ & _ & _ & _ & _ & H & _). unfold sizeof_ext2_dir_t, strlen in H. lia. Qed.

(** The entries fill the bytes up to the end. *)
Lemma chain_size bl bs size k off es :
  0 < bs -> 0 <= off <= bs -> chain bl bs size k off es ->
  k * bs + off + 8 * Z.of_nat (length es) <= size.
Proof.
  intros Hb. revert k off. induction es as [|e es IH]; intros k off Ho Hc; cbn [chain length] in *; [lia|].
  pose proof (turn_position bs k off) as Ht. pose proof (turn_bound bs k off Hb Ho) as Hto.
  destruct (turn bs k off) as [k' off']. destruct Hc as (He & Hle & Hc). pose proof (entry_rec _ _ _ He).
  specialize (IH k' (off' + de_rec e) ltac:(lia) Hc). lia.
Qed.

(** Where the first entry is found. *)
Lemma first_entry_place bl bs size name k off es k' off' e :
  0 < bs -> 0 <= off <= bs -> chain bl bs size k off es -> first_entry bs name k off es = Some (k', off', e) ->
  k * bs + off <= k' * bs + off' /\ k' * bs + off' < size /\ k <= k' /\ 0 <= off' /\ off' + de_rec e <= bs /\
  entry_at (bl k') off' e /\ matches name e = true.
Proof.
  intros Hb. revert k off. induction es as [|e0 es IH]; intros k off Ho Hc Hf; cbn [chain first_entry] in *; [done|].
  pose proof (turn_position bs k off) as Ht. pose proof (turn_bound bs k off Hb Ho) as Hto.
  destruct (turn bs k off) as [k1 off1]. destruct Hc as (He & Hle & Hc). pose proof (entry_rec _ _ _ He).
  assert (k1 * bs + (off1 + de_rec e0) + 8 * Z.of_nat (length es) <= size) by (apply (chain_size bl); [done|lia|done]).
  destruct (matches name e0) eqn:Em.
  - injection Hf as <- <- <-. auto 10 with lia.
  - destruct (IH k1 (off1 + de_rec e0)) as (? & ? & ? & ? & ? & ? & ?); [lia|done|done|]. auto 10 with lia.
Qed.

(** A change of bytes before or after an entry keeps it. *)
Lemma entry_at_put block block' off e pos v :
  Field.put 4 block pos v = Ret block' -> 0 <= off -> 0 <= pos -> pos + 4 <= Z.of_nat (length block) ->
  0 <= v < 4294967296 -> pos + 4 <= off \/ off + de_rec e <= pos -> entry_at block off e -> entry_at block' off e.
Proof.
  intros Hput Ho Hp Hl Hv Hd (H1 & H2 & H3 & H4 & H5 & H6 & H7).
  destruct (Field.put_ok 4 block pos v) as (l & E & _ & _ & Hoth); [done|done|done|].
  assert (l = block') as -> by congruence. unfold entry_at, sizeof_ext2_dir_t, d_rec_len, d_name_len, d_name in *.
  assert (0 <= strlen (de_name e)) by (unfold strlen; lia).
  unfold Field.put in Hput. destruct (mem_write_read block pos (Field.bytes_of 4 v)) as (l & E' & _ & _ & Hmem);
    [done|by rewrite Field.length_bytes_of|].
  assert (l = block') as -> by congruence. rewrite Field.length_bytes_of in Hmem.
  split; [rewrite Hoth; [done|lia|lia]|]. split; [rewrite Hoth; [done|lia|lia]|].
  split; [rewrite Hoth; [done|lia|lia]|]. split; [rewrite Hmem; [done|lia|lia]|]. done.
Qed.

(** Clearing the inode number of the first entry found removes it. *)
Lemma chain_frame bl bl' bs size k off es lo :
  0 < bs -> 0 <= off <= bs -> chain bl bs size k off es -> lo <= k * bs + off ->
  (forall k' off' e, lo <= k' * bs + off' < size -> 0 <= off' < bs -> entry_at (bl k') off' e -> entry_at (bl' k') off' e) ->
  chain bl' bs size k off es.
Proof.
  intros Hb. revert k off. induction es as [|e es IH]; intros k off Ho Hc Hlo Hfr; cbn [chain] in *; [done|].
  pose proof (turn_position bs k off) as Ht. pose proof (turn_bound bs k off Hb Ho) as Hto.
  destruct (turn bs k off) as [k' off']. destruct Hc as (He & Hle & Hc). pose proof (entry_rec _ _ _ He).
  assert (k' * bs + (off' + de_rec e) + 8 * Z.of_nat (length es) <= size) by (apply (chain_size bl); [done|lia|done]).
  split; [apply Hfr; [lia|lia|done]|]. split; [done|]. apply IH; [lia|done|lia|done].
Qed.

Lemma chain_removed bl bs size name k off es k' off' e block' :
  0 < bs -> 0 <= off <= bs -> chain bl bs size k off es -> first_entry bs name k off es = Some (k', off', e) ->
  Z.of_nat (length (bl k')) = bs -> Field.put 4 (bl k') off' 0 = Ret block' ->
  chain (fun j => if j =? k' then block' else bl j) bs size k off (remove_name name es).
Proof.
  intros Hb. revert k off. induction es as [|e0 es IH]; intros k off Ho Hc Hf Hl Hput; cbn [chain first_entry remove_name] in *; [done|].
  pose proof (turn_position bs k off) as Ht. pose proof (turn_bound bs k off Hb Ho) as Hto.
  destruct (turn bs k off) as [k1 off1] eqn:Eturn. destruct Hc as (He & Hle & Hc). pose proof (entry_rec _ _ _ He) as Hrec.
  destruct (matches name e0) eqn:Em; cbn [chain]; rewrite Eturn.
  - injection Hf as -> -> ->. rewrite Z.eqb_refl. cbn [de_rec].
    destruct (Field.put_ok 4 (bl k') off' 0) as (l & E & _ & Hget & Hoth); [lia|lia|lia|]. assert (l = block') as -> by congruence.
    split; [|split; [done|]].
    + destruct He as (H1 & H2 & H3 & H4 & H5 & H6 & H7). unfold entry_at. cbn [de_ino de_rec de_name]. split; [done|].
      unfold sizeof_ext2_dir_t, d_rec_len, d_name_len, d_name in *. assert (0 <= strlen (de_name e)) by (unfold strlen; lia).
      split; [rewrite Hoth; [done|lia|lia]|]. split; [rewrite Hoth; [done|lia|lia]|]. split; [|done].
      unfold Field.put in Hput. destruct (mem_write_read (bl k') off' (Field.bytes_of 4 0)) as (l & E' & _ & _ & Hmem);
        [lia|rewrite Field.length_bytes_of; lia|].
      assert (l = block') as -> by congruence. rewrite Field.length_bytes_of in Hmem. rewrite Hmem; [done|lia|lia].
    + eapply chain_frame; [done| |done|reflexivity|]; [lia|]. intros k2 off2 e2 Hlo Ho2 He2.
      destruct (Z.eqb_spec k2 k') as [->|]; [|done]. eapply entry_at_put; [done|lia|lia|lia|lia|lia|done].
  - destruct (first_entry_place bl bs size name k1 (off1 + de_rec e0) es k' off' e) as (Hp1 & _ & Hk & Hoff & Hend & He' & _);
      [done|lia|done|done|]. pose proof (entry_rec _ _ _ He').
    split; [|split; [done|by apply IH; [lia|done|done|done|done]]].
    destruct (Z.eqb_spec k1 k') as [->|]; [|done]. eapply entry_at_put; [done|lia|lia|lia|lia|lia|done].
Qed.

(** ** Searching and removing by name *)

(** Directory [ino] holds the entries [es]; its blocks have numbers that fit a byte. *)
Definition directory (this : ext2_fs_t) (ino : Z) (inode : list Z) (size : Z) (nos : Z -> Z) (es : list dent) : Prop :=
  file_inode this ino inode size nos /\ 0 < size < 4294967296 /\
  (size + bsize this - 1) / bsize this <= 256 /\
  chain (fun k => disk this (nos k)) (bsize this) size 0 0 es.

(** The comparison made for an entry in use of the right length. *)
Lemma name_compare e name :
  cstring_ok (de_name e) -> cstring_ok name ->
  (strcmp (cut_delim 0 (de_name e)).1 name =? 0) = bool_decide (de_name e = name).
Proof.
  intros He Hn. rewrite cut_delim_no_delim by (intros H0; apply (proj1 (Forall_forall _ _) He) in H0; unfold byte_ok in H0; lia).
  cbn [fst]. case_bool_decide as E; [apply Z.eqb_eq|apply Z.eqb_neq]; by rewrite strcmp_zero.
Qed.

Lemma next_block_ok n this inode nos total k off :
  0 <= n -> geometry this -> ready (3 + n) this -> file_at this inode nos total -> total <= 256 ->
  0 < bsize this -> 0 <= k -> 0 <= off <= bsize this ->
  let '(k', off') := turn (bsize this) k off in
  k' < total ->
  exists this', next_block this inode (disk this (nos k)) k off = Ret (disk this (nos k'), k', off', this') /\
    ready n this' /\ unchanged this this'.
Proof.
  intros Hn Hg Hr (Hl & Ha & Hh) Ht Hb Hk Ho. unfold next_block, turn. destruct (Z.leb_spec (bsize this) off); intros Hk'.
  - assert (u8 (k + 1) = k + 1) as -> by (apply u8_small; lia).
    destruct (inode_read_block_ok junk n this inode (k + 1) (nos (k + 1)) (disk this (nos k))) as (t1 & -> & Hr1 & HC);
      [lia|done|done|done| |apply Hh; lia|].
    { destruct Ha as (Hb5 & c & Ec & Hc). split; [done|]. exists c. split; [done|lia]. }
    cbn [mbind outcome_bind]. rewrite (proj2 (proj1 HC)). replace (off - bsize this) with 0 by lia. by exists t1.
  - exists this. split; [done|]. split; [by apply (ready_le (3 + n)); [lia|]|apply unchanged_refl].
Qed.

Lemma file_block_usable this inode nos size k :
  0 < bsize this -> file_at this inode nos ((size + bsize this - 1) / bsize this) -> 0 <= k -> k * bsize this < size ->
  usable this (nos k).
Proof. intros Hb (_ & _ & Hh) Hk Hlt. destruct (Hh k) as (_ & _ & _ & Hu); [|done]. split; [lia|by apply below_end]. Qed.

Lemma chain_unchanged this this' inode nos size k off es :
  let bs := bsize this in
  0 < bs -> 0 <= k -> 0 <= off <= bs -> file_at this inode nos ((size + bs - 1) / bs) -> unchanged this this' ->
  chain (fun j => disk this (nos j)) bs size k off es -> chain (fun j => disk this' (nos j)) bs size k off es.
Proof.
  intros bs Hb Hk Ho Hf [_ HV] Hc. eapply chain_frame; [done|done|done|reflexivity|].
  intros k' off' e Hlo Ho' He. rewrite HV; [done|]. eapply file_block_usable; [done|done|nia|fold bs; lia].
Qed.

(** What the search returns for the first entry with the name. *)
Definition search_result (this : ext2_fs_t) (nos : Z -> Z) (found : option (Z * Z * dent))
    (r : option Z * list Z * Z) : Prop :=
  match found with
  | Some (k, off, _) => r = (Some off, disk this (nos k), k)
  | None => r.1.1 = None
  end.

Lemma find_entry_ok n fuel this inode nos size name k off es :
  let bs := bsize this in
  0 <= n -> geometry this -> ready (3 * Z.of_nat (length es) + n) this ->
  file_at this inode nos ((size + bs - 1) / bs) -> (size + bs - 1) / bs <= 256 ->
  Field.get 4 inode inode_size_field = Ret size -> size < 4294967296 -> cstring_ok name ->
  0 <= k -> 0 <= off <= bs -> chain (fun j => disk this (nos j)) bs size k off es -> (length es < fuel)%nat ->
  exists found block block_nr this',
    find_entry fuel this inode name (disk this (nos k)) k off (k * bs + off) = Ret (found, block, block_nr, this') /\
    search_result this nos (first_entry bs name k off es) (found, block, block_nr) /\
    ready n this' /\ unchanged this this'.
Proof.
  intros bs Hn. revert this k off es bs. induction fuel as [|fuel IH]; [lia|].
  intros this k off es bs Hg Hr Hf Htot Esz Hsz Hname Hk Ho Hc Hfuel.
  assert (0 < bs) as Hb by (unfold bs; by destruct Hr as [[? _] _]).
  pose proof (chain_size _ _ _ _ _ _ Hb Ho Hc) as Hbytes.
  cbn [find_entry]. rewrite Esz. cbn [mbind outcome_bind]. destruct es as [|e es]; cbn [chain first_entry length] in *.
  { destruct (Z.ltb_spec (k * bs + off) size); [lia|]. exists None, (disk this (nos k)), k, this.
    do 2 (split; [done|]). split; [done|apply unchanged_refl]. }
  destruct (Z.ltb_spec (k * bs + off) size); [|lia].
  pose proof (turn_position bs k off) as Ht. pose proof (turn_bound bs k off Hb Ho) as Hto.
  pose proof (next_block_ok (3 * Z.of_nat (length es) + n) this inode nos ((size + bs - 1) / bs) k off) as Hnext. fold bs in Hnext.
  destruct (turn bs k off) as [k' off']. destruct Hc as (He & Hle & Hc). pose proof (entry_rec _ _ _ He) as Hrec.
  destruct Hnext as (t1 & -> & Hr1 & HC);
    [lia|done|by replace (3 + (3 * Z.of_nat (length es) + n)) with (3 * Z.of_nat (S (length es)) + n) by lia|done|done|done|done|done|
     apply below_end; lia|].
  cbn [mbind outcome_bind]. pose proof He as (E1 & E2 & E3 & E4 & Hok & Hlen & Hino).
  rewrite E1, E3, E2. cbn [mbind outcome_bind].
  assert (u32 (off' + de_rec e) = off' + de_rec e /\ u32 (k * bs + off + de_rec e) = k' * bs + (off' + de_rec e)) as [-> ->].
  { pose proof (chain_size _ _ _ _ _ _ Hb (conj (ltac:(lia) : 0 <= off' + de_rec e) Hle) Hc). rewrite !u32_small; nia. }
  pose proof HC as [[ES EB] HV]. fold bs in EB.
  assert (exists found block block_nr this',
    find_entry fuel t1 inode name (disk this (nos k')) k' (off' + de_rec e) (k' * bs + (off' + de_rec e)) = Ret (found, block, block_nr, this') /\
    search_result this nos (first_entry bs name k' (off' + de_rec e) es) (found, block, block_nr) /\
    ready n this' /\ unchanged this this') as Hrest.
  { destruct (IH t1 k' (off' + de_rec e) es) as (found & block & block_nr & t2 & E & Hres & Hr2 & HC2);
      rewrite ?EB; [by apply (geometry_same this)|done|by apply (file_at_unchanged this)|done|done|done|done|lia|lia| |lia|].
    - by apply (chain_unchanged this t1 inode); [done|lia|lia|..].
    - rewrite EB in E, Hres. rewrite HV in E by (eapply file_block_usable; [done|done|lia|fold bs; lia]).
      exists found, block, block_nr, t2. split; [done|]. split; [|split; [done|by eapply unchanged_trans]].
      destruct (first_entry bs name k' (off' + de_rec e) es) as [[[k2 off2] e2]|] eqn:Ef; [|done]. simpl in *.
      rewrite Hres, HV; [done|]. destruct (first_entry_place _ _ _ _ _ _ _ _ _ _ Hb (conj (ltac:(lia) : 0 <= off' + de_rec e) Hle) Hc Ef)
        as (_ & Hlt & Hk2 & Ho2 & _). eapply file_block_usable; [done|done|lia|fold bs; lia]. }
  unfold matches. destruct (Z.eqb_spec (de_ino e) 0) as [E0|E0]; cbn [orb].
  { rewrite E0. cbn [truthy Z.eqb negb andb]. exact Hrest. }
  assert (truthy (de_ino e) = true) as -> by (unfold truthy; by destruct (Z.eqb_spec (de_ino e) 0)). cbn [andb].
  destruct (Z.eqb_spec (strlen name) (strlen (de_name e))) as [El|El]; cbn [negb].
  - rewrite E4. cbn [mbind outcome_bind]. rewrite name_compare by done. destruct (bool_decide (de_name e = name)); [|exact Hrest].
    exists (Some off'), (disk this (nos k')), k', t1. split; [done|]. split; [done|].
    split; [by apply (ready_le (3 * Z.of_nat (length es) + n)); [lia|]|done].
  - rewrite bool_decide_eq_false_2 by congruence. exact Hrest.
Qed.

(** The first block of a directory, as the functions that walk one read it. *)
Lemma open_dir_ok n this ino inode size nos es :
  0 <= n -> inode_layout this -> geometry this -> inode_size this <= Z.of_nat (length junk) ->
  directory this ino inode size nos es -> ready (4 + n) this ->
  exists t1 t2, read_inode junk this ino = Ret (inode, t1) /\
    inode_read_block junk t1 inode 0 junk = Ret (nos 0, disk this (nos 0), t2) /\
    ready n t2 /\ unchanged this t2.
Proof.
  intros Hn Hlay Hg Hj (((no & at_ & Hloc & Hin) & Esz & Hf) & Hsz & Htot & Hc) Hr.
  assert (0 < bsize this) as Hb by (by destruct Hr as [[? _] _]).
  destruct (read_inode_ok junk (3 + n) this ino no at_) as (i' & t1 & E1 & Hi' & Hr1 & HC1);
    [lia|done|by replace (1 + (3 + n)) with (4 + n) by lia|done|done|].
  assert (i' = inode) as -> by congruence.
  pose proof (file_at_unchanged _ _ _ _ _ HC1 Hf) as (Hl & Ha & Hh).
  assert (0 < (size + bsize this - 1) / bsize this) as Hpos by (apply below_end; lia).
  destruct (inode_read_block_ok junk n t1 inode 0 (nos 0) junk) as (t2 & E2 & Hr2 & HC2);
    [lia|by apply (geometry_same this); [by destruct HC1|]|done|done| |apply Hh; lia|].
  { destruct Ha as (Hb5 & c & Ec & Hca). split; [done|]. exists c. split; [done|lia]. }
  exists t1, t2. split; [done|]. split; [|split; [done|by eapply unchanged_trans]].
  rewrite E2. do 2 f_equal. f_equal. apply HC1. eapply file_block_usable; [done|done|lia|lia].
Qed.

Lemma search_dir_ok n this ino inode size nos es name :
  0 <= n -> inode_layout this -> geometry this -> inode_size this <= Z.of_nat (length junk) ->
  directory this ino inode size nos es -> cstring_ok name -> ready (4 + 3 * Z.of_nat (length es) + n) this ->
  exists found block block_nr this', search_dir this ino name = Ret (found, block, block_nr, inode, this') /\
    search_result this nos (first_entry (bsize this) name 0 0 es) (found, block, block_nr) /\
    ready n this' /\ unchanged this this'.
Proof.
  intros Hn Hlay Hg Hj Hdir Hname Hr. pose proof Hdir as ((_ & Esz & Hf) & Hsz & Htot & Hc).
  assert (0 < bsize this) as Hb by (by destruct Hr as [[? _] _]).
  destruct (open_dir_ok (3 * Z.of_nat (length es) + n) this ino inode size nos es) as (t1 & t2 & E1 & E2 & Hr2 & HC);
    [lia|done|done|done|done|by rewrite Z.add_assoc|].
  unfold search_dir. rewrite E1. cbn [mbind outcome_bind]. rewrite E2. cbn [mbind outcome_bind]. rewrite Esz.
  cbn [mbind outcome_bind]. pose proof HC as [[ES EB] HV].
  assert (forall k, 0 <= k -> k * bsize this < size -> disk t2 (nos k) = disk this (nos k)) as Hsame.
  { intros k Hk Hlt. apply HV. by eapply file_block_usable. }
  assert (disk this (nos 0) = disk t2 (nos 0)) as -> by (by rewrite Hsame by lia).
  pose proof (chain_size _ _ _ _ _ _ Hb (conj (Z.le_refl 0) (Z.lt_le_incl _ _ Hb)) Hc) as Hlen.
  destruct (find_entry_ok n (S (Z.to_nat size)) t2 inode nos size name 0 0 es) as (found & block & nr & t3 & E & Hres & Hr3 & HC3);
    rewrite ?EB; [done|by apply (geometry_same this); [by destruct HC|]|done|by apply (file_at_unchanged this)|done|done|lia|done|lia|lia| |lia|].
  { by apply (chain_unchanged this t2 inode); [done|lia|lia|..]. }
  change (0 * bsize t2 + 0) with 0 in E. rewrite E. cbn [mbind outcome_bind].
  exists found, block, nr, t3. split; [done|]. rewrite EB in Hres.
  split; [|split; [done|by eapply unchanged_trans]].
  destruct (first_entry (bsize this) name 0 0 es) as [[[k2 off2] e2]|] eqn:Ef; [|done]. simpl in *.
  destruct (first_entry_place _ _ _ _ _ _ _ _ _ _ Hb (conj (Z.le_refl 0) (Z.lt_le_incl _ _ Hb)) Hc Ef) as (_ & Hlt & Hk2 & Ho2 & _).
  by rewrite Hres, Hsame by lia.
Qed.

(** The node made of an inode and of a copy of its entry. *)
Lemma node_from_file_ok block off e direntry inode :
  entry_at block off e -> mem_read block off (de_rec e) = Ret direntry -> (128 <= length inode)%nat ->
  exists nd, node_from_file inode direntry = Ret nd /\ Field.get 4 direntry 0 = Ret (de_ino e) /\
    fn_inode nd = de_ino e /\ fn_name nd = de_name e.
Proof.
  intros (H1 & H2 & H3 & H4 & H5 & H6 & H7) Hrd Hl. assert (0 <= strlen (de_name e)) by (unfold strlen; lia).
  unfold sizeof_ext2_dir_t, d_rec_len, d_name_len, d_name in *.
  assert (Field.get 4 direntry 0 = Ret (de_ino e)) as E1.
  { unfold Field.get in *. by rewrite (mem_read_sub block off (de_rec e)), Z.add_0_r by (done || lia). }
  unfold node_from_file, d_name_len, d_name. rewrite E1. cbn [mbind outcome_bind].
  assert (Field.get 1 direntry (0 + 6) = Ret (strlen (de_name e))) as ->.
  { unfold Field.get in *. by rewrite (mem_read_sub block off (de_rec e)) by (done || lia). }
  cbn [mbind outcome_bind]. rewrite (mem_read_sub block off (de_rec e) direntry (0 + 8)), Z.add_0_l, H4 by (done || lia).
  cbn [mbind outcome_bind].
  destruct (Field.get_ok 2 inode inode_uid) as [? ->]; [done|unfold inode_uid; lia|].
  destruct (Field.get_ok 2 inode inode_gid) as [? ->]; [done|unfold inode_gid; lia|].
  destruct (Field.get_ok 4 inode inode_size_field) as [? ->]; [done|unfold inode_size_field; lia|].
  destruct (Field.get_ok 2 inode inode_mode) as [? ->]; [done|unfold inode_mode; lia|].
  destruct (Field.get_ok 2 inode inode_links_count) as [? ->]; [done|unfold inode_links_count; lia|].
  destruct (Field.get_ok 4 inode inode_atime) as [? ->]; [done|unfold inode_atime; lia|].
  destruct (Field.get_ok 4 inode inode_mtime) as [? ->]; [done|unfold inode_mtime; lia|].
  destruct (Field.get_ok 4 inode inode_ctime) as [? ->]; [done|unfold inode_ctime; lia|].
  cbn [mbind outcome_bind]. eexists. split; [done|]. split; [done|]. split; [done|]. cbn [fn_name].
  rewrite cut_delim_no_delim; [done|]. intros H0. apply (proj1 (Forall_forall _ _) H5) in H0. unfold byte_ok in H0. lia.
Qed.

(** Looking a name up in a directory of any number of blocks gives the node of
    the first entry in use with that name, or nothing when there is none. *)
Theorem finddir_ext2_finds this ino inode size nos es name :
  inode_layout this -> geometry this -> 128 <= inode_size this <= Z.of_nat (length junk) ->
  directory this ino inode size nos es -> cstring_ok name -> ready (5 + 3 * Z.of_nat (length es)) this ->
  match first_entry (bsize this) name 0 0 es with
  | None => exists this', finddir_ext2 this ino name = Ret (None, this') /\ unchanged this this'
  | Some (_, _, e) =>
      forall no at_, located this (de_ino e) no at_ ->
      exists nd this', finddir_ext2 this ino name = Ret (Some nd, this') /\
        fn_inode nd = de_ino e /\ fn_name nd = name /\ unchanged this this'
  end.
Proof.
  intros Hlay Hg Hj Hdir Hname Hr. unfold finddir_ext2.
  destruct (search_dir_ok 1 this ino inode size nos es name) as (found & block & nr & t1 & -> & Hres & Hr1 & HC1);
    [lia|done|done|lia|done|done|by replace (4 + 3 * Z.of_nat (length es) + 1) with (5 + 3 * Z.of_nat (length es)) by lia|].
  cbn [mbind outcome_bind]. assert (0 < bsize this) as Hb by (by destruct Hr as [[? _] _]).
  pose proof Hdir as (_ & _ & _ & Hc).
  destruct (first_entry (bsize this) name 0 0 es) as [[[k off] e]|] eqn:Ef.
  - intros no at_ Hloc. injection Hres as -> -> ->.
    destruct (first_entry_place _ _ _ _ _ _ _ _ _ _ Hb (conj (Z.le_refl 0) (Z.lt_le_incl _ _ Hb)) Hc Ef)
      as (_ & Hlt & Hk & Ho & Hend & He & Hm). pose proof (entry_rec _ _ _ He).
    pose proof He as (_ & -> & _). cbn [mbind outcome_bind].
    destruct (mem_read_ok (disk this (nos k)) off (de_rec e)) as (direntry & Ed & _);
      [lia|lia|rewrite (length_disk _ _ _ Hr); lia|].
    rewrite Ed. cbn [mbind outcome_bind].
    destruct (read_inode_ok junk 0 t1 (de_ino e) no at_) as (ci & t2 & E2 & Hci & _ & HC2).
    { lia. } { destruct HC1 as [[ES EB] _]. unfold inode_layout. rewrite EB, ES. done. } { done. }
    { apply (located_same this); [by destruct HC1|done]. } { destruct HC1 as [[ES _] _]. rewrite ES. simpl. lia. }
    assert ((128 <= length ci)%nat) as Hcl.
    { destruct HC1 as [[ES _] _]. assert (inode_size t1 = inode_size this) as Es by (by rewrite ES). rewrite Es in Hci.
      unfold mem_read in Hci. destruct (_ && _ && _) eqn:Eb; [|done]. injection Hci as <-.
      rewrite !andb_true_iff, !Z.leb_le in Eb. rewrite length_take, length_drop. lia. }
    destruct (node_from_file_ok _ off e direntry ci He Ed Hcl) as (nd & En & Eino & Hni & Hnn).
    rewrite Eino. cbn [mbind outcome_bind]. rewrite E2. cbn [mbind outcome_bind]. rewrite En. cbn [mbind outcome_bind].
    exists nd, t2. split; [done|]. split; [done|]. split; [|by eapply unchanged_trans].
    unfold matches in Hm. apply andb_true_iff in Hm as [_ Hm%bool_decide_eq_true]. congruence.
  - simpl in Hres. subst found. exists t1. done.
Qed.

(** ** Removing an entry *)

(** Block [k] of a file is no table of its block numbers and no other block of it. *)
Definition data_apart (this : ext2_fs_t) (inode : list Z) (nos : Z -> Z) (n k : Z) : Prop :=
  (forall j no i, 0 <= j < n -> mapped this inode j (In_block no i) -> no <> nos k) /\
  Field.get 4 inode (inode_block (EXT2_DIRECT_BLOCKS + 1)) <> Ret (nos k) /\
  (forall j, 0 <= j < n -> j <> k -> nos j <> nos k).

(** Only block [no] of the disk changed. *)
Definition rewritten (this this' : ext2_fs_t) (no : Z) (b : list Z) : Prop :=
  same_fields this this' /\ forall no', usable this no' -> disk this' no' = if no' =? no then b else disk this no'.

Lemma rewritten_unchanged this t1 t2 no b : unchanged this t1 -> rewritten t1 t2 no b -> rewritten this t2 no b.
Proof.
  intros [[E1 B1] V1] [[E2 B2] V2]. split; [split; [rewrite E2, E1; by destruct this|congruence]|].
  intros no' Hno'. rewrite V2 by (by apply (usable_same this)). by rewrite V1.
Qed.

Lemma unchanged_rewritten this t1 t2 no b : rewritten this t1 no b -> unchanged t1 t2 -> rewritten this t2 no b.
Proof.
  intros [[E1 B1] V1] [[E2 B2] V2]. split; [split; [rewrite E2, E1; by destruct this|congruence]|].
  intros no' Hno'. rewrite V2 by (by apply (usable_same this)). by rewrite V1.
Qed.

Lemma file_at_rewritten this this' inode nos n k b :
  file_at this inode nos n -> data_apart this inode nos n k -> rewritten this this' (nos k) b -> file_at this' inode nos n.
Proof.
  intros (Hl & Ha & Hh) (Ht & Hroot & _) [HS HV]. split; [done|]. split.
  - unfold allocated. destruct HS as [_ ->]. done.
  - intros j Hj. destruct (Hh j Hj) as (pl & Hm & Hst & Hu). exists pl. split; [|split; [|by apply (usable_same this)]].
    + apply (mapped_transfer this this' inode inode); [done|done|done|]. intros root Er Hru. rewrite HV by done.
      destruct (Z.eqb_spec root (nos k)) as [->|]; [|done]. done.
    + destruct pl as [i|no i]; simpl in *; [done|]. pose proof (Ht j no i Hj Hm) as Hne. destruct Hm as (_ & _ & Hm & _).
      rewrite HV by (by eapply Hm). by destruct (Z.eqb_spec no (nos k)).
Qed.

Lemma inode_write_block_ok n this inode ino k no buf :
  0 <= n -> 0 <= k -> geometry this -> ready (3 + n) this -> (100 <= length inode)%nat ->
  allocated this inode (k + 1) -> holds this inode k no -> Z.of_nat (length buf) = bsize this ->
  exists this', inode_write_block junk this inode ino k buf = Ret (no, inode, this') /\ ready n this' /\
    rewritten this this' no buf.
Proof.
  intros Hn Hk Hg Hr Hl (Hb & c & Ec & Hc) (pl & Hm & Hst & Hu) Hbuf. unfold inode_write_block. cbn [grow_inode].
  rewrite Ec. cbn [mbind outcome_bind]. destruct (Z.eqb_spec (bsize this / 512) 0); [lia|].
  destruct (Z.leb_spec (c / (bsize this / 512)) k); [lia|]. cbn [mbind outcome_bind].
  destruct (get_block_number_ok junk (1 + n) this inode k pl) as (v & t1 & -> & Hst1 & Hr1 & C1); [lia|done| |done|done|].
  { by apply (ready_le (3 + n)); [lia|]. }
  cbn [mbind outcome_bind]. assert (v = no) as -> by congruence. pose proof C1 as [S1 V1].
  destruct (bwrite_ok n t1 no buf) as (t2 & -> & Hr2 & S2 & V2);
    [lia|done|by apply (usable_same this)|destruct S1 as [_ ->]; done|].
  cbn [mbind outcome_bind]. exists t2. split; [done|]. split; [done|]. by apply (rewritten_unchanged this t1).
Qed.

Lemma ext2_sync_fs_ok n this :
  ready n this -> exists this', ext2_sync_fs this = Ret this' /\ ready n this' /\ unchanged this this'.
Proof.
  intros (Hi & Ht & Ht'). unfold ext2_sync_fs.
  destruct (ext2_sync_ok (blk this) Hi) as (b & -> & Hib & Eb & Ec & Hv). cbn [mbind outcome_bind]. eexists. split; [done|].
  split; [split; [done|simpl; lia]|]. split; [done|]. intros no Hno. by apply Hv.
Qed.

(** A directory of which block [k] was written again. *)
Lemma directory_rewritten this this' ino inode size nos es k b es' :
  0 < bsize this -> directory this ino inode size nos es -> rewritten this this' (nos k) b ->
  data_apart this inode nos ((size + bsize this - 1) / bsize this) k ->
  (forall no at_, located this ino no at_ -> no <> nos k) ->
  chain (fun j => if j =? k then b else disk this (nos j)) (bsize this) size 0 0 es' ->
  directory this' ino inode size nos es' /\ forall no, usable this no -> no <> nos k -> disk this' no = disk this no.
Proof.
  intros Hb (((no & at_ & Hloc & Hin) & Esz & Hf) & Hsz & Htot & _) HW Hap Hino Hc. pose proof HW as [HS HV]. pose proof (proj2 HS) as EB.
  split; [|intros no' Hno' Hne; rewrite HV by done; by destruct (Z.eqb_spec no' (nos k))].
  unfold directory. rewrite EB. split; [|split; [done|split; [done|]]].
  - split; [|rewrite EB; split; [done|by eapply file_at_rewritten]]. exists no, at_.
    split; [by apply (located_same this)|]. destruct HS as [ES _]. assert (inode_size this' = inode_size this) as -> by (by rewrite ES).
    rewrite HV by (by destruct Hloc as (_ & _ & _ & _ & _ & ?)).
    destruct (Z.eqb_spec no (nos k)) as [->|]; [|done]. exfalso. by apply (Hino (nos k) at_).
  - eapply chain_frame; [done|lia|exact Hc|reflexivity|]. intros j off' e' Hlo Ho' He'. cbn beta in *.
    assert (0 <= j) by nia. rewrite HV by (eapply file_block_usable; [done|done|lia|lia]).
    destruct (Z.eqb_spec j k) as [->|Hjk]; [by rewrite Z.eqb_refl|].
    destruct (Z.eqb_spec (nos j) (nos k)); [|done]. exfalso. destruct Hap as (_ & _ & Hap).
    apply (Hap j); [split; [lia|apply below_end; lia]|done|done].
Qed.

Lemma inserts_take_drop (k : list Z) : forall i (l : list Z), (i + length k <= length l)%nat -> list_inserts i k l = take i l ++ k ++ drop (i + length k) l.
Proof.
  induction k as [|x k IH]; intros i l Hl; cbn [list_inserts length] in *; [by rewrite Nat.add_0_r, app_nil_l, take_drop|].
  rewrite IH by lia. destruct (lookup_lt_is_Some_2 l i) as [y Hy]; [lia|]. rewrite (take_S_r l i y Hy), <- app_assoc.
  replace i with (length (take i l) + 0)%nat at 1 by (rewrite length_take; lia). rewrite insert_app_r. cbn [app].
  change (<[0%nat := x]> (y :: k ++ drop (S i + length k) l)) with (x :: k ++ drop (S i + length k) l).
  by replace (i + S (length k))%nat with (S i + length k)%nat by lia.
Qed.

Lemma put_zero (l : list Z) off b : 0 <= off -> off + 4 <= Z.of_nat (length l) -> Field.put 4 l off 0 = Ret b ->
  b = take (Z.to_nat off) l ++ [0; 0; 0; 0] ++ drop (Z.to_nat off + 4) l.
Proof.
  intros Ho Hl. unfold Field.put, mem_write. change (Field.bytes_of 4 0) with [0; 0; 0; 0]. destruct (_ && _); [|done].
  intros [= <-]. apply (inserts_take_drop [0; 0; 0; 0]). cbn [length]. lia.
Qed.

(** C33: Removing a name from a directory clears the four bytes of the inode number of its first
    entry in use, and no other byte of the disk changes; a name that is not there changes
    nothing.  Side conditions: the blocks of the directory are allocated, the block of the entry
    is no table of its block numbers and does not hold its inode, and the memory of the
    directory's inode, which the code frees before its last use, still holds the inode
    then. *)
Theorem unlink_ext2_removes freed this ino inode size nos es name :
  inode_layout this -> geometry this -> inode_size this <= Z.of_nat (length junk) ->
  directory this ino inode size nos es -> cstring_ok name -> ready (7 + 3 * Z.of_nat (length es)) this ->
  freed inode = inode ->
  match first_entry (bsize this) name 0 0 es with
  | None => exists this', unlink_ext2 freed this ino name = Ret this' /\ unchanged this this'
  | Some (k, off, _) =>
      data_apart this inode nos ((size + bsize this - 1) / bsize this) k ->
      (forall no at_, located this ino no at_ -> no <> nos k) ->
      exists this', unlink_ext2 freed this ino name = Ret this' /\
        directory this' ino inode size nos (remove_name name es) /\
        disk this' (nos k) = take (Z.to_nat off) (disk this (nos k)) ++ [0; 0; 0; 0] ++ drop (Z.to_nat off + 4) (disk this (nos k)) /\
        forall no, usable this no -> no <> nos k -> disk this' no = disk this no
  end.
Proof.
  intros Hlay Hg Hj Hdir Hname Hr Hfree. unfold unlink_ext2.
  destruct (search_dir_ok 3 this ino inode size nos es name) as (found & block & nr & t1 & -> & Hres & Hr1 & HC1);
    [lia|done|done|lia|done|done|by replace (4 + 3 * Z.of_nat (length es) + 3) with (7 + 3 * Z.of_nat (length es)) by lia|].
  cbn [mbind outcome_bind]. assert (0 < bsize this) as Hb by (by destruct Hr as [[? _] _]).
  pose proof Hdir as (((no & at_ & Hloc & Hin) & Esz & Hf) & Hsz & Htot & Hc).
  destruct (first_entry (bsize this) name 0 0 es) as [[[k off] e]|] eqn:Ef; [|simpl in Hres; subst found; by exists t1].
  intros Hap Hino. injection Hres as -> -> ->.
  destruct (first_entry_place _ _ _ _ _ _ _ _ _ _ Hb (conj (Z.le_refl 0) (Z.lt_le_incl _ _ Hb)) Hc Ef)
    as (_ & Hlt & Hk & Ho & Hend & He & Hm). pose proof (entry_rec _ _ _ He).
  pose proof (length_disk _ _ (nos k) Hr) as Hlen.
  destruct (Field.put_ok 4 (disk this (nos k)) off 0) as (b' & Eput & Hb'l & _); [lia|lia|lia|]. rewrite Eput. cbn [mbind outcome_bind]. rewrite Hfree.
  pose proof (file_at_unchanged _ _ _ _ _ HC1 Hf) as (Hl1 & Ha1 & Hh1). pose proof (proj2 (proj1 HC1)) as EB1.
  assert (k < (size + bsize this - 1) / bsize this) as Hkn by (apply below_end; lia).
  destruct (inode_write_block_ok 0 t1 inode ino k (nos k) b') as (t2 & -> & Hr2 & HW2);
    [lia|lia|by apply (geometry_same this); [by destruct HC1|]|done|done| |apply Hh1; lia|rewrite Hb'l, EB1; lia|].
  { destruct Ha1 as (Hb5 & c & Ec & Hca). split; [done|]. exists c. split; [done|lia]. }
  cbn [mbind outcome_bind]. destruct (ext2_sync_fs_ok 0 t2 Hr2) as (t3 & -> & Hr3 & HC3).
  pose proof (unchanged_rewritten _ _ _ _ _ (rewritten_unchanged _ _ _ _ _ HC1 HW2) HC3) as HW.
  destruct (directory_rewritten this t3 ino inode size nos es k b' (remove_name name es) Hb Hdir HW Hap Hino) as [Hd Hother].
  { exact (chain_removed _ _ _ _ _ _ _ _ _ _ b' Hb (conj (Z.le_refl 0) (Z.lt_le_incl _ _ Hb)) Hc Ef Hlen Eput). }
  exists t3. split; [done|]. split; [done|]. split; [|done].
  rewrite (proj2 HW), Z.eqb_refl by (by apply (file_block_usable this inode nos size k Hb Hf); lia). apply (put_zero _ off); [lia|lia|done].
Qed.

(** ** Adding an entry *)

(** The place of the entry that follows the entries [es]. *)
Fixpoint place_after (bs k off : Z) (es : list dent) : Z * Z :=
  match es with
  | [] => turn bs k off
  | e :: es' => let '(k, off) := turn bs k off in place_after bs k (off + de_rec e) es'
  end.

(** The bytes below [b] are kept. *)
Definition kept_below (l l' : list Z) (b : Z) : Prop :=
  forall pos n, 0 <= pos -> pos + n <= b -> mem_read l' pos n = mem_read l pos n.

Lemma get_kept l l' b n pos : kept_below l l' b -> 0 <= pos -> pos + Z.of_nat n <= b -> Field.get n l' pos = Field.get n l pos.
Proof. intros H Hp Hn. unfold Field.get. by rewrite H. Qed.

Lemma entry_kept l l' b off e :
  kept_below l l' b -> 0 <= off -> off + de_rec e <= b -> entry_at l off e -> entry_at l' off e.
Proof.
  intros Hk Ho Hb (H1 & H2 & H3 & H4 & H5 & H6 & H7). assert (0 <= strlen (de_name e)) by (unfold strlen; lia).
  unfold entry_at, sizeof_ext2_dir_t, d_rec_len, d_name_len, d_name in *.
  do 3 (split; [rewrite (get_kept l l' b) by (done || lia); done|]). split; [rewrite Hk by lia; done|]. done.
Qed.

Lemma put_kept n l pos v :
  0 <= pos -> pos + Z.of_nat n <= Z.of_nat (length l) -> 0 <= v < 256 ^ Z.of_nat n ->
  exists l', Field.put n l pos v = Ret l' /\ length l' = length l /\ Field.get n l' pos = Ret v /\ kept_below l l' pos /\
    forall pos' m, 0 <= pos' -> pos' + m <= pos \/ pos + Z.of_nat n <= pos' -> mem_read l' pos' m = mem_read l pos' m.
Proof.
  intros Hp Hl Hv. destruct (Field.put_ok n l pos v) as (l' & E & Hl' & Hg & _); [done..|]. exists l'. do 3 (split; [done|]).
  unfold Field.put in E. destruct (mem_write_read l pos (Field.bytes_of n v)) as (l2 & E2 & _ & _ & Hm);
    [done|by rewrite Field.length_bytes_of|].
  assert (l2 = l') as -> by congruence. rewrite Field.length_bytes_of in Hm. split; [|done].
  intros p m Hp0 Hpm. apply Hm; [done|by left].
Qed.

(** Shortening an entry. *)
Lemma shrink_entry block off e r :
  entry_at block off e -> 0 <= off -> off + sizeof_ext2_dir_t <= Z.of_nat (length block) ->
  sizeof_ext2_dir_t + strlen (de_name e) <= r < 65536 ->
  exists block', Field.put 2 block (d_rec_len off) r = Ret block' /\ length block' = length block /\
    entry_at block' off (Dent (de_ino e) r (de_name e)) /\ kept_below block block' off.
Proof.
  intros (H1 & H2 & H3 & H4 & H5 & H6 & H7) Ho Hl Hr. assert (0 <= strlen (de_name e)) by (unfold strlen; lia).
  unfold entry_at, sizeof_ext2_dir_t, d_rec_len, d_name_len, d_name in *. cbn [de_ino de_rec de_name].
  destruct (put_kept 2 block (off + 4) r) as (b1 & -> & L1 & G1 & K1 & M1); [lia|lia|lia|].
  exists b1. split; [done|]. split; [done|]. split; [|intros p m ??; apply K1; [done|lia]].
  split; [rewrite (get_kept block b1 (off + 4)) by (done || lia); done|]. split; [done|].
  split; [unfold Field.get in *; rewrite M1 by lia; done|]. split; [rewrite M1 by lia; done|].
  split; [done|]. split; [lia|done].
Qed.

Lemma put_entry_ok this block off ino name :
  let e := Dent ino (bsize this - off) name in
  Z.of_nat (length block) = bsize this -> bsize this <= 65536 -> 0 < off -> 0 <= ino < 4294967296 ->
  cstring_ok name -> strlen name < 256 -> off + sizeof_ext2_dir_t + strlen name <= bsize this ->
  exists block', put_entry this block off ino name = Ret block' /\ length block' = length block /\
    entry_at block' off e /\ kept_below block block' off.
Proof.
  intros e Hl Hbs Ho Hino Hok Hlen Hfit. unfold put_entry, sizeof_ext2_dir_t, d_rec_len, d_name_len, d_file_type, d_name in *.
  assert (0 <= strlen name) by (unfold strlen; lia). unfold u16, u8. rewrite !Z.mod_small by lia.
  destruct (put_kept 4 block off ino) as (b1 & -> & L1 & G1 & K1 & _); [lia|lia|lia|]. cbn [mbind outcome_bind].
  destruct (put_kept 2 b1 (off + 4) (bsize this - off)) as (b2 & -> & L2 & G2 & K2 & _); [lia|lia|lia|]. cbn [mbind outcome_bind].
  destruct (put_kept 1 b2 (off + 6) (strlen name)) as (b3 & -> & L3 & G3 & K3 & _); [lia|lia|lia|]. cbn [mbind outcome_bind].
  destruct (put_kept 1 b3 (off + 7) 0) as (b4 & -> & L4 & G4 & K4 & _); [lia|lia|lia|]. cbn [mbind outcome_bind].
  destruct (mem_write_read b4 (off + 8) name) as (b5 & -> & L5 & G5 & M5); [lia|unfold strlen in *; lia|].
  assert (kept_below b4 b5 (off + 8)) as K5 by (intros p m ??; apply M5; [done|by left]).
  exists b5. split; [done|]. split; [congruence|]. split.
  - unfold entry_at, e, d_rec_len, d_name_len, d_name, sizeof_ext2_dir_t. cbn [de_ino de_rec de_name].
    assert (kept_below b1 b5 (off + 4)) as K15 by (intros p m ??; rewrite K5, K4, K3, K2 by lia; done).
    assert (kept_below b2 b5 (off + 6)) as K25 by (intros p m ??; rewrite K5, K4, K3 by lia; done).
    assert (kept_below b3 b5 (off + 7)) as K35 by (intros p m ??; rewrite K5, K4 by lia; done).
    rewrite (get_kept b1 b5 (off + 4)), (get_kept b2 b5 (off + 6)), (get_kept b3 b5 (off + 7)) by (done || lia).
    do 3 (split; [done|]). split; [exact G5|]. split; [done|]. lia.
  - intros p m Hp Hm. rewrite K5, K4, K3, K2, K1 by lia. done.
Qed.

Lemma place_after_bound bl bs size k off es l :
  0 < bs -> 0 <= off <= bs -> chain bl bs size k off (es ++ [l]) ->
  let '(k', off') := place_after bs k off es in
  k <= k' /\ 0 <= off' < bs /\ k * bs + off <= k' * bs + off' /\ off' + de_rec l <= bs /\
  k' * bs + off' + de_rec l = size /\ entry_at (bl k') off' l.
Proof.
  intros Hb. revert k off. induction es as [|e es IH]; intros k off Ho Hc; cbn [app chain place_after] in *;
    pose proof (turn_position bs k off) as Ht; pose proof (turn_bound bs k off Hb Ho) as Hto;
    destruct (turn bs k off) as [k1 off1]; destruct Hc as (He & Hle & Hc); pose proof (entry_rec _ _ _ He).
  - auto 10 with lia.
  - specialize (IH k1 (off1 + de_rec e) ltac:(lia) Hc). destruct (place_after bs k1 (off1 + de_rec e) es) as [k' off'].
    destruct IH as (? & ? & ? & ? & ? & ?). auto 10 with lia.
Qed.

(** Splitting the last entry in two. *)
Lemma chain_extend bl bl' bs size k off es l l' e :
  0 < bs -> 0 <= off <= bs -> chain bl bs size k off (es ++ [l]) ->
  (let '(k', off') := place_after bs k off es in
   (forall k2 off2 e2, 0 <= off2 -> k2 * bs + off2 + de_rec e2 <= k' * bs + off' -> off2 + de_rec e2 <= bs -> k <= k2 ->
      entry_at (bl k2) off2 e2 -> entry_at (bl' k2) off2 e2) /\
   entry_at (bl' k') off' l' /\ entry_at (bl' k') (off' + de_rec l') e /\ de_rec l' + de_rec e = de_rec l) ->
  chain bl' bs size k off (es ++ [l'; e]).
Proof.
  intros Hb. revert k off. induction es as [|e0 es IH]; intros k off Ho Hc Hnew; cbn [app chain place_after] in *;
    pose proof (turn_bound bs k off Hb Ho) as Hto;
    destruct (turn bs k off) as [k1 off1]; destruct Hc as (He & Hle & Hc); pose proof (entry_rec _ _ _ He).
  - destruct Hnew as (_ & Hl' & Hnew & Hsum). pose proof (entry_rec _ _ _ Hnew). split; [done|]. split; [lia|].
    unfold turn. destruct (Z.leb_spec bs (off1 + de_rec l')); [lia|]. split; [done|]. split; [lia|].
    rewrite <- Hc. lia.
  - pose proof (place_after_bound bl bs size k1 (off1 + de_rec e0) es l Hb ltac:(lia) Hc) as Hpl.
    specialize (IH k1 (off1 + de_rec e0) ltac:(lia) Hc).
    destruct (place_after bs k1 (off1 + de_rec e0) es) as [k' off']. destruct Hnew as (Hkeep & Hrest).
    split; [apply Hkeep; [lia|lia|lia|lia|done]|]. split; [done|]. apply IH. split; [|done].
    intros k2 off2 e2 ????. apply Hkeep; [lia|lia|lia|lia].
Qed.

Lemma place_entry_ok n fuel this pinode nos size k off es l how :
  let bs := bsize this in
  0 <= n -> geometry this -> ready (3 * Z.of_nat (S (length es)) + n) this ->
  file_at this pinode nos ((size + bs - 1) / bs) -> (size + bs - 1) / bs <= 256 ->
  Field.get 4 pinode inode_size_field = Ret size -> size < 4294967296 ->
  0 <= k -> 0 <= off <= bs -> chain (fun j => disk this (nos j)) bs size k off (es ++ [l]) ->
  de_rec l <> entry_len (strlen (de_name l)) -> (S (length es) < fuel)%nat ->
  exists this', place_entry fuel this pinode (disk this (nos k)) k off (k * bs + off) how =
      (let '(k', off') := place_after bs k off es in
       Ret (Modify off', u32 (off' + entry_len (strlen (de_name l))), disk this (nos k'), k', this')) /\
    ready n this' /\ unchanged this this'.
Proof.
  intros bs Hn. revert this k off es how bs. induction fuel as [|fuel IH]; [lia|].
  intros this k off es how bs Hg Hr Hf Htot Esz Hsz Hk Ho Hc Hslack Hfuel.
  assert (0 < bs) as Hb by (unfold bs; by destruct Hr as [[? _] _]).
  pose proof (chain_size _ _ _ _ _ _ Hb Ho Hc) as Hbytes. rewrite length_app in Hbytes. cbn [length] in Hbytes.
  cbn [place_entry]. rewrite Esz. cbn [mbind outcome_bind]. destruct (Z.ltb_spec (k * bs + off) size); [|lia].
  pose proof (turn_position bs k off) as Ht. pose proof (turn_bound bs k off Hb Ho) as Hto.
  pose proof (next_block_ok (3 * Z.of_nat (length es) + n) this pinode nos ((size + bs - 1) / bs) k off) as Hnext. fold bs in Hnext.
  assert (forall e es', entry_at (disk this (nos (turn bs k off).1)) (turn bs k off).2 e ->
    chain (fun j => disk this (nos j)) bs size (turn bs k off).1 ((turn bs k off).2 + de_rec e) es' ->
    (turn bs k off).2 + de_rec e <= bs ->
    (turn bs k off).1 * bs + (turn bs k off).2 + de_rec e + 8 * Z.of_nat (length es') <= size /\
    u32 (k * bs + off + de_rec e) = (turn bs k off).1 * bs + ((turn bs k off).2 + de_rec e) /\
    u32 ((turn bs k off).2 + de_rec e) = (turn bs k off).2 + de_rec e) as Harith.
  { destruct (turn bs k off) as [k' off']. cbn [fst snd]. intros e es' He Hc' Hle. pose proof (entry_rec _ _ _ He).
    assert (k' * bs + (off' + de_rec e) + 8 * Z.of_nat (length es') <= size) by (apply (chain_size (fun j => disk this (nos j))); [done|lia|done]).
    rewrite !u32_small by nia. lia. }
  destruct es as [|e es]; cbn [app chain place_after length] in *; destruct (turn bs k off) as [k' off']; cbn [fst snd] in *;
    destruct Hc as (He & Hle & Hc); pose proof (entry_rec _ _ _ He) as Hrec.
  - destruct (Harith l [] He Hc Hle) as (Hlt & Eu1 & Eu2). destruct Hnext as (t1 & -> & Hr1 & HC); [lia|done|done|done|done|done|done|done|apply below_end; lia|].
    cbn [mbind outcome_bind]. pose proof He as (E1 & E2 & E3 & _). rewrite E3, E2, E1. cbn [mbind outcome_bind]. rewrite Eu1.
    destruct (Z.eqb_spec (de_rec l) (entry_len (strlen (de_name l)))); [done|]. cbn [negb andb]. simpl in Hc.
    destruct (Z.eqb_spec (k' * bs + (off' + de_rec l)) size); [|lia]. exists t1. done.
  - destruct (Harith e (es ++ [l]) He Hc Hle) as (Hlt & Eu1 & Eu2). destruct Hnext as (t1 & -> & Hr1 & HC);
      [lia|done|by replace (3 + (3 * Z.of_nat (S (length es)) + n)) with (3 * Z.of_nat (S (S (length es))) + n) by lia|done|done|done|done|done|
       apply below_end; lia|].
    cbn [mbind outcome_bind]. pose proof He as (E1 & E2 & E3 & _). rewrite E3, E2, E1. cbn [mbind outcome_bind]. rewrite Eu1, Eu2.
    rewrite length_app in Hlt. cbn [length] in Hlt. destruct (Z.eqb_spec (k' * bs + (off' + de_rec e)) size); [lia|].
    rewrite andb_false_r. pose proof HC as [[ES EB] HV]. fold bs in EB.
    assert (forall j, 0 <= j -> j * bs < size -> disk t1 (nos j) = disk this (nos j)) as Hsame.
    { intros j Hj Hjs. apply HV. by eapply file_block_usable. }
    destruct (IH t1 k' (off' + de_rec e) es (if de_ino e =? 0 then Replace else how)) as (t2 & E & Hr2 & HC2);
      rewrite ?EB; [by apply (geometry_same this)|done|by apply (file_at_unchanged this)|done|done|done|lia|lia| |done|lia|].
    { by apply (chain_unchanged this t1 pinode); [done|lia|lia|..]. }
    rewrite EB, Hsame in E by lia. rewrite E.
    pose proof (place_after_bound _ bs size k' (off' + de_rec e) es l Hb ltac:(lia) Hc) as Hpl.
    destruct (place_after bs k' (off' + de_rec e) es) as [k2 off2]. destruct Hpl as (? & ? & ? & ? & ? & Hel).
    pose proof (entry_rec _ _ _ Hel). rewrite Hsame by lia. exists t2. split; [done|]. split; [done|]. by eapply unchanged_trans.
Qed.

Lemma entry_len_bound n : 0 <= n -> n + sizeof_ext2_dir_t <= entry_len n <= n + sizeof_ext2_dir_t + 3.
Proof.
  intros Hn. unfold entry_len, truthy. set (r := n + sizeof_ext2_dir_t).
  pose proof (Z.mod_pos_bound r 4 ltac:(lia)). destruct (Z.eqb_spec (r mod 4) 0); cbn [negb]; lia.
Qed.

(** The block in which the last entry [l] at [off] is cut to its own length and
    the new entry takes the rest. *)
Lemma cut_entry_ok this block off l name ino :
  let s := entry_len (strlen (de_name l)) in
  Z.of_nat (length block) = bsize this -> bsize this <= 65536 -> entry_at block off l -> 0 <= off ->
  off + de_rec l = bsize this -> cstring_ok name -> strlen name < 256 -> 0 <= ino < 4294967296 ->
  off + s + entry_len (strlen name) < bsize this ->
  exists b1 b2, Field.put 2 block (d_rec_len off) (u16 s) = Ret b1 /\ put_entry this b1 (off + s) ino name = Ret b2 /\
    length b2 = length block /\ kept_below block b2 off /\
    entry_at b2 off (Dent (de_ino l) s (de_name l)) /\ entry_at b2 (off + s) (Dent ino (de_rec l - s) name).
Proof.
  intros s Hl Hbs He Ho Hend Hok Hlen Hino Hfit.
  assert (0 <= strlen name /\ 0 <= strlen (de_name l)) as [Hn0 Hl0] by (unfold strlen; lia).
  pose proof (entry_len_bound _ Hn0) as Hnb. pose proof (entry_len_bound _ Hl0) as Hs. fold s in Hs.
  unfold sizeof_ext2_dir_t in Hnb, Hs.
  unfold u16. rewrite Z.mod_small by lia.
  destruct (shrink_entry block off l s) as (b1 & E1 & L1 & He1 & K1); [done|done|unfold sizeof_ext2_dir_t; lia|unfold sizeof_ext2_dir_t; lia|].
  destruct (put_entry_ok this b1 (off + s) ino name) as (b2 & E2 & L2 & He2 & K2);
    [rewrite L1; done|done|lia|done|done|done|unfold sizeof_ext2_dir_t; lia|].
  exists b1, b2. split; [done|]. split; [done|]. split; [congruence|].
  split; [intros p m Hp Hm; rewrite K2 by lia; by apply K1|].
  split; [eapply entry_kept; [exact K2|done|cbn [de_rec]; lia|done]|].
  by replace (de_rec l - s) with (bsize this - (off + s)) by lia.
Qed.

(** The last block of a directory is full. *)
Lemma last_fills bs size k off r : 0 < bs -> size mod bs = 0 -> k * bs + off + r = size -> 0 < off + r <= bs -> off + r = bs.
Proof.
  intros Hb Hm E Hr. assert ((off + r) mod bs = 0) as H0.
  { rewrite <- (Z_mod_plus_full (off + r) k bs). replace (off + r + k * bs) with size by lia. done. }
  destruct (Z.eq_dec (off + r) bs); [done|]. rewrite Z.mod_small in H0 by lia. lia.
Qed.

(** The blocks of the directory once the last entry [l] is cut. *)
Lemma chain_cut this nos size es l l' e k off b2 :
  let bs := bsize this in
  0 < bs -> chain (fun j => disk this (nos j)) bs size 0 0 (es ++ [l]) -> place_after bs 0 0 es = (k, off) ->
  kept_below (disk this (nos k)) b2 off -> entry_at b2 off l' -> entry_at b2 (off + de_rec l') e ->
  de_rec l' + de_rec e = de_rec l ->
  chain (fun j => if j =? k then b2 else disk this (nos j)) bs size 0 0 (es ++ [l'; e]).
Proof.
  intros bs Hb Hc Epl Hk Hl' He Hsum. eapply chain_extend; [done|lia|exact Hc|]. rewrite Epl, Z.eqb_refl. split; [|done].
  intros k2 off2 e2 Ho2 Hlt Hle Hk2 He2. destruct (Z.eqb_spec k2 k) as [->|]; [|done].
  eapply entry_kept; [done|done|lia|done].
Qed.

(** When the last entry of the directory leaves room, [create_entry] adds the
    new name after it and changes no other block; the code it returns is
    E_NOSPACE all the same. *)
Theorem create_entry_adds this parent pinode size nos es l mode name ino :
  let s := entry_len (strlen (de_name l)) in
  inode_layout this -> geometry this -> inode_size this <= Z.of_nat (length junk) -> bsize this <= 65536 ->
  directory this parent pinode size nos (es ++ [l]) -> size mod bsize this = 0 ->
  Field.get 2 pinode inode_mode = Ret mode -> Z.land mode EXT2_S_IFDIR <> 0 ->
  cstring_ok name -> strlen name < 256 -> 0 <= ino < 4294967296 -> de_rec l <> s ->
  ready (10 + 3 * Z.of_nat (length es)) this ->
  let '(k, off) := place_after (bsize this) 0 0 es in
  off + s + entry_len (strlen name) < bsize this ->
  data_apart this pinode nos ((size + bsize this - 1) / bsize this) k ->
  (forall no at_, located this parent no at_ -> no <> nos k) ->
  exists this', create_entry this parent name ino = Ret (E_NOSPACE, this') /\
    directory this' parent pinode size nos (es ++ [Dent (de_ino l) s (de_name l); Dent ino (de_rec l - s) name]) /\
    forall no, usable this no -> no <> nos k -> disk this' no = disk this no.
Proof.
  intros s Hlay Hg Hj Hbs Hdir Hmod Emode Hdirm Hok Hlen Hino Hslack Hr.
  assert (0 < bsize this) as Hb by (by destruct Hr as [[? _] _]).
  pose proof Hdir as ((_ & Esz & Hf) & Hsz & Htot & Hc).
  pose proof (place_after_bound _ _ _ 0 0 es l Hb ltac:(lia) Hc) as Hpl.
  pose proof (chain_size _ _ _ _ _ _ Hb (conj (Z.le_refl 0) (Z.lt_le_incl _ _ Hb)) Hc) as Hbytes.
  rewrite length_app in Hbytes. cbn [length] in Hbytes.
  destruct (open_dir_ok (3 * Z.of_nat (S (length es)) + 3) this parent pinode size nos (es ++ [l])) as (t1 & t2 & E1 & E2 & Hr2 & HC2);
    [lia|done|done|done|done|by apply (ready_le (10 + 3 * Z.of_nat (length es))); [lia|]|].
  unfold create_entry. rewrite E1. cbn [mbind outcome_bind]. rewrite Emode. cbn [mbind outcome_bind].
  destruct (Z.eqb_spec (Z.land mode EXT2_S_IFDIR) 0); [done|]. rewrite E2. cbn [mbind outcome_bind]. rewrite Esz.
  cbn [mbind outcome_bind]. pose proof HC2 as [[ES2 EB2] HV2].
  assert (forall j, 0 <= j -> j * bsize this < size -> disk t2 (nos j) = disk this (nos j)) as Hsame.
  { intros j Hj0 Hjs. apply HV2. by eapply file_block_usable. }
  destruct (place_entry_ok 3 (S (Z.to_nat size)) t2 pinode nos size 0 0 es l Nowhere) as (t3 & E3 & Hr3 & HC3);
    rewrite ?EB2; [lia|by apply (geometry_same this)|done|by apply (file_at_unchanged this)|done|done|lia|lia|lia| |done|lia|].
  { by apply (chain_unchanged this t2 pinode); [done|lia|lia|..]. }
  rewrite EB2, Hsame in E3 by lia. change (0 * bsize this + 0) with 0 in E3. rewrite E3.
  destruct (place_after (bsize this) 0 0 es) as [k off] eqn:Epl. destruct Hpl as (Hk & Ho & _ & Hle & Hend & Hel).
  intros Hfit Hap Hloc. cbn [mbind outcome_bind]. pose proof (entry_rec _ _ _ Hel). rewrite Hsame by lia.
  pose proof (last_fills _ _ _ _ _ Hb Hmod Hend ltac:(lia)) as Hfull.
  pose proof (unchanged_trans _ _ _ HC2 HC3) as HC. pose proof (proj2 (proj1 HC)) as EB.
  assert (0 <= strlen name /\ 0 <= strlen (de_name l)) as [Hn0 Hl0] by (unfold strlen; lia).
  pose proof (entry_len_bound _ Hn0) as Hnb. pose proof (entry_len_bound _ Hl0) as Hs. fold s in Hs |- *.
  unfold sizeof_ext2_dir_t in Hnb, Hs. rewrite EB, (u32_small (off + s)), (u32_small (entry_len (strlen name))), (u32_small (off + s + entry_len (strlen name))) by lia.
  destruct (Z.leb_spec (bsize this) (off + s + entry_len (strlen name))); [lia|].
  pose proof Hel as (_ & _ & -> & _). cbn [mbind outcome_bind]. fold s.
  pose proof (cut_entry_ok t3 (disk this (nos k)) off l name ino) as Hcut. cbv zeta in Hcut. fold s in Hcut.
  destruct Hcut as (b1 & b2 & E4 & E5 & Hb2 & Hkeep & He1 & He2); rewrite ?EB; [by apply (length_disk _ _ _ Hr)|done|done|lia|done|done|done|done|done|].
  rewrite E4. cbn [mbind outcome_bind]. rewrite E5. cbn [mbind outcome_bind].
  assert (k < (size + bsize this - 1) / bsize this) as Hkn by (apply below_end; lia).
  pose proof (file_at_unchanged _ _ _ _ _ HC Hf) as (Hl3 & Ha3 & Hh3).
  destruct (inode_write_block_ok 0 t3 pinode parent k (nos k) b2) as (t4 & -> & Hr4 & HW);
    [lia|lia|by apply (geometry_same this); [by destruct HC|]|done|done| |apply Hh3; lia|
     rewrite Hb2, EB; by apply (length_disk _ _ _ Hr)|].
  { destruct Ha3 as (Hb5 & c & Ec & Hca). split; [done|]. exists c. split; [done|lia]. }
  cbn [mbind outcome_bind]. exists t4. split; [done|].
  eapply directory_rewritten; [done|exact Hdir|by eapply rewritten_unchanged|done|done|].
  eapply chain_cut; [done|exact Hc|done|done|exact He1|exact He2|cbn [de_rec]; lia].
Qed.

End Driver.
(** ** Witnesses *)

(** A device with blocks of 1024 bytes and a superblock that can be mounted.
    Inodes of 128 bytes start at block 5: inode 2 is the root directory, in block
    7, with the entries [.] and [a]; inode 3, the file [a], has 1500 bytes in the
    blocks 8 and 9. *)
Definition demo_bytes : list (Z * Z) :=
  [(1028, 16); (1056, 8); (1080, 0x53); (1081, 0xEF);
   (5249, 0x40); (5253, 4); (5276, 2); (5288, 7);
   (5377, 0x80); (5380, 0xDC); (5381, 5); (5404, 4); (5416, 8); (5420, 9);
   (7168, 2); (7172, 12); (7174, 1); (7176, 46);
   (7180, 3); (7184, 0xF4); (7185, 3); (7186, 1); (7188, 97)].
Definition demo_disk : device :=
  fun a => if 8192 <=? a then a mod 251
           else match List.find (fun '(i, _) => i =? a) demo_bytes with Some (_, b) => b | None => 0 end.
Definition demo_ext2 : ext2_fs_t :=
  Build_fs (Build_blocks demo_disk 1024 0 None) [] ([0; 0; 0; 0; 0; 0; 0; 0; 5] ++ replicate 55 0) 256 8 1 1 2 128.
Definition demo_junk : list Z := replicate 1024 0.
Definition demo_entries : list dent := [Dent 2 12 [46]; Dent 3 1012 [97]].
Definition demo_root : list Z := dev_read demo_disk 5248 128.
Definition demo_a : list Z := dev_read demo_disk 5376 128.

Lemma demo_ext2_ready n : 0 <= n < 1000000 -> ready n demo_ext2.
Proof. intros Hn. split; [by split|]. simpl. unfold UINT32_MAX. lia. Qed.

Lemma demo_ext2_layout : inode_layout demo_ext2 /\ geometry demo_ext2.
Proof. vm_compute. done. Qed.

Lemma demo_located i at_ : i = at_ + 1 -> 1 <= i < 8 -> at_ < 8 -> located demo_ext2 i 5 at_.
Proof.
  intros -> Hi Ha. assert ((at_ + 1) mod 8 = at_ + 1 /\ (at_ + 1) / 8 = 0) as [Em Ed].
  { split; [apply Z.mod_small; lia|apply Z.div_small; lia]. }
  unfold located. change (inodes_per_group demo_ext2) with 8. change (block_group_count demo_ext2) with 1.
  change (bsize demo_ext2 / inode_size demo_ext2) with 8. rewrite Em, Ed. replace (at_ + 1 - 1) with at_ by lia.
  rewrite Z.mod_small, Z.div_small by lia. split; [lia|]. split; [lia|]. split; [lia|]. split; [by exists 5|].
  split; [done|]. done.
Qed.

Lemma demo_holds inode k no :
  0 <= k < 12 -> Field.get 4 inode (inode_block k) = Ret no -> usable demo_ext2 no -> holds demo_ext2 inode k no.
Proof.
  intros Hk Hg Hu. exists (In_inode k). split; [|by split]. split; [simpl; unfold EXT2_DIRECT_BLOCKS; lia|].
  unfold slot, EXT2_DIRECT_BLOCKS. destruct (Z.ltb_spec k 12); [|lia]. split; [done|]. split; [done|].
  change (pointers_per_block demo_ext2) with 256. lia.
Qed.

Lemma demo_directory : directory demo_ext2 2 demo_root 1024 (fun _ => 7) demo_entries.
Proof.
  split; [|split; [lia|split; [done|]]].
  - split; [exists 5, 1; split; [apply demo_located; lia|by vm_compute]|]. split; [by vm_compute|].
    split; [vm_compute; lia|]. split; [split; [done|]; exists 2; by vm_compute|]. intros k Hk.
    change ((1024 + bsize demo_ext2 - 1) / bsize demo_ext2) with 1 in Hk. assert (k = 0) as -> by lia.
    apply demo_holds; [lia|by vm_compute|done].
  - assert (forall c, 0 < c < 256 -> cstring_ok [c]) as Hok by (intros; by constructor; [|constructor]).
    simpl. split; [|split; [done|split; [|done]]]; (do 4 (split; [by vm_compute|]); split; [apply Hok; lia|by vm_compute]).
Qed.

Lemma cstring_a : cstring_ok [97].
Proof. by constructor; [|constructor]. Qed.

Lemma load_ext2_ready_witness :
  exists this, load_ext2 demo_junk demo_disk 0 = Ret (Some this) /\ ready 1000 this /\ geometry this /\
    bsize this = 1024 /\ block_group_count this = 2 /\
    block_groups this = dev_read demo_disk (bgd_offset this * 1024) ((32 * 2 / 1024 + 1) * 1024) /\
    forall no, usable this no -> disk this no = dev_read demo_disk (no * 1024) 1024.
Proof.
  apply (load_ext2_ready demo_junk demo_disk 0 0 16 8 1000); [|lia].
  do 2 (split; [by vm_compute|]). split; [lia|]. split; [by vm_compute|]. split; [lia|]. split; [by vm_compute|]. done.
Defined.

Lemma finddir_ext2_finds_witness :
  exists nd this', finddir_ext2 demo_junk demo_ext2 2 [97] = Ret (Some nd, this') /\
    fn_inode nd = 3 /\ fn_name nd = [97] /\ unchanged demo_ext2 this'.
Proof.
  destruct demo_ext2_layout as [Hl Hg].
  apply (finddir_ext2_finds demo_junk demo_ext2 2 demo_root 1024 (fun _ => 7) demo_entries [97] Hl Hg)
    with (no := 5) (at_ := 2);
    [by vm_compute|exact demo_directory|exact cstring_a|apply demo_ext2_ready; simpl; lia|apply demo_located; simpl; lia].
Defined.

Lemma demo_apart : data_apart demo_ext2 demo_root (fun _ => 7) ((1024 + bsize demo_ext2 - 1) / bsize demo_ext2) 0.
Proof.
  change ((1024 + bsize demo_ext2 - 1) / bsize demo_ext2) with 1. split; [|split].
  - intros j no i Hj (_ & Hs & _). assert (j = 0) as -> by lia. discriminate Hs.
  - vm_compute. congruence.
  - intros j Hj Hne. simpl in Hne. lia.
Qed.

Lemma demo_inode_apart no at_ : located demo_ext2 2 no at_ -> no <> 7.
Proof.
  intros (_ & _ & _ & (t & Ht & ->) & _). simpl in Ht. vm_compute in Ht. injection Ht as <-. vm_compute. congruence.
Qed.

Lemma unlink_ext2_removes_witness :
  exists this', unlink_ext2 demo_junk id demo_ext2 2 [97] = Ret this' /\
    directory this' 2 demo_root 1024 (fun _ => 7) [Dent 2 12 [46]; Dent 0 1012 [97]] /\
    disk this' 7 = take 12 (disk demo_ext2 7) ++ [0; 0; 0; 0] ++ drop 16 (disk demo_ext2 7) /\
    forall no, usable demo_ext2 no -> no <> 7 -> disk this' no = disk demo_ext2 no.
Proof.
  destruct demo_ext2_layout as [Hl Hg].
  apply (unlink_ext2_removes demo_junk id demo_ext2 2 demo_root 1024 (fun _ => 7) demo_entries [97] Hl Hg);
    [by vm_compute|exact demo_directory|exact cstring_a|apply demo_ext2_ready; simpl; lia|reflexivity|exact demo_apart|exact demo_inode_apart].
Defined.

Lemma create_entry_adds_witness :
  exists this', create_entry demo_junk demo_ext2 2 [98] 4 = Ret (E_NOSPACE, this') /\
    directory this' 2 demo_root 1024 (fun _ => 7) [Dent 2 12 [46]; Dent 3 12 [97]; Dent 4 1000 [98]] /\
    forall no, usable demo_ext2 no -> no <> 7 -> disk this' no = disk demo_ext2 no.
Proof.
  destruct demo_ext2_layout as [Hl Hg].
  apply (create_entry_adds demo_junk demo_ext2 2 demo_root 1024 (fun _ => 7) [Dent 2 12 [46]] (Dent 3 1012 [97]) 0x4000 [98] 4 Hl Hg);
    [by vm_compute|by vm_compute|exact demo_directory|done|by vm_compute|by vm_compute|by constructor; [|constructor]|
     by vm_compute|lia|by vm_compute|apply demo_ext2_ready; simpl; lia|by vm_compute|apply demo_apart|apply demo_inode_apart].
Defined.

Lemma demo_file : file_inode demo_ext2 3 demo_a 1500 (fun k => 8 + k).
Proof.
  split; [exists 5, 2; split; [apply demo_located; lia|by vm_compute]|]. split; [by vm_compute|].
  split; [vm_compute; lia|]. split; [split; [done|]; exists 4; by vm_compute|]. intros k Hk.
  change ((1500 + bsize demo_ext2 - 1) / bsize demo_ext2) with 2 in Hk.
  assert (k = 0 \/ k = 1) as [-> | ->] by lia; apply demo_holds; done || lia.
Qed.

Lemma read_ext2_correct_witness :
  exists buffer' this', read_ext2 demo_junk demo_ext2 3 1000 100 (replicate 100 0) = Ret (100, buffer', this') /\
    unchanged demo_ext2 this' /\
    fetched (file_byte demo_ext2 (fun k => 8 + k)) (replicate 100 0) buffer' 1000 1000 1100.
Proof.
  destruct demo_ext2_layout as [Hl Hg].
  apply (read_ext2_correct demo_junk demo_ext2 3 demo_a 1500 (fun k => 8 + k) 1000 100 (replicate 100 0) Hl Hg);
    [by vm_compute|exact demo_file|apply demo_ext2_ready; vm_compute; split; congruence|lia|vm_compute; split; congruence|lia|lia].
Defined.

End Ext2Files.
