(* ===== verification/Ext2Write.v ===== *)
(** * Overwriting a file of [kernel/src/ext2.c]

    [write_ext2] on a range that lies inside a file all of whose blocks are
    allocated: the bytes of the range become those of the caller's buffer, the
    other bytes of the file and the other blocks of the disk are kept. *)

From stdpp Require Import base numbers list.
From S2P Require Import Prelude CString Ext2Cache Ext2 Ext2Files.

Module Ext2Write.
Import Ext2Cache Ext2 Ext2Files.

Section Overwrite.
Context (junk : list Z).

Lemma same_fields_trans t1 t2 t3 : same_fields t1 t2 -> same_fields t2 t3 -> same_fields t1 t3.
Proof. intros [E1 B1] [E2 B2]. split; [rewrite E2, E1; by destruct t1|congruence]. Qed.

(** A file whose [total] blocks are apart from one another and from the tables
    that hold their numbers. *)
Definition writable (this : ext2_fs_t) (inode : list Z) (nos : Z -> Z) (total : Z) : Prop :=
  file_at this inode nos total /\ forall k, 0 <= k < total -> data_apart this inode nos total k.

(** From [this] to [this'] the bytes [lo] to [hi] of the file became those of the
    buffer, whose first byte is for byte [offset] of the file. *)
Definition overwritten (this this' : ext2_fs_t) (nos : Z -> Z) (total offset : Z) (buffer : list Z) (lo hi : Z) : Prop :=
  same_fields this this' /\
  (forall i, 0 <= i < total * bsize this -> file_byte this' nos i =
    if (lo <=? i) && (i <? hi) then buffer !! Z.to_nat (i - offset) else file_byte this nos i) /\
  (forall no, usable this no -> (forall k, 0 <= k < total -> no <> nos k) -> disk this' no = disk this no).

Lemma overwritten_trans this t1 t2 nos total offset buffer lo mid hi :
  lo <= mid <= hi -> overwritten this t1 nos total offset buffer lo mid ->
  overwritten t1 t2 nos total offset buffer mid hi -> overwritten this t2 nos total offset buffer lo hi.
Proof.
  intros Hm (S1 & G1 & V1) (S2 & G2 & V2). pose proof (proj2 S1) as EB. split; [by eapply same_fields_trans|]. split.
  - intros i Hi. rewrite G2 by (by rewrite EB). rewrite G1 by done.
    destruct (Z.leb_spec mid i), (Z.ltb_spec i hi), (Z.leb_spec lo i), (Z.ltb_spec i mid); simpl; done || lia.
  - intros no Hno Hne. rewrite V2; [by apply V1|by apply (usable_same this)|done].
Qed.

Lemma overwritten_nothing this nos total offset buffer lo : overwritten this this nos total offset buffer lo lo.
Proof.
  split; [split; [by destruct this|done]|]. split; [|done]. intros i _.
  destruct (Z.leb_spec lo i), (Z.ltb_spec i lo); cbn [andb]; done || lia.
Qed.

(** The blocks stay apart when one of them is written. *)
Lemma writable_rewritten this this' inode nos total k b :
  0 <= k < total -> writable this inode nos total -> rewritten this this' (nos k) b -> writable this' inode nos total.
Proof.
  intros Hk [Hf Ha] HW. pose proof (Ha k Hk) as (_ & Hroot & _). pose proof HW as [HS HV].
  split; [by eapply file_at_rewritten; [|apply Ha|]|]. intros j Hj. destruct (Ha j Hj) as (Ht & Hr & Hd).
  split; [|done]. intros j' no i Hj' Hm. apply (Ht j' no i Hj').
  assert (same_fields this' this) as HS'.
  { destruct HS as [E B]. split; [|done]. rewrite E. by destruct this. }
  apply (mapped_transfer this' this inode inode); [done|done|done|]. intros root Er Hu.
  rewrite HV by (by apply (usable_same this')). by destruct (Z.eqb_spec root (nos k)) as [->|].
Qed.

(** What one block written again means for the bytes of the file. *)
Lemma overwritten_block n this this' inode nos total offset buffer k pos m src b :
  let bs := bsize this in
  ready n this -> 0 <= k < total -> writable this inode nos total -> rewritten this this' (nos k) b ->
  0 <= pos -> 0 <= m -> pos + m <= bs -> 0 <= src -> src + m <= Z.of_nat (length buffer) -> k * bs + pos = offset + src ->
  (forall p, 0 <= p -> b !! Z.to_nat p = if (pos <=? p) && (p <? pos + m) then buffer !! Z.to_nat (src + (p - pos))
                                         else disk this (nos k) !! Z.to_nat p) ->
  overwritten this this' nos total offset buffer (offset + src) (offset + src + m).
Proof.
  intros bs Hr Hk [(_ & _ & Hh) Ha] [HS HV] Hp Hm Hpm Hs Hsm Hpos Hb.
  assert (0 < bs) as Hbs by (unfold bs; by destruct Hr as [[? _] _]).
  split; [done|]. split; [|intros no Hno Hne; rewrite HV by done; destruct (Z.eqb_spec no (nos k)); [by destruct (Hne k)|done]].
  intros i Hi. unfold file_byte. rewrite (proj2 HS). fold bs. destruct (position bs i Hbs) as [Hq Hmod].
  set (j := i / bs) in *. assert (0 <= j < total) as Hj by (split; [apply Z.div_pos; lia|apply Z.div_lt_upper_bound; lia]).
  rewrite HV by (by destruct (Hh j Hj) as (_ & _ & _ & Hu)). destruct (Z.eqb_spec (nos j) (nos k)) as [E|Hne].
  - assert (j = k) as -> by (destruct (Z.eq_dec j k) as [|Hjk]; [done|by destruct (Ha k Hk) as (_ & _ & Hd), (Hd j Hj Hjk)]).
    rewrite Hb by lia. rewrite Hmod.
    destruct (Z.leb_spec pos (i - k * bs)), (Z.ltb_spec (i - k * bs) (pos + m)), (Z.leb_spec (offset + src) i),
      (Z.ltb_spec i (offset + src + m)); cbn [andb]; try lia; try done. f_equal. lia.
  - assert (j <> k) as Hjk by congruence.
    assert ((j + 1) * bs <= k * bs \/ (k + 1) * bs <= j * bs) as [|].
    { destruct (Z.lt_ge_cases j k); [left|right]; apply Z.mul_le_mono_nonneg_r; lia. }
    + destruct (Z.leb_spec (offset + src) i); [lia|]. done.
    + destruct (Z.leb_spec (offset + src) i), (Z.ltb_spec i (offset + src + m)); cbn [andb]; done || lia.
Qed.

Lemma write_part_ok n this inode ino nos total offset buf buffer k pos m src :
  let bs := bsize this in
  0 <= n -> geometry this -> ready (6 + n) this -> 0 <= k < total -> writable this inode nos total ->
  0 <= pos -> 0 <= m -> pos + m <= bs -> 0 <= src -> src + m <= Z.of_nat (length buffer) -> k * bs + pos = offset + src ->
  exists buf' this', write_part junk this inode ino k pos m src buf buffer = Ret (nos k, inode, buf', this') /\
    ready n this' /\ writable this' inode nos total /\
    overwritten this this' nos total offset buffer (offset + src) (offset + src + m).
Proof.
  intros bs Hn Hg Hr Hk Hw Hp Hm Hpm Hs Hsm Hpos. pose proof Hw as [Hf _]. pose proof Hf as (Hl & Ha & Hh). unfold write_part.
  assert (forall t, bsize t = bs -> allocated t inode (k + 1)) as Hall.
  { intros t Et. destruct Ha as (Hb5 & c & Ec & Hc). unfold allocated. rewrite Et. split; [done|]. exists c. split; [done|fold bs in Hc; lia]. }
  destruct (inode_read_block_ok junk (3 + n) this inode k (nos k) buf) as (t1 & -> & Hr1 & HC);
    [lia|done|by replace (3 + (3 + n)) with (6 + n) by lia|done|by apply Hall|by apply Hh|].
  cbn [mbind outcome_bind]. pose proof (length_disk _ _ (nos k) Hr) as Hlen. fold bs in Hlen.
  destruct (mem_read_ok buffer src m) as (bytes & -> & Hbl & Hbytes); [done|done|done|]. cbn [mbind outcome_bind].
  destruct (mem_write_ok (disk this (nos k)) pos bytes) as (b & -> & Hlb & Hb); [done|lia|]. cbn [mbind outcome_bind].
  pose proof (file_at_unchanged _ _ _ _ _ HC Hf) as (_ & _ & Hh1). pose proof (proj2 (proj1 HC)) as EB. fold bs in EB.
  destruct (inode_write_block_ok junk n t1 inode ino k (nos k) b) as (t2 & -> & Hr2 & HW);
    [lia|lia|by apply (geometry_same this); [by destruct HC|]|done|done|by apply Hall|by apply Hh1|lia|].
  cbn [mbind outcome_bind]. exists b, t2. split; [done|]. split; [done|].
  pose proof (rewritten_unchanged _ _ _ _ _ HC HW) as HWt. split; [by eapply writable_rewritten|].
  apply (overwritten_block (6 + n) this t2 inode nos total offset buffer k pos m src b); [done..|]. intros p Hp0. rewrite Hb by done. rewrite Hbl.
  destruct (Z.leb_spec pos p), (Z.ltb_spec p (pos + m)); cbn [andb]; try done. apply Hbytes. lia.
Qed.

(** The loop over the whole blocks, from block [b] on. *)
Lemma write_span_ok n this inode ino nos total offset todo b buf buffer :
  let bs := bsize this in
  let start := offset / bs in
  0 <= n -> geometry this -> ready (6 * Z.of_nat todo + n) this -> writable this inode nos total ->
  0 <= offset -> start <= b -> (start < b \/ (0 < todo)%nat) -> b + Z.of_nat todo <= total ->
  (b + Z.of_nat todo) * bs < 4294967296 ->
  (b + Z.of_nat todo) * bs - offset <= Z.of_nat (length buffer) ->
  exists buf' this', write_span junk this inode ino offset start todo b (b - start) buf buffer = Ret (inode, buf', this') /\
    ready n this' /\ writable this' inode nos total /\
    overwritten this this' nos total offset buffer (Z.max offset (b * bs)) ((b + Z.of_nat todo) * bs).
Proof.
  intros bs start Hn. revert this b buf bs start.
  induction todo as [|todo IH]; intros this b buf bs start Hg Hr Hw Ho Hsb Hor Htot Hlim Hlen; cbn [write_span].
  { assert (0 < bs) as Hb by (unfold bs; by destruct Hr as [[? _] _]). destruct (position bs offset Hb) as [Hso _]. fold start in Hso.
    exists buf, this. split; [done|]. split; [done|]. split; [done|].
    replace (Z.max offset (b * bs)) with ((b + Z.of_nat 0) * bs) by nia. apply overwritten_nothing. }
  assert (0 < bs) as Hb by (unfold bs; by destruct Hr as [[? _] _]).
  assert (0 <= start) as Hst by (apply Z.div_pos; lia). destruct (position bs offset Hb) as [Hso Hmod]. fold start in Hso, Hmod.
  assert (exists buf1 t1,
    (if b =? start then write_part junk this inode ino b (offset mod bsize this) (bsize this - offset mod bsize this) 0 buf buffer
     else write_part junk this inode ino b 0 (bsize this) (span_pos this (b - start) offset) buf buffer) = Ret (nos b, inode, buf1, t1) /\
    ready (6 * Z.of_nat todo + n) t1 /\ writable t1 inode nos total /\
    overwritten this t1 nos total offset buffer (Z.max offset (b * bs)) ((b + 1) * bs)) as (buf1 & t1 & -> & Hr1 & Hw1 & G1).
  { fold bs. destruct (Z.eqb_spec b start) as [E|Hne].
    - destruct (write_part_ok (6 * Z.of_nat todo + n) this inode ino nos total offset buf buffer b (offset mod bs) (bs - offset mod bs) 0)
        as (buf1 & t1 & E1 & Hr1 & Hw1 & G);
        [lia|done|by replace (6 + (6 * Z.of_nat todo + n)) with (6 * Z.of_nat (S todo) + n) by lia|lia|done|lia|lia|fold bs; lia|lia|nia|fold bs; nia|].
      exists buf1, t1. split; [done|]. split; [done|]. split; [done|].
      replace (Z.max offset (b * bs)) with (offset + 0) by nia.
      by replace ((b + 1) * bs) with (offset + 0 + (bs - offset mod bs)) by nia.
    - assert ((start + 1) * bs <= b * bs) by (apply Z.mul_le_mono_nonneg_r; lia).
      rewrite span_pos_eq by (done || fold bs; nia). fold bs.
      destruct (write_part_ok (6 * Z.of_nat todo + n) this inode ino nos total offset buf buffer b 0 bs (b * bs - offset))
        as (buf1 & t1 & E1 & Hr1 & Hw1 & G);
        [lia|done|by replace (6 + (6 * Z.of_nat todo + n)) with (6 * Z.of_nat (S todo) + n) by lia|lia|done|lia|lia|fold bs; lia|nia|nia|fold bs; lia|].
      exists buf1, t1. split; [done|]. split; [done|]. split; [done|].
      replace (Z.max offset (b * bs)) with (offset + (b * bs - offset)) by lia.
      by replace ((b + 1) * bs) with (offset + (b * bs - offset) + bs) by lia. }
  cbn [mbind outcome_bind]. pose proof (proj1 G1) as HS. pose proof (proj2 HS) as EB. fold bs in EB.
  assert (nos b <> 0) as Hnz by (destruct Hw as [(_ & _ & Hh) _]; destruct (Hh b) as (_ & _ & _ & [? _]); lia).
  destruct (Z.eqb_spec (nos b) 0); [done|]. cbn [mbind outcome_bind]. replace (b - start + 1) with (b + 1 - start) by lia.
  destruct (IH t1 (b + 1) buf1) as (buf2 & t2 & E2 & Hr2 & Hw2 & G2); rewrite ?EB; fold start;
    [by apply (geometry_same this)|done|done|done|lia|left; lia|lia|lia|lia|].
  rewrite EB in E2, G2. fold start in E2. rewrite E2. exists buf2, t2. split; [done|]. split; [done|]. split; [done|].
  replace (b + 1 + Z.of_nat todo) with (b + Z.of_nat (S todo)) in G2 by lia. assert (offset <= (b + 1) * bs) by nia.
  replace (Z.max offset ((b + 1) * bs)) with ((b + 1) * bs) in G2 by lia.
  eapply overwritten_trans; [|exact G1|exact G2]. nia.
Qed.

Section Range.
Context (n : Z) (this : ext2_fs_t) (inode : list Z) (ino : Z) (nos : Z -> Z) (sz offset size : Z) (buffer : list Z).
Let bs := bsize this.
Let total := (sz + bs - 1) / bs.
Let e := offset + size.
Let sb := offset / bs.
Let eb := e / bs.
Hypothesis Hn : 0 <= n.
Hypothesis Hg : geometry this.
Hypothesis Hr : ready (6 + 6 * (sz / bs) + n) this.
Hypothesis Hw : writable this inode nos total.
Hypothesis Esz : Field.get 4 inode inode_size_field = Ret sz.
Hypothesis Hoff : 0 <= offset.
Hypothesis Hsize : 0 < size <= Z.of_nat (length buffer).
Hypothesis Hend : e <= sz < 4294967296.

Local Lemma overwrite_facts :
  0 < bs /\ sb * bs <= offset < sb * bs + bs /\ offset mod bs = offset - sb * bs /\
  eb * bs <= e < eb * bs + bs /\ 0 <= sb <= eb /\ 0 <= eb * bs /\ eb <= sz / bs.
Proof using Hr Hoff Hsize Hend.
  assert (0 < bs) as Hb by (unfold bs; by destruct Hr as [[? _] _]).
  destruct (position bs offset Hb) as [P1 P2]. destruct (position bs e Hb) as [P3 _]. fold sb in P1, P2. fold eb in P3.
  assert (0 <= sb <= eb) by (split; [apply Z.div_pos; lia|apply Z.div_le_mono; lia]).
  assert (eb <= sz / bs) by (apply Z.div_le_mono; lia).
  assert (0 <= eb * bs) by (apply Z.mul_nonneg_nonneg; lia). auto 10 with lia.
Qed.

Definition range_written : Prop :=
  exists this', write_inode_buffer junk this inode ino offset size buffer = Ret (size, inode, this') /\
    ready n this' /\ writable this' inode nos total /\ overwritten this this' nos total offset buffer offset e.

(** The part before the two cases. *)
Local Lemma overwrite_start :
  write_inode_buffer junk this inode ino offset size buffer =
    (if sb =? eb then
       '(_, inode, _, this) ← write_part junk this inode ino sb (offset mod bs) size 0 junk buffer;
       Ret (size, inode, this)
     else
       '(inode, buf, this) ← write_span junk this inode ino offset sb (Z.to_nat (eb - sb)) sb 0 junk buffer;
       '(inode, this) ← (if truthy (e - eb * bs) then
                           '(_, inode, _, this) ← write_part junk this inode ino eb 0 (e - eb * bs)
                                                    (span_pos this (eb - sb) offset) buf buffer;
                           Ret (inode, this)
                         else Ret (inode, this));
       Ret (size, inode, this)).
Proof using Hr Esz Hoff Hsize Hend.
  destruct overwrite_facts as (Hb & Hso & Hsm & He & Hord & He0 & Hq). unfold write_inode_buffer. fold e.
  rewrite (u32_small e) by lia. rewrite Esz. cbn [mbind outcome_bind]. destruct (Z.ltb_spec sz e); [lia|].
  cbn [mbind outcome_bind]. fold bs sb eb. destruct (Z.eqb_spec bs 0); [lia|].
  rewrite (u32_small (e - offset)), (u32_small (e - eb * bs)) by lia. rewrite Z.max_r by lia.
  replace (e - offset) with size by lia. done.
Qed.

Local Lemma overwrite_one : sb = eb -> range_written.
Proof using Hn Hg Hr Hw Esz Hoff Hsize Hend.
  intros E. unfold range_written. rewrite overwrite_start, E, Z.eqb_refl, <- E.
  destruct overwrite_facts as (Hb & Hso & Hsm & He & Hord & He0 & Hq).
  destruct (write_part_ok (6 * (sz / bs) + n) this inode ino nos total offset junk buffer sb (offset mod bs) size 0)
    as (buf & t1 & -> & Hr1 & Hw1 & G);
    [lia|done|by rewrite Z.add_assoc|split; [lia|apply below_end; lia]|done|lia|lia|fold bs; lia|lia|lia|fold bs; lia|].
  cbn [mbind outcome_bind]. exists t1. split; [done|]. split; [apply (ready_le (6 * (sz / bs) + n)); [lia|done]|]. split; [done|].
  rewrite Z.add_0_r in G. exact G.
Qed.

Local Lemma overwrite_many : sb <> eb -> range_written.
Proof using Hn Hg Hr Hw Esz Hoff Hsize Hend.
  intros Hne. unfold range_written. rewrite overwrite_start. destruct (Z.eqb_spec sb eb); [done|].
  destruct overwrite_facts as (Hb & Hso & Hsm & He & Hord & He0 & Hq). set (q := sz / bs) in *.
  assert ((sb + 1) * bs <= eb * bs) by (apply Z.mul_le_mono_nonneg_r; lia).
  assert (sb + Z.of_nat (Z.to_nat (eb - sb)) = eb) as Etodo by lia.
  assert (eb - 1 < total) as Htot by (apply below_end; lia).
  destruct (write_span_ok (6 + n) this inode ino nos total offset (Z.to_nat (eb - sb)) sb junk buffer)
    as (buf & t1 & E1 & Hr1 & Hw1 & G1);
    [lia|done|apply (ready_le (6 + 6 * q + n)); [lia|done]|done|lia|fold bs sb; lia|right; lia|lia|
     rewrite Etodo; fold bs; lia|rewrite Etodo; fold bs; lia|].
  fold bs in E1, G1. fold sb in E1. rewrite Z.sub_diag in E1. rewrite Etodo in G1.
  replace (Z.max offset (sb * bs)) with offset in G1 by lia. rewrite E1. cbn [mbind outcome_bind]. unfold truthy.
  destruct (Z.eqb_spec (e - eb * bs) 0) as [E0|E0]; cbn [negb mbind outcome_bind].
  { exists t1. split; [done|]. split; [by apply (ready_le (6 + n)); [lia|]|]. split; [done|]. by replace e with (eb * bs) by lia. }
  pose proof (proj2 (proj1 G1)) as EB. fold bs in EB. unfold span_pos. rewrite EB.
  replace (bs * (eb - sb) - offset mod bs) with (eb * bs - offset) by lia. rewrite u32_small by lia.
  destruct (write_part_ok n t1 inode ino nos total offset buf buffer eb 0 (e - eb * bs) (eb * bs - offset))
    as (buf2 & t2 & -> & Hr2 & Hw2 & G2);
    [lia|by apply (geometry_same this); [by destruct G1|]|done|split; [lia|apply below_end; lia]|done|lia|lia|rewrite EB; lia|lia|lia|
     rewrite EB; lia|].
  cbn [mbind outcome_bind]. exists t2. split; [done|]. split; [done|]. split; [done|].
  replace (offset + (eb * bs - offset)) with (eb * bs) in G2 by lia.
  replace (eb * bs + (e - eb * bs)) with e in G2 by lia.
  by apply (overwritten_trans this t1 t2 nos total offset buffer offset (eb * bs) e); [lia|..].
Qed.

Lemma write_inode_buffer_ok : range_written.
Proof using Hn Hg Hr Hw Esz Hoff Hsize Hend. destruct (Z.eq_dec sb eb); [by apply overwrite_one|by apply overwrite_many]. Qed.

End Range.

(** What the bytes of a file depend on. *)
Lemma overwritten_unchanged this t1 t2 inode nos total offset buffer lo hi :
  0 < bsize this -> file_at this inode nos total -> unchanged this t1 ->
  overwritten t1 t2 nos total offset buffer lo hi -> overwritten this t2 nos total offset buffer lo hi.
Proof.
  intros Hb Hf HC (S2 & G2 & V2). pose proof HC as [S1 V1]. split; [by eapply same_fields_trans|]. split.
  - intros i Hi. rewrite G2 by (by rewrite (proj2 S1)). destruct ((lo <=? i) && (i <? hi)); [done|].
    by apply (file_byte_unchanged this t1 inode nos total).
  - intros no Hno Hne. rewrite V2; [by apply V1|by apply (usable_same this)|done].
Qed.

Lemma writable_unchanged this t1 inode nos total :
  unchanged this t1 -> writable this inode nos total -> writable t1 inode nos total.
Proof.
  intros HC [Hf Ha]. pose proof HC as [HS HV]. split; [by apply (file_at_unchanged this)|]. intros j Hj.
  destruct (Ha j Hj) as (Ht & Hroot & Hd). split; [|done]. intros j' no i Hj' Hm. apply (Ht j' no i Hj').
  assert (same_fields t1 this) as HS' by (destruct HS as [E B]; split; [rewrite E; by destruct this|done]).
  apply (mapped_transfer t1 this inode inode); [done|done|done|]. intros root Er Hu.
  by rewrite HV by (by apply (usable_same t1)).
Qed.

(** C31: writing to a range inside a file whose blocks are allocated puts the
    bytes of the buffer there and keeps every other byte of the file, its inode
    and every block of the disk that is not one of the file's. *)
Theorem write_ext2_correct this ino inode sz nos offset size buffer :
  let total := (sz + bsize this - 1) / bsize this in
  inode_layout this -> geometry this -> inode_size this <= Z.of_nat (length junk) ->
  file_inode this ino inode sz nos -> writable this inode nos total ->
  (forall no at_ k, located this ino no at_ -> 0 <= k < total -> no <> nos k) ->
  ready (7 + 6 * (sz / bsize this)) this ->
  0 <= offset -> 0 < size <= Z.of_nat (length buffer) -> offset + size <= sz < 4294967296 ->
  exists this', write_ext2 junk this ino offset size buffer = Ret (size, this') /\
    file_inode this' ino inode sz nos /\
    overwritten this this' nos total offset buffer offset (offset + size).
Proof.
  intros total Hlay Hg Hj ((no & at_ & Hloc & Hin) & Esz & Hf) Hw Hap Hr Ho Hs Hend.
  set (bs := bsize this) in *. assert (0 < bs) as Hb by (unfold bs; by destruct Hr as [[? _] _]).
  assert (0 <= sz / bs) as Hq by (apply Z.div_pos; lia).
  destruct (read_inode_ok junk (6 + 6 * (sz / bs)) this ino no at_) as (i' & t1 & E1 & Hi' & Hr1 & HC1);
    [lia|done|by replace (1 + (6 + 6 * (sz / bs))) with (7 + 6 * (sz / bs)) by lia|done|done|].
  assert (i' = inode) as -> by congruence. unfold write_ext2. rewrite E1. cbn [mbind outcome_bind].
  pose proof (proj2 (proj1 HC1)) as EB. fold bs in EB.
  destruct (write_inode_buffer_ok 0 t1 inode ino nos sz offset size buffer) as (t2 & -> & Hr2 & Hw2 & G);
    rewrite ?EB; [lia|by apply (geometry_same this); [by destruct HC1|]|by rewrite Z.add_0_r|by apply (writable_unchanged this)|done|
     done|done|done|].
  cbn [mbind outcome_bind]. rewrite EB in G. pose proof (overwritten_unchanged _ _ _ _ _ _ _ _ _ _ Hb Hf HC1 G) as G'.
  exists t2. split; [done|]. split; [|exact G']. destruct G' as (HS & _ & HV). pose proof (proj2 HS) as EB2. fold bs in EB2.
  split; [|split; [done|]].
  - exists no, at_. split; [by apply (located_same this)|]. destruct HS as [ES _].
    assert (inode_size t2 = inode_size this) as -> by (by rewrite ES).
    rewrite HV; [done|by destruct Hloc as (_ & _ & _ & _ & _ & ?)|]. intros k Hk. by apply (Hap no at_).
  - rewrite EB2. rewrite EB in Hw2. by destruct Hw2.
Qed.

End Overwrite.

(** ** Witness *)

Lemma demo_file_writable :
  writable demo_ext2 demo_a (fun k => 8 + k) ((1500 + bsize demo_ext2 - 1) / bsize demo_ext2).
Proof.
  split; [apply demo_file|]. change ((1500 + bsize demo_ext2 - 1) / bsize demo_ext2) with 2.
  intros k Hk. split; [|split; [|lia]].
  - intros j no i Hj (_ & Hs & _). assert (j = 0 \/ j = 1) as [-> | ->] by lia; discriminate Hs.
  - assert (k = 0 \/ k = 1) as [-> | ->] by lia; vm_compute; congruence.
Qed.

Lemma write_ext2_correct_witness :
  exists this', write_ext2 demo_junk demo_ext2 3 1000 100 (replicate 100 42) = Ret (100, this') /\
    file_inode this' 3 demo_a 1500 (fun k => 8 + k) /\
    overwritten demo_ext2 this' (fun k => 8 + k) 2 1000 (replicate 100 42) 1000 1100.
Proof.
  destruct demo_ext2_layout as [Hl Hg].
  apply (write_ext2_correct demo_junk demo_ext2 3 demo_a 1500 (fun k => 8 + k) 1000 100 (replicate 100 42) Hl Hg);
    [by vm_compute|exact demo_file|exact demo_file_writable| |apply demo_ext2_ready; vm_compute; split; congruence|
     lia|vm_compute; split; congruence|lia].
  intros no at_ k (_ & _ & _ & (t & Ht & ->) & _) Hk. vm_compute in Ht. injection Ht as <-.
  change (5 + (3 mod inodes_per_group demo_ext2 - 1) / (bsize demo_ext2 / inode_size demo_ext2)) with 5. lia.
Defined.

End Ext2Write.
