(* ===== verification/Alloc.v ===== *)
(** * The kernel heap of [kernel/src/mem/alloc.c]

    Small requests are served from pages cut into cells of one power of two,
    each page with a header and a stack of free cells threaded through the cells
    themselves; big requests get pages of their own, and the big blocks that were
    freed are kept in a skip list ordered by size.  Headers, stacks and forward
    pointers are words of one byte-addressed memory.

    A failed [assert] of this file prints a message, counts it in [failures] and
    goes on.  The pages come from [sbrk], which is the class [MoreCore]. *)

From stdpp Require Import base numbers list.
From S2P Require Import Prelude.

(** ** Words in a memory of bytes *)

Module Word.

Definition mem_t : Type := Z -> Z.

Definition ld (m : mem_t) (a : Z) : Z :=
  m a + 256 * m (a + 1) + 65536 * m (a + 2) + 16777216 * m (a + 3).

Definition st (m : mem_t) (a v : Z) : mem_t := fun x =>
  if x =? a then v mod 256
  else if x =? a + 1 then v / 256 mod 256
  else if x =? a + 2 then v / 65536 mod 256
  else if x =? a + 3 then v / 16777216 mod 256
  else m x.

(** [memset] to zero and [memcpy] between regions that do not overlap. *)
Definition zero (m : mem_t) (a n : Z) : mem_t := fun x => if (a <=? x) && (x <? a + n) then 0 else m x.
Definition copy (m : mem_t) (dst src n : Z) : mem_t :=
  fun x => if (dst <=? x) && (x <? dst + n) then m (src + (x - dst)) else m x.

Definition aligned (a : Z) : Prop := a mod 4 = 0.

Lemma ld_st m a v : 0 <= v < 4294967296 -> ld (st m a v) a = v.
Proof.
  intros Hv. unfold ld, st. rewrite Z.eqb_refl.
  destruct (Z.eqb_spec (a + 1) a); [lia|]. rewrite Z.eqb_refl.
  destruct (Z.eqb_spec (a + 2) a); [lia|]. destruct (Z.eqb_spec (a + 2) (a + 1)); [lia|]. rewrite Z.eqb_refl.
  destruct (Z.eqb_spec (a + 3) a); [lia|]. destruct (Z.eqb_spec (a + 3) (a + 1)); [lia|].
  destruct (Z.eqb_spec (a + 3) (a + 2)); [lia|]. rewrite Z.eqb_refl.
  Z.to_euclidean_division_equations. lia.
Qed.

Lemma st_other m a v x : x < a \/ a + 4 <= x -> st m a v x = m x.
Proof.
  intros Hx. unfold st. destruct (Z.eqb_spec x a), (Z.eqb_spec x (a + 1)), (Z.eqb_spec x (a + 2)), (Z.eqb_spec x (a + 3)); lia || done.
Qed.

Lemma ld_ext m m' a : (forall x, a <= x < a + 4 -> m' x = m x) -> ld m' a = ld m a.
Proof. intros H. unfold ld. rewrite !H by lia. done. Qed.

Lemma aligned_apart a b : aligned a -> aligned b -> a <> b -> a + 4 <= b \/ b + 4 <= a.
Proof. unfold aligned. intros. Z.to_euclidean_division_equations. lia. Qed.

Lemma ld_st_other m a b v : aligned a -> aligned b -> a <> b -> ld (st m a v) b = ld m b.
Proof.
  intros Ha Hb Hne. apply ld_ext. intros x Hx. apply st_other. pose proof (aligned_apart a b Ha Hb Hne). lia.
Qed.

Lemma ld_zero m a n b : a <= b -> b + 4 <= a + n -> ld (zero m a n) b = 0.
Proof.
  intros H1 H2. unfold ld, zero. repeat (case_match; [|lia]); try lia.
Qed.

End Word.

(** ** Asking for more pages *)

Class MoreCore (C : Type) := {
  core_end : C -> Z;
  core_limit : Z;
  core_ok : C -> Prop;
  more : C -> Z -> outcome (Z * C)
}.

Class MoreCoreOk (C : Type) `{MoreCore C} := {
  core_aligned : forall c, core_ok c -> core_end c mod 4096 = 0;
  core_low : forall c, core_ok c -> 0 < core_end c;
  core_high : core_limit < 4294967296;
  more_ok : forall c n, core_ok c -> 0 <= n -> core_end c + n * 4096 < core_limit ->
    exists c', more c (n * 4096) = Ret (core_end c, c') /\ core_end c' = core_end c + n * 4096 /\ core_ok c'
}.

Module Alloc.
Import Word.

Definition NUM_BINS : Z := 11.
Definition SMALLEST_BIN_LOG : Z := 2.
Definition BIG_BIN : Z := NUM_BINS - 1.
Definition PAGE_SIZE : Z := 4096.
Definition PAGE_MASK : Z := PAGE_SIZE - 1.
Definition SKIP_P : Z := 2147483647.
Definition SKIP_MAX_LEVEL : Z := 6.
Definition BIN_MAGIC : Z := 0xDEFAD00D.

(** Fields of the headers. *)
Definition next_ : Z := 0.
Definition head_ : Z := 4.
Definition size_ : Z := 8.
Definition bin_magic : Z := 12.
Definition prev_ : Z := 16.
Definition forward (i : Z) : Z := 20 + 4 * i.
Definition sizeof_bin_header : Z := 16.
Definition sizeof_big_bin_header : Z := 48.

Definition klmalloc_adjust_bin (bin : Z) : Z :=
  if bin <=? SMALLEST_BIN_LOG then 0
  else
    let bin := bin - (SMALLEST_BIN_LOG + 1) in
    if BIG_BIN <? bin then BIG_BIN else bin.

(** The number of leading zeros of a 32-bit word that is not zero. *)
Definition clz (size : Z) : Z := 31 - Z.log2 size.

Definition klmalloc_bin_size (size : Z) : Z :=
  let bin := 32 - clz size in
  let bin := bin + b2z (truthy (Z.land size (size - 1))) in
  klmalloc_adjust_bin bin.

Section Heap.
Context {C : Type} `{MoreCore C}.

(** The address of [klmalloc_big_bins.head], a static object. *)
Context (big_head : Z).

Record heap := Heap {
  mem : mem_t;
  klmalloc_bin_head : list Z;
  level : Z;
  klmalloc_newest_big : Z;
  seed : Z * Z * Z * Z;
  core : C;
  failures : Z
}.

Definition set_mem (h : heap) m := Heap m (klmalloc_bin_head h) (level h) (klmalloc_newest_big h) (seed h) (core h) (failures h).
Definition set_bins (h : heap) b := Heap (mem h) b (level h) (klmalloc_newest_big h) (seed h) (core h) (failures h).
Definition set_level (h : heap) l := Heap (mem h) (klmalloc_bin_head h) l (klmalloc_newest_big h) (seed h) (core h) (failures h).
Definition set_newest (h : heap) p := Heap (mem h) (klmalloc_bin_head h) (level h) p (seed h) (core h) (failures h).
Definition set_seed (h : heap) s := Heap (mem h) (klmalloc_bin_head h) (level h) (klmalloc_newest_big h) s (core h) (failures h).
Definition set_core (h : heap) c := Heap (mem h) (klmalloc_bin_head h) (level h) (klmalloc_newest_big h) (seed h) c (failures h).
Definition set_failures (h : heap) n := Heap (mem h) (klmalloc_bin_head h) (level h) (klmalloc_newest_big h) (seed h) (core h) n.

(** [panic_assert] reports and returns. *)
Definition assert (b : bool) (h : heap) : heap := if b then h else set_failures h (failures h + 1).

(** Field accesses through a pointer. *)
Definition load (h : heap) (p off : Z) : outcome Z := if p =? NULL then Fault else Ret (ld (mem h) (p + off)).
Definition store (h : heap) (p off v : Z) : outcome heap :=
  if p =? NULL then Fault else Ret (set_mem h (st (mem h) (p + off) v)).

(** [sbrk] clears the memory it hands out. *)
Definition sbrk (h : heap) (increment : Z) : outcome (Z * heap) :=
  '(address, c) ← more (core h) increment;
  Ret (address, set_mem (set_core h c) (zero (mem h) address increment)).

(** ** Lists of pages with free cells *)

Definition klmalloc_list_decouple (h : heap) (bucket node : Z) : outcome heap :=
  next ← load h node next_;
  bins ← aset (klmalloc_bin_head h) bucket next;
  store (set_bins h bins) node next_ NULL.

Definition klmalloc_list_insert (h : heap) (bucket node : Z) : outcome heap :=
  first ← aget (klmalloc_bin_head h) bucket;
  h ← store h node next_ first;
  bins ← aset (klmalloc_bin_head h) bucket node;
  Ret (set_bins h bins).

Definition klmalloc_list_head (h : heap) (bucket : Z) : outcome Z := aget (klmalloc_bin_head h) bucket.

(** ** The skip list of free big blocks *)

Definition klmalloc_skip_rand (s : Z * Z * Z * Z) : Z * (Z * Z * Z * Z) :=
  let '(x, y, z, w) := s in
  let t := Z.lxor x (u32 (Z.shiftl x 11)) in
  let w' := Z.lxor (Z.lxor (Z.lxor w (Z.shiftr w 19)) t) (Z.shiftr t 8) in
  (w', (y, z, w, w')).

(** [todo] counts down from SKIP_MAX_LEVEL. *)
Fixpoint random_level (todo : nat) (s : Z * Z * Z * Z) : Z * (Z * Z * Z * Z) :=
  let '(r, s) := klmalloc_skip_rand s in
  match todo with
  | O => (0, s)
  | S todo' => if r <? SKIP_P then let '(l, s) := random_level todo' s in (l + 1, s) else (0, s)
  end.
Definition klmalloc_random_level (s : Z * Z * Z * Z) : Z * (Z * Z * Z * Z) := random_level (Z.to_nat SKIP_MAX_LEVEL) s.

Definition pages_exactly (sz : Z) : bool := u32 (sz + sizeof_big_bin_header) mod PAGE_SIZE =? 0.

(** One level of the search: forward while the next node is smaller than [sz].
    The nodes are at different pages of the heap, so their number is enough
    fuel. *)
Fixpoint skip_walk (fuel : nat) (h : heap) (i node sz : Z) : outcome (Z * heap) :=
  match fuel with
  | O => OutOfFuel
  | S fuel' =>
      next ← load h node (forward i);
      if next =? NULL then Ret (node, h)
      else
        n ← load h next size_;
        if n <? sz then skip_walk fuel' (assert (pages_exactly n) h) i next sz
        else Ret (node, h)
  end.

(** The levels below [i], from the top down: the last node reached and the node
    reached at each level, from level 0 up. *)
Fixpoint skip_levels (fuel : nat) (i : nat) (h : heap) (node sz : Z) : outcome (Z * list Z * heap) :=
  match i with
  | O => Ret (node, [], h)
  | S i' =>
      '(node, h) ← skip_walk fuel h (Z.of_nat i') node sz;
      '(last, update, h) ← skip_levels fuel i' h node sz;
      Ret (last, update ++ [node], h)
  end.

Definition skip_fuel (h : heap) : nat := S (Z.to_nat (core_end (core h) / PAGE_SIZE)).

Definition klmalloc_skip_list_findbest (h : heap) (search_size : Z) : outcome (Z * heap) :=
  '(node, _, h) ← skip_levels (skip_fuel h) (S (Z.to_nat (level h))) h big_head search_size;
  node ← load h node (forward 0);
  if node =? NULL then Ret (node, h)
  else
    let h := assert (node mod PAGE_SIZE =? 0) h in
    n ← load h node size_;
    Ret (node, assert (pages_exactly n) h).

(** The assertions on a header that [klmalloc_skip_list_insert] and
    [klmalloc_skip_list_delete] share. *)
Definition check_header (h : heap) (value : Z) : outcome heap :=
  let h := assert (negb (value =? NULL)) h in
  head ← load h value head_;
  sz ← load h value size_;
  let h := assert (negb (head =? NULL)) h in
  let h := assert (value <? head) h in
  Ret (if NUM_BINS <? sz then assert (head <? u32 (value + sz)) h else assert (head <? value + PAGE_SIZE) h).

(** Links [node] after [update], from level [i] up. *)
Fixpoint skip_link (update : list Z) (h : heap) (i node : Z) : outcome heap :=
  match update with
  | [] => Ret h
  | u :: update' =>
      f ← load h u (forward i);
      h ← store h node (forward i) f;
      h ← (if f =? NULL then Ret h else n ← load h f size_; Ret (assert (pages_exactly n) h));
      h ← store h u (forward i) node;
      skip_link update' h (i + 1) node
  end.

Definition klmalloc_skip_list_insert (h : heap) (value : Z) : outcome heap :=
  h ← check_header h value;
  let h := assert (value mod PAGE_SIZE =? 0) h in
  sz ← load h value size_;
  let h := assert (pages_exactly sz) h in
  let h := assert (negb (sz =? 0)) h in
  '(node, update, h) ← skip_levels (skip_fuel h) (S (Z.to_nat (level h))) h big_head sz;
  node ← load h node (forward 0);
  if node =? value then Ret h
  else
    let '(l, s) := klmalloc_random_level (seed h) in
    let h := set_seed h s in
    let update := update ++ replicate (Z.to_nat (l - level h)) big_head in
    let h := if level h <? l then set_level h l else h in
    skip_link (take (S (Z.to_nat l)) update) h 0 value.

(** The search along the lowest level for the node itself. *)
Fixpoint skip_to (fuel : nat) (h : heap) (node value : Z) : outcome Z :=
  if node =? value then Ret node
  else
    match fuel with
    | O => OutOfFuel
    | S fuel' => node ← load h node (forward 0); skip_to fuel' h node value
    end.

(** Unlinks [node] from the levels it is in. *)
Fixpoint skip_unlink (update : list Z) (h : heap) (i node : Z) : outcome heap :=
  match update with
  | [] => Ret h
  | u :: update' =>
      f ← load h u (forward i);
      if negb (f =? node) then Ret h
      else
        g ← load h node (forward i);
        h ← store h u (forward i) g;
        h ← (if g =? NULL then Ret h
             else n ← load h g size_; Ret (assert (pages_exactly n) (assert (g mod PAGE_SIZE =? 0) h)));
        skip_unlink update' h (i + 1) node
  end.

(** Lowers the level to the highest that is not empty. *)
Fixpoint trim_level (l : nat) (h : heap) : outcome heap :=
  match l with
  | O => Ret (set_level h 0)
  | S l' =>
      f ← load h big_head (forward (Z.of_nat l));
      if f =? NULL then trim_level l' h else Ret (set_level h (Z.of_nat l))
  end.

(** After the search [node] is [value], so the second search of the source is
    not reached. *)
Definition klmalloc_skip_list_delete (h : heap) (value : Z) : outcome heap :=
  h ← check_header h value;
  sz ← load h value size_;
  '(node, update, h) ← skip_levels (skip_fuel h) (S (Z.to_nat (level h))) h big_head sz;
  node ← load h node (forward 0);
  node ← skip_to (skip_fuel h) h node value;
  h ← skip_unlink update h 0 node;
  trim_level (Z.to_nat (level h)) h.

(** ** The stack of free cells of a page *)

Definition klmalloc_stack_pop (h : heap) (header : Z) : outcome (Z * heap) :=
  let h := assert (negb (header =? NULL)) h in
  item ← load h header head_;
  sz ← load h header size_;
  let h := assert (negb (item =? NULL)) h in
  let h := assert (header <? item) h in
  let h := if NUM_BINS <? sz then assert (item <? u32 (header + sz)) h
           else assert (header + sizeof_bin_header - 1 <? item) (assert (item <? header + PAGE_SIZE) h) in
  next ← load h item 0;
  h ← store h header head_ next;
  Ret (item, h).

Definition klmalloc_stack_push (h : heap) (header ptr : Z) : outcome heap :=
  let h := assert (negb (ptr =? NULL)) h in
  let h := assert (header <? ptr) h in
  sz ← load h header size_;
  let h := if NUM_BINS <? sz then assert (ptr <? u32 (header + sz)) h else assert (ptr <? header + PAGE_SIZE) h in
  head ← load h header head_;
  h ← store h ptr 0 head;
  store h header head_ ptr.

Definition klmalloc_stack_empty (h : heap) (header : Z) : outcome bool :=
  head ← load h header head_;
  Ret (head =? NULL).

(** ** [klmalloc] *)

(** Threads the stack through the cells from number [i] on. *)
Fixpoint thread_cells (h : heap) (base bucket_id i : Z) (todo : nat) : outcome heap :=
  match todo with
  | O => store h (base + 4 * Z.shiftl i bucket_id) 0 NULL
  | S todo' =>
      h ← store h (base + 4 * Z.shiftl i bucket_id) 0 (base + 4 * Z.shiftl (i + 1) bucket_id);
      thread_cells h base bucket_id (i + 1) todo'
  end.

(** A new page for the bin. *)
Definition new_bin (h : heap) (bucket_id : Z) : outcome (Z * heap) :=
  '(bin_header, h) ← sbrk h PAGE_SIZE;
  h ← store h bin_header bin_magic BIN_MAGIC;
  let h := assert (bin_header mod PAGE_SIZE =? 0) h in
  h ← store h bin_header head_ (bin_header + sizeof_bin_header);
  h ← klmalloc_list_insert h bucket_id bin_header;
  let adj := SMALLEST_BIN_LOG + bucket_id in
  let available := Z.shiftr (PAGE_SIZE - sizeof_bin_header) adj - 1 in
  base ← load h bin_header head_;
  h ← thread_cells h base bucket_id 0 (Z.to_nat available);
  h ← store h bin_header size_ bucket_id;
  Ret (bin_header, h).

Definition klmalloc_small (h : heap) (bucket_id : Z) : outcome (Z * heap) :=
  bin_header ← klmalloc_list_head h bucket_id;
  '(bin_header, h) ← (if bin_header =? NULL then new_bin h bucket_id else Ret (bin_header, h));
  '(item, h) ← klmalloc_stack_pop h bin_header;
  empty ← klmalloc_stack_empty h bin_header;
  h ← (if empty : bool then klmalloc_list_decouple h bucket_id bin_header else Ret h);
  Ret (item, h).

(** A block of whole pages. *)
Definition new_big (h : heap) (size : Z) : outcome (Z * heap) :=
  let pages := u32 (size + sizeof_big_bin_header) / PAGE_SIZE + 1 in
  '(bin_header, h) ← sbrk h (u32 (PAGE_SIZE * pages));
  h ← store h bin_header bin_magic BIN_MAGIC;
  let h := assert (bin_header mod PAGE_SIZE =? 0) h in
  let sz := u32 (pages * PAGE_SIZE - sizeof_big_bin_header) in
  h ← store h bin_header size_ sz;
  let h := assert (pages_exactly sz) h in
  let prev := klmalloc_newest_big h in
  h ← store h bin_header prev_ prev;
  h ← (if prev =? NULL then Ret h else store h prev next_ bin_header);
  let h := set_newest h bin_header in
  h ← store h bin_header next_ NULL;
  h ← store h bin_header head_ NULL;
  Ret (bin_header + sizeof_big_bin_header, h).

Definition klmalloc_big (h : heap) (size : Z) : outcome (Z * heap) :=
  '(bin_header, h) ← klmalloc_skip_list_findbest h size;
  if bin_header =? NULL then new_big h size
  else
    n ← load h bin_header size_;
    let h := assert (size <=? n) h in
    h ← klmalloc_skip_list_delete h bin_header;
    klmalloc_stack_pop h bin_header.

Definition klmalloc (h : heap) (size : Z) : outcome (Z * heap) :=
  if size =? 0 then Ret (NULL, h)
  else
    let bucket_id := klmalloc_bin_size size in
    if bucket_id <? BIG_BIN then klmalloc_small h bucket_id else klmalloc_big h size.

(** ** [klfree] and the other calls *)

Definition klfree (h : heap) (ptr : Z) : outcome heap :=
  if ptr =? NULL then Ret h
  else
    let ptr := if ptr mod PAGE_SIZE =? 0 then ptr - 1 else ptr in
    let header := Z.land ptr (u32 (Z.lnot PAGE_MASK)) in
    let h := assert (header mod PAGE_SIZE =? 0) h in
    magic ← load h header bin_magic;
    if negb (magic =? BIN_MAGIC) then Ret h
    else
      bucket_id ← load h header size_;
      if NUM_BINS <? bucket_id then
        let h := assert (negb (header =? NULL)) h in
        head ← load h header head_;
        let h := assert (head =? NULL) h in
        let h := assert (pages_exactly bucket_id) h in
        h ← klmalloc_stack_push h header (header + sizeof_big_bin_header);
        head ← load h header head_;
        let h := assert (negb (head =? NULL)) h in
        klmalloc_skip_list_insert h header
      else
        empty ← klmalloc_stack_empty h header;
        h ← (if empty : bool then klmalloc_list_insert h bucket_id header else Ret h);
        klmalloc_stack_push h header ptr.

Definition klvalloc (h : heap) (size : Z) : outcome (Z * heap) :=
  let true_size := u32 (size + PAGE_SIZE - sizeof_big_bin_header) in
  '(result, h) ← klmalloc h true_size;
  let out := u32 (result + (PAGE_SIZE - sizeof_big_bin_header)) in
  Ret (out, assert (out mod PAGE_SIZE =? 0) h).

(** [malloc], [malloc_], [malloc_a] and [valloc] are the same call. *)
Definition malloc (h : heap) (size : Z) : outcome (Z * heap) := klvalloc h size.

Definition free (placement_address_new : Z) (h : heap) (ptr : Z) : outcome heap :=
  if placement_address_new <? ptr then klfree h ptr else Ret h.

Definition klrealloc (placement_address_new : Z) (h : heap) (ptr size : Z) : outcome (Z * heap) :=
  if ptr =? NULL then klmalloc h size
  else if size =? 0 then
    h ← free placement_address_new h ptr;
    Ret (NULL, h)
  else
    let header_old := Z.land ptr (u32 (Z.lnot PAGE_MASK)) in
    old_size ← load h header_old size_;
    let old_size := if old_size <? BIG_BIN then Z.shiftl 1 (SMALLEST_BIN_LOG + old_size) else old_size in
    if size <=? old_size then Ret (ptr, h)
    else
      '(newptr, h) ← klmalloc h size;
      if newptr =? NULL then Ret (NULL, h)
      else
        let h := set_mem h (copy (mem h) newptr ptr old_size) in
        h ← klfree h ptr;
        Ret (newptr, h).

Definition klcalloc (h : heap) (nmemb size : Z) : outcome (Z * heap) :=
  let n := u32 (nmemb * size) in
  '(ptr, h) ← klmalloc h n;
  Ret (ptr, if ptr =? NULL then h else set_mem h (zero (mem h) ptr n)).

End Heap.
Arguments Heap {C}.
Arguments mem {C}.
Arguments klmalloc_bin_head {C}.
Arguments level {C}.
Arguments klmalloc_newest_big {C}.
Arguments seed {C}.
Arguments core {C}.
Arguments failures {C}.

(** ** The bin of a size *)

Lemma log2_bounds s : 0 < s -> 2 ^ Z.log2 s <= s < 2 * 2 ^ Z.log2 s.
Proof. intros Hs. pose proof (Z.log2_spec s Hs) as Hl. rewrite Z.pow_succ_r in Hl by apply Z.log2_nonneg. lia. Qed.

(** [s & (s - 1)] is zero for the powers of two only. *)
Lemma land_pred s : 0 < s -> truthy (Z.land s (s - 1)) = negb (s =? 2 ^ Z.log2 s).
Proof.
  intros Hs. pose proof (Z.log2_nonneg s) as Hl. pose proof (log2_bounds s Hs) as Hb. unfold truthy. f_equal.
  destruct (Z.eqb_spec s (2 ^ Z.log2 s)) as [E|Hne].
  - rewrite Z.eqb_eq. set (l := Z.log2 s) in *. clearbody l. subst s.
    replace (2 ^ l - 1) with (Z.ones l) by (rewrite Z.ones_equiv; lia).
    rewrite Z.land_ones by done. apply Z.mod_same. lia.
  - rewrite Z.eqb_neq. intros H0. assert (Z.testbit (Z.land s (s - 1)) (Z.log2 s) = true) as Ht; [|by rewrite H0, Z.testbit_0_l in Ht].
    rewrite Z.land_spec, Z.bit_log2 by done. cbn [andb].
    assert (Z.log2 s = Z.log2 (s - 1)) as -> by (symmetry; apply Z.log2_unique; [done|rewrite Z.pow_succ_r by done; lia]).
    apply Z.bit_log2. lia.
Qed.

(** A request of up to 2048 bytes goes to the bin with the smallest cells that
    hold it, a larger one to the big bin. *)
Lemma bin_size_least size :
  0 < size < 4294967296 ->
  let b := klmalloc_bin_size size in
  if size <=? 2048 then
    0 <= b < BIG_BIN /\ size <= 2 ^ (SMALLEST_BIN_LOG + b) /\
    forall b', 0 <= b' < b -> 2 ^ (SMALLEST_BIN_LOG + b') < size
  else b = BIG_BIN.
Proof.
  intros Hs. cbv zeta. assert (klmalloc_bin_size size = klmalloc_adjust_bin (Z.log2_up size + 1)) as ->.
  { unfold klmalloc_bin_size, clz. rewrite land_pred by lia. f_equal. pose proof (Z.log2_nonneg size).
    destruct (Z.eqb_spec size (2 ^ Z.log2 size)) as [E|E]; cbn [negb b2z].
    - rewrite E at 2. rewrite Z.log2_up_pow2 by done. lia.
    - rewrite (Z.log2_up_unique size (Z.log2 size + 1)); [lia|lia|]. pose proof (log2_bounds size ltac:(lia)).
      rewrite Z.add_1_r, Z.pred_succ, Z.pow_succ_r by lia. lia. }
  destruct (Z.eq_dec size 1) as [->|Hne]; [change (klmalloc_adjust_bin (Z.log2_up 1 + 1)) with 0; unfold BIG_BIN, NUM_BINS, SMALLEST_BIN_LOG; simpl; repeat split; lia|].
  assert (0 < Z.log2_up size) as Hc by (apply Z.log2_up_pos; lia).
  destruct (Z.log2_up_spec size ltac:(lia)) as [Hlo Hhi]. set (c := Z.log2_up size) in *.
  unfold klmalloc_adjust_bin, SMALLEST_BIN_LOG, BIG_BIN, NUM_BINS. destruct (Z.leb_spec size 2048) as [Hsm|Hbig].
  - assert (c < 12) as Hc12.
    { destruct (Z.lt_ge_cases c 12); [done|]. assert (2 ^ 11 <= 2 ^ Z.pred c) by (apply Z.pow_le_mono_r; lia).
      change (2 ^ 11) with 2048 in *. lia. }
    destruct (Z.leb_spec (c + 1) 2).
    { assert (2 ^ c <= 2 ^ (2 + 0)) by (apply Z.pow_le_mono_r; lia). repeat split; lia. }
    destruct (Z.ltb_spec (11 - 1) (c + 1 - (2 + 1))); [lia|]. split; [lia|].
    split; [replace (2 + (c + 1 - (2 + 1))) with c by lia; lia|].
    intros b' Hb'. assert (2 ^ (2 + b') <= 2 ^ Z.pred c) by (apply Z.pow_le_mono_r; lia). lia.
  - assert (11 < c) as Hc12.
    { destruct (Z.lt_ge_cases 11 c); [done|]. assert (2 ^ c <= 2 ^ 11) by (apply Z.pow_le_mono_r; lia).
      change (2 ^ 11) with 2048 in *. lia. }
    destruct (Z.leb_spec (c + 1) 2); [lia|]. destruct (Z.ltb_spec (11 - 1) (c + 1 - (2 + 1))); lia.
Qed.

(** A request of up to 2048 bytes goes to the bin with the smallest cells that
    hold it, a larger one to the big bin. *)
Theorem klmalloc_bin_size_least size :
  0 < size < 4294967296 ->
  let b := klmalloc_bin_size size in
  if size <=? 2048 then
    0 <= b < BIG_BIN /\ size <= 2 ^ (SMALLEST_BIN_LOG + b) /\ forall b', 0 <= b' < b -> 2 ^ (SMALLEST_BIN_LOG + b') < size
  else b = BIG_BIN.
Proof. apply bin_size_least. Qed.

Lemma klmalloc_bin_size_least_witness :
  klmalloc_bin_size 100 = 5 /\ 100 <= 2 ^ (SMALLEST_BIN_LOG + klmalloc_bin_size 100).
Proof. split; [reflexivity|]. apply (klmalloc_bin_size_least 100). lia. Defined.

End Alloc.
