(* ===== verification/SkipList.v ===== *)
(** * The skip list of free big blocks ([kernel/src/mem/alloc.c])

    The list in memory is seven linked lists, one a level, that start at the
    static head; the nodes of a level are those whose own level is at least as
    high.  [skips] says that a memory holds the list [ns], ordered by size, and
    the theorems say what searching, inserting and deleting do to [ns]. *)

From stdpp Require Import base numbers list sorting.
From Stdlib Require Import Sorted.
From S2P Require Import Prelude Alloc.

Module SkipList.
Import Word Alloc.

(** A free block: its header, its size, and its level in the list. *)
Record node := Node { nd : Z; nsz : Z; nlvl : Z }.

(** ** Linked lists over a field

    [f] gives the value of the field at an address. *)

Fixpoint sll (f : Z -> Z) (p : Z) (L : list node) : Prop :=
  match L with
  | [] => f p = NULL
  | n :: L' => f p = nd n /\ sll f (nd n) L'
  end.

(** The address of the last node, or where the list starts. *)
Fixpoint lst (p : Z) (A : list node) : Z :=
  match A with
  | [] => p
  | n :: A' => lst (nd n) A'
  end.

Lemma lst_app p A B : lst p (A ++ B) = lst (lst p A) B.
Proof. revert p. induction A as [|n A IH]; intros p; [done|]. apply IH. Qed.

Lemma lst_snoc p A n : lst p (A ++ [n]) = nd n.
Proof. by rewrite lst_app. Qed.

Lemma lst_in p A : lst p A = p \/ lst p A ∈ nd <$> A.
Proof.
  destruct A as [|n A _] using rev_ind; [by left|]. right. rewrite lst_snoc, fmap_app. apply elem_of_app. right.
  by apply list_elem_of_singleton.
Qed.

Lemma lst_cons_in n A B : lst (nd n) A ∈ nd <$> n :: A ++ B.
Proof.
  rewrite app_comm_cons, fmap_app. apply elem_of_app. left. rewrite fmap_cons.
  destruct (lst_in (nd n) A) as [->|Hin]; [left|by right].
Qed.

Lemma sll_app f p A B : sll f p (A ++ B) -> sll f (lst p A) B.
Proof. revert p. induction A as [|n A IH]; intros p; [done|]. cbn [app sll lst]. intros [_ H]. by apply IH. Qed.

Lemma sll_frame f f' p L :
  sll f p L -> f' p = f p -> (forall q, q ∈ nd <$> L -> f' q = f q) -> sll f' p L.
Proof.
  revert p. induction L as [|n L IH]; intros p; cbn [sll fmap list_fmap]; [by intros -> ->|].
  intros [-> HL] -> Hf. split; [done|]. apply IH; [done|apply Hf; left|]. intros q Hq. apply Hf. by right.
Qed.

Lemma sll_insert f f' p A v B :
  sll f p (A ++ B) -> NoDup (p :: (nd <$> A ++ B)) -> nd v ∉ p :: (nd <$> A ++ B) ->
  f' (nd v) = f (lst p A) -> f' (lst p A) = nd v ->
  (forall q, q ∈ p :: (nd <$> A ++ B) -> q <> lst p A -> f' q = f q) -> sll f' p (A ++ v :: B).
Proof.
  revert p. induction A as [|n A IH]; intros p Hl Hnd Hv Hfv Hfu Hf.
  - cbn [app lst] in *. split; [done|]. destruct B as [|b B]; cbn [sll fmap list_fmap] in *; [by rewrite Hfv|].
    destruct Hl as [E Hl]. split; [by rewrite Hfv|]. apply NoDup_cons in Hnd as [Hp _].
    eapply sll_frame; [exact Hl| |].
    + apply Hf; [right; left|]. intros E'. apply Hp. rewrite <- E'. left.
    + intros q Hq. apply Hf; [by right; right|]. intros E'. apply Hp. rewrite <- E'. by right.
  - cbn [app sll] in *. destruct Hl as [E Hl]. cbn [lst] in Hfv, Hfu, Hf. apply NoDup_cons in Hnd as [Hp Hnd].
    assert (p <> lst (nd n) A) as Hpl.
    { intros E'. apply Hp. rewrite E'. apply lst_cons_in. }
    split; [rewrite Hf by (done || left); done|].
    apply IH; [done|done|intros Hin; apply Hv; by right|done|done|]. intros q Hq. apply Hf. by right.
Qed.

Lemma sll_delete f f' p A v B :
  sll f p (A ++ v :: B) -> NoDup (p :: (nd <$> A ++ v :: B)) ->
  f' (lst p A) = f (nd v) ->
  (forall q, q ∈ p :: (nd <$> A ++ B) -> q <> lst p A -> f' q = f q) -> sll f' p (A ++ B).
Proof.
  revert p. induction A as [|n A IH]; intros p Hl Hnd Hfu Hf.
  - cbn [app sll] in *. change (lst p []) with p in Hfu, Hf. destruct Hl as [E Hl].
    apply NoDup_cons in Hnd as [Hp Hnd]. apply NoDup_cons in Hnd as [Hv _].
    destruct B as [|b B]; cbn [sll fmap list_fmap] in *; [by rewrite Hfu|].
    destruct Hl as [Eb Hl]. split; [by rewrite Hfu|].
    eapply sll_frame; [exact Hl| |].
    + apply Hf; [right; left|]. intros E'. apply Hp. rewrite <- E'. right. left.
    + intros q Hq. apply Hf; [by right; right|]. intros E'. apply Hp. rewrite <- E'. by right; right.
  - cbn [app sll] in *. destruct Hl as [E Hl]. cbn [lst] in Hfu, Hf. apply NoDup_cons in Hnd as [Hp Hnd].
    assert (p <> lst (nd n) A) as Hpl.
    { intros E'. apply Hp. rewrite E'. apply lst_cons_in. }
    split; [rewrite Hf by (done || left); done|]. apply IH; [done|done|done|]. intros q Hq. apply Hf. by right.
Qed.

(** ** Order and levels *)

Definition at_level (i : Z) (ns : list node) : list node := filter (fun n => i <= nlvl n) ns.

(** The nodes smaller than [sz], and the rest. *)
Fixpoint below (sz : Z) (ns : list node) : list node :=
  match ns with [] => [] | n :: ns' => if nsz n <? sz then n :: below sz ns' else [] end.
Fixpoint above (sz : Z) (ns : list node) : list node :=
  match ns with [] => [] | n :: ns' => if nsz n <? sz then above sz ns' else ns end.

Definition smaller (a b : node) : Prop := nsz a <= nsz b.
Definition ordered (ns : list node) : Prop := StronglySorted smaller ns.

Lemma below_above sz ns : ns = below sz ns ++ above sz ns.
Proof. induction ns as [|n ns IH]; [done|]. cbn [below above]. destruct (nsz n <? sz); [cbn; by f_equal|done]. Qed.

Lemma below_small sz ns : Forall (fun n => nsz n < sz) (below sz ns).
Proof.
  induction ns as [|n ns IH]; [constructor|]. cbn [below]. destruct (Z.ltb_spec (nsz n) sz); [by constructor|constructor].
Qed.

Lemma above_big sz ns : ordered ns -> Forall (fun n => sz <= nsz n) (above sz ns).
Proof.
  induction 1 as [|n ns Hs IH Hn]; [constructor|]. cbn [above]. destruct (Z.ltb_spec (nsz n) sz); [done|].
  constructor; [done|]. eapply Forall_impl; [exact Hn|]. unfold smaller. intros. lia.
Qed.

Lemma ordered_insert v ns : ordered ns -> ordered (below (nsz v) ns ++ v :: above (nsz v) ns).
Proof.
  induction 1 as [|n ns Hs IH Hn]; [by repeat constructor|]. cbn [below above]. destruct (Z.ltb_spec (nsz n) (nsz v)).
  - cbn. constructor; [done|]. apply Forall_app. rewrite (below_above (nsz v) ns) in Hn. apply Forall_app in Hn as [Hb Ha].
    split; [done|]. constructor; [unfold smaller; lia|done].
  - cbn. constructor; [by constructor|]. constructor; [unfold smaller; lia|].
    eapply Forall_impl; [exact Hn|]. unfold smaller. intros. lia.
Qed.

Lemma ordered_delete A v B : ordered (A ++ v :: B) -> ordered (A ++ B).
Proof.
  induction A as [|a A IH]; cbn; inversion 1 as [|? ? Hs Hf]; subst; [done|]. constructor; [by apply IH|].
  apply Forall_app in Hf as [Ha Hv]. apply Forall_app. split; [done|]. by inversion Hv.
Qed.

Lemma at_level_app i A B : at_level i (A ++ B) = at_level i A ++ at_level i B.
Proof. apply filter_app. Qed.

Lemma at_level_all i ns : Forall (fun n => i <= nlvl n) ns -> at_level i ns = ns.
Proof. induction 1 as [|n ns Hn Hns IH]; [done|]. unfold at_level in *. rewrite filter_cons. by rewrite decide_True, IH. Qed.

Lemma at_level_none i ns : Forall (fun n => nlvl n < i) ns -> at_level i ns = [].
Proof. induction 1 as [|n ns Hn Hns IH]; [done|]. unfold at_level in *. rewrite filter_cons. by rewrite decide_False by lia. Qed.

Lemma at_level_sublist i ns : at_level i ns `sublist_of` ns.
Proof. apply sublist_filter. Qed.

Lemma at_level_Forall (P : node -> Prop) i ns : Forall P ns -> Forall P (at_level i ns).
Proof. rewrite !Forall_forall. intros HP n Hn. apply HP. by apply list_elem_of_filter in Hn as [_ Hn]. Qed.

(** The last node of a level is on the level below. *)
Lemma level_split p i ns : exists A1 A2, at_level i ns = A1 ++ A2 /\ lst p (at_level (i + 1) ns) = lst p A1.
Proof.
  induction ns as [|n ns (A1 & A2 & E & El)] using rev_ind; [by exists [], []|].
  rewrite !at_level_app. unfold at_level in *. rewrite !filter_cons, !filter_nil.
  destruct (decide (i + 1 <= nlvl n)).
  - rewrite decide_True by lia. exists (filter (fun n => i <= nlvl n) ns ++ [n]), []. by rewrite app_nil_r, !lst_snoc.
  - rewrite app_nil_r. destruct (decide (i <= nlvl n)).
    + exists A1, (A2 ++ [n]). by rewrite E, app_assoc.
    + exists A1, A2. by rewrite app_nil_r.
Qed.

Section Ops.
Context {C : Type} `{MoreCore C} (big_head : Z).

(** The static head lies below the heap. *)
Hypothesis head_low : 0 < big_head.
Hypothesis head_aligned : aligned big_head.

(** The page of a header. *)
Definition place (q : Z) : Prop := q mod 4096 = 0 /\ big_head + 48 <= q.

Definition node_ok (n : node) : Prop :=
  place (nd n) /\ 0 <= nlvl n <= SKIP_MAX_LEVEL /\ NUM_BINS < nsz n /\ (nsz n + 48) mod 4096 = 0 /\
  nd n + 48 + nsz n < 4294967296.

Definition link (m : mem_t) (i q : Z) : Z := ld m (q + forward i).

Record skips (m : mem_t) (ns : list node) (lev : Z) : Prop := {
  sk_nodes : Forall node_ok ns;
  sk_nodup : NoDup (nd <$> ns);
  sk_ordered : ordered ns;
  sk_size : Forall (fun n => ld m (nd n + size_) = nsz n) ns;
  sk_links : forall i, 0 <= i <= SKIP_MAX_LEVEL -> sll (link m i) big_head (at_level i ns);
  sk_level : 0 <= lev <= SKIP_MAX_LEVEL;
  sk_below : Forall (fun n => nlvl n <= lev) ns
}.

Lemma place_pos q : place q -> 0 < q.
Proof. intros [_ Hq]. lia. Qed.

Lemma load_ok (h : heap (C:=C)) p off : p <> 0 -> load h p off = Ret (ld (mem h) (p + off)).
Proof. intros Hp. unfold load, NULL. by destruct (Z.eqb_spec p 0). Qed.

Lemma store_ok (h : heap (C:=C)) p off v : p <> 0 -> store h p off v = Ret (set_mem h (st (mem h) (p + off) v)).
Proof. intros Hp. unfold store, NULL. by destruct (Z.eqb_spec p 0). Qed.

Lemma exact_ok n : node_ok n -> pages_exactly (nsz n) = true.
Proof.
  intros ([? ?] & _ & ? & ? & ?). unfold pages_exactly, PAGE_SIZE, sizeof_big_bin_header, NUM_BINS in *.
  rewrite u32_small by lia. by apply Z.eqb_eq.
Qed.

(** ** Searching *)

Lemma skip_walk_ok fuel (h : heap (C:=C)) i p sz A B :
  p <> 0 -> sll (link (mem h) i) p (A ++ B) -> Forall node_ok (A ++ B) ->
  Forall (fun n => ld (mem h) (nd n + size_) = nsz n) (A ++ B) ->
  Forall (fun n => nsz n < sz) A -> Forall (fun n => sz <= nsz n) B -> (length A < fuel)%nat ->
  skip_walk fuel h i p sz = Ret (lst p A, h).
Proof.
  revert p A. induction fuel as [|fuel IH]; intros p A Hp Hl Hok Hsz HA HB Hf; [lia|]. cbn [skip_walk].
  rewrite load_ok by done. cbn [mbind outcome_bind]. change (ld (mem h) (p + forward i)) with (link (mem h) i p).
  destruct A as [|a A]; cbn [app] in *.
  - destruct B as [|b B]; cbn [sll] in Hl; [by rewrite Hl|]. destruct Hl as [-> _].
    apply Forall_cons in Hok as [Hb _]. apply Forall_cons in Hsz as [Eb _]. apply Forall_cons in HB as [Hbig _].
    pose proof (place_pos _ (proj1 Hb)). destruct (Z.eqb_spec (nd b) NULL); [unfold NULL in *; lia|].
    rewrite load_ok by lia. cbn [mbind outcome_bind]. rewrite Eb. destruct (Z.ltb_spec (nsz b) sz); [lia|]. done.
  - cbn [sll] in Hl. destruct Hl as [-> Hl]. apply Forall_cons in Hok as [Ha Hok]. apply Forall_cons in Hsz as [Ea Hsz].
    apply Forall_cons in HA as [Hsm HA]. pose proof (place_pos _ (proj1 Ha)).
    destruct (Z.eqb_spec (nd a) NULL); [unfold NULL in *; lia|].
    rewrite load_ok by lia. cbn [mbind outcome_bind]. rewrite Ea. destruct (Z.ltb_spec (nsz a) sz); [|lia].
    rewrite (exact_ok a Ha). cbn [assert lst]. apply IH; [lia|done|done|done|done|done|cbn in Hf; lia].
Qed.

(** The node reached at each level. *)
Definition updates (sz : Z) (ns : list node) (i k : Z) : list Z :=
  (fun j => lst big_head (at_level j (below sz ns))) <$> seqZ i k.

Lemma skips_at_level m ns lev i : skips m ns lev -> Forall node_ok (at_level i ns) /\ Forall (fun n => ld m (nd n + size_) = nsz n) (at_level i ns).
Proof. intros [Hok _ _ Hsz _ _ _]. split; by apply at_level_Forall. Qed.

Lemma lst_nonzero ns : Forall node_ok ns -> lst big_head ns <> 0.
Proof.
  intros Hok. destruct (lst_in big_head ns) as [->|Hin]; [lia|]. apply list_elem_of_fmap in Hin as (n & -> & Hn).
  apply (proj1 (Forall_forall _ _) Hok) in Hn. pose proof (place_pos _ (proj1 Hn)). lia.
Qed.

Lemma at_level_below_ok m ns lev sz i : skips m ns lev -> Forall node_ok (at_level i (below sz ns)).
Proof.
  intros Hs. destruct (skips_at_level _ _ _ i Hs) as [Hok _]. rewrite (below_above sz ns), at_level_app in Hok.
  by apply Forall_app in Hok as [? _].
Qed.

Lemma skip_levels_ok fuel (h : heap (C:=C)) k ns sz :
  skips (mem h) ns (level h) -> (length ns < fuel)%nat -> Z.of_nat k <= SKIP_MAX_LEVEL + 1 ->
  skip_levels fuel k h (lst big_head (at_level (Z.of_nat k) (below sz ns))) sz =
    Ret (lst big_head (at_level 0 (below sz ns)), updates sz ns 0 (Z.of_nat k), h).
Proof.
  intros Hs Hf. induction k as [|k IH]; intros Hk; cbn [skip_levels]; [done|].
  destruct (level_split big_head (Z.of_nat k) (below sz ns)) as (A1 & A2 & E & El).
  replace (Z.of_nat k + 1) with (Z.of_nat (S k)) in El by lia. rewrite El.
  pose proof (sk_links _ _ _ Hs (Z.of_nat k) ltac:(unfold SKIP_MAX_LEVEL in *; lia)) as Hl.
  rewrite (below_above sz ns), at_level_app, E, <- app_assoc in Hl. apply sll_app in Hl.
  destruct (skips_at_level _ _ _ (Z.of_nat k) Hs) as [Hok Hsz]. rewrite (below_above sz ns), at_level_app, E, <- app_assoc in Hok, Hsz.
  pose proof (below_small sz ns) as Hsm. pose proof (above_big sz ns (sk_ordered _ _ _ Hs)) as Hbig.
  assert (Forall (fun n => nsz n < sz) (A1 ++ A2)) as Hsm2 by (rewrite <- E; by apply at_level_Forall).
  assert (length A2 <= length ns)%nat as HL.
  { pose proof (sublist_length _ _ (at_level_sublist (Z.of_nat k) (below sz ns))) as H1. rewrite E, length_app in H1.
    pose proof (f_equal length (below_above sz ns)) as H2. rewrite length_app in H2. lia. }
  apply Forall_app in Hok as [Hok1 Hok2]. apply Forall_app in Hsz as [Hsz1 Hsz2]. apply Forall_app in Hsm2 as [Hsm1 Hsm2].
  rewrite (skip_walk_ok fuel h (Z.of_nat k) (lst big_head A1) sz A2 (at_level (Z.of_nat k) (above sz ns)));
    [|by apply lst_nonzero|done|done|done|done|by apply at_level_Forall|lia].
  cbn [mbind outcome_bind]. rewrite <- lst_app, <- E. rewrite IH by lia. cbn [mbind outcome_bind].
  unfold updates. replace (Z.of_nat (S k)) with (Z.of_nat k + 1) by lia. rewrite seqZ_app by lia. rewrite fmap_app. done.
Qed.

(** What the loop over all levels finds. *)
Lemma skip_search_ok fuel (h : heap (C:=C)) ns sz :
  skips (mem h) ns (level h) -> (length ns < fuel)%nat ->
  skip_levels fuel (S (Z.to_nat (level h))) h big_head sz =
    Ret (lst big_head (below sz ns), updates sz ns 0 (level h + 1), h).
Proof.
  intros Hs Hf. pose proof (sk_level _ _ _ Hs) as Hlev.
  assert (at_level (level h + 1) (below sz ns) = []) as E.
  { apply at_level_none. pose proof (sk_below _ _ _ Hs) as Hb. rewrite (below_above sz ns) in Hb. apply Forall_app in Hb as [Hb _].
    eapply Forall_impl; [exact Hb|]. intros n Hn. cbn in *. lia. }
  pose proof (skip_levels_ok fuel h (S (Z.to_nat (level h))) ns sz Hs Hf ltac:(lia)) as Hl.
  replace (Z.of_nat (S (Z.to_nat (level h)))) with (level h + 1) in Hl by lia. rewrite E in Hl. cbn [lst] in Hl. rewrite Hl.
  f_equal. f_equal. f_equal. rewrite at_level_all; [done|].
  pose proof (sk_nodes _ _ _ Hs) as Hn. rewrite (below_above sz ns) in Hn. apply Forall_app in Hn as [Hn _].
  eapply Forall_impl; [exact Hn|]. intros n (_ & ? & _). lia.
Qed.

Lemma bottom_list m ns lev : skips m ns lev -> sll (link m 0) big_head ns.
Proof.
  intros Hs. pose proof (sk_links _ _ _ Hs 0 ltac:(unfold SKIP_MAX_LEVEL; lia)) as Hl. rewrite at_level_all in Hl; [done|].
  eapply Forall_impl; [exact (sk_nodes _ _ _ Hs)|]. intros n (_ & ? & _). lia.
Qed.

(** The first block that is large enough. *)
Definition best (sz : Z) (ns : list node) : Z := match above sz ns with [] => NULL | n :: _ => nd n end.

Lemma after_below m ns lev sz : skips m ns lev -> link m 0 (lst big_head (below sz ns)) = best sz ns.
Proof.
  intros Hs. pose proof (bottom_list _ _ _ Hs) as Hl. rewrite (below_above sz ns) in Hl. apply sll_app in Hl. unfold best.
  destruct (above sz ns) as [|n B]; [done|]. by destruct Hl.
Qed.

Lemma below_lst_nonzero m ns lev sz : skips m ns lev -> lst big_head (below sz ns) <> 0.
Proof.
  intros Hs. apply lst_nonzero. pose proof (sk_nodes _ _ _ Hs) as Hok. rewrite (below_above sz ns) in Hok.
  by apply Forall_app in Hok as [? _].
Qed.

Lemma findbest_ok (h : heap (C:=C)) ns sz :
  skips (mem h) ns (level h) -> (length ns < skip_fuel h)%nat ->
  klmalloc_skip_list_findbest big_head h sz = Ret (best sz ns, h).
Proof.
  intros Hs Hf. unfold klmalloc_skip_list_findbest. rewrite (skip_search_ok _ h ns sz Hs Hf). cbn [mbind outcome_bind].
  rewrite load_ok by (by eapply below_lst_nonzero). cbn [mbind outcome_bind].
  change (ld (mem h) (lst big_head (below sz ns) + forward 0)) with (link (mem h) 0 (lst big_head (below sz ns))).
  rewrite (after_below _ _ _ _ Hs). unfold best. destruct (above sz ns) as [|n B] eqn:E; [done|].
  pose proof (sk_nodes _ _ _ Hs) as Hok. pose proof (sk_size _ _ _ Hs) as Hsz. rewrite (below_above sz ns), E in Hok, Hsz.
  apply Forall_app in Hok as [_ Hok]. apply Forall_app in Hsz as [_ Hsz]. apply Forall_cons in Hok as [Hn _].
  apply Forall_cons in Hsz as [En _]. pose proof (place_pos _ (proj1 Hn)).
  destruct (Z.eqb_spec (nd n) NULL); [unfold NULL in *; lia|]. pose proof (proj1 (proj1 Hn)) as Hp. unfold PAGE_SIZE. rewrite Hp, Z.eqb_refl.
  cbn [assert]. rewrite load_ok by lia. cbn [mbind outcome_bind]. rewrite En, (exact_ok n Hn). done.
Qed.

(** ** Changing links *)

Definition spot (q : Z) : Prop := q = big_head \/ place q.

Lemma spot_word q1 i q2 j :
  spot q1 -> spot q2 -> 0 <= i <= SKIP_MAX_LEVEL -> 0 <= j <= SKIP_MAX_LEVEL -> q1 + forward i = q2 + forward j -> q1 = q2 /\ i = j.
Proof.
  unfold spot, place, forward, SKIP_MAX_LEVEL. intros H1 H2 Hi Hj E. destruct H1 as [->|[H1 ?]], H2 as [->|[H2 ?]]; try lia.
  Z.to_euclidean_division_equations. lia.
Qed.

Lemma spot_aligned q i : spot q -> aligned (q + forward i).
Proof. unfold spot, place, aligned, forward in *. intros [->|[Hq _]]; Z.to_euclidean_division_equations; lia. Qed.

Lemma link_st m u i v j q :
  spot u -> spot q -> 0 <= i <= SKIP_MAX_LEVEL -> 0 <= j <= SKIP_MAX_LEVEL -> 0 <= v < 4294967296 ->
  link (st m (u + forward i) v) j q = if (q =? u) && (j =? i) then v else link m j q.
Proof.
  intros Hu Hq Hi Hj Hv. unfold link. destruct (Z.eqb_spec q u) as [->|Hne], (Z.eqb_spec j i) as [->|Hne']; cbn [andb].
  - by apply ld_st.
  - apply ld_st_other; [by apply spot_aligned..|]. intros E. by apply spot_word in E as [_ ->].
  - apply ld_st_other; [by apply spot_aligned..|]. intros E. by apply spot_word in E as [-> _].
  - apply ld_st_other; [by apply spot_aligned..|]. intros E. by apply spot_word in E as [-> _].
Qed.

(** Only the forward pointers of [Q] changed. *)
Definition only_links (m m' : mem_t) (Q : list Z) : Prop :=
  forall x, (forall q, q ∈ Q -> x < q + 20 \/ q + 48 <= x) -> m' x = m x.

Lemma only_links_st m Q u i v : u ∈ Q -> 0 <= i <= SKIP_MAX_LEVEL -> only_links m (st m (u + forward i) v) Q.
Proof.
  intros Hu Hi x Hx. apply st_other. specialize (Hx u Hu). unfold forward, SKIP_MAX_LEVEL in *. lia.
Qed.

Lemma only_links_trans m1 m2 m3 Q : only_links m1 m2 Q -> only_links m2 m3 Q -> only_links m1 m3 Q.
Proof. intros H1 H2 x Hx. rewrite H2, H1 by done. done. Qed.

Lemma node_spot n : node_ok n -> spot (nd n).
Proof. intros [? _]. by right. Qed.

Lemma node_addr n : node_ok n -> 0 < nd n < 4294967296.
Proof. intros (Hp & _ & Hs & _ & Hn). pose proof (place_pos _ Hp). unfold NUM_BINS in *. lia. Qed.

Lemma lst_spot ns : Forall node_ok ns -> spot (lst big_head ns).
Proof.
  intros Hok. destruct (lst_in big_head ns) as [->|Hin]; [by left|]. apply list_elem_of_fmap in Hin as (n & -> & Hn).
  apply node_spot. by apply (proj1 (Forall_forall _ _) Hok).
Qed.

(** The size of a node is not one of the links. *)
Lemma size_kept m m' Q n :
  only_links m m' Q -> (forall q, q ∈ Q -> spot q) -> node_ok n -> ld m' (nd n + size_) = ld m (nd n + size_).
Proof.
  intros Ho HQ Hn. apply ld_ext. intros x Hx. apply Ho. intros q Hq. destruct (HQ q Hq) as [->|[Hq1 Hq2]];
  destruct (proj1 Hn) as [Hn1 Hn2]; unfold size_ in Hx; [lia|]. Z.to_euclidean_division_equations. lia.
Qed.

(** The nodes of a level with the head are distinct. *)
Lemma level_nodup ns j : Forall node_ok ns -> NoDup (nd <$> ns) -> NoDup (big_head :: (nd <$> at_level j ns)).
Proof.
  intros Hok Hnd. apply NoDup_cons. split.
  - intros Hin. apply list_elem_of_fmap in Hin as (n & E & Hn). apply list_elem_of_filter in Hn as [_ Hn].
    apply (proj1 (Forall_forall _ _) Hok) in Hn as [[_ ?] _]. lia.
  - eapply sublist_NoDup; [exact Hnd|]. apply fmap_sublist, at_level_sublist.
Qed.

Lemma level_elem ns j q : q ∈ big_head :: (nd <$> at_level j ns) -> q ∈ big_head :: (nd <$> ns).
Proof.
  intros Hq. apply elem_of_cons in Hq as [->|Hq]; [left|]. right. apply list_elem_of_fmap in Hq as (n & -> & Hn).
  apply list_elem_of_filter in Hn as [_ Hn]. apply list_elem_of_fmap. by exists n.
Qed.

Lemma all_spots ns q : Forall node_ok ns -> q ∈ big_head :: (nd <$> ns) -> spot q.
Proof.
  intros Hok Hq. apply elem_of_cons in Hq as [->|Hq]; [by left|]. apply list_elem_of_fmap in Hq as (n & -> & Hn).
  apply node_spot. by apply (proj1 (Forall_forall _ _) Hok).
Qed.

(** A list of a level survives changes of other levels. *)
Lemma sll_other_level m m' ns j L :
  Forall node_ok ns -> (forall q, q ∈ nd <$> L -> q ∈ nd <$> ns) -> (forall q, spot q -> link m' j q = link m j q) ->
  sll (link m j) big_head L -> sll (link m' j) big_head L.
Proof.
  intros Hok Hsub Hl Hs. eapply sll_frame; [exact Hs|apply Hl; by left|]. intros q Hq. apply Hl.
  apply (all_spots ns); [done|]. right. by apply Hsub.
Qed.

(** The first node of a list at a level, as a word. *)
Lemma first_word f p L : Forall node_ok L -> sll f p L -> 0 <= f p < 4294967296.
Proof.
  intros Hok. destruct L as [|n L]; cbn [sll]; [intros ->; unfold NULL; lia|]. intros [-> _].
  apply Forall_cons in Hok as [Hn _]. pose proof (node_addr n Hn). lia.
Qed.

Lemma level_lst_in i A : lst big_head (at_level i A) = big_head \/ lst big_head (at_level i A) ∈ nd <$> A.
Proof.
  destruct (lst_in big_head (at_level i A)) as [El|El]; [by left|right]. apply list_elem_of_fmap in El as (n & -> & Hn).
  apply list_elem_of_filter in Hn as [_ Hn]. apply list_elem_of_fmap. by exists n.
Qed.

(** ** Inserting *)

(** One level of [skip_link]. *)
Lemma link_level (h : heap (C:=C)) A B v i :
  let u := lst big_head (at_level i A) in
  node_ok v -> Forall node_ok (A ++ B) -> NoDup (nd v :: (nd <$> A ++ B)) ->
  Forall (fun n => ld (mem h) (nd n + size_) = nsz n) (A ++ B) -> 0 <= i <= SKIP_MAX_LEVEL ->
  sll (link (mem h) i) big_head (at_level i (A ++ B)) ->
  exists m', (f ← load h u (forward i);
              h ← store h (nd v) (forward i) f;
              h ← (if f =? NULL then Ret h else n ← load h f size_; Ret (assert (pages_exactly n) h));
              store h u (forward i) (nd v)) = Ret (set_mem h m') /\
    sll (link m' i) big_head (at_level i A ++ v :: at_level i B) /\
    (forall j q, 0 <= j <= SKIP_MAX_LEVEL -> j <> i -> spot q -> link m' j q = link (mem h) j q) /\
    only_links (mem h) m' (big_head :: nd v :: (nd <$> A ++ B)).
Proof.
  intros u Hv Hok Hnd Hsz Hi Hl. pose proof (at_level_Forall _ i _ Hok) as HokL. rewrite at_level_app in HokL, Hl.
  pose proof HokL as Hok2. apply Forall_app in Hok2 as [HokA HokB]. apply NoDup_cons in Hnd as [Hvn Hnd].
  assert (spot u) as Hu by (by apply lst_spot). assert (u <> 0) as Hu0 by (by apply lst_nonzero).
  pose proof (node_addr v Hv) as Hva. pose proof (sll_app _ _ _ _ Hl) as HlB. fold u in HlB.
  pose proof (first_word _ _ _ HokB HlB) as Hf. set (f := link (mem h) i u) in *.
  rewrite (load_ok h u) by done. cbn [mbind outcome_bind]. change (ld (mem h) (u + forward i)) with f.
  rewrite (store_ok h (nd v)) by lia. cbn [mbind outcome_bind]. set (m1 := st (mem h) (nd v + forward i) f).
  assert (only_links (mem h) m1 (big_head :: nd v :: (nd <$> A ++ B))) as Ho1 by (apply only_links_st; [right; left|done]).
  assert (forall q, q ∈ big_head :: nd v :: (nd <$> A ++ B) -> spot q) as HQ.
  { intros q Hq. apply elem_of_cons in Hq as [->|Hq]; [by left|]. apply elem_of_cons in Hq as [->|Hq]; [by apply node_spot|].
    apply (all_spots (A ++ B)); [done|]. by right. }
  assert ((if f =? NULL then Ret (set_mem h m1) else n ← load (set_mem h m1) f size_; Ret (assert (pages_exactly n) (set_mem h m1))) = Ret (set_mem h m1)) as ->.
  { destruct (Z.eqb_spec f NULL) as [|Hf0]; [done|]. rewrite load_ok by done. cbn [mbind outcome_bind mem set_mem].
    destruct (at_level i B) as [|b B'] eqn:EB; cbn [sll] in HlB; [done|]. destruct HlB as [Ef _]. change (f = nd b) in Ef. rewrite Ef.
    apply Forall_cons in HokB as [Hb _]. rewrite (size_kept _ _ _ b Ho1 HQ Hb).
    assert (ld (mem h) (nd b + size_) = nsz b) as ->; [|by rewrite (exact_ok b Hb)].
    apply (at_level_Forall _ i) in Hsz. rewrite at_level_app, EB in Hsz. apply Forall_app in Hsz as [_ Hsz].
    by apply Forall_cons in Hsz as [? _]. }
  cbn [mbind outcome_bind]. rewrite store_ok by done. cbn [mem set_mem]. set (m2 := st m1 (u + forward i) (nd v)).
  assert (forall j q, 0 <= j <= SKIP_MAX_LEVEL -> spot q ->
    link m2 j q = if (q =? u) && (j =? i) then nd v else if (q =? nd v) && (j =? i) then f else link (mem h) j q) as Hlink.
  { intros j q Hj Hq. unfold m2, m1. rewrite link_st by (done || lia). rewrite link_st by (done || lia || by apply node_spot). done. }
  assert (u <> nd v) as Huv.
  { intros E. destruct (level_lst_in i A) as [El|El]; fold u in El; [destruct Hv as [[_ ?] _]; lia|].
    apply Hvn. rewrite <- E, fmap_app. apply elem_of_app. by left. }
  exists m2. split; [done|]. split; [|split].
  - apply (sll_insert (link (mem h) i)); [done| | | | |].
    + rewrite <- at_level_app. by apply level_nodup.
    + rewrite <- at_level_app. intros Hin. apply level_elem in Hin. apply elem_of_cons in Hin as [E|Hin]; [|done].
      destruct Hv as [[_ ?] _]. lia.
    + fold u. rewrite Hlink by (done || by apply node_spot). rewrite !Z.eqb_refl.
      destruct (Z.eqb_spec (nd v) u); [by symmetry in e|]. done.
    + fold u. rewrite Hlink by done. by rewrite !Z.eqb_refl.
    + fold u. rewrite <- at_level_app. intros q Hq Hne. apply level_elem in Hq. rewrite Hlink by (done || by apply (all_spots (A ++ B))).
      destruct (Z.eqb_spec q u); [done|]. destruct (Z.eqb_spec q (nd v)) as [->|]; [|done]. exfalso.
      apply elem_of_cons in Hq as [E|Hin]; [|done]. destruct Hv as [[_ ?] _]. lia.
  - intros j q Hj Hne Hq. rewrite Hlink by done. destruct (Z.eqb_spec j i); [done|]. by rewrite !andb_false_r.
  - eapply only_links_trans; [exact Ho1|]. apply only_links_st; [|done].
    destruct (level_lst_in i A) as [El|El]; fold u in El; [rewrite El; left|]. right. right.
    rewrite fmap_app. apply elem_of_app. by left.
Qed.

Lemma sizes_kept m m' Q ns :
  only_links m m' Q -> (forall q, q ∈ Q -> spot q) -> Forall node_ok ns ->
  Forall (fun n => ld m (nd n + size_) = nsz n) ns -> Forall (fun n => ld m' (nd n + size_) = nsz n) ns.
Proof.
  intros Ho HQ Hok. rewrite !Forall_forall. intros Hsz n Hn. rewrite (size_kept _ _ _ n Ho HQ); [by apply Hsz|].
  by apply (proj1 (Forall_forall _ _) Hok).
Qed.

Lemma level_sub j ns q : q ∈ nd <$> at_level j ns -> q ∈ nd <$> ns.
Proof.
  intros Hq. apply list_elem_of_fmap in Hq as (n & -> & Hn). apply list_elem_of_filter in Hn as [_ Hn].
  apply list_elem_of_fmap. by exists n.
Qed.

Lemma skip_link_ok (h : heap (C:=C)) A B v k i :
  node_ok v -> Forall node_ok (A ++ B) -> NoDup (nd v :: (nd <$> A ++ B)) ->
  Forall (fun n => ld (mem h) (nd n + size_) = nsz n) (A ++ B) -> 0 <= i -> i + Z.of_nat k <= SKIP_MAX_LEVEL + 1 ->
  (forall j, i <= j < i + Z.of_nat k -> sll (link (mem h) j) big_head (at_level j (A ++ B))) ->
  exists m', skip_link ((fun j => lst big_head (at_level j A)) <$> seqZ i (Z.of_nat k)) h i (nd v) = Ret (set_mem h m') /\
    (forall j, i <= j < i + Z.of_nat k -> sll (link m' j) big_head (at_level j A ++ v :: at_level j B)) /\
    (forall j q, 0 <= j <= SKIP_MAX_LEVEL -> ~ i <= j < i + Z.of_nat k -> spot q -> link m' j q = link (mem h) j q) /\
    only_links (mem h) m' (big_head :: nd v :: (nd <$> A ++ B)).
Proof.
  intros Hv Hok Hnd. assert (forall q, q ∈ big_head :: nd v :: (nd <$> A ++ B) -> spot q) as HQ
    by (intros q; apply (all_spots (v :: A ++ B)); by constructor).
  revert h i. induction k as [|k IH]; intros h i Hsz Hi Hik Hl.
  { exists (mem h). split; [by destruct h|]. split; [intros; lia|]. split; [done|]. by intros x _. }
  rewrite seqZ_cons by lia. replace (Z.pred (Z.of_nat (S k))) with (Z.of_nat k) by lia. cbn [fmap list_fmap skip_link].
  destruct (link_level h A B v i) as (m1 & E1 & Hl1 & Hot1 & Ho1); [done|done|done|done|unfold SKIP_MAX_LEVEL in *; lia|apply Hl; lia|].
  destruct (IH (set_mem h m1) (Z.succ i)) as (m2 & E2 & Hl2 & Hot2 & Ho2).
  { by eapply sizes_kept. }
  { lia. }
  { lia. }
  { intros j Hj. cbn [mem set_mem]. eapply (sll_other_level (mem h) m1 (A ++ B)); [done|apply level_sub| |apply Hl; lia].
    intros q Hq. apply Hot1; [unfold SKIP_MAX_LEVEL in *; lia|lia|done]. }
  cbn [mem set_mem] in *. exists m2.
  split; [|split; [|split]].
  - change (set_mem h m2) with (set_mem (set_mem h m1) m2). rewrite <- E2. clear -E1. change (Z.succ i) with (i + 1). revert E1. destruct (load h _ _) as [f| |]; cbn [mbind outcome_bind]; try done.
    destruct (store h _ _ _) as [h1| |]; cbn [mbind outcome_bind]; try done.
    destruct (if f =? NULL then _ else _) as [h2| |]; cbn [mbind outcome_bind]; try done. by intros ->.
  - intros j Hj. destruct (Z.eq_dec j i) as [->|]; [|apply Hl2; lia].
    eapply (sll_other_level m1 m2 (v :: A ++ B)); [by constructor| | |exact Hl1].
    + intros q. rewrite fmap_app, fmap_cons, elem_of_app, elem_of_cons, fmap_cons, fmap_app, elem_of_cons, elem_of_app.
      intros [Hq|[->|Hq]]; [right; left|by left|right; right]; by apply (level_sub i).
    + intros q Hq. apply Hot2; [unfold SKIP_MAX_LEVEL in *; lia|lia|done].
  - intros j q Hj Hne Hq. rewrite Hot2, Hot1 by (done || lia). done.
  - by eapply only_links_trans.
Qed.

Lemma random_level_bound todo s : 0 <= (random_level todo s).1 <= Z.of_nat todo.
Proof.
  revert s. induction todo as [|todo IH]; intros s; cbn [random_level]; destruct (klmalloc_skip_rand s) as [r s']; cbn [fst]; [lia|].
  destruct (r <? SKIP_P); [|cbn [fst]; lia]. specialize (IH s'). destruct (random_level todo s') as [l s2]. cbn [fst] in *. lia.
Qed.

(** The header of a free block. *)
Definition free_header (m : mem_t) (a sz : Z) : Prop := ld m (a + head_) = a + 48 /\ ld m (a + size_) = sz.

Lemma node_size n : node_ok n -> 4048 <= nsz n.
Proof. intros (_ & _ & ? & ? & _). unfold NUM_BINS in *. Z.to_euclidean_division_equations. lia. Qed.

Lemma check_header_ok (h : heap (C:=C)) v :
  node_ok v -> free_header (mem h) (nd v) (nsz v) -> check_header h (nd v) = Ret h.
Proof.
  intros Hv [Eh Es]. pose proof (node_addr v Hv). pose proof (node_size v Hv). destruct Hv as (_ & _ & _ & _ & Hend).
  unfold check_header, NULL. destruct (Z.eqb_spec (nd v) 0); [lia|]. cbn [negb assert].
  rewrite !load_ok by done. cbn [mbind outcome_bind]. rewrite Eh, Es.
  destruct (Z.eqb_spec (nd v + 48) 0); [lia|]. destruct (Z.ltb_spec (nd v) (nd v + 48)); [|lia]. cbn [negb assert].
  unfold NUM_BINS. destruct (Z.ltb_spec 11 (nsz v)); [|lia]. rewrite u32_small by lia.
  destruct (Z.ltb_spec (nd v + 48) (nd v + nsz v)); [done|lia].
Qed.

(** The pointers to the nodes before the new one, extended to its level. *)
Lemma updates_extend m ns lev sz l : skips m ns lev -> 0 <= l <= SKIP_MAX_LEVEL ->
  take (S (Z.to_nat l)) (updates sz ns 0 (lev + 1) ++ replicate (Z.to_nat (l - lev)) big_head) = updates sz ns 0 (l + 1).
Proof.
  intros Hs Hl. pose proof (sk_level _ _ _ Hs) as Hlev. unfold updates. destruct (Z.le_gt_cases l lev).
  - rewrite (Z2Nat.nonpos (l - lev)) by lia. cbn [replicate]. rewrite app_nil_r.
    replace (lev + 1) with (l + 1 + (lev - l)) by lia. rewrite (seqZ_app 0 (l + 1) (lev - l)) by lia. rewrite fmap_app.
    rewrite take_app_length' by (rewrite length_fmap, length_seqZ; lia). done.
  - rewrite take_ge by (rewrite length_app, length_fmap, length_seqZ, length_replicate; lia).
    replace (l + 1) with (lev + 1 + (l - lev)) by lia. rewrite (seqZ_app 0 (lev + 1) (l - lev)) by lia. rewrite fmap_app. f_equal.
    apply list_eq. intros j. destruct (decide (Z.of_nat j < l - lev)).
    + rewrite lookup_replicate_2, list_lookup_fmap, lookup_seqZ_lt by lia. cbn. f_equal. symmetry.
      rewrite at_level_none; [done|]. pose proof (sk_below _ _ _ Hs) as Hb. rewrite (below_above sz ns) in Hb.
      apply Forall_app in Hb as [Hb _]. eapply Forall_impl; [exact Hb|]. intros n Hn. cbn in *. lia.
    + rewrite !lookup_ge_None_2; [done| |]; rewrite ?length_fmap, ?length_seqZ, ?length_replicate; lia.
Qed.

Lemma at_level_cons i n ns : at_level i (n :: ns) = if decide (i <= nlvl n) then n :: at_level i ns else at_level i ns.
Proof. unfold at_level. by rewrite filter_cons. Qed.

(** The list that holds after the links of the levels up to the new node's were changed. *)
Lemma skips_inserted m m' ns lev v :
  skips m ns lev -> node_ok v -> nd v ∉ nd <$> ns -> ld m (nd v + size_) = nsz v ->
  (forall j, 0 <= j <= nlvl v -> sll (link m' j) big_head (at_level j (below (nsz v) ns) ++ v :: at_level j (above (nsz v) ns))) ->
  (forall j q, nlvl v < j <= SKIP_MAX_LEVEL -> spot q -> link m' j q = link m j q) ->
  only_links m m' (big_head :: nd v :: (nd <$> ns)) ->
  skips m' (below (nsz v) ns ++ v :: above (nsz v) ns) (Z.max lev (nlvl v)).
Proof.
  intros Hs Hv Hnin Esz Hlow Hhigh Ho. pose proof Hs as [Hok Hnd Hord Hsz Hl Hlev Hbel].
  assert (Forall node_ok (below (nsz v) ns ++ v :: above (nsz v) ns)) as Hok'.
  { rewrite (below_above (nsz v) ns) in Hok. apply Forall_app in Hok as [? ?]. apply Forall_app. split; [done|]. by constructor. }
  assert (forall P : node -> Prop, P v -> Forall P ns -> Forall P (below (nsz v) ns ++ v :: above (nsz v) ns)) as Hins.
  { intros P HPv HP. rewrite (below_above (nsz v) ns) in HP. apply Forall_app in HP as [? ?]. apply Forall_app. split; [done|]. by constructor. }
  split.
  - done.
  - rewrite fmap_app, fmap_cons. apply NoDup_Permutation_proper with (nd v :: (nd <$> ns)).
    + rewrite (below_above (nsz v) ns) at 3. rewrite fmap_app. by rewrite Permutation_middle.
    + by apply NoDup_cons.
  - by apply ordered_insert.
  - eapply sizes_kept; [exact Ho| |done|by apply Hins].
    intros q Hq. apply (all_spots (v :: ns)); [by constructor|done].
  - intros i Hi. destruct (decide (i <= nlvl v)) as [Hle|Hgt].
    + rewrite at_level_app, at_level_cons, decide_True by done. apply Hlow. lia.
    + rewrite at_level_app, at_level_cons, decide_False, <- at_level_app, <- below_above by done.
      eapply (sll_other_level m m' ns); [done|apply level_sub| |by apply Hl]. intros q Hq. apply Hhigh; [lia|done].
  - destruct Hv as (_ & ? & _). lia.
  - apply Hins; [lia|]. eapply Forall_impl; [exact Hbel|]. intros n Hn. cbn in *. lia.
Qed.

(** Inserting a free block puts it where its size belongs. *)
Lemma skip_insert_ok (h : heap (C:=C)) ns a sz :
  skips (mem h) ns (level h) -> (length ns < skip_fuel h)%nat -> node_ok (Node a sz 0) -> a ∉ nd <$> ns ->
  free_header (mem h) a sz ->
  exists l m' s', 0 <= l <= SKIP_MAX_LEVEL /\
    klmalloc_skip_list_insert big_head h a =
      Ret (Heap m' (klmalloc_bin_head h) (Z.max (level h) l) (klmalloc_newest_big h) s' (core h) (failures h)) /\
    skips m' (below sz ns ++ Node a sz l :: above sz ns) (Z.max (level h) l) /\
    only_links (mem h) m' (big_head :: a :: (nd <$> ns)).
Proof.
  intros Hs Hf Hv Hnin Hhdr. pose proof Hhdr as [_ Esz]. pose proof (node_addr _ Hv) as Ha. cbn [nd] in Ha.
  unfold klmalloc_skip_list_insert. pose proof (check_header_ok h (Node a sz 0) Hv Hhdr) as Hck. cbn [nd] in Hck. rewrite Hck. cbn [mbind outcome_bind].
  pose proof (proj1 (proj1 Hv)) as Hal. cbn [nd] in Hal. unfold PAGE_SIZE. rewrite Hal, Z.eqb_refl. cbn [assert].
  rewrite load_ok by lia. cbn [mbind outcome_bind]. rewrite Esz. pose proof (exact_ok _ Hv) as Hex. cbn [nsz] in Hex. rewrite Hex. cbn [assert].
  pose proof (node_size _ Hv) as Hbig. cbn [nsz] in Hbig. destruct (Z.eqb_spec sz 0); [lia|]. cbn [negb assert].
  rewrite (skip_search_ok _ h ns sz Hs Hf). cbn [mbind outcome_bind].
  rewrite load_ok by (by eapply below_lst_nonzero). cbn [mbind outcome_bind].
  change (ld (mem h) (lst big_head (below sz ns) + forward 0)) with (link (mem h) 0 (lst big_head (below sz ns))).
  rewrite (after_below _ _ _ _ Hs). assert (best sz ns <> a) as Hbest.
  { unfold best. destruct (above sz ns) as [|b B] eqn:E; [unfold NULL; lia|]. intros <-. apply Hnin.
    rewrite (below_above sz ns), E, fmap_app. apply elem_of_app. right. left. }
  destruct (Z.eqb_spec (best sz ns) a); [done|].
  destruct (klmalloc_random_level (seed h)) as [l s'] eqn:El.
  assert (0 <= l <= SKIP_MAX_LEVEL) as Hlb.
  { pose proof (random_level_bound (Z.to_nat SKIP_MAX_LEVEL) (seed h)) as Hb. unfold klmalloc_random_level in El. rewrite El in Hb. done. }
  cbn [level set_seed]. rewrite (updates_extend (mem h)) by done.
  set (h1 := if level h <? l then _ else _).
  assert (h1 = Heap (mem h) (klmalloc_bin_head h) (Z.max (level h) l) (klmalloc_newest_big h) s' (core h) (failures h)) as ->.
  { unfold h1. destruct (Z.ltb_spec (level h) l); unfold set_level, set_seed; cbn; f_equal; lia. }
  set (v := Node a sz l). assert (node_ok v) as Hv' by (destruct Hv as (? & _ & ? & ? & ?); done).
  pose proof Hs as [Hok Hnd Hord Hsz Hl Hlev Hbel].
  destruct (skip_link_ok (Heap (mem h) (klmalloc_bin_head h) (Z.max (level h) l) (klmalloc_newest_big h) s' (core h) (failures h))
    (below sz ns) (above sz ns) v (Z.to_nat (l + 1)) 0) as (m' & E & Hlow & Hhigh & Ho); rewrite <- ?below_above;
    [done|done|by apply NoDup_cons|done|lia|unfold SKIP_MAX_LEVEL in *; lia|intros j Hj; apply Hl; unfold SKIP_MAX_LEVEL in *; lia|].
  cbn [mem] in *. rewrite Z2Nat.id in E, Hlow, Hhigh by lia.
  exists l, m', s'. split; [done|]. split; [exact E|]. rewrite <- below_above in Ho. split; [|done].
  apply (skips_inserted (mem h) m' ns (level h) v); try done.
  - intros j Hj. apply Hlow. cbn in Hj. lia.
  - intros j q Hj Hq. apply Hhigh; [cbn in Hj; lia|cbn in Hj; lia|done].
Qed.

(** ** Deleting *)

Lemma first_link f p v B : sll f p (v :: B) -> f p = nd v.
Proof. by intros [? _]. Qed.

(** The first of a list without duplicates is none of the others. *)
Lemma first_other f p v L : sll f p L -> nd v ∉ nd <$> L -> nd v <> 0 -> f p <> nd v.
Proof.
  destruct L as [|n L]; cbn [sll]; [intros -> _ ?; unfold NULL; lia|]. intros [-> _] Hv _ E. apply Hv. rewrite <- E. left.
Qed.

Lemma skip_unlink_ok (h : heap (C:=C)) A B v k i :
  Forall node_ok (A ++ v :: B) -> NoDup (nd <$> A ++ v :: B) ->
  Forall (fun n => ld (mem h) (nd n + size_) = nsz n) (A ++ v :: B) -> 0 <= i -> i + Z.of_nat k <= SKIP_MAX_LEVEL + 1 ->
  (forall j, i <= j < i + Z.of_nat k -> sll (link (mem h) j) big_head (at_level j (A ++ v :: B))) ->
  exists m', skip_unlink ((fun j => lst big_head (at_level j A)) <$> seqZ i (Z.of_nat k)) h i (nd v) = Ret (set_mem h m') /\
    (forall j, i <= j < i + Z.of_nat k -> sll (link m' j) big_head (at_level j (A ++ B))) /\
    (forall j q, 0 <= j <= SKIP_MAX_LEVEL -> ~ i <= j < i + Z.of_nat k -> spot q -> link m' j q = link (mem h) j q) /\
    only_links (mem h) m' (big_head :: (nd <$> A ++ v :: B)).
Proof.
  intros Hok Hnd. pose proof (all_spots (A ++ v :: B)) as HQ.
  pose proof Hok as Hok2. apply Forall_app in Hok2 as [HokA HokB]. apply Forall_cons in HokB as [Hv HokB].
  pose proof (node_addr v Hv) as Hva.
  assert (nd v ∉ nd <$> A ++ B) as Hvn.
  { rewrite fmap_app, fmap_cons in Hnd. rewrite fmap_app. rewrite <- Permutation_middle in Hnd. by apply NoDup_cons in Hnd as [? _]. }
  revert h i. induction k as [|k IH]; intros h i Hsz Hi Hik Hl.
  { exists (mem h). split; [by destruct h|]. split; [intros; lia|]. split; [done|]. by intros x _. }
  rewrite seqZ_cons by lia. replace (Z.pred (Z.of_nat (S k))) with (Z.of_nat k) by lia. cbn [fmap list_fmap skip_unlink].
  set (u := lst big_head (at_level i A)). pose proof (at_level_Forall _ i _ HokA) as HokLA.
  assert (spot u) as Hu by (by apply lst_spot). assert (u <> 0) as Hu0 by (by apply lst_nonzero).
  rewrite (load_ok h u) by done. cbn [mbind outcome_bind]. change (ld (mem h) (u + forward i)) with (link (mem h) i u).
  pose proof (Hl i ltac:(lia)) as Hli. rewrite at_level_app, at_level_cons in Hli. destruct (decide (i <= nlvl v)) as [Hle|Hgt].
  - pose proof (sll_app _ _ _ _ Hli) as Hlu. fold u in Hlu. rewrite (first_link _ _ _ _ Hlu), Z.eqb_refl. cbn [negb].
    cbn [sll] in Hlu. destruct Hlu as [_ Hlv]. pose proof (first_word _ _ _ (at_level_Forall _ i _ HokB) Hlv) as Hg.
    rewrite load_ok by lia. cbn [mbind outcome_bind]. change (ld (mem h) (nd v + forward i)) with (link (mem h) i (nd v)).
    set (g := link (mem h) i (nd v)) in *. rewrite store_ok by done. cbn [mbind outcome_bind]. set (m1 := st (mem h) (u + forward i) g).
    assert (only_links (mem h) m1 (big_head :: (nd <$> A ++ v :: B))) as Ho1.
    { apply only_links_st; [|unfold SKIP_MAX_LEVEL in *; lia]. destruct (level_lst_in i A) as [El|El]; fold u in El; [rewrite El; left|].
      right. rewrite fmap_app. apply elem_of_app. by left. }
    assert (forall q, q ∈ big_head :: (nd <$> A ++ v :: B) -> spot q) as HQ1 by (intros q; by apply HQ).
    assert (Forall (fun n => ld m1 (nd n + size_) = nsz n) (A ++ v :: B)) as Hsz1 by (by eapply sizes_kept).
    assert ((if g =? NULL then Ret (set_mem h m1) else n ← load (set_mem h m1) g size_;
      Ret (assert (pages_exactly n) (assert (g mod PAGE_SIZE =? 0) (set_mem h m1)))) = Ret (set_mem h m1)) as ->.
    { destruct (Z.eqb_spec g NULL) as [|Hg0]; [done|]. rewrite load_ok by done. cbn [mbind outcome_bind mem set_mem].
      destruct (at_level i B) as [|b B'] eqn:EB; cbn [sll] in Hlv; [done|]. destruct Hlv as [Eg _]. change (g = nd b) in Eg. rewrite Eg.
      assert (b ∈ B) as Hb. { assert (b ∈ at_level i B) as Hb by (rewrite EB; left). by apply list_elem_of_filter in Hb as [_ Hb]. }
      assert (b ∈ A ++ v :: B) as Hb2 by (apply elem_of_app; right; by right).
      rewrite (proj1 (Forall_forall _ _) Hsz1 b Hb2). pose proof (proj1 (Forall_forall _ _) Hok b Hb2) as Hbok.
      rewrite (exact_ok b Hbok). unfold PAGE_SIZE. rewrite (proj1 (proj1 Hbok)). done. }
    cbn [mbind outcome_bind].
    assert (forall j q, 0 <= j <= SKIP_MAX_LEVEL -> spot q -> link m1 j q = if (q =? u) && (j =? i) then g else link (mem h) j q) as Hlink.
    { intros j q Hj Hq. unfold m1. apply link_st; done || unfold SKIP_MAX_LEVEL in *; lia. }
    destruct (IH (set_mem h m1) (Z.succ i)) as (m2 & E2 & Hl2 & Hot2 & Ho2); [done|lia|lia| |].
    { intros j Hj. cbn [mem set_mem]. eapply (sll_other_level (mem h) m1 (A ++ v :: B)); [done|apply level_sub| |apply Hl; lia].
      intros q Hq. rewrite Hlink by (done || unfold SKIP_MAX_LEVEL in *; lia). destruct (Z.eqb_spec j i); [lia|]. by rewrite andb_false_r. }
    cbn [mem set_mem] in *. exists m2. split; [exact E2|]. split; [|split].
    + intros j Hj. destruct (Z.eq_dec j i) as [->|]; [|apply Hl2; lia].
      eapply (sll_other_level m1 m2 (A ++ v :: B)); [done| | |].
      * intros q Hq. apply (level_sub i) in Hq. rewrite fmap_app in *. rewrite fmap_cons. apply elem_of_app in Hq as [Hq|Hq]; apply elem_of_app; [by left|right; by right].
      * intros q Hq. apply Hot2; [unfold SKIP_MAX_LEVEL in *; lia|lia|done].
      * rewrite at_level_app. apply (sll_delete (link (mem h) i) _ _ _ v); [done| | |].
        -- pose proof (level_nodup (A ++ v :: B) i Hok Hnd) as Hn. by rewrite at_level_app, at_level_cons, decide_True in Hn.
        -- fold u. rewrite Hlink by (done || unfold SKIP_MAX_LEVEL in *; lia). by rewrite !Z.eqb_refl.
        -- fold u. intros q Hq Hne. rewrite <- at_level_app in Hq. apply level_elem in Hq.
           rewrite Hlink; [by destruct (Z.eqb_spec q u)|unfold SKIP_MAX_LEVEL in *; lia|].
           apply (all_spots (A ++ B)); [by apply Forall_app|done].
    + intros j q Hj Hne Hq. rewrite Hot2, Hlink by (done || lia). destruct (Z.eqb_spec j i); [lia|]. by rewrite andb_false_r.
    + by eapply only_links_trans.
  - rewrite <- at_level_app in Hli. rewrite at_level_app in Hli. pose proof (sll_app _ _ _ _ Hli) as Hlu. fold u in Hlu.
    assert (link (mem h) i u <> nd v) as Hne.
    { apply (first_other _ _ v _ Hlu); [|lia]. intros Hin. apply Hvn. rewrite fmap_app. apply elem_of_app. right. by apply (level_sub i). }
    destruct (Z.eqb_spec (link (mem h) i u) (nd v)); [done|]. cbn [negb]. exists (mem h). split; [by destruct h|].
    split; [|split; [done|by intros x _]]. intros j Hj. specialize (Hl j Hj).
    rewrite at_level_app, at_level_cons, decide_False in Hl by lia. by rewrite at_level_app.
Qed.

Lemma trim_level_ok l (h : heap (C:=C)) ns :
  (forall i, 0 <= i <= SKIP_MAX_LEVEL -> sll (link (mem h) i) big_head (at_level i ns)) ->
  Z.of_nat l <= SKIP_MAX_LEVEL -> Forall (fun n => nlvl n <= Z.of_nat l) ns -> Forall node_ok ns ->
  exists l', trim_level big_head l h = Ret (set_level h l') /\ 0 <= l' <= SKIP_MAX_LEVEL /\ Forall (fun n => nlvl n <= l') ns.
Proof.
  intros Hl. induction l as [|l IH]; intros Hle Hb Hok; cbn [trim_level]; [by exists 0|].
  rewrite load_ok by lia. cbn [mbind outcome_bind].
  change (ld (mem h) (big_head + forward (Z.of_nat (S l)))) with (link (mem h) (Z.of_nat (S l)) big_head).
  destruct (Z.eqb_spec (link (mem h) (Z.of_nat (S l)) big_head) NULL) as [E|E]; [|exists (Z.of_nat (S l)); split; [done|]; split; [lia|done]].
  apply IH; [lia| |done]. specialize (Hl (Z.of_nat (S l)) ltac:(lia)).
  destruct (at_level (Z.of_nat (S l)) ns) as [|n L] eqn:EL.
  - apply Forall_forall. intros n Hn. destruct (decide (Z.of_nat (S l) <= nlvl n)) as [Hn2|]; [|lia].
    assert (n ∈ at_level (Z.of_nat (S l)) ns) as Hin by (by apply list_elem_of_filter). rewrite EL in Hin. by apply not_elem_of_nil in Hin.
  - destruct Hl as [En _]. assert (n ∈ at_level (Z.of_nat (S l)) ns) as Hin by (rewrite EL; left).
    apply list_elem_of_filter in Hin as [_ Hin]. apply (proj1 (Forall_forall _ _) Hok) in Hin. pose proof (node_addr n Hin).
    unfold NULL in E. lia.
Qed.

(** Deleting the first block of its size takes it out of the list. *)
Lemma skip_delete_ok (h : heap (C:=C)) ns v B :
  skips (mem h) ns (level h) -> (length ns < skip_fuel h)%nat -> above (nsz v) ns = v :: B ->
  free_header (mem h) (nd v) (nsz v) ->
  exists m' l', klmalloc_skip_list_delete big_head h (nd v) = Ret (set_level (set_mem h m') l') /\
    skips m' (below (nsz v) ns ++ B) l' /\ only_links (mem h) m' (big_head :: (nd <$> ns)).
Proof.
  intros Hs Hf Ea Hhdr. pose proof Hs as [Hok Hnd Hord Hsz Hl Hlev Hbel]. pose proof (below_above (nsz v) ns) as Ens. rewrite Ea in Ens.
  assert (node_ok v) as Hv by (apply (proj1 (Forall_forall _ _) Hok); rewrite Ens; apply elem_of_app; right; left).
  pose proof (node_addr v Hv). unfold klmalloc_skip_list_delete. rewrite (check_header_ok h v Hv Hhdr). cbn [mbind outcome_bind].
  rewrite load_ok by lia. cbn [mbind outcome_bind]. rewrite (proj2 Hhdr). rewrite (skip_search_ok _ h ns _ Hs Hf). cbn [mbind outcome_bind].
  rewrite load_ok by (by eapply below_lst_nonzero). cbn [mbind outcome_bind].
  change (ld (mem h) (lst big_head (below (nsz v) ns) + forward 0)) with (link (mem h) 0 (lst big_head (below (nsz v) ns))).
  rewrite (after_below _ _ _ _ Hs). unfold best. rewrite Ea. unfold skip_fuel. cbn [skip_to]. rewrite Z.eqb_refl. cbn [mbind outcome_bind].
  unfold updates. rewrite Ens in Hok, Hnd, Hsz, Hl.
  assert (level h + 1 = Z.of_nat (Z.to_nat (level h + 1))) as El by lia. rewrite El.
  destruct (skip_unlink_ok h (below (nsz v) ns) B v (Z.to_nat (level h + 1)) 0) as (m1 & -> & Hlow & Hhigh & Ho);
    [done|done|done|lia|lia|intros j Hj; apply Hl; lia|].
  cbn [mbind outcome_bind level set_mem]. rewrite <- Ens in Ho.
  assert (forall P : node -> Prop, Forall P ns -> Forall P (below (nsz v) ns ++ B)) as Hsub.
  { intros P HP. rewrite Ens in HP. apply Forall_app in HP as [? HP]. apply Forall_cons in HP as [_ ?]. by apply Forall_app. }
  assert (forall i, 0 <= i <= SKIP_MAX_LEVEL -> sll (link m1 i) big_head (at_level i (below (nsz v) ns ++ B))) as Hl'.
  { intros i Hi. destruct (Z.le_gt_cases i (level h)); [apply Hlow; lia|].
    assert (at_level i (below (nsz v) ns ++ B) = []) as E0.
    { apply at_level_none. eapply Forall_impl; [apply Hsub, Hbel|]. intros n Hn. cbn in *. lia. }
    rewrite E0. specialize (Hl i Hi). rewrite <- Ens, at_level_none in Hl
      by (eapply Forall_impl; [exact Hbel|]; intros n Hn; cbn in *; lia).
    cbn [sll] in *. rewrite Hhigh; [done|done|lia|by left]. }
  destruct (trim_level_ok (Z.to_nat (level h)) (set_mem h m1) (below (nsz v) ns ++ B)) as (l' & -> & Hl1 & Hl2);
    [done|lia|eapply Forall_impl; [apply Hsub, Hbel|]; intros n Hn; cbn in *; lia|apply Hsub, (sk_nodes _ _ _ Hs)|].
  exists m1, l'. split; [done|]. split; [|done]. split; [apply Hsub, (sk_nodes _ _ _ Hs)| | | |done|done|done].
  - rewrite fmap_app, fmap_cons, <- Permutation_middle in Hnd. rewrite fmap_app. by apply NoDup_cons in Hnd as [_ ?].
  - apply (ordered_delete _ v). by rewrite <- Ens.
  - apply Hsub. eapply sizes_kept; [exact Ho| |apply (sk_nodes _ _ _ Hs)|apply (sk_size _ _ _ Hs)].
    intros q Hq. apply (all_spots ns); [apply (sk_nodes _ _ _ Hs)|done].
Qed.

(** The block found for a request is the first of its own size. *)
Lemma above_own s ns v B : above s ns = v :: B -> above (nsz v) ns = v :: B.
Proof.
  induction ns as [|n ns IH]; cbn [above]; [done|]. destruct (Z.ltb_spec (nsz n) s) as [Hlt|Hge].
  - intros E. specialize (IH E). assert (s <= nsz v) as Hsv.
    { clear IH. induction ns as [|n' ns' IH']; cbn [above] in E; [done|].
      destruct (Z.ltb_spec (nsz n') s); [by apply IH'|]. by injection E as -> _. }
    destruct (Z.ltb_spec (nsz n) (nsz v)); [done|lia].
  - intros [= -> ->]. by rewrite Z.ltb_irrefl.
Qed.

(** The list depends on the sizes and links of its nodes and of the head only. *)
Lemma skips_frame m m' ns lev :
  skips m ns lev -> (forall x, big_head + 20 <= x < big_head + 48 -> m' x = m x) ->
  (forall n x, n ∈ ns -> nd n + 8 <= x < nd n + 12 \/ nd n + 20 <= x < nd n + 48 -> m' x = m x) -> skips m' ns lev.
Proof.
  intros [Hok Hnd Hord Hsz Hl Hlev Hbel] Hh Hn. split; try done.
  - rewrite Forall_forall in *. intros n Hin. rewrite <- (Hsz n Hin). apply ld_ext. intros x Hx. unfold size_ in Hx.
    apply (Hn n); [done|lia].
  - intros i Hi. eapply sll_frame; [by apply Hl| |].
    + apply ld_ext. intros x Hx. apply Hh. unfold forward, SKIP_MAX_LEVEL in *. lia.
    + intros q Hq. apply level_sub in Hq. apply list_elem_of_fmap in Hq as (n & -> & Hin).
      apply ld_ext. intros x Hx. apply (Hn n); [done|]. unfold forward, SKIP_MAX_LEVEL in *. lia.
Qed.

End Ops.
End SkipList.
