(* ===== verification/AllocSafe.v ===== *)
(** * The kernel heap hands out disjoint memory ([kernel/src/mem/alloc.c])

    [rep h v] says that the memory and the variables of the allocator hold the
    pages of small cells, the big blocks and the free lists of the view [v], and
    [live v] are the blocks in use.  The lemmas say what each way of allocating
    and freeing does to the view, that the bytes in use stay, and that no assertion
    fails. *)

From stdpp Require Import base gmap numbers list.
From S2P Require Import Prelude Alloc SkipList.

Module AllocSafe.
Import Word Alloc SkipList.

(** ** Cells of a page *)

Definition csz (b : Z) : Z := 2 ^ (SMALLEST_BIN_LOG + b).
Definition ncells (b : Z) : Z := Z.shiftr (PAGE_SIZE - sizeof_bin_header) (SMALLEST_BIN_LOG + b).
Definition cell (p b i : Z) : Z := p + sizeof_bin_header + i * csz b.
Definition is_cell (p b c : Z) : Prop := exists i, 0 <= i < ncells b /\ c = cell p b i.

Lemma csz_four b : 0 <= b -> csz b = 4 * 2 ^ b.
Proof. intros Hb. unfold csz, SMALLEST_BIN_LOG. by rewrite Z.pow_add_r by lia. Qed.

Lemma csz_bounds b : 0 <= b < BIG_BIN -> 4 <= csz b <= 2048.
Proof.
  intros Hb. unfold BIG_BIN, NUM_BINS in Hb. rewrite csz_four by lia.
  assert (2 ^ 0 <= 2 ^ b <= 2 ^ 9) as Hp by (split; apply Z.pow_le_mono_r; lia).
  change (2 ^ 0) with 1 in Hp. change (2 ^ 9) with 512 in Hp. lia.
Qed.

Lemma ncells_fit b : 0 <= b < BIG_BIN -> 0 < ncells b /\ ncells b * csz b <= PAGE_SIZE - sizeof_bin_header.
Proof.
  intros Hb. pose proof (csz_bounds b Hb). unfold ncells, BIG_BIN, NUM_BINS, SMALLEST_BIN_LOG in *. rewrite Z.shiftr_div_pow2 by lia.
  change (2 ^ (2 + b)) with (csz b). change (PAGE_SIZE - sizeof_bin_header) with 4080. split; [apply Z.div_str_pos; lia|].
  pose proof (Z.mul_div_le 4080 (csz b)). lia.
Qed.

Lemma cell_bounds p b c : 0 <= b < BIG_BIN -> is_cell p b c -> p + 16 <= c /\ c + csz b <= p + 4096.
Proof.
  intros Hb (i & Hi & ->). destruct (ncells_fit b Hb) as [_ Hfit]. pose proof (csz_bounds b Hb).
  unfold cell, sizeof_bin_header, PAGE_SIZE in *. nia.
Qed.

Lemma cell_apart p b c c' : 0 <= b < BIG_BIN -> is_cell p b c -> is_cell p b c' -> c <> c' -> c + csz b <= c' \/ c' + csz b <= c.
Proof.
  intros Hb (i & _ & ->) (j & _ & ->) Hne. pose proof (csz_bounds b Hb). unfold cell in *.
  assert (i <> j) by congruence. destruct (Z.lt_ge_cases i j); [left|right]; nia.
Qed.

Lemma cell_aligned p b c : 0 <= b -> p mod 4096 = 0 -> is_cell p b c -> aligned c.
Proof.
  intros Hb Hp (i & _ & ->). unfold aligned, cell, sizeof_bin_header. rewrite csz_four by done.
  replace (p + 16 + i * (4 * 2 ^ b)) with (p + 16 + (i * 2 ^ b) * 4) by lia. rewrite Z_mod_plus_full.
  Z.to_euclidean_division_equations. lia.
Qed.

(** ** Chains of free cells and of pages *)

Definition hd0 (l : list Z) : Z := match l with [] => NULL | a :: _ => a end.

Fixpoint stack (m : mem_t) (fs : list Z) : Prop :=
  match fs with
  | [] => True
  | c :: fs' => ld m c = hd0 fs' /\ stack m fs'
  end.

Fixpoint plist (m : mem_t) (L : list Z) : Prop :=
  match L with
  | [] => True
  | p :: L' => ld m (p + next_) = hd0 L' /\ plist m L'
  end.

Definition agree (m m' : mem_t) (lo hi : Z) : Prop := forall x, lo <= x < hi -> m' x = m x.

Lemma agree_ld m m' lo hi a : agree m m' lo hi -> lo <= a -> a + 4 <= hi -> ld m' a = ld m a.
Proof. intros Ha Hl Hh. apply ld_ext. intros x Hx. apply Ha. lia. Qed.

Lemma agree_sub m m' lo hi lo' hi' : agree m m' lo hi -> lo <= lo' -> hi' <= hi -> agree m m' lo' hi'.
Proof. intros Ha Hl Hh x Hx. apply Ha. lia. Qed.

Lemma agree_st m a v lo hi : a + 4 <= lo \/ hi <= a -> agree m (st m a v) lo hi.
Proof. intros H x Hx. apply st_other. lia. Qed.

Lemma agree_trans m1 m2 m3 lo hi : agree m1 m2 lo hi -> agree m2 m3 lo hi -> agree m1 m3 lo hi.
Proof. intros H1 H2 x Hx. rewrite H2, H1 by done. done. Qed.

Lemma stack_frame m m' fs : stack m fs -> (forall c, c ∈ fs -> agree m m' c (c + 4)) -> stack m' fs.
Proof.
  induction fs as [|c fs IH]; [done|]. intros [E Hs] Hf. split.
  - rewrite (agree_ld m m' c (c + 4)); [done|apply Hf; left|lia|lia].
  - apply IH; [done|]. intros c' Hc'. apply Hf. by right.
Qed.

Lemma plist_frame m m' L : plist m L -> (forall p, p ∈ L -> agree m m' p (p + 4)) -> plist m' L.
Proof.
  induction L as [|p L IH]; [done|]. intros [E Hs] Hf. split.
  - rewrite (agree_ld m m' p (p + 4)); [done|apply Hf; left|unfold next_; lia|unfold next_; lia].
  - apply IH; [done|]. intros p' Hp'. apply Hf. by right.
Qed.

Lemma ld_st_apart m a v b : b + 4 <= a \/ a + 4 <= b -> ld (st m a v) b = ld m b.
Proof. intros Hab. apply (agree_ld m _ b (b + 4)); [apply agree_st; lia|lia|lia]. Qed.

(** ** Pages and blocks *)

Definition small_ok (m : mem_t) (p b : Z) (fs : list Z) : Prop :=
  0 <= b < BIG_BIN /\ ld m (p + head_) = hd0 fs /\ ld m (p + size_) = b /\ ld m (p + bin_magic) = BIN_MAGIC /\
  stack m fs /\ NoDup fs /\ Forall (is_cell p b) fs.

Definition big_ok (m : mem_t) (p sz : Z) (fr : bool) : Prop :=
  4048 <= sz /\ (sz + 48) mod 4096 = 0 /\ ld m (p + size_) = sz /\ ld m (p + bin_magic) = BIN_MAGIC /\
  ld m (p + head_) = (if fr then p + 48 else NULL) /\ (fr = true -> ld m (p + 48) = NULL).

Lemma small_ok_frame m m' p b fs : small_ok m p b fs -> agree m m' p (p + 4096) -> small_ok m' p b fs.
Proof.
  intros (Hb & E1 & E2 & E3 & Hs & Hnd & Hc) Ha. unfold small_ok, head_, size_, bin_magic in *.
  split; [done|]. do 3 (split; [rewrite (agree_ld m m' p (p + 4096)) by (done || lia); done|]). split; [|done].
  eapply stack_frame; [exact Hs|]. intros c Hin. apply (proj1 (Forall_forall _ _) Hc) in Hin.
  pose proof (cell_bounds p b c Hb Hin). pose proof (csz_bounds b Hb). eapply agree_sub; [exact Ha|lia|lia].
Qed.

Lemma big_ok_frame m m' p sz fr :
  big_ok m p sz fr -> agree m m' (p + 4) (p + 16) -> agree m m' (p + 48) (p + 52) -> big_ok m' p sz fr.
Proof.
  intros (H1 & H2 & E1 & E2 & E3 & E4) Ha Hb. unfold big_ok, head_, size_, bin_magic in *. split; [done|]. split; [done|].
  do 3 (split; [rewrite (agree_ld m m' (p + 4) (p + 16)) by (done || lia); done|]).
  intros Hf. rewrite (agree_ld m m' (p + 48) (p + 52)) by (done || lia). by apply E4.
Qed.

(** ** The representation *)

Record view := View { smalls : gmap Z (Z * list Z); bigs : gmap Z Z; frees : list node }.

Definition extent (v : view) (p n : Z) : Prop :=
  (exists b fs, smalls v !! p = Some (b, fs) /\ n = 4096) \/ (exists sz, bigs v !! p = Some sz /\ n = sz + 48).

(** A block in use and its size. *)
Definition live (v : view) (a cap : Z) : Prop :=
  (exists p b fs, smalls v !! p = Some (b, fs) /\ is_cell p b a /\ (a ∉ fs) /\ cap = csz b) \/
  (exists p, bigs v !! p = Some cap /\ (p ∉ nd <$> frees v) /\ a = p + 48).

Section Heap.
Context {C : Type} `{MoreCoreOk C} (big_head base : Z).
Hypothesis head_low : 0 < big_head.
Hypothesis head_aligned : aligned big_head.
Hypothesis base_above : big_head + 48 <= base.

Definition bin_list (h : heap (C:=C)) (v : view) (b : Z) (L : list Z) : Prop :=
  klmalloc_bin_head h !! Z.to_nat b = Some (hd0 L) /\ plist (mem h) L /\ NoDup L /\
  forall p, p ∈ L <-> exists fs, smalls v !! p = Some (b, fs) /\ fs <> [].

Record rep (h : heap (C:=C)) (v : view) : Prop := {
  rp_small : forall p b fs, smalls v !! p = Some (b, fs) -> small_ok (mem h) p b fs;
  rp_length : length (klmalloc_bin_head h) = 10%nat;
  rp_bins : forall b, 0 <= b < BIG_BIN -> exists L, bin_list h v b L;
  rp_big : forall p sz, bigs v !! p = Some sz -> big_ok (mem h) p sz (bool_decide (p ∈ nd <$> frees v));
  rp_skips : skips big_head (mem h) (frees v) (level h);
  rp_free : forall n, n ∈ frees v -> bigs v !! nd n = Some (nsz n);
  rp_newest : klmalloc_newest_big h = NULL \/ is_Some (bigs v !! klmalloc_newest_big h);
  rp_core : core_ok (core h) /\ base <= core_end (core h) <= core_limit;
  rp_pages : forall p n, extent v p n -> p mod 4096 = 0 /\ base <= p /\ p + n <= core_end (core h);
  rp_apart : forall p n q k, extent v p n -> extent v q k -> p <> q -> p + n <= q \/ q + k <= p;
  rp_kind : forall p, smalls v !! p = None \/ bigs v !! p = None
}.

Lemma small_page h v p b fs : rep h v -> smalls v !! p = Some (b, fs) ->
  p mod 4096 = 0 /\ base <= p /\ p + 4096 <= core_end (core h) < 4294967296.
Proof.
  intros Hr Hp. destruct (rp_pages _ _ Hr p 4096) as (? & ? & ?); [left; by exists b, fs|].
  pose proof (rp_core _ _ Hr) as (_ & _ & ?). pose proof core_high. lia.
Qed.

Lemma big_page h v p sz : rep h v -> bigs v !! p = Some sz ->
  p mod 4096 = 0 /\ base <= p /\ p + sz + 48 <= core_end (core h) < 4294967296 /\ 4048 <= sz.
Proof.
  intros Hr Hp. destruct (rp_pages _ _ Hr p (sz + 48)) as (? & ? & ?); [right; by exists sz|].
  pose proof (rp_core _ _ Hr) as (_ & _ & ?). pose proof core_high. destruct (rp_big _ _ Hr p sz Hp) as (? & _). lia.
Qed.

(** A block in use lies inside one page or block. *)
Lemma live_where h v a cap : rep h v -> live v a cap ->
  exists p n, extent v p n /\ p + 16 <= a /\ a + cap <= p + n /\ 0 < cap.
Proof.
  intros Hr [(p & b & fs & Hp & Hc & _ & ->)|(p & Hp & _ & ->)].
  - destruct (rp_small _ _ Hr p b fs Hp) as (Hb & _). pose proof (cell_bounds p b a Hb Hc). pose proof (csz_bounds b Hb).
    exists p, 4096. split; [left; by exists b, fs|]. lia.
  - destruct (big_page h v p cap Hr Hp) as (_ & _ & _ & ?). exists p, (cap + 48). split; [right; by exists cap|]. lia.
Qed.

Lemma extent_unique h v p n k : rep h v -> extent v p n -> extent v p k -> n = k.
Proof.
  intros Hr. pose proof (rp_kind _ _ Hr p) as Hk. unfold extent. intros [(b & fs & E & ->)|(s & E & ->)] [(b' & fs' & E' & ->)|(s' & E' & ->)];
  destruct Hk as [Hk|Hk]; congruence.
Qed.

Lemma extent_large h v p n : rep h v -> extent v p n -> 4096 <= n.
Proof. intros Hr [(b & fs & _ & ->)|(sz & Hp & ->)]; [lia|]. destruct (big_page _ _ _ _ Hr Hp) as (_ & _ & _ & ?). lia. Qed.

Lemma home_unique h v p n q k x : rep h v -> extent v p n -> extent v q k -> p <= x < p + n -> q <= x < q + k -> q = p.
Proof. intros Hr Hp Hq Hx Hx'. destruct (Z.eq_dec p q); [done|]. destruct (rp_apart _ _ Hr p n q k Hp Hq); [done|lia|lia]. Qed.

(** Blocks in use do not overlap. *)
Lemma live_apart h v a cap a' cap' : rep h v -> live v a cap -> live v a' cap' -> a <> a' -> a + cap <= a' \/ a' + cap' <= a.
Proof.
  intros Hr Hl Hl' Hne.
  assert (forall p n, extent v p n -> p + 16 <= a -> a + cap <= p + n -> p + 16 <= a' -> a' + cap' <= p + n -> a + cap <= a' \/ a' + cap' <= a) as Hsame.
  { intros p n Hp Ha1 Ha2 Ha1' Ha2'.
    assert (forall q k x, extent v q k -> p <= x < p + n -> q <= x < q + k -> q = p) as Hu.
    { intros q k x Hq Hx Hx'. by eapply home_unique. }
    destruct Hl as [(q & b & fs & Hq & Hc & _ & ->)|(q & Hq & _ & ->)], Hl' as [(q' & b' & fs' & Hq' & Hc' & _ & ->)|(q' & Hq' & _ & ->)].
    - destruct (rp_small _ _ Hr _ _ _ Hq) as (Hb & _). destruct (rp_small _ _ Hr _ _ _ Hq') as (Hb' & _).
      pose proof (cell_bounds _ _ _ Hb Hc). pose proof (cell_bounds _ _ _ Hb' Hc'). pose proof (csz_bounds _ Hb). pose proof (csz_bounds _ Hb').
      assert (q = p) as -> by (apply (Hu q 4096 a); [left; by exists b, fs|lia|lia]).
      assert (q' = p) as -> by (apply (Hu q' 4096 a'); [left; by exists b', fs'|lia|lia]).
      assert (b' = b) as -> by congruence. by apply (cell_apart p b).
    - destruct (rp_small _ _ Hr _ _ _ Hq) as (Hb & _). pose proof (cell_bounds _ _ _ Hb Hc). pose proof (csz_bounds _ Hb).
      destruct (big_page _ _ _ _ Hr Hq') as (_ & _ & _ & ?).
      assert (q = p) as -> by (apply (Hu q 4096 a); [left; by exists b, fs|lia|lia]).
      assert (q' = p) as -> by (apply (Hu q' (cap' + 48) (q' + 48)); [right; by exists cap'|lia|lia]).
      destruct (rp_kind _ _ Hr p); congruence.
    - destruct (rp_small _ _ Hr _ _ _ Hq') as (Hb & _). pose proof (cell_bounds _ _ _ Hb Hc'). pose proof (csz_bounds _ Hb).
      destruct (big_page _ _ _ _ Hr Hq) as (_ & _ & _ & ?).
      assert (q' = p) as -> by (apply (Hu q' 4096 a'); [left; by exists b', fs'|lia|lia]).
      assert (q = p) as -> by (apply (Hu q (cap + 48) (q + 48)); [right; by exists cap|lia|lia]).
      destruct (rp_kind _ _ Hr p); congruence.
    - destruct (big_page _ _ _ _ Hr Hq) as (_ & _ & _ & ?). destruct (big_page _ _ _ _ Hr Hq') as (_ & _ & _ & ?).
      assert (q' = p) by (apply (Hu q' (cap' + 48) (q' + 48)); [right; by exists cap'|lia|lia]).
      assert (q = p) by (apply (Hu q (cap + 48) (q + 48)); [right; by exists cap|lia|lia]). lia. }
  destruct (live_where h v a cap Hr Hl) as (p & n & Hp & ? & ? & ?). destruct (live_where h v a' cap' Hr Hl') as (q & k & Hq & ? & ? & ?).
  destruct (Z.eq_dec p q) as [<-|Hpq].
  - assert (k = n) as -> by (by eapply extent_unique). by apply (Hsame p n).
  - destruct (rp_apart _ _ Hr p n q k Hp Hq Hpq); lia.
Qed.

(** ** Changing one page of small cells *)

(** The page at [p] is set to the free cells [fs]: it was one of the small pages
    or is new. *)
Definition set_small (v : view) (p b : Z) (fs : list Z) : view := View (<[p := (b, fs)]> (smalls v)) (bigs v) (frees v).

Lemma extent_set_small v p b fs q n : extent (set_small v p b fs) q n -> (q = p /\ n = 4096) \/ (q <> p /\ extent v q n) \/ (exists sz, bigs v !! p = Some sz).
Proof.
  destruct (Z.eq_dec q p) as [->|Hne].
  - intros [(b' & fs' & _ & ->)|(sz & E & _)]; [by left|]. right. right. by exists sz.
  - intros [(b' & fs' & E & ->)|(sz & E & ->)]; right; left; (split; [done|]).
    + left. exists b', fs'. cbn in E. by rewrite lookup_insert_ne in E by done.
    + right. by exists sz.
Qed.

Lemma rep_set_small h h' v p b fs L :
  rep h v -> (forall x, x < p \/ p + 4096 <= x -> mem h' x = mem h x) ->
  (forall b' fs', smalls v !! p = Some (b', fs') -> b' = b) -> bigs v !! p = None ->
  (forall q n, extent v q n -> q <> p -> q + n <= p \/ p + 4096 <= q) ->
  p mod 4096 = 0 -> base <= p -> p + 4096 <= core_end (core h') -> core_end (core h) <= core_end (core h') <= core_limit ->
  core_ok (core h') -> level h' = level h -> klmalloc_newest_big h' = klmalloc_newest_big h ->
  small_ok (mem h') p b fs -> length (klmalloc_bin_head h') = 10%nat ->
  (forall b', 0 <= b' -> b' <> b -> klmalloc_bin_head h' !! Z.to_nat b' = klmalloc_bin_head h !! Z.to_nat b') ->
  bin_list h' (set_small v p b fs) b L -> rep h' (set_small v p b fs).
Proof.
  intros Hr Hm Hb Hbig Hap Hpa Hpb Hpe Hce Hco Hlev Hnew Hok Hlen Hbins HL.
  assert (forall q n lo hi, extent v q n -> q <> p -> q <= lo -> hi <= q + n -> agree (mem h) (mem h') lo hi) as Hag.
  { intros q n lo hi Hq Hne Hlo Hhi x Hx. apply Hm. destruct (Hap q n Hq Hne); lia. }
  split.
  - intros q b' fs' Hq. cbn in Hq. destruct (Z.eq_dec q p) as [->|Hne].
    + rewrite lookup_insert_eq in Hq. by injection Hq as <- <-.
    + rewrite lookup_insert_ne in Hq by done. eapply small_ok_frame; [by eapply (rp_small _ _ Hr)|].
      apply (Hag q 4096); [left; by exists b', fs'|done|lia|lia].
  - done.
  - intros b' Hb'. destruct (Z.eq_dec b' b) as [->|Hne]; [by exists L|].
    destruct (rp_bins _ _ Hr b' Hb') as (L' & E & Hpl & Hnd & Hin). exists L'. split; [by rewrite Hbins by lia|]. split; [|split; [done|]].
    + eapply plist_frame; [exact Hpl|]. intros q Hq. apply Hin in Hq as (fs' & Hq & _).
      apply (Hag q 4096); [left; by exists b', fs'|intros ->; apply Hne; by eapply Hb|lia|lia].
    + intros q. rewrite Hin. split; intros (fs' & Hq & Hfs); exists fs'; (split; [|done]); cbn in *.
      * rewrite lookup_insert_ne; [done|]. intros <-. apply Hne. by eapply Hb.
      * destruct (Z.eq_dec q p) as [->|Hqp]; [rewrite lookup_insert_eq in Hq; congruence|]. by rewrite lookup_insert_ne in Hq by done.
  - intros q sz Hq. cbn in Hq. assert (q <> p) by congruence. destruct (big_page _ _ _ _ Hr Hq) as (_ & _ & _ & ?).
    eapply big_ok_frame; [by eapply (rp_big _ _ Hr)| |]; (apply (Hag q (sz + 48)); [right; by exists sz|done|lia|lia]).
  - rewrite Hlev. eapply skips_frame; [exact (rp_skips _ _ Hr)| |].
    + intros x Hx. apply Hm. lia.
    + intros n x Hn Hx. pose proof (rp_free _ _ Hr n Hn) as Hq. assert (nd n <> p) by congruence.
      destruct (big_page _ _ _ _ Hr Hq) as (_ & _ & _ & ?). apply (Hag (nd n) (nsz n + 48) (nd n) (nd n + 48)); [right; by exists (nsz n)|done|lia|lia|lia].
  - exact (rp_free _ _ Hr).
  - rewrite Hnew. exact (rp_newest _ _ Hr).
  - split; [done|]. destruct (rp_core _ _ Hr). lia.
  - intros q n Hq. destruct (extent_set_small _ _ _ _ _ _ Hq) as [[-> ->]|[[Hne Hq']|[sz E]]]; [done| |congruence].
    destruct (rp_pages _ _ Hr q n Hq') as (? & ? & ?). split; [done|]. lia.
  - intros q n q' k Hq Hq' Hne. destruct (extent_set_small _ _ _ _ _ _ Hq) as [[-> ->]|[[Hqp Hq1]|[sz E]]]; [| |congruence];
    destruct (extent_set_small _ _ _ _ _ _ Hq') as [[-> ->]|[[Hqp' Hq1']|[sz E]]]; try congruence; try lia.
    + destruct (Hap q' k Hq1' Hqp'); lia.
    + destruct (Hap q n Hq1 Hqp); lia.
    + by apply (rp_apart _ _ Hr).
  - intros q. cbn. destruct (Z.eq_dec q p) as [->|Hne]; [by right|]. rewrite lookup_insert_ne by done. apply (rp_kind _ _ Hr).
Qed.

(** The list of the bin of a page that was set: the other pages stay. *)
Lemma bin_list_set h h' v p b fs L0 L :
  bin_list h v b L0 -> (forall q, q <> p -> q ∈ L <-> q ∈ L0) -> (p ∈ L <-> fs <> []) -> NoDup L ->
  klmalloc_bin_head h' !! Z.to_nat b = Some (hd0 L) -> plist (mem h') L -> bin_list h' (set_small v p b fs) b L.
Proof.
  intros (_ & _ & _ & Hin0) Hq Hp Hnd Eb Hpl. do 3 (split; [done|]). intros q. destruct (Z.eq_dec q p) as [->|Hne].
  - rewrite Hp. cbn. split; [intros Hf; exists fs; by rewrite lookup_insert_eq|].
    intros (fs' & E & Hf). rewrite lookup_insert_eq in E. by injection E as ->.
  - rewrite Hq, Hin0 by done. cbn. by setoid_rewrite lookup_insert_ne; [|congruence].
Qed.

(** The next pointers of the pages of a bin other than [p] are outside [p]. *)
Lemma bin_next_kept h v p b m' L :
  rep h v -> (forall x, x < p \/ p + 4096 <= x -> m' x = mem h x) ->
  (forall q n, extent v q n -> q <> p -> q + n <= p \/ p + 4096 <= q) ->
  plist (mem h) L -> (forall q, q ∈ L -> q <> p /\ exists fs, smalls v !! q = Some (b, fs)) -> plist m' L.
Proof.
  intros Hr Hm Hap Hpl HL. eapply plist_frame; [exact Hpl|]. intros q Hq x Hx. apply Hm.
  destruct (HL q Hq) as [Hne [fs Hs]]. destruct (Hap q 4096); [left; by exists b, fs|done|lia|lia].
Qed.

Lemma bin_others v b p L h : bin_list h v b L -> forall q, q ∈ L -> q <> p -> q <> p /\ exists fs, smalls v !! q = Some (b, fs).
Proof. intros (_ & _ & _ & Hin) q Hq Hne. split; [done|]. apply Hin in Hq as (fs & Hq & _). by exists fs. Qed.

(** ** Taking a cell *)

Lemma cell_word p b c : 0 <= b < BIG_BIN -> is_cell p b c -> base <= p -> p + 4096 < 4294967296 -> 0 < c < 4294967296.
Proof. intros Hb Hc Hp He. pose proof (cell_bounds p b c Hb Hc). pose proof (csz_bounds b Hb). lia. Qed.

Lemma hd0_word p b fs : 0 <= b < BIG_BIN -> Forall (is_cell p b) fs -> base <= p -> p + 4096 < 4294967296 -> 0 <= hd0 fs < 4294967296.
Proof.
  intros Hb Hc Hp He. destruct fs as [|c fs]; cbn; [unfold NULL; lia|]. apply Forall_cons in Hc as [Hc _].
  pose proof (cell_word p b c Hb Hc Hp He). lia.
Qed.

(** The header of a page after its stack was set to [fs]. *)
Lemma small_ok_head m p b fs fs' :
  small_ok m p b fs -> base <= p -> p + 4096 < 4294967296 -> stack m fs' -> NoDup fs' -> Forall (is_cell p b) fs' ->
  small_ok (st m (p + head_) (hd0 fs')) p b fs'.
Proof.
  intros (Hb & _ & E2 & E3 & _) Hp He Hs Hnd Hc. pose proof (hd0_word p b fs' Hb Hc Hp He).
  unfold small_ok, head_, size_, bin_magic in *. split; [done|]. split; [by apply ld_st|].
  do 2 (split; [rewrite ld_st_apart by lia; done|]). split; [|done]. eapply stack_frame; [exact Hs|].
  intros c Hin. apply (proj1 (Forall_forall _ _) Hc) in Hin. pose proof (cell_bounds p b c Hb Hin). pose proof (csz_bounds b Hb).
  apply agree_st. lia.
Qed.

Lemma pop_small_ok (h : heap (C:=C)) p b c fs :
  small_ok (mem h) p b (c :: fs) -> base <= p -> p + 4096 < 4294967296 ->
  klmalloc_stack_pop h p = Ret (c, set_mem h (st (mem h) (p + head_) (hd0 fs))) /\
  small_ok (st (mem h) (p + head_) (hd0 fs)) p b fs.
Proof.
  intros Hok Hp He. pose proof Hok as (Hb & E1 & E2 & E3 & [Ec Hs] & Hnd & Hc).
  apply Forall_cons in Hc as [Hcc Hc]. apply NoDup_cons in Hnd as [Hcf Hnd].
  pose proof (cell_word p b c Hb Hcc Hp He) as Hcw. pose proof (cell_bounds p b c Hb Hcc). pose proof (csz_bounds b Hb).
  split; [|by eapply small_ok_head].
  unfold klmalloc_stack_pop, NULL. destruct (Z.eqb_spec p 0); [lia|]. cbn [negb assert].
  rewrite !load_ok by lia. cbn [mbind outcome_bind]. rewrite E1, E2. cbn [hd0]. destruct (Z.eqb_spec c 0); [lia|]. cbn [negb assert].
  destruct (Z.ltb_spec p c); [|lia]. cbn [assert]. unfold BIG_BIN, NUM_BINS, PAGE_SIZE, sizeof_bin_header in *.
  destruct (Z.ltb_spec 11 b); [lia|]. destruct (Z.ltb_spec c (p + 4096)); [|lia]. cbn [assert].
  destruct (Z.ltb_spec (p + 16 - 1) c); [|lia]. cbn [assert]. rewrite load_ok by lia. cbn [mbind outcome_bind]. rewrite Z.add_0_r, Ec.
  rewrite store_ok by lia. done.
Qed.

Lemma take_cell_ok h v p b c fs :
  rep h v -> smalls v !! p = Some (b, c :: fs) -> klmalloc_bin_head h !! Z.to_nat b = Some p ->
  exists h', ('(item, h) ← klmalloc_stack_pop h p;
              empty ← klmalloc_stack_empty h p;
              h ← (if empty : bool then klmalloc_list_decouple h b p else Ret h);
              Ret (item, h)) = Ret (c, h') /\
    rep h' (set_small v p b fs) /\ (forall x, x < p \/ p + 8 <= x -> mem h' x = mem h x) /\
    core h' = core h /\ failures h' = failures h.
Proof.
  intros Hr Hp Hbin. destruct (small_page _ _ _ _ _ Hr Hp) as (Hpa & Hpb & Hpe).
  pose proof (rp_small _ _ Hr _ _ _ Hp) as Hok. pose proof Hok as (Hb & _).
  destruct (pop_small_ok h p b c fs Hok Hpb ltac:(lia)) as [-> Hok1]. cbn [mbind outcome_bind].
  set (m1 := st (mem h) (p + head_) (hd0 fs)) in *. unfold klmalloc_stack_empty. rewrite load_ok by lia. cbn [mbind outcome_bind mem set_mem].
  pose proof Hok1 as (_ & E1 & _ & _ & _ & _ & Hcs). rewrite E1.
  assert (forall x, x < p \/ p + 8 <= x -> m1 x = mem h x) as Hm1 by (intros x Hx; unfold m1; apply st_other; unfold head_; lia).
  destruct (rp_bins _ _ Hr b Hb) as (L & HL). pose proof HL as (EL & Hpl & HndL & HinL). rewrite EL in Hbin. injection Hbin as Ehd.
  assert (exists L', L = p :: L') as [L' ->] by (destruct L as [|q L']; cbn in Ehd; [unfold NULL in Ehd; lia|]; by exists L'; subst).
  cbn [plist] in Hpl. destruct Hpl as [En Hpl]. apply NoDup_cons in HndL as [HpL HndL].
  assert (forall q n, extent v q n -> q <> p -> q + n <= p \/ p + 4096 <= q) as Hap.
  { intros q n Hq Hne. destruct (rp_apart _ _ Hr q n p 4096); [done|left; by exists b, (c :: fs)|done|lia|lia]. }
  assert (forall q, q ∈ L' -> q <> p /\ exists fs, smalls v !! q = Some (b, fs)) as HL'.
  { intros q Hq. eapply bin_others; [exact HL|by right|]. by intros ->. }
  assert (bigs v !! p = None) as Hbig by (destruct (rp_kind _ _ Hr p); congruence).
  assert (forall b' fs', smalls v !! p = Some (b', fs') -> b' = b) as Hbb by (intros b' fs'; congruence).
  assert (Z.of_nat (length (klmalloc_bin_head h)) = 10) as Hlen by (by rewrite (rp_length _ _ Hr)).
  unfold BIG_BIN, NUM_BINS in Hb. destruct (rp_core _ _ Hr) as [Hco Hce].
  destruct (Z.eqb_spec (hd0 fs) NULL) as [Hemp|Hne].
  - assert (fs = []) as ->.
    { destruct fs as [|c' fs']; [done|]. apply Forall_cons in Hcs as [Hc' _]. pose proof (cell_word p b c' Hb Hc' Hpb ltac:(lia)). cbn in Hemp. unfold NULL in Hemp. lia. }
    unfold klmalloc_list_decouple. rewrite load_ok by lia. cbn [mbind outcome_bind mem set_mem klmalloc_bin_head].
    assert (ld m1 (p + next_) = hd0 L') as ->. { unfold m1. rewrite ld_st_apart by (unfold next_, head_; lia). done. }
    rewrite aset_in_range by lia. cbn [mbind outcome_bind].
    rewrite store_ok by lia. cbn [mbind outcome_bind mem set_mem set_bins]. eexists. split; [done|]. cbn [mem core failures set_mem set_bins].
    assert (forall x, x < p \/ p + 8 <= x -> st m1 (p + next_) NULL x = mem h x) as Hm2.
    { intros x Hx. rewrite st_other by (unfold next_; lia). by apply Hm1. }
    assert (forall x, x < p \/ p + 4096 <= x -> st m1 (p + next_) NULL x = mem h x) as Hm3 by (intros x Hx; apply Hm2; lia).
    split; [|done].
    apply (rep_set_small h _ v p b [] L'); try done; cbn [mem klmalloc_bin_head level klmalloc_newest_big core set_mem set_bins]; try done; try lia.
    + destruct Hok1 as (? & ? & ? & ? & ? & ? & ?). unfold small_ok, head_, size_, bin_magic, next_ in *. cbn [mem].
      split; [done|]. by do 3 (split; [rewrite ld_st_apart by lia; done|]).
    + rewrite length_insert. exact (rp_length _ _ Hr).
    + intros b' Hb' Hne. rewrite list_lookup_insert_ne; [done|lia].
    + eapply (bin_list_set h); [exact HL| |done|done| |by eapply bin_next_kept].
      * intros q Hne. rewrite elem_of_cons. by split; [right|intros [?|?]].
      * cbn. rewrite list_lookup_insert_eq; [done|lia].
  - cbn [mbind outcome_bind]. eexists. split; [done|]. cbn [mem core failures set_mem]. split; [|done].
    assert (fs <> []) as Hfs by (by intros ->).
    assert (forall x, x < p \/ p + 4096 <= x -> m1 x = mem h x) as Hm3 by (intros x Hx; apply Hm1; lia).
    apply (rep_set_small h _ v p b fs (p :: L')); try done; cbn [mem klmalloc_bin_head level klmalloc_newest_big core set_mem]; try done; try lia.
    eapply (bin_list_set h); [exact HL|done| |by apply NoDup_cons|done|]; [by split; [|left]|]. cbn [mem set_mem plist].
    split; [unfold m1; rewrite ld_st_apart by (unfold next_, head_; lia); done|by eapply bin_next_kept].
Qed.

(** ** Giving a cell back *)

Lemma push_small_ok (h : heap (C:=C)) p b c fs :
  small_ok (mem h) p b fs -> base <= p -> p + 4096 < 4294967296 -> is_cell p b c -> c ∉ fs ->
  klmalloc_stack_push h p c = Ret (set_mem h (st (st (mem h) c (hd0 fs)) (p + head_) c)) /\
  small_ok (st (st (mem h) c (hd0 fs)) (p + head_) c) p b (c :: fs).
Proof.
  intros Hok Hp He Hc Hcf. pose proof Hok as (Hb & E1 & E2 & E3 & Hs & Hnd & Hcs).
  pose proof (cell_word p b c Hb Hc Hp He) as Hcw. pose proof (cell_bounds p b c Hb Hc). pose proof (csz_bounds b Hb).
  split.
  - unfold klmalloc_stack_push, NULL. destruct (Z.eqb_spec c 0); [lia|]. cbn [negb assert]. destruct (Z.ltb_spec p c); [|lia].
    cbn [assert]. rewrite !load_ok by lia. cbn [mbind outcome_bind]. rewrite E2. unfold BIG_BIN, NUM_BINS, PAGE_SIZE in *.
    destruct (Z.ltb_spec 11 b); [lia|]. destruct (Z.ltb_spec c (p + 4096)); [|lia]. cbn [assert].
    rewrite !load_ok by lia. cbn [mbind outcome_bind]. rewrite E1, !store_ok by lia. cbn [mbind outcome_bind].
    rewrite !store_ok by lia. by rewrite Z.add_0_r.
  - assert (stack (st (mem h) c (hd0 fs)) (c :: fs)) as Hs1.
    { cbn [stack]. split; [apply ld_st; by eapply hd0_word|]. eapply stack_frame; [exact Hs|]. intros c' Hc'.
      apply (proj1 (Forall_forall _ _) Hcs) in Hc' as Hcell. apply agree_st.
      destruct (cell_apart p b c c' Hb Hc Hcell); [by intros ->|lia|lia]. }
    apply (small_ok_head _ p b fs (c :: fs)); [|done|done|done|by apply NoDup_cons|by apply Forall_cons].
    unfold small_ok, head_, size_, bin_magic in *. split; [done|]. do 3 (split; [rewrite ld_st_apart by lia; done|]).
    cbn [stack] in Hs1. by destruct Hs1.
Qed.

Lemma give_cell_ok h v p b c fs :
  rep h v -> smalls v !! p = Some (b, fs) -> is_cell p b c -> c ∉ fs ->
  exists h', (empty ← klmalloc_stack_empty h p;
              h ← (if empty : bool then klmalloc_list_insert h b p else Ret h);
              klmalloc_stack_push h p c) = Ret h' /\
    rep h' (set_small v p b (c :: fs)) /\
    (forall x, x < p \/ p + 8 <= x -> x < c \/ c + csz b <= x -> mem h' x = mem h x) /\
    core h' = core h /\ failures h' = failures h.
Proof.
  intros Hr Hp Hc Hcf. destruct (small_page _ _ _ _ _ Hr Hp) as (Hpa & Hpb & Hpe).
  pose proof (rp_small _ _ Hr _ _ _ Hp) as Hok. pose proof Hok as (Hb & E1 & _ & _ & _ & _ & Hcs).
  pose proof (cell_bounds p b c Hb Hc) as Hcb. pose proof (csz_bounds b Hb) as Hcz.
  unfold klmalloc_stack_empty. rewrite load_ok by lia. cbn [mbind outcome_bind]. rewrite E1.
  destruct (rp_bins _ _ Hr b Hb) as (L & HL). pose proof HL as (EL & Hpl & HndL & HinL).
  assert (forall q n, extent v q n -> q <> p -> q + n <= p \/ p + 4096 <= q) as Hap.
  { intros q n Hq Hne. destruct (rp_apart _ _ Hr q n p 4096); [done|left; by exists b, fs|done|lia|lia]. }
  assert (bigs v !! p = None) as Hbig by (destruct (rp_kind _ _ Hr p); congruence).
  assert (forall b' fs', smalls v !! p = Some (b', fs') -> b' = b) as Hbb by (intros b' fs'; congruence).
  assert (Z.of_nat (length (klmalloc_bin_head h)) = 10) as Hlen by (by rewrite (rp_length _ _ Hr)).
  pose proof Hb as Hb'. unfold BIG_BIN, NUM_BINS in Hb'. destruct (rp_core _ _ Hr) as [Hco Hce].
  destruct (Z.eqb_spec (hd0 fs) NULL) as [Hemp|Hne].
  - assert (fs = []) as ->.
    { destruct fs as [|c' fs']; [done|]. apply Forall_cons in Hcs as [Hc' _]. pose proof (cell_word p b c' Hb Hc' Hpb ltac:(lia)). cbn in Hemp. unfold NULL in Hemp. lia. }
    assert (p ∉ L) as HpL by (intros Hin; apply HinL in Hin as (fs' & E & Hf); congruence).
    assert (0 <= hd0 L < 4294967296) as Hhd.
    { destruct L as [|q L']; cbn; [unfold NULL; lia|]. destruct (proj1 (HinL q)) as (fs' & Hq & _); [left|].
      destruct (small_page _ _ _ _ _ Hr Hq) as (_ & ? & ?). lia. }
    unfold klmalloc_list_insert. rewrite (aget_lookup _ _ (hd0 L)) by (done || lia). cbn [mbind outcome_bind]. rewrite store_ok by lia.
    cbn [mbind outcome_bind mem set_mem klmalloc_bin_head]. rewrite aset_in_range by lia. cbn [mbind outcome_bind].
    set (m0 := st (mem h) (p + next_) (hd0 L)). set (h0 := set_bins (set_mem h m0) (<[Z.to_nat b:=p]> (klmalloc_bin_head h))).
    assert (small_ok (mem h0) p b []) as Hok0.
    { destruct Hok as (? & ? & ? & ? & ? & ? & ?). unfold h0, m0. cbn [mem set_mem set_bins]. unfold small_ok, head_, size_, bin_magic, next_ in *.
      split; [done|]. by do 3 (split; [rewrite ld_st_apart by lia; done|]). }
    destruct (push_small_ok h0 p b c [] Hok0 Hpb ltac:(lia) Hc Hcf) as [-> Hok1]. eexists. split; [done|].
    set (m2 := st (st (mem h0) c (hd0 [])) (p + head_) c) in *.
    assert (forall x, x < p \/ p + 8 <= x -> x < c \/ c + csz b <= x -> m2 x = mem h x) as Hm2.
    { intros x Hx Hx'. unfold m2, h0, m0. cbn [mem set_mem set_bins]. rewrite !st_other by (unfold next_, head_; lia). done. }
    assert (forall x, x < p \/ p + 4096 <= x -> m2 x = mem h x) as Hm3 by (intros x Hx; apply Hm2; lia).
    split; [|done].
    apply (rep_set_small h _ v p b [c] (p :: L)); try done; cbn [mem klmalloc_bin_head level klmalloc_newest_big core set_mem set_bins h0]; try done; try lia.
    + rewrite length_insert. exact (rp_length _ _ Hr).
    + intros b' Hb2 Hne. rewrite list_lookup_insert_ne; [done|lia].
    + eapply (bin_list_set h); [exact HL| | |by apply NoDup_cons| |].
      * intros q Hne. rewrite elem_of_cons. by split; [intros [?|?]|right].
      * by split; [|left].
      * cbn. rewrite list_lookup_insert_eq; [done|lia].
      * cbn [mem set_mem set_bins h0 plist]. split.
        -- unfold m2. rewrite !ld_st_apart by (unfold next_, head_; lia). unfold h0, m0. cbn. by apply ld_st.
        -- eapply bin_next_kept; [exact Hr|done|done|done|]. intros q Hq. eapply bin_others; [exact HL|done|by intros ->].
  - cbn [mbind outcome_bind]. destruct (push_small_ok h p b c fs Hok Hpb ltac:(lia) Hc Hcf) as [-> Hok1]. eexists. split; [done|].
    set (m2 := st (st (mem h) c (hd0 fs)) (p + head_) c) in *.
    assert (forall x, x < p \/ p + 8 <= x -> x < c \/ c + csz b <= x -> m2 x = mem h x) as Hm2.
    { intros x Hx Hx'. unfold m2. rewrite !st_other by (unfold next_, head_; lia). done. }
    assert (forall x, x < p \/ p + 4096 <= x -> m2 x = mem h x) as Hm3 by (intros x Hx; apply Hm2; lia).
    split; [|done]. assert (fs <> []) as Hfs by (by intros ->).
    assert (p ∈ L) as HpL by (apply HinL; by exists fs).
    apply (rep_set_small h _ v p b (c :: fs) L); try done; cbn [mem klmalloc_bin_head level klmalloc_newest_big core set_mem]; try done; try lia.
    eapply (bin_list_set h); [exact HL|done|done|done|done|]. cbn [mem set_mem].
    eapply plist_frame; [exact Hpl|]. intros q Hq x Hx. destruct (Z.eq_dec q p) as [->|Hqp].
    + unfold m2. rewrite !st_other by (unfold head_; lia). done.
    + apply Hm3. destruct (proj1 (HinL q) Hq) as (fs' & Hq' & _). destruct (Hap q 4096); [left; by exists b, fs'|done|lia|lia].
Qed.

(** ** A new page of cells *)

Definition all_cells (p b : Z) : list Z := cell p b <$> seqZ 0 (ncells b).

Lemma all_cells_elem p b c : c ∈ all_cells p b <-> is_cell p b c.
Proof.
  unfold all_cells, is_cell. rewrite list_elem_of_fmap. split.
  - intros (i & -> & Hi). apply elem_of_seqZ in Hi. exists i. split; [lia|done].
  - intros (i & Hi & ->). exists i. split; [done|]. apply elem_of_seqZ. lia.
Qed.

Lemma all_cells_nodup p b : 0 <= b < BIG_BIN -> NoDup (all_cells p b).
Proof.
  intros Hb. apply NoDup_fmap_2; [|apply NoDup_seqZ]. intros i j E. unfold cell in E. pose proof (csz_bounds b Hb). nia.
Qed.

Lemma cell_index p b i : 0 <= b -> 0 <= i -> p + sizeof_bin_header + 4 * Z.shiftl i b = cell p b i.
Proof. intros Hb Hi. rewrite Z.shiftl_mul_pow2 by done. unfold cell. rewrite csz_four by done. lia. Qed.

Lemma thread_cells_ok (h : heap (C:=C)) p b i todo :
  0 <= b < BIG_BIN -> 0 <= i -> i + Z.of_nat todo < ncells b -> base <= p -> p + 4096 < 4294967296 ->
  exists m', thread_cells h (p + sizeof_bin_header) b i todo = Ret (set_mem h m') /\
    stack m' (cell p b <$> seqZ i (Z.of_nat (S todo))) /\
    forall x, x < cell p b i \/ p + 4096 <= x -> m' x = mem h x.
Proof.
  intros Hb. revert h i. induction todo as [|todo IH]; intros h i Hi Hlt Hp He; cbn [thread_cells].
  - assert (is_cell p b (cell p b i)) as Hc by (exists i; split; [lia|done]).
    pose proof (cell_word p b _ Hb Hc Hp He). pose proof (cell_bounds p b _ Hb Hc). pose proof (csz_bounds b Hb).
    rewrite cell_index by lia. rewrite store_ok by lia. rewrite Z.add_0_r. eexists. split; [done|]. rewrite seqZ_cons by lia. cbn.
    split; [split; [by apply ld_st|done]|]. intros x Hx. apply st_other. lia.
  - assert (is_cell p b (cell p b i)) as Hc by (exists i; split; [lia|done]).
    assert (is_cell p b (cell p b (i + 1))) as Hc1 by (exists (i + 1); split; [lia|done]).
    pose proof (cell_word p b _ Hb Hc Hp He). pose proof (cell_word p b _ Hb Hc1 Hp He). pose proof (cell_bounds p b _ Hb Hc).
    pose proof (csz_bounds b Hb). assert (cell p b (i + 1) = cell p b i + csz b) as Ei by (unfold cell; lia).
    rewrite !cell_index by lia. rewrite store_ok by lia. cbn [mbind outcome_bind]. rewrite Z.add_0_r.
    destruct (IH (set_mem h (st (mem h) (cell p b i) (cell p b (i + 1)))) (i + 1)) as (m' & E & Hs & Hm); [lia|lia|done|done|].
    rewrite E. cbn [mem set_mem] in Hm. exists m'. split; [done|]. rewrite seqZ_cons by lia. rewrite fmap_cons.
    replace (Z.pred (Z.of_nat (S (S todo)))) with (Z.of_nat (S todo)) by lia. change (Z.succ i) with (i + 1). cbn [stack].
    split; [split; [|done]|].
    + rewrite (agree_ld (st (mem h) (cell p b i) (cell p b (i + 1))) m' (cell p b i) (cell p b i + 4)); [|intros x Hx; apply Hm; lia|lia|lia].
      rewrite ld_st by lia. rewrite seqZ_cons by lia. done.
    + intros x Hx. rewrite Hm by lia. apply st_other. lia.
Qed.

(** There is nothing at the end of the heap. *)
Lemma end_empty h v : rep h v ->
  smalls v !! core_end (core h) = None /\ bigs v !! core_end (core h) = None.
Proof.
  intros Hr. split.
  - destruct (smalls v !! core_end (core h)) as [[b fs]|] eqn:E; [|done]. destruct (small_page _ _ _ _ _ Hr E) as (_ & _ & ?). lia.
  - destruct (bigs v !! core_end (core h)) as [sz|] eqn:E; [|done]. destruct (big_page _ _ _ _ Hr E) as (_ & _ & ? & ?). lia.
Qed.

Lemma grow_ok h v n :
  rep h v -> 0 <= n -> core_end (core h) + n * 4096 < core_limit ->
  exists c', Alloc.sbrk h (n * 4096) = Ret (core_end (core h), set_mem (set_core h c') (zero (mem h) (core_end (core h)) (n * 4096))) /\
    core_end c' = core_end (core h) + n * 4096 /\ core_ok c'.
Proof.
  intros Hr Hn Hlim. destruct (rp_core _ _ Hr) as [Hco _]. destruct (more_ok (core h) n Hco Hn Hlim) as (c' & E & Ee & Hc').
  exists c'. split; [|done]. unfold Alloc.sbrk. by rewrite E.
Qed.

Lemma new_bin_ok h v b :
  let p := core_end (core h) in
  rep h v -> 0 <= b < BIG_BIN -> klmalloc_bin_head h !! Z.to_nat b = Some NULL -> p + 4096 < core_limit ->
  exists h', new_bin h b = Ret (p, h') /\ rep h' (set_small v p b (all_cells p b)) /\
    klmalloc_bin_head h' !! Z.to_nat b = Some p /\ (forall x, x < p -> mem h' x = mem h x) /\ core_end (core h') = p + 4096 /\ failures h' = failures h.
Proof.
  intros p Hr Hb Hbin Hlim. destruct (rp_core _ _ Hr) as [Hco Hce]. fold p in Hce. pose proof core_high as Hhigh.
  pose proof (core_aligned _ Hco) as Hpa. fold p in Hpa. destruct (ncells_fit b Hb) as [Hnc _]. pose proof (csz_bounds b Hb).
  destruct (grow_ok h v 1 Hr) as (c' & Es & Ec & Hc'); [lia|fold p; lia|]. fold p in Es, Ec.
  destruct (rp_bins _ _ Hr b Hb) as (L & HL). pose proof HL as (EL & Hpl & HndL & HinL). rewrite EL in Hbin. injection Hbin as Ehd.
  assert (L = []) as ->.
  { destruct L as [|q L']; [done|]. destruct (proj1 (HinL q)) as (fs' & Hq & _); [left|]. destruct (small_page _ _ _ _ _ Hr Hq) as (_ & ? & _).
    cbn in Ehd. unfold NULL in Ehd. lia. }
  assert (Z.of_nat (length (klmalloc_bin_head h)) = 10) as Hlen by (by rewrite (rp_length _ _ Hr)).
  pose proof Hb as Hb'. unfold BIG_BIN, NUM_BINS in Hb'.
  unfold new_bin. change (Alloc.sbrk h PAGE_SIZE) with (Alloc.sbrk h (1 * 4096)). rewrite Es. cbn [mbind outcome_bind].
  rewrite !store_ok by lia. cbn [mbind outcome_bind mem set_mem set_core].
  change (p mod PAGE_SIZE) with (p mod 4096). rewrite Hpa. cbn [Z.eqb assert]. rewrite !store_ok by lia. cbn [mbind outcome_bind mem set_mem set_core].
  unfold klmalloc_list_insert. cbn [klmalloc_bin_head set_mem set_core]. rewrite (aget_lookup _ _ NULL) by (done || lia). cbn [mbind outcome_bind].
  rewrite !store_ok by lia. cbn [mbind outcome_bind mem set_mem set_core klmalloc_bin_head]. rewrite aset_in_range by lia. cbn [mbind outcome_bind].
  set (m0 := zero (mem h) p (1 * 4096)). set (m1 := st m0 (p + bin_magic) BIN_MAGIC).
  set (m2 := st m1 (p + head_) (p + sizeof_bin_header)). set (m3 := st m2 (p + next_) NULL).
  rewrite load_ok by lia. cbn [mbind outcome_bind mem set_mem set_core set_bins].
  assert (ld m3 (p + head_) = p + sizeof_bin_header) as Eh.
  { unfold m3, m2. rewrite ld_st_apart by (unfold head_, next_; lia). apply ld_st. unfold sizeof_bin_header. lia. }
  rewrite Eh. set (h3 := set_bins _ _). change (Z.shiftr (PAGE_SIZE - sizeof_bin_header) (SMALLEST_BIN_LOG + b)) with (ncells b).
  destruct (thread_cells_ok h3 p b 0 (Z.to_nat (ncells b - 1))) as (m4 & -> & Hst & Hm4); [done|lia|lia|lia|lia|].
  cbn [mbind outcome_bind]. rewrite store_ok by lia. cbn [mbind outcome_bind mem set_mem]. set (m5 := st m4 (p + size_) b).
  replace (Z.of_nat (S (Z.to_nat (ncells b - 1)))) with (ncells b) in Hst by lia. fold (all_cells p b) in Hst.
  assert (cell p b 0 = p + 16) as Ec0 by (unfold cell, sizeof_bin_header; lia). rewrite Ec0 in Hm4. change (mem h3) with m3 in Hm4.
  assert (forall x, x < p \/ p + 4096 <= x -> m5 x = mem h x) as Hm5.
  { intros x Hx. unfold m5. rewrite st_other by (unfold size_; lia). rewrite Hm4 by lia. unfold m3, m2, m1.
    rewrite !st_other by (unfold next_, head_, bin_magic; lia). unfold m0, zero.
    destruct (Z.leb_spec p x), (Z.ltb_spec x (p + 1 * 4096)); cbn [andb]; done || lia. }
  assert (forall a, p <= a -> a + 4 <= p + 16 -> ld m4 a = ld m3 a) as Hld by (intros a Ha Hb2; apply ld_ext; intros x Hx; apply Hm4; lia).
  assert (small_ok m5 p b (all_cells p b)) as Hok5.
  { split; [done|]. unfold head_, size_, bin_magic, next_ in *. split; [|split; [|split; [|split; [|split]]]].
    - unfold m5. rewrite ld_st_apart, Hld, Eh by lia. unfold all_cells. rewrite seqZ_cons by lia. cbn. by rewrite Ec0.
    - unfold m5. apply ld_st. lia.
    - unfold m5. rewrite ld_st_apart, Hld by lia. unfold m3, m2. rewrite !ld_st_apart by lia. by apply ld_st.
    - eapply stack_frame; [exact Hst|]. intros c Hc. apply all_cells_elem in Hc. pose proof (cell_bounds p b c Hb Hc).
      apply agree_st. lia.
    - by apply all_cells_nodup.
    - apply Forall_forall. intros c. by rewrite all_cells_elem. }
  destruct (end_empty h v Hr) as [Es0 Eb0]. fold p in Es0, Eb0.
  eexists. split; [done|]. cbn [mem set_mem klmalloc_bin_head failures set_bins set_core core h3].
  split; [|split; [rewrite list_lookup_insert_eq; [done|lia]|split; [intros x Hx; apply Hm5; lia|split; [cbn [core]; lia|done]]]].
  apply (rep_set_small h _ v p b (all_cells p b) [p]); try done; cbn [mem klmalloc_bin_head level klmalloc_newest_big core set_mem set_bins set_core h3]; try done; try lia.
  - congruence.
  - intros q n Hq Hne. destruct (rp_pages _ _ Hr q n Hq) as (_ & _ & Hqe). fold p in Hqe. lia.
  - rewrite length_insert. exact (rp_length _ _ Hr).
  - intros b2 Hb2 Hne. rewrite list_lookup_insert_ne; [done|lia].
  - eapply (bin_list_set h); [exact HL| | |apply NoDup_singleton| |].
    + intros q Hne. rewrite list_elem_of_singleton. split; [done|]. by intros ?%not_elem_of_nil.
    + rewrite list_elem_of_singleton. split; [intros _|done]. unfold all_cells. rewrite seqZ_cons by lia. done.
    + cbn. rewrite list_lookup_insert_eq; [done|lia].
    + cbn [mem set_mem plist hd0]. split; [|done]. unfold m5. unfold next_, size_ in *. rewrite ld_st_apart, Hld by lia. by apply ld_st.
Qed.

(** ** [klmalloc] of a small size *)

(** Blocks in use keep their bytes. *)
Definition kept (v : view) (m m' : mem_t) : Prop := forall a k x, live v a k -> a <= x < a + k -> m' x = m x.

(** The cell of a page, in use or not, is in no other page or block. *)
Lemma live_cell h v p b fs c k : rep h v -> smalls v !! p = Some (b, fs) -> is_cell p b c -> live v c k -> (c ∉ fs) /\ k = csz b.
Proof.
  intros Hr Hp Hc Hl. destruct (rp_small _ _ Hr _ _ _ Hp) as (Hb & _). pose proof (cell_bounds _ _ _ Hb Hc). pose proof (csz_bounds _ Hb).
  destruct Hl as [(q & b' & fs' & Hq & Hc' & Hn & ->)|(q & Hq & _ & ->)].
  - destruct (rp_small _ _ Hr _ _ _ Hq) as (Hb' & _). pose proof (cell_bounds _ _ _ Hb' Hc'). pose proof (csz_bounds _ Hb').
    assert (q = p) as -> by (apply (home_unique h v p 4096 q 4096 c); [done|left; by exists b, fs|left; by exists b', fs'|lia|lia]).
    rewrite Hp in Hq. by injection Hq as <- <-.
  - destruct (big_page _ _ _ _ Hr Hq) as (_ & _ & _ & ?).
    assert (q = p) as -> by (apply (home_unique h v p 4096 q (k + 48) (q + 48)); [done|left; by exists b, fs|right; by exists k|lia|lia]).
    destruct (rp_kind _ _ Hr p); congruence.
Qed.

(** The header of a page is in no block in use. *)
Lemma header_kept h v p n m' :
  rep h v -> extent v p n -> (forall x, x < p \/ p + 16 <= x -> m' x = mem h x) -> kept v (mem h) m'.
Proof.
  intros Hr Hp Hm a k x Hl Hx. apply Hm. destruct (live_where _ _ _ _ Hr Hl) as (q & n' & Hq & ? & ? & ?).
  pose proof (extent_large _ _ _ _ Hr Hp). destruct (Z.eq_dec q p) as [->|Hne]; [lia|].
  destruct (rp_apart _ _ Hr q n' p n Hq Hp Hne); lia.
Qed.

Lemma live_set_small v p b fs a k :
  live (set_small v p b fs) a k <->
  (is_cell p b a /\ (a ∉ fs) /\ k = csz b) \/
  (exists q b' fs', q <> p /\ smalls v !! q = Some (b', fs') /\ is_cell q b' a /\ (a ∉ fs') /\ k = csz b') \/
  (exists q, bigs v !! q = Some k /\ (q ∉ nd <$> frees v) /\ a = q + 48).
Proof.
  unfold live, set_small. cbn [smalls bigs frees]. split.
  - intros [(q & b' & fs' & Hq & Hrest)|Hbig]; [|by right; right]. destruct (Z.eq_dec q p) as [->|Hne].
    + rewrite lookup_insert_eq in Hq. injection Hq as <- <-. by left.
    + rewrite lookup_insert_ne in Hq by done. right. left. by exists q, b', fs'.
  - intros [Hp|[(q & b' & fs' & Hne & Hq & Hrest)|Hbig]]; [left|left|by right].
    + exists p, b, fs. by rewrite lookup_insert_eq.
    + exists q, b', fs'. by rewrite lookup_insert_ne.
Qed.

Lemma live_take v p b c fs a k :
  smalls v !! p = Some (b, c :: fs) -> is_cell p b c -> c ∉ fs ->
  live (set_small v p b fs) a k <-> (a = c /\ k = csz b) \/ live v a k.
Proof.
  intros Hp Hc Hcf. rewrite live_set_small. unfold live at 1. split.
  - intros [(Ha & Haf & ->)|[(q & b' & fs' & _ & Hq & Hrest)|Hbig]].
    + destruct (Z.eq_dec a c) as [->|Hne]; [by left|]. right. left. exists p, b, (c :: fs). do 2 (split; [done|]). split; [|done].
      by apply not_elem_of_cons.
    + right. left. by exists q, b', fs'.
    + right. by right.
  - intros [[-> ->]|[(q & b' & fs' & Hq & Ha & Haf & ->)|Hbig]]; [by left| |by right; right].
    destruct (Z.eq_dec q p) as [->|Hne]; [|right; left; by exists q, b', fs'].
    rewrite Hp in Hq. injection Hq as <- <-. left. apply not_elem_of_cons in Haf as [_ Haf]. done.
Qed.

Lemma live_new_page v p b a k : smalls v !! p = None -> live (set_small v p b (all_cells p b)) a k <-> live v a k.
Proof.
  intros Hp. rewrite live_set_small. unfold live. split.
  - intros [(Ha & Haf & _)|[(q & b' & fs' & _ & Hq & Hrest)|Hbig]]; [by rewrite all_cells_elem in Haf|left; by exists q, b', fs'|by right].
  - intros [(q & b' & fs' & Hq & Hrest)|Hbig]; [|by right; right]. right. left. exists q, b', fs'. split; [congruence|done].
Qed.

Lemma klmalloc_small_ok h v b :
  rep h v -> 0 <= b < BIG_BIN -> core_end (core h) + 4096 < core_limit ->
  exists c h' v', klmalloc_small h b = Ret (c, h') /\ rep h' v' /\
    (forall a k, live v' a k <-> (a = c /\ k = csz b) \/ live v a k) /\ (forall k, ~ live v c k) /\
    kept v (mem h) (mem h') /\ core_end (core h') <= core_end (core h) + 4096 /\ failures h' = failures h.
Proof.
  intros Hr Hb Hlim. unfold klmalloc_small, klmalloc_list_head.
  destruct (rp_bins _ _ Hr b Hb) as (L & HL). pose proof HL as (EL & _ & _ & HinL).
  rewrite (aget_lookup _ _ (hd0 L)) by (done || lia). cbn [mbind outcome_bind].
  assert (exists p h1 v1 c fs, (if hd0 L =? NULL then new_bin h b else Ret (hd0 L, h)) = Ret (p, h1) /\ rep h1 v1 /\
    klmalloc_bin_head h1 !! Z.to_nat b = Some p /\ smalls v1 !! p = Some (b, c :: fs) /\
    (forall a k, live v1 a k <-> live v a k) /\ (forall x, x < core_end (core h) -> mem h1 x = mem h x) /\
    core_end (core h1) <= core_end (core h) + 4096 /\ failures h1 = failures h)
    as (p & h1 & v1 & c & fs & -> & Hr1 & Hb1 & Hp1 & Hlv & Hm1 & Hc1 & Hf1).
  { destruct (Z.eqb_spec (hd0 L) NULL) as [E|Hne].
    - rewrite E in EL. destruct (new_bin_ok h v b Hr Hb EL Hlim) as (h1 & -> & Hr1 & Hb1 & Hm1 & Hc1 & Hf1).
      destruct (ncells_fit b Hb) as [Hnc _]. destruct (end_empty h v Hr) as [Hs _]. set (p := core_end (core h)) in *.
      exists p, h1, (set_small v p b (all_cells p b)), (cell p b 0), (cell p b <$> seqZ 1 (ncells b - 1)).
      split; [done|]. split; [done|]. split; [done|]. split; [|split; [intros; by apply live_new_page|split; [done|split; [lia|done]]]].
      cbn. rewrite lookup_insert_eq. unfold all_cells. rewrite seqZ_cons by lia. done.
    - destruct L as [|p L']; [done|]. cbn [hd0] in *. destruct (proj1 (HinL p)) as (fs & Hp & Hfs); [left|]. destruct fs as [|c fs]; [done|].
      exists p, h, v, c, fs. do 6 (split; [done|]). split; [lia|done]. }
  cbn [mbind outcome_bind]. destruct (rp_small _ _ Hr1 _ _ _ Hp1) as (_ & _ & _ & _ & _ & Hnd & Hcs).
  apply NoDup_cons in Hnd as [Hcf _]. apply Forall_cons in Hcs as [Hc _].
  destruct (take_cell_ok h1 v1 p b c fs Hr1 Hp1 Hb1) as (h2 & E2 & Hr2 & Hm2 & Hc2 & Hf2). rewrite E2.
  exists c, h2, (set_small v1 p b fs). split; [done|]. split; [done|]. split; [|split; [|split; [|split]]].
  - intros a k. rewrite (live_take v1 p b c fs) by done. by rewrite Hlv.
  - intros k Hl. apply Hlv in Hl. destruct (live_cell _ _ _ _ _ _ _ Hr1 Hp1 Hc Hl) as [Hn _]. apply Hn. left.
  - intros a k x Hl Hx. assert (x < core_end (core h)) as Hxe.
    { destruct (live_where _ _ _ _ Hr Hl) as (q & n & Hq & ? & ? & ?). destruct (rp_pages _ _ Hr q n Hq) as (_ & _ & ?). lia. }
    rewrite <- Hm1 by done. apply (header_kept h1 v1 p 4096 (mem h2)) with (a := a) (k := k); [done|left; by exists b, (c :: fs)| |by apply Hlv|done].
    intros y Hy. apply Hm2. lia.
  - by rewrite Hc2.
  - by rewrite Hf2.
Qed.

(** ** Changing one big block *)

Definition set_big (v : view) (p sz : Z) (ns : list node) : view := View (smalls v) (<[p := sz]> (bigs v)) ns.

(** The bytes a change of the big blocks may touch besides the block itself: next
    and forward pointers of big blocks, and the static head. *)
Definition links_free (v : view) (x : Z) : Prop :=
  (forall q s, bigs v !! q = Some s -> ~ q <= x < q + 4 /\ ~ q + 20 <= x < q + 48) /\ (x < big_head \/ big_head + 48 <= x).

(** Bytes of a page or block that are not links. *)
Lemma extent_links h v q n x :
  rep h v -> extent v q n -> q <= x < q + n -> (is_Some (bigs v !! q) -> ~ q <= x < q + 4 /\ ~ q + 20 <= x < q + 48) -> links_free v x.
Proof.
  intros Hr Hq Hx Hown. destruct (rp_pages _ _ Hr q n Hq) as (_ & ? & _). split; [|lia]. intros q2 s2 Hq2.
  destruct (Z.eq_dec q2 q) as [->|Hne]; [apply Hown; by exists s2|]. destruct (big_page _ _ _ _ Hr Hq2) as (_ & _ & _ & ?).
  destruct (rp_apart _ _ Hr q2 (s2 + 48) q n); [right; by exists s2|done|done|lia|lia].
Qed.

Lemma extent_set_big v p sz ns q n : extent (set_big v p sz ns) q n -> (q = p /\ n = sz + 48) \/ (q <> p /\ extent v q n) \/ (exists b fs, smalls v !! p = Some (b, fs)).
Proof.
  destruct (Z.eq_dec q p) as [->|Hne].
  - intros [(b & fs & E & _)|(s & E & ->)]; [right; right; by exists b, fs|]. cbn in E. rewrite lookup_insert_eq in E. injection E as <-. by left.
  - intros [(b' & fs' & E & ->)|(s & E & ->)]; right; left; (split; [done|]).
    + left. by exists b', fs'.
    + right. exists s. cbn in E. by rewrite lookup_insert_ne in E by done.
Qed.

Lemma rep_set_big h h' v p sz ns :
  rep h v -> smalls v !! p = None -> (forall s, bigs v !! p = Some s -> s = sz) ->
  (forall x, x < p \/ p + sz + 48 <= x -> links_free v x -> mem h' x = mem h x) ->
  (forall q, q <> p -> q ∈ nd <$> ns <-> q ∈ nd <$> frees v) ->
  (forall q n, extent v q n -> q <> p -> q + n <= p \/ p + sz + 48 <= q) ->
  p mod 4096 = 0 -> base <= p -> p + sz + 48 <= core_end (core h') -> core_end (core h) <= core_end (core h') <= core_limit ->
  core_ok (core h') -> klmalloc_bin_head h' = klmalloc_bin_head h ->
  klmalloc_newest_big h' = klmalloc_newest_big h \/ klmalloc_newest_big h' = p ->
  big_ok (mem h') p sz (bool_decide (p ∈ nd <$> ns)) -> skips big_head (mem h') ns (level h') ->
  (forall n, n ∈ ns -> <[p := sz]> (bigs v) !! nd n = Some (nsz n)) -> rep h' (set_big v p sz ns).
Proof.
  intros Hr Hsm Hbp Hm Hns Hap Hpa Hpb Hpe Hce Hco Hbins Hnew Hok Hsk Hnsz.
  assert (forall q n lo hi, extent v q n -> q <> p -> q <= lo -> hi <= q + n ->
    (is_Some (bigs v !! q) -> forall x, lo <= x < hi -> ~ q <= x < q + 4 /\ ~ q + 20 <= x < q + 48) -> agree (mem h) (mem h') lo hi) as Hag.
  { intros q n lo hi Hq Hne Hlo Hhi Hl x Hx. apply Hm; [destruct (Hap q n Hq Hne); lia|].
    apply (extent_links h v q n); [done|done|lia|]. intros Hb. by apply (Hl Hb). }
  assert (forall q b fs, smalls v !! q = Some (b, fs) -> q <> p /\ (is_Some (bigs v !! q) -> False)) as Hsb.
  { intros q b fs Hq. split; [congruence|]. intros [s E]. destruct (rp_kind _ _ Hr q); congruence. }
  split.
  - intros q b fs Hq. cbn in Hq. eapply small_ok_frame; [by eapply (rp_small _ _ Hr)|]. destruct (Hsb q b fs Hq) as [Hne Hnb].
    apply (Hag q 4096); [left; by exists b, fs|done|lia|lia|by intros ?%Hnb].
  - rewrite Hbins. exact (rp_length _ _ Hr).
  - intros b Hb. destruct (rp_bins _ _ Hr b Hb) as (L & E & Hpl & Hnd & Hin). exists L. rewrite <- Hbins in E. split; [done|]. split; [|done].
    eapply plist_frame; [exact Hpl|]. intros q Hq. apply Hin in Hq as (fs & Hq & _). destruct (Hsb q b fs Hq) as [Hne Hnb].
    apply (Hag q 4096); [left; by exists b, fs|done|lia|lia|by intros ?%Hnb].
  - intros q s Hq. cbn in Hq |- *. destruct (Z.eq_dec q p) as [->|Hne].
    + rewrite lookup_insert_eq in Hq. by injection Hq as <-.
    + rewrite lookup_insert_ne in Hq by done. assert (bool_decide (q ∈ nd <$> ns) = bool_decide (q ∈ nd <$> frees v)) as -> by (apply bool_decide_ext; by apply Hns).
      destruct (big_page _ _ _ _ Hr Hq) as (_ & _ & _ & ?).
      eapply big_ok_frame; [by eapply (rp_big _ _ Hr)| |]; (apply (Hag q (s + 48)); [right; by exists s|done|lia|lia|intros _ x Hx; lia]).
  - done.
  - done.
  - cbn. destruct Hnew as [->| ->]; [|right; rewrite lookup_insert_eq; by eexists].
    destruct (rp_newest _ _ Hr) as [->|[s Hs]]; [by left|]. right. destruct (Z.eq_dec (klmalloc_newest_big h) p) as [->|Hne].
    + rewrite lookup_insert_eq. by eexists.
    + rewrite lookup_insert_ne by done. by eexists.
  - split; [done|]. destruct (rp_core _ _ Hr). lia.
  - intros q n Hq. destruct (extent_set_big _ _ _ _ _ _ Hq) as [[-> ->]|[[Hne Hq']|(b & fs & E)]]; [split; [done|]; lia| |congruence].
    destruct (rp_pages _ _ Hr q n Hq') as (? & ? & ?). split; [done|]. lia.
  - intros q n q' k Hq Hq' Hne. destruct (extent_set_big _ _ _ _ _ _ Hq) as [[-> ->]|[[Hqp Hq1]|(b & fs & E)]]; [| |congruence];
    destruct (extent_set_big _ _ _ _ _ _ Hq') as [[-> ->]|[[Hqp' Hq1']|(b & fs & E)]]; try congruence; try lia.
    + destruct (Hap q' k Hq1' Hqp'); lia.
    + destruct (Hap q n Hq1 Hqp); lia.
    + by apply (rp_apart _ _ Hr).
  - intros q. cbn. destruct (Z.eq_dec q p) as [->|Hne]; [by left|]. rewrite lookup_insert_ne by done. apply (rp_kind _ _ Hr).
Qed.

(** Blocks in use keep their bytes when only links, the header of one block and
    its first word change. *)
Lemma links_kept h v p m' a k x :
  rep h v -> is_Some (bigs v !! p) \/ core_end (core h) <= p ->
  (forall y, y < p \/ p + 16 <= y -> y < p + 48 \/ p + 52 <= y -> links_free v y -> y < core_end (core h) -> m' y = mem h y) ->
  live v a k -> a <> p + 48 -> a <= x < a + k -> m' x = mem h x.
Proof.
  intros Hr Hp Hm Hl Hne Hx.
  assert (exists q n, extent v q n /\ q <> p /\ q <= x < q + n /\ (is_Some (bigs v !! q) -> q + 48 <= x)) as (q & n & Hq & Hqp & Hxq & Hb).
  { destruct Hl as [(q & b & fs & Hq & Hc & _ & ->)|(q & Hq & _ & ->)].
    - destruct (rp_small _ _ Hr _ _ _ Hq) as (Hb & _). pose proof (cell_bounds _ _ _ Hb Hc). destruct (small_page _ _ _ _ _ Hr Hq) as (_ & _ & ?).
      assert (bigs v !! q = None) as En by (destruct (rp_kind _ _ Hr q); congruence).
      exists q, 4096. split; [left; by exists b, fs|]. split; [|split; [lia|rewrite En; by intros []]].
      intros ->. destruct Hp as [[s Hs]|Hp]; [congruence|lia].
    - exists q, (k + 48). split; [right; by exists k|]. split; [lia|]. split; [lia|intros _; lia]. }
  destruct (rp_pages _ _ Hr q n Hq) as (_ & _ & Hqe). apply Hm; [| | |lia].
  - destruct Hp as [[s Hs]|Hp]; [|lia]. destruct (big_page _ _ _ _ Hr Hs) as (_ & _ & _ & ?).
    destruct (rp_apart _ _ Hr q n p (s + 48)); [done|right; by exists s|done|lia|lia].
  - destruct Hp as [[s Hs]|Hp]; [|lia]. destruct (big_page _ _ _ _ Hr Hs) as (_ & _ & _ & ?).
    destruct (rp_apart _ _ Hr q n p (s + 48)); [done|right; by exists s|done|lia|lia].
  - apply (extent_links h v q n); [done|done|done|]. intros Hs. specialize (Hb Hs). lia.
Qed.

(** The free blocks are at different pages of the heap. *)
Lemma frees_fuel h v : rep h v -> (length (frees v) < skip_fuel h)%nat.
Proof.
  intros Hr. destruct (rp_core _ _ Hr) as [Hco _]. pose proof (core_low _ Hco). unfold skip_fuel.
  assert ((fun n => nd n / 4096) <$> frees v ⊆+ seqZ 0 (core_end (core h) / 4096)) as Hsub.
  { apply NoDup_submseteq.
    - pose proof (sk_nodup _ _ _ _ (rp_skips _ _ Hr)) as Hnd. rewrite (list_fmap_compose nd (fun a => a / 4096)).
      apply (NoDup_fmap_2_strong (fun a => a / 4096)); [|done]. intros a a' Ha Ha' E.
      apply list_elem_of_fmap in Ha as (n & -> & Hn). apply list_elem_of_fmap in Ha' as (n' & -> & Hn').
      destruct (big_page _ _ _ _ Hr (rp_free _ _ Hr _ Hn)) as (Hq1 & _). destruct (big_page _ _ _ _ Hr (rp_free _ _ Hr _ Hn')) as (Hq2 & _).
      Z.to_euclidean_division_equations. lia.
    - intros a Ha. apply list_elem_of_fmap in Ha as (n & -> & Hn). apply elem_of_seqZ.
      destruct (big_page _ _ _ _ Hr (rp_free _ _ Hr _ Hn)) as (Hq1 & Hq2 & Hq3 & Hq4). pose proof (core_aligned _ Hco) as Hq5.
      Z.to_euclidean_division_equations. lia. }
  apply submseteq_length in Hsub. rewrite length_fmap, length_seqZ in Hsub. unfold PAGE_SIZE. lia.
Qed.

(** ** Big blocks in use *)

Lemma live_big h v p sz k : rep h v -> bigs v !! p = Some sz -> live v (p + 48) k -> (p ∉ nd <$> frees v) /\ k = sz.
Proof.
  intros Hr Hp Hl. destruct (big_page _ _ _ _ Hr Hp) as (_ & _ & _ & Hsz).
  destruct Hl as [(q & b & fs & Hq & Hc & _ & ->)|(q & Hq & Hn & E)].
  - destruct (rp_small _ _ Hr _ _ _ Hq) as (Hb & _). pose proof (cell_bounds _ _ _ Hb Hc). pose proof (csz_bounds _ Hb).
    assert (q = p) as -> by (apply (home_unique h v p (sz + 48) q 4096 (p + 48)); [done|right; by exists sz|left; by exists b, fs|lia|lia]).
    destruct (rp_kind _ _ Hr p); congruence.
  - assert (q = p) as -> by lia. split; [done|congruence].
Qed.

Lemma live_set_big v p sz ns a k :
  (forall q, q <> p -> q ∈ nd <$> ns <-> q ∈ nd <$> frees v) ->
  live (set_big v p sz ns) a k <->
  (exists q b fs, smalls v !! q = Some (b, fs) /\ is_cell q b a /\ (a ∉ fs) /\ k = csz b) \/
  (a = p + 48 /\ k = sz /\ (p ∉ nd <$> ns)) \/
  (exists q, q <> p /\ bigs v !! q = Some k /\ (q ∉ nd <$> frees v) /\ a = q + 48).
Proof.
  intros Hns. unfold live, set_big. cbn [smalls bigs frees]. split.
  - intros [Hs|(q & Hq & Hn & ->)]; [by left|]. right. destruct (Z.eq_dec q p) as [->|Hne].
    + rewrite lookup_insert_eq in Hq. injection Hq as <-. by left.
    + rewrite lookup_insert_ne in Hq by done. right. exists q. by rewrite <- Hns.
  - intros [Hs|[(-> & -> & Hn)|(q & Hne & Hq & Hn & ->)]]; [by left|right; exists p|right; exists q].
    + by rewrite lookup_insert_eq.
    + by rewrite lookup_insert_ne, Hns.
Qed.

(** A block taken into use. *)
Lemma live_use v p sz ns a k :
  (forall q, q <> p -> q ∈ nd <$> ns <-> q ∈ nd <$> frees v) -> (p ∉ nd <$> ns) ->
  (forall s, bigs v !! p = Some s -> p ∈ nd <$> frees v) ->
  live (set_big v p sz ns) a k <-> (a = p + 48 /\ k = sz) \/ live v a k.
Proof.
  intros Hns Hp Hf. rewrite live_set_big by done. unfold live. split.
  - intros [Hs|[(-> & -> & _)|(q & _ & Hq)]]; [right; by left|by left|right; right; by exists q].
  - intros [[-> ->]|[Hs|(q & Hq & Hn & ->)]]; [by right; left|by left|right; right; exists q]. split; [|done].
    intros ->. by apply Hn, (Hf k).
Qed.

(** A block given back. *)
Lemma live_unuse h v p sz ns a k :
  rep h v -> bigs v !! p = Some sz -> (forall q, q <> p -> q ∈ nd <$> ns <-> q ∈ nd <$> frees v) -> p ∈ nd <$> ns ->
  live (set_big v p sz ns) a k <-> live v a k /\ a <> p + 48.
Proof.
  intros Hr Hp Hns Hin. rewrite live_set_big by done. split.
  - intros [Hs|[(_ & _ & Hn)|(q & Hne & Hq & Hn & ->)]]; [|done|split; [right; by exists q|lia]].
    split; [by left|]. intros ->. destruct Hs as (q & b & fs & Hq & Hc & Hn & ->).
    destruct (rp_small _ _ Hr _ _ _ Hq) as (Hb & _). pose proof (cell_bounds _ _ _ Hb Hc). pose proof (csz_bounds _ Hb).
    destruct (big_page _ _ _ _ Hr Hp) as (_ & _ & _ & Hsz).
    assert (q = p) as -> by (apply (home_unique h v p (sz + 48) q 4096 (p + 48)); [done|right; by exists sz|left; by exists b, fs|lia|lia]).
    destruct (rp_kind _ _ Hr p); congruence.
  - intros [[Hs|(q & Hq & Hn & ->)] Hne]; [by left|]. right. right. exists q. split; [congruence|done].
Qed.

(** ** [klmalloc] of a big size *)

(** The number of pages for a request. *)
Definition npages (size : Z) : Z := (size + 48) / 4096 + 1.

Lemma npages_fit size : 0 <= size -> size < npages size * 4096 - 48 /\ 0 < npages size.
Proof. intros Hs. unfold npages. Z.to_euclidean_division_equations. lia. Qed.

Lemma new_big_ok h v size :
  let p := core_end (core h) in
  let sz := npages size * 4096 - 48 in
  rep h v -> 0 <= size -> p + npages size * 4096 < core_limit ->
  exists h', new_big h size = Ret (p + 48, h') /\ rep h' (set_big v p sz (frees v)) /\
    (forall y, links_free v y -> y < p -> mem h' y = mem h y) /\ core_end (core h') = p + npages size * 4096 /\ failures h' = failures h.
Proof.
  intros p sz Hr Hsz Hlim. destruct (rp_core _ _ Hr) as [Hco Hce]. fold p in Hce. pose proof core_high as Hhigh.
  pose proof (core_aligned _ Hco) as Hpa. fold p in Hpa. pose proof (npages_fit size Hsz) as [Hfit Hpos]. fold sz in Hfit.
  destruct (grow_ok h v (npages size) Hr) as (c' & Es & Ec & Hc'); [lia|fold p; lia|]. fold p in Es, Ec.
  destruct (end_empty h v Hr) as [Es0 Eb0]. fold p in Es0, Eb0.
  assert (p ∉ nd <$> frees v) as Hpf.
  { intros Hin. apply list_elem_of_fmap in Hin as (n & E & Hn). apply (rp_free _ _ Hr) in Hn. rewrite <- E in Hn. congruence. }
  unfold new_big, PAGE_SIZE, sizeof_big_bin_header. rewrite (u32_small (size + 48)) by lia. fold (npages size).
  rewrite (u32_small (4096 * npages size)) by lia. rewrite (u32_small (npages size * 4096 - 48)) by lia. fold sz.
  rewrite (Z.mul_comm 4096), Es. cbn [mbind outcome_bind]. rewrite store_ok by lia. cbn [mbind outcome_bind mem set_mem set_core].
  rewrite Hpa. cbn [Z.eqb assert]. rewrite store_ok by lia. cbn [mbind outcome_bind mem set_mem set_core].
  assert (pages_exactly sz = true) as Hex.
  { unfold pages_exactly, sizeof_big_bin_header, PAGE_SIZE. rewrite u32_small by lia. apply Z.eqb_eq. unfold sz.
    replace (npages size * 4096 - 48 + 48) with (npages size * 4096) by lia. by apply Z.mod_mul. }
  rewrite Hex. cbn [assert klmalloc_newest_big set_mem set_core]. rewrite store_ok by lia. cbn [mbind outcome_bind mem set_mem set_core].
  set (m0 := zero (mem h) p (npages size * 4096)). set (m1 := st m0 (p + bin_magic) BIN_MAGIC).
  set (m2 := st m1 (p + size_) sz). set (m3 := st m2 (p + prev_) (klmalloc_newest_big h)).
  match goal with |- context [if _ =? NULL then Ret ?x else _] => set (h3 := x) end.
  assert (exists m4, (if klmalloc_newest_big h =? NULL then Ret h3 else store h3 (klmalloc_newest_big h) next_ p) = Ret (set_mem h3 m4) /\
    (forall y, (forall s, bigs v !! klmalloc_newest_big h = Some s -> y < klmalloc_newest_big h \/ klmalloc_newest_big h + 4 <= y) -> m4 y = m3 y)) as (m4 & -> & Hm4).
  { destruct (Z.eqb_spec (klmalloc_newest_big h) NULL) as [E|Hne]; [by exists m3|]. destruct (rp_newest _ _ Hr) as [|[s Hs]]; [done|].
    rewrite store_ok by done. eexists. split; [done|]. intros y Hy. specialize (Hy s Hs). apply st_other. unfold next_. lia. }
  assert (forall y, p <= y -> m4 y = m3 y) as Hm4p.
  { intros y Hy. apply Hm4. intros s Hs. destruct (big_page _ _ _ _ Hr Hs) as (_ & _ & He & Hs4). fold p in He. lia. }
  assert (forall y, y < p \/ p + sz + 48 <= y -> m3 y = mem h y) as Hm3.
  { intros y Hy. unfold m3, m2, m1. rewrite !st_other by (unfold prev_, size_, bin_magic; lia). unfold m0, zero.
    destruct (Z.leb_spec p y), (Z.ltb_spec y (p + npages size * 4096)); cbn [andb]; done || lia. }
  cbn [mbind outcome_bind]. rewrite store_ok by lia. cbn [mbind outcome_bind mem set_mem set_newest]. rewrite store_ok by lia.
  cbn [mbind outcome_bind mem set_mem set_newest]. set (m6 := st (st m4 (p + next_) NULL) (p + head_) NULL).
  assert (forall y, (forall s, bigs v !! klmalloc_newest_big h = Some s -> y < klmalloc_newest_big h \/ klmalloc_newest_big h + 4 <= y) ->
    y < p \/ p + sz + 48 <= y -> m6 y = mem h y) as Hm6.
  { intros y Hl Hy. unfold m6. rewrite !st_other by (unfold next_, head_; lia). rewrite Hm4 by done. by apply Hm3. }
  assert (forall y, links_free v y -> y < p \/ p + sz + 48 <= y -> m6 y = mem h y) as Hm6l.
  { intros y [Hl _] Hy. apply Hm6; [|done]. intros s Hs. specialize (Hl _ _ Hs). lia. }
  eexists. split; [done|]. cbn [mem failures set_mem set_newest set_core core h3]. split; [|split; [intros y Hl Hy; apply Hm6l; [done|lia]|split; [cbn [core]; lia|done]]].
  assert (forall a, p + 8 <= a -> a + 4 <= p + 16 -> ld m6 a = ld m3 a) as Hld.
  { intros a Ha1 Ha2. unfold m6. unfold next_, head_. rewrite !ld_st_apart by lia. apply ld_ext. intros y Hy. apply Hm4p. lia. }
  apply (rep_set_big h _ v p sz (frees v)); cbn [mem klmalloc_bin_head level klmalloc_newest_big core set_mem set_newest set_core h3]; try done; try lia.
  - congruence.
  - intros y Hy Hl. by apply Hm6l.
  - intros q n Hq Hne. destruct (rp_pages _ _ Hr q n Hq) as (_ & _ & Hqe). fold p in Hqe. lia.
  - rewrite bool_decide_false by done. unfold big_ok. split; [lia|]. split; [unfold sz; rewrite Z.sub_add; by apply Z.mod_mul|].
    unfold size_, bin_magic, head_ in *. split; [|split; [|split; [unfold m6; apply ld_st; done|done]]].
    + rewrite Hld by lia. unfold m3, prev_. rewrite ld_st_apart by lia. unfold m2. apply ld_st. lia.
    + rewrite Hld by lia. unfold m3, prev_, m2. rewrite !ld_st_apart by lia. unfold m1. by apply ld_st.
  - eapply skips_frame; [exact (rp_skips _ _ Hr)| |].
    + intros x Hx. apply Hm6; [|lia]. intros s Hs. destruct (big_page _ _ _ _ Hr Hs) as (_ & ? & _). lia.
    + intros n x Hn Hx. pose proof (rp_free _ _ Hr n Hn) as Hq. destruct (big_page _ _ _ _ Hr Hq) as (_ & _ & He & Hn4). fold p in He.
      apply Hm6; [|lia]. intros s Hs. destruct (big_page _ _ _ _ Hr Hs) as (_ & _ & _ & Hs4).
      destruct (Z.eq_dec (nd n) (klmalloc_newest_big h)) as [E|Hne]; [lia|].
      destruct (rp_apart _ _ Hr (nd n) (nsz n + 48) (klmalloc_newest_big h) (s + 48)); [right; by exists (nsz n)|right; by exists s|done|lia|lia].
  - intros n Hn. rewrite lookup_insert_ne; [by apply (rp_free _ _ Hr)|]. intros E. apply Hpf. apply list_elem_of_fmap. by exists n.
Qed.

(** Forward pointers of free blocks, of [p] and of the head are links. *)
Lemma only_links_free h v m m' p s :
  rep h v -> bigs v !! p = Some s -> only_links m m' (big_head :: p :: (nd <$> frees v)) ->
  forall y, links_free v y -> m' y = m y.
Proof.
  intros Hr Hp Ho y [Hl Hh]. apply Ho. intros q Hq. apply elem_of_cons in Hq as [->|Hq]; [lia|].
  assert (exists s', bigs v !! q = Some s') as [s' Hs].
  { apply elem_of_cons in Hq as [->|Hq]; [by exists s|]. apply list_elem_of_fmap in Hq as (n & -> & Hn).
    exists (nsz n). by apply (rp_free _ _ Hr). }
  specialize (Hl q s' Hs). lia.
Qed.

Lemma only_links_more m m' Q Q' : only_links m m' Q -> (forall q, q ∈ Q -> q ∈ Q') -> only_links m m' Q'.
Proof. intros Ho Hs x Hx. apply Ho. intros q Hq. by apply Hx, Hs. Qed.

(** The header of a block has no links from its second to its fourth word. *)
Lemma header_links h v p sz y : rep h v -> bigs v !! p = Some sz -> p + 4 <= y < p + 16 \/ p + 48 <= y < p + 52 -> links_free v y.
Proof.
  intros Hr Hp Hy. destruct (big_page _ _ _ _ Hr Hp) as (_ & _ & _ & ?).
  apply (extent_links h v p (sz + 48)); [done|right; by exists sz|lia|intros _; lia].
Qed.

Lemma pop_big_ok (h : heap (C:=C)) p sz :
  big_ok (mem h) p sz true -> 0 < p -> p + sz + 48 < 4294967296 ->
  klmalloc_stack_pop h p = Ret (p + 48, set_mem h (st (mem h) (p + head_) NULL)) /\
  big_ok (st (mem h) (p + head_) NULL) p sz false.
Proof.
  intros (Hs & Hm & E1 & E2 & E3 & E4) Hp He. specialize (E4 eq_refl). cbn iota in E3. split.
  - unfold klmalloc_stack_pop, NULL in *. destruct (Z.eqb_spec p 0); [lia|]. cbn [negb assert]. rewrite !load_ok by lia.
    cbn [mbind outcome_bind]. rewrite E1, E3. destruct (Z.eqb_spec (p + 48) 0); [lia|]. cbn [negb assert].
    destruct (Z.ltb_spec p (p + 48)); [|lia]. cbn [assert]. unfold NUM_BINS. destruct (Z.ltb_spec 11 sz); [|lia].
    rewrite u32_small by lia. destruct (Z.ltb_spec (p + 48) (p + sz)); [|lia]. cbn [assert]. rewrite !load_ok by lia.
    cbn [mbind outcome_bind]. rewrite Z.add_0_r, E4, store_ok by lia. done.
  - unfold big_ok, head_, size_, bin_magic in *. split; [done|]. split; [done|].
    do 2 (split; [rewrite ld_st_apart by lia; done|]). split; [by apply ld_st|done].
Qed.

Lemma push_big_ok (h : heap (C:=C)) p sz :
  big_ok (mem h) p sz false -> 0 < p -> p + sz + 48 < 4294967296 ->
  klmalloc_stack_push h p (p + 48) = Ret (set_mem h (st (st (mem h) (p + 48) NULL) (p + head_) (p + 48))) /\
  big_ok (st (st (mem h) (p + 48) NULL) (p + head_) (p + 48)) p sz true.
Proof.
  intros (Hs & Hm & E1 & E2 & E3 & _) Hp He. cbn iota in E3. split.
  - unfold klmalloc_stack_push, NULL in *. destruct (Z.eqb_spec (p + 48) 0); [lia|]. cbn [negb assert].
    destruct (Z.ltb_spec p (p + 48)); [|lia]. cbn [assert]. rewrite !load_ok by lia. cbn [mbind outcome_bind]. rewrite E1.
    unfold NUM_BINS. destruct (Z.ltb_spec 11 sz); [|lia]. rewrite u32_small by lia. destruct (Z.ltb_spec (p + 48) (p + sz)); [|lia]. cbn [assert].
    rewrite load_ok by lia. cbn [mbind outcome_bind]. rewrite E3, store_ok by lia. cbn [mbind outcome_bind]. rewrite store_ok by lia.
    by rewrite Z.add_0_r.
  - unfold big_ok, head_, size_, bin_magic in *. split; [done|]. split; [done|].
    do 2 (split; [rewrite !ld_st_apart by lia; done|]). split; [apply ld_st; lia|]. intros _. rewrite ld_st_apart by lia. by apply ld_st.
Qed.

Lemma big_node h v n : rep h v -> n ∈ frees v -> node_ok big_head n /\ bigs v !! nd n = Some (nsz n) /\ free_header (mem h) (nd n) (nsz n).
Proof.
  intros Hr Hn. pose proof (rp_free _ _ Hr n Hn) as Hb. split; [|split; [done|]].
  - exact (proj1 (Forall_forall _ _) (sk_nodes _ _ _ _ (rp_skips _ _ Hr)) n Hn).
  - pose proof (rp_big _ _ Hr _ _ Hb) as (_ & _ & E1 & _ & E2 & _). rewrite bool_decide_true in E2 by (apply list_elem_of_fmap; by exists n).
    done.
Qed.

(** Taking a free block out of the list. *)
Lemma reuse_ok h v n B size :
  rep h v -> above size (frees v) = n :: B ->
  exists h', (h ← klmalloc_skip_list_delete big_head h (nd n); klmalloc_stack_pop h (nd n)) = Ret (nd n + 48, h') /\
    rep h' (set_big v (nd n) (nsz n) (below (nsz n) (frees v) ++ B)) /\
    (forall y, y < nd n \/ nd n + 16 <= y -> links_free v y -> mem h' y = mem h y) /\
    core h' = core h /\ failures h' = failures h.
Proof.
  intros Hr Ea. pose proof (above_own _ _ _ _ Ea) as Eo. pose proof (below_above (nsz n) (frees v)) as Ef. rewrite Eo in Ef.
  assert (n ∈ frees v) as Hn by (rewrite Ef; apply elem_of_app; right; left).
  destruct (big_node h v n Hr Hn) as (Hok & Hb & Hhdr). destruct (big_page _ _ _ _ Hr Hb) as (Hpa & Hpb & Hpe & Hsz).
  pose proof (rp_big _ _ Hr _ _ Hb) as Hbig. rewrite bool_decide_true in Hbig by (apply list_elem_of_fmap; by exists n).
  destruct (skip_delete_ok big_head head_low head_aligned h (frees v) n B (rp_skips _ _ Hr) (frees_fuel h v Hr) Eo Hhdr) as (m1 & l' & -> & Hsk & Ho).
  cbn [mbind outcome_bind].
  assert (forall y, links_free v y -> m1 y = mem h y) as Hm1.
  { eapply only_links_free; [done|exact Hb|]. eapply only_links_more; [exact Ho|]. intros q. rewrite !elem_of_cons. intuition. }
  assert (big_ok m1 (nd n) (nsz n) true) as Hbig1.
  { eapply big_ok_frame; [exact Hbig| |]; intros y Hy; apply Hm1; (eapply header_links; [exact Hr|exact Hb|lia]). }
  destruct (pop_big_ok (set_level (set_mem h m1) l') (nd n) (nsz n) Hbig1) as [-> Hbig2]; [lia|lia|].
  eexists. split; [done|]. cbn [mem set_mem set_level] in *. set (m2 := st m1 (nd n + head_) NULL) in *.
  assert (forall y, y < nd n \/ nd n + 16 <= y -> links_free v y -> m2 y = mem h y) as Hm2.
  { intros y Hy Hl. unfold m2. rewrite st_other by (unfold head_; lia). by apply Hm1. }
  pose proof (sk_nodup _ _ _ _ (rp_skips _ _ Hr)) as Hnd. rewrite Ef, fmap_app, fmap_cons, <- Permutation_middle in Hnd.
  apply NoDup_cons in Hnd as [Hnn _]. rewrite <- fmap_app in Hnn.
  split; [|split; [done|done]]. destruct (rp_core _ _ Hr) as [Hco Hce].
  apply (rep_set_big h _ v (nd n) (nsz n)); cbn [mem klmalloc_bin_head level klmalloc_newest_big core set_mem set_level]; try done; try lia.
  - destruct (rp_kind _ _ Hr (nd n)); congruence.
  - intros s E. congruence.
  - intros y Hy. apply Hm2. lia.
  - intros q Hne. rewrite Ef at 2. rewrite !fmap_app, fmap_cons, !elem_of_app, elem_of_cons. intuition.
  - intros q k Hq Hne. destruct (rp_apart _ _ Hr q k (nd n) (nsz n + 48)); [done|right; by exists (nsz n)|done|lia|lia].
  - by rewrite bool_decide_false.
  - eapply skips_frame; [exact Hsk| |].
    + intros x Hx. apply st_other. unfold head_. lia.
    + intros q x Hq Hx. apply st_other. unfold head_.
      destruct (proj1 (Forall_forall _ _) (sk_nodes _ _ _ _ Hsk) q Hq) as ([Hqa _] & _).
      assert (nd q <> nd n) by (intros E; apply Hnn; rewrite <- E; apply list_elem_of_fmap; by exists q).
      Z.to_euclidean_division_equations. lia.
  - intros q Hq. rewrite lookup_insert_ne; [apply (rp_free _ _ Hr)|].
    + rewrite Ef. rewrite elem_of_app, elem_of_cons. apply elem_of_app in Hq. intuition.
    + intros E. apply Hnn. rewrite E. apply list_elem_of_fmap. by exists q.
Qed.

Lemma klmalloc_big_ok h v size :
  rep h v -> 0 <= size -> core_end (core h) + npages size * 4096 < core_limit ->
  exists p cap h' v', klmalloc_big big_head h size = Ret (p + 48, h') /\ rep h' v' /\ size <= cap /\ p mod 4096 = 0 /\
    bigs v' !! p = Some cap /\ (forall a k, live v' a k <-> (a = p + 48 /\ k = cap) \/ live v a k) /\ (forall k, ~ live v (p + 48) k) /\
    kept v (mem h) (mem h') /\ core_end (core h') <= core_end (core h) + npages size * 4096 /\ failures h' = failures h.
Proof.
  intros Hr Hsz Hlim. unfold klmalloc_big. rewrite (findbest_ok big_head head_low h (frees v) size (rp_skips _ _ Hr) (frees_fuel h v Hr)).
  cbn [mbind outcome_bind]. unfold best. destruct (above size (frees v)) as [|n B] eqn:Ea.
  - destruct (new_big_ok h v size Hr Hsz Hlim) as (h' & E & Hr' & Hm & Hc & Hf). destruct (end_empty h v Hr) as [Es Eb].
    set (p := core_end (core h)) in *. destruct (npages_fit size Hsz) as [Hfit _].
    assert (p ∉ nd <$> frees v) as Hpf.
    { intros Hin. apply list_elem_of_fmap in Hin as (n & En & Hn). apply (rp_free _ _ Hr) in Hn. rewrite <- En in Hn. congruence. }
    exists p, (npages size * 4096 - 48), h', (set_big v p (npages size * 4096 - 48) (frees v)). split; [exact E|]. split; [done|].
    split; [lia|]. split; [apply (core_aligned _ (proj1 (rp_core _ _ Hr)))|]. split; [cbn; by rewrite lookup_insert_eq|].
    assert (forall k, ~ live v (p + 48) k) as Hnl.
    { intros k Hl. destruct (live_where _ _ _ _ Hr Hl) as (q & s & Hq & ? & ? & ?). destruct (rp_pages _ _ Hr q s Hq) as (_ & _ & Hqe). fold p in Hqe. lia. }
    split; [|split; [done|split; [|split; [lia|done]]]].
    + intros a k. apply live_use; [done|done|]. intros s Hs. congruence.
    + intros a k x Hl Hx. eapply (links_kept h v p); [done|right; fold p; lia| |exact Hl|by intros ->; eapply Hnl|done].
      intros y _ _ Hy Hlt. by apply Hm.
  - pose proof (below_above size (frees v)) as Ef. rewrite Ea in Ef. assert (n ∈ frees v) as Hn by (rewrite Ef; apply elem_of_app; right; left).
    destruct (big_node h v n Hr Hn) as (Hok & Hb & Hhdr). destruct (big_page _ _ _ _ Hr Hb) as (Hpa & Hpb & Hpe & _).
    destruct (Z.eqb_spec (nd n) NULL); [unfold NULL in *; lia|]. rewrite load_ok by done. cbn [mbind outcome_bind]. rewrite (proj2 Hhdr).
    pose proof (above_big size (frees v) (sk_ordered _ _ _ _ (rp_skips _ _ Hr))) as Hbig. rewrite Ea in Hbig. apply Forall_cons in Hbig as [Hbig _].
    destruct (Z.leb_spec size (nsz n)); [|lia]. cbn [assert].
    destruct (reuse_ok h v n B size Hr Ea) as (h' & E & Hr' & Hm & Hc & Hf).
    assert (nd n ∈ nd <$> frees v) as Hnf by (apply list_elem_of_fmap; by exists n).
    exists (nd n), (nsz n), h', (set_big v (nd n) (nsz n) (below (nsz n) (frees v) ++ B)). split; [exact E|]. split; [done|].
    split; [done|]. split; [done|]. split; [cbn; by rewrite lookup_insert_eq|].
    assert (forall k, ~ live v (nd n + 48) k) as Hnl by (intros k Hl; by destruct (live_big _ _ _ _ _ Hr Hb Hl)).
    pose proof (above_own _ _ _ _ Ea) as Eo. pose proof (below_above (nsz n) (frees v)) as Ef'. rewrite Eo in Ef'.
    pose proof (sk_nodup _ _ _ _ (rp_skips _ _ Hr)) as Hnd. rewrite Ef', fmap_app, fmap_cons, <- Permutation_middle in Hnd.
    apply NoDup_cons in Hnd as [Hnn _]. rewrite <- fmap_app in Hnn.
    destruct (npages_fit size Hsz) as [_ Hnp]. split; [|split; [done|split; [|split; [rewrite Hc; lia|done]]]].
    + intros a k. apply live_use; [|done|done]. intros q Hne. rewrite Ef' at 2. rewrite !fmap_app, fmap_cons, !elem_of_app, elem_of_cons. intuition.
    + intros a k x Hl Hx. eapply (links_kept h v (nd n)); [done|left; by eexists| |exact Hl|by intros ->; eapply Hnl|done].
      intros y Hy _ Hly _. by apply Hm.
Qed.

(** ** [klfree] *)

Lemma mask_page x : 0 <= x < 4294967296 -> Z.land x (u32 (Z.lnot PAGE_MASK)) = x - x mod 4096.
Proof.
  intros Hx. change (u32 (Z.lnot PAGE_MASK)) with (Z.shiftl (Z.ones 20) 12).
  replace (x - x mod 4096) with (Z.shiftl (x / 4096) 12) by (rewrite Z.shiftl_mul_pow2 by lia; change (2 ^ 12) with 4096; Z.to_euclidean_division_equations; lia).
  change 4096 with (2 ^ 12). rewrite <- Z.shiftr_div_pow2 by lia. rewrite <- (Z.land_ones_low (Z.shiftr x 12) 20).
  - apply Z.bits_inj'. intros i Hi. rewrite Z.land_spec, !Z.shiftl_spec, Z.land_spec by lia. destruct (Z.lt_ge_cases i 12).
    + rewrite !(Z.testbit_neg_r _ (i - 12)) by lia. by rewrite andb_false_r.
    + rewrite Z.shiftr_spec by lia. by replace (i - 12 + 12) with i by lia.
  - apply Z.shiftr_nonneg. lia.
  - destruct (Z.eq_dec (Z.shiftr x 12) 0) as [->|Hne]; [done|]. apply Z.log2_lt_pow2.
    + pose proof (proj2 (Z.shiftr_nonneg x 12)). lia.
    + rewrite Z.shiftr_div_pow2 by lia. change (2 ^ 12) with 4096. Z.to_euclidean_division_equations. lia.
Qed.

(** The header [klfree] computes for an address in the page after it. *)
Lemma header_of p ptr :
  p mod 4096 = 0 -> 0 <= p -> p + 4096 < 4294967296 -> p < ptr <= p + 4096 ->
  Z.land (if ptr mod PAGE_SIZE =? 0 then ptr - 1 else ptr) (u32 (Z.lnot PAGE_MASK)) = p.
Proof.
  intros Hp Hp0 He Hptr. unfold PAGE_SIZE. destruct (Z.eqb_spec (ptr mod 4096) 0); (rewrite mask_page by lia);
  Z.to_euclidean_division_equations; lia.
Qed.

Lemma below_above_elem sz a l ns q :
  q ∈ nd <$> below sz ns ++ Node a sz l :: above sz ns <-> q = a \/ q ∈ nd <$> ns.
Proof.
  rewrite (below_above sz ns) at 3. rewrite !fmap_app, fmap_cons, !elem_of_app, elem_of_cons. cbn [nd]. intuition.
Qed.

Lemma klfree_big_ok h v p sz ptr :
  rep h v -> bigs v !! p = Some sz -> (p ∉ nd <$> frees v) -> p < ptr <= p + 4096 ->
  exists h' v', klfree big_head h ptr = Ret h' /\ rep h' v' /\
    (forall a k, live v' a k <-> live v a k /\ a <> p + 48) /\ kept v' (mem h) (mem h') /\ failures h' = failures h.
Proof.
  intros Hr Hb Hpf Hptr. destruct (big_page _ _ _ _ Hr Hb) as (Hpa & Hpb & Hpe & Hsz).
  pose proof (rp_big _ _ Hr _ _ Hb) as Hbig. rewrite bool_decide_false in Hbig by done. pose proof Hbig as (_ & Hmod & E1 & E2 & E3 & _).
  unfold klfree. destruct (Z.eqb_spec ptr NULL) as [|_]; [unfold NULL in *; lia|]. rewrite (header_of p) by (done || lia).
  change (p mod PAGE_SIZE) with (p mod 4096). rewrite Hpa. cbn [Z.eqb assert]. rewrite !load_ok by lia. cbn [mbind outcome_bind].
  rewrite E2, E1, Z.eqb_refl. cbn [negb]. unfold NUM_BINS. destruct (Z.ltb_spec 11 sz); [|lia].
  destruct (Z.eqb_spec p NULL) as [|_]; [unfold NULL in *; lia|]. cbn [negb assert]. rewrite ?load_ok by lia. cbn [mbind outcome_bind]. rewrite E3, Z.eqb_refl. cbn [assert].
  assert (pages_exactly sz = true) as -> by (unfold pages_exactly, sizeof_big_bin_header, PAGE_SIZE; rewrite u32_small by lia; by apply Z.eqb_eq).
  cbn [assert]. unfold sizeof_big_bin_header. destruct (push_big_ok h p sz Hbig) as [-> Hbig1]; [lia|lia|]. cbn [mbind outcome_bind].
  set (m1 := st (st (mem h) (p + 48) NULL) (p + head_) (p + 48)) in *. rewrite load_ok by lia. cbn [mbind outcome_bind mem set_mem].
  pose proof Hbig1 as (_ & _ & F1 & _ & F2 & _). cbn iota in F2. rewrite F2. destruct (Z.eqb_spec (p + 48) NULL) as [|_]; [unfold NULL in *; lia|]. cbn [negb assert].
  assert (skips big_head m1 (frees v) (level h)) as Hsk.
  { eapply skips_frame; [exact (rp_skips _ _ Hr)| |].
    - intros x Hx. unfold m1. rewrite !st_other by (unfold head_; lia). done.
    - intros n x Hn Hx. destruct (big_node h v n Hr Hn) as (_ & Hbn & _). destruct (big_page _ _ _ _ Hr Hbn) as (_ & _ & _ & Hsn).
      assert (nd n <> p) by (intros <-; apply Hpf; apply list_elem_of_fmap; by exists n).
      unfold m1. rewrite !st_other; [done| |]; unfold head_;
      (destruct (rp_apart _ _ Hr (nd n) (nsz n + 48) p (sz + 48)); [right; by exists (nsz n)|right; by exists sz|done|lia|lia]). }
  assert (node_ok big_head (Node p sz 0)) as Hnode by (unfold node_ok, place, SKIP_MAX_LEVEL, NUM_BINS; cbn; repeat split; try done; lia).
  destruct (skip_insert_ok big_head head_low head_aligned (set_mem h m1) (frees v) p sz Hsk (frees_fuel h v Hr) Hnode Hpf)
    as (l & m2 & s' & Hl & -> & Hsk2 & Ho); [done|]. cbn [mem set_mem level klmalloc_bin_head klmalloc_newest_big core failures] in *.
  set (ns := below sz (frees v) ++ Node p sz l :: above sz (frees v)) in *.
  assert (forall y, y < p \/ p + 16 <= y -> y < p + 48 \/ p + 52 <= y -> links_free v y -> m2 y = mem h y) as Hm2.
  { intros y Hy Hy' Hly. transitivity (m1 y).
    - by apply (only_links_free h v m1 m2 p sz).
    - unfold m1. rewrite !st_other by (unfold head_; lia). done. }
  assert (forall q, q <> p -> q ∈ nd <$> ns <-> q ∈ nd <$> frees v) as Hns by (intros q Hne; unfold ns; rewrite below_above_elem; intuition).
  assert (p ∈ nd <$> ns) as Hpn by (unfold ns; rewrite below_above_elem; by left). destruct (rp_core _ _ Hr) as [Hco Hce].
  eexists. exists (set_big v p sz ns). split; [done|]. cbn [mem failures].
  assert (forall a k, live (set_big v p sz ns) a k <-> live v a k /\ a <> p + 48) as Hlive by (intros a k; by apply (live_unuse h)).
  split; [|split; [done|split; [|done]]].
  - apply (rep_set_big h _ v p sz); cbn [mem klmalloc_bin_head level klmalloc_newest_big core]; try done; try lia.
    + destruct (rp_kind _ _ Hr p); congruence.
    + intros s E. congruence.
    + intros y Hy Hly. apply Hm2; [lia|lia|done].
    + intros q k Hq Hne. destruct (rp_apart _ _ Hr q k p (sz + 48)); [done|right; by exists sz|done|lia|lia].
    + rewrite bool_decide_true by done. eapply big_ok_frame; [exact Hbig1| |];
      (intros y Hy; apply (only_links_free h v m1 m2 p sz); [done|done|done|by eapply header_links; [exact Hr|exact Hb|lia]]).
    + intros n Hn. unfold ns in Hn. rewrite elem_of_app, elem_of_cons in Hn.
      assert (n = Node p sz l \/ n ∈ frees v) as [->|Hn'].
      { rewrite (below_above sz (frees v)), elem_of_app. intuition. }
      * by rewrite lookup_insert_eq.
      * rewrite lookup_insert_ne; [by apply (rp_free _ _ Hr)|]. intros E. apply Hpf. apply list_elem_of_fmap. by exists n.
  - intros a k x Hlv Hx. apply Hlive in Hlv as [Hlv Hne].
    eapply (links_kept h v p); [done|left; by eexists| |exact Hlv|done|done]. intros y Hy Hy' Hly _. by apply Hm2.
Qed.

Lemma live_give h v p b c fs a k :
  rep h v -> smalls v !! p = Some (b, fs) -> is_cell p b c ->
  live (set_small v p b (c :: fs)) a k <-> live v a k /\ a <> c.
Proof.
  intros Hr Hp Hc. rewrite live_set_small. split.
  - intros [(Ha & Haf & ->)|Hrest].
    + apply not_elem_of_cons in Haf as [Hne Haf]. split; [|done]. left. by exists p, b, fs.
    + assert (live v a k) as Hl by (destruct Hrest as [(q & b' & fs' & _ & Hq & Hrest)|Hbig]; [left; by exists q, b', fs'|by right]).
      split; [done|]. intros ->. destruct (rp_small _ _ Hr _ _ _ Hp) as (Hb & _). pose proof (cell_bounds _ _ _ Hb Hc). pose proof (csz_bounds _ Hb).
      destruct Hrest as [(q & b' & fs' & Hne & Hq & Hc' & _ & _)|(q & Hq & _ & E)].
      * destruct (rp_small _ _ Hr _ _ _ Hq) as (Hb' & _). pose proof (cell_bounds _ _ _ Hb' Hc'). pose proof (csz_bounds _ Hb').
        apply Hne. apply (home_unique h v p 4096 q 4096 c); [done|left; by exists b, fs|left; by exists b', fs'|lia|lia].
      * destruct (big_page _ _ _ _ Hr Hq) as (_ & _ & _ & ?).
        assert (q = p) as -> by (apply (home_unique h v p 4096 q (k + 48) c); [done|left; by exists b, fs|right; by exists k|lia|lia]).
        destruct (rp_kind _ _ Hr p); congruence.
  - intros [[(q & b' & fs' & Hq & Hc' & Hn & ->)|Hbig] Hne]; [|by right; right]. destruct (Z.eq_dec q p) as [->|Hqp].
    + rewrite Hp in Hq. injection Hq as <- <-. left. split; [done|]. split; [|done]. by apply not_elem_of_cons.
    + right. left. by exists q, b', fs'.
Qed.

Lemma klfree_small_ok h v p b fs c :
  rep h v -> smalls v !! p = Some (b, fs) -> is_cell p b c -> c ∉ fs ->
  exists h' v', klfree big_head h c = Ret h' /\ rep h' v' /\
    (forall a k, live v' a k <-> live v a k /\ a <> c) /\ kept v' (mem h) (mem h') /\ failures h' = failures h.
Proof.
  intros Hr Hp Hc Hcf. destruct (small_page _ _ _ _ _ Hr Hp) as (Hpa & Hpb & Hpe).
  pose proof (rp_small _ _ Hr _ _ _ Hp) as (Hb & _ & E2 & E3 & _). pose proof (cell_bounds _ _ _ Hb Hc). pose proof (csz_bounds _ Hb).
  assert (c mod PAGE_SIZE <> 0) as Hmod by (unfold PAGE_SIZE; Z.to_euclidean_division_equations; lia).
  unfold klfree. destruct (Z.eqb_spec c NULL) as [|_]; [unfold NULL in *; lia|]. rewrite (header_of p) by (done || lia).
  destruct (Z.eqb_spec (c mod PAGE_SIZE) 0) as [|_]; [done|]. change (p mod PAGE_SIZE) with (p mod 4096). rewrite Hpa. cbn [Z.eqb assert].
  rewrite (load_ok h p bin_magic) by lia. cbn [mbind outcome_bind]. rewrite E3, Z.eqb_refl. cbn [negb].
  rewrite (load_ok h p size_) by lia. cbn [mbind outcome_bind]. rewrite E2.
  pose proof Hb as Hb'. unfold NUM_BINS, BIG_BIN in *. unfold NUM_BINS in Hb'. destruct (Z.ltb_spec 11 b) as [|_]; [lia|].
  destruct (give_cell_ok h v p b c fs Hr Hp Hc Hcf) as (h' & E & Hr' & Hm & _ & Hf).
  exists h', (set_small v p b (c :: fs)). split; [exact E|]. split; [done|].
  assert (forall a k, live (set_small v p b (c :: fs)) a k <-> live v a k /\ a <> c) as Hlive by (intros a k; by apply (live_give h)).
  split; [done|]. split; [|done]. intros a k x Hl Hx. apply Hlive in Hl as [Hl Hne].
  assert (live v c (csz b)) as Hlc by (left; by exists p, b, fs). destruct (live_apart h v a k c (csz b) Hr Hl Hlc Hne) as [?|?];
  destruct (live_where _ _ _ _ Hr Hl) as (q & n' & Hq & ? & ? & ?); (apply Hm; [|lia]);
  (destruct (Z.eq_dec q p) as [->|Hqp]; [lia|]); (destruct (rp_apart _ _ Hr q n' p 4096); [done|left; by exists b, fs|done|lia|lia]).
Qed.

(** ** Writes of the users of the heap *)

(** [x] is in no block in use. *)
Definition outside (v : view) (x : Z) : Prop := forall a k, live v a k -> x < a \/ a + k <= x.

Lemma outside_low h v x : rep h v -> x < base -> outside v x.
Proof.
  intros Hr Hx a k Hl. destruct (live_where _ _ _ _ Hr Hl) as (q & n & Hq & ? & ? & ?). destruct (rp_pages _ _ Hr q n Hq) as (_ & ? & _). lia.
Qed.

Lemma outside_small h v p b fs x :
  rep h v -> smalls v !! p = Some (b, fs) -> p <= x < p + 16 \/ (exists c, c ∈ fs /\ c <= x < c + csz b) -> outside v x.
Proof.
  intros Hr Hp Hx a k Hl. destruct (rp_small _ _ Hr _ _ _ Hp) as (Hb & _ & _ & _ & _ & _ & Hcs). pose proof (csz_bounds _ Hb).
  assert (p <= x < p + 4096) as Hxp.
  { destruct Hx as [|(c & Hc & Hxc)]; [lia|]. apply (proj1 (Forall_forall _ _) Hcs) in Hc. pose proof (cell_bounds _ _ _ Hb Hc). lia. }
  destruct (live_where _ _ _ _ Hr Hl) as (q & n & Hq & ? & ? & ?). destruct (Z.eq_dec q p) as [->|Hne].
  - destruct Hx as [|(c & Hc & Hxc)]; [lia|]. apply (proj1 (Forall_forall _ _) Hcs) in Hc as Hcell.
    destruct Hl as [(q & b' & fs' & Hq' & Hc' & Hn & ->)|(q & Hq' & Hn & ->)].
    + destruct (rp_small _ _ Hr _ _ _ Hq') as (Hb' & _). pose proof (cell_bounds _ _ _ Hb' Hc').
      assert (q = p) as -> by (apply (home_unique h v p n q 4096 a); [done|done|left; by exists b', fs'|lia|lia]).
      rewrite Hp in Hq'. injection Hq' as <- <-. destruct (cell_apart p b a c Hb Hc' Hcell) as [|]; [by intros ->|lia|lia].
    + destruct (big_page _ _ _ _ Hr Hq') as (_ & _ & _ & ?).
      assert (q = p) as -> by (apply (home_unique h v p n q (k + 48) (q + 48)); [done|done|right; by exists k|lia|lia]).
      destruct (rp_kind _ _ Hr p); congruence.
  - destruct (rp_apart _ _ Hr q n p 4096); [done|left; by exists b, fs|done|lia|lia].
Qed.

Lemma outside_big h v p sz x :
  rep h v -> bigs v !! p = Some sz -> p <= x < p + 48 \/ (p ∈ nd <$> frees v) /\ p <= x < p + sz + 48 -> outside v x.
Proof.
  intros Hr Hp Hx a k Hl. destruct (big_page _ _ _ _ Hr Hp) as (_ & _ & _ & ?).
  destruct (live_where _ _ _ _ Hr Hl) as (q & n & Hq & ? & ? & ?). destruct (Z.eq_dec q p) as [->|Hne].
  - destruct Hl as [(q & b' & fs' & Hq' & Hc' & Hn & ->)|(q & Hq' & Hn & ->)].
    + destruct (rp_small _ _ Hr _ _ _ Hq') as (Hb' & _). pose proof (cell_bounds _ _ _ Hb' Hc').
      assert (q = p) as -> by (apply (home_unique h v p n q 4096 a); [done|done|left; by exists b', fs'|lia|lia]).
      destruct (rp_kind _ _ Hr p); congruence.
    + destruct (big_page _ _ _ _ Hr Hq') as (_ & _ & _ & ?).
      assert (q = p) as -> by (apply (home_unique h v p n q (k + 48) (q + 48)); [done|done|right; by exists k|lia|lia]).
      destruct Hx as [|[Hin _]]; [lia|done].
  - destruct (rp_apart _ _ Hr q n p (sz + 48)); [done|right; by exists sz|done|lia|lia].
Qed.

(** The representation does not depend on the bytes in use. *)
Lemma rep_write h v m' : rep h v -> (forall x, outside v x -> m' x = mem h x) -> rep (set_mem h m') v.
Proof.
  intros Hr Hm. split; cbn [mem set_mem klmalloc_bin_head level klmalloc_newest_big core]; try apply Hr.
  - intros p b fs Hp. destruct (rp_small _ _ Hr _ _ _ Hp) as (Hb & E1 & E2 & E3 & Hs & Hnd & Hcs). pose proof (csz_bounds _ Hb).
    assert (agree (mem h) m' p (p + 16)) as Hag by (intros x Hx; apply Hm; eapply outside_small; [done|exact Hp|by left]).
    unfold small_ok, head_, size_, bin_magic in *. split; [done|]. do 3 (split; [rewrite (agree_ld _ _ _ _ _ Hag) by lia; done|]). split; [|done].
    eapply stack_frame; [exact Hs|]. intros c Hc x Hx. apply Hm. eapply outside_small; [done|exact Hp|]. right. exists c. split; [done|lia].
  - intros b Hb. destruct (rp_bins _ _ Hr b Hb) as (L & E & Hpl & Hnd & Hin). exists L. split; [done|]. split; [|done].
    eapply plist_frame; [exact Hpl|]. intros q Hq x Hx. apply Hin in Hq as (fs & Hq & _). apply Hm. eapply outside_small; [done|exact Hq|left; lia].
  - intros p sz Hp. destruct (rp_big _ _ Hr _ _ Hp) as (H1' & H2' & E1 & E2 & E3 & E4).
    assert (agree (mem h) m' p (p + 48)) as Hag by (intros x Hx; apply Hm; eapply outside_big; [done|exact Hp|by left]).
    unfold big_ok, head_, size_, bin_magic in *. split; [done|]. split; [done|]. do 3 (split; [rewrite (agree_ld _ _ _ _ _ Hag) by lia; done|]).
    intros Hf. rewrite <- E4 by done. apply ld_ext. intros x Hx. apply Hm. eapply outside_big; [done|exact Hp|right].
    apply bool_decide_eq_true in Hf. split; [done|lia].
  - eapply skips_frame; [exact (rp_skips _ _ Hr)| |].
    + intros x Hx. apply Hm. eapply outside_low; [done|lia].
    + intros n x Hn Hx. apply Hm. eapply outside_big; [done|exact (rp_free _ _ Hr n Hn)|]. left. lia.
Qed.

End Heap.
End AllocSafe.
