(* ===== verification/AllocSpec.v ===== *)
(** * What the kernel heap promises ([kernel/src/mem/alloc.c])

    The abstract heap is a map [A] from the addresses in use to the number of
    bytes there.  [klmalloc] adds a block to [A], [klfree] takes one away,
    [klrealloc] replaces one, and none of them changes a byte of another block or
    fails an assertion.  [Pages] serves the heap from the [sbrk] of [Paging]. *)

From stdpp Require Import base gmap numbers list.
From S2P Require Import Prelude Frames Paging Alloc SkipList AllocSafe.

Module AllocSpec.
Import Word Alloc SkipList AllocSafe.

Section Heap.
Context {C : Type} `{MoreCoreOk C} (big_head base : Z).
Hypothesis head_low : 0 < big_head.
Hypothesis head_aligned : aligned big_head.
Hypothesis base_above : big_head + 48 <= base.

(** ** The heap as a map from the addresses in use to sizes *)

Definition inv (h : heap (C:=C)) (A : gmap Z Z) : Prop :=
  exists v, rep big_head base h v /\ forall a k, A !! a = Some k <-> live v a k.

(** The room a request may need at the end of the heap. *)
Definition room (h : heap (C:=C)) (size : Z) : Prop := core_end (core h) + npages size * 4096 < core_limit.

(** The bytes of the blocks of [A] are the same. *)
Definition same_bytes (A : gmap Z Z) (m m' : mem_t) : Prop := forall a k x, A !! a = Some k -> a <= x < a + k -> m' x = m x.

Lemma inv_insert h v A p cap : (forall a k, A !! a = Some k <-> live v a k) -> rep big_head base h v ->
  forall v0 h0, rep big_head base h0 v0 -> (forall a k, live v0 a k <-> (a = p /\ k = cap) \/ live v a k) -> (forall k, ~ live v p k) ->
  A !! p = None /\ inv h0 (<[p := cap]> A).
Proof.
  intros HA Hr v0 h0 Hr0 Hl0 Hn. split.
  - destruct (A !! p) as [k|] eqn:E; [|done]. by apply HA, Hn in E.
  - exists v0. split; [done|]. intros a k. rewrite Hl0, <- HA. destruct (Z.eq_dec a p) as [->|Hne].
    + rewrite lookup_insert_eq. split; [intros [= <-]; by left|]. intros [[_ ->]|E]; [done|]. by apply HA, Hn in E.
    + rewrite lookup_insert_ne by done. split; [by right|]. by intros [[-> _]|E].
Qed.

Lemma inv_delete v A p h0 v0 : (forall a k, A !! a = Some k <-> live v a k) -> rep big_head base h0 v0 ->
  (forall a k, live v0 a k <-> live v a k /\ a <> p) -> inv h0 (delete p A).
Proof.
  intros HA Hr0 Hl0. exists v0. split; [done|]. intros a k. rewrite Hl0, <- HA, lookup_delete_Some. intuition congruence.
Qed.

Lemma klmalloc_ok h A size :
  inv h A -> 0 < size < 4294967296 -> room h size ->
  exists p cap h', klmalloc big_head h size = Ret (p, h') /\ size <= cap /\ A !! p = None /\ inv h' (<[p := cap]> A) /\
    same_bytes A (mem h) (mem h') /\ core_end (core h') <= core_end (core h) + npages size * 4096 /\ failures h' = failures h.
Proof.
  intros (v & Hr & HA) Hs Hroom. unfold room in Hroom. destruct (npages_fit size) as [_ Hnp]; [lia|].
  unfold klmalloc. destruct (Z.eqb_spec size 0); [lia|]. pose proof (bin_size_least size Hs) as Hbin. cbv zeta in Hbin.
  destruct (Z.leb_spec size 2048) as [Hsm|Hbg].
  - destruct Hbin as (Hb & Hfit & _). destruct (Z.ltb_spec (klmalloc_bin_size size) BIG_BIN); [|lia].
    destruct (klmalloc_small_ok big_head base head_low base_above h v (klmalloc_bin_size size) Hr Hb) as (c & h' & v' & E & Hr' & Hl & Hn & Hk & Hcore & Hf); [lia|].
    exists c, (csz (klmalloc_bin_size size)), h'. split; [done|]. split; [done|].
    destruct (inv_insert h v A c _ HA Hr v' h' Hr' Hl Hn). split; [done|]. split; [done|]. split; [|split; [lia|done]].
    intros a k x Ha. apply Hk. by apply HA.
  - rewrite Hbin, Z.ltb_irrefl. destruct (klmalloc_big_ok big_head base head_low head_aligned base_above h v size Hr) as (p & cap & h' & v' & E & Hr' & Hc & _ & _ & Hl & Hn & Hk & Hcore & Hf); [lia|done|].
    exists (p + 48), cap, h'. split; [done|]. split; [done|].
    destruct (inv_insert h v A (p + 48) _ HA Hr v' h' Hr' Hl Hn). split; [done|]. split; [done|]. split; [|split; [lia|done]].
    intros a k x Ha. apply Hk. by apply HA.
Qed.

Lemma klfree_ok h A p cap :
  inv h A -> A !! p = Some cap ->
  exists h', klfree big_head h p = Ret h' /\ inv h' (delete p A) /\ same_bytes (delete p A) (mem h) (mem h') /\ failures h' = failures h.
Proof.
  intros (v & Hr & HA) Hp. apply HA in Hp as Hl.
  assert (exists h' v', klfree big_head h p = Ret h' /\ rep big_head base h' v' /\ (forall a k, live v' a k <-> live v a k /\ a <> p) /\
    kept v' (mem h) (mem h') /\ failures h' = failures h) as (h' & v' & E & Hr' & Hl' & Hk & Hf).
  { destruct Hl as [(q & b & fs & Hq & Hc & Hn & ->)|(q & Hq & Hn & ->)].
    - by apply (klfree_small_ok big_head base head_low base_above h v q b fs).
    - destruct (klfree_big_ok big_head base head_low head_aligned base_above h v q cap (q + 48) Hr Hq Hn) as (h' & v' & Hrest); [lia|]. by exists h', v'. }
  exists h'. split; [done|]. split; [by apply (inv_delete v A p h' v')|]. split; [|done].
  intros a k x Ha. apply Hk. apply Hl'. apply lookup_delete_Some in Ha as [Hne Ha]. split; [by apply HA|done].
Qed.

Lemma inv_write h A m' :
  inv h A -> (forall x, (forall a k, A !! a = Some k -> x < a \/ a + k <= x) -> m' x = mem h x) -> inv (set_mem h m') A.
Proof.
  intros (v & Hr & HA) Hm. exists v. split; [|done]. apply (rep_write big_head base base_above); [done|]. intros x Hx. apply Hm. intros a k Ha. by apply Hx, HA.
Qed.

(** ** Blocks in use *)

Lemma inv_apart (h : heap (C:=C)) A a k a' k' :
  inv h A -> A !! a = Some k -> A !! a' = Some k' -> a <> a' -> a + k <= a' \/ a' + k' <= a.
Proof.
  intros (v & Hr & HA) Ha Ha' Hne. apply HA in Ha, Ha'. by eapply (live_apart big_head base h v).
Qed.

Lemma inv_bounds (h : heap (C:=C)) A a k : inv h A -> A !! a = Some k -> base < a /\ 0 < k /\ a + k <= core_end (core h) < 4294967296.
Proof.
  intros (v & Hr & HA) Ha. apply HA in Ha. destruct (live_where big_head base h v a k Hr Ha) as (p & n & Hp & ? & ? & ?).
  destruct (rp_pages _ _ _ _ Hr p n Hp) as (_ & ? & ?). pose proof (rp_core _ _ _ _ Hr) as (_ & _ & ?). pose proof core_high. lia.
Qed.

(** The size [klrealloc] reads from the header of a block. *)
Lemma old_size_ok (h : heap (C:=C)) A a k :
  inv h A -> A !! a = Some k ->
  exists s, load h (Z.land a (u32 (Z.lnot PAGE_MASK))) size_ = Ret s /\
    (if s <? BIG_BIN then Z.shiftl 1 (SMALLEST_BIN_LOG + s) else s) = k.
Proof.
  intros Hi Ha. destruct (inv_bounds h A a k Hi Ha) as (? & ? & ?). destruct Hi as (v & Hr & HA). apply HA in Ha.
  rewrite mask_page by lia. destruct Ha as [(p & b & fs & Hp & Hc & _ & ->)|(p & Hp & _ & ->)].
  - destruct (rp_small _ _ _ _ Hr _ _ _ Hp) as (Hb & _ & E & _). pose proof (cell_bounds _ _ _ Hb Hc). pose proof (csz_bounds _ Hb).
    destruct (small_page _ _ _ _ _ _ _ Hr Hp) as (Hpa & ? & _).
    replace (a - a mod 4096) with p by (Z.to_euclidean_division_equations; lia).
    rewrite load_ok, E by lia. exists b. split; [done|]. destruct (Z.ltb_spec b BIG_BIN); [|lia].
    rewrite Z.shiftl_mul_pow2 by (unfold SMALLEST_BIN_LOG; lia). unfold csz. lia.
  - destruct (big_page _ _ _ _ _ _ Hr Hp) as (Hpa & ? & _ & ?). destruct (rp_big _ _ _ _ Hr _ _ Hp) as (_ & _ & E & _).
    replace (p + 48 - (p + 48) mod 4096) with p by (Z.to_euclidean_division_equations; lia).
    rewrite load_ok, E by lia. exists k. split; [done|]. unfold BIG_BIN, NUM_BINS. destruct (Z.ltb_spec k (11 - 1)); [lia|done].
Qed.

(** A block larger than the largest cell starts 48 bytes into a page, and can also
    be freed through the next page boundary. *)
Lemma big_block (h : heap (C:=C)) A a k :
  inv h A -> A !! a = Some k -> 2048 < k ->
  a mod 4096 = 48 /\
  exists h', klfree big_head h (a + 4048) = Ret h' /\ inv h' (delete a A) /\ same_bytes (delete a A) (mem h) (mem h') /\ failures h' = failures h.
Proof.
  intros (v & Hr & HA) Ha Hk. apply HA in Ha as Hl. destruct Hl as [(p & b & fs & Hp & Hc & _ & ->)|(p & Hp & Hn & ->)].
  - destruct (rp_small _ _ _ _ Hr _ _ _ Hp) as (Hb & _). pose proof (csz_bounds _ Hb). lia.
  - destruct (big_page _ _ _ _ _ _ Hr Hp) as (Hpa & ? & _ & ?). split; [Z.to_euclidean_division_equations; lia|].
    destruct (klfree_big_ok big_head base head_low head_aligned base_above h v p k (p + 48 + 4048) Hr Hp Hn) as (h' & v' & E & Hr' & Hl' & Hkp & Hf); [lia|].
    exists h'. split; [done|]. split; [by eapply (inv_delete v A)|]. split; [|done].
    intros a k' x Ha'. apply Hkp, Hl'. apply lookup_delete_Some in Ha' as [? Ha']. split; [by apply HA|done].
Qed.

(** ** The calls *)

(** C1: [klmalloc] returns the address of a block that was not in use, at least as
    large as asked for, and adds it to the blocks in use; the bytes of the other
    blocks stay and no assertion fails. *)
Theorem klmalloc_refines (h : heap (C:=C)) A size :
  inv h A -> 0 < size < 4294967296 -> room h size ->
  exists p cap h', klmalloc big_head h size = Ret (p, h') /\ size <= cap /\ A !! p = None /\ inv h' (<[p := cap]> A) /\
    same_bytes A (mem h) (mem h') /\ core_end (core h') <= core_end (core h) + npages size * 4096 /\ failures h' = failures h.
Proof. by apply klmalloc_ok. Qed.

(** C9: [klfree] of a block in use takes it away from the blocks in use; the bytes
    of the other blocks stay and no assertion fails. *)
Theorem klfree_refines (h : heap (C:=C)) A p cap :
  inv h A -> A !! p = Some cap ->
  exists h', klfree big_head h p = Ret h' /\ inv h' (delete p A) /\ same_bytes (delete p A) (mem h) (mem h') /\ failures h' = failures h.
Proof. by apply klfree_ok. Qed.

(** ** Runs of the heap *)

(** What the users of the heap know: the addresses they were given and have not freed, with
    the sizes they asked for.  They allocate, free what they hold, and write into what they
    hold. *)
Inductive step : heap (C:=C) * gmap Z Z -> heap (C:=C) * gmap Z Z -> Prop :=
| step_malloc h B size p h' : 0 < size < 4294967296 -> room h size -> klmalloc big_head h size = Ret (p, h') -> step (h, B) (h', <[p := size]> B)
| step_free h B p h' : is_Some (B !! p) -> klfree big_head h p = Ret h' -> step (h, B) (h', delete p B)
| step_write h B m' : (forall x, (forall a k, B !! a = Some k -> x < a \/ a + k <= x) -> m' x = mem h x) -> step (h, B) (set_mem h m', B).

(** The users' blocks are those in use, with at least the sizes asked for. *)
Definition ledger (h : heap (C:=C)) (B : gmap Z Z) : Prop :=
  exists A, inv h A /\ (forall a, is_Some (A !! a) <-> is_Some (B !! a)) /\ forall a k, B !! a = Some k -> exists cap, A !! a = Some cap /\ 0 < k <= cap.

Lemma ledger_malloc h B size : ledger h B -> 0 < size < 4294967296 -> room h size ->
  exists p h', klmalloc big_head h size = Ret (p, h') /\ B !! p = None /\ ledger h' (<[p := size]> B) /\ same_bytes B (mem h) (mem h') /\ failures h' = failures h.
Proof.
  intros (A & Hi & Hd & Hk) Hs Hr. destruct (klmalloc_ok h A size Hi Hs Hr) as (p & cap & h' & E & Hc & Hp & Hi' & Hb & _ & Hf). exists p, h'. split; [done|].
  split; [apply eq_None_not_Some; intros Hx%Hd; by rewrite Hp in Hx; destruct Hx|]. split; [|split; [|done]].
  - exists (<[p := cap]> A). split; [done|]. split; intros a; destruct (Z.eq_dec a p) as [->|Hne]; rewrite ?lookup_insert_eq, ?lookup_insert_ne by done; [done|apply Hd| |apply Hk].
    intros k [= <-]. exists cap. split; [done|lia].
  - intros a k x Ha Hx. destruct (Hk a k Ha) as (cap' & Ha' & Hle). apply (Hb a cap' x Ha'). lia.
Qed.

Lemma ledger_free h B p : ledger h B -> is_Some (B !! p) ->
  exists h', klfree big_head h p = Ret h' /\ ledger h' (delete p B) /\ same_bytes (delete p B) (mem h) (mem h') /\ failures h' = failures h.
Proof.
  intros (A & Hi & Hd & Hk) [cap Hp]%Hd. destruct (klfree_ok h A p cap Hi Hp) as (h' & E & Hi' & Hb & Hf). exists h'. split; [done|]. split; [|split; [|done]].
  - exists (delete p A). split; [done|]. split; intros a; destruct (Z.eq_dec a p) as [->|Hne]; rewrite ?lookup_delete_eq, ?lookup_delete_ne by done; [done|apply Hd|done|apply Hk].
  - intros a k x Ha Hx. apply lookup_delete_Some in Ha as [Hne Ha]. destruct (Hk a k Ha) as (cap' & Ha' & Hle).
    apply (Hb a cap' x); [by rewrite lookup_delete_ne|lia].
Qed.

Lemma ledger_write h B m' : ledger h B -> (forall x, (forall a k, B !! a = Some k -> x < a \/ a + k <= x) -> m' x = mem h x) -> ledger (set_mem h m') B.
Proof.
  intros (A & Hi & Hd & Hk) Hm. exists A. split; [|done]. apply inv_write; [done|]. intros x Hx. apply Hm. intros a k Ha.
  destruct (Hk a k Ha) as (cap & Ha' & Hle). specialize (Hx a cap Ha'). lia.
Qed.

Lemma step_ledger c c' : step c c' -> ledger c.1 c.2 -> ledger c'.1 c'.2 /\ failures c'.1 = failures c.1.
Proof.
  intros [h B size p h' Hs Hr E|h B p h' Hp E|h B m' Hm] Hl; cbn [fst snd] in *.
  - destruct (ledger_malloc h B size Hl Hs Hr) as (q & g & E' & _ & Hl' & _ & Hf). rewrite E in E'. by injection E' as -> ->.
  - destruct (ledger_free h B p Hl Hp) as (g & E' & Hl' & _ & Hf). rewrite E in E'. by injection E' as ->.
  - split; [by apply ledger_write|done].
Qed.

Lemma run_ledger c c' : rtc step c c' -> ledger c.1 c.2 -> ledger c'.1 c'.2 /\ failures c'.1 = failures c.1.
Proof.
  induction 1 as [c|c c1 c' Hst _ IH]; [done|]. intros Hl. destruct (step_ledger c c1 Hst Hl) as [Hl1 Hf1].
  destruct (IH Hl1) as [Hl' Hf']. split; [done|congruence].
Qed.

(** C20: From an empty well-formed heap, after any sequence of [klmalloc], [klfree] of what
    was allocated, and arbitrary writes into the blocks that are held: the blocks lie inside
    the heap and apart from each other, no assertion of the allocator has failed, the next
    [klmalloc] (of a size from 1 to 2^32 - 1 for which the heap can still grow) returns an address
    that is not in use, and [klfree] of any block that is held returns; neither changes a byte
    of a block that is held on. *)
Theorem heap_run_safe (h0 h : heap (C:=C)) B :
  inv h0 ∅ -> rtc step (h0, ∅) (h, B) ->
  (forall a k, B !! a = Some k -> base < a /\ 0 < k /\ a + k <= core_end (core h) /\
     forall a' k', B !! a' = Some k' -> a <> a' -> a + k <= a' \/ a' + k' <= a) /\
  failures h = failures h0 /\
  (forall size, 0 < size < 4294967296 -> room h size ->
     exists p h', klmalloc big_head h size = Ret (p, h') /\ B !! p = None /\ same_bytes B (mem h) (mem h')) /\
  (forall p, is_Some (B !! p) -> exists h', klfree big_head h p = Ret h' /\ same_bytes (delete p B) (mem h) (mem h')).
Proof.
  intros Hi0 Hrun. destruct (run_ledger _ _ Hrun) as [Hl Hf]; [exists ∅; split; [done|]; split; [done|]; intros a k Ha; cbn [snd] in Ha; by rewrite lookup_empty in Ha|].
  cbn [fst snd] in *. split; [|split; [done|split]].
  - destruct Hl as (A & Hi & Hd & Hk). intros a k Ha. destruct (Hk a k Ha) as (cap & Ha' & Hle).
    destruct (inv_bounds h A a cap Hi Ha') as (? & ? & ?). split_and!; [lia..|]. intros a' k' Hb Hne. destruct (Hk a' k' Hb) as (cap' & Hb' & Hle').
    destruct (inv_apart h A a cap a' cap' Hi Ha' Hb' Hne); lia.
  - intros size Hs Hr. destruct (ledger_malloc h B size Hl Hs Hr) as (p & h' & E & Hp & _ & Hb & _). eauto.
  - intros p Hp. destruct (ledger_free h B p Hl Hp) as (h' & E & _ & Hb & _). eauto.
Qed.

(** [malloc] returns a page-aligned address with [size] bytes inside a block
    that was not in use, and [free] of that address, in any later state of the heap
    in which the block is still in use, gives that block back. *)
Theorem malloc_free (h : heap (C:=C)) A size placement :
  inv h A -> 0 <= size -> size + 4048 < 4294967296 -> room h (size + 4048) -> placement <= base ->
  exists p cap h', malloc big_head h size = Ret (p + 4048, h') /\ (p + 4048) mod 4096 = 0 /\ p + 4048 + size <= p + cap /\
    A !! p = None /\ inv h' (<[p := cap]> A) /\ same_bytes A (mem h) (mem h') /\ failures h' = failures h /\
    forall g B, inv g B -> B !! p = Some cap ->
      exists g', free big_head placement g (p + 4048) = Ret g' /\ inv g' (delete p B) /\ same_bytes (delete p B) (mem g) (mem g').
Proof.
  intros Hi Hs He Hroom Hpl. destruct (klmalloc_ok h A (size + 4048) Hi) as (p & cap & h' & E & Hcap & Hp & Hi' & Hk & _ & Hf); [lia|done|].
  assert ((<[p:=cap]> A) !! p = Some cap) as Hp' by apply lookup_insert_eq.
  destruct (big_block h' _ p cap Hi' Hp') as [Hmod _]; [lia|]. destruct (inv_bounds h' _ p cap Hi' Hp') as (Hb & _ & Hce).
  assert ((p + 4048) mod 4096 = 0) as Hal by (Z.to_euclidean_division_equations; lia).
  exists p, cap, h'. split; [|do 6 (split; [done || lia|])].
  - unfold malloc, klvalloc, PAGE_SIZE, sizeof_big_bin_header. rewrite u32_small by lia. replace (size + 4096 - 48) with (size + 4048) by lia.
    rewrite E. cbn [mbind outcome_bind]. rewrite u32_small by lia. change (4096 - 48) with 4048. by rewrite Hal.
  - intros g B Hg Hpg. destruct (big_block g B p cap Hg Hpg) as [_ (g' & Eg & Hig & Hkg & _)]; [lia|].
    exists g'. split; [|done]. unfold free. by destruct (Z.ltb_spec placement (p + 4048)); [|lia].
Qed.

(** [klrealloc] of a block returned by [klmalloc] gives a block of at least
    [size] bytes that starts with the bytes of the old one, which it replaces
    among the blocks in use; the other blocks keep their bytes. *)
Theorem klrealloc_moves (h : heap (C:=C)) A p k size placement :
  inv h A -> A !! p = Some k -> 0 < size < 4294967296 -> room h size ->
  exists q cap h', klrealloc big_head placement h p size = Ret (q, h') /\ size <= cap /\
    inv h' (<[q := cap]> (delete p A)) /\ (q = p \/ A !! q = None) /\
    (forall i, 0 <= i < Z.min k size -> mem h' (q + i) = mem h (p + i)) /\
    same_bytes (delete p A) (mem h) (mem h') /\ failures h' = failures h.
Proof.
  intros Hi Hp Hs Hroom. destruct (inv_bounds h A p k Hi Hp) as (Hb & Hk0 & Hce).
  unfold klrealloc. destruct (Z.eqb_spec p NULL) as [|_]; [unfold NULL in *; lia|]. destruct (Z.eqb_spec size 0) as [|_]; [lia|].
  destruct (old_size_ok h A p k Hi Hp) as (s & -> & Es). cbn [mbind outcome_bind]. rewrite Es.
  destruct (Z.leb_spec size k) as [Hle|Hgt].
  - exists p, k, h. split; [done|]. split; [done|]. rewrite insert_delete_eq, insert_id by done.
    split; [done|]. split; [by left|]. split; [done|]. split; [by intros ? ? ? ? ?|done].
  - destruct (klmalloc_ok h A size Hi Hs Hroom) as (q & cap & h1 & -> & Hcap & Hq & Hi1 & Hk1 & _ & Hf1).
    cbn [mbind outcome_bind]. assert ((<[q:=cap]> A) !! q = Some cap) as Hq1 by apply lookup_insert_eq. assert (p <> q) as Hpq by congruence.
    assert ((<[q:=cap]> A) !! p = Some k) as Hp1 by (by rewrite lookup_insert_ne).
    destruct (inv_bounds h1 _ q cap Hi1 Hq1) as (Hqb & _ & _). destruct (Z.eqb_spec q NULL) as [|_]; [unfold NULL in *; lia|].
    set (m2 := copy (mem h1) q p k).
    assert (forall x, x < q \/ q + cap <= x -> m2 x = mem h1 x) as Hm2.
    { intros x Hx. unfold m2, copy. destruct (Z.leb_spec q x), (Z.ltb_spec x (q + k)); cbn [andb]; done || lia. }
    assert (inv (set_mem h1 m2) (<[q:=cap]> A)) as Hi2 by (apply inv_write; [done|]; intros x Hx; apply Hm2; by apply Hx).
    destruct (klfree_ok _ _ p k Hi2 Hp1) as (h3 & -> & Hi3 & Hk3 & Hf3). cbn [mbind outcome_bind mem set_mem failures] in *.
    exists q, cap, h3. rewrite insert_delete_ne by done. split; [done|]. split; [done|]. split; [done|]. split; [by right|]. split; [|split].
    + intros i Hii. rewrite (Hk3 q cap) by (lia || by rewrite lookup_delete_ne). unfold m2, copy.
      destruct (Z.leb_spec q (q + i)), (Z.ltb_spec (q + i) (q + k)); try lia. cbn [andb]. replace (p + (q + i - q)) with (p + i) by lia.
      apply (Hk1 p k); [done|lia].
    + intros a ka x Ha Hx. apply lookup_delete_Some in Ha as [Hpa Ha]. assert (a <> q) by congruence.
      assert ((<[q:=cap]> A) !! a = Some ka) as Ha1 by (by rewrite lookup_insert_ne).
      rewrite (Hk3 a ka) by (done || by rewrite lookup_delete_ne). rewrite Hm2; [by apply (Hk1 a ka)|].
      destruct (inv_apart h1 _ a ka q cap Hi1 Ha1 Hq1); [done|lia|lia].
    + by rewrite Hf3.
Qed.

(** [klcalloc] returns a block that was not in use, filled with zeros; the
    blocks that were in use keep their bytes. *)
Theorem klcalloc_zeroes (h : heap (C:=C)) A nmemb size :
  inv h A -> 0 < nmemb * size < 4294967296 -> room h (nmemb * size) ->
  exists p cap h', klcalloc big_head h nmemb size = Ret (p, h') /\ nmemb * size <= cap /\ A !! p = None /\
    inv h' (<[p := cap]> A) /\ (forall i, 0 <= i < nmemb * size -> mem h' (p + i) = 0) /\
    same_bytes A (mem h) (mem h') /\ failures h' = failures h.
Proof.
  intros Hi Hs Hroom. unfold klcalloc. rewrite u32_small by lia.
  destruct (klmalloc_ok h A _ Hi Hs Hroom) as (p & cap & h1 & -> & Hcap & Hp & Hi1 & Hk1 & _ & Hf1).
  cbn [mbind outcome_bind]. assert ((<[p:=cap]> A) !! p = Some cap) as Hp1 by apply lookup_insert_eq.
  destruct (inv_bounds h1 _ p cap Hi1 Hp1) as (Hb & _ & _). destruct (Z.eqb_spec p NULL) as [|_]; [unfold NULL in *; lia|].
  set (n := nmemb * size) in *. exists p, cap, (set_mem h1 (zero (mem h1) p n)). cbn [mem set_mem failures].
  assert (forall x, x < p \/ p + cap <= x -> zero (mem h1) p n x = mem h1 x) as Hz.
  { intros x Hx. unfold zero. destruct (Z.leb_spec p x), (Z.ltb_spec x (p + n)); cbn [andb]; done || lia. }
  split; [done|]. split; [done|]. split; [done|]. split; [|split; [|split; [|done]]].
  - apply inv_write; [done|]. intros x Hx. apply Hz. by apply Hx.
  - intros i Hii. unfold zero. destruct (Z.leb_spec p (p + i)), (Z.ltb_spec (p + i) (p + n)); cbn [andb]; done || lia.
  - intros a k x Ha Hx. rewrite Hz; [by apply (Hk1 a k)|]. assert (a <> p) by congruence.
    destruct (inv_apart h1 _ a k p cap Hi1) as [|]; [by rewrite lookup_insert_ne|done|done|lia|lia].
Qed.

(** [klrealloc] of an address that [malloc] returned takes the user's third
    word for the size of the block: if it is at least [size] the block is returned
    as it is, however small it is, and if it is zero only four bytes are copied to
    the new block. *)
Theorem klrealloc_malloc_address (h : heap (C:=C)) A p cap size placement :
  inv h A -> A !! p = Some cap -> 2048 < cap -> 0 < size < 4294967296 ->
  let ptr := p + 4048 in
  (BIG_BIN <= ld (mem h) (ptr + 8) -> size <= ld (mem h) (ptr + 8) -> klrealloc big_head placement h ptr size = Ret (ptr, h)) /\
  (ld (mem h) (ptr + 8) = 0 -> 4 < size -> room h size ->
    exists q k h1 h', klmalloc big_head h size = Ret (q, h1) /\ klrealloc big_head placement h ptr size = Ret (q, h') /\
      inv h' (delete p (<[q := k]> A)) /\ size <= k /\
      forall i, 0 <= i < size -> mem h' (q + i) = if i <? 4 then mem h1 (ptr + i) else mem h1 (q + i)).
Proof.
  intros Hi Hp Hcap Hs ptr. destruct (inv_bounds h A p cap Hi Hp) as (Hb & _ & Hce). destruct (big_block h A p cap Hi Hp Hcap) as [Hmod _].
  assert (ptr mod 4096 = 0) as Hal by (unfold ptr; Z.to_euclidean_division_equations; lia).
  unfold klrealloc. destruct (Z.eqb_spec ptr NULL) as [|_]; [unfold ptr, NULL in *; lia|]. destruct (Z.eqb_spec size 0) as [|_]; [lia|].
  assert (ptr < 4294967296) as Hpw.
  { destruct Hi as (v & Hr & HA). apply HA in Hp as [(q & b & fs & Hq & _ & _ & ->)|(q & Hq & _ & E)].
    - destruct (rp_small _ _ _ _ Hr _ _ _ Hq) as (Hbb & _). pose proof (csz_bounds _ Hbb). lia.
    - destruct (big_page _ _ _ _ _ _ Hr Hq) as (_ & _ & ? & ?). unfold ptr. lia. }
  rewrite mask_page, Hal, Z.sub_0_r by (unfold ptr in *; lia). rewrite load_ok by (unfold ptr; lia). cbn [mbind outcome_bind]. unfold size_.
  split.
  - intros Hw Hle. destruct (Z.ltb_spec (ld (mem h) (ptr + 8)) BIG_BIN); [lia|]. by destruct (Z.leb_spec size (ld (mem h) (ptr + 8))); [|lia].
  - intros -> H4 Hroom. change (0 <? BIG_BIN) with true. cbn iota. change (Z.shiftl 1 (SMALLEST_BIN_LOG + 0)) with 4.
    destruct (Z.leb_spec size 4) as [|_]; [lia|].
    destruct (klmalloc_ok h A size Hi Hs Hroom) as (q & k & h1 & -> & Hk & Hq & Hi1 & Hk1 & _).
    cbn [mbind outcome_bind]. assert ((<[q:=k]> A) !! q = Some k) as Hq1 by apply lookup_insert_eq. assert (p <> q) as Hpq by congruence.
    assert ((<[q:=k]> A) !! p = Some cap) as Hp1 by (by rewrite lookup_insert_ne).
    destruct (inv_bounds h1 _ q k Hi1 Hq1) as (Hqb & _ & _). destruct (Z.eqb_spec q NULL) as [|_]; [unfold NULL in *; lia|].
    set (m2 := copy (mem h1) q ptr 4).
    assert (inv (set_mem h1 m2) (<[q:=k]> A)) as Hi2.
    { apply inv_write; [done|]. intros x Hx. specialize (Hx q k Hq1). unfold m2, copy.
      destruct (Z.leb_spec q x), (Z.ltb_spec x (q + 4)); cbn [andb]; done || lia. }
    destruct (big_block _ _ p cap Hi2 Hp1 Hcap) as [_ (h3 & E3 & Hi3 & Hk3 & _)]. fold ptr in E3. rewrite E3. cbn [mbind outcome_bind mem set_mem] in *.
    exists q, k, h1, h3. do 4 (split; [done|]). intros i Hii. rewrite (Hk3 q k) by (lia || by rewrite lookup_delete_ne). unfold m2, copy.
    destruct (Z.leb_spec q (q + i)), (Z.ltb_spec (q + i) (q + 4)), (Z.ltb_spec i 4); cbn [andb]; try lia.
    by replace (ptr + (q + i - q)) with (ptr + i) by lia.
Qed.

(** ** The heap before the first call *)

Definition empty_heap (m : mem_t) (s : Z * Z * Z * Z) (c : C) : heap := Heap m (replicate 10 NULL) 0 NULL s c 0.

Lemma inv_empty m s c :
  (forall x, big_head <= x < big_head + 48 -> m x = 0) -> core_ok c -> base <= core_end c <= core_limit -> inv (empty_heap m s c) ∅.
Proof.
  intros Hm Hc He. exists (View ∅ ∅ []). split.
  - assert (forall i, 0 <= i <= SKIP_MAX_LEVEL -> ld m (big_head + forward i) = 0) as Hl.
    { intros i Hi. unfold ld. unfold forward, SKIP_MAX_LEVEL in *. rewrite !Hm by lia. done. }
    split; cbn [mem klmalloc_bin_head level klmalloc_newest_big core empty_heap smalls bigs frees]; try done.
    + intros b Hb. exists []. unfold BIG_BIN, NUM_BINS in Hb. split; [|split; [done|split; [constructor|]]].
      * apply (lookup_replicate_2 10 NULL). lia.
      * intros p. cbn. rewrite lookup_empty. split; [by intros ?%not_elem_of_nil|]. by intros (fs & ? & _).
    + split; try done; try constructor; cbn; unfold SKIP_MAX_LEVEL; lia.
    + by intros n ?%not_elem_of_nil.
    + by left.
    + intros p n [(b & fs & E & _)|(sz & E & _)]; cbn in E; by rewrite lookup_empty in E.
    + intros p n q k [(b & fs & E & _)|(sz & E & _)]; cbn in E; by rewrite lookup_empty in E.
    + intros p. by left.
  - intros a k. rewrite lookup_empty. split; [done|]. intros [(p & b & fs & E & _)|(p & E & _)]; cbn in E; by rewrite lookup_empty in E.
Qed.

End Heap.

(** ** The heap on the pages of the kernel

    [sbrk] of [mem.c] is what the heap asks for more. *)

Section Pages.
Import Frames Paging.
Context `{KernelHeap}.

#[export] Instance core_paging : MoreCore memory := {
  core_end := heap_end;
  core_limit := KERNEL_HEAP_END;
  core_ok m := heap_tables m /\ wf (fr m) /\ used (fr m) 0 = true /\ heap_end m mod 0x1000 = 0 /\ 0 < heap_end m;
  more := sbrk
}.

#[export] Instance core_paging_ok : MoreCoreOk memory.
Proof.
  split.
  - intros c (_ & _ & _ & ? & _). done.
  - intros c (_ & _ & _ & _ & ?). done.
  - done.
  - intros c n (Ht & Hwf & H0 & Ha & Hp) Hn Hlim. cbn [core_end core_limit more core_paging] in *.
    assert (heap_end c = heap_end c / 0x1000 * 0x1000) as Eh by (Z.to_euclidean_division_equations; lia).
    destruct (sbrk_ok c (heap_end c / 0x1000) n) as (m' & E & Ee & Ht' & Hk & _); try done; [Z.to_euclidean_division_equations; lia| |].
    { unfold KERNEL_HEAP_END in *. Z.to_euclidean_division_equations. lia. }
    destruct Hk as (Hwf' & _ & Hu). exists m'. split; [done|]. split; [done|]. split; [done|]. split; [done|]. split; [by apply Hu|].
    rewrite Ee. split; [Z.to_euclidean_division_equations; lia|lia].
Qed.

End Pages.
(** ** Witnesses: a heap from page 2000 on *)

Module Demo.
Import Frames Paging Bump.

Definition head : Z := 0x1000.
Definition start : Z := 2000 * 0x1000.
Definition kernel_heap : heap (C:=memory) := empty_heap (fun _ => 0) (123456789, 362436069, 521288629, 88675123) heap_memory.

Lemma kernel_heap_inv : inv head start kernel_heap ∅.
Proof.
  apply inv_empty; [done| |unfold start; split; by vm_compute]. split; [exact heap_memory_tables|]. split; [exact Frames.demo_wf|]. by repeat split.
Qed.

Lemma start_above : head + 48 <= start.
Proof. unfold head, start. lia. Qed.

(** The heap after a request for 5000 bytes. *)
Lemma one_block :
  exists p cap (h : heap (C:=memory)), klmalloc head kernel_heap 5000 = Ret (p, h) /\ 5000 <= cap /\ inv head start h (<[p := cap]> ∅) /\
    core_end (core h) <= 2000 * 0x1000 + 2 * 0x1000.
Proof.
  destruct (klmalloc_ok head start eq_refl eq_refl start_above kernel_heap ∅ 5000 kernel_heap_inv) as (p & cap & h & E & Hc & _ & Hi & _ & Hce & _); [lia|done|].
  exists p, cap, h. split; [done|]. split; [done|]. split; [done|exact Hce].
Qed.

Lemma klmalloc_refines_witness :
  exists p cap h', klmalloc head kernel_heap 100 = Ret (p, h') /\ 100 <= cap /\ inv head start h' (<[p := cap]> ∅) /\ failures h' = 0.
Proof.
  destruct (klmalloc_refines head start eq_refl eq_refl start_above kernel_heap ∅ 100 kernel_heap_inv) as (p & cap & h & E & Hc & _ & Hi & _ & _ & Hf); [lia|done|].
  exists p, cap, h. split; [done|]. split; [done|]. by split.
Defined.

Lemma klfree_refines_witness :
  exists (h : heap (C:=memory)) p cap h', inv head start h (<[p := cap]> ∅) /\ klfree head h p = Ret h' /\ inv head start h' (delete p (<[p := cap]> ∅)).
Proof.
  destruct one_block as (p & cap & h & _ & _ & Hi & _).
  destruct (klfree_refines head start eq_refl eq_refl start_above h (<[p := cap]> ∅) p cap Hi) as (h' & E & Hi' & _); [apply lookup_insert_eq|].
  by exists h, p, cap, h'.
Defined.

Lemma outside p x k : x < p \/ p + k <= x -> (x <? p + k) && (p <=? x) = false.
Proof. intros H. apply andb_false_iff. destruct H; [right; by apply Z.leb_gt|left; by apply Z.ltb_ge]. Qed.

(** One block, overwritten. *)
Lemma heap_run_safe_witness :
  exists (h : heap (C:=memory)) p h', rtc (step head) (kernel_heap, ∅) (h, <[p := 100]> ∅) /\ klfree head h p = Ret h' /\ failures h = failures kernel_heap.
Proof.
  destruct (klmalloc_ok head start eq_refl eq_refl start_above kernel_heap ∅ 100 kernel_heap_inv) as (p & cap & h1 & E & _); [lia|reflexivity|].
  set (h := set_mem h1 (zero (mem h1) p 100)).
  assert (rtc (step head) (kernel_heap, ∅) (h, <[p := 100]> ∅)) as Hrun.
  { eapply rtc_l; [apply (step_malloc head kernel_heap ∅ 100 p h1); [lia|reflexivity|exact E]|]. clear E. apply rtc_once, step_write. intros x Hx.
    specialize (Hx p 100 (lookup_insert_eq _ _ _)). unfold zero. by rewrite andb_comm, (outside p x 100). }
  destruct (heap_run_safe head start eq_refl eq_refl start_above kernel_heap h _ kernel_heap_inv Hrun) as (_ & Hf & _ & Hfree).
  destruct (Hfree p) as (h' & Eh & _); [exists 100; apply lookup_insert_eq|]. exists h, p, h'. exact (conj Hrun (conj Eh Hf)).
Defined.

Lemma malloc_free_witness :
  exists p cap h' h'', Alloc.malloc head kernel_heap 100 = Ret (p + 4048, h') /\ (p + 4048) mod 4096 = 0 /\ 100 + 4048 <= cap /\
    Alloc.free head 0 h' (p + 4048) = Ret h'' /\ inv head start h'' (delete p (<[p := cap]> ∅)).
Proof.
  destruct (malloc_free head start eq_refl eq_refl start_above kernel_heap ∅ 100 0 kernel_heap_inv) as (p & cap & h' & E & Ha & Hc & _ & Hi & _ & _ & Hfree);
    [lia|lia|done|unfold start; lia|].
  destruct (Hfree h' (<[p := cap]> ∅) Hi (lookup_insert_eq _ _ _)) as (h'' & Ef & Hi' & _).
  exists p, cap, h', h''. split; [done|]. split; [done|]. split; [lia|]. by split.
Defined.

Lemma klrealloc_moves_witness :
  exists (h : heap (C:=memory)) p k q cap h', inv head start h (<[p := k]> ∅) /\ klrealloc head 0 h p 9000 = Ret (q, h') /\ 9000 <= cap /\
    inv head start h' (<[q := cap]> (delete p (<[p := k]> ∅))).
Proof.
  destruct one_block as (p & k & h & _ & _ & Hi & Hce).
  destruct (klrealloc_moves head start eq_refl eq_refl start_above h (<[p := k]> ∅) p k 9000 0 Hi (lookup_insert_eq _ _ _)) as (q & cap & h' & E & Hc & Hi' & _);
    [lia|unfold room; change core_limit with KERNEL_HEAP_END; change (npages 9000) with 3; unfold KERNEL_HEAP_END; lia|].
  exists h, p, k, q, cap, h'. split; [done|]. split; [done|]. by split.
Defined.

Lemma klcalloc_zeroes_witness :
  exists p cap h', klcalloc head kernel_heap 10 16 = Ret (p, h') /\ 160 <= cap /\ mem h' p = 0.
Proof.
  destruct (klcalloc_zeroes head start eq_refl eq_refl start_above kernel_heap ∅ 10 16 kernel_heap_inv) as (p & cap & h' & E & Hc & _ & _ & Hz & _); [lia|done|].
  exists p, cap, h'. split; [done|]. split; [done|]. specialize (Hz 0 ltac:(lia)). by rewrite Z.add_0_r in Hz.
Defined.

Lemma klrealloc_malloc_address_witness :
  exists (h : heap (C:=memory)) p cap, inv head start h (<[p := cap]> ∅) /\ klrealloc head 0 h (p + 4048) 9000 = Ret (p + 4048, h).
Proof.
  destruct one_block as (p & cap & h & _ & Hcap & Hi & Hce).
  assert (inv head start (set_mem h (st (mem h) (p + 4048 + 8) 10000)) (<[p := cap]> ∅)) as Hi'.
  { apply inv_write; [exact start_above|done|]. intros x Hx. specialize (Hx p cap (lookup_insert_eq _ _ _)). apply st_other. lia. }
  exists (set_mem h (st (mem h) (p + 4048 + 8) 10000)), p, cap. split; [done|].
  apply (klrealloc_malloc_address head start eq_refl eq_refl start_above _ (<[p := cap]> ∅) p cap 9000 0 Hi' (lookup_insert_eq _ _ _));
    [lia|lia| |]; cbn [mem set_mem]; rewrite ld_st by lia; unfold BIG_BIN, NUM_BINS; lia.
Defined.

End Demo.
End AllocSpec.
