(* ===== verification/Tty.v ===== *)
(** * Pseudo terminals ([kernel/src/tty.c])

    A terminal is two ring buffers and a line being edited.  What the master
    writes goes through the line discipline [input_process] into [in_], from which
    the slave reads; what the slave writes goes to [out], which the master reads.
    Writing to a ring may sleep, so the operations are computations of a small
    monad [tty] over the state of the terminal and the sleeps still to come
    ([RingBuffer.env]); while one ring is being written the other tasks may change
    everything of the terminal.

    [send_signal] is a log of the signals sent; [validate] kills the process that
    passes a kernel address, so an [ioctl] argument is an address of the process. *)

From stdpp Require Import base numbers list.
From S2P Require Import Prelude LinkedList Ring RingBuffer.

Module Tty.
Import RingBuffer.

Definition TTY_BUFFER_SIZE : Z := 4096.

(** [termios.h] and [signal_defs.h] *)
Definition VEOF : Z := 1.
Definition VEOL : Z := 2.
Definition VERASE : Z := 3.
Definition VINTR : Z := 4.
Definition VKILL : Z := 5.
Definition VMIN : Z := 6.
Definition VQUIT : Z := 7.
Definition VSTART : Z := 8.
Definition VSTOP : Z := 9.
Definition VSUSP : Z := 10.
Definition VTIME : Z := 11.
Definition BRKINT : Z := 1.
Definition ICRNL : Z := 2.
Definition OPOST : Z := 1.
Definition ONLCR : Z := 4.
Definition CREAD : Z := 128.
Definition ISIG : Z := 1.
Definition ICANON : Z := 2.
Definition ECHO : Z := 8.
Definition ECHOE : Z := 16.
Definition ECHOK : Z := 32.
Definition IEXTEN : Z := 512.
Definition NCCS : Z := 32.
Definition TCGETS : Z := 0x4000.
Definition TCSETS : Z := 0x4001.
Definition TCSETSW : Z := 0x4002.
Definition TCSETSF : Z := 0x4003.
Definition TIOCGPGRP : Z := 0x400A.
Definition TIOCSPGRP : Z := 0x400B.
Definition TIOCGWINSZ : Z := 0x400E.
Definition TIOCSWINSZ : Z := 0x400F.
Definition IOCTLDTYPE : Z := 0x4F00.
Definition IOCTL_DTYPE_TTY : Z := 2.
Definition EINVAL : Z := 22.
Definition SIGINT : Z := 2.
Definition SIGQUIT : Z := 3.

Definition newline : Z := 10.
Definition carriage_return : Z := 13.
Definition backspace : Z := 8.
Definition space : Z := 32.

Record winsize := Build_winsize { ws_row : Z; ws_col : Z; ws_xpixel : Z; ws_ypixel : Z }.

Record termios := Build_termios { c_iflag : Z; c_oflag : Z; c_cflag : Z; c_lflag : Z; c_cc : list Z }.

(** The two nodes carry the operations below and need no field.  [signals] are the
    calls of [send_signal]. *)
Record pty_t := Build_pty {
  name : Z;
  wsize : winsize;
  tios : termios;
  in_ : ring_buffer_t;
  out : ring_buffer_t;
  canon_buffer : list Z;
  canon_bufsize : Z;
  canon_buflen : Z;
  ct_proc : Z;
  fg_proc : Z;
  signals : list (Z * Z)
}.

Definition set_wsize (p : pty_t) w := Build_pty (name p) w (tios p) (in_ p) (out p) (canon_buffer p) (canon_bufsize p) (canon_buflen p) (ct_proc p) (fg_proc p) (signals p).
Definition set_tios (p : pty_t) t := Build_pty (name p) (wsize p) t (in_ p) (out p) (canon_buffer p) (canon_bufsize p) (canon_buflen p) (ct_proc p) (fg_proc p) (signals p).
Definition set_in (p : pty_t) rb := Build_pty (name p) (wsize p) (tios p) rb (out p) (canon_buffer p) (canon_bufsize p) (canon_buflen p) (ct_proc p) (fg_proc p) (signals p).
Definition set_out (p : pty_t) rb := Build_pty (name p) (wsize p) (tios p) (in_ p) rb (canon_buffer p) (canon_bufsize p) (canon_buflen p) (ct_proc p) (fg_proc p) (signals p).
Definition set_canon (p : pty_t) b n := Build_pty (name p) (wsize p) (tios p) (in_ p) (out p) b (canon_bufsize p) n (ct_proc p) (fg_proc p) (signals p).
Definition set_fg (p : pty_t) n := Build_pty (name p) (wsize p) (tios p) (in_ p) (out p) (canon_buffer p) (canon_bufsize p) (canon_buflen p) (ct_proc p) n (signals p).
Definition set_signals (p : pty_t) s := Build_pty (name p) (wsize p) (tios p) (in_ p) (out p) (canon_buffer p) (canon_bufsize p) (canon_buflen p) (ct_proc p) (fg_proc p) s.

(** ** Computations on a terminal *)

Inductive result (A : Type) : Type :=
  | Returned (a : A) (p : pty_t) (sleeps : list (env pty_t))
  | Asleep (p : pty_t).
Arguments Returned {A} a p sleeps.
Arguments Asleep {A} p.

Definition tty (A : Type) : Type := list (env pty_t) -> pty_t -> outcome (result A).

#[global] Instance tty_ret : MRet tty := fun A a sleeps p => Ret (Returned a p sleeps).
#[global] Instance tty_bind : MBind tty := fun A B f m sleeps p =>
  match m sleeps p with
  | Ret (Returned a p sleeps) => f a sleeps p
  | Ret (Asleep p) => Ret (Asleep p)
  | Fault => Fault
  | OutOfFuel => OutOfFuel
  end.

Definition get : tty pty_t := fun sleeps p => Ret (Returned p p sleeps).
Definition put (p : pty_t) : tty () := fun sleeps _ => Ret (Returned tt p sleeps).
Definition lift {A} (m : outcome A) : tty A := fun sleeps p => a ← m; Ret (Returned a p sleeps).
Definition skip : tty () := mret tt.

Section Tasks.
Context (finished : ptr -> outcome bool) (owner : pty_t -> bool) (current_task : ptr).

(** [IN] and [OUT] *)
Definition IN (character : Z) : tty () := fun sleeps p =>
  c ← ring_buffer_write finished owner current_task sleeps (in_ p) p [character];
  match c with
  | Done _ rb p sleeps => Ret (Returned tt (set_in p rb) sleeps)
  | Blocked rb p => Ret (Asleep (set_in p rb))
  end.

Definition OUT (character : Z) : tty () := fun sleeps p =>
  c ← ring_buffer_write finished owner current_task sleeps (out p) p [character];
  match c with
  | Done _ rb p sleeps => Ret (Returned tt (set_out p rb) sleeps)
  | Blocked rb p => Ret (Asleep (set_out p rb))
  end.

(** The loop of [dump_input_buffer] at position [i]; [todo] is the length that is
    left, which other tasks may not change: [in_] discards and does not sleep. *)
Fixpoint dump_loop (todo : nat) (i : Z) : tty () :=
  match todo with
  | O => skip
  | S todo' =>
      p ← get;
      c ← lift (aget (canon_buffer p) i);
      IN c;;
      p ← get;
      put (set_canon p (canon_buffer p) (canon_buflen p - 1));;
      dump_loop todo' (i + 1)
  end.
Definition dump_input_buffer : tty () :=
  p ← get; dump_loop (Z.to_nat (canon_buflen p)) 0.

Definition clear_input_buffer : tty () :=
  p ← get;
  b ← lift (aset (canon_buffer p) 0 0);
  put (set_canon p b 0).

Definition has (flags bit : Z) : bool := truthy (Z.land flags bit).

Definition output_process (c : Z) : tty () :=
  p ← get;
  if ring_buffer_available (out p) <? 2 then skip
  else
    (if (c =? newline) && has (c_oflag (tios p)) ONLCR then OUT carriage_return else skip);;
    OUT c.

Definition output_process_slave (c : Z) : tty () :=
  p ← get;
  (if (c =? newline) && has (c_oflag (tios p)) ONLCR then OUT carriage_return else skip);;
  OUT c.

(** The echo of an erased character. *)
Definition rub_out : tty () :=
  p ← get;
  if has (c_lflag (tios p)) ECHO then output_process backspace;; output_process space;; output_process backspace
  else skip.

(** One turn of erasing. *)
Definition erase_one : tty () :=
  p ← get;
  b ← lift (aset (canon_buffer p) (canon_buflen p - 1) 0);
  put (set_canon p b (canon_buflen p - 1));;
  rub_out.

Fixpoint kill_loop (todo : nat) : tty () :=
  match todo with
  | O => skip
  | S todo' =>
      p ← get;
      if 0 <? canon_buflen p then erase_one;; kill_loop todo' else skip
  end.

Definition send_signal (process signal : Z) : tty () :=
  p ← get; put (set_signals p (signals p ++ [(process, signal)])).

(** Interrupting: echo, forget the line, signal the foreground process. *)
Definition interrupt_line (c signal : Z) : tty () :=
  p ← get;
  (if has (c_lflag (tios p)) ECHO
   then output_process 94;; output_process (u8 (64 + c));; output_process newline
   else skip);;
  clear_input_buffer;;
  p ← get;
  if truthy (fg_proc p) then send_signal (fg_proc p) signal else skip.

Definition input_process (c : Z) : tty () :=
  p ← get;
  if has (c_lflag (tios p)) ICANON then
    kill ← lift (aget (c_cc (tios p)) VKILL);
    if c =? kill then kill_loop (Z.to_nat (canon_buflen p))
    else
    erase ← lift (aget (c_cc (tios p)) VERASE);
    if c =? erase then (if 0 <? canon_buflen p then erase_one else skip)
    else
    intr ← lift (aget (c_cc (tios p)) VINTR);
    if c =? intr then interrupt_line c SIGINT
    else
    quit ← lift (aget (c_cc (tios p)) VQUIT);
    if c =? quit then interrupt_line c SIGQUIT
    else
    eof ← lift (aget (c_cc (tios p)) VEOF);
    if c =? eof then
      (if truthy (canon_buflen p) then dump_input_buffer
       else rb ← lift (ring_buffer_interrupt finished (in_ p)); put (set_in p rb))
    else
      (if canon_buflen p <? canon_bufsize p
       then b ← lift (aset (canon_buffer p) (canon_buflen p) c); put (set_canon p b (canon_buflen p + 1))
       else skip);;
      (if has (c_lflag (tios p)) ECHO then output_process c else skip);;
      if c =? newline then
        p ← get;
        b ← lift (aset (canon_buffer p) (canon_buflen p - 1) c);
        put (set_canon p b (canon_buflen p));;
        dump_input_buffer
      else skip
  else
    (if has (c_lflag (tios p)) ECHO then output_process c else skip);;
    IN c.

(** ** Control *)

(** The memory at [argp], read as each of the types a request may take. *)
Record ioctl_arg := Build_ioctl_arg { arg_winsize : winsize; arg_termios : termios; arg_pid : Z }.

(** What a request writes there. *)
Inductive ioctl_reply : Type :=
  | NoReply
  | ReplyWinsize (w : winsize)
  | ReplyTermios (t : termios)
  | ReplyPid (pid : Z).

Definition pty_ioctl (request : Z) (argp : option ioctl_arg) : tty (Z * ioctl_reply) :=
  p ← get;
  if request =? IOCTLDTYPE then mret (IOCTL_DTYPE_TTY, NoReply)
  else if request =? TIOCSWINSZ then
    match argp with
    | None => mret (-1, NoReply)
    | Some a => put (set_wsize p (arg_winsize a));; mret (0, NoReply)
    end
  else if request =? TIOCGWINSZ then
    match argp with
    | None => mret (-1, NoReply)
    | Some _ => mret (0, ReplyWinsize (wsize p))
    end
  else if request =? TCGETS then
    match argp with
    | None => mret (-1, NoReply)
    | Some _ => mret (0, ReplyTermios (tios p))
    end
  else if request =? TIOCSPGRP then
    match argp with
    | None => mret (-1, NoReply)
    | Some a => put (set_fg p (arg_pid a));; mret (0, NoReply)
    end
  else if request =? TIOCGPGRP then
    match argp with
    | None => mret (-1, NoReply)
    | Some _ => mret (0, ReplyPid (fg_proc p))
    end
  else if (request =? TCSETS) || (request =? TCSETSW) || (request =? TCSETSF) then
    match argp with
    | None => mret (-1, NoReply)
    | Some a =>
        (if negb (has (c_lflag (arg_termios a)) ICANON) && has (c_lflag (tios p)) ICANON
         then dump_input_buffer else skip);;
        p ← get;
        put (set_tios p (arg_termios a));;
        mret (0, NoReply)
    end
  else mret (- EINVAL, NoReply).

(** [ioctl_pty_master] and [ioctl_pty_slave] *)
Definition ioctl_pty_master := pty_ioctl.
Definition ioctl_pty_slave := pty_ioctl.

(** ** Reading and writing *)

Definition read_in (sz : Z) : tty (list Z) := fun sleeps p =>
  c ← ring_buffer_read finished owner current_task sleeps (in_ p) p sz;
  match c with
  | Done bs rb p sleeps => Ret (Returned bs (set_in p rb) sleeps)
  | Blocked rb p => Ret (Asleep (set_in p rb))
  end.

Definition read_pty_master (sz : Z) : tty (list Z) := fun sleeps p =>
  c ← ring_buffer_read finished owner current_task sleeps (out p) p sz;
  match c with
  | Done bs rb p sleeps => Ret (Returned bs (set_out p rb) sleeps)
  | Blocked rb p => Ret (Asleep (set_out p rb))
  end.

Fixpoint write_pty_master (buffer : list Z) : tty Z :=
  match buffer with
  | [] => mret 0
  | c :: buffer' => input_process c;; l ← write_pty_master buffer'; mret (l + 1)
  end.

Definition read_pty_slave (sz : Z) : tty (list Z) :=
  p ← get;
  if has (c_lflag (tios p)) ICANON then read_in sz
  else
    vmin ← lift (aget (c_cc (tios p)) VMIN);
    if vmin =? 0 then read_in (Z.min sz (ring_buffer_unread (in_ p)))
    else read_in (Z.min vmin sz).

Fixpoint write_pty_slave (buffer : list Z) : tty Z :=
  match buffer with
  | [] => mret 0
  | c :: buffer' => output_process_slave c;; l ← write_pty_slave buffer'; mret (l + 1)
  end.

(** ** Selecting *)

Definition pty_available_input (p : pty_t) : Z := ring_buffer_unread (in_ p).
Definition pty_available_output (p : pty_t) : Z := ring_buffer_unread (out p).
Definition check_pty_master (p : pty_t) : Z := if 0 <? ring_buffer_unread (out p) then 0 else 1.
Definition check_pty_slave (p : pty_t) : Z := if 0 <? ring_buffer_unread (in_ p) then 0 else 1.

Definition wait_pty_master (p : pty_t) (self process : ptr) (node_waits : list ptr) : pty_t * list ptr * Z :=
  let '(rb, ws) := ring_buffer_select_wait (out p) self process node_waits in (set_out p rb, ws, 0).
Definition wait_pty_slave (p : pty_t) (self process : ptr) (node_waits : list ptr) : pty_t * list ptr * Z :=
  let '(rb, ws) := ring_buffer_select_wait (in_ p) self process node_waits in (set_in p rb, ws, 0).

End Tasks.

(** ** A new terminal *)

(** [c_cc] starts as the bytes [malloc] returned; so do the rings and the line. *)
Definition default_cc (cc : list Z) : outcome (list Z) :=
  cc ← aset cc VEOF 4;
  cc ← aset cc VEOL 0;
  cc ← aset cc VERASE 8;
  cc ← aset cc VINTR 3;
  cc ← aset cc VKILL 21;
  cc ← aset cc VMIN 1;
  cc ← aset cc VQUIT 28;
  cc ← aset cc VSTART 17;
  cc ← aset cc VSTOP 19;
  cc ← aset cc VSUSP 26;
  aset cc VTIME 0.

Definition set_discard (rb : ring_buffer_t) (d : Z) : ring_buffer_t :=
  Build_ring_buffer (buffer rb) (write_ptr rb) (read_ptr rb) (size rb) (wait_queue_readers rb)
    (wait_queue_writers rb) (internal_stop rb) (alert_waiters rb) d (woken rb).

Definition pty_new (size : option winsize) (bytes_in bytes_out canon cc : list Z) (xpixel ypixel : Z) : outcome pty_t :=
  let tty_bytes l := take (Z.to_nat TTY_BUFFER_SIZE) l in
  cc ← default_cc cc;
  Ret (Build_pty 0
    (match size with Some w => w | None => Build_winsize 25 80 xpixel ypixel end)
    (Build_termios (Z.lor ICRNL BRKINT) (Z.lor ONLCR OPOST) CREAD
      (Z.lor ECHO (Z.lor ECHOE (Z.lor ECHOK (Z.lor ICANON (Z.lor ISIG IEXTEN))))) cc)
    (set_discard (ring_buffer_create (tty_bytes bytes_in)) 1) (ring_buffer_create (tty_bytes bytes_out))
    (tty_bytes canon) (TTY_BUFFER_SIZE - 2) 0 0 0 []).

(** ** Specification: the line discipline on lists of bytes *)

(** The line being edited, the bytes waiting for the slave, those waiting for the
    master, and the signals sent. *)
Record session := Session { line : list Z; input : list Z; shown : list Z; sent : list (Z * Z) }.

(** A line feed is shown as a carriage return and a line feed. *)
Definition expand (onlcr : bool) (c : Z) : list Z := if (c =? newline) && onlcr then [carriage_return; c] else [c].

(** The bytes at the end that do not fit are dropped. *)
Definition deliver (room : nat) (q l : list Z) : list Z := take room (q ++ l).

(** An echo is dropped when there is not room for two bytes. *)
Definition show (room : nat) (onlcr : bool) (q : list Z) (c : Z) : list Z :=
  if (room - length q <? 2)%nat then q else q ++ expand onlcr c.

Section Discipline.

(** The settings, the foreground process, the longest line and the room of the two
    rings. *)
Context (t : termios) (fg : Z) (limit room_in room_out : nat).

Definition cc (i : Z) : Z := nth (Z.to_nat i) (c_cc t) 0.
Definition onlcr : bool := has (c_oflag t) ONLCR.

Definition echo (s : session) (cs : list Z) : session :=
  if has (c_lflag t) ECHO then Session (line s) (input s) (fold_left (show room_out onlcr) cs (shown s)) (sent s) else s.

Definition rub : list Z := [backspace; space; backspace].
Definition set_line (s : session) (l : list Z) : session := Session l (input s) (shown s) (sent s).
Definition hand_over (s : session) (l : list Z) : session := Session (line s) (deliver room_in (input s) l) (shown s) (sent s).
Definition interrupted (s : session) (c signal : Z) : session :=
  let s := echo s [94; u8 (64 + c); newline] in
  Session [] (input s) (shown s) (sent s ++ if truthy fg then [(fg, signal)] else []).

Definition typed (s : session) (c : Z) : session :=
  if has (c_lflag t) ICANON then
    if c =? cc VKILL then set_line (echo s (concat (replicate (length (line s)) rub))) []
    else if c =? cc VERASE then
      match line s with [] => s | _ => set_line (echo s rub) (removelast (line s)) end
    else if c =? cc VINTR then interrupted s c SIGINT
    else if c =? cc VQUIT then interrupted s c SIGQUIT
    else if c =? cc VEOF then set_line (hand_over s (line s)) []
    else
      let l := if (length (line s) <? limit)%nat then line s ++ [c] else line s in
      let s := echo (set_line s l) [c] in
      if c =? newline then set_line (hand_over s (removelast l ++ [c])) [] else s
  else hand_over (echo s [c]) [c].

End Discipline.

(** ** Well-formed terminals *)

Definition in_room (p : pty_t) : nat := capacity (in_ p).
Definition out_room (p : pty_t) : nat := capacity (out p).
Definition limit (p : pty_t) : nat := Z.to_nat (canon_bufsize p).

(** A ring on which nobody sleeps. *)
Definition idle (rb : ring_buffer_t) : Prop := wf rb /\ quiet rb.

Record pty_wf (p : pty_t) : Prop := {
  pw_in : idle (in_ p);
  pw_discard : discard (in_ p) <> 0;
  pw_out : idle (out p);
  pw_len : 0 <= canon_buflen p <= canon_bufsize p;
  pw_size : 0 < canon_bufsize p < Z.of_nat (length (canon_buffer p));
  pw_cc : length (c_cc (tios p)) = Z.to_nat NCCS
}.

Definition session_of (p : pty_t) : session :=
  Session (take (Z.to_nat (canon_buflen p)) (canon_buffer p)) (contents (in_ p)) (contents (out p)) (signals p).

(** The settings stay. *)
Definition same_setup (p p' : pty_t) : Prop :=
  tios p' = tios p /\ fg_proc p' = fg_proc p /\ canon_bufsize p' = canon_bufsize p /\ in_room p' = in_room p /\ out_room p' = out_room p /\
  length (canon_buffer p') = length (canon_buffer p) /\ name p' = name p /\ wsize p' = wsize p /\ ct_proc p' = ct_proc p.

#[export] Instance same_setup_pre : PreOrder same_setup.
Proof. split; unfold same_setup; [intros p|intros p1 p2 p3]; intuition congruence. Qed.

Lemma bind_returned {A B} (m : tty A) (f : A -> tty B) sleeps p a p' sleeps' :
  m sleeps p = Ret (Returned a p' sleeps') -> (m ≫= f) sleeps p = f a sleeps' p'.
Proof. intros E. unfold mbind, tty_bind. by rewrite E. Qed.

Lemma bind_get {B} (f : pty_t -> tty B) sleeps p : (get ≫= f) sleeps p = f p sleeps p.
Proof. done. Qed.

Lemma bind_put {B} q (f : () -> tty B) sleeps p : (put q ≫= f) sleeps p = f tt sleeps q.
Proof. done. Qed.

Lemma bind_skip {B} (f : () -> tty B) sleeps p : (skip ≫= f) sleeps p = f tt sleeps p.
Proof. done. Qed.

Lemma bind_lift {A B} (m : outcome A) a (f : A -> tty B) sleeps p : m = Ret a -> (lift m ≫= f) sleeps p = f a sleeps p.
Proof. by intros ->. Qed.

Lemma lift_ret {A} (m : outcome A) a sleeps p : m = Ret a -> lift m sleeps p = Ret (Returned a p sleeps).
Proof. by intros ->. Qed.

Section Tasks.
Context (finished : ptr -> outcome bool) (owner : pty_t -> bool) (current_task : ptr).

Lemma IN_ok c sleeps p :
  pty_wf p -> exists p', IN finished owner current_task c sleeps p = Ret (Returned tt p' sleeps) /\ pty_wf p' /\ same_setup p p' /\
    canon_buffer p' = canon_buffer p /\ canon_buflen p' = canon_buflen p /\
    session_of p' = hand_over (in_room p) (session_of p) [c].
Proof.
  intros Hw. pose proof Hw as [Hin Hd Ho Hl Hs Hc].
  destruct (write_loop_now finished owner current_task sleeps (in_ p) p [c] (proj1 Hin) (proj2 Hin) (or_intror Hd)) as (rb & E & Hwf & Ec & Es & Ed & Hq).
  exists (set_in p rb). unfold IN, ring_buffer_write. rewrite E. cbn [mbind outcome_bind]. split; [done|].
  split; [split; cbn; congruence || done|]. split; [unfold same_setup, in_room, out_room, capacity; cbn; by rewrite Es|].
  split; [done|]. split; [done|]. unfold session_of, hand_over, deliver, in_room. cbn. f_equal. rewrite Ec.
  pose proof (length_contents (in_ p) (proj1 Hin)) as Hlen. pose proof (available_room (in_ p) (proj1 Hin)).
  assert (length (contents (in_ p)) <= capacity (in_ p))%nat as Hle.
  { unfold capacity. destruct Hin as ((? & ? & ? & ?) & _). pose proof (Ring.unread_bound (read_ptr (in_ p)) (write_ptr (in_ p)) (size (in_ p))).
    rewrite unread_ring in Hlen. lia. }
  rewrite take_app, (take_ge (contents (in_ p))) by lia. done.
Qed.

Lemma queue_bound rb : wf rb -> (length (contents rb) <= capacity rb)%nat.
Proof.
  intros Hwf. pose proof (length_contents rb Hwf) as Hlen. unfold capacity. destruct Hwf as (? & ? & ? & ?).
  pose proof (Ring.unread_bound (read_ptr rb) (write_ptr rb) (size rb)). rewrite unread_ring in Hlen. lia.
Qed.

(** [p'] is [p] with the ring of the master changed. *)
Definition only_out (p p' : pty_t) : Prop := exists rb, p' = set_out p rb /\ idle rb /\ capacity rb = capacity (out p).

Lemma only_out_trans p1 p2 p3 : only_out p1 p2 -> only_out p2 p3 -> only_out p1 p3.
Proof. intros (rb & -> & _ & E) (rb' & -> & Hw & E'). exists rb'. split; [done|]. split; [done|]. cbn in E'. congruence. Qed.

Lemma only_out_refl p : idle (out p) -> only_out p p.
Proof. intros Hw. exists (out p). by destruct p. Qed.

Lemma only_out_wf p p' : only_out p p' -> pty_wf p -> pty_wf p' /\ same_setup p p'.
Proof. intros (rb & -> & Hw & E) [? ? ? ? ? ?]. split; [done|]. unfold same_setup, in_room, out_room. by cbn. Qed.

Lemma OUT_ok c sleeps p :
  idle (out p) -> (length (contents (out p)) < capacity (out p))%nat ->
  exists p', OUT finished owner current_task c sleeps p = Ret (Returned tt p' sleeps) /\ only_out p p' /\ contents (out p') = contents (out p) ++ [c].
Proof.
  intros Hw Hr. destruct (ring_buffer_write_one finished owner current_task sleeps (out p) p c (proj1 Hw) (proj2 Hw) Hr) as (rb & E & Hwf & Ec & Es & _ & Hq).
  exists (set_out p rb). unfold OUT. rewrite E. cbn [mbind outcome_bind]. split; [done|]. split; [by exists rb|done].
Qed.

(** Writing a character with its carriage return. *)
Lemma expand_ok c sleeps p :
  idle (out p) -> (length (contents (out p)) + length (expand (onlcr (tios p)) c) <= capacity (out p))%nat ->
  exists p', output_process_slave finished owner current_task c sleeps p = Ret (Returned tt p' sleeps) /\ only_out p p' /\
    contents (out p') = contents (out p) ++ expand (onlcr (tios p)) c.
Proof.
  intros Hw Hr. unfold output_process_slave. rewrite bind_get. unfold expand, onlcr in *.
  destruct ((c =? newline) && has (c_oflag (tios p)) ONLCR); cbn [length] in Hr.
  - destruct (OUT_ok carriage_return sleeps p Hw) as (p1 & E1 & H1 & Ec1); [lia|]. rewrite (bind_returned _ _ _ _ _ _ _ E1).
    pose proof H1 as (rb & -> & Hw1 & Eq). cbn in Ec1.
    destruct (OUT_ok c sleeps (set_out p rb)) as (p2 & E2 & H2 & Ec2); [done|cbn; rewrite Ec1, length_app, Eq; cbn; lia|].
    exists p2. split; [exact E2|]. split; [by eapply only_out_trans|]. rewrite Ec2. cbn. by rewrite Ec1, <- app_assoc.
  - rewrite bind_skip. destruct (OUT_ok c sleeps p Hw) as (p1 & E1 & H1 & Ec1); [lia|]. by exists p1.
Qed.

Lemma output_process_ok c sleeps p :
  idle (out p) ->
  exists p', output_process finished owner current_task c sleeps p = Ret (Returned tt p' sleeps) /\ only_out p p' /\
    contents (out p') = show (out_room p) (onlcr (tios p)) (contents (out p)) c.
Proof.
  intros Hw. unfold output_process. rewrite bind_get. pose proof (available_room (out p) (proj1 Hw)) as Ha.
  unfold show, out_room. destruct (Nat.ltb_spec (capacity (out p) - length (contents (out p))) 2) as [Hlt|Hge]; unfold capacity in *.
  - destruct (Z.ltb_spec (ring_buffer_available (out p)) 2); [|lia]. exists p. split; [done|]. split; [by apply only_out_refl|done].
  - destruct (Z.ltb_spec (ring_buffer_available (out p)) 2); [lia|].
    apply (expand_ok c sleeps p Hw). unfold expand, capacity. destruct (_ && _); cbn; lia.
Qed.

(** A sequence of characters shown one after the other. *)
Lemma shows_ok cs (k : tty ()) sleeps p :
  idle (out p) ->
  exists p', (foldr (fun c m => output_process finished owner current_task c;; m) k cs) sleeps p = k sleeps p' /\ only_out p p' /\
    contents (out p') = fold_left (show (out_room p) (onlcr (tios p))) cs (contents (out p)).
Proof.
  revert p. induction cs as [|c cs IH]; intros p Hw; cbn [foldr fold_left].
  { exists p. split; [done|]. split; [by apply only_out_refl|done]. }
  destruct (output_process_ok c sleeps p Hw) as (p1 & E1 & H1 & Ec1). pose proof H1 as (rb & -> & Hw1 & Eq).
  destruct (IH (set_out p rb) Hw1) as (p2 & E2 & H2 & Ec2). exists p2. rewrite (bind_returned _ _ _ _ _ _ _ E1). split; [exact E2|].
  split; [by eapply only_out_trans|]. rewrite Ec2. cbn [out tios set_out] in *. rewrite Ec1. unfold out_room. cbn. by rewrite Eq.
Qed.

(** The same, if echoing is on. *)
Lemma echo_ok cs sleeps p :
  idle (out p) -> cs <> [] ->
  exists p', (if has (c_lflag (tios p)) ECHO then foldr (fun c m => output_process finished owner current_task c;; m) (mret tt) cs else skip) sleeps p =
      Ret (Returned tt p' sleeps) /\ only_out p p' /\ session_of p' = echo (tios p) (out_room p) (session_of p) cs.
Proof.
  intros Hw Hne. unfold echo. destruct (has (c_lflag (tios p)) ECHO).
  - destruct (shows_ok cs (mret tt) sleeps p Hw) as (p' & E & Ho & Ec). exists p'. split; [exact E|]. split; [done|].
    pose proof Ho as (rb & -> & _ & _). unfold session_of. cbn in *. by rewrite Ec.
  - exists p. split; [done|]. split; [by apply only_out_refl|done].
Qed.

Lemma bind_unit (m : tty ()) sleeps p : (m;; mret tt) sleeps p = m sleeps p.
Proof. unfold mbind, tty_bind, mret, tty_ret. destruct (m sleeps p) as [[[] p' s'|p']| |]; done. Qed.

Lemma bind_ext {A B} (m : tty A) (f g : A -> tty B) sleeps p :
  (forall a s q, f a s q = g a s q) -> (m ≫= f) sleeps p = (m ≫= g) sleeps p.
Proof. intros Hfg. unfold mbind, tty_bind. destruct (m sleeps p) as [[a p' s'|p']| |]; done || apply Hfg. Qed.

(** One and three characters echoed, as the code writes it. *)
Lemma echo1_ok c sleeps p :
  idle (out p) ->
  exists p', (if has (c_lflag (tios p)) ECHO then output_process finished owner current_task c else skip) sleeps p = Ret (Returned tt p' sleeps) /\
    only_out p p' /\ session_of p' = echo (tios p) (out_room p) (session_of p) [c].
Proof.
  intros Hw. destruct (echo_ok [c] sleeps p Hw) as (p' & E & Hrest); [done|]. exists p'. split; [|done]. rewrite <- E. cbn [foldr].
  destruct (has (c_lflag (tios p)) ECHO); [|done]. symmetry. apply bind_unit.
Qed.

Lemma echo3_ok a b c sleeps p :
  idle (out p) ->
  exists p', (if has (c_lflag (tios p)) ECHO
      then output_process finished owner current_task a;; output_process finished owner current_task b;; output_process finished owner current_task c
      else skip) sleeps p = Ret (Returned tt p' sleeps) /\
    only_out p p' /\ session_of p' = echo (tios p) (out_room p) (session_of p) [a; b; c].
Proof.
  intros Hw. destruct (echo_ok [a; b; c] sleeps p Hw) as (p' & E & Hrest); [done|]. exists p'. split; [|done]. rewrite <- E. cbn [foldr].
  destruct (has (c_lflag (tios p)) ECHO); [|done]. apply bind_ext. intros _ s q. apply bind_ext. intros _ s' q'. symmetry. apply bind_unit.
Qed.

(** ** Editing the line *)

(** The line after its last byte was erased. *)
Lemma take_shorter (b : list Z) n x : 0 < n <= Z.of_nat (length b) ->
  take (Z.to_nat (n - 1)) (<[Z.to_nat (n - 1) := x]> b) = removelast (take (Z.to_nat n) b).
Proof.
  intros Hn. rewrite take_insert_ge by lia. assert (Z.to_nat n = S (Z.to_nat (n - 1))) as -> by lia.
  destruct (lookup_lt_is_Some_2 b (Z.to_nat (n - 1))) as [y Hy]; [lia|]. rewrite (take_S_r _ _ y) by done. by rewrite removelast_last.
Qed.

Lemma erase_one_ok sleeps p :
  pty_wf p -> 0 < canon_buflen p ->
  exists p', erase_one finished owner current_task sleeps p = Ret (Returned tt p' sleeps) /\ pty_wf p' /\ same_setup p p' /\
    canon_buflen p' = canon_buflen p - 1 /\
    session_of p' = set_line (echo (tios p) (out_room p) (session_of p) rub) (removelast (line (session_of p))).
Proof.
  intros Hw Hl. pose proof Hw as [Hin Hd Ho Hlen Hs Hc]. unfold erase_one. rewrite bind_get.
  rewrite (bind_lift _ (<[Z.to_nat (canon_buflen p - 1):=0]> (canon_buffer p))) by (apply aset_in_range; lia). rewrite bind_put.
  set (p1 := set_canon p _ _). unfold rub_out. rewrite bind_get.
  destruct (echo3_ok backspace space backspace sleeps p1 Ho) as (p' & E & Hoo & Es). exists p'. split; [exact E|].
  assert (pty_wf p1) as Hw1 by (split; cbn; rewrite ?length_insert; done || lia).
  destruct (only_out_wf _ _ Hoo Hw1) as [Hw' Hsetup]. split; [done|].
  assert (same_setup p p1) as Hs1 by (unfold same_setup, in_room, out_room; cbn; by rewrite length_insert).
  split; [by transitivity p1|]. split; [by destruct Hoo as (rb & -> & _)|]. rewrite Es. unfold echo, session_of, set_line. cbn.
  rewrite take_shorter by lia. by destruct (has _ _).
Qed.

Lemma echo_app t r s a b : echo t r (echo t r s a) b = echo t r s (a ++ b).
Proof. unfold echo. destruct (has _ _); [|done]. cbn. by rewrite fold_left_app. Qed.

Lemma echo_line t r s a l : echo t r (set_line s l) a = set_line (echo t r s a) l.
Proof. unfold echo, set_line. by destruct (has _ _). Qed.

Lemma kill_loop_ok n sleeps p :
  pty_wf p -> Z.of_nat n = canon_buflen p ->
  exists p', kill_loop finished owner current_task n sleeps p = Ret (Returned tt p' sleeps) /\ pty_wf p' /\ same_setup p p' /\
    session_of p' = set_line (echo (tios p) (out_room p) (session_of p) (concat (replicate n rub))) [].
Proof.
  revert p. induction n as [|n IH]; intros p Hw Hn; cbn [kill_loop replicate concat].
  - exists p. split; [done|]. split; [done|]. split; [done|]. unfold echo, session_of, set_line. rewrite <- Hn. cbn. by destruct (has _ _).
  - rewrite bind_get. destruct (Z.ltb_spec 0 (canon_buflen p)); [|lia].
    destruct (erase_one_ok sleeps p Hw) as (p1 & E1 & Hw1 & Hs1 & Hl1 & Es1); [lia|]. rewrite (bind_returned _ _ _ _ _ _ _ E1).
    destruct (IH p1 Hw1) as (p2 & E2 & Hw2 & Hs2 & Es2); [lia|]. exists p2. split; [done|]. split; [done|]. split; [by transitivity p1|].
    rewrite Es2, Es1. pose proof Hs1 as (-> & _ & _ & _ & -> & _). rewrite echo_line, echo_app. done.
Qed.

Lemma clear_input_buffer_ok sleeps p :
  pty_wf p ->
  exists p', clear_input_buffer sleeps p = Ret (Returned tt p' sleeps) /\ pty_wf p' /\ same_setup p p' /\ session_of p' = set_line (session_of p) [] /\
    fg_proc p' = fg_proc p.
Proof.
  intros Hw. pose proof Hw as [Hin Hd Ho Hlen Hs Hc]. unfold clear_input_buffer. rewrite bind_get.
  rewrite (bind_lift _ (<[Z.to_nat 0:=0]> (canon_buffer p))) by (apply aset_in_range; lia).
  eexists. split; [done|]. split; [split; cbn; rewrite ?length_insert; done || lia|].
  split; [unfold same_setup, in_room, out_room; cbn; by rewrite length_insert|]. done.
Qed.

(** ** Handing the line over *)

Lemma deliver_app n q a b : (length q <= n)%nat -> deliver n (deliver n q a) b = deliver n q (a ++ b).
Proof.
  intros Hq. unfold deliver. rewrite (take_app (take n (q ++ a)) b n), take_take, Nat.min_id, length_take, length_app.
  rewrite app_assoc, (take_app (q ++ a) b n), length_app. f_equal. f_equal. lia.
Qed.

Lemma dump_loop_ok n i sleeps p :
  pty_wf p -> Z.of_nat n = canon_buflen p -> 0 <= i -> i + Z.of_nat n <= canon_bufsize p ->
  exists p', dump_loop finished owner current_task n i sleeps p = Ret (Returned tt p' sleeps) /\ pty_wf p' /\ same_setup p p' /\
    session_of p' = set_line (hand_over (in_room p) (session_of p) (take n (drop (Z.to_nat i) (canon_buffer p)))) [].
Proof.
  revert i p. induction n as [|n IH]; intros i p Hw Hn Hi Hle; cbn [dump_loop].
  - exists p. split; [done|]. split; [done|]. split; [done|]. unfold session_of, set_line, hand_over, deliver. rewrite <- Hn. change (Z.to_nat (Z.of_nat 0)) with 0%nat. cbn [take drop line input shown sent].
    rewrite app_nil_r, (take_ge (contents (in_ p))); [done|]. apply (queue_bound (in_ p) (proj1 (pw_in _ Hw))).
  - pose proof (pw_size _ Hw) as Hs. rewrite bind_get. destruct (aget_in_range (canon_buffer p) i) as (c & Hc & Eg); [lia|].
    rewrite (bind_lift _ c) by done. destruct (IN_ok c sleeps p Hw) as (p1 & E1 & Hw1 & Hs1 & Eb1 & El1 & Es1).
    rewrite (bind_returned _ _ _ _ _ _ _ E1), bind_get, bind_put. set (p2 := set_canon p1 _ _).
    assert (pty_wf p2) as Hw2 by (destruct Hw1; split; cbn; done || lia).
    pose proof Hs1 as (_ & _ & Ebs & Er & _). destruct (IH (i + 1) p2 Hw2) as (p3 & E3 & Hw3 & Hs3 & Es3); [cbn; lia|lia|cbn; lia|].
    exists p3. split; [exact E3|]. split; [done|]. split; [transitivity p1; [done|]; transitivity p2; [|done]; unfold same_setup, in_room, out_room; by cbn|].
    rewrite Es3. unfold session_of, hand_over, set_line in *. cbn in *. injection Es1 as _ Ei Eo Esig. rewrite Ei, Eo, Esig.
    unfold in_room in *. cbn. rewrite Er, deliver_app by apply (queue_bound _ (proj1 (pw_in _ Hw))). rewrite Eb1.
    rewrite (drop_S (canon_buffer p) c (Z.to_nat i)) by done. cbn. replace (Z.to_nat (i + 1)) with (S (Z.to_nat i)) by lia. done.
Qed.

Lemma dump_input_buffer_ok sleeps p :
  pty_wf p ->
  exists p', dump_input_buffer finished owner current_task sleeps p = Ret (Returned tt p' sleeps) /\ pty_wf p' /\ same_setup p p' /\
    session_of p' = set_line (hand_over (in_room p) (session_of p) (line (session_of p))) [].
Proof.
  intros Hw. pose proof (pw_len _ Hw). unfold dump_input_buffer. rewrite bind_get.
  destruct (dump_loop_ok (Z.to_nat (canon_buflen p)) 0 sleeps p Hw) as (p' & E & Hrest); [lia|lia|lia|]. exists p'. split; [done|].
  by rewrite drop_0 in Hrest.
Qed.

Lemma interrupt_line_ok c signal sleeps p :
  pty_wf p ->
  exists p', interrupt_line finished owner current_task c signal sleeps p = Ret (Returned tt p' sleeps) /\ pty_wf p' /\ same_setup p p' /\
    session_of p' = interrupted (tios p) (fg_proc p) (out_room p) (session_of p) c signal.
Proof.
  intros Hw. unfold interrupt_line. rewrite bind_get.
  destruct (echo3_ok 94 (u8 (64 + c)) newline sleeps p (pw_out _ Hw)) as (p1 & E1 & Ho1 & Es1). rewrite (bind_returned _ _ _ _ _ _ _ E1).
  destruct (only_out_wf _ _ Ho1 Hw) as [Hw1 Hs1]. destruct (clear_input_buffer_ok sleeps p1 Hw1) as (p2 & E2 & Hw2 & Hs2 & Es2 & Ef).
  rewrite (bind_returned _ _ _ _ _ _ _ E2), bind_get. assert (fg_proc p2 = fg_proc p) as Efg by (rewrite Ef; apply Hs1). rewrite Efg.
  rewrite Es1 in Es2. unfold interrupted. set (s := echo _ _ _ _) in *. clearbody s.
  destruct (truthy (fg_proc p)) eqn:Et.
  - eexists. split; [done|]. split; [destruct Hw2; by split|]. split; [transitivity p1; [done|]; transitivity p2; [done|]; unfold same_setup, in_room, out_room; by cbn|].
    unfold session_of, set_line in *. cbn in *. injection Es2 as El Ei Eo Esig. congruence.
  - exists p2. split; [done|]. split; [done|]. split; [by transitivity p1|]. rewrite Es2, app_nil_r. done.
Qed.

Lemma cc_at p i : pty_wf p -> 0 <= i < NCCS -> aget (c_cc (tios p)) i = Ret (cc (tios p) i).
Proof.
  intros Hw Hi. pose proof (pw_cc _ Hw) as Hl. destruct (aget_in_range (c_cc (tios p)) i) as (c & Hc & ->); [lia|].
  unfold cc. by rewrite (nth_lookup_Some _ _ _ _ Hc).
Qed.

(** The line after a character was added, as the code tests for room. *)
Lemma add_char_ok c sleeps p :
  pty_wf p ->
  exists p', (if canon_buflen p <? canon_bufsize p
      then b ← lift (aset (canon_buffer p) (canon_buflen p) c); put (set_canon p b (canon_buflen p + 1)) else skip) sleeps p =
      Ret (Returned tt p' sleeps) /\ pty_wf p' /\ same_setup p p' /\ 0 < canon_buflen p' /\
    session_of p' = set_line (session_of p)
      (if (length (line (session_of p)) <? limit p)%nat then line (session_of p) ++ [c] else line (session_of p)).
Proof.
  intros Hw. pose proof Hw as [Hin Hd Ho Hlen Hs Hc]. unfold limit. cbn [line session_of].
  assert (length (take (Z.to_nat (canon_buflen p)) (canon_buffer p)) = Z.to_nat (canon_buflen p)) as El by (rewrite length_take; lia).
  rewrite El. destruct (Z.ltb_spec (canon_buflen p) (canon_bufsize p)), (Nat.ltb_spec (Z.to_nat (canon_buflen p)) (Z.to_nat (canon_bufsize p))); try lia.
  - rewrite (bind_lift _ (<[Z.to_nat (canon_buflen p):=c]> (canon_buffer p))) by (apply aset_in_range; lia).
    eexists. split; [done|]. split; [split; cbn; rewrite ?length_insert; done || lia|].
    split; [unfold same_setup, in_room, out_room; cbn; by rewrite length_insert|]. split; [cbn; lia|].
    unfold session_of, set_line. cbn. f_equal. replace (Z.to_nat (canon_buflen p + 1)) with (S (Z.to_nat (canon_buflen p))) by lia.
    rewrite (take_S_r _ _ c) by (rewrite list_lookup_insert_eq; [done|lia]). by rewrite take_insert_ge by lia.
  - exists p. split; [done|]. split; [done|]. split; [done|]. split; [lia|]. done.
Qed.

Lemma last_overwrite (b : list Z) n x : 0 < n <= Z.of_nat (length b) ->
  take (Z.to_nat n) (<[Z.to_nat (n - 1) := x]> b) = removelast (take (Z.to_nat n) b) ++ [x].
Proof.
  intros Hn. rewrite <- (take_shorter b n x) by done. assert (Z.to_nat n = S (Z.to_nat (n - 1))) as -> by lia.
  rewrite (take_S_r _ _ x) by (rewrite list_lookup_insert_eq; [done|lia]). done.
Qed.

Definition typing (p : pty_t) : session -> Z -> session := typed (tios p) (fg_proc p) (limit p) (in_room p) (out_room p).

Lemma input_process_ok c sleeps p :
  pty_wf p ->
  exists p', input_process finished owner current_task c sleeps p = Ret (Returned tt p' sleeps) /\ pty_wf p' /\ same_setup p p' /\
    session_of p' = typing p (session_of p) c.
Proof.
  intros Hw. pose proof Hw as [Hin Hd Ho Hlen Hs Hc]. unfold input_process, typing, typed. rewrite bind_get.
  destruct (has (c_lflag (tios p)) ICANON).
  2: { destruct (echo1_ok c sleeps p Ho) as (p1 & E1 & Ho1 & Es1). rewrite (bind_returned _ _ _ _ _ _ _ E1).
       destruct (only_out_wf _ _ Ho1 Hw) as [Hw1 Hs1]. destruct (IN_ok c sleeps p1 Hw1) as (p2 & E2 & Hw2 & Hs2 & _ & _ & Es2).
       exists p2. split; [done|]. split; [done|]. split; [by transitivity p1|]. rewrite Es2, Es1. by pose proof Hs1 as (_ & _ & _ & -> & _). }
  assert (forall i, i ∈ [VKILL; VERASE; VINTR; VQUIT; VEOF] -> aget (c_cc (tios p)) i = Ret (cc (tios p) i)) as Hcc.
  { intros i Hi. apply cc_at; [done|]. rewrite !elem_of_cons, elem_of_nil in Hi. unfold VKILL, VERASE, VINTR, VQUIT, VEOF, NCCS in *. intuition lia. }
  rewrite (bind_lift _ (cc (tios p) VKILL)) by (apply Hcc; by repeat constructor). destruct (c =? cc (tios p) VKILL).
  { destruct (kill_loop_ok (Z.to_nat (canon_buflen p)) sleeps p Hw) as (p' & E & Hw' & Hs' & Es); [lia|]. exists p'. do 3 (split; [done|]).
    rewrite Es. cbn [line session_of]. by rewrite length_take, Nat.min_l by lia. }
  rewrite (bind_lift _ (cc (tios p) VERASE)) by (apply Hcc; by repeat constructor). destruct (c =? cc (tios p) VERASE).
  { cbn [line session_of]. destruct (Z.ltb_spec 0 (canon_buflen p)) as [Hpos|Hz].
    - destruct (erase_one_ok sleeps p Hw Hpos) as (p' & E & Hw' & Hs' & _ & Es). exists p'. do 3 (split; [done|]). rewrite Es. cbn [line session_of].
      destruct (take (Z.to_nat (canon_buflen p)) (canon_buffer p)) eqn:El; [|done]. apply (f_equal length) in El. rewrite length_take in El. cbn in El. lia.
    - exists p. do 3 (split; [done|]). replace (Z.to_nat (canon_buflen p)) with 0%nat by lia. done. }
  rewrite (bind_lift _ (cc (tios p) VINTR)) by (apply Hcc; by repeat constructor). destruct (c =? cc (tios p) VINTR); [by apply interrupt_line_ok|].
  rewrite (bind_lift _ (cc (tios p) VQUIT)) by (apply Hcc; by repeat constructor). destruct (c =? cc (tios p) VQUIT); [by apply interrupt_line_ok|].
  rewrite (bind_lift _ (cc (tios p) VEOF)) by (apply Hcc; by repeat constructor). destruct (c =? cc (tios p) VEOF).
  { unfold truthy. destruct (Z.eqb_spec (canon_buflen p) 0) as [Hz|Hnz]; cbn [negb]; [|by apply dump_input_buffer_ok].
    rewrite (bind_lift _ (set_stop (in_ p) 1)) by (apply interrupt_quiet, Hin).
    eexists. split; [done|]. split; [by split|]. split; [done|]. unfold session_of, set_line, hand_over, deliver. cbn. rewrite Hz. cbn.
    change (contents (set_stop (in_ p) 1)) with (contents (in_ p)). rewrite app_nil_r, (take_ge (contents (in_ p))); [done|]. apply (queue_bound _ (proj1 Hin)). }
  destruct (add_char_ok c sleeps p Hw) as (p1 & E1 & Hw1 & Hs1 & Hpos & Es1). rewrite (bind_returned _ _ _ _ _ _ _ E1).
  pose proof Hs1 as (Et & _ & _ & Eri & Ero & _). rewrite <- Et.
  destruct (echo1_ok c sleeps p1 (pw_out _ Hw1)) as (p2 & E2 & Ho2 & Es2). rewrite (bind_returned _ _ _ _ _ _ _ E2).
  destruct (only_out_wf _ _ Ho2 Hw1) as [Hw2 Hs2]. cbv zeta. rewrite <- Ero, <- Es1, <- Es2.
  destruct (c =? newline); [|exists p2; split; [done|]; split; [done|]; split; [by transitivity p1|done]].
  rewrite bind_get. pose proof Hs2 as (_ & _ & Eb & Eri2 & _ & El2 & _). pose proof Hw2 as [Hin2 Hd2 Ho2' Hlen2 Hsz2 Hc2].
  assert (canon_buflen p2 = canon_buflen p1) as Elen by (by destruct Ho2 as (rb & -> & _)).
  rewrite (bind_lift _ (<[Z.to_nat (canon_buflen p2 - 1):=c]> (canon_buffer p2))) by (apply aset_in_range; lia). rewrite bind_put.
  set (p3 := set_canon p2 _ _). assert (pty_wf p3) as Hw3 by (split; cbn; rewrite ?length_insert; done || lia).
  destruct (dump_input_buffer_ok sleeps p3 Hw3) as (p4 & E4 & Hw4 & Hs4 & Es4). exists p4. split; [done|]. split; [done|].
  assert (same_setup p2 p3) as Hs3 by (unfold same_setup, in_room, out_room; cbn; by rewrite length_insert).
  split; [transitivity p1; [done|]; transitivity p2; [done|]; by transitivity p3|]. rewrite Es4. unfold in_room in *. cbn [in_ set_canon p3]. rewrite Eri2, Eri.
  assert (line (session_of p2) = line (session_of p1)) as El by (by destruct Ho2 as (rb & -> & _)).
  unfold session_of, set_line, hand_over. cbn. rewrite last_overwrite by lia. f_equal. f_equal. f_equal. f_equal. f_equal.
  cbn [line session_of] in El. rewrite El. apply (f_equal line) in Es1. exact Es1.
Qed.

(** ** Typing and reading lines *)

Lemma typing_same p p' : same_setup p p' -> typing p' = typing p.
Proof. unfold same_setup, typing, limit. intros (-> & -> & -> & -> & -> & _). done. Qed.

Lemma write_pty_master_ok data sleeps p :
  pty_wf p ->
  exists p', write_pty_master finished owner current_task data sleeps p = Ret (Returned (Z.of_nat (length data)) p' sleeps) /\
    pty_wf p' /\ same_setup p p' /\ session_of p' = fold_left (typing p) data (session_of p).
Proof.
  revert p. induction data as [|c data IH]; intros p Hw; cbn [write_pty_master fold_left]; [by exists p|].
  destruct (input_process_ok c sleeps p Hw) as (p1 & E1 & Hw1 & Hs1 & Es1). rewrite (bind_returned _ _ _ _ _ _ _ E1).
  destruct (IH p1 Hw1) as (p2 & E2 & Hw2 & Hs2 & Es2). rewrite (bind_returned _ _ _ _ _ _ _ E2).
  exists p2. split; [unfold mret, tty_ret; replace (Z.of_nat (length data) + 1) with (Z.of_nat (length (c :: data))) by (cbn [length]; lia); done|]. split; [done|]. split; [by transitivity p1|].
  by rewrite Es2, (typing_same p p1), Es1.
Qed.

(** The effect of ordinary characters and of the erase character on a line. *)
Definition edit (erase : Z) (l : list Z) (c : Z) : list Z := if c =? erase then removelast l else l ++ [c].

(** Characters that do not end the line or throw it away. *)
Definition plain (t : termios) (c : Z) : Prop :=
  c <> newline /\ c <> cc t VKILL /\ c <> cc t VINTR /\ c <> cc t VQUIT /\ c <> cc t VEOF.

Lemma echo_parts t r s a : line (echo t r s a) = line s /\ input (echo t r s a) = input s /\ sent (echo t r s a) = sent s.
Proof. unfold echo. by destruct (has _ _). Qed.

Lemma length_removelast (l : list Z) : (length (removelast l) <= length l)%nat.
Proof. destruct l as [|c l _] using rev_ind; [done|]. rewrite removelast_last, length_app. cbn. lia. Qed.

Lemma typed_plain t fg lim ri ro s c :
  has (c_lflag t) ICANON = true -> plain t c -> (length (line s) < lim)%nat ->
  let s' := typed t fg lim ri ro s c in
  line s' = edit (cc t VERASE) (line s) c /\ input s' = input s /\ sent s' = sent s /\ (length (line s') <= S (length (line s)))%nat.
Proof.
  intros Hi (H1 & H2 & H3 & H4 & H5) Hl. unfold typed, edit. rewrite Hi.
  destruct (Z.eqb_spec c (cc t VKILL)) as [|_]; [done|]. destruct (Z.eqb_spec c (cc t VERASE)) as [_|_].
  - destruct (line s) as [|x l] eqn:El; [rewrite El; by repeat split; lia|]. rewrite <- El. cbn [set_line line input sent].
    destruct (echo_parts t ro s rub) as (_ & -> & ->). pose proof (length_removelast (line s)). repeat split; lia.
  - destruct (Z.eqb_spec c (cc t VINTR)) as [|_]; [done|]. destruct (Z.eqb_spec c (cc t VQUIT)) as [|_]; [done|].
    destruct (Z.eqb_spec c (cc t VEOF)) as [|_]; [done|]. destruct (Z.eqb_spec c newline) as [|_]; [done|].
    destruct (Nat.ltb_spec (length (line s)) lim); [|lia]. destruct (echo_parts t ro (set_line s (line s ++ [c])) [c]) as (-> & -> & ->). cbn.
    rewrite length_app. cbn. repeat split; lia.
Qed.

Lemma typed_plains t fg lim ri ro cs s :
  has (c_lflag t) ICANON = true -> Forall (plain t) cs -> (length (line s) + length cs <= lim)%nat ->
  let s' := fold_left (typed t fg lim ri ro) cs s in
  line s' = fold_left (edit (cc t VERASE)) cs (line s) /\ input s' = input s /\ sent s' = sent s /\
  (length (line s') <= length (line s) + length cs)%nat.
Proof.
  intros Hi Hcs. revert s. induction Hcs as [|c cs Hc Hcs IH]; intros s Hl; cbn [fold_left length] in *; [repeat split; lia|].
  destruct (typed_plain t fg lim ri ro s c Hi Hc) as (El & Ei & Es & Hlen); [lia|].
  destruct (IH (typed t fg lim ri ro s c)) as (El' & Ei' & Es' & Hlen'); [lia|]. split; [by rewrite El', El|]. split; [by rewrite Ei', Ei|]. split; [by rewrite Es', Es|]. lia.
Qed.

Lemma typed_newline t fg lim ri ro s :
  has (c_lflag t) ICANON = true -> newline ∉ [cc t VKILL; cc t VERASE; cc t VINTR; cc t VQUIT; cc t VEOF] -> (length (line s) < lim)%nat ->
  let s' := typed t fg lim ri ro s newline in line s' = [] /\ input s' = deliver ri (input s) (line s ++ [newline]).
Proof.
  intros Hi Hn Hl. rewrite !not_elem_of_cons in Hn. destruct Hn as (? & ? & ? & ? & ? & _). unfold typed. rewrite Hi.
  repeat (match goal with |- context [newline =? ?k] => destruct (Z.eqb_spec newline k) as [|_] end; [done|]).
  destruct (Z.eqb_spec newline newline) as [_|]; [|done]. destruct (Nat.ltb_spec (length (line s)) lim); [|lia].
  cbn [set_line hand_over line input]. destruct (echo_parts t ro (set_line s (line s ++ [newline])) [newline]) as (_ & -> & _). cbn.
  split; [done|]. f_equal. by rewrite removelast_last.
Qed.

Lemma read_in_ok sz sleeps p :
  pty_wf p -> contents (in_ p) <> [] -> 0 < sz ->
  exists p', read_in finished owner current_task sz sleeps p = Ret (Returned (take (Z.to_nat sz) (contents (in_ p))) p' sleeps) /\
    pty_wf p' /\ contents (in_ p') = drop (Z.to_nat sz) (contents (in_ p)).
Proof.
  intros Hw Hne Hsz. destruct (read_loop_now finished owner current_task sleeps (in_ p) p sz (proj1 (pw_in _ Hw)) (proj2 (pw_in _ Hw)) Hne Hsz) as (rb & E & Hwf & Ec & _ & Ed & Hq).
  exists (set_in p rb). unfold read_in, ring_buffer_read. rewrite E. split; [done|]. split; [|done]. destruct Hw. split; cbn; congruence || done.
Qed.

(** ** Output *)

Definition expands (t : termios) (data : list Z) : list Z := concat (expand (onlcr t) <$> data).

Lemma write_pty_slave_ok data sleeps p :
  idle (out p) -> (length (contents (out p)) + length (expands (tios p) data) <= capacity (out p))%nat ->
  exists p', write_pty_slave finished owner current_task data sleeps p = Ret (Returned (Z.of_nat (length data)) p' sleeps) /\ only_out p p' /\
    contents (out p') = contents (out p) ++ expands (tios p) data.
Proof.
  revert p. induction data as [|c data IH]; intros p Hw Hl; cbn [write_pty_slave].
  { exists p. split; [done|]. split; [by apply only_out_refl|]. by rewrite app_nil_r. }
  unfold expands in *. cbn [fmap list_fmap concat] in *. rewrite length_app in Hl.
  destruct (expand_ok c sleeps p Hw) as (p1 & E1 & H1 & Ec1); [lia|]. rewrite (bind_returned _ _ _ _ _ _ _ E1).
  pose proof H1 as (rb & -> & Hw1 & Ecap). cbn in Ec1.
  destruct (IH (set_out p rb)) as (p2 & E2 & H2 & Ec2); [done|cbn; rewrite Ec1, length_app, Ecap; lia|]. rewrite (bind_returned _ _ _ _ _ _ _ E2).
  exists p2. split; [unfold mret, tty_ret; replace (Z.of_nat (length data) + 1) with (Z.of_nat (length (c :: data))) by (cbn [length]; lia); done|]. split; [by eapply only_out_trans|].
  rewrite Ec2. cbn [out tios set_out]. rewrite Ec1. by rewrite app_assoc.
Qed.

(** ** Properties *)

(** C11: On a terminal on which nobody sleeps, what the master writes goes through the line
    discipline: the line being edited, the bytes waiting for the slave, the echo and the
    signals are those of the reference function [typed] on lists, the call does not sleep and,
    apart from the calls of [send_signal], which are only recorded, does not fault, and the
    terminal stays well formed, with the same settings and nobody asleep.  (A
    reader that sleeps on the terminal makes the write fault, since its queue node does not
    lead back to it.) *)
Theorem write_pty_master_refines data sleeps p :
  pty_wf p ->
  exists p', write_pty_master finished owner current_task data sleeps p = Ret (Returned (Z.of_nat (length data)) p' sleeps) /\
    pty_wf p' /\ same_setup p p' /\ session_of p' = fold_left (typing p) data (session_of p).
Proof. apply write_pty_master_ok. Qed.

(** In canonical mode a line typed at the master, with characters erased on the
    way, reaches the reader of the slave edited and ended by a line feed, after the
    bytes that were already waiting. *)
Theorem pty_line_read cs sz sleeps p :
  pty_wf p -> has (c_lflag (tios p)) ICANON = true -> canon_buflen p = 0 -> Forall (plain (tios p)) cs ->
  newline ∉ [cc (tios p) VKILL; cc (tios p) VERASE; cc (tios p) VINTR; cc (tios p) VQUIT; cc (tios p) VEOF] ->
  (length cs < limit p)%nat -> (length (contents (in_ p)) + S (length cs) <= in_room p)%nat -> 0 < sz ->
  let text := contents (in_ p) ++ fold_left (edit (cc (tios p) VERASE)) cs [] ++ [newline] in
  exists p1 p2, write_pty_master finished owner current_task (cs ++ [newline]) sleeps p = Ret (Returned (Z.of_nat (length cs) + 1) p1 sleeps) /\
    read_pty_slave finished owner current_task sz sleeps p1 = Ret (Returned (take (Z.to_nat sz) text) p2 sleeps) /\
    contents (in_ p2) = drop (Z.to_nat sz) text /\ canon_buflen p1 = 0 /\ pty_wf p2.
Proof.
  intros Hw Hi Hlen Hcs Hn Hl Hr Hsz text. destruct (write_pty_master_ok (cs ++ [newline]) sleeps p Hw) as (p1 & E1 & Hw1 & Hs1 & Es1).
  assert (line (session_of p) = []) as Hl0 by (cbn; by rewrite Hlen). unfold typing in Es1. rewrite fold_left_app in Es1. cbn [fold_left] in Es1.
  destruct (typed_plains (tios p) (fg_proc p) (limit p) (in_room p) (out_room p) cs (session_of p) Hi Hcs) as (Ea & Eb & _ & Hlen'); [rewrite Hl0; cbn; lia|].
  set (s := fold_left (typed _ _ _ _ _) cs _) in *. rewrite Hl0 in Ea, Hlen'. cbn [length] in Hlen'.
  destruct (typed_newline (tios p) (fg_proc p) (limit p) (in_room p) (out_room p) s Hi Hn) as (Ec & Ed); [lia|]. cbv zeta in Ec, Ed. rewrite <- Es1 in Ec, Ed.
  assert (contents (in_ p1) = text) as Ein.
  { change (contents (in_ p1)) with (input (session_of p1)). rewrite Ed, Eb. unfold deliver, text. rewrite <- Ea. apply take_ge.
    rewrite !length_app. cbn [input session_of length]. lia. }
  destruct (read_in_ok sz sleeps p1 Hw1) as (p2 & E2 & Hw2 & Ec2); [rewrite Ein; unfold text; by destruct (contents (in_ p)), (fold_left _ _ _)|done|].
  exists p1, p2. split; [rewrite E1, length_app; cbn [length]; by rewrite Nat2Z.inj_add|]. split; [|split; [by rewrite Ec2, Ein|split; [|done]]].
  - unfold read_pty_slave. rewrite bind_get. pose proof Hs1 as (-> & _). rewrite Hi. by rewrite <- Ein.
  - apply (f_equal length) in Ec. cbn in Ec. rewrite length_take in Ec. pose proof (pw_len _ Hw1). pose proof (pw_size _ Hw1). lia.
Qed.

(** What the slave writes is what the master reads, line feeds preceded by
    carriage returns if the settings ask for it, as long as it fits. *)
Theorem pty_output_read data sz sleeps p :
  pty_wf p -> data <> [] -> (length (contents (out p)) + length (expands (tios p) data) <= out_room p)%nat -> 0 < sz ->
  let text := contents (out p) ++ expands (tios p) data in
  exists p1 p2, write_pty_slave finished owner current_task data sleeps p = Ret (Returned (Z.of_nat (length data)) p1 sleeps) /\
    read_pty_master finished owner current_task sz sleeps p1 = Ret (Returned (take (Z.to_nat sz) text) p2 sleeps) /\
    contents (out p2) = drop (Z.to_nat sz) text /\ pty_wf p1 /\ same_setup p p1.
Proof.
  intros Hw Hne Hl Hsz text. destruct (write_pty_slave_ok data sleeps p (pw_out _ Hw) Hl) as (p1 & E1 & Ho & Ec). fold text in Ec.
  destruct (only_out_wf _ _ Ho Hw) as [Hw1 Hs1].
  assert (text <> []) as Hte.
  { destruct data as [|c data]; [done|]. unfold text, expands, expand. cbn. by destruct (contents (out p)), (_ && _). }
  destruct (read_loop_now finished owner current_task sleeps (out p1) p1 sz (proj1 (pw_out _ Hw1)) (proj2 (pw_out _ Hw1))) as (rb & E2 & Hwf & Ec2 & _); [by rewrite Ec|done|].
  exists p1, (set_out p1 rb). split; [done|]. unfold read_pty_master, ring_buffer_read. rewrite E2, Ec. split; [done|]. cbn [out set_out].
  by rewrite Ec2, Ec.
Qed.

(** Setting the terminal to raw mode hands the unfinished line over to the
    reader before the settings change; other settings are only stored, and reading
    the settings back gives what was stored. *)
Theorem pty_ioctl_tcsets a sleeps p request :
  pty_wf p -> length (c_cc (arg_termios a)) = Z.to_nat NCCS -> request ∈ [TCSETS; TCSETSW; TCSETSF] ->
  exists p', pty_ioctl finished owner current_task request (Some a) sleeps p = Ret (Returned (0, NoReply) p' sleeps) /\ pty_wf p' /\ tios p' = arg_termios a /\
    session_of p' =
      (if negb (has (c_lflag (arg_termios a)) ICANON) && has (c_lflag (tios p)) ICANON
       then set_line (hand_over (in_room p) (session_of p) (line (session_of p))) [] else session_of p) /\
    pty_ioctl finished owner current_task TCGETS (Some a) sleeps p' = Ret (Returned (0, ReplyTermios (arg_termios a)) p' sleeps).
Proof.
  intros Hw Hcc Hreq. assert (exists p1, (if negb (has (c_lflag (arg_termios a)) ICANON) && has (c_lflag (tios p)) ICANON
         then dump_input_buffer finished owner current_task else skip) sleeps p = Ret (Returned tt p1 sleeps) /\ pty_wf p1 /\
    session_of p1 = (if negb (has (c_lflag (arg_termios a)) ICANON) && has (c_lflag (tios p)) ICANON
       then set_line (hand_over (in_room p) (session_of p) (line (session_of p))) [] else session_of p)) as (p1 & E1 & Hw1 & Es1).
  { destruct (_ && _); [|by exists p]. destruct (dump_input_buffer_ok sleeps p Hw) as (p1 & E1 & Hw1 & _ & Es1). by exists p1. }
  exists (set_tios p1 (arg_termios a)). split; [|split; [destruct Hw1; by split|split; [done|split; [by rewrite <- Es1|done]]]].
  unfold pty_ioctl. rewrite bind_get. rewrite !elem_of_cons, elem_of_nil in Hreq.
  destruct Hreq as [->|[->|[->|[]]]]; cbn -[mbind dump_input_buffer]; by rewrite (bind_returned _ _ _ _ _ _ _ E1).
Qed.

(** In raw mode with VMIN zero a read of an empty terminal does not return at
    once, as such a read should: it sleeps, and goes on sleeping whatever arrives,
    until it is interrupted (no writer sleeps meanwhile). *)
Theorem read_pty_slave_vmin_zero sz sleeps p :
  pty_wf p -> has (c_lflag (tios p)) ICANON = false -> cc (tios p) VMIN = 0 -> contents (in_ p) = [] -> 0 <= sz ->
  Forall (fun sleep : env pty_t => forall rb o, (sleep rb o).2 = 0 /\ (wait_queue_writers rb = [] -> wait_queue_writers (sleep rb o).1.1 = [])) sleeps ->
  exists p', read_pty_slave finished owner current_task sz sleeps p = Ret (Asleep p').
Proof.
  intros Hw Hi Hv He Hsz Hsl. unfold read_pty_slave. rewrite bind_get, Hi.
  rewrite (bind_lift _ (cc (tios p) VMIN)) by (apply cc_at; [done|unfold VMIN, NCCS; lia]). rewrite Hv. cbn [Z.eqb].
  pose proof (length_contents _ (proj1 (pw_in _ Hw))) as Hl. rewrite He in Hl. cbn in Hl. rewrite <- Hl, Z.min_r by lia.
  unfold read_in, ring_buffer_read. change (Z.of_nat 0) with 0.
  assert (forall rb o, wait_queue_writers rb = [] -> exists rb' o', read_loop finished owner current_task sleeps rb o 0 = Ret (Blocked rb' o')) as Hloop.
  { clear -Hsl. induction Hsl as [|f sleeps Hf Hsl IH]; intros rb o Hw; cbn [read_loop]; change (collect (Z.to_nat 0) rb []) with (Ret (rb, @nil Z)); cbn [mbind outcome_bind];
      rewrite wakeup_writers_none by done; cbn [mbind outcome_bind]; [by do 2 eexists|].
    destruct (Hf (sleep_reader owner current_task rb o) o) as [Hr Hn]. revert Hr Hn. destruct (f _ o) as [[rb1 o1] r]. cbn [fst snd]. intros -> Hn. unfold WaitQueue.slept.
    replace (truthy (if owner o then 0 else 0)) with false by (by destruct (owner o)). apply IH. by apply Hn. }
  destruct (Hloop (in_ p) p) as (rb' & o' & ->); [apply (pw_in _ Hw)|]. by eexists.
Qed.

End Tasks.

(** ** A new terminal is well formed *)

Lemma pty_new_wf size bytes_in bytes_out canon cc0 x y :
  length bytes_in = 4096%nat -> length bytes_out = 4096%nat -> length canon = 4096%nat -> length cc0 = Z.to_nat NCCS ->
  exists p, pty_new size bytes_in bytes_out canon cc0 x y = Ret p /\ pty_wf p /\ canon_buflen p = 0 /\
    contents (in_ p) = [] /\ contents (out p) = [] /\ limit p = 4094%nat /\ in_room p = 4095%nat /\ out_room p = 4095%nat.
Proof.
  intros H1 H2 H3 H4. assert (Z.of_nat (length cc0) = 32) as Hcc by (unfold NCCS in H4; lia).
  assert (exists cc1, default_cc cc0 = Ret cc1 /\ length cc1 = length cc0) as (cc1 & E & Hl).
  { unfold default_cc, VEOF, VEOL, VERASE, VINTR, VKILL, VMIN, VQUIT, VSTART, VSTOP, VSUSP, VTIME.
    repeat (rewrite aset_in_range by (rewrite ?length_insert; lia); cbn [mbind outcome_bind]). eexists. split; [done|]. by rewrite !length_insert. }
  unfold pty_new. rewrite E. cbn [mbind outcome_bind]. change (Z.to_nat TTY_BUFFER_SIZE) with 4096%nat. rewrite !take_ge by lia.
  eexists. split; [done|]. assert (forall l : list Z, length l = 4096%nat -> Ring.wf l 0 0 (Z.of_nat (length l))) as Hring.
  { intros l Hl'. unfold Ring.wf. rewrite Hl'. repeat split; lia. }
  unfold in_room, out_room, limit, capacity. split; [|cbn -[Z.of_nat]; rewrite ?H1, ?H2; done].
  split; cbn -[Z.of_nat]; rewrite ?H3; first [split; [by apply Hring|done]|by rewrite Hl|lia|done].
Qed.

(** ** Witnesses *)

Definition zeros : list Z := replicate 4096 0.
Definition fresh_pty : pty_t := match pty_new None zeros zeros zeros (replicate 32 0) 0 0 with Ret p => p | _ => Build_pty 0 (Build_winsize 0 0 0 0) (Build_termios 0 0 0 0 []) (ring_buffer_create []) (ring_buffer_create []) [] 0 0 0 0 [] end.

Lemma fresh_pty_wf : pty_wf fresh_pty /\ canon_buflen fresh_pty = 0 /\ contents (in_ fresh_pty) = [] /\ contents (out fresh_pty) = [] /\
  limit fresh_pty = 4094%nat /\ in_room fresh_pty = 4095%nat /\ out_room fresh_pty = 4095%nat.
Proof.
  destruct (pty_new_wf None zeros zeros zeros (replicate 32 0) 0 0) as (p & E & H); [apply length_replicate..|].
  unfold fresh_pty. rewrite E. exact H.
Qed.

Lemma write_pty_master_refines_witness :
  exists p', write_pty_master WaitQueue.unset (fun _ => false) 7 [104; 105] [] fresh_pty = Ret (Returned 2 p' []) /\ pty_wf p' /\
    session_of p' = fold_left (typing fresh_pty) [104; 105] (session_of fresh_pty).
Proof.
  destruct (write_pty_master_refines WaitQueue.unset (fun _ => false) 7 [104; 105] [] fresh_pty (proj1 fresh_pty_wf)) as (p' & E & Hw & _ & Es).
  exists p'. split; [exact E|]. split; [exact Hw|exact Es].
Defined.

(** Typing "hx", backspace, "i", return gives "hi". *)
Lemma pty_line_read_witness :
  exists p1 p2, write_pty_master WaitQueue.unset (fun _ => false) 7 [104; 120; 8; 105; 10] [] fresh_pty = Ret (Returned 5 p1 []) /\
    read_pty_slave WaitQueue.unset (fun _ => false) 7 80 [] p1 = Ret (Returned [104; 105; 10] p2 []) /\ contents (in_ p2) = [].
Proof.
  destruct fresh_pty_wf as (Hw & Hl & Hi & _ & Hlim & Hr & _).
  destruct (pty_line_read WaitQueue.unset (fun _ => false) 7 [104; 120; 8; 105] 80 [] fresh_pty Hw eq_refl Hl) as (p1 & p2 & E1 & E2 & E3 & _).
  - repeat constructor; vm_compute; congruence.
  - rewrite !not_elem_of_cons. repeat split; try (vm_compute; congruence). apply not_elem_of_nil.
  - rewrite Hlim. cbn. lia.
  - rewrite Hi, Hr. cbn. lia.
  - lia.
  - rewrite Hi in E2, E3. exists p1, p2. split; [exact E1|]. split; [exact E2|exact E3].
Defined.

Lemma pty_output_read_witness :
  exists p1 p2, write_pty_slave WaitQueue.unset (fun _ => false) 7 [104; 10] [] fresh_pty = Ret (Returned 2 p1 []) /\
    read_pty_master WaitQueue.unset (fun _ => false) 7 80 [] p1 = Ret (Returned [104; 13; 10] p2 []).
Proof.
  destruct fresh_pty_wf as (Hw & _ & _ & Ho & _ & _ & Hr).
  destruct (pty_output_read WaitQueue.unset (fun _ => false) 7 [104; 10] 80 [] fresh_pty Hw) as (p1 & p2 & E1 & E2 & _); [done|rewrite Ho, Hr; vm_compute; lia|lia|].
  rewrite Ho in E2. exists p1, p2. split; [exact E1|exact E2].
Defined.

Definition raw_arg : ioctl_arg := Build_ioctl_arg (Build_winsize 0 0 0 0) (Build_termios 0 0 0 0 (replicate 32 0)) 0.

Lemma pty_ioctl_tcsets_witness :
  exists p', pty_ioctl WaitQueue.unset (fun _ => false) 7 TCSETS (Some raw_arg) [] fresh_pty = Ret (Returned (0, NoReply) p' []) /\ tios p' = arg_termios raw_arg.
Proof.
  destruct (pty_ioctl_tcsets WaitQueue.unset (fun _ => false) 7 raw_arg [] fresh_pty TCSETS (proj1 fresh_pty_wf) eq_refl) as (p' & E & _ & Et & _); [left|].
  exists p'. split; [exact E|exact Et].
Defined.

Lemma read_pty_slave_vmin_zero_witness :
  exists p p', contents (in_ p) = [] /\ read_pty_slave WaitQueue.unset (fun _ => false) 7 80 [(fun rb o => (rb, o, 0))] p = Ret (Asleep p').
Proof.
  pose proof fresh_pty_wf as (Hw & _ & Hi & _). exists (set_tios fresh_pty (arg_termios raw_arg)).
  assert (pty_wf (set_tios fresh_pty (arg_termios raw_arg))) as Hw' by (destruct Hw; by split).
  destruct (read_pty_slave_vmin_zero WaitQueue.unset (fun _ => false) 7 80 [(fun rb o => (rb, o, 0))] (set_tios fresh_pty (arg_termios raw_arg)) Hw' eq_refl eq_refl Hi) as (p' & E);
    [lia|by repeat constructor|]. exists p'. split; [exact Hi|exact E].
Defined.

End Tty.
