(* ===== verification/LocalTime.v ===== *)
(** * Dates ([kernel/src/localtime.c])

    [localtime_r] turns seconds since 1970 into a date.  It is compared with a
    calendar written down independently (module [Calendar]).  A [long] is a 32-bit
    signed integer. *)

From stdpp Require Import base numbers list.
From S2P Require Import Prelude.

(** ** The reference calendar *)

Module Calendar.

Definition leap (y : Z) : bool := (y mod 4 =? 0) && (negb (y mod 100 =? 0) || (y mod 400 =? 0)).

(** The leap years up to [y]. *)
Definition leaps (y : Z) : Z := y / 4 - y / 100 + y / 400.

Definition days_before_year (y : Z) : Z := 365 * (y - 1970) + (leaps (y - 1) - leaps 1969).

Definition month_days (y m : Z) : Z :=
  if m =? 2 then (if leap y then 29 else 28)
  else if (m =? 4) || (m =? 6) || (m =? 9) || (m =? 11) then 30 else 31.

(** The days of the year before month [m], counted with the month lengths. *)
Definition days_before_month (y m : Z) : Z := foldr Z.add 0 (month_days y <$> seqZ 1 (m - 1)).

Definition day_number (y m d : Z) : Z := days_before_year y + days_before_month y m + (d - 1).

Definition epoch (y m d h mi s : Z) : Z := day_number y m d * 86400 + h * 3600 + mi * 60 + s.

Definition valid_day (y m d : Z) : Prop := 1 <= m <= 12 /\ 1 <= d <= month_days y m.

Lemma leaps_step y : leaps y = leaps (y - 1) + b2z (leap y).
Proof.
  unfold leaps, leap, b2z. destruct (Z.eqb_spec (y mod 4) 0), (Z.eqb_spec (y mod 100) 0), (Z.eqb_spec (y mod 400) 0); cbn [negb andb orb];
  Z.to_euclidean_division_equations; lia.
Qed.

Lemma days_before_next y : days_before_year (y + 1) = days_before_year y + (if leap y then 366 else 365).
Proof.
  unfold days_before_year. replace (y + 1 - 1) with y by lia. rewrite (leaps_step y). unfold b2z. destruct (leap y); lia.
Qed.

Lemma days_before_next_month y m : 1 <= m -> days_before_month y (m + 1) = days_before_month y m + month_days y m.
Proof.
  intros Hm. unfold days_before_month. replace (m + 1 - 1) with ((m - 1) + 1) by lia. rewrite seqZ_app by lia. rewrite fmap_app, foldr_app.
  replace (1 + (m - 1)) with m by lia. cbn [seqZ fmap list_fmap foldr]. replace (seqZ m 1) with [m] by (rewrite seqZ_cons by lia; done).
  cbn. rewrite Z.add_0_r. induction (month_days y <$> seqZ 1 (m - 1)) as [|x l IH]; cbn; lia.
Qed.

Lemma month_days_bounds y m : 28 <= month_days y m <= 31.
Proof. unfold month_days. destruct (m =? 2), (leap y), ((m =? 4) || (m =? 6) || (m =? 9) || (m =? 11)); lia. Qed.

Lemma days_before_month_nonneg y m : 1 <= m -> 0 <= days_before_month y m.
Proof.
  intros Hm. unfold days_before_month. generalize (seqZ 1 (m - 1)). intros l. induction l as [|x l IH]; cbn; [lia|].
  pose proof (month_days_bounds y x). lia.
Qed.

(** The twelve months make the year. *)
Lemma year_length y : days_before_month y 13 = if leap y then 366 else 365.
Proof. unfold days_before_month. change (seqZ 1 (13 - 1)) with [1; 2; 3; 4; 5; 6; 7; 8; 9; 10; 11; 12]. cbn. by destruct (leap y). Qed.

Lemma days_before_month_mono y m m' : 1 <= m -> m <= m' -> days_before_month y m <= days_before_month y m'.
Proof.
  intros Hm. revert m'. apply (Zlt_lower_bound_ind (fun m' => days_before_month y m <= days_before_month y m') m).
  intros m' IH Hle. destruct (Z.eq_dec m m') as [->|Hne]; [lia|]. specialize (IH (m' - 1) ltac:(lia)).
  replace m' with (m' - 1 + 1) by lia. rewrite days_before_next_month by lia. pose proof (month_days_bounds y (m' - 1)). lia.
Qed.

Lemma days_before_year_mono y y' : y <= y' -> days_before_year y <= days_before_year y'.
Proof.
  revert y'. apply (Zlt_lower_bound_ind (fun y' => days_before_year y <= days_before_year y') y).
  intros y' IH Hle. destruct (Z.eq_dec y y') as [->|Hne]; [lia|]. specialize (IH (y' - 1) ltac:(lia)).
  replace y' with (y' - 1 + 1) by lia. rewrite days_before_next. destruct (leap (y' - 1)); lia.
Qed.

(** A day of the year comes before the next year. *)
Lemma day_in_year y m d : valid_day y m d -> 0 <= days_before_month y m + (d - 1) < (if leap y then 366 else 365).
Proof.
  intros [Hm Hd]. pose proof (days_before_month_nonneg y m ltac:(lia)). rewrite <- (year_length y).
  pose proof (days_before_month_mono y (m + 1) 13 ltac:(lia) ltac:(lia)). rewrite days_before_next_month in * by lia. lia.
Qed.

End Calendar.

(** ** [localtime.c] *)

Module LocalTime.

Definition SEC_DAY : Z := 86400.

Record tm := Build_tm {
  tm_sec : Z; tm_min : Z; tm_hour : Z; tm_mday : Z; tm_mon : Z; tm_year : Z; tm_wday : Z; tm_yday : Z; tm_isdst : Z
}.

Definition year_is_leap (year : Z) : bool := (Z.rem year 4 =? 0) && (negb (Z.rem year 100 =? 0) || (Z.rem year 400 =? 0)).

Definition day_of_week (seconds : Z) : Z := Z.rem (Z.quot seconds SEC_DAY + 4) 7.

Definition days_in_month (month year : Z) : Z :=
  if month =? 11 then 30
  else if month =? 10 then 31
  else if month =? 9 then 30
  else if month =? 8 then 31
  else if month =? 7 then 31
  else if month =? 6 then 30
  else if month =? 5 then 31
  else if month =? 4 then 30
  else if month =? 3 then 31
  else if month =? 2 then (if year_is_leap year then 29 else 28)
  else if month =? 1 then 31
  else 0.

(** The loop runs [months - 1] times and adds the same month each time. *)
Fixpoint add_month (todo : nat) (months year days : Z) : Z :=
  match todo with
  | O => days
  | S todo' => add_month todo' months year (s32 (days + days_in_month months year))
  end.
Definition secs_of_month (months year : Z) : Z := s32 (add_month (Z.to_nat (months - 1)) months year 0 * SEC_DAY).

Definition set_year (tv : tm) y := Build_tm (tm_sec tv) (tm_min tv) (tm_hour tv) (tm_mday tv) (tm_mon tv) y (tm_wday tv) (tm_yday tv) (tm_isdst tv).
Definition set_mon (tv : tm) m := Build_tm (tm_sec tv) (tm_min tv) (tm_hour tv) (tm_mday tv) m (tm_year tv) (tm_wday tv) (tm_yday tv) (tm_isdst tv).
Definition set_mday (tv : tm) d := Build_tm (tm_sec tv) (tm_min tv) (tm_hour tv) d (tm_mon tv) (tm_year tv) (tm_wday tv) (tm_yday tv) (tm_isdst tv).

(** The four nested loops of [localtime_r]; [todo] counts the turns left.  The
    result says whether the pointer to the structure is returned, or NULL, and what
    the structure holds then. *)
Fixpoint hour_loop (todo : nat) (hour seconds year_sec timep : Z) (tv : tm) : bool * tm :=
  match todo with
  | O => (false, tv)
  | S todo' =>
      let secs := 60 * 60 in
      if timep <=? s32 (seconds + secs) then
        let remaining := s32 (timep - seconds) in
        (true, Build_tm (Z.rem remaining 60) (Z.quot remaining 60) (hour - 1) (tm_mday tv) (tm_mon tv) (tm_year tv)
                 (day_of_week timep) (Z.quot (s32 (timep - year_sec)) SEC_DAY) 0)
      else hour_loop todo' (hour + 1) (s32 (seconds + secs)) year_sec timep tv
  end.

Fixpoint day_loop (todo : nat) (day seconds year_sec timep : Z) (tv : tm) : bool * tm :=
  match todo with
  | O => (false, tv)
  | S todo' =>
      let secs := 60 * 60 * 24 in
      if timep <=? s32 (seconds + secs) then hour_loop 24 1 seconds year_sec timep (set_mday tv day)
      else day_loop todo' (day + 1) (s32 (seconds + secs)) year_sec timep tv
  end.

Fixpoint month_loop (todo : nat) (month year seconds year_sec timep : Z) (tv : tm) : bool * tm :=
  match todo with
  | O => (false, tv)
  | S todo' =>
      let secs := days_in_month month year * SEC_DAY in
      if timep <=? s32 (seconds + secs)
      then day_loop (Z.to_nat (days_in_month month year)) 1 seconds year_sec timep (set_mon tv (month - 1))
      else month_loop todo' (month + 1) year (s32 (seconds + secs)) year_sec timep tv
  end.

Fixpoint year_loop (todo : nat) (year seconds timep : Z) (tv : tm) : bool * tm :=
  match todo with
  | O => (false, tv)
  | S todo' =>
      let added := if year_is_leap year then 366 else 365 in
      let secs := added * 86400 in
      if s32 (timep + 1) <=? s32 (seconds + secs)
      then month_loop 12 1 year seconds seconds timep (set_year tv (year - 1900))
      else year_loop todo' (year + 1) (s32 (seconds + secs)) timep tv
  end.

Definition localtime_r (timep : Z) (tv : tm) : bool * tm := year_loop 130 1970 0 timep tv.

(** [gmtime_r], [localtime] and [gmtime] are the same call. *)
Definition localtime (timep : Z) (timevalue : tm) : bool * tm := localtime_r timep timevalue.

(** The loop of [secs_of_years]. *)
Fixpoint years_down (todo : nat) (years days : Z) : Z :=
  match todo with
  | O => days
  | S todo' =>
      let days := u32 (days + 365) in
      years_down todo' (years - 1) (if year_is_leap years then u32 (days + 1) else days)
  end.
Definition secs_of_years (years : Z) : Z :=
  let years := years + 2000 in
  u32 (years_down (Z.to_nat (years - 1969)) years 0 * 86400).

Definition mktime (t : tm) : Z :=
  s32 (secs_of_years (tm_year t + 1900) + secs_of_month (tm_mon t) (tm_year t + 1900) +
       (tm_mday t - 1) * 86400 + tm_hour t * 3600 + tm_min t * 60 + tm_sec t).

End LocalTime.

(** ** [localtime_r] against the calendar *)

Module LocalTimeProps.
Import Calendar LocalTime.

Lemma year_is_leap_eq y : 0 <= y -> year_is_leap y = leap y.
Proof. intros Hy. unfold year_is_leap, leap. by rewrite !Z.rem_mod_nonneg by lia. Qed.

Lemma days_in_month_eq m y : 1 <= m <= 11 -> 0 <= y -> days_in_month m y = month_days y m.
Proof.
  intros Hm Hy. assert (m = 1 \/ m = 2 \/ m = 3 \/ m = 4 \/ m = 5 \/ m = 6 \/ m = 7 \/ m = 8 \/ m = 9 \/ m = 10 \/ m = 11) as Hc by lia.
  unfold days_in_month, month_days. rewrite year_is_leap_eq by done. by destruct Hc as [->|[->|[->|[->|[->|[->|[->|[->|[->|[->| ->]]]]]]]]]].
Qed.

(** The end of 2037 in seconds. *)
Definition last_second : Z := 2145916800.

Lemma before_2038 y : y <= 2038 -> days_before_year y * 86400 <= last_second.
Proof. intros Hy. pose proof (days_before_year_mono y 2038 Hy) as H. change (days_before_year 2038) with 24837 in H. unfold last_second. lia. Qed.

Lemma after_1970 y : 1970 <= y -> 0 <= days_before_year y.
Proof. intros Hy. pose proof (days_before_year_mono 1970 y Hy) as H. change (days_before_year 1970) with 0 in H. lia. Qed.

Lemma year_skip n k y t tv :
  1970 <= y -> y + Z.of_nat n <= 2037 -> days_before_year (y + Z.of_nat n) * 86400 <= t < last_second ->
  year_loop (n + k) y (days_before_year y * 86400) t tv = year_loop k (y + Z.of_nat n) (days_before_year (y + Z.of_nat n) * 86400) t tv.
Proof.
  revert y. induction n as [|n IH]; intros y Hy Hn Ht; [by rewrite Z.add_0_r|]. cbn [Nat.add year_loop].
  rewrite year_is_leap_eq by lia. pose proof (days_before_next y) as Hnext. pose proof (before_2038 (y + 1) ltac:(lia)). pose proof (after_1970 y Hy). pose proof (after_1970 (y + 1) ltac:(lia)).
  pose proof (days_before_year_mono (y + 1) (y + Z.of_nat (S n)) ltac:(lia)). unfold last_second in *.
  assert (days_before_year y * 86400 + (if leap y then 366 else 365) * 86400 = days_before_year (y + 1) * 86400) as -> by (rewrite Hnext; destruct (leap y); lia).
  rewrite !s32_small by lia. destruct (Z.leb_spec (t + 1) (days_before_year (y + 1) * 86400)); [lia|].
  rewrite IH by (try lia; replace (y + 1 + Z.of_nat n) with (y + Z.of_nat (S n)) by lia; lia). by replace (y + 1 + Z.of_nat n) with (y + Z.of_nat (S n)) by lia.
Qed.

Lemma year_found k y t tv :
  1970 <= y <= 2037 -> days_before_year y * 86400 <= t < days_before_year (y + 1) * 86400 ->
  year_loop (S k) y (days_before_year y * 86400) t tv =
    month_loop 12 1 y (days_before_year y * 86400) (days_before_year y * 86400) t (set_year tv (y - 1900)).
Proof.
  intros Hy Ht. cbn [year_loop]. rewrite year_is_leap_eq by lia. pose proof (days_before_next y) as Hnext. pose proof (before_2038 (y + 1) ltac:(lia)).
  pose proof (after_1970 y ltac:(lia)). pose proof (after_1970 (y + 1) ltac:(lia)). unfold last_second in *.
  assert (days_before_year y * 86400 + (if leap y then 366 else 365) * 86400 = days_before_year (y + 1) * 86400) as -> by (rewrite Hnext; destruct (leap y); lia).
  rewrite !s32_small by lia. by destruct (Z.leb_spec (t + 1) (days_before_year (y + 1) * 86400)); [|lia].
Qed.

Lemma month_skip n k m y ys t tv :
  1 <= m -> m + Z.of_nat n <= 12 -> 0 <= y -> 0 <= ys -> ys + days_before_month y (m + Z.of_nat n) * 86400 < t < 2147483648 ->
  month_loop (n + k) m y (ys + days_before_month y m * 86400) ys t tv =
    month_loop k (m + Z.of_nat n) y (ys + days_before_month y (m + Z.of_nat n) * 86400) ys t tv.
Proof.
  revert m. induction n as [|n IH]; intros m Hm Hn Hy Hys Ht; [by rewrite Z.add_0_r|]. cbn [Nat.add month_loop].
  rewrite days_in_month_eq by lia. unfold SEC_DAY. pose proof (days_before_next_month y m Hm) as Hnext. pose proof (days_before_month_nonneg y m Hm).
  pose proof (month_days_bounds y m). pose proof (days_before_month_mono y (m + 1) (m + Z.of_nat (S n)) ltac:(lia) ltac:(lia)).
  assert (ys + days_before_month y m * 86400 + month_days y m * 86400 = ys + days_before_month y (m + 1) * 86400) as -> by lia.
  rewrite s32_small by lia. destruct (Z.leb_spec t (ys + days_before_month y (m + 1) * 86400)); [lia|].
  replace (m + Z.of_nat (S n)) with (m + 1 + Z.of_nat n) in * by lia. apply IH; lia.
Qed.

Lemma day_skip n k d base ys t tv :
  0 <= base -> n = O \/ base + Z.of_nat n * 86400 < t < 2147483648 ->
  day_loop (n + k) d base ys t tv = day_loop k (d + Z.of_nat n) (base + Z.of_nat n * 86400) ys t tv.
Proof.
  revert d base. induction n as [|n IH]; intros d base Hb Ht; [by rewrite !Z.add_0_r|]. destruct Ht as [|Ht]; [done|]. cbn [Nat.add day_loop]. change (60 * 60 * 24) with 86400.
  rewrite s32_small by lia. destruct (Z.leb_spec t (base + 86400)); [lia|]. rewrite IH by lia. replace (d + 1 + Z.of_nat n) with (d + Z.of_nat (S n)) by lia.
  by replace (base + 86400 + Z.of_nat n * 86400) with (base + Z.of_nat (S n) * 86400) by lia.
Qed.

Lemma hour_skip n k h base ys t tv :
  0 <= base -> n = O \/ base + Z.of_nat n * 3600 < t < 2147483648 ->
  hour_loop (n + k) h base ys t tv = hour_loop k (h + Z.of_nat n) (base + Z.of_nat n * 3600) ys t tv.
Proof.
  revert h base. induction n as [|n IH]; intros h base Hb Ht; [by rewrite !Z.add_0_r|]. destruct Ht as [|Ht]; [done|]. cbn [Nat.add hour_loop]. change (60 * 60) with 3600.
  rewrite s32_small by lia. destruct (Z.leb_spec t (base + 3600)); [lia|]. rewrite IH by lia. replace (h + 1 + Z.of_nat n) with (h + Z.of_nat (S n)) by lia.
  by replace (base + 3600 + Z.of_nat n * 3600) with (base + Z.of_nat (S n) * 3600) by lia.
Qed.

(** The day and the hour, from the start of the month. *)
Lemma day_found n d h r base ys t tv :
  0 <= base -> 1 <= d <= Z.of_nat n -> 0 <= h < 24 -> 0 < r <= 3600 \/ (r = 0 /\ d = 1 /\ h = 0) ->
  t = base + (d - 1) * 86400 + h * 3600 + r -> base + d * 86400 < 2147483648 -> 0 <= ys <= t ->
  day_loop n 1 base ys t tv =
    (true, Build_tm (r mod 60) (r / 60) h d (tm_mon tv) (tm_year tv) ((t / 86400 + 4) mod 7) ((t - ys) / 86400) 0).
Proof.
  intros Hb Hd Hh Hr Ht Hlt Hys. replace n with (Z.to_nat (d - 1) + S (n - Z.to_nat d))%nat by lia.
  assert (day_loop (Z.to_nat (d - 1) + S (n - Z.to_nat d)) 1 base ys t tv = day_loop (S (n - Z.to_nat d)) d (base + (d - 1) * 86400) ys t tv) as ->.
  { rewrite day_skip by lia. rewrite Z2Nat.id by lia. by replace (1 + (d - 1)) with d by lia. }
  cbn [day_loop]. change (60 * 60 * 24) with 86400. rewrite s32_small by lia. destruct (Z.leb_spec t (base + (d - 1) * 86400 + 86400)); [|lia].
  replace 24%nat with (Z.to_nat h + S (23 - Z.to_nat h))%nat by lia.
  assert (forall tv', hour_loop (Z.to_nat h + S (23 - Z.to_nat h)) 1 (base + (d - 1) * 86400) ys t tv' =
    hour_loop (S (23 - Z.to_nat h)) (h + 1) (base + (d - 1) * 86400 + h * 3600) ys t tv') as Hhour.
  { intros tv'. rewrite hour_skip by lia. rewrite Z2Nat.id by lia. by rewrite (Z.add_comm 1 h). }
  rewrite Hhour. cbn [hour_loop]. change (60 * 60) with 3600. rewrite s32_small by lia.
  destruct (Z.leb_spec t (base + (d - 1) * 86400 + h * 3600 + 3600)); [|lia].
  rewrite !s32_small by lia. replace (t - (base + (d - 1) * 86400 + h * 3600)) with r by lia. unfold day_of_week, SEC_DAY.
  rewrite !Z.quot_div_nonneg, !Z.rem_mod_nonneg by (try lia; Z.to_euclidean_division_equations; lia).
  cbn [tm_mday tm_mon tm_year set_mday]. by replace (h + 1 - 1) with h by lia.
Qed.

(** The first seconds of a year and the year they belong to. *)
Lemma localtime_year y t tv :
  1970 <= y <= 2037 -> days_before_year y * 86400 <= t < days_before_year (y + 1) * 86400 ->
  localtime_r t tv = month_loop 12 1 y (days_before_year y * 86400) (days_before_year y * 86400) t (set_year tv (y - 1900)).
Proof.
  intros Hy Ht. pose proof (before_2038 (y + 1) ltac:(lia)). unfold localtime_r.
  replace 130%nat with (Z.to_nat (y - 1970) + S (129 - Z.to_nat (y - 1970)))%nat by lia.
  set (n := Z.to_nat (y - 1970)). assert (1970 + Z.of_nat n = y) as En by lia.
  change 0 with (days_before_year 1970 * 86400) at 1. rewrite year_skip; rewrite ?En; [by apply year_found|lia|lia|lia].
Qed.

Lemma localtime_ok y m d h r tv :
  1970 <= y <= 2037 -> 1 <= m <= 11 -> valid_day y m d -> 0 <= h < 24 -> 0 < r <= 3600 \/ (r = 0 /\ m = 1 /\ d = 1 /\ h = 0) ->
  let t := epoch y m d h 0 0 + r in t < days_before_year (y + 1) * 86400 ->
  localtime_r t tv =
    (true, Build_tm (r mod 60) (r / 60) h d (m - 1) (y - 1900) ((t / 86400 + 4) mod 7) ((t - days_before_year y * 86400) / 86400) 0).
Proof.
  intros Hy Hm Hd Hh Hr t Ht. pose proof (day_in_year y m d Hd) as Hin. pose proof (before_2038 (y + 1) ltac:(lia)) as H38. unfold last_second in H38.
  pose proof (after_1970 y ltac:(lia)). pose proof (days_before_month_nonneg y m ltac:(lia)).
  assert (t = days_before_year y * 86400 + days_before_month y m * 86400 + (d - 1) * 86400 + h * 3600 + r) as Et by (unfold t, epoch, day_number; lia).
  rewrite (localtime_year y) by lia. set (ys := days_before_year y * 86400) in *. set (n := Z.to_nat (m - 1)). assert (1 + Z.of_nat n = m) as En by lia.
  replace 12%nat with (n + S (11 - n))%nat by lia. destruct Hd as [_ Hd].
  assert (month_loop (n + S (11 - n)) 1 y ys ys t (set_year tv (y - 1900)) =
    month_loop (S (11 - n)) m y (ys + days_before_month y m * 86400) ys t (set_year tv (y - 1900))) as ->.
  { destruct (Z.eq_dec m 1) as [->|Hm1].
    - change n with 0%nat. change (days_before_month y 1) with 0. by rewrite Z.mul_0_l, Z.add_0_r.
    - replace ys with (ys + days_before_month y 1 * 86400) at 1 by (change (days_before_month y 1) with 0; lia).
      rewrite month_skip; rewrite ?En; [done|lia|lia|lia|lia|lia]. }
  cbn [month_loop]. rewrite days_in_month_eq by lia. unfold SEC_DAY. pose proof (month_days_bounds y m).
  pose proof (days_before_month_mono y (m + 1) 13 ltac:(lia) ltac:(lia)) as Hmono. rewrite days_before_next_month, year_length in Hmono by lia.
  pose proof (days_before_next y) as Hny. fold ys in Hny.
  assert (ys + (days_before_month y m + month_days y m) * 86400 <= days_before_year (y + 1) * 86400) as Hend by (rewrite Hny; unfold ys; lia).
  rewrite s32_small by lia. destruct (Z.leb_spec t (ys + days_before_month y m * 86400 + month_days y m * 86400)); [|lia].
  rewrite (day_found _ d h r _ ys t); [done|lia|lia|done| |lia|lia|lia]. destruct Hr as [|(? & -> & -> & ->)]; [by left|by right].
Qed.

Lemma localtime_fields y m d h mi s tv :
  1970 <= y <= 2037 -> 1 <= m <= 11 -> valid_day y m d -> 0 <= h < 24 -> 0 <= mi < 60 -> 0 <= s < 60 ->
  0 < mi * 60 + s \/ (m = 1 /\ d = 1 /\ h = 0) ->
  localtime_r (epoch y m d h mi s) tv =
    (true, Build_tm s mi h d (m - 1) (y - 1900) ((day_number y m d + 4) mod 7) (days_before_month y m + (d - 1)) 0).
Proof.
  intros Hy Hm Hd Hh Hmi Hs Hr. pose proof (day_in_year y m d Hd) as Hin. pose proof (days_before_next y) as Hny.
  replace (epoch y m d h mi s) with (epoch y m d h 0 0 + (mi * 60 + s)) by (unfold epoch; lia).
  assert (epoch y m d h 0 0 + (mi * 60 + s) = day_number y m d * 86400 + (h * 3600 + mi * 60 + s)) as Ee by (unfold epoch; lia).
  rewrite (localtime_ok y m d h (mi * 60 + s)); [|done|done|done|done|lia|rewrite Hny, Ee; unfold day_number; lia].
  assert ((mi * 60 + s) mod 60 = s /\ (mi * 60 + s) / 60 = mi) as [-> ->] by (Z.to_euclidean_division_equations; lia).
  assert ((epoch y m d h 0 0 + (mi * 60 + s)) / 86400 = day_number y m d) as -> by (rewrite Ee; Z.to_euclidean_division_equations; lia).
  assert ((epoch y m d h 0 0 + (mi * 60 + s) - days_before_year y * 86400) / 86400 = days_before_month y m + (d - 1)) as ->.
  { rewrite Ee. unfold day_number. Z.to_euclidean_division_equations. lia. }
  done.
Qed.

(** C26: [localtime_r] of a moment from 1970 to 2037 that is not in December and not
    on an hour (the first of a year excepted) gives the calendar's year, month, day,
    hour, minute and second, the day of the week and the day of the year. *)
Theorem localtime_r_correct y m d h mi s tv :
  1970 <= y <= 2037 -> 1 <= m <= 11 -> valid_day y m d -> 0 <= h < 24 -> 0 <= mi < 60 -> 0 <= s < 60 ->
  0 < mi * 60 + s \/ (m = 1 /\ d = 1 /\ h = 0) ->
  localtime_r (epoch y m d h mi s) tv =
    (true, Build_tm s mi h d (m - 1) (y - 1900) ((day_number y m d + 4) mod 7) (days_before_month y m + (d - 1)) 0).
Proof. apply localtime_fields. Qed.

(** On the hour [localtime_r] gives the hour before and minute 60, and for every
    moment of December after its first it returns NULL. *)
Theorem localtime_r_gaps y tv :
  1970 <= y <= 2037 ->
  (forall m d h, 1 <= m <= 11 -> valid_day y m d -> 0 <= h < 23 ->
    exists wday yday, localtime_r (epoch y m d (h + 1) 0 0) tv = (true, Build_tm 0 60 h d (m - 1) (y - 1900) wday yday 0)) /\
  (forall t, epoch y 12 1 0 0 0 < t < days_before_year (y + 1) * 86400 -> (localtime_r t tv).1 = false).
Proof.
  intros Hy. split.
  - intros m d h Hm Hd Hh. pose proof (day_in_year y m d Hd). pose proof (days_before_next y) as Hny.
    replace (epoch y m d (h + 1) 0 0) with (epoch y m d h 0 0 + 3600) by (unfold epoch; lia).
    rewrite (localtime_ok y m d h 3600); [by do 2 eexists|done|done|done|lia|lia|rewrite Hny; unfold epoch, day_number; lia].
  - intros t Ht. pose proof (before_2038 (y + 1) ltac:(lia)) as H38. unfold last_second in H38. pose proof (after_1970 y ltac:(lia)).
    pose proof (days_before_month_nonneg y 12 ltac:(lia)). unfold epoch, day_number in Ht.
    rewrite (localtime_year y) by lia. set (ys := days_before_year y * 86400) in *. change 12%nat with (11 + 1)%nat.
    assert (ys = ys + days_before_month y 1 * 86400) as Eys by (change (days_before_month y 1) with 0; lia). rewrite Eys at 1.
    rewrite month_skip by (change (1 + Z.of_nat 11) with 12; unfold ys in *; lia). change (1 + Z.of_nat 11) with 12. cbn [month_loop].
    change (days_in_month 12 y) with 0. rewrite Z.mul_0_l, Z.add_0_r, s32_small by (unfold ys in *; lia).
    by destruct (Z.leb_spec t (ys + days_before_month y 12 * 86400)); [unfold ys in *; lia|].
Qed.

Definition unset : tm := Build_tm 0 0 0 0 0 0 0 0 0.

Lemma localtime_r_correct_witness : localtime_r 1714657028 unset = (true, Build_tm 8 37 13 2 4 124 4 122 0).
Proof. apply (localtime_r_correct 2024 5 2 13 37 8 unset); unfold valid_day; cbn; lia. Defined.

Lemma localtime_r_gaps_witness :
  (exists wday yday, localtime_r 3600 unset = (true, Build_tm 0 60 0 1 0 70 wday yday 0)) /\ (localtime_r 1701468001 unset).1 = false.
Proof.
  split.
  - apply (proj1 (localtime_r_gaps 1970 unset ltac:(lia)) 1 1 0); unfold valid_day; cbn; lia.
  - apply (proj2 (localtime_r_gaps 2023 unset ltac:(lia))). vm_compute. done.
Defined.

(** A date does not survive [mktime]: the seconds of the first moment of 1970. *)
Lemma mktime_wrong : mktime (Build_tm 0 0 0 1 0 70 4 0 0) <> 0.
Proof. vm_compute. discriminate. Qed.

End LocalTimeProps.
