(* ===== verification/Cmos.v ===== *)
(** * The real-time clock ([kernel/src/cmos.c])

    [read_cmos] turns the date that the clock's registers hold into seconds since
    1970.  What the ports return, dump after dump, is an argument. *)

From stdpp Require Import base numbers list.
From S2P Require Import Prelude LocalTime.

(** ** [cmos.c] *)

Module Cmos.

Definition CMOS_SECOND : Z := 0.
Definition CMOS_MINUTE : Z := 2.
Definition CMOS_HOUR : Z := 4.
Definition CMOS_DAY : Z := 7.
Definition CMOS_MONTH : Z := 8.
Definition CMOS_YEAR : Z := 9.

Definition from_bcd (val : Z) : Z := val / 16 * 10 + Z.land val 0xf.

(** A dump is the 128 registers as [cmos_dump] reads them from the ports. *)
Definition dump : Type := list Z.
Definition reg (values : dump) (i : Z) : Z := nth (Z.to_nat i) values 0.

Definition get_date (values : dump) : Z * Z := (u16 (from_bcd (reg values CMOS_MONTH)), u16 (from_bcd (reg values CMOS_DAY))).
Definition get_time (values : dump) : Z * Z * Z :=
  (u16 (from_bcd (reg values CMOS_HOUR)), u16 (from_bcd (reg values CMOS_MINUTE)), u16 (from_bcd (reg values CMOS_SECOND))).

Fixpoint years_down (todo : nat) (years days : Z) : Z :=
  match todo with
  | O => days
  | S todo' =>
      let days := u32 (days + 365) in
      let days :=
        if Z.rem years 4 =? 0 then
          if Z.rem years 100 =? 0 then (if Z.rem years 400 =? 0 then u32 (days + 1) else days) else u32 (days + 1)
        else days in
      years_down todo' (years - 1) days
  end.
Definition secs_of_years (years : Z) : Z :=
  let years := years + 2000 in
  u32 (years_down (Z.to_nat (years - 1969)) years 0 * 86400).

(** The cases of the switch fall through: [from month] adds the months up to it. *)
Definition secs_of_month (months year : Z) : Z :=
  let year := year + 2000 in
  let feb := if (Z.rem year 4 =? 0) && (negb (Z.rem year 100 =? 0) || (Z.rem year 400 =? 0)) then 29 else 28 in
  let d1 := 31 in
  let d2 := feb + d1 in
  let d3 := 31 + d2 in
  let d4 := 30 + d3 in
  let d5 := 31 + d4 in
  let d6 := 30 + d5 in
  let d7 := 31 + d6 in
  let d8 := 31 + d7 in
  let d9 := 30 + d8 in
  let d10 := 31 + d9 in
  let d11 := 30 + d10 in
  let days :=
    if months =? 11 then d11 else if months =? 10 then d10 else if months =? 9 then d9 else if months =? 8 then d8
    else if months =? 7 then d7 else if months =? 6 then d6 else if months =? 5 then d5 else if months =? 4 then d4
    else if months =? 3 then d3 else if months =? 2 then d2 else if months =? 1 then d1 else 0 in
  u32 (days * 86400).

(** The registers the loop of [read_cmos] compares. *)
Definition same_clock (old_values values : dump) : bool :=
  forallb (fun i => reg old_values i =? reg values i) [CMOS_SECOND; CMOS_MINUTE; CMOS_HOUR; CMOS_DAY; CMOS_MONTH; CMOS_YEAR].

(** [dumps] are the successive dumps; each is taken when no update is in progress. *)
Fixpoint stable (values : dump) (dumps : list dump) : outcome dump :=
  match dumps with
  | [] => OutOfFuel
  | next :: dumps' => if same_clock values next then Ret next else stable next dumps'
  end.

Definition math_time (values : dump) : Z :=
  u32 (secs_of_years (from_bcd (reg values CMOS_YEAR) - 1) +
       secs_of_month (from_bcd (reg values CMOS_MONTH) - 1) (from_bcd (reg values CMOS_YEAR)) +
       (from_bcd (reg values CMOS_DAY) - 1) * 86400 +
       from_bcd (reg values CMOS_HOUR) * 3600 +
       from_bcd (reg values CMOS_MINUTE) * 60 +
       from_bcd (reg values CMOS_SECOND) + 0).

Definition read_cmos (values : dump) (dumps : list dump) : outcome Z := fmap math_time (stable values dumps).

(** The clock counts from the time of the start. *)
Record clock := Clock { boot_time : Z; timerticks : Z; timer_drift : Z; timer_subticks : Z }.
Definition gettimeofday (c : clock) : Z * Z := (u32 (boot_time c + timerticks c + timer_drift c), u32 (timer_subticks c * 1000)).
Definition now (c : clock) : Z := (gettimeofday c).1.

End Cmos.

(** ** The real-time clock against the calendar *)

Module CmosProps.
Import Calendar Cmos.

(** A number below 100 as the clock stores it. *)
Definition bcd (v : Z) : Z := v / 10 * 16 + v mod 10.

Lemma from_bcd_bcd v : 0 <= v < 100 -> from_bcd (bcd v) = v.
Proof.
  intros Hv. unfold from_bcd, bcd. change 0xf with (Z.ones 4). rewrite Z.land_ones by lia. change (2 ^ 4) with 16.
  Z.to_euclidean_division_equations. lia.
Qed.

(** The dump shows this date and time of the years 2000 to 2099. *)
Definition shows (values : dump) (yy m d h mi s : Z) : Prop :=
  reg values CMOS_YEAR = bcd yy /\ reg values CMOS_MONTH = bcd m /\ reg values CMOS_DAY = bcd d /\
  reg values CMOS_HOUR = bcd h /\ reg values CMOS_MINUTE = bcd mi /\ reg values CMOS_SECOND = bcd s.

Lemma before_2101 y : y <= 2101 -> days_before_year y <= 47847.
Proof. intros Hy. pose proof (days_before_year_mono y 2101 Hy) as H. by change (days_before_year 2101) with 47847 in H. Qed.

Lemma years_down_ok n years days :
  1969 + Z.of_nat n <= years <= 2100 -> 0 <= days <= days_before_year 2101 - days_before_year (years + 1) ->
  years_down n years days = days + (days_before_year (years + 1) - days_before_year (years - Z.of_nat n + 1)).
Proof.
  revert years days. induction n as [|n IH]; intros years days Hy Hd; cbn [years_down].
  { rewrite Z.sub_0_r. lia. }
  rewrite !Z.rem_mod_nonneg by lia. pose proof (days_before_next years) as Hn. pose proof (before_2101 2101 ltac:(lia)).
  pose proof (LocalTimeProps.after_1970 years ltac:(lia)).
  assert ((let days0 := u32 (days + 365) in
    if years mod 4 =? 0 then if years mod 100 =? 0 then if years mod 400 =? 0 then u32 (days0 + 1) else days0 else u32 (days0 + 1) else days0) =
    days + (if leap years then 366 else 365)) as Hstep.
  { cbv zeta. assert (365 <= days_before_year (years + 1) - days_before_year years) by (rewrite Hn; destruct (leap years); lia).
    unfold leap.
    rewrite (u32_small (days + 365)) by lia. rewrite (u32_small (days + 365 + 1)) by lia.
    destruct (years mod 4 =? 0), (years mod 100 =? 0), (years mod 400 =? 0); cbn; lia. }
  cbv zeta in Hstep. rewrite Hstep. rewrite IH.
  - replace (years - 1 + 1) with years by lia. replace (years - 1 - Z.of_nat n + 1) with (years - Z.of_nat (S n) + 1) by lia. destruct (leap years); lia.
  - lia.
  - replace (years - 1 + 1) with years by lia. destruct (leap years); lia.
Qed.

Lemma secs_of_years_ok yy : 0 <= yy <= 99 -> secs_of_years (yy - 1) = days_before_year (2000 + yy) * 86400.
Proof.
  intros Hy. unfold secs_of_years. replace (yy - 1 + 2000) with (2000 + yy - 1) by lia.
  assert (days_before_year (2000 + yy) <= days_before_year 2099 /\ days_before_year 2099 = 47117) as [H1 H2]
    by (split; [apply days_before_year_mono; lia|done]).
  pose proof (LocalTimeProps.after_1970 (2000 + yy) ltac:(lia)).
  rewrite years_down_ok; replace (2000 + yy - 1 + 1) with (2000 + yy) by lia; [|lia|pose proof (days_before_year_mono (2000 + yy) 2101 ltac:(lia)); lia].
  replace (2000 + yy - 1 - Z.of_nat (Z.to_nat (2000 + yy - 1 - 1969)) + 1) with 1970 by lia. change (days_before_year 1970) with 0.
  rewrite u32_small by lia. lia.
Qed.

Lemma secs_of_month_ok m yy : 1 <= m <= 12 -> 0 <= yy -> secs_of_month (m - 1) yy = days_before_month (2000 + yy) m * 86400.
Proof.
  intros Hm Hy. unfold secs_of_month. rewrite (Z.add_comm yy 2000), !Z.rem_mod_nonneg by lia. fold (leap (2000 + yy)).
  assert (m = 1 \/ m = 2 \/ m = 3 \/ m = 4 \/ m = 5 \/ m = 6 \/ m = 7 \/ m = 8 \/ m = 9 \/ m = 10 \/ m = 11 \/ m = 12) as Hc by lia.
  destruct Hc as [->|[->|[->|[->|[->|[->|[->|[->|[->|[->|[->| ->]]]]]]]]]]]; unfold days_before_month, month_days; cbn; by destruct (leap (2000 + yy)).
Qed.

Lemma math_time_ok values yy m d h mi s :
  shows values yy m d h mi s -> 0 <= yy <= 99 -> valid_day (2000 + yy) m d -> 0 <= h < 24 -> 0 <= mi < 60 -> 0 <= s < 60 ->
  math_time values = epoch (2000 + yy) m d h mi s.
Proof.
  intros (E1 & E2 & E3 & E4 & E5 & E6) Hy Hd Hh Hmi Hs. pose proof (day_in_year _ _ _ Hd) as Hin. destruct Hd as [Hm Hd].
  pose proof (month_days_bounds (2000 + yy) m). unfold math_time. rewrite E1, E2, E3, E4, E5, E6, !from_bcd_bcd by lia.
  rewrite secs_of_years_ok, secs_of_month_ok by lia. pose proof (LocalTimeProps.after_1970 (2000 + yy) ltac:(lia)).
  pose proof (days_before_next (2000 + yy)). pose proof (before_2101 (2000 + yy + 1) ltac:(lia)).
  unfold epoch, day_number. rewrite u32_small; [lia|]. lia.
Qed.

(** Each dump of a list differs from the one before. *)
Fixpoint changing (old : dump) (dumps : list dump) : Prop :=
  match dumps with
  | [] => True
  | v :: dumps' => same_clock old v = false /\ changing v dumps'
  end.

Lemma stable_ok old noise v rest :
  changing old noise -> same_clock (List.last noise old) v = true -> stable old (noise ++ v :: rest) = Ret v.
Proof.
  revert old. induction noise as [|u noise IH]; intros old Hc Hs; cbn [app stable].
  - cbn [List.last] in Hs. by rewrite Hs.
  - destruct Hc as [-> Hc]. apply IH; [done|]. destruct noise as [|w noise]; [done|]. rewrite <- Hs. f_equal. clear.
    revert w. induction noise as [|x noise IH]; intros w; [done|]. apply IH.
Qed.

Lemma shows_same u v yy m d h mi s : shows u yy m d h mi s -> shows v yy m d h mi s -> same_clock u v = true.
Proof.
  intros (E1 & E2 & E3 & E4 & E5 & E6) (F1 & F2 & F3 & F4 & F5 & F6). unfold same_clock. cbn.
  by rewrite E1, E2, E3, E4, E5, E6, F1, F2, F3, F4, F5, F6, !Z.eqb_refl.
Qed.

(** Once two dumps in a row show the same date and time, [read_cmos] returns the
    seconds of that moment by the calendar, for the years 2000 to 2099. *)
Theorem read_cmos_epoch old noise v rest yy m d h mi s :
  changing old noise -> shows (List.last noise old) yy m d h mi s -> shows v yy m d h mi s ->
  0 <= yy <= 99 -> valid_day (2000 + yy) m d -> 0 <= h < 24 -> 0 <= mi < 60 -> 0 <= s < 60 ->
  read_cmos old (noise ++ v :: rest) = Ret (epoch (2000 + yy) m d h mi s).
Proof.
  intros Hc Hu Hv Hy Hd Hh Hmi Hs. unfold read_cmos. rewrite (stable_ok old noise v rest Hc (shows_same _ _ _ _ _ _ _ _ Hu Hv)).
  cbn. f_equal. by apply math_time_ok.
Qed.

(** The date the clock of the machine shows at the start is the date
    [localtime_r] gives for the time read from it. *)
Theorem clock_date_round_trip values yy m d h mi s tv :
  shows values yy m d h mi s -> 0 <= yy <= 37 -> 1 <= m <= 11 -> valid_day (2000 + yy) m d ->
  0 <= h < 24 -> 0 <= mi < 60 -> 0 <= s < 60 -> 0 < mi * 60 + s ->
  exists t, read_cmos values [values] = Ret t /\
    let c := Clock t 0 0 0 in
    exists wday yday, LocalTime.localtime (now c) tv = (true, LocalTime.Build_tm s mi h d (m - 1) (100 + yy) wday yday 0).
Proof.
  intros Hv Hy Hm Hd Hh Hmi Hs Hr. exists (epoch (2000 + yy) m d h mi s). split.
  - pose proof (stable_ok values [] values [] I (shows_same _ _ _ _ _ _ _ _ Hv Hv)) as E. cbn [app] in E. unfold read_cmos. rewrite E.
    cbn [fmap outcome_fmap]. f_equal. apply math_time_ok; done || lia.
  - cbv zeta. unfold now, gettimeofday. cbn [fst boot_time timerticks timer_drift]. rewrite !Z.add_0_r.
    pose proof (day_in_year _ _ _ Hd). pose proof (days_before_next (2000 + yy)). pose proof (LocalTimeProps.before_2038 (2000 + yy + 1) ltac:(lia)) as Hl.
    pose proof (LocalTimeProps.after_1970 (2000 + yy) ltac:(lia)). unfold LocalTimeProps.last_second in Hl.
    rewrite u32_small by (unfold epoch, day_number; lia). unfold LocalTime.localtime.
    rewrite LocalTimeProps.localtime_fields; [|lia|lia|done|lia|lia|lia|lia]. replace (2000 + yy - 1900) with (100 + yy) by lia. by do 2 eexists.
Qed.

(** ** Witnesses: the 2nd of May 2024, 13:37:08 *)

Definition demo_dump : dump := [bcd 8; 0; bcd 37; 0; bcd 13; 0; 0; bcd 2; bcd 5; bcd 24].

Lemma demo_shows : shows demo_dump 24 5 2 13 37 8.
Proof. by repeat split. Qed.

Lemma demo_day : valid_day 2024 5 2.
Proof. unfold valid_day. cbn. lia. Qed.

Lemma read_cmos_epoch_witness : read_cmos demo_dump [demo_dump] = Ret 1714657028.
Proof. apply (read_cmos_epoch demo_dump [] demo_dump [] 24 5 2 13 37 8 I demo_shows demo_shows); [lia|exact demo_day|lia|lia|lia]. Defined.

Definition blank : LocalTime.tm := LocalTime.Build_tm 0 0 0 0 0 0 0 0 0.

Lemma clock_date_round_trip_witness :
  exists t wday yday, read_cmos demo_dump [demo_dump] = Ret t /\
    LocalTime.localtime (now (Clock t 0 0 0)) blank = (true, LocalTime.Build_tm 8 37 13 2 4 124 wday yday 0).
Proof.
  destruct (clock_date_round_trip demo_dump 24 5 2 13 37 8 blank demo_shows) as (t & E & w & yd & E'); [lia|lia|exact demo_day|lia|lia|lia|lia|].
  exists t, w, yd. split; [exact E|exact E'].
Defined.

End CmosProps.
