(* ===== verification/Vsprintf.v ===== *)
(** * Formatting with a limit ([kernel/src/vsprintf.c])

    [vsnprintf] writes characters through a pointer into a memory of bytes and tests
    every store against the end of the buffer.  The variable arguments are a list of
    values; taking one of the wrong kind is a [Fault].  Strings are their bytes
    without the terminator.  The widths of [number] are integers: an [int] that
    overflows there (a precision of 2^31 - 1) is undefined in the source. *)

From stdpp Require Import base numbers list.
From S2P Require Import Prelude.

(** Memory and the pointer that moves through it. *)
Record sink := Sink { bytes : Z -> Z; str : Z }.

Definition poke (m : Z -> Z) (a c : Z) : Z -> Z := fun x => if x =? a then c else m x.

(** Arguments of a variadic call. *)
Inductive arg : Type :=
  | AInt (n : Z)                 (* int, long, unsigned and pointers: 32 bits *)
  | ALongLong (n : Z)            (* long long *)
  | AStr (s : option (list Z)).  (* char pointer; None is NULL *)

Definition va_int (args : list arg) : outcome (Z * list arg) :=
  match args with AInt n :: args' => Ret (n, args') | _ => Fault end.
Definition va_longlong (args : list arg) : outcome (Z * list arg) :=
  match args with ALongLong n :: args' => Ret (n, args') | _ => Fault end.
Definition va_str (args : list arg) : outcome (option (list Z) * list arg) :=
  match args with AStr s :: args' => Ret (s, args') | _ => Fault end.

(** [*fmt], with the terminator at the end. *)
Definition cur (fmt : list Z) : Z := match fmt with [] => 0 | c :: _ => c end.

Module Vsprintf.

Definition _U : Z := 0x01.
Definition _L : Z := 0x02.
Definition _D : Z := 0x04.
Definition _C : Z := 0x08.
Definition _P : Z := 0x10.
Definition _S : Z := 0x20.
Definition _X : Z := 0x40.
Definition _SP : Z := 0x80.

Definition _ctype : list Z :=
  replicate 8 _C ++
  [_C; Z.lor _C _S; Z.lor _C _S; Z.lor _C _S; Z.lor _C _S; Z.lor _C _S; _C; _C] ++
  replicate 16 _C ++
  [Z.lor _S _SP] ++ replicate 15 _P ++
  replicate 10 _D ++ replicate 6 _P ++
  [_P] ++ replicate 6 (Z.lor _U _X) ++ replicate 20 _U ++ replicate 5 _P ++
  [_P] ++ replicate 6 (Z.lor _L _X) ++ replicate 20 _L ++ replicate 4 _P ++ [_C] ++
  replicate 32 0 ++
  [Z.lor _S _SP] ++ replicate 31 _P ++
  replicate 23 _U ++ [_P] ++ replicate 7 _U ++ [_L] ++
  replicate 23 _L ++ [_P] ++ replicate 8 _L.

Definition ismask (x : Z) : Z := nth (Z.to_nat (u8 x)) _ctype 0.
Definition isdigit (c : Z) : bool := truthy (Z.land (ismask c) _D).
Definition islower (c : Z) : bool := truthy (Z.land (ismask c) _L).
Definition isxdigit (c : Z) : bool := truthy (Z.land (ismask c) (Z.lor _D _X)).
Definition toupper (c : Z) : Z := if islower c then u8 (c - 32) else u8 c.

Fixpoint strnlen (s : list Z) (count : Z) : Z :=
  match s with
  | [] => 0
  | _ :: s' => if count =? 0 then 0 else 1 + strnlen s' (count - 1)
  end.

(** The value of a digit character. *)
Definition digit_value (c : Z) : Z := u32 (if isdigit c then c - 48 else toupper c - 65 + 10).

(** The loop over the digits; [wrap] keeps the result at its width. *)
Fixpoint strto_loop (wrap : Z -> Z) (cp : list Z) (base result : Z) : Z * list Z :=
  match cp with
  | [] => (result, [])
  | c :: cp' =>
      if isxdigit c && (digit_value c <? base) then strto_loop wrap cp' base (wrap (result * base + digit_value c))
      else (result, cp)
  end.

(** Base 0 is chosen by the prefix. *)
Definition strto_base (cp : list Z) (base : Z) : Z * list Z :=
  if base =? 0 then
    match cp with
    | 48 :: cp' =>
        match cp' with
        | 120 :: (c :: _) => if isxdigit c then (16, tail cp') else (8, cp')
        | _ => (8, cp')
        end
    | _ => (10, cp)
    end
  else (base, cp).

(** The result and the rest of the string. *)
Definition simple_strtoul (cp : list Z) (base : Z) : Z * list Z :=
  let '(base, cp) := strto_base cp base in strto_loop u32 cp base 0.

Definition simple_strtol (cp : list Z) (base : Z) : Z * list Z :=
  match cp with
  | 45 :: cp' => let '(n, rest) := simple_strtoul cp' base in (s32 (- n), rest)
  | _ => let '(n, rest) := simple_strtoul cp base in (s32 n, rest)
  end.

Definition simple_strtoull (cp : list Z) (base : Z) : Z * list Z :=
  let '(base, cp) := strto_base cp base in strto_loop u64 cp base 0.

Definition simple_strtoll (cp : list Z) (base : Z) : Z * list Z :=
  match cp with
  | 45 :: cp' => let '(n, rest) := simple_strtoull cp' base in (s64 (- n), rest)
  | _ => let '(n, rest) := simple_strtoull cp base in (s64 n, rest)
  end.

(** [skip_atoi]: the number at the start of the string. *)
Fixpoint skip_atoi (s : list Z) (i : Z) : Z * list Z :=
  match s with
  | c :: s' => if isdigit c then skip_atoi s' (s32 (i * 10 + c - 48)) else (i, s)
  | [] => (i, [])
  end.

Definition ZEROPAD : Z := 1.
Definition SIGN : Z := 2.
Definition PLUS : Z := 4.
Definition SPACE : Z := 8.
Definition LEFT : Z := 16.
Definition SPECIAL : Z := 32.
Definition LARGE : Z := 64.

Definition has (flags bit : Z) : bool := truthy (Z.land flags bit).

(** [if (buf <= end) *buf = c; ++buf] *)
Definition put (end_ c : Z) (o : sink) : sink :=
  Sink (if str o <=? end_ then poke (bytes o) (str o) c else bytes o) (u32 (str o + 1)).

(** [while (size-- > 0)] storing [c]. *)
Fixpoint pad (end_ c : Z) (todo : nat) (o : sink) : sink :=
  match todo with
  | O => o
  | S todo' => pad end_ c todo' (put end_ c o)
  end.

Fixpoint puts (end_ : Z) (cs : list Z) (o : sink) : sink :=
  match cs with
  | [] => o
  | c :: cs' => puts end_ cs' (put end_ c o)
  end.

Definition small_digits : list Z := [48;49;50;51;52;53;54;55;56;57;97;98;99;100;101;102;103;104;105;106;107;108;109;110;111;112;113;114;115;116;117;118;119;120;121;122].
Definition large_digits : list Z := [48;49;50;51;52;53;54;55;56;57;65;66;67;68;69;70;71;72;73;74;75;76;77;78;79;80;81;82;83;84;85;86;87;88;89;90].

Definition digit (large : bool) (i : Z) : Z := nth (Z.to_nat i) (if large then large_digits else small_digits) 0.

(** The digits of [num], the lowest first; a 64-bit number has at most 64. *)
Fixpoint digits_of (fuel : nat) (large : bool) (num base : Z) : list Z :=
  match fuel with
  | O => []
  | S fuel' => if num =? 0 then [] else digit large (num mod base) :: digits_of fuel' large (num / base) base
  end.

(** The sign, the number without it and the width left. *)
Definition number_sign (num size type : Z) : Z * Z * Z :=
  if has type SIGN then
    if num <? 0 then (45, s64 (- num), size - 1)
    else if has type PLUS then (43, num, size - 1)
    else if has type SPACE then (32, num, size - 1)
    else (0, num, size)
  else (0, num, size).

Definition number (end_ : Z) (num base size precision type : Z) (o : sink) : sink :=
  let type := if has type LEFT then Z.land type (Z.lnot ZEROPAD) else type in
  if (base <? 2) || (36 <? base) then Sink (bytes o) NULL
  else
    let c := if has type ZEROPAD then 48 else 32 in
    let '(sign, num, size) := number_sign num size type in
    let size := if has type SPECIAL then (if base =? 16 then size - 2 else if base =? 8 then size - 1 else size) else size in
    let tmp := if num =? 0 then [48] else digits_of 64 (has type LARGE) (u64 num) base in
    let i := Z.of_nat (length tmp) in
    let precision := if precision <? i then i else precision in
    let size := size - precision in
    let left := has type LEFT in
    let '(o, size) := if negb (has type (ZEROPAD + LEFT)) then (pad end_ 32 (Z.to_nat size) o, Z.min size 0 - 1) else (o, size) in
    let o := if truthy sign then put end_ sign o else o in
    let o :=
      if has type SPECIAL then
        if base =? 8 then put end_ 48 o
        else if base =? 16 then put end_ (digit (has type LARGE) 33) (put end_ 48 o)
        else o
      else o in
    let '(o, size) := if negb left then (pad end_ c (Z.to_nat size) o, Z.min size 0 - 1) else (o, size) in
    let o := pad end_ 48 (Z.to_nat (precision - i)) o in
    let o := puts end_ (rev tmp) o in
    pad end_ 32 (Z.to_nat size) o.

(** The flags after a percent sign. *)
Fixpoint get_flags (fmt : list Z) (flags : Z) : Z * list Z :=
  match fmt with
  | 45 :: fmt' => get_flags fmt' (Z.lor flags LEFT)
  | 43 :: fmt' => get_flags fmt' (Z.lor flags PLUS)
  | 32 :: fmt' => get_flags fmt' (Z.lor flags SPACE)
  | 35 :: fmt' => get_flags fmt' (Z.lor flags SPECIAL)
  | 48 :: fmt' => get_flags fmt' (Z.lor flags ZEROPAD)
  | _ => (flags, fmt)
  end.

Definition get_width (fmt : list Z) (flags : Z) (args : list arg) : outcome (Z * Z * list Z * list arg) :=
  if isdigit (cur fmt) then let '(w, fmt) := skip_atoi fmt 0 in Ret (w, flags, fmt, args)
  else if cur fmt =? 42 then
    '(w, args) ← va_int args;
    Ret (if s32 w <? 0 then (s32 (- s32 w), Z.lor flags LEFT, tail fmt, args) else (s32 w, flags, tail fmt, args))
  else Ret (-1, flags, fmt, args).

Definition get_precision (fmt : list Z) (args : list arg) : outcome (Z * list Z * list arg) :=
  if cur fmt =? 46 then
    let fmt := tail fmt in
    '(p, fmt, args) ←
      (if isdigit (cur fmt) then let '(p, fmt) := skip_atoi fmt 0 in Ret (p, fmt, args)
       else if cur fmt =? 42 then '(p, args) ← va_int args; Ret (s32 p, tail fmt, args)
       else Ret (-1, fmt, args));
    Ret (if p <? 0 then 0 else p, fmt, args)
  else Ret (-1, fmt, args).

(** 'h', 'l', 'L' or 'Z'; "ll" is 'L'. *)
Definition get_qualifier (fmt : list Z) : Z * list Z :=
  let q := cur fmt in
  if (q =? 104) || (q =? 108) || (q =? 76) || (q =? 90) then
    let fmt := tail fmt in
    if (q =? 108) && (cur fmt =? 108) then (76, tail fmt) else (q, fmt)
  else (-1, fmt).

(** The number a conversion takes, as the 64-bit value handed to [number]. *)
Definition get_number (qualifier flags : Z) (args : list arg) : outcome (Z * list arg) :=
  if qualifier =? 76 then '(n, args) ← va_longlong args; Ret (s64 n, args)
  else
    '(n, args) ← va_int args;
    let signed := has flags SIGN in
    Ret (if qualifier =? 90 then s32 n
         else if qualifier =? 104 then (if signed then (u16 n + 32768) mod 65536 - 32768 else u16 n)
         else if signed then s32 n else u32 n, args).

(** The state of the formatter: the sink, the arguments left and the stores of %n. *)
Record printer := Printer { out : sink; rest : list arg; stores : list (Z * Z) }.

(** [while (--field_width > 0)] and [while (len < field_width--)] *)
Definition put_char (end_ : Z) (flags width c : Z) (o : sink) : sink :=
  let '(o, width) := if negb (has flags LEFT) then (pad end_ 32 (Z.to_nat (width - 1)) o, Z.min (width - 1) 0) else (o, width) in
  let o := put end_ (u8 c) o in
  pad end_ 32 (Z.to_nat (width - 1)) o.

Definition null_text : list Z := [60; 78; 85; 76; 76; 62].

Definition put_string (end_ : Z) (flags width precision : Z) (s : option (list Z)) (o : sink) : sink :=
  let s := match s with Some s => s | None => null_text end in
  let len := strnlen s precision in
  let '(o, width) := if negb (has flags LEFT) then (pad end_ 32 (Z.to_nat (width - len)) o, Z.min width len - 1) else (o, width) in
  let o := puts end_ (take (Z.to_nat len) s) o in
  pad end_ 32 (Z.to_nat (width - len)) o.

(** One conversion, after the percent sign: the format left is what the loop goes
    on with. *)
Definition convert (a end_ : Z) (fmt : list Z) (p : printer) : outcome (printer * list Z) :=
  let '(flags, fmt) := get_flags fmt 0 in
  '(width, flags, fmt, args) ← get_width fmt flags (rest p);
  '(precision, fmt, args) ← get_precision fmt args;
  let '(qualifier, fmt) := get_qualifier fmt in
  let c := cur fmt in
  let fmt' := tail fmt in
  let integer flags base :=
    '(num, args) ← get_number qualifier flags args;
    Ret (Printer (number end_ num base width precision flags (out p)) args (stores p), fmt') in
  if c =? 99 then '(n, args) ← va_int args; Ret (Printer (put_char end_ flags width n (out p)) args (stores p), fmt')
  else if c =? 115 then '(s, args) ← va_str args; Ret (Printer (put_string end_ flags width precision s (out p)) args (stores p), fmt')
  else if c =? 112 then
    '(n, args) ← va_int args;
    let '(width, flags) := if width =? -1 then (8, Z.lor flags ZEROPAD) else (width, flags) in
    Ret (Printer (number end_ (u32 n) 16 width precision flags (out p)) args (stores p), fmt')
  else if c =? 110 then '(ip, args) ← va_int args; Ret (Printer (out p) args (stores p ++ [(ip, s32 (str (out p) - a))]), fmt')
  else if c =? 37 then Ret (Printer (put end_ 37 (out p)) args (stores p), fmt')
  else if c =? 111 then integer flags 8
  else if c =? 88 then integer (Z.lor flags LARGE) 16
  else if c =? 120 then integer flags 16
  else if (c =? 100) || (c =? 105) then integer (Z.lor flags SIGN) 10
  else if c =? 117 then integer flags 10
  else
    let o := put end_ 37 (out p) in
    match fmt with
    | [] => Ret (Printer o args (stores p), [])
    | _ => Ret (Printer (put end_ c o) args (stores p), fmt')
    end.

Fixpoint format_loop (fuel : nat) (a end_ : Z) (fmt : list Z) (p : printer) : outcome printer :=
  match fuel with
  | O => OutOfFuel
  | S fuel' =>
      match fmt with
      | [] => Ret p
      | c :: fmt' =>
          if negb (c =? 37) then format_loop fuel' a end_ fmt' (Printer (put end_ c (out p)) (rest p) (stores p))
          else
            '(p, fmt) ← convert a end_ fmt' p;
            format_loop fuel' a end_ fmt p
      end
  end.

(** The length the text has, the memory and the stores of %n.  [size] is an [int]. *)
Definition vsnprintf (m : Z -> Z) (buf size : Z) (fmt : list Z) (args : list arg) : outcome (Z * (Z -> Z) * list (Z * Z)) :=
  let end_ := u32 (buf + size - 1) in
  let '(end_, size) := if end_ <? u32 (buf - 1) then (4294967295, s32 (4294967295 - buf + 1)) else (end_, size) in
  p ← format_loop (S (length fmt)) buf end_ fmt (Printer (Sink m buf) args []);
  let o := out p in
  let m := if str o <=? end_ then poke (bytes o) (str o) 0 else if 0 <? size then poke (bytes o) end_ 0 else bytes o in
  Ret (s32 (str o - buf), m, stores p).

(** [snprintf], and [vsprintf] and [sprintf__] with a size that never limits. *)
Definition snprintf := vsnprintf.
Definition vsprintf (m : Z -> Z) (buf : Z) (fmt : list Z) (args : list arg) := vsnprintf m buf (s32 0xFFFFFFFF) fmt args.

(** *** The text a format describes

    [render] is the text as a list, with no buffer; [Count] is a %n. *)

Inductive item : Type :=
  | Text (cs : list Z)
  | Count (ip : Z).

Definition blanks (n : Z) : list Z := replicate (Z.to_nat n) 32.
Definition zeros (n : Z) : list Z := replicate (Z.to_nat n) 48.
Definition len (cs : list Z) : Z := Z.of_nat (length cs).

Definition justify (flags width : Z) (cs : list Z) : list Z :=
  if has flags LEFT then cs ++ blanks (width - len cs) else blanks (width - len cs) ++ cs.

Definition string_text (flags width precision : Z) (s : option (list Z)) : list Z :=
  let s := default null_text s in justify flags width (take (Z.to_nat (strnlen s precision)) s).

Definition sign_text (flags num : Z) : list Z :=
  if has flags SIGN then
    if num <? 0 then [45] else if has flags PLUS then [43] else if has flags SPACE then [32] else []
  else [].

Definition prefix_text (flags base : Z) : list Z :=
  if has flags SPECIAL then
    if base =? 8 then [48] else if base =? 16 then [48; digit (has flags LARGE) 33] else []
  else [].

Definition digits_text (large : bool) (num base : Z) : list Z :=
  if num =? 0 then [48] else rev (digits_of 64 large num base).

Definition number_text (num base width precision flags : Z) : list Z :=
  let ds := digits_text (has flags LARGE) (if has flags SIGN then Z.abs num else u64 num) base in
  let head := sign_text flags num ++ prefix_text flags base in
  let body := zeros (precision - len ds) ++ ds in
  let fill := width - len head - len body in
  if has flags LEFT then head ++ body ++ blanks fill
  else if has flags ZEROPAD then head ++ zeros fill ++ body
  else blanks fill ++ head ++ body.

Definition convert_item (fmt : list Z) (args : list arg) : outcome (item * list arg * list Z) :=
  let '(flags, fmt) := get_flags fmt 0 in
  '(width, flags, fmt, args) ← get_width fmt flags args;
  '(precision, fmt, args) ← get_precision fmt args;
  let '(qualifier, fmt) := get_qualifier fmt in
  let c := cur fmt in
  let fmt' := tail fmt in
  let integer flags base :=
    '(num, args) ← get_number qualifier flags args;
    Ret (Text (number_text num base width precision flags), args, fmt') in
  if c =? 99 then '(n, args) ← va_int args; Ret (Text (justify flags width [u8 n]), args, fmt')
  else if c =? 115 then '(s, args) ← va_str args; Ret (Text (string_text flags width precision s), args, fmt')
  else if c =? 112 then
    '(n, args) ← va_int args;
    let '(width, flags) := if width =? -1 then (8, Z.lor flags ZEROPAD) else (width, flags) in
    Ret (Text (number_text (u32 n) 16 width precision flags), args, fmt')
  else if c =? 110 then '(ip, args) ← va_int args; Ret (Count ip, args, fmt')
  else if c =? 37 then Ret (Text [37], args, fmt')
  else if c =? 111 then integer flags 8
  else if c =? 88 then integer (Z.lor flags LARGE) 16
  else if c =? 120 then integer flags 16
  else if (c =? 100) || (c =? 105) then integer (Z.lor flags SIGN) 10
  else if c =? 117 then integer flags 10
  else match fmt with [] => Ret (Text [37], args, []) | _ => Ret (Text [37; c], args, fmt') end.

Fixpoint render_loop (fuel : nat) (fmt : list Z) (args : list arg) : outcome (list item) :=
  match fuel with
  | O => OutOfFuel
  | S fuel' =>
      match fmt with
      | [] => Ret []
      | c :: fmt' =>
          if negb (c =? 37) then its ← render_loop fuel' fmt' args; Ret (Text [c] :: its)
          else
            '(it, args, fmt) ← convert_item fmt' args;
            its ← render_loop fuel' fmt args;
            Ret (it :: its)
      end
  end.

Definition render (fmt : list Z) (args : list arg) : outcome (list item) := render_loop (S (length fmt)) fmt args.

Fixpoint text_of (its : list item) : list Z :=
  match its with
  | [] => []
  | Text cs :: its' => cs ++ text_of its'
  | Count _ :: its' => text_of its'
  end.

(** The stores of %n: the length of the text before each. *)
Fixpoint counts_of (n : Z) (its : list item) : list (Z * Z) :=
  match its with
  | [] => []
  | Text cs :: its' => counts_of (n + len cs) its'
  | Count ip :: its' => (ip, n) :: counts_of n its'
  end.

(** *** Emitting text *)

Lemma emit_app end_ cs ds o : puts end_ (cs ++ ds) o = puts end_ ds (puts end_ cs o).
Proof. revert o. induction cs as [|c cs IH]; intros o; [done|]. apply IH. Qed.

Lemma pad_puts end_ c n o : pad end_ c n o = puts end_ (replicate n c) o.
Proof. revert o. induction n as [|n IH]; intros o; [done|]. apply IH. Qed.

Lemma put_puts end_ c o : put end_ c o = puts end_ [c] o.
Proof. done. Qed.

Lemma has_lor t a b : has t (Z.lor a b) = has t a || has t b.
Proof.
  unfold has, truthy. rewrite Z.land_lor_distr_r.
  destruct (Z.eqb_spec (Z.lor (Z.land t a) (Z.land t b)) 0) as [E|E]; rewrite Z.lor_eq_0_iff in E;
    destruct (Z.eqb_spec (Z.land t a) 0), (Z.eqb_spec (Z.land t b) 0); simpl; try done; tauto.
Qed.

(** Clearing a flag keeps the others. *)
Lemma has_clear t a b : has (Z.land t a) b = has t (Z.land a b).
Proof. unfold has. by rewrite Z.land_assoc. Qed.

Create Rewrite HintDb emit.
#[local] Hint Rewrite pad_puts put_puts : emit.
#[local] Hint Rewrite <- emit_app : emit.

Lemma replicate_nonpos {A} n (c : A) : n <= 0 -> replicate (Z.to_nat n) c = [].
Proof. intros. by replace (Z.to_nat n) with O by lia. Qed.

Lemma strnlen_bound s count : 0 <= strnlen s count <= Z.of_nat (length s).
Proof.
  revert count. induction s as [|c s IH]; intros count; [done|]. cbn [strnlen length].
  destruct (Z.eqb_spec count 0); [lia|]. specialize (IH (count - 1)). lia.
Qed.

Lemma put_char_emits end_ flags width c o : put_char end_ flags width c o = puts end_ (justify flags width [u8 c]) o.
Proof.
  unfold put_char, justify, blanks, len. cbn [length]. change (Z.of_nat 1) with 1.
  destruct (has flags LEFT); cbn [negb]; autorewrite with emit; f_equal.
  rewrite (replicate_nonpos (Z.min _ _ - 1)) by lia. by rewrite app_nil_r.
Qed.

Lemma put_string_emits end_ flags width precision s o :
  put_string end_ flags width precision s o = puts end_ (string_text flags width precision s) o.
Proof.
  unfold put_string, string_text, justify, blanks, default, from_option, id. set (t := match s with Some s => s | None => _ end).
  pose proof (strnlen_bound t precision) as Hb.
  assert (len (take (Z.to_nat (strnlen t precision)) t) = strnlen t precision) as -> by (unfold len; rewrite length_take; lia).
  destruct (has flags LEFT); cbn [negb]; autorewrite with emit; f_equal.
  rewrite (replicate_nonpos (Z.min _ _ - 1 - _)) by lia. by rewrite app_nil_r.
Qed.

(** Clearing ZEROPAD under LEFT, as [number] sees the flags. *)
Lemma number_flags type b :
  Z.land (Z.lnot ZEROPAD) b = b ->
  has (if has type LEFT then Z.land type (Z.lnot ZEROPAD) else type) b = has type b.
Proof. intros E. destruct (has type LEFT); [|done]. by rewrite has_clear, E. Qed.

Lemma number_zeropad type :
  has (if has type LEFT then Z.land type (Z.lnot ZEROPAD) else type) ZEROPAD = negb (has type LEFT) && has type ZEROPAD.
Proof. destruct (has type LEFT); [|done]. rewrite has_clear. unfold has. by rewrite Z.land_0_r. Qed.

Lemma number_sign_ok num size type type' :
  -9223372036854775808 <= num < 9223372036854775808 ->
  (forall b, Z.land (Z.lnot ZEROPAD) b = b -> has type b = has type' b) ->
  exists sign num', number_sign num size type = (sign, num', size - len (sign_text type' num)) /\
    sign_text type' num = (if truthy sign then [sign] else []) /\
    (num' =? 0) = ((if has type' SIGN then Z.abs num else u64 num) =? 0) /\
    u64 num' = (if has type' SIGN then Z.abs num else u64 num).
Proof.
  intros Hn Ht. unfold number_sign, sign_text. rewrite !Ht by done. unfold u64, s64, len.
  destruct (has type' SIGN), (Z.ltb_spec num 0), (has type' PLUS), (has type' SPACE); do 2 eexists;
    (split; [cbn [length]; f_equal; lia|split; [done|split]]);
    repeat match goal with |- context [?a =? ?b] => destruct (Z.eqb_spec a b) end; try done;
    Z.to_euclidean_division_equations; lia.
Qed.

Lemma len_app cs ds : len (cs ++ ds) = len cs + len ds.
Proof. unfold len. rewrite length_app. lia. Qed.

Lemma len_zeros n : len (zeros n) = Z.max n 0.
Proof. unfold len, zeros. rewrite length_replicate. lia. Qed.

Lemma prefix_len flags base size :
  base = 8 \/ base = 10 \/ base = 16 ->
  (if has flags SPECIAL then (if base =? 16 then size - 2 else if base =? 8 then size - 1 else size) else size)
  = size - len (prefix_text flags base).
Proof.
  intros H. unfold prefix_text. destruct (has flags SPECIAL); [|unfold len; simpl; lia].
  destruct H as [-> | [-> | ->]]; unfold len; simpl; lia.
Qed.

Lemma prefix_emits end_ flags base o :
  (if has flags SPECIAL then
     if base =? 8 then put end_ 48 o
     else if base =? 16 then put end_ (digit (has flags LARGE) 33) (put end_ 48 o)
     else o
   else o) = puts end_ (prefix_text flags base) o.
Proof. unfold prefix_text. by destruct (has flags SPECIAL), (base =? 8), (base =? 16). Qed.

(** The two ways [number] counts the width left for padding agree. *)
Lemma number_emits end_ num base width precision flags o :
  base = 8 \/ base = 10 \/ base = 16 -> -9223372036854775808 <= num < 9223372036854775808 ->
  number end_ num base width precision flags o = puts end_ (number_text num base width precision flags) o.
Proof.
  intros Hbase Hnum. unfold number.
  set (type := if has flags LEFT then _ else flags).
  assert ((base <? 2) || (36 <? base) = false) as -> by (destruct Hbase as [-> | [-> | ->]]; done).
  destruct (number_sign_ok num width type flags) as (sign & num' & -> & Hsign & Hz & Hu); [done|by intros; apply number_flags|].
  change (ZEROPAD + LEFT) with (Z.lor ZEROPAD LEFT). rewrite has_lor. unfold type.
  rewrite number_zeropad, !number_flags by done. clear type.
  unfold number_text. set (n := if has flags SIGN then Z.abs num else u64 num) in *.
  rewrite Hz, Hu. set (tmp := if n =? 0 then [48] else _).
  assert (digits_text (has flags LARGE) n base = rev tmp) as -> by (unfold digits_text, tmp; by destruct (n =? 0)).
  rewrite prefix_len, !len_app, len_zeros by done.
  assert (len (rev tmp) = Z.of_nat (length tmp)) as -> by (unfold len; by rewrite length_rev).
  set (i := Z.of_nat (length tmp)). set (P := if precision <? i then i else precision).
  assert (P = Z.max (precision - i) 0 + i) as HP by (unfold P; zcases; lia).
  assert (zeros (precision - i) = zeros (P - i)) as -> by (unfold zeros; f_equal; lia).
  rewrite <- HP. clearbody P i tmp n. clear Hz Hu HP.
  assert (forall o, (if truthy sign then put end_ sign o else o) = puts end_ (sign_text flags num) o) as Hs.
  { intros. rewrite Hsign. by destruct (truthy sign). }
  unfold blanks, zeros.
  set (S := sign_text flags num). set (X := prefix_text flags base).
  replace (width - (len S + len X) - P) with (width - len S - len X - P) by lia. set (fill := width - len S - len X - P).
  destruct (has flags LEFT), (has flags ZEROPAD); cbn [negb andb orb]; rewrite Hs, prefix_emits; autorewrite with emit; f_equal;
    rewrite ?(replicate_nonpos (Z.min _ _ - 1)) by lia; by rewrite ?app_assoc, ?app_nil_r.
Qed.

(** *** The formatter emits the text of [render] *)

Definition emit (a end_ : Z) (it : item) (args : list arg) (p : printer) : printer :=
  match it with
  | Text cs => Printer (puts end_ cs (out p)) args (stores p)
  | Count ip => Printer (out p) args (stores p ++ [(ip, s32 (str (out p) - a))])
  end.

Lemma get_number_range qualifier flags args n args' :
  get_number qualifier flags args = Ret (n, args') -> -9223372036854775808 <= n < 9223372036854775808.
Proof.
  unfold get_number. destruct (qualifier =? 76).
  - destruct args as [|[] args]; intros [= <- <-]. unfold s64. Z.to_euclidean_division_equations; lia.
  - destruct args as [|[] args]; cbn [va_int mbind outcome_bind]; try discriminate. intros [= <- <-].
    unfold s32, u16, u32. destruct (qualifier =? 90), (qualifier =? 104), (has flags SIGN); Z.to_euclidean_division_equations; lia.
Qed.

(** [convert] is [convert_item] followed by [emit]. *)
Lemma convert_emits a end_ fmt p :
  convert a end_ fmt p =
  '(it, args, fmt) ← convert_item fmt (rest p); Ret (emit a end_ it args p, fmt).
Proof.
  unfold convert, convert_item. destruct (get_flags fmt 0) as [flags fmt1].
  destruct (get_width fmt1 flags (rest p)) as [[[[width flags'] fmt2] args]| |]; [|done|done].
  cbn [mbind outcome_bind]. destruct (get_precision fmt2 args) as [[[precision fmt3] args']| |]; [|done|done].
  cbn [mbind outcome_bind]. destruct (get_qualifier fmt3) as [qualifier fmt4].
  assert (forall flags base, base = 8 \/ base = 10 \/ base = 16 ->
    ('(num, args) ← get_number qualifier flags args';
     Ret (Printer (number end_ num base width precision flags (out p)) args (stores p), tail fmt4)) =
    '(it, args, fmt) ← ('(num, args) ← get_number qualifier flags args';
       Ret (Text (number_text num base width precision flags), args, tail fmt4)); Ret (emit a end_ it args p, fmt)) as Hint.
  { intros fl base Hb. destruct (get_number qualifier fl args') as [[n args'']| |] eqn:E; [|done|done].
    cbn [mbind outcome_bind emit]. rewrite number_emits; [done|done|by eapply get_number_range]. }
  repeat match goal with |- context [if ?b then _ else _] => lazymatch b with
    | _ || _ => destruct b | cur fmt4 =? _ => destruct b end end;
    try (apply Hint; auto); try done.
  - destruct args' as [|[] args']; try done. cbn [va_int mbind outcome_bind emit]. by rewrite put_char_emits.
  - destruct args' as [|[] args']; try done. cbn [va_str mbind outcome_bind emit]. by rewrite put_string_emits.
  - destruct args' as [|[m| |] args']; try done. cbn [va_int mbind outcome_bind]. pose proof (u32_bound m).
    destruct (width =? -1); cbn [mbind outcome_bind emit]; rewrite number_emits by lia; done.
  - by destruct args' as [|[] args'].
  - by destruct fmt4.
Qed.

Fixpoint emits (a end_ : Z) (its : list item) (o : sink) (st : list (Z * Z)) : sink * list (Z * Z) :=
  match its with
  | [] => (o, st)
  | Text cs :: its' => emits a end_ its' (puts end_ cs o) st
  | Count ip :: its' => emits a end_ its' o (st ++ [(ip, s32 (str o - a))])
  end.

Lemma format_loop_emits fuel a end_ fmt p :
  match render_loop fuel fmt (rest p) with
  | Ret its => exists args, format_loop fuel a end_ fmt p =
      let '(o, st) := emits a end_ its (out p) (stores p) in Ret (Printer o args st)
  | Fault => format_loop fuel a end_ fmt p = Fault
  | OutOfFuel => format_loop fuel a end_ fmt p = OutOfFuel
  end.
Proof.
  revert fmt p. induction fuel as [|fuel IH]; intros fmt p; [done|].
  destruct fmt as [|c fmt]; cbn [render_loop format_loop].
  { exists (rest p). by destruct p. }
  destruct (c =? 37); cbn [negb].
  - rewrite convert_emits. destruct (convert_item fmt (rest p)) as [[[it args] fmt']| |]; [|done|done].
    cbn [mbind outcome_bind]. specialize (IH fmt' (emit a end_ it args p)).
    replace (rest (emit a end_ it args p)) with args in IH by by destruct it.
    destruct (render_loop fuel fmt' args) as [its| |]; [|done|done]. cbn [mbind outcome_bind].
    destruct it; exact IH.
  - specialize (IH fmt (Printer (put end_ c (out p)) (rest p) (stores p))). cbn [rest] in IH.
    by destruct (render_loop fuel fmt (rest p)).
Qed.

(** *** The formatter ends *)

Lemma get_flags_length fmt flags : (length (get_flags fmt flags).2 <= length fmt)%nat.
Proof.
  revert flags. induction fmt as [|c fmt IH]; intros flags; [done|].
  cbn [get_flags]. repeat case_match; cbn [snd]; try (etransitivity; [apply IH|]); cbn [length]; lia.
Qed.

Lemma skip_atoi_length s i : (length (skip_atoi s i).2 <= length s)%nat.
Proof.
  revert i. induction s as [|c s IH]; intros i; [done|]. cbn [skip_atoi]. destruct (isdigit c); [|done].
  etransitivity; [apply IH|]. cbn [length]. lia.
Qed.

Lemma tail_length {A} (l : list A) : (length (tail l) <= length l)%nat.
Proof. destruct l; simpl; lia. Qed.

(** [shrinks k n r]: the result [r] does not run out of fuel and leaves a format of at most [n] bytes. *)
Definition shrinks {A} (k : A -> list Z) (n : nat) (r : outcome A) : Prop :=
  match r with Ret a => (length (k a) <= n)%nat | Fault => True | OutOfFuel => False end.

Lemma get_width_shrinks fmt flags args : shrinks (fun r => r.1.2) (length fmt) (get_width fmt flags args).
Proof.
  unfold get_width. destruct (isdigit (cur fmt)).
  { pose proof (skip_atoi_length fmt 0). destruct (skip_atoi fmt 0). simpl in *. lia. }
  destruct (cur fmt =? 42); [|simpl; lia]. destruct args as [|[] args]; try done. cbn [va_int mbind outcome_bind].
  case_match; apply tail_length.
Qed.

Lemma get_precision_shrinks fmt args : shrinks (fun r => r.1.2) (length fmt) (get_precision fmt args).
Proof.
  unfold get_precision. destruct (cur fmt =? 46); [|simpl; lia]. pose proof (tail_length fmt).
  destruct (isdigit (cur (tail fmt))).
  { pose proof (skip_atoi_length (tail fmt) 0). destruct (skip_atoi (tail fmt) 0). simpl in *. lia. }
  destruct (cur (tail fmt) =? 42); [|simpl; lia]. destruct args as [|[] args]; try done. cbn.
  pose proof (tail_length (tail fmt)). lia.
Qed.

Lemma get_qualifier_length fmt : (length (get_qualifier fmt).2 <= length fmt)%nat.
Proof.
  unfold get_qualifier. pose proof (tail_length fmt). pose proof (tail_length (tail fmt)).
  repeat case_match; simpl; lia.
Qed.

Lemma convert_item_shrinks fmt args : shrinks (fun r => r.2) (length fmt) (convert_item fmt args).
Proof.
  unfold convert_item. pose proof (get_flags_length fmt 0). destruct (get_flags fmt 0) as [flags fmt1]. simpl in *.
  pose proof (get_width_shrinks fmt1 flags args) as Hw. destruct (get_width fmt1 flags args) as [[[[width fl] fmt2] args2]| |]; try done.
  cbn [mbind outcome_bind]. simpl in Hw.
  pose proof (get_precision_shrinks fmt2 args2) as Hp. destruct (get_precision fmt2 args2) as [[[precision fmt3] args3]| |]; try done.
  cbn [mbind outcome_bind]. simpl in Hp.
  pose proof (get_qualifier_length fmt3). destruct (get_qualifier fmt3) as [qualifier fmt4]. simpl in *.
  pose proof (tail_length fmt4).
  assert (forall flags base, shrinks (fun r => r.2) (length fmt) ('(num, args) ← get_number qualifier flags args3;
     Ret (Text (number_text num base width precision flags), args, tail fmt4))) as Hint.
  { intros. unfold get_number. destruct (qualifier =? 76), args3 as [|[] args3]; try done; simpl; lia. }
  repeat match goal with |- context [if ?b then _ else _] => lazymatch b with
    | _ || _ => destruct b | cur fmt4 =? _ => destruct b end end; try apply Hint.
  5: simpl; lia.
  5: { destruct fmt4; simpl in *; lia. }
  all: destruct args3 as [|[] args3]; try done; cbn; try lia.
  destruct (width =? -1); simpl; lia.
Qed.

Lemma render_loop_ends fuel fmt args : (length fmt < fuel)%nat -> render_loop fuel fmt args <> OutOfFuel.
Proof.
  revert fmt args. induction fuel as [|fuel IH]; intros fmt args Hf; [lia|].
  destruct fmt as [|c fmt]; cbn [render_loop]; [done|]. simpl in Hf. destruct (c =? 37); cbn [negb].
  - pose proof (convert_item_shrinks fmt args) as Hc. destruct (convert_item fmt args) as [[[it args'] fmt']| |]; try done.
    simpl in Hc. cbn [mbind outcome_bind]. specialize (IH fmt' args').
    destruct (render_loop fuel fmt' args'); try done. apply IH. lia.
  - specialize (IH fmt args). destruct (render_loop fuel fmt args); try done. apply IH. lia.
Qed.

(** *** The buffer *)

Lemma puts_str end_ cs o :
  0 <= str o -> str o + len cs < 4294967296 -> str (puts end_ cs o) = str o + len cs.
Proof.
  revert o. induction cs as [|c cs IH]; intros o Ho Hl; unfold len in *; cbn [length] in *; [simpl; lia|].
  cbn [puts]. rewrite IH; cbn [put str]; rewrite u32_small by lia; lia.
Qed.

Lemma puts_bytes end_ cs o x :
  0 <= str o -> str o + len cs < 4294967296 ->
  bytes (puts end_ cs o) x =
  if (str o <=? x) && (x <? str o + len cs) && (x <=? end_) then nth (Z.to_nat (x - str o)) cs 0 else bytes o x.
Proof.
  revert o. induction cs as [|c cs IH]; intros o Ho Hl; unfold len in *; cbn [length] in *.
  { cbn [puts]. zcases; simpl; done || lia. }
  cbn [puts]. rewrite IH; cbn [put str bytes]; rewrite u32_small by lia; [|lia|lia]. unfold poke.
  zcases; cbn [andb]; try lia; subst; try done.
  - replace (Z.to_nat (x - str o)) with (S (Z.to_nat (x - (str o + 1)))) by lia. done.
  - by rewrite Z.sub_diag.
Qed.

Lemma text_emits a end_ its o st :
  0 <= a <= str o -> str o + len (text_of its) < 4294967296 -> str o - a + len (text_of its) < 2147483648 ->
  emits a end_ its o st = (puts end_ (text_of its) o, st ++ counts_of (str o - a) its).
Proof.
  revert o st. induction its as [|[cs|ip] its IH]; intros o st Ha Hb Hs; cbn [emits text_of counts_of] in *.
  - by rewrite app_nil_r.
  - rewrite len_app in *. pose proof (Nat2Z.is_nonneg (length cs)). pose proof (Nat2Z.is_nonneg (length (text_of its))).
    unfold len in *. rewrite IH; rewrite ?puts_str; unfold len; try lia.
    rewrite emit_app. do 3 f_equal. lia.
  - rewrite IH by done. pose proof (Nat2Z.is_nonneg (length (text_of its))). unfold len in *.
    rewrite s32_small by lia. by rewrite <- app_assoc.
Qed.

(** Memory with as much of [text] as fits in the buffer, and its terminator. *)
Definition clip (m : Z -> Z) (buf size : Z) (text : list Z) (x : Z) : Z :=
  let n := Z.min (len text) (size - 1) in
  if size <=? 0 then m x
  else if x =? buf + n then 0
  else if (buf <=? x) && (x <? buf + n) then nth (Z.to_nat (x - buf)) text 0
  else m x.

Lemma vsnprintf_text m buf size fmt args its :
  0 < buf -> 0 <= size -> buf + size <= 4294967296 -> render fmt args = Ret its ->
  buf + len (text_of its) < 4294967296 -> len (text_of its) < 2147483648 ->
  exists m', vsnprintf m buf size fmt args = Ret (len (text_of its), m', counts_of 0 its) /\
    forall x, m' x = clip m buf size (text_of its) x.
Proof.
  intros Hb Hs Hbs Hr Ht Hl. unfold vsnprintf. rewrite !u32_small by lia.
  destruct (Z.ltb_spec (buf + size - 1) (buf - 1)); [lia|].
  set (end_ := buf + size - 1). set (p := Printer (Sink m buf) args []).
  pose proof (format_loop_emits (S (length fmt)) buf end_ fmt p) as Hf. cbn [rest p] in Hf.
  unfold render in Hr. rewrite Hr in Hf. destruct Hf as [args' Hf].
  rewrite text_emits in Hf by (cbn [str out p]; lia). cbn [str out stores p] in Hf. rewrite Z.sub_diag in Hf.
  rewrite Hf. cbn [mbind outcome_bind out stores].
  set (cs := text_of its) in *. clearbody cs. pose proof (Nat2Z.is_nonneg (length cs)) as Hlen. fold (len cs) in Hlen.
  rewrite puts_str by (cbn [str]; lia). cbn [str]. eexists. split.
  { rewrite s32_small by lia. repeat f_equal. lia. }
  intros x. pose proof (puts_bytes end_ cs (Sink m buf) x) as Hx. cbn [str bytes] in Hx.
  specialize (Hx ltac:(lia) ltac:(lia)). unfold clip, poke.
  destruct (Z.leb_spec (buf + len cs) end_); [|destruct (Z.ltb_spec 0 size)]; cbv beta; rewrite ?Hx; subst end_;
    zcases; cbn [andb]; first [done|lia].
Qed.

(** [vsnprintf] stores exactly the text of [render], whatever the
    conversions, widths and precisions: as much of it as the size allows followed
    by a NUL, every byte outside the buffer (and the whole memory when the size is
    0) as it was; it returns the length of the whole text and %n stores the
    length of the text before it.  It faults only when an argument is missing or of the wrong kind,
    and it always ends. *)
Theorem vsnprintf_renders m buf size fmt args :
  0 < buf -> 0 <= size -> buf + size <= 4294967296 ->
  match render fmt args with
  | Ret its =>
      buf + len (text_of its) < 4294967296 -> len (text_of its) < 2147483648 ->
      exists m', vsnprintf m buf size fmt args = Ret (len (text_of its), m', counts_of 0 its) /\
        forall x, m' x = clip m buf size (text_of its) x
  | Fault => vsnprintf m buf size fmt args = Fault
  | OutOfFuel => False
  end.
Proof.
  intros Hb Hs Hbs. destruct (render fmt args) as [its| |] eqn:Hr.
  - intros. by apply vsnprintf_text.
  - unfold vsnprintf. case_match. pose proof (format_loop_emits (S (length fmt)) buf z fmt (Printer (Sink m buf) args [])) as Hf.
    cbn [rest] in Hf. unfold render in Hr. rewrite Hr in Hf. by rewrite Hf.
  - apply (render_loop_ends (S (length fmt)) fmt args); [lia|done].
Qed.

(** A field of width 6, clipped to four characters. *)
Lemma vsnprintf_renders_witness :
  exists m', vsnprintf (fun _ => 1) 1000 5 [37; 48; 54; 100; 33] [AInt (-42)] = Ret (7, m', []) /\
    map m' [999; 1000; 1001; 1002; 1003; 1004; 1005] = [1; 45; 48; 48; 48; 0; 1].
Proof.
  pose proof (vsnprintf_renders (fun _ => 1) 1000 5 [37; 48; 54; 100; 33] [AInt (-42)]
    ltac:(lia) ltac:(lia) ltac:(lia)) as H.
  assert (render [37; 48; 54; 100; 33] [AInt (-42)] = Ret [Text [45; 48; 48; 48; 52; 50]; Text [33]]) as E by (vm_compute; reflexivity).
  rewrite E in H. destruct (H ltac:(vm_compute; reflexivity) ltac:(vm_compute; reflexivity)) as (m' & Hr & Hm).
  exists m'. split; [exact Hr|]. simpl. rewrite !Hm. reflexivity.
Defined.

(** *** Reading numbers back *)

Lemma digit_reads large d :
  0 <= d < 16 -> isxdigit (digit large d) = true /\ digit_value (digit large d) = d.
Proof.
  intros Hd.
  assert (isxdigit (digit large d) && (digit_value (digit large d) =? d) = true) as H.
  { revert d Hd. apply (forall_range (fun d => isxdigit (digit large d) && (digit_value (digit large d) =? d)) 16).
    by destruct large; vm_compute. }
  by apply andb_true_iff in H as [? ?%Z.eqb_eq].
Qed.

Lemma strto_digits wrap fuel large num base k :
  2 <= base <= 16 -> 0 <= num < base ^ Z.of_nat fuel -> (forall z, 0 <= z <= num -> wrap z = z) ->
  strto_loop wrap (rev (digits_of fuel large num base) ++ k) base 0 = strto_loop wrap k base num.
Proof.
  intros Hb. revert num k. induction fuel as [|fuel IH]; intros num k Hn Hw.
  { simpl in *. by replace num with 0 by lia. }
  cbn [digits_of]. destruct (Z.eqb_spec num 0) as [->|Hnz]; [done|]. cbn [rev]. rewrite <- app_assoc.
  rewrite Nat2Z.inj_succ, Z.pow_succ_r in Hn by lia.
  assert (0 <= num mod base < base /\ num = base * (num / base) + num mod base) as [Hm Hd].
  { split; [apply Z.mod_pos_bound; lia|apply Z.div_mod; lia]. }
  assert (0 <= num / base <= num) as Hq by (split; [apply Z.div_pos; lia|apply Z.div_le_upper_bound; nia]).
  assert (num / base < base ^ Z.of_nat fuel) by (apply Z.div_lt_upper_bound; lia).
  rewrite IH; [|lia|intros; apply Hw; lia]. cbn [app strto_loop].
  destruct (digit_reads large (num mod base)) as [-> ->]; [lia|]. destruct (Z.ltb_spec (num mod base) base); [|lia].
  cbn [andb]. f_equal. rewrite Hw; lia.
Qed.

Lemma digits_of_length fuel large num base k :
  2 <= base -> 0 <= num < base ^ Z.of_nat k -> (length (digits_of fuel large num base) <= k)%nat.
Proof.
  intros Hb. revert num k. induction fuel as [|fuel IH]; intros num k Hn; [simpl; lia|].
  cbn [digits_of]. destruct (Z.eqb_spec num 0) as [->|Hnz]; [simpl; lia|].
  destruct k as [|k]; [simpl in Hn; lia|]. cbn [length]. rewrite Nat2Z.inj_succ, Z.pow_succ_r in Hn by lia.
  apply le_n_S, IH. split; [apply Z.div_pos; lia|apply Z.div_lt_upper_bound; lia].
Qed.

Lemma digits_text_reads wrap large num base :
  base = 8 \/ base = 10 \/ base = 16 -> 0 <= num < 4294967296 -> (forall z, 0 <= z < 4294967296 -> wrap z = z) ->
  strto_loop wrap (digits_text large num base) base 0 = (num, []) /\
  1 <= len (digits_text large num base) <= 11.
Proof.
  intros Hb Hn Hw. assert (2 <= base <= 16) as Hb' by lia.
  assert (4294967296 <= base ^ Z.of_nat 11) by (destruct Hb as [-> | [-> | ->]]; vm_compute; discriminate).
  assert (4294967296 <= base ^ Z.of_nat 64) by (destruct Hb as [-> | [-> | ->]]; vm_compute; discriminate).
  unfold digits_text, len. destruct (Z.eqb_spec num 0) as [->|Hnz].
  { split; [|simpl; lia]. destruct Hb as [-> | [-> | ->]]; cbn; by rewrite Hw. }
  split.
  - pose proof (strto_digits wrap 64 large num base []) as Hd. rewrite app_nil_r in Hd. apply Hd; [lia|lia|]. intros. apply Hw. lia.
  - rewrite length_rev. pose proof (digits_of_length 64 large num base 11). split; [|lia].
    change 64%nat with (S 63). cbn [digits_of]. destruct (Z.eqb_spec num 0); [lia|]. cbn [length]. lia.
Qed.

(** The string of [k] bytes at [buf]. *)
Definition string_at (m : Z -> Z) (buf k : Z) : list Z := map m (seqZ buf k).

Lemma string_at_clip m m' buf size text :
  0 < buf -> len text < size -> (forall x, m' x = clip m buf size text x) ->
  m' (buf + len text) = 0 /\ string_at m' buf (len text) = text.
Proof.
  intros Hb Hs Hm. pose proof (Nat2Z.is_nonneg (length text)). unfold len in *. split.
  { rewrite Hm. unfold clip, len. zcases; lia. }
  unfold string_at. apply list_eq. intros i. rewrite list_lookup_fmap.
  destruct (decide (i < length text)%nat) as [Hi|Hi].
  - rewrite lookup_seqZ_lt by lia. cbn [fmap option_fmap option_map]. rewrite Hm. unfold clip, len.
    zcases; cbn [andb]; try lia.
    replace (Z.to_nat (buf + Z.of_nat i - buf)) with i by lia.
    destruct (lookup_lt_is_Some_2 text i Hi) as [c Hc]. rewrite Hc. by rewrite (nth_lookup_Some _ _ _ _ Hc).
  - rewrite lookup_seqZ_ge by lia. by rewrite lookup_ge_None_2 by lia.
Qed.

(** A conversion with nothing around it. *)
Lemma render_integer c flags base n :
  (c, flags, base) ∈ [(111, 0, 8); (117, 0, 10); (120, 0, 16); (100, SIGN, 10)] ->
  render [37; c] [AInt n] = Ret [Text (number_text (if has flags SIGN then s32 n else u32 n) base (-1) (-1) flags)].
Proof. rewrite !elem_of_cons, elem_of_nil. intros [[= -> -> ->]|[[= -> -> ->]|[[= -> -> ->]|[[= -> -> ->]|[]]]]]; reflexivity. Qed.

Lemma number_text_plain num base flags :
  flags = 0 \/ flags = SIGN -> number_text num base (-1) (-1) flags =
  sign_text flags num ++ digits_text false (if has flags SIGN then Z.abs num else u64 num) base.
Proof.
  intros Hf. unfold number_text. assert (has flags LARGE = false /\ prefix_text flags base = [] /\ has flags LEFT = false /\
    has flags ZEROPAD = false) as (-> & -> & -> & ->) by (by destruct Hf as [-> | ->]).
  set (ds := digits_text _ _ _). pose proof (Nat2Z.is_nonneg (length ds)). fold (len ds) in *.
  assert (zeros (-1 - len ds) = []) as -> by (apply replicate_nonpos; lia).
  rewrite app_nil_r. cbn [app]. set (h := sign_text flags num). pose proof (Nat2Z.is_nonneg (length h)). fold (len h) in *.
  assert (blanks (-1 - len h - len ds) = []) as -> by (apply replicate_nonpos; lia). done.
Qed.

(** One piece of text that fits. *)
Lemma vsnprintf_string m buf size fmt args text :
  0 < buf -> buf + size <= 4294967296 -> render fmt args = Ret [Text text] -> len text < size -> len text < 2147483648 ->
  exists m', vsnprintf m buf size fmt args = Ret (len text, m', []) /\ m' (buf + len text) = 0 /\
    string_at m' buf (len text) = text.
Proof.
  intros Hb Hbs Hr Hs Hl. pose proof (Nat2Z.is_nonneg (length text)). fold (len text) in *.
  assert (text_of [Text text] = text) as E by (cbn [text_of]; apply app_nil_r).
  destruct (vsnprintf_text m buf size fmt args _ Hb ltac:(lia) Hbs Hr) as (m' & Hv & Hm); rewrite E in *; [lia|lia|].
  destruct (string_at_clip m m' buf size text Hb Hs Hm) as [Hz Hat]. by exists m'.
Qed.

(** A number printed with %o, %u or %x is read back by [simple_strtoul] in
    the base of the conversion, for every 32-bit value and every buffer of at least 12 bytes. *)
Theorem snprintf_strtoul m buf size c base n :
  0 < buf -> 12 <= size -> buf + size <= 4294967296 ->
  (c, base) ∈ [(111, 8); (117, 10); (120, 16)] -> 0 <= n < 4294967296 ->
  exists k m', snprintf m buf size [37; c] [AInt n] = Ret (k, m', []) /\ k < size /\ m' (buf + k) = 0 /\
    simple_strtoul (string_at m' buf k) base = (n, []).
Proof.
  intros Hb Hs Hbs Hc Hn.
  assert ((base = 8 \/ base = 10 \/ base = 16) /\ (c, 0, base) ∈ [(111, 0, 8); (117, 0, 10); (120, 0, 16); (100, SIGN, 10)])
    as [Hbase Hc'].
  { revert Hc. rewrite !elem_of_cons, !elem_of_nil. intros [[= -> ->]|[[= -> ->]|[[= -> ->]|[]]]]; auto 6. }
  pose proof (render_integer c 0 base n Hc') as Hr. cbn [has] in Hr. change (has 0 SIGN) with false in Hr. cbv iota in Hr.
  rewrite number_text_plain, u32_small in Hr by auto. change (has 0 SIGN) with false in Hr.
  assert (sign_text 0 n = []) as E by done. rewrite E in Hr. cbv iota in Hr. cbn [app] in Hr.
  assert (u64 n = n) as E' by (unfold u64; apply Z.mod_small; lia). rewrite E' in Hr.
  destruct (digits_text_reads u32 false n base) as [Hd Hl]; [done|done|apply u32_small|].
  destruct (vsnprintf_string m buf size [37; c] [AInt n] _ Hb Hbs Hr ltac:(lia) ltac:(lia)) as (m' & Hv & Hz & Hat).
  exists (len (digits_text false n base)), m'. split; [exact Hv|]. split; [lia|]. split; [exact Hz|].
  rewrite Hat. unfold simple_strtoul, strto_base. destruct (Z.eqb_spec base 0); [lia|exact Hd].
Qed.

Lemma snprintf_strtoul_witness :
  exists k m', snprintf (fun _ => 1) 1000 12 [37; 120] [AInt 3735928559] = Ret (k, m', []) /\ k < 12 /\
    m' (1000 + k) = 0 /\ simple_strtoul (string_at m' 1000 k) 16 = (3735928559, []).
Proof. apply (snprintf_strtoul (fun _ => 1) 1000 12 120 16 3735928559); [lia|lia|lia|by_decide|lia]. Defined.

Lemma digits_text_head large num base :
  base = 8 \/ base = 10 \/ base = 16 -> 0 <= num < 4294967296 -> forall cs, digits_text large num base <> 45 :: cs.
Proof.
  intros Hb Hn cs E. destruct (digits_text_reads u32 large num base) as [Hd _]; [done|done|apply u32_small|].
  rewrite E in Hd. cbn in Hd. discriminate.
Qed.

(** [simple_strtol] without a minus sign. *)
Lemma simple_strtol_plain cs base :
  (forall cs', cs <> 45 :: cs') -> simple_strtol cs base = (s32 (simple_strtoul cs base).1, (simple_strtoul cs base).2).
Proof.
  intros H. unfold simple_strtol. destruct cs as [|c cs]; [by destruct (simple_strtoul _ _)|].
  destruct (decide (c = 45)) as [->|Hc]; [by destruct (H cs)|].
  repeat case_match; first [done | congruence].
Qed.

(** C27: A number printed with %d into a buffer of at least 13 bytes is stored whole and
    terminated, and [simple_strtol] in base 10 reads it back, for every [int]. *)
Theorem snprintf_strtol m buf size n :
  0 < buf -> 13 <= size -> buf + size <= 4294967296 -> -2147483648 <= n < 2147483648 ->
  exists k m', snprintf m buf size [37; 100] [AInt n] = Ret (k, m', []) /\ k < size /\ m' (buf + k) = 0 /\
    simple_strtol (string_at m' buf k) 10 = (n, []).
Proof.
  intros Hb Hs Hbs Hn. pose proof (render_integer 100 SIGN 10 n ltac:(by_decide)) as Hr.
  change (has SIGN SIGN) with true in Hr. cbv iota in Hr. rewrite s32_small, number_text_plain in Hr by auto.
  change (has SIGN SIGN) with true in Hr. cbv iota in Hr.
  destruct (digits_text_reads u32 false (Z.abs n) 10) as [Hd Hl]; [auto|lia|apply u32_small|].
  assert (len (sign_text SIGN n ++ digits_text false (Z.abs n) 10) < 13) as Hlt.
  { rewrite len_app. unfold sign_text. destruct (n <? 0); simpl; unfold len in *; simpl; lia. }
  destruct (vsnprintf_string m buf size [37; 100] [AInt n] _ Hb Hbs Hr ltac:(lia) ltac:(lia)) as (m' & Hv & Hz & Hat).
  eexists _, m'. split; [exact Hv|]. split; [lia|]. split; [exact Hz|]. rewrite Hat.
  assert (simple_strtoul (digits_text false (Z.abs n) 10) 10 = (Z.abs n, [])) as Hu by exact Hd.
  unfold sign_text. change (has SIGN SIGN) with true. change (has SIGN PLUS) with false. change (has SIGN SPACE) with false. cbv iota.
  destruct (Z.ltb_spec n 0); cbn [app].
  - unfold simple_strtol. rewrite Hu. rewrite Z.abs_neq, Z.opp_involutive, s32_small by lia. done.
  - rewrite simple_strtol_plain, Hu by (apply digits_text_head; [auto|lia]). cbn [fst snd].
    rewrite Z.abs_eq, s32_small by lia. done.
Qed.

Lemma snprintf_strtol_witness :
  exists k m', snprintf (fun _ => 1) 1000 13 [37; 100] [AInt (-2147483648)] = Ret (k, m', []) /\ k < 13 /\
    m' (1000 + k) = 0 /\ simple_strtol (string_at m' 1000 k) 10 = (-2147483648, []).
Proof. apply (snprintf_strtol (fun _ => 1) 1000 13 (-2147483648)); lia. Defined.

End Vsprintf.
