(* ===== verification/VsprintfSpec.v ===== *)
(** * What a format string means ([kernel/src/vsprintf.c])

    A format is written down as a list of pieces: characters and conversions with their
    flags, width, precision, length modifier and argument.  [print] is the format string,
    [pargs] the arguments of the call and [text] the text it stands for; none of them uses the
    parser or the number routines of [vsprintf.c].  [vsnprintf] of the printed format is shown
    to store the text. *)

From stdpp Require Import base numbers list.
From S2P Require Import Prelude Vsprintf.

Module VsprintfSpec.
Import Vsprintf.

(** ** Pieces *)

Inductive flag := Minus | Plus | Space | Hash | Zero.
#[global] Instance flag_eq_dec : EqDecision flag.
Proof. solve_decision. Defined.

Inductive width := NoWidth | Width (n : Z) | StarWidth (w : Z).
Inductive precision := NoPrecision | Dot | Precision (n : Z) | StarPrecision (p : Z).
Inductive modifier := Int | Short | Long | LongLong | BigL.
Inductive conversion := Decimal | Integer | Octal | Hex | HexUpper | Unsigned.

Record field := Field { flags : list flag; columns : width; prec : precision }.

Inductive piece :=
  | Char (c : Z)                                                (* a character of the format *)
  | Percent                                                     (* %% *)
  | Number (f : field) (l : modifier) (k : conversion) (v : Z)  (* %d %i %o %x %X %u *)
  | Character (f : field) (v : Z)                               (* %c *)
  | Text_ (f : field) (s : option (list Z))                     (* %s, None for NULL *)
  | Pointer (f : field) (v : Z)                                 (* %p *)
  | Written (ip : Z).                                           (* %n *)

(** ** Digits *)

Definition digit_char (large : bool) (d : Z) : Z := if d <? 10 then 48 + d else if large then 55 + d else 87 + d.

Fixpoint numeral_loop (fuel : nat) (large : bool) (base n : Z) : list Z :=
  match fuel with
  | O => []
  | S fuel' => if n <? base then [digit_char large n] else numeral_loop fuel' large base (n / base) ++ [digit_char large (n mod base)]
  end.

(** The numeral of a number below 2^64. *)
Definition numeral (large : bool) (base n : Z) : list Z := numeral_loop 64 large base n.

(** ** The format string and the arguments *)

Definition flag_char (f : flag) : Z := match f with Minus => 45 | Plus => 43 | Space => 32 | Hash => 35 | Zero => 48 end.
Definition print_width (w : width) : list Z := match w with NoWidth => [] | Width n => numeral false 10 n | StarWidth _ => [42] end.
Definition print_precision (p : precision) : list Z :=
  match p with NoPrecision => [] | Dot => [46] | Precision n => 46 :: numeral false 10 n | StarPrecision _ => [46; 42] end.
Definition print_modifier (l : modifier) : list Z := match l with Int => [] | Short => [104] | Long => [108] | LongLong => [108; 108] | BigL => [76] end.
Definition conversion_char (k : conversion) : Z := match k with Decimal => 100 | Integer => 105 | Octal => 111 | Hex => 120 | HexUpper => 88 | Unsigned => 117 end.

Definition print_field (f : field) : list Z := map flag_char (flags f) ++ print_width (columns f) ++ print_precision (prec f).

Definition print (p : piece) : list Z :=
  match p with
  | Char c => [c]
  | Percent => [37; 37]
  | Number f l k _ => 37 :: print_field f ++ print_modifier l ++ [conversion_char k]
  | Character f _ => 37 :: print_field f ++ [99]
  | Text_ f _ => 37 :: print_field f ++ [115]
  | Pointer f _ => 37 :: print_field f ++ [112]
  | Written _ => [37; 110]
  end.

Definition wargs (w : width) : list arg := match w with StarWidth w => [AInt w] | _ => [] end.
Definition fargs (p : precision) : list arg := match p with StarPrecision p => [AInt p] | _ => [] end.
Definition field_args (f : field) : list arg := wargs (columns f) ++ fargs (prec f).

Definition pargs (p : piece) : list arg :=
  match p with
  | Char _ | Percent => []
  | Number f l _ v => field_args f ++ [match l with LongLong | BigL => ALongLong v | _ => AInt v end]
  | Character f v | Pointer f v => field_args f ++ [AInt v]
  | Text_ f s => field_args f ++ [AStr s]
  | Written ip => [AInt ip]
  end.

(** ** The text *)

Definition flagged (f : field) (x : flag) : bool := bool_decide (x ∈ flags f).
Definition left_justified (f : field) : bool := flagged f Minus || match columns f with StarWidth w => w <? 0 | _ => false end.
Definition min_width (f : field) : Z := match columns f with NoWidth => 0 | Width n => n | StarWidth w => Z.abs w end.
Definition min_digits (f : field) : Z := match prec f with NoPrecision | Dot => 0 | Precision n => n | StarPrecision p => Z.max p 0 end.
Definition max_chars (f : field) : option Z := match prec f with NoPrecision => None | Dot => Some 0 | Precision n => Some n | StarPrecision p => Some (Z.max p 0) end.

Definition spaces (n : Z) : list Z := replicate (Z.to_nat n) 32.
Definition noughts (n : Z) : list Z := replicate (Z.to_nat n) 48.

Definition justified (left : bool) (width : Z) (cs : list Z) : list Z :=
  let fill := spaces (width - Z.of_nat (length cs)) in if left then cs ++ fill else fill ++ cs.

(** The value an integer conversion prints, from the argument. *)
Definition signed (k : conversion) : bool := match k with Decimal | Integer => true | _ => false end.
Definition base_of (k : conversion) : Z := match k with Octal => 8 | Hex | HexUpper => 16 | _ => 10 end.
Definition value (l : modifier) (k : conversion) (v : Z) : Z :=
  if signed k then match l with Short => (v + 32768) mod 65536 - 32768 | _ => v end
  else match l with Short => v mod 65536 | Int | Long => v mod 4294967296 | _ => v mod 18446744073709551616 end.

(** Sign, prefix, zeros up to the precision, digits, and what fills the width. *)
Definition layout (left plus space hash zero : bool) (width digits base : Z) (large sgn : bool) (v : Z) : list Z :=
  let sign := if sgn then (if v <? 0 then [45] else if plus then [43] else if space then [32] else []) else [] in
  let prefix := if hash then (if base =? 8 then [48] else if base =? 16 then [48; if large then 88 else 120] else []) else [] in
  let ds := numeral large base (Z.abs v) in
  let body := noughts (digits - Z.of_nat (length ds)) ++ ds in
  let fill := width - Z.of_nat (length (sign ++ prefix)) - Z.of_nat (length body) in
  if left then (sign ++ prefix) ++ body ++ spaces fill
  else if zero then (sign ++ prefix) ++ noughts fill ++ body
  else spaces fill ++ (sign ++ prefix) ++ body.

Definition text (p : piece) : list Z :=
  match p with
  | Char c => [c]
  | Percent => [37]
  | Number f l k v =>
      layout (left_justified f) (flagged f Plus) (flagged f Space) (flagged f Hash) (flagged f Zero) (min_width f) (min_digits f)
        (base_of k) (match k with HexUpper => true | _ => false end) (signed k) (value l k v)
  | Character f v => justified (left_justified f) (min_width f) [v mod 256]
  | Text_ f s =>
      let cs := match s with Some cs => cs | None => [60; 78; 85; 76; 76; 62] end in
      justified (left_justified f) (min_width f) (match max_chars f with Some n => take (Z.to_nat n) cs | None => cs end)
  | Pointer f v =>
      let bare := match columns f with NoWidth => true | _ => false end in
      layout (left_justified f) (flagged f Plus) (flagged f Space) (flagged f Hash) (bare || flagged f Zero) (if bare then 8 else min_width f) (min_digits f)
        16 false false (v mod 4294967296)
  | Written _ => []
  end.

(** The stores of %n: the length of the text before each. *)
Fixpoint written (n : Z) (ps : list piece) : list (Z * Z) :=
  match ps with
  | [] => []
  | Written ip :: ps' => (ip, n) :: written n ps'
  | p :: ps' => written (n + Z.of_nat (length (text p))) ps'
  end.

(** ** Formats that can be written *)

Definition width_ok (w : width) : Prop := match w with NoWidth => True | Width n => 1 <= n < 2147483648 | StarWidth w => -2147483648 < w < 2147483648 end.
Definition precision_ok (p : precision) : Prop :=
  match p with NoPrecision | Dot => True | Precision n => 0 <= n < 2147483648 | StarPrecision p => -2147483648 <= p < 2147483648 end.
Definition field_ok (f : field) : Prop := width_ok (columns f) /\ precision_ok (prec f).
Definition argument_ok (l : modifier) (k : conversion) (v : Z) : Prop :=
  signed k = true -> match l with LongLong | BigL => -9223372036854775808 <= v < 9223372036854775808 | _ => -2147483648 <= v < 2147483648 end.

Definition piece_ok (p : piece) : Prop :=
  match p with
  | Char c => c <> 37
  | Number f l k v => field_ok f /\ argument_ok l k v
  | Character f _ | Text_ f _ | Pointer f _ => field_ok f
  | Percent | Written _ => True
  end.

(** ** Digits and decimal numbers *)

Lemma digit_char_ok large d : 0 <= d < 16 -> digit large d = digit_char large d.
Proof.
  intros Hd. assert ((digit large d =? digit_char large d) = true) as H; [|by apply Z.eqb_eq].
  revert d Hd. apply (forall_range (fun d => digit large d =? digit_char large d) 16). by destruct large; vm_compute.
Qed.

Lemma digits_of_zero fuel large base : digits_of fuel large 0 base = [].
Proof. by destruct fuel. Qed.

Lemma numeral_loop_ok fuel large base : forall n, 2 <= base <= 16 -> 0 < n < base ^ Z.of_nat fuel ->
  numeral_loop fuel large base n = rev (digits_of fuel large n base).
Proof.
  induction fuel as [|fuel IH]; intros n Hb Hn; [simpl in Hn; lia|]. cbn [numeral_loop digits_of].
  rewrite Nat2Z.inj_succ, Z.pow_succ_r in Hn by lia. rewrite (proj2 (Z.eqb_neq n 0)) by lia. cbn [rev].
  destruct (Z.ltb_spec n base) as [Hlt|Hge].
  - rewrite Z.div_small, Z.mod_small, digits_of_zero, digit_char_ok by lia. done.
  - rewrite IH, digit_char_ok; [done|pose proof (Z.mod_pos_bound n base); lia|lia|].
    split; [apply Z.div_str_pos; lia|apply Z.div_lt_upper_bound; lia].
Qed.

Lemma numeral_ok large base n : base = 8 \/ base = 10 \/ base = 16 -> 0 <= n < 18446744073709551616 -> digits_text large n base = numeral large base n.
Proof.
  intros Hb Hn. unfold digits_text, numeral. destruct (Z.eqb_spec n 0) as [->|Hz].
  - cbn [numeral_loop]. rewrite (proj2 (Z.ltb_lt 0 base)) by lia. by destruct large.
  - symmetry. apply numeral_loop_ok; [lia|]. split; [lia|]. apply (Z.lt_le_trans _ _ _ (proj2 Hn)). destruct Hb as [-> | [-> | ->]]; vm_compute; discriminate.
Qed.

Lemma isdigit_char c : 0 <= c < 256 -> isdigit c = (48 <=? c) && (c <=? 57).
Proof.
  intros Hc. assert (Bool.eqb (isdigit c) ((48 <=? c) && (c <=? 57)) = true) as H; [|by apply Bool.eqb_prop].
  revert c Hc. apply (forall_range (fun c => Bool.eqb (isdigit c) ((48 <=? c) && (c <=? 57))) 256). by vm_compute.
Qed.

Definition no_digit (r : list Z) : Prop := isdigit (cur r) = false.

Lemma skip_atoi_stop r i : no_digit r -> skip_atoi r i = (i, r).
Proof. intros H. destruct r as [|c r]; [done|]. unfold no_digit in H. cbn [cur] in H. cbn [skip_atoi]. by rewrite H. Qed.

(** Reading a numeral back; [k] is read on after it. *)
Lemma skip_atoi_numeral fuel : forall n k, 0 <= n < 10 ^ Z.of_nat fuel -> n < 2147483648 ->
  skip_atoi (numeral_loop fuel false 10 n ++ k) 0 = skip_atoi k n.
Proof.
  assert (forall d k i, 0 <= d < 10 -> 0 <= i -> i * 10 + d < 2147483648 -> skip_atoi (digit_char false d :: k) i = skip_atoi k (i * 10 + d)) as Hone.
  { intros d k i Hd Hi Hb. unfold digit_char. rewrite (proj2 (Z.ltb_lt d 10)) by lia. cbn [skip_atoi]. rewrite isdigit_char by lia.
    rewrite (proj2 (Z.leb_le 48 (48 + d))), (proj2 (Z.leb_le (48 + d) 57)) by lia. cbn [andb]. rewrite s32_small by lia. f_equal. lia. }
  induction fuel as [|fuel IH]; intros n k Hn Hs; [simpl in Hn; replace n with 0 by lia; done|]. cbn [numeral_loop].
  rewrite Nat2Z.inj_succ, Z.pow_succ_r in Hn by lia. destruct (Z.ltb_spec n 10); cbn [app]; [apply (Hone n k 0); lia|].
  pose proof (Z.div_mod n 10 ltac:(lia)). pose proof (Z.mod_pos_bound n 10 ltac:(lia)). rewrite <- app_assoc, IH; [|split; [apply Z.div_pos; lia|apply Z.div_lt_upper_bound; lia]|apply Z.div_lt_upper_bound; lia].
  cbn [app]. rewrite Hone by lia. f_equal. lia.
Qed.

Lemma numeral_reads n r : 0 <= n < 2147483648 -> no_digit r -> skip_atoi (numeral false 10 n ++ r) 0 = (n, r).
Proof.
  intros Hn Hr. unfold numeral. rewrite skip_atoi_numeral; [by apply skip_atoi_stop| |lia].
  split; [lia|]. apply (Z.lt_le_trans _ 2147483648); [lia|vm_compute; discriminate].
Qed.

(** The first digit of a numeral; it is not 0 for a positive number. *)
Lemma numeral_head fuel : forall n, 0 <= n < 10 ^ Z.of_nat fuel -> exists d t, 0 <= d < 10 /\ (0 < n -> 0 < d) /\ numeral_loop fuel false 10 n = 48 + d :: t \/ fuel = O.
Proof.
  induction fuel as [|fuel IH]; intros n Hn; [exists 0, []; by right|]. cbn [numeral_loop]. rewrite Nat2Z.inj_succ, Z.pow_succ_r in Hn by lia.
  destruct (Z.ltb_spec n 10).
  - exists n, []. left. unfold digit_char. rewrite (proj2 (Z.ltb_lt n 10)) by lia. split; [lia|]. done.
  - assert (0 < n / 10) as Hp by (apply Z.div_str_pos; lia). destruct (IH (n / 10)) as (d & t & [(Hd & Hpos & E)|E]); [split; [lia|apply Z.div_lt_upper_bound; lia]| |].
    + exists d, (t ++ [digit_char false (n mod 10)]). left. rewrite E. split; [done|]. split; [intros _; by apply Hpos|done].
    + subst fuel. simpl in Hn. lia.
Qed.

Lemma numeral_first n : 0 <= n < 2147483648 -> exists d t, 0 <= d < 10 /\ (0 < n -> 0 < d) /\ numeral false 10 n = 48 + d :: t.
Proof.
  intros Hn. destruct (numeral_head 64 n) as (d & t & [H|H]); [|by exists d, t|done].
  split; [lia|]. apply (Z.lt_le_trans _ 2147483648); [lia|vm_compute; discriminate].
Qed.

(** ** The parser on a printed field *)

Definition flag_bit (f : flag) : Z := match f with Minus => LEFT | Plus => PLUS | Space => SPACE | Hash => SPECIAL | Zero => ZEROPAD end.
Definition bits (fs : list flag) (acc : Z) : Z := foldl (fun a f => Z.lor a (flag_bit f)) acc fs.

Lemma has_lor_l a b x : has (Z.lor a b) x = has a x || has b x.
Proof. unfold has. rewrite !(Z.land_comm _ x). apply has_lor. Qed.

Lemma has_bits fs f0 b : (forall f, has (flag_bit f) b = bool_decide (f = f0)) -> forall acc, has (bits fs acc) b = has acc b || bool_decide (f0 ∈ fs).
Proof.
  intros Hb. induction fs as [|f fs IH]; intros acc; cbn [bits foldl]; [by rewrite bool_decide_eq_false_2, orb_false_r by apply not_elem_of_nil|].
  fold (bits fs (Z.lor acc (flag_bit f))). rewrite IH, has_lor_l, Hb, <- orb_assoc. f_equal.
  destruct (decide (f = f0)) as [->|Hne].
  - rewrite bool_decide_eq_true_2, (bool_decide_eq_true_2 (f0 ∈ f0 :: fs)) by (done || left). done.
  - rewrite bool_decide_eq_false_2 by done. cbn [orb]. apply bool_decide_ext. rewrite elem_of_cons. naive_solver.
Qed.

Lemma has_no_bits fs b : (forall f, has (flag_bit f) b = false) -> forall acc, has (bits fs acc) b = has acc b.
Proof.
  intros Hb. induction fs as [|f fs IH]; intros acc; [done|]. cbn [bits foldl]. fold (bits fs (Z.lor acc (flag_bit f))). by rewrite IH, has_lor_l, Hb, orb_false_r.
Qed.

Definition no_flag (r : list Z) : Prop := cur r <> 45 /\ cur r <> 43 /\ cur r <> 32 /\ cur r <> 35 /\ cur r <> 48.

Lemma get_flags_ok fs r : no_flag r -> forall acc, get_flags (map flag_char fs ++ r) acc = (bits fs acc, r).
Proof.
  intros Hr. induction fs as [|f fs IH]; intros acc; cbn [map app].
  - destruct r as [|c r]; [done|]. destruct Hr as (H1 & H2 & H3 & H4 & H5). cbn [cur] in *. cbn [get_flags bits foldl]. repeat case_match; congruence.
  - destruct f; cbn [flag_char get_flags]; apply IH.
Qed.

Definition width_value (w : width) : Z := match w with NoWidth => -1 | Width n => n | StarWidth w => Z.abs w end.
Definition width_flags (w : width) (F : Z) : Z := match w with StarWidth w => if w <? 0 then Z.lor F LEFT else F | _ => F end.

Lemma get_width_ok w F r args : width_ok w -> no_digit r -> cur r <> 42 ->
  get_width (print_width w ++ r) F (wargs w ++ args) = Ret (width_value w, width_flags w F, r, args).
Proof.
  intros Hw Hr H42. unfold get_width. destruct w as [|n|w]; cbn [print_width wargs app width_value width_flags width_ok] in *.
  - rewrite Hr, (proj2 (Z.eqb_neq _ _) H42). done.
  - destruct (numeral_first n) as (d & t & Hd & _ & E); [lia|]. rewrite E. cbn [app cur]. rewrite isdigit_char by lia.
    rewrite (proj2 (Z.leb_le 48 (48 + d))), (proj2 (Z.leb_le (48 + d) 57)) by lia. cbn [andb].
    change (48 + d :: t ++ r) with ((48 + d :: t) ++ r). rewrite <- E, numeral_reads by (done || lia). done.
  - cbn [cur tail va_int mbind outcome_bind]. change (isdigit 42) with false. cbn [Z.eqb Pos.eqb]. rewrite (s32_small w) by lia.
    destruct (Z.ltb_spec w 0); [rewrite s32_small by lia|]; do 5 f_equal; lia.
Qed.

Definition precision_value (p : precision) : Z := match p with NoPrecision => -1 | Dot => 0 | Precision n => n | StarPrecision p => Z.max p 0 end.

Lemma get_precision_ok p r args : precision_ok p -> no_digit r -> cur r <> 42 -> cur r <> 46 ->
  get_precision (print_precision p ++ r) (fargs p ++ args) = Ret (precision_value p, r, args).
Proof.
  intros Hp Hr H42 H46. unfold get_precision. destruct p as [| |n|p]; cbn [print_precision fargs app precision_value precision_ok] in *.
  - by rewrite (proj2 (Z.eqb_neq _ _) H46).
  - cbn [cur tail Z.eqb Pos.eqb]. rewrite Hr, (proj2 (Z.eqb_neq _ _) H42). done.
  - cbn [cur tail Z.eqb Pos.eqb]. destruct (numeral_first n) as (d & t & Hd & _ & E); [lia|]. rewrite E. cbn [app cur]. rewrite isdigit_char by lia.
    rewrite (proj2 (Z.leb_le 48 (48 + d))), (proj2 (Z.leb_le (48 + d) 57)) by lia. cbn [andb].
    change (48 + d :: t ++ r) with ((48 + d :: t) ++ r). rewrite <- E, numeral_reads by (done || lia). cbn [mbind outcome_bind].
    by rewrite (proj2 (Z.ltb_ge n 0)) by lia.
  - cbn [cur tail Z.eqb Pos.eqb]. change (isdigit 42) with false. cbn [va_int mbind outcome_bind tail]. rewrite (s32_small p) by lia.
    do 3 f_equal. destruct (Z.ltb_spec p 0); lia.
Qed.

(** What may follow a field. *)
Definition follows (r : list Z) : Prop := no_flag r /\ no_digit r /\ cur r <> 42 /\ cur r <> 46.

(** [convert_item] behind the field. *)
Definition finish (width precision flags : Z) (fmt : list Z) (args : list arg) : outcome (item * list arg * list Z) :=
  let '(qualifier, fmt) := get_qualifier fmt in
  let c := cur fmt in
  let fmt' := tail fmt in
  let integer flags base :=
    '(num, args) ← get_number qualifier flags args;
    Ret (Text (number_text num base width precision flags), args, fmt') in
  if c =? 99 then '(n, args) ← va_int args; Ret (Text (justify flags width [u8 n]), args, fmt')
  else if c =? 115 then '(s, args) ← va_str args; Ret (Text (string_text flags width precision s), args, fmt')
  else if c =? 112 then
    '(n, args) ← va_int args;
    let '(width, flags) := if width =? -1 then (8, Z.lor flags ZEROPAD) else (width, flags) in
    Ret (Text (number_text (u32 n) 16 width precision flags), args, fmt')
  else if c =? 110 then '(ip, args) ← va_int args; Ret (Count ip, args, fmt')
  else if c =? 37 then Ret (Text [37], args, fmt')
  else if c =? 111 then integer flags 8
  else if c =? 88 then integer (Z.lor flags LARGE) 16
  else if c =? 120 then integer flags 16
  else if (c =? 100) || (c =? 105) then integer (Z.lor flags SIGN) 10
  else if c =? 117 then integer flags 10
  else match fmt with [] => Ret (Text [37], args, []) | _ => Ret (Text [37; c], args, fmt') end.

(** The flags as the parser represents them. *)
Definition field_flags (f : field) : Z := width_flags (columns f) (bits (flags f) 0).

Lemma after_precision p r : follows r -> no_flag (print_precision p ++ r) /\ no_digit (print_precision p ++ r) /\ cur (print_precision p ++ r) <> 42.
Proof. intros ((? & ? & ? & ? & ?) & Hd & H42 & H46). by destruct p. Qed.

Lemma after_width w r : width_ok w -> no_flag r -> no_flag (print_width w ++ r).
Proof.
  intros Hw Hr. destruct w as [|n|w]; [done| |done]. cbn [print_width width_ok] in *. destruct (numeral_first n) as (d & t & Hd & Hp & ->); [lia|].
  cbn [app]. unfold no_flag. cbn [cur]. lia.
Qed.

Lemma field_parsed f r args : field_ok f -> follows r ->
  convert_item (print_field f ++ r) (field_args f ++ args) = finish (width_value (columns f)) (precision_value (prec f)) (field_flags f) r args.
Proof.
  intros [Hw Hp] Hr. unfold convert_item, print_field, field_args. rewrite <- !app_assoc.
  destruct (after_precision (prec f) r Hr) as (Hf & Hd & H42). destruct Hr as (_ & Hd' & H42' & H46).
  rewrite get_flags_ok by (by apply after_width). rewrite get_width_ok by done. cbn [mbind outcome_bind]. rewrite get_precision_ok by done. done.
Qed.

Lemma get_qualifier_ok l c k : c <> 104 -> c <> 108 -> c <> 76 -> c <> 90 ->
  get_qualifier (print_modifier l ++ c :: k) = (match l with Int => -1 | Short => 104 | Long => 108 | LongLong | BigL => 76 end, c :: k).
Proof.
  intros H1 H2 H3 H4. unfold get_qualifier. destruct l; cbn [print_modifier app cur tail Z.eqb Pos.eqb orb andb]; try done.
  - by rewrite (proj2 (Z.eqb_neq _ _) H1), (proj2 (Z.eqb_neq _ _) H2), (proj2 (Z.eqb_neq _ _) H3), (proj2 (Z.eqb_neq _ _) H4).
  - by rewrite (proj2 (Z.eqb_neq _ _) H2).
Qed.

Lemma get_qualifier_plain c k : c <> 104 -> c <> 108 -> c <> 76 -> c <> 90 -> get_qualifier (c :: k) = (-1, c :: k).
Proof. exact (get_qualifier_ok Int c k). Qed.

(** *** The flags *)

Record reads_flags (F : Z) (left plus space hash zero large sgn : bool) : Prop := {
  rf_left : has F LEFT = left;
  rf_plus : has F PLUS = plus;
  rf_space : has F SPACE = space;
  rf_hash : has F SPECIAL = hash;
  rf_zero : has F ZEROPAD = zero;
  rf_large : has F LARGE = large;
  rf_sign : has F SIGN = sgn
}.

Lemma field_flags_ok f :
  reads_flags (field_flags f) (left_justified f) (flagged f Plus) (flagged f Space) (flagged f Hash) (flagged f Zero) false false.
Proof.
  unfold field_flags, left_justified, flagged. set (F := bits (flags f) 0).
  assert (has F LEFT = bool_decide (Minus ∈ flags f)) as H1 by (unfold F; rewrite (has_bits _ Minus) by (by intros []); done).
  assert (has F PLUS = bool_decide (Plus ∈ flags f)) as H2 by (unfold F; rewrite (has_bits _ Plus) by (by intros []); done).
  assert (has F SPACE = bool_decide (Space ∈ flags f)) as H3 by (unfold F; rewrite (has_bits _ Space) by (by intros []); done).
  assert (has F SPECIAL = bool_decide (Hash ∈ flags f)) as H4 by (unfold F; rewrite (has_bits _ Hash) by (by intros []); done).
  assert (has F ZEROPAD = bool_decide (Zero ∈ flags f)) as H5 by (unfold F; rewrite (has_bits _ Zero) by (by intros []); done).
  assert (has F LARGE = false) as H6 by (unfold F; rewrite has_no_bits by (by intros []); done).
  assert (has F SIGN = false) as H7 by (unfold F; rewrite has_no_bits by (by intros []); done).
  destruct (columns f) as [|n|w]; cbn [width_flags]; [constructor; by rewrite ?orb_false_r..|].
  destruct (w <? 0); [|constructor; by rewrite ?orb_false_r].
  constructor; rewrite has_lor_l, ?H1, ?H2, ?H3, ?H4, ?H5, ?H6, ?H7; [done|by rewrite orb_false_r..].
Qed.

Lemma flags_sign F l p s h z lg : reads_flags F l p s h z lg false -> reads_flags (Z.lor F SIGN) l p s h z lg true.
Proof. intros [<- <- <- <- <- <- H]. constructor; rewrite has_lor_l; [by rewrite orb_false_r..|by rewrite orb_true_r]. Qed.

Lemma flags_large F l p s h z sg : reads_flags F l p s h z false sg -> reads_flags (Z.lor F LARGE) l p s h z true sg.
Proof. intros [<- <- <- <- <- H <-]. constructor; rewrite has_lor_l; [by rewrite orb_false_r..|by rewrite orb_true_r|by rewrite orb_false_r]. Qed.

Lemma flags_zero F l p s h z lg sg : reads_flags F l p s h z lg sg -> reads_flags (Z.lor F ZEROPAD) l p s h true lg sg.
Proof. intros [<- <- <- <- H <- <-]. constructor; rewrite has_lor_l; first [by rewrite orb_false_r|by rewrite orb_true_r]. Qed.

(** *** Text *)

Lemma spaces_neg a b : Z.max a 0 = Z.max b 0 -> spaces a = spaces b /\ noughts a = noughts b.
Proof. intros H. unfold spaces, noughts. by replace (Z.to_nat a) with (Z.to_nat b) by lia. Qed.

Lemma number_layout F left plus space hash zero large sgn num base W P width digits v :
  reads_flags F left plus space hash zero large sgn -> base = 8 \/ base = 10 \/ base = 16 ->
  (W = width \/ W = -1 /\ width = 0) -> (P = digits \/ P = -1 /\ digits = 0) ->
  (if sgn then num = v /\ -9223372036854775808 <= v < 9223372036854775808 else u64 num = v) ->
  number_text num base W P F = layout left plus space hash zero width digits base large sgn v.
Proof.
  intros [H1 H2 H3 H4 H5 H6 H7] Hb HW HP Hv. unfold number_text, layout, sign_text, prefix_text. rewrite H1, H2, H3, H4, H5, H6, H7.
  assert (0 <= Z.abs v < 18446744073709551616 /\ (if sgn then Z.abs num else u64 num) = Z.abs v /\ (sgn = true -> num = v)) as (Hr & -> & Hsg).
  { destruct sgn; [destruct Hv as [-> Hv]; split; [lia|done]|]. pose proof (Z.mod_pos_bound num 18446744073709551616 ltac:(lia)). unfold u64 in *. split; [lia|]. split; [lia|done]. }
  rewrite numeral_ok by done. set (ds := numeral large base (Z.abs v)).
  assert (zeros (P - len ds) = noughts (digits - Z.of_nat (length ds))) as -> by (apply spaces_neg; unfold len; lia).
  assert ((if sgn then if num <? 0 then [45] else if plus then [43] else if space then [32] else [] else []) =
          (if sgn then if v <? 0 then [45] else if plus then [43] else if space then [32] else [] else [])) as ->
    by (destruct sgn; [by rewrite Hsg|done]).
  assert ((if hash then if base =? 8 then [48] else if base =? 16 then [48; digit large 33] else [] else []) =
          (if hash then if base =? 8 then [48] else if base =? 16 then [48; if large then 88 else 120] else [] else [])) as -> by (by destruct large).
  set (head := _ ++ (if hash then _ else [])). set (body := noughts _ ++ ds). unfold len.
  assert (blanks (W - Z.of_nat (length head) - Z.of_nat (length body)) = spaces (width - Z.of_nat (length head) - Z.of_nat (length body)) /\
          zeros (W - Z.of_nat (length head) - Z.of_nat (length body)) = noughts (width - Z.of_nat (length head) - Z.of_nat (length body))) as [-> ->]
    by (apply spaces_neg; lia). done.
Qed.

Lemma justify_ok f F cs W : has F LEFT = left_justified f -> (W = min_width f \/ W = -1 /\ min_width f = 0) ->
  justify F W cs = justified (left_justified f) (min_width f) cs.
Proof.
  intros HF HW. unfold justify, justified. rewrite HF. assert (blanks (W - len cs) = spaces (min_width f - Z.of_nat (length cs))) as ->; [|done].
  apply spaces_neg. unfold len. lia.
Qed.

Lemma strnlen_take (s : list Z) : forall n, take (Z.to_nat (strnlen s n)) s = if n <? 0 then s else take (Z.to_nat n) s.
Proof.
  induction s as [|c s IH]; intros n; cbn [strnlen]; [by rewrite !take_nil; destruct (_ <? _)|].
  destruct (Z.eqb_spec n 0) as [->|Hn]; [done|]. pose proof (strnlen_bound s (n - 1)).
  replace (Z.to_nat (1 + strnlen s (n - 1))) with (S (Z.to_nat (strnlen s (n - 1)))) by lia. cbn [take]. rewrite IH.
  destruct (Z.ltb_spec (n - 1) 0), (Z.ltb_spec n 0); try lia; [done|]. by replace (Z.to_nat n) with (S (Z.to_nat (n - 1))) by lia.
Qed.

Lemma width_cases f : field_ok f -> width_value (columns f) = min_width f \/ width_value (columns f) = -1 /\ min_width f = 0.
Proof. intros [Hw _]. unfold min_width. destruct (columns f); cbn; auto. Qed.

Lemma digits_cases f : field_ok f -> precision_value (prec f) = min_digits f \/ precision_value (prec f) = -1 /\ min_digits f = 0.
Proof. intros [_ Hp]. unfold min_digits. destruct (prec f); cbn; auto. Qed.

(** *** Pieces *)

Definition item_of (p : piece) : item := match p with Written ip => Count ip | _ => Text (text p) end.

Lemma get_number_ok l k F v args : has F SIGN = signed k -> argument_ok l k v ->
  exists num, get_number (match l with Int => -1 | Short => 104 | Long => 108 | LongLong | BigL => 76 end) F
      (match l with LongLong | BigL => ALongLong v | _ => AInt v end :: args) = Ret (num, args) /\
    (if signed k then num = value l k v /\ -9223372036854775808 <= num < 9223372036854775808 else u64 num = value l k v).
Proof.
  intros HF Ha. unfold get_number, value, argument_ok in *. destruct l; cbn [Z.eqb Pos.eqb va_int va_longlong mbind outcome_bind]; rewrite ?HF; eexists; (split; [reflexivity|]);
    destruct (signed k); try specialize (Ha eq_refl); rewrite ?s32_small by lia; unfold u16, u32, u64, s64;
    try (split; [done || (Z.to_euclidean_division_equations; lia)|Z.to_euclidean_division_equations; lia]); Z.to_euclidean_division_equations; lia.
Qed.

Lemma number_finish f l k v rest args : field_ok f -> argument_ok l k v ->
  finish (width_value (columns f)) (precision_value (prec f)) (field_flags f) (print_modifier l ++ conversion_char k :: rest)
    (match l with LongLong | BigL => ALongLong v | _ => AInt v end :: args) = Ret (Text (text (Number f l k v)), args, rest).
Proof.
  intros Hf Ha. unfold finish. rewrite get_qualifier_ok by (by destruct k). cbn [cur tail].
  assert (forall F lg, reads_flags F (left_justified f) (flagged f Plus) (flagged f Space) (flagged f Hash) (flagged f Zero) lg (signed k) ->
    lg = match k with HexUpper => true | _ => false end ->
    ('(num, args) ← get_number (match l with Int => -1 | Short => 104 | Long => 108 | LongLong | BigL => 76 end) F
        (match l with LongLong | BigL => ALongLong v | _ => AInt v end :: args);
     Ret (Text (number_text num (base_of k) (width_value (columns f)) (precision_value (prec f)) F), args, rest)) =
    Ret (Text (text (Number f l k v)), args, rest)) as Hall.
  { intros F lg HF ->. destruct (get_number_ok l k F v args (rf_sign _ _ _ _ _ _ _ _ HF) Ha) as (num & -> & Hnum). cbn [mbind outcome_bind text]. do 3 f_equal.
    f_equal. apply (number_layout _ _ _ _ _ _ _ _ _ _ _ _ _ _ _ HF); [by destruct k; cbn; auto|by apply width_cases|by apply digits_cases|].
    destruct (signed k); [|done]. destruct Hnum as [-> Hb]. done. }
  pose proof (field_flags_ok f) as HF.
  destruct k; cbn [conversion_char Z.eqb Pos.eqb orb]; [apply (Hall _ false); [by apply flags_sign|done]|apply (Hall _ false); [by apply flags_sign|done]|
    by apply (Hall _ false)|by apply (Hall _ false)|apply (Hall _ true); [by apply flags_large|done]|by apply (Hall _ false)].
Qed.

Lemma follows_conversion l k rest : follows (print_modifier l ++ conversion_char k :: rest).
Proof. unfold follows, no_flag, no_digit. by destruct l, k. Qed.

Lemma follows_char c rest : c = 99 \/ c = 115 \/ c = 112 \/ c = 110 \/ c = 37 -> follows (c :: rest).
Proof. unfold follows, no_flag, no_digit. intros [-> | [-> | [-> | [-> | ->]]]]; done. Qed.

Lemma piece_rendered p fmt rest args : piece_ok p -> print p = 37 :: fmt ->
  convert_item (fmt ++ rest) (pargs p ++ args) = Ret (item_of p, args, rest).
Proof.
  destruct p as [c| |f l k v|f v|f s|f v|ip]; cbn [piece_ok print pargs item_of]; intros Hok [= Hfmt]; subst; try done; rewrite <- !app_assoc.
  - destruct Hok as [Hf Ha]. rewrite field_parsed by (done || apply follows_conversion). by apply number_finish.
  - rewrite field_parsed by (done || (apply follows_char; auto)). unfold finish. cbn [app]. rewrite (get_qualifier_plain 99) by done.
    cbn [cur tail app Z.eqb Pos.eqb va_int mbind outcome_bind text]. by rewrite (justify_ok f) by (apply width_cases, Hok || apply (rf_left _ _ _ _ _ _ _ _ (field_flags_ok f))).
  - rewrite field_parsed by (done || (apply follows_char; auto)). unfold finish. cbn [app]. rewrite (get_qualifier_plain 115) by done.
    cbn [cur tail app Z.eqb Pos.eqb va_str mbind outcome_bind text]. unfold string_text. rewrite (justify_ok f) by (apply width_cases, Hok || apply (rf_left _ _ _ _ _ _ _ _ (field_flags_ok f))).
    rewrite strnlen_take. unfold default, from_option, id, null_text. set (cs := match s with Some x => x | None => _ end). do 4 f_equal. destruct Hok as [_ Hp]. unfold max_chars.
    destruct (prec f) as [| |n|n]; cbn [precision_value precision_ok] in *; try done; rewrite (proj2 (Z.ltb_ge _ _)) by lia; done.
  - rewrite field_parsed by (done || (apply follows_char; auto)). unfold finish. cbn [app]. rewrite (get_qualifier_plain 112) by done.
    cbn [cur tail app Z.eqb Pos.eqb va_int mbind outcome_bind text]. pose proof (field_flags_ok f) as HF.
    assert (u64 (u32 v) = v mod 4294967296) as Hu by (unfold u64, u32; Z.to_euclidean_division_equations; lia).
    destruct (columns f) as [|n|w] eqn:Ec; cbn [width_value].
    + cbn [Z.eqb Pos.eqb]. do 3 f_equal. f_equal. apply (number_layout _ _ _ _ _ _ _ _ _ _ _ _ _ _ _ (flags_zero _ _ _ _ _ _ _ _ HF)); auto. by apply digits_cases.
    + destruct Hok as [Hw Hp]. pose proof Hw as Hw'. rewrite Ec in Hw'. cbn in Hw'. rewrite (proj2 (Z.eqb_neq n (-1))) by lia. do 3 f_equal. f_equal. cbn [orb].
      apply (number_layout _ _ _ _ _ _ _ _ _ _ _ _ _ _ _ HF); auto; [left; unfold min_width; by rewrite Ec|by apply digits_cases].
    + destruct Hok as [Hw Hp]. rewrite (proj2 (Z.eqb_neq (Z.abs w) (-1))) by lia. do 3 f_equal. f_equal. cbn [orb].
      apply (number_layout _ _ _ _ _ _ _ _ _ _ _ _ _ _ _ HF); auto; [left; unfold min_width; by rewrite Ec|by apply digits_cases].
Qed.

Lemma format_rendered ps : forall fuel, Forall piece_ok ps -> (length (concat (map print ps)) < fuel)%nat ->
  render_loop fuel (concat (map print ps)) (concat (map pargs ps)) = Ret (map item_of ps).
Proof.
  induction ps as [|p ps IH]; intros [|fuel] Hok Hf; [lia|done|lia|]. apply Forall_cons in Hok as [Hp Hok]. cbn [map concat] in *. rewrite length_app in Hf.
  assert ((exists c, p = Char c) \/ exists fmt, print p = 37 :: fmt) as [[c ->]|[fmt E]] by (destruct p; cbn; eauto).
  - cbn [print pargs app length piece_ok item_of text] in *. cbn [render_loop]. rewrite (proj2 (Z.eqb_neq _ _) Hp). cbn [negb]. by rewrite IH by (done || lia).
  - rewrite E in *. cbn [app length] in *. cbn [render_loop Z.eqb Pos.eqb negb]. rewrite (piece_rendered p fmt _ _ Hp E). cbn [mbind outcome_bind]. by rewrite IH by (done || lia).
Qed.

Lemma text_items ps : text_of (map item_of ps) = concat (map text ps).
Proof. induction ps as [|p ps IH]; [done|]. cbn [map concat]. rewrite <- IH. by destruct p. Qed.

Lemma counts_items ps : forall n, counts_of n (map item_of ps) = written n ps.
Proof. induction ps as [|p ps IH]; intros n; [done|]. destruct p; cbn [map item_of counts_of written]; unfold len; by rewrite IH. Qed.

(** C14: [vsnprintf] stores the text its format describes.  For every format made of
    characters and of the conversions %d %i %o %x %X %u (plain or with h, l, ll or L), %c, %s, %p,
    %n and %%, with any flags, a width and a precision given as numbers or as arguments, and
    for every argument of the type of its conversion: as much of the text as the size
    allows is stored at [buf], followed by a NUL, every byte outside the buffer (and the
    whole memory when the size is 0) is as it was, the length of the whole text is
    returned, and %n stores the length of the text before it.  The text must be shorter than
    2^31 characters and end inside the address space; the modifier Z, conversion
    characters that do not exist and arguments of the wrong type are not covered. *)
Theorem vsnprintf_formats m buf size ps :
  let cs := concat (map text ps) in
  0 < buf -> 0 <= size -> buf + size <= 4294967296 -> Forall piece_ok ps ->
  buf + Z.of_nat (length cs) < 4294967296 -> Z.of_nat (length cs) < 2147483648 ->
  exists m', vsnprintf m buf size (concat (map print ps)) (concat (map pargs ps)) = Ret (Z.of_nat (length cs), m', written 0 ps) /\
    (size = 0 -> forall x, m' x = m x) /\
    (0 < size -> let n := Z.min (Z.of_nat (length cs)) (size - 1) in
       m' (buf + n) = 0 /\ (forall i, 0 <= i < n -> cs !! Z.to_nat i = Some (m' (buf + i))) /\
       forall x, x < buf \/ buf + n < x -> m' x = m x).
Proof.
  intros cs Hb Hs Hbs Hok Ht Hl. pose proof (format_rendered ps _ Hok (Nat.lt_succ_diag_r _)) as Hr.
  destruct (vsnprintf_text m buf size _ _ _ Hb Hs Hbs Hr) as (m' & E & Hm); rewrite text_items in *; [done|done|]. fold cs in E, Hm. rewrite counts_items in E.
  exists m'. split; [exact E|]. unfold clip, len in Hm. split.
  - intros -> x. by rewrite Hm.
  - intros Hpos n. fold n in Hm. rewrite (proj2 (Z.leb_gt size 0)) in Hm by lia. split; [by rewrite Hm, Z.eqb_refl|]. split.
    + intros i Hi. rewrite Hm. rewrite (proj2 (Z.eqb_neq (buf + i) (buf + n))), (proj2 (Z.leb_le buf (buf + i))), (proj2 (Z.ltb_lt (buf + i) (buf + n))) by lia. cbn [andb].
      replace (buf + i - buf) with i by lia. destruct (lookup_lt_is_Some_2 cs (Z.to_nat i)) as [c Hc]; [lia|]. by rewrite Hc, (nth_lookup_Some _ _ _ _ Hc).
    + intros x Hx. rewrite Hm. assert (0 <= n) by lia. rewrite (proj2 (Z.eqb_neq x (buf + n))) by lia.
      destruct (Z.leb_spec buf x), (Z.ltb_spec x (buf + n)); cbn [andb]; done || lia.
Qed.

(** A negative width argument, a precision, a short and a long long number, clipped to nine characters. *)
Definition demo : list piece :=
  [Number (Field [Plus; Zero] (Width 6) NoPrecision) Short Decimal (-65494); Char 33;
   Text_ (Field [] (StarWidth (-4)) (Precision 2)) (Some [97; 98; 99]); Number (Field [Hash] NoWidth NoPrecision) LongLong HexUpper 43981; Written 500].

Lemma vsnprintf_formats_witness :
  exists m', vsnprintf (fun _ => 1) 1000 10 (concat (map print demo)) (concat (map pargs demo)) = Ret (17, m', [(500, 17)]) /\
    map m' [1000; 1001; 1005; 1006; 1007; 1008; 1009; 1010] = [43; 48; 50; 33; 97; 98; 0; 1].
Proof.
  destruct (vsnprintf_formats (fun _ => 1) 1000 10 demo) as (m' & E & _ & H); [lia|lia|lia| |reflexivity|reflexivity|].
  - repeat (constructor; [repeat split; cbn; try lia; try (intros; discriminate)|]); constructor.
  - exists m'. split; [exact E|]. destruct H as (H0 & Hc & Hx); [lia|]. cbn [map].
    pose proof (Hc 0 ltac:(vm_compute; split; congruence)) as E0. pose proof (Hc 1 ltac:(vm_compute; split; congruence)) as E1.
    pose proof (Hc 5 ltac:(vm_compute; split; congruence)) as E5. pose proof (Hc 6 ltac:(vm_compute; split; congruence)) as E6.
    pose proof (Hc 7 ltac:(vm_compute; split; congruence)) as E7. pose proof (Hc 8 ltac:(vm_compute; split; congruence)) as E8.
    vm_compute in E0, E1, E5, E6, E7, E8, H0. pose proof (Hx 1010 ltac:(right; vm_compute; reflexivity)) as E10.
    injection E0 as <-. injection E1 as <-. injection E5 as <-. injection E6 as <-. injection E7 as <-. injection E8 as <-. by rewrite H0, E10.
Defined.

End VsprintfSpec.
