(* ===== verification/Kprintf.v ===== *)
(** * Formatting without a limit ([kernel/src/kprintf.c])

    [vasprintf] writes wherever its pointer is; the theorems say which bytes that is,
    and where it agrees with [vsnprintf]. *)

From stdpp Require Import base numbers list.
From S2P Require Import Prelude Vsprintf.

Module Kprintf.

Definition UINT32_MAX : Z := 4294967295.

(** [while (value > i && i < UINT32_MAX)]: the columns a number takes.  [i] is one
    less than a power of [base], modulo 2^32. *)
Fixpoint count_columns (fuel : nat) (base value i n_width : Z) : outcome Z :=
  if (i <? value) && (i <? UINT32_MAX) then
    match fuel with
    | O => OutOfFuel
    | S fuel' => count_columns fuel' base value (u32 (u32 (i * base) + (base - 1))) (n_width + 1)
    end
  else Ret n_width.

(** [buf[*ptr] = '0'; *ptr += 1] *)
Fixpoint put_zeros (m : Z -> Z) (buf ptr : Z) (todo : nat) : (Z -> Z) * Z :=
  match todo with
  | O => (m, ptr)
  | S todo' => put_zeros (poke m (buf + ptr) 48) buf (ptr + 1) todo'
  end.

(** [while (i > 0)] of [print_dec]: the digits from the last column. *)
Fixpoint put_dec (m : Z -> Z) (at_ value : Z) (i : nat) : Z -> Z :=
  match i with
  | O => m
  | S i' => put_dec (poke m (at_ + Z.of_nat i - 1) (value mod 10 + 48)) at_ (value / 10) i'
  end.

(** [print_dec] changes the memory and [*ptr]. *)
Definition print_dec (value width : Z) (m : Z -> Z) (buf ptr : Z) : outcome ((Z -> Z) * Z) :=
  n_width ← count_columns 32 10 value 9 1;
  let '(m, ptr) := put_zeros m buf ptr (Z.to_nat (width - n_width)) in
  Ret (put_dec m (buf + ptr) value (Z.to_nat n_width), ptr + n_width).

(** [while (i-- > 0)] of [print_hex]: the digits from the first column. *)
Fixpoint put_hex (m : Z -> Z) (buf ptr value : Z) (i : nat) : (Z -> Z) * Z :=
  match i with
  | O => (m, ptr)
  | S i' => put_hex (poke m (buf + ptr) (Vsprintf.digit false (Z.land (Z.shiftr value (Z.of_nat i' * 4)) 15))) buf (ptr + 1) value i'
  end.

Definition print_hex (value width : Z) (m : Z -> Z) (buf ptr : Z) : outcome ((Z -> Z) * Z) :=
  let i := s32 width in
  let i := if i =? 0 then 8 else i in
  n_width ← count_columns 32 16 value 15 1;
  let '(m, ptr) := put_zeros m buf ptr (Z.to_nat (i - n_width)) in
  Ret (put_hex m buf ptr value (Z.to_nat n_width)).

(** [*b++ = c] over a string. *)
Fixpoint copy_string (m : Z -> Z) (b : Z) (s : list Z) : (Z -> Z) * Z :=
  match s with
  | [] => (m, b)
  | c :: s' => copy_string (poke m b c) (b + 1) s'
  end.

Definition null_text : list Z := [40; 110; 117; 108; 108; 41].

Fixpoint get_width (f : list Z) (arg_width : Z) : Z * list Z :=
  match f with
  | c :: f' => if (48 <=? c) && (c <=? 57) then get_width f' (u32 (u32 (arg_width * 10) + (c - 48))) else (arg_width, f)
  | [] => (arg_width, [])
  end.

(** What follows a percent sign; a format that ends there is read past its
    terminator. *)
Definition convert (m : Z -> Z) (buf b : Z) (f : list Z) (args : list arg) : outcome ((Z -> Z) * Z * list arg * list Z) :=
  let '(arg_width, f) := get_width f 0 in
  match f with
  | [] => Fault
  | c :: f' =>
      if c =? 115 then
        '(s, args) ← va_str args;
        let '(m, b) := copy_string m b (match s with Some s => s | None => null_text end) in Ret (m, b, args, f')
      else if c =? 99 then '(n, args) ← va_int args; Ret (poke m b (u8 n), b + 1, args, f')
      else if c =? 120 then
        '(n, args) ← va_int args;
        '(m, i) ← print_hex (u32 n) arg_width m buf (b - buf);
        Ret (m, buf + i, args, f')
      else if c =? 100 then
        '(n, args) ← va_int args;
        '(m, i) ← print_dec (u32 n) arg_width m buf (b - buf);
        Ret (m, buf + i, args, f')
      else if c =? 37 then Ret (poke m b 37, b + 1, args, f')
      else Ret (poke m b c, b + 1, args, f')
  end.

Fixpoint format_loop (fuel : nat) (m : Z -> Z) (buf b : Z) (f : list Z) (args : list arg) : outcome ((Z -> Z) * Z) :=
  match fuel with
  | O => OutOfFuel
  | S fuel' =>
      match f with
      | [] => Ret (m, b)
      | c :: f' =>
          if negb (c =? 37) then format_loop fuel' (poke m b c) buf (b + 1) f' args
          else
            '(m, b, args, f) ← convert m buf b f' args;
            format_loop fuel' m buf b f args
      end
  end.

Definition vasprintf (m : Z -> Z) (buf : Z) (fmt : list Z) (args : list arg) : outcome (Z * (Z -> Z)) :=
  '(m, b) ← format_loop (S (length fmt)) m buf buf fmt args;
  Ret (s32 (b - buf), poke m b 0).

Definition sprintf := vasprintf.

(** *** The text of a format *)

(** [value] in [n] columns. *)
Fixpoint columns (n : nat) (base value : Z) : list Z :=
  match n with
  | O => []
  | S n' => columns n' base (value / base) ++ [Vsprintf.digit false (value mod base)]
  end.

Definition columns_text (base i value width : Z) : outcome (list Z) :=
  n ← count_columns 32 base value i 1; Ret (Vsprintf.zeros (width - n) ++ columns (Z.to_nat n) base value).

Definition dec_text (value width : Z) : outcome (list Z) := columns_text 10 9 value width.
Definition hex_text (value width : Z) : outcome (list Z) :=
  columns_text 16 15 value (if s32 width =? 0 then 8 else s32 width).

Definition convert_text (f : list Z) (args : list arg) : outcome (list Z * list arg * list Z) :=
  let '(arg_width, f) := get_width f 0 in
  match f with
  | [] => Fault
  | c :: f' =>
      if c =? 115 then '(s, args) ← va_str args; Ret (default null_text s, args, f')
      else if c =? 99 then '(n, args) ← va_int args; Ret ([u8 n], args, f')
      else if c =? 120 then '(n, args) ← va_int args; cs ← hex_text (u32 n) arg_width; Ret (cs, args, f')
      else if c =? 100 then '(n, args) ← va_int args; cs ← dec_text (u32 n) arg_width; Ret (cs, args, f')
      else Ret ([c], args, f')
  end.

Fixpoint text_loop (fuel : nat) (f : list Z) (args : list arg) : outcome (list Z) :=
  match fuel with
  | O => OutOfFuel
  | S fuel' =>
      match f with
      | [] => Ret []
      | c :: f' =>
          if negb (c =? 37) then cs ← text_loop fuel' f' args; Ret (c :: cs)
          else
            '(cs, args, f) ← convert_text f' args;
            ds ← text_loop fuel' f args;
            Ret (cs ++ ds)
      end
  end.

Definition text (fmt : list Z) (args : list arg) : outcome (list Z) := text_loop (S (length fmt)) fmt args.

(** *** Counting columns *)

Lemma columns_step base n :
  0 < base -> 0 <= n -> u32 (u32 (u32 (base ^ n - 1) * base) + (base - 1)) = u32 (base ^ (n + 1) - 1).
Proof.
  intros. unfold u32. rewrite Z.mul_mod_idemp_l, Z.add_mod_idemp_l by lia. f_equal. rewrite Z.pow_add_r by lia. lia.
Qed.

(** The count ends, at the latest when 2^32 divides the power, and is never too small. *)
Lemma count_columns_enough fuel base value n :
  base = 10 \/ base = 16 -> 0 <= value < 4294967296 -> 1 <= n -> Z.of_nat fuel + n = 33 ->
  exists k, count_columns fuel base value (u32 (base ^ n - 1)) n = Ret k /\ n <= k <= 33 /\ value < base ^ k.
Proof.
  intros Hb Hv. revert n. induction fuel as [|fuel IH]; intros n Hn Hf; cbn [count_columns].
  { replace n with 33 by lia.
    assert ((u32 (base ^ 33 - 1) <? UINT32_MAX) = false) as -> by (destruct Hb as [-> | ->]; reflexivity).
    rewrite andb_false_r. eexists. split; [done|]. split; [lia|]. destruct Hb as [-> | ->]; lia. }
  assert (0 < base ^ n) by (apply Z.pow_pos_nonneg; lia).
  assert (u32 (base ^ n - 1) <= base ^ n - 1) by (apply Z.mod_le; lia).
  destruct (Z.ltb_spec (u32 (base ^ n - 1)) value) as [Hlt|Hge]; cbn [andb].
  2: { eexists. split; [done|]. lia. }
  destruct (Z.ltb_spec (u32 (base ^ n - 1)) UINT32_MAX) as [Hlt'|Hge']; unfold UINT32_MAX in *.
  2: { eexists. split; [done|]. lia. }
  rewrite columns_step by lia. destruct (IH (n + 1)) as (k & Hk & Hkn & Hkv); [lia|lia|].
  exists k. split; [exact Hk|]. lia.
Qed.

Lemma count_columns_start base value :
  base = 10 \/ base = 16 -> 0 <= value < 4294967296 ->
  exists k, count_columns 32 base value (base - 1) 1 = Ret k /\ 1 <= k <= 33 /\ value < base ^ k.
Proof.
  intros Hb Hv. destruct (count_columns_enough 32 base value 1 Hb Hv) as (k & Hk & ?); [lia|lia|].
  exists k. split; [|done]. rewrite <- Hk. f_equal. rewrite Z.pow_1_r, u32_small; lia.
Qed.

(** The columns of a number that fits are its digits after zeros. *)
Lemma columns_zero n base : 0 < base -> columns n base 0 = replicate n 48.
Proof.
  intros. induction n as [|n IH]; [done|]. cbn [columns]. rewrite Z.div_0_l, Z.mod_0_l, IH by lia.
  change (Vsprintf.digit false 0) with 48. symmetry. apply replicate_S_end.
Qed.

Lemma columns_digits n fuel base value :
  2 <= base -> 0 <= value < base ^ Z.of_nat n -> (n <= fuel)%nat ->
  columns n base value =
  replicate (n - length (Vsprintf.digits_of fuel false value base)) 48 ++ rev (Vsprintf.digits_of fuel false value base).
Proof.
  intros Hb. revert fuel value. induction n as [|n IH]; intros fuel value Hv Hf.
  { replace value with 0 by (simpl in Hv; lia). by destruct fuel. }
  destruct fuel as [|fuel]; [lia|]. cbn [Vsprintf.digits_of]. destruct (Z.eqb_spec value 0) as [->|Hnz].
  { rewrite columns_zero by lia. simpl. by rewrite app_nil_r. }
  rewrite Nat2Z.inj_succ, Z.pow_succ_r in Hv by lia.
  cbn [columns length rev]. rewrite (IH fuel (value / base)); [|split; [apply Z.div_pos; lia|apply Z.div_lt_upper_bound; lia]|lia].
  by rewrite <- app_assoc.
Qed.

Lemma length_columns n base value : length (columns n base value) = n.
Proof. revert value. induction n as [|n IH]; intros; [done|]. cbn [columns]. rewrite length_app, IH. simpl. lia. Qed.

(** *** Memory *)

Abbreviation len := Vsprintf.len.

Definition splice (m : Z -> Z) (b : Z) (cs : list Z) (x : Z) : Z :=
  if (b <=? x) && (x <? b + len cs) then nth (Z.to_nat (x - b)) cs 0 else m x.

Lemma splice_app m b cs ds x : splice (splice m b cs) (b + len cs) ds x = splice m b (cs ++ ds) x.
Proof.
  unfold splice. rewrite Vsprintf.len_app. unfold len. pose proof (Nat2Z.is_nonneg (length ds)). pose proof (Nat2Z.is_nonneg (length cs)).
  zcases; cbn [andb]; try done; try lia; first [rewrite app_nth2 by lia; f_equal; lia|by rewrite app_nth1 by lia].
Qed.

Lemma splice_ext m m' b cs : (forall x, m x = m' x) -> forall x, splice m b cs x = splice m' b cs x.
Proof. intros H x. unfold splice. by rewrite H. Qed.

Lemma splice_nil m b x : splice m b [] x = m x.
Proof. unfold splice, len. simpl. zcases; simpl; done || lia. Qed.

Lemma splice_one m b c x : splice m b [c] x = poke m b c x.
Proof.
  unfold splice, poke, len. simpl. zcases; cbn [andb]; try done; try lia. by replace (x - b) with 0 by lia.
Qed.

(** [writes r m b cs]: the step leaves [cs] at [b] and the pointer after it. *)
Definition writes (r : (Z -> Z) * Z) (m : Z -> Z) (b : Z) (cs : list Z) : Prop :=
  r.2 = b + len cs /\ forall x, r.1 x = splice m b cs x.

Lemma writes_app r m b cs m1 ds :
  (forall x, m1 x = splice m b cs x) -> writes r m1 (b + len cs) ds -> writes r m b (cs ++ ds).
Proof.
  intros H [H1 H2]. split.
  - rewrite H1, Vsprintf.len_app. lia.
  - intros x. rewrite H2, <- splice_app. by apply splice_ext.
Qed.

Lemma copy_string_writes m b cs : writes (copy_string m b cs) m b cs.
Proof.
  revert m b. induction cs as [|c cs IH]; intros m b.
  { split; [unfold len; simpl; lia|]. intros. by rewrite splice_nil. }
  cbn [copy_string]. apply (writes_app _ m b [c] (poke m b c) cs); [intros; by rewrite splice_one|].
  exact (IH _ _).
Qed.

(** The three loops in terms of [copy_string] and [splice]. *)
Lemma put_zeros_copy m buf ptr n :
  put_zeros m buf ptr n = let '(m', b) := copy_string m (buf + ptr) (replicate n 48) in (m', b - buf).
Proof.
  revert m ptr. induction n as [|n IH]; intros m ptr; cbn [put_zeros replicate copy_string]; [f_equal; lia|].
  rewrite IH. by replace (buf + (ptr + 1)) with (buf + ptr + 1) by lia.
Qed.

Lemma put_dec_writes m at_ value n x : put_dec m at_ value n x = splice m at_ (columns n 10 value) x.
Proof.
  revert m value. induction n as [|n IH]; intros m value; cbn [put_dec columns]; [by rewrite splice_nil|].
  rewrite IH, <- splice_app. unfold splice, poke, len. rewrite length_columns. cbn [length].
  assert (Vsprintf.digit false (value mod 10) = value mod 10 + 48) as ->.
  { assert (forall d, 0 <= d < 10 -> (Vsprintf.digit false d =? d + 48) = true) as Hd by (by apply forall_range).
    apply Z.eqb_eq, Hd. apply Z.mod_pos_bound. lia. }
  zcases; cbn [andb]; try done; try lia. by replace (x - (at_ + Z.of_nat n)) with 0 by lia.
Qed.

Lemma columns_hex_split n value :
  columns (S n) 16 value = Vsprintf.digit false (Z.land (Z.shiftr value (Z.of_nat n * 4)) 15) :: columns n 16 value.
Proof.
  revert value. induction n as [|n IH]; intros value.
  { cbn [columns app]. simpl Z.of_nat. rewrite Z.shiftr_0_r. change 15 with (Z.ones 4). by rewrite Z.land_ones by lia. }
  change (columns (S (S n)) 16 value) with (columns (S n) 16 (value / 16) ++ [Vsprintf.digit false (value mod 16)]).
  assert (Z.shiftr (value / 16) (Z.of_nat n * 4) = Z.shiftr value (Z.of_nat (S n) * 4)) as E.
  { change (value / 16) with (value / 2 ^ 4). rewrite <- (Z.shiftr_div_pow2 value 4), Z.shiftr_shiftr by lia. f_equal. lia. }
  rewrite IH, E. done.
Qed.

Lemma put_hex_copy m buf ptr value n :
  put_hex m buf ptr value n = let '(m', b) := copy_string m (buf + ptr) (columns n 16 value) in (m', b - buf).
Proof.
  revert m ptr. induction n as [|n IH]; intros m ptr; [cbn; f_equal; lia|]. rewrite columns_hex_split. cbn [put_hex copy_string].
  rewrite IH. by replace (buf + (ptr + 1)) with (buf + ptr + 1) by lia.
Qed.

Lemma print_dec_writes value width m buf ptr :
  0 <= value < 4294967296 ->
  exists cs m', dec_text value width = Ret cs /\ print_dec value width m buf ptr = Ret (m', ptr + len cs) /\
    forall x, m' x = splice m (buf + ptr) cs x.
Proof.
  intros Hv. destruct (count_columns_start 10 value) as (k & Hk & Hk1 & _); [auto|done|]. change (10 - 1) with 9 in Hk.
  unfold dec_text, columns_text, print_dec. rewrite Hk. cbn [mbind outcome_bind]. rewrite put_zeros_copy.
  fold (Vsprintf.zeros (width - k)). set (zs := Vsprintf.zeros (width - k)).
  destruct (copy_string_writes m (buf + ptr) zs) as [H1 H2]. destruct (copy_string m (buf + ptr) zs) as [m1 b1].
  cbn [fst snd] in *. eexists _, _. split; [done|]. split.
  - f_equal. f_equal. rewrite Vsprintf.len_app, H1. unfold len. rewrite length_columns. lia.
  - intros x. rewrite put_dec_writes. replace (buf + (b1 - buf)) with (buf + ptr + len zs) by lia.
    rewrite <- splice_app. by apply splice_ext.
Qed.

Lemma print_hex_writes value width m buf ptr :
  0 <= value < 4294967296 ->
  exists cs m', hex_text value width = Ret cs /\ print_hex value width m buf ptr = Ret (m', ptr + len cs) /\
    forall x, m' x = splice m (buf + ptr) cs x.
Proof.
  intros Hv. destruct (count_columns_start 16 value) as (k & Hk & Hk1 & _); [auto|done|]. change (16 - 1) with 15 in Hk.
  unfold hex_text, columns_text, print_hex. cbv zeta. set (w := if s32 width =? 0 then 8 else s32 width).
  rewrite Hk. cbn [mbind outcome_bind]. rewrite put_zeros_copy.
  fold (Vsprintf.zeros (w - k)). set (zs := Vsprintf.zeros (w - k)).
  destruct (copy_string_writes m (buf + ptr) zs) as [H1 H2]. destruct (copy_string m (buf + ptr) zs) as [m1 b1].
  cbn [fst snd] in *. rewrite put_hex_copy. set (ds := columns (Z.to_nat k) 16 value).
  replace (buf + (b1 - buf)) with (buf + ptr + len zs) by lia.
  destruct (writes_app _ m (buf + ptr) zs m1 ds H2 (copy_string_writes _ _ _)) as [H3 H4].
  destruct (copy_string m1 (buf + ptr + len zs) ds) as [m2 b2]. cbn [fst snd] in *.
  eexists _, _. split; [done|]. split; [|exact H4]. f_equal. f_equal. lia.
Qed.

Lemma get_width_length f w : (length (get_width f w).2 <= length f)%nat.
Proof.
  revert w. induction f as [|c f IH]; intros w; [done|]. cbn [get_width]. destruct (_ && _); [|done].
  etransitivity; [apply IH|]. cbn [length]. lia.
Qed.

Lemma convert_writes m buf b f args :
  match convert_text f args with
  | Ret (cs, args', f') => exists m', convert m buf b f args = Ret (m', b + len cs, args', f') /\
      (forall x, m' x = splice m b cs x) /\ (length f' <= length f)%nat
  | Fault => convert m buf b f args = Fault
  | OutOfFuel => False
  end.
Proof.
  unfold convert_text, convert. pose proof (get_width_length f 0) as Hl. destruct (get_width f 0) as [w f1].
  destruct f1 as [|c f1]; [done|]. cbn [snd length] in Hl.
  destruct (c =? 115).
  { destruct args as [|[n|n|s] args]; try done. cbn [va_str mbind outcome_bind]. cbv [default from_option id].
    set (t := match s with Some s => s | None => _ end). destruct (copy_string_writes m b t) as [H1 H2].
    destruct (copy_string m b t) as [m1 b1]. cbn [fst snd] in *. subst b1. exists m1. split; [done|]. split; [done|lia]. }
  destruct (c =? 99).
  { destruct args as [|[n|n|s] args]; try done. eexists. split; [done|]. split; [intros; by rewrite splice_one|lia]. }
  destruct (c =? 120).
  { destruct args as [|[n|n|s] args]; try done. cbn [va_int mbind outcome_bind].
    destruct (print_hex_writes (u32 n) w m buf (b - buf) (u32_bound n)) as (cs & m' & -> & -> & Hm). cbn [mbind outcome_bind].
    exists m'. replace (buf + (b - buf)) with b in Hm by lia. split; [|split; [done|lia]].
    by replace (buf + (b - buf + len cs)) with (b + len cs) by lia. }
  destruct (c =? 100).
  { destruct args as [|[n|n|s] args]; try done. cbn [va_int mbind outcome_bind].
    destruct (print_dec_writes (u32 n) w m buf (b - buf) (u32_bound n)) as (cs & m' & -> & -> & Hm). cbn [mbind outcome_bind].
    exists m'. replace (buf + (b - buf)) with b in Hm by lia. split; [|split; [done|lia]].
    by replace (buf + (b - buf + len cs)) with (b + len cs) by lia. }
  destruct (Z.eqb_spec c 37) as [->|_]; (eexists; split; [done|]; split; [intros; by rewrite splice_one|lia]).
Qed.

Lemma format_loop_writes fuel m buf b f args :
  (length f < fuel)%nat ->
  match text_loop fuel f args with
  | Ret cs => exists r, format_loop fuel m buf b f args = Ret r /\ writes r m b cs
  | Fault => format_loop fuel m buf b f args = Fault
  | OutOfFuel => False
  end.
Proof.
  revert m b f args. induction fuel as [|fuel IH]; intros m b f args Hf; [lia|].
  destruct f as [|c f]; cbn [text_loop format_loop].
  { eexists. split; [done|]. apply (copy_string_writes m b []). }
  cbn [length] in Hf. destruct (c =? 37); cbn [negb].
  - pose proof (convert_writes m buf b f args) as Hc. destruct (convert_text f args) as [[[cs args'] f']| |]; [| |done].
    2: by rewrite Hc.
    destruct Hc as (m1 & -> & Hm & Hl). cbn [mbind outcome_bind].
    specialize (IH m1 (b + len cs) f' args' ltac:(lia)). destruct (text_loop fuel f' args') as [ds| |]; [|done|done].
    destruct IH as (r & Hr & Hw). exists r. split; [exact Hr|]. by eapply writes_app.
  - specialize (IH (poke m b c) (b + 1) f args ltac:(lia)). destruct (text_loop fuel f args) as [ds| |]; [|done|done].
    destruct IH as (r & Hr & Hw). exists r. split; [exact Hr|].
    apply (writes_app _ m b [c] (poke m b c) ds); [intros; by rewrite splice_one|exact Hw].
Qed.

(** [vasprintf] stores the text of the format at the buffer, then a NUL, and
    changes no other byte; it always ends, and it faults exactly when the format ends inside a conversion
    (the terminator is skipped) or an argument is missing. *)
Theorem vasprintf_writes m buf fmt args :
  match text fmt args with
  | Ret cs => exists m', vasprintf m buf fmt args = Ret (s32 (len cs), m') /\
      forall x, m' x = if x =? buf + len cs then 0 else splice m buf cs x
  | Fault => vasprintf m buf fmt args = Fault
  | OutOfFuel => False
  end.
Proof.
  unfold text, vasprintf. pose proof (format_loop_writes (S (length fmt)) m buf buf fmt args ltac:(lia)) as H.
  destruct (text_loop _ fmt args) as [cs| |]; [|by rewrite H|done].
  destruct H as ([m1 b1] & -> & H1 & H2). cbn [fst snd] in *. subst b1. cbn [mbind outcome_bind].
  eexists. split; [repeat f_equal; lia|]. intros x. unfold poke. by rewrite H2.
Qed.

(** *** Both formatters print the same numbers *)

Lemma columns_text_digits base value width n :
  base = 10 \/ base = 16 -> 0 <= value < 4294967296 ->
  count_columns 32 base value (base - 1) 1 = Ret n ->
  n <= len (Vsprintf.digits_text false value base) ->
  columns_text base (base - 1) value width = Ret (Vsprintf.number_text value base width (-1) Vsprintf.ZEROPAD).
Proof.
  intros Hb Hv Hn Hd. destruct (count_columns_start base value Hb Hv) as (k & Hk & Hk1 & Hkv).
  rewrite Hn in Hk. injection Hk as <-. unfold columns_text. rewrite Hn. cbn [mbind outcome_bind]. f_equal.
  unfold Vsprintf.number_text. change (Vsprintf.has Vsprintf.ZEROPAD Vsprintf.SIGN) with false.
  change (Vsprintf.has Vsprintf.ZEROPAD Vsprintf.LARGE) with false. change (Vsprintf.has Vsprintf.ZEROPAD Vsprintf.LEFT) with false.
  change (Vsprintf.has Vsprintf.ZEROPAD Vsprintf.ZEROPAD) with true. cbv iota.
  change (Vsprintf.sign_text Vsprintf.ZEROPAD value) with (@nil Z). change (Vsprintf.prefix_text Vsprintf.ZEROPAD base) with (@nil Z).
  assert (u64 value = value) as -> by (unfold u64; apply Z.mod_small; lia).
  set (ds := Vsprintf.digits_text false value base) in *.
  assert (columns (Z.to_nat n) base value = ds /\ n = len ds) as [-> ->]; [|].
  { pose proof (columns_digits (Z.to_nat n) 64 base value ltac:(lia) ltac:(rewrite Z2Nat.id; lia) ltac:(lia)) as Hc.
    unfold ds, len, Vsprintf.digits_text in *. destruct (Z.eqb_spec value 0) as [->|Hnz].
    - simpl in Hd. replace n with 1 by lia. rewrite columns_zero by lia. done.
    - rewrite length_rev in *. assert (length (Vsprintf.digits_of 64 false value base) <= Z.to_nat n)%nat.
      { apply Vsprintf.digits_of_length; [lia|]. rewrite Z2Nat.id; lia. }
      rewrite Hc. replace (Z.to_nat n - length (Vsprintf.digits_of 64 false value base))%nat with O by lia. split; [done|lia]. }
  assert (Vsprintf.zeros (-1 - len ds) = []) as -> by (apply Vsprintf.replicate_nonpos; lia).
  cbn [app]. do 2 f_equal. unfold len at 2. simpl. lia.
Qed.

(** Up to [u32 (base ^ top - 1)] the count is not too large either. *)
Lemma count_columns_least fuel base value n top k :
  2 <= base -> base ^ (top - 1) <= 4294967296 -> value <= u32 (base ^ top - 1) ->
  1 <= n <= top -> n = 1 \/ base ^ (n - 1) <= value ->
  count_columns fuel base value (u32 (base ^ n - 1)) n = Ret k -> k = 1 \/ base ^ (k - 1) <= value.
Proof.
  intros Hb Ht Hv. revert n. induction fuel as [|fuel IH]; intros n Hn Hlow; cbn [count_columns].
  { destruct (_ && _); [done|]. by intros [= <-]. }
  destruct (Z.ltb_spec (u32 (base ^ n - 1)) value) as [Hlt|Hge]; cbn [andb]; [|by intros [= <-]].
  destruct (Z.ltb_spec (u32 (base ^ n - 1)) UINT32_MAX); [|by intros [= <-]].
  rewrite columns_step by lia. assert (n <> top) by (intros ->; lia).
  assert (base ^ n <= 4294967296) by (etransitivity; [apply (Z.pow_le_mono_r base n (top - 1)); lia|done]).
  assert (0 < base ^ n) by (apply Z.pow_pos_nonneg; lia). rewrite u32_small in Hlt by lia.
  apply IH; [lia|]. right. replace (n + 1 - 1) with n by lia. lia.
Qed.

Lemma digits_of_least fuel large num base k :
  2 <= base -> base ^ Z.of_nat k <= num -> (k < fuel)%nat -> (k < length (Vsprintf.digits_of fuel large num base))%nat.
Proof.
  intros Hb. revert fuel num. induction k as [|k IH]; intros fuel num Hn Hk; (destruct fuel as [|fuel]; [lia|]); cbn [Vsprintf.digits_of].
  - destruct (Z.eqb_spec num 0); [simpl in Hn; lia|]. simpl. lia.
  - rewrite Nat2Z.inj_succ, Z.pow_succ_r in Hn by lia. assert (0 < base ^ Z.of_nat k) by (apply Z.pow_pos_nonneg; lia).
    destruct (Z.eqb_spec num 0); [nia|]. cbn [length]. apply (proj1 (Nat.succ_lt_mono _ _)), IH; [|lia].
    apply Z.div_le_lower_bound; lia.
Qed.

Lemma columns_text_agrees base value width top :
  base = 10 \/ base = 16 -> 1 <= top -> base ^ (top - 1) <= 4294967296 ->
  0 <= value < 4294967296 -> value <= u32 (base ^ top - 1) ->
  columns_text base (base - 1) value width = Ret (Vsprintf.number_text value base width (-1) Vsprintf.ZEROPAD).
Proof.
  intros Hb Htop Ht Hv Hvt. destruct (count_columns_start base value Hb Hv) as (k & Hk & Hk1 & _).
  apply (columns_text_digits base value width k); [done|done|done|].
  assert (k = 1 \/ base ^ (k - 1) <= value) as Hlow.
  { apply (count_columns_least 32 base value 1 top k); [lia|done|done|lia|auto|].
    rewrite Z.pow_1_r, u32_small by lia. exact Hk. }
  unfold len, Vsprintf.digits_text. destruct (Z.eqb_spec value 0) as [->|Hnz].
  { destruct Hlow as [->|Hlow]; [simpl; lia|]. pose proof (Z.pow_pos_nonneg base (k - 1)). lia. }
  rewrite length_rev. destruct Hlow as [->|Hlow].
  - pose proof (digits_of_least 64 false value base 0 ltac:(lia) ltac:(simpl; lia) ltac:(lia)). lia.
  - pose proof (digits_of_least 64 false value base (Z.to_nat (k - 1)) ltac:(lia) ltac:(rewrite Z2Nat.id; lia) ltac:(lia)). lia.
Qed.

(** The two formatters of the kernel agree on numbers: [print_hex] with width
    [w] stores what [vsnprintf] prints for a zero-padded field of width [w] (of
    width 8 when there is none), for every value; [print_dec] does for the values
    up to 1410065407, beyond which the counting of columns wraps.  Neither changes
    any other byte. *)
Theorem formatters_agree value width m buf ptr :
  0 <= value < 4294967296 -> 0 <= width < 2147483648 ->
  (let t := Vsprintf.number_text value 16 (if width =? 0 then 8 else width) (-1) Vsprintf.ZEROPAD in
   exists m', print_hex value width m buf ptr = Ret (m', ptr + len t) /\ forall x, m' x = splice m (buf + ptr) t x) /\
  (value <= 1410065407 ->
   let t := Vsprintf.number_text value 10 width (-1) Vsprintf.ZEROPAD in
   exists m', print_dec value width m buf ptr = Ret (m', ptr + len t) /\ forall x, m' x = splice m (buf + ptr) t x).
Proof.
  intros Hv Hw. split.
  - destruct (print_hex_writes value width m buf ptr Hv) as (cs & m' & Hcs & Hp & Hm). unfold hex_text in Hcs.
    rewrite s32_small, (columns_text_agrees 16 value _ 8) in Hcs by (auto; first [lia|change (u32 (16 ^ 8 - 1)) with 4294967295; lia]).
    injection Hcs as <-. by exists m'.
  - intros Hle. destruct (print_dec_writes value width m buf ptr Hv) as (cs & m' & Hcs & Hp & Hm). unfold dec_text in Hcs.
    rewrite (columns_text_agrees 10 value _ 10) in Hcs by (auto; first [lia|change (u32 (10 ^ 10 - 1)) with 1410065407; lia]).
    injection Hcs as <-. by exists m'.
Qed.

Lemma formatters_agree_witness :
  (exists m', print_hex 48879 0 (fun _ => 1) 1000 0 = Ret (m', 8) /\ map m' (seqZ 1000 8) = [48; 48; 48; 48; 98; 101; 101; 102]) /\
  (exists m', print_dec 1410065407 12 (fun _ => 1) 1000 0 = Ret (m', 12) /\ m' 1012 = 1 /\
    map m' (seqZ 1000 12) = [48; 48; 49; 52; 49; 48; 48; 54; 53; 52; 48; 55]).
Proof.
  split.
  - destruct (formatters_agree 48879 0 (fun _ => 1) 1000 0) as [(m' & Hp & Hm) _]; [lia|lia|]. exists m'. split; [exact Hp|].
    simpl. rewrite !Hm. reflexivity.
  - destruct (formatters_agree 1410065407 12 (fun _ => 1) 1000 0) as [_ H]; [lia|lia|]. destruct H as (m' & Hp & Hm); [lia|].
    exists m'. split; [exact Hp|]. split; [rewrite Hm; reflexivity|]. simpl. rewrite !Hm. reflexivity.
Defined.

Lemma count_columns_mono fuel base value i n k : count_columns fuel base value i n = Ret k -> n <= k.
Proof.
  revert i n. induction fuel as [|fuel IH]; intros i n; cbn [count_columns]; (destruct (_ && _); [|intros [= <-]; lia]); [done|].
  intros H%IH. lia.
Qed.

Lemma count_columns_next fuel base value i n :
  i < value -> i < UINT32_MAX -> count_columns (S fuel) base value i n = count_columns fuel base value (u32 (u32 (i * base) + (base - 1))) (n + 1).
Proof. intros H1%Z.ltb_lt H2%Z.ltb_lt. cbn [count_columns]. by rewrite H1, H2. Qed.

(** Zeros in front do not change what is read. *)
Lemma columns_read n k value :
  0 <= value < 4294967296 -> value < 10 ^ k -> 1 <= k <= 33 ->
  Vsprintf.simple_strtoul (Vsprintf.zeros n ++ columns (Z.to_nat k) 10 value) 10 = (value, []).
Proof.
  intros Hv Hkv Hk1. rewrite (columns_digits (Z.to_nat k) 64 10 value) by (rewrite ?Z2Nat.id; lia). unfold Vsprintf.zeros.
  rewrite app_assoc, <- replicate_add. unfold Vsprintf.simple_strtoul, Vsprintf.strto_base. cbn [Z.eqb].
  set (z := (_ + _)%nat). clearbody z. induction z as [|z IH].
  - cbn [replicate app]. pose proof (Vsprintf.strto_digits u32 64 false value 10 []) as Hd. rewrite app_nil_r in Hd.
    rewrite Hd; [done|lia|split; [lia|etransitivity; [apply Hv|reflexivity]]|]. intros. apply u32_small. lia.
  - exact IH.
Qed.

(** The bound wraps to 1410065407 after ten columns and to 1215752191 after eleven. *)
Lemma count_columns_large value k :
  1410065407 < value -> count_columns 32 10 value 9 1 = Ret k -> 12 <= k.
Proof.
  intros Hv.
  do 11 (rewrite count_columns_next by (unfold UINT32_MAX; lia);
    match goal with |- context [count_columns _ _ _ ?i ?n] =>
      let i' := eval vm_compute in i in let n' := eval vm_compute in n in change i with i'; change n with n' end).
  apply count_columns_mono.
Qed.

(** [print_dec] stores the number it is given, for every value, since
    [simple_strtoul] reads it back; but every value above 1410065407 takes at least 12
    columns, so it starts with zeros no width asked for. *)
Theorem sprintf_dec_value value width m buf ptr :
  0 <= value < 4294967296 ->
  exists cs m', print_dec value width m buf ptr = Ret (m', ptr + len cs) /\ (forall x, m' x = splice m (buf + ptr) cs x) /\
    Vsprintf.simple_strtoul cs 10 = (value, []) /\ (1410065407 < value -> 12 <= len cs).
Proof.
  intros Hv. destruct (print_dec_writes value width m buf ptr Hv) as (cs & m' & Hcs & Hp & Hm).
  exists cs, m'. split; [exact Hp|]. split; [exact Hm|].
  destruct (count_columns_start 10 value) as (k & Hk & Hk1 & Hkv); [auto|done|]. unfold dec_text, columns_text in Hcs.
  change 9 with (10 - 1) in Hcs. rewrite Hk in Hcs. cbn [mbind outcome_bind] in Hcs. injection Hcs as <-. split.
  - by apply columns_read.
  - intros Hlarge. pose proof (count_columns_large value k Hlarge Hk). rewrite Vsprintf.len_app, Vsprintf.len_zeros.
    unfold len. rewrite length_columns. lia.
Qed.

Lemma sprintf_dec_value_witness :
  exists cs m', print_dec 4294967295 0 (fun _ => 1) 1000 0 = Ret (m', 0 + len cs) /\ 12 <= len cs.
Proof.
  destruct (sprintf_dec_value 4294967295 0 (fun _ => 1) 1000 0) as (cs & m' & Hp & _ & _ & Hl); [lia|].
  exists cs, m'. split; [exact Hp|]. apply Hl. lia.
Defined.

End Kprintf.
