(* ===== verification/Tree.v ===== *)
(** * Trees ([kernel/src/tree.c])

    Nodes are cells at addresses, each with a value, a pointer to its parent and a
    list of children.  The list is the sequence that [LinkedList] refines ([Seq]), so
    [list_insert], [list_find], [list_delete] and [list_merge] are operations on
    sequences here.  The finite tree that a state represents is a [rose]; every
    operation is shown to refine an operation on it. *)

From stdpp Require Import base gmap numbers list.
From S2P Require Import Prelude LinkedList.

Module Tree.

Record tree_node_t := Node { value : ptr; children : list ptr; parent : ptr }.
Record tree_t := Build_tree { nodes : Z; root : ptr }.

(** A tree and the cells of the heap that hold nodes; [freed] lists the addresses
    given to [free], most recent first. *)
Record state := State { tree : tree_t; cells : gmap ptr tree_node_t; freed : list ptr }.

(** What [valloc] promises: an address no node has, never [NULL]. *)
Class NodeAlloc := {
  new_node : gmap ptr tree_node_t -> ptr;
  new_node_nonnull m : new_node m <> NULL;
  new_node_fresh m : m !! new_node m = None
}.

Definition get_node (s : state) (p : ptr) : outcome tree_node_t :=
  if p =? NULL then Fault else of_option (cells s !! p).
Definition put_node (s : state) (p : ptr) (n : tree_node_t) : state :=
  State (tree s) (<[p := n]> (cells s)) (freed s).
Definition set_tree (s : state) (t : tree_t) : state := State t (cells s) (freed s).
Definition add_nodes (s : state) (d : Z) : state := set_tree s (Build_tree (s32 (nodes (tree s) + d)) (root (tree s))).
Definition free (s : state) (p : ptr) : state := State (tree s) (delete p (cells s)) (p :: freed s).

Definition set_children (s : state) (p : ptr) (cs : list ptr) : outcome state :=
  n ← get_node s p; Ret (put_node s p (Node (value n) cs (parent n))).
Definition set_parent (s : state) (p q : ptr) : outcome state :=
  n ← get_node s p; Ret (put_node s p (Node (value n) (children n) q)).

Section Operations.
Context `{NodeAlloc}.

Definition tree_create (s : state) : state := set_tree s (Build_tree 0 NULL).

Definition tree_node_create (s : state) (v : ptr) : state * ptr :=
  let p := new_node (cells s) in (put_node s p (Node v [] NULL), p).

Definition tree_set_root (s : state) (v : ptr) : state :=
  let '(s, root) := tree_node_create s v in set_tree s (Build_tree 1 root).

Definition tree_node_insert_child_node (s : state) (parent node : ptr) : outcome state :=
  n ← get_node s parent;
  s ← set_children s parent (Seq.insert (children n) node);
  s ← set_parent s node parent;
  Ret (add_nodes s 1).

Definition tree_node_insert_child (s : state) (parent v : ptr) : outcome (state * ptr) :=
  let '(s, out) := tree_node_create s v in
  s ← tree_node_insert_child_node s parent out;
  Ret (s, out).

(** The recursive functions go down the children; the number of cells bounds the depth. *)
Definition depth (s : state) : nat := S (size (cells s)).

Fixpoint tree_node_destroy (fuel : nat) (s : state) (node : ptr) : outcome state :=
  match fuel with
  | O => OutOfFuel
  | S fuel' =>
      n ← get_node s node;
      s ← (fix each s cs := match cs with
             | [] => Ret s
             | c :: cs' => s ← tree_node_destroy fuel' s c; each s cs'
             end) s (children n);
      Ret (State (tree s) (cells s) (value n :: freed s))
  end.

Definition tree_destroy (s : state) : outcome state :=
  if root (tree s) =? NULL then Ret s else tree_node_destroy (depth s) s (root (tree s)).

Fixpoint tree_node_free (fuel : nat) (s : state) (node : ptr) : outcome state :=
  if node =? NULL then Ret s
  else
    match fuel with
    | O => OutOfFuel
    | S fuel' =>
        n ← get_node s node;
        s ← (fix each s cs := match cs with
               | [] => Ret s
               | c :: cs' => s ← tree_node_free fuel' s c; each s cs'
               end) s (children n);
        Ret (free s node)
    end.

Definition tree_free (s : state) : outcome state := tree_node_free (depth s) s (root (tree s)).

Fixpoint tree_node_find_parent (fuel : nat) (s : state) (haystack needle : ptr) : outcome ptr :=
  match fuel with
  | O => OutOfFuel
  | S fuel' =>
      n ← get_node s haystack;
      (fix each cs := match cs with
         | [] => Ret NULL
         | c :: cs' =>
             if c =? needle then Ret haystack
             else
               found ← tree_node_find_parent fuel' s c needle;
               if negb (found =? NULL) then Ret found else each cs'
         end) (children n)
  end.

Definition tree_find_parent (s : state) (node : ptr) : outcome ptr :=
  if root (tree s) =? NULL then Ret NULL else tree_node_find_parent (depth s) s (root (tree s)) node.

Fixpoint count_children (fuel : nat) (s : state) (node : ptr) : outcome Z :=
  if node =? NULL then Ret 0
  else
    match fuel with
    | O => OutOfFuel
    | S fuel' =>
        n ← get_node s node;
        (fix each out cs := match cs with
           | [] => Ret out
           | c :: cs' => k ← count_children fuel' s c; each (s32 (out + k)) cs'
           end) (Z.of_nat (length (children n))) (children n)
    end.
Definition tree_count_children (s : state) (node : ptr) : outcome Z := count_children (depth s) s node.

(** [list_delete(parent->children, list_find(parent->children, node))]: a node that
    is not in the list is found as [NULL], which [list_delete] dereferences. *)
Definition delete_child (s : state) (parent node : ptr) : outcome state :=
  n ← get_node s parent;
  k ← of_option (Seq.index (children n) node);
  set_children s parent (Seq.delete k (children n)).

Definition tree_node_parent_remove (s : state) (parent node : ptr) : outcome state :=
  k ← tree_count_children s node;
  let s := add_nodes s (- (k + 1)) in
  s ← delete_child s parent node;
  tree_node_free (depth s) s node.

(** The branch of the root falls through to the removal from a parent that is [NULL]. *)
Definition tree_node_remove (s : state) (node : ptr) : outcome state :=
  n ← get_node s node;
  s ← (if (parent n =? NULL) && (node =? root (tree s))
       then tree_node_free (depth s) (set_tree s (Build_tree 0 NULL)) node
       else Ret s);
  tree_node_parent_remove s (parent n) node.

(** [((tree_node_t * )child->value)->parent = parent] for each child. *)
Fixpoint reparent (s : state) (cs : list ptr) (parent : ptr) : outcome state :=
  match cs with
  | [] => Ret s
  | c :: cs' => s ← set_parent s c parent; reparent s cs' parent
  end.

(** The children of a removed node go to [heir]; [list_merge] appends them. *)
Definition hand_over (s : state) (node heir : ptr) : outcome state :=
  n ← get_node s node;
  s ← reparent s (children n) heir;
  h ← get_node s heir;
  s ← set_children s heir (children h ++ children n);
  Ret (free s node).

Definition tree_remove (s : state) (node : ptr) : outcome state :=
  n ← get_node s node;
  if parent n =? NULL then Ret s
  else
    let s := add_nodes s (-1) in
    s ← delete_child s (parent n) node;
    hand_over s node (parent n).

Definition tree_remove_reparent_root (s : state) (node : ptr) : outcome state :=
  n ← get_node s node;
  if parent n =? NULL then Ret s
  else
    let s := add_nodes s (-1) in
    s ← delete_child s (parent n) node;
    hand_over s node (root (tree s)).

Definition tree_break_off (s : state) (node : ptr) : outcome state :=
  n ← get_node s node;
  if parent n =? NULL then Ret s else delete_child s (parent n) node.

Section Find.
Variable comparator : ptr -> ptr -> bool.

Fixpoint tree_node_find (fuel : nat) (s : state) (node search : ptr) : outcome ptr :=
  match fuel with
  | O => OutOfFuel
  | S fuel' =>
      n ← get_node s node;
      if comparator (value n) search then Ret node
      else
        (fix each cs := match cs with
           | [] => Ret NULL
           | c :: cs' =>
               found ← tree_node_find fuel' s c search;
               if negb (found =? NULL) then Ret found else each cs'
           end) (children n)
  end.

Definition tree_find (s : state) (v : ptr) : outcome ptr := tree_node_find (depth s) s (root (tree s)) v.
End Find.

End Operations.

(** ** Finite trees *)

#[warnings="-register-all"]
Inductive rose := Rose (p v : ptr) (cs : list rose).

Definition addr (r : rose) : ptr := let '(Rose p _ _) := r in p.

Fixpoint addrs (r : rose) : list ptr := let '(Rose p _ cs) := r in p :: concat (map addrs cs).
Definition addrs_of (cs : list rose) : list ptr := concat (map addrs cs).

(** Addresses and values, parents before children. *)
Fixpoint preorder (r : rose) : list (ptr * ptr) := let '(Rose p v cs) := r in (p, v) :: concat (map preorder cs).

(** The children of the node [p] become [f] of them. *)
Fixpoint alter (p : ptr) (f : list rose -> list rose) (r : rose) : rose :=
  let '(Rose q v cs) := r in if q =? p then Rose q v (f cs) else Rose q v (map (alter p f) cs).

(** [subtree r t]: [t] hangs somewhere in [r]. *)
Inductive subtree : rose -> rose -> Prop :=
  | subtree_here r : subtree r r
  | subtree_below p v cs c t : c ∈ cs -> subtree c t -> subtree (Rose p v cs) t.

Fixpoint rep (m : gmap ptr tree_node_t) (par : ptr) (r : rose) : Prop :=
  let '(Rose p v cs) := r in
  p <> NULL /\ m !! p = Some (Node v (map addr cs) par) /\ foldr (fun c P => rep m p c /\ P) True cs.

Lemma rose_rect_list (P : rose -> Prop) :
  (forall p v cs, Forall P cs -> P (Rose p v cs)) -> forall r, P r.
Proof.
  intros Hn. fix IH 1. intros [p v cs]. apply Hn. induction cs as [|c cs IHcs]; constructor; [apply IH|exact IHcs].
Qed.

Lemma rep_unfold m par p v cs :
  rep m par (Rose p v cs) <-> p <> NULL /\ m !! p = Some (Node v (map addr cs) par) /\ Forall (rep m p) cs.
Proof.
  cbn [rep]. enough (foldr (fun c P => rep m p c /\ P) True cs <-> Forall (rep m p) cs) as -> by done.
  induction cs as [|c cs IH]; cbn [foldr]; [split; [constructor|done]|]. by rewrite IH, Forall_cons.
Qed.

Lemma addrs_unfold p v cs : addrs (Rose p v cs) = p :: addrs_of cs.
Proof. done. Qed.

Lemma addrs_of_app a b : addrs_of (a ++ b) = addrs_of a ++ addrs_of b.
Proof. unfold addrs_of. by rewrite map_app, concat_app. Qed.

Lemma addrs_of_cons c cs : addrs_of (c :: cs) = addrs c ++ addrs_of cs.
Proof. done. Qed.

Lemma addr_in r : addr r ∈ addrs r.
Proof. destruct r. left. Qed.

Lemma elem_addrs_of x cs : x ∈ addrs_of cs <-> exists c, c ∈ cs /\ x ∈ addrs c.
Proof.
  induction cs as [|c cs IH]; [split; [by intros ?%elem_of_nil|intros (c & ?%elem_of_nil & _); done]|].
  rewrite addrs_of_cons, elem_of_app, IH. split.
  - intros [Hx|(d & Hd & Hx)]; [exists c|exists d]; split; [left|done|by right|done].
  - intros (d & [-> | Hd]%elem_of_cons & Hx); [by left|right; eauto].
Qed.

(** *** What a representation depends on *)

(** [rep] depends on the cells of the tree only; the parent of the root may change. *)
Lemma rep_change m m' par par' r :
  rep m par r ->
  (forall v cs, m !! addr r = Some (Node v cs par) -> m' !! addr r = Some (Node v cs par')) ->
  (forall x, x ∈ tail (addrs r) -> m' !! x = m !! x) -> rep m' par' r.
Proof.
  revert par par'. induction r as [p v cs IH] using rose_rect_list. intros par par'. rewrite !rep_unfold.
  intros (Hp & Hm & Hcs) Hr Hx. split; [done|]. split; [by apply Hr|].
  rewrite addrs_unfold in Hx. cbn [tail] in Hx.
  assert (forall x, x ∈ addrs_of cs -> m' !! x = m !! x) as Hx' by done. clear Hx Hr Hm.
  induction Hcs as [|c cs Hc Hcs IHl]; [constructor|]. apply Forall_cons in IH as [IHc IH]. constructor.
  - apply (IHc p p Hc).
    + intros v' ds Hd. rewrite Hx'; [done|]. rewrite addrs_of_cons, elem_of_app. left. apply addr_in.
    + intros x Hi. apply Hx'. rewrite addrs_of_cons, elem_of_app. left. destruct c. by right.
  - apply IHl; [done|]. intros x Hi. apply Hx'. rewrite addrs_of_cons, elem_of_app. by right.
Qed.

Lemma rep_frame m m' par r : rep m par r -> (forall x, x ∈ addrs r -> m' !! x = m !! x) -> rep m' par r.
Proof.
  intros Hr Hx. apply (rep_change m m' par par r Hr).
  - intros v cs E. rewrite Hx; [done|apply addr_in].
  - intros x Hi. apply Hx. destruct r. by right.
Qed.

Lemma reps_frame m m' par cs : Forall (rep m par) cs -> (forall x, x ∈ addrs_of cs -> m' !! x = m !! x) -> Forall (rep m' par) cs.
Proof.
  intros Hr Hx. rewrite Forall_forall in *. intros c Hc. apply (rep_frame m); [by apply Hr|].
  intros x Hi. apply Hx, elem_addrs_of. eauto.
Qed.

Lemma rep_cell m par r x : rep m par r -> x ∈ addrs r -> x <> NULL /\ is_Some (m !! x).
Proof.
  revert par. induction r as [p v cs IH] using rose_rect_list. intros par. rewrite rep_unfold, addrs_unfold.
  intros (Hp & Hm & Hcs) [-> | Hx]%elem_of_cons; [by rewrite Hm|].
  apply elem_addrs_of in Hx as (c & Hc & Hx). rewrite Forall_forall in IH, Hcs. by apply (IH c Hc p (Hcs c Hc)).
Qed.

(** The depth of the recursions is bounded by the number of cells. *)
Lemma rep_size m par r : rep m par r -> NoDup (addrs r) -> (length (addrs r) <= size m)%nat.
Proof.
  intros Hr Hn. rewrite <- (size_dom (D := gset ptr)), <- (size_list_to_set (C := gset ptr) _ Hn).
  apply subseteq_size. intros x Hx%elem_of_list_to_set. apply elem_of_dom, (rep_cell m par r x Hr Hx).
Qed.

(** *** Subtrees *)

Lemma subtree_addrs r t : subtree r t -> addrs t ⊆ addrs r.
Proof.
  induction 1 as [|p v cs c t Hc Ht IH]; [done|]. intros x Hx%IH. rewrite addrs_unfold. right.
  apply elem_addrs_of. eauto.
Qed.

Lemma subtree_of_addr r x : x ∈ addrs r -> exists t, subtree r t /\ addr t = x.
Proof.
  induction r as [p v cs IH] using rose_rect_list. rewrite addrs_unfold. intros [-> | Hx]%elem_of_cons.
  { exists (Rose p v cs). split; [constructor|done]. }
  apply elem_addrs_of in Hx as (c & Hc & Hx). rewrite Forall_forall in IH. destruct (IH c Hc Hx) as (t & Ht & E).
  exists t. split; [by econstructor|done].
Qed.

Lemma subtree_rep m par r t : rep m par r -> subtree r t -> exists par', rep m par' t.
Proof.
  intros Hr Ht. revert par Hr. induction Ht as [|p v cs c t Hc Ht IH]; intros par Hr; [eauto|].
  apply rep_unfold in Hr as (_ & _ & Hcs). rewrite Forall_forall in Hcs. by apply (IH p), Hcs.
Qed.

(** A node below the root hangs below another one. *)
Lemma subtree_parent m par r t :
  rep m par r -> subtree r t -> t = r \/
  exists q w ds1 ds2, subtree r (Rose q w (ds1 ++ t :: ds2)) /\ rep m q t.
Proof.
  intros Hr Ht. revert par Hr. induction Ht as [|p v cs c t Hc Ht IH]; intros par Hr; [by left|]. right.
  pose proof Hr as Hr'. apply rep_unfold in Hr' as (_ & _ & Hcs). rewrite Forall_forall in Hcs.
  pose proof (Hcs c Hc) as Hrc. destruct (IH p Hrc) as [-> | (q & w & ds1 & ds2 & Hs & Hq)].
  - apply list_elem_of_split in Hc as (ds1 & ds2 & ->). exists p, v, ds1, ds2. by split; [constructor|].
  - exists q, w, ds1, ds2. split; [by econstructor|done].
Qed.

(** *** Replacing the children of a node *)

Lemma addr_alter p f r : addr (alter p f r) = addr r.
Proof. destruct r as [q v cs]. cbn [alter]. by destruct (q =? p). Qed.

Lemma alter_absent p f r : (p ∉ addrs r) -> alter p f r = r.
Proof.
  induction r as [q v cs IH] using rose_rect_list. rewrite addrs_unfold, not_elem_of_cons. intros [Hq Hcs].
  cbn [alter]. destruct (Z.eqb_spec q p); [congruence|]. f_equal.
  induction cs as [|c cs IHl]; [done|]. apply Forall_cons in IH as [IHc IH]. rewrite addrs_of_cons, not_elem_of_app in Hcs.
  cbn [map]. rewrite IHc by tauto. f_equal. apply IHl; tauto.
Qed.

Lemma map_alter_absent p f cs : (p ∉ addrs_of cs) -> map (alter p f) cs = cs.
Proof.
  induction cs as [|c cs IH]; [done|]. rewrite addrs_of_cons, not_elem_of_app. intros [Hc Hcs]. cbn [map].
  by rewrite alter_absent, IH.
Qed.

(** The rest of the tree around a subtree, whatever its children are. *)
Lemma alter_split r p v cs :
  NoDup (addrs r) -> subtree r (Rose p v cs) ->
  exists rest, addrs r ≡ₚ p :: addrs_of cs ++ rest /\
    forall cs', addrs (alter p (fun _ => cs') r) ≡ₚ p :: addrs_of cs' ++ rest.
Proof.
  intros Hn Ht. remember (Rose p v cs) as t eqn:Et. induction Ht as [r|q w ds c t Hc Ht IH]; subst.
  { exists []. rewrite app_nil_r. split; [done|]. intros cs'. cbn [alter]. by rewrite Z.eqb_refl, app_nil_r. }
  rewrite addrs_unfold in Hn. apply NoDup_cons in Hn as [Hq Hn].
  apply list_elem_of_split in Hc as (d1 & d2 & ->). rewrite addrs_of_app, addrs_of_cons in Hq, Hn.
  assert (p ∈ addrs c) as Hp by (apply (subtree_addrs _ _ Ht); left).
  assert (NoDup (addrs c)) as Hnc by (apply NoDup_app in Hn as (_ & _ & Hn); by apply NoDup_app in Hn as (? & _ & _)).
  destruct (IH Hnc eq_refl) as (rest & E & Ealt).
  assert ((p ∉ addrs_of d1) /\ (p ∉ addrs_of d2)) as [Hp1 Hp2].
  { apply NoDup_app in Hn as (_ & H1 & Hn). apply NoDup_app in Hn as (_ & H2 & _). split; intros Hx.
    - apply (H1 p Hx). rewrite elem_of_app. by left.
    - by apply (H2 p Hp). }
  exists (q :: addrs_of d1 ++ rest ++ addrs_of d2). split.
  - rewrite addrs_unfold, addrs_of_app, addrs_of_cons, E. solve_Permutation.
  - intros cs'. cbn [alter]. destruct (Z.eqb_spec q p) as [->|_].
    { exfalso. apply Hq. rewrite !elem_of_app. auto. }
    rewrite map_app. cbn [map]. rewrite !map_alter_absent by done.
    rewrite addrs_unfold, addrs_of_app, addrs_of_cons, Ealt. solve_Permutation.
Qed.

Lemma NoDup_child c cs : NoDup (addrs_of cs) -> c ∈ cs -> NoDup (addrs c).
Proof.
  intros Hn Hc. apply list_elem_of_split in Hc as (a & b & ->). rewrite addrs_of_app, addrs_of_cons in Hn.
  apply NoDup_app in Hn as (_ & _ & Hn). by apply NoDup_app in Hn as (? & _ & _).
Qed.

Lemma subtree_alter r p v cs cs' :
  NoDup (addrs r) -> subtree r (Rose p v cs) -> subtree (alter p (fun _ => cs') r) (Rose p v cs').
Proof.
  intros Hn Ht. remember (Rose p v cs) as u eqn:Eu. induction Ht as [r|q w ds c u Hc Hu IH]; subst.
  { cbn [alter]. rewrite Z.eqb_refl. constructor. }
  rewrite addrs_unfold in Hn. apply NoDup_cons in Hn as [Hq Hn]. cbn [alter]. destruct (Z.eqb_spec q p) as [->|Hqp].
  { exfalso. apply Hq, elem_addrs_of. exists c. split; [done|]. apply (subtree_addrs _ _ Hu). left. }
  apply subtree_below with (alter p (fun _ => cs') c); [by apply list_elem_of_fmap_2|].
  apply IH; [by apply (NoDup_child c ds)|done].
Qed.

Lemma rep_alter m m' par r p v cs cs' :
  rep m par r -> NoDup (addrs r) -> subtree r (Rose p v cs) ->
  (forall par', m !! p = Some (Node v (map addr cs) par') -> m' !! p = Some (Node v (map addr cs') par')) ->
  Forall (rep m' p) cs' ->
  (forall x, x ∈ addrs r -> (x ∉ p :: addrs_of cs) -> m' !! x = m !! x) ->
  rep m' par (alter p (fun _ => cs') r).
Proof.
  intros Hr Hn Ht Hp Hcs'. revert par Hr. remember (Rose p v cs) as t eqn:Et.
  induction Ht as [r|q w ds c t Hc Ht IH]; intros par Hr Hx; subst.
  { apply rep_unfold in Hr as (Hnn & Hm & _). cbn [alter]. rewrite Z.eqb_refl. apply rep_unfold. auto. }
  pose proof Hr as Hr'. apply rep_unfold in Hr' as (Hqn & Hm & Hds). rewrite Forall_forall in Hds.
  pose proof (subtree_addrs _ _ Ht) as Hsub. rewrite addrs_unfold in Hsub.
  pose proof (Hds c Hc) as Hrc. apply list_elem_of_split in Hc as (d1 & d2 & ->).
  rewrite addrs_unfold, addrs_of_app, addrs_of_cons in Hn, Hx.
  apply NoDup_cons in Hn as [Hq Hn]. apply NoDup_app in Hn as (Hn1 & Hd1 & Hn). apply NoDup_app in Hn as (Hnc & Hd2 & Hn2).
  assert (p ∈ addrs c) as Hpc by (apply Hsub; left).
  assert ((p ∉ addrs_of d1) /\ (p ∉ addrs_of d2)) as [Hp1 Hp2].
  { split; intros Hi; [|by apply (Hd2 p Hpc)]. apply (Hd1 p Hi). rewrite elem_of_app. by left. }
  cbn [alter]. destruct (Z.eqb_spec q p) as [->|Hqp]; [exfalso; apply Hq; rewrite !elem_of_app; auto|].
  rewrite map_app. cbn [map]. rewrite !map_alter_absent by done. apply rep_unfold. split; [done|].
  assert (forall x, x ∈ q :: addrs_of d1 ++ addrs c ++ addrs_of d2 -> (x ∉ addrs c) -> m' !! x = m !! x) as Hout.
  { intros x Hi Hxc. apply Hx; [done|]. intros Hi'. by apply Hxc, Hsub. }
  split.
  - rewrite Hout; [|left|intros Hi; apply Hq; rewrite !elem_of_app; auto]. rewrite Hm, !map_app. cbn [map]. by rewrite addr_alter.
  - apply Forall_app. split; [|constructor].
    + apply (reps_frame m); [apply Forall_forall; intros; apply Hds; rewrite elem_of_app; by left|].
      intros x Hi. apply Hout; [right; rewrite elem_of_app; by left|]. intros Hi'. apply (Hd1 x Hi). rewrite elem_of_app. by left.
    + apply IH; [done|done|done|]. intros x Hi Hi'. apply Hx; [|done]. right. rewrite !elem_of_app. auto.
    + apply (reps_frame m); [apply Forall_forall; intros; apply Hds; rewrite elem_of_app; right; by right|].
      intros x Hi. apply Hout; [right; rewrite !elem_of_app; auto|]. intros Hi'. by apply (Hd2 x Hi').
Qed.

(** ** Well-formed states *)

Record inv (s : state) (r : rose) : Prop := {
  inv_root : root (tree s) = addr r;
  inv_rep : rep (cells s) NULL r;
  inv_nodup : NoDup (addrs r);
  inv_count : nodes (tree s) = Z.of_nat (length (addrs r));
  inv_small : Z.of_nat (length (addrs r)) < 2147483648;
  inv_cells x : is_Some (cells s !! x) -> x ∈ addrs r   (* no node is lost *)
}.

Lemma get_node_rep s par p v cs :
  rep (cells s) par (Rose p v cs) -> get_node s p = Ret (Node v (map addr cs) par).
Proof.
  intros (Hp & Hm & _)%rep_unfold. unfold get_node. apply Z.eqb_neq in Hp. rewrite Hp. by rewrite Hm.
Qed.

Lemma set_children_rep s par p v cs ds :
  rep (cells s) par (Rose p v cs) ->
  set_children s p ds = Ret (put_node s p (Node v ds par)).
Proof. intros Hr. unfold set_children. by rewrite (get_node_rep _ _ _ _ _ Hr). Qed.

Lemma index_middle (a b : list ptr) x : (x ∉ a) -> Seq.index (a ++ x :: b) x = Some (length a).
Proof.
  induction a as [|y a IH]; cbn [Seq.index app]; [by rewrite Z.eqb_refl|]. rewrite not_elem_of_cons. intros [Hy Hx].
  destruct (Z.eqb_spec y x); [congruence|]. by rewrite IH.
Qed.

Lemma delete_middle (a b : list ptr) x : Seq.delete (length a) (a ++ x :: b) = a ++ b.
Proof.
  unfold Seq.delete. rewrite take_app_length. f_equal. rewrite drop_app_ge by lia.
  by replace (S (length a) - length a)%nat with 1%nat by lia.
Qed.

Lemma map_addr_elem x cs : x ∈ map addr cs -> x ∈ addrs_of cs.
Proof.
  intros Hx. apply list_elem_of_fmap in Hx as (c & -> & Hc). apply elem_addrs_of. exists c. split; [done|apply addr_in].
Qed.

(** *** Cutting a branch off *)

(** [delete_child] leaves the tree without the branch and the branch by itself. *)
Lemma delete_child_ok s r q w ds1 t ds2 :
  rep (cells s) NULL r -> NoDup (addrs r) -> subtree r (Rose q w (ds1 ++ t :: ds2)) ->
  let r' := alter q (fun _ => ds1 ++ ds2) r in
  exists s', delete_child s q (addr t) = Ret s' /\ tree s' = tree s /\ freed s' = freed s /\
    rep (cells s') NULL r' /\ rep (cells s') q t /\ addrs r ≡ₚ addrs t ++ addrs r' /\
    subtree r' (Rose q w (ds1 ++ ds2)) /\ dom (cells s') = dom (cells s).
Proof.
  intros Hr Hn Ht r'. destruct (subtree_rep _ _ _ _ Hr Ht) as [par Hq].
  destruct (alter_split _ _ _ _ Hn Ht) as (rest & E & Ealt).
  assert (addrs r ≡ₚ addrs t ++ addrs r') as Eperm.
  { unfold r'. rewrite E, Ealt, !addrs_of_app, addrs_of_cons. solve_Permutation. }
  pose proof Hn as Hn'. rewrite E, addrs_of_app, addrs_of_cons in Hn'.
  unfold delete_child. rewrite (get_node_rep _ _ _ _ _ Hq). cbn [mbind outcome_bind children].
  rewrite map_app. cbn [map].
  apply NoDup_cons in Hn' as [Hq' Hn']. apply NoDup_app in Hn' as (Hn' & _ & _). apply NoDup_app in Hn' as (_ & Hd & _).
  rewrite index_middle. 2: { intros Hi%map_addr_elem. apply (Hd _ Hi). rewrite elem_of_app. left. apply addr_in. }
  cbn [of_option mbind outcome_bind]. rewrite delete_middle, <- map_app.
  rewrite (set_children_rep _ _ _ _ _ _ Hq). eexists. split; [done|]. split; [done|]. split; [done|]. cbn [put_node cells].
  pose proof Hq as (Hqn & Hqm & Hqc)%rep_unfold.
  assert (forall x, x ∈ addrs_of (ds1 ++ t :: ds2) -> <[q := Node w (map addr (ds1 ++ ds2)) par]> (cells s) !! x = cells s !! x) as Hfr.
  { intros x Hi. rewrite lookup_insert_ne; [done|]. intros <-. apply Hq'. rewrite elem_of_app. left.
    by rewrite addrs_of_app, addrs_of_cons in Hi. }
  split_and!.
  - apply (rep_alter (cells s) _ NULL r q w (ds1 ++ t :: ds2)); [done|done|done| | |].
    + intros par' E'. rewrite Hqm in E'. injection E' as <-. apply lookup_insert_eq.
    + apply (reps_frame (cells s)).
      * rewrite Forall_app, Forall_cons in Hqc. rewrite Forall_app. tauto.
      * intros x Hi. apply Hfr. rewrite addrs_of_app in *. rewrite addrs_of_cons, !elem_of_app in *. tauto.
    + intros x _ Hi. rewrite lookup_insert_ne; [done|]. intros <-. apply Hi. left.
  - apply (rep_frame (cells s)); [rewrite Forall_app, Forall_cons in Hqc; tauto|]. intros x Hi. apply Hfr.
    rewrite addrs_of_app, addrs_of_cons, !elem_of_app. auto.
  - done.
  - unfold r'. by apply (subtree_alter r q w (ds1 ++ t :: ds2)).
  - rewrite dom_insert_L. apply elem_of_dom_2 in Hqm. apply subseteq_union_1_L. by apply singleton_subseteq_l.
Qed.

(** *** Handing children over *)

Lemma reparent_ok s p q cs :
  Forall (rep (cells s) p) cs -> NoDup (addrs_of cs) ->
  exists s', reparent s (map addr cs) q = Ret s' /\ tree s' = tree s /\ freed s' = freed s /\
    Forall (rep (cells s') q) cs /\ (forall x, (x ∉ map addr cs) -> cells s' !! x = cells s !! x) /\
    (forall x, is_Some (cells s' !! x) -> is_Some (cells s !! x)).
Proof.
  revert s. induction cs as [|c cs IH]; intros s Hr Hn; cbn [map reparent].
  { exists s. split_and!; done. }
  apply Forall_cons in Hr as [Hc Hr]. rewrite addrs_of_cons in Hn. apply NoDup_app in Hn as (Hnc & Hd & Hn).
  destruct c as [a v ds]. cbn [addr]. unfold set_parent. rewrite (get_node_rep _ _ _ _ _ Hc). cbn [mbind outcome_bind value children].
  set (s1 := put_node s a (Node v (map addr ds) q)).
  assert (forall x, x <> a -> cells s1 !! x = cells s !! x) as Hs1 by (intros; by apply lookup_insert_ne).
  destruct (IH s1) as (s' & E & Et & Ef & Hrep & Hx & Hdom); [|done|].
  { apply (reps_frame (cells s)); [done|]. intros x Hi. apply Hs1. intros ->. apply (Hd a); [left|done]. }
  exists s'. split; [exact E|]. split; [done|]. split; [done|]. split; [constructor; [|done]|split].
  - apply (rep_change (cells s) _ p q _ Hc); cbn [addr].
    + intros v' cs' E'. pose proof Hc as (_ & E2 & _)%rep_unfold. rewrite E2 in E'. injection E' as <- <-.
      rewrite Hx; [apply lookup_insert_eq|]. intros Hi%map_addr_elem. by apply (Hd a); [left|].
    + cbn [tail addrs]. intros x Hi. assert (x ∈ addrs (Rose a v ds)) as Hi' by by right.
      rewrite Hx; [apply Hs1|intros Hj%map_addr_elem; by apply (Hd x)].
      intros ->. rewrite addrs_unfold in Hnc. by apply NoDup_cons in Hnc as [? _].
  - intros x Hi. rewrite not_elem_of_cons in Hi. rewrite Hx by tauto. apply Hs1. tauto.
  - intros x Hi%Hdom. destruct (decide (x = a)) as [->|Hne]; [|by rewrite <- Hs1].
    apply rep_unfold in Hc as (_ & -> & _). done.
Qed.

(** The children [cs] of the detached node [p] are appended to those of [q] and [p] is freed. *)
Lemma hand_over_ok s r p q v w cs ds par :
  rep (cells s) NULL r -> rep (cells s) par (Rose p v cs) -> NoDup (addrs (Rose p v cs) ++ addrs r) ->
  subtree r (Rose q w ds) ->
  exists s', hand_over s p q = Ret s' /\ tree s' = tree s /\ freed s' = p :: freed s /\
    rep (cells s') NULL (alter q (fun _ => ds ++ cs) r) /\
    (forall x, is_Some (cells s' !! x) -> x <> p /\ is_Some (cells s !! x)) /\
    addrs (alter q (fun _ => ds ++ cs) r) ≡ₚ addrs_of cs ++ addrs r.
Proof.
  intros Hr Hp Hn Ht. apply NoDup_app in Hn as (Hnp & Hd & Hnr).
  destruct (alter_split _ _ _ _ Hnr Ht) as (rest & E & Ealt). destruct (subtree_rep _ _ _ _ Hr Ht) as [qpar Hq].
  pose proof (subtree_addrs _ _ Ht) as Hsub. rewrite addrs_unfold in Hsub.
  pose proof Hp as (Hpn & Hpm & Hpc)%rep_unfold. pose proof Hq as (Hqn & Hqm & Hqc)%rep_unfold.
  rewrite addrs_unfold in Hnp, Hd. apply NoDup_cons in Hnp as [Hpcs Hncs].
  unfold hand_over. rewrite (get_node_rep _ _ _ _ _ Hp). cbn [mbind outcome_bind children].
  destruct (reparent_ok s p q cs Hpc Hncs) as (s1 & -> & Et & Ef & Hrep & Hx & Hdom). cbn [mbind outcome_bind].
  assert (forall x, x ∈ p :: addrs r -> cells s1 !! x = cells s !! x) as Hs1.
  { intros x [-> | Hi]%elem_of_cons; apply Hx; intros Hj%map_addr_elem; [done|]. apply (Hd x); [by right|done]. }
  assert (q ∈ addrs r) as Hqr by (apply Hsub; left).
  assert (get_node s1 q = Ret (Node w (map addr ds) qpar)) as Hgq.
  { unfold get_node. apply Z.eqb_neq in Hqn. rewrite Hqn, Hs1 by by right. by rewrite Hqm. }
  rewrite Hgq. cbn [mbind outcome_bind children]. unfold set_children. rewrite Hgq. cbn [mbind outcome_bind value parent].
  eexists. split; [done|]. split; [exact Et|]. split; [cbn; by rewrite Ef|]. cbn [free put_node cells].
  rewrite <- map_app. set (m' := delete p _).
  assert (p <> q) as Hpq by (intros ->; by apply (Hd q); [left|]).
  assert (forall x, x <> p -> x <> q -> m' !! x = cells s1 !! x) as Hm'.
  { intros x Hxp Hxq. unfold m'. by rewrite lookup_delete_ne, lookup_insert_ne. }
  assert (forall x, x ∈ addrs r -> x <> p) as Hrp by (intros x Hi ->; by apply (Hd p); [left|]).
  assert (NoDup (q :: addrs_of ds)) as Hnq.
  { rewrite E in Hnr. rewrite app_comm_cons in Hnr. by apply NoDup_app in Hnr as (? & _ & _). }
  apply NoDup_cons in Hnq as [Hqds _].
  split_and!.
  - apply (rep_alter (cells s) m' NULL r q w ds (ds ++ cs)); [done|done|done| | |].
    + intros par' E'. rewrite Hqm in E'. injection E' as <-. unfold m'. rewrite lookup_delete_ne by done. apply lookup_insert_eq.
    + apply Forall_app. split.
      * apply (reps_frame (cells s)); [done|]. intros x Hi. assert (x ∈ addrs r) by (apply Hsub; by right).
        rewrite Hm'; [apply Hs1; by right|by apply Hrp|congruence].
      * apply (reps_frame (cells s1)); [done|]. intros x Hi. apply Hm'; [congruence|]. intros ->. apply (Hd q); [by right|done].
    + intros x Hi Hj. rewrite not_elem_of_cons in Hj. rewrite Hm'; [apply Hs1; by right|by apply Hrp|tauto].
  - intros x Hi. destruct (decide (x = p)) as [->|Hxp]; [unfold m' in Hi; rewrite lookup_delete_eq in Hi; by destruct Hi|].
    split; [done|]. destruct (decide (x = q)) as [->|Hxq]; [by rewrite Hqm|]. rewrite Hm' in Hi by done. by apply Hdom.
  - rewrite Ealt, E, addrs_of_app. solve_Permutation.
Qed.

Lemma alter_alter r p cs cs' : alter p (fun _ => cs') (alter p (fun _ => cs) r) = alter p (fun _ => cs') r.
Proof.
  induction r as [q v ds IH] using rose_rect_list. cbn [alter]. destruct (Z.eqb_spec q p) as [->|Hqp]; cbn [alter].
  - by rewrite Z.eqb_refl.
  - destruct (Z.eqb_spec q p); [done|]. f_equal. rewrite map_map. apply map_ext_in. intros c Hc%list_elem_of_In.
    rewrite Forall_forall in IH. by apply IH.
Qed.

Lemma alter_root r p v cs f : r = Rose p v cs -> alter (addr r) f r = Rose p v (f cs).
Proof. intros ->. cbn [alter addr]. by rewrite Z.eqb_refl. Qed.

Lemma add_nodes_small s d n : nodes (tree s) + d = n -> 0 <= n < 2147483648 -> nodes (tree (add_nodes s d)) = n.
Proof. intros <- Hn. cbn. apply s32_small. lia. Qed.

(** The common part of the two ways to remove one node: [s1] is the state with the
    node cut off and its count taken away. *)
Lemma remove_ok s r q w ds1 p v cs ds2 u x es :
  inv s r -> subtree r (Rose q w (ds1 ++ Rose p v cs :: ds2)) ->
  let r1 := alter q (fun _ => ds1 ++ ds2) r in
  subtree r1 (Rose u x es) ->
  exists s1 s', delete_child (add_nodes s (-1)) q p = Ret s1 /\ root (tree s1) = addr r /\ hand_over s1 p u = Ret s' /\
    inv s' (alter u (fun _ => es ++ cs) r1) /\ freed s' = p :: freed s.
Proof.
  intros [Hroot Hr Hn Hc Hsm Hcl] Ht r1 Hu.
  destruct (delete_child_ok (add_nodes s (-1)) r q w ds1 (Rose p v cs) ds2 Hr Hn Ht)
    as (s1 & E1 & Et1 & Ef1 & Hr1 & Hrt & Hperm & Hsub & Hdom).
  fold r1 in Hr1, Hperm, Hsub.
  destruct (hand_over_ok s1 r1 p u v x cs es q Hr1 Hrt) as (s' & E' & Et' & Ef' & Hr' & Hcl' & Hperm'); [by rewrite <- Hperm|done|].
  exists s1, s'. split; [exact E1|]. split; [by rewrite Et1|]. split; [exact E'|]. split; [|by rewrite Ef', Ef1].
  rewrite addrs_unfold in Hperm.
  assert (addrs r ≡ₚ p :: addrs (alter u (fun _ => es ++ cs) r1)) as Hp by (rewrite Hperm, Hperm'; solve_Permutation).
  assert (length (addrs r) = S (length (addrs (alter u (fun _ => es ++ cs) r1)))) as Hlen by (by rewrite Hp).
  constructor.
  - rewrite Et', Et1, addr_alter. unfold r1. rewrite addr_alter. exact Hroot.
  - exact Hr'.
  - rewrite Hp in Hn. by apply NoDup_cons in Hn as [_ ?].
  - rewrite Et', Et1. rewrite (add_nodes_small s (-1) (Z.of_nat (length (addrs (alter u (fun _ => es ++ cs) r1))))); lia.
  - lia.
  - intros y Hy. apply Hcl' in Hy as [Hyp Hy]. apply elem_of_dom in Hy. rewrite Hdom in Hy. apply elem_of_dom, Hcl in Hy.
    rewrite Hp, elem_of_cons in Hy. tauto.
Qed.

Lemma inv_node s r q w ds1 p v cs ds2 :
  inv s r -> subtree r (Rose q w (ds1 ++ Rose p v cs :: ds2)) ->
  get_node s p = Ret (Node v (map addr cs) q) /\ q <> NULL /\ p <> addr r.
Proof.
  intros [_ Hr Hn _ _ _] Ht. destruct (subtree_rep _ _ _ _ Hr Ht) as [par Hq]. apply rep_unfold in Hq as (Hqn & _ & Hqc).
  rewrite Forall_app, Forall_cons in Hqc. split; [apply get_node_rep; tauto|]. split; [done|]. intros ->.
  destruct (alter_split _ _ _ _ Hn Ht) as (rest & E & _). destruct r as [a b es]. cbn [addr] in *.
  inversion Ht as [r' E1 E2|p' v' cs' c t' Hc Ht' E1 E2]; subst.
  - rewrite addrs_unfold, addrs_of_app, addrs_of_cons in Hn. apply NoDup_cons in Hn as [Hn _]. apply Hn.
    rewrite !elem_of_app. right. left. left.
  - rewrite addrs_unfold in Hn. apply NoDup_cons in Hn as [Hn _]. apply Hn, elem_addrs_of. exists c. split; [done|].
    apply (subtree_addrs _ _ Ht'). rewrite addrs_unfold, addrs_of_app, addrs_of_cons, elem_of_cons, !elem_of_app. do 2 right. left. left.
Qed.

Lemma tree_remove_ok s r q w ds1 p v cs ds2 :
  inv s r -> subtree r (Rose q w (ds1 ++ Rose p v cs :: ds2)) ->
  exists s', tree_remove s p = Ret s' /\ inv s' (alter q (fun _ => ds1 ++ ds2 ++ cs) r) /\ freed s' = p :: freed s.
Proof.
  intros Hi Ht. destruct (inv_node _ _ _ _ _ _ _ _ _ Hi Ht) as (Hg & Hqn & _).
  unfold tree_remove. rewrite Hg. cbn [mbind outcome_bind parent]. destruct (Z.eqb_spec q NULL); [done|].
  destruct (remove_ok s r q w ds1 p v cs ds2 q w (ds1 ++ ds2) Hi Ht) as (s1 & s' & Hd & _ & Hh & Hi' & Hf).
  { apply (subtree_alter r q w (ds1 ++ Rose p v cs :: ds2)); [apply Hi|done]. }
  rewrite Hd. cbn [mbind outcome_bind]. rewrite Hh. exists s'. rewrite alter_alter, <- app_assoc in Hi'. done.
Qed.

(** [tree_remove] takes one node out and appends its children, in order, to
    those of its parent; the invariant (every parent pointer right, no node lost,
    the count exact) holds again and only the removed node is freed. *)
Theorem tree_remove_refines s r q w ds1 p v cs ds2 :
  inv s r -> subtree r (Rose q w (ds1 ++ Rose p v cs :: ds2)) ->
  exists s', tree_remove s p = Ret s' /\ inv s' (alter q (fun _ => ds1 ++ ds2 ++ cs) r) /\ freed s' = p :: freed s.
Proof. apply tree_remove_ok. Qed.

Lemma tree_remove_reparent_root_ok s r q w ds1 p v cs ds2 :
  inv s r -> subtree r (Rose q w (ds1 ++ Rose p v cs :: ds2)) ->
  exists s', tree_remove_reparent_root s p = Ret s' /\
    inv s' (alter (addr r) (fun ds => ds ++ cs) (alter q (fun _ => ds1 ++ ds2) r)) /\ freed s' = p :: freed s.
Proof.
  intros Hi Ht. destruct (inv_node _ _ _ _ _ _ _ _ _ Hi Ht) as (Hg & Hqn & _).
  unfold tree_remove_reparent_root. rewrite Hg. cbn [mbind outcome_bind parent]. destruct (Z.eqb_spec q NULL); [done|].
  destruct (alter q (fun _ => ds1 ++ ds2) r) as [a b es] eqn:Er1.
  assert (addr r = a) as Ha by (by rewrite <- (addr_alter q (fun _ => ds1 ++ ds2)), Er1).
  destruct (remove_ok s r q w ds1 p v cs ds2 a b es Hi Ht) as (s1 & s' & -> & Hroot & Hh & Hi' & Hf).
  { rewrite Er1. constructor. }
  cbn [mbind outcome_bind]. rewrite Hroot, Ha, Hh. exists s'. split; [done|]. split; [|done].
  rewrite Er1 in Hi'. cbn [alter] in *. by rewrite Z.eqb_refl in *.
Qed.

(** [tree_remove_reparent_root], which [delete_process] calls, takes one node out
    and appends its children to those of the root; the invariant holds again. *)
Theorem tree_remove_reparent_root_refines s r q w ds1 p v cs ds2 :
  inv s r -> subtree r (Rose q w (ds1 ++ Rose p v cs :: ds2)) ->
  exists s', tree_remove_reparent_root s p = Ret s' /\
    inv s' (alter (addr r) (fun ds => ds ++ cs) (alter q (fun _ => ds1 ++ ds2) r)) /\ freed s' = p :: freed s.
Proof. apply tree_remove_reparent_root_ok. Qed.

(** *** Inserting *)

Section Insert.
Context `{NodeAlloc}.

Lemma insert_child_ok s r q w ds v :
  inv s r -> subtree r (Rose q w ds) -> Z.of_nat (length (addrs r)) + 1 < 2147483648 ->
  exists s' p, tree_node_insert_child s q v = Ret (s', p) /\ (p ∉ addrs r) /\
    inv s' (alter q (fun _ => ds ++ [Rose p v []]) r) /\ freed s' = freed s.
Proof.
  intros [Hroot Hr Hn Hc Hsm Hcl] Ht Hlt. set (p := new_node (cells s)).
  pose proof (new_node_nonnull (cells s)) as Hpn. pose proof (new_node_fresh (cells s)) as Hpf. fold p in Hpn, Hpf.
  assert (p ∉ addrs r) as Hp.
  { intros Hi. destruct (rep_cell _ _ _ _ Hr Hi) as [_ [x Hx]]. congruence. }
  destruct (subtree_rep _ _ _ _ Hr Ht) as [par Hq]. pose proof Hq as (Hqn & Hqm & Hqc)%rep_unfold.
  pose proof (subtree_addrs _ _ Ht) as Hsub. rewrite addrs_unfold in Hsub.
  assert (q <> p) as Hqp by (intros ->; apply Hp, Hsub; left).
  destruct (alter_split _ _ _ _ Hn Ht) as (rest & E & Ealt).
  assert (addrs (alter q (fun _ => ds ++ [Rose p v []]) r) ≡ₚ p :: addrs r) as Hperm.
  { rewrite Ealt, E, addrs_of_app. cbn [addrs_of map concat addrs app]. solve_Permutation. }
  unfold tree_node_insert_child, tree_node_create, tree_node_insert_child_node. fold p.
  set (s1 := put_node s p (Node v [] NULL)).
  assert (get_node s1 q = Ret (Node w (map addr ds) par)) as Hg.
  { unfold get_node. rewrite (proj2 (Z.eqb_neq _ _) Hqn). cbn [s1 put_node cells]. by rewrite lookup_insert_ne, Hqm. }
  rewrite Hg. cbn [mbind outcome_bind children]. unfold set_children. rewrite Hg. cbn [mbind outcome_bind value parent].
  unfold set_parent, get_node at 1. rewrite (proj2 (Z.eqb_neq _ _) Hpn). cbn [put_node cells].
  rewrite lookup_insert_ne by done. cbn [s1 put_node cells]. rewrite lookup_insert_eq. cbn [of_option mbind outcome_bind value children].
  eexists _, p. split; [done|]. split; [done|]. split; [|done]. unfold add_nodes, set_tree, put_node, s1. cbn [put_node tree cells freed].
  match goal with |- inv (State _ ?m _) _ => set (m' := m) end.
  assert (forall x, x <> p -> x <> q -> m' !! x = cells s !! x) as Hm'.
  { intros x Hxp Hxq. unfold m'. by rewrite !lookup_insert_ne. }
  assert (m' !! q = Some (Node w (map addr ds ++ [p]) par)) as Hmq by (unfold m'; rewrite lookup_insert_ne, lookup_insert_eq; done).
  constructor; cbn [tree root nodes cells].
  - by rewrite addr_alter.
  - apply (rep_alter (cells s) m' NULL r q w ds); [done|done|done| | |].
    + intros par' E'. rewrite Hqm in E'. injection E' as <-. by rewrite map_app.
    + apply Forall_app. split.
      * apply (reps_frame (cells s)); [done|]. intros x Hi. apply Hm'; [intros ->; apply Hp, Hsub; by right|].
        intros ->. rewrite E in Hn. apply NoDup_cons in Hn as [Hn _]. apply Hn. rewrite elem_of_app. by left.
      * constructor; [|constructor]. apply rep_unfold. split; [done|]. split; [apply lookup_insert_eq|constructor].
    + intros x Hi Hj. rewrite not_elem_of_cons in Hj. apply Hm'; [congruence|tauto].
  - rewrite Hperm. by constructor.
  - rewrite Hperm. cbn [length]. rewrite s32_small; lia.
  - rewrite Hperm. cbn [length]. lia.
  - intros x Hi. rewrite Hperm. destruct (decide (x = p)) as [->|Hxp]; [left|]. right.
    destruct (decide (x = q)) as [->|Hxq]; [apply Hsub; left|]. rewrite Hm' in Hi by done. by apply Hcl.
Qed.

(** [tree_node_insert_child] adds a new leaf after the other children of the
    node, and the invariant holds again. *)
Theorem tree_node_insert_child_refines s r q w ds v :
  inv s r -> subtree r (Rose q w ds) -> Z.of_nat (length (addrs r)) + 1 < 2147483648 ->
  exists s' p, tree_node_insert_child s q v = Ret (s', p) /\ (p ∉ addrs r) /\
    inv s' (alter q (fun _ => ds ++ [Rose p v []]) r) /\ freed s' = freed s.
Proof. apply insert_child_ok. Qed.

Lemma set_root_inv t v : inv (tree_set_root (State t ∅ []) v) (Rose (new_node ∅) v []).
Proof.
  pose proof (new_node_nonnull ∅) as Hn. set (p := new_node ∅) in *. constructor; cbn.
  - done.
  - split; [done|]. split; [|done]. apply lookup_insert_eq.
  - constructor; [apply not_elem_of_nil|constructor].
  - done.
  - lia.
  - intros x Hx. apply list_elem_of_singleton. destruct (decide (x = p)) as [->|Hne]; [done|].
    rewrite lookup_insert_ne, lookup_empty in Hx by done. by destruct Hx.
Qed.

End Insert.

(** *** Searching and counting *)

Lemma depth_enough s r : inv s r -> (length (addrs r) < depth s)%nat.
Proof. intros [_ Hr Hn _ _ _]. unfold depth. pose proof (rep_size _ _ _ Hr Hn). lia. Qed.

Lemma length_addrs_child c cs : c ∈ cs -> (length (addrs c) <= length (addrs_of cs))%nat.
Proof.
  intros Hc. apply list_elem_of_split in Hc as (a & b & ->). rewrite addrs_of_app, addrs_of_cons, !length_app. lia.
Qed.

Definition found (o : option (ptr * ptr)) : ptr := match o with Some (p, _) => p | None => NULL end.

Lemma find_app {A} (f : A -> bool) l k :
  List.find f (l ++ k) = match List.find f l with Some x => Some x | None => List.find f k end.
Proof. induction l as [|x l IH]; [done|]. cbn. by destruct (f x). Qed.

Lemma preorder_addr r x : x ∈ preorder r -> x.1 ∈ addrs r.
Proof.
  induction r as [p v cs IH] using rose_rect_list. cbn [preorder]. intros [-> | Hx]%elem_of_cons; [left|]. right.
  fold (addrs_of cs). rewrite list_elem_of_In, in_concat in Hx. destruct Hx as (l & Hl & Hx).
  apply in_map_iff in Hl as (c & <- & Hc). apply list_elem_of_In in Hc, Hx. rewrite Forall_forall in IH.
  apply elem_addrs_of. exists c. split; [done|by apply IH].
Qed.

Lemma tree_node_find_ok (comparator : ptr -> ptr -> bool) s par r fuel v :
  rep (cells s) par r -> (length (addrs r) <= fuel)%nat ->
  tree_node_find comparator fuel s (addr r) v = Ret (found (List.find (fun x => comparator x.2 v) (preorder r))).
Proof.
  revert par fuel. induction r as [p w cs IH] using rose_rect_list. intros par fuel Hr Hf.
  rewrite addrs_unfold in Hf. cbn [length] in Hf. destruct fuel as [|fuel]; [lia|]. cbn [tree_node_find addr].
  rewrite (get_node_rep _ _ _ _ _ Hr). cbn [mbind outcome_bind value children preorder List.find snd].
  destruct (comparator w v); [done|]. apply rep_unfold in Hr as (_ & _ & Hcs). rewrite Forall_forall in IH, Hcs.
  assert (forall c, c ∈ cs -> (length (addrs c) <= fuel)%nat) as Hl by (intros c Hc; pose proof (length_addrs_child c cs Hc); lia).
  clear Hf. induction cs as [|c cs IHl]; [done|]. cbn [map concat].
  rewrite (IH c ltac:(left) p fuel (Hcs c ltac:(left)) (Hl c ltac:(left))). cbn [mbind outcome_bind]. rewrite find_app.
  destruct (List.find _ (preorder c)) as [[a b]|] eqn:Ef; cbn [found].
  - assert (a <> NULL) as Ha.
    { apply find_some in Ef as [Ef _]. apply list_elem_of_In, preorder_addr in Ef.
      apply (rep_cell (cells s) p c a (Hcs c ltac:(left)) Ef). }
    by rewrite (proj2 (Z.eqb_neq _ _) Ha).
  - cbn. apply IHl; intros c' Hc'; [apply (IH c')|apply Hcs|apply Hl]; by right.
Qed.

(** [tree_find] returns the first node, parents before children and siblings in
    order, whose value the comparator accepts, or [NULL] when there is none. *)
Theorem tree_find_first (comparator : ptr -> ptr -> bool) s r v :
  inv s r -> tree_find comparator s v = Ret (found (List.find (fun x => comparator x.2 v) (preorder r))).
Proof.
  intros Hi. unfold tree_find. rewrite (inv_root _ _ Hi). apply (tree_node_find_ok comparator s NULL); [apply Hi|].
  pose proof (depth_enough s r Hi). lia.
Qed.

(** [tree_node_find_parent] agrees with the parent pointers below [haystack]. *)
Lemma find_parent_ok s par r fuel x :
  rep (cells s) par r -> NoDup (addrs r) -> (length (addrs r) <= fuel)%nat ->
  ((x ∉ tail (addrs r)) -> tree_node_find_parent fuel s (addr r) x = Ret NULL) /\
  (x ∈ tail (addrs r) -> exists n, cells s !! x = Some n /\ tree_node_find_parent fuel s (addr r) x = Ret (parent n) /\ parent n <> NULL).
Proof.
  revert par fuel. induction r as [p w cs IH] using rose_rect_list. intros par fuel Hr Hn Hf.
  rewrite addrs_unfold in *. cbn [length tail] in *. destruct fuel as [|fuel]; [lia|]. cbn [tree_node_find_parent addr].
  rewrite (get_node_rep _ _ _ _ _ Hr). cbn [mbind outcome_bind children]. apply rep_unfold in Hr as (Hp & _ & Hcs).
  apply NoDup_cons in Hn as [_ Hn]. rewrite Forall_forall in IH, Hcs.
  assert (forall c, c ∈ cs -> (length (addrs c) <= fuel)%nat) as Hl by (intros c Hc; pose proof (length_addrs_child c cs Hc); lia).
  clear Hf. induction cs as [|c cs IHl].
  { split; [done|by intros ?%elem_of_nil]. }
  rewrite addrs_of_cons in *. apply NoDup_app in Hn as (Hnc & Hd & Hn). cbn [map].
  destruct (IH c ltac:(left) p fuel (Hcs c ltac:(left)) Hnc (Hl c ltac:(left))) as [Hno Hyes].
  destruct IHl as [Lno Lyes]; [intros c' Hc'; apply (IH c'); by right|intros c' Hc'; apply Hcs; by right|done|intros c' Hc'; apply Hl; by right|].
  pose proof (Hcs c ltac:(left)) as Hrc. destruct c as [a v ds]. cbn [addr] in *. rewrite addrs_unfold in *. cbn [tail] in *.
  rewrite elem_of_app, elem_of_cons. apply rep_unfold in Hrc as (Ha & Hm & _).
  destruct (Z.eqb_spec a x) as [->|Hax].
  { split; [tauto|]. intros _. exists (Node v (map addr ds) p). done. }
  destruct (decide (x ∈ addrs_of ds)) as [Hi|Hi].
  - split; [tauto|]. intros _. destruct (Hyes Hi) as (n & Hx & -> & Hnn). exists n. cbn [mbind outcome_bind].
    by rewrite (proj2 (Z.eqb_neq _ _) Hnn).
  - rewrite (Hno Hi). cbn [mbind outcome_bind]. change (negb (NULL =? NULL)) with false. cbv iota.
    split; intros Hx; [apply Lno; tauto|]. apply Lyes. destruct Hx as [[-> | Hx]|Hx]; done.
Qed.

(** The search for a parent agrees with the parent pointers, at every node of the tree. *)
Theorem tree_find_parent_correct s r x :
  inv s r -> x ∈ addrs r -> exists n, get_node s x = Ret n /\ tree_find_parent s x = Ret (parent n).
Proof.
  intros Hi Hx. pose proof Hi as [Hroot Hr Hn _ _ _].
  destruct (rep_cell _ _ _ _ Hr Hx) as [Hxn [n Hm]]. exists n.
  split; [unfold get_node; rewrite (proj2 (Z.eqb_neq _ _) Hxn), Hm; done|].
  unfold tree_find_parent. rewrite Hroot. pose proof (depth_enough s r Hi) as Hd.
  destruct (find_parent_ok s NULL r (depth s) x Hr Hn) as [Hno Hyes]; [lia|].
  destruct (rep_cell _ _ _ _ Hr (addr_in r)) as [Hrn _]. rewrite (proj2 (Z.eqb_neq _ _) Hrn).
  destruct (decide (x ∈ tail (addrs r))) as [Hi'|Hi'].
  - destruct (Hyes Hi') as (n' & Hm' & -> & _). congruence.
  - rewrite (Hno Hi'). destruct r as [p v cs]. rewrite addrs_unfold in *. apply elem_of_cons in Hx as [->|Hx]; [|done].
    apply rep_unfold in Hr as (_ & Hm' & _). rewrite Hm in Hm'. by injection Hm' as ->.
Qed.

Lemma count_children_ok s par r fuel :
  rep (cells s) par r -> (length (addrs r) <= fuel)%nat -> Z.of_nat (length (addrs r)) < 2147483648 ->
  count_children fuel s (addr r) = Ret (Z.of_nat (length (addrs r)) - 1).
Proof.
  revert par fuel. induction r as [p w cs IH] using rose_rect_list. intros par fuel Hr Hf Hs.
  rewrite addrs_unfold in *. cbn [length] in *. destruct fuel as [|fuel]; [lia|]. cbn [count_children addr].
  rewrite (get_node_rep _ _ _ _ _ Hr). cbn [mbind outcome_bind children]. apply rep_unfold in Hr as (Hp & _ & Hcs).
  rewrite (proj2 (Z.eqb_neq _ _) Hp). rewrite Forall_forall in IH, Hcs.
  assert (forall c, c ∈ cs -> (length (addrs c) <= fuel)%nat) as Hl by (intros c Hc; pose proof (length_addrs_child c cs Hc); lia).
  rewrite length_map.
  enough (forall out, Z.of_nat (length cs) <= out -> out + Z.of_nat (length (addrs_of cs)) - Z.of_nat (length cs) < 2147483648 ->
    (fix each out cs := match cs with
     | [] => Ret out
     | c :: cs' => k ← count_children fuel s c; each (s32 (out + k)) cs'
     end) out (map addr cs) = Ret (out + Z.of_nat (length (addrs_of cs)) - Z.of_nat (length cs))) as Hg.
  { rewrite Hg by lia. f_equal. lia. }
  clear Hf Hs. induction cs as [|c cs IHl]; intros out Ho Hs; [cbn [map]; f_equal; change (addrs_of []) with (@nil ptr); cbn [length]; lia|]. cbn [map].
  rewrite addrs_of_cons, length_app in *. cbn [length] in *.
  assert (1 <= length (addrs c))%nat by (destruct c; cbn [addrs length]; lia).
  assert (length cs <= length (addrs_of cs))%nat as Hcl.
  { clear. induction cs as [|c cs IH]; [done|]. rewrite addrs_of_cons, length_app. destruct c. cbn [addrs length]. lia. }
  rewrite (IH c ltac:(left) p fuel (Hcs c ltac:(left)) (Hl c ltac:(left))) by lia. cbn [mbind outcome_bind].
  rewrite s32_small by lia. rewrite IHl; [f_equal; lia| | | |lia|lia]; intros c' Hc'; [apply (IH c')|apply Hcs|apply Hl]; by right.
Qed.

(** Freeing a branch removes its cells and no others. *)
Lemma tree_node_free_ok s par r fuel :
  rep (cells s) par r -> NoDup (addrs r) -> (length (addrs r) <= fuel)%nat ->
  exists s', tree_node_free fuel s (addr r) = Ret s' /\ tree s' = tree s /\
    forall x, cells s' !! x = if decide (x ∈ addrs r) then None else cells s !! x.
Proof.
  revert s par fuel. induction r as [p w cs IH] using rose_rect_list. intros s par fuel Hr Hn Hf.
  rewrite addrs_unfold in *. cbn [length] in *. destruct fuel as [|fuel]; [lia|]. cbn [tree_node_free addr].
  rewrite (get_node_rep _ _ _ _ _ Hr). cbn [mbind outcome_bind children]. apply rep_unfold in Hr as (Hp & _ & Hcs).
  rewrite (proj2 (Z.eqb_neq _ _) Hp). apply NoDup_cons in Hn as [Hpn Hn].
  enough (exists s', (fix each s cs := match cs with
     | [] => Ret s
     | c :: cs' => s ← tree_node_free fuel s c; each s cs'
     end) s (map addr cs) = Ret s' /\ tree s' = tree s /\
     forall x, cells s' !! x = if decide (x ∈ addrs_of cs) then None else cells s !! x) as (s' & -> & Et & Hx).
  { cbn [mbind outcome_bind]. exists (free s' p). split; [done|]. split; [done|]. intros x. cbn [free cells].
    destruct (decide (x = p)) as [->|Hxp].
    - rewrite lookup_delete_eq, decide_True; [done|left].
    - rewrite lookup_delete_ne, Hx by done. apply decide_ext. rewrite elem_of_cons. tauto. }
  assert (forall c, c ∈ cs -> (length (addrs c) <= fuel)%nat) as Hl by (intros c Hc; pose proof (length_addrs_child c cs Hc); lia).
  clear Hf Hpn. revert s Hcs. rewrite Forall_forall in IH. induction cs as [|c cs IHl]; intros s Hcs.
  { exists s. split; [done|]. split; [done|]. intros x. rewrite decide_False; [done|apply not_elem_of_nil]. }
  cbn [map]. apply Forall_cons in Hcs as [Hc Hcs]. rewrite addrs_of_cons in *. apply NoDup_app in Hn as (Hnc & Hd & Hn).
  destruct (IH c ltac:(left) s p fuel Hc Hnc (Hl c ltac:(left))) as (s1 & -> & Et1 & Hx1). cbn [mbind outcome_bind].
  destruct (IHl) with (s := s1) as (s' & -> & Et & Hx);
    [intros c' Hc'; apply (IH c'); by right|done|intros c' Hc'; apply Hl; by right| |].
  { apply (reps_frame (cells s)); [done|]. intros x Hi. rewrite Hx1, decide_False; [done|]. intros Hj. by apply (Hd x). }
  exists s'. split; [done|]. split; [congruence|]. intros x. rewrite Hx, Hx1.
  destruct (decide (x ∈ addrs_of cs)), (decide (x ∈ addrs c)), (decide (x ∈ addrs c ++ addrs_of cs)) as [Hi|Hi];
    rewrite elem_of_app in Hi; tauto.
Qed.

(** *** Removing a branch *)

Lemma add_nodes_cells s d : cells (add_nodes s d) = cells s.
Proof. done. Qed.

Lemma parent_remove_ok s r q w ds1 t ds2 :
  inv s r -> subtree r (Rose q w (ds1 ++ t :: ds2)) ->
  exists s', tree_node_parent_remove s q (addr t) = Ret s' /\ inv s' (alter q (fun _ => ds1 ++ ds2) r) /\
    forall x, x ∈ addrs t -> cells s' !! x = None.
Proof.
  intros [Hroot Hr Hn Hc Hsm Hcl] Ht. set (r' := alter q _ r).
  set (s0 := add_nodes s (- (Z.of_nat (length (addrs t))))).
  destruct (delete_child_ok s0 r q w ds1 t ds2 Hr Hn Ht) as (s1 & E1 & Et1 & Ef1 & Hr1 & Hrt & Hperm & Hsub & Hdom).
  fold r' in Hr1, Hperm, Hsub. pose proof Hn as Hn'. rewrite Hperm in Hn'. apply NoDup_app in Hn' as (Hnt & Hd & Hnr).
  assert (length (addrs r) = length (addrs t) + length (addrs r'))%nat as Hlen by (by rewrite Hperm, length_app).
  assert (size (cells s1) = size (cells s)) as Hsize by (rewrite <- !size_dom, Hdom; done).
  pose proof (rep_size _ _ _ Hr Hn) as Hsz.
  destruct (tree_node_free_ok s1 q t (depth s1) Hrt Hnt) as (s' & E2 & Et2 & Hx); [unfold depth; lia|].
  destruct (subtree_rep _ _ _ _ Hr Ht) as [par Hq]. apply rep_unfold in Hq as (_ & _ & Hqc).
  rewrite Forall_app, Forall_cons in Hqc. destruct Hqc as (_ & Hrt0 & _).
  unfold tree_node_parent_remove, tree_count_children.
  rewrite (count_children_ok s q t (depth s) Hrt0) by (unfold depth; lia). cbn [mbind outcome_bind].
  replace (- (Z.of_nat (length (addrs t)) - 1 + 1)) with (- Z.of_nat (length (addrs t))) by lia. fold s0.
  rewrite E1. cbn [mbind outcome_bind]. exists s'. split; [exact E2|].
  split; [|intros x Hi; by rewrite Hx, decide_True].
  constructor.
  - rewrite Et2, Et1. unfold r'. by rewrite addr_alter.
  - apply (rep_frame (cells s1)); [done|]. intros x Hi. rewrite Hx, decide_False; [done|]. intros Hj. by apply (Hd x).
  - done.
  - rewrite Et2, Et1. unfold s0. rewrite (add_nodes_small s _ (Z.of_nat (length (addrs r')))); lia.
  - lia.
  - intros x [n E]. rewrite Hx in E. destruct (decide (x ∈ addrs t)) as [|Hi]; [done|].
    assert (x ∈ addrs r) as Hxr.
    { apply Hcl, elem_of_dom. change (cells s) with (cells s0). rewrite <- Hdom. by eapply elem_of_dom_2. }
    rewrite Hperm, elem_of_app in Hxr. tauto.
Qed.

Lemma remove_branch_ok s r q w ds1 t ds2 :
  inv s r -> subtree r (Rose q w (ds1 ++ t :: ds2)) ->
  exists s', tree_node_remove s (addr t) = Ret s' /\ inv s' (alter q (fun _ => ds1 ++ ds2) r) /\
    forall x, x ∈ addrs t -> cells s' !! x = None.
Proof.
  intros Hi Ht. destruct t as [p v cs]. cbn [addr]. destruct (inv_node _ _ _ _ _ _ _ _ _ Hi Ht) as (Hg & Hqn & _).
  unfold tree_node_remove. rewrite Hg. cbn [mbind outcome_bind parent]. rewrite (proj2 (Z.eqb_neq _ _) Hqn).
  cbn [andb mbind outcome_bind]. exact (parent_remove_ok s r q w ds1 (Rose p v cs) ds2 Hi Ht).
Qed.

Lemma remove_root_faults s r : inv s r -> tree_node_remove s (addr r) = Fault.
Proof.
  intros Hi. pose proof (depth_enough s r Hi) as Hd. destruct Hi as [Hroot Hr Hn _ _ _]. destruct r as [p v cs]. cbn [addr] in *.
  pose proof (get_node_rep _ _ _ _ _ Hr) as Hg. unfold tree_node_remove. rewrite Hg. cbn [mbind outcome_bind parent].
  rewrite Hroot, !Z.eqb_refl. cbn [andb].
  destruct (tree_node_free_ok (set_tree s (Build_tree 0 NULL)) NULL (Rose p v cs) (depth s) Hr Hn) as (s' & Hf & _ & Hx); [lia|].
  cbn [addr] in Hf. rewrite Hf. cbn [mbind outcome_bind]. unfold tree_node_parent_remove, tree_count_children, depth. cbn [count_children].
  pose proof Hr as (Hp & _ & _)%rep_unfold. rewrite (proj2 (Z.eqb_neq _ _) Hp). unfold get_node.
  rewrite (proj2 (Z.eqb_neq _ _) Hp), Hx, decide_True; [done|left].
Qed.

(** [tree_node_remove] takes a whole branch out, frees exactly its nodes and
    subtracts their number; on the root it goes on, after freeing it, to remove it
    from a parent that does not exist. *)
Theorem tree_node_remove_branch s r q w ds1 t ds2 :
  inv s r -> subtree r (Rose q w (ds1 ++ t :: ds2)) ->
  (exists s', tree_node_remove s (addr t) = Ret s' /\ inv s' (alter q (fun _ => ds1 ++ ds2) r) /\
    forall x, x ∈ addrs t -> cells s' !! x = None) /\
  tree_node_remove s (addr r) = Fault.
Proof. intros Hi Ht. split; [by apply (remove_branch_ok s r q w ds1 t ds2)|by apply remove_root_faults]. Qed.

(** *** Every sequence of operations *)

Inductive op := Insert (p v : ptr) | Remove (p : ptr) | RemoveReparentRoot (p : ptr) | RemoveBranch (p : ptr).

Section Steps.
Context `{NodeAlloc}.

Definition run (s : state) (o : op) : outcome state :=
  match o with
  | Insert p v => fst <$> tree_node_insert_child s p v
  | Remove p => tree_remove s p
  | RemoveReparentRoot p => tree_remove_reparent_root s p
  | RemoveBranch p => tree_node_remove s p
  end.

(** A node is inserted below a node that exists. *)
Definition legal (s : state) (o : op) : Prop :=
  match o with Insert p _ => is_Some (cells s !! p) | _ => True end.

(** The states of a tree from its first node on, as long as the count fits an [int]. *)
Inductive reachable : state -> Prop :=
  | reach_root t v : reachable (tree_set_root (State t ∅ []) v)
  | reach_step s o s' : reachable s -> nodes (tree s) < 2147483647 -> legal s o -> run s o = Ret s' -> reachable s'.

Lemma node_cases s r p n :
  inv s r -> get_node s p = Ret n ->
  (p = addr r /\ parent n = NULL) \/
  exists q w ds1 v cs ds2, subtree r (Rose q w (ds1 ++ Rose p v cs :: ds2)).
Proof.
  intros Hi Hg. pose proof Hi as [_ Hr _ _ _ Hcl]. unfold get_node in Hg. destruct (p =? NULL); [done|].
  destruct (cells s !! p) as [n'|] eqn:E; [|done]. injection Hg as ->.
  destruct (subtree_of_addr r p) as (t & Ht & <-); [apply Hcl; by rewrite E|].
  destruct (subtree_parent _ _ _ _ Hr Ht) as [-> | (q & w & ds1 & ds2 & Hs & _)].
  - left. split; [done|]. destruct r as [a v cs]. apply rep_unfold in Hr as (_ & E' & _). cbn [addr] in E. rewrite E in E'. by injection E' as ->.
  - right. destruct t as [p v cs]. eauto 10.
Qed.

(** The three ways to remove: at the root nothing happens or a fault, elsewhere a tree is left. *)
Lemma remove_step_inv s r p s' (f : state -> ptr -> outcome state) :
  inv s r -> (forall n, get_node s p = Ret n -> p = addr r -> parent n = NULL -> f s p = Ret s' -> s' = s) ->
  (forall q w ds1 v cs ds2, subtree r (Rose q w (ds1 ++ Rose p v cs :: ds2)) -> exists s1 r1, f s p = Ret s1 /\ inv s1 r1) ->
  (forall s1, f s p = Ret s1 -> exists n, get_node s p = Ret n) ->
  f s p = Ret s' -> exists r', inv s' r'.
Proof.
  intros Hi Hroot Hbelow Hget Hf. destruct (Hget _ Hf) as [n Hg].
  destruct (node_cases _ _ _ _ Hi Hg) as [[Hp Hn]|(q & w & ds1 & v & cs & ds2 & Ht)].
  - rewrite (Hroot n Hg Hp Hn Hf). eauto.
  - destruct (Hbelow _ _ _ _ _ _ Ht) as (s1 & r1 & E & Hi1). rewrite Hf in E. injection E as <-. eauto.
Qed.

Lemma step_inv s r o s' :
  inv s r -> nodes (tree s) < 2147483647 -> legal s o -> run s o = Ret s' -> exists r', inv s' r'.
Proof.
  intros Hi Hlt Hleg. destruct o as [p v|p|p|p]; cbn [run].
  - intros Hrun. pose proof Hi as [_ _ _ Hc _ Hcl]. destruct (subtree_of_addr r p) as ([q w ds] & Ht & Ep); [by apply Hcl|].
    cbn [addr] in Ep. subst q. destruct (insert_child_ok s r p w ds v Hi Ht) as (s1 & out & E & _ & Hi1 & _); [lia|].
    rewrite E in Hrun. injection Hrun as <-. eauto.
  - apply (remove_step_inv s r p s' (fun s p => tree_remove s p) Hi).
    + intros n Hg _ Hn. unfold tree_remove. rewrite Hg. cbn [mbind outcome_bind]. rewrite Hn. by intros [= ->].
    + intros q w ds1 v cs ds2 Ht. destruct (tree_remove_ok s r q w ds1 p v cs ds2 Hi Ht) as (s1 & E & Hi1 & _). eauto.
    + intros s1 E. unfold tree_remove in E. destruct (get_node s p) eqn:Hg; try done. eauto.
  - apply (remove_step_inv s r p s' (fun s p => tree_remove_reparent_root s p) Hi).
    + intros n Hg _ Hn. unfold tree_remove_reparent_root. rewrite Hg. cbn [mbind outcome_bind]. rewrite Hn. by intros [= ->].
    + intros q w ds1 v cs ds2 Ht. destruct (tree_remove_reparent_root_ok s r q w ds1 p v cs ds2 Hi Ht) as (s1 & E & Hi1 & _). eauto.
    + intros s1 E. unfold tree_remove_reparent_root in E. destruct (get_node s p) eqn:Hg; try done. eauto.
  - apply (remove_step_inv s r p s' (fun s p => tree_node_remove s p) Hi).
    + intros n Hg -> _. by rewrite (remove_root_faults s r Hi).
    + intros q w ds1 v cs ds2 Ht. destruct (remove_branch_ok s r q w ds1 _ ds2 Hi Ht) as (s1 & E & Hi1 & _). eauto.
    + intros s1 E. unfold tree_node_remove in E. destruct (get_node s p) eqn:Hg; try done. eauto.
Qed.

(** C16: In every state that insertions and removals reach from a first node, the
    cells form one finite tree: the root is its root, every parent pointer is right,
    no node is shared or lost, and the count is the number of nodes. *)
Theorem tree_well_formed s : reachable s -> exists r, inv s r.
Proof.
  induction 1 as [t v|s o s' _ [r Hi] Hlt Hleg Hrun]; [eexists; apply set_root_inv|by eapply step_inv].
Qed.

End Steps.

(** ** Witnesses: a tree of four nodes *)

#[local] Program Instance fresh_alloc : NodeAlloc := {| new_node m := fresh ({[NULL]} ∪ dom m) |}.
Next Obligation. intros m E. apply (is_fresh ({[NULL]} ∪ dom m : gset ptr)). rewrite E. set_solver. Qed.
Next Obligation. intros m. apply not_elem_of_dom. pose proof (is_fresh ({[NULL]} ∪ dom m : gset ptr)). set_solver. Qed.

Definition demo_rose : rose := Rose 1 10 [Rose 2 20 [Rose 4 40 []]; Rose 3 30 []].
Definition demo : state :=
  State (Build_tree 4 1) {[1 := Node 10 [2; 3] 0; 2 := Node 20 [4] 1; 3 := Node 30 [] 1; 4 := Node 40 [] 2]} [].

Lemma demo_inv : inv demo demo_rose.
Proof.
  constructor; [done|repeat split; by vm_compute|by_decide|done|by vm_compute|].
  intros x Hx. apply elem_of_dom in Hx. revert Hx. cbn [demo cells].
  rewrite !dom_insert_L, dom_singleton_L, !elem_of_union, !elem_of_singleton. cbn [demo_rose addrs map concat app].
  rewrite !elem_of_cons. intuition.
Qed.

Lemma demo_child : subtree demo_rose (Rose 1 10 ([] ++ Rose 2 20 [Rose 4 40 []] :: [Rose 3 30 []])).
Proof. constructor. Qed.

Lemma tree_remove_refines_witness :
  exists s', tree_remove demo 2 = Ret s' /\ inv s' (Rose 1 10 [Rose 3 30 []; Rose 4 40 []]) /\ freed s' = [2].
Proof. exact (tree_remove_refines demo demo_rose 1 10 [] 2 20 [Rose 4 40 []] [Rose 3 30 []] demo_inv demo_child). Defined.

Lemma tree_remove_reparent_root_refines_witness :
  exists s', tree_remove_reparent_root demo 2 = Ret s' /\ inv s' (Rose 1 10 [Rose 3 30 []; Rose 4 40 []]) /\ freed s' = [2].
Proof. exact (tree_remove_reparent_root_refines demo demo_rose 1 10 [] 2 20 [Rose 4 40 []] [Rose 3 30 []] demo_inv demo_child). Defined.

Lemma tree_node_insert_child_refines_witness :
  exists s' p, tree_node_insert_child demo 3 50 = Ret (s', p) /\ (p ∉ addrs demo_rose) /\
    inv s' (alter 3 (fun _ => [] ++ [Rose p 50 []]) demo_rose) /\ freed s' = [].
Proof.
  apply (tree_node_insert_child_refines demo demo_rose 3 30 [] 50 demo_inv); [|cbn; lia].
  apply subtree_below with (Rose 3 30 []); [right; left|constructor].
Defined.

Lemma tree_find_first_witness : tree_find Z.eqb demo 40 = Ret 4.
Proof. exact (tree_find_first Z.eqb demo demo_rose 40 demo_inv). Defined.

Lemma tree_find_parent_correct_witness : exists n, get_node demo 4 = Ret n /\ tree_find_parent demo 4 = Ret (parent n).
Proof. apply (tree_find_parent_correct demo demo_rose 4 demo_inv). do 2 right. left. Defined.

Lemma tree_node_remove_branch_witness :
  (exists s', tree_node_remove demo 2 = Ret s' /\ inv s' (Rose 1 10 [Rose 3 30 []]) /\
    forall x, x ∈ [2; 4] -> cells s' !! x = None) /\ tree_node_remove demo 1 = Fault.
Proof. exact (tree_node_remove_branch demo demo_rose 1 10 [] (Rose 2 20 [Rose 4 40 []]) [Rose 3 30 []] demo_inv demo_child). Defined.

Definition first : state := tree_set_root (State (Build_tree 0 NULL) ∅ []) 7.

Lemma tree_well_formed_witness : exists s' r, run first (Insert (new_node ∅) 9) = Ret s' /\ inv s' r.
Proof.
  destruct (insert_child_ok first (Rose (new_node ∅) 7 []) (new_node ∅) 7 [] 9 (set_root_inv _ 7)) as (s' & p & E & _);
    [constructor|cbn; lia|].
  assert (run first (Insert (new_node ∅) 9) = Ret s') as Hrun by (cbn [run]; rewrite E; reflexivity).
  destruct (tree_well_formed s') as [r Hr].
  { apply (reach_step first (Insert (new_node ∅) 9) s'); [apply reach_root|cbn; lia| |exact Hrun].
    cbn [legal first tree_set_root tree_node_create set_tree put_node cells]. rewrite lookup_insert_eq. eauto. }
  exists s', r. split; [exact Hrun|exact Hr].
Defined.

End Tree.
