(* ===== verification/Keyboard.v ===== *)
(** * The keyboard ([kernel/src/dev/kbd.c]) and reading a line from it
      ([stdio_read__] of [kernel/src/syscalls.c])

    The interrupt handler puts characters into an array of 256 bytes and [getchar]
    takes them out.  The two pointers are indices into the array; they are put back
    to 0 when they are greater than 256, so index 256 is used too.  Interrupts arrive
    before each evaluation of the condition of the waiting loop and between the
    statements of [getchar] that use the buffer: the argument [arrivals] says which scan
    codes are handled at each of these points.  Each statement is taken as one step. *)

From stdpp Require Import base numbers list.
From S2P Require Import Prelude.

Module Keyboard.

(** The layout: what each of the scan codes 0 to 127 stands for. *)
Definition keyboard_layout_us : list Z :=
  [0; 27; 49; 50; 51; 52; 53; 54; 55; 56; 57; 48; 45; 61; 8; 9;
   113; 119; 101; 114; 116; 121; 117; 105; 111; 112; 91; 93; 10; 94;
   97; 115; 100; 102; 103; 104; 106; 107; 108; 59; 39; 96; 0;
   92; 122; 120; 99; 118; 98; 110; 109; 44; 46; 47; 0; 42; 0; 32; 0; 0;
   0; 0; 0; 0; 0; 0; 0; 0; 0; 0; 0; 0; 0; 0; 45; 0; 0; 0; 43]
  ++ replicate 49 0.

Record ringbuffer_t := Buffer { data : list Z; read_ptr : Z; write_ptr : Z; counter : Z }.

(** [malloc_] does not clear the array. *)
Definition _kbd_initialize (junk : list Z) : ringbuffer_t := Buffer junk 0 0 0.

Definition kbd_handler (k : ringbuffer_t) (scan_code : Z) : outcome ringbuffer_t :=
  if truthy (Z.land scan_code 128) then Ret k
  else
    key_result ← aget keyboard_layout_us scan_code;
    if key_result =? 0 then Ret k
    else
      let counter := u32 (counter k + 1) in
      let write_ptr := if 256 <? write_ptr k then 0 else write_ptr k in
      data ← aset (data k) write_ptr key_result;
      Ret (Buffer data (read_ptr k) (write_ptr + 1) counter).

Fixpoint interrupts (k : ringbuffer_t) (codes : list Z) : outcome ringbuffer_t :=
  match codes with
  | [] => Ret k
  | c :: codes' => k ← kbd_handler k c; interrupts k codes'
  end.

(** The interrupts that come before the next statement. *)
Definition tick (k : ringbuffer_t) (arrivals : list (list Z)) : outcome (ringbuffer_t * list (list Z)) :=
  match arrivals with
  | [] => Ret (k, [])
  | codes :: arrivals' => k ← interrupts k codes; Ret (k, arrivals')
  end.

(** [while(keybuffer->counter == 0)]; [None]: it is still waiting. *)
Fixpoint wait_key (k : ringbuffer_t) (arrivals : list (list Z)) : outcome (option (ringbuffer_t * list (list Z))) :=
  match arrivals with
  | [] => Ret (if counter k =? 0 then None else Some (k, []))
  | codes :: arrivals' =>
      k ← interrupts k codes;
      if counter k =? 0 then wait_key k arrivals' else Ret (Some (k, arrivals'))
  end.

Definition getchar (k : ringbuffer_t) (arrivals : list (list Z)) : outcome (option (Z * ringbuffer_t * list (list Z))) :=
  w ← wait_key k arrivals;
  match w with
  | None => Ret None
  | Some (k, arrivals) =>
      '(k, arrivals) ← tick k arrivals;
      getkey ← aget (data k) (read_ptr k);
      let k := Buffer (data k) (read_ptr k + 1) (write_ptr k) (counter k) in
      '(k, arrivals) ← tick k arrivals;
      let k := Buffer (data k) (read_ptr k) (write_ptr k) (u32 (counter k - 1)) in
      '(k, arrivals) ← tick k arrivals;
      let k := Buffer (data k) (if 256 <? read_ptr k then 0 else read_ptr k) (write_ptr k) (counter k) in
      Ret (Some (getkey, k, arrivals))
  end.

(** ** Reading a line *)

(** What the call leaves: the value returned, the caller's buffer, the keyboard. *)
Record line := Line { ret_ : Z; buf_ : list Z; kbd_ : ringbuffer_t; arrivals_ : list (list Z) }.

(** The loop of [stdio_read__]; [p] is the distance of the pointer from the start of
    the buffer.  What is drawn on the screen is left out.  [fuel] counts characters. *)
Fixpoint read_keys (fuel : nat) (k : ringbuffer_t) (arrivals : list (list Z)) (buf : list Z) (length p ret : Z) : outcome (option line) :=
  if p <? length - 1 then
    match fuel with
    | O => OutOfFuel
    | S fuel =>
        g ← getchar k arrivals;
        match g with
        | None => Ret None
        | Some (getkey, k, arrivals) =>
            let c := s8 getkey in
            if (c =? -1) && negb (0 <? ret) then Ret (Some (Line 0 buf k arrivals))
            else if c =? -1 then read_keys fuel k arrivals buf length p ret
            else if (c =? 13) || (c =? 10) then
              buf ← aset buf p c;
              buf ← aset buf (p + 1) 0;
              Ret (Some (Line (ret + 1) buf k arrivals))
            else if c =? 8 then
              (if 0 <? p then read_keys fuel k arrivals buf length (p - 1) (ret - 1)
               else read_keys fuel k arrivals buf length p ret)
            else
              buf ← aset buf p c;
              read_keys fuel k arrivals buf length (p + 1) (ret + 1)
        end
    end
  else
    buf ← aset buf p 0;
    Ret (Some (Line ret buf k arrivals)).

(** As many characters as are in the buffer or can still come. *)
Definition keys_fuel (k : ringbuffer_t) (arrivals : list (list Z)) : nat :=
  S (Z.to_nat (counter k) + length (concat arrivals)).

Definition stdio_read__ (fd : Z) (buf : list Z) (length : Z) (k : ringbuffer_t) (arrivals : list (list Z)) : outcome (option line) :=
  if negb (fd =? 0) then Ret (Some (Line 0 buf k arrivals))
  else read_keys (keys_fuel k arrivals) k arrivals buf length 0 0.

(** ** The buffer as a queue *)

(** The characters that scan codes stand for: releases and keys without one give none. *)
Definition key_of (code : Z) : list Z :=
  if truthy (Z.land code 128) then []
  else match keyboard_layout_us !! Z.to_nat code with
       | Some key => if key =? 0 then [] else [key]
       | None => []
       end.
Definition keys (codes : list Z) : list Z := concat (map key_of codes).

Definition byte (z : Z) : Prop := 0 <= z < 256.

(** As long as the pointers have not passed the end of the array, the unread
    characters are those between them. *)
Record queue (k : ringbuffer_t) (q : list Z) : Prop := {
  q_data : length (data k) = 256%nat;
  q_read : 0 <= read_ptr k <= write_ptr k;
  q_write : write_ptr k <= 256;
  q_counter : counter k = write_ptr k - read_ptr k;
  q_unread : q = take (Z.to_nat (counter k)) (drop (Z.to_nat (read_ptr k)) (data k))
}.

Lemma queue_length k q : queue k q -> Z.of_nat (length q) = counter k.
Proof.
  intros [Hd Hr Hw Hc ->]. rewrite length_take, length_drop, Hd. lia.
Qed.

Lemma layout_length : length keyboard_layout_us = 128%nat.
Proof. reflexivity. Qed.

Lemma initialize_queue junk : length junk = 256%nat -> queue (_kbd_initialize junk) [].
Proof. by split; cbn; try lia. Qed.

Lemma land_128 code : byte code -> truthy (Z.land code 128) = (128 <=? code).
Proof.
  intros Hb. unfold byte in Hb. assert (forall n, (n < 256)%nat -> truthy (Z.land (Z.of_nat n) 128) = (128 <=? Z.of_nat n)) as Hall.
  { intros n Hn. do 256 (destruct n as [|n]; [reflexivity|]). lia. }
  specialize (Hall (Z.to_nat code)). rewrite Z2Nat.id in Hall by lia. apply Hall. lia.
Qed.

(** Storing at the end of the unread part. *)
Lemma unread_insert (l : list Z) (r w : nat) x :
  (r <= w < length l)%nat ->
  take (S (w - r)) (drop r (<[w := x]> l)) = take (w - r) (drop r l) ++ [x].
Proof.
  intros Hw. rewrite (take_S_r _ _ x).
  - f_equal. rewrite drop_insert_ge by lia. by rewrite take_insert_ge by lia.
  - rewrite lookup_drop. replace (r + (w - r))%nat with w by lia. apply list_lookup_insert_eq. lia.
Qed.

(** One interrupt: the character of the code is appended, if there is one and the
    end of the array has not been reached. *)
Lemma kbd_handler_ok k q code :
  queue k q -> byte code -> write_ptr k + Z.of_nat (length (key_of code)) <= 256 ->
  exists k', kbd_handler k code = Ret k' /\ queue k' (q ++ key_of code) /\
    read_ptr k' = read_ptr k /\ write_ptr k' = write_ptr k + Z.of_nat (length (key_of code)).
Proof.
  intros Hq Hb Hw. unfold kbd_handler. unfold key_of in *.
  destruct (truthy (Z.land code 128)) eqn:E128; [exists k; simpl; rewrite app_nil_r, Z.add_0_r; by split_and!|].
  rewrite land_128 in E128 by done. unfold byte in Hb.
  unfold aget. rewrite (proj2 (Z.ltb_ge code 0)) by lia.
  destruct (lookup_lt_is_Some_2 keyboard_layout_us (Z.to_nat code)) as [key Hkey]; [rewrite layout_length; lia|].
  rewrite Hkey in *. cbn [of_option mbind outcome_bind].
  destruct (key =? 0) eqn:E0; [exists k; cbn [length]; rewrite app_nil_r, Z.add_0_r; by split_and!|].
  cbn [length] in Hw. destruct Hq as [Hd Hr Hwr Hc ->].
  rewrite (proj2 (Z.ltb_ge _ _)), aset_in_range by lia. cbn [mbind outcome_bind].
  eexists. split; [done|]. split; [|done]. split; cbn [data read_ptr write_ptr counter].
  - by rewrite length_insert.
  - lia.
  - lia.
  - rewrite u32_small; lia.
  - rewrite u32_small by lia. rewrite Hc.
    replace (Z.to_nat (write_ptr k - read_ptr k + 1)) with (S (Z.to_nat (write_ptr k) - Z.to_nat (read_ptr k))) by lia.
    replace (Z.to_nat (write_ptr k - read_ptr k)) with (Z.to_nat (write_ptr k) - Z.to_nat (read_ptr k))%nat by lia.
    by rewrite unread_insert by lia.
Qed.

Lemma keys_app cs ds : keys (cs ++ ds) = keys cs ++ keys ds.
Proof. unfold keys. by rewrite map_app, concat_app. Qed.

Lemma keys_length cs : (length (keys cs) <= length cs)%nat.
Proof.
  induction cs as [|c cs IH]; [done|]. change (keys (c :: cs)) with (key_of c ++ keys cs). rewrite length_app. cbn [length].
  assert (length (key_of c) <= 1)%nat; [|lia]. unfold key_of. repeat case_match; cbn; lia.
Qed.

(** The room that is left: characters that arrive stay within the array. *)
Definition room (k : ringbuffer_t) (codes : list Z) : Prop :=
  Forall byte codes /\ write_ptr k + Z.of_nat (length (keys codes)) <= 256.

Lemma interrupts_ok codes : forall k q rest,
  queue k q -> room k (codes ++ rest) ->
  exists k', interrupts k codes = Ret k' /\ queue k' (q ++ keys codes) /\ room k' rest /\
    write_ptr k' = write_ptr k + Z.of_nat (length (keys codes)).
Proof.
  induction codes as [|c codes IH]; intros k q rest Hq [Hb Hr]; [exists k; cbn; rewrite app_nil_r, Z.add_0_r; by split_and!|].
  change ((c :: codes) ++ rest) with (c :: (codes ++ rest)) in *. apply Forall_cons in Hb as [Hc Hb].
  change (keys (c :: codes)) with (key_of c ++ keys codes) in *. change (keys (c :: codes ++ rest)) with (key_of c ++ keys (codes ++ rest)) in *.
  rewrite length_app in Hr. destruct (kbd_handler_ok k q c) as (k1 & E & Hq1 & Hr1 & Hw1); [done|done|lia|].
  destruct (IH k1 _ rest Hq1) as (k' & E' & Hq' & Hroom & Hw'); [by split; [|lia]|].
  exists k'. cbn [interrupts]. rewrite E. cbn [mbind outcome_bind]. rewrite app_assoc, length_app. split_and!; [done..|]. lia.
Qed.

Lemma interrupts_read codes : forall k k', interrupts k codes = Ret k' -> read_ptr k' = read_ptr k.
Proof.
  induction codes as [|x codes IH]; intros k k'; cbn [interrupts]; [by intros [= ->]|]. intros E. apply bind_Ret_inv in E as (k1 & E1 & ->%IH).
  unfold kbd_handler in E1. destruct (truthy _); [by injection E1 as ->|]. apply bind_Ret_inv in E1 as (key & _ & E1).
  destruct (key =? 0); [by injection E1 as ->|]. apply bind_Ret_inv in E1 as (d & _ & E1). by injection E1 as <-.
Qed.

Lemma wait_key_ok arrivals : forall k q,
  queue k q -> room k (concat arrivals) ->
  match q ++ keys (concat arrivals) with
  | [] => wait_key k arrivals = Ret None
  | c :: later => exists k' q' arrivals', wait_key k arrivals = Ret (Some (k', arrivals')) /\
      queue k' (c :: q') /\ q' ++ keys (concat arrivals') = later /\ room k' (concat arrivals')
  end.
Proof.
  induction arrivals as [|codes arrivals IH]; intros k q Hq Hroom; cbn [wait_key].
  - change (keys (concat [])) with (@nil Z). rewrite app_nil_r. pose proof (queue_length _ _ Hq) as Hl. destruct q as [|c q]; cbn [length] in Hl.
    + by rewrite (proj2 (Z.eqb_eq (counter k) 0)) by lia.
    + rewrite (proj2 (Z.eqb_neq (counter k) 0)) by lia. exists k, q, []. by rewrite app_nil_r.
  - cbn [concat] in *. destruct (interrupts_ok codes k q _ Hq Hroom) as (k1 & -> & Hq1 & Hroom1 & _). cbn [mbind outcome_bind].
    rewrite keys_app, app_assoc. pose proof (queue_length _ _ Hq1) as Hl. destruct (q ++ keys codes) as [|c q1] eqn:E; cbn [length] in Hl.
    + rewrite (proj2 (Z.eqb_eq (counter k1) 0)) by lia. apply (IH k1 [] Hq1 Hroom1).
    + rewrite (proj2 (Z.eqb_neq (counter k1) 0)) by lia. cbn [app]. by exists k1, q1, arrivals.
Qed.

(** What the handler does depends neither on the read pointer nor on the counter. *)
Lemma interrupts_frame codes : forall k k' r c,
  Forall byte codes -> interrupts k codes = Ret k' ->
  interrupts (Buffer (data k) r (write_ptr k) c) codes =
    Ret (Buffer (data k') r (write_ptr k') (if decide (keys codes = []) then c else u32 (c + Z.of_nat (length (keys codes))))).
Proof.
  induction codes as [|x codes IH]; intros k k' r c Hb; cbn [interrupts]; [by intros [= <-]|].
  apply Forall_cons in Hb as [Hx Hb]. change (keys (x :: codes)) with (key_of x ++ keys codes).
  unfold kbd_handler, key_of. destruct (truthy (Z.land x 128)); [by apply IH|]. unfold aget.
  destruct (x <? 0); [done|]. destruct (keyboard_layout_us !! Z.to_nat x) as [key|]; [|done]. cbn [of_option mbind outcome_bind].
  destruct (key =? 0); [by apply IH|]. cbn [data write_ptr read_ptr counter].
  destruct (aset (data k) (if 256 <? write_ptr k then 0 else write_ptr k) key) as [d| |]; [|done..]. cbn [mbind outcome_bind].
  intros E. specialize (IH _ _ r (u32 (c + 1)) Hb E). cbn [data write_ptr] in IH. rewrite IH. cbn [app]. rewrite (decide_False (P := key :: keys codes = [])) by done. do 2 f_equal. cbn [length].
  case_decide as Hk; [rewrite Hk; cbn; f_equal; lia|]. unfold u32. rewrite Zplus_mod_idemp_l. f_equal. lia.
Qed.

(** The interrupts of one point of [getchar], at which the counter is [d] too large and the
    read pointer may have moved on. *)
Lemma tick_ok k q arrivals r d :
  queue k q -> room k (concat arrivals) -> 0 <= d -> counter k + d < 2147483648 ->
  exists k' q' arrivals', tick (Buffer (data k) r (write_ptr k) (counter k + d)) arrivals =
      Ret (Buffer (data k') r (write_ptr k') (counter k' + d), arrivals') /\
    queue k' (q ++ q') /\ q' ++ keys (concat arrivals') = keys (concat arrivals) /\ room k' (concat arrivals') /\
    read_ptr k' = read_ptr k.
Proof.
  intros Hq Hroom Hd Hc. destruct arrivals as [|codes arrivals]; cbn [tick].
  - exists k, [], []. rewrite app_nil_r. by split_and!.
  - cbn [concat] in Hroom. destruct (interrupts_ok codes k q _ Hq Hroom) as (k1 & E & Hq1 & Hroom1 & Hw1).
    assert (read_ptr k1 = read_ptr k) as Hr1 by (eapply interrupts_read; exact E).
    destruct Hroom as [[Hb _]%Forall_app _]. rewrite (interrupts_frame codes k k1 r (counter k + d) Hb E). cbn [mbind outcome_bind].
    exists k1, (keys codes), arrivals. split; [|cbn [concat]; rewrite keys_app; by split_and!].
    do 3 f_equal. pose proof (q_counter _ _ Hq). pose proof (q_counter _ _ Hq1) as Hc1. pose proof (q_write _ _ Hq1). pose proof (q_read _ _ Hq1). pose proof (q_read _ _ Hq).
    case_decide as Hk; [rewrite Hk in Hw1; cbn in Hw1; lia|]. rewrite u32_small by lia. lia.
Qed.

(** Taking the first character. *)
Lemma queue_pop k c q :
  queue k (c :: q) -> aget (data k) (read_ptr k) = Ret c /\
  queue (Buffer (data k) (read_ptr k + 1) (write_ptr k) (counter k - 1)) q /\ read_ptr k + 1 <= 256 /\ 1 <= counter k <= 256.
Proof.
  intros Hq. pose proof (queue_length _ _ Hq) as Hl. cbn [length] in Hl. destruct Hq as [Hd Hr Hwr Hc Hu].
  assert (drop (Z.to_nat (read_ptr k)) (data k) = c :: drop (S (Z.to_nat (read_ptr k))) (data k)) as Hdrop.
  { destruct (drop (Z.to_nat (read_ptr k)) (data k)) as [|x xs] eqn:E; [by rewrite take_nil in Hu|].
    replace (Z.to_nat (counter k)) with (S (length q)) in Hu by lia. injection Hu as -> _.
    f_equal. replace (S (Z.to_nat (read_ptr k))) with (Z.to_nat (read_ptr k) + 1)%nat by lia.
    by rewrite <- drop_drop, E. }
  assert (data k !! Z.to_nat (read_ptr k) = Some c) as Hget.
  { rewrite <- (Nat.add_0_r (Z.to_nat (read_ptr k))), <- lookup_drop, Hdrop. done. }
  split; [unfold aget; by rewrite (proj2 (Z.ltb_ge _ _)), Hget by lia|]. split; [|lia].
  split; cbn [data read_ptr write_ptr counter]; try lia; try done.
  rewrite Hdrop in Hu. replace (Z.to_nat (counter k)) with (S (length q)) in Hu by lia.
  injection Hu as Hu. replace (Z.to_nat (counter k - 1)) with (length q) by lia.
  by replace (Z.to_nat (read_ptr k + 1)) with (S (Z.to_nat (read_ptr k))) by lia.
Qed.

Lemma buffer_eta k : k = Buffer (data k) (read_ptr k) (write_ptr k) (counter k).
Proof. by destruct k. Qed.

(** [getchar] takes the oldest character, waiting for it if there is none. *)
Lemma getchar_ok k q arrivals :
  queue k q -> room k (concat arrivals) ->
  match q ++ keys (concat arrivals) with
  | [] => getchar k arrivals = Ret None
  | c :: later => exists k' q' arrivals', getchar k arrivals = Ret (Some (c, k', arrivals')) /\
      queue k' q' /\ q' ++ keys (concat arrivals') = later /\ room k' (concat arrivals')
  end.
Proof.
  intros Hq Hroom. pose proof (wait_key_ok arrivals k q Hq Hroom) as Hw. unfold getchar.
  destruct (q ++ keys (concat arrivals)) as [|c later]; [by rewrite Hw|].
  destruct Hw as (k1 & q1 & a1 & -> & Hq1 & Hlater & Hroom1). cbn [mbind outcome_bind].
  destruct (tick_ok k1 (c :: q1) a1 (read_ptr k1) 0 Hq1 Hroom1) as (k2 & q2 & a2 & E2 & Hq2 & Hk2 & Hroom2 & Hr2); [lia|destruct (queue_pop _ _ _ Hq1); lia|].
  rewrite Z.add_0_r, <- buffer_eta in E2. rewrite E2. cbn [mbind outcome_bind data read_ptr write_ptr counter]. rewrite Z.add_0_r.
  destruct (queue_pop _ _ _ Hq2) as (Hget & Hq3 & Hrp & Hcn). rewrite <- Hr2, Hget. cbn [mbind outcome_bind].
  destruct (tick_ok _ (q1 ++ q2) a2 (read_ptr k2 + 1) 1 Hq3 Hroom2) as (k4 & q4 & a4 & E4 & Hq4 & Hk4 & Hroom4 & Hr4); [lia|cbn [counter]; lia|].
  cbn [data read_ptr write_ptr counter] in E4, Hr4. replace (counter k2 - 1 + 1) with (counter k2) in E4 by lia. rewrite E4. cbn [mbind outcome_bind data read_ptr write_ptr counter].
  replace (counter k4 + 1 - 1) with (counter k4 + 0) by lia. assert (0 <= counter k4 <= 256) as Hc4 by (destruct Hq4; lia). rewrite (u32_small (counter k4 + 0)) by lia.
  destruct (tick_ok k4 _ a4 (read_ptr k2 + 1) 0 Hq4 Hroom4) as (k5 & q5 & a5 & E5 & Hq5 & Hk5 & Hroom5 & Hr5); [lia|lia|].
  rewrite E5. cbn [mbind outcome_bind data read_ptr write_ptr counter]. rewrite (proj2 (Z.ltb_ge 256 (read_ptr k2 + 1))), Z.add_0_r by lia.
  replace (read_ptr k2 + 1) with (read_ptr k5) by lia. rewrite <- buffer_eta. eexists k5, _, a5. split; [done|]. split; [exact Hq5|]. split; [|done].
  rewrite <- Hlater, <- Hk2, <- Hk4, <- Hk5. by rewrite <- !app_assoc.
Qed.

(** *** Every order of key presses and reads *)

(** A key event, or a call of [getchar] by a task that goes on when there is nothing. *)
Inductive event := Press (code : Z) | Get.

Fixpoint session (k : ringbuffer_t) (evs : list event) : outcome (ringbuffer_t * list Z) :=
  match evs with
  | [] => Ret (k, [])
  | Press code :: evs' => k ← kbd_handler k code; session k evs'
  | Get :: evs' =>
      g ← getchar k [];
      match g with
      | None => session k evs'
      | Some (c, k, _) => '(k, got) ← session k evs'; Ret (k, c :: got)
      end
  end.

(** The same on a queue: what is read, and what is left. *)
Fixpoint queue_session (q : list Z) (evs : list event) : list Z * list Z :=
  match evs, q with
  | [], _ => ([], q)
  | Press code :: evs', _ => queue_session (q ++ key_of code) evs'
  | Get :: evs', [] => queue_session [] evs'
  | Get :: evs', c :: q' => let '(got, rest) := queue_session q' evs' in (c :: got, rest)
  end.

Fixpoint codes_of (evs : list event) : list Z :=
  match evs with
  | [] => []
  | Press code :: evs' => code :: codes_of evs'
  | Get :: evs' => codes_of evs'
  end.

Lemma session_ok evs : forall k q,
  queue k q -> room k (codes_of evs) ->
  exists k' , session k evs = Ret (k', (queue_session q evs).1) /\ queue k' (queue_session q evs).2.
Proof.
  induction evs as [|[code|] evs IH]; intros k q Hq Hroom; [by exists k|..]; cbn [codes_of session queue_session] in *.
  - destruct (interrupts_ok [code] k q (codes_of evs) Hq Hroom) as (k1 & E & Hq1 & Hroom1 & _).
    cbn [interrupts] in E. destruct (kbd_handler k code); try done. injection E as ->. cbn [mbind outcome_bind].
    unfold keys in Hq1. cbn [map concat] in Hq1. rewrite app_nil_r in Hq1. by apply IH.
  - assert (room k (concat [])) as Hr0 by (split; [constructor|]; destruct Hq; cbn; lia).
    pose proof (getchar_ok k q [] Hq Hr0) as Hg. change (keys (concat [])) with (@nil Z) in Hg. rewrite app_nil_r in Hg.
    destruct q as [|c q]; [rewrite Hg; by apply IH|].
    destruct Hg as (k1 & q1 & arr & E & Hq1 & Hlater & _). rewrite E. cbn [mbind outcome_bind].
    assert (write_ptr k1 = write_ptr k /\ arr = []) as [Hw1 ->].
    { unfold getchar, wait_key, tick in E. destruct (counter k =? 0); [done|]. cbn [mbind outcome_bind] in E.
      destruct (aget (data k) (read_ptr k)); [|done..]. by injection E as _ <- <-. }
    change (keys (concat [])) with (@nil Z) in Hlater. rewrite app_nil_r in Hlater. subst q1.
    destruct (IH k1 q Hq1) as (k' & E' & Hq'); [by split; [apply Hroom|rewrite Hw1; apply Hroom]|].
    rewrite E'. destruct (queue_session q evs) as [got rest]. cbn in *. by exists k'.
Qed.

(** From start-up on, as long as no more than 256 characters have been typed in all,
    the keyboard buffer is a queue: in every order of key events and reads, [getchar]
    returns the characters of the keys in the order they were pressed, each one
    once, and events without a character (releases, modifiers) leave no trace. *)
Theorem keyboard_fifo junk evs :
  length junk = 256%nat -> Forall byte (codes_of evs) -> Z.of_nat (length (keys (codes_of evs))) <= 256 ->
  exists k, session (_kbd_initialize junk) evs = Ret (k, (queue_session [] evs).1) /\
    queue k (queue_session [] evs).2 /\
    (queue_session [] evs).1 ++ (queue_session [] evs).2 = keys (codes_of evs).
Proof.
  intros Hj Hb Hl. destruct (session_ok evs _ _ (initialize_queue junk Hj)) as (k & E & Hq); [by split|].
  exists k. split_and!; [done..|]. clear E Hq.
  assert (forall q, (queue_session q evs).1 ++ (queue_session q evs).2 = q ++ keys (codes_of evs)) as Hall; [|apply Hall].
  clear. induction evs as [|[code|] evs IH]; intros q; cbn [queue_session codes_of].
  - cbn. by rewrite app_nil_r.
  - rewrite IH. change (keys (code :: codes_of evs)) with (key_of code ++ keys (codes_of evs)). by rewrite app_assoc.
  - destruct q as [|c q]; [apply IH|]. specialize (IH q). destruct (queue_session q evs). cbn in *. by rewrite IH.
Qed.

(** The character after the 256th is stored behind the array, whatever has been read:
    the test that puts the pointer back lets the index 256 through. *)
Theorem keyboard_overrun junk codes code :
  length junk = 256%nat -> Forall byte codes -> length (keys codes) = 256%nat -> byte code -> key_of code <> [] ->
  interrupts (_kbd_initialize junk) (codes ++ [code]) = Fault.
Proof.
  intros Hj Hb Hl Hc Hk.
  destruct (interrupts_ok codes _ _ [] (initialize_queue junk Hj)) as (k & E & Hq & _ & Hw).
  { rewrite app_nil_r. split; [done|]. cbn. lia. }
  assert (forall k0 k1, interrupts k0 codes = Ret k1 -> interrupts k0 (codes ++ [code]) = interrupts k1 [code]) as Happ.
  { clear. induction codes as [|c codes IH]; intros k0 k1; cbn [interrupts app]; [by intros [= ->]|].
    destruct (kbd_handler k0 c); cbn [mbind outcome_bind]; [apply IH|done..]. }
  rewrite (Happ _ _ E). cbn [interrupts]. unfold kbd_handler. unfold key_of in Hk.
  destruct (truthy (Z.land code 128)); [done|]. unfold byte in Hc. unfold aget. rewrite (proj2 (Z.ltb_ge code 0)) by lia.
  destruct (keyboard_layout_us !! Z.to_nat code) as [key|]; [|done]. cbn [of_option mbind outcome_bind].
  destruct (key =? 0); [done|]. rewrite Hw, Hl. cbn. unfold aset. by rewrite (q_data _ _ Hq).
Qed.

(** ** Editing a line *)

(** [stdio_read__] on the characters alone: what has been kept, until a newline
    or [n] characters.  [None]: more is needed. *)
Fixpoint edit_line (n : Z) (kept typed : list Z) : option (list Z * list Z) :=
  if Z.of_nat (length kept) <? n then
    match typed with
    | [] => None
    | c :: typed' =>
        if c =? 10 then Some (kept ++ [10], typed')
        else if c =? 8 then edit_line n (removelast kept) typed'
        else edit_line n (kept ++ [c]) typed'
    end
  else Some (kept, typed).

Definition typed_char (c : Z) : Prop := 0 < c < 128 /\ c <> 13.

(** Every character of the layout is a positive signed byte, and none is a carriage return. *)
Lemma layout_chars : Forall (fun c => 0 <= c < 128 /\ c <> 13) keyboard_layout_us.
Proof. unfold keyboard_layout_us. apply Forall_app. split; [repeat (constructor; [lia|]); constructor|apply Forall_replicate; lia]. Qed.

Lemma keys_chars codes : Forall typed_char (keys codes).
Proof.
  induction codes as [|c codes IH]; [constructor|]. change (keys (c :: codes)) with (key_of c ++ keys codes).
  apply Forall_app. split; [|done]. unfold key_of. destruct (truthy _); [constructor|].
  destruct (_ !! _) as [key|] eqn:E; [|constructor]. destruct (key =? 0) eqn:E0; [constructor|].
  pose proof (Forall_lookup_1 _ _ _ _ layout_chars E) as Hc. cbn beta in Hc. repeat constructor; lia.
Qed.

(** The caller's buffer: the line so far, and nothing changed from [n] on. *)
Record holds (buf0 : list Z) (n : Z) (kept buf : list Z) : Prop := {
  holds_length : length buf = length buf0;
  holds_kept : take (length kept) buf = kept;
  holds_rest : drop (Z.to_nat n) buf = drop (Z.to_nat n) buf0
}.

Lemma holds_store buf0 n kept buf c :
  holds buf0 n kept buf -> Z.of_nat (length kept) < n -> n <= Z.of_nat (length buf0) ->
  exists buf', aset buf (Z.of_nat (length kept)) c = Ret buf' /\ holds buf0 n (kept ++ [c]) buf'.
Proof.
  intros [Hl Hk Hr] Hlt Hn. rewrite aset_in_range, Nat2Z.id by lia. eexists. split; [done|]. split.
  - by rewrite length_insert.
  - rewrite length_app, Nat.add_1_r. erewrite take_S_r by (apply list_lookup_insert_eq; lia). by rewrite take_insert_ge, Hk by lia.
  - by rewrite drop_insert_lt by lia.
Qed.

Lemma holds_back buf0 n kept buf : holds buf0 n kept buf -> holds buf0 n (removelast kept) buf.
Proof.
  intros [Hl Hk Hr]. split; [done| |done]. rewrite removelast_firstn_len, length_take.
  transitivity (take (pred (length kept)) (take (length kept) buf)); [rewrite take_take; f_equal; lia|by rewrite Hk].
Qed.

Lemma kept_removelast (l : list Z) : Z.of_nat (length (removelast l)) = Z.max 0 (Z.of_nat (length l) - 1).
Proof. rewrite removelast_firstn_len, length_take. lia. Qed.

Lemma read_keys_ok buf0 n typed : forall fuel k q arrivals buf kept,
  queue k q -> room k (concat arrivals) -> q ++ keys (concat arrivals) = typed -> Forall typed_char typed ->
  1 <= n <= Z.of_nat (length buf0) -> holds buf0 n kept buf -> Z.of_nat (length kept) < n -> (length typed < fuel)%nat ->
  match edit_line (n - 1) kept typed with
  | None => read_keys fuel k arrivals buf n (Z.of_nat (length kept)) (Z.of_nat (length kept)) = Ret None
  | Some (l, later) => exists k' q' arrivals' buf',
      read_keys fuel k arrivals buf n (Z.of_nat (length kept)) (Z.of_nat (length kept)) =
        Ret (Some (Line (Z.of_nat (length l)) buf' k' arrivals')) /\
      holds buf0 n (l ++ [0]) buf' /\ queue k' q' /\ room k' (concat arrivals') /\ q' ++ keys (concat arrivals') = later
  end.
Proof.
  induction typed as [|c typed IH]; intros fuel k q arrivals buf kept Hq Hroom Htyped Hch Hn Hh Hk Hf;
    (destruct fuel as [|fuel]; [cbn in Hf; lia|]); cbn [edit_line read_keys];
    destruct (Z.of_nat (length kept) <? n - 1) eqn:E.
  2, 4: destruct (holds_store buf0 n kept buf 0 Hh) as (buf' & -> & Hh'); [lia..|]; by eexists k, q, arrivals, buf'.
  - pose proof (getchar_ok k q arrivals Hq Hroom) as Hg. rewrite Htyped in Hg. by rewrite Hg.
  - pose proof (getchar_ok k q arrivals Hq Hroom) as Hg. rewrite Htyped in Hg.
    destruct Hg as (k1 & q1 & arr1 & -> & Hq1 & Hlater & Hroom1). cbn [mbind outcome_bind].
    apply Forall_cons in Hch as [[Hc Hc13] Hch]. apply Z.ltb_lt in E. cbn [length] in Hf.
    assert (s8 c = c) as -> by (unfold s8; rewrite Z.mod_small; lia).
    rewrite (proj2 (Z.eqb_neq c (-1))), (proj2 (Z.eqb_neq c 13)) by lia. cbn [andb orb].
    destruct (c =? 10) eqn:E10; [|destruct (c =? 8) eqn:E8].
    + apply Z.eqb_eq in E10 as ->. destruct (holds_store buf0 n kept buf 10 Hh) as (buf1 & -> & Hh1); [lia..|]. cbn [mbind outcome_bind].
      destruct (holds_store buf0 n (kept ++ [10]) buf1 0 Hh1) as (buf2 & E2 & Hh2); [rewrite length_app; cbn; lia|lia|].
      rewrite length_app in E2. cbn [length] in E2. rewrite Nat2Z.inj_add in E2. change (Z.of_nat 1) with 1 in E2. rewrite E2. cbn [mbind outcome_bind].
      eexists k1, q1, arr1, buf2. split_and!; [|done..]. do 3 f_equal. rewrite length_app. cbn. lia.
    + pose proof (kept_removelast kept) as Hrm.
      specialize (IH fuel k1 q1 arr1 buf (removelast kept) Hq1 Hroom1 Hlater Hch Hn (holds_back _ _ _ _ Hh)).
      destruct (0 <? Z.of_nat (length kept)) eqn:Epos.
      * replace (Z.of_nat (length kept) - 1) with (Z.of_nat (length (removelast kept))) by lia. apply IH; lia.
      * replace (Z.of_nat (length kept)) with (Z.of_nat (length (removelast kept))) by lia. apply IH; lia.
    + destruct (holds_store buf0 n kept buf c Hh) as (buf1 & -> & Hh1); [lia..|]. cbn [mbind outcome_bind].
      specialize (IH fuel k1 q1 arr1 buf1 (kept ++ [c]) Hq1 Hroom1 Hlater Hch Hn Hh1).
      rewrite length_app, Nat2Z.inj_add in IH. change (Z.of_nat (length [c])) with 1 in IH. apply IH; lia.
Qed.

(** C30: As long as no more than 256 characters have been typed since the keyboard was
    initialised ([room]; the next one is stored behind the array), [stdio_read__] of a buffer of
    [n >= 1] bytes edits a line.  Whichever interrupts come before and between the statements of
    [getchar] (each statement being one step), it returns the characters typed up to and with
    the newline, each backspace having taken back the character before it, or the first
    [n - 1] of them when the line is longer; the buffer holds them with a NUL behind, nothing is
    stored beyond [n] bytes, and the characters typed after the line stay for the next call.
    While the line is not finished the call waits. *)
Theorem stdio_read_edits k q arrivals buf n :
  queue k q -> Forall typed_char q -> room k (concat arrivals) -> 1 <= n <= Z.of_nat (length buf) ->
  match edit_line (n - 1) [] (q ++ keys (concat arrivals)) with
  | None => stdio_read__ 0 buf n k arrivals = Ret None
  | Some (l, later) => exists k' q' arrivals' buf',
      stdio_read__ 0 buf n k arrivals = Ret (Some (Line (Z.of_nat (length l)) buf' k' arrivals')) /\
      take (S (length l)) buf' = l ++ [0] /\ drop (Z.to_nat n) buf' = drop (Z.to_nat n) buf /\
      queue k' q' /\ q' ++ keys (concat arrivals') = later
  end.
Proof.
  intros Hq Hch Hroom Hn. unfold stdio_read__. cbn [Z.eqb negb].
  pose proof (read_keys_ok buf n _ (keys_fuel k arrivals) k q arrivals buf [] Hq Hroom eq_refl) as Hr.
  pose proof (keys_length (concat arrivals)). pose proof (queue_length _ _ Hq).
  specialize (Hr (proj2 (Forall_app _ _ _) (conj Hch (keys_chars _))) Hn).
  destruct (edit_line (n - 1) [] _) as [[l later]|].
  - destruct Hr as (k' & q' & arr' & buf' & E & [_ Ht Hd] & Hq' & _ & Hlater); [done|cbn; lia|unfold keys_fuel; rewrite length_app; lia|].
    rewrite length_app, Nat.add_1_r in Ht. by eexists k', q', arr', buf'.
  - apply Hr; [done|cbn; lia|unfold keys_fuel; rewrite length_app; lia].
Qed.

(** ** Witnesses *)

(** The keys a, (release of a), b, a read in between. *)
Definition presses : list event := [Press 30; Press 158; Get; Press 48; Press 42; Get; Get].

Lemma keyboard_fifo_witness :
  exists k, session (_kbd_initialize (replicate 256 0)) presses = Ret (k, [97; 98]) /\ queue k [] /\ [97; 98] ++ [] = [97; 98].
Proof.
  apply (keyboard_fifo (replicate 256 0) presses); [reflexivity| |vm_compute; discriminate].
  cbv [codes_of presses byte]. repeat (constructor; [lia|]). constructor.
Defined.

Lemma keyboard_overrun_witness : interrupts (_kbd_initialize (replicate 256 0)) (replicate 256 30 ++ [48]) = Fault.
Proof.
  apply keyboard_overrun; [reflexivity|apply Forall_replicate; unfold byte; lia|reflexivity|unfold byte; lia|discriminate].
Defined.

(** h, x, backspace, i, newline, then j, in bursts. *)
Definition bursts : list (list Z) := [[35; 45]; [14; 23]; [28; 36]].

Lemma stdio_read_edits_witness :
  exists k' q' arrivals' buf',
    stdio_read__ 0 (replicate 8 7) 8 (_kbd_initialize (replicate 256 0)) bursts = Ret (Some (Line 3 buf' k' arrivals')) /\
    take 4 buf' = [104; 105; 10; 0] /\ drop 8 buf' = [] /\ queue k' q' /\ q' ++ keys (concat arrivals') = [106].
Proof.
  pose proof (stdio_read_edits (_kbd_initialize (replicate 256 0)) [] bursts (replicate 8 7) 8) as H.
  apply H; [by apply initialize_queue|constructor| |cbn; lia].
  split; [|vm_compute; discriminate]. cbv [bursts concat app byte]. repeat (constructor; [lia|]). constructor.
Defined.

End Keyboard.
