(* ===== verification/Descriptors.v ===== *)
(** * File descriptors ([process_append_fd] of [kernel/src/task/proc.c], the
      descriptor calls of [kernel/src/syscalls.c])

    A process's table is an array of pointers to nodes.  Nodes are in a store because
    descriptors share them: the offset and the reference count belong to the node.
    What a node's callbacks do (which file system, pipe or terminal it is) is a
    parameter, an instance of [NodeOps]; [W] is the state behind them. *)

From stdpp Require Import base gmap numbers list.
From S2P Require Import Prelude Keyboard.

Module Descriptors.

(** The fields of [fs_node_t] the calls use; [readable] and [writable] say whether the
    node has the callbacks. *)
Record fs_node_t := Build_node { refcount : Z; offset : Z; flength : Z; readable : bool; writable : bool; mask : Z; uid : Z }.

Definition set_refcount (n : fs_node_t) r := Build_node r (offset n) (flength n) (readable n) (writable n) (mask n) (uid n).
Definition set_offset (n : fs_node_t) o := Build_node (refcount n) o (flength n) (readable n) (writable n) (mask n) (uid n).

(** [entries] is the array as allocated, [capacity] its size; the entries from
    [length_] on are not initialised. *)
Record fd_table_t := Build_fds { entries : list ptr; length_ : Z; capacity : Z; refs : Z }.

(** The callbacks of a node: opening and closing change the state behind it; reading
    returns the bytes and the value returned; writing the value returned. *)
Class NodeOps (W : Type) := {
  node_open : ptr -> W -> Z -> W;
  node_close : ptr -> W -> W;
  node_read : ptr -> W -> Z -> Z -> list Z * Z * W;
  node_write : ptr -> W -> Z -> list Z -> Z * W
}.

(** Descriptor 0 is not looked up but read from the keyboard: the bytes put into a
    buffer of the given size, and the value returned.  The call waits in the keyboard. *)
Class Stdin (W : Type) := stdin_read : W -> Z -> outcome (list Z * Z * W).

(** [stdio_read__] of the file [Keyboard] is such an implementation; the buffer is the
    caller's, whose former contents are [junk]. *)
#[global] Instance keyboard_stdin (junk : Z -> list Z) : Stdin (Keyboard.ringbuffer_t * list (list Z)) := fun w len =>
  r ← Keyboard.stdio_read__ 0 (junk len) len w.1 w.2;
  match r with
  | Some l => Ret (take (Z.to_nat len) (Keyboard.buf_ l), Keyboard.ret_ l, (Keyboard.kbd_ l, Keyboard.arrivals_ l))
  | None => OutOfFuel
  end.

Section Calls.
Context {W : Type} `{NodeOps W} `{Stdin W}.

Record state := State { nodes : gmap ptr fs_node_t; fds : fd_table_t; world : W }.

Definition put_node (s : state) (p : ptr) (n : fs_node_t) : state := State (<[p := n]> (nodes s)) (fds s) (world s).
Definition set_fds (s : state) (t : fd_table_t) : state := State (nodes s) t (world s).
Definition set_world (s : state) (w : W) : state := State (nodes s) (fds s) w.
Definition set_entries (t : fd_table_t) (es : list ptr) : fd_table_t := Build_fds es (length_ t) (capacity t) (refs t).

(** ** Opening and closing nodes ([fs/vfs.c]) *)

(** [has_permission] for the task's user; no node, no permission. *)
Definition has_permission (user : Z) (node : option fs_node_t) (permission_bit : Z) : Z :=
  match node with
  | None => 0
  | Some n =>
      if user =? 0 then 1
      else
        let user_perm := Z.land (Z.shiftr (mask n) 6) 7 in
        let other_perm := Z.land (mask n) 7 in
        if user =? uid n then Z.land permission_bit user_perm else Z.land permission_bit other_perm
  end.

(** What a pointer to a node refers to. *)
Definition node_at (s : state) (node : ptr) : outcome (option fs_node_t) :=
  if node =? NULL then Ret None else n ← of_option (nodes s !! node); Ret (Some n).

Definition open_fs (s : state) (node : ptr) (flags : Z) : outcome state :=
  if node =? NULL then Ret s
  else
    n ← of_option (nodes s !! node);
    let s := if 0 <=? refcount n then put_node s node (set_refcount n (s32 (refcount n + 1))) else s in
    Ret (set_world s (node_open node (world s) flags)).

Definition close_fs (s : state) (node : ptr) : outcome state :=
  if node =? NULL then Ret s
  else
    n ← of_option (nodes s !! node);
    if refcount n =? -1 then Ret s
    else
      let n := set_refcount n (s32 (refcount n - 1)) in
      if refcount n =? 0
      then Ret (State (delete node (nodes s)) (fds s) (node_close node (world s)))
      else Ret (put_node s node n).

(** ** The table *)

(** The loop that fills gaps: the first entry that is [NULL]. *)
Fixpoint first_gap (es : list ptr) (todo : nat) (i : Z) : outcome (option Z) :=
  match todo with
  | O => Ret None
  | S todo' => e ← aget es i; if e =? NULL then Ret (Some i) else first_gap es todo' (i + 1)
  end.

(** [grown] is the array that [realloc] returns for a table that is full: [klrealloc]
    takes the user's own data for the header of a block that [malloc] returned, so it
    need not begin with the old entries. *)
Definition process_append_fd (t : fd_table_t) (node : ptr) (grown : list ptr) : outcome (fd_table_t * Z) :=
  gap ← first_gap (entries t) (Z.to_nat (length_ t)) 0;
  match gap with
  | Some i => es ← aset (entries t) i node; Ret (set_entries t es, i)
  | None =>
      let t := if length_ t =? capacity t
               then Build_fds grown (length_ t) (s32 (capacity t * 2)) (refs t) else t in
      es ← aset (entries t) (length_ t) node;
      Ret (Build_fds es (length_ t + 1) (capacity t) (refs t), length_ t)
  end.

(** [FD_CHECK], and [FD_ENTRY] when it holds. *)
Definition fd_entry (t : fd_table_t) (fd : Z) : outcome (option ptr) :=
  if (fd <? length_ t) && (0 <=? fd) then
    e ← aget (entries t) fd; Ret (if e =? NULL then None else Some e)
  else Ret None.

(** ** System calls *)

(** The end of [sys_open], for the node that [kopen2] found. *)
Definition install_node (s : state) (node : ptr) (junk : list ptr) : outcome (state * Z) :=
  if node =? NULL then Ret (s, -1)
  else
    n ← of_option (nodes s !! node);
    let s := put_node s node (set_offset n 0) in
    '(t, fd) ← process_append_fd (fds s) node junk;
    Ret (set_fds s t, fd).

Definition sys_close (s : state) (fd : Z) : outcome (state * Z) :=
  e ← fd_entry (fds s) fd;
  match e with
  | Some node =>
      s ← close_fs s node;
      es ← aset (entries (fds s)) fd NULL;
      Ret (set_fds s (set_entries (fds s) es), 0)
  | None => Ret (s, -1)
  end.

(** Both descriptors are compared with the length by [>], so the entry after the
    last one passes, and so does any negative number other than -1. *)
Definition process_move_fd (s : state) (src dest : Z) (junk : list ptr) : outcome (state * Z) :=
  if (length_ (fds s) <? src) || (negb (dest =? -1) && (length_ (fds s) <? dest)) then Ret (s, u32 (-1))
  else
    '(s, dest) ← (if dest =? -1
                  then '(t, d) ← process_append_fd (fds s) NULL junk; Ret (set_fds s t, d)
                  else Ret (s, dest));
    d ← aget (entries (fds s)) dest;
    n ← aget (entries (fds s)) src;
    if negb (d =? n) then
      s ← close_fs s d;
      es ← aset (entries (fds s)) dest n;
      let s := set_fds s (set_entries (fds s) es) in
      s ← open_fs s n 0;
      Ret (s, dest)
    else Ret (s, dest).

Definition sys_dup2 := process_move_fd.

Definition sys_seek (s : state) (fd off whence : Z) : outcome (state * Z) :=
  e ← fd_entry (fds s) fd;
  match e with
  | Some node =>
      if fd <? 3 then Ret (s, 0)
      else
        n ← of_option (nodes s !! node);
        let o := if whence =? 0 then u32 off
                 else if whence =? 1 then u32 (offset n + off)
                 else if whence =? 2 then u32 (flength n + off)
                 else offset n in
        Ret (put_node s node (set_offset n o), s32 o)
  | None => Ret (s, -1)
  end.

Definition read_fs (s : state) (node : ptr) (n : fs_node_t) (size : Z) : list Z * Z * W :=
  if readable n then node_read node (world s) (offset n) size else ([], u32 (-1), world s).
Definition write_fs (s : state) (node : ptr) (n : fs_node_t) (bytes : list Z) : Z * W :=
  if writable n then node_write node (world s) (offset n) bytes else (u32 (-1), world s).

Definition sys_read (s : state) (fd len : Z) : outcome (state * list Z * Z) :=
  if fd =? 0 then
    '(bytes, ret, w) ← stdin_read (world s) len;
    Ret (set_world s w, bytes, ret)
  else
  e ← fd_entry (fds s) fd;
  match e with
  | Some node =>
      n ← of_option (nodes s !! node);
      let '(bytes, out, w) := read_fs s node n (u32 len) in
      Ret (put_node (set_world s w) node (set_offset n (u32 (offset n + out))), bytes, s32 out)
  | None => Ret (s, [], -1)
  end.

Definition EACCES : Z := 13.

(** [sys_write] for the task's [user]; the descriptor is not tested.  The copy it prints
    on the screen is left out. *)
Definition sys_write (user : Z) (s : state) (fd : Z) (bytes : list Z) : outcome (state * Z) :=
  node ← aget (entries (fds s)) fd;
  n ← node_at s node;
  if negb (truthy (has_permission user n 2)) then Ret (s, - EACCES)
  else
    n ← of_option n;
    let '(out, w) := write_fs s node n bytes in
    Ret (put_node (set_world s w) node (set_offset n (u32 (offset n + out))), s32 out).

End Calls.

Arguments state W : clear implicits.

(** ** The table as a map from descriptors to nodes *)

Definition live (t : fd_table_t) : list ptr := take (Z.to_nat (length_ t)) (entries t).

(** How many descriptors refer to [p]. *)
Definition count (p : ptr) (l : list ptr) : Z := Z.of_nat (length (filter (fun e => e = p) l)).
Definition holders (t : fd_table_t) (p : ptr) : Z := count p (live t).

Record wf_table (t : fd_table_t) : Prop := {
  wt_array : Z.of_nat (length (entries t)) = capacity t;
  wt_length : 0 <= length_ t <= capacity t;
  wt_capacity : 0 < capacity t < 1073741824
}.

Lemma count_nil p : count p [] = 0.
Proof. done. Qed.

Lemma count_cons p x l : count p (x :: l) = b2z (bool_decide (x = p)) + count p l.
Proof. unfold count. rewrite filter_cons. destruct (decide (x = p)); cbn [length]; case_bool_decide; simpl; lia. Qed.

Lemma holders_app p l k : count p (l ++ k) = count p l + count p k.
Proof. unfold count. rewrite filter_app, length_app. lia. Qed.

Lemma count_insert p l i x y :
  l !! i = Some x -> count p (<[i := y]> l) = count p l - b2z (bool_decide (x = p)) + b2z (bool_decide (y = p)).
Proof.
  revert i. induction l as [|z l IH]; intros [|i] Hi; try done; simpl in Hi.
  - injection Hi as ->. change (<[O := y]> (x :: l)) with (y :: l). rewrite !count_cons. lia.
  - change (<[S i := y]> (z :: l)) with (z :: <[i := y]> l). rewrite !count_cons, IH by done. lia.
Qed.

Lemma count_elem p l : p ∈ l -> 1 <= count p l.
Proof.
  intros Hp. apply list_elem_of_split in Hp as (a & b & ->). rewrite holders_app, count_cons, bool_decide_eq_true_2 by done.
  unfold count. simpl. lia.
Qed.

Lemma count_nonneg p l : 0 <= count p l.
Proof. unfold count. lia. Qed.

Lemma count_zero p l : count p l = 0 -> (p ∉ l).
Proof. intros Hc Hp%count_elem. lia. Qed.

Lemma count_length p l : count p l <= Z.of_nat (length l).
Proof. unfold count. apply inj_le, length_filter. Qed.

Lemma length_live t : wf_table t -> Z.of_nat (length (live t)) = length_ t.
Proof. intros [Ha Hl Hc]. unfold live. rewrite length_take. lia. Qed.

Lemma live_lookup t i : 0 <= i < length_ t -> live t !! Z.to_nat i = entries t !! Z.to_nat i.
Proof. intros Hi. unfold live. apply lookup_take_lt. lia. Qed.

Lemma live_insert t i e : 0 <= i < length_ t -> live (set_entries t (<[Z.to_nat i := e]> (entries t))) = <[Z.to_nat i := e]> (live t).
Proof. intros Hi. unfold live, set_entries. cbn. apply take_insert_lt. lia. Qed.

Lemma wf_insert t i e : wf_table t -> wf_table (set_entries t (<[i := e]> (entries t))).
Proof. intros [Ha Hl Hc]. constructor; cbn; [rewrite length_insert|..]; lia. Qed.

Lemma entry_ok t i :
  wf_table t -> 0 <= i < length_ t -> exists e, aget (entries t) i = Ret e /\ live t !! Z.to_nat i = Some e.
Proof.
  intros [Ha Hl Hc] Hi. destruct (aget_in_range (entries t) i) as (e & He & ->); [lia|].
  exists e. split; [done|]. by rewrite live_lookup.
Qed.

(** *** The first free descriptor *)

Lemma first_gap_ok t todo i :
  wf_table t -> 0 <= i -> i + Z.of_nat todo = length_ t ->
  (exists k, first_gap (entries t) todo i = Ret (Some k) /\ i <= k < length_ t /\ live t !! Z.to_nat k = Some NULL /\
     forall j, i <= j < k -> live t !! Z.to_nat j <> Some NULL) \/
  (first_gap (entries t) todo i = Ret None /\ forall j, i <= j < length_ t -> live t !! Z.to_nat j <> Some NULL).
Proof.
  intros Hw. revert i. induction todo as [|todo IH]; intros i Hi Hl; cbn [first_gap]; [right; split; [done|lia]|].
  destruct (entry_ok t i Hw) as (e & -> & Hlk); [lia|]. cbn [mbind outcome_bind]. destruct (Z.eqb_spec e NULL) as [->|He].
  { left. exists i. split_and!; [done|lia|lia|done|lia]. }
  assert (forall (P : Z -> Prop) b, (forall j, i + 1 <= j < b -> live t !! Z.to_nat j <> Some NULL) ->
    forall j, i <= j < b -> live t !! Z.to_nat j <> Some NULL) as Hstep.
  { intros P b Hj j Hij. destruct (decide (j = i)) as [->|]; [congruence|]. apply Hj. lia. }
  destruct (IH (i + 1)) as [(k & E & Hk & Hnull & Hj)|(E & Hj)]; [lia|lia| |].
  - left. exists k. split; [done|]. split; [lia|]. split; [done|]. by apply (Hstep (fun _ => True)).
  - right. split; [done|]. by apply (Hstep (fun _ => True)).
Qed.

(** [append t k e t']: the descriptor [k] now refers to [e] and every other one to what it did. *)
Definition append (t : fd_table_t) (k : Z) (e : ptr) (t' : fd_table_t) : Prop :=
  wf_table t' /\
  ((0 <= k < length_ t /\ live t !! Z.to_nat k = Some NULL /\ live t' = <[Z.to_nat k := e]> (live t)) \/
   (k = length_ t /\ live t' = live t ++ [e])) /\
  forall j, 0 <= j < k -> live t !! Z.to_nat j <> Some NULL.

(** The array that [realloc] returns, if the table is full: twice as long, the old
    entries first.  A table that has room meets this whatever [realloc] does. *)
Definition grows (t : fd_table_t) (grown : list ptr) : Prop :=
  length_ t = capacity t ->
  capacity t < 536870912 /\ Z.of_nat (length grown) = capacity t * 2 /\ take (Z.to_nat (length_ t)) grown = live t.

Lemma grows_room t grown : length_ t < capacity t -> grows t grown.
Proof. intros Hl E. lia. Qed.

Lemma append_ok t e junk :
  wf_table t -> grows t junk ->
  exists t' k, process_append_fd t e junk = Ret (t', k) /\ append t k e t'.
Proof.
  intros Hw Hj. pose proof Hw as [Ha Hl Hc]. unfold process_append_fd.
  destruct (first_gap_ok t (Z.to_nat (length_ t)) 0 Hw) as [(k & -> & Hk & Hnull & Hfirst)|(-> & Hfirst)]; [lia|lia| |].
  - cbn [mbind outcome_bind]. rewrite aset_in_range by lia. cbn [mbind outcome_bind]. eexists _, k. split; [done|].
    split; [by apply wf_insert|]. split; [|done]. left. split; [lia|]. split; [done|]. by apply live_insert.
  - cbn [mbind outcome_bind]. set (t1 := if length_ t =? capacity t then _ else t).
    assert (length_ t1 = length_ t /\ take (Z.to_nat (length_ t)) (entries t1) = live t /\
      Z.of_nat (length (entries t1)) = capacity t1 /\ length_ t < capacity t1 < 1073741824) as (El & Elive & Ea & Ec).
    { unfold t1. destruct (Z.eqb_spec (length_ t) (capacity t)) as [E|E]; cbn; [|unfold live; split_and!; (done || lia)].
      destruct (Hj E) as (Hcap & Hlen & Htake). rewrite s32_small by lia. split_and!; (done || lia). }
    rewrite aset_in_range by lia. cbn [mbind outcome_bind]. eexists _, _. split; [done|]. rewrite El.
    split; [constructor; cbn; rewrite ?length_insert; lia|]. split; [|done]. right. split; [done|].
    unfold live at 1. cbn [entries length_]. replace (Z.to_nat (length_ t + 1)) with (S (Z.to_nat (length_ t))) by lia.
    rewrite (take_S_r _ _ e) by (apply list_lookup_insert_eq; lia). rewrite take_insert_ge by lia. by rewrite Elive.
Qed.

(** [process_append_fd] returns the least descriptor that is free, or the next
    one after the last; that descriptor refers to the node and all others to what they
    did, if the table has room or [realloc] keeps the entries. *)
Theorem process_append_fd_least t e junk :
  wf_table t -> grows t junk ->
  exists t' k, process_append_fd t e junk = Ret (t', k) /\ append t k e t'.
Proof. apply append_ok. Qed.

(** ** Reference counts *)

Section Counts.
Context {W : Type} `{NodeOps W} `{Stdin W}.
Implicit Types s : state W.

(** A node's count is the number of descriptors of this process that refer to it and
    of [others] that do (descriptors of other processes, working directories, a
    caller that has just opened it); -1 is a node that is never freed. *)
Record inv (others : ptr -> Z) s : Prop := {
  inv_table : wf_table (fds s);
  inv_null : nodes s !! NULL = None;
  inv_live p : p ∈ live (fds s) -> p = NULL \/ is_Some (nodes s !! p);
  inv_count p n : nodes s !! p = Some n -> refcount n = -1 \/ refcount n = holders (fds s) p + others p;
  inv_others p : 0 <= others p < 1073741824
}.

Lemma holders_bound t p : wf_table t -> 0 <= holders t p < 1073741824.
Proof.
  intros Hw. pose proof (count_nonneg p (live t)). pose proof (count_length p (live t)). pose proof (length_live t Hw).
  destruct Hw. unfold holders. lia.
Qed.

Lemma live_node others s p : inv others s -> p ∈ live (fds s) -> p <> NULL -> exists n, nodes s !! p = Some n.
Proof. intros Hi Hp Hn. destruct (inv_live _ _ Hi p Hp) as [|[n Hn']]; [done|eauto]. Qed.

(** What closing and opening do to a node; [None] is a node that is freed. *)
Definition close_node (n : fs_node_t) : option fs_node_t :=
  if refcount n =? -1 then Some n else if refcount n =? 1 then None else Some (set_refcount n (refcount n - 1)).
Definition open_node (n : fs_node_t) : fs_node_t :=
  if 0 <=? refcount n then set_refcount n (refcount n + 1) else n.
Definition change (d e p : ptr) (n : fs_node_t) : option fs_node_t :=
  if p =? d then close_node n else if p =? e then Some (open_node n) else Some n.

(** Descriptor [i], which referred to [d], refers to [e] once [d] has been closed and [e] opened. *)
Lemma inv_store others s ns w i d e t' :
  inv others s -> wf_table t' -> live (fds s) !! i = Some d -> live t' = <[i := e]> (live (fds s)) -> d <> e ->
  (e = NULL \/ e ∈ live (fds s)) -> (forall p, ns !! p = nodes s !! p ≫= change d e p) ->
  inv others (State ns t' w).
Proof.
  intros Hi Hw Hd Hl Hde He Hns.
  assert (forall p, holders t' p = holders (fds s) p - b2z (bool_decide (d = p)) + b2z (bool_decide (e = p))) as Hh.
  { intros p. unfold holders. rewrite Hl. by apply count_insert. }
  constructor; cbn [nodes fds]; [done| | | |apply Hi].
  - by rewrite Hns, (inv_null _ _ Hi).
  - intros p Hp. destruct (decide (p = NULL)) as [->|Hpn]; [by left|]. right.
    pose proof (count_elem _ _ Hp) as Hc. fold (holders t' p) in Hc. rewrite Hh in Hc. rewrite Hl in Hp.
    assert (p ∈ live (fds s)) as Hp'.
    { apply list_elem_of_lookup in Hp as [j Hj]. destruct (decide (j = i)) as [->|Hji].
      - rewrite list_lookup_insert_eq in Hj by (by eapply lookup_lt_Some). injection Hj as ->. by destruct He.
      - rewrite list_lookup_insert_ne in Hj by done. by eapply list_elem_of_lookup_2. }
    destruct (live_node _ _ _ Hi Hp' Hpn) as [n Hn]. rewrite Hns, Hn. cbn. unfold change, close_node.
    destruct (Z.eqb_spec p d) as [->|]; [|destruct (p =? e); done].
    rewrite (bool_decide_eq_true_2 (d = d)), (bool_decide_eq_false_2 (e = d)) in Hc by congruence. simpl in Hc.
    destruct (inv_count _ _ Hi _ _ Hn) as [E|E]; [by rewrite E|]. pose proof (inv_others _ _ Hi d).
    destruct (Z.eqb_spec (refcount n) (-1)); [done|]. destruct (Z.eqb_spec (refcount n) 1); [lia|done].
  - intros p n' Hp. rewrite Hns in Hp. destruct (nodes s !! p) as [n|] eqn:Hn; [|done]. cbn in Hp. rewrite Hh.
    unfold change, close_node, open_node in Hp. pose proof (holders_bound _ p (inv_table _ _ Hi)). pose proof (inv_others _ _ Hi p).
    destruct (inv_count _ _ Hi _ _ Hn) as [E|E]; rewrite E in Hp.
    + left. destruct (p =? d), (p =? e); by injection Hp as <-.
    + right. destruct (Z.eqb_spec p d) as [->|Hpd].
      { rewrite (bool_decide_eq_true_2 (d = d)), (bool_decide_eq_false_2 (e = d)) by congruence.
        destruct (Z.eqb_spec (holders (fds s) d + others d) (-1)); [lia|].
        destruct (Z.eqb_spec (holders (fds s) d + others d) 1); [done|]. injection Hp as <-. simpl. lia. }
      rewrite (bool_decide_eq_false_2 (d = p)) by congruence. destruct (Z.eqb_spec p e) as [->|Hpe].
      { rewrite bool_decide_eq_true_2 by done. destruct (Z.leb_spec 0 (holders (fds s) e + others e)); [|lia].
        injection Hp as <-. simpl. lia. }
      rewrite bool_decide_eq_false_2 by congruence. injection Hp as <-. simpl. lia.
Qed.

Lemma close_fs_ok others s d :
  inv others s -> d ∈ live (fds s) ->
  exists ns w, close_fs s d = Ret (State ns (fds s) w) /\ forall p, ns !! p = nodes s !! p ≫= change d NULL p.
Proof.
  intros Hi Hd. unfold close_fs. destruct (Z.eqb_spec d NULL) as [->|Hdn].
  { exists (nodes s), (world s). split; [by destruct s|]. intros p. unfold change. destruct (Z.eqb_spec p NULL) as [->|].
    - by rewrite (inv_null _ _ Hi).
    - by destruct (nodes s !! p). }
  destruct (live_node _ _ _ Hi Hd Hdn) as [n Hn]. rewrite Hn. cbn [of_option mbind outcome_bind].
  pose proof (holders_bound _ d (inv_table _ _ Hi)). pose proof (inv_others _ _ Hi d).
  assert (forall ns : gmap ptr fs_node_t, ns !! d = close_node n -> (forall p, p <> d -> ns !! p = nodes s !! p) ->
    forall p, ns !! p = nodes s !! p ≫= change d NULL p) as Hgen.
  { intros ns E1 E2 p. unfold change. destruct (Z.eqb_spec p d) as [->|Hpd]; [by rewrite E1, Hn|]. rewrite E2 by done.
    destruct (Z.eqb_spec p NULL) as [->|]; [by rewrite (inv_null _ _ Hi)|]. by destruct (nodes s !! p). }
  unfold close_node in Hgen. destruct (Z.eqb_spec (refcount n) (-1)) as [E|E].
  { exists (nodes s), (world s). split; [by destruct s|]. by apply Hgen. }
  destruct (inv_count _ _ Hi _ _ Hn) as [?|Ec]; [done|]. cbn [set_refcount refcount]. rewrite s32_small by lia.
  destruct (Z.eqb_spec (refcount n) 1) as [E1|E1].
  - rewrite E1. cbn [Z.sub Z.add Z.opp Z.pos_sub Z.eqb]. eexists _, _. split; [reflexivity|]. apply Hgen; [apply lookup_delete_eq|].
    intros p Hp. by apply lookup_delete_ne.
  - destruct (Z.eqb_spec (refcount n - 1) 0); [lia|]. eexists _, _. split; [reflexivity|]. cbn [put_node nodes].
    apply Hgen; [apply lookup_insert_eq|]. intros p Hp. by apply lookup_insert_ne.
Qed.

Lemma open_fs_ok ns t w e flags :
  (e = NULL \/ exists n, ns !! e = Some n /\ refcount n < 2147483647) -> ns !! NULL = None ->
  exists ns' w', open_fs (State ns t w) e flags = Ret (State ns' t w') /\
    forall p, ns' !! p = (fun n => if p =? e then open_node n else n) <$> ns !! p.
Proof.
  intros He Hnull. unfold open_fs. destruct (Z.eqb_spec e NULL) as [->|Hen].
  { exists ns, w. split; [done|]. intros p. destruct (Z.eqb_spec p NULL) as [->|]; [by rewrite Hnull|]. by destruct (ns !! p). }
  destruct He as [?|(n & Hn & Hsm)]; [done|]. cbn [nodes]. rewrite Hn. cbn [of_option mbind outcome_bind].
  eexists (if 0 <=? refcount n then <[e := set_refcount n (refcount n + 1)]> ns else ns), _. split.
  { destruct (Z.leb_spec 0 (refcount n)); cbn [set_world put_node nodes fds world]; rewrite ?s32_small by lia; reflexivity. }
  intros p. destruct (Z.eqb_spec p e) as [->|Hpe].
  - rewrite Hn. cbn. unfold open_node. destruct (0 <=? refcount n); [by rewrite lookup_insert_eq|done].
  - destruct (0 <=? refcount n); rewrite ?lookup_insert_ne by done; by destruct (ns !! p).
Qed.

Lemma fd_entry_ok t fd :
  wf_table t ->
  fd_entry t fd = Ret (if (fd <? length_ t) && (0 <=? fd)
                       then match live t !! Z.to_nat fd with Some e => if e =? NULL then None else Some e | None => None end
                       else None).
Proof.
  intros Hw. unfold fd_entry. destruct (Z.ltb_spec fd (length_ t)), (Z.leb_spec 0 fd); cbn [andb]; try done.
  destruct (entry_ok t fd Hw) as (e & -> & ->); [lia|]. cbn. by destruct (e =? NULL).
Qed.

(** The descriptor [fd] refers to the node [p]. *)
Definition refers (t : fd_table_t) (fd : Z) (p : ptr) : Prop :=
  0 <= fd < length_ t /\ live t !! Z.to_nat fd = Some p /\ p <> NULL.

Lemma fd_entry_refers t fd p : wf_table t -> refers t fd p -> fd_entry t fd = Ret (Some p).
Proof.
  intros Hw ([Hf1 Hf2] & Hl & Hp). rewrite fd_entry_ok by done.
  rewrite (proj2 (Z.ltb_lt _ _) Hf2), (proj2 (Z.leb_le _ _) Hf1), Hl, (proj2 (Z.eqb_neq _ _) Hp). done.
Qed.

Lemma sys_close_ok others s fd :
  inv others s -> exists s' v, sys_close s fd = Ret (s', v) /\ inv others s' /\
    (forall p, refers (fds s) fd p -> v = 0 /\ live (fds s') = <[Z.to_nat fd := NULL]> (live (fds s)) /\
       forall q, nodes s' !! q = nodes s !! q ≫= change p NULL q).
Proof.
  intros Hi. pose proof (inv_table _ _ Hi) as Hw. unfold sys_close. rewrite fd_entry_ok by done. cbn [mbind outcome_bind].
  destruct (Z.ltb_spec fd (length_ (fds s))), (Z.leb_spec 0 fd); cbn [andb].
  2-4: (exists s, (-1); split; [done|]; split; [done|]; intros p (? & _ & _); lia).
  destruct (entry_ok (fds s) fd Hw) as (d & Hg & Hd); [lia|]. rewrite Hd. destruct (Z.eqb_spec d NULL) as [->|Hdn].
  { exists s, (-1). split; [done|]. split; [done|]. intros p (_ & Hp & Hn). rewrite Hd in Hp. congruence. }
  destruct (close_fs_ok others s d Hi) as (ns & w & -> & Hns); [by eapply list_elem_of_lookup_2|].
  pose proof Hw as [Ha Hl Hc]. cbn [mbind outcome_bind fds]. rewrite aset_in_range by lia. cbn [mbind outcome_bind].
  eexists _, 0. split; [reflexivity|]. cbn [set_fds nodes fds world].
  assert (live (set_entries (fds s) (<[Z.to_nat fd := NULL]> (entries (fds s)))) = <[Z.to_nat fd := NULL]> (live (fds s))) as El
    by (apply live_insert; lia).
  split.
  - apply (inv_store others s ns w (Z.to_nat fd) d NULL); [done|by apply wf_insert|done|done|done|by left|done].
  - intros p (_ & Hp & _). rewrite Hd in Hp. injection Hp as <-. split; [done|]. split; [exact El|done].
Qed.

(** Appending a descriptor: [others] gives the reference up. *)
Lemma inv_append others others' s t' k e :
  inv others s -> append (fds s) k e t' -> (e = NULL \/ is_Some (nodes s !! e)) ->
  (forall p, p <> NULL -> others' p = others p - b2z (bool_decide (e = p))) -> (forall p, 0 <= others' p < 1073741824) ->
  inv others' (set_fds s t').
Proof.
  intros Hi (Hw & Happ & _) He Ho Hob. constructor; cbn [set_fds nodes fds]; [done|apply Hi| | |done].
  - intros p Hp. destruct (decide (p = NULL)) as [->|Hpn]; [by left|].
    assert (p = e \/ p ∈ live (fds s)) as [->|Hp']; [|by destruct He; [|right]|by apply (inv_live _ _ Hi)].
    destruct Happ as [(_ & _ & El)|(_ & El)]; rewrite El in Hp.
    + apply list_elem_of_lookup in Hp as [j Hj]. destruct (decide (j = Z.to_nat k)) as [->|Hji].
      * left. rewrite list_lookup_insert_Some in Hj. destruct Hj as [(_ & -> & _)|(? & _)]; [done|congruence].
      * rewrite list_lookup_insert_ne in Hj by done. right. by eapply list_elem_of_lookup_2.
    + rewrite elem_of_app, list_elem_of_singleton in Hp. tauto.
  - intros p n Hn. destruct (inv_count _ _ Hi p n Hn) as [|Ec]; [by left|]. right.
    assert (p <> NULL) as Hpn by (intros ->; by rewrite (inv_null _ _ Hi) in Hn). rewrite Ec, Ho by done. unfold holders.
    destruct Happ as [(_ & Hk & El)|(_ & El)]; rewrite El.
    + rewrite (count_insert p _ _ NULL e Hk), (bool_decide_eq_false_2 (NULL = p)) by congruence. simpl. lia.
    + rewrite holders_app, count_cons, count_nil. lia.
Qed.

Lemma install_ok others s p n junk :
  inv others s -> nodes s !! p = Some n -> 1 <= others p -> grows (fds s) junk ->
  exists s' fd, install_node s p junk = Ret (s', fd) /\ inv (fun q => others q - b2z (bool_decide (p = q))) s' /\
    append (fds s) fd p (fds s').
Proof.
  intros Hi Hn Ho Hj. assert (p <> NULL) as Hpn by (intros ->; by rewrite (inv_null _ _ Hi) in Hn).
  unfold install_node. rewrite (proj2 (Z.eqb_neq _ _) Hpn), Hn. cbn [of_option mbind outcome_bind].
  set (s1 := put_node s p (set_offset n 0)).
  assert (inv others s1) as Hi1.
  { constructor; try apply Hi; cbn [s1 put_node nodes fds].
    - rewrite lookup_insert_ne by done. apply Hi.
    - intros q Hq. destruct (decide (q = p)) as [->|Hqp]; [right; by rewrite lookup_insert_eq|].
      rewrite lookup_insert_ne by done. by apply (inv_live _ _ Hi).
    - intros q m Hm. destruct (decide (q = p)) as [->|Hqp].
      + rewrite lookup_insert_eq in Hm. injection Hm as <-. by apply (inv_count _ _ Hi p n).
      + rewrite lookup_insert_ne in Hm by done. by apply (inv_count _ _ Hi). }
  destruct (append_ok (fds s) p junk (inv_table _ _ Hi) Hj) as (t' & k & E & Happ).
  change (fds s1) with (fds s). rewrite E. cbn [mbind outcome_bind]. exists (set_fds s1 t'), k. split; [done|]. split; [|done].
  apply (inv_append others _ s1 t' k p); [done|done|right; cbn; by rewrite lookup_insert_eq|done|].
  intros q. pose proof (inv_others _ _ Hi q). case_bool_decide; [subst; simpl; lia|simpl; lia].
Qed.

(** [process_move_fd] once both descriptors are in range. *)
Definition move (s : state W) (src dest : Z) : outcome (state W * Z) :=
  d ← aget (entries (fds s)) dest;
  n ← aget (entries (fds s)) src;
  if negb (d =? n) then
    s ← close_fs s d;
    es ← aset (entries (fds s)) dest n;
    let s := set_fds s (set_entries (fds s) es) in
    s ← open_fs s n 0;
    Ret (s, dest)
  else Ret (s, dest).

Lemma move_ok others s src dest e :
  inv others s -> 0 <= src < length_ (fds s) -> 0 <= dest < length_ (fds s) -> live (fds s) !! Z.to_nat src = Some e ->
  exists s', move s src dest = Ret (s', dest) /\ inv others s' /\ length_ (fds s') = length_ (fds s) /\
    live (fds s') = <[Z.to_nat dest := e]> (live (fds s)) /\
    (forall n, nodes s !! e = Some n -> exists r, nodes s' !! e = Some (set_refcount n r)).
Proof.
  intros Hi Hsrc Hdest He. pose proof (inv_table _ _ Hi) as Hw. pose proof Hw as [Ha Hl Hc]. unfold move.
  destruct (entry_ok (fds s) dest Hw Hdest) as (d & -> & Hd). cbn [mbind outcome_bind].
  destruct (entry_ok (fds s) src Hw Hsrc) as (e' & -> & He'). rewrite He in He'. injection He' as <-. cbn [mbind outcome_bind].
  destruct (Z.eqb_spec d e) as [->|Hde]; cbn [negb].
  { exists s. split; [done|]. split; [done|]. split; [done|]. split; [symmetry; by apply list_insert_id|].
    intros n Hn. exists (refcount n). rewrite Hn. by destruct n. }
  assert (e ∈ live (fds s)) as Hel by (by eapply list_elem_of_lookup_2).
  destruct (close_fs_ok others s d Hi) as (ns & w & -> & Hns); [by eapply list_elem_of_lookup_2|].
  cbn [mbind outcome_bind fds]. rewrite aset_in_range by lia. cbn [mbind outcome_bind set_fds nodes world fds].
  set (t' := set_entries (fds s) _).
  assert (live t' = <[Z.to_nat dest := e]> (live (fds s))) as El by (apply live_insert; lia).
  match goal with |- context [open_fs ?x e 0] => change x with (State ns t' w) end.
  destruct (open_fs_ok ns t' w e 0) as (ns' & w' & -> & Hns').
  { destruct (decide (e = NULL)) as [->|Hen]; [by left|]. right. destruct (live_node _ _ _ Hi Hel Hen) as [n Hn]. exists n.
    rewrite Hns, Hn. cbn. unfold change. rewrite (proj2 (Z.eqb_neq e d)), (proj2 (Z.eqb_neq e NULL)) by congruence. split; [done|].
    pose proof (holders_bound _ e Hw). pose proof (inv_others _ _ Hi e). destruct (inv_count _ _ Hi e n Hn); lia. }
  { by rewrite Hns, (inv_null _ _ Hi). }
  cbn [mbind outcome_bind]. eexists. split; [done|]. split; [|split; [done|split; [exact El|]]].
  2: { intros n Hn. cbn [nodes]. rewrite Hns', Hns, Hn. cbn. unfold change. rewrite (proj2 (Z.eqb_neq e d)) by congruence.
       rewrite (proj2 (Z.eqb_neq e NULL)) by (intros ->; by rewrite (inv_null _ _ Hi) in Hn). cbn. rewrite Z.eqb_refl.
       unfold open_node. destruct (0 <=? refcount n); eexists; [done|]. instantiate (1 := refcount n). by destruct n. }
  apply (inv_store others s ns' w' (Z.to_nat dest) d e t' Hi); [by apply wf_insert|done|done|done|by right|].
  intros p. rewrite Hns', Hns. destruct (nodes s !! p) as [n|] eqn:Hn; [|done]. cbn. unfold change.
  destruct (Z.eqb_spec p d) as [->|Hpd].
  - rewrite (proj2 (Z.eqb_neq d e)) by done. by destruct (close_node n).
  - destruct (Z.eqb_spec p NULL) as [->|]; [by rewrite (inv_null _ _ Hi) in Hn|]. by destruct (p =? e).
Qed.

Lemma process_move_fd_ok others s src dest junk e :
  inv others s -> grows (fds s) junk ->
  0 <= src < length_ (fds s) -> (dest = -1 \/ 0 <= dest < length_ (fds s)) -> live (fds s) !! Z.to_nat src = Some e ->
  exists s' d, process_move_fd s src dest junk = Ret (s', d) /\ inv others s' /\
    live (fds s') !! Z.to_nat d = Some e /\ live (fds s') !! Z.to_nat src = Some e /\ (dest <> -1 -> d = dest) /\
    0 <= d < length_ (fds s') /\ src < length_ (fds s') /\
    (forall n, nodes s !! e = Some n -> exists r, nodes s' !! e = Some (set_refcount n r)).
Proof.
  intros Hi Hj Hsrc Hdest He. unfold process_move_fd. destruct (Z.ltb_spec (length_ (fds s)) src); [lia|].
  destruct (Z.ltb_spec (length_ (fds s)) dest); [lia|]. rewrite andb_false_r. cbn [orb].
  assert (forall s1 d, inv others s1 -> live (fds s1) !! Z.to_nat src = Some e ->
    0 <= src < length_ (fds s1) -> 0 <= d < length_ (fds s1) ->
    exists s' , move s1 src d = Ret (s', d) /\ inv others s' /\
      live (fds s') !! Z.to_nat d = Some e /\ live (fds s') !! Z.to_nat src = Some e /\ length_ (fds s') = length_ (fds s1) /\
      (forall n, nodes s1 !! e = Some n -> exists r, nodes s' !! e = Some (set_refcount n r))) as Hmove.
  { intros s1 d Hi1 He1 Hs1 Hd1. destruct (move_ok others s1 src d e Hi1 Hs1 Hd1 He1) as (s' & E & Hi' & Hlen & El & Hnode).
    exists s'. split; [exact E|]. split; [done|]. rewrite El. pose proof (length_live _ (inv_table _ _ Hi1)).
    split; [apply list_lookup_insert_eq; lia|]. split; [|done]. apply list_lookup_insert_Some.
    destruct (decide (Z.to_nat d = Z.to_nat src)) as [->|]; [left; split_and!; [done|done|lia]|right; done]. }
  destruct (Z.eqb_spec dest (-1)) as [->|Hd1].
  - destruct (append_ok (fds s) NULL junk (inv_table _ _ Hi) Hj) as (t' & k & -> & Happ). cbn [mbind outcome_bind].
    pose proof (length_live _ (inv_table _ _ Hi)) as Hlen.
    assert (inv others (set_fds s t')) as Hi1.
    { apply (inv_append others others s t' k NULL Hi Happ); [by left| |apply Hi].
      intros p Hp. rewrite bool_decide_eq_false_2 by congruence. simpl. lia. }
    pose proof (length_live _ (inv_table _ _ Hi1)) as Hlen1. cbn [set_fds fds] in Hlen1.
    assert (live t' !! Z.to_nat src = Some e /\ length_ (fds s) <= length_ t' /\ 0 <= k < length_ t') as (He1 & Hl1 & Hk1).
    { destruct Happ as (_ & [(Hk & Hnull & El)|(Hk & El)] & _); rewrite El in *.
      - rewrite length_insert in Hlen1. split; [|lia]. destruct (decide (k = src)) as [->|Hks].
        + rewrite list_lookup_insert_eq by lia. congruence.
        + by rewrite list_lookup_insert_ne by lia.
      - rewrite length_app in Hlen1. cbn [length] in Hlen1. split; [|lia]. by apply lookup_app_l_Some. }
    destruct (Hmove (set_fds s t') k Hi1 He1) as (s' & E & Hi' & Hat & Hsrc' & Hlen' & Hnode); [cbn; lia|cbn; lia|].
    cbn [set_fds fds] in Hlen'. exists s', k. split; [exact E|]. split_and!; (done || lia).
  - destruct (Hmove s dest Hi He Hsrc) as (s' & E & Hi' & Hat & Hsrc' & Hlen' & Hnode); [lia|]. cbn [mbind outcome_bind].
    exists s', dest. split; [exact E|]. split_and!; (done || lia).
Qed.

Lemma inv_world others s w : inv others s -> inv others (set_world s w).
Proof. intros Hi. constructor; apply Hi. Qed.

(** Changing the offset of a node changes no count. *)
Lemma inv_offset others s p n o w :
  inv others s -> nodes s !! p = Some n -> inv others (put_node (set_world s w) p (set_offset n o)).
Proof.
  intros Hi Hn. assert (p <> NULL) as Hpn by (intros ->; by rewrite (inv_null _ _ Hi) in Hn).
  constructor; try apply Hi; cbn [put_node set_world nodes fds].
  - rewrite lookup_insert_ne by done. apply Hi.
  - intros q Hq. destruct (decide (q = p)) as [->|Hqp]; [right; by rewrite lookup_insert_eq|].
    rewrite lookup_insert_ne by done. by apply (inv_live _ _ Hi).
  - intros q m Hm. destruct (decide (q = p)) as [->|Hqp].
    + rewrite lookup_insert_eq in Hm. injection Hm as <-. by apply (inv_count _ _ Hi p n).
    + rewrite lookup_insert_ne in Hm by done. by apply (inv_count _ _ Hi).
Qed.

Lemma refers_node others s fd p : inv others s -> refers (fds s) fd p -> exists n, nodes s !! p = Some n.
Proof. intros Hi (_ & Hl & Hp). apply (live_node others s p Hi); [by eapply list_elem_of_lookup_2|done]. Qed.

Lemma entry_cases others s fd :
  inv others s -> (fd_entry (fds s) fd = Ret None) \/
  exists p n, fd_entry (fds s) fd = Ret (Some p) /\ refers (fds s) fd p /\ nodes s !! p = Some n.
Proof.
  intros Hi. pose proof (inv_table _ _ Hi) as Hw. rewrite fd_entry_ok by done.
  destruct (Z.ltb_spec fd (length_ (fds s))), (Z.leb_spec 0 fd); cbn [andb]; try by left.
  destruct (entry_ok (fds s) fd Hw) as (e & _ & Hl); [lia|]. rewrite Hl. destruct (Z.eqb_spec e NULL) as [|Hen]; [by left|]. right.
  assert (refers (fds s) fd e) as Hr by done. destruct (refers_node _ _ _ _ Hi Hr) as [n Hn]. eauto.
Qed.

(** [sys_write] on an index of the table: a gap is refused. *)
Lemma sys_write_ok others user s fd bytes :
  inv others s -> 0 <= fd < length_ (fds s) -> exists s' v, sys_write user s fd bytes = Ret (s', v) /\ inv others s'.
Proof.
  intros Hi Hfd. unfold sys_write. destruct (entry_ok (fds s) fd (inv_table _ _ Hi) Hfd) as (e & -> & He). cbn [mbind outcome_bind].
  unfold node_at. destruct (Z.eqb_spec e NULL) as [->|Hen]; cbn [mbind outcome_bind]; [by exists s, (- EACCES)|].
  destruct (live_node others s e Hi) as [n Hn]; [by eapply list_elem_of_lookup_2|done|]. rewrite Hn. cbn [of_option mbind outcome_bind].
  destruct (negb _); [by exists s, (- EACCES)|]. destruct (write_fs s e n bytes) as [out w]. eexists _, _. split; [done|]. by apply inv_offset.
Qed.

(** Duplicating a descriptor of the table; only a destination of -1 needs room. *)
Lemma move_room others s src dest junk e :
  inv others s -> 0 <= src < length_ (fds s) ->
  (dest = -1 /\ length_ (fds s) < capacity (fds s) \/ 0 <= dest < length_ (fds s)) -> live (fds s) !! Z.to_nat src = Some e ->
  exists s' d, process_move_fd s src dest junk = Ret (s', d) /\ inv others s'.
Proof.
  intros Hi Hsrc [[-> Hroom]|Hdest] He.
  - destruct (process_move_fd_ok others s src (-1) junk e Hi (grows_room _ _ Hroom) Hsrc (or_introl eq_refl) He) as (s' & d & E & Hi' & _). eauto.
  - unfold process_move_fd. destruct (Z.ltb_spec (length_ (fds s)) src); [lia|].
    destruct (Z.ltb_spec (length_ (fds s)) dest); [lia|]. rewrite andb_false_r, (proj2 (Z.eqb_neq dest (-1))) by lia. cbn [orb mbind outcome_bind].
    destruct (move_ok others s src dest e Hi Hsrc Hdest He) as (s' & E & Hi' & _). eauto.
Qed.

(** *** Sequences of calls *)

Inductive call :=
  | Open (p : ptr) (junk : list ptr)
  | Close (fd : Z)
  | Dup2 (src dest : Z) (junk : list ptr)
  | Seek (fd off whence : Z)
  | Read (fd len : Z)
  | Write (user fd : Z) (bytes : list Z).

Definition run s (c : call) : outcome (state W) :=
  match c with
  | Open p junk => fst <$> install_node s p junk
  | Close fd => fst <$> sys_close s fd
  | Dup2 src dest junk => fst <$> sys_dup2 s src dest junk
  | Seek fd off whence => fst <$> sys_seek s fd off whence
  | Read fd len => (fun r => r.1.1) <$> sys_read s fd len
  | Write user fd bytes => fst <$> sys_write user s fd bytes
  end.

(** A node is opened by a caller that holds a reference; the descriptors given to
    dup2 and to write are in the table (which the code does not test); the table is not
    full when a descriptor is added (so that [realloc] is not called); a line read from
    the keyboard gets finished. *)
Definition legal (others : ptr -> Z) s (c : call) : Prop :=
  match c with
  | Open p _ => is_Some (nodes s !! p) /\ 1 <= others p /\ length_ (fds s) < capacity (fds s)
  | Dup2 src dest _ => 0 <= src < length_ (fds s) /\
      (dest = -1 /\ length_ (fds s) < capacity (fds s) \/ 0 <= dest < length_ (fds s))
  | Write _ fd _ => 0 <= fd < length_ (fds s)
  | Read fd len => fd = 0 -> exists r, stdin_read (world s) len = Ret r
  | _ => True
  end.

(** References after the call: an opened node's passes to the table. *)
Definition others_after (others : ptr -> Z) (c : call) : ptr -> Z :=
  match c with Open p _ => fun q => others q - b2z (bool_decide (p = q)) | _ => others end.

(** C15: Reference counts are kept by the calls that install an opened node in the table,
    close, duplicate, seek, read and write: each returns without a fault, and after it the
    count of every node is again the number of descriptors and other holders that refer to
    it (or -1), so no descriptor refers to a node that has been freed.  Side conditions, which
    the code does not test: the arguments of dup2 (but for a destination of -1) and of write
    are indices of the table; the table has room when a descriptor is added, so that
    [realloc] is not called; the caller that installs a node holds a reference to it; and a
    read of descriptor 0 gets its line from the keyboard. *)
Theorem descriptors_never_dangle others s c :
  inv others s -> legal others s c ->
  exists s', run s c = Ret s' /\ inv (others_after others c) s'.
Proof.
  intros Hi Hleg. destruct c as [p junk|fd|src dest junk|fd off whence|fd len|user fd bytes]; cbn [run legal others_after] in *.
  - destruct Hleg as ([n Hn] & Ho & Hj%(grows_room _ junk)). destruct (install_ok others s p n junk Hi Hn Ho Hj) as (s' & fd & -> & Hi' & _). by exists s'.
  - destruct (sys_close_ok others s fd Hi) as (s' & v & -> & Hi' & _). by exists s'.
  - destruct Hleg as (Hsrc & Hdest). destruct (entry_ok (fds s) src (inv_table _ _ Hi) Hsrc) as (e & _ & He).
    destruct (move_room others s src dest junk e Hi Hsrc Hdest He) as (s' & d & E & Hi').
    unfold sys_dup2. rewrite E. by exists s'.
  - unfold sys_seek. destruct (entry_cases others s fd Hi) as [-> | (p & n & -> & _ & Hn)]; cbn [mbind outcome_bind]; [by exists s|].
    destruct (fd <? 3); [by exists s|]. rewrite Hn. cbn [of_option mbind outcome_bind fmap outcome_fmap fst]. eexists. split; [done|].
    exact (inv_offset others s p n _ (world s) Hi Hn).
  - unfold sys_read. destruct (fd =? 0) eqn:E0.
    { apply Z.eqb_eq in E0. destruct (Hleg E0) as [[[bytes out] w] ->]. cbn [mbind outcome_bind fmap outcome_fmap fst].
      eexists. split; [done|]. by apply inv_world. }
    destruct (entry_cases others s fd Hi) as [-> | (p & n & -> & _ & Hn)]; cbn [mbind outcome_bind]; [by exists s|].
    rewrite Hn. cbn [of_option mbind outcome_bind]. destruct (read_fs s p n (u32 len)) as [[bytes out] w].
    cbn [fmap outcome_fmap fst]. eexists. split; [done|]. by apply inv_offset.
  - destruct (sys_write_ok others user s fd bytes Hi Hleg) as (s' & v & -> & Hi'). by exists s'.
Qed.

(** *** Sharing the offset *)

(** Reading a node gives the bytes of [content] at the offset, as the file systems'
    theorems on reading say. *)
Definition reads (p : ptr) (content : list Z) : Prop :=
  forall w off size, 0 <= off -> 0 <= size ->
    let bytes := take (Z.to_nat size) (drop (Z.to_nat off) content) in
    node_read p w off size = (bytes, Z.of_nat (length bytes), w).

Lemma sys_read_ok others s fd p n content len :
  fd <> 0 -> inv others s -> refers (fds s) fd p -> nodes s !! p = Some n -> readable n = true -> reads p content ->
  0 <= offset n -> 0 <= len < 2147483648 -> offset n + len < 4294967296 ->
  let bytes := take (Z.to_nat len) (drop (Z.to_nat (offset n)) content) in
  sys_read s fd len = Ret (put_node s p (set_offset n (offset n + Z.of_nat (length bytes))), bytes, Z.of_nat (length bytes)).
Proof.
  intros Hfd Hi Hr Hn Hread Hc Ho Hl Hol bytes. unfold sys_read. rewrite (proj2 (Z.eqb_neq _ _) Hfd), (fd_entry_refers _ _ _ (inv_table _ _ Hi) Hr).
  cbn [mbind outcome_bind]. rewrite Hn. cbn [of_option mbind outcome_bind]. unfold read_fs. rewrite Hread, u32_small by lia.
  rewrite Hc by lia. fold bytes. assert (Z.of_nat (length bytes) <= len) by (unfold bytes; rewrite length_take; lia).
  rewrite u32_small, s32_small by lia. by destruct s.
Qed.

Lemma take_twice {A} (l : list A) a b : take a l ++ take b (drop (length (take a l)) l) = take (a + b) l.
Proof.
  rewrite length_take. destruct (decide (a <= length l)%nat).
  - rewrite Nat.min_l by done. rewrite take_take_drop. done.
  - rewrite Nat.min_r, drop_all, take_nil, app_nil_r, !take_ge by lia. done.
Qed.

(** Descriptors made by dup2 share the offset: what is read through the new one
    continues where the old one stopped (descriptor 0 apart, which is the keyboard
    whatever the table says). *)
Theorem dup2_reads_continue others s src dest junk p n content a b :
  inv others s -> grows (fds s) junk ->
  src <> 0 -> refers (fds s) src p -> dest = -1 \/ 0 <= dest < length_ (fds s) ->
  nodes s !! p = Some n -> readable n = true -> reads p content ->
  0 <= offset n -> 0 <= a < 2147483648 -> 0 <= b < 2147483648 -> offset n + a + b < 4294967296 ->
  exists s1 d, sys_dup2 s src dest junk = Ret (s1, d) /\
    (d <> 0 -> exists s2 bytes1 k1 s3 bytes2 k2,
      sys_read s1 src a = Ret (s2, bytes1, k1) /\ sys_read s2 d b = Ret (s3, bytes2, k2) /\
      bytes1 ++ bytes2 = take (Z.to_nat (a + b)) (drop (Z.to_nat (offset n)) content)).
Proof.
  intros Hi Hj Hs0 Hr Hdest Hn Hread Hc Ho Ha Hb Hsum. pose proof Hr as (Hsrc & Hlive & Hpn).
  destruct (process_move_fd_ok others s src dest junk p Hi Hj Hsrc Hdest Hlive)
    as (s1 & d & E & Hi1 & Hd & Hs & _ & Hdl & Hsl & Hnode).
  exists s1, d. split; [exact E|]. intros Hd0. destruct (Hnode n Hn) as [r Hn1].
  assert (refers (fds s1) src p) as Hr1 by (split; [lia|done]). assert (refers (fds s1) d p) as Hrd by done.
  pose proof (sys_read_ok others s1 src p _ content a Hs0 Hi1 Hr1 Hn1 Hread Hc Ho Ha ltac:(cbn; lia)) as E1. cbn [set_refcount offset] in E1.
  set (l := drop (Z.to_nat (offset n)) content) in *. set (bytes1 := take (Z.to_nat a) l) in *.
  assert (Z.of_nat (length bytes1) <= a) by (unfold bytes1; rewrite length_take; lia).
  set (n2 := set_offset (set_refcount n r) (offset n + Z.of_nat (length bytes1))) in *.
  assert (inv others (put_node s1 p n2)) as Hi2 by exact (inv_offset others s1 p _ _ (world s1) Hi1 Hn1).
  assert (nodes (put_node s1 p n2) !! p = Some n2) as Hn2 by apply lookup_insert_eq.
  pose proof (sys_read_ok others (put_node s1 p n2) d p n2 content b Hd0 Hi2 Hrd Hn2 Hread Hc ltac:(cbn; lia) Hb ltac:(cbn; lia)) as E2.
  eexists _, bytes1, _, _, _, _. split; [exact E1|]. split; [exact E2|].
  cbn [n2 set_offset offset]. rewrite Z2Nat.inj_add, Nat2Z.id, <- drop_drop by lia. fold l.
  rewrite Z2Nat.inj_add by lia. apply take_twice.
Qed.

End Counts.

(** ** Witnesses: three standard descriptors and a file of six bytes *)

Definition text : list Z := [10; 20; 30; 40; 50; 60].

(** The state behind the nodes is the keyboard alone. *)
Definition demo_world : Type := Keyboard.ringbuffer_t * list (list Z).

#[local] Instance demo_ops : NodeOps demo_world := {|
  node_open _ w _ := w;
  node_close _ w := w;
  node_read _ w off size := let bytes := take (Z.to_nat size) (drop (Z.to_nat off) text) in (bytes, Z.of_nat (length bytes), w);
  node_write _ w _ bytes := (Z.of_nat (length bytes), w)
|}.
#[local] Instance demo_stdin : Stdin demo_world := keyboard_stdin (fun len => replicate (Z.to_nat len) 7).

Definition tty_node : fs_node_t := Build_node (-1) 0 0 true true 0x1B6 0.
Definition file_node : fs_node_t := Build_node 1 1 6 true false 0x1A4 0.
Definition new_node : fs_node_t := Build_node 1 0 6 true true 0x1A4 0.
Definition demo_fds : fd_table_t := Build_fds [200; 200; 200; 100; 7; 7] 4 6 1.
Definition demo : state demo_world :=
  State {[100 := file_node; 200 := tty_node; 300 := new_node]} demo_fds (Keyboard._kbd_initialize (replicate 256 0), Keyboard.bursts).
Definition demo_others (p : ptr) : Z := if p =? 300 then 1 else 0.

Lemma demo_table : wf_table demo_fds.
Proof. constructor; cbn; lia. Qed.

Lemma table_inv : inv demo_others demo.
Proof.
  constructor; [apply demo_table|done| | |].
  - intros p Hp. right. change (live (fds demo)) with [200; 200; 200; 100] in Hp. rewrite !elem_of_cons, elem_of_nil in Hp. destruct Hp as [-> | [-> | [-> | [-> | []]]]]; eauto.
  - intros p n Hn. cbn [demo nodes] in Hn. destruct (decide (p = 100)) as [->|H1]; [right; by injection Hn as <-|].
    destruct (decide (p = 200)) as [->|H2]; [left; by injection Hn as <-|].
    destruct (decide (p = 300)) as [->|H3]; [right; by injection Hn as <-|].
    by rewrite !lookup_insert_ne, lookup_singleton_ne in Hn by done.
  - intros p. unfold demo_others. destruct (p =? 300); lia.
Qed.

Lemma process_append_fd_least_witness : exists t' k, process_append_fd demo_fds 300 [] = Ret (t', k) /\ append demo_fds k 300 t'.
Proof. apply (process_append_fd_least demo_fds 300 [] demo_table), grows_room. reflexivity. Defined.

Lemma descriptors_never_dangle_witness : exists s', run demo (Dup2 3 (-1) []) = Ret s' /\ inv demo_others s'.
Proof.
  apply (descriptors_never_dangle demo_others demo (Dup2 3 (-1) []) table_inv).
  cbn. split; [lia|]. left. split; [done|reflexivity].
Defined.

Lemma dup2_reads_continue_witness :
  exists s1 s2 bytes1 k1 s3 bytes2 k2, sys_dup2 demo 3 (-1) [] = Ret (s1, 4) /\
    sys_read s1 3 2 = Ret (s2, bytes1, k1) /\ sys_read s2 4 2 = Ret (s3, bytes2, k2) /\ bytes1 ++ bytes2 = [20; 30; 40; 50].
Proof.
  destruct (dup2_reads_continue demo_others demo 3 (-1) [] 100 file_node text 2 2 table_inv) as (s1 & d & E & Hread);
    [by apply grows_room|lia|split; [cbn; lia|done]|by left|reflexivity|reflexivity|done|cbn; lia|lia|lia|cbn; lia|].
  assert (d = 4) as -> by (vm_compute in E; congruence). destruct Hread as (s2 & bytes1 & k1 & s3 & bytes2 & k2 & H1 & H2 & H3); [lia|].
  by exists s1, s2, bytes1, k1, s3, bytes2, k2.
Defined.

(** Reading from descriptor 0 gives the line that is typed. *)
Example read_keyboard : (fun r => r.2) <$> sys_read demo 0 8 = Ret 3.
Proof. reflexivity. Qed.

(** The entry after the last one passes the test of dup2: an entry that was never
    initialised becomes a descriptor, and using it is a fault. *)
Example dup2_past_end : process_move_fd demo 4 3 [] = Fault.
Proof. reflexivity. Qed.

End Descriptors.
