(* ===== verification/Process.v ===== *)
(** * Processes ([kernel/src/task/proc.c])

    Process numbers, the process tree, waiting for a child and removing a process.
    The tree is that of [Tree], the set of numbers that of [Bitset], the wait queues
    those of [RingBuffer] ([WaitQueue]).  Tasks are in a map from addresses, since the
    tree's values point to them.  [assert] is the empty function of
    [kernel/src/dev/timer.c]: it has no effect, but its argument is evaluated. *)

From stdpp Require Import base gmap numbers list.
From S2P Require Import Prelude Bitset LinkedList RingBuffer Tree.

Module Process.
Import Bitset.

(** The fields of [task_t] used here. *)
Record task_t := Task {
  id : Z;
  group : Z;
  finished : bool;
  status : Z;
  tree_entry : ptr;
  wait_queue : list ptr
}.

Record kernel := Kernel {
  tasks : gmap ptr task_t;
  process_tree : Tree.state;
  process_list : list ptr;
  pid_set : bitset_t;
  next_pid : Z;
  woken : list (ptr * bool)   (* processes made ready, as in [WaitQueue] *)
}.

Definition set_pids (k : kernel) b n := Kernel (tasks k) (process_tree k) (process_list k) b n (woken k).
Definition put_task (k : kernel) p t := Kernel (<[p := t]> (tasks k)) (process_tree k) (process_list k) (pid_set k) (next_pid k) (woken k).
Definition set_queue (t : task_t) q := Task (id t) (group t) (finished t) (status t) (tree_entry t) q.

Definition get_task (k : kernel) (p : ptr) : outcome task_t :=
  if p =? NULL then Fault else of_option (tasks k !! p).

(** ** Process numbers *)

Definition MAX_PID : Z := 32768.

(** [initialize_process_tree]: an empty tree and list, numbers 0 and 1 in use. *)
Definition initialize_process_tree (k : kernel) : outcome kernel :=
  let b := bitset_init (MAX_PID / 8) in
  b ← bitset_set b 0;
  b ← bitset_set b 1;
  Ret (Kernel (tasks k) (Tree.tree_create (process_tree k)) [] b (next_pid k) (woken k)).

Definition get_next_pid (k : kernel) : outcome (kernel * Z) :=
  if MAX_PID <? next_pid k then
    index ← bitset_ffub (pid_set k);
    b ← bitset_set (pid_set k) index;
    Ret (set_pids k b (next_pid k), index)
  else
    let pid := next_pid k in
    _ ← bitset_test (pid_set k) pid;
    b ← bitset_set (pid_set k) pid;
    Ret (set_pids k b (next_pid k + 1), pid).

(** ** Waiting *)

Definition EINTR : Z := 4.

Definition wait_candidate (parent : task_t) (pid : Z) (proc : task_t) : bool :=
  if pid <? -1 then (group proc =? - pid) || (id proc =? - pid)
  else if pid =? 0 then group proc =? id parent
  else if 0 <? pid then id proc =? pid
  else true.

(** The loop over the children: whether one matches, and the first that matches and has finished. *)
Fixpoint scan (k : kernel) (proc : task_t) (pid : Z) (cs : list ptr) (has_children : bool) : outcome (bool * option task_t) :=
  match cs with
  | [] => Ret (has_children, None)
  | c :: cs' =>
      if c =? NULL then scan k proc pid cs' has_children
      else
        n ← Tree.get_node (process_tree k) c;
        child ← get_task k (Tree.value n);
        if wait_candidate proc pid child
        then if finished child then Ret (true, Some child) else scan k proc pid cs' true
        else scan k proc pid cs' has_children
  end.

(** A call returns a value and what it stored through [status], or is still asleep. *)
Inductive waited : Type :=
  | Returned (v : Z) (st : option Z) (k : kernel)
  | Asleep (k : kernel).

Section Waiting.

(** Whether the caller is on a wait queue already, so that [sleep_on] only switches. *)
Context (owner : kernel -> bool).

(** [sleeps] is what happens during the successive sleeps and whether they were interrupted.
    A task of a group looks its leader up by an address instead of a number. *)
Fixpoint waitpid (k : kernel) (current pid options : Z) (sleeps : list (kernel -> kernel * bool)) : outcome waited :=
  proc ← get_task k current;
  if truthy (group proc) then Fault
  else
    n ← Tree.get_node (process_tree k) (tree_entry proc);
    '(has_children, candidate) ← scan k proc pid (Tree.children n) false;
    if negb has_children then Ret (Returned 0 None k)
    else
      match candidate with
      | Some c => Ret (Returned (id c) (Some (status c)) k)
      | None =>
          if truthy (Z.land options 1) then Ret (Returned 0 None k)
          else
            let marked := owner k in
            let k := put_task k current (set_queue proc (WaitQueue.sleep_on marked (wait_queue proc) current)) in
            match sleeps with
            | [] => Ret (Asleep k)
            | f :: sleeps' =>
                let '(k, interrupted) := f k in
                if negb marked && interrupted then Ret (Returned (- EINTR) None k) else waitpid k current pid options sleeps'
            end
      end.

End Waiting.

(** ** Removing a process *)

(** [wakeup_queue] on the queue of [p], whose nodes carry no task. *)
Definition wakeup (k : kernel) (p : ptr) : outcome kernel :=
  t ← get_task k p;
  '(q, w, _) ← WaitQueue.wakeup_queue WaitQueue.unset (wait_queue t) (woken k);
  Ret (Kernel (<[p := set_queue t q]> (tasks k)) (process_tree k) (process_list k) (pid_set k) (next_pid k) w).

Definition delete_process (k : kernel) (proc : ptr) : outcome kernel :=
  t ← get_task k proc;
  let entry := tree_entry t in
  if entry =? NULL then Ret k
  else if Tree.root (Tree.tree (process_tree k)) =? entry then Ret k
  else
    n ← Tree.get_node (process_tree k) entry;
    let has_children := Z.of_nat (length (Tree.children n)) in
    tr ← Tree.tree_remove_reparent_root (process_tree k) entry;
    i ← of_option (Seq.index (process_list k) proc);
    let k := Kernel (tasks k) tr (Seq.delete i (process_list k)) (pid_set k) (next_pid k) (woken k) in
    k ← (if truthy has_children
         then init ← Tree.get_node tr (Tree.root (Tree.tree tr)); wakeup k (Tree.value init)
         else Ret k);
    b ← bitset_clear (pid_set k) (id t);
    Ret (Kernel (delete proc (tasks k)) (process_tree k) (process_list k) b (next_pid k) (woken k)).

(** [reap_process] frees the name first. *)
Definition reap_process := delete_process.

Definition process_get_parent (k : kernel) (process : ptr) : outcome ptr :=
  t ← get_task k process;
  n ← Tree.get_node (process_tree k) (tree_entry t);
  if Tree.parent n =? NULL then Ret NULL
  else p ← Tree.get_node (process_tree k) (Tree.parent n); Ret (Tree.value p).

(** ** Numbers are unique *)

(** The numbers from [next_pid] on have never been given out. *)
Record pids_ok (k : kernel) : Prop := {
  pids_wf : wf (pid_set k);
  pids_size : size (pid_set k) = 4096;
  pids_next : 2 <= next_pid k <= 32769;
  pids_unused j : next_pid k <= j -> member (pid_set k) j = false
}.

Lemma bitset_set_size set bit set' : bitset_set set bit = Ret set' -> bit / 8 < size set -> size set' = size set.
Proof.
  intros Hs Hb. unfold bitset_set in Hs. rewrite iom_index_div in Hs. destruct (Z.leb_spec (size set) (bit / 8)); [lia|].
  outcome_inv Hs. by injection Hs as <-.
Qed.

Lemma member_beyond set j : wf set -> size set * 8 <= j -> member set j = false.
Proof.
  intros [Hl _] Hj. unfold member. rewrite lookup_ge_None_2; [by rewrite Z.testbit_0_l|].
  assert (size set <= j / 8) by (apply Z.div_le_lower_bound; lia). lia.
Qed.

(** Marking a free number keeps [pids_ok] for any later [next_pid]. *)
Lemma mark_ok k pid n :
  pids_ok k -> 0 <= pid < 32768 -> (pid < n \/ 32768 <= n) -> next_pid k <= n <= 32769 ->
  exists b, bitset_set (pid_set k) pid = Ret b /\ pids_ok (set_pids k b n) /\
    forall j, 0 <= j -> member b j = (j =? pid) || member (pid_set k) j.
Proof.
  intros [Hw Hs Hn Hu] Hpid Hpn Hnn. assert (pid / 8 < 4096) by (apply Z.div_lt_upper_bound; lia).
  destruct (bitset_set_correct (pid_set k) pid Hw) as (b & Hb & Hwb & Hm); [lia|lia|].
  exists b. split; [done|]. split; [|done].
  assert (size b = 4096) as Hsb by (rewrite (bitset_set_size _ _ _ Hb); lia).
  constructor; cbn; [done|done|lia|]. intros j Hj. rewrite Hm by lia. destruct (Z.eqb_spec j pid); [lia|].
  apply Hu. lia.
Qed.

(** [get_next_pid] gives out a number that is not in use and marks it, the next
    one in order up to 32767 and then the least free one.  The number 32768 is
    tested in a set that ends before it, and when all numbers are in use the index
    -1 is marked: both are faults. *)
Theorem get_next_pid_fresh k :
  pids_ok k ->
  (exists k' pid, get_next_pid k = Ret (k', pid) /\ pids_ok k' /\ member (pid_set k) pid = false /\ 0 <= pid < 32768 /\
     (next_pid k < 32768 -> pid = next_pid k) /\
     (32768 < next_pid k -> forall j, 0 <= j < pid -> member (pid_set k) j = true) /\
     forall j, 0 <= j -> member (pid_set k') j = (j =? pid) || member (pid_set k) j) \/
  ((next_pid k = 32768 \/ 32768 < next_pid k /\ forall j, 0 <= j < 32768 -> member (pid_set k) j = true) /\
   get_next_pid k = Fault).
Proof.
  intros Hp. pose proof Hp as [Hw Hs Hn Hu]. unfold get_next_pid, MAX_PID.
  destruct (Z.ltb_spec 32768 (next_pid k)) as [Hgt|Hle].
  - destruct (bitset_ffub_correct (pid_set k) Hw) as [[-> Hall]|(i & -> & Hi & Hfree & Hleast)]; cbn [mbind outcome_bind].
    + right. split; [right; split; [done|intros j Hj; apply Hall; lia]|]. unfold bitset_set. rewrite iom_index_div.
      change (-1 / 8) with (-1). rewrite Hs. reflexivity.
    + left. destruct (mark_ok k i (next_pid k) Hp) as (b & -> & Hp' & Hm); [lia|lia|lia|]. cbn [mbind outcome_bind].
      eexists _, i. split; [done|]. split_and!; try done; lia.
  - destruct (Z.eq_dec (next_pid k) 32768) as [E|E].
    { right. split; [by left|]. unfold bitset_test. rewrite iom_index_div, E. change (32768 / 8) with 4096.
      rewrite aget_out_of_range; [done|]. destruct Hw as [Hl _]. lia. }
    left. assert (next_pid k / 8 < 4096) by (apply Z.div_lt_upper_bound; lia).
    rewrite bitset_test_correct by (done || lia). cbn [mbind outcome_bind].
    destruct (mark_ok k (next_pid k) (next_pid k + 1) Hp) as (b & -> & Hp' & Hm); [lia|lia|lia|]. cbn [mbind outcome_bind].
    eexists _, (next_pid k). split; [done|]. split_and!; try done; [apply Hu; lia|lia|lia|lia].
Qed.

(** The set that [initialize_process_tree] makes. *)
Lemma initialize_pids k : next_pid k = 2 -> exists k', initialize_process_tree k = Ret k' /\ pids_ok k' /\
  forall j, 0 <= j -> member (pid_set k') j = (j =? 0) || (j =? 1).
Proof.
  intros Hn. unfold initialize_process_tree. change (MAX_PID / 8) with 4096.
  set (b0 := bitset_init 4096).
  assert (wf b0) as Hw0 by (split; [done|]; apply Forall_replicate; lia).
  assert (forall j, 0 <= j -> member b0 j = false) as Hm0.
  { intros j Hj. unfold member, b0, bitset_init. change (CEIL 4096 8) with 4096. cbn [data].
    destruct (replicate (Z.to_nat 4096) 0 !! Z.to_nat (j / 8)) eqn:E; [|apply Z.testbit_0_l].
    apply lookup_replicate in E as [-> _]. apply Z.testbit_0_l. }
  assert (size b0 = 4096) as Hs0 by reflexivity.
  destruct (bitset_set_correct b0 0 Hw0) as (b1 & E1 & Hw1 & Hm1); [lia|rewrite Hs0; reflexivity|]. rewrite E1. cbn [mbind outcome_bind].
  assert (size b1 = 4096) as Hs1 by (rewrite (bitset_set_size _ _ _ E1), Hs0; [reflexivity|rewrite Hs0; reflexivity]).
  destruct (bitset_set_correct b1 1 Hw1) as (b2 & E2 & Hw2 & Hm2); [lia|rewrite Hs1; reflexivity|]. rewrite E2. cbn [mbind outcome_bind].
  assert (size b2 = 4096) as Hs2 by (rewrite (bitset_set_size _ _ _ E2), Hs1; [reflexivity|rewrite Hs1; reflexivity]).
  assert (forall j, 0 <= j -> member b2 j = (j =? 0) || (j =? 1)) as Hm.
  { intros j Hj. rewrite Hm2, Hm1, Hm0 by done. by destruct (j =? 0), (j =? 1). }
  eexists. split; [reflexivity|]. split; [|exact Hm].
  constructor; cbn [pid_set next_pid]; [exact Hw2|exact Hs2|lia|]. intros j Hj. rewrite Hm by lia.
  destruct (Z.eqb_spec j 0), (Z.eqb_spec j 1); lia || done.
Qed.

(** ** Waiting returns a finished child *)

(** The tasks of the children of a process, in the order of the tree. *)
Fixpoint tasks_of (k : kernel) (cs : list ptr) : outcome (list task_t) :=
  match cs with
  | [] => Ret []
  | c :: cs' =>
      if c =? NULL then tasks_of k cs'
      else
        n ← Tree.get_node (process_tree k) c;
        t ← get_task k (Tree.value n);
        ts ← tasks_of k cs';
        Ret (t :: ts)
  end.

Lemma scan_ok k proc pid cs ts has :
  tasks_of k cs = Ret ts ->
  scan k proc pid cs has =
  Ret (has || existsb (wait_candidate proc pid) ts, List.find (fun t => wait_candidate proc pid t && finished t) ts).
Proof.
  revert ts has. induction cs as [|c cs IH]; intros ts has; cbn [tasks_of scan].
  { intros [= <-]. cbn. by rewrite orb_false_r. }
  destruct (c =? NULL); [by apply IH|]. destruct (Tree.get_node (process_tree k) c) as [n| |]; try done. cbn [mbind outcome_bind].
  destruct (get_task k (Tree.value n)) as [t| |]; try done. cbn [mbind outcome_bind].
  destruct (tasks_of k cs) as [ts'| |]; try done. cbn [mbind outcome_bind]. intros [= <-]. cbn [existsb List.find].
  destruct (wait_candidate proc pid t); cbn [andb orb]; [|by rewrite (IH ts')].
  destruct (finished t); [by rewrite orb_true_r|]. rewrite (IH ts') by done. by rewrite orb_true_r.
Qed.

(** The children that a state's process [current] has. *)
Definition children_of (k : kernel) (current : ptr) : outcome (task_t * list task_t) :=
  proc ← get_task k current;
  n ← Tree.get_node (process_tree k) (tree_entry proc);
  ts ← tasks_of k (Tree.children n);
  Ret (proc, ts).

(** What [waitpid] returned, in the state it returned in. *)
Definition answer (k : kernel) (current pid options v : Z) (st : option Z) : Prop :=
  exists proc ts, children_of k current = Ret (proc, ts) /\
    ((exists t, List.find (fun t => wait_candidate proc pid t && finished t) ts = Some t /\ v = id t /\ st = Some (status t)) \/
     (v = 0 /\ st = None /\ Forall (fun t => wait_candidate proc pid t = false) ts) \/
     (v = 0 /\ st = None /\ truthy (Z.land options 1) = true /\
      Forall (fun t => wait_candidate proc pid t = true -> finished t = false) ts)).

Lemma find_none_forall {A} (f : A -> bool) l : List.find f l = None -> Forall (fun x => f x = false) l.
Proof. intros Hf. apply Forall_forall. intros x Hx. apply (find_none f l Hf), list_elem_of_In, Hx. Qed.

Section Rounds.
Context (owner : kernel -> bool).
Notation waitpid := (waitpid owner).

(** A round of the loop: an answer, or a sleep. *)
Lemma waitpid_round k current pid options sleeps proc ts :
  children_of k current = Ret (proc, ts) -> group proc = 0 ->
  (exists v st, waitpid k current pid options sleeps = Ret (Returned v st k) /\ answer k current pid options v st) \/
  (List.find (fun t => wait_candidate proc pid t && finished t) ts = None /\
   let k1 := put_task k current (set_queue proc (WaitQueue.sleep_on (owner k) (wait_queue proc) current)) in
   waitpid k current pid options sleeps =
     match sleeps with
     | [] => Ret (Asleep k1)
     | f :: sleeps' => let '(k2, interrupted) := f k1 in
         if negb (owner k) && interrupted then Ret (Returned (- EINTR) None k2) else waitpid k2 current pid options sleeps'
     end).
Proof.
  intros Hc Hg. pose proof Hc as Hc'. unfold children_of in Hc'. destruct (get_task k current) as [p'| |] eqn:Ep; try done. cbn [mbind outcome_bind] in Hc'.
  destruct (Tree.get_node (process_tree k) (tree_entry p')) as [n| |] eqn:En; try done. cbn [mbind outcome_bind] in Hc'.
  destruct (tasks_of k (Tree.children n)) as [ts'| |] eqn:Et; try done. injection Hc' as -> ->.
  assert (scan k proc pid (Tree.children n) false = Ret (existsb (wait_candidate proc pid) ts,
    List.find (fun t => wait_candidate proc pid t && finished t) ts)) as Hs by by rewrite (scan_ok k proc pid _ ts false Et).
  set (k1 := put_task _ _ _).
  assert (waitpid k current pid options sleeps =
    if negb (existsb (wait_candidate proc pid) ts) then Ret (Returned 0 None k)
    else match List.find (fun t => wait_candidate proc pid t && finished t) ts with
      | Some c => Ret (Returned (id c) (Some (status c)) k)
      | None => if truthy (Z.land options 1) then Ret (Returned 0 None k)
          else match sleeps with
            | [] => Ret (Asleep k1)
            | f :: sleeps' => let '(k2, interrupted) := f k1 in
                if negb (owner k) && interrupted then Ret (Returned (- EINTR) None k2) else waitpid k2 current pid options sleeps'
            end
      end) as ->.
  { destruct sleeps; cbn [Process.waitpid]; rewrite Ep; cbn [mbind outcome_bind]; rewrite Hg; change (truthy 0) with false; cbv iota;
      rewrite En; cbn [mbind outcome_bind]; rewrite Hs; reflexivity. }
  destruct (existsb (wait_candidate proc pid) ts) eqn:Eex; cbn [negb].
  2: { left. exists 0, None. split; [done|]. exists proc, ts. split; [exact Hc|]. right. left. split; [done|]. split; [done|].
       apply Forall_forall. intros t Ht. destruct (wait_candidate proc pid t) eqn:E; [|done].
       rewrite <- not_true_iff_false, existsb_exists in Eex. exfalso. apply Eex. exists t. split; [by apply list_elem_of_In|done]. }
  destruct (List.find _ ts) as [t|] eqn:Ef.
  { left. exists (id t), (Some (status t)). split; [done|]. exists proc, ts. split; [exact Hc|]. left. by exists t. }
  destruct (truthy (Z.land options 1)) eqn:Eo; [|by right].
  left. exists 0, None. split; [done|]. exists proc, ts. split; [exact Hc|]. right. right. split_and!; try done.
  apply find_none_forall in Ef. eapply Forall_impl; [exact Ef|]. intros t E Hw. cbn in E. by rewrite Hw in E.
Qed.

End Rounds.

(** Tasks that differ in their wait queues only. *)
Definition same_task (t t' : task_t) : Prop := exists q, t' = set_queue t q.

Lemma get_task_queue k p t q x t1 :
  tasks k !! p = Some t -> get_task k x = Ret t1 ->
  exists t2, get_task (put_task k p (set_queue t q)) x = Ret t2 /\ same_task t1 t2.
Proof.
  intros Hp. unfold get_task. destruct (x =? NULL); [done|]. cbn [put_task tasks]. destruct (decide (x = p)) as [->|Hxp].
  - rewrite Hp, lookup_insert_eq. intros [= <-]. eexists. split; [done|]. by exists q.
  - rewrite lookup_insert_ne by done. intros E. exists t1. split; [done|]. exists (wait_queue t1). by destruct t1.
Qed.

Lemma tasks_of_queue k p t q cs ts :
  tasks k !! p = Some t -> tasks_of k cs = Ret ts ->
  exists ts', tasks_of (put_task k p (set_queue t q)) cs = Ret ts' /\ Forall2 same_task ts ts'.
Proof.
  intros Hp. revert ts. induction cs as [|c cs IH]; intros ts; cbn [tasks_of].
  { intros [= <-]. exists []. split; [done|constructor]. }
  destruct (c =? NULL); [apply IH|]. change (process_tree (put_task k p (set_queue t q))) with (process_tree k).
  destruct (Tree.get_node (process_tree k) c) as [n| |]; try done. cbn [mbind outcome_bind].
  destruct (get_task k (Tree.value n)) as [t1| |] eqn:Eg; try done. cbn [mbind outcome_bind].
  destruct (get_task_queue k p t q _ _ Hp Eg) as (t2 & -> & Hs). cbn [mbind outcome_bind].
  destruct (tasks_of k cs) as [ts1| |]; try done. destruct (IH ts1 eq_refl) as (ts' & -> & Hf). intros [= <-].
  exists (t2 :: ts'). split; [done|by constructor].
Qed.

(** The caller is not a member of a group and its children can be looked up. *)
Definition good (current : ptr) (k : kernel) : Prop := exists proc ts, children_of k current = Ret (proc, ts) /\ group proc = 0.

(** No child that matches has finished. *)
Definition none_finished (current pid : Z) (k : kernel) : Prop :=
  exists proc ts, children_of k current = Ret (proc, ts) /\
    Forall (fun t => wait_candidate proc pid t && finished t = false) ts.

Lemma sleeping_state k current pid proc ts q :
  children_of k current = Ret (proc, ts) -> group proc = 0 ->
  List.find (fun t => wait_candidate proc pid t && finished t) ts = None ->
  let k1 := put_task k current (set_queue proc q) in good current k1 /\ none_finished current pid k1.
Proof.
  intros Hc Hg Hf k1. unfold children_of in Hc. destruct (get_task k current) as [p'| |] eqn:Ep; try done. cbn [mbind outcome_bind] in Hc.
  destruct (Tree.get_node (process_tree k) (tree_entry p')) as [n| |] eqn:En; try done. cbn [mbind outcome_bind] in Hc.
  destruct (tasks_of k (Tree.children n)) as [ts0| |] eqn:Et; try done. injection Hc as -> ->.
  assert (tasks k !! current = Some proc) as Hcur.
  { unfold get_task in Ep. destruct (current =? NULL); [done|]. destruct (tasks k !! current); [|done]. by injection Ep as ->. }
  destruct (tasks_of_queue k current proc q _ _ Hcur Et) as (ts' & Et' & Hs).
  assert (children_of k1 current = Ret (set_queue proc q, ts')) as Hc1.
  { unfold children_of. unfold get_task in Ep |- *. destruct (current =? NULL); [done|].
    change (tasks k1) with (<[current := set_queue proc q]> (tasks k)) at 1. rewrite lookup_insert_eq. cbn [of_option mbind outcome_bind set_queue tree_entry].
    change (process_tree k1) with (process_tree k). rewrite En. cbn [mbind outcome_bind]. unfold k1. by rewrite Et'. }
  split; [by exists (set_queue proc q), ts'|]. exists (set_queue proc q), ts'. split; [done|].
  apply find_none_forall in Hf. clear -Hs Hf. induction Hs as [|t t' l l' [q' ->] Hs IH]; [constructor|].
  apply Forall_cons in Hf as [Ht Hf]. constructor; [exact Ht|by apply IH].
Qed.

(** Whatever happens while it sleeps, [waitpid] answers from the state it wakes up
    in: the number and status of the first child in the tree that matches and has
    finished; 0 when no child matches, or when it was asked not to wait and none
    has finished; -EINTR when a sleep was interrupted.  It is asleep only while no
    child that matches has finished. *)
Theorem waitpid_answers owner k current pid options sleeps :
  good current k -> Forall (fun f => forall k, good current k -> good current (f k).1) sleeps ->
  (exists v st k', waitpid owner k current pid options sleeps = Ret (Returned v st k') /\
     (answer k' current pid options v st \/ v = - EINTR /\ st = None)) \/
  (exists k', waitpid owner k current pid options sleeps = Ret (Asleep k') /\ none_finished current pid k').
Proof.
  intros Hgood Hs. revert k Hgood. induction Hs as [|f sleeps Hf Hs IH]; intros k (proc & ts & Hc & Hg).
  - destruct (waitpid_round owner k current pid options [] proc ts Hc Hg) as [(v & st & E & Ha)|(Hn & E)].
    + left. exists v, st, k. auto.
    + right. eexists. split; [exact E|]. by apply (sleeping_state k current pid proc ts).
  - destruct (waitpid_round owner k current pid options (f :: sleeps) proc ts Hc Hg) as [(v & st & E & Ha)|(Hn & E)].
    { left. exists v, st, k. auto. }
    rewrite E. destruct (sleeping_state k current pid proc ts (WaitQueue.sleep_on (owner k) (wait_queue proc) current) Hc Hg Hn) as [Hgood1 _].
    apply Hf in Hgood1. destruct (f _) as [k2 interrupted]. destruct (_ && _); [|by apply IH]. left. eexists _, _, _. split; [done|]. right. done.
Qed.

(** ** Removing a process *)

Definition val (r : Tree.rose) : ptr := let '(Tree.Rose _ v _) := r in v.

Lemma val_alter p f r : val (Tree.alter p f r) = val r.
Proof. destruct r as [q v cs]. cbn [Tree.alter]. by destruct (q =? p). Qed.

Lemma root_node s r : Tree.inv s r -> exists cs, Tree.get_node s (Tree.root (Tree.tree s)) = Ret (Tree.Node (val r) cs NULL).
Proof.
  intros [Hroot Hr _ _ _ _]. rewrite Hroot. destruct r as [p v cs]. eexists. exact (Tree.get_node_rep _ _ _ _ _ Hr).
Qed.

Lemma wakeup_ok k p t :
  p <> NULL -> tasks k !! p = Some t -> wait_queue t = [] -> wakeup k p = Ret k.
Proof.
  intros Hp Ht Hw. unfold wakeup, get_task. rewrite (proj2 (Z.eqb_neq _ _) Hp), Ht. cbn [of_option mbind outcome_bind]. rewrite Hw. cbn.
  assert (set_queue t [] = t) as -> by (destruct t; cbn in *; by subst). rewrite insert_id by done. by destruct k.
Qed.

(** Removing a process takes it out of the tree, the list and the table of tasks
    and gives its number back; its children become the last children of the first
    process, on which nobody waits.  Nothing else changes. *)
Theorem delete_process_removes k proc t r q w ds1 v cs ds2 l1 l2 ti :
  proc <> NULL -> tasks k !! proc = Some t -> Tree.inv (process_tree k) r ->
  Tree.subtree r (Tree.Rose q w (ds1 ++ Tree.Rose (tree_entry t) v cs :: ds2)) ->
  process_list k = l1 ++ proc :: l2 -> (proc ∉ l1) ->
  wf (pid_set k) -> 0 <= id t -> id t / 8 < size (pid_set k) ->
  val r <> NULL -> val r <> proc -> tasks k !! val r = Some ti -> wait_queue ti = [] ->
  exists k', delete_process k proc = Ret k' /\
    Tree.inv (process_tree k') (Tree.alter (Tree.addr r) (fun ds => ds ++ cs) (Tree.alter q (fun _ => ds1 ++ ds2) r)) /\
    process_list k' = l1 ++ l2 /\
    (forall j, 0 <= j -> member (pid_set k') j = negb (j =? id t) && member (pid_set k) j) /\
    tasks k' = delete proc (tasks k) /\ woken k' = woken k.
Proof.
  intros Hpn Ht Hi Hsub Hl Hl1 Hw Hid Hid8 Hvn Hvp Hti Hnw.
  destruct (Tree.inv_node _ _ _ _ _ _ _ _ _ Hi Hsub) as (Hg & _ & Hroot).
  unfold delete_process. unfold get_task at 1. rewrite (proj2 (Z.eqb_neq _ _) Hpn), Ht. cbn [of_option mbind outcome_bind].
  assert (tree_entry t <> NULL) as Hen by (intros E; rewrite E in Hg; done).
  rewrite (proj2 (Z.eqb_neq _ _) Hen), (Tree.inv_root _ _ Hi), (proj2 (Z.eqb_neq _ _)) by congruence.
  rewrite Hg. cbn [mbind outcome_bind Tree.children].
  destruct (Tree.tree_remove_reparent_root_ok _ r q w ds1 _ v cs ds2 Hi Hsub) as (tr & -> & Hi' & _). cbn [mbind outcome_bind].
  rewrite Hl, Tree.index_middle by done. cbn [of_option mbind outcome_bind]. rewrite Tree.delete_middle.
  destruct (root_node tr _ Hi') as [cs' Hrn]. rewrite !val_alter in Hrn.
  destruct (bitset_clear_correct (pid_set k) (id t) Hw Hid Hid8) as (b & Hb & _ & Hm).
  rewrite length_map. destruct (decide (cs = [])) as [->|Hcs].
  - change (truthy (Z.of_nat (length []))) with false. cbn [mbind outcome_bind pid_set]. rewrite Hb. cbn [mbind outcome_bind].
    eexists. split; [done|]. split_and!; done.
  - assert (truthy (Z.of_nat (length cs)) = true) as -> by (destruct cs; [done|reflexivity]).
    rewrite Hrn. cbn [mbind outcome_bind Tree.value].
    rewrite (wakeup_ok _ (val r) ti Hvn) by done. cbn [mbind outcome_bind pid_set]. rewrite Hb. cbn [mbind outcome_bind].
    eexists. split; [done|]. split_and!; try done.
Qed.

(** ** Witnesses: the first process, a shell and its child *)

Definition demo_tree : Tree.state :=
  Tree.State (Tree.Build_tree 3 1)
    {[1 := Tree.Node 100 [2] NULL; 2 := Tree.Node 200 [3] 1; 3 := Tree.Node 300 [] 2]} [].
Definition demo_rose : Tree.rose := Tree.Rose 1 100 [Tree.Rose 2 200 [Tree.Rose 3 300 []]].

Definition init_task : task_t := Task 1 0 false 0 1 [].
Definition shell : task_t := Task 2 0 true 7 2 [].
Definition child : task_t := Task 3 0 false 0 3 [].

Definition demo : kernel :=
  Kernel {[100 := init_task; 200 := shell; 300 := child]} demo_tree [100; 200; 300] (Build_bitset [15; 0] 2) 4 [].

Lemma demo_tree_inv : Tree.inv demo_tree demo_rose.
Proof.
  constructor; [done|repeat split; by vm_compute|by_decide|done|by vm_compute|].
  intros x Hx. apply elem_of_dom in Hx. revert Hx. cbn [demo_tree Tree.cells].
  rewrite !dom_insert_L, dom_singleton_L, !elem_of_union, !elem_of_singleton. cbn. rewrite !elem_of_cons. intuition.
Qed.

Lemma get_next_pid_fresh_witness :
  exists k, initialize_process_tree (Kernel ∅ demo_tree [] (Build_bitset [] 0) 2 []) = Ret k /\
  ((exists k' pid, get_next_pid k = Ret (k', pid) /\ pids_ok k' /\ member (pid_set k) pid = false /\ 0 <= pid < 32768 /\
     (next_pid k < 32768 -> pid = next_pid k) /\
     (32768 < next_pid k -> forall j, 0 <= j < pid -> member (pid_set k) j = true) /\
     forall j, 0 <= j -> member (pid_set k') j = (j =? pid) || member (pid_set k) j) \/
   ((next_pid k = 32768 \/ 32768 < next_pid k /\ forall j, 0 <= j < 32768 -> member (pid_set k) j = true) /\
    get_next_pid k = Fault)).
Proof.
  destruct (initialize_pids (Kernel ∅ demo_tree [] (Build_bitset [] 0) 2 []) eq_refl) as (k & E & Hp & _).
  exists k. split; [exact E|]. exact (get_next_pid_fresh k Hp).
Defined.

Lemma demo_good : good 100 demo.
Proof. exists init_task, [shell]. split; reflexivity. Qed.

Lemma waitpid_answers_witness :
  waitpid (fun _ => false) demo 100 (-1) 0 [] = Ret (Returned 2 (Some 7) demo) /\
  ((exists v st k', waitpid (fun _ => false) demo 100 (-1) 0 [] = Ret (Returned v st k') /\
     (answer k' 100 (-1) 0 v st \/ v = - EINTR /\ st = None)) \/
   (exists k', waitpid (fun _ => false) demo 100 (-1) 0 [] = Ret (Asleep k') /\ none_finished 100 (-1) k')).
Proof. split; [reflexivity|]. apply (waitpid_answers (fun _ => false) demo 100 (-1) 0 [] demo_good). constructor. Defined.

Lemma delete_process_removes_witness :
  exists k', delete_process demo 200 = Ret k' /\ Tree.inv (process_tree k') (Tree.Rose 1 100 [Tree.Rose 3 300 []]) /\
    process_list k' = [100; 300] /\
    (forall j, 0 <= j -> member (pid_set k') j = negb (j =? 2) && member (Build_bitset [15; 0] 2) j) /\
    tasks k' = delete 200 (tasks demo) /\ woken k' = [].
Proof.
  apply (delete_process_removes demo 200 shell demo_rose 1 100 [] 200 [Tree.Rose 3 300 []] [] [100] [300] init_task);
    try done; try exact demo_tree_inv.
  - constructor.
  - by_decide.
  - split; [done|]. repeat constructor; lia.
Defined.

End Process.
