(* ===== verification/TaskRing.v ===== *)
(** * The ring of tasks ([kernel/src/task/list.c], [kernel/src/task/sched.c])

    A ring of elements linked in a circle; [current] is the element of the task that
    runs.  Elements are cells of a store; [valloc] does not clear memory, so a new cell
    holds whatever the allocator's instance says.  The field [begin] is set when the
    first task comes, to an element of its own that is never part of the circle: it only
    says that there are tasks. *)

From stdpp Require Import base gmap numbers list.
From S2P Require Import Prelude.

Module TaskRing.

Record element_t := Element { data : ptr; link : ptr }.
Record ring_t := Ring { begin : ptr; current : ptr }.

(** [valloc] for elements: a fresh cell and what it holds. *)
Class ElementAlloc := {
  fresh : gmap ptr element_t -> ptr;
  stale : gmap ptr element_t -> element_t;
  fresh_new m : m !! fresh m = None;
  fresh_null m : fresh m <> NULL
}.

Record ring_state := RingState { ring : ring_t; cells : gmap ptr element_t }.

Definition cell (m : gmap ptr element_t) (p : ptr) : outcome element_t := if p =? NULL then Fault else of_option (m !! p).

Section RingOps.
Context `{ElementAlloc}.

(** ** The ring *)

Definition valloc (m : gmap ptr element_t) : gmap ptr element_t * ptr := (<[fresh m := stale m]> m, fresh m).

(** The header is not cleared either: [junk] is what it held. *)
Definition ring_list_create (junk : ring_t) : ring_t := junk.

Definition ring_list_insert (s : ring_state) (d : ptr) : outcome ring_state :=
  if begin (ring s) =? NULL then
    let '(m, b) := valloc (cells s) in
    let '(m, c) := valloc m in
    Ret (RingState (Ring b c) (<[c := Element d c]> m))
  else
    let '(m, item) := valloc (cells s) in
    c ← cell m (current (ring s));
    let m := <[item := Element d (link c)]> m in
    Ret (RingState (ring s) (<[current (ring s) := Element (data c) item]> m)).

(** The loop of [ring_list_delete_first]; [p] is the variable [current]. *)
Fixpoint delete_loop (fuel : nat) (s : ring_state) (p d : ptr) : outcome (ring_state * bool) :=
  match fuel with
  | O => OutOfFuel
  | S fuel =>
      e ← cell (cells s) p;
      temp ← cell (cells s) (link e);
      if data temp =? d then
        begin ← (if link e =? begin (ring s) then b ← cell (cells s) (begin (ring s)); Ret (link b) else Ret (begin (ring s)));
        current ← (if link e =? current (ring s) then c ← cell (cells s) (current (ring s)); Ret (link c) else Ret (current (ring s)));
        Ret (RingState (Ring begin current) (<[p := Element (data e) (link temp)]> (cells s)), true)
      else if link e =? current (ring s) then Ret (s, false)
      else delete_loop fuel s (link e) d
  end.

Definition ring_list_delete_first (s : ring_state) (d : ptr) : outcome (ring_state * bool) :=
  if begin (ring s) =? NULL then Ret (s, false)
  else delete_loop (S (size (cells s))) s (current (ring s)) d.

Definition insert_current_task := ring_list_insert.
Definition delete_current_task (s : ring_state) (d : ptr) : outcome ring_state := fst <$> ring_list_delete_first s d.

Definition get_current_task (s : ring_state) : outcome (ring_state * ptr) :=
  c ← cell (cells s) (current (ring s));
  n ← cell (cells s) (link c);
  Ret (RingState (Ring (begin (ring s)) (link c)) (cells s), data n).

Definition scheduler_shouldSwitchTask (s : ring_state) : outcome bool :=
  b ← cell (cells s) (begin (ring s));
  Ret (negb (begin (ring s) =? link b)).

End RingOps.

(** ** The ring as a list of tasks

    [seg m p l e]: following the links from [p] leads through the elements of [l]
    (address and task) to [e]. *)
Fixpoint seg (m : gmap ptr element_t) (p : ptr) (l : list (ptr * ptr)) (e : ptr) : Prop :=
  match l with
  | [] => p = e
  | (a, d) :: l' => a = p /\ exists n, m !! a = Some (Element d n) /\ seg m n l' e
  end.

(** The elements of the ring, the current one first. *)
Record ring_of (s : ring_state) (l : list (ptr * ptr)) : Prop := {
  ro_seg : seg (cells s) (current (ring s)) l (current (ring s));
  ro_nonempty : l <> [];
  ro_nodup : NoDup l.*1;
  ro_null : (NULL ∉ l.*1);
  ro_begin : begin (ring s) <> NULL /\ (begin (ring s) ∉ l.*1) /\ is_Some (cells s !! begin (ring s))
}.

(** What a sequence of operations sees: no tasks yet, or the tasks of the ring, the
    current one first. *)
Definition rep (s : ring_state) (ts : list ptr) : Prop :=
  match ts with
  | [] => begin (ring s) = NULL
  | _ => exists l, ring_of s l /\ l.*2 = ts
  end.

Lemma ring_seg_app m p l1 l2 e : seg m p (l1 ++ l2) e <-> exists q, seg m p l1 q /\ seg m q l2 e.
Proof.
  revert p. induction l1 as [|[a d] l1 IH]; intros p; cbn [app seg]; [naive_solver|].
  setoid_rewrite IH. naive_solver.
Qed.

(** Changing cells outside the segment. *)
Lemma ring_seg_frame m m' p l e : (forall a, a ∈ l.*1 -> m' !! a = m !! a) -> seg m p l e -> seg m' p l e.
Proof.
  revert p. induction l as [|[a d] l IH]; intros p Heq; [done|]. intros (-> & n & Hn & Hs). split; [done|].
  exists n. rewrite Heq by (by apply list_elem_of_here). split; [done|]. apply IH; [|done]. intros b Hb. apply Heq. by apply list_elem_of_further.
Qed.

(** Redirecting the last link. *)
Lemma seg_redirect m p l a d e e' :
  seg m p (l ++ [(a, d)]) e -> (a ∉ l.*1) -> seg (<[a := Element d e']> m) p (l ++ [(a, d)]) e'.
Proof.
  intros (q & H1 & -> & n & Hn & <-)%ring_seg_app Ha. apply ring_seg_app. exists q. split.
  - apply (ring_seg_frame m); [|done]. intros b Hb. apply lookup_insert_ne. intros ->. done.
  - split; [done|]. exists e'. by rewrite lookup_insert_eq.
Qed.

Lemma ring_seg_cell m p l e a d : seg m p l e -> (a, d) ∈ l -> exists n, m !! a = Some (Element d n).
Proof.
  revert p. induction l as [|[b c] l IH]; intros p; [by intros _ ?%elem_of_nil|].
  intros (-> & n & Hn & Hs) [[= -> ->]|Hin]%elem_of_cons; eauto.
Qed.

Lemma ring_seg_size m p l e : NoDup l.*1 -> seg m p l e -> (length l <= size m)%nat.
Proof.
  intros Hn Hs. rewrite <- (length_fmap fst l), <- (size_dom (D := gset ptr)), <- (size_list_to_set (C := gset ptr) _ Hn).
  apply subseteq_size. intros a Ha%elem_of_list_to_set. apply list_elem_of_fmap in Ha as ([b d] & -> & Hb).
  apply elem_of_dom. destruct (ring_seg_cell _ _ _ _ _ _ Hs Hb) as [n Hn']. eauto.
Qed.

Lemma cell_ok m p e : p <> NULL -> m !! p = Some e -> cell m p = Ret e.
Proof. intros Hp He. unfold cell. by rewrite (proj2 (Z.eqb_neq _ _) Hp), He. Qed.

(** Going one element further turns the ring. *)
Lemma ring_turn s c d l n :
  ring_of s ((c, d) :: l) -> cells s !! c = Some (Element d n) ->
  seg (cells s) n (l ++ [(c, d)]) n /\ ring_of (RingState (Ring (begin (ring s)) n) (cells s)) (l ++ [(c, d)]).
Proof.
  intros [(Hc & n' & Hn' & Hs) _ Hnd Hnull Hb] Hn. rewrite Hn in Hn'. injection Hn' as <-.
  assert (seg (cells s) n (l ++ [(c, d)]) n) as Hseg.
  { apply ring_seg_app. exists c. rewrite <- Hc in Hs. split; [done|]. split; [done|]. by exists n. }
  split; [done|]. rewrite fmap_cons in *. split; cbn [ring begin current cells]; rewrite ?fmap_app; cbn [fmap list_fmap fst] in *; try done.
  - by intros [? ?]%app_eq_nil.
  - apply (NoDup_Permutation_proper (c :: l.*1)); [solve_Permutation|done].
  - set_solver.
  - set_solver.
Qed.

Section RingProofs.
Context `{ElementAlloc}.

Definition rotate (ts : list ptr) : list ptr := match ts with [] => [] | t :: ts' => ts' ++ [t] end.

(** [get_current_task]: the next task of the ring becomes the current one. *)
Lemma get_current_task_ok s ts :
  ts <> [] -> rep s ts -> exists s' t, get_current_task s = Ret (s', t) /\ rep s' (rotate ts) /\ head (rotate ts) = Some t.
Proof.
  intros Hts Hrep. destruct ts as [|d ts]; [done|]. destruct Hrep as (l & Hr & Hl).
  destruct l as [|[c d'] l]; [done|]. injection Hl as -> Hl. pose proof Hr as [(Hc & n & Hn & Hs) _ _ Hnull _].
  destruct (ring_turn s c d l n Hr Hn) as [Hseg Hr'].
  assert (c <> NULL) as Hcn by (intros ->; apply Hnull, list_elem_of_here).
  unfold get_current_task. rewrite <- Hc, (cell_ok _ _ _ Hcn Hn). cbn [mbind outcome_bind link].
  destruct (l ++ [(c, d)]) as [|[n' e] l'] eqn:El; [by destruct l|]. pose proof Hseg as (Hnn & n2 & Hn2 & _). subst n'.
  rewrite (cell_ok _ n (Element e n2)); [|intros ->; apply (ro_null _ _ Hr'), list_elem_of_here|done]. cbn [mbind outcome_bind data].
  eexists _, e. split; [done|]. assert (rotate (d :: ts) = e :: l'.*2) as ->.
  { cbn [rotate]. rewrite <- Hl. change [d] with ([(c, d)].*2). by rewrite <- fmap_app, El. }
  split; [|done]. by exists ((n, e) :: l').
Qed.

(** Insertion: the first task starts a ring, a later one comes after the current one. *)
Definition insert_after (ts : list ptr) (d : ptr) : list ptr :=
  match ts with [] => [d] | t :: ts' => t :: d :: ts' end.

Lemma insert_first s d : rep s [] -> exists s', ring_list_insert s d = Ret s' /\ rep s' [d].
Proof.
  intros Hb. unfold ring_list_insert. rewrite (proj2 (Z.eqb_eq _ _) Hb). cbn [valloc].
  set (m := <[fresh (cells s) := stale (cells s)]> (cells s)).
  assert (fresh (cells s) <> fresh m) as Hne.
  { intros E. pose proof (fresh_new m) as Hf. rewrite <- E in Hf. unfold m in Hf. by rewrite lookup_insert_eq in Hf. }
  eexists. split; [done|]. exists [(fresh m, d)]. split; [|done]. split; cbn.
  - split; [done|]. exists (fresh m). by rewrite lookup_insert_eq.
  - done.
  - apply NoDup_singleton.
  - intros E%list_elem_of_singleton. by apply (fresh_null m).
  - split; [apply fresh_null|]. split; [by intros ?%list_elem_of_singleton|].
    rewrite 2!lookup_insert_ne by done. unfold m. rewrite lookup_insert_eq. eauto.
Qed.

Lemma insert_next s t ts d : rep s (t :: ts) -> exists s', ring_list_insert s d = Ret s' /\ rep s' (t :: d :: ts).
Proof.
  intros (l & Hr & Hl). destruct l as [|[c t'] l]; [done|]. injection Hl as -> Hl.
  pose proof Hr as [(Hc & n & Hn & Hs) _ Hnd Hnull (Hb & Hbl & Hbc)]. rewrite fmap_cons in *. cbn [fst] in *.
  apply NoDup_cons in Hnd as [Hcl Hnd]. apply not_elem_of_cons in Hnull as [Hcn Hnull]. apply not_elem_of_cons in Hbl as [Hbc' Hbl].
  unfold ring_list_insert. rewrite (proj2 (Z.eqb_neq _ _) Hb). cbn [valloc]. set (i := fresh (cells s)).
  pose proof (fresh_new (cells s)) as Hi. fold i in Hi.
  assert (forall a, is_Some (cells s !! a) -> a <> i) as Hfr by (intros a [x Hx] ->; by rewrite Hx in Hi).
  assert (i ∉ l.*1) as Hil.
  { intros Hin. apply list_elem_of_fmap in Hin as ([a x] & E & Ha). destruct (ring_seg_cell _ _ _ _ _ _ Hs Ha) as [y Hy].
    cbn in E. subst a. by rewrite Hi in Hy. }
  assert (c <> i) as Hci by (apply Hfr; eauto).
  rewrite <- Hc. erewrite cell_ok; [|done|rewrite lookup_insert_ne by done; exact Hn]. cbn [mbind outcome_bind link data].
  eexists. split; [done|]. exists ((c, t) :: (i, d) :: l). split; [|rewrite !fmap_cons; by rewrite <- Hl].
  split; cbn [ring cells current begin].
  - rewrite <- Hc. split; [done|]. exists i. rewrite lookup_insert_eq. split; [done|]. split; [done|]. exists n.
    rewrite lookup_insert_ne, lookup_insert_eq by done. split; [done|].
    rewrite <- Hc in Hs. apply (ring_seg_frame (cells s)); [|done]. intros a Ha.
    by rewrite !lookup_insert_ne by (intros ->; done).
  - done.
  - rewrite !fmap_cons. cbn [fst]. apply NoDup_cons. split; [by apply not_elem_of_cons|]. by apply NoDup_cons.
  - rewrite !fmap_cons. cbn [fst]. apply not_elem_of_cons. split; [done|]. apply not_elem_of_cons. split; [|done].
    intros E. by apply (fresh_null (cells s)).
  - rewrite !fmap_cons. cbn [fst]. split; [done|]. pose proof (Hfr _ Hbc). split.
    + apply not_elem_of_cons. split; [done|]. by apply not_elem_of_cons.
    + by rewrite !lookup_insert_ne by congruence.
Qed.

Lemma ring_list_insert_ok s ts d : rep s ts -> exists s', ring_list_insert s d = Ret s' /\ rep s' (insert_after ts d).
Proof. destruct ts as [|t ts]; [apply insert_first|apply insert_next]. Qed.

(** Removal: the first occurrence after the current task, the current one last; the only
    task of a ring stays. *)
Fixpoint remove (d : ptr) (ts : list ptr) : option (list ptr) :=
  match ts with
  | [] => None
  | t :: ts' => if decide (t = d) then Some ts' else cons t <$> remove d ts'
  end.

Definition remove_first (d : ptr) (ts : list ptr) : list ptr * bool :=
  match ts with
  | [] => ([], false)
  | t :: ts' =>
      match remove d ts' with
      | Some rest => (t :: rest, true)
      | None => if decide (t = d) then (match ts' with [] => [t] | _ => ts' end, true) else (ts, false)
      end
  end.

Lemma remove_none d ts : (d ∉ ts) -> remove d ts = None.
Proof.
  induction ts as [|t ts IH]; [done|]. intros [Hd Hts]%not_elem_of_cons. cbn [remove]. rewrite decide_False by done. by rewrite IH.
Qed.

Lemma remove_some d pre post : (d ∉ pre) -> remove d (pre ++ d :: post) = Some (pre ++ post).
Proof.
  induction pre as [|t pre IH]; [intros _; cbn; by rewrite decide_True|]. intros [Hd Hpre]%not_elem_of_cons.
  cbn [app remove]. rewrite decide_False by done. by rewrite IH.
Qed.

(** One round of the loop, at the element [a] in front of [b]. *)
Lemma delete_round s l1 a x b y l2 d fuel :
  ring_of s (l1 ++ (a, x) :: (b, y) :: l2) \/ (l2 = [] /\ ring_of s ((b, y) :: l1 ++ [(a, x)])) \/
    (l1 = [] /\ l2 = [] /\ a = b /\ x = y /\ ring_of s [(a, x)]) ->
  exists n, cells s !! a = Some (Element x b) /\ cells s !! b = Some (Element y n) /\
    delete_loop (S fuel) s a d =
      if y =? d then Ret (RingState (Ring (begin (ring s)) (if b =? current (ring s) then n else current (ring s)))
                                    (<[a := Element x n]> (cells s)), true)
      else if b =? current (ring s) then Ret (s, false) else delete_loop fuel s b d.
Proof.
  intros Hr.
  assert (exists n, cells s !! a = Some (Element x b) /\ cells s !! b = Some (Element y n) /\ a <> NULL /\ b <> NULL /\ b <> begin (ring s))
    as (n & Ha & Hb & Han & Hbn & Hbb).
  { destruct Hr as [[Hseg _ _ Hnull (_ & Hbeg & _)]|[[-> [Hseg _ _ Hnull (_ & Hbeg & _)]]|(-> & -> & <- & <- & [Hseg _ _ Hnull (_ & Hbeg & _)])]].
    - apply ring_seg_app in Hseg as (q & _ & -> & n1 & H1 & <- & n2 & H2 & _). rewrite fmap_app, !fmap_cons in *. cbn [fst] in *. set_solver.
    - destruct Hseg as (Hb & n2 & H2 & (q & _ & -> & n1 & H1 & Hn1)%ring_seg_app). cbn [seg] in Hn1. subst n1.
      rewrite fmap_cons, fmap_app, fmap_cons in *. cbn [fst] in *. rewrite <- Hb in H1. set_solver.
    - destruct Hseg as (Ha & n & Hn & Hc). cbn [seg] in Hc. subst n. rewrite fmap_cons in *. cbn [fst] in *. rewrite <- Ha in Hn. set_solver. }
  exists n. split_and!; [done..|]. cbn [delete_loop]. rewrite (cell_ok _ _ _ Han Ha). cbn [mbind outcome_bind link data].
  rewrite (cell_ok _ _ _ Hbn Hb). cbn [mbind outcome_bind link data]. rewrite (proj2 (Z.eqb_neq _ _) Hbb). cbn [mbind outcome_bind].
  destruct (y =? d); [|done]. destruct (b =? current (ring s)) eqn:E; [|done]. apply Z.eqb_eq in E. rewrite <- E.
  by rewrite (cell_ok _ _ _ Hbn Hb).
Qed.

(** What the assignments of the loop leave. *)
Lemma unlink_middle s l1 a x b y l2 n :
  ring_of s (l1 ++ (a, x) :: (b, y) :: l2) -> cells s !! b = Some (Element y n) ->
  ring_of (RingState (ring s) (<[a := Element x n]> (cells s))) (l1 ++ (a, x) :: l2).
Proof.
  intros [Hseg _ Hnd Hnull (Hb0 & Hbeg & Hbc)] Hb. rewrite fmap_app, !fmap_cons in *. cbn [fst] in *.
  apply NoDup_app in Hnd as (Hn1 & Hdis & [Ha Hn2]%NoDup_cons). apply NoDup_cons in Hn2 as [Hb2 Hn2].
  assert (a ∉ l1.*1) as Ha1 by (intros Hin; apply (Hdis a Hin); set_solver).
  assert (begin (ring s) <> a) by set_solver.
  split; rewrite ?fmap_app, ?fmap_cons; cbn [ring cells fst].
  - apply ring_seg_app in Hseg as (q & H1 & -> & n1 & Hn1' & <- & n2 & Hn2' & H2). rewrite Hb in Hn2'. injection Hn2' as <-.
    apply ring_seg_app. exists q. split; [apply (ring_seg_frame (cells s)); [|done]; intros e He; apply lookup_insert_ne; congruence|].
    split; [done|]. exists n. rewrite lookup_insert_eq. split; [done|].
    apply (ring_seg_frame (cells s)); [|done]. intros e He. apply lookup_insert_ne. intros ->. apply Ha. set_solver.
  - by destruct l1.
  - apply NoDup_app. split; [done|]. split; [set_solver|]. apply NoDup_cons. split; [set_solver|done].
  - set_solver.
  - split; [done|]. split; [set_solver|]. by rewrite lookup_insert_ne.
Qed.

Lemma unlink_current s c y l1 a x n :
  ring_of s ((c, y) :: l1 ++ [(a, x)]) -> cells s !! c = Some (Element y n) ->
  ring_of (RingState (Ring (begin (ring s)) n) (<[a := Element x n]> (cells s))) (l1 ++ [(a, x)]).
Proof.
  intros [(Hcc & n' & Hn' & Hseg) _ Hnd Hnull (Hb0 & Hbeg & Hbc)] Hc. rewrite Hc in Hn'. injection Hn' as <-.
  rewrite fmap_cons, fmap_app, fmap_cons in *. cbn [fst] in *. apply NoDup_cons in Hnd as [_ Hnd].
  assert (a ∉ l1.*1) as Ha by (apply NoDup_app in Hnd as (_ & Hd & _); intros Hin; apply (Hd a Hin); set_solver).
  assert (begin (ring s) <> a) by set_solver.
  split; rewrite ?fmap_app, ?fmap_cons; cbn [ring cells fst current begin].
  - by apply (seg_redirect _ _ _ _ _ (current (ring s))).
  - by destruct l1.
  - done.
  - set_solver.
  - split; [done|]. split; [set_solver|]. by rewrite lookup_insert_ne.
Qed.

Lemma unlink_single s c y n :
  ring_of s [(c, y)] -> cells s !! c = Some (Element y n) ->
  RingState (Ring (begin (ring s)) n) (<[c := Element y n]> (cells s)) = s.
Proof.
  intros [(Hcc & n' & Hn' & Hseg) _ _ _ _] Hc. rewrite Hc in Hn'. injection Hn' as <-. cbn [seg] in Hseg. subst n.
  rewrite insert_id by done. by destruct s as [[]].
Qed.

(** The current element comes first, so no other one is current. *)
Lemma not_current s c t l b y : ring_of s ((c, t) :: l) -> (b, y) ∈ l -> (b =? current (ring s)) = false.
Proof.
  intros [(<- & _) _ Hnd _ _] Hin. apply Z.eqb_neq. intros ->. rewrite fmap_cons in Hnd. apply NoDup_cons in Hnd as [Hc _].
  apply Hc, list_elem_of_fmap. by exists (c, y).
Qed.

Lemma is_current s c t l : ring_of s ((c, t) :: l) -> (c =? current (ring s)) = true.
Proof. intros [(<- & _) _ _ _ _]. apply Z.eqb_refl. Qed.

Lemma delete_loop_ok s c t d post : forall pre l1 a x fuel,
  ring_of s ((c, t) :: pre ++ post) -> (c, t) :: pre = l1 ++ [(a, x)] -> (d ∉ pre.*2) -> (length post < fuel)%nat ->
  let r := remove_first d (t :: (pre ++ post).*2) in
  exists s', delete_loop fuel s a d = Ret (s', r.2) /\ rep s' r.1.
Proof.
  induction post as [|[b y] post IH]; intros pre l1 a x fuel Hr Hpre Hd Hf; (destruct fuel as [|fuel]; [cbn in Hf; lia|]).
  - rewrite app_nil_r in *. cbn [remove_first]. rewrite remove_none by done.
    assert (exists n, cells s !! a = Some (Element x c) /\ cells s !! c = Some (Element t n) /\
      delete_loop (S fuel) s a d = (if t =? d then Ret (RingState (Ring (begin (ring s)) n) (<[a := Element x n]> (cells s)), true) else Ret (s, false)))
      as (n & Ha & Hc & Hloop).
    { pose proof (is_current _ _ _ _ Hr) as Hcur. destruct l1 as [|[c' t'] l1]; cbn in Hpre; injection Hpre as Hpre; subst.
      - destruct (delete_round s [] a x a x [] d fuel) as (n & H1 & H2 & H3); [by right; right|]. rewrite Hcur in H3. eauto.
      - destruct (delete_round s l1 a x c' t' [] d fuel) as (n & H1 & H2 & H3); [by right; left|]. rewrite Hcur in H3. eauto. }
    rewrite Hloop. case_decide as E; [subst t; rewrite Z.eqb_refl|rewrite (proj2 (Z.eqb_neq _ _) E)].
    + eexists. split; [done|]. destruct l1 as [|[c' t'] l1]; cbn in Hpre; injection Hpre as Hpre; subst; cbn [fst].
      * rewrite (unlink_single _ _ _ _ Hr Hc). by exists [(a, x)].
      * destruct ((l1 ++ [(a, x)]).*2) eqn:El; [by rewrite fmap_app in El; destruct (l1.*2)|].
        exists (l1 ++ [(a, x)]). split; [by apply (unlink_current s c' t')|done].
    + exists s. split; [done|]. by exists ((c, t) :: pre).
  - assert (ring_of s (l1 ++ (a, x) :: (b, y) :: post)) as Hr'.
    { change ((c, t) :: pre ++ (b, y) :: post) with (((c, t) :: pre) ++ (b, y) :: post) in Hr. by rewrite Hpre, <- app_assoc in Hr. }
    destruct (delete_round s l1 a x b y post d fuel) as (n & Ha & Hb & ->); [by left|].
    rewrite (not_current _ _ _ _ b y Hr) by set_solver. rewrite fmap_app, fmap_cons. cbn [snd].
    destruct (y =? d) eqn:E; [apply Z.eqb_eq in E as ->|apply Z.eqb_neq in E].
    + cbn [remove_first]. rewrite remove_some by done. eexists. split; [done|]. exists ((c, t) :: pre ++ post).
      split; [|by rewrite fmap_cons, fmap_app]. change ((c, t) :: pre ++ post) with (((c, t) :: pre) ++ post). rewrite Hpre, <- app_assoc.
      pose proof (unlink_middle s l1 a x b d post n Hr' Hb) as Hu. by destruct (ring s).
    + specialize (IH (pre ++ [(b, y)]) ((c, t) :: pre) b y fuel). rewrite <- app_assoc, fmap_app in IH. cbn [app] in IH.
      rewrite fmap_app, fmap_cons in IH. cbn [snd] in IH. apply IH; [done|done|set_solver|cbn in Hf; lia].
Qed.

Lemma ring_list_delete_first_ok s ts d :
  rep s ts -> exists s', ring_list_delete_first s d = Ret (s', (remove_first d ts).2) /\ rep s' (remove_first d ts).1.
Proof.
  unfold ring_list_delete_first. destruct ts as [|t ts]; [intros Hb; exists s; by rewrite (proj2 (Z.eqb_eq _ _) Hb)|].
  intros (l & Hr & Hl). destruct l as [|[c t'] l]; [done|]. injection Hl as -> Hl. pose proof Hr as [Hseg _ Hnd _ (Hb & _)].
  rewrite (proj2 (Z.eqb_neq _ _) Hb), <- (proj1 Hseg), <- Hl. pose proof (ring_seg_size _ _ _ _ Hnd Hseg) as Hsz. cbn [length] in Hsz.
  apply (delete_loop_ok s c t d l [] [] c t); [done|done|apply not_elem_of_nil|lia].
Qed.

(** *** Sequences of operations *)

Inductive ring_op := Add (d : ptr) | Turn | Drop (d : ptr).

(** The operations with what they return. *)
Inductive answer := Added | Turned (t : ptr) | Dropped (b : bool).

Definition run_op (s : ring_state) (o : ring_op) : outcome (ring_state * answer) :=
  match o with
  | Add d => s ← insert_current_task s d; Ret (s, Added)
  | Turn => '(s, t) ← get_current_task s; Ret (s, Turned t)
  | Drop d => '(s, b) ← ring_list_delete_first s d; Ret (s, Dropped b)
  end.

Fixpoint run_ops (s : ring_state) (os : list ring_op) : outcome (ring_state * list answer) :=
  match os with
  | [] => Ret (s, [])
  | o :: os' => '(s, a) ← run_op s o; '(s, bs) ← run_ops s os'; Ret (s, a :: bs)
  end.

(** The same on the list of tasks; turning a ring without tasks is excluded. *)
Definition list_op (ts : list ptr) (o : ring_op) : option (list ptr * answer) :=
  match o with
  | Add d => Some (insert_after ts d, Added)
  | Turn => t ← head (rotate ts); Some (rotate ts, Turned t)
  | Drop d => Some ((remove_first d ts).1, Dropped (remove_first d ts).2)
  end.

Fixpoint list_ops (ts : list ptr) (os : list ring_op) : option (list ptr * list answer) :=
  match os with
  | [] => Some (ts, [])
  | o :: os' => '(ts, a) ← list_op ts o; '(ts, bs) ← list_ops ts os'; Some (ts, a :: bs)
  end.

Lemma run_op_ok s ts o ts' a : rep s ts -> list_op ts o = Some (ts', a) -> exists s', run_op s o = Ret (s', a) /\ rep s' ts'.
Proof.
  intros Hr. destruct o as [d| |d]; cbn [list_op run_op].
  - intros [= <- <-]. destruct (ring_list_insert_ok s ts d Hr) as (s' & E & Hr'). unfold insert_current_task. rewrite E. by exists s'.
  - destruct (head (rotate ts)) as [t|] eqn:Et; [|done]. intros [= <- <-]. assert (ts <> []) as Hne by (by intros ->).
    destruct (get_current_task_ok s ts Hne Hr) as (s' & t' & -> & Hr' & Ht'). rewrite Et in Ht'. injection Ht' as <-. by exists s'.
  - intros [= <- <-]. destruct (ring_list_delete_first_ok s ts d Hr) as (s' & -> & Hr'). by exists s'.
Qed.

(** The ring of tasks is a list with the current task first: from an empty ring on,
    every sequence of insertions, turns and removals returns what the same operations
    on the list return.  A new task comes after the current one; a removal takes the
    first occurrence after the current task and leaves the order of the others. *)
Theorem ring_refines_list os : forall s ts ts' bs,
  rep s ts -> list_ops ts os = Some (ts', bs) -> exists s', run_ops s os = Ret (s', bs) /\ rep s' ts'.
Proof.
  induction os as [|o os IH]; intros s ts ts' bs Hr; cbn [list_ops run_ops]; [intros [= <- <-]; by exists s|].
  destruct (list_op ts o) as [[ts1 a]|] eqn:E; [|done]. cbn. destruct (list_ops ts1 os) as [[ts2 bs2]|] eqn:E2; [|done].
  intros [= <- <-]. destruct (run_op_ok s ts o ts1 a Hr E) as (s1 & -> & Hr1). cbn [mbind outcome_bind].
  destruct (IH s1 ts1 ts2 bs2 Hr1 E2) as (s2 & -> & Hr2). by exists s2.
Qed.

(** *** Fairness *)

Fixpoint turns (n : nat) (s : ring_state) : outcome (ring_state * list ptr) :=
  match n with
  | O => Ret (s, [])
  | S n => '(s, t) ← get_current_task s; '(s, ts) ← turns n s; Ret (s, t :: ts)
  end.

Lemma rotate_lookup ts j : (j < length ts)%nat -> rotate ts !! j = ts !! ((j + 1) mod length ts)%nat.
Proof.
  destruct ts as [|t ts]; cbn [length rotate]; intros Hj; [lia|]. destruct (decide (j < length ts)%nat).
  - rewrite lookup_app_l, Nat.mod_small by lia. by rewrite Nat.add_1_r.
  - replace j with (length ts) by lia. rewrite Nat.add_1_r, Nat.Div0.mod_same. by rewrite list_lookup_middle.
Qed.

Lemma rotate_length ts : length (rotate ts) = length ts.
Proof. destruct ts; [done|]. cbn. rewrite length_app. cbn. lia. Qed.

(** The scheduler is round robin: as long as no task comes or goes, the [i]-th call of
    [get_current_task] returns the task [i + 1] places after the current one, counted
    around the ring, so every task of the ring runs again within as many calls as
    there are tasks. *)
Theorem round_robin n : forall s ts,
  ts <> [] -> rep s ts ->
  exists s' out, turns n s = Ret (s', out) /\ length out = n /\
    forall i, (i < n)%nat -> out !! i = ts !! ((i + 1) mod length ts)%nat.
Proof.
  induction n as [|n IH]; intros s ts Hne Hr; [exists s, []; split_and!; [done..|lia]|].
  destruct (get_current_task_ok s ts Hne Hr) as (s1 & t & E & Hr1 & Ht).
  assert (rotate ts <> []) as Hne1 by (by intros E1; rewrite E1 in Ht).
  destruct (IH s1 _ Hne1 Hr1) as (s2 & out & E2 & Hl & Hout). exists s2, (t :: out). cbn [turns]. rewrite E. cbn [mbind outcome_bind].
  rewrite E2. cbn [mbind outcome_bind length]. split_and!; [done|lia|]. intros [|i] Hi.
  - rewrite head_lookup in Ht. cbn [lookup list_lookup]. rewrite <- Ht, rotate_lookup; [done|]. destruct ts; [done|cbn; lia].
  - cbn [lookup list_lookup]. rewrite Hout by lia. rewrite rotate_length.
    assert (length ts <> 0)%nat as Hz by (by destruct ts).
    rewrite rotate_lookup by (by apply Nat.mod_upper_bound). f_equal. rewrite Nat.Div0.add_mod_idemp_l. f_equal. lia.
Qed.

End RingProofs.

(** ** Witnesses *)

#[export] Program Instance fresh_element : ElementAlloc := {|
  fresh m := base.fresh ({[NULL]} ∪ dom m : gset ptr);
  stale _ := Element 77 88
|}.
Next Obligation. intros m. apply not_elem_of_dom. pose proof (is_fresh ({[NULL]} ∪ dom m : gset ptr)). set_solver. Qed.
Next Obligation. intros m E. apply (is_fresh ({[NULL]} ∪ dom m : gset ptr)). rewrite E. set_solver. Qed.

Definition empty_ring : ring_state := RingState (Ring NULL NULL) ∅.

Lemma ring_refines_list_witness :
  exists s', run_ops empty_ring [Add 10; Add 20; Turn; Add 30; Drop 10; Turn; Drop 40] =
      Ret (s', [Added; Added; Turned 20; Added; Dropped true; Turned 30; Dropped false]) /\ rep s' [30; 20].
Proof. by apply (ring_refines_list _ empty_ring []). Defined.

(** Three tasks, of which 10 runs. *)
Definition three : ring_state :=
  RingState (Ring 1 2) {[1 := Element 0 0; 2 := Element 10 3; 3 := Element 20 4; 4 := Element 30 2]}.

Lemma three_rep : rep three [10; 20; 30].
Proof.
  exists [(2, 10); (3, 20); (4, 30)]. split; [|done]. split; cbn; try done.
  - by repeat (split; [done|]; eexists; split; [done|]).
  - by_decide.
  - by_decide.
  - split; [done|]. split; [by_decide|]. by eexists.
Qed.

Lemma round_robin_witness :
  exists s' out, turns 6 three = Ret (s', out) /\ length out = 6%nat /\
    forall i, (i < 6)%nat -> out !! i = [10; 20; 30] !! ((i + 1) mod 3)%nat.
Proof. by apply (round_robin 6 three [10; 20; 30]); [|apply three_rep]. Defined.

End TaskRing.
