(* ===== verification/Scheduler.v ===== *)
(** * Switching tasks (the scheduling part of [kernel/src/task/proc.c])

    Tasks are in two structures: the ring of the file [TaskRing], which decides who is
    next, and the ready queue, linked through the field [next] of the tasks, which is
    walked to wake sleepers and to step over tasks that sleep. *)

From stdpp Require Import base gmap numbers list.
From S2P Require Import Prelude TaskRing.
Import TaskRing.

Module Scheduler.

(** ** Tasks and the ready queue *)

Definition TASK_RUNNING : Z := 1.
Definition TASK_SLEEPING : Z := 2.
Definition PRIO_DEAD : Z := 99.
Definition PRIO_IDLE : Z := 0.
Definition PRIO_LOW : Z := 1.
Definition PRIO_HIGH : Z := 2.

Inductive task_type := THREAD | VM86.
Definition KERNEL_STACK_SIZE : Z := 4096.

(** The fields of [task_t] that scheduling uses. *)
Record task_t := Task {
  next : ptr; state : Z; wakeup_time : Z; priority : Z; time_to_run : Z; ready_to_run : Z; esp : Z; eip : Z;
  id_ : Z; privilege : Z; type : task_type; kernel_stack : Z; syscall_registers : ptr
}.

Definition set_next (t : task_t) n :=
  Task n (state t) (wakeup_time t) (priority t) (time_to_run t) (ready_to_run t) (esp t) (eip t) (id_ t) (privilege t) (type t) (kernel_stack t) (syscall_registers t).
Definition set_time (t : task_t) n :=
  Task (next t) (state t) (wakeup_time t) (priority t) n (ready_to_run t) (esp t) (eip t) (id_ t) (privilege t) (type t) (kernel_stack t) (syscall_registers t).
Definition set_priority (t : task_t) n :=
  Task (next t) (state t) (wakeup_time t) n (time_to_run t) (ready_to_run t) (esp t) (eip t) (id_ t) (privilege t) (type t) (kernel_stack t) (syscall_registers t).
Definition set_regs (t : task_t) sp ip :=
  Task (next t) (state t) (wakeup_time t) (priority t) (time_to_run t) (ready_to_run t) sp ip (id_ t) (privilege t) (type t) (kernel_stack t) (syscall_registers t).
Definition set_sleep (t : task_t) st w :=
  Task (next t) st w (priority t) (time_to_run t) (ready_to_run t) (esp t) (eip t) (id_ t) (privilege t) (type t) (kernel_stack t) (syscall_registers t).
Definition set_dead (t : task_t) :=
  Task (next t) (state t) (wakeup_time t) PRIO_DEAD 0 0 (esp t) (eip t) (id_ t) (privilege t) (type t) (kernel_stack t) (syscall_registers t).

(** The frame from which a new task starts ([struct regs__]). *)
Record regs := Regs {
  r_gs : Z; r_fs : Z; r_es : Z; r_ds : Z; r_edi : Z; r_esi : Z; r_ebp : Z; r_ebx : Z; r_edx : Z; r_ecx : Z; r_eax : Z;
  r_int_no : Z; r_err_code : Z; r_eip : Z; r_cs : Z; r_eflags : Z; r_useresp : Z; r_ss : Z
}.

Record sched := Sched {
  tasks : gmap ptr task_t; ready_queue : ptr; current_task : ptr; task_queue : ring_state; DOTASKSWITCH : Z;
  frames : gmap ptr regs; pid : Z
}.

Definition put_tasks (s : sched) m := Sched m (ready_queue s) (current_task s) (task_queue s) (DOTASKSWITCH s) (frames s) (pid s).
Definition switch_to (s : sched) m p r := Sched m (ready_queue s) p r (DOTASKSWITCH s) (frames s) (pid s).
Definition task (m : gmap ptr task_t) (p : ptr) : outcome task_t := if p =? NULL then Fault else of_option (m !! p).

(** [for (t = ready_queue; t != 0; t = t->next)]: sleepers whose time has come run again. *)
Definition wake (now : Z) (t : task_t) : task_t :=
  if (state t =? TASK_SLEEPING) && (wakeup_time t <=? now) then set_sleep t TASK_RUNNING 0 else t.

Fixpoint wake_loop (fuel : nat) (m : gmap ptr task_t) (now : Z) (p : ptr) : outcome (gmap ptr task_t) :=
  if p =? NULL then Ret m
  else match fuel with
       | O => OutOfFuel
       | S fuel => t ← task m p; wake_loop fuel (<[p := wake now t]> m) now (next t)
       end.

(** [while (current_task != 0 && current_task->state == TASK_SLEEPING)]. *)
Fixpoint skip_sleeping (fuel : nat) (m : gmap ptr task_t) (p : ptr) : outcome ptr :=
  if p =? NULL then Ret p
  else match fuel with
       | O => OutOfFuel
       | S fuel => t ← task m p; if state t =? TASK_SLEEPING then skip_sleeping fuel m (next t) else Ret p
       end.

(** The timer interrupt: [sp] and [ip] are what it saved of the task that ran, [now] the
    tick count.  The value returned is the stack to continue on.  What follows for the
    processor (the lazy FPU flag of cr0, the stack in the task state segment) is left out. *)
Definition _task_switch (s : sched) (now sp ip : Z) : outcome (sched * Z) :=
  if DOTASKSWITCH s =? 0 then Ret (s, sp)
  else if current_task s =? NULL then Ret (s, sp)
  else
    c ← task (tasks s) (current_task s);
    let m := <[current_task s := set_regs c sp ip]> (tasks s) in
    '(r, p) ← get_current_task (task_queue s);
    if current_task s =? p then Ret (switch_to s m p r, sp)
    else
      t ← task m p;
      let t := if priority t =? PRIO_LOW then set_time t 3 else t in
      let t := if priority t =? PRIO_IDLE then set_time t 1 else t in
      let m := <[p := t]> m in
      m ← wake_loop (S (size m)) m now (ready_queue s);
      p ← skip_sleeping (S (size m)) m p;
      let p := if p =? NULL then ready_queue s else p in
      t ← task m p;
      Ret (switch_to s m p r, esp t).

(** [sleep2] up to the switch. *)
Definition sleep2 (s : sched) (now milliseconds : Z) : outcome sched :=
  let ticks_to_wait := milliseconds / 10 in
  let ticks_to_wait := if ticks_to_wait =? 0 then 1 else ticks_to_wait in
  t ← task (tasks s) (current_task s);
  Ret (put_tasks s (<[current_task s := set_sleep t TASK_SLEEPING (u32 (now + ticks_to_wait))]> (tasks s))).

(** [while(tmp_task->next)]: the last task of the queue. *)
Fixpoint last_task (fuel : nat) (m : gmap ptr task_t) (p : ptr) : outcome ptr :=
  match fuel with
  | O => OutOfFuel
  | S fuel => t ← task m p; if next t =? NULL then Ret p else last_task fuel m (next t)
  end.

Definition time_slice (prio : Z) : Z :=
  if prio =? PRIO_DEAD then 0 else if prio =? PRIO_IDLE then 3 else if prio =? PRIO_LOW then 5
  else if prio =? PRIO_HIGH then 1 else 100.

(** The frame [_get_task_stack] builds; [kexit] is the address of that function, where a
    kernel task returns to. *)
Definition initial_frame (kexit entry argc argv priv : Z) (ty : task_type) : regs :=
  let user := (priv =? 3) && match ty with THREAD => true | VM86 => false end in
  let data_segment := if priv =? 3 then 35 else 16 in
  Regs data_segment data_segment data_segment data_segment 0 0 0 0 argc argv 0
       0 0 entry (if user then 27 else 8) 514 (if user then argc else kexit) (if user then 35 else 16).

(** [_get_task_stack]: [stack] and [frame] are what the two calls of [valloc] return.
    The field [next] of the new task is not set: it holds what the allocation left. *)
Definition _get_task_stack `{ElementAlloc} (s : sched) (kexit new_task entry argc argv priv prio : Z) (ty : task_type)
    (stack frame : ptr) : outcome sched :=
  c ← task (tasks s) (current_task s);
  t ← task (<[current_task s := set_priority c prio]> (tasks s)) new_task;
  let m := <[new_task := Task (next t) TASK_RUNNING (wakeup_time t) prio (time_slice prio) (ready_to_run t) (esp t) (eip t)
                              (id_ t) priv ty (u32 (stack + KERNEL_STACK_SIZE)) (syscall_registers t)]>
             (<[current_task s := set_priority c prio]> (tasks s)) in
  tmp_task ← last_task (S (size m)) m (ready_queue s);
  l ← task m tmp_task;
  let m := <[tmp_task := set_next l new_task]> m in
  t ← task m new_task;
  let m := <[new_task := Task (next t) (state t) (wakeup_time t) (priority t) (time_to_run t) (ready_to_run t) frame entry
                              (pid s) (privilege t) (type t) (kernel_stack t) frame]> m in
  r ← insert_current_task (task_queue s) new_task;
  Ret (Sched m (ready_queue s) (current_task s) r (DOTASKSWITCH s)
         (<[frame := initial_frame kexit entry argc argv priv ty]> (frames s)) (s32 (pid s + 1))).

(** The loop that takes the current task out of the queue ([exit], [_exit] and [kexit]). *)
Fixpoint unlink_loop (fuel : nat) (m : gmap ptr task_t) (victim p : ptr) : outcome (gmap ptr task_t) :=
  match fuel with
  | O => OutOfFuel
  | S fuel =>
      t ← task m p;
      m ← (if next t =? victim then v ← task m victim; Ret (<[p := set_next t (next v)]> m) else Ret m);
      t ← task m p;
      let p := if next t =? NULL then p else next t in
      t ← task m p;
      if next t =? NULL then Ret m else unlink_loop fuel m victim p
  end.

(** [kexit] up to the freeing of the task, which is current until the next switch. *)
Definition kexit (s : sched) : outcome sched :=
  c ← task (tasks s) (current_task s);
  let m := <[current_task s := set_dead c]> (tasks s) in
  m ← unlink_loop (S (size m)) m (current_task s) (ready_queue s);
  r ← delete_current_task (task_queue s) (current_task s);
  Ret (switch_to s (delete (current_task s) m) (current_task s) r).

(** ** The ready queue as a list *)

(** Following [next] from [p] leads through the tasks of [l] to the end. *)
Fixpoint chain (m : gmap ptr task_t) (p : ptr) (l : list ptr) : Prop :=
  match l with
  | [] => p = NULL
  | a :: l' => p = a /\ a <> NULL /\ exists t, m !! a = Some t /\ chain m (next t) l'
  end.

Lemma task_ok m p t : p <> NULL -> m !! p = Some t -> task m p = Ret t.
Proof. intros Hp Ht. unfold task. by rewrite (proj2 (Z.eqb_neq _ _) Hp), Ht. Qed.

(** Only the links matter. *)
Lemma queue_frame m m' p l : (forall a, a ∈ l -> next <$> m' !! a = next <$> m !! a) -> chain m p l -> chain m' p l.
Proof.
  revert p. induction l as [|a l IH]; intros p Heq; [done|]. intros (-> & Ha & t & Ht & Hc). split; [done|]. split; [done|].
  specialize (Heq a (list_elem_of_here a l)) as Hn. rewrite Ht in Hn. cbn in Hn. destruct (m' !! a) as [t'|]; [|done].
  injection Hn as Hn. exists t'. split; [done|]. rewrite Hn. apply IH; [|done]. intros b Hb. apply Heq. by apply list_elem_of_further.
Qed.

Lemma queue_size m p l : chain m p l -> NoDup l -> (length l <= size m)%nat.
Proof.
  intros Hc Hn. rewrite <- (size_dom (D := gset ptr)), <- (size_list_to_set (C := gset ptr) _ Hn).
  apply subseteq_size. intros a Ha%elem_of_list_to_set. apply elem_of_dom. clear Hn. revert p Hc.
  induction l as [|b l IH]; intros p Hc; [by apply elem_of_nil in Ha|]. destruct Hc as (_ & _ & t & Ht & Hc).
  apply elem_of_cons in Ha as [->|Ha]; eauto.
Qed.

Lemma chain_suffix m p l1 l2 : chain m p (l1 ++ l2) -> exists q, chain m q l2 /\ (l1 = [] -> q = p).
Proof.
  revert p. induction l1 as [|a l1 IH]; intros p; [by exists p|]. intros (_ & _ & t & _ & Hc).
  destruct (IH _ Hc) as (q & Hq & _). by exists q.
Qed.

Lemma chain_at m p l1 a l2 : chain m p (l1 ++ a :: l2) -> chain m a (a :: l2).
Proof. intros (q & Hq & _)%chain_suffix. pose proof Hq as (-> & _). done. Qed.

Lemma wake_next now t : next (wake now t) = next t.
Proof. unfold wake. by destruct (_ && _). Qed.

Lemma wake_loop_ok now l : forall m p fuel,
  chain m p l -> NoDup l -> (length l < fuel)%nat ->
  exists m', wake_loop fuel m now p = Ret m' /\
    forall q, m' !! q = if decide (q ∈ l) then wake now <$> m !! q else m !! q.
Proof.
  induction l as [|a l IH]; intros m p fuel Hc Hn Hf; (destruct fuel as [|fuel]; [cbn in Hf; lia|]); cbn [wake_loop].
  - cbn [chain] in Hc. subst p. exists m. split; [done|]. intros q. rewrite decide_False; [done|apply not_elem_of_nil].
  - destruct Hc as (-> & Ha & t & Ht & Hc). apply NoDup_cons in Hn as [Hal Hn]. rewrite (proj2 (Z.eqb_neq _ _) Ha), (task_ok _ _ _ Ha Ht).
    cbn [mbind outcome_bind]. destruct (IH (<[a := wake now t]> m) (next t) fuel) as (m' & -> & Hm').
    + apply (queue_frame m); [|done]. intros b Hb. rewrite lookup_insert_ne by congruence. done.
    + done.
    + cbn in Hf. lia.
    + exists m'. split; [done|]. intros q. rewrite Hm'. destruct (decide (q = a)) as [->|Hq].
      * rewrite decide_False, lookup_insert_eq, decide_True, Ht by (done || apply list_elem_of_here). done.
      * rewrite lookup_insert_ne by done. destruct (decide (q ∈ l)) as [Hin|Hin].
        -- by rewrite decide_True by (by apply list_elem_of_further).
        -- rewrite decide_False; [done|]. by intros [?|?]%elem_of_cons.
Qed.

Definition asleep (m : gmap ptr task_t) (p : ptr) : bool :=
  match m !! p with Some t => state t =? TASK_SLEEPING | None => false end.

(** The first task of a list that does not sleep. *)
Fixpoint first_awake (m : gmap ptr task_t) (l : list ptr) : option ptr :=
  match l with
  | [] => None
  | a :: l' => if asleep m a then first_awake m l' else Some a
  end.

Lemma skip_sleeping_ok m l : forall p fuel,
  chain m p l -> (length l < fuel)%nat -> skip_sleeping fuel m p = Ret (default NULL (first_awake m l)).
Proof.
  induction l as [|a l IH]; intros p fuel Hc Hf; (destruct fuel as [|fuel]; [cbn in Hf; lia|]); cbn [skip_sleeping first_awake].
  - cbn [chain] in Hc. by subst p.
  - destruct Hc as (-> & Ha & t & Ht & Hc). rewrite (proj2 (Z.eqb_neq _ _) Ha), (task_ok _ _ _ Ha Ht). cbn [mbind outcome_bind].
    unfold asleep. rewrite Ht. destruct (state t =? TASK_SLEEPING); [|done]. apply IH; [done|cbn in Hf; lia].
Qed.

Lemma first_awake_spec m l p : first_awake m l = Some p -> p ∈ l /\ asleep m p = false.
Proof.
  induction l as [|a l IH]; [done|]. cbn [first_awake]. destruct (asleep m a) eqn:E.
  - intros [Hp Hs]%IH. split; [by apply list_elem_of_further|done].
  - intros [= <-]. split; [apply list_elem_of_here|done].
Qed.

Lemma chain_cell m p l q : chain m p l -> q ∈ l -> q <> NULL /\ is_Some (m !! q).
Proof.
  intros Hc (l1 & l2 & ->)%list_elem_of_split. apply chain_at in Hc as (_ & Hq & t & Ht & _). eauto.
Qed.

(** The task chosen is one of the queue. *)
Lemma choice_ok m h l1 p l2 :
  chain m h (l1 ++ p :: l2) ->
  let q := if default NULL (first_awake m (p :: l2)) =? NULL then h else default NULL (first_awake m (p :: l2)) in
  q = default h (first_awake m (p :: l2)) /\ q <> NULL /\ exists t, m !! q = Some t.
Proof.
  intros Hc. cbn zeta. destruct (first_awake m (p :: l2)) as [a|] eqn:E; cbn [default from_option id].
  - destruct (first_awake_spec _ _ _ E) as [Hin _]. destruct (chain_cell _ _ _ a Hc) as [Ha [t Ht]]; [set_solver|].
    rewrite (proj2 (Z.eqb_neq _ _) Ha). eauto.
  - split; [done|]. change (h <> NULL /\ exists t, m !! h = Some t). destruct (chain_cell _ _ _ h Hc) as [Hh [t Ht]]; [|eauto].
    destruct l1; destruct Hc as (-> & _); set_solver.
Qed.

Definition slice (t : task_t) : task_t :=
  let t := if priority t =? PRIO_LOW then set_time t 3 else t in
  if priority t =? PRIO_IDLE then set_time t 1 else t.

Lemma slice_next t : next (slice t) = next t.
Proof. unfold slice. repeat case_match; done. Qed.

(** The tasks when the choice is made: registers saved, the time of the next task of
    the ring set, sleepers of the queue woken. *)
Definition prepared (s : sched) (now sp ip : Z) (l : list ptr) (p q : ptr) : option task_t :=
  let saved := if decide (q = current_task s) then (fun t => set_regs t sp ip) <$> tasks s !! q else tasks s !! q in
  let timed := if decide (q = p) then slice <$> saved else saved in
  if decide (q ∈ l) then wake now <$> timed else timed.

(** *** Leaving the queue *)

(** A round of the loop at a task that is not in front of the victim. *)
Lemma unlink_round m v p t fuel :
  p <> NULL -> m !! p = Some t -> next t <> v ->
  unlink_loop (S fuel) m v p =
    (let p := if next t =? NULL then p else next t in
     t ← task m p; if next t =? NULL then Ret m else unlink_loop fuel m v p).
Proof.
  intros Hp Ht Hv. cbn [unlink_loop]. rewrite (task_ok _ _ _ Hp Ht). cbn [mbind outcome_bind].
  rewrite (proj2 (Z.eqb_neq _ _) Hv). cbn [mbind outcome_bind]. by rewrite (task_ok _ _ _ Hp Ht).
Qed.

Lemma unlink_skip m v l : forall p fuel,
  v <> NULL -> chain m p (p :: l) -> (v ∉ l) -> (length l < fuel)%nat -> unlink_loop fuel m v p = Ret m.
Proof.
  induction l as [|b l IH]; intros p fuel Hv (_ & Hp & t & Ht & Hc) Hl Hf; (destruct fuel as [|fuel]; [cbn in Hf; lia|]).
  - cbn [chain] in Hc. rewrite (unlink_round m v p t fuel Hp Ht) by congruence. rewrite Hc. change (NULL =? NULL) with true. cbn zeta iota.
    rewrite (task_ok _ _ _ Hp Ht). cbn [mbind outcome_bind]. by rewrite Hc.
  - apply not_elem_of_cons in Hl as [Hvb Hl]. pose proof Hc as (Hb & Hbn & tb & Htb & Hcb).
    rewrite (unlink_round m v p t fuel Hp Ht) by congruence. rewrite Hb, (proj2 (Z.eqb_neq _ _) Hbn). cbn zeta iota.
    rewrite (task_ok _ _ _ Hbn Htb). cbn [mbind outcome_bind]. destruct (next tb =? NULL); [done|].
    apply IH; [done|by rewrite Hb in Hc|done|cbn in Hf; lia].
Qed.

(** The victim is taken out by redirecting the task in front of it. *)
Lemma unlink_found m v l2 : forall l1 p fuel,
  chain m p (p :: l1 ++ v :: l2) -> NoDup (p :: l1 ++ v :: l2) -> (length (l1 ++ v :: l2) < fuel)%nat ->
  exists m', unlink_loop fuel m v p = Ret m' /\ chain m' p (p :: l1 ++ l2) /\
    (forall q, next <$> m' !! q = next <$> m !! q \/ q ∈ p :: l1) /\
    (forall q, (fun t => set_next t NULL) <$> m' !! q = (fun t => set_next t NULL) <$> m !! q).
Proof.
  induction l1 as [|b l1 IH]; intros p fuel (_ & Hp & t & Ht & Hc) Hn Hf; (destruct fuel as [|fuel]; [cbn in Hf; lia|]).
  - pose proof Hc as (Hv & Hvn & tv & Htv & Hcv). apply NoDup_cons in Hn as [Hpl Hn]. cbn [app] in *. apply not_elem_of_cons in Hpl as [Hpv Hpl].
    apply NoDup_cons in Hn as [Hvl Hn]. set (m' := <[p := set_next t (next tv)]> m).
    assert (m' !! p = Some (set_next t (next tv))) as Hp' by apply lookup_insert_eq.
    assert (chain m' p (p :: l2)) as Hc'.
    { split; [done|]. split; [done|]. eexists. split; [done|]. apply (queue_frame m); [|done].
      intros a Ha. unfold m'. rewrite lookup_insert_ne by congruence. done. }
    exists m'. split.
    + pose proof (unlink_skip m' v l2 p (S fuel) Hvn Hc' Hvl ltac:(cbn in Hf; lia)) as <-.
      rewrite (unlink_round m' v p (set_next t (next tv)) fuel Hp Hp').
      * cbn [unlink_loop]. rewrite (task_ok _ _ _ Hp Ht). cbn [mbind outcome_bind]. rewrite Hv, Z.eqb_refl, (task_ok _ _ _ Hvn Htv).
        cbn [mbind outcome_bind]. fold m'. by rewrite (task_ok _ _ _ Hp Hp').
      * cbn [next]. change (next tv <> v). destruct l2 as [|c l2]; cbn [chain] in Hcv; [congruence|].
        destruct Hcv as (-> & _). apply not_elem_of_cons in Hvl as [? _]. congruence.
    + split; [done|]. unfold m'. split; intros q; (destruct (decide (q = p)) as [->|Hq]; [|rewrite lookup_insert_ne by done; auto]).
      * right. apply list_elem_of_here.
      * by rewrite lookup_insert_eq, Ht.
  - pose proof Hc as (Hb & Hbn & tb & Htb & Hcb). cbn [app] in *. apply NoDup_cons in Hn as [Hpl Hn].
    assert (b <> v) as Hbv by (apply NoDup_cons in Hn as [Hbl _]; set_solver).
    assert (next tb <> NULL) as Hnb.
    { destruct l1; cbn [app chain] in Hcb; destruct Hcb as (-> & ? & _); done. }
    destruct (IH b fuel) as (m' & E & Hc' & Hnx & Hrest); [by rewrite Hb in Hc|done|cbn in Hf |- *; lia|].
    exists m'. split.
    + rewrite (unlink_round m v p t fuel Hp Ht) by congruence. rewrite Hb, (proj2 (Z.eqb_neq _ _) Hbn). cbn zeta iota.
      rewrite (task_ok _ _ _ Hbn Htb). cbn [mbind outcome_bind]. by rewrite (proj2 (Z.eqb_neq _ _) Hnb).
    + assert (next <$> m' !! p = next <$> m !! p) as Hnp by (destruct (Hnx p) as [->|Hin]; [done|set_solver]).
      rewrite Ht in Hnp. destruct (m' !! p) as [t'|] eqn:Ht'; [|done]. injection Hnp as Hnp.
      split_and!; [|intros q; destruct (Hnx q); set_solver|done].
      split; [done|]. split; [done|]. exists t'. split; [done|]. by rewrite Hnp, Hb.
Qed.

(** *** Joining the queue *)

Lemma last_task_ok m l : forall p a fuel,
  chain m p (l ++ [a]) -> (length l < fuel)%nat -> last_task fuel m p = Ret a.
Proof.
  induction l as [|b l IH]; intros p a fuel Hc Hf; (destruct fuel as [|fuel]; [lia|]); destruct Hc as (-> & Hn & t & Ht & Hc);
    cbn [last_task]; rewrite (task_ok _ _ _ Hn Ht); cbn [mbind outcome_bind].
  - cbn [chain] in Hc. by rewrite Hc.
  - assert (next t <> NULL) as Hnt by (destruct l; destruct Hc as (-> & ? & _); done).
    rewrite (proj2 (Z.eqb_neq _ _) Hnt). apply IH; [done|cbn in Hf; lia].
Qed.

(** Linking a task behind the last one. *)
Lemma queue_extend m l a ta b tb : forall p,
  chain m p (l ++ [a]) -> NoDup (l ++ [a]) -> (b ∉ l ++ [a]) -> b <> NULL ->
  m !! a = Some ta -> m !! b = Some tb -> next tb = NULL ->
  chain (<[a := set_next ta b]> m) p (l ++ [a; b]).
Proof.
  induction l as [|c l IH]; intros p (-> & Hn & t & Ht & Hc) Hnd Hb Hbn Ha Htb Hnb; cbn [app] in *.
  - split; [done|]. split; [done|]. exists (set_next ta b). rewrite lookup_insert_eq. split; [done|]. split; [done|]. split; [done|].
    exists tb. rewrite lookup_insert_ne by set_solver. done.
  - apply NoDup_cons in Hnd as [Hcl Hnd]. split; [done|]. split; [done|]. exists t. rewrite lookup_insert_ne by set_solver.
    split; [done|]. apply IH; set_solver.
Qed.

Section SwitchProofs.
Context `{ElementAlloc}.

Lemma task_switch_ok s now sp ip ts p l l1 l2 :
  DOTASKSWITCH s <> 0 -> current_task s <> NULL -> is_Some (tasks s !! current_task s) ->
  rep (task_queue s) ts -> head (rotate ts) = Some p -> current_task s <> p ->
  chain (tasks s) (ready_queue s) l -> NoDup l -> l = l1 ++ p :: l2 ->
  exists s' t, _task_switch s now sp ip = Ret (s', esp t) /\
    (forall q, tasks s' !! q = prepared s now sp ip l p q) /\
    tasks s' !! current_task s' = Some t /\
    current_task s' = default (ready_queue s) (first_awake (tasks s') (p :: l2)) /\
    ready_queue s' = ready_queue s /\ chain (tasks s') (ready_queue s) l /\ rep (task_queue s') (rotate ts).
Proof.
  intros Hdo Hcn [c Hc] Hrep Hp Hcp Hch Hnd Hl. unfold _task_switch.
  rewrite (proj2 (Z.eqb_neq _ _) Hdo), (proj2 (Z.eqb_neq _ _) Hcn), (task_ok _ _ _ Hcn Hc). cbn [mbind outcome_bind].
  assert (ts <> []) as Hne by (by intros ->).
  destruct (get_current_task_ok _ ts Hne Hrep) as (r & p' & -> & Hrep' & Hp'). rewrite Hp in Hp'. injection Hp' as <-.
  cbn [mbind outcome_bind]. rewrite (proj2 (Z.eqb_neq _ _) Hcp).
  pose proof Hch as Hat. rewrite Hl in Hat. apply chain_at in Hat as (_ & Hpn & t & Ht & _).
  rewrite (task_ok _ _ t Hpn) by (by rewrite lookup_insert_ne). cbn [mbind outcome_bind].
  change (if priority (if priority t =? PRIO_LOW then set_time t 3 else t) =? PRIO_IDLE
          then set_time (if priority t =? PRIO_LOW then set_time t 3 else t) 1
          else if priority t =? PRIO_LOW then set_time t 3 else t) with (slice t).
  set (m := <[p := slice t]> (<[current_task s := set_regs c sp ip]> (tasks s))).
  assert (forall q, m !! q = let saved := if decide (q = current_task s) then (fun t => set_regs t sp ip) <$> tasks s !! q else tasks s !! q in
                             if decide (q = p) then slice <$> saved else saved) as Hm.
  { intros q. unfold m. cbn zeta. destruct (decide (q = p)) as [->|Hq].
    - rewrite lookup_insert_eq, decide_False, Ht by congruence. done.
    - rewrite lookup_insert_ne by done. destruct (decide (q = current_task s)) as [->|Hq'].
      + rewrite lookup_insert_eq, Hc. done.
      + by rewrite lookup_insert_ne by done. }
  assert (chain m (ready_queue s) l) as Hchm.
  { apply (queue_frame (tasks s)); [|done]. intros a _. rewrite Hm. cbn zeta.
    repeat case_decide; destruct (tasks s !! a); cbn; rewrite ?slice_next; done. }
  destruct (wake_loop_ok now l m (ready_queue s) (S (size m)) Hchm Hnd) as (m' & -> & Hm'); [pose proof (queue_size _ _ _ Hchm Hnd); lia|].
  cbn [mbind outcome_bind].
  assert (chain m' (ready_queue s) l) as Hch'.
  { apply (queue_frame m); [|done]. intros a _. rewrite Hm'. case_decide; destruct (m !! a); cbn; rewrite ?wake_next; done. }
  assert (chain m' p (p :: l2)) as Hat by (rewrite Hl in Hch'; by apply chain_at in Hch').
  assert (length (p :: l2) < S (size m'))%nat as Hlen.
  { pose proof (queue_size _ _ _ Hch' Hnd) as Hsz. rewrite Hl, length_app in Hsz. lia. }
  rewrite (skip_sleeping_ok m' (p :: l2) p _ Hat Hlen). cbn [mbind outcome_bind].
  pose proof Hch' as Hall. rewrite Hl in Hall. destruct (choice_ok _ _ _ _ _ Hall) as (Hq & Hqn & tq & Htq).
  rewrite (task_ok _ _ _ Hqn Htq). cbn [mbind outcome_bind]. eexists _, tq. split; [done|].
  split_and!; cbn [tasks ready_queue current_task task_queue]; try done. intros x. rewrite Hm', !Hm. reflexivity.
Qed.

(** What a switch does to the task [q], which is [t] before and [t'] after it: 1 is a task
    that runs and 2 one that sleeps. *)
Record switched (s : sched) (now sp ip : Z) (l : list ptr) (p q : ptr) (t t' : task_t) : Prop := {
  sw_woken : q ∈ l -> state t = 2 -> wakeup_time t <= now -> state t' = 1 /\ wakeup_time t' = 0;
  sw_kept : (q ∉ l) \/ state t <> 2 \/ now < wakeup_time t -> state t' = state t /\ wakeup_time t' = wakeup_time t;
  sw_saved : q = current_task s -> esp t' = sp /\ eip t' = ip;
  sw_regs : q <> current_task s -> esp t' = esp t /\ eip t' = eip t;
  sw_time : time_to_run t' = if decide (q = p /\ priority t = 1) then 3 else if decide (q = p /\ priority t = 0) then 1 else time_to_run t;
  sw_rest : next t' = next t /\ priority t' = priority t /\ ready_to_run t' = ready_to_run t /\ id_ t' = id_ t /\ privilege t' = privilege t /\
    type t' = type t /\ kernel_stack t' = kernel_stack t /\ syscall_registers t' = syscall_registers t
}.

Lemma prepared_switched s now sp ip l p q t : tasks s !! q = Some t -> exists t', prepared s now sp ip l p q = Some t' /\ switched s now sp ip l p q t t'.
Proof.
  intros Ht. unfold prepared. rewrite Ht.
  exists (let saved := if decide (q = current_task s) then set_regs t sp ip else t in
          let timed := if decide (q = p) then slice saved else saved in if decide (q ∈ l) then wake now timed else timed).
  split; [by destruct (decide (q = current_task s)), (decide (q = p)), (decide (q ∈ l))|].
  unfold wake, slice, TASK_SLEEPING, TASK_RUNNING, PRIO_LOW, PRIO_IDLE.
  destruct (decide (q = current_task s)) as [Hc|Hc], (decide (q = p)) as [Hp|Hp], (decide (q ∈ l)) as [Hl|Hl];
    constructor; intros; repeat case_decide; repeat case_match; simpl in *; naive_solver lia.
Qed.

(** C25: When task switching is on and the next task of the ring is in the ready queue and is
    not the current one, a switch saves the registers of the task that ran, wakes exactly the
    tasks of the ready queue that sleep and whose time has come, and continues with the task
    that is next in the ring or, if that one sleeps, with the first task after it in the
    ready queue that does not.  Only when all of these sleep it falls back to the first task
    of the queue, asleep or not.  The stack returned is the one saved for the chosen task;
    nothing else of a task changes but the time slice of the next task of the ring. *)
Theorem task_switch_picks s now sp ip ts p l l1 l2 :
  DOTASKSWITCH s <> 0 -> current_task s <> NULL -> is_Some (tasks s !! current_task s) ->
  rep (task_queue s) ts -> head (rotate ts) = Some p -> current_task s <> p ->
  chain (tasks s) (ready_queue s) l -> NoDup l -> l = l1 ++ p :: l2 ->
  exists s' t, _task_switch s now sp ip = Ret (s', esp t) /\
    (forall q t0, tasks s !! q = Some t0 -> exists t', tasks s' !! q = Some t' /\ switched s now sp ip l p q t0 t') /\
    tasks s' !! current_task s' = Some t /\
    current_task s' = default (ready_queue s) (first_awake (tasks s') (p :: l2)) /\
    ready_queue s' = ready_queue s /\ chain (tasks s') (ready_queue s) l /\ rep (task_queue s') (rotate ts).
Proof.
  intros Hd Hc Hs Hr Hp Hcp Hch Hn Hl. destruct (task_switch_ok s now sp ip ts p l l1 l2 Hd Hc Hs Hr Hp Hcp Hch Hn Hl) as (s' & t & E & Hm & Hrest).
  exists s', t. split; [done|]. split; [|done]. intros q t0 Hq. rewrite Hm. by apply prepared_switched.
Qed.

(** A task that exits leaves both structures: it is out of the ready queue and of the
    ring (unless it is the only task there), the others keep their order, and of their
    fields only the link of the task in front of it changes. *)
Theorem kexit_leaves s ts h l1 l2 :
  current_task s <> NULL -> rep (task_queue s) ts ->
  chain (tasks s) (ready_queue s) (h :: l1 ++ current_task s :: l2) -> NoDup (h :: l1 ++ current_task s :: l2) ->
  exists s', kexit s = Ret s' /\ chain (tasks s') (ready_queue s') (h :: l1 ++ l2) /\
    rep (task_queue s') (remove_first (current_task s) ts).1 /\ tasks s' !! current_task s = None /\
    (forall q, q <> current_task s -> (fun t => set_next t NULL) <$> tasks s' !! q = (fun t => set_next t NULL) <$> tasks s !! q).
Proof.
  intros Hcn Hrep Hch Hn. pose proof Hch as (Hh & _). destruct (chain_cell _ _ _ (current_task s) Hch) as [_ [c Hc]]; [set_solver|].
  unfold kexit. rewrite (task_ok _ _ _ Hcn Hc). cbn [mbind outcome_bind]. set (m := <[current_task s := set_dead c]> (tasks s)).
  assert (chain m (ready_queue s) (h :: l1 ++ current_task s :: l2)) as Hchm.
  { apply (queue_frame (tasks s)); [|done]. intros a _. unfold m. destruct (decide (a = current_task s)) as [->|Ha].
    - by rewrite lookup_insert_eq, Hc.
    - by rewrite lookup_insert_ne. }
  pose proof (queue_size _ _ _ Hchm Hn) as Hsz. rewrite Hh in *. cbn [length] in Hsz.
  destruct (unlink_found m (current_task s) l2 l1 h (S (size m)) Hchm Hn ltac:(lia)) as (m' & -> & Hc' & _ & Hrest).
  cbn [mbind outcome_bind]. unfold delete_current_task. destruct (ring_list_delete_first_ok _ _ (current_task s) Hrep) as (r & -> & Hr).
  cbn [mbind outcome_bind fmap outcome_fmap fst]. eexists. split; [done|]. cbn [switch_to tasks ready_queue task_queue]. rewrite ?Hh. split_and!; try done.
  - apply (queue_frame m'); [|done]. intros a Ha. rewrite lookup_delete_ne; [done|]. intros <-.
    change (h :: l1 ++ current_task s :: l2) with ((h :: l1) ++ current_task s :: l2) in Hn. apply NoDup_app in Hn as (_ & Hd & [Hl2 _]%NoDup_cons).
    change (h :: l1 ++ l2) with ((h :: l1) ++ l2) in Ha. apply elem_of_app in Ha as [Ha|Ha]; [|done]. apply (Hd _ Ha), list_elem_of_here.
  - apply lookup_delete_eq.
  - intros q Hq. rewrite lookup_delete_ne, Hrest by done. unfold m. by rewrite lookup_insert_ne.
Qed.

(** After an exit the task that is freed is still the current one: the switch that
    follows stores its registers there. *)
Theorem switch_after_kexit s s' now sp ip :
  DOTASKSWITCH s <> 0 -> kexit s = Ret s' -> _task_switch s' now sp ip = Fault.
Proof.
  intros Hdo. unfold kexit. destruct (task (tasks s) (current_task s)) as [c| |] eqn:Ec; [|done..]. cbn [mbind outcome_bind].
  destruct (unlink_loop _ _ _ _) as [m| |]; [|done..]. cbn [mbind outcome_bind]. destruct (delete_current_task _ _) as [r| |]; [|done..].
  intros [= <-]. unfold _task_switch. cbn [switch_to DOTASKSWITCH current_task tasks]. rewrite (proj2 (Z.eqb_neq _ _) Hdo).
  unfold task in *. destruct (current_task s =? NULL); [done|]. by rewrite lookup_delete_eq.
Qed.

(** A task that is created runs from the next turn of the ring on and stands at the end
    of the ready queue, provided that the memory it was made in has a null link: the
    code does not clear it. *)
Theorem new_task_joins s ts l a kx nt entry argc argv priv prio ty stack frame t :
  current_task s <> NULL -> is_Some (tasks s !! current_task s) -> rep (task_queue s) ts ->
  chain (tasks s) (ready_queue s) (l ++ [a]) -> NoDup (l ++ [a]) ->
  nt <> NULL -> nt <> current_task s -> (nt ∉ l ++ [a]) -> tasks s !! nt = Some t -> next t = NULL ->
  exists s', _get_task_stack s kx nt entry argc argv priv prio ty stack frame = Ret s' /\
    chain (tasks s') (ready_queue s') ((l ++ [a]) ++ [nt]) /\ rep (task_queue s') (insert_after ts nt) /\
    tasks s' !! nt = Some (Task NULL TASK_RUNNING (wakeup_time t) prio (time_slice prio) (ready_to_run t) frame entry
                                (pid s) priv ty (u32 (stack + KERNEL_STACK_SIZE)) frame) /\
    frames s' !! frame = Some (initial_frame kx entry argc argv priv ty).
Proof.
  intros Hcn [c Hc] Hrep Hch Hnd Hnn Hnc Hnl Ht Hnt. unfold _get_task_stack. rewrite (task_ok _ _ _ Hcn Hc). cbn [mbind outcome_bind].
  rewrite (task_ok _ nt t Hnn) by (by rewrite lookup_insert_ne). cbn [mbind outcome_bind].
  set (m := <[nt := _]> (<[current_task s := _]> (tasks s))).
  assert (m !! nt = Some (Task (next t) TASK_RUNNING (wakeup_time t) prio (time_slice prio) (ready_to_run t) (esp t) (eip t)
    (id_ t) priv ty (u32 (stack + KERNEL_STACK_SIZE)) (syscall_registers t))) as Hmn by apply lookup_insert_eq.
  assert (chain m (ready_queue s) (l ++ [a])) as Hchm.
  { apply (queue_frame (tasks s)); [|done]. intros b Hb. unfold m. rewrite lookup_insert_ne by congruence.
    destruct (decide (b = current_task s)) as [->|Hbc]; [by rewrite lookup_insert_eq, Hc|by rewrite lookup_insert_ne]. }
  pose proof (queue_size _ _ _ Hchm Hnd) as Hsz. rewrite length_app in Hsz.
  rewrite (last_task_ok m l _ a _ Hchm) by lia. cbn [mbind outcome_bind].
  destruct (chain_cell _ _ _ a Hchm) as [Han [ta Hta]]; [set_solver|]. rewrite (task_ok _ _ _ Han Hta). cbn [mbind outcome_bind].
  pose proof (queue_extend m l a ta nt _ _ Hchm Hnd Hnl Hnn Hta Hmn Hnt) as Hext.
  assert (a <> nt) as Hane by set_solver.
  rewrite (task_ok _ nt _ Hnn (eq_trans (lookup_insert_ne m a nt _ Hane) Hmn)). cbn [mbind outcome_bind].
  unfold insert_current_task. destruct (ring_list_insert_ok _ _ nt Hrep) as (r & -> & Hr). cbn [mbind outcome_bind].
  eexists. split; [done|]. cbn [tasks ready_queue task_queue frames]. split_and!; [|done|by rewrite lookup_insert_eq, <- Hnt|apply lookup_insert_eq].
  rewrite <- app_assoc. apply (queue_frame (<[a := set_next ta nt]> m)); [|done]. intros b _.
  destruct (decide (b = nt)) as [->|Hb]; [|by rewrite lookup_insert_ne]. rewrite lookup_insert_eq, lookup_insert_ne, Hmn by done. done.
Qed.

End SwitchProofs.

(** ** Witnesses: three tasks, of which the second sleeps *)

Definition blank (n st w sp : Z) : task_t := Task n st w PRIO_HIGH 1 0 sp 0 0 0 THREAD 0 0.

Definition demo : sched :=
  Sched {[10 := blank 20 TASK_RUNNING 0 1000; 20 := blank 30 TASK_SLEEPING 500 2000;
          30 := blank NULL TASK_SLEEPING 90 3000; 40 := blank NULL 0 0 0]}
        10 10 three 1 ∅ 2.

Lemma demo_chain : chain (tasks demo) (ready_queue demo) [10; 20; 30].
Proof. by repeat (split; [done|]; split; [done|]; eexists; split; [done|]). Qed.

(** At tick 100 the third task is woken; the next one of the ring sleeps and is stepped over. *)
Lemma task_switch_picks_witness :
  exists s' t, _task_switch demo 100 1111 2222 = Ret (s', esp t) /\ tasks s' !! current_task s' = Some t /\
    current_task s' = default 10 (first_awake (tasks s') [20; 30]) /\
    (exists t', tasks s' !! 30 = Some t' /\ state t' = 1) /\ rep (task_queue s') [20; 30; 10].
Proof.
  destruct (task_switch_picks demo 100 1111 2222 [10; 20; 30] 20 [10; 20; 30] [10] [30]) as (s' & t & E & Hsw & Ht & Hc & _ & _ & Hr); try done.
  - apply three_rep.
  - apply demo_chain.
  - by_decide.
  - exists s', t. split; [exact E|]. split; [exact Ht|]. split; [exact Hc|]. split; [|exact Hr].
    destruct (Hsw 30 (blank NULL TASK_SLEEPING 90 3000) eq_refl) as (t' & Ht' & Hs). exists t'. split; [exact Ht'|].
    apply (sw_woken _ _ _ _ _ _ _ _ _ Hs); [by_decide|reflexivity|discriminate].
Defined.

Definition demo_second : sched := switch_to demo (tasks demo) 20 three.

Lemma kexit_leaves_witness :
  exists s', kexit demo_second = Ret s' /\ chain (tasks s') (ready_queue s') [10; 30] /\
    rep (task_queue s') [10; 30] /\ tasks s' !! 20 = None /\
    (forall q, q <> 20 -> (fun t => set_next t NULL) <$> tasks s' !! q = (fun t => set_next t NULL) <$> tasks demo_second !! q).
Proof. apply (kexit_leaves demo_second [10; 20; 30] 10 [] [30]); [done|apply three_rep|apply demo_chain|by_decide]. Defined.

Lemma switch_after_kexit_witness : exists s', kexit demo_second = Ret s' /\ _task_switch s' 100 0 0 = Fault.
Proof. eexists. split; [vm_compute; reflexivity|]. by apply (switch_after_kexit demo_second). Defined.

Lemma new_task_joins_witness :
  exists s', _get_task_stack demo 9 40 600 0 0 3 PRIO_LOW THREAD 4096 700 = Ret s' /\
    chain (tasks s') (ready_queue s') [10; 20; 30; 40] /\ rep (task_queue s') [10; 40; 20; 30] /\
    tasks s' !! 40 = Some (Task NULL TASK_RUNNING 0 PRIO_LOW 5 0 700 600 2 3 THREAD 8192 700) /\
    frames s' !! 700 = Some (Regs 35 35 35 35 0 0 0 0 0 0 0 0 0 600 27 514 0 35).
Proof.
  apply (new_task_joins demo [10; 20; 30] [10; 20] 30 9 40 600 0 0 3 PRIO_LOW THREAD 4096 700 (blank NULL 0 0 0)); try done.
  - apply three_rep.
  - apply demo_chain.
  - by_decide.
  - by_decide.
Defined.

End Scheduler.
