(* ===== verification/Ata.v ===== *)
(** * The disk driver ([kernel/src/dev/ata.c])

    Sectors are read and written through the ports of the controller; byte ranges are
    put together from sectors.  The controller is hardware: class [Controller] has the
    accesses the driver makes, and class [ControllerOk] what the driver relies on, in terms
    of a view of the drive ([drive]): the registers that hold a sector's number,
    the command that was given, the contents.  The view says what the ATA
    documents say of the ports used here, and leaves open how often a status is busy and
    how often a write goes wrong. *)

From stdpp Require Import base numbers list.
From S2P Require Import Prelude.

Module Ata.

Definition ATA_SECTOR_SIZE : Z := 512.
Definition ATA_SR_BSY : Z := 128.
Definition ATA_SR_DRDY : Z := 64.
Definition ATA_SR_DF : Z := 32.
Definition ATA_SR_DRQ : Z := 8.
Definition ATA_SR_ERR : Z := 1.
Definition ATA_REG_FEATURES : Z := 1.
Definition ATA_REG_SECCOUNT0 : Z := 2.
Definition ATA_REG_LBA0 : Z := 3.
Definition ATA_REG_LBA1 : Z := 4.
Definition ATA_REG_LBA2 : Z := 5.
Definition ATA_REG_HDDEVSEL : Z := 6.
Definition ATA_REG_COMMAND : Z := 7.
Definition ATA_REG_STATUS : Z := 7.
Definition ATA_REG_CONTROL : Z := 12.
Definition ATA_REG_ALTSTATUS : Z := 12.
Definition ATA_CMD_READ_DMA : Z := 200.
Definition ATA_CMD_WRITE_PIO : Z := 48.
Definition ATA_CMD_CACHE_FLUSH : Z := 231.

(** The fields of the device that reading and writing use. *)
Record ata_device := Device {
  io_base : Z; control : Z; slave : Z; is_atapi : Z;
  sectors_28 : Z; sectors_48 : Z; dma_prdt_phys : Z; dma_start : Z; bar4 : Z
}.

(** The accesses to the controller; [dma_bytes] are the 512 bytes of memory that its
    transfers go to.  [patience] bounds how often a status is read. *)
Class Controller (H : Type) := {
  inportb : H -> Z -> Z * H;
  outportb : H -> Z -> Z -> H;
  outportl : H -> Z -> Z -> H;
  outportsm : H -> Z -> list Z -> H;
  dma_bytes : H -> Z -> list Z;
  patience : nat
}.

Section Driver.
Context {H : Type} `{Controller H}.

(** [uint64_t]: the number of bytes of the drive. *)
Definition ata_max_offset (dev : ata_device) : Z :=
  let sectors := sectors_48 dev in
  let sectors := if sectors =? 0 then sectors_28 dev else sectors in
  u64 (sectors * ATA_SECTOR_SIZE).

(** ** Waiting *)

Definition ata_io_wait (dev : ata_device) (h : H) : H :=
  let h := snd (inportb h (io_base dev + ATA_REG_ALTSTATUS)) in
  let h := snd (inportb h (io_base dev + ATA_REG_ALTSTATUS)) in
  let h := snd (inportb h (io_base dev + ATA_REG_ALTSTATUS)) in
  snd (inportb h (io_base dev + ATA_REG_ALTSTATUS)).

(** A loop that reads a port until what it reads satisfies [ready]. *)
Fixpoint poll (fuel : nat) (ready : Z -> bool) (port : Z) (h : H) : outcome (Z * H) :=
  match fuel with
  | O => OutOfFuel
  | S fuel => let '(status, h) := inportb h port in if ready status then Ret (status, h) else poll fuel ready port h
  end.

(** With a timeout the status is read once more than [timeout] says. *)
Fixpoint poll_timeout (todo : nat) (port : Z) (h : H) : Z * H :=
  let '(status, h) := inportb h port in
  match todo with
  | O => (status, h)
  | S todo => if truthy (Z.land status ATA_SR_BSY) then poll_timeout todo port h else (status, h)
  end.

Definition not_busy (status : Z) : bool := negb (truthy (Z.land status ATA_SR_BSY)).

Definition ata_status_wait (dev : ata_device) (timeout : Z) (h : H) : outcome (Z * H) :=
  if 0 <? timeout then Ret (poll_timeout (Z.to_nat timeout) (io_base dev + ATA_REG_STATUS) h)
  else poll patience not_busy (io_base dev + ATA_REG_STATUS) h.

Definition ata_wait (dev : ata_device) (advanced : Z) (h : H) : outcome (Z * H) :=
  let h := ata_io_wait dev h in
  '(_, h) ← ata_status_wait dev (-1) h;
  if truthy advanced then
    let '(status, h) := inportb h (io_base dev + ATA_REG_STATUS) in
    if truthy (Z.land status ATA_SR_ERR) then Ret (1, h)
    else if truthy (Z.land status ATA_SR_DF) then Ret (1, h)
    else if negb (truthy (Z.land status ATA_SR_DRQ)) then Ret (1, h)
    else Ret (0, h)
  else Ret (0, h).

(** ** Sectors *)

(** The number of a sector in the registers. *)
Definition select (dev : ata_device) (lba : Z) : Z :=
  u8 (Z.lor (Z.lor 224 (Z.shiftl (slave dev) 4)) (Z.shiftr (Z.land lba 251658240) 24)).
Definition lba_byte (lba shift : Z) : Z := u8 (Z.shiftr lba shift).

(** The loop that waits for the transfer reads two ports a round. *)
Fixpoint transfer (fuel : nat) (dev : ata_device) (h : H) : outcome H :=
  match fuel with
  | O => OutOfFuel
  | S fuel =>
      let '(status, h) := inportb h (bar4 dev + 2) in
      let '(dstatus, h) := inportb h (io_base dev + ATA_REG_STATUS) in
      if negb (truthy (Z.land status 4)) then transfer fuel dev h
      else if not_busy dstatus then Ret h else transfer fuel dev h
  end.

(** [pos] is where in [buf] the sector goes. *)
Definition ata_device_read_sector (dev : ata_device) (h : H) (lba : Z) (buf : list Z) (pos : Z) : outcome (list Z * H) :=
  let bus := io_base dev in
  if truthy (is_atapi dev) then Ret (buf, h)
  else
    '(_, h) ← ata_wait dev 0 h;
    let h := outportb h (bar4 dev) 0 in
    let h := outportl h (bar4 dev + 4) (dma_prdt_phys dev) in
    let '(st, h) := inportb h (bar4 dev + 2) in
    let h := outportb h (bar4 dev + 2) (Z.lor (Z.lor st 4) 2) in
    let h := outportb h (bar4 dev) 8 in
    '(_, h) ← poll patience not_busy (bus + ATA_REG_STATUS) h;
    let h := outportb h (bus + ATA_REG_CONTROL) 0 in
    let h := outportb h (bus + ATA_REG_HDDEVSEL) (select dev lba) in
    let h := ata_io_wait dev h in
    let h := outportb h (bus + ATA_REG_FEATURES) 0 in
    let h := outportb h (bus + ATA_REG_SECCOUNT0) 1 in
    let h := outportb h (bus + ATA_REG_LBA0) (lba_byte lba 0) in
    let h := outportb h (bus + ATA_REG_LBA1) (lba_byte lba 8) in
    let h := outportb h (bus + ATA_REG_LBA2) (lba_byte lba 16) in
    '(_, h) ← poll patience (fun s => not_busy s && truthy (Z.land s ATA_SR_DRDY)) (bus + ATA_REG_STATUS) h;
    let h := outportb h (bus + ATA_REG_COMMAND) ATA_CMD_READ_DMA in
    let h := ata_io_wait dev h in
    let h := outportb h (bar4 dev) 9 in
    h ← transfer patience dev h;
    buf ← mem_write buf pos (dma_bytes h (dma_start dev));
    let '(st, h) := inportb h (bar4 dev + 2) in
    let h := outportb h (bar4 dev + 2) (Z.lor (Z.lor st 4) 2) in
    Ret (buf, h).

Definition ata_device_write_sector (dev : ata_device) (h : H) (lba : Z) (buf : list Z) (pos : Z) : outcome H :=
  let bus := io_base dev in
  let h := outportb h (bus + ATA_REG_CONTROL) 2 in
  '(_, h) ← ata_wait dev 0 h;
  let h := outportb h (bus + ATA_REG_HDDEVSEL) (select dev lba) in
  '(_, h) ← ata_wait dev 0 h;
  let h := outportb h (bus + ATA_REG_FEATURES) 0 in
  let h := outportb h (bus + ATA_REG_SECCOUNT0) 1 in
  let h := outportb h (bus + ATA_REG_LBA0) (lba_byte lba 0) in
  let h := outportb h (bus + ATA_REG_LBA1) (lba_byte lba 8) in
  let h := outportb h (bus + ATA_REG_LBA2) (lba_byte lba 16) in
  let h := outportb h (bus + ATA_REG_COMMAND) ATA_CMD_WRITE_PIO in
  '(_, h) ← ata_wait dev 0 h;
  bytes ← mem_read buf pos ATA_SECTOR_SIZE;
  let h := outportsm h bus bytes in
  let h := outportb h (bus + 7) ATA_CMD_CACHE_FLUSH in
  '(_, h) ← ata_wait dev 0 h;
  Ret h.

(** [buffer_compare] on two sectors, word by word. *)
Fixpoint compare_words (words : nat) (a b : list Z) : outcome Z :=
  match words with
  | O => Ret 0
  | S words =>
      match a, b with
      | a0 :: a1 :: a2 :: a3 :: a', b0 :: b1 :: b2 :: b3 :: b' =>
          if bool_decide ([a0; a1; a2; a3] = [b0; b1; b2; b3]) then compare_words words a' b' else Ret 1
      | _, _ => Fault
      end
  end.
Definition buffer_compare (a b : list Z) (size : Z) : outcome Z := compare_words (Z.to_nat (size / 4)) a b.

(** The loop of [ata_device_write_sector_retry]: write until the sector reads back. *)
Fixpoint retry (fuel : nat) (dev : ata_device) (h : H) (lba : Z) (buf : list Z) (pos : Z) (read_buf : list Z) : outcome H :=
  match fuel with
  | O => OutOfFuel
  | S fuel =>
      h ← ata_device_write_sector dev h lba buf pos;
      '(read_buf, h) ← ata_device_read_sector dev h lba read_buf 0;
      bytes ← mem_read buf pos ATA_SECTOR_SIZE;
      different ← buffer_compare bytes read_buf ATA_SECTOR_SIZE;
      if truthy different then retry fuel dev h lba buf pos read_buf else Ret h
  end.

(** [tmp] is what [malloc] returns. *)
Definition ata_device_write_sector_retry (dev : ata_device) (h : H) (lba : Z) (buf : list Z) (pos : Z) (tmp : list Z) : outcome H :=
  retry (S patience) dev h lba buf pos tmp.

(** ** Byte ranges *)

(** [while (start_block <= end_block)] over whole sectors; [fuel] counts sectors. *)
Fixpoint read_sectors (fuel : nat) (dev : ata_device) (h : H) (start_block end_block : Z) (buffer : list Z) (x_offset : Z)
    : outcome (list Z * H) :=
  if end_block <? start_block then Ret (buffer, h)
  else match fuel with
       | O => OutOfFuel
       | S fuel =>
           '(buffer, h) ← ata_device_read_sector dev h start_block buffer x_offset;
           read_sectors fuel dev h (u32 (start_block + 1)) end_block buffer (u32 (x_offset + ATA_SECTOR_SIZE))
       end.

(** The first sector, when the range starts inside it: what is copied does not depend on
    the size. *)
Definition read_prefix (dev : ata_device) (h : H) (offset start_block : Z) (buffer tmp : list Z) : outcome (list Z * H * Z * Z) :=
  if truthy (offset mod ATA_SECTOR_SIZE) then
    let prefix_size := ATA_SECTOR_SIZE - offset mod ATA_SECTOR_SIZE in
    '(tmp, h) ← ata_device_read_sector dev h start_block tmp 0;
    bytes ← mem_read tmp (offset mod ATA_SECTOR_SIZE) prefix_size;
    buffer ← mem_write buffer 0 bytes;
    Ret (buffer, h, start_block + 1, prefix_size)
  else Ret (buffer, h, start_block, 0).

(** The last sector, when the range ends inside it. *)
Definition read_postfix (dev : ata_device) (h : H) (offset size start_block end_block : Z) (buffer tmp : list Z) : outcome (list Z * H * Z) :=
  if truthy (u32 (offset + size) mod ATA_SECTOR_SIZE) && (start_block <=? end_block) then
    let postfix_size := u32 (offset + size) mod ATA_SECTOR_SIZE in
    '(tmp, h) ← ata_device_read_sector dev h end_block tmp 0;
    bytes ← mem_read tmp 0 postfix_size;
    buffer ← mem_write buffer (size - postfix_size) bytes;
    Ret (buffer, h, u32 (end_block - 1))
  else Ret (buffer, h, end_block).

(** The last block is computed before the size is cut to the end of the drive. *)
Definition read_ata (dev : ata_device) (h : H) (offset size : Z) (buffer tmp : list Z) : outcome (Z * list Z * H) :=
  let start_block := offset / ATA_SECTOR_SIZE in
  let end_block := u32 (offset + size - 1) / ATA_SECTOR_SIZE in
  if ata_max_offset dev <? offset then Ret (0, buffer, h)
  else
    let size := if ata_max_offset dev <? u32 (offset + size) then u32 (ata_max_offset dev - offset) else size in
    '(buffer, h, start_block, x_offset) ← read_prefix dev h offset start_block buffer tmp;
    '(buffer, h, end_block) ← read_postfix dev h offset size start_block end_block buffer tmp;
    '(buffer, h) ← read_sectors (S (length buffer)) dev h start_block end_block buffer x_offset;
    Ret (size, buffer, h).

Fixpoint write_sectors (fuel : nat) (dev : ata_device) (h : H) (start_block end_block : Z) (buffer : list Z) (x_offset : Z) (tmp : list Z)
    : outcome H :=
  if end_block <? start_block then Ret h
  else match fuel with
       | O => OutOfFuel
       | S fuel =>
           h ← ata_device_write_sector_retry dev h start_block buffer x_offset tmp;
           write_sectors fuel dev h (u32 (start_block + 1)) end_block buffer (u32 (x_offset + ATA_SECTOR_SIZE)) tmp
       end.

Definition write_prefix (dev : ata_device) (h : H) (offset start_block : Z) (buffer tmp : list Z) : outcome (H * Z * Z) :=
  if truthy (offset mod ATA_SECTOR_SIZE) then
    let prefix_size := ATA_SECTOR_SIZE - offset mod ATA_SECTOR_SIZE in
    '(sector, h) ← ata_device_read_sector dev h start_block tmp 0;
    bytes ← mem_read buffer 0 prefix_size;
    sector ← mem_write sector (offset mod ATA_SECTOR_SIZE) bytes;
    h ← ata_device_write_sector_retry dev h start_block sector 0 tmp;
    Ret (h, start_block + 1, prefix_size)
  else Ret (h, start_block, 0).

Definition write_postfix (dev : ata_device) (h : H) (offset size start_block end_block : Z) (buffer tmp : list Z) : outcome (H * Z) :=
  if truthy (u32 (offset + size) mod ATA_SECTOR_SIZE) && (start_block <=? end_block) then
    let postfix_size := u32 (offset + size) mod ATA_SECTOR_SIZE in
    '(sector, h) ← ata_device_read_sector dev h end_block tmp 0;
    bytes ← mem_read buffer (size - postfix_size) postfix_size;
    sector ← mem_write sector 0 bytes;
    h ← ata_device_write_sector_retry dev h end_block sector 0 tmp;
    Ret (h, u32 (end_block - 1))
  else Ret (h, end_block).

Definition write_ata (dev : ata_device) (h : H) (offset size : Z) (buffer tmp : list Z) : outcome (Z * H) :=
  let start_block := offset / ATA_SECTOR_SIZE in
  let end_block := u32 (offset + size - 1) / ATA_SECTOR_SIZE in
  if ata_max_offset dev <? offset then Ret (0, h)
  else
    let size := if ata_max_offset dev <? u32 (offset + size) then u32 (ata_max_offset dev - offset) else size in
    '(h, start_block, x_offset) ← write_prefix dev h offset start_block buffer tmp;
    '(h, end_block) ← write_postfix dev h offset size start_block end_block buffer tmp;
    h ← write_sectors (S (length buffer)) dev h start_block end_block buffer x_offset tmp;
    Ret (size, h).

End Driver.

(** ** What the driver relies on *)

Inductive command := Idle | ReadDma | WritePio.

(** [image] is the contents of the drive, byte by byte; the next [bad_writes] sectors that
    are written are stored wrongly. *)
Record drive := Drive {
  image : Z -> Z; sel : Z; lba0 : Z; lba1 : Z; lba2 : Z; cmd : command; prdt : Z; dma : list Z; bad_writes : nat
}.

Definition sector (img : Z -> Z) (lba : Z) : list Z := (fun j => img (ATA_SECTOR_SIZE * lba + j)) <$> seqZ 0 ATA_SECTOR_SIZE.

Definition addressed (d : drive) : Z := (sel d mod 16) * 16777216 + lba2 d * 65536 + lba1 d * 256 + lba0 d.
Definition selected (dev : ata_device) (d : drive) : bool := Bool.eqb (Z.testbit (sel d) 4) (truthy (slave dev)).

(** Replacing one sector. *)
Definition store (img : Z -> Z) (lba : Z) (bytes : list Z) : Z -> Z := fun i =>
  if (ATA_SECTOR_SIZE * lba <=? i) && (i <? ATA_SECTOR_SIZE * lba + ATA_SECTOR_SIZE)
  then default 0 (bytes !! Z.to_nat (i - ATA_SECTOR_SIZE * lba)) else img i.

(** A write to a port, where the drive takes notice of it. *)
Definition drive_out (dev : ata_device) (d : drive) (port v : Z) : drive :=
  let '(Drive img s l0 l1 l2 c pr dm bad) := d in
  if port =? io_base dev + ATA_REG_HDDEVSEL then Drive img v l0 l1 l2 c pr dm bad
  else if port =? io_base dev + ATA_REG_LBA0 then Drive img s v l1 l2 c pr dm bad
  else if port =? io_base dev + ATA_REG_LBA1 then Drive img s l0 v l2 c pr dm bad
  else if port =? io_base dev + ATA_REG_LBA2 then Drive img s l0 l1 v c pr dm bad
  else if port =? io_base dev + ATA_REG_COMMAND then
    Drive img s l0 l1 l2 (if v =? ATA_CMD_READ_DMA then ReadDma else if v =? ATA_CMD_WRITE_PIO then WritePio else Idle) pr dm bad
  else if port =? bar4 dev then
    match c with
    | ReadDma =>
        if Z.testbit v 0 && selected dev d && (pr =? dma_prdt_phys dev)
        then Drive img s l0 l1 l2 Idle pr (sector img (addressed d)) bad else d
    | _ => d
    end
  else d.

(** The words of a sector, after the command to write one. *)
Definition drive_data (dev : ata_device) (d : drive) (bytes wrong : list Z) : drive :=
  let '(Drive img s l0 l1 l2 c pr dm bad) := d in
  match c with
  | WritePio =>
      if selected dev d then
        match bad with
        | O => Drive (store img (addressed d) bytes) s l0 l1 l2 Idle pr dm O
        | S bad => Drive (store img (addressed d) wrong) s l0 l1 l2 Idle pr dm bad
        end
      else d
  | _ => d
  end.

Class ControllerOk (dev : ata_device) (H : Type) `{Controller H} := {
  view : H -> drive;
  wrong : H -> list Z;
  view_in h p : view (snd (inportb h p)) = view h;
  view_out h p v : view (outportb h p v) = drive_out dev (view h) p v;
  view_prdt h v : view (outportl h (bar4 dev + 4) v) =
    let '(Drive img s l0 l1 l2 c _ dm bad) := view h in Drive img s l0 l1 l2 c v dm bad;
  view_data h bytes : view (outportsm h (io_base dev) bytes) = drive_data dev (view h) bytes (wrong h);
  view_dma h : dma_bytes h (dma_start dev) = dma (view h);
  status_settles h : exists st h',
    poll patience (fun s => not_busy s && truthy (Z.land s ATA_SR_DRDY)) (io_base dev + ATA_REG_STATUS) h = Ret (st, h');
  transfer_ends h : exists h', transfer patience dev h = Ret h';
  few_errors h : (bad_writes (view h) <= patience)%nat
}.

(** The ports of the bus master are not those of the drive; a disk, not a CD-ROM. *)
Record proper (dev : ata_device) : Prop := {
  pr_ports : io_base dev + 16 <= bar4 dev;
  pr_slave : slave dev = 0 \/ slave dev = 1;
  pr_disk : is_atapi dev = 0
}.

Section DriverProofs.
Context {H : Type} `{C : Controller H} (dev : ata_device) `{!ControllerOk dev H} (Hdev : proper dev).

Lemma poll_view ready port : forall fuel h st h', poll fuel ready port h = Ret (st, h') -> view h' = view h.
Proof.
  induction fuel as [|fuel IH]; intros h st h'; cbn [poll]; [done|]. pose proof (view_in h port) as Hv.
  destruct (inportb h port) as [s h1]. cbn [snd] in Hv. destruct (ready s); [by intros [= _ <-]|]. intros E. rewrite <- Hv. by eapply IH.
Qed.

(** A weaker condition is met no later. *)
Lemma poll_weaken (r1 r2 : Z -> bool) port : (forall s, r1 s = true -> r2 s = true) ->
  forall fuel h st h', poll fuel r1 port h = Ret (st, h') -> exists st2 h2, poll fuel r2 port h = Ret (st2, h2).
Proof.
  intros Hr. induction fuel as [|fuel IH]; intros h st h'; cbn [poll]; [done|]. destruct (inportb h port) as [s h1].
  destruct (r1 s) eqn:E1; [rewrite (Hr _ E1); eauto|]. intros E. destruct (r2 s); [eauto|by eapply IH].
Qed.

Lemma poll_ready h : exists st h',
  poll patience (fun s => not_busy s && truthy (Z.land s ATA_SR_DRDY)) (io_base dev + ATA_REG_STATUS) h = Ret (st, h') /\ view h' = view h.
Proof. destruct (status_settles h) as (st & h' & E). exists st, h'. split; [done|by eapply poll_view]. Qed.

Lemma poll_not_busy h : exists st h',
  poll patience not_busy (io_base dev + ATA_REG_STATUS) h = Ret (st, h') /\ view h' = view h.
Proof.
  destruct (status_settles h) as (st & h' & E). apply (poll_weaken _ not_busy) in E as (st2 & h2 & E2); [|by intros s [? _]%andb_true_iff].
  exists st2, h2. split; [done|by eapply poll_view].
Qed.

Lemma ata_io_wait_view h : view (ata_io_wait dev h) = view h.
Proof. unfold ata_io_wait. by rewrite !view_in. Qed.

Lemma ata_wait_ok h : exists v h', ata_wait dev 0 h = Ret (v, h') /\ view h' = view h.
Proof.
  unfold ata_wait, ata_status_wait. change (0 <? -1) with false. destruct (poll_not_busy (ata_io_wait dev h)) as (st & h' & -> & Hv).
  exists 0, h'. by rewrite Hv, ata_io_wait_view.
Qed.

Lemma transfer_view : forall fuel h h', transfer fuel dev h = Ret h' -> view h' = view h.
Proof.
  induction fuel as [|fuel IH]; intros h h'; cbn [transfer]; [done|]. pose proof (view_in h (bar4 dev + 2)) as H1.
  destruct (inportb h (bar4 dev + 2)) as [s h1]. pose proof (view_in h1 (io_base dev + ATA_REG_STATUS)) as H2.
  destruct (inportb h1 (io_base dev + ATA_REG_STATUS)) as [s2 h2]. cbn [snd] in *.
  destruct (negb _); [intros E%IH; congruence|]. destruct (not_busy s2); [intros [= <-]; congruence|intros E%IH; congruence].
Qed.

(** *** The number of a sector *)

Lemma select_bits lba : 0 <= lba < 268435456 ->
  select dev lba mod 16 = lba / 16777216 /\ Z.testbit (select dev lba) 4 = truthy (slave dev).
Proof.
  intros Hl. unfold select. rewrite Z.shiftr_land. change (Z.shiftr 251658240 24) with (Z.ones 4).
  rewrite Z.land_ones, Z.shiftr_div_pow2 by lia. change (2 ^ 24) with 16777216. change (2 ^ 4) with 16.
  assert (0 <= lba / 16777216 < 16) as Hx by (Z.to_euclidean_division_equations; lia). rewrite (Z.mod_small (lba / 16777216)) by lia. set (x := lba / 16777216) in *.
  assert (forall s, (s = 0 \/ s = 1) -> forall x, 0 <= x < 16 ->
    (u8 (Z.lor (Z.lor 224 (Z.shiftl s 4)) x) mod 16 =? x) && Bool.eqb (Z.testbit (u8 (Z.lor (Z.lor 224 (Z.shiftl s 4)) x)) 4) (truthy s) = true) as Hall.
  { intros s [->| ->]; apply forall_range; vm_compute; reflexivity. }
  specialize (Hall (slave dev) (pr_slave _ Hdev) x Hx). apply andb_true_iff in Hall as [H1%Z.eqb_eq H2%eqb_prop]. done.
Qed.

Lemma lba_split lba : 0 <= lba < 268435456 ->
  lba / 16777216 * 16777216 + lba_byte lba 16 * 65536 + lba_byte lba 8 * 256 + lba_byte lba 0 = lba.
Proof.
  intros Hl. unfold lba_byte, u8. rewrite !Z.shiftr_div_pow2 by lia. change (2 ^ 16) with 65536. change (2 ^ 8) with 256. change (2 ^ 0) with 1.
  rewrite Z.div_1_r. Z.to_euclidean_division_equations. lia.
Qed.

(** *** One port at a time *)

Ltac port := destruct Hdev; cbv [drive_out ATA_REG_HDDEVSEL ATA_REG_LBA0 ATA_REG_LBA1 ATA_REG_LBA2 ATA_REG_COMMAND
    ATA_REG_CONTROL ATA_REG_FEATURES ATA_REG_SECCOUNT0];
  repeat match goal with |- context [?a =? ?b] => destruct (Z.eqb_spec a b); try lia end; try done.

Section Ports.
Context (img : Z -> Z) (s l0 l1 l2 : Z) (c : command) (pr : Z) (dm : list Z) (bad : nat).
Let d := Drive img s l0 l1 l2 c pr dm bad.

Lemma out_sel v : drive_out dev d (io_base dev + ATA_REG_HDDEVSEL) v = Drive img v l0 l1 l2 c pr dm bad.
Proof. unfold d. port. Qed.
Lemma out_lba0 v : drive_out dev d (io_base dev + ATA_REG_LBA0) v = Drive img s v l1 l2 c pr dm bad.
Proof. unfold d. port. Qed.
Lemma out_lba1 v : drive_out dev d (io_base dev + ATA_REG_LBA1) v = Drive img s l0 v l2 c pr dm bad.
Proof. unfold d. port. Qed.
Lemma out_lba2 v : drive_out dev d (io_base dev + ATA_REG_LBA2) v = Drive img s l0 l1 v c pr dm bad.
Proof. unfold d. port. Qed.
Lemma out_command v : drive_out dev d (io_base dev + ATA_REG_COMMAND) v =
  Drive img s l0 l1 l2 (if v =? ATA_CMD_READ_DMA then ReadDma else if v =? ATA_CMD_WRITE_PIO then WritePio else Idle) pr dm bad.
Proof. unfold d. port. Qed.
Lemma out_flush : drive_out dev d (io_base dev + 7) ATA_CMD_CACHE_FLUSH = Drive img s l0 l1 l2 Idle pr dm bad.
Proof. apply out_command. Qed.
Lemma out_control v : drive_out dev d (io_base dev + ATA_REG_CONTROL) v = d.
Proof. unfold d. port. Qed.
Lemma out_features v : drive_out dev d (io_base dev + ATA_REG_FEATURES) v = d.
Proof. unfold d. port. Qed.
Lemma out_count v : drive_out dev d (io_base dev + ATA_REG_SECCOUNT0) v = d.
Proof. unfold d. port. Qed.
Lemma out_bm_status v : drive_out dev d (bar4 dev + 2) v = d.
Proof. unfold d. port. Qed.
Lemma out_bm_off v : Z.testbit v 0 = false -> drive_out dev d (bar4 dev) v = d.
Proof. intros Hv. unfold d. port; destruct c; rewrite ?Hv; done. Qed.

End Ports.

(** Starting the transfer. *)
Lemma out_start img s l0 l1 l2 pr dm bad lba :
  Z.testbit s 4 = truthy (slave dev) -> pr = dma_prdt_phys dev ->
  s mod 16 * 16777216 + l2 * 65536 + l1 * 256 + l0 = lba ->
  drive_out dev (Drive img s l0 l1 l2 ReadDma pr dm bad) (bar4 dev) 9 = Drive img s l0 l1 l2 Idle pr (sector img lba) bad.
Proof.
  intros Hs -> Hl. assert (selected dev (Drive img s l0 l1 l2 ReadDma (dma_prdt_phys dev) dm bad) = true) as Hsel.
  { unfold selected. cbn [sel]. rewrite Hs. apply eqb_reflx. }
  port. cbn [Z.testbit andb]. change (Z.testbit 9 0) with true. rewrite Hsel. cbn [andb]. unfold addressed. cbn. by rewrite Hl.
Qed.

Lemma sector_length img lba : length (sector img lba) = 512%nat.
Proof. unfold sector. rewrite length_fmap, length_seqZ. done. Qed.

(** Stepping over accesses that leave the view alone. *)
Ltac step_in E := match goal with |- context [inportb ?x ?p] =>
  pose proof (view_in x p) as E; destruct (inportb x p) as [? ?]; cbn [snd] in E end.
Ltac step_wait E := match goal with
  | |- context [ata_wait dev 0 ?x] => destruct (ata_wait_ok x) as (? & ? & -> & E)
  | |- context [poll patience not_busy _ ?x] => destruct (poll_not_busy x) as (? & ? & -> & E)
  | |- context [poll patience _ _ ?x] => destruct (poll_ready x) as (? & ? & -> & E)
  end; cbn [mbind outcome_bind]; cbn zeta.

(** Reading a sector is one copy of it into the buffer. *)
Lemma ata_device_read_sector_eq h lba buf pos :
  0 <= lba < 268435456 ->
  exists h', ata_device_read_sector dev h lba buf pos = (buf' ← mem_write buf pos (sector (image (view h)) lba); Ret (buf', h')) /\
    image (view h') = image (view h) /\ bad_writes (view h') = bad_writes (view h).
Proof.
  intros Hl. destruct (select_bits lba Hl) as [Hmod Hbit]. pose proof (lba_split lba Hl) as Hsplit. rewrite <- Hmod in Hsplit.
  unfold ata_device_read_sector. rewrite (pr_disk _ Hdev). change (truthy 0) with false. cbn iota zeta.
  step_wait E1. destruct (view h) as [img s l0 l1 l2 c pr dm bad]. cbn [image bad_writes].
  step_in E2. rewrite view_prdt, view_out, E1, out_bm_off in E2 by reflexivity.
  step_wait E3. rewrite !view_out, E2, out_bm_status, out_bm_off in E3 by reflexivity.
  step_wait E4. rewrite !view_out, ata_io_wait_view, !view_out, E3, out_control, out_sel, out_features, out_count, out_lba0, out_lba1, out_lba2 in E4.
  match goal with |- context [transfer patience dev ?x] => destruct (transfer_ends x) as [h5 E5]; pose proof (transfer_view _ _ _ E5) as V5; rewrite E5 end.
  cbn [mbind outcome_bind]. rewrite view_out, ata_io_wait_view, view_out, E4, out_command, Z.eqb_refl in V5.
  rewrite (out_start _ _ _ _ _ _ _ _ lba) in V5 by done. rewrite view_dma, V5. cbn [dma].
  step_in E6. eexists. split; [done|]. by rewrite view_out, E6, V5, out_bm_status.
Qed.

Lemma ata_device_read_sector_ok h lba buf pos :
  0 <= lba < 268435456 -> 0 <= pos -> pos + ATA_SECTOR_SIZE <= Z.of_nat (length buf) ->
  exists buf' h', ata_device_read_sector dev h lba buf pos = Ret (buf', h') /\
    mem_write buf pos (sector (image (view h)) lba) = Ret buf' /\
    image (view h') = image (view h) /\ bad_writes (view h') = bad_writes (view h).
Proof.
  intros Hl Hp Hb. destruct (ata_device_read_sector_eq h lba buf pos Hl) as (h' & -> & Hv).
  destruct (mem_write_ok buf pos (sector (image (view h)) lba)) as (buf' & -> & _); [done|by rewrite sector_length|]. by exists buf', h'.
Qed.

Lemma ata_device_write_sector_ok h lba buf pos bytes :
  0 <= lba < 268435456 -> mem_read buf pos ATA_SECTOR_SIZE = Ret bytes ->
  exists h' w, ata_device_write_sector dev h lba buf pos = Ret h' /\
    match bad_writes (view h) with
    | O => image (view h') = store (image (view h)) lba bytes /\ bad_writes (view h') = O
    | S bad => image (view h') = store (image (view h)) lba w /\ bad_writes (view h') = bad
    end.
Proof.
  intros Hl Hr. destruct (select_bits lba Hl) as [Hmod Hbit]. pose proof (lba_split lba Hl) as Hsplit. rewrite <- Hmod in Hsplit.
  unfold ata_device_write_sector. cbn zeta. step_wait E1. rewrite view_out in E1. destruct (view h) as [img s l0 l1 l2 c pr dm bad].
  rewrite out_control in E1. step_wait E2. rewrite view_out, E1, out_sel in E2.
  step_wait E3. rewrite !view_out, E2, out_features, out_count, out_lba0, out_lba1, out_lba2, out_command in E3.
  change (ATA_CMD_WRITE_PIO =? ATA_CMD_READ_DMA) with false in E3. rewrite Z.eqb_refl in E3. rewrite Hr. cbn [mbind outcome_bind].
  match goal with |- context [outportsm ?x _ _] => set (hd := x) in * end.
  step_wait E4. rewrite view_out, view_data, E3 in E4. eexists _, (wrong hd). split; [done|]. cbn [bad_writes image].
  assert (forall cm, selected dev (Drive img (select dev lba) (lba_byte lba 0) (lba_byte lba 8) (lba_byte lba 16) cm pr dm bad) = true) as Hsel.
  { intros cm. unfold selected. cbn [sel]. rewrite Hbit. apply eqb_reflx. }
  unfold drive_data in E4. rewrite Hsel in E4. unfold addressed in E4. cbn [sel lba0 lba1 lba2] in E4. rewrite Hsplit in E4.
  destruct bad as [|bad]; rewrite out_flush in E4; by rewrite E4.
Qed.

Lemma compare_words_spec : forall n a b, length a = (4 * n)%nat -> length b = (4 * n)%nat ->
  compare_words n a b = Ret (if bool_decide (a = b) then 0 else 1).
Proof.
  induction n as [|n IH]; intros a b Ha Hb; [destruct a, b; done|].
  destruct a as [|a0 [|a1 [|a2 [|a3 a]]]]; cbn in Ha; try lia. destruct b as [|b0 [|b1 [|b2 [|b3 b]]]]; cbn in Hb; try lia.
  cbn [compare_words]. case_bool_decide as E1; case_bool_decide as E2; try congruence; rewrite IH by lia.
  - injection E2 as _ _ _ _ ->. by rewrite bool_decide_eq_true_2.
  - rewrite bool_decide_eq_false_2; [done|]. intros ->. congruence.
Qed.

Lemma sector_lookup img lba j : 0 <= j < 512 -> sector img lba !! Z.to_nat j = Some (img (512 * lba + j)).
Proof.
  intros Hj. unfold sector, ATA_SECTOR_SIZE. rewrite list_lookup_fmap, (lookup_seqZ_lt 0 512 (Z.to_nat j)) by lia. cbn. do 2 f_equal. lia.
Qed.

(** Images are compared byte by byte. *)
Definition same (f g : Z -> Z) : Prop := forall i, 0 <= i -> f i = g i.

Lemma sector_same f g lba : 0 <= lba -> same f g -> sector f lba = sector g lba.
Proof.
  intros Hl Hs. apply list_fmap_ext. intros k j Hj. apply Hs. apply lookup_seqZ in Hj. unfold ATA_SECTOR_SIZE. lia.
Qed.

Lemma sector_store img lba bytes : length bytes = 512%nat -> sector (store img lba bytes) lba = bytes.
Proof.
  intros Hb. apply list_eq_same_length with 512%nat; [done|apply sector_length|]. intros i x y Hi Hx Hy.
  rewrite <- (Nat2Z.id i), sector_lookup in Hx by lia. injection Hx as <-. unfold store, ATA_SECTOR_SIZE.
  rewrite (proj2 (Z.leb_le _ _)), (proj2 (Z.ltb_lt _ _)) by lia. cbn [andb].
  replace (Z.to_nat (512 * lba + Z.of_nat i - 512 * lba)) with i by lia. by rewrite Hy.
Qed.

(** A sector that reads as [bytes] is as good as one just stored. *)
Lemma store_twice img lba w bytes : sector (store img lba w) lba = bytes -> same (store img lba w) (store img lba bytes).
Proof.
  intros <- i Hi. unfold store at 1 2. destruct (_ && _) eqn:E; [|done]. apply andb_true_iff in E as [E1%Z.leb_le E2%Z.ltb_lt].
  unfold ATA_SECTOR_SIZE in *. rewrite sector_lookup by lia. cbn. unfold store, ATA_SECTOR_SIZE.
  replace (512 * lba + (i - 512 * lba)) with i by lia. by rewrite (proj2 (Z.leb_le _ _) E1), (proj2 (Z.ltb_lt _ _) E2).
Qed.

Lemma store_over img img' lba w bytes : same img' (store img lba w) -> same (store img' lba bytes) (store img lba bytes).
Proof. intros Hs i Hi. specialize (Hs i Hi). unfold store in *. by destruct (_ && _). Qed.

Lemma store_same f g lba bytes : same f g -> same (store f lba bytes) (store g lba bytes).
Proof. intros Hs i Hi. unfold store. destruct (_ && _); [done|by apply Hs]. Qed.

Lemma mem_write_whole buf bytes : length buf = 512%nat -> length bytes = 512%nat -> mem_write buf 0 bytes = Ret bytes.
Proof. intros Hb Hl. apply mem_write_all. lia. Qed.

Lemma retry_ok lba buf pos bytes : forall bad fuel h tmp,
  0 <= lba < 268435456 -> mem_read buf pos ATA_SECTOR_SIZE = Ret bytes -> length bytes = 512%nat -> length tmp = 512%nat ->
  bad_writes (view h) = bad -> (bad < fuel)%nat ->
  exists h', retry fuel dev h lba buf pos tmp = Ret h' /\ same (image (view h')) (store (image (view h)) lba bytes).
Proof.
  induction bad as [|bad IH]; intros fuel h tmp Hl Hr Hb Ht Hbad Hf; (destruct fuel as [|fuel]; [lia|]); cbn [retry];
    destruct (ata_device_write_sector_ok h lba buf pos bytes Hl Hr) as (h1 & w & -> & Hw); cbn [mbind outcome_bind];
    rewrite Hbad in Hw; destruct Hw as [Hw1 Hw2];
    destruct (ata_device_read_sector_ok h1 lba tmp 0) as (buf2 & h2 & -> & Hm & Hv & Hv2);
    [done|lia|unfold ATA_SECTOR_SIZE; lia| |done|lia|unfold ATA_SECTOR_SIZE; lia|]; cbn [mbind outcome_bind];
    rewrite mem_write_whole in Hm by (done || apply sector_length); injection Hm as <-; rewrite Hr; cbn [mbind outcome_bind];
    unfold buffer_compare; change (Z.to_nat (ATA_SECTOR_SIZE / 4)) with 128%nat; rewrite compare_words_spec by (done || apply sector_length);
    cbn [mbind outcome_bind]; rewrite Hw1 in *; case_bool_decide as E; change (truthy 0) with false; change (truthy 1) with true; cbn iota.
  - exists h2. split; [done|]. rewrite Hv. done.
  - by rewrite sector_store in E.
  - exists h2. split; [done|]. rewrite Hv. by apply store_twice.
  - destruct (IH fuel h2 (sector (store (image (view h)) lba w) lba)) as (h' & E' & Hs); [done|done|done|apply sector_length|lia|lia|].
    exists h'. split; [done|]. rewrite Hv in Hs. intros i Hi. rewrite Hs by done. by apply (store_over (image (view h)) _ lba w).
Qed.

(** The sector is stored in the end, however often the drive gets it wrong. *)
Lemma write_sector_retry_ok h lba buf pos bytes tmp :
  0 <= lba < 268435456 -> mem_read buf pos ATA_SECTOR_SIZE = Ret bytes -> length tmp = 512%nat ->
  exists h', ata_device_write_sector_retry dev h lba buf pos tmp = Ret h' /\ same (image (view h')) (store (image (view h)) lba bytes).
Proof.
  intros Hl Hr Ht. pose proof (few_errors h). apply (retry_ok lba buf pos bytes (bad_writes (view h))); try done; [|lia].
  unfold mem_read in Hr. destruct (_ && _ && _) eqn:E; [|done]. injection Hr as <-. apply andb_true_iff in E as [E E3%Z.leb_le].
  apply andb_true_iff in E as [E1%Z.leb_le _]. unfold ATA_SECTOR_SIZE in *. rewrite length_take, length_drop. lia.
Qed.

(** *** Reading a range *)

(** The part of the buffer from [lo] to [hi] holds the bytes of the drive from [off] on. *)
Record filled (img : Z -> Z) (off lo hi : Z) (buf buf' : list Z) : Prop := {
  fl_length : length buf' = length buf;
  fl_bytes p : 0 <= p -> buf' !! Z.to_nat p = if (lo <=? p) && (p <? hi) then Some (img (off + p)) else buf !! Z.to_nat p
}.

Lemma filled_two img off lo mid hi b1 b2 b3 :
  lo <= mid -> mid <= hi -> filled img off lo mid b1 b2 -> filled img off mid hi b2 b3 -> filled img off lo hi b1 b3.
Proof.
  intros H1 H2 [Hl1 Hb1] [Hl2 Hb2]. split; [congruence|]. intros p Hp. rewrite Hb2, Hb1 by done. zcases; cbn [andb]; done || lia.
Qed.

Lemma filled_swap img off lo mid hi b1 b2 b3 :
  lo <= mid -> mid <= hi -> filled img off mid hi b1 b2 -> filled img off lo mid b2 b3 -> filled img off lo hi b1 b3.
Proof.
  intros H1 H2 [Hl1 Hb1] [Hl2 Hb2]. split; [congruence|]. intros p Hp. rewrite Hb2, Hb1 by done. zcases; cbn [andb]; done || lia.
Qed.

Lemma filled_none img off lo b : filled img off lo lo b b.
Proof. split; [done|]. intros p Hp. zcases; cbn [andb]; done || lia. Qed.

(** Copying part of a sector into the buffer. *)
Lemma copy_filled img off lba from n pos buf :
  0 <= from -> 0 <= n -> from + n <= 512 -> 0 <= pos -> pos + n <= Z.of_nat (length buf) -> 512 * lba + from = off + pos ->
  exists bytes buf', mem_read (sector img lba) from n = Ret bytes /\ mem_write buf pos bytes = Ret buf' /\
    filled img off pos (pos + n) buf buf'.
Proof.
  intros Hf Hn Hfn Hp Hpn Heq. destruct (mem_read_ok (sector img lba) from n) as (bytes & E & Hl & Hb); [lia|lia|rewrite sector_length; lia|].
  destruct (mem_write_ok buf pos bytes) as (buf' & E' & Hl' & Hb'); [lia|lia|]. exists bytes, buf'. split_and!; [done..|].
  split; [done|]. intros p Hp0. rewrite Hb', Hl by done. destruct (Z.leb_spec pos p), (Z.ltb_spec p (pos + n)); cbn [andb]; try done.
  rewrite Hb, sector_lookup by lia. do 2 f_equal. lia.
Qed.

Lemma read_sectors_ok img off n : forall fuel h sb x buf,
  same (image (view h)) img -> 0 <= sb -> sb + Z.of_nat n <= 8388608 -> 0 <= x -> 512 * sb = off + x ->
  x + 512 * Z.of_nat n <= Z.of_nat (length buf) -> Z.of_nat (length buf) < 4294967296 -> (n <= fuel)%nat ->
  exists buf' h', read_sectors fuel dev h sb (sb + Z.of_nat n - 1) buf x = Ret (buf', h') /\
    filled img off x (x + 512 * Z.of_nat n) buf buf' /\ same (image (view h')) img.
Proof.
  induction n as [|n IH]; intros fuel h sb x buf Himg Hsb Hn Hx Heq Hb Hlen Hf.
  - exists buf, h. split; [|split; [replace (x + 512 * Z.of_nat 0) with x by lia; apply filled_none|done]].
    destruct fuel; cbn [read_sectors]; by rewrite (proj2 (Z.ltb_lt _ _)) by lia.
  - destruct fuel as [|fuel]; [lia|]. cbn [read_sectors]. rewrite (proj2 (Z.ltb_ge _ _)) by lia.
    destruct (ata_device_read_sector_ok h sb buf x) as (b1 & h1 & -> & Hw & Hv & _); [lia|lia|unfold ATA_SECTOR_SIZE; lia|].
    cbn [mbind outcome_bind]. rewrite (sector_same _ img sb Hsb Himg) in Hw.
    assert (filled img off x (x + 512) buf b1) as Hf1.
    { destruct (copy_filled img off sb 0 512 x buf) as (bytes & b' & E1 & E2 & Hfl); [lia..|].
      rewrite (mem_read_all (sector img sb) 512) in E1 by (by rewrite sector_length). injection E1 as <-. congruence. }
    unfold ATA_SECTOR_SIZE. rewrite !u32_small by lia.
    destruct (IH fuel h1 (sb + 1) (x + 512) b1) as (b2 & h2 & E2 & Hf2 & Hi2); [by rewrite Hv|lia|lia|lia|lia|rewrite (fl_length _ _ _ _ _ _ Hf1); lia|rewrite (fl_length _ _ _ _ _ _ Hf1); lia|lia|].
    replace (sb + 1 + Z.of_nat n - 1) with (sb + Z.of_nat (S n) - 1) in E2 by lia. exists b2, h2. split; [done|]. split; [|done].
    replace (x + 512 * Z.of_nat (S n)) with (x + 512 + 512 * Z.of_nat n) by lia. apply (filled_two _ _ _ (x + 512) _ _ b1); [lia|lia|done|done].
Qed.

(** The conditions under which the arithmetic of [read_ata] and [write_ata] is right: inside
    the drive, not empty, past the first sector's end when it ends inside a sector, and up to
    the end of the first sector when it starts inside one. *)
Definition regular (offset size : Z) : Prop :=
  0 <= offset /\ 1 <= size /\ offset + size <= ata_max_offset dev /\ offset + size < 4294967296 /\
  512 <= offset + size /\ (offset mod 512 = 0 \/ 512 - offset mod 512 <= size).

(** The blocks of a regular range. *)
Lemma regular_blocks offset size : regular offset size ->
  let start := if truthy (offset mod 512) then offset / 512 + 1 else offset / 512 in
  let x := if truthy (offset mod 512) then 512 - offset mod 512 else 0 in
  let last := u32 (offset + size - 1) / 512 in
  let post := (offset + size) mod 512 in
  512 * start = offset + x /\ x <= size /\ 0 <= x < 512 /\
  (post <> 0 -> start <= last /\ 1 <= last /\ 512 * last = offset + size - post) /\
  (post = 0 -> 512 * (last + 1) = offset + size) /\
  0 <= post < 512 /\ 0 <= start /\ 0 <= last < 8388608.
Proof.
  intros (H1 & H2 & _ & H3 & H4 & H5). cbn zeta. rewrite u32_small by lia. unfold truthy.
  destruct (Z.eqb_spec (offset mod 512) 0) as [E|E]; cbn [negb]; Z.to_euclidean_division_equations; lia.
Qed.

Definition first_block (offset : Z) : Z := if truthy (offset mod 512) then offset / 512 + 1 else offset / 512.
Definition prefix_of (offset : Z) : Z := if truthy (offset mod 512) then 512 - offset mod 512 else 0.

Lemma offset_split offset : 0 <= offset < 4294967296 ->
  0 <= offset / 512 < 8388608 /\ 512 * (offset / 512) + offset mod 512 = offset /\ 0 <= offset mod 512 < 512.
Proof. intros. Z.to_euclidean_division_equations. lia. Qed.

(** Reading a whole sector into [tmp]. *)
Lemma read_tmp h img lba tmp : 0 <= lba < 268435456 -> same (image (view h)) img -> length tmp = 512%nat ->
  exists h', ata_device_read_sector dev h lba tmp 0 = Ret (sector img lba, h') /\ same (image (view h')) img.
Proof.
  intros Hl Hi Ht. destruct (ata_device_read_sector_ok h lba tmp 0) as (t1 & h1 & -> & Hw & Hv & _); [done|lia|unfold ATA_SECTOR_SIZE; lia|].
  rewrite mem_write_whole, (sector_same _ img) in Hw by (done || apply sector_length || lia). injection Hw as <-. exists h1. by rewrite Hv.
Qed.

Lemma read_prefix_ok h img offset buffer tmp :
  same (image (view h)) img -> 0 <= offset < 4294967296 -> prefix_of offset <= Z.of_nat (length buffer) -> length tmp = 512%nat ->
  exists b1 h1, read_prefix dev h offset (offset / 512) buffer tmp = Ret (b1, h1, first_block offset, prefix_of offset) /\
    filled img offset 0 (prefix_of offset) buffer b1 /\ same (image (view h1)) img.
Proof.
  intros Hi Ho Hb Ht. destruct (offset_split _ Ho) as (H1 & H2 & H3). unfold read_prefix, first_block, prefix_of, ATA_SECTOR_SIZE in *.
  destruct (truthy (offset mod 512)) eqn:E; [|by eexists buffer, h; split; [|split; [apply filled_none|]]].
  destruct (read_tmp h img (offset / 512) tmp) as (h1 & -> & I1); [lia|done|done|]. cbn [mbind outcome_bind].
  destruct (copy_filled img offset (offset / 512) (offset mod 512) (512 - offset mod 512) 0 buffer) as (bytes & b1 & -> & E2 & F1); [lia..|].
  cbn [mbind outcome_bind]. rewrite E2. by exists b1, h1.
Qed.

Lemma read_postfix_ok h img offset size buffer tmp :
  same (image (view h)) img -> regular offset size -> size <= Z.of_nat (length buffer) -> length tmp = 512%nat ->
  exists b2 h2 n, read_postfix dev h offset size (first_block offset) (u32 (offset + size - 1) / 512) buffer tmp =
      Ret (b2, h2, first_block offset + Z.of_nat n - 1) /\
    prefix_of offset + 512 * Z.of_nat n = size - (offset + size) mod 512 /\
    filled img offset (size - (offset + size) mod 512) size buffer b2 /\ same (image (view h2)) img.
Proof.
  intros Hi Hreg Hb Ht. destruct (regular_blocks _ _ Hreg) as (Hstart & Hxs & Hx & Hpost & Hnopost & Hpr & Hs0 & Hlast).
  destruct Hreg as (Ho & Hsz & Hmax & H32 & _). unfold read_postfix, first_block, prefix_of, ATA_SECTOR_SIZE.
  set (start := if truthy (offset mod 512) then offset / 512 + 1 else offset / 512) in *.
  set (x := if truthy (offset mod 512) then 512 - offset mod 512 else 0) in *. rewrite (u32_small (offset + size)) by lia.
  set (last := u32 (offset + size - 1) / 512) in *. set (post := (offset + size) mod 512) in *.
  unfold truthy. destruct (Z.eqb_spec post 0) as [Ep|Ep]; cbn [negb andb].
  - specialize (Hnopost Ep). exists buffer, h, (Z.to_nat (last + 1 - start)). rewrite Ep, Z.sub_0_r. split; [do 2 f_equal; lia|]. split; [lia|].
    split; [apply filled_none|done].
  - destruct (Hpost Ep) as (H1 & H2 & H3). rewrite (proj2 (Z.leb_le _ _) H1).
    destruct (read_tmp h img last tmp) as (h2 & -> & I2); [lia|done|done|]. cbn [mbind outcome_bind].
    destruct (copy_filled img offset last 0 post (size - post) buffer) as (bytes & b2 & -> & E2 & F2); [lia..|].
    cbn [mbind outcome_bind]. rewrite E2. cbn [mbind outcome_bind]. exists b2, h2, (Z.to_nat (last - start)). rewrite u32_small by lia.
    split; [do 2 f_equal; lia|]. split; [lia|]. split; [by replace (size - post + post) with size in F2 by lia|done].
Qed.

(** Reading a range of a disk gives its bytes: [read_ata] puts the bytes of the drive from
    [offset] on into the buffer, across sectors and whatever the timing of the
    controller, returns the size, changes nothing behind it and nothing on the drive. *)
Theorem read_ata_correct h offset size buffer tmp :
  regular offset size -> size <= Z.of_nat (length buffer) < 4294967296 -> length tmp = 512%nat ->
  exists buffer' h', read_ata dev h offset size buffer tmp = Ret (size, buffer', h') /\
    filled (image (view h)) offset 0 size buffer buffer' /\ same (image (view h')) (image (view h)).
Proof.
  intros Hreg Hbuf Htmp. destruct (regular_blocks _ _ Hreg) as (Hstart & Hxs & Hx & _ & _ & Hpr & Hs0 & _).
  pose proof Hreg as (Ho & Hsz & Hmax & H32 & _). fold (first_block offset) in Hstart, Hs0. fold (prefix_of offset) in Hstart, Hxs, Hx.
  unfold read_ata. rewrite (proj2 (Z.ltb_ge _ offset)) by lia. rewrite (u32_small (offset + size)), (proj2 (Z.ltb_ge _ (offset + size))) by lia.
  cbn zeta. unfold ATA_SECTOR_SIZE.
  destruct (read_prefix_ok h (image (view h)) offset buffer tmp) as (b1 & h1 & -> & F1 & I1); [done|lia|lia|done|]. cbn [mbind outcome_bind].
  pose proof (fl_length _ _ _ _ _ _ F1) as L1.
  destruct (read_postfix_ok h1 (image (view h)) offset size b1 tmp) as (b2 & h2 & n & -> & Hn & F2 & I2); [done|done|lia|done|]. cbn [mbind outcome_bind].
  pose proof (fl_length _ _ _ _ _ _ F2) as L2.
  destruct (read_sectors_ok (image (view h)) offset n (S (length b2)) h2 (first_block offset) (prefix_of offset) b2 I2) as (b3 & h3 & -> & F3 & I3); [lia..|].
  cbn [mbind outcome_bind]. exists b3, h3. split; [done|]. split; [|done]. rewrite Hn in F3.
  apply (filled_two _ _ _ (prefix_of offset) _ _ b1); [lia|lia|done|].
  by apply (filled_swap _ _ _ (size - (offset + size) mod 512) _ _ b2); [lia|lia| |].
Qed.

(** *** Writing a range *)

(** The bytes of the drive from [off + lo] to [off + hi] are those of the buffer. *)
Definition patched (buf : list Z) (off lo hi : Z) (img img' : Z -> Z) : Prop :=
  forall i, 0 <= i -> img' i = if (off + lo <=? i) && (i <? off + hi) then default 0 (buf !! Z.to_nat (i - off)) else img i.

Lemma patched_two buf off lo mid hi f g k :
  lo <= mid -> mid <= hi -> patched buf off lo mid f g -> patched buf off mid hi g k -> patched buf off lo hi f k.
Proof. intros H1 H2 P1 P2 i Hi. rewrite P2, P1 by done. zcases; cbn [andb]; done || lia. Qed.

Lemma patched_swap buf off lo mid hi f g k :
  lo <= mid -> mid <= hi -> patched buf off mid hi f g -> patched buf off lo mid g k -> patched buf off lo hi f k.
Proof. intros H1 H2 P1 P2 i Hi. rewrite P2, P1 by done. zcases; cbn [andb]; done || lia. Qed.

Lemma patched_none buf off lo f g : same f g -> patched buf off lo lo g f.
Proof. intros Hs i Hi. rewrite Hs by done. zcases; cbn [andb]; done || lia. Qed.

Lemma patched_same buf off lo hi f g k : same f g -> patched buf off lo hi g k -> patched buf off lo hi f k.
Proof. intros Hs Hp i Hi. rewrite Hp, Hs by done. done. Qed.

(** Part of a sector is replaced and the sector written. *)
Lemma patch_part_ok h img off lba from n pos buf tmp :
  same (image (view h)) img -> 0 <= lba < 268435456 -> length tmp = 512%nat ->
  0 <= from -> 0 <= n -> from + n <= 512 -> 0 <= pos -> pos + n <= Z.of_nat (length buf) -> 512 * lba + from = off + pos ->
  exists bytes sec h', mem_read buf pos n = Ret bytes /\ mem_write (sector img lba) from bytes = Ret sec /\
    ata_device_write_sector_retry dev h lba sec 0 tmp = Ret h' /\ patched buf off pos (pos + n) img (image (view h')).
Proof.
  intros Hi Hl Ht Hf Hn Hfn Hp Hpn Heq. destruct (mem_read_ok buf pos n) as (bytes & E & Hbl & Hb); [lia..|].
  pose proof (sector_length img lba) as Hsl.
  destruct (mem_write_ok (sector img lba) from bytes) as (sec & E' & Hl' & Hsec); [lia|lia|].
  destruct (write_sector_retry_ok h lba sec 0 sec tmp) as (h' & E2 & Hs); [done|apply mem_read_all; unfold ATA_SECTOR_SIZE; lia|done|].
  exists bytes, sec, h'. split_and!; [done..|]. intros i Hi0. rewrite Hs by done. unfold store, ATA_SECTOR_SIZE.
  destruct (Z.leb_spec (512 * lba) i), (Z.ltb_spec i (512 * lba + 512)); cbn [andb];
    [|rewrite Hi by done; zcases; cbn [andb]; done || lia..].
  rewrite Hsec, Hbl by lia. destruct (Z.leb_spec from (i - 512 * lba)), (Z.ltb_spec (i - 512 * lba) (from + n)); cbn [andb].
  - rewrite Hb by lia. rewrite (proj2 (Z.leb_le _ _)), (proj2 (Z.ltb_lt _ _)) by lia. cbn [andb]. do 3 f_equal. lia.
  - rewrite sector_lookup by lia. rewrite (proj2 (Z.ltb_ge _ _)), andb_false_r by lia. cbn. f_equal. lia.
  - rewrite sector_lookup by lia. rewrite (proj2 (Z.leb_gt _ _)) by lia. cbn. f_equal. lia.
  - lia.
Qed.

Lemma write_sectors_ok off n tmp : forall fuel h sb x buf,
  length tmp = 512%nat -> 0 <= sb -> sb + Z.of_nat n <= 8388608 -> 0 <= x -> 512 * sb = off + x ->
  x + 512 * Z.of_nat n <= Z.of_nat (length buf) -> Z.of_nat (length buf) < 4294967296 -> (n <= fuel)%nat ->
  exists h', write_sectors fuel dev h sb (sb + Z.of_nat n - 1) buf x tmp = Ret h' /\
    patched buf off x (x + 512 * Z.of_nat n) (image (view h)) (image (view h')).
Proof.
  induction n as [|n IH]; intros fuel h sb x buf Ht Hsb Hn Hx Heq Hb Hlen Hf.
  - exists h. split; [|replace (x + 512 * Z.of_nat 0) with x by lia; by apply patched_none].
    destruct fuel; cbn [write_sectors]; by rewrite (proj2 (Z.ltb_lt _ _)) by lia.
  - destruct fuel as [|fuel]; [lia|]. cbn [write_sectors]. rewrite (proj2 (Z.ltb_ge _ _)) by lia.
    destruct (mem_read_ok buf x 512) as (bytes & E & Hbl & Hby); [lia..|].
    destruct (write_sector_retry_ok h sb buf x bytes tmp) as (h1 & -> & Hs); [lia|done|done|]. cbn [mbind outcome_bind].
    assert (patched buf off x (x + 512) (image (view h)) (image (view h1))) as P1.
    { intros i Hi. rewrite Hs by done. unfold store, ATA_SECTOR_SIZE. replace (512 * sb + 512) with (off + (x + 512)) by lia. rewrite Heq.
      destruct (Z.leb_spec (off + x) i), (Z.ltb_spec i (off + (x + 512))); cbn [andb]; try done. rewrite Hby by lia. do 3 f_equal. lia. }
    unfold ATA_SECTOR_SIZE. rewrite !u32_small by lia.
    destruct (IH fuel h1 (sb + 1) (x + 512) buf) as (h2 & E2 & P2); [done|lia..|].
    replace (sb + 1 + Z.of_nat n - 1) with (sb + Z.of_nat (S n) - 1) in E2 by lia. exists h2. split; [done|].
    replace (x + 512 * Z.of_nat (S n)) with (x + 512 + 512 * Z.of_nat n) by lia. apply (patched_two _ _ _ (x + 512) _ _ (image (view h1))); [lia|lia|done|done].
Qed.

Lemma write_prefix_ok h offset buffer tmp :
  0 <= offset < 4294967296 -> prefix_of offset <= Z.of_nat (length buffer) -> length tmp = 512%nat ->
  exists h1, write_prefix dev h offset (offset / 512) buffer tmp = Ret (h1, first_block offset, prefix_of offset) /\
    patched buffer offset 0 (prefix_of offset) (image (view h)) (image (view h1)).
Proof.
  intros Ho Hb Ht. destruct (offset_split _ Ho) as (H1 & H2 & H3). unfold write_prefix, first_block, prefix_of, ATA_SECTOR_SIZE in *.
  destruct (truthy (offset mod 512)) eqn:E; [|exists h; split; [done|by apply patched_none]].
  destruct (read_tmp h (image (view h)) (offset / 512) tmp) as (h1 & -> & I1); [lia|done|done|]. cbn [mbind outcome_bind].
  destruct (patch_part_ok h1 (image (view h)) offset (offset / 512) (offset mod 512) (512 - offset mod 512) 0 buffer tmp)
    as (bytes & sec & h2 & -> & E2 & E3 & P); [done|lia|done|lia..|]. cbn [mbind outcome_bind]. rewrite E2. cbn [mbind outcome_bind]. rewrite E3. by exists h2.
Qed.

Lemma write_postfix_ok h offset size buffer tmp :
  regular offset size -> size <= Z.of_nat (length buffer) -> length tmp = 512%nat ->
  exists h2 n, write_postfix dev h offset size (first_block offset) (u32 (offset + size - 1) / 512) buffer tmp =
      Ret (h2, first_block offset + Z.of_nat n - 1) /\
    prefix_of offset + 512 * Z.of_nat n = size - (offset + size) mod 512 /\
    patched buffer offset (size - (offset + size) mod 512) size (image (view h)) (image (view h2)).
Proof.
  intros Hreg Hb Ht. destruct (regular_blocks _ _ Hreg) as (Hstart & Hxs & Hx & Hpost & Hnopost & Hpr & Hs0 & Hlast).
  destruct Hreg as (Ho & Hsz & Hmax & H32 & _). unfold write_postfix, first_block, prefix_of, ATA_SECTOR_SIZE.
  set (start := if truthy (offset mod 512) then offset / 512 + 1 else offset / 512) in *.
  set (x := if truthy (offset mod 512) then 512 - offset mod 512 else 0) in *. rewrite (u32_small (offset + size)) by lia.
  set (last := u32 (offset + size - 1) / 512) in *. set (post := (offset + size) mod 512) in *.
  unfold truthy. destruct (Z.eqb_spec post 0) as [Ep|Ep]; cbn [negb andb].
  - specialize (Hnopost Ep). exists h, (Z.to_nat (last + 1 - start)). rewrite Ep, Z.sub_0_r. split; [do 2 f_equal; lia|]. split; [lia|].
    by apply patched_none.
  - destruct (Hpost Ep) as (H1 & H2 & H3). rewrite (proj2 (Z.leb_le _ _) H1).
    destruct (read_tmp h (image (view h)) last tmp) as (h1 & -> & I1); [lia|done|done|]. cbn [mbind outcome_bind].
    destruct (patch_part_ok h1 (image (view h)) offset last 0 post (size - post) buffer tmp)
      as (bytes & sec & h2 & -> & E2 & E3 & P); [done|lia|done|lia..|]. cbn [mbind outcome_bind]. rewrite E2. cbn [mbind outcome_bind]. rewrite E3.
    cbn [mbind outcome_bind]. exists h2, (Z.to_nat (last - start)). rewrite u32_small by lia.
    split; [do 2 f_equal; lia|]. split; [lia|]. by replace (size - post + post) with size in P by lia.
Qed.

(** C22: For a range of at least one byte inside the drive that does not end inside the first sector and,
    if it starts inside a sector, reaches the end of that sector ([regular]; for other ranges the
    code also writes bytes from behind the buffer), writing puts the bytes of the buffer on the
    drive from [offset] on and changes no other byte, although whole sectors are written, and
    although the drive may store a sector wrongly a number of times before it gets it right. *)
Theorem write_ata_correct h offset size buffer tmp :
  regular offset size -> size <= Z.of_nat (length buffer) < 4294967296 -> length tmp = 512%nat ->
  exists h', write_ata dev h offset size buffer tmp = Ret (size, h') /\
    patched buffer offset 0 size (image (view h)) (image (view h')).
Proof.
  intros Hreg Hbuf Htmp. destruct (regular_blocks _ _ Hreg) as (Hstart & Hxs & Hx & _ & _ & Hpr & Hs0 & _).
  pose proof Hreg as (Ho & Hsz & Hmax & H32 & _). fold (first_block offset) in Hstart, Hs0. fold (prefix_of offset) in Hstart, Hxs, Hx.
  unfold write_ata. rewrite (proj2 (Z.ltb_ge _ offset)) by lia. rewrite (u32_small (offset + size)), (proj2 (Z.ltb_ge _ (offset + size))) by lia.
  cbn zeta. unfold ATA_SECTOR_SIZE.
  destruct (write_prefix_ok h offset buffer tmp) as (h1 & -> & P1); [lia|lia|done|]. cbn [mbind outcome_bind].
  destruct (write_postfix_ok h1 offset size buffer tmp) as (h2 & n & -> & Hn & P2); [done|lia|done|]. cbn [mbind outcome_bind].
  destruct (write_sectors_ok offset n tmp (S (length buffer)) h2 (first_block offset) (prefix_of offset) buffer Htmp) as (h3 & -> & P3); [lia..|].
  cbn [mbind outcome_bind]. exists h3. split; [done|]. rewrite Hn in P3.
  apply (patched_two _ _ _ (prefix_of offset) _ _ (image (view h1))); [lia|lia|done|].
  by apply (patched_swap _ _ _ (size - (offset + size) mod 512) _ _ (image (view h2))); [lia|lia| |].
Qed.

(** Reading part of the first sector runs out of the buffer: the number of the last block
    wraps around when it is counted down from 0, and whole sectors follow. *)
Theorem read_ata_first_sector h size buffer tmp :
  0 < size < 512 -> size <= ata_max_offset dev -> Z.of_nat (length buffer) < 512 -> length tmp = 512%nat ->
  size <= Z.of_nat (length buffer) -> read_ata dev h 0 size buffer tmp = Fault.
Proof.
  intros Hs Hm Hb Ht Hsb. unfold read_ata. rewrite (proj2 (Z.ltb_ge _ 0)) by lia. rewrite (u32_small (0 + size)), (proj2 (Z.ltb_ge _ (0 + size))) by lia.
  cbn zeta. unfold ATA_SECTOR_SIZE. change (0 / 512) with 0. unfold read_prefix. change (truthy (0 mod ATA_SECTOR_SIZE)) with false.
  cbn [mbind outcome_bind]. unfold read_postfix, ATA_SECTOR_SIZE. rewrite !u32_small by lia. rewrite Z.add_0_l, (Z.mod_small size), (Z.div_small (size - 1)) by lia.
  replace (truthy size) with true by (unfold truthy; by rewrite (proj2 (Z.eqb_neq _ _)) by lia). change (true && (0 <=? 0)) with true. cbn iota zeta.
  destruct (read_tmp h (image (view h)) 0 tmp) as (h1 & -> & _); [lia|done|done|]. cbn [mbind outcome_bind].
  destruct (copy_filled (image (view h)) 0 0 0 size (size - size) buffer) as (bytes & b2 & -> & E2 & F2); [lia..|].
  cbn [mbind outcome_bind]. rewrite E2. cbn [mbind outcome_bind]. change (u32 (0 - 1)) with 4294967295. cbn [read_sectors].
  change (4294967295 <? 0) with false. cbn iota. destruct (ata_device_read_sector_eq h1 0 b2 0) as (h2 & -> & _); [lia|].
  unfold mem_write. rewrite sector_length, (fl_length _ _ _ _ _ _ F2). by rewrite (proj2 (Z.leb_gt (0 + _) _)) by lia.
Qed.

End DriverProofs.

(** ** Witnesses: a drive that is busy now and then and gets the first write wrong *)

Module Simulated.

Definition dev : ata_device := Device 496 1014 0 0 0 8 1000 2000 49152.

(** The status is busy every third time it is read. *)
Inductive phase := Busy | Ready | Still.
Definition turn (p : phase) : phase := match p with Busy => Ready | Ready => Still | Still => Busy end.

Record machine := Machine { contents : drive; flaky : bool; clock : phase }.

Definition with_bad (d : drive) (bad : nat) : drive :=
  let '(Drive img s l0 l1 l2 c pr dm _) := d in Drive img s l0 l1 l2 c pr dm bad.
Definition drive_of (m : machine) : drive := with_bad (contents m) (if flaky m then 1 else 0).

#[export] Instance simulated : Controller machine := {|
  inportb m _ := (match clock m with Busy => 128 | _ => 68 end, Machine (contents m) (flaky m) (turn (clock m)));
  outportb m p v := Machine (drive_out dev (drive_of m) p v) (flaky m) (clock m);
  outportl m p v := let '(Drive img s l0 l1 l2 c pr dm bad) := contents m in
                    Machine (Drive img s l0 l1 l2 c (if p =? bar4 dev + 4 then v else pr) dm bad) (flaky m) (clock m);
  outportsm m _ bytes := let d := drive_data dev (drive_of m) bytes [1; 2; 3] in
                         Machine d (negb (bad_writes d =? 0)%nat) (clock m);
  dma_bytes m _ := dma (contents m);
  patience := 3
|}.

Lemma with_bad_out d p v bad : with_bad (drive_out dev (with_bad d bad) p v) bad = drive_out dev (with_bad d bad) p v.
Proof. destruct d as [img s l0 l1 l2 [] pr dm b]; cbn [with_bad drive_out]; repeat case_match; done. Qed.

#[export] Program Instance simulated_ok : ControllerOk dev machine := {| view := drive_of; wrong _ := [1; 2; 3] |}.
Next Obligation. done. Qed.
Next Obligation. intros m p v. apply with_bad_out. Qed.
Next Obligation. intros [[] fl cl] v. done. Qed.
Next Obligation.
  intros [[img s l0 l1 l2 c pr dm b] fl cl] bytes. unfold drive_of at 1. cbn [outportsm simulated contents flaky clock].
  unfold drive_of. cbn [contents flaky with_bad]. unfold drive_data. destruct c, fl; try done; destruct (selected dev _); done.
Qed.
Next Obligation. intros [[] fl cl]. done. Qed.
Next Obligation. intros [d fl []]; by eexists _, _. Qed.
Next Obligation. intros [d fl []]; by eexists _. Qed.
Next Obligation. intros [[] [] cl]; cbn; lia. Qed.

Lemma dev_proper : proper dev.
Proof. split; cbn; auto; lia. Qed.

Definition start : machine := Machine (Drive (fun i => i mod 251) 0 0 0 0 Idle 0 [] 1) true Busy.

Lemma read_ata_correct_witness :
  exists buffer' h', read_ata dev start 1000 1100 (replicate 1200 7) (replicate 512 9) = Ret (1100, buffer', h') /\
    filled (image (view start)) 1000 0 1100 (replicate 1200 7) buffer' /\ same (image (view h')) (image (view start)).
Proof.
  apply (read_ata_correct dev dev_proper start 1000 1100 (replicate 1200 7) (replicate 512 9)); [|rewrite length_replicate; lia|apply length_replicate].
  unfold regular. change (ata_max_offset dev) with 4096. change (1000 mod 512) with 488. lia.
Defined.

Lemma write_ata_correct_witness :
  exists h', write_ata dev start 1000 1100 (replicate 1100 7) (replicate 512 9) = Ret (1100, h') /\
    patched (replicate 1100 7) 1000 0 1100 (image (view start)) (image (view h')).
Proof.
  apply (write_ata_correct dev dev_proper start 1000 1100 (replicate 1100 7) (replicate 512 9)); [|rewrite length_replicate; lia|apply length_replicate].
  unfold regular. change (ata_max_offset dev) with 4096. change (1000 mod 512) with 488. lia.
Defined.

Lemma read_ata_first_sector_witness : read_ata dev start 0 4 (replicate 4 7) (replicate 512 9) = Fault.
Proof. apply (read_ata_first_sector dev dev_proper); [lia|vm_compute; discriminate|cbn; lia|apply length_replicate|cbn; lia]. Defined.

End Simulated.

End Ata.
