(* ===== verification/V86.v ===== *)
(** * The virtual-8086 monitor ([kernel/src/task/v86mon.c])

    Real-mode code runs as a task in virtual-8086 mode; the instructions it may not
    execute trap, and [vm86sensitiveOpcodehandler] carries them out on the saved
    registers.  The interrupt flag the code sees is kept in [v86_if]; the real one stays
    set.  Memory is a function from linear addresses to bytes, and pointers wrap at 2^32;
    what ports deliver is a parameter, what is sent to them a log. *)

From stdpp Require Import base numbers list.
From S2P Require Import Prelude.

Module V86.

Definition VALID_FLAGS : Z := 4194303.
Definition EFLAG_IF : Z := 512.
Definition EFLAG_VM : Z := 131072.
Definition FP_TO_LINEAR (seg off : Z) : Z := Z.shiftl (u16 seg) 4 + u16 off.

(** The registers of the frame that the monitor uses. *)
Record regs := Regs { edx : Z; eax : Z; eip : Z; cs : Z; eflags : Z; useresp : Z; ss : Z }.

Inductive width := Byte | Word | Long.

(** The machine: memory, registers, the virtual interrupt flag, what was sent to ports,
    and whether the task was ended. *)
Record vm := Vm { mem : Z -> Z; ctx : regs; v86_if : bool; sent : list (width * Z * Z); exited : bool }.

(** Pointers have 32 bits. *)
Definition peek (m : Z -> Z) (a : Z) : Z := m (u32 a).
Definition poke (m : Z -> Z) (a b : Z) : Z -> Z := fun i => if i =? u32 a then b else m i.
Definition get16 (m : Z -> Z) (a : Z) : Z := peek m a + 256 * peek m (a + 1).
Definition get32 (m : Z -> Z) (a : Z) : Z := get16 m a + 65536 * get16 m (a + 2).
Definition put16 (m : Z -> Z) (a v : Z) : Z -> Z := poke (poke m a (v mod 256)) (a + 1) (v / 256 mod 256).
Definition put32 (m : Z -> Z) (a v : Z) : Z -> Z := put16 (put16 m a (v mod 65536)) (a + 2) (v / 65536 mod 65536).

(** [if (Current.v86_if) x |= EFLAG_IF; else x &= ~EFLAG_IF]. *)
Definition virtual_if (iff : bool) (x : Z) : Z := if iff then Z.lor x EFLAG_IF else Z.land x (Z.lnot EFLAG_IF).

Definition down (sp n : Z) : Z := Z.land (Z.land sp 65535 - n) 65535.
Definition up (sp n : Z) : Z := Z.land (Z.land sp 65535 + n) 65535.

Definition set_ip (r : regs) v := Regs (edx r) (eax r) (u32 v) (cs r) (eflags r) (useresp r) (ss r).
Definition set_sp (r : regs) v := Regs (edx r) (eax r) (eip r) (cs r) (eflags r) v (ss r).
Definition set_flags (r : regs) v := Regs (edx r) (eax r) (eip r) (cs r) v (useresp r) (ss r).
Definition set_cs (r : regs) v := Regs (edx r) (eax r) (eip r) v (eflags r) (useresp r) (ss r).
Definition set_eax (r : regs) v := Regs (edx r) (u32 v) (eip r) (cs r) (eflags r) (useresp r) (ss r).

Definition set_ctx (s : vm) r := Vm (mem s) r (v86_if s) (sent s) (exited s).
Definition set_mem (s : vm) m := Vm m (ctx s) (v86_if s) (sent s) (exited s).
Definition set_if (s : vm) b := Vm (mem s) (ctx s) b (sent s) (exited s).
Definition send (s : vm) w p v := Vm (mem s) (ctx s) (v86_if s) (sent s ++ [(w, p, v)]) (exited s).
Definition next_instruction (s : vm) : vm := set_ctx s (set_ip (ctx s) (eip (ctx s) + 1)).

Section Monitor.
(** What a port delivers. *)
Context (port : width -> Z -> Z).

(** [stack] is the address computed on entry. *)
Definition pushf (s : vm) (stack : Z) (operand32 : bool) : vm :=
  let r := ctx s in
  let s := if operand32
           then set_mem (set_ctx s (set_sp r (down (useresp r) 4))) (put32 (mem s) (stack - 4) (virtual_if (v86_if s) (Z.land (eflags r) VALID_FLAGS)))
           else set_mem (set_ctx s (set_sp r (down (useresp r) 2))) (put16 (mem s) (stack - 2) (virtual_if (v86_if s) (u16 (eflags r)))) in
  next_instruction s.

Definition popf (s : vm) (stack : Z) (operand32 : bool) : vm :=
  let r := ctx s in
  let word := if operand32 then get32 (mem s) stack else get16 (mem s) stack in
  let flags := Z.lor (Z.lor EFLAG_IF EFLAG_VM) (if operand32 then Z.land word VALID_FLAGS else word) in
  let s := set_if (set_ctx s (set_sp (set_flags r flags) (up (useresp r) (if operand32 then 4 else 2)))) (truthy (Z.land word EFLAG_IF)) in
  next_instruction s.

(** INT n: the frame has the flags lowest and the address above.  The number is read
    again after the frame has been stored. *)
Definition interrupt (s : vm) (ip stack : Z) : vm :=
  let r := ctx s in
  let m := put16 (mem s) (stack - 2) (u16 (eip r + 2)) in
  let m := put16 m (stack - 4) (u16 (cs r)) in
  let m := put16 m (stack - 6) (virtual_if (v86_if s) (u16 (eflags r))) in
  let r := set_sp r (down (useresp r) 6) in
  let n := peek m (ip + 1) in
  set_mem (set_ctx s (set_cs (set_ip r (get16 m (4 * n))) (get16 m (4 * n + 2)))) m.

Definition iret (s : vm) (stack : Z) : vm :=
  let r := ctx s in
  let flags := get16 (mem s) stack in
  let r := set_cs (set_ip r (get16 (mem s) (stack + 4))) (get16 (mem s) (stack + 2)) in
  let r := set_sp (set_flags r (Z.lor (Z.lor EFLAG_IF EFLAG_VM) flags)) (up (useresp r) 6) in
  set_if (set_ctx s r) (truthy (Z.land flags EFLAG_IF)).

(** The loop: prefixes are skipped, the instruction behind them ends it. *)
Fixpoint monitor_loop (fuel : nat) (s : vm) (ip stack : Z) (operand32 : bool) : outcome (vm * bool) :=
  match fuel with
  | O => OutOfFuel
  | S fuel =>
      let r := ctx s in
      let op := peek (mem s) ip in
      if op =? 102 then monitor_loop fuel (next_instruction s) (ip + 1) stack true
      else if op =? 103 then monitor_loop fuel (next_instruction s) (ip + 1) stack operand32
      else if op =? 156 then Ret (pushf s stack operand32, true)
      else if op =? 157 then Ret (popf s stack operand32, true)
      else if op =? 239 then
        Ret (next_instruction (if operand32 then send s Long (u16 (edx r)) (eax r) else send s Word (u16 (edx r)) (u16 (eax r))), true)
      else if op =? 238 then Ret (next_instruction (send s Byte (u16 (edx r)) (u8 (eax r))), true)
      else if op =? 237 then
        Ret (next_instruction (set_ctx s (set_eax r (if operand32 then port Long (u16 (edx r))
                                                     else Z.land (eax r) 4294901760 + port Word (u16 (edx r))))), true)
      else if op =? 236 then Ret (next_instruction (set_ctx s (set_eax r (Z.land (eax r) 65280 + port Byte (u16 (edx r))))), true)
      else if op =? 205 then
        let n := peek (mem s) (ip + 1) in
        if n =? 48 then Ret (s, true)
        else if (n =? 32) || (n =? 33) then Ret (s, false)
        else Ret (interrupt s ip stack, true)
      else if op =? 207 then Ret (iret s stack, true)
      else if op =? 250 then Ret (next_instruction (set_if s false), true)
      else if op =? 251 then Ret (next_instruction (set_if s true), true)
      else if op =? 244 then Ret (Vm (mem s) r (v86_if s) (sent s) true, true)
      else Ret (s, false)
  end.

Definition vm86sensitiveOpcodehandler (fuel : nat) (s : vm) : outcome (vm * bool) :=
  let r := ctx s in
  monitor_loop fuel s (FP_TO_LINEAR (cs r) (eip r)) (FP_TO_LINEAR (ss r) (useresp r)) false.

End Monitor.

(** ** Memory *)

Lemma poke_other m a b i : i <> u32 a -> poke m a b i = m i.
Proof. intros Hi. unfold poke. by rewrite (proj2 (Z.eqb_neq _ _) Hi). Qed.

Lemma put16_other m a v i : i <> u32 a -> i <> u32 (a + 1) -> put16 m a v i = m i.
Proof. intros H1 H2. unfold put16. by rewrite !poke_other. Qed.

Lemma put32_other m a v i : i <> u32 a -> i <> u32 (a + 1) -> i <> u32 (a + 2) -> i <> u32 (a + 3) -> put32 m a v i = m i.
Proof. intros. unfold put32. rewrite !put16_other by (done || by replace (a + 2 + 1) with (a + 3) by lia). done. Qed.

(** Addresses that do not wrap. *)
Lemma put16_away m a v i : 0 <= a < 4294967294 -> i < a \/ a + 2 <= i -> put16 m a v i = m i.
Proof. intros Ha Hi. apply put16_other; rewrite u32_small by lia; lia. Qed.

Lemma get16_put16 m a v : 0 <= v < 65536 -> 0 <= a < 4294967294 -> get16 (put16 m a v) a = v.
Proof.
  intros Hv Ha. unfold get16, put16, peek, poke. rewrite !u32_small, !Z.eqb_refl, (proj2 (Z.eqb_neq a (a + 1))) by lia.
  Z.to_euclidean_division_equations. lia.
Qed.

Lemma get16_other m a v b : 0 <= a < 4294967294 -> 0 <= b < 4294967294 -> b + 2 <= a \/ a + 2 <= b -> get16 (put16 m a v) b = get16 m b.
Proof. intros Ha Hb Hd. unfold get16, peek. rewrite !u32_small, !put16_away by lia. done. Qed.

Lemma get16_bound m a : (forall i, 0 <= m i < 256) -> 0 <= get16 m a < 65536.
Proof. intros Hm. unfold get16, peek. pose proof (Hm (u32 a)). pose proof (Hm (u32 (a + 1))). lia. Qed.

Lemma land_65535 x : Z.land x 65535 = u16 x.
Proof. change 65535 with (Z.ones 16). rewrite Z.land_ones by lia. done. Qed.

Lemma up_down sp n : 0 <= sp < 65536 -> 0 <= n <= sp -> up (down sp n) n = sp /\ down sp n = sp - n.
Proof.
  intros Hs Hn. unfold up, down. rewrite !land_65535. unfold u16.
  rewrite (Z.mod_small sp), (Z.mod_small (sp - n)), (Z.mod_small (sp - n)), Z.mod_small by lia. lia.
Qed.

(** ** The flags *)

(** Virtual-8086 mode and the real interrupt flag. *)
Definition guarded (flags : Z) : Prop := Z.testbit flags 9 = true /\ Z.testbit flags 17 = true.

Lemma guarded_lor x : guarded (Z.lor (Z.lor EFLAG_IF EFLAG_VM) x).
Proof. split; rewrite !Z.lor_spec; done. Qed.

Lemma virtual_if_bit iff x : truthy (Z.land (virtual_if iff x) EFLAG_IF) = iff.
Proof.
  assert (forall y, truthy (Z.land y EFLAG_IF) = Z.testbit y 9) as Hbit.
  { intros y. unfold truthy. change EFLAG_IF with (2 ^ 9). destruct (Z.testbit y 9) eqn:E.
    - assert (Z.testbit (Z.land y (2 ^ 9)) 9 = true) as Ht by (by rewrite Z.land_spec, E, Z.pow2_bits_true).
      destruct (Z.eqb_spec (Z.land y (2 ^ 9)) 0) as [E0|]; [|done]. by rewrite E0 in Ht.
    - assert (Z.land y (2 ^ 9) = 0) as ->; [|done]. apply Z.bits_inj'. intros n Hn. rewrite Z.land_spec, Z.bits_0.
      destruct (Z.eqb_spec 9 n) as [<-|Hne]; [by rewrite E|]. by rewrite Z.pow2_bits_false, andb_false_r by done. }
  rewrite Hbit. unfold virtual_if. destruct iff; [by rewrite Z.lor_spec, orb_true_r|]. by rewrite Z.land_spec, Z.lnot_spec, andb_false_r by lia.
Qed.

Lemma virtual_if_bound iff x : 0 <= x < 65536 -> 0 <= virtual_if iff x < 65536.
Proof.
  intros Hx. assert (forall y, 0 <= y < 65536 <-> Z.land y (Z.ones 16) = y) as Hw.
  { intros y. rewrite Z.land_ones by lia. change (2 ^ 16) with 65536. split; [intros; by apply Z.mod_small|intros <-; apply Z.mod_pos_bound; lia]. }
  apply Hw. apply Hw in Hx. unfold virtual_if. apply Z.bits_inj'. intros n Hn. rewrite Z.land_spec.
  destruct (Z.lt_decidable n 16) as [Hlt|Hge]; [by rewrite Z.ones_spec_low, andb_true_r by lia|].
  rewrite Z.ones_spec_high, andb_false_r by lia.
  assert (Z.testbit x n = false) as Hxn by (rewrite <- Hx, Z.land_spec, Z.ones_spec_high, andb_false_r by lia; done).
  destruct iff; [rewrite Z.lor_spec|rewrite Z.land_spec]; rewrite Hxn; [|done]. change EFLAG_IF with (2 ^ 9). by rewrite Z.pow2_bits_false by lia.
Qed.

(** ** What the monitor may change *)

Definition stack_of (s : vm) : Z := FP_TO_LINEAR (ss (ctx s)) (useresp (ctx s)).

(** [a] is none of the six bytes below the stack pointer; the addresses wrap at 2^32. *)
Definition off_stack (stack a : Z) : Prop := forall k, 1 <= k <= 6 -> a <> (stack - k) mod 4294967296.

Lemma off_stack_at stack a n k : off_stack stack a -> 1 <= n - k <= 6 -> a <> u32 (stack - n + k).
Proof. intros H Hk. replace (stack - n + k) with (stack - (n - k)) by lia. by apply H. Qed.

Lemma off_stack_base stack a n : off_stack stack a -> 1 <= n <= 6 -> a <> u32 (stack - n).
Proof. intros H Hk. by apply H. Qed.

Create HintDb v86.
#[local] Hint Extern 1 (_ <> u32 (_ - _)) => (apply off_stack_base; [assumption|lia]) : v86.
#[local] Hint Extern 1 (_ <> u32 (_ - _ + _)) => (apply off_stack_at; [assumption|lia]) : v86.

(** Memory apart from six bytes, the stack segment, and the guard on the flags. *)
Record confined (stack : Z) (s s' : vm) : Prop := {
  cf_mem a : off_stack stack a -> mem s' a = mem s a;
  cf_ss : ss (ctx s') = ss (ctx s);
  cf_flags : guarded (eflags (ctx s)) -> guarded (eflags (ctx s'))
}.

Lemma confined_refl stack s : confined stack s s.
Proof. by split. Qed.

Lemma confined_next stack s s' : confined stack s s' -> confined stack s (next_instruction s').
Proof. intros [H1 H2 H3]. by split. Qed.

Section MonitorProofs.
Context (port : width -> Z -> Z).

Lemma monitor_loop_confined : forall fuel s0 s ip stack op32 s' b,
  confined stack s0 s -> monitor_loop port fuel s ip stack op32 = Ret (s', b) -> confined stack s0 s'.
Proof.
  induction fuel as [|fuel IH]; intros s0 s ip stack op32 s' b Hc; cbn [monitor_loop]; [done|].
  repeat match goal with |- (if ?c then _ else _) = _ -> _ => destruct c end; cbn zeta;
    try (intros [= <- <-]); try (intros E; eapply IH; [|exact E]); try apply confined_next; destruct Hc as [H1 H2 H3].
  all: try (by split).
  - unfold pushf. cbn zeta. destruct op32; split; try done; intros a Ha; cbn; rewrite ?put32_other, ?put16_other by auto with v86; by apply H1.
  - unfold popf. cbn zeta. split; try done. intros _. apply guarded_lor.
  - destruct op32; by split.
  - unfold interrupt. cbn zeta. split; try done. intros a Ha. cbn. rewrite !put16_other by auto with v86. by apply H1.
  - unfold iret. cbn zeta. split; try done. intros _. apply guarded_lor.
Qed.

(** An operand-size or address-size prefix. *)
Definition prefix (op : Z) : Prop := op = 102 \/ op = 103.

Lemma monitor_loop_returns k : forall fuel s ip stack op32,
  ~ prefix (mem s (u32 (ip + Z.of_nat k))) -> (k < fuel)%nat -> exists s' b, monitor_loop port fuel s ip stack op32 = Ret (s', b).
Proof.
  induction k as [|k IH]; intros [|fuel] s ip stack op32 Hop Hf; try lia; cbn [monitor_loop].
  - unfold prefix in Hop. replace (ip + Z.of_nat 0) with ip in Hop by lia. fold (peek (mem s) ip) in Hop. destruct (Z.eqb_spec (peek (mem s) ip) 102); [tauto|]. destruct (Z.eqb_spec (peek (mem s) ip) 103); [tauto|].
    repeat match goal with |- context [if ?c then _ else _] => destruct c end; eauto.
  - replace (ip + Z.of_nat (S k)) with (ip + 1 + Z.of_nat k) in Hop by lia.
    destruct (_ =? 102); [apply IH; [done|lia]|]. destruct (_ =? 103); [apply IH; [done|lia]|].
    repeat match goal with |- context [if ?c then _ else _] => destruct c end; eauto.
Qed.

(** C29: The monitor returns, and confines the code it emulates: if the [k]-th byte from the
    instruction that trapped is no prefix (0x66 or 0x67), at most [k + 1] rounds of its loop
    are made; whatever the instruction is, no memory changes but the six bytes below
    the stack pointer (whose addresses wrap at 2^32), the stack segment is kept, and a task
    that was in virtual-8086 mode with interrupts enabled stays so. *)
Theorem monitor_confines fuel k s :
  ~ prefix (mem s (u32 (FP_TO_LINEAR (cs (ctx s)) (eip (ctx s)) + Z.of_nat k))) -> (k < fuel)%nat ->
  exists s' b, vm86sensitiveOpcodehandler port fuel s = Ret (s', b) /\
    (forall a, off_stack (stack_of s) a -> mem s' a = mem s a) /\
    ss (ctx s') = ss (ctx s) /\ (guarded (eflags (ctx s)) -> guarded (eflags (ctx s'))).
Proof.
  intros Hop Hf. destruct (monitor_loop_returns k fuel s _ (stack_of s) false Hop Hf) as (s' & b & E). exists s', b. split; [exact E|].
  apply (monitor_loop_confined _ s) in E; [|apply confined_refl]. by destruct E.
Qed.

(** *** Calls and returns *)

Definition away (s : vm) (a : Z) : Prop := a < stack_of s - 6 \/ stack_of s <= a.

Lemma stack_below s n : 0 <= useresp (ctx s) < 65536 -> 0 <= n <= useresp (ctx s) ->
  FP_TO_LINEAR (ss (ctx s)) (down (useresp (ctx s)) n) = stack_of s - n.
Proof.
  intros Hs Hn. destruct (up_down _ _ Hs Hn) as [_ ->]. unfold stack_of, FP_TO_LINEAR, u16.
  rewrite (Z.mod_small (useresp (ctx s) - n)), (Z.mod_small (useresp (ctx s))) by lia. lia.
Qed.

Lemma linear_bound seg off : 0 <= FP_TO_LINEAR seg off < 1114112.
Proof.
  unfold FP_TO_LINEAR, u16. rewrite Z.shiftl_mul_pow2 by lia. change (2 ^ 4) with 16. pose proof (Z.mod_pos_bound seg 65536). pose proof (Z.mod_pos_bound off 65536). lia.
Qed.

(** A software interrupt and the return from it cancel out: when the handler the vector
    table names begins with IRET, the code continues behind the INT with the stack
    pointer, the segment and the virtual interrupt flag it had. *)
Theorem int_iret_returns fuel s n :
  let r := ctx s in
  let ip := FP_TO_LINEAR (cs r) (eip r) in
  let target := FP_TO_LINEAR (get16 (mem s) (4 * n + 2)) (get16 (mem s) (4 * n)) in
  (forall i, 0 <= mem s i < 256) -> 0 <= n -> 0 <= eip r -> eip r + 2 < 65536 -> 0 <= cs r < 65536 -> 6 <= useresp r < 65536 ->
  mem s ip = 205 -> mem s (ip + 1) = n -> n <> 48 -> n <> 32 -> n <> 33 -> mem s target = 207 ->
  away s (ip + 1) -> away s target -> 4 * n + 4 <= stack_of s - 6 ->
  exists s1 s2, vm86sensitiveOpcodehandler port (S fuel) s = Ret (s1, true) /\
    vm86sensitiveOpcodehandler port (S fuel) s1 = Ret (s2, true) /\
    eip (ctx s2) = eip r + 2 /\ cs (ctx s2) = cs r /\ useresp (ctx s2) = useresp r /\ ss (ctx s2) = ss r /\
    v86_if s2 = v86_if s.
Proof.
  intros r ip target Hm Hn0 He He2 Hcs Hsp Hop Hn H48 H32 H33 Ht Aip At An. unfold vm86sensitiveOpcodehandler. fold r ip.
  pose proof (linear_bound (cs r) (eip r)) as Bip. fold ip in Bip.
  pose proof (linear_bound (get16 (mem s) (4 * n + 2)) (get16 (mem s) (4 * n))) as Bt. fold target in Bt. pose proof (linear_bound (ss r) (useresp r)) as Bs. change (0 <= stack_of s < 1114112) in Bs.
  assert (6 <= stack_of s) as Bs6 by (unfold stack_of, FP_TO_LINEAR; fold r; rewrite Z.shiftl_mul_pow2 by lia; assert (u16 (useresp r) = useresp r) as -> by (apply Z.mod_small; lia); pose proof (Z.mod_pos_bound (ss r) 65536); unfold u16; lia).
  assert (forall a, 0 <= a < 4294967296 -> peek (mem s) a = mem s a) as Hpk by (intros a Ha; unfold peek; by rewrite u32_small by lia).
  cbn [monitor_loop]. rewrite !Hpk, Hop, Hn by lia. cbn [Z.eqb Pos.eqb]. rewrite (proj2 (Z.eqb_neq _ _) H48), (proj2 (Z.eqb_neq _ _) H32), (proj2 (Z.eqb_neq _ _) H33).
  cbn [orb]. fold (stack_of s). set (s1 := interrupt s ip (stack_of s)). exists s1.
  assert (mem s1 = put16 (put16 (put16 (mem s) (stack_of s - 2) (u16 (eip r + 2))) (stack_of s - 4) (u16 (cs r))) (stack_of s - 6) (virtual_if (v86_if s) (u16 (eflags r)))) as Hmem
    by reflexivity.
  assert (forall a, away s a -> mem s1 a = mem s a) as Haway by (intros a Ha; unfold away in Ha; rewrite Hmem, !put16_away by lia; done).
  assert (forall a, 0 <= a -> a + 2 <= stack_of s - 6 -> get16 (mem s1) a = get16 (mem s) a) as Hget
    by (intros a Ha0 Ha; unfold get16, peek; rewrite !u32_small, !Haway by (unfold away; lia); done).
  pose proof (get16_bound _ (4 * n) Hm) as Hb. pose proof (get16_bound _ (4 * n + 2) Hm) as Hb2.
  assert (ctx s1 = Regs (edx r) (eax r) (get16 (mem s) (4 * n)) (get16 (mem s) (4 * n + 2)) (eflags r) (down (useresp r) 6) (ss r)) as Hctx.
  { change (ctx s1) with (set_cs (set_ip (set_sp r (down (useresp r) 6)) (get16 (mem s1) (4 * peek (mem s1) (ip + 1)))) (get16 (mem s1) (4 * peek (mem s1) (ip + 1) + 2))).
    unfold peek at 1 2. rewrite !(u32_small (ip + 1)), !Haway, Hn, !Hget by (done || lia). unfold set_cs, set_ip, set_sp. cbn. by rewrite u32_small by lia. }
  assert (FP_TO_LINEAR (ss r) (down (useresp r) 6) = stack_of s - 6) as Hst by (apply stack_below; fold r; lia).
  rewrite Hctx. cbn [cs eip ss useresp]. fold target.
  assert (peek (mem s1) target = 207) as Ht1 by (unfold peek; rewrite u32_small by lia; by rewrite Haway). rewrite Ht1, Hst. cbn [Z.eqb Pos.eqb].
  eexists. split; [done|]. split; [done|]. unfold iret. rewrite Hctx.
  destruct (up_down (useresp r) 6) as [Hup _]; [lia|lia|].
  cbn [set_if set_ctx ctx v86_if set_sp set_flags set_cs set_ip eip cs useresp ss]. rewrite Hup.
  replace (stack_of s - 6 + 4) with (stack_of s - 2) by lia. replace (stack_of s - 6 + 2) with (stack_of s - 4) by lia.
  rewrite Hmem. rewrite (get16_put16 _ (stack_of s - 6)) by (lia || apply virtual_if_bound, Z.mod_pos_bound; lia).
  rewrite (get16_other _ (stack_of s - 6) _ (stack_of s - 2)), (get16_other _ (stack_of s - 4) _ (stack_of s - 2)) by lia.
  rewrite (get16_other _ (stack_of s - 6) _ (stack_of s - 4)) by lia.
  assert (u16 (eip r + 2) = eip r + 2) as Hu1 by (apply Z.mod_small; lia). assert (u16 (cs r) = cs r) as Hu2 by (apply Z.mod_small; lia).
  rewrite Hu1, Hu2, !get16_put16 by lia. rewrite virtual_if_bit, u32_small by lia. done.
Qed.

End MonitorProofs.

(** ** Witnesses: INT 10h at 1000:0000, whose vector points to an IRET *)

Definition bios : Z -> Z := fun a =>
  if a =? 65536 then 205 else if a =? 65537 then 16 else if a =? 66 then 0 else if a =? 67 then 240 else if a =? 983040 then 207 else 0.
Definition task : vm := Vm bios (Regs 0 0 0 4096 131584 65534 8192) true [] false.

Lemma bios_bytes i : 0 <= bios i < 256.
Proof. unfold bios. repeat case_match; lia. Qed.

Lemma int_iret_returns_witness :
  exists s1 s2, vm86sensitiveOpcodehandler (fun _ _ => 0) 1 task = Ret (s1, true) /\
    vm86sensitiveOpcodehandler (fun _ _ => 0) 1 s1 = Ret (s2, true) /\
    eip (ctx s2) = 2 /\ cs (ctx s2) = 4096 /\ useresp (ctx s2) = 65534 /\ ss (ctx s2) = 8192 /\ v86_if s2 = true.
Proof.
  apply (int_iret_returns (fun _ _ => 0) 0 task 16); try done; try (cbn; lia); try apply bios_bytes.
  - left. by vm_compute.
  - right. by vm_compute.
Defined.

Lemma monitor_confines_witness :
  exists s' b, vm86sensitiveOpcodehandler (fun _ _ => 0) 1 task = Ret (s', b) /\
    (forall a, off_stack (stack_of task) a -> mem s' a = mem task a) /\
    ss (ctx s') = 8192 /\ (guarded (eflags (ctx task)) -> guarded (eflags (ctx s'))).
Proof. apply (monitor_confines (fun _ _ => 0) 1 0 task); [|lia]. intros [H|H]; discriminate H. Defined.

(** At ss:sp = 0:0 the flags are pushed at the top of the linear addresses. *)
Example pushf_wraps : option_map (fun r => mem r.1 4294967295) (match vm86sensitiveOpcodehandler (fun _ _ => 0) 1
    (Vm (fun a => if a =? 65536 then 156 else 0) (Regs 0 0 0 4096 131584 0 0) true [] false) with Ret x => Some x | _ => None end) = Some 2.
Proof. reflexivity. Qed.

End V86.
