(* ===== verification/Spaces.v ===== *)
(** * Address spaces of programs ([get_page] of [kernel/src/mem/mem.c] as its clients use it)

    The shared memory code and the program loader map pages of a task's directory:
    they ask [get_page] for the entry of an address, with a new page table when there is
    none, change the entry and give it a frame.  [update_page] is that sequence of
    calls.  [entry] is what the hardware finds at a page number; the lemmas say that an
    update changes one entry of one directory and none of any other. *)

From stdpp Require Import base gmap numbers list.
From S2P Require Import Prelude Frames Paging.

Module Spaces.
Import Frames Paging.

(** ** Operations *)

Section Operations.
Context `{KernelHeap}.

(** [page = get_page(address, 1, dir)], then the entry and the frames become what [f]
    makes of them. *)
Definition update_page (m : memory) (address : Z) (dir : ptr)
    (f : frames_t -> page_t -> outcome (frames_t * page_t)) : outcome memory :=
  '(loc, m) ← get_page m address true dir;
  loc ← of_option loc;
  p ← read_page m loc;
  '(fs, p) ← f (fr m) p;
  write_page (set_fr m fs) loc p.

(** [alloc_frame(get_page(address, 1, dir), 0, 1)]. *)
Definition back_page (m : memory) (address : Z) (dir : ptr) : outcome memory :=
  update_page m address dir (fun fs p => alloc_frame fs p 0 1).

(** [memset(page, 0, sizeof(page_t))] on an entry that is expected to exist. *)
Definition clear_page (m : memory) (address : Z) (dir : ptr) : outcome memory :=
  '(loc, m) ← get_page m address false dir;
  loc ← of_option loc;
  write_page m loc zero_page.

End Operations.

(** ** Specification *)

(** The entry of page number [q], as the hardware looks it up. *)
Definition entry (m : memory) (dir : ptr) (q : Z) : option page_t :=
  d ← directories m !! dir;
  t ← tables d !! Z.to_nat (q / 1024);
  if t =? 0 then None else pages ← page_tables m !! t; pages !! Z.to_nat (q mod 1024).

(** The table of the directory that covers page number [q]. *)
Definition table_at (m : memory) (dir : ptr) (q : Z) (t : ptr) : Prop :=
  exists d, directories m !! dir = Some d /\ tables d !! Z.to_nat (q / 1024) = Some t.

(** The directories [D] are spaces of their own from table number [lo] on: their
    tables are full size, belong to one place of one directory and not to the kernel. *)
Record spaces (lo : Z) (m : memory) (D : list ptr) : Prop := {
  sp_lo : KERNEL_HEAP_END / 0x400000 <= lo;
  sp_kernel : kernel_ok m;
  sp_dir dir : dir ∈ D -> dir <> kernel_directory m /\
    exists d, directories m !! dir = Some d /\ length (tables d) = 1024%nat /\ length (physical_tables d) = 1024%nat;
  sp_table dir q t : dir ∈ D -> lo * 1024 <= q -> table_at m dir q t -> t <> 0 ->
    user_table m t /\ exists pages, page_tables m !! t = Some pages /\ length pages = 1024%nat;
  sp_own dir dir' q q' t : dir ∈ D -> dir' ∈ D -> lo * 1024 <= q -> lo * 1024 <= q' ->
    table_at m dir q t -> table_at m dir' q' t -> t <> 0 -> dir = dir' /\ q / 1024 = q' / 1024
}.

(** What the heap promises about the parts of memory it does not use: tables of
    programs, directory entries above its own range, and frames others take. *)
Class UserHeap `{HeapOk} := {
  heap_frames n m f : heap_inv n m -> keeps (fr m) f -> heap_inv n (set_fr m f);
  heap_user_table n m t ps ps' : heap_inv n m -> user_table m t -> page_tables m !! t = Some ps ->
    heap_inv n (set_tables m (<[t := ps']> (page_tables m)));
  heap_user_entry n m dir d x ph t : heap_inv n m -> directories m !! dir = Some d -> KERNEL_HEAP_END / 0x400000 <= x ->
    heap_inv n (set_directories m (<[dir := Build_directory (<[Z.to_nat x := ph]> (physical_tables d))
                                              (<[Z.to_nat x := t]> (tables d)) (physical_address d) (ref_count d)]> (directories m)))
}.

(** ** Lemmas *)

Lemma table_at_unique m dir q t t' : table_at m dir q t -> table_at m dir q t' -> t = t'.
Proof. intros (d & Hd & Ht) (d' & Hd' & Ht'). congruence. Qed.

Lemma entry_table m dir q t : table_at m dir q t ->
  entry m dir q = if t =? 0 then None else pages ← page_tables m !! t; pages !! Z.to_nat (q mod 1024).
Proof. intros (d & Hd & Ht). unfold entry. rewrite Hd. cbn. by rewrite Ht. Qed.

Lemma entry_at m dir q p : entry m dir q = Some p -> exists t pages, table_at m dir q t /\ t <> 0 /\
  page_tables m !! t = Some pages /\ pages !! Z.to_nat (q mod 1024) = Some p.
Proof.
  unfold entry, table_at. destruct (directories m !! dir) as [d|]; [|done]. cbn.
  destruct (tables d !! Z.to_nat (q / 1024)) as [t|] eqn:Et; [|done]. cbn. destruct (Z.eqb_spec t 0); [done|].
  destruct (page_tables m !! t) as [pages|] eqn:Ep; [|done]. cbn. intros E. exists t, pages. split; [by exists d|done].
Qed.

Lemma spaces_table lo m D dir q : spaces lo m D -> dir ∈ D -> 0 <= q < 1048576 -> exists t, table_at m dir q t.
Proof.
  intros Hs Hd Hq. destruct (sp_dir _ _ _ Hs dir Hd) as (_ & d & Ed & Hl & _).
  assert (q / 1024 < 1024) by (apply Z.div_lt_upper_bound; lia). pose proof (Z.div_pos q 1024).
  destruct (lookup_lt_is_Some_2 (tables d) (Z.to_nat (q / 1024))) as [t Ht]; [lia|]. exists t, d. done.
Qed.

(** Only the frames of the state differ. *)
Lemma spaces_fr lo m D f : spaces lo m D -> spaces lo (set_fr m f) D.
Proof. intros []. by constructor. Qed.

Lemma user_table_fr m t : user_table m t -> forall f, user_table (set_fr m f) t.
Proof. done. Qed.

(** Growing the heap keeps every space. *)
Lemma spaces_grows lo m m' D : grows m m' -> spaces lo m D -> spaces lo m' D /\
  forall dir q p, dir ∈ D -> lo * 1024 <= q -> entry m dir q = Some p -> entry m' dir q = Some p.
Proof.
  intros Hg [H1 H2 H3 H4 H5]. pose proof Hg as (_ & Ed & Ek & _ & Ht).
  assert (forall dir q t, table_at m' dir q t <-> table_at m dir q t) as Hta by (intros; unfold table_at; by rewrite Ed).
  split; [constructor|].
  - done.
  - by apply (kernel_ok_grows m).
  - intros dir Hd. rewrite Ek, Ed. by apply H3.
  - intros dir q t Hd Hq Hat%Hta Hn. destruct (H4 dir q t Hd Hq Hat Hn) as (Hu & pages & Hp & Hl).
    split; [by apply (user_table_grows m)|]. exists pages. split; [by apply Ht|done].
  - intros dir dir' q q' t Hd Hd' Hq Hq' Ha%Hta Ha'%Hta. by apply (H5 dir dir' q q' t).
  - intros dir q p Hd Hq (t & pages & Hat & Hn & Hp & Hl)%entry_at.
    rewrite (entry_table m' dir q t) by by apply Hta. rewrite (proj2 (Z.eqb_neq _ _) Hn).
    destruct (H4 dir q t Hd Hq Hat Hn) as (Hu & _). rewrite (Ht t pages Hu Hp). done.
Qed.

(** Changing one entry of a table. *)
Lemma write_entry lo m D dir q t p' :
  spaces lo m D -> dir ∈ D -> 0 <= q -> lo * 1024 <= q -> table_at m dir q t -> t <> 0 ->
  exists ps, page_tables m !! t = Some ps /\ length ps = 1024%nat /\
    write_page m (t, q mod 1024) p' = Ret (set_tables m (<[t := <[Z.to_nat (q mod 1024) := p']> ps]> (page_tables m))) /\
    let m' := set_tables m (<[t := <[Z.to_nat (q mod 1024) := p']> ps]> (page_tables m)) in
    spaces lo m' D /\ entry m' dir q = Some p' /\
    forall dir' q', dir' ∈ D -> lo * 1024 <= q' -> 0 <= q' -> (dir', q') <> (dir, q) -> entry m' dir' q' = entry m dir' q'.
Proof.
  intros Hs Hd Hq0 Hq Hat Hn. pose proof (page_split q Hq0) as Hsp. destruct (sp_table _ _ _ Hs dir q t Hd Hq Hat Hn) as (Hu & ps & Hps & Hl).
  exists ps. split; [done|]. split; [done|]. split.
  { unfold write_page. cbn [fst snd]. rewrite Hps. cbn [of_option mbind outcome_bind]. rewrite aset_in_range by lia. done. }
  cbn zeta. set (m' := set_tables _ _).
  assert (forall dir q t, table_at m' dir q t <-> table_at m dir q t) as Hta by done.
  split; [|split].
  - destruct Hs as [H1 H2 H3 H4 H5]. constructor; [done| |done| |done].
    + intros k t1 Hk Ht1. destruct (H2 k t1 Hk Ht1) as [?|[?|?]]; [by left|by right; left|]. right. right. cbn [m' page_tables set_tables].
      apply lookup_insert_is_Some. destruct (decide (t = t1)); [by left|by right].
    + intros dir' q' t' Hd' Hq' Hat' Hn'. destruct (H4 dir' q' t' Hd' Hq' Hat' Hn') as (Hu' & ps' & Hp' & Hl'). split; [done|].
      cbn [m' page_tables set_tables]. destruct (decide (t = t')) as [<-|]; [|exists ps'; by rewrite lookup_insert_ne].
      eexists. rewrite lookup_insert_eq. split; [done|]. by rewrite length_insert.
  - rewrite (entry_table m' dir q t) by done. rewrite (proj2 (Z.eqb_neq _ _) Hn). cbn [m' page_tables set_tables].
    rewrite lookup_insert_eq. cbn. apply list_lookup_insert_eq. lia.
  - intros dir' q' Hd' Hq' Hq0' Hne. pose proof (page_split q' Hq0') as Hsp'. unfold entry. cbn [m' directories set_tables].
    destruct (directories m !! dir') as [d'|] eqn:Ed'; [|done]. cbn.
    destruct (tables d' !! Z.to_nat (q' / 1024)) as [t'|] eqn:Et'; [|done]. cbn.
    destruct (Z.eqb_spec t' 0); [done|]. destruct (decide (t' = t)) as [->|]; [|by rewrite lookup_insert_ne].
    assert (table_at m dir' q' t) as Hat' by (by exists d').
    destruct (sp_own _ _ _ Hs dir dir' q q' t Hd Hd' Hq Hq' Hat Hat' Hn) as [<- Eq].
    rewrite lookup_insert_eq, Hps. cbn. apply list_lookup_insert_ne. assert (q' <> q) by congruence. lia.
Qed.

(** *** New page tables *)

Definition with_table (m : memory) (dir : ptr) (d : page_directory_t) (x : Z) (t ph : Z) : memory :=
  set_directories (set_tables m (<[t := replicate 1024 zero_page]> (page_tables m)))
    (<[dir := Build_directory (<[Z.to_nat x := ph]> (physical_tables d)) (<[Z.to_nat x := t]> (tables d))
                (physical_address d) (ref_count d)]> (directories m)).

Lemma new_table_ok lo m D dir d q a ph :
  spaces lo m D -> dir ∈ D -> 0 <= q < 1048576 -> lo * 1024 <= q -> directories m !! dir = Some d ->
  tables d !! Z.to_nat (q / 1024) = Some 0 -> page_tables m !! a = None -> a <> 0 -> a <> 0xFFFFFFFF ->
  let m' := with_table m dir d (q / 1024) a ph in
  spaces lo m' D /\ table_at m' dir q a /\
  forall dir' q' p, dir' ∈ D -> lo * 1024 <= q' -> entry m dir' q' = Some p -> entry m' dir' q' = Some p.
Proof.
  intros Hs Hd Hq Hlo Ed Ht0 Ha Ha0 Ha1 m'. pose proof Hs as [H1 H2 H3 H4 H5].
  assert (0 <= lo) by (change (KERNEL_HEAP_END / 0x400000) with 128 in H1; lia).
  assert (q / 1024 < 1024) by (apply Z.div_lt_upper_bound; lia).
  destruct (H3 dir Hd) as (Hnk & d' & Ed' & Hl & Hlp). rewrite Ed in Ed'. injection Ed' as <-.
  pose proof (new_table_user m a H2 Ha0 Ha1 Ha) as Hua.
  assert (directories m' !! kernel_directory m = directories m !! kernel_directory m) as Ek
    by (cbn [m' with_table set_directories directories]; by rewrite lookup_insert_ne).
  assert (forall t, user_table m t -> user_table m' t) as Hut.
  { intros t Hu k Hk. apply Hu. rewrite <- Hk. symmetry. exact Ek. }
  assert (forall dir' q' t, 0 <= q' -> table_at m' dir' q' t -> (dir' = dir /\ q' / 1024 = q / 1024 /\ t = a) \/ table_at m dir' q' t) as Hinv.
  { intros dir' q' t Hq' (e & He & Het). cbn [m' with_table set_directories directories] in He.
    destruct (decide (dir = dir')) as [<-|]; [|rewrite lookup_insert_ne in He by done; right; by exists e].
    rewrite lookup_insert_eq in He. injection He as <-. cbn [tables] in Het.
    destruct (decide (Z.to_nat (q / 1024) = Z.to_nat (q' / 1024))) as [E|].
    - rewrite E, list_lookup_insert_eq in Het by (rewrite <- E; lia). injection Het as <-. left.
      pose proof (Z.div_pos q 1024). pose proof (Z.div_pos q' 1024). split; [done|]. split; [lia|done].
    - rewrite list_lookup_insert_ne in Het by done. right. by exists d. }
  assert (forall dir' q' t, dir' ∈ D -> lo * 1024 <= q' -> table_at m dir' q' t -> t <> 0 -> t <> a) as Hna.
  { intros dir' q' t Hd' Hq' Hat Hn ->. destruct (H4 dir' q' a Hd' Hq' Hat Hn) as (_ & pages & Hp & _). congruence. }
  split; [constructor|split].
  - done.
  - intros k t Hk Ht. assert (directories m !! kernel_directory m = Some k) as Hk' by (rewrite <- Ek; exact Hk).
    destruct (H2 k t Hk' Ht) as [?|[?|?]]; [by left|by right; left|]. right. right.
    cbn [m' with_table page_tables set_tables set_directories]. apply lookup_insert_is_Some. destruct (decide (a = t)); [by left|by right].
  - intros dir' Hd'. destruct (H3 dir' Hd') as (Hk' & d' & Ed' & Hl' & Hlp'). split; [done|].
    cbn [m' with_table set_directories directories]. destruct (decide (dir = dir')) as [<-|]; [|exists d'; by rewrite lookup_insert_ne].
    eexists. rewrite lookup_insert_eq. split; [done|]. cbn [tables physical_tables]. by rewrite !length_insert.
  - intros dir' q' t Hd' Hq' Hat Hn. apply Hinv in Hat as [(-> & _ & ->)|Hat]; [| |lia].
    + split; [by apply Hut|]. cbn [m' with_table page_tables set_tables set_directories]. eexists. by rewrite lookup_insert_eq, length_replicate.
    + pose proof (Hna _ _ _ Hd' Hq' Hat Hn). destruct (H4 dir' q' t Hd' Hq' Hat Hn) as (Hu & pages & Hp & Hpl). split; [by apply Hut|].
      exists pages. cbn [m' with_table page_tables set_tables set_directories]. by rewrite lookup_insert_ne.
  - intros dir1 dir2 q1 q2 t Hd1 Hd2 Hq1 Hq2 Ht1 Ht2 Hn. apply Hinv in Ht1, Ht2; [|lia..].
    destruct Ht1 as [(-> & E1 & ->)|Ht1], Ht2 as [(-> & E2 & E3)|Ht2].
    + split; [done|]. congruence.
    + by destruct (Hna _ _ _ Hd2 Hq2 Ht2 Hn).
    + by destruct (Hna _ _ _ Hd1 Hq1 Ht1 Hn).
    + by apply (H5 dir1 dir2 q1 q2 t).
  - eexists. cbn [m' with_table set_directories directories]. rewrite lookup_insert_eq. split; [done|]. cbn [tables].
    apply list_lookup_insert_eq. rewrite Hl. pose proof (Z.div_pos q 1024). lia.
  - intros dir' q' p Hd' Hq' (t & pages & Hat & Hn & Hp & Hpp)%entry_at. pose proof (Hna _ _ _ Hd' Hq' Hat Hn).
    assert (table_at m' dir' q' t) as Hat'.
    { destruct Hat as (e & He & Het). unfold table_at. cbn [m' with_table set_directories directories].
      destruct (decide (dir = dir')) as [<-|]; [|exists e; by rewrite lookup_insert_ne]. eexists. rewrite lookup_insert_eq. split; [done|].
      cbn [tables]. assert (e = d) as -> by congruence. rewrite list_lookup_insert_ne; [done|]. intros E. rewrite <- E in Het. congruence. }
    rewrite (entry_table m' dir' q' t Hat'), (proj2 (Z.eqb_neq _ _) Hn).
    cbn [m' with_table page_tables set_tables set_directories]. rewrite lookup_insert_ne by done. by rewrite Hp.
Qed.

(** An entry that exists is cleared. *)
Lemma clear_page_ok `{KernelHeap} lo m D dir v p :
  spaces lo m D -> dir ∈ D -> 0 <= v -> lo * 1024 <= v / 0x1000 -> entry m dir (v / 0x1000) = Some p ->
  exists m', clear_page m v dir = Ret m' /\ spaces lo m' D /\ fr m' = fr m /\ entry m' dir (v / 0x1000) = Some zero_page /\
    forall dir' q, dir' ∈ D -> lo * 1024 <= q -> (dir', q) <> (dir, v / 0x1000) -> entry m' dir' q = entry m dir' q.
Proof.
  intros Hs Hd Hv Hlo He. pose proof (Z.div_pos v 0x1000) as Hq. pose proof (Z.div_pos (v / 0x1000) 1024) as Hx.
  pose proof He as (t & pages & Hat & Hn & _)%entry_at. pose proof Hat as (d & Ed & Ht).
  unfold clear_page, get_page, directory. rewrite Ed. cbn [of_option mbind outcome_bind]. rewrite (aget_lookup _ _ t) by (done || lia).
  cbn [mbind outcome_bind]. unfold truthy. rewrite (proj2 (Z.eqb_neq _ _) Hn). cbn [negb mbind outcome_bind of_option].
  destruct (write_entry lo m D dir (v / 0x1000) t zero_page Hs Hd) as (ps & _ & _ & -> & Hs' & He' & Ho); [lia|done|done|done|].
  eexists. split; [done|]. split; [done|]. split; [done|]. split; [done|]. intros dir' q Hd' Hq' Hne. apply Ho; [done|done| |done].
  pose proof (sp_lo _ _ _ Hs) as Hl. change (KERNEL_HEAP_END / 0x400000) with 128 in Hl. lia.
Qed.

Section Update.
Context `{UserHeap}.

(** The later state of the spaces: entries are kept, frames in use stay in use. *)
Definition evolves (lo : Z) (D : list ptr) (m m' : memory) : Prop :=
  spaces lo m' D /\ keeps (fr m) (fr m') /\
  forall dir q p, dir ∈ D -> lo * 1024 <= q -> entry m dir q = Some p -> entry m' dir q = Some p.

Lemma get_page_ok n lo m D dir q r :
  heap_inv (S n) m -> spaces lo m D -> dir ∈ D -> 0 <= q < 1048576 -> lo * 1024 <= q -> 0 <= r < 0x1000 ->
  exists t m', get_page m (q * 0x1000 + r) true dir = Ret (Some (t, q mod 1024), m') /\
    heap_inv n m' /\ evolves lo D m m' /\ table_at m' dir q t /\ t <> 0.
Proof.
  intros Hi Hs Hd Hq Hlo Hr. destruct (heap_installed _ _ Hi) as [_ Hwf].
  destruct (sp_dir _ _ _ Hs dir Hd) as (Hnk & d & Ed & Hl & Hlp).
  assert (q / 1024 < 1024) by (apply Z.div_lt_upper_bound; lia). pose proof (Z.div_pos q 1024).
  destruct (aget_in_range (tables d) (q / 1024)) as (t & Ht & Hg); [lia|].
  unfold get_page. replace ((q * 0x1000 + r) / 0x1000) with q by (rewrite Z.div_add_l, (Z.div_small r) by lia; lia).
  unfold directory. rewrite Ed. cbn [of_option mbind outcome_bind]. rewrite Hg. cbn [mbind outcome_bind].
  unfold truthy. destruct (Z.eqb_spec t 0) as [->|Hn]; cbn [negb].
  2: { exists t, m. split; [done|]. split; [by apply heap_spare|]. split; [|by split; [exists d|]]. split; [done|]. split; [by apply keeps_refl|done]. }
  destruct (kvmalloc_p_ok n m sizeof_page_table_t Hi) as (a & ph & m1 & -> & Hgr & Ha & _ & Ha0 & Ha1 & _ & Hst); [done|].
  cbn [mbind outcome_bind]. pose proof Hgr as (Hk & Edirs & _). cbn [set_tables directories]. rewrite Edirs, Ed.
  cbn [of_option mbind outcome_bind]. rewrite !aset_in_range by lia. cbn [mbind outcome_bind].
  destruct (spaces_grows lo m m1 D Hgr Hs) as [Hs1 He1]. rewrite <- Edirs in Ed.
  destruct (new_table_ok lo m1 D dir d q a (Z.lor ph 0x7) Hs1 Hd Hq Hlo Ed Ht Ha Ha0 Ha1) as (Hs2 & Hat & He2).
  exists a, (with_table m1 dir d (q / 1024) a (Z.lor ph 0x7)). split; [unfold with_table; by rewrite Edirs|].
  split; [|split; [|done]].
  - apply (heap_user_entry n (set_tables m1 (<[a := replicate 1024 zero_page]> (page_tables m1))) dir d); [|done|pose proof (sp_lo _ _ _ Hs); apply Z.div_le_lower_bound; lia].
    apply (Hst (replicate 1024 zero_page) (fr m1) (copies m1)). apply keeps_refl. apply Hk.
  - split; [done|]. split; [done|]. eauto.
Qed.

(** One page is changed: [f] is applied to its entry, an empty one if the table is new. *)
Lemma update_page_ok n lo m D dir q r f :
  heap_inv (S n) m -> spaces lo m D -> dir ∈ D -> 0 <= q < 1048576 -> lo * 1024 <= q -> 0 <= r < 0x1000 ->
  (forall fs p, keeps (fr m) fs -> (forall p0, entry m dir q = Some p0 -> p = p0) -> exists fs' p', f fs p = Ret (fs', p') /\ keeps fs fs') ->
  exists m0 p fs p' m', update_page m (q * 0x1000 + r) dir f = Ret m' /\ evolves lo D m m0 /\ entry m0 dir q = Some p /\
    f (fr m0) p = Ret (fs, p') /\ fr m' = fs /\ keeps (fr m0) fs /\ heap_inv n m' /\ spaces lo m' D /\ entry m' dir q = Some p' /\
    (forall dir' q', dir' ∈ D -> lo * 1024 <= q' -> (dir', q') <> (dir, q) -> entry m' dir' q' = entry m0 dir' q').
Proof.
  intros Hi Hs Hd Hq Hlo Hr Hf. destruct (get_page_ok n lo m D dir q r Hi Hs Hd Hq Hlo Hr) as (t & m0 & Eg & Hi0 & He & Hat & Hn).
  pose proof He as (Hs0 & Hk0 & Hent). unfold update_page. rewrite Eg. cbn [mbind outcome_bind of_option].
  pose proof (page_split q) as Hsp. destruct (sp_table _ _ _ Hs0 dir q t Hd Hlo Hat Hn) as (Hu & ps & Hps & Hl).
  destruct (aget_in_range ps (q mod 1024)) as (p & Hp & Hpa); [lia|].
  assert (entry m0 dir q = Some p) as Hep by (rewrite (entry_table _ _ _ _ Hat), (proj2 (Z.eqb_neq _ _) Hn), Hps; done).
  unfold read_page. cbn [fst snd]. rewrite Hps. cbn [of_option mbind outcome_bind]. rewrite Hpa. cbn [mbind outcome_bind].
  destruct (Hf (fr m0) p Hk0) as (fs & p' & Ef & Hk); [intros p0 E; apply (Hent dir q p0 Hd Hlo) in E; congruence|].
  rewrite Ef. cbn [mbind outcome_bind].
  destruct (write_entry lo (set_fr m0 fs) D dir q t p' (spaces_fr _ _ _ _ Hs0) Hd) as (ps' & Hps' & _ & Ew & Hs' & He' & Ho'); [lia|done|done|done|].
  exists m0, p, fs, p'. eexists. split; [exact Ew|]. do 3 (split; [done|]). split; [done|]. split; [done|]. split; [|split; [done|split; [done|]]].
  - eapply heap_user_table; [by apply heap_frames|by apply user_table_fr|done].
  - intros dir' q' Hd' Hq' Hne. rewrite Ho'; [done|done|done| |done]. pose proof (sp_lo _ _ _ Hs) as Hlo'. change (KERNEL_HEAP_END / 0x400000) with 128 in Hlo'. lia.
Qed.

End Update.

(** ** The interface is satisfied *)

Import Bump.

#[export] Instance bump_user : UserHeap.
Proof.
  constructor.
  - intros n m f (? & ? & ? & ? & ?) (Hwf & _). done.
  - intros n m t ps ps' (? & ? & ? & ? & Hfree) _ Ht. do 3 (split; [done|]). split; [done|]. intros a Ha. cbn [page_tables set_tables directories].
    destruct (Hfree a Ha) as [Hp Hd']. split; [|done]. rewrite lookup_insert_ne; [done|]. congruence.
  - intros n m dir d x ph t (Hwf & Hh & Hl & (cd & Hcd & Hc0) & Hfree) Hd Hx. change (KERNEL_HEAP_END / 0x400000) with 128 in Hx.
    do 3 (split; [done|]). cbn [directories set_directories current_directory page_tables heap_end]. split.
    + destruct (decide (dir = current_directory m)) as [->|]; [|exists cd; by rewrite lookup_insert_ne].
      eexists. rewrite lookup_insert_eq. split; [done|]. cbn [tables]. rewrite list_lookup_insert_ne by lia. congruence.
    + intros a Ha. destruct (Hfree a Ha) as [Hp Hd']. split; [done|]. rewrite lookup_insert_ne; [done|congruence].
Qed.

End Spaces.
