(* ===== verification/ShmNames.v ===== *)
(** * The names of shared memory ([kernel/src/mem/shm.c], first part)

    A chunk of shared memory is found through a dotted path in a tree of
    [shm_node_t] ([Tree]).  [_get_node] walks the path with [strtok_r] and, when
    asked to, adds the nodes that are missing.  The walk is shown to be the lookup of
    a list of names in the finite tree, and adding nodes never loses or renames one. *)

From stdpp Require Import base gmap numbers list.
From S2P Require Import Prelude CString LinkedList Tree.

Module ShmNames.

(** ** Data *)

(** [SHM_PATH_SEPARATOR], and the size of the array [name]. *)
Definition SHM_PATH_SEPARATOR : Z := 46.
Definition sizeof_name : Z := 256.

Record shm_node_t := Snode { name : cstring; chunk : ptr }.

(** [shm_tree] and the [shm_node_t] its values point to. *)
Record names := Names { shm_tree : Tree.state; snodes : gmap ptr shm_node_t }.

(** What [malloc] promises for a new [shm_node_t]. *)
Class SnodeAlloc := {
  new_snode : gmap ptr shm_node_t -> ptr;
  new_snode_nonnull m : new_snode m <> NULL;
  new_snode_fresh m : m !! new_snode m = None
}.

Section Operations.
Context `{Tree.NodeAlloc} `{SnodeAlloc}.

Definition shm_install (st : names) : names :=
  Names (Tree.tree_set_root (Tree.tree_create (shm_tree st)) NULL) (snodes st).

(** The loop over [tnode->children]: the child with the name, as a tree node and as a
    [shm_node_t].  The token is a null pointer when [strtok_r] found none. *)
Fixpoint find_child (st : names) (cs : list ptr) (pch : option cstring) : outcome (option (ptr * ptr)) :=
  match cs with
  | [] => Ret None
  | c :: cs' =>
      n ← Tree.get_node (shm_tree st) c;
      sn ← of_option (snodes st !! Tree.value n);
      t ← of_option pch;
      if truthy (strcmp (name sn) t) then find_child st cs' pch
      else Ret (Some (c, Tree.value n))
  end.

(** A new node: [memcpy] into [name] must stay inside the array. *)
Definition add_node (st : names) (from : ptr) (pch : cstring) : outcome (names * ptr * ptr) :=
  if sizeof_name <? strlen pch + 1 then Fault
  else
    let nsnode := new_snode (snodes st) in
    '(t, nnode) ← Tree.tree_node_insert_child (shm_tree st) from nsnode;
    Ret (Names t (<[nsnode := Snode pch NULL]> (snodes st)), nnode, nsnode).

Fixpoint _get_node (fuel : nat) (st : names) (shm_path : cstring) (create : bool) (from : ptr) : outcome (names * ptr) :=
  match fuel with
  | O => OutOfFuel
  | S fuel' =>
      let '(pch, save) := strtok_r shm_path SHM_PATH_SEPARATOR in
      tnode ← Tree.get_node (shm_tree st) from;
      hit ← find_child st (Tree.children tnode) pch;
      match hit with
      | Some (_node, snode) =>
          match save with
          | [] => Ret (st, snode)
          | _ => _get_node fuel' st save create _node
          end
      | None =>
          if create then
            pch ← of_option pch;
            '(st, nnode, nsnode) ← add_node st from pch;
            match save with
            | [] => Ret (st, nsnode)
            | _ => _get_node fuel' st save create nnode
            end
          else Ret (st, NULL)
      end
  end.

(** Every call consumes a token, so the length of the path bounds the recursion. *)
Definition get_node (st : names) (shm_path : cstring) (create : bool) : outcome (names * ptr) :=
  _get_node (S (length shm_path)) st shm_path create (Tree.root (Tree.tree (shm_tree st))).

End Operations.

(** ** Specification *)

(** The dotted path of a list of names. *)
Definition path_of (ts : list cstring) : cstring := tail (join SHM_PATH_SEPARATOR ts).

Definition val (r : Tree.rose) : ptr := let '(Tree.Rose _ v _) := r in v.
Definition kids (r : Tree.rose) : list Tree.rose := let '(Tree.Rose _ _ cs) := r in cs.

Definition called (sn : gmap ptr shm_node_t) (t : cstring) (r : Tree.rose) : bool :=
  match sn !! val r with Some n => bool_decide (name n = t) | None => false end.

(** The node a list of names leads to. *)
Fixpoint walk (sn : gmap ptr shm_node_t) (r : Tree.rose) (ts : list cstring) : option Tree.rose :=
  match ts with
  | [] => Some r
  | t :: ts' => c ← List.find (called sn t) (kids r); walk sn c ts'
  end.

Definition lookup_name (sn : gmap ptr shm_node_t) (r : Tree.rose) (ts : list cstring) : option ptr := val <$> walk sn r ts.

(** Every node below the root points to a [shm_node_t] whose name is a string. *)
Definition named (sn : gmap ptr shm_node_t) (r : Tree.rose) : Prop :=
  exists n, val r <> NULL /\ sn !! val r = Some n /\ cstring_ok (name n).

Record names_inv (st : names) (r : Tree.rose) : Prop := {
  ni_tree : Tree.inv (shm_tree st) r;
  ni_root : val r = NULL;
  ni_named t c : Tree.subtree r t -> c ∈ kids t -> named (snodes st) c;
  (* different names lead to different nodes *)
  ni_inj ts ts' u u' : walk (snodes st) r ts = Some u -> walk (snodes st) r ts' = Some u' -> val u = val u' -> ts = ts'
}.

(** A name as paths may hold it: a token that fits the array. *)
Definition name_ok (t : cstring) : Prop := token_ok SHM_PATH_SEPARATOR t /\ cstring_ok t /\ strlen t + 1 <= sizeof_name.

(** ** Lemmas *)

Lemma path_cons t ts : path_of (t :: ts) = t ++ join SHM_PATH_SEPARATOR ts.
Proof. done. Qed.

Lemma strtok_path t ts : token_ok SHM_PATH_SEPARATOR t -> Forall (token_ok SHM_PATH_SEPARATOR) ts ->
  strtok_r (path_of (t :: ts)) SHM_PATH_SEPARATOR = (Some t, path_of ts).
Proof.
  intros [Hne Hnd] Hts. rewrite path_cons. destruct t as [|c t]; [done|]. unfold strtok_r. cbn [skip_delim app].
  destruct (Z.eqb_spec c SHM_PATH_SEPARATOR) as [->|Hc]; [exfalso; mem|].
  destruct ts as [|t' ts].
  - replace (c :: t ++ join _ []) with (c :: t) by (cbn; by rewrite app_nil_r). by rewrite cut_delim_no_delim.
  - change (c :: t ++ join SHM_PATH_SEPARATOR (t' :: ts)) with ((c :: t) ++ SHM_PATH_SEPARATOR :: (t' ++ join SHM_PATH_SEPARATOR ts)).
    by rewrite cut_delim_app.
Qed.

Lemma path_nonempty t ts : token_ok SHM_PATH_SEPARATOR t -> path_of (t :: ts) <> [].
Proof. intros [Hne _]. rewrite path_cons. by destruct t. Qed.

Lemma path_length t ts : token_ok SHM_PATH_SEPARATOR t -> (length (path_of ts) < length (path_of (t :: ts)))%nat.
Proof.
  intros [Hne _]. rewrite path_cons, length_app. unfold path_of. destruct t; [done|].
  cbn [length]. destruct (join _ ts); cbn [length tail]; lia.
Qed.

Lemma called_strcmp sn c n t : cstring_ok (name n) -> cstring_ok t -> sn !! val c = Some n ->
  called sn t c = negb (truthy (strcmp (name n) t)).
Proof.
  intros Hn Ht E. unfold called, truthy. rewrite E, negb_involutive. pose proof (strcmp_zero _ _ Hn Ht) as Hz.
  case_bool_decide; destruct (Z.eqb_spec (strcmp (name n) t) 0); tauto.
Qed.

Lemma find_child_ok st p cs t :
  Forall (Tree.rep (Tree.cells (shm_tree st)) p) cs -> Forall (named (snodes st)) cs -> cstring_ok t ->
  find_child st (map Tree.addr cs) (Some t) = Ret ((fun c => (Tree.addr c, val c)) <$> List.find (called (snodes st) t) cs).
Proof.
  intros Hr Hn Ht. induction cs as [|[q v ds] cs IH]; [done|]. apply Forall_cons in Hr as [Hr Hrs], Hn as [(n & Hv & En & Hc) Hns].
  cbn [map find_child List.find Tree.addr]. rewrite (Tree.get_node_rep _ _ _ _ _ Hr). cbn [mbind outcome_bind Tree.value].
  cbn [val] in En. rewrite En. cbn [of_option mbind outcome_bind].
  rewrite (called_strcmp _ (Tree.Rose q v ds) n t Hc Ht En). destruct (truthy _); [by apply IH|done].
Qed.

Lemma named_kids st r p v cs : names_inv st r -> Tree.subtree r (Tree.Rose p v cs) -> Forall (named (snodes st)) cs.
Proof. intros [_ _ Hn _] Hs. apply Forall_forall. intros c Hc. by apply (Hn _ _ Hs). Qed.

Lemma kids_rep st r p v cs : names_inv st r -> Tree.subtree r (Tree.Rose p v cs) ->
  Tree.get_node (shm_tree st) p = Ret (Tree.Node v (map Tree.addr cs) (from_option Tree.parent NULL (Tree.cells (shm_tree st) !! p))) /\
  Forall (Tree.rep (Tree.cells (shm_tree st)) p) cs.
Proof.
  intros [Hi _ _ _] Hs. destruct (Tree.subtree_rep _ _ _ _ (Tree.inv_rep _ _ Hi) Hs) as [par Hr].
  pose proof Hr as (_ & Hm & Hc)%Tree.rep_unfold. rewrite Hm. split; [by apply (Tree.get_node_rep _ _ _ _ _ Hr)|done].
Qed.

Lemma subtree_trans r t u : Tree.subtree r t -> Tree.subtree t u -> Tree.subtree r u.
Proof. induction 1; [done|]. intros. eapply Tree.subtree_below; eauto. Qed.

Lemma subtree_child r p v cs c : Tree.subtree r (Tree.Rose p v cs) -> c ∈ cs -> Tree.subtree r c.
Proof. intros Hs Hc. eapply subtree_trans; [done|]. eapply Tree.subtree_below; [done|constructor]. Qed.

Lemma find_elem {A} (f : A -> bool) l x : List.find f l = Some x -> x ∈ l /\ f x = true.
Proof. intros E. apply List.find_some in E as [Hi Hf]. by rewrite list_elem_of_In. Qed.

(** *** Adding a leaf *)

Lemma subtree_unique r t u : NoDup (Tree.addrs r) -> Tree.subtree r t -> Tree.subtree r u -> Tree.addr t = Tree.addr u -> t = u.
Proof.
  induction r as [p v cs IH] using Tree.rose_rect_list. rewrite Tree.addrs_unfold. intros [Hp Hn]%NoDup_cons Ht Hu E.
  assert (forall x, x ∈ cs -> forall y, Tree.subtree x y -> Tree.addr y ∈ Tree.addrs_of cs) as Hin.
  { intros x Hx y Hy. apply Tree.elem_addrs_of. exists x. split; [done|]. apply (Tree.subtree_addrs _ _ Hy), Tree.addr_in. }
  inversion Ht as [|? ? ? c1 ? Hc1 Ht1]; inversion Hu as [|? ? ? c2 ? Hc2 Hu2]; subst; [done| | |].
  - exfalso. apply Hp. cbn [Tree.addr] in E. rewrite E. by apply (Hin c2).
  - exfalso. apply Hp. cbn [Tree.addr] in E. rewrite <- E. by apply (Hin c1).
  - assert (c1 = c2) as <-.
    { apply list_elem_of_split in Hc1 as (a & b & ->). rewrite Tree.addrs_of_app, Tree.addrs_of_cons in Hn.
      apply NoDup_app in Hn as (_ & H1 & Hn). apply NoDup_app in Hn as (_ & H2 & _).
      pose proof (Tree.subtree_addrs _ _ Ht1 _ (Tree.addr_in t)) as A1. pose proof (Tree.subtree_addrs _ _ Hu2 _ (Tree.addr_in u)) as A2.
      rewrite E in A1. apply elem_of_app in Hc2 as [Hc2|[->|Hc2]%elem_of_cons]; [exfalso|done|exfalso].
      - apply (H1 (Tree.addr u)); [apply Tree.elem_addrs_of; eauto|]. rewrite elem_of_app. by left.
      - apply (H2 (Tree.addr u) A1). apply Tree.elem_addrs_of. eauto. }
    rewrite Forall_forall in IH. apply (IH c1 Hc1); try done. by apply (Tree.NoDup_child c1 cs).
Qed.

Lemma name_alter p f r : val (Tree.alter p f r) = val r.
Proof. destruct r as [q v cs]. cbn [Tree.alter]. by destruct (q =? p). Qed.

Section Leaf.
Context (r : Tree.rose) (q w : ptr) (ds : list Tree.rose) (l : Tree.rose).
Hypothesis (Hn : NoDup (Tree.addrs r)) (Hq : Tree.subtree r (Tree.Rose q w ds)) (Hl : kids l = []).

Let grow := Tree.alter q (fun _ => ds ++ [l]).

Lemma kids_grow t : Tree.subtree r t -> kids (grow t) = map grow (kids t) ++ (if Tree.addr t =? q then [l] else []).
Proof.
  intros Ht. destruct t as [p v cs]. unfold grow. cbn [Tree.alter Tree.addr kids]. destruct (Z.eqb_spec p q) as [->|]; cbn [kids].
  2: { by rewrite app_nil_r. }
  assert (Tree.Rose q v cs = Tree.Rose q w ds) as [= -> ->] by (by apply (subtree_unique r)).
  rewrite Tree.map_alter_absent; [done|]. pose proof (Tree.alter_split r q w ds Hn Hq) as (rest & E & _).
  rewrite E in Hn. apply NoDup_cons in Hn as [Hx _]. intros Hi. apply Hx. rewrite elem_of_app. by left.
Qed.

Lemma subtree_kid (t c : Tree.rose) : Tree.subtree r t -> c ∈ kids t -> Tree.subtree r c.
Proof. destruct t. apply subtree_child. Qed.

Lemma subtree_grow t : Tree.subtree (grow r) t -> t = l \/ exists t0, Tree.subtree r t0 /\ t = grow t0.
Proof.
  assert (forall u, Tree.subtree u t -> (u = l \/ exists u0, Tree.subtree r u0 /\ u = grow u0) ->
    t = l \/ exists t0, Tree.subtree r t0 /\ t = grow t0) as Hgen.
  { intros u Hu. induction Hu as [u|p v cs c u Hc Hu IH]; [done|]. intros [E|(u0 & Hu0 & E)].
    - rewrite <- E in Hl. cbn [kids] in Hl. subst cs. by apply elem_of_nil in Hc.
    - apply IH. pose proof (kids_grow u0 Hu0) as Hk. rewrite <- E in Hk. cbn [kids] in Hk. subst cs.
      apply elem_of_app in Hc as [Hc|Hc].
      + apply list_elem_of_fmap in Hc as (c0 & -> & Hc0). right. exists c0. split; [by apply (subtree_kid u0)|done].
      + destruct (Tree.addr u0 =? q); [apply list_elem_of_singleton in Hc as ->; by left|by apply elem_of_nil in Hc]. }
  intros Ht. apply (Hgen _ Ht). right. exists r. split; [constructor|done].
Qed.

Context (sn sn' : gmap ptr shm_node_t).
Hypothesis (Hsn : forall t c, Tree.subtree r t -> c ∈ kids t -> sn' !! val c = sn !! val c).

Lemma called_grow t c name : Tree.subtree r t -> c ∈ kids t -> called sn' name (grow c) = called sn name c.
Proof. intros Ht Hc. unfold called, grow. by rewrite name_alter, (Hsn t c). Qed.

Lemma find_grow t name : Tree.subtree r t ->
  List.find (called sn' name) (kids (grow t)) =
  match List.find (called sn name) (kids t) with
  | Some c => Some (grow c)
  | None => if (Tree.addr t =? q) && called sn' name l then Some l else None
  end.
Proof.
  intros Ht. rewrite kids_grow by done.
  assert (forall c, c ∈ kids t -> called sn' name (grow c) = called sn name c) as Hc by (intros; by apply (called_grow t)).
  induction (kids t) as [|c cs IH]; cbn [map app List.find].
  - destruct (Tree.addr t =? q); [|done]. cbn [List.find andb]. by destruct (called sn' name l).
  - rewrite Hc by left. destruct (called sn name c); [done|]. apply IH. intros. apply Hc. by right.
Qed.

(** Every walk of the old tree leads to the same node of the new one. *)
Lemma walk_grow t ts u : Tree.subtree r t -> walk sn t ts = Some u -> walk sn' (grow t) ts = Some (grow u) /\ Tree.subtree r u.
Proof.
  revert t. induction ts as [|n ts IH]; intros t Ht; cbn [walk]; [by intros [= <-]|].
  rewrite find_grow by done. destruct (List.find (called sn n) (kids t)) as [c|] eqn:E; [|done]. cbn.
  apply find_elem in E as [Hc _]. apply IH. by apply (subtree_kid t).
Qed.

(** A walk of the new tree is one of the old tree, or ends in the leaf. *)
Lemma walk_grow_inv t ts u : Tree.subtree r t -> walk sn' (grow t) ts = Some u ->
  (exists u0, walk sn t ts = Some u0 /\ u = grow u0) \/
  (exists pre n, ts = pre ++ [n] /\ walk sn t pre = Some (Tree.Rose q w ds) /\ called sn' n l = true /\ u = l).
Proof.
  revert t. induction ts as [|n ts IH]; intros t Ht; cbn [walk]; [intros [= <-]; left; eauto|].
  rewrite find_grow by done. destruct (List.find (called sn n) (kids t)) as [c|] eqn:E; cbn [mbind option_bind].
  - pose proof E as [Hc _]%find_elem. intros Hw. apply IH in Hw as [Hw|(pre & n' & -> & Hw)]; [by left| |by apply (subtree_kid t)].
    right. exists (n :: pre), n'. split; [done|]. cbn [walk]. by rewrite E.
  - destruct (Z.eqb_spec (Tree.addr t) q) as [Ea|]; [|done]. destruct (called sn' n l) eqn:El; [|done]. cbn.
    intros Hw. right. exists [], n. destruct ts as [|n' ts].
    + cbn [walk] in Hw. injection Hw as <-. split; [done|]. split; [|done]. cbn. f_equal. by apply (subtree_unique r).
    + cbn [walk] in Hw. by rewrite Hl in Hw.
Qed.

End Leaf.

Lemma walk_app sn r a b : walk sn r (a ++ b) = walk sn r a ≫= fun t => walk sn t b.
Proof. revert r. induction a as [|n a IH]; intros r; [done|]. cbn [app walk]. destruct (List.find _ _); [apply IH|done]. Qed.

Lemma walk_subtree sn r ts u : walk sn r ts = Some u -> Tree.subtree r u.
Proof.
  revert r. induction ts as [|n ts IH]; intros r; cbn [walk]; [intros [= <-]; constructor|].
  destruct (List.find (called sn n) (kids r)) as [c|] eqn:E; [|done]. cbn. intros Hw%IH. apply find_elem in E as [Hc _].
  destruct r. by apply Tree.subtree_below with c.
Qed.

(** *** Looking names up *)

Section Walk.
Context `{Tree.NodeAlloc} `{SnodeAlloc}.

Lemma get_node_step fuel st r p v cs t ts create :
  names_inv st r -> Tree.subtree r (Tree.Rose p v cs) -> Forall name_ok (t :: ts) ->
  _get_node (S fuel) st (path_of (t :: ts)) create p =
  match List.find (called (snodes st) t) cs with
  | Some c => match ts with [] => Ret (st, val c) | _ => _get_node fuel st (path_of ts) create (Tree.addr c) end
  | None =>
      if create then
        '(st, nnode, nsnode) ← add_node st p t;
        match ts with [] => Ret (st, nsnode) | _ => _get_node fuel st (path_of ts) create nnode end
      else Ret (st, NULL)
  end.
Proof.
  intros Hi Hs Hts. apply Forall_cons in Hts as [(Ht & Hc & _) Hts].
  assert (Forall (token_ok SHM_PATH_SEPARATOR) ts) as Htok by (eapply Forall_impl; [exact Hts|]; by intros x [? _]).
  cbn [_get_node]. rewrite strtok_path by done. destruct (kids_rep _ _ _ _ _ Hi Hs) as [-> Hr]. cbn [mbind outcome_bind Tree.children].
  rewrite (find_child_ok st p cs t Hr (named_kids _ _ _ _ _ Hi Hs) Hc). cbn [mbind outcome_bind].
  assert (forall {A} (x y : A), match path_of ts with [] => x | _ => y end = match ts with [] => x | _ => y end) as Em.
  { intros A x y. destruct ts as [|t' ts']; [done|]. apply Forall_cons in Htok as [Ht' _].
    pose proof (path_nonempty t' ts' Ht'). by destruct (path_of (t' :: ts')). }
  destruct (List.find _ cs) as [c|]; cbn [fmap option_fmap option_map]; [by rewrite Em|]. destruct create; [|done].
  cbn [of_option mbind outcome_bind]. destruct (add_node st p t) as [[[? ?] ?]| |]; [|done|done]. cbn. by rewrite Em.
Qed.

(** Without [create], and for names that exist, [_get_node] is [walk]. *)
Lemma get_node_walk fuel st r t ts create :
  names_inv st r -> Tree.subtree r t -> ts <> [] -> Forall name_ok ts -> (length (path_of ts) < fuel)%nat ->
  (create = false \/ is_Some (walk (snodes st) t ts)) ->
  _get_node fuel st (path_of ts) create (Tree.addr t) = Ret (st, default NULL (val <$> walk (snodes st) t ts)).
Proof.
  intros Hi. revert fuel t. induction ts as [|n ts IH]; intros fuel t Ht Hne Hok Hf Hc; [done|]. destruct fuel as [|fuel]; [lia|].
  destruct t as [p v cs]. cbn [Tree.addr]. rewrite (get_node_step fuel st r p v cs) by done.
  pose proof Hok as [[Hn _] Hok']%Forall_cons. pose proof (path_length n ts Hn). cbn [walk kids] in *.
  destruct (List.find (called (snodes st) n) cs) as [c|] eqn:E; cbn [mbind option_bind] in *.
  - apply find_elem in E as [Hc' _]. destruct ts as [|n' ts]; [done|].
    apply IH; [by apply (subtree_child r p v cs)|done|done|lia|done].
  - destruct Hc as [->|[? ?]]; done.
Qed.

(** *** Adding names *)

Definition room (r : Tree.rose) (k : nat) : Prop := Z.of_nat (length (Tree.addrs r)) + Z.of_nat k < 2147483648.

(** Every name keeps its node, and the nodes that are new have no memory. *)
Record extends (st : names) (r : Tree.rose) (st' : names) (r' : Tree.rose) : Prop := {
  ext_walk ts u : walk (snodes st) r ts = Some u ->
    exists u', walk (snodes st') r' ts = Some u' /\ val u' = val u /\ Tree.addr u' = Tree.addr u;
  ext_old x n : snodes st !! x = Some n -> snodes st' !! x = Some n;
  ext_new x n : snodes st' !! x = Some n -> snodes st !! x = None -> chunk n = NULL /\ x <> NULL
}.

Lemma extends_refl st r : extends st r st r.
Proof. split; [eauto|done|congruence]. Qed.

Lemma extends_trans st1 r1 st2 r2 st3 r3 : extends st1 r1 st2 r2 -> extends st2 r2 st3 r3 -> extends st1 r1 st3 r3.
Proof.
  intros [W1 O1 N1] [W2 O2 N2]. split.
  - intros ts u (u2 & Hw & E1 & E2)%W1. apply W2 in Hw as (u3 & Hw & E3 & E4). exists u3. split; [done|]. split; congruence.
  - auto.
  - intros x n H3 H1. destruct (snodes st2 !! x) as [n2|] eqn:E2; [|by apply N2].
    apply O2 in E2 as E3. replace n with n2 by congruence. by apply N1.
Qed.

(** A walk ends at the root or at a named node. *)
Lemma walk_named st r ts u : names_inv st r -> walk (snodes st) r ts = Some u ->
  (ts = [] /\ u = r) \/ named (snodes st) u.
Proof.
  intros Hi. destruct ts as [|n ts] using rev_ind; [intros [= <-]; by left|]. rewrite walk_app. intros Hw. right.
  destruct (walk (snodes st) r ts) as [t|] eqn:Et; [|done]. cbn in Hw. destruct (List.find _ (kids t)) as [c|] eqn:E; [|done].
  cbn in Hw. injection Hw as <-. apply find_elem in E as [Hc _]. apply (ni_named _ _ Hi t); [|done]. by eapply walk_subtree.
Qed.

Lemma add_node_ok st r q w ds t :
  names_inv st r -> Tree.subtree r (Tree.Rose q w ds) -> name_ok t -> room r 1 -> List.find (called (snodes st) t) ds = None ->
  exists st' p v r', add_node st q t = Ret (st', p, v) /\ names_inv st' r' /\ extends st r st' r' /\
    (forall pre, walk (snodes st) r pre = Some (Tree.Rose q w ds) -> walk (snodes st') r' (pre ++ [t]) = Some (Tree.Rose p v [])) /\
    length (Tree.addrs r') = S (length (Tree.addrs r)) /\ snodes st !! v = None.
Proof.
  intros Hi Hs (Ht & Hc & Hlen) Hroom Hno. pose proof Hi as [Htree Hroot Hnamed Hinj]. unfold add_node.
  rewrite (proj2 (Z.ltb_ge _ _) Hlen). set (v := new_snode (snodes st)).
  pose proof (new_snode_nonnull (snodes st)) as Hv0. pose proof (new_snode_fresh (snodes st)) as Hvf. fold v in Hv0, Hvf.
  destruct (Tree.insert_child_ok (shm_tree st) r q w ds v Htree Hs Hroom) as (tr & p & -> & Hp & Htree' & _).
  cbn [mbind outcome_bind]. set (l := Tree.Rose p v []) in *. set (sn' := <[v := Snode t NULL]> (snodes st)).
  pose proof (Tree.inv_nodup _ _ Htree) as Hnd.
  assert (forall u c, Tree.subtree r u -> c ∈ kids u -> sn' !! val c = snodes st !! val c) as Hsn.
  { intros u c Hu Hk. destruct (Hnamed u c Hu Hk) as (n & _ & E & _). unfold sn'. rewrite lookup_insert_ne; [done|congruence]. }
  assert (called sn' t l = true) as Hcl by (unfold called, sn'; cbn [val l]; rewrite lookup_insert_eq; cbn; by case_bool_decide).
  assert (forall n, called sn' n l = true -> n = t) as Hcl'.
  { intros n. unfold called, sn'. cbn [val l]. rewrite lookup_insert_eq. cbn. case_bool_decide; done. }
  eexists _, p, v, (Tree.alter q (fun _ => ds ++ [l]) r). split; [done|].
  assert (forall ts u, walk (snodes st) r ts = Some u -> exists u', walk sn' (Tree.alter q (fun _ => ds ++ [l]) r) ts = Some u' /\ val u' = val u /\ Tree.addr u' = Tree.addr u) as Hw.
  { intros ts u Hw. exists (Tree.alter q (fun _ => ds ++ [l]) u).
    destruct (walk_grow r q w ds l Hnd Hs (snodes st) sn' Hsn r ts u (Tree.subtree_here _) Hw) as [-> _].
    by rewrite name_alter, Tree.addr_alter. }
  assert (forall u ts, walk (snodes st) r ts = Some u -> val u <> v) as Hold.
  { intros u ts Hu E. destruct (walk_named st r ts u Hi Hu) as [[_ ->]|(n & _ & En & _)]; congruence. }
  split; [split; cbn [shm_tree snodes]|split; [|split; [|split]]].
  - done.
  - by rewrite name_alter.
  - intros u c Hu Hk. apply (subtree_grow r q w ds l Hnd Hs eq_refl) in Hu as [->|(u0 & Hu & ->)]; [by apply elem_of_nil in Hk|].
    rewrite (kids_grow r q w ds l Hnd Hs u0 Hu) in Hk. apply elem_of_app in Hk as [Hk|Hk].
    + apply list_elem_of_fmap in Hk as (c0 & -> & Hk). destruct (Hnamed u0 c0 Hu Hk) as (n & Hn0 & En & Hnc).
      exists n. rewrite name_alter. by rewrite (Hsn u0 c0).
    + destruct (Tree.addr u0 =? q); [|by apply elem_of_nil in Hk]. apply list_elem_of_singleton in Hk as ->.
      exists (Snode t NULL). split; [done|]. split; [apply lookup_insert_eq|done].
  - intros ts ts' u u' Hu Hu' E.
    apply (walk_grow_inv r q w ds l Hnd Hs eq_refl (snodes st) sn' Hsn r) in Hu, Hu'; [|constructor..].
    destruct Hu as [(u0 & Hu & ->)|(pre & n & -> & Hu & Hn & ->)], Hu' as [(u1 & Hu' & ->)|(pre' & n' & -> & Hu' & Hn' & ->)];
      rewrite ?name_alter in E.
    + by apply (Hinj _ _ u0 u1).
    + by destruct (Hold u0 ts).
    + by destruct (Hold u1 ts').
    + apply Hcl' in Hn, Hn'. subst n n'. f_equal. by apply (Hinj _ _ _ _ Hu Hu').
  - split; cbn [snodes]; [done| |].
    + intros x n E. unfold sn'. rewrite lookup_insert_ne; [done|congruence].
    + unfold sn'. intros x n E Ex. destruct (decide (x = v)) as [->|]; [|rewrite lookup_insert_ne in E by done; congruence].
      rewrite lookup_insert_eq in E. by injection E as <-.
  - intros pre Hpre. cbn [snodes]. rewrite walk_app.
    destruct (walk_grow r q w ds l Hnd Hs (snodes st) sn' Hsn r pre _ (Tree.subtree_here _) Hpre) as [-> _]. cbn [mbind option_bind walk].
    rewrite (find_grow r q w ds l Hnd Hs (snodes st) sn' Hsn _ t Hs). cbn [kids Tree.addr]. rewrite Hno, Z.eqb_refl, Hcl. done.
  - destruct (Tree.alter_split r q w ds Hnd Hs) as (rest & E & Ealt). rewrite Ealt, E, Tree.addrs_of_app.
    cbn [length]. rewrite !length_app. cbn. lia.
  - done.
Qed.

(** With [create], the names that are missing are added below the node the others lead to. *)
Lemma get_node_create fuel st r t pre ts :
  names_inv st r -> walk (snodes st) r pre = Some t -> ts <> [] -> Forall name_ok ts -> (length (path_of ts) < fuel)%nat -> room r (length ts) ->
  exists st' r' u, _get_node fuel st (path_of ts) true (Tree.addr t) = Ret (st', val u) /\ names_inv st' r' /\ extends st r st' r' /\
    walk (snodes st') r' (pre ++ ts) = Some u /\ (walk (snodes st) r (pre ++ ts) = None -> snodes st !! val u = None).
Proof.
  revert fuel st r t pre. induction ts as [|n ts IH]; intros fuel st r t pre Hi Hw Hne Hok Hf Hr; [done|]. destruct fuel as [|fuel]; [lia|].
  pose proof (walk_subtree _ _ _ _ Hw) as Ht. destruct t as [p v cs]. cbn [Tree.addr]. rewrite (get_node_step fuel st r p v cs) by done.
  pose proof Hok as [Hn Hok']%Forall_cons. pose proof (path_length n ts (proj1 Hn)). unfold room in Hr. cbn [length] in Hr.
  replace (pre ++ n :: ts) with ((pre ++ [n]) ++ ts) by (by rewrite <- app_assoc).
  destruct (List.find (called (snodes st) n) cs) as [c|] eqn:E.
  - assert (walk (snodes st) r (pre ++ [n]) = Some c) as Hwc by (rewrite walk_app, Hw; cbn; by rewrite E).
    destruct ts as [|n' ts]; [|apply (IH fuel st r c); [done|done|done|done|lia|unfold room; lia]].
    rewrite app_nil_r. exists st, r, c. split; [done|]. split; [done|]. split; [apply extends_refl|]. split; [done|congruence].
  - destruct (add_node_ok st r p v cs n Hi Ht Hn) as (st' & q & w & r' & -> & Hi' & He & Hw' & Hl & Hfresh); [unfold room; lia|done|].
    cbn [mbind outcome_bind]. specialize (Hw' pre Hw). destruct ts as [|n' ts].
    + rewrite app_nil_r. exists st', r', (Tree.Rose q w []). done.
    + destruct (IH fuel st' r' (Tree.Rose q w []) (pre ++ [n]) Hi' Hw') as (st2 & r2 & u & E2 & Hi2 & He2 & Hw2 & Hnew); [done|done|lia|unfold room; lia|].
      exists st2, r2, u. split; [exact E2|]. split; [done|]. split; [by eapply extends_trans|]. split; [done|]. intros _.
      assert (snodes st' !! val u = None) as Hno by (apply Hnew; by rewrite walk_app, Hw').
      destruct (snodes st !! val u) as [n0|] eqn:En0; [|done]. apply (ext_old _ _ _ _ He) in En0. congruence.
Qed.

(** [get_node] on a path of names: without [create] the node the names lead to, or [NULL];
    with it always a node, the same one from then on, while every other name keeps its
    own. *)
Lemma get_node_ok st r ts :
  names_inv st r -> ts <> [] -> Forall name_ok ts ->
  get_node st (path_of ts) false = Ret (st, default NULL (lookup_name (snodes st) r ts)) /\
  (room r (length ts) -> exists st' r' p, get_node st (path_of ts) true = Ret (st', p) /\ names_inv st' r' /\ extends st r st' r' /\
     lookup_name (snodes st') r' ts = Some p /\ (is_Some (lookup_name (snodes st) r ts) -> st' = st /\ r' = r) /\
     (lookup_name (snodes st) r ts = None -> snodes st !! p = None)).
Proof.
  intros Hi Hne Hok. unfold get_node. rewrite (Tree.inv_root _ _ (ni_tree _ _ Hi)).
  split; [apply (get_node_walk _ _ r); [done|constructor|done|done|lia|by left]|]. intros Hr.
  destruct (walk (snodes st) r ts) as [u|] eqn:E.
  - exists st, r, (val u). rewrite (get_node_walk _ _ r r ts true Hi); [|constructor|done|done|lia|rewrite E; eauto].
    rewrite E. split; [done|]. split; [done|]. split; [apply extends_refl|]. unfold lookup_name. rewrite E. done.
  - destruct (get_node_create (S (length (path_of ts))) st r r [] ts Hi) as (st' & r' & u & -> & Hi' & He & Hw & Hnew); [done|done|done|lia|done|].
    exists st', r', (val u). split; [done|]. split; [done|]. split; [done|]. unfold lookup_name. rewrite E. cbn [app] in Hw. rewrite Hw.
    split; [done|]. split; [by intros [? ?]|]. intros _. by apply Hnew.
Qed.

End Walk.

(** *** The memory of a node changes *)

Lemma called_names sn sn' t c : (forall v, name <$> sn' !! v = name <$> sn !! v) -> called sn' t c = called sn t c.
Proof. intros E. unfold called. specialize (E (val c)). destruct (sn' !! val c), (sn !! val c); cbn in E; try done. injection E as E. by rewrite E. Qed.

Lemma walk_names sn sn' r ts : (forall v, name <$> sn' !! v = name <$> sn !! v) -> walk sn' r ts = walk sn r ts.
Proof.
  intros E. revert r. induction ts as [|t ts IH]; intros r; [done|]. cbn [walk].
  assert (forall cs, List.find (called sn' t) cs = List.find (called sn t) cs) as ->.
  { induction cs as [|c cs IHc]; [done|]. cbn [List.find]. by rewrite (called_names sn sn'), IHc. }
  destruct (List.find _ _); [apply IH|done].
Qed.

Lemma names_change tr sn sn' r : names_inv (Names tr sn) r -> (forall v, name <$> sn' !! v = name <$> sn !! v) -> names_inv (Names tr sn') r.
Proof.
  intros [Ht Hr Hn Hi] E. split; cbn [shm_tree snodes] in *; [done|done| |].
  - intros t c Hs Hc. destruct (Hn t c Hs Hc) as (n & H0 & En & Hok). pose proof (E (val c)) as Ec. rewrite En in Ec.
    destruct (sn' !! val c) as [n'|] eqn:En'; [|done]. cbn in Ec. injection Ec as Ec. exists n'. rewrite Ec. done.
  - intros ts ts' u u'. rewrite !(walk_names sn sn') by done. apply Hi.
Qed.

End ShmNames.
