(* ===== verification/ShmSpec.v ===== *)
(** * What shared memory promises ([kernel/src/mem/shm.c])

    The invariant of [Shm]'s state, and the theorems: mappings of a process lie apart
    and lead to the frames of a live chunk, a chunk's reference count is the number of its
    mappings, the frames of different chunks are different and stay allocated while the
    chunk lives, and obtaining a name gives every process the same frames. *)

From stdpp Require Import base gmap numbers list.
From S2P Require Import Prelude CString LinkedList Tree Frames Paging Spaces ShmNames Shm.

Module ShmSpec.
Import Frames Paging Spaces ShmNames Shm.

(** The first page table of the region. *)
Definition SHM_TABLE : Z := SHM_START / 0x400000.

(** ** Runs of pages *)

Fixpoint run_of (v : Z) (n : nat) : list Z :=
  match n with O => [] | S n' => v :: run_of (v + 0x1000) n' end.

(** The address leads to the frame in the directory. *)
Definition leads (m : memory) (dir v f : Z) : Prop :=
  exists p, entry m dir (v / 0x1000) = Some p /\ present p = 1 /\ frame p = f.

Lemma shm_page v : SHM_START <= v -> SHM_TABLE * 1024 <= v / 0x1000.
Proof. intros Hv. apply Z.div_le_lower_bound; [lia|exact Hv]. Qed.

Lemma aligned_next v : v mod 0x1000 = 0 -> (v + 0x1000) mod 0x1000 = 0 /\ (v + 0x1000) / 0x1000 = v / 0x1000 + 1.
Proof. Z.to_euclidean_division_equations; lia. Qed.

Lemma run_of_lookup v n i x : run_of v n !! i = Some x -> x = v + 0x1000 * Z.of_nat i /\ (i < n)%nat.
Proof.
  revert v i. induction n as [|n IH]; intros v [|i]; cbn [run_of lookup list_lookup]; try done.
  - intros [= <-]. lia.
  - intros Hx%IH. lia.
Qed.

Lemma length_run_of v n : length (run_of v n) = n.
Proof. revert v. induction n; intros v; cbn; [done|]. by f_equal. Qed.

(** The pages of a run, one by one: what [map_gap] and [map_sbrk] have in common. *)
Section Run.
Context `{KernelHeap}.

Fixpoint map_run (m : memory) (dir v : Z) (fs : list Z) : outcome memory :=
  match fs with
  | [] => Ret m
  | f :: fs' => m ← map_page m dir v f; map_run m dir (v + 0x1000) fs'
  end.

Lemma drop_cons {A} (l : list A) i x k : drop i l = x :: k -> l !! i = Some x /\ drop (S i) l = k.
Proof.
  intros E. split; [by rewrite <- (Nat.add_0_r i), <- lookup_drop, E|].
  replace (S i) with (i + 1)%nat by lia. by rewrite <- drop_drop, E.
Qed.

Lemma map_gap_run m dir frames last i fs :
  0 <= last -> 0 <= i -> drop (Z.to_nat i) frames = fs -> last + 0x1000 * (i + Z.of_nat (length fs)) <= 4294967296 ->
  map_gap m dir frames last i (length fs) =
  (m' ← map_run m dir (last + 0x1000 * i) fs; Ret (m', run_of (last + 0x1000 * i) (length fs))).
Proof.
  revert m i. induction fs as [|f fs IH]; intros m i Hl Hi Hd Hb; cbn [length map_gap map_run run_of]; [done|].
  cbn [length] in Hb. destruct (drop_cons _ _ _ _ Hd) as [Hf Hd']. rewrite (aget_lookup frames i f) by done. cbn [mbind outcome_bind].
  rewrite (u32_small (i * 0x1000)), u32_small by lia. replace (last + i * 0x1000) with (last + 0x1000 * i) by lia.
  destruct (map_page m dir (last + 0x1000 * i) f) as [m1| |]; [|done|done]. cbn [mbind outcome_bind].
  rewrite (IH m1 (i + 1)); [|lia|lia|by replace (Z.to_nat (i + 1)) with (S (Z.to_nat i)) by lia|lia].
  replace (last + 0x1000 * (i + 1)) with (last + 0x1000 * i + 0x1000) by lia. by destruct (map_run _ _ _ _).
Qed.

Lemma map_sbrk_run m t frames i fs :
  0 <= shm_heap t -> shm_heap t mod 0x1000 = 0 -> 0 <= i -> drop (Z.to_nat i) frames = fs ->
  shm_heap t + 0x1000 * Z.of_nat (length fs) < 4294967296 ->
  map_sbrk m t frames i (length fs) =
  (m' ← map_run m (page_directory t) (shm_heap t) fs;
   Ret (m', set_shm_heap t (shm_heap t + 0x1000 * Z.of_nat (length fs)), run_of (shm_heap t) (length fs))).
Proof.
  revert m t i. induction fs as [|f fs IH]; intros m t i Hh Ha Hi Hd Hb; cbn [length map_sbrk map_run run_of].
  { cbn [length mbind outcome_bind]. change (0x1000 * Z.of_nat 0) with 0. rewrite Z.add_0_r. destruct t. reflexivity. }
  cbn [length] in Hb. destruct (drop_cons _ _ _ _ Hd) as [Hf Hd']. unfold proc_sbrk. rewrite Ha. cbn [truthy Z.eqb negb].
  rewrite (aget_lookup frames i f) by done. cbn [mbind outcome_bind].
  change (u32 (1 * 0x1000)) with 0x1000. rewrite u32_small by lia. cbn [set_shm_heap page_directory].
  destruct (map_page m (page_directory t) (shm_heap t) f) as [m1| |]; [|done|done]. cbn [mbind outcome_bind].
  destruct (aligned_next _ Ha) as [Ha' _].
  rewrite (IH m1 (set_shm_heap t (shm_heap t + 0x1000)) (i + 1)); cbn [set_shm_heap shm_heap page_directory group shm_mappings];
    [|lia|done|lia|by replace (Z.to_nat (i + 1)) with (S (Z.to_nat i)) by lia|lia].
  replace (shm_heap t + 0x1000 + 0x1000 * Z.of_nat (length fs)) with (shm_heap t + 0x1000 * Z.of_nat (S (length fs))) by lia.
  by destruct (map_run _ _ _ _).
Qed.

End Run.

Section Mapped.
Context `{UserHeap}.

Lemma alloc_present fs p : frame p <> 0 -> alloc_frame fs p 0 1 = Ret (fs, grant p 0 1 (frame p)).
Proof. intros Hp. unfold alloc_frame. by rewrite (proj2 (Z.eqb_neq _ _) Hp). Qed.

Lemma map_page_ok n lo m D dir v f :
  heap_inv (S n) m -> spaces lo m D -> dir ∈ D -> 0 <= v < 4294967296 -> v mod 0x1000 = 0 -> lo * 1024 <= v / 0x1000 -> 0 < f < 1048576 ->
  exists m', map_page m dir v f = Ret m' /\ heap_inv n m' /\ spaces lo m' D /\ keeps (fr m) (fr m') /\ leads m' dir v f /\
    forall dir' q p, dir' ∈ D -> lo * 1024 <= q -> dir' <> dir \/ q <> v / 0x1000 -> entry m dir' q = Some p -> entry m' dir' q = Some p.
Proof.
  intros Hi Hs Hd Hv Ha Hlo Hf. unfold map_page. assert (v = v / 0x1000 * 0x1000 + 0) as Ev by (Z.to_euclidean_division_equations; lia).
  assert (forall fs p, alloc_frame fs (with_frame p f) 0 1 = Ret (fs, grant (with_frame p f) 0 1 f)) as Hal.
  { intros fs p. rewrite alloc_present; cbn [with_frame frame]; rewrite (Z.mod_small f) by lia; [done|lia]. }
  set (F := fun fs p => alloc_frame fs (with_frame p f) 0 1).
  assert (update_page m v dir F = update_page m (v / 0x1000 * 0x1000 + 0) dir F) as -> by (by rewrite <- Ev).
  destruct (update_page_ok n lo m D dir (v / 0x1000) 0 F Hi Hs Hd)
    as (m0 & p & fs & p' & m' & -> & (_ & Hk0 & He) & _ & Ef & Efr & Hk & Hi' & Hs' & Hp' & Ho).
  - split; [apply Z.div_pos; lia|]. apply Z.div_lt_upper_bound; lia.
  - done.
  - lia.
  - intros fs p Hk _. unfold F. rewrite Hal. eexists _, _. split; [done|]. apply keeps_refl, Hk.
  - unfold F in Ef. rewrite Hal in Ef. injection Ef as <- <-. exists m'. split; [done|]. split; [done|]. split; [done|]. split; [rewrite Efr; done|]. split.
    + exists (grant (with_frame p f) 0 1 f). done.
    + intros dir' q p0 Hd' Hq Hne E. rewrite Ho; [by apply He|done|done|]. intros [= -> ->]. tauto.
Qed.

Lemma map_run_ok n lo m D dir v fs :
  heap_inv (length fs + n) m -> spaces lo m D -> dir ∈ D -> 0 <= v -> v + 0x1000 * Z.of_nat (length fs) <= 4294967296 ->
  v mod 0x1000 = 0 -> lo * 1024 <= v / 0x1000 -> Forall (fun f => 0 < f < 1048576) fs -> wf (fr m) ->
  exists m', map_run m dir v fs = Ret m' /\ spaces lo m' D /\ keeps (fr m) (fr m') /\
    Forall2 (leads m' dir) (run_of v (length fs)) fs /\
    forall dir' q p, dir' ∈ D -> lo * 1024 <= q -> dir' <> dir \/ q < v / 0x1000 \/ v / 0x1000 + Z.of_nat (length fs) <= q ->
      entry m dir' q = Some p -> entry m' dir' q = Some p.
Proof.
  revert m v. induction fs as [|f fs IH]; intros m v Hi Hs Hd Hv Hb Ha Hlo Hf Hwf; cbn [map_run length run_of] in *.
  { exists m. split; [done|]. split; [done|]. split; [by apply keeps_refl|]. split; [constructor|done]. }
  apply Forall_cons in Hf as [Hf Hfs]. destruct (aligned_next v Ha) as [Ha' Ed].
  destruct (map_page_ok (length fs + n) lo m D dir v f Hi Hs Hd) as (m1 & -> & Hi1 & Hs1 & Hk1 & Hl1 & Ho1); [lia|done|done|done|].
  cbn [mbind outcome_bind].
  destruct (IH m1 (v + 0x1000)) as (m' & -> & Hs' & Hk' & Hl' & Ho'); [done|done|done|lia|lia|done|lia|done|apply Hk1|].
  exists m'. split; [done|]. split; [done|]. split; [by etransitivity|]. split; [constructor; [|done]|].
  - destruct Hl1 as (p & Hp & Hpp). exists p. split; [|done]. apply Ho'; [done|lia|lia|done].
  - intros dir' q p Hd' Hq Hne E. apply Ho'; [done|done|lia|]. apply Ho1; [done|done|lia|done].
Qed.

End Mapped.

(** ** Mappings of a process in order *)

(** The mappings are runs of pages between [lo] and [hi], in ascending order. *)
Fixpoint layout (lo : Z) (ms : list shm_mapping_t) (hi : Z) : Prop :=
  match ms with
  | [] => lo <= hi
  | m :: ms' => exists v, vaddrs m = run_of v (Z.to_nat (num_vaddrs m)) /\ lo <= v /\ v mod 0x1000 = 0 /\ 0 < num_vaddrs m /\
      layout (v + 0x1000 * num_vaddrs m) ms' hi
  end.

Lemma layout_le lo ms hi : layout lo ms hi -> lo <= hi.
Proof. revert lo. induction ms as [|m ms IH]; intros lo; cbn [layout]; [done|]. intros (v & _ & ? & _ & ? & Hl%IH). lia. Qed.

Lemma layout_mono lo lo' ms hi hi' : layout lo ms hi -> lo' <= lo -> hi <= hi' -> layout lo' ms hi'.
Proof.
  revert lo lo'. induction ms as [|m ms IH]; intros lo lo'; cbn [layout]; [lia|]. intros (v & E & ? & ? & ? & Hl) ? ?.
  exists v. split; [done|]. split; [lia|]. split; [done|]. split; [done|]. by apply (IH _ _ Hl).
Qed.

Lemma layout_app lo a b hi : layout lo (a ++ b) hi <-> exists mid, layout lo a mid /\ layout mid b hi.
Proof.
  revert lo. induction a as [|m a IH]; intros lo; cbn [app layout].
  - split; [intros Hl; by exists lo|]. intros (mid & Hm & Hl). by apply (layout_mono mid _ _ hi).
  - split.
    + intros (v & E & ? & ? & ? & (mid & Ha & Hb)%IH). exists mid. split; [|done]. exists v. done.
    + intros (mid & (v & E & ? & ? & ? & Ha) & Hb). exists v. do 4 (split; [done|]). apply IH. by exists mid.
Qed.

Lemma layout_delete lo a m b hi : layout lo (a ++ m :: b) hi -> layout lo (a ++ b) hi.
Proof.
  rewrite !layout_app. intros (mid & Ha & (v & _ & ? & _ & ? & Hb)). exists mid. split; [done|].
  apply (layout_mono (v + 0x1000 * num_vaddrs m) _ _ hi); [done|lia|done].
Qed.

Lemma layout_elem lo ms hi m v : layout lo ms hi -> m ∈ ms -> v ∈ vaddrs m -> lo <= v /\ v + 0x1000 <= hi /\ v mod 0x1000 = 0.
Proof.
  intros Hl (a & b & ->)%list_elem_of_split Hv. apply layout_app in Hl as (mid & Ha%layout_le & (w & E & ? & Hw & ? & Hb%layout_le)).
  rewrite E in Hv. apply list_elem_of_lookup in Hv as [i [-> Hi]%run_of_lookup]. split; [lia|]. split; [lia|].
  rewrite <- Z.add_mod_idemp_l, Hw by lia. replace (0 + 0x1000 * Z.of_nat i) with (Z.of_nat i * 0x1000) by lia. apply Z.mod_mul. lia.
Qed.

(** The pages of a mapping are not those of the others. *)
Lemma layout_apart lo a m b hi v : layout lo (a ++ m :: b) hi -> vaddrs m = run_of v (Z.to_nat (num_vaddrs m)) -> 0 < num_vaddrs m ->
  forall m' v', m' ∈ a ++ b -> v' ∈ vaddrs m' -> v' / 0x1000 < v / 0x1000 \/ v / 0x1000 + num_vaddrs m <= v' / 0x1000.
Proof.
  intros (mid & Ha & (w & E & ? & Hw & Hn & Hb))%layout_app Ev _ m' v' Hm Hv.
  assert (v = w) as -> by (rewrite E in Ev; destruct (Z.to_nat (num_vaddrs m)) eqn:En; [lia|]; by injection Ev).
  apply elem_of_app in Hm as [Hm|Hm].
  - destruct (layout_elem _ _ _ _ _ Ha Hm Hv) as (_ & ? & ?). left. Z.to_euclidean_division_equations; lia.
  - destruct (layout_elem _ _ _ _ _ Hb Hm Hv) as (? & _ & ?). right. Z.to_euclidean_division_equations; lia.
Qed.

(** Where a new mapping of [n] pages goes. *)
Lemma find_gap_ok s ms k lo n hi :
  Forall (fun m => exists c x, chunks s !! m_chunk m = Some c /\ snodes (nm s) !! parent c = Some x) ms ->
  layout lo ms hi -> 0 <= lo -> lo mod 0x1000 = 0 -> hi < 4294967296 -> 0 < n -> 0x1000 * n < 4294967296 ->
  (exists j v, find_gap s ms k lo (u32 (n * 0x1000)) = Ret (inl ((k + j)%nat, v)) /\ lo <= v /\ v mod 0x1000 = 0 /\
     v + 0x1000 * n <= hi /\ forall x, layout lo (take j ms ++ Mapping x n (run_of v (Z.to_nat n)) :: drop j ms) hi) \/
  (exists v, find_gap s ms k lo (u32 (n * 0x1000)) = Ret (inr v) /\ lo <= v <= hi /\ v mod 0x1000 = 0 /\
     forall x w hi', v <= w -> w mod 0x1000 = 0 -> w + 0x1000 * n <= hi' -> layout lo (ms ++ [Mapping x n (run_of w (Z.to_nat n))]) hi').
Proof.
  intros Hc. revert k lo. induction Hc as [|m ms (c & x & Ec & Ex) Hc IH]; intros k lo Hl H0 Ha Hhi Hn Hnb; cbn [find_gap].
  { right. exists lo. split; [done|]. split; [cbn in Hl; lia|]. split; [done|]. intros x w hi' ? ? ?. cbn. exists w. cbn. eauto with lia. }
  pose proof Hl as (v & E & Hv & Hva & Hm & Hl'). pose proof (layout_le _ _ _ Hl') as Hle.
  assert (aget (vaddrs m) 0 = Ret v) as -> by (rewrite E; destruct (Z.to_nat (num_vaddrs m)) eqn:En; [lia|done]).
  cbn [mbind outcome_bind]. assert (u32 (s32 (v - lo)) = v - lo) as ->.
  { unfold u32, s32. rewrite Zminus_mod_idemp_l. replace (v - lo + 2147483648 - 2147483648) with (v - lo) by lia. apply Z.mod_small. lia. }
  rewrite (u32_small (n * 0x1000)) in * by lia.
  destruct ((lo <? v) && (n * 0x1000 <=? v - lo)) eqn:Eg.
  - apply andb_true_iff in Eg as [_ Eg%Z.leb_le]. left. exists 0%nat, lo. rewrite Nat.add_0_r. split; [done|]. split; [lia|]. split; [done|].
    split; [lia|]. intros y. cbn [take drop app layout vaddrs num_vaddrs]. exists lo. do 4 (split; [done || lia|]).
    exists v. split; [done|]. split; [lia|done].
  - rewrite (u32_small (num_vaddrs m * 0x1000)), u32_small by lia. rewrite Ec. cbn [of_option mbind outcome_bind]. rewrite Ex.
    cbn [of_option mbind outcome_bind].
    replace (v + num_vaddrs m * 0x1000) with (v + 0x1000 * num_vaddrs m) by lia.
    assert ((v + 0x1000 * num_vaddrs m) mod 0x1000 = 0) as Ha' by (rewrite <- Z.add_mod_idemp_l, Hva by lia; rewrite Z.mul_comm; apply Z.mod_mul; lia).
    destruct (IH (S k) (v + 0x1000 * num_vaddrs m) Hl') as [(j & w & -> & Hw & Hwa & Hwh & Hx)|(w & -> & Hw & Hwa & Hx)]; [lia|done|done|done|done| |].
    + left. exists (S j), w. split; [do 3 f_equal; lia|]. split; [lia|]. split; [done|]. split; [done|]. intros y. cbn [take drop app layout]. exists v. eauto.
    + right. exists w. split; [done|]. split; [lia|]. split; [done|]. intros y w' hi' ? ? ?. cbn [app layout]. exists v. eauto 6.
Qed.

(** ** Frames *)

Lemma grab_frames_ok fs n :
  wf fs -> used fs 0 = true -> (n <= length (FrameInstance.free_list fs))%nat ->
  exists fs' l, grab_frames fs n = Ret (fs', l) /\ length l = n /\ NoDup l /\ keeps fs fs' /\
    Forall (fun f => 0 < f < nframes fs /\ used fs f = false /\ used fs' f = true) l.
Proof.
  revert fs. induction n as [|n IH]; intros fs Hwf H0 Hn; cbn [grab_frames].
  { exists fs, []. split; [done|]. split; [done|]. split; [constructor|]. split; [by apply keeps_refl|constructor]. }
  destruct (FrameInstance.free_list fs) as [|k0 l0] eqn:El; [cbn in Hn; lia|].
  assert (k0 ∈ FrameInstance.free_list fs) as [Hu0 Hm0]%FrameInstance.free_list_spec by (rewrite El; left).
  destruct (alloc_frame_new fs zero_page 0 0 Hwf eq_refl) as (k & f1 & -> & Hk & Hu & _ & Hwf1 & En & Hu1); [by exists k0|].
  cbn [mbind outcome_bind frame]. pose proof (managed_frame fs k Hk) as Hkn.
  pose proof (FrameInstance.free_list_take fs f1 k En Hk Hu Hu1) as Hp. rewrite El in Hp. apply Permutation_length in Hp. cbn [length] in Hp, Hn.
  assert (keeps fs f1) as Hk1 by (split; [done|]; split; [done|]; intros x Hx Hux; rewrite Hu1 by done; rewrite Hux; apply orb_true_r).
  destruct (IH f1 Hwf1) as (f2 & l & -> & Hl & Hnd & Hk2 & Hf); [by apply Hk1|lia|].
  cbn [mbind outcome_bind]. exists f2, (k :: l). split; [done|]. split; [by rewrite <- Hl|]. pose proof Hk2 as (_ & _ & Hmono).
  assert (used f1 k = true) as Huk by (rewrite Hu1, Z.eqb_refl by lia; done).
  split; [constructor; [|done]|split; [by etransitivity|constructor]].
  - intros Hin. rewrite Forall_forall in Hf. destruct (Hf k Hin) as (_ & Hc & _). congruence.
  - split; [|split; [done|by apply Hmono; [lia|]]]. split; [|lia]. destruct (decide (k = 0)) as [->|]; [congruence|lia].
  - eapply Forall_impl; [exact Hf|]. intros f (Hf1 & Hf2 & Hf3). rewrite En in Hf1. split; [done|]. split; [|done].
    rewrite Hu1 in Hf2 by lia. by apply orb_false_iff in Hf2 as [_ ?].
Qed.

Lemma clear_frames_ok fs frames i l :
  wf fs -> 0 <= i -> drop (Z.to_nat i) frames = l -> Forall (fun f => 0 <= f < nframes fs) l ->
  exists fs', clear_frames fs frames i (length l) = Ret fs' /\ wf fs' /\ nframes fs' = nframes fs /\
    forall x, 0 <= x -> used fs' x = negb (bool_decide (x ∈ l)) && used fs x.
Proof.
  revert fs i. induction l as [|f l IH]; intros fs i Hwf Hi Hd Hl; cbn [length clear_frames].
  { exists fs. split; [done|]. split; [done|]. split; [done|]. intros x _. by rewrite bool_decide_eq_false_2 by apply not_elem_of_nil. }
  destruct (drop_cons _ _ _ _ Hd) as [Hf Hd']. apply Forall_cons in Hl as [Hfr Hl].
  rewrite (aget_lookup frames i f) by done. cbn [mbind outcome_bind]. pose proof Hwf as (Hn & _). rewrite u32_small by lia.
  destruct (clear_frame_spec fs f Hwf Hfr) as (f1 & -> & Hwf1 & En & Hu1). cbn [mbind outcome_bind].
  destruct (IH f1 (i + 1)) as (f2 & -> & Hwf2 & En2 & Hu2); [done|lia|by replace (Z.to_nat (i + 1)) with (S (Z.to_nat i)) by lia|by rewrite En|].
  exists f2. split; [done|]. split; [done|]. split; [congruence|]. intros x Hx. rewrite Hu2, Hu1 by done.
  rewrite (bool_decide_ext (x ∈ f :: l) (x = f \/ x ∈ l)) by apply elem_of_cons. rewrite bool_decide_or, negb_orb, andb_assoc.
  f_equal. rewrite andb_comm. f_equal. f_equal. destruct (Z.eqb_spec x f); [by rewrite bool_decide_eq_true_2|by rewrite bool_decide_eq_false_2].
Qed.

(** ** How many mappings a chunk has *)

Definition count (ms : list shm_mapping_t) (k : ptr) : nat := length (filter (fun m => m_chunk m = k) ms).
Definition users (ts : gmap ptr task_t) (k : ptr) : nat := map_fold (fun _ t n => (count (shm_mappings t) k + n)%nat) 0%nat ts.

Lemma users_split ts k p t : ts !! p = Some t -> users ts k = (count (shm_mappings t) k + users (delete p ts) k)%nat.
Proof. intros Ht. unfold users. apply (map_fold_delete_L (fun _ t n => (count (shm_mappings t) k + n)%nat)); [|done]. intros; lia. Qed.

Lemma users_update ts k p t t' : ts !! p = Some t ->
  (users (<[p := t']> ts) k + count (shm_mappings t) k = users ts k + count (shm_mappings t') k)%nat.
Proof.
  intros Ht. rewrite (users_split ts k p t Ht), (users_split (<[p := t']> ts) k p t') by apply lookup_insert_eq.
  rewrite delete_insert_eq. lia.
Qed.

Lemma users_app a b k : count (a ++ b) k = (count a k + count b k)%nat.
Proof. unfold count. by rewrite filter_app, length_app. Qed.

Lemma users_cons m ms k : count (m :: ms) k = ((if bool_decide (m_chunk m = k) then 1 else 0) + count ms k)%nat.
Proof. unfold count. rewrite filter_cons. destruct (decide (m_chunk m = k)); [by rewrite bool_decide_eq_true_2|by rewrite bool_decide_eq_false_2]. Qed.

Lemma users_pos ts k p t m : ts !! p = Some t -> m ∈ shm_mappings t -> m_chunk m = k -> (0 < users ts k)%nat.
Proof.
  intros Ht Hm Hk. rewrite (users_split ts k p t Ht). apply list_elem_of_split in Hm as (a & b & ->).
  rewrite users_app, users_cons, bool_decide_eq_true_2 by done. lia.
Qed.

(** ** The invariant *)

Definition frame_ok (fs : frames_t) (f : Z) : Prop := 0 < f < nframes fs /\ used fs f = true.

Record chunk_ok (s : state) (k : ptr) (c : shm_chunk_t) : Prop := {
  ck_nonnull : k <> NULL;
  ck_length : num_frames c = Z.of_nat (length (chunk_frames c));
  ck_size : 0 < num_frames c <= 524288;
  ck_frames : Forall (frame_ok (fr (pg s))) (chunk_frames c);
  ck_nodup : NoDup (chunk_frames c);
  ck_node : exists n, snodes (nm s) !! parent c = Some n /\ chunk n = k
}.

(** A mapping leads to the frames of its chunk, page by page. *)
Definition mapping_ok (s : state) (t : task_t) (m : shm_mapping_t) : Prop :=
  exists c, chunks s !! m_chunk m = Some c /\ num_frames c = num_vaddrs m /\
    Forall2 (leads (pg s) (page_directory t)) (vaddrs m) (chunk_frames c).

Record task_ok (D : list ptr) (s : state) (t : task_t) : Prop := {
  tk_layout : layout SHM_START (shm_mappings t) (shm_heap t);
  tk_heap : shm_heap t < 4294967296 /\ shm_heap t mod 0x1000 = 0;
  tk_dir : group t = 0 -> page_directory t ∈ D;
  tk_thread : group t <> 0 -> shm_mappings t = [];
  tk_maps : Forall (mapping_ok s t) (shm_mappings t)
}.

(** [pend] is a chunk with a reference that no mapping stands for yet, or no longer. *)
Definition pending (pend : option ptr) (k : ptr) : Z := if bool_decide (pend = Some k) then 1 else 0.

Lemma pending_none k : pending None k = 0.
Proof. done. Qed.

Lemma pending_other k k' : k <> k' -> pending (Some k) k' = 0.
Proof. intros Hne. unfold pending. rewrite bool_decide_eq_false_2; [done|congruence]. Qed.

Lemma pending_same k : pending (Some k) k = 1.
Proof. unfold pending. by rewrite bool_decide_eq_true_2. Qed.

Record inv (D : list ptr) (pend : option ptr) (s : state) (r : Tree.rose) : Prop := {
  i_names : names_inv (nm s) r;
  i_spaces : spaces SHM_TABLE (pg s) D;
  i_frames : wf (fr (pg s)) /\ used (fr (pg s)) 0 = true;
  i_node x n : snodes (nm s) !! x = Some n -> chunk n = NULL \/ exists c, chunks s !! chunk n = Some c /\ parent c = x;
  i_chunk k c : chunks s !! k = Some c -> chunk_ok s k c;
  i_apart k k' c c' f : chunks s !! k = Some c -> chunks s !! k' = Some c' -> f ∈ chunk_frames c -> f ∈ chunk_frames c' -> k = k';
  i_count k c : chunks s !! k = Some c -> refs c = Z.of_nat (users (tasks s) k) + pending pend k /\ 0 < refs c < 4294967296;
  i_task p t : tasks s !! p = Some t -> task_ok D s t;
  i_dirs p p' t t' : tasks s !! p = Some t -> tasks s !! p' = Some t' -> group t = 0 -> group t' = 0 ->
    page_directory t = page_directory t' -> p = p'
}.

Lemma leads_evolve m m' dir v f :
  (forall p, entry m dir (v / 0x1000) = Some p -> entry m' dir (v / 0x1000) = Some p) -> leads m dir v f -> leads m' dir v f.
Proof. intros He (p & Hp & Hpp). exists p. split; [by apply He|done]. Qed.

Lemma frame_ok_keeps fs fs' l : keeps fs fs' -> Forall (frame_ok fs) l -> Forall (frame_ok fs') l.
Proof. intros (_ & En & Hu) Hl. eapply Forall_impl; [exact Hl|]. intros f (? & ?). split; [by rewrite En|]. apply Hu; [lia|done]. Qed.

(** The chunk of a mapping is alive, and its node too: [find_gap] can read them. *)
Lemma mapping_alive D pend s r p t : inv D pend s r -> tasks s !! p = Some t ->
  Forall (fun m => exists c x, chunks s !! m_chunk m = Some c /\ snodes (nm s) !! parent c = Some x) (shm_mappings t).
Proof.
  intros Hi Ht. eapply Forall_impl; [exact (tk_maps _ _ _ (i_task _ _ _ _ Hi p t Ht))|]. intros m (c & Hc & _).
  destruct (ck_node _ _ _ (i_chunk _ _ _ _ Hi _ _ Hc)) as (n & Hn & _). eauto.
Qed.

(** *** Mapping a chunk in *)

Section MapIn.
Context `{UserHeap}.

Lemma users_insert k ms j m : count (take j ms ++ m :: drop j ms) k = ((if bool_decide (m_chunk m = k) then 1 else 0) + count ms k)%nat.
Proof. rewrite users_app, users_cons. rewrite <- (take_drop j ms) at 3. rewrite users_app. lia. Qed.

(** The mappings of one process change, and only pages of its directory. *)
Lemma change_task D pend pend' s r p t t' m' :
  inv D pend s r -> tasks s !! p = Some t -> group t = 0 -> group t' = 0 -> page_directory t' = page_directory t ->
  layout SHM_START (shm_mappings t') (shm_heap t') -> shm_heap t' < 4294967296 /\ shm_heap t' mod 0x1000 = 0 ->
  spaces SHM_TABLE m' D -> keeps (fr (pg s)) (fr m') ->
  (forall dir q pa, dir ∈ D -> SHM_TABLE * 1024 <= q -> dir <> page_directory t -> entry (pg s) dir q = Some pa -> entry m' dir q = Some pa) ->
  (forall k c, chunks s !! k = Some c -> Z.of_nat (users (<[p := t']> (tasks s)) k) + pending pend' k = Z.of_nat (users (tasks s) k) + pending pend k) ->
  Forall (mapping_ok (set_pg s m') t') (shm_mappings t') ->
  inv D pend' (set_tasks (set_pg s m') (<[p := t']> (tasks s))) r.
Proof.
  intros Hi Ht Hg Hg' Hd' Hlay Hh Hsp Hk Hkeep Hus Hnew. pose proof (i_task _ _ _ _ Hi p t Ht) as Htk.
  constructor; cbn [nm chunks tasks pg set_tasks set_pg].
  - apply (i_names _ _ _ _ Hi).
  - done.
  - destruct Hk as (Hwf & _ & Hu). split; [done|]. apply Hu; [lia|apply (i_frames _ _ _ _ Hi)].
  - apply (i_node _ _ _ _ Hi).
  - intros k1 c1 Hc1. destruct (i_chunk _ _ _ _ Hi k1 c1 Hc1) as [? ? ? Hf ? ?]. constructor; try done. by apply (frame_ok_keeps (fr (pg s))).
  - apply (i_apart _ _ _ _ Hi).
  - intros k1 c1 Hc1. destruct (i_count _ _ _ _ Hi k1 c1 Hc1) as [Hr Hb]. split; [|done]. rewrite (Hus k1 c1 Hc1). done.
  - intros p1 t1 Ht1. destruct (decide (p1 = p)) as [->|Hp].
    + rewrite lookup_insert_eq in Ht1. injection Ht1 as <-. constructor; try done. intros _. rewrite Hd'. by apply (tk_dir _ _ _ Htk).
    + rewrite lookup_insert_ne in Ht1 by done. pose proof (i_task _ _ _ _ Hi p1 t1 Ht1) as [Hl1 ? Hdir Hthr Hms]. constructor; try done.
      apply Forall_forall. intros m1 Hm1. rewrite Forall_forall in Hms. destruct (Hms m1 Hm1) as (c1 & Hc1 & En & Hl). exists c1. split; [done|]. split; [done|].
      eapply Forall2_impl_in; [exact Hl|]. intros v1 f1 Hv1. apply leads_evolve. intros pa. cbn [pg set_tasks set_pg].
      assert (group t1 = 0) as Hg1 by (destruct (decide (group t1 = 0)); [done|]; rewrite Hthr in Hm1 by done; by apply elem_of_nil in Hm1).
      destruct (layout_elem _ _ _ _ _ Hl1 Hm1 Hv1) as (Hlo & _ & _). apply Hkeep; [by apply Hdir|by apply shm_page|].
      intros E. apply Hp. by apply (i_dirs _ _ _ _ Hi p1 p t1 t).
  - intros p1 p2 t1 t2 Ht1 Ht2.
    assert (forall q u, <[p := t']> (tasks s) !! q = Some u -> exists u0, tasks s !! q = Some u0 /\ group u0 = group u /\ page_directory u0 = page_directory u) as Hold.
    { intros q u Hq. destruct (decide (q = p)) as [->|]; [|rewrite lookup_insert_ne in Hq by done; eauto].
      rewrite lookup_insert_eq in Hq. injection Hq as <-. exists t. by rewrite Hg, Hg', Hd'. }
    destruct (Hold _ _ Ht1) as (u1 & Hu1 & <- & <-), (Hold _ _ Ht2) as (u2 & Hu2 & <- & <-). by apply (i_dirs _ _ _ _ Hi).
Qed.

(** A mapping keeps leading to its frames when its pages are kept. *)
Lemma mapping_kept D pend s r p t t' m1 m' :
  inv D pend s r -> tasks s !! p = Some t -> page_directory t' = page_directory t -> m1 ∈ shm_mappings t ->
  (forall v pa, v ∈ vaddrs m1 -> SHM_START <= v -> entry (pg s) (page_directory t) (v / 0x1000) = Some pa -> entry m' (page_directory t) (v / 0x1000) = Some pa) ->
  mapping_ok (set_pg s m') t' m1.
Proof.
  intros Hi Ht Hd Hm Hv. pose proof (i_task _ _ _ _ Hi p t Ht) as [Hlay _ _ _ Hms]. rewrite Forall_forall in Hms.
  destruct (Hms m1 Hm) as (c1 & Hc1 & En & Hl). exists c1. split; [done|]. split; [done|].
  eapply Forall2_impl_in; [exact Hl|]. intros v1 f1 Hv1. cbn [pg set_pg]. rewrite Hd. apply leads_evolve. intros pa.
  destruct (layout_elem _ _ _ _ _ Hlay Hm Hv1) as (Hlo & _ & _). by apply Hv.
Qed.

(** A new mapping of a process whose pages were mapped keeps the invariant. *)
Lemma add_mapping D s r k p t c m' j v h :
  inv D (Some k) s r -> tasks s !! p = Some t -> group t = 0 -> chunks s !! k = Some c ->
  let n := num_frames c in
  let m := Mapping k n (run_of v (Z.to_nat n)) in
  let ms := take j (shm_mappings t) ++ m :: drop j (shm_mappings t) in
  layout SHM_START ms h -> h < 4294967296 -> h mod 0x1000 = 0 ->
  spaces SHM_TABLE m' D -> keeps (fr (pg s)) (fr m') -> Forall2 (leads m' (page_directory t)) (run_of v (Z.to_nat n)) (chunk_frames c) ->
  (forall dir q pa, dir ∈ D -> SHM_TABLE * 1024 <= q -> dir <> page_directory t \/ q < v / 0x1000 \/ v / 0x1000 + n <= q ->
     entry (pg s) dir q = Some pa -> entry m' dir q = Some pa) ->
  inv D None (set_tasks (set_pg s m') (<[p := set_mappings (set_shm_heap t h) ms]> (tasks s))) r.
Proof.
  intros Hi Ht Hg Hc n m ms Hlay Hh Hha Hsp Hk Hleads Hkeep. pose proof (i_chunk _ _ _ _ Hi k c Hc) as Hck.
  pose proof (i_task _ _ _ _ Hi p t Ht) as Htk.
  apply (change_task D (Some k) None s r p t); try done; cbn [set_mappings shm_mappings shm_heap set_shm_heap].
  - intros dir q pa Hd Hq Hne. apply Hkeep; tauto.
  - intros k1 c1 _. rewrite pending_none. set (t' := set_mappings _ _). pose proof (users_update (tasks s) k1 p t t' Ht) as Hu.
    cbn [t' shm_mappings set_mappings] in Hu. unfold ms in Hu. rewrite users_insert in Hu. cbn [m m_chunk] in Hu.
    destruct (decide (k = k1)) as [->|Hne]; [rewrite pending_same; rewrite bool_decide_eq_true_2 in Hu by done|
      rewrite pending_other by done; rewrite bool_decide_eq_false_2 in Hu by done]; lia.
  - assert (forall x, x ∈ take j (shm_mappings t) ++ drop j (shm_mappings t) -> mapping_ok (set_pg s m') (set_mappings (set_shm_heap t h) ms) x) as Hx.
    { intros x Hx. apply (mapping_kept D (Some k) s r p t); [done|done|done|by rewrite take_drop in Hx|]. intros v1 pa Hv1 Hlo.
      apply Hkeep; [by apply (tk_dir _ _ _ Htk)|by apply shm_page|]. right.
      apply (layout_apart _ _ m _ _ v Hlay eq_refl (proj1 (ck_size _ _ _ Hck)) x v1 Hx Hv1). }
    unfold ms. apply Forall_app. split; [|constructor]; [apply Forall_forall; intros x Hi'; apply Hx; rewrite elem_of_app; by left| |
      apply Forall_forall; intros x Hi'; apply Hx; rewrite elem_of_app; by right].
    exists c. done.
Qed.

(** A process's mapping is taken away: its chunk has one reference too many. *)
Lemma remove_mapping D s r p t m' a m b :
  inv D None s r -> tasks s !! p = Some t -> shm_mappings t = a ++ m :: b ->
  spaces SHM_TABLE m' D -> keeps (fr (pg s)) (fr m') ->
  (forall dir q pa, dir ∈ D -> SHM_TABLE * 1024 <= q -> dir <> page_directory t \/ (forall v, v ∈ vaddrs m -> q <> v / 0x1000) ->
     entry (pg s) dir q = Some pa -> entry m' dir q = Some pa) ->
  inv D (Some (m_chunk m)) (set_tasks (set_pg s m') (<[p := set_mappings t (a ++ b)]> (tasks s))) r.
Proof.
  intros Hi Ht Hms Hsp Hk Hkeep. pose proof (i_task _ _ _ _ Hi p t Ht) as Htk.
  assert (group t = 0) as Hg by (destruct (decide (group t = 0)) as [|Hgn]; [done|]; pose proof (tk_thread _ _ _ Htk Hgn) as E; rewrite Hms in E; by destruct a).
  pose proof (tk_layout _ _ _ Htk) as Hlay. rewrite Hms in Hlay.
  apply (change_task D None (Some (m_chunk m)) s r p t); try done; cbn [set_mappings shm_mappings shm_heap set_shm_heap].
  - by apply layout_delete in Hlay.
  - apply (tk_heap _ _ _ Htk).
  - intros dir q pa Hd Hq Hne. apply Hkeep; tauto.
  - intros k1 c1 _. rewrite pending_none. set (t' := set_mappings _ _). pose proof (users_update (tasks s) k1 p t t' Ht) as Hu.
    cbn [t' shm_mappings set_mappings] in Hu. rewrite Hms, !users_app, users_cons in Hu.
    destruct (decide (m_chunk m = k1)) as [<-|Hne]; [rewrite pending_same; rewrite bool_decide_eq_true_2 in Hu by done|
      rewrite pending_other by done; rewrite bool_decide_eq_false_2 in Hu by done]; lia.
  - apply Forall_forall. intros x Hx. apply (mapping_kept D None s r p t); [done|done|done|rewrite Hms, elem_of_middle; by right|].
    intros v1 pa Hv1 Hlo. apply Hkeep; [by apply (tk_dir _ _ _ Htk)|by apply shm_page|]. right. intros v Hv E.
    pose proof Hlay as (mid & _ & (w & Ew & _ & Hwa & Hn & _))%layout_app.
    pose proof (layout_apart _ _ m _ _ w Hlay Ew Hn x v1 Hx Hv1) as Hap. rewrite Ew in Hv.
    apply list_elem_of_lookup in Hv as [i [-> Hi']%run_of_lookup].
    replace ((w + 0x1000 * Z.of_nat i) / 0x1000) with (w / 0x1000 + Z.of_nat i) in E by (rewrite (Z.mul_comm 0x1000), Z.div_add by lia; done). lia.
Qed.

Lemma map_in_ok D s r k p t c :
  inv D (Some k) s r -> tasks s !! p = Some t -> group t = 0 -> chunks s !! k = Some c ->
  heap_inv (Z.to_nat (num_frames c)) (pg s) -> shm_heap t + 0x1000 * num_frames c < 4294967296 ->
  exists s' v t', map_in s k p = Ret (s', v) /\ inv D None s' r /\ nm s' = nm s /\ chunks s' = chunks s /\
    current_task s' = current_task s /\ tasks s' = <[p := t']> (tasks s) /\
    group t' = 0 /\ page_directory t' = page_directory t /\
    Mapping k (num_frames c) (run_of v (Z.to_nat (num_frames c))) ∈ shm_mappings t'.
Proof.
  intros Hi Ht Hg Hc Hheap Hroom. pose proof (i_chunk _ _ _ _ Hi k c Hc) as Hck. pose proof (i_task _ _ _ _ Hi p t Ht) as Htk.
  pose proof (ck_size _ _ _ Hck) as Hn. set (n := num_frames c) in *.
  destruct (tk_heap _ _ _ Htk) as [Hh Hha]. pose proof (layout_le _ _ _ (tk_layout _ _ _ Htk)) as Hlo.
  assert (0 <= SHM_START) as Hss by done. assert (Z.to_nat n = length (chunk_frames c)) as En by (unfold n; rewrite (ck_length _ _ _ Hck); lia).
  assert (forall v, SHM_START <= v -> v mod 0x1000 = 0 -> v + 0x1000 * n <= 4294967296 ->
    exists m', map_run (pg s) (page_directory t) v (chunk_frames c) = Ret m' /\ spaces SHM_TABLE m' D /\ keeps (fr (pg s)) (fr m') /\
      Forall2 (leads m' (page_directory t)) (run_of v (Z.to_nat n)) (chunk_frames c) /\
      forall dir q pa, dir ∈ D -> SHM_TABLE * 1024 <= q -> dir <> page_directory t \/ q < v / 0x1000 \/ v / 0x1000 + n <= q ->
        entry (pg s) dir q = Some pa -> entry m' dir q = Some pa) as Hrun.
  { intros v Hv Hva Hvb. destruct (i_frames _ _ _ _ Hi) as [Hwf _]. pose proof Hwf as (Hnf & _).
    destruct (map_run_ok 0 SHM_TABLE (pg s) D (page_directory t) v (chunk_frames c)) as (m' & E & Hs' & Hk & Hl & Ho);
      [by rewrite Nat.add_0_r, <- En|apply (i_spaces _ _ _ _ Hi)|by apply (tk_dir _ _ _ Htk)|lia|rewrite <- En; lia|done|by apply shm_page| |done|].
    - eapply Forall_impl; [apply (ck_frames _ _ _ Hck)|]. intros f [Hf _]. lia.
    - exists m'. rewrite En. do 4 (split; [done|]). intros dir q pa Hd Hq Hne. apply Ho; [done|done|]. rewrite <- En. lia. }
  unfold map_in. destruct (Z.eqb_spec k NULL) as [->|_]; [by destruct (ck_nonnull _ _ _ Hck)|]. rewrite Hc, Ht. cbn [of_option mbind outcome_bind]. fold n.
  assert (forall v, aget (run_of v (Z.to_nat n)) 0 = Ret v) as Hhd by (intros v; destruct (Z.to_nat n) eqn:E; [lia|done]).
  pose proof (mapping_alive _ _ _ _ _ _ Hi Ht) as Hal.
  destruct (find_gap_ok s (shm_mappings t) 0 SHM_START n (shm_heap t) Hal (tk_layout _ _ _ Htk)) as
    [(j & v & -> & Hv & Hva & Hvh & Hlay)|(last & -> & Hl & Hla & Hlay)]; [lia|done|done|lia|lia| |]; cbn [mbind outcome_bind].
  - destruct (Hrun v) as (m' & Em & Hsp & Hk & Hld & Ho); [done|done|lia|].
    rewrite En, (map_gap_run _ _ _ v 0 (chunk_frames c)) by (done || lia). replace (v + 0x1000 * 0) with v by lia. rewrite Em.
    cbn [mbind outcome_bind]. rewrite <- En, Hhd. cbn [mbind outcome_bind]. eexists _, v, _. split; [reflexivity|].
    split; [by apply (add_mapping D s r k p t c m' j v (shm_heap t))|]. do 6 (split; [done|]). cbn [set_mappings shm_mappings Nat.add].
    rewrite elem_of_app. right. left.
  - assert (forall x : shm_mapping_t, take (length (shm_mappings t)) (shm_mappings t) ++ x :: drop (length (shm_mappings t)) (shm_mappings t) = shm_mappings t ++ [x]) as Elen
      by (intros x; by rewrite firstn_all, drop_all).
    destruct ((last <? shm_heap t) && (u32 (n * 0x1000) <=? u32 (s32 (shm_heap t - last)))) eqn:Eg.
    + apply andb_true_iff in Eg as [_ Eg%Z.leb_le].
      assert (n * 0x1000 <= shm_heap t - last).
      { rewrite u32_small in Eg by lia. unfold u32, s32 in Eg. rewrite Zminus_mod_idemp_l in Eg.
        replace (shm_heap t - last + 2147483648 - 2147483648) with (shm_heap t - last) in Eg by lia. rewrite Z.mod_small in Eg by lia. lia. }
      destruct (Hrun last) as (m' & Em & Hsp & Hk & Hld & Ho); [lia|done|lia|].
      rewrite En, (map_gap_run _ _ _ last 0 (chunk_frames c)) by (done || lia). replace (last + 0x1000 * 0) with last by lia. rewrite Em.
      cbn [mbind outcome_bind]. rewrite <- En, Hhd. cbn [mbind outcome_bind]. eexists _, last, _. split; [reflexivity|].
      split; [apply (add_mapping D s r k p t c m' (length (shm_mappings t)) last (shm_heap t)); try done; rewrite Elen; apply Hlay; [lia|done|lia]|].
      do 6 (split; [done|]). cbn [set_mappings shm_mappings]. rewrite elem_of_app. right. left.
    + destruct (Hrun (shm_heap t)) as (m' & Em & Hsp & Hk & Hld & Ho); [lia|done|lia|].
      rewrite En, (map_sbrk_run _ t _ 0 (chunk_frames c)) by (done || lia). rewrite Em. cbn [mbind outcome_bind]. rewrite <- En, Hhd.
      cbn [mbind outcome_bind]. eexists _, (shm_heap t), _. split; [reflexivity|].
      split; [apply (add_mapping D s r k p t c m' (length (shm_mappings t)) (shm_heap t)); try done|].
      * rewrite Elen. apply Hlay; [lia|done|lia].
      * lia.
      * rewrite Z2Nat.id by lia. rewrite <- Z.add_mod_idemp_l, Hha by lia. rewrite (Z.mul_comm 0x1000). apply Z.mod_mul. lia.
      * do 6 (split; [done|]). cbn [set_mappings shm_mappings]. rewrite elem_of_app. right. left.
Qed.

End MapIn.

(** *** References *)

(** Only the count of a chunk changes. *)
Lemma set_refs D pend pend' s r k c n :
  inv D pend s r -> chunks s !! k = Some c -> n = Z.of_nat (users (tasks s) k) + pending pend' k -> 0 < n < 4294967296 ->
  (forall k', k' <> k -> pending pend' k' = pending pend k') ->
  inv D pend' (set_chunks s (<[k := Chunk (parent c) n (num_frames c) (chunk_frames c)]> (chunks s))) r.
Proof.
  intros Hi Hc Hn Hb Hpend. set (c' := Chunk _ _ _ _).
  assert (forall k1 c1, <[k := c']> (chunks s) !! k1 = Some c1 -> exists c0, chunks s !! k1 = Some c0 /\ parent c1 = parent c0 /\
    num_frames c1 = num_frames c0 /\ chunk_frames c1 = chunk_frames c0) as Hold.
  { intros k1 c1 E. destruct (decide (k1 = k)) as [->|]; [|rewrite lookup_insert_ne in E by done; eauto]. rewrite lookup_insert_eq in E. injection E as <-. by exists c. }
  assert (forall k1 c1, chunks s !! k1 = Some c1 -> exists c0, <[k := c']> (chunks s) !! k1 = Some c0 /\ parent c0 = parent c1 /\
    num_frames c0 = num_frames c1 /\ chunk_frames c0 = chunk_frames c1) as Hnew.
  { intros k1 c1 E. destruct (decide (k1 = k)) as [->|]; [|exists c1; by rewrite lookup_insert_ne]. exists c'. rewrite lookup_insert_eq.
    assert (c1 = c) as -> by congruence. done. }
  destruct Hi as [H1 H2 H3 H4 H5 H6 H7 H8 H9]. constructor; cbn [nm chunks tasks pg set_chunks]; try done.
  - intros x m Hx. destruct (H4 x m Hx) as [?|(c1 & Hc1 & Hp)]; [by left|]. right. destruct (Hnew _ _ Hc1) as (c0 & Hc0 & Ep & _). exists c0. by rewrite Ep.
  - intros k1 c1 (c0 & Hc0 & Ep & En & Ef)%Hold. destruct (H5 k1 c0 Hc0) as [? ? ? ? ? ?]. constructor; rewrite ?Ep, ?En, ?Ef; done.
  - intros k1 k2 c1 c2 f (c3 & Hc3 & _ & _ & ->)%Hold (c4 & Hc4 & _ & _ & ->)%Hold. by apply H6.
  - intros k1 c1 E. destruct (decide (k1 = k)) as [->|Hne].
    + rewrite lookup_insert_eq in E. injection E as <-. done.
    + rewrite lookup_insert_ne in E by done. rewrite Hpend by done. by apply H7.
  - intros p t Ht. destruct (H8 p t Ht) as [? ? ? ? Hms]. constructor; try done. eapply Forall_impl; [exact Hms|].
    intros m (c1 & Hc1 & En & Hl). destruct (Hnew _ _ Hc1) as (c0 & Hc0 & _ & En0 & Ef0). exists c0. rewrite En0, Ef0. done.
Qed.

(** A chunk nobody maps goes away with its frames. *)
Lemma drop_chunk D s r k c x fs n :
  inv D (Some k) s r -> chunks s !! k = Some c -> users (tasks s) k = 0%nat -> snodes (nm s) !! parent c = Some n ->
  x = Names (shm_tree (nm s)) (<[parent c := Snode (name n) NULL]> (snodes (nm s))) -> wf fs -> nframes fs = nframes (fr (pg s)) ->
  (forall f, 0 <= f -> used fs f = negb (bool_decide (f ∈ chunk_frames c)) && used (fr (pg s)) f) ->
  inv D None (set_nm (set_chunks (set_pg s (set_fr (pg s) fs)) (delete k (chunks s))) x) r.
Proof.
  intros Hi Hc Hu En -> Hwf Enf Hus. pose proof Hi as [H1 H2 H3 H4 H5 H6 H7 H8 H9]. pose proof (H5 k c Hc) as [Hk0 _ _ Hfr _ (n' & En' & Hn')].
  assert (n' = n) as -> by congruence. constructor; cbn [nm chunks tasks pg set_chunks set_nm set_pg]; try done.
  - apply (names_change (shm_tree (nm s)) (snodes (nm s))); [by destruct (nm s)|]. intros v. destruct (decide (v = parent c)) as [->|].
    + by rewrite lookup_insert_eq, En.
    + by rewrite lookup_insert_ne.
  - by apply spaces_fr.
  - split; [done|]. cbn [fr set_fr]. rewrite Hus, (proj2 H3) by lia. rewrite bool_decide_eq_false_2; [done|].
    intros Hin. rewrite Forall_forall in Hfr. destruct (Hfr 0 Hin) as [? _]. lia.
  - intros y m Hy. cbn [snodes] in Hy. destruct (decide (y = parent c)) as [->|Hne].
    + rewrite lookup_insert_eq in Hy. injection Hy as <-. by left.
    + rewrite lookup_insert_ne in Hy by done. destruct (H4 y m Hy) as [?|(c1 & Hc1 & Hp)]; [by left|]. right. exists c1. split; [|done].
      rewrite lookup_delete_ne; [done|]. intros E. rewrite <- E in Hc1. congruence.
  - intros k1 c1 (Hne & Hc1)%lookup_delete_Some. destruct (H5 k1 c1 Hc1) as [? ? ? Hf1 ? (n1 & Hn1 & Ek1)]. constructor; cbn [pg set_nm set_chunks set_pg fr set_fr nm]; try done.
    + apply Forall_forall. intros f Hf. rewrite Forall_forall in Hf1. destruct (Hf1 f Hf) as [? ?]. split; [by rewrite Enf|].
      rewrite Hus by lia. rewrite bool_decide_eq_false_2; [done|]. intros Hf'. apply Hne. by apply (H6 k k1 c c1 f).
    + exists n1. cbn [snodes]. rewrite lookup_insert_ne; [done|]. intros E. rewrite <- E in Hn1. congruence.
  - intros k1 k2 c1 c2 f (_ & Hc1)%lookup_delete_Some (_ & Hc2)%lookup_delete_Some. by apply H6.
  - intros k1 c1 (Hne & Hc1)%lookup_delete_Some. destruct (H7 k1 c1 Hc1) as [Hr ?]. rewrite pending_none. rewrite pending_other in Hr by done. done.
  - intros p t Ht. destruct (H8 p t Ht) as [? ? ? ? Hms]. constructor; try done. rewrite Forall_forall in *. intros m Hm.
    destruct (Hms m Hm) as (c1 & Hc1 & Hrest). exists c1. split; [|done]. cbn [chunks set_nm set_chunks]. rewrite lookup_delete_ne; [done|].
    intros E. pose proof (users_pos (tasks s) k p t m Ht Hm (eq_sym E)). lia.
Qed.

(** What dropping one reference does: the chunk stays while it is mapped anywhere, and
    its frames are free when it is not. *)
Definition released (s : state) (k : ptr) (c : shm_chunk_t) (s' : state) : Prop :=
  if bool_decide (users (tasks s) k = 0%nat) then
    chunks s' = delete k (chunks s) /\
    forall f, 0 <= f -> used (fr (pg s')) f = negb (bool_decide (f ∈ chunk_frames c)) && used (fr (pg s)) f
  else fr (pg s') = fr (pg s) /\ exists n, chunks s' = <[k := Chunk (parent c) n (num_frames c) (chunk_frames c)]> (chunks s).

(** Only frames of the memory changed. *)
Definition same_pages (m m' : memory) : Prop := exists fs, m' = set_fr m fs /\ nframes fs = nframes (fr m).

Lemma release_chunk_ok D s r k c :
  inv D (Some k) s r -> chunks s !! k = Some c ->
  exists s', release_chunk s k = Ret (s', 0) /\ inv D None s' r /\ tasks s' = tasks s /\ released s k c s' /\ same_pages (pg s) (pg s').
Proof.
  intros Hi Hc. pose proof (i_chunk _ _ _ _ Hi k c Hc) as [Hk0 Hlen Hsz Hfr _ (n & Hn & Ek)].
  destruct (i_count _ _ _ _ Hi k c Hc) as [Hr Hb]. rewrite pending_same in Hr. destruct (i_frames _ _ _ _ Hi) as [Hwf _].
  unfold release_chunk. rewrite (proj2 (Z.eqb_neq _ _) Hk0), Hc. cbn [of_option mbind outcome_bind refs parent chunk_frames num_frames].
  rewrite u32_small by lia. unfold released. destruct (Z.ltb_spec (refs c - 1) 1) as [Hlt|Hge].
  - assert (users (tasks s) k = 0%nat) as Hu by lia. rewrite bool_decide_eq_true_2 by done.
    destruct (clear_frames_ok (fr (pg s)) (chunk_frames c) 0 (chunk_frames c)) as (fs & E & Hwf' & Enf & Hus); [done|lia|done|
      eapply Forall_impl; [exact Hfr|]; intros f [? _]; lia|].
    rewrite Hlen, Nat2Z.id, E. cbn [mbind outcome_bind]. unfold set_node_chunk. rewrite Hn. cbn [of_option mbind outcome_bind].
    eexists. split; [done|]. split; [by eapply drop_chunk|]. split; [done|]. split; [done|]. by exists fs.
  - rewrite bool_decide_eq_false_2 by lia. eexists. split; [done|].
    split; [apply (set_refs D (Some k) None); try done; [rewrite pending_none; lia|lia|intros; by rewrite pending_none, pending_other]|].
    split; [done|]. split; [split; [done|by eexists]|]. exists (fr (pg s)). split; [cbn; by destruct (pg s)|done].
Qed.

(** *** New names and new chunks *)

Lemma inv_names D pend s r x r' : inv D pend s r -> names_inv x r' -> extends (nm s) r x r' -> inv D pend (set_nm s x) r'.
Proof.
  intros [H1 H2 H3 H4 H5 H6 H7 H8 H9] Hx [Hw Ho Hn]. constructor; cbn [nm chunks tasks pg set_nm]; try done.
  - intros y n Hy. destruct (snodes (nm s) !! y) as [n0|] eqn:E; [|left; by destruct (Hn y n Hy E)].
    apply Ho in E as E'. assert (n0 = n) as -> by congruence. by apply H4.
  - intros k c Hc. destruct (H5 k c Hc) as [? ? ? ? ? (n & En & Ek)]. constructor; try done. exists n. cbn [nm set_nm]. split; [by apply Ho|done].
  - intros p t Ht. destruct (H8 p t Ht). by constructor.
Qed.

Lemma users_zero ms k : (forall m, m ∈ ms -> m_chunk m <> k) -> count ms k = 0%nat.
Proof.
  induction ms as [|m ms IH]; intros Hno; [done|]. rewrite users_cons, IH by (intros; apply Hno; by right).
  rewrite bool_decide_eq_false_2; [done|]. apply Hno. left.
Qed.

Lemma users_none ts k : (forall p t m, ts !! p = Some t -> m ∈ shm_mappings t -> m_chunk m <> k) -> users ts k = 0%nat.
Proof.
  induction ts as [|p t ts Hp IH] using map_ind; intros Hno; [done|].
  rewrite (users_split _ k p t) by apply lookup_insert_eq. rewrite delete_insert_id by done. rewrite IH.
  - rewrite users_zero; [done|]. intros m Hm. apply (Hno p t m); [apply lookup_insert_eq|done].
  - intros p' t' m Ht'. apply Hno with p'. rewrite lookup_insert_ne; [done|]. intros ->. congruence.
Qed.

Lemma add_chunk D s r x n k fs l :
  inv D None s r -> snodes (nm s) !! x = Some n -> chunk n = NULL -> k <> NULL -> chunks s !! k = None ->
  keeps (fr (pg s)) fs -> NoDup l -> Forall (fun f => 0 < f < nframes (fr (pg s)) /\ used (fr (pg s)) f = false /\ used fs f = true) l ->
  0 < Z.of_nat (length l) <= 524288 ->
  inv D (Some k) (State (Names (shm_tree (nm s)) (<[x := Snode (name n) k]> (snodes (nm s))))
    (<[k := Chunk x 1 (Z.of_nat (length l)) l]> (chunks s)) (tasks s) (set_fr (pg s) fs) (current_task s)) r.
Proof.
  intros Hi Hx Hn0 Hk0 Hk Hkeep Hnd Hl Hsz. pose proof Hi as [H1 H2 H3 H4 H5 H6 H7 H8 H9]. pose proof Hkeep as (Hwf & Enf & Hus).
  rewrite Forall_forall in Hl.
  assert (users (tasks s) k = 0%nat) as Hu.
  { apply users_none. intros p t m Ht Hm Ek. pose proof (tk_maps _ _ _ (H8 p t Ht)) as Hms. rewrite Forall_forall in Hms.
    destruct (Hms m Hm) as (c & Hc & _). congruence. }
  assert (forall k1 c1, chunks s !! k1 = Some c1 -> k1 <> k) as Hne by congruence.
  constructor; cbn [nm chunks tasks pg fr set_fr snodes shm_tree]; try done.
  - apply (names_change (shm_tree (nm s)) (snodes (nm s))); [by destruct (nm s)|]. intros v. destruct (decide (v = x)) as [->|].
    + by rewrite lookup_insert_eq, Hx.
    + by rewrite lookup_insert_ne.
  - by apply spaces_fr.
  - split; [done|]. apply Hus; [lia|apply H3].
  - intros y m Hy. destruct (decide (y = x)) as [->|].
    + rewrite lookup_insert_eq in Hy. injection Hy as <-. right. eexists. cbn [chunk]. by rewrite lookup_insert_eq.
    + rewrite lookup_insert_ne in Hy by done. destruct (H4 y m Hy) as [?|(c1 & Hc1 & Hp)]; [by left|]. right. exists c1.
      rewrite lookup_insert_ne by (pose proof (Hne _ _ Hc1); congruence). done.
  - intros k1 c1 Hc1. destruct (decide (k1 = k)) as [->|Hk1].
    + rewrite lookup_insert_eq in Hc1. injection Hc1 as <-. constructor; cbn [num_frames chunk_frames parent pg fr set_fr nm snodes]; try done.
      * apply Forall_forall. intros f Hf. destruct (Hl f Hf) as (? & _ & ?). split; [by rewrite Enf|done].
      * eexists. by rewrite lookup_insert_eq.
    + rewrite lookup_insert_ne in Hc1 by done. destruct (H5 k1 c1 Hc1) as [? ? ? Hf1 ? (n1 & En1 & Ek1)].
      constructor; cbn [pg fr set_fr nm snodes]; try done; [by apply (frame_ok_keeps (fr (pg s)))|].
      exists n1. rewrite lookup_insert_ne; [done|]. intros ->. congruence.
  - assert (forall k1 c1 f, chunks s !! k1 = Some c1 -> f ∈ chunk_frames c1 -> f ∈ l -> False) as Hdis.
    { intros k1 c1 f Hc1 Hf Hfl. destruct (Hl f Hfl) as (_ & Hu0 & _). pose proof (ck_frames _ _ _ (H5 k1 c1 Hc1)) as Hfr.
      rewrite Forall_forall in Hfr. destruct (Hfr f Hf). congruence. }
    intros k1 k2 c1 c2 f Hc1 Hc2 Hf1 Hf2. destruct (decide (k1 = k)) as [->|Hk1], (decide (k2 = k)) as [->|Hk2]; [done| | |].
    + rewrite lookup_insert_eq in Hc1. injection Hc1 as <-. rewrite lookup_insert_ne in Hc2 by done. by destruct (Hdis k2 c2 f).
    + rewrite lookup_insert_eq in Hc2. injection Hc2 as <-. rewrite lookup_insert_ne in Hc1 by done. by destruct (Hdis k1 c1 f).
    + rewrite lookup_insert_ne in Hc1, Hc2 by done. by apply (H6 k1 k2 c1 c2 f).
  - intros k1 c1 Hc1. destruct (decide (k1 = k)) as [->|Hk1].
    + rewrite lookup_insert_eq in Hc1. injection Hc1 as <-. rewrite pending_same, Hu. done.
    + rewrite lookup_insert_ne in Hc1 by done. destruct (H7 k1 c1 Hc1) as [Hr ?]. rewrite pending_none in Hr. rewrite pending_other by done. done.
  - intros p t Ht. destruct (H8 p t Ht) as [? ? ? ? Hms]. constructor; try done. eapply Forall_impl; [exact Hms|].
    intros m (c1 & Hc1 & Hrest). exists c1. cbn [chunks]. rewrite lookup_insert_ne by (pose proof (Hne _ _ Hc1); congruence). done.
Qed.

Lemma frames_for_pos size : 0 < size < 2147483648 -> frames_for size = (size + 0xFFF) / 0x1000 /\ 0 < frames_for size <= 524288.
Proof.
  intros Hs. unfold frames_for, truthy. rewrite Z.quot_div_nonneg, Z.rem_mod_nonneg by lia.
  assert (size / 0x1000 + (if negb (size mod 0x1000 =? 0) then 1 else 0) = (size + 0xFFF) / 0x1000) as ->.
  { destruct (Z.eqb_spec (size mod 0x1000) 0); cbn [negb]; Z.to_euclidean_division_equations; lia. }
  assert (0 < (size + 0xFFF) / 0x1000 <= 524288) by (Z.to_euclidean_division_equations; lia). rewrite u32_small by lia. done.
Qed.

End ShmSpec.
