(* ===== verification/ShmCorrect.v ===== *)
(** * Shared memory: what the system calls do ([kernel/src/mem/shm.c])

    [shm_obtain], [shm_release] and [shm_release_all] on states that satisfy the invariant
    of [ShmSpec]: what each returns, what it maps, and that the invariant holds again. *)

From stdpp Require Import base gmap numbers list.
From S2P Require Import Prelude CString LinkedList Tree Frames Paging Spaces ShmNames Shm ShmSpec.

Module ShmCorrect.
Import Frames Paging Spaces ShmNames Shm ShmSpec.

(** The chunk a name stands for. *)
Definition chunk_of (s : state) (r : Tree.rose) (ts : list cstring) : option ptr :=
  x ← lookup_name (snodes (nm s)) r ts;
  n ← snodes (nm s) !! x;
  if chunk n =? NULL then None else Some (chunk n).

(** The pages obtaining the name takes: those of the chunk, or of a new one. *)
Definition demand (s : state) (r : Tree.rose) (ts : list cstring) (size : Z) : Z :=
  match chunk_of s r ts ≫= fun k => chunks s !! k with
  | Some c => num_frames c
  | None => frames_for size
  end.

Lemma chunk_of_node s r ts x n : lookup_name (snodes (nm s)) r ts = Some x -> snodes (nm s) !! x = Some n ->
  chunk_of s r ts = if chunk n =? NULL then None else Some (chunk n).
Proof. intros Hx Hn. unfold chunk_of. rewrite Hx. cbn. by rewrite Hn. Qed.

Lemma chunk_of_inv s r ts k : chunk_of s r ts = Some k ->
  exists x n, lookup_name (snodes (nm s)) r ts = Some x /\ snodes (nm s) !! x = Some n /\ chunk n = k /\ k <> NULL.
Proof.
  unfold chunk_of. destruct (lookup_name _ r ts) as [x|]; [|done]. cbn. destruct (snodes (nm s) !! x) as [n|] eqn:En; [|done]. cbn.
  destruct (Z.eqb_spec (chunk n) NULL); [done|]. intros [= <-]. exists x, n. done.
Qed.

(** A name leads to a node. *)
Lemma lookup_node st r ts x : names_inv st r -> ts <> [] -> lookup_name (snodes st) r ts = Some x -> x <> NULL /\ exists n, snodes st !! x = Some n.
Proof.
  intros Hi Hne. unfold lookup_name. destruct (walk (snodes st) r ts) as [u|] eqn:E; [|done]. cbn. intros [= <-].
  destruct (walk_named _ _ _ _ Hi E) as [[? _]|(n & Hv & Hn & _)]; [done|eauto].
Qed.

Lemma lookup_extends st r st' r' ts x : extends st r st' r' -> lookup_name (snodes st) r ts = Some x -> lookup_name (snodes st') r' ts = Some x.
Proof.
  intros He. unfold lookup_name. destruct (walk (snodes st) r ts) as [u|] eqn:E; [|done]. cbn. intros [= <-].
  destruct (ext_walk _ _ _ _ He ts u E) as (u' & -> & <- & _). done.
Qed.

Section Calls.
Context `{UserHeap} `{Tree.NodeAlloc} `{SnodeAlloc} `{ChunkAlloc}.
Context (process_from_pid : Z -> outcome ptr).

(** What an obtaining process needs: a path, room for the names and the pages, and for a
    new chunk memory that is there. *)
Record obtainable (s : state) (r : Tree.rose) (ts : list cstring) (size : Z) (p : ptr) (t : task_t) : Prop := {
  ob_owner : owner process_from_pid s = Ret p;
  ob_task : tasks s !! p = Some t /\ group t = 0;
  ob_path : ts <> [] /\ Forall name_ok ts /\ room r (length ts);
  ob_heap : heap_inv (Z.to_nat (demand s r ts size)) (pg s);
  ob_room : shm_heap t + 0x1000 * demand s r ts size < 4294967296;
  ob_refs k c : chunk_of s r ts = Some k -> chunks s !! k = Some c -> refs c + 1 < 4294967296;
  ob_new : chunk_of s r ts = None -> 0 < size < 2147483648 /\ new_chunk (chunks s) <> NULL /\
    array_granted (u32 (4 * frames_for size)) = true /\ (Z.to_nat (frames_for size) <= length (FrameInstance.free_list (fr (pg s))))%nat
}.

(** The chunk [k] of [c] is what the name stands for, the process maps it at [v], and the
    names that had a chunk still have it. *)
Definition obtained (D : list ptr) (s : state) (r : Tree.rose) (ts : list cstring) (p : ptr) (t : task_t)
    (s' : state) (r' : Tree.rose) (v k : ptr) (c : shm_chunk_t) : Prop :=
  inv D None s' r' /\ chunk_of s' r' ts = Some k /\ chunks s' !! k = Some c /\
  current_task s' = current_task s /\
  (exists t', tasks s' = <[p := t']> (tasks s) /\ group t' = 0 /\ page_directory t' = page_directory t /\
     Mapping k (num_frames c) (run_of v (Z.to_nat (num_frames c))) ∈ shm_mappings t') /\
  Forall2 (leads (pg s') (page_directory t)) (run_of v (Z.to_nat (num_frames c))) (chunk_frames c) /\
  (forall ts' k', chunk_of s r ts' = Some k' -> chunk_of s' r' ts' = Some k') /\
  (forall k' c', chunks s !! k' = Some c' -> chunk_frames <$> chunks s' !! k' = Some (chunk_frames c')).

(** The mapping that [map_in] added leads to the frames. *)
Lemma mapped_leads D s r p t k n v :
  inv D None s r -> tasks s !! p = Some t -> Mapping k n (run_of v (Z.to_nat n)) ∈ shm_mappings t ->
  exists c, chunks s !! k = Some c /\ num_frames c = n /\ Forall2 (leads (pg s) (page_directory t)) (run_of v (Z.to_nat n)) (chunk_frames c).
Proof.
  intros Hi Ht Hm. pose proof (tk_maps _ _ _ (i_task _ _ _ _ Hi p t Ht)) as Hms. rewrite Forall_forall in Hms. exact (Hms _ Hm).
Qed.

(** The state in which the chunk has its reference and [map_in] is called. *)
Lemma obtain_finish D s r ts size p t s1 r1 k c :
  obtainable s r ts size p t -> inv D (Some k) s1 r1 -> tasks s1 = tasks s -> current_task s1 = current_task s -> chunks s1 !! k = Some c -> num_frames c = demand s r ts size ->
  heap_inv (Z.to_nat (demand s r ts size)) (pg s1) -> chunk_of s1 r1 ts = Some k ->
  (forall ts' k', chunk_of s r ts' = Some k' -> chunk_of s1 r1 ts' = Some k') ->
  (forall k' c', chunks s !! k' = Some c' -> chunk_frames <$> chunks s1 !! k' = Some (chunk_frames c')) ->
  exists s' v, map_in s1 k p = Ret (s', v) /\ chunks s' = chunks s1 /\ obtained D s r ts p t s' r1 v k c.
Proof.
  intros Hob Hi Ets Ecur Hc Hn Hheap Hco Hrest Hfr. destruct (ob_task _ _ _ _ _ _ Hob) as [Ht Hg]. rewrite <- Ets in Ht.
  destruct (map_in_ok D s1 r1 k p t c Hi Ht Hg Hc) as (s' & v & t' & E & Hi' & Enm & Ech & Ecur' & Ets' & Hg' & Ed & Hm);
    [by rewrite Hn|rewrite Hn; apply (ob_room _ _ _ _ _ _ Hob)|].
  exists s', v. split; [done|]. split; [done|].
  assert (forall ts', chunk_of s' r1 ts' = chunk_of s1 r1 ts') as Eco by (intros; unfold chunk_of; by rewrite Enm).
  split; [done|]. split; [by rewrite Eco|]. split; [by rewrite Ech|]. split; [congruence|]. split; [exists t'; by rewrite Ets', Ets|]. split.
  - destruct (mapped_leads D s' r1 p t' k (num_frames c) v Hi') as (c' & Hc' & _ & Hl); [rewrite Ets'; apply lookup_insert_eq|done|].
    rewrite Ech, Hc in Hc'. injection Hc' as <-. by rewrite <- Ed.
  - rewrite Ech. split; [|done]. intros ts' k' Hk'. rewrite Eco. by apply Hrest.
Qed.

(** The node of the path, with the names that were missing. *)
Lemma obtain_node D s r ts size p t :
  inv D None s r -> obtainable s r ts size p t ->
  exists x r' node n, get_node (nm s) (path_of ts) true = Ret (x, node) /\ inv D None (set_nm s x) r' /\
    lookup_name (snodes x) r' ts = Some node /\ snodes x !! node = Some n /\
    (if chunk n =? NULL then chunk_of s r ts = None else chunk_of s r ts = Some (chunk n)) /\
    forall ts' k', chunk_of s r ts' = Some k' -> chunk_of (set_nm s x) r' ts' = Some k'.
Proof.
  intros Hi Hob. destruct (ob_path _ _ _ _ _ _ Hob) as (Hne & Hok & Hr). pose proof (i_names _ _ _ _ Hi) as Hn.
  destruct (proj2 (get_node_ok (nm s) r ts Hn Hne Hok) Hr) as (x & r' & node & E & Hn' & He & Hl & Hold & Hnew).
  destruct (lookup_node x r' ts node Hn' Hne Hl) as (_ & n & Hnode). exists x, r', node, n. split; [done|].
  split; [by apply (inv_names D None s r)|]. split; [done|]. split; [done|]. split.
  - destruct (lookup_name (snodes (nm s)) r ts) as [y|] eqn:Ey.
    + destruct (Hold ltac:(eauto)) as [-> ->]. assert (y = node) as -> by congruence. rewrite (chunk_of_node s r ts node n) by done.
      by destruct (chunk n =? NULL).
    + destruct (ext_new _ _ _ _ He node n Hnode (Hnew eq_refl)) as [-> _]. cbn. unfold chunk_of. by rewrite Ey.
  - intros ts' k' (y & m & Hy & Hm & Ek & Hk0)%chunk_of_inv. rewrite (chunk_of_node (set_nm s x) r' ts' y m).
    + rewrite Ek. by rewrite (proj2 (Z.eqb_neq _ _) Hk0).
    + by apply (lookup_extends (nm s) r).
    + by apply (ext_old _ _ _ _ He).
Qed.

(** *** Obtaining *)

Lemma obtain_existing D s r ts size p t k c :
  inv D None s r -> obtainable s r ts size p t -> chunk_of s r ts = Some k -> chunks s !! k = Some c ->
  exists s' r' v c', shm_obtain process_from_pid s (path_of ts) (Some size) = Ret (s', v, Some (chunk_size c)) /\
    obtained D s r ts p t s' r' v k c' /\ chunk_frames c' = chunk_frames c /\ num_frames c' = num_frames c.
Proof.
  intros Hi Hob Hk Hc. destruct (obtain_node D s r ts size p t Hi Hob) as (x & r' & node & n & E & Hi1 & Hl & Hn & Hcase & Hkeep).
  unfold shm_obtain. rewrite (ob_owner _ _ _ _ _ _ Hob). cbn [mbind outcome_bind]. rewrite E. cbn [mbind outcome_bind]. rewrite Hn. cbn [of_option mbind outcome_bind].
  destruct (chunk n =? NULL) eqn:En0; [congruence|]. assert (chunk n = k) as -> by congruence.
  assert (chunks (set_nm s x) !! k = Some c) as Hc1 by done. rewrite Hc1. cbn [of_option mbind outcome_bind].
  set (c1 := Chunk (parent c) (u32 (refs c + 1)) (num_frames c) (chunk_frames c)).
  destruct (i_count _ _ _ _ Hi1 k c Hc1) as [Hr Hb]. pose proof (ob_refs _ _ _ _ _ _ Hob k c Hk Hc) as Hrb. rewrite pending_none in Hr. cbn [tasks set_nm] in Hr.
  destruct (obtain_finish D s r ts size p t (set_chunks (set_nm s x) (<[k := c1]> (chunks (set_nm s x)))) r' k c1 Hob) as (s' & v & -> & Ech & Hobt).
  - unfold c1. rewrite u32_small by lia. apply (set_refs D None (Some k)); [done|done|rewrite pending_same; cbn; lia|lia|].
    intros k' Hne. by rewrite pending_other, pending_none.
  - done.
  - done.
  - apply lookup_insert_eq.
  - unfold demand. rewrite Hk. cbn. by rewrite Hc.
  - apply (ob_heap _ _ _ _ _ _ Hob).
  - by apply Hkeep.
  - done.
  - intros k' c' Hk'. cbn [chunks set_chunks set_nm]. destruct (decide (k = k')) as [<-|]; [rewrite lookup_insert_eq; cbn; congruence|by rewrite lookup_insert_ne, Hk'].
  - cbn [mbind outcome_bind]. rewrite Ech. cbn [chunks set_chunks]. rewrite lookup_insert_eq. cbn [of_option mbind outcome_bind].
    exists s', r', v, c1. done.
Qed.

Lemma obtain_new D s r ts size p t :
  inv D None s r -> obtainable s r ts size p t -> chunk_of s r ts = None ->
  exists s' r' v k c, shm_obtain process_from_pid s (path_of ts) (Some size) = Ret (s', v, Some (chunk_size c)) /\
    obtained D s r ts p t s' r' v k c /\ chunks s !! k = None /\ num_frames c = frames_for size.
Proof.
  intros Hi Hob Hk. destruct (obtain_node D s r ts size p t Hi Hob) as (x & r' & node & n & E & Hi1 & Hl & Hn & Hcase & Hkeep).
  destruct (ob_new _ _ _ _ _ _ Hob Hk) as (Hsz & Hk0 & Hgr & Hfree). destruct (ob_task _ _ _ _ _ _ Hob) as [Ht _].
  destruct (frames_for_pos size Hsz) as [_ Hnf]. pose proof (new_chunk_fresh _ Hk0) as Hfresh. set (k := new_chunk (chunks s)) in *.
  assert (demand s r ts size = frames_for size) as Edem by (unfold demand; by rewrite Hk).
  unfold shm_obtain. rewrite (ob_owner _ _ _ _ _ _ Hob). cbn [mbind outcome_bind]. rewrite E. cbn [mbind outcome_bind]. rewrite Hn. cbn [of_option mbind outcome_bind].
  destruct (Z.eqb_spec (chunk n) NULL) as [En0|]; [|congruence]. cbn [tasks set_nm]. rewrite Ht. cbn [of_option mbind outcome_bind].
  unfold create_chunk. destruct (Z.eqb_spec size 0); [lia|]. cbn [chunks set_nm pg]. fold k. rewrite (proj2 (Z.eqb_neq _ _) Hk0), Hgr. cbn [negb].
  destruct (i_frames _ _ _ _ Hi) as [Hwf Hu0].
  destruct (grab_frames_ok (fr (pg s)) (Z.to_nat (frames_for size)) Hwf Hu0 Hfree) as (fs & l & -> & Hll & Hnd & Hkp & Hl1).
  cbn [mbind outcome_bind]. rewrite (proj2 (Z.eqb_neq _ _) Hk0). unfold set_node_chunk. cbn [nm set_chunks set_pg set_nm]. rewrite Hn. cbn [of_option mbind outcome_bind].
  assert (frames_for size = Z.of_nat (length l)) as Enl by (rewrite Hll; lia).
  match goal with |- context [map_in ?a k p] => set (s1 := a) end.
  assert (inv D (Some k) s1 r') as Hi2.
  { unfold s1. rewrite Enl. apply (add_chunk D (set_nm s x) r' node n k fs l Hi1); try done. lia. }
  assert (forall y m, y <> node -> snodes x !! y = Some m -> snodes (nm s1) !! y = Some m) as Hsn by (intros y m Hy Hm; cbn; by rewrite lookup_insert_ne).
  assert (forall ts', lookup_name (snodes (nm s1)) r' ts' = lookup_name (snodes x) r' ts') as Elk.
  { intros ts'. unfold lookup_name. f_equal. apply walk_names. intros y. cbn. destruct (decide (y = node)) as [->|]; [by rewrite lookup_insert_eq, Hn|by rewrite lookup_insert_ne]. }
  destruct (obtain_finish D s r ts size p t s1 r' k (Chunk node 1 (frames_for size) l) Hob Hi2) as (s' & v & -> & Ech & Hobt).
  - done.
  - done.
  - apply lookup_insert_eq.
  - done.
  - apply heap_frames; [apply (ob_heap _ _ _ _ _ _ Hob)|done].
  - rewrite (chunk_of_node s1 r' ts node (Snode (name n) k)); [cbn [chunk]; by rewrite (proj2 (Z.eqb_neq _ _) Hk0)|by rewrite Elk|apply lookup_insert_eq].
  - intros ts' k' Hk'. pose proof (Hkeep ts' k' Hk') as (y & m & Hy & Hm & Ek & Hk0')%chunk_of_inv. cbn [nm set_nm] in Hy, Hm.
    assert (y <> node) by (intros ->; congruence).
    rewrite (chunk_of_node s1 r' ts' y m); [rewrite Ek; by rewrite (proj2 (Z.eqb_neq _ _) Hk0')|by rewrite Elk|by apply Hsn].
  - intros k' c' Hk'. cbn. rewrite lookup_insert_ne by congruence. by rewrite Hk'.
  - cbn [mbind outcome_bind]. rewrite Ech. cbn. rewrite lookup_insert_eq. cbn [of_option mbind outcome_bind]. eexists s', r', v, k, _. done.
Qed.

(** C7: Obtaining a name gives the process a mapping, page by page, of the frames of the
    chunk the name stands for: the frames it had when some process obtained it before, and
    otherwise newly allocated ones, as many as the size asks for.  Every other name keeps
    its chunk and frames, and all invariants of shared memory hold again. *)
Theorem shm_obtain_shares D s r ts size p t :
  inv D None s r -> obtainable s r ts size p t ->
  exists s' r' v k c, shm_obtain process_from_pid s (path_of ts) (Some size) = Ret (s', v, Some (chunk_size c)) /\
    obtained D s r ts p t s' r' v k c /\ num_frames c = demand s r ts size /\
    (forall k0 c0, chunk_of s r ts = Some k0 -> chunks s !! k0 = Some c0 -> k = k0 /\ chunk_frames c = chunk_frames c0) /\
    (chunk_of s r ts = None -> forall k0 c0 f, chunks s !! k0 = Some c0 -> f ∈ chunk_frames c0 -> f ∉ chunk_frames c).
Proof.
  intros Hi Hob. destruct (chunk_of s r ts) as [k|] eqn:Hk.
  - pose proof Hk as (x & n & _ & Hn & Ek & Hk0)%chunk_of_inv. destruct (i_node _ _ _ _ Hi x n Hn) as [?|(c & Hc & _)]; [congruence|]. rewrite Ek in Hc.
    destruct (obtain_existing D s r ts size p t k c Hi Hob Hk Hc) as (s' & r' & v & c' & E & Ho & Ef & En). exists s', r', v, k, c'.
    split; [by unfold chunk_size; rewrite En|]. split; [done|]. split; [unfold demand; rewrite Hk; cbn; by rewrite Hc|]. split; [|done].
    intros k0 c0 [= <-] Hc0. split; [done|congruence].
  - destruct (obtain_new D s r ts size p t Hi Hob Hk) as (s' & r' & v & k & c & E & Ho & Hfresh & En). exists s', r', v, k, c.
    split; [done|]. split; [done|]. split; [unfold demand; by rewrite Hk|]. split; [done|]. intros _ k0 c0 f Hc0 Hf Hf'.
    destruct Ho as (Hi' & _ & Hc & _ & _ & _ & _ & Hfr). specialize (Hfr k0 c0 Hc0). destruct (chunks s' !! k0) as [c1|] eqn:Hc1; [|done]. injection Hfr as Ef.
    assert (k0 = k) by (apply (i_apart _ _ _ _ Hi' k0 k c1 c f); congruence). congruence.
Qed.

(** *** Releasing *)

Lemma mapping_of_ok ms k n : match mapping_of ms k n with
  | Some (i, m) => exists a b, ms = a ++ m :: b /\ i = (n + length a)%nat /\ m_chunk m = k
  | None => Forall (fun m => m_chunk m <> k) ms
  end.
Proof.
  revert n. induction ms as [|m ms IH]; intros n; cbn [mapping_of]; [constructor|]. destruct (Z.eqb_spec (m_chunk m) k) as [E|Hne].
  - exists [], ms. split; [done|]. split; [cbn; lia|done].
  - specialize (IH (S n)). destruct (mapping_of ms k (S n)) as [[i m']|]; [|by constructor]. destruct IH as (a & b & -> & -> & Hk).
    exists (m :: a), b. split; [done|]. split; [cbn; lia|done].
Qed.

Lemma unmap_ok m D dir vs i l :
  spaces SHM_TABLE m D -> dir ∈ D -> 0 <= i -> drop (Z.to_nat i) vs = l ->
  Forall (fun v => SHM_START <= v /\ is_Some (entry m dir (v / 0x1000))) l ->
  exists m', unmap m dir vs i (length l) = Ret m' /\ spaces SHM_TABLE m' D /\ fr m' = fr m /\
    (forall v, v ∈ l -> entry m' dir (v / 0x1000) = Some zero_page) /\
    forall dir' q, dir' ∈ D -> SHM_TABLE * 1024 <= q -> dir' <> dir \/ (forall v, v ∈ l -> q <> v / 0x1000) -> entry m' dir' q = entry m dir' q.
Proof.
  intros Hs Hd. revert m i Hs. induction l as [|v l IH]; intros m i Hs Hi Hdr Hl; cbn [length unmap].
  { exists m. split; [done|]. split; [done|]. split; [done|]. split; [by intros v ?%elem_of_nil|done]. }
  destruct (drop_cons _ _ _ _ Hdr) as [Hv Hdr']. apply Forall_cons in Hl as [[Hlo [pa Hpa]] Hl]. rewrite (aget_lookup vs i v) by done. cbn [mbind outcome_bind].
  assert (0 <= v) by (transitivity SHM_START; [done|lia]).
  destruct (clear_page_ok SHM_TABLE m D dir v pa Hs Hd) as (m1 & -> & Hs1 & Ef1 & Hz & Ho1); [done|by apply shm_page|done|]. cbn [mbind outcome_bind].
  destruct (IH m1 (i + 1) Hs1) as (m2 & -> & Hs2 & Ef2 & Hz2 & Ho2); [lia|by replace (Z.to_nat (i + 1)) with (S (Z.to_nat i)) by lia| |].
  - eapply Forall_impl; [exact Hl|]. intros w [Hw [pw Hpw]]. split; [done|]. destruct (decide (w / 0x1000 = v / 0x1000)) as [->|Hne]; [by eexists|].
    rewrite Ho1; [by eexists|done|by apply shm_page|]. congruence.
  - exists m2. split; [done|]. split; [done|]. split; [congruence|]. split.
    + intros w Hw. destruct (decide (w / 0x1000 ∈ (fun x => x / 0x1000) <$> l)) as [(w' & -> & Hw')%list_elem_of_fmap|Hno]; [by apply Hz2|].
      apply elem_of_cons in Hw as [->|Hw]; [|destruct Hno; by apply (list_elem_of_fmap_2 (fun x => x / 0x1000))].
      rewrite Ho2; [done|done|by apply shm_page|]. right. intros w' Hw' E. apply Hno. rewrite E. by apply (list_elem_of_fmap_2 (fun x => x / 0x1000)).
    + intros dir' q Hd' Hq Hne. rewrite Ho2, Ho1; [done|done|done| |done|done|].
      * intros [= -> ->]. destruct Hne as [?|Hne]; [done|]. by apply (Hne v); [left|].
      * destruct Hne as [?|Hne]; [by left|]. right. intros w Hw. apply Hne. by right.
Qed.

(** [release_chunk] does not look at the tasks. *)
Lemma release_chunk_tasks s ts k : release_chunk (set_tasks s ts) k = ('(s', z) ← release_chunk s k; Ret (set_tasks s' ts, z)).
Proof.
  unfold release_chunk. destruct (k =? NULL); [done|]. cbn [chunks set_tasks]. destruct (chunks s !! k) as [c|]; [|done]. cbn [of_option mbind outcome_bind].
  destruct (refs _ <? 1); [|done]. cbn [pg set_tasks nm]. destruct (clear_frames _ _ _ _); [|done|done]. cbn [mbind outcome_bind]. by destruct (set_node_chunk _ _ _).
Qed.

Lemma release_chunk_keeps s k s' z : release_chunk s k = Ret (s', z) -> tasks s' = tasks s.
Proof.
  intros E. pose proof (release_chunk_tasks s (tasks s) k) as E'. replace (set_tasks s (tasks s)) with s in E' by (by destruct s).
  rewrite E in E'. cbn in E'. injection E' as ->. done.
Qed.

(** The pages of a mapping exist and its run of addresses is as long as it says. *)
Lemma mapping_pages D s r p t m : inv D None s r -> tasks s !! p = Some t -> m ∈ shm_mappings t ->
  group t = 0 /\ length (vaddrs m) = Z.to_nat (num_vaddrs m) /\
  Forall (fun v => SHM_START <= v /\ is_Some (entry (pg s) (page_directory t) (v / 0x1000))) (vaddrs m).
Proof.
  intros Hi Ht Hm. pose proof (i_task _ _ _ _ Hi p t Ht) as [Hlay _ _ Hthr Hms]. rewrite Forall_forall in Hms. destruct (Hms m Hm) as (c & _ & _ & Hl).
  split; [destruct (decide (group t = 0)); [done|]; rewrite Hthr in Hm by done; by apply elem_of_nil in Hm|]. split.
  - pose proof Hm as (a & b & E)%list_elem_of_split. rewrite E in Hlay. apply layout_app in Hlay as (mid & _ & (v & -> & _)). apply length_run_of.
  - apply Forall_forall. intros v Hv. split; [by apply (layout_elem _ _ _ _ _ Hlay Hm Hv)|]. apply list_elem_of_lookup in Hv as [i Hi'].
    destruct (Forall2_lookup_l _ _ _ _ _ Hl Hi') as (f & _ & (pa & Hpa & _)). by eexists.
Qed.

(** C21: Releasing a name that the process maps removes the first of its mappings: its pages
    are cleared, every other mapping still leads to its frames, and when no process
    maps the chunk any more its frames are free again and the name stands for nothing.
    Releasing a name it does not map returns 1 and changes nothing. *)
Theorem shm_release_unmaps D s r ts p t :
  inv D None s r -> owner process_from_pid s = Ret p -> tasks s !! p = Some t -> ts <> [] -> Forall name_ok ts ->
  match mapping_of (shm_mappings t) (default NULL (chunk_of s r ts)) 0 with
  | None => shm_release process_from_pid s (path_of ts) = Ret (s, 1)
  | Some (i, m) => exists s' s1 c, shm_release process_from_pid s (path_of ts) = Ret (s', 0) /\ inv D None s' r /\
      tasks s' = <[p := set_mappings t (take i (shm_mappings t) ++ drop (S i) (shm_mappings t))]> (tasks s) /\
      chunks s !! m_chunk m = Some c /\ tasks s1 = tasks s' /\ chunks s1 = chunks s /\ fr (pg s1) = fr (pg s) /\ released s1 (m_chunk m) c s' /\
      forall v, v ∈ vaddrs m -> entry (pg s1) (page_directory t) (v / 0x1000) = Some zero_page
  end.
Proof.
  intros Hi Ho Ht Hne Hok. pose proof (i_names _ _ _ _ Hi) as Hn. unfold shm_release. rewrite Ho. cbn [mbind outcome_bind].
  rewrite (proj1 (get_node_ok (nm s) r ts Hn Hne Hok)). cbn [mbind outcome_bind].
  assert (set_nm s (nm s) = s) as -> by (by destruct s).
  assert (mapping_of (shm_mappings t) NULL 0 = None) as Hnull.
  { pose proof (mapping_of_ok (shm_mappings t) NULL 0) as Hm. destruct (mapping_of _ NULL 0) as [[i m]|]; [|done]. destruct Hm as (a & b & E & _ & Hk).
    pose proof (tk_maps _ _ _ (i_task _ _ _ _ Hi p t Ht)) as Hms. rewrite E, Forall_app, Forall_cons in Hms. destruct Hms as (_ & (c & Hc & _) & _).
    rewrite Hk in Hc. by destruct (ck_nonnull _ _ _ (i_chunk _ _ _ _ Hi _ _ Hc)). }
  destruct (lookup_name (snodes (nm s)) r ts) as [x|] eqn:Ex.
  2: { cbn [default]. replace (chunk_of s r ts) with (@None ptr) by (unfold chunk_of; by rewrite Ex). cbn [default]. by rewrite Hnull. }
  destruct (lookup_node _ _ _ _ Hn Hne Ex) as (Hx0 & n & Hx). change (default NULL (Some x)) with x. rewrite (proj2 (Z.eqb_neq _ _) Hx0), Hx, Ht. cbn [of_option mbind outcome_bind].
  assert (default NULL (chunk_of s r ts) = chunk n) as ->.
  { rewrite (chunk_of_node s r ts x n) by done. by destruct (Z.eqb_spec (chunk n) NULL) as [->|]. }
  pose proof (mapping_of_ok (shm_mappings t) (chunk n) 0) as Hm. destruct (mapping_of (shm_mappings t) (chunk n) 0) as [[i m]|]; [|done].
  destruct Hm as (a & b & Ems & -> & Hk). cbn [Nat.add].
  destruct (mapping_pages D s r p t m Hi Ht) as (Hg & Hlen & Hpages); [rewrite Ems, elem_of_middle; by left|].
  pose proof (tk_dir _ _ _ (i_task _ _ _ _ Hi p t Ht) Hg) as Hdir.
  destruct (unmap_ok (pg s) D (page_directory t) (vaddrs m) 0 (vaddrs m) (i_spaces _ _ _ _ Hi) Hdir) as (g & Eg & Hsg & Efr & Hz & Hother); [lia|done|done|].
  rewrite <- Hlen, Eg. cbn [mbind outcome_bind].
  assert (take (length a) (shm_mappings t) ++ drop (S (length a)) (shm_mappings t) = a ++ b) as ->.
  { rewrite Ems, take_app_length. replace (S (length a)) with (length a + 1)%nat by lia. by rewrite <- drop_drop, drop_app_length. }
  set (s1 := set_tasks (set_pg s g) (<[p := set_mappings t (a ++ b)]> (tasks s))).
  assert (inv D (Some (m_chunk m)) s1 r) as Hi1.
  { apply (remove_mapping D s r p t g a m b Hi Ht Ems Hsg); [rewrite Efr; apply keeps_refl, (i_frames _ _ _ _ Hi)|].
    intros dir q pa Hd Hq Hne' E. by rewrite Hother. }
  pose proof (tk_maps _ _ _ (i_task _ _ _ _ Hi p t Ht)) as Hms. rewrite Ems, Forall_app, Forall_cons in Hms. destruct Hms as (_ & (c & Hc & _) & _).
  destruct (release_chunk_ok D s1 r (m_chunk m) c Hi1 Hc) as (s' & Er & Hi' & Ets & Hrel & _).
  unfold s1 in Er. rewrite release_chunk_tasks, Hk in Er. destruct (release_chunk (set_pg s g) (chunk n)) as [[s2 z]| |] eqn:E2; [|done|done].
  cbn [mbind outcome_bind] in *. injection Er as Es' _. rewrite (release_chunk_keeps _ _ _ _ E2). cbn [tasks set_pg]. rewrite Es'.
  exists s', s1, c. done.
Qed.

(** No chunk is new, those that are left have their frames, and the frames of the others
    are free. *)
Definition settled (s s' : state) : Prop :=
  (forall f, 0 <= f -> used (fr (pg s)) f = false -> used (fr (pg s')) f = false) /\
  (forall k, chunks s !! k = None -> chunks s' !! k = None) /\
  forall k c, chunks s !! k = Some c ->
    match chunks s' !! k with
    | Some c' => chunk_frames c' = chunk_frames c
    | None => forall f, 0 <= f -> f ∈ chunk_frames c -> used (fr (pg s')) f = false
    end.

#[local] Instance settled_trans : Transitive settled.
Proof.
  intros s1 s2 s3 (M1 & N1 & S1) (M2 & N2 & S2). split; [eauto|]. split; [eauto|]. intros k c Hc. specialize (S1 k c Hc).
  destruct (chunks s2 !! k) as [c2|] eqn:E2; [specialize (S2 k c2 E2); by rewrite <- S1|]. rewrite (N2 k E2). eauto.
Qed.

Lemma released_settled s k c s' : chunks s !! k = Some c -> released s k c s' -> settled s s'.
Proof.
  intros Hc. unfold released, settled. case_bool_decide.
  - intros [-> Hu]. split; [intros f Hf E; rewrite Hu, E by done; apply andb_false_r|]. split.
    + intros k' Hk'. destruct (decide (k = k')) as [<-|]; [apply lookup_delete_eq|by rewrite lookup_delete_ne].
    + intros k' c' Hc'. destruct (decide (k = k')) as [<-|]; [|by rewrite lookup_delete_ne, Hc'].
      rewrite lookup_delete_eq. intros f Hf Hin. assert (c' = c) as -> by congruence. by rewrite Hu, bool_decide_eq_true_2.
  - intros [-> (n & ->)]. split; [done|]. split.
    + intros k' Hk'. rewrite lookup_insert_ne; [done|]. congruence.
    + intros k' c' Hc'. destruct (decide (k = k')) as [<-|]; [|by rewrite lookup_insert_ne, Hc'].
      rewrite lookup_insert_eq. cbn. congruence.
Qed.

Lemma release_each_ok D s r p t ms :
  inv D None s r -> tasks s !! p = Some t -> shm_mappings t = rev ms ->
  exists s', release_each s p ms = Ret s' /\ inv D None s' r /\ tasks s' = <[p := set_mappings t []]> (tasks s) /\ settled s s' /\
    same_pages (pg s) (pg s').
Proof.
  revert s t. induction ms as [|m ms IH]; intros s t Hi Ht Hms; cbn [release_each].
  { exists s. split; [done|]. split; [done|]. cbn [rev] in Hms. split.
    - symmetry. apply insert_id. rewrite Ht. destruct t. cbn in Hms |- *. by rewrite Hms.
    - split; [|exists (fr (pg s)); split; [by destruct (pg s)|done]]. split; [done|]. split; [done|]. intros k c Hc. by rewrite Hc. }
  cbn [rev] in Hms. rewrite Ht. cbn [of_option mbind outcome_bind].
  pose proof (tk_maps _ _ _ (i_task _ _ _ _ Hi p t Ht)) as Hall. rewrite Hms, Forall_app, Forall_cons in Hall. destruct Hall as (_ & (c & Hc & _) & _).
  pose proof (remove_mapping D s r p t (pg s) (rev ms) m [] Hi Ht Hms (i_spaces _ _ _ _ Hi) (keeps_refl _ (proj1 (i_frames _ _ _ _ Hi)))) as Hi1.
  rewrite app_nil_r in Hi1. replace (set_pg s (pg s)) with s in Hi1 by (by destruct s).
  set (s1 := set_tasks s (<[p := set_mappings t (rev ms)]> (tasks s))) in *.
  destruct (release_chunk_ok D s1 r (m_chunk m) c (Hi1 ltac:(done)) Hc) as (s2 & -> & Hi2 & Ets & Hrel & Hp2). cbn [mbind outcome_bind].
  destruct (IH s2 (set_mappings t (rev ms)) Hi2) as (s3 & E3 & Hi3 & Ets3 & Hs3 & Hp3); [rewrite Ets; apply lookup_insert_eq|done|].
  exists s3. split; [done|]. split; [done|]. split.
  - rewrite Ets3, Ets. cbn [tasks s1 set_tasks]. rewrite insert_insert_eq. done.
  - split; [apply (settled_trans _ s2); [|done]; apply (released_settled s1 (m_chunk m) c s2 Hc Hrel)|].
    destruct Hp2 as (f2 & E2 & N2), Hp3 as (f3 & Ep3 & N3). exists f3. rewrite Ep3, N3, E2. split; [done|exact N2].
Qed.

Lemma shm_release_all_ok D s r p t :
  inv D None s r -> tasks s !! p = Some t ->
  exists s', shm_release_all s p = Ret s' /\ inv D None s' r /\ tasks s' = <[p := set_mappings t []]> (tasks s) /\ settled s s' /\
    same_pages (pg s) (pg s') /\
    forall k c, chunks s !! k = Some c -> is_Some (chunks s' !! k) <->
      exists q u m, q <> p /\ tasks s !! q = Some u /\ m ∈ shm_mappings u /\ m_chunk m = k.
Proof.
  intros Hi Ht. unfold shm_release_all. rewrite Ht. cbn [of_option mbind outcome_bind].
  destruct (release_each_ok D s r p t (rev (shm_mappings t)) Hi Ht) as (s' & -> & Hi' & Ets & Hs & Hp); [by rewrite rev_involutive|]. cbn [mbind outcome_bind].
  rewrite Ets, lookup_insert_eq. cbn [of_option mbind outcome_bind]. rewrite insert_insert_eq.
  replace (set_tasks s' (<[p := set_mappings (set_mappings t []) []]> (tasks s))) with s'.
  2: { change (set_mappings (set_mappings t []) []) with (set_mappings t []). rewrite <- Ets. by destruct s'. }
  exists s'. do 5 (split; [done|]). intros k c Hc. split.
  - intros [c' Hc']. destruct (i_count _ _ _ _ Hi' k c' Hc') as [Hr Hb]. rewrite pending_none in Hr.
    destruct (decide (Exists (fun qu => Exists (fun m => m_chunk m = k) (shm_mappings qu.2)) (map_to_list (tasks s')))) as [Hex|Hno].
    + apply Exists_exists in Hex as ([q u] & Hq%elem_of_map_to_list & (m & Hm & Hk)%Exists_exists). exists q, u, m. cbn [snd] in Hm.
      rewrite Ets in Hq. destruct (decide (q = p)) as [->|Hne].
      * rewrite lookup_insert_eq in Hq. injection Hq as <-. by apply elem_of_nil in Hm.
      * rewrite lookup_insert_ne in Hq by done. done.
    + rewrite users_none in Hr; [lia|]. intros q u m Hq Hm Hk. apply Hno, Exists_exists. exists (q, u). split; [by apply elem_of_map_to_list|].
      apply Exists_exists. by exists m.
  - intros (q & u & m & Hne & Hq & Hm & <-). assert (tasks s' !! q = Some u) as Hq' by (by rewrite Ets, lookup_insert_ne).
    pose proof (tk_maps _ _ _ (i_task _ _ _ _ Hi' q u Hq')) as Hms. rewrite Forall_forall in Hms. destruct (Hms m Hm) as (c' & Hc' & _). eauto.
Qed.

(** C24: When a process dies [shm_release_all] empties its list of mappings (its page tables
    are left to [release_directory]): a chunk stays exactly if another process still maps it,
    with the same frames, the frames of every other chunk are free, and the invariant of
    names, chunks and mappings holds again. *)
Theorem shm_release_all_frees D s r p t :
  inv D None s r -> tasks s !! p = Some t ->
  exists s', shm_release_all s p = Ret s' /\ inv D None s' r /\ tasks s' = <[p := set_mappings t []]> (tasks s) /\ settled s s' /\
    forall k c, chunks s !! k = Some c -> is_Some (chunks s' !! k) <->
      exists q u m, q <> p /\ tasks s !! q = Some u /\ m ∈ shm_mappings u /\ m_chunk m = k.
Proof. intros Hi Ht. destruct (shm_release_all_ok D s r p t Hi Ht) as (s' & ? & ? & ? & ? & _ & ?). by exists s'. Qed.

(** Isolation and sharing: two addresses that two processes (or one) have from shared
    memory lead to the same frame exactly if they are the same page of the same chunk. *)
Theorem shm_frames_shared D s r p q t u m m' i j f v w :
  inv D None s r -> tasks s !! p = Some t -> tasks s !! q = Some u -> m ∈ shm_mappings t -> m' ∈ shm_mappings u ->
  vaddrs m !! i = Some v -> vaddrs m' !! j = Some w -> leads (pg s) (page_directory t) v f ->
  leads (pg s) (page_directory u) w f <-> m_chunk m = m_chunk m' /\ i = j.
Proof.
  intros Hi Ht Hu Hm Hm' Hv Hw (pa & Hpa & _ & Hf).
  pose proof (tk_maps _ _ _ (i_task _ _ _ _ Hi p t Ht)) as H1m. pose proof (tk_maps _ _ _ (i_task _ _ _ _ Hi q u Hu)) as H2m. rewrite Forall_forall in H1m, H2m.
  destruct (H1m m Hm) as (c & Hc & _ & Hl), (H2m m' Hm') as (c' & Hc' & _ & Hl').
  destruct (Forall2_lookup_l _ _ _ _ _ Hl Hv) as (f1 & Hf1 & (pb & Hpb & _ & Ef1)), (Forall2_lookup_l _ _ _ _ _ Hl' Hw) as (f2 & Hf2 & Hlw).
  assert (f1 = f) as -> by congruence. split.
  - intros (pc & Hpc & _ & Efc). destruct Hlw as (pd & Hpd & _ & Ef2). assert (f2 = f) as -> by congruence.
    assert (m_chunk m = m_chunk m') as E by (apply (i_apart _ _ _ _ Hi _ _ c c' f); eauto using list_elem_of_lookup_2). split; [done|].
    assert (c' = c) as -> by congruence. by apply (NoDup_lookup (chunk_frames c) i j f); [apply (ck_nodup _ _ _ (i_chunk _ _ _ _ Hi _ _ Hc))| |].
  - intros [E ->]. assert (c' = c) as -> by congruence. by assert (f2 = f) as -> by congruence.
Qed.

End Calls.

(** ** Witnesses: two processes, no shared memory yet *)

Module Demo.
Import Bump.

#[local] Program Instance demo_nodes : Tree.NodeAlloc := {| Tree.new_node m := fresh ({[NULL]} ∪ dom m) |}.
Next Obligation. intros m E. pose proof (is_fresh ({[NULL]} ∪ dom m)). set_solver. Qed.
Next Obligation. intros m. apply not_elem_of_dom. pose proof (is_fresh ({[NULL]} ∪ dom m)). set_solver. Qed.

#[local] Program Instance demo_snodes : SnodeAlloc := {| new_snode m := fresh ({[NULL]} ∪ dom m) |}.
Next Obligation. intros m E. pose proof (is_fresh ({[NULL]} ∪ dom m)). set_solver. Qed.
Next Obligation. intros m. apply not_elem_of_dom. pose proof (is_fresh ({[NULL]} ∪ dom m)). set_solver. Qed.

#[local] Program Instance demo_chunks : ChunkAlloc := {| new_chunk m := fresh ({[NULL]} ∪ dom m); array_granted n := n <? 65536 |}.
Next Obligation. intros m _. apply not_elem_of_dom. pose proof (is_fresh ({[NULL]} ∪ dom m)). set_solver. Qed.

Definition empty_dir : page_directory_t := Build_directory (replicate 1024 0) (replicate 1024 0) 0 1.
Definition mem : memory :=
  Build_memory Frames.demo ∅ {[ 0x1000 := empty_dir; 0x1100 := empty_dir; 0x1200 := empty_dir ]} 0x800 0x3000 0x800000 0x1000 0x1000 [].
Definition dirs : list ptr := [0x1100; 0x1200].
Definition none : names := Names (Tree.State (Tree.Build_tree 0 NULL) ∅ []) ∅.
Definition demo : state :=
  State (shm_install none) ∅ {[ 100 := Task 0 SHM_START [] 0x1100; 200 := Task 0 SHM_START [] 0x1200 ]} mem 100.
Definition root : Tree.rose := Tree.Rose (Tree.new_node ∅) NULL [].
Definition pid_lookup (pid : Z) : outcome ptr := Ret NULL.
Definition frame_buffer : list cstring := [[102; 98]; [48]].   (* fb.0 *)

Lemma mem_tables dir q t : table_at mem dir q t -> t = 0.
Proof.
  intros (d & Hd & Ht). cbn [mem directories] in Hd.
  assert (d = empty_dir) as ->.
  { repeat (apply lookup_insert_Some in Hd as [[_ <-]|[_ Hd]]; [done|]). by apply lookup_singleton_Some in Hd as [_ <-]. }
  by apply lookup_replicate in Ht as [-> _].
Qed.

Lemma mem_spaces : spaces SHM_TABLE mem dirs.
Proof.
  constructor.
  - done.
  - intros k t Hk Ht. left. apply list_elem_of_lookup in Ht as [i Hi].
    assert (k = empty_dir) as -> by (cbn [mem directories kernel_directory] in Hk; rewrite lookup_insert_eq in Hk; congruence).
    by apply lookup_replicate in Hi as [-> _].
  - intros dir Hd. unfold dirs in Hd. rewrite !elem_of_cons, elem_of_nil in Hd. destruct Hd as [->|[->|[]]]; (split; [done|]; exists empty_dir; split; [done|]; unfold empty_dir; cbn [tables physical_tables]; by rewrite !length_replicate).
  - intros dir q t _ _ Ht%mem_tables. done.
  - intros dir dir' q q' t _ _ _ _ Ht%mem_tables. done.
Qed.

Lemma shared_inv : inv dirs None demo root.
Proof.
  constructor; cbn [demo nm chunks tasks pg].
  - split; cbn [shm_install shm_tree snodes none].
    + apply (Tree.set_root_inv (Tree.Build_tree 0 NULL) NULL).
    + done.
    + intros t c Ht Hc. inversion Ht as [|? ? ? ? ? Hin]; subst; [by apply elem_of_nil in Hc|by apply elem_of_nil in Hin].
    + intros [|n ts] [|n' ts'] u u'; cbn; done.
  - apply mem_spaces.
  - split; [exact Frames.demo_wf|done].
  - intros x n Hx. cbn in Hx. by rewrite lookup_empty in Hx.
  - intros k c Hc. by rewrite lookup_empty in Hc.
  - intros k k' c c' f Hc. by rewrite lookup_empty in Hc.
  - intros k c Hc. by rewrite lookup_empty in Hc.
  - intros p t Ht. apply lookup_insert_Some in Ht as [[_ <-]|[_ (_ & <-)%lookup_singleton_Some]]; (constructor; cbn; try done; intros _; unfold dirs; set_solver).
  - intros p p' t t' Ht Ht' _ _. apply lookup_insert_Some in Ht as [[<- <-]|[_ (<- & <-)%lookup_singleton_Some]],
      Ht' as [[<- <-]|[_ (<- & <-)%lookup_singleton_Some]]; cbn; done.
Qed.

Lemma mem_bump : bump_inv 2 mem.
Proof.
  split; [exact Frames.demo_wf|]. do 2 (split; [cbn; lia|]). split; [exists empty_dir; by split|]. intros a Ha. cbn in Ha.
  split; [done|]. cbn [mem directories]. by rewrite !lookup_insert_ne, lookup_singleton_ne by lia.
Qed.

Lemma demo_obtainable : obtainable pid_lookup demo root frame_buffer 5000 100 (Task 0 SHM_START [] 0x1100).
Proof.
  constructor.
  - done.
  - done.
  - split; [done|]. split; [|done]. repeat constructor; try done; by_decide.
  - exact mem_bump.
  - done.
  - intros k c Hk. done.
  - intros _. split; [done|]. split; [|split; [done|]].
    + cbn [demo chunks new_chunk demo_chunks]. intros E. pose proof (is_fresh ({[NULL]} ∪ dom (∅ : gmap ptr shm_chunk_t))). set_solver.
    + vm_compute. repeat constructor.
Qed.

Lemma shm_obtain_shares_witness :
  exists s' r' v k c, shm_obtain pid_lookup demo (path_of frame_buffer) (Some 5000) = Ret (s', v, Some (chunk_size c)) /\
    obtained dirs demo root frame_buffer 100 (Task 0 SHM_START [] 0x1100) s' r' v k c /\ num_frames c = 2.
Proof.
  destruct (shm_obtain_shares pid_lookup dirs demo root frame_buffer 5000 100 (Task 0 SHM_START [] 0x1100) shared_inv demo_obtainable)
    as (s' & r' & v & k & c & E & Ho & En & _). exists s', r', v, k, c. split; [exact E|]. split; [exact Ho|exact En].
Defined.

(** The state after the process obtained the name. *)
Lemma demo_obtained : exists s r v k c, obtained dirs demo root frame_buffer 100 (Task 0 SHM_START [] 0x1100) s r v k c.
Proof. destruct (obtain_new pid_lookup dirs demo root frame_buffer 5000 100 _ shared_inv demo_obtainable) as (s & r & v & k & c & _ & Ho & _); [done|eauto 6]. Qed.

Lemma shm_release_unmaps_witness :
  exists s r s', inv dirs None s r /\ chunk_of s r frame_buffer <> None /\
    shm_release pid_lookup s (path_of frame_buffer) = Ret (s', 0) /\ inv dirs None s' r.
Proof.
  destruct demo_obtained as (s & r & v & k & c & Hi & Hk & Hc & Ecur & (t & Ets & Hg & Ed & Hm) & _).
  assert (tasks s !! 100 = Some t) as Ht by (rewrite Ets; apply lookup_insert_eq).
  assert (owner pid_lookup s = Ret 100) as Ho by (unfold owner; rewrite Ecur; cbn [demo current_task]; rewrite Ht; cbn [of_option mbind outcome_bind]; by rewrite Hg).
  pose proof (shm_release_unmaps pid_lookup dirs s r frame_buffer 100 t Hi Ho Ht ltac:(done) (proj1 (proj2 (ob_path _ _ _ _ _ _ _ demo_obtainable)))) as Hrel.
  rewrite Hk in Hrel. change (default NULL (Some k)) with k in Hrel. pose proof (mapping_of_ok (shm_mappings t) k 0) as Hmo.
  destruct (mapping_of (shm_mappings t) k 0) as [[i m]|] eqn:E.
  - destruct Hrel as (s' & s1 & c' & Hs' & Hi' & _). exists s, r, s'. rewrite Hk. done.
  - exfalso. rewrite Forall_forall in Hmo. by apply (Hmo _ Hm).
Defined.

Lemma shm_release_all_frees_witness :
  exists s r s' k c, inv dirs None s r /\ chunks s !! k = Some c /\ shm_release_all s 100 = Ret s' /\ settled s s' /\ chunks s' !! k = None.
Proof.
  destruct demo_obtained as (s & r & v & k & c & Hi & Hk & Hc & Ecur & (t & Ets & Hg & Ed & Hm) & _).
  assert (tasks s !! 100 = Some t) as Ht by (rewrite Ets; apply lookup_insert_eq).
  destruct (shm_release_all_frees dirs s r 100 t Hi Ht) as (s' & E & _ & _ & Hs & Halive). exists s, r, s', k, c. do 4 (split; [done|]).
  destruct (chunks s' !! k) as [c'|] eqn:Ec; [|done]. exfalso. destruct (proj1 (Halive k c Hc)) as (q & u & m & Hne & Hq & Hin & _); [rewrite Ec; eauto|].
  rewrite Ets, lookup_insert_ne in Hq by done. cbn [demo tasks] in Hq. rewrite lookup_insert_ne in Hq by done.
  apply lookup_singleton_Some in Hq as [_ <-]. by apply elem_of_nil in Hin.
Defined.

Lemma shm_frames_shared_witness :
  exists s r t m v f, inv dirs None s r /\ tasks s !! 100 = Some t /\ m ∈ shm_mappings t /\ vaddrs m !! 0%nat = Some v /\
    (leads (pg s) (page_directory t) v f <-> m_chunk m = m_chunk m /\ 0%nat = 0%nat).
Proof.
  destruct demo_obtained as (s & r & v & k & c & Hi & Hk & Hc & Ecur & (t & Ets & Hg & Ed & Hm) & _).
  assert (tasks s !! 100 = Some t) as Ht by (rewrite Ets; apply lookup_insert_eq).
  destruct (mapped_leads dirs s r 100 t k (num_frames c) v Hi Ht Hm) as (c' & Hc' & _ & Hl).
  pose proof (i_chunk _ _ _ _ Hi k c Hc) as Hck. pose proof (ck_size _ _ _ Hck). set (m := Mapping k _ _) in Hm.
  assert (vaddrs m !! 0%nat = Some v) as Hv by (cbn [m vaddrs]; destruct (Z.to_nat (num_frames c)) eqn:E; [lia|done]).
  destruct (Forall2_lookup_l _ _ _ _ _ Hl Hv) as (f & _ & Hlf). exists s, r, t, m, v, f. do 4 (split; [done|]).
  by apply (shm_frames_shared dirs s r 100 100 t t m m 0 0 f v v).
Defined.

End Demo.

End ShmCorrect.
