(* ===== verification/Release.v ===== *)
(** * Giving address spaces back ([release_directory] of [kernel/src/task/proc.c])

    When a process ends, the frames and tables of its directory are released, and when it
    loads a new program those of the old one.  The tables the directory shares with the
    kernel are left alone; the range of shared memory is meant to be, too, but the bound the
    loops compare with is never reached. *)

From stdpp Require Import base gmap numbers list.
From S2P Require Import Prelude CString LinkedList Tree Frames Paging Spaces ShmNames Shm ShmSpec ShmCorrect.

Module Release.
Import Frames Paging Spaces.

Definition USER_STACK_BOTTOM : Z := 0xAFF00000.

(** The loop over the pages of a table. *)
Fixpoint free_pages (fs : frames_t) (ps : list page_t) : outcome (frames_t * list page_t) :=
  match ps with
  | [] => Ret (fs, [])
  | p :: ps' =>
      '(fs, p) ← (if truthy (frame p) then free_frame fs p else Ret (fs, p));
      '(fs, rest) ← free_pages fs ps';
      Ret (fs, p :: rest)
  end.

(** The pages of table [t], if the entry number [i] is below [limit]. *)
Definition free_table_frames (m : memory) (i t limit : Z) : outcome memory :=
  if u32 (i * 0x10 * 1024) <? limit then
    ps ← of_option (page_tables m !! t);
    '(fs, ps) ← free_pages (fr m) ps;
    Ret (set_fr (set_tables m (<[t := ps]> (page_tables m))) fs)
  else Ret m.

Definition free_table (m : memory) (t : ptr) : memory := set_tables m (delete t (page_tables m)).

(** A table of the directory's own. *)
Definition own_table (t kt : ptr) : bool := negb ((t =? 0) || (t =? 0xFFFFFFFF)) && negb (kt =? t).

Fixpoint release_entries (m : memory) (i : Z) (ts kts : list ptr) : outcome memory :=
  match ts, kts with
  | t :: ts', kt :: kts' =>
      m ← (if own_table t kt then
             m ← free_table_frames m i t SHM_START;
             Ret (free_table m t)
           else Ret m);
      release_entries m (i + 1) ts' kts'
  | _, _ => Ret m
  end.

Definition release_directory (m : memory) (dir : ptr) : outcome memory :=
  d ← directory m dir;
  let d := Build_directory (physical_tables d) (tables d) (physical_address d) (s32 (ref_count d - 1)) in
  let m := set_directories m (<[dir := d]> (directories m)) in
  if ref_count d <? 1 then
    k ← directory m (kernel_directory m);
    m ← release_entries m 0 (tables d) (tables k);
    Ret (set_directories m (delete dir (directories m)))
  else Ret m.

(** The same for a directory that goes on being used: its entries become 0. *)
Fixpoint release_exec_entries (m : memory) (i : Z) (ts ps kts : list Z) : outcome (memory * list ptr * list Z) :=
  match ts, ps, kts with
  | t :: ts', ph :: ps', kt :: kts' =>
      '(m, t, ph) ← (if own_table t kt && (u32 (i * 0x10 * 1024) <? USER_STACK_BOTTOM) then
                       m ← free_table_frames m i t USER_STACK_BOTTOM;
                       Ret (free_table m t, 0, 0)
                     else Ret (m, t, ph));
      '(m, ts', ps') ← release_exec_entries m (i + 1) ts' ps' kts';
      Ret (m, t :: ts', ph :: ps')
  | _, _, _ => Ret (m, ts, ps)
  end.

Definition release_directory_for_exec (m : memory) (dir : ptr) : outcome memory :=
  d ← directory m dir;
  k ← directory m (kernel_directory m);
  '(m, ts, ps) ← release_exec_entries m 0 (tables d) (physical_tables d) (tables k);
  Ret (set_directories m (<[dir := Build_directory ps ts (physical_address d) (ref_count d)]> (directories m))).

(** ** Specification *)

(** The tables of the directory that are not the kernel's. *)
Definition own_tables (ts kts : list ptr) : list ptr :=
  (zip ts kts) ≫= fun x => if own_table x.1 x.2 then [x.1] else [].

Definition frames_of (tabs : gmap ptr (list page_t)) (t : ptr) : list Z :=
  match tabs !! t with Some ps => (fun p => frame p) <$> filter (fun p => frame p <> 0) ps | None => [] end.

(** The frames that are free once those of [l] were given back. *)
Definition freed (fs fs' : frames_t) (l : list Z) : Prop :=
  wf fs' /\ nframes fs' = nframes fs /\ forall x, 0 <= x -> used fs' x = negb (bool_decide (x ∈ l)) && used fs x.

Lemma freed_nil fs : wf fs -> freed fs fs [].
Proof. intros Hwf. split; [done|]. split; [done|]. intros x _. by rewrite bool_decide_eq_false_2 by apply not_elem_of_nil. Qed.

Lemma freed_app fs1 fs2 fs3 a b : freed fs1 fs2 a -> freed fs2 fs3 b -> freed fs1 fs3 (a ++ b).
Proof.
  intros (_ & E1 & U1) (Hwf & E2 & U2). split; [done|]. split; [congruence|]. intros x Hx. rewrite U2, U1 by done.
  rewrite (bool_decide_ext (x ∈ a ++ b) (x ∈ a \/ x ∈ b)) by apply elem_of_app. rewrite bool_decide_or, negb_orb.
  destruct (bool_decide (x ∈ a)), (bool_decide (x ∈ b)); cbn; done || by rewrite ?andb_false_r.
Qed.

Lemma free_pages_ok fs ps :
  wf fs -> Forall (fun p => 0 <= frame p < nframes fs) ps ->
  exists fs' ps', free_pages fs ps = Ret (fs', ps') /\ freed fs fs' ((fun p => frame p) <$> filter (fun p => frame p <> 0) ps).
Proof.
  revert fs. induction ps as [|p ps IH]; intros fs Hwf Hps; cbn [free_pages].
  { exists fs, []. split; [done|]. by apply freed_nil. }
  apply Forall_cons in Hps as [Hp Hps]. rewrite filter_cons. unfold truthy.
  destruct (Z.eqb_spec (frame p) 0) as [E|Hne]; cbn [negb mbind outcome_bind].
  - rewrite decide_False by (intros []; done). destruct (IH fs Hwf Hps) as (fs' & ps' & -> & Hf). cbn [mbind outcome_bind]. eauto.
  - rewrite decide_True by done. unfold free_frame. rewrite (proj2 (Z.eqb_neq _ _) Hne). pose proof Hwf as (Hn & _). rewrite u32_small by lia.
    destruct (clear_frame_spec fs (frame p) Hwf Hp) as (f1 & -> & Hwf1 & En & Hu). cbn [mbind outcome_bind].
    destruct (IH f1 Hwf1) as (f2 & ps' & -> & Hf); [by rewrite En|]. cbn [mbind outcome_bind]. do 2 eexists. split; [done|].
    rewrite fmap_cons. change (?a :: ?b) with ([a] ++ b). apply (freed_app fs f1 f2); [|done]. split; [done|]. split; [done|].
    intros x Hx. rewrite Hu by done. f_equal. f_equal. destruct (Z.eqb_spec x (frame p)) as [->|];
      [by rewrite bool_decide_eq_true_2 by left|rewrite bool_decide_eq_false_2; [done|by rewrite list_elem_of_singleton]].
Qed.

(** The bound in the loops is never reached. *)
Lemma bound_unreached i limit : 0 <= i < 1024 -> 16777216 <= limit -> (u32 (i * 0x10 * 1024) <? limit) = true.
Proof. intros Hi Hl. rewrite u32_small by lia. apply Z.ltb_lt. lia. Qed.

(** What is left of the tables. *)
Definition without (tabs : gmap ptr (list page_t)) (l : list ptr) (tabs' : gmap ptr (list page_t)) : Prop :=
  forall t, tabs' !! t = if bool_decide (t ∈ l) then None else tabs !! t.

Definition table_ok (m : memory) (t : ptr) : Prop :=
  exists ps, page_tables m !! t = Some ps /\ Forall (fun p => 0 <= frame p < nframes (fr m)) ps.

Lemma release_table m i t : 0 <= i < 1024 -> wf (fr m) -> table_ok m t ->
  exists m', (m' ← free_table_frames m i t SHM_START; Ret (free_table m' t)) = Ret m' /\
    freed (fr m) (fr m') (frames_of (page_tables m) t) /\ page_tables m' = delete t (page_tables m) /\
    directories m' = directories m /\ kernel_directory m' = kernel_directory m /\ current_directory m' = current_directory m.
Proof.
  intros Hi Hwf (ps & Hps & Hf). unfold free_table_frames. rewrite bound_unreached by done. rewrite Hps. cbn [of_option mbind outcome_bind].
  destruct (free_pages_ok (fr m) ps Hwf Hf) as (fs & ps' & -> & Hfr). cbn [mbind outcome_bind]. eexists. split; [done|].
  split; [unfold frames_of; by rewrite Hps|]. cbn. split; [|done]. by rewrite delete_insert_eq.
Qed.

Lemma own_tables_cons t kt ts kts : own_tables (t :: ts) (kt :: kts) = (if own_table t kt then [t] else []) ++ own_tables ts kts.
Proof. done. Qed.

Lemma release_entries_ok m i ts kts :
  0 <= i -> i + Z.of_nat (length ts) <= 1024 -> wf (fr m) -> NoDup (own_tables ts kts) -> Forall (table_ok m) (own_tables ts kts) ->
  exists m', release_entries m i ts kts = Ret m' /\ freed (fr m) (fr m') (own_tables ts kts ≫= frames_of (page_tables m)) /\
    without (page_tables m) (own_tables ts kts) (page_tables m') /\ directories m' = directories m /\ kernel_directory m' = kernel_directory m.
Proof.
  revert m i kts. induction ts as [|t ts IH]; intros m i kts Hi Hl Hwf Hnd Hok; [|destruct kts as [|kt kts]].
  1,2: exists m; split; [done|]; split; [by apply freed_nil|]; split; [intros x; by rewrite bool_decide_eq_false_2 by apply not_elem_of_nil|done].
  cbn [release_entries]. rewrite own_tables_cons in *. cbn [length] in Hl. destruct (own_table t kt).
  - cbn [app] in *. apply NoDup_cons in Hnd as [Hni Hnd]. apply Forall_cons in Hok as [Ht Hok].
    destruct (release_table m i t) as (m1 & -> & Hf1 & Ep1 & Ed1 & Ek1 & _); [lia|done|done|]. cbn [mbind outcome_bind].
    pose proof Hf1 as (Hwf1 & En1 & _).
    assert (forall x, x ∈ own_tables ts kts -> page_tables m1 !! x = page_tables m !! x) as Hsame.
    { intros x Hx. rewrite Ep1, lookup_delete_ne; [done|]. intros ->. done. }
    destruct (IH m1 (i + 1) kts) as (m' & -> & Hf & Hw & Ed & Ek); [lia|lia|done|done| |].
    { apply Forall_forall. intros x Hx. rewrite Forall_forall in Hok. destruct (Hok x Hx) as (ps & Hps & Hfr). exists ps. by rewrite Hsame, En1. }
    exists m'. split; [done|]. split; [|split; [|by rewrite Ed, Ek]].
    + rewrite bind_cons. apply (freed_app _ (fr m1)); [done|].
      replace (own_tables ts kts ≫= frames_of (page_tables m)) with (own_tables ts kts ≫= frames_of (page_tables m1)); [done|].
      apply Forall_bind_ext, Forall_forall. intros x Hx. unfold frames_of. by rewrite Hsame.
    + intros x. rewrite (Hw x). cbn [app]. destruct (decide (x = t)) as [->|Hne].
      * rewrite (bool_decide_eq_true_2 (t ∈ t :: _)) by left. rewrite Ep1, lookup_delete_eq. by destruct (bool_decide _).
      * rewrite (bool_decide_ext (x ∈ t :: own_tables ts kts) (x ∈ own_tables ts kts)) by (rewrite elem_of_cons; tauto).
        by rewrite Ep1, lookup_delete_ne.
  - cbn [app mbind outcome_bind] in *. apply IH; [lia|lia|done|done|done].
Qed.

Lemma release_directory_ok m dir d k :
  directories m !! dir = Some d -> directories m !! kernel_directory m = Some k -> dir <> kernel_directory m ->
  -2147483648 < ref_count d < 2147483648 -> wf (fr m) -> length (tables d) = 1024%nat ->
  NoDup (own_tables (tables d) (tables k)) -> Forall (table_ok m) (own_tables (tables d) (tables k)) ->
  exists m', release_directory m dir = Ret m' /\
    if ref_count d <=? 1 then
      freed (fr m) (fr m') (own_tables (tables d) (tables k) ≫= frames_of (page_tables m)) /\
      without (page_tables m) (own_tables (tables d) (tables k)) (page_tables m') /\ directories m' = delete dir (directories m)
    else m' = set_directories m (<[dir := Build_directory (physical_tables d) (tables d) (physical_address d) (ref_count d - 1)]> (directories m)).
Proof.
  intros Hd Hk Hne Hrc Hwf Hlen Hnd Hok. unfold release_directory, directory. rewrite Hd. cbn [of_option mbind outcome_bind].
  cbn [set_directories directories ref_count kernel_directory tables]. rewrite s32_small by lia.
  destruct (Z.ltb_spec (ref_count d - 1) 1), (Z.leb_spec (ref_count d) 1); try lia.
  - rewrite lookup_insert_ne, Hk by done. cbn [of_option mbind outcome_bind].
    match goal with |- context [release_entries ?x 0 _ _] => destruct (release_entries_ok x 0 (tables d) (tables k)) as (m' & -> & Hf & Hw & Ed & _); [lia|lia|done|done|exact Hok|] end.
    cbn [mbind outcome_bind]. eexists. split; [done|]. cbn [fr set_directories page_tables directories]. split; [done|]. split; [done|].
    rewrite Ed. apply delete_insert_eq.
  - eexists. done.
Qed.

(** When the last user of a directory is gone, [release_directory] gives back the frames
    of every table that is not the kernel's and the tables themselves, and nothing
    else; while others use it only the count changes. *)
Theorem release_directory_frees m dir d k :
  directories m !! dir = Some d -> directories m !! kernel_directory m = Some k -> dir <> kernel_directory m ->
  -2147483648 < ref_count d < 2147483648 -> wf (fr m) -> length (tables d) = 1024%nat ->
  NoDup (own_tables (tables d) (tables k)) -> Forall (table_ok m) (own_tables (tables d) (tables k)) ->
  exists m', release_directory m dir = Ret m' /\
    if ref_count d <=? 1 then
      freed (fr m) (fr m') (own_tables (tables d) (tables k) ≫= frames_of (page_tables m)) /\
      without (page_tables m) (own_tables (tables d) (tables k)) (page_tables m') /\ directories m' = delete dir (directories m)
    else m' = set_directories m (<[dir := Build_directory (physical_tables d) (tables d) (physical_address d) (ref_count d - 1)]> (directories m)).
Proof. apply release_directory_ok. Qed.


(** *** A new program in the same directory *)

Lemma release_exec_entries_ok m i ts ps kts :
  0 <= i -> i + Z.of_nat (length ts) <= 1024 -> length ps = length ts -> length kts = length ts -> wf (fr m) ->
  NoDup (own_tables ts kts) -> Forall (table_ok m) (own_tables ts kts) ->
  exists m', release_exec_entries m i ts ps kts =
      Ret (m', zip_with (fun t kt => if own_table t kt then 0 else t) ts kts, zip_with (fun x ph => if own_table x.1 x.2 then 0 else ph) (zip ts kts) ps) /\
    freed (fr m) (fr m') (own_tables ts kts ≫= frames_of (page_tables m)) /\
    without (page_tables m) (own_tables ts kts) (page_tables m') /\ directories m' = directories m /\
    kernel_directory m' = kernel_directory m /\ current_directory m' = current_directory m.
Proof.
  revert m i ps kts. induction ts as [|t ts IH]; intros m i [|ph ps] [|kt kts] Hi Hl Ep Ek Hwf Hnd Hok; try done.
  { exists m. split; [done|]. split; [by apply freed_nil|]. split; [intros x; by rewrite bool_decide_eq_false_2 by apply not_elem_of_nil|done]. }
  cbn [release_exec_entries zip_with zip fst snd]. rewrite own_tables_cons in *. cbn [length] in Hl, Ep, Ek. rewrite bound_unreached by (lia || done).
  rewrite andb_true_r. destruct (own_table t kt).
  - cbn [app] in *. apply NoDup_cons in Hnd as [Hni Hnd]. apply Forall_cons in Hok as [Ht Hok].
    destruct (release_table m i t) as (m1 & E1 & Hf1 & Ep1 & Ed1 & Ek1 & Ec1); [lia|done|done|].
    assert (free_table_frames m i t USER_STACK_BOTTOM = free_table_frames m i t SHM_START) as -> by (unfold free_table_frames; rewrite !bound_unreached by (lia || done); done).
    destruct (free_table_frames m i t SHM_START) as [m0| |]; [|done|done]. cbn [mbind outcome_bind] in *. injection E1 as ->.
    pose proof Hf1 as (Hwf1 & En1 & _).
    assert (forall x, x ∈ own_tables ts kts -> page_tables m1 !! x = page_tables m !! x) as Hsame.
    { intros x Hx. rewrite Ep1, lookup_delete_ne; [done|]. intros ->. done. }
    destruct (IH m1 (i + 1) ps kts) as (m' & -> & Hf & Hw & Ed & Ek' & Ec'); [lia|lia|lia|lia|done|done| |].
    { apply Forall_forall. intros x Hx. rewrite Forall_forall in Hok. destruct (Hok x Hx) as (qs & Hqs & Hfr). exists qs. by rewrite Hsame, En1. }
    cbn [mbind outcome_bind]. exists m'. split; [done|]. split; [|split; [|by rewrite Ed, Ek', Ec']].
    + rewrite bind_cons. apply (freed_app _ (fr m1)); [done|].
      replace (own_tables ts kts ≫= frames_of (page_tables m)) with (own_tables ts kts ≫= frames_of (page_tables m1)); [done|].
      apply Forall_bind_ext, Forall_forall. intros x Hx. unfold frames_of. by rewrite Hsame.
    + intros x. rewrite (Hw x). destruct (decide (x = t)) as [->|Hne].
      * rewrite (bool_decide_eq_true_2 (t ∈ t :: _)) by left. rewrite Ep1, lookup_delete_eq. by destruct (bool_decide _).
      * rewrite (bool_decide_ext (x ∈ t :: own_tables ts kts) (x ∈ own_tables ts kts)) by (rewrite elem_of_cons; tauto).
        by rewrite Ep1, lookup_delete_ne.
  - cbn [app mbind outcome_bind] in *. destruct (IH m (i + 1) ps kts) as (m' & -> & Hf & Hw & Ed); [lia|lia|lia|lia|done|done|done|].
    cbn [mbind outcome_bind]. exists m'. done.
Qed.

Definition emptied (d k : page_directory_t) : page_directory_t :=
  Build_directory (zip_with (fun x ph => if own_table x.1 x.2 then 0 else ph) (zip (tables d) (tables k)) (physical_tables d))
    (zip_with (fun t kt => if own_table t kt then 0 else t) (tables d) (tables k)) (physical_address d) (ref_count d).

Lemma release_for_exec_ok m dir d k :
  directories m !! dir = Some d -> directories m !! kernel_directory m = Some k -> wf (fr m) ->
  length (tables d) = 1024%nat -> length (physical_tables d) = 1024%nat -> length (tables k) = 1024%nat ->
  NoDup (own_tables (tables d) (tables k)) -> Forall (table_ok m) (own_tables (tables d) (tables k)) ->
  exists m', release_directory_for_exec m dir = Ret m' /\ directories m' = <[dir := emptied d k]> (directories m) /\
    freed (fr m) (fr m') (own_tables (tables d) (tables k) ≫= frames_of (page_tables m)) /\
    without (page_tables m) (own_tables (tables d) (tables k)) (page_tables m') /\
    kernel_directory m' = kernel_directory m /\ current_directory m' = current_directory m.
Proof.
  intros Hd Hk Hwf Hl Hlp Hlk Hnd Hok. unfold release_directory_for_exec, directory. rewrite Hd. cbn [of_option mbind outcome_bind]. rewrite Hk.
  cbn [of_option mbind outcome_bind].
  destruct (release_exec_entries_ok m 0 (tables d) (physical_tables d) (tables k)) as (m' & -> & Hf & Hw & Ed & Ek & Ec); [lia|lia|lia|lia|done|done|done|].
  cbn [mbind outcome_bind]. eexists. split; [done|]. cbn [directories set_directories]. by rewrite Ed.
Qed.

Lemma emptied_table d k x t : tables (emptied d k) !! x = Some t -> t = 0 \/ t = 0xFFFFFFFF \/ tables k !! x = Some t.
Proof.
  cbn [emptied tables]. intros Hx. apply lookup_zip_with_Some in Hx as (t0 & kt & -> & Ht0 & Hkt). unfold own_table.
  destruct (Z.eqb_spec t0 0) as [->|]; [by left|]. destruct (Z.eqb_spec t0 0xFFFFFFFF) as [->|]; [by right; left|]. cbn [orb negb andb].
  destruct (Z.eqb_spec kt t0) as [->|]; cbn [negb]; [by right; right|by left].
Qed.

(** Before a new program is loaded [release_directory_for_exec] empties the directory:
    its own tables are gone with their frames, and only the kernel's tables are left in it. *)
Theorem release_for_exec_empties m dir d k :
  directories m !! dir = Some d -> directories m !! kernel_directory m = Some k -> wf (fr m) ->
  length (tables d) = 1024%nat -> length (physical_tables d) = 1024%nat -> length (tables k) = 1024%nat ->
  NoDup (own_tables (tables d) (tables k)) -> Forall (table_ok m) (own_tables (tables d) (tables k)) ->
  exists m' d', release_directory_for_exec m dir = Ret m' /\ directories m' = <[dir := d']> (directories m) /\
    freed (fr m) (fr m') (own_tables (tables d) (tables k) ≫= frames_of (page_tables m)) /\
    without (page_tables m) (own_tables (tables d) (tables k)) (page_tables m') /\
    forall x t, tables d' !! x = Some t -> t = 0 \/ t = 0xFFFFFFFF \/ tables k !! x = Some t.
Proof.
  intros Hd Hk Hwf Hl Hlp Hlk Hnd Hok. destruct (release_for_exec_ok m dir d k Hd Hk Hwf Hl Hlp Hlk Hnd Hok) as (m' & E & Ed & Hf & Hw & _).
  exists m', (emptied d k). do 4 (split; [done|]). apply emptied_table.
Qed.

(** ** The memory of a process that ends *)

Section Cleanup.
Import ShmNames Shm ShmSpec ShmCorrect.

(** The two calls of [cleanup_process] that give memory back. *)
Definition cleanup_memory (s : state) (proc : ptr) : outcome state :=
  t ← of_option (tasks s !! proc);
  s ← shm_release_all s proc;
  m ← release_directory (pg s) (page_directory t);
  Ret (set_pg s m).

Lemma own_table_in d k x t : tables d !! x = Some t -> length (tables k) = length (tables d) -> t <> 0 -> t <> 0xFFFFFFFF -> (t ∉ tables k) ->
  t ∈ own_tables (tables d) (tables k).
Proof.
  intros Ht Hl H0 H1 Hk. unfold own_tables. destruct (lookup_lt_is_Some_2 (tables k) x) as [kt Hkt]; [rewrite Hl; by apply lookup_lt_Some in Ht|].
  apply list_elem_of_bind. exists (t, kt). split; [|apply list_elem_of_lookup; exists x; by rewrite lookup_zip_with, Ht, Hkt].
  cbn [fst snd]. unfold own_table. rewrite (proj2 (Z.eqb_neq _ _) H0), (proj2 (Z.eqb_neq _ _) H1).
  destruct (Z.eqb_spec kt t) as [->|]; [destruct Hk; by eapply list_elem_of_lookup_2|]. left.
Qed.

(** The frames of shared memory are given away while they are mapped: when a process
    ends, [release_directory] frees the frames of every chunk it had mapped, although
    [shm_release_all] kept the chunks that other processes still use.  Their pages lead to
    frames that the allocator will hand out again. *)
Theorem cleanup_frees_shared D s r p q t u m m' d k du :
  inv D None s r -> tasks s !! p = Some t -> tasks s !! q = Some u -> p <> q ->
  m ∈ shm_mappings t -> m' ∈ shm_mappings u -> m_chunk m = m_chunk m' ->
  directories (pg s) !! page_directory t = Some d -> ref_count d = 1 -> length (tables d) = 1024%nat -> (0xFFFFFFFF ∉ tables d) ->
  directories (pg s) !! kernel_directory (pg s) = Some k -> length (tables k) = 1024%nat ->
  NoDup (own_tables (tables d) (tables k)) -> Forall (table_ok (pg s)) (own_tables (tables d) (tables k)) ->
  directories (pg s) !! page_directory u = Some du -> (forall x, x ∈ own_tables (tables d) (tables k) -> x ∉ tables du) ->
  exists s', cleanup_memory s p = Ret s' /\ is_Some (chunks s' !! m_chunk m') /\
    forall v f, v ∈ vaddrs m' -> leads (pg s) (page_directory u) v f ->
      leads (pg s') (page_directory u) v f /\ used (fr (pg s')) f = false.
Proof.
  intros Hi Ht Hu Hpq Hm Hm' Ek Hd Hrc Hlen Hff Hk Hlk Hnd Htok Hdu Hdis.
  destruct (mapping_pages D s r p t m Hi Ht Hm) as (Hg & _ & _). pose proof (tk_dir _ _ _ (i_task _ _ _ _ Hi p t Ht) Hg) as HD.
  destruct (mapping_pages D s r q u m' Hi Hu Hm') as (Hgu & _ & _).
  pose proof (sp_dir _ _ _ (i_spaces _ _ _ _ Hi) _ HD) as [Hnk _].
  assert (page_directory u <> page_directory t) as Hdd by (intros E; apply Hpq; symmetry; by apply (i_dirs _ _ _ _ Hi q p u t)).
  pose proof (tk_maps _ _ _ (i_task _ _ _ _ Hi p t Ht)) as H1m. pose proof (tk_maps _ _ _ (i_task _ _ _ _ Hi q u Hu)) as H2m. rewrite Forall_forall in H1m, H2m.
  destruct (H1m m Hm) as (c & Hc & _ & Hl), (H2m m' Hm') as (c' & Hc' & _ & Hl'). assert (c' = c) as -> by congruence.
  destruct (shm_release_all_ok D s r p t Hi Ht) as (s1 & E1 & Hi1 & _ & _ & (fs & Epg & Enf) & Halive).
  unfold cleanup_memory. rewrite Ht. cbn [of_option mbind outcome_bind]. rewrite E1. cbn [mbind outcome_bind].
  destruct (release_directory_ok (pg s1) (page_directory t) d k) as (m2 & -> & Hrel); rewrite ?Epg; cbn [set_fr directories kernel_directory fr]; try done.
  { lia. } { pose proof (proj1 (i_frames _ _ _ _ Hi1)) as Hwf. by rewrite Epg in Hwf. }
  { eapply Forall_impl; [exact Htok|]. intros x (ps & Hps & Hf). exists ps. cbn [fr page_tables set_fr]. by rewrite Enf. }
  rewrite Hrc in Hrel. cbn [Z.leb Z.compare Pos.compare Pos.compare_cont] in Hrel. destruct Hrel as ((_ & _ & Hus) & Hw & Edir). rewrite Epg in Hus, Hw, Edir.
  cbn [set_fr directories page_tables] in Hus, Hw, Edir. cbn [mbind outcome_bind]. eexists. split; [done|]. cbn [chunks pg set_pg]. split.
  { apply (proj2 (Halive (m_chunk m') c Hc')). by exists q, u, m'. }
  intros v f Hv (pa & Hpa & Hpr & Hf). split.
  - exists pa. split; [|done]. rewrite <- Hpa. unfold entry. rewrite Edir, lookup_delete_ne, Hdu by done. cbn [mbind option_bind].
    destruct (tables du !! Z.to_nat (v / 0x1000 / 1024)) as [x|] eqn:Ex; [|done]. cbn [mbind option_bind]. destruct (x =? 0); [done|].
    rewrite Hw, bool_decide_eq_false_2; [done|]. intros Hin. by apply (Hdis x Hin), (list_elem_of_lookup_2 _ _ _ Ex).
  - apply list_elem_of_lookup in Hv as [i Hvi]. destruct (Forall2_lookup_l _ _ _ _ _ Hl' Hvi) as (f' & Hf' & (pb & Hpb & _ & Efb)).
    assert (f' = f) as -> by congruence. destruct (Forall2_lookup_r _ _ _ _ _ Hl Hf') as (w & Hwi & (pw & Hpw & _ & Efw)).
    pose proof (ck_frames _ _ _ (i_chunk _ _ _ _ Hi _ _ Hc)) as Hfr. rewrite Forall_forall in Hfr. destruct (Hfr f) as [Hfb _]; [by eapply list_elem_of_lookup_2|].
    rewrite Hus by lia. rewrite bool_decide_eq_true_2; [done|]. pose proof Hpw as (x & ps & (d' & Hd' & Hx) & Hx0 & Hps & Hpp)%entry_at.
    assert (d' = d) as -> by congruence.
    destruct (layout_elem _ _ _ m w (tk_layout _ _ _ (i_task _ _ _ _ Hi p t Ht)) Hm) as (Hw0 & _ & _); [by eapply list_elem_of_lookup_2|].
    destruct (sp_table _ _ _ (i_spaces _ _ _ _ Hi) (page_directory t) (w / 0x1000) x HD) as (Hut & _); [by apply shm_page|by exists d|done|].
    apply list_elem_of_bind. exists x. split.
    + unfold frames_of. rewrite Hps. apply list_elem_of_fmap. exists pw. split; [done|]. apply list_elem_of_filter. split; [lia|by eapply list_elem_of_lookup_2].
    + apply (own_table_in d k (Z.to_nat (w / 0x1000 / 1024))); [done|lia|done| |by apply Hut].
      intros ->. apply Hff. by eapply list_elem_of_lookup_2.
Qed.

End Cleanup.

(** ** Witnesses: two processes map the one frame of a chunk *)

Module Demo.
Import ShmNames Shm ShmSpec ShmCorrect.

Definition bits : frames_t := Build_frames [0xFFFFFFFF; 257; 0; 0] 64.   (* frame 40 is the chunk's *)
Definition table : list page_t := Build_page 1 1 1 0 0 40 :: replicate 1023 zero_page.
Definition no_tables : list Z := replicate 1024 0.
Definition dir_with (t : ptr) : page_directory_t := Build_directory (<[704%nat := 7]> no_tables) (<[704%nat := t]> no_tables) 0 1.
Definition mem : memory :=
  Build_memory bits {[ 0x2100 := table; 0x2200 := table ]}
    {[ 0x1000 := Build_directory no_tables no_tables 0 1; 0x1100 := dir_with 0x2100; 0x1200 := dir_with 0x2200 ]}
    0x800 0x3000 0x800000 0x1000 0x1000 [].
Definition tree : Tree.state :=
  Tree.State (Tree.Build_tree 2 1) {[ 1 := Tree.Node 0 [2] 0; 2 := Tree.Node 10 [] 1 ]} [].
Definition rose : Tree.rose := Tree.Rose 1 0 [Tree.Rose 2 10 []].
Definition mapping : shm_mapping_t := Mapping 500 1 [SHM_START].
Definition proc (dir : ptr) : task_t := Task 0 (SHM_START + 0x1000) [mapping] dir.
Definition both : state :=
  State (Names tree {[ 10 := Snode [97] 500 ]}) {[ 500 := Chunk 10 2 1 [40] ]} {[ 100 := proc 0x1100; 200 := proc 0x1200 ]} mem 100.
Definition dirs : list ptr := [0x1100; 0x1200].

Lemma tree_ok : Tree.inv tree rose.
Proof.
  constructor; [done| |by_decide|done|done|].
  - repeat split; done.
  - intros x Hx. cbn [tree Tree.cells] in Hx. destruct (decide (x = 1)) as [->|]; [left|]. destruct (decide (x = 2)) as [->|]; [right; left|].
    exfalso. rewrite lookup_insert_ne, lookup_singleton_ne in Hx by done. by destruct Hx.
Qed.

Lemma names_ok : names_inv (nm both) rose.
Proof.
  constructor; [exact tree_ok|done| |].
  - intros t c Ht Hc. exists (Snode [97] 500). assert (c = Tree.Rose 2 10 []) as ->; [|split; [done|split; [done|]]; constructor; [by vm_compute|constructor]].
    inversion Ht as [|? ? ? c0 ? Hin Hsub]; subst; [by apply list_elem_of_singleton in Hc|].
    apply list_elem_of_singleton in Hin as ->. inversion Hsub as [|? ? ? ? ? Hin']; subst; [by apply elem_of_nil in Hc|by apply elem_of_nil in Hin'].
  - assert (forall ts u, walk (snodes (nm both)) rose ts = Some u -> (ts = [] /\ u = rose) \/ (ts = [[97]] /\ val u = 10)) as Hw.
    { intros [|n ts] u; [intros [= <-]; by left|]. cbn [walk kids rose List.find]. destruct (called _ n _) eqn:Ec; [|done].
      unfold called in Ec. cbn [val both nm snodes] in Ec. rewrite lookup_singleton_eq in Ec. apply bool_decide_eq_true in Ec. cbn [name] in Ec. subst n.
      destruct ts as [|n' ts]; cbn; [intros [= <-]; by right|done]. }
    intros ts ts' u u' Hu Hu' E. destruct (Hw _ _ Hu) as [[-> ->]|[-> E1]], (Hw _ _ Hu') as [[-> ->]|[-> E2]]; cbn in *; congruence.
Qed.

Lemma both_tables dir q t : dir ∈ dirs -> table_at mem dir q t -> t = 0 \/ (Z.to_nat (q / 1024) = 704%nat /\ ((dir = 0x1100 /\ t = 0x2100) \/ (dir = 0x1200 /\ t = 0x2200))).
Proof.
  intros Hd (d & Ed & Ht). unfold dirs in Hd. rewrite !elem_of_cons, elem_of_nil in Hd. destruct Hd as [->|[->|[]]].
  - assert (d = dir_with 0x2100) as -> by (cbn [mem directories] in Ed; rewrite lookup_insert_ne, lookup_insert_eq in Ed by done; congruence).
    cbn [tables dir_with] in Ht. apply list_lookup_insert_Some in Ht as [(-> & <- & _)|[_ [-> _]%lookup_replicate]]; [|by left]. right. split; [done|by left].
  - assert (d = dir_with 0x2200) as -> by (cbn [mem directories] in Ed; rewrite !lookup_insert_ne, lookup_singleton_eq in Ed by done; congruence).
    cbn [tables dir_with] in Ht. apply list_lookup_insert_Some in Ht as [(-> & <- & _)|[_ [-> _]%lookup_replicate]]; [|by left]. right. split; [done|by right].
Qed.

Lemma kernel_none t : t <> 0 -> user_table mem t.
Proof. intros Ht k [= <-] Hin. apply elem_of_replicate in Hin as [-> _]. done. Qed.

Lemma both_spaces : spaces SHM_TABLE mem dirs.
Proof.
  constructor.
  - done.
  - intros k t [= <-] Ht. left. by apply elem_of_replicate in Ht as [-> _].
  - intros dir Hd. unfold dirs in Hd. rewrite !elem_of_cons, elem_of_nil in Hd.
    destruct Hd as [->|[->|[]]]; (split; [done|]; eexists; split; [reflexivity|]; cbn [tables physical_tables dir_with]; rewrite !length_insert; unfold no_tables; by rewrite !length_replicate).
  - intros dir q t Hd Hq Ht Hn. split; [by apply kernel_none|]. destruct (both_tables dir q t Hd Ht) as [?|(_ & [[_ ->]|[_ ->]])]; [done|exists table; done|exists table; done].
  - intros dir dir' q q' t Hd Hd' Hq Hq' Ht Ht' Hn.
    assert (forall x, SHM_TABLE * 1024 <= x -> Z.to_nat (x / 1024) = 704%nat -> x / 1024 = 704) as Hx.
    { intros x Hx E. change (SHM_TABLE * 1024) with 720896 in Hx. pose proof (Z.div_pos x 1024). lia. }
    destruct (both_tables _ _ _ Hd Ht) as [?|(E1 & Hc1)], (both_tables _ _ _ Hd' Ht') as [?|(E2 & Hc2)]; try done.
    rewrite (Hx q), (Hx q') by done. destruct Hc1 as [[-> ->]|[-> ->]], Hc2 as [[-> ?]|[-> ?]]; done.
Qed.

Lemma bits_wf : wf bits.
Proof. split; [vm_compute; intuition done|]. split; [done|]. repeat constructor; vm_compute; intuition done. Qed.

Lemma proc_ok dir t : (dir = 0x1100 /\ t = 0x2100) \/ (dir = 0x1200 /\ t = 0x2200) -> task_ok dirs both (proc dir).
Proof.
  intros Hd. constructor; cbn [proc shm_mappings shm_heap group page_directory].
  - exists SHM_START. done.
  - done.
  - intros _. unfold dirs. destruct Hd as [[-> _]|[-> _]]; set_solver.
  - done.
  - constructor; [|constructor]. exists (Chunk 10 2 1 [40]). split; [done|]. split; [done|]. constructor; [|constructor]. cbn [proc page_directory].
    exists (Build_page 1 1 1 0 0 40). split; [|done]. destruct Hd as [[-> _]|[-> _]]; vm_compute; reflexivity.
Qed.

Lemma both_inv : inv dirs None both rose.
Proof.
  constructor; cbn [both chunks tasks pg nm snodes].
  - exact names_ok.
  - exact both_spaces.
  - split; [exact bits_wf|done].
  - intros x n [<- <-]%lookup_singleton_Some. right. by exists (Chunk 10 2 1 [40]).
  - intros k c [<- <-]%lookup_singleton_Some. constructor; cbn; try done.
    + constructor; [|constructor]. split; [cbn; lia|done].
    + by_decide.
    + by exists (Snode [97] 500).
  - intros k k' c c' f [<- _]%lookup_singleton_Some [<- _]%lookup_singleton_Some. done.
  - intros k c [<- <-]%lookup_singleton_Some. done.
  - intros p t Ht. apply lookup_insert_Some in Ht as [[_ <-]|[_ [_ <-]%lookup_singleton_Some]]; [apply (proc_ok _ 0x2100); by left|apply (proc_ok _ 0x2200); by right].
  - intros p p' t t' Ht Ht' _ _. apply lookup_insert_Some in Ht as [[<- <-]|[_ (<- & <-)%lookup_singleton_Some]],
      Ht' as [[<- <-]|[_ (<- & <-)%lookup_singleton_Some]]; cbn; done.
Qed.

Lemma own_is : own_tables (tables (dir_with 0x2100)) no_tables = [0x2100].
Proof. vm_compute. reflexivity. Qed.

Lemma table_frames : table_ok mem 0x2100.
Proof. exists table. split; [done|]. constructor; [cbn; lia|]. apply Forall_replicate. cbn. lia. Qed.

Lemma release_directory_frees_witness :
  exists m', release_directory mem 0x1100 = Ret m' /\ freed (fr mem) (fr m') [40] /\ directories m' = delete 0x1100 (directories mem).
Proof.
  destruct (release_directory_frees mem 0x1100 (dir_with 0x2100) (Build_directory no_tables no_tables 0 1)) as (m' & E & Hf & _ & Ed);
    [reflexivity|reflexivity|done|done|exact bits_wf|reflexivity|cbn [tables]; rewrite own_is; by_decide|
     cbn [tables]; rewrite own_is; constructor; [exact table_frames|constructor]|].
  cbn [tables] in Hf. rewrite own_is in Hf. exists m'. split; [exact E|]. split; [exact Hf|exact Ed].
Defined.

Lemma cleanup_frees_shared_witness :
  exists s', cleanup_memory both 100 = Ret s' /\ is_Some (chunks s' !! 500) /\
    leads (pg s') 0x1200 SHM_START 40 /\ used (fr (pg s')) 40 = false.
Proof.
  destruct (cleanup_frees_shared dirs both rose 100 200 (proc 0x1100) (proc 0x1200) mapping mapping (dir_with 0x2100)
              (Build_directory no_tables no_tables 0 1) (dir_with 0x2200) both_inv) as (s' & E & Hs & Hv);
    [reflexivity|reflexivity|done|left|left|reflexivity|reflexivity|reflexivity|reflexivity|by_decide|reflexivity|reflexivity|
     cbn [tables]; rewrite own_is; by_decide|cbn [tables]; rewrite own_is; constructor; [exact table_frames|constructor]|reflexivity| |].
  - cbn [tables]. rewrite own_is. intros x ->%list_elem_of_singleton. by_decide.
  - exists s'. split; [exact E|]. split; [exact Hs|]. apply Hv; [left|]. exists (Build_page 1 1 1 0 0 40). by vm_compute.
Defined.

End Demo.

End Release.
