(* ===== verification/Elf.v ===== *)
(** * Loading programs ([kernel/src/elf.c])

    [exec] recognises a file by its first bytes; [exec_elf] maps the segments of an ELF
    file into the address space, copies them from the file, clears what the file does not
    hold, and lays the arguments out for the program; [exec_shebang] starts the
    interpreter a script names.  The address space is an interface ([AddressSpace]): give
    the page of an address a frame, read a byte, write a byte.  [UserSpace] implements
    it with the paging structures.  Files are given by what [read_fs] returns. *)

From stdpp Require Import base gmap numbers list.
From S2P Require Import Prelude CString.

(** ** Address spaces *)

(** [back] is [alloc_frame(get_page(address, 1, current_directory), 0, 1)], [reset] is
    [release_directory_for_exec(current_directory)]; [peek] and [poke] are loads and
    stores of a byte, a page fault on a page that is not there. *)
Class AddressSpace (S : Type) := {
  back : S -> Z -> outcome S;
  peek : S -> Z -> option Z;
  poke : S -> Z -> Z -> outcome S;
  reset : S -> outcome S
}.

(** What the paging code promises: [sp_ok n s] says that [n] more pages of [sp_range] can be
    backed. *)
Class AddressSpaceOk (S : Type) `{AddressSpace S} := {
  sp_ok : nat -> S -> Prop;
  sp_range : Z -> Prop;
  sp_less n s : sp_ok (Datatypes.S n) s -> sp_ok n s;
  back_ok n s a : sp_ok (Datatypes.S n) s -> sp_range a ->
    exists s', back s a = Ret s' /\ sp_ok n s' /\ (forall b, b / 0x1000 = a / 0x1000 -> is_Some (peek s' b)) /\
      forall b v, peek s b = Some v -> peek s' b = Some v;
  poke_ok n s a v : sp_ok n s -> is_Some (peek s a) ->
    exists s', poke s a v = Ret s' /\ sp_ok n s' /\ forall b, peek s' b = if b =? a then Some (u8 v) else peek s b;
  reset_ok n s : sp_ok n s -> exists s', reset s = Ret s' /\ sp_ok n s'
}.

Module Elf.

(** ** The file format *)

Definition ELFMAG : list Z := [0x7f; 69; 76; 70].
Definition PT_LOAD : Z := 1.
Definition PT_DYNAMIC : Z := 2.
Definition sizeof_header : Z := 52.
Definition sizeof_phdr : Z := 32.

Record Elf32_Header := Header { e_ident : list Z; e_entry : Z; e_phoff : Z; e_phentsize : Z; e_phnum : Z }.
Record Elf32_Phdr := Phdr { p_type : Z; p_offset : Z; p_vaddr : Z; p_filesz : Z; p_memsz : Z }.

(** Little-endian fields of a structure read from the file. *)
Definition byte_at (bs : list Z) (i : Z) : Z := default 0 (bs !! Z.to_nat i).
Definition half_at (bs : list Z) (i : Z) : Z := byte_at bs i + 256 * byte_at bs (i + 1).
Definition word_at (bs : list Z) (i : Z) : Z := half_at bs i + 65536 * half_at bs (i + 2).

Definition header_of (bs : list Z) : Elf32_Header :=
  Header (take 16 bs) (word_at bs 24) (word_at bs 28) (half_at bs 42) (half_at bs 44).
Definition phdr_of (bs : list Z) : Elf32_Phdr :=
  Phdr (word_at bs 0) (word_at bs 4) (word_at bs 8) (word_at bs 16) (word_at bs 20).

(** [read_fs(file, offset, size, buffer)] on a buffer of the kernel's: what the file has at
    the offset, at most [size] bytes, replaces the beginning of the buffer. *)
Definition fill (read : Z -> Z -> list Z) (offset size : Z) (buf : list Z) : list Z :=
  let bs := take (Z.to_nat size) (read offset size) in
  bs ++ drop (length bs) buf.

Section Load.
Context {S : Type} `{AddressSpace S}.
Context (read : Z -> Z -> list Z).

(** What the structure on the stack held before it was read into. *)
Context (junk : list Z).

Definition read_header : Elf32_Header := header_of (fill read 0 sizeof_header junk).
Definition read_phdr (offset : Z) : Elf32_Phdr := phdr_of (fill read offset sizeof_phdr junk).

(** The three loops over the program headers visit the same ones. *)
Fixpoint phdrs_from (fuel : nat) (h : Elf32_Header) (x : Z) : list Elf32_Phdr :=
  match fuel with
  | O => []
  | Datatypes.S fuel' =>
      if x <? e_phentsize h * e_phnum h then read_phdr (u32 (e_phoff h + x)) :: phdrs_from fuel' h (x + e_phentsize h)
      else []
  end.
Definition phdrs (h : Elf32_Header) : list Elf32_Phdr := phdrs_from (Z.to_nat (e_phnum h)) h 0.

(** Where the image begins and ends. *)
Fixpoint bounds (ps : list Elf32_Phdr) (base_addr end_addr : Z) : Z * Z :=
  match ps with
  | [] => (base_addr, end_addr)
  | p :: ps' =>
      if p_type p =? PT_LOAD then
        bounds ps' (if p_vaddr p <? base_addr then p_vaddr p else base_addr)
                   (if end_addr <? u32 (p_memsz p + p_vaddr p) then u32 (p_memsz p + p_vaddr p) else end_addr)
      else bounds ps' base_addr end_addr
  end.

(** [for (i = p_vaddr; i < p_vaddr + p_memsz; i += 0x1000)]. *)
Fixpoint back_pages (fuel : nat) (s : S) (i stop : Z) : outcome S :=
  match fuel with
  | O => OutOfFuel
  | Datatypes.S fuel' =>
      if i <? stop then s ← back s i; back_pages fuel' s (u32 (i + 0x1000)) stop
      else Ret s
  end.

(** A run of bytes from an address on. *)
Fixpoint poke_all (s : S) (a : Z) (bs : list Z) : outcome S :=
  match bs with
  | [] => Ret s
  | b :: bs' => s ← poke s a b; poke_all s (u32 (a + 1)) bs'
  end.

(** The loop that clears the rest of the segment. *)
Fixpoint zero_rest (fuel : nat) (s : S) (vaddr r memsz : Z) : outcome S :=
  match fuel with
  | O => OutOfFuel
  | Datatypes.S fuel' =>
      if r <? memsz then s ← poke s (u32 (vaddr + r)) 0; zero_rest fuel' s vaddr (u32 (r + 1)) memsz
      else Ret s
  end.

Definition load_segment (s : S) (p : Elf32_Phdr) : outcome S :=
  s ← back_pages (Datatypes.S (Z.to_nat (p_memsz p / 0x1000 + 1))) s (p_vaddr p) (u32 (p_vaddr p + p_memsz p));
  s ← poke_all s (p_vaddr p) (take (Z.to_nat (p_filesz p)) (read (p_offset p) (p_filesz p)));
  zero_rest (Datatypes.S (Z.to_nat (p_memsz p - p_filesz p))) s (p_vaddr p) (p_filesz p) (p_memsz p).

Fixpoint load_segments (s : S) (ps : list Elf32_Phdr) : outcome S :=
  match ps with
  | [] => Ret s
  | p :: ps' =>
      s ← (if p_type p =? PT_LOAD then load_segment s p else Ret s);
      load_segments s ps'
  end.

End Load.

(** ** Loading is copying *)

Section Runs.
Context {S : Type} `{AddressSpaceOk S}.

(** The pages the loop visits, from an address that need not begin one. *)
Lemma back_run_ok k fuel n s i stop :
  sp_ok (k + n) s -> (k < fuel)%nat -> 0 <= i -> stop + 0x1000 <= 4294967296 ->
  stop <= i + 0x1000 * Z.of_nat k -> (forall a, i <= a < stop -> sp_range a) ->
  exists s', back_pages fuel s i stop = Ret s' /\ sp_ok n s' /\
    (forall b, i / 0x1000 <= b / 0x1000 -> b / 0x1000 * 0x1000 + i mod 0x1000 < stop -> is_Some (peek s' b)) /\
    forall b v, peek s b = Some v -> peek s' b = Some v.
Proof.
  revert fuel s i. induction k as [|k IH]; intros fuel s i Hok Hf Hi Hst Hk Hr; (destruct fuel as [|fuel]; [lia|]); cbn [back_pages].
  - destruct (Z.ltb_spec i stop); [lia|]. exists s. split; [done|]. split; [done|]. split; [|done]. Z.to_euclidean_division_equations; lia.
  - destruct (Z.ltb_spec i stop) as [Hlt|].
    2: { exists s. split; [done|]. split; [|split; [Z.to_euclidean_division_equations; lia|done]].
         clear -Hok H0. induction (Datatypes.S k) as [|k' IHk]; [done|]. apply IHk. by apply sp_less. }
    destruct (back_ok (k + n) s i Hok) as (s1 & -> & Hok1 & Hm1 & Hk1); [by apply Hr; lia|]. cbn [mbind outcome_bind].
    rewrite u32_small by lia. destruct (IH fuel s1 (i + 0x1000)) as (s' & -> & Hok' & Hm' & Hk'); [done|lia|lia|lia|lia|intros; apply Hr; lia|].
    exists s'. split; [done|]. split; [done|]. split; [|eauto]. intros b Hb1 Hb2.
    assert ((i + 0x1000) / 0x1000 = i / 0x1000 + 1 /\ (i + 0x1000) mod 0x1000 = i mod 0x1000) as [E1 E2] by (Z.to_euclidean_division_equations; lia).
    destruct (Z.eq_dec (b / 0x1000) (i / 0x1000)) as [E|]; [|apply Hm'; lia]. destruct (Hm1 b E) as [v Hv]. exists v. by apply Hk'.
Qed.

Lemma back_pages_ok k fuel n s i stop :
  sp_ok (k + n) s -> (k < fuel)%nat -> i mod 0x1000 = 0 -> 0 <= i -> stop + 0x1000 <= 4294967296 ->
  stop <= i + 0x1000 * Z.of_nat k -> (forall a, i <= a < stop -> sp_range a) ->
  exists s', back_pages fuel s i stop = Ret s' /\ sp_ok n s' /\ (forall b, i <= b < stop -> is_Some (peek s' b)) /\
    forall b v, peek s b = Some v -> peek s' b = Some v.
Proof.
  intros Hok Hf Ha Hi Hst Hk Hr. destruct (back_run_ok k fuel n s i stop Hok Hf Hi Hst Hk Hr) as (s' & E & Hok' & Hm & Hkeep).
  exists s'. split; [done|]. split; [done|]. split; [|done]. intros b Hb. apply Hm; Z.to_euclidean_division_equations; lia.
Qed.

Lemma poke_all_ok n s a bs :
  sp_ok n s -> 0 <= a -> a + Z.of_nat (length bs) < 4294967296 -> (forall b, a <= b < a + Z.of_nat (length bs) -> is_Some (peek s b)) ->
  exists s', poke_all s a bs = Ret s' /\ sp_ok n s' /\
    forall b, peek s' b = if (a <=? b) && (b <? a + Z.of_nat (length bs)) then Some (u8 (byte_at bs (b - a))) else peek s b.
Proof.
  revert s a. induction bs as [|x bs IH]; intros s a Hok Ha Hb Hm; cbn [poke_all length].
  { exists s. split; [done|]. split; [done|]. intros b. destruct (Z.leb_spec a b), (Z.ltb_spec b (a + Z.of_nat 0)); cbn; done || lia. }
  cbn [length] in Hb, Hm. destruct (poke_ok n s a x Hok) as (s1 & -> & Hok1 & Hp1); [apply Hm; lia|]. cbn [mbind outcome_bind]. rewrite u32_small by lia.
  destruct (IH s1 (a + 1)) as (s' & -> & Hok' & Hp'); [done|lia|lia| |].
  { intros b Hbb. rewrite Hp1. destruct (Z.eqb_spec b a); [by eexists|]. apply Hm. lia. }
  exists s'. split; [done|]. split; [done|]. intros b. rewrite Hp', Hp1. unfold byte_at.
  destruct (Z.leb_spec (a + 1) b), (Z.ltb_spec b (a + 1 + Z.of_nat (length bs))), (Z.leb_spec a b), (Z.ltb_spec b (a + Z.of_nat (Datatypes.S (length bs))));
    try lia; cbn [andb]; destruct (Z.eqb_spec b a) as [->|]; try lia; try done.
  - replace (Z.to_nat (b - a)) with (Datatypes.S (Z.to_nat (b - (a + 1)))) by lia. done.
  - by rewrite Z.sub_diag.
Qed.

Lemma zero_rest_ok k fuel n s vaddr r memsz :
  sp_ok n s -> (k < fuel)%nat -> memsz - r <= Z.of_nat k -> 0 <= vaddr -> 0 <= r -> vaddr + memsz < 4294967296 ->
  (forall b, vaddr + r <= b < vaddr + memsz -> is_Some (peek s b)) ->
  exists s', zero_rest fuel s vaddr r memsz = Ret s' /\ sp_ok n s' /\
    forall b, peek s' b = if (vaddr + r <=? b) && (b <? vaddr + memsz) then Some 0 else peek s b.
Proof.
  revert fuel s r. induction k as [|k IH]; intros fuel s r Hok Hf Hk Hv Hr Hb Hm; (destruct fuel as [|fuel]; [lia|]); cbn [zero_rest].
  1: destruct (Z.ltb_spec r memsz); [lia|]. 2: destruct (Z.ltb_spec r memsz).
  1,3: exists s; split; [done|]; split; [done|]; intros b; destruct (Z.leb_spec (vaddr + r) b), (Z.ltb_spec b (vaddr + memsz)); cbn; done || lia.
  rewrite (u32_small (vaddr + r)) by lia. destruct (poke_ok n s (vaddr + r) 0 Hok) as (s1 & -> & Hok1 & Hp1); [apply Hm; lia|]. cbn [mbind outcome_bind].
  rewrite u32_small by lia. destruct (IH fuel s1 (r + 1)) as (s' & -> & Hok' & Hp'); [done|lia|lia|lia|lia|lia| |].
  { intros b Hbb. rewrite Hp1. destruct (Z.eqb_spec b (vaddr + r)); [by eexists|]. apply Hm. lia. }
  exists s'. split; [done|]. split; [done|]. intros b. rewrite Hp', Hp1.
  destruct (Z.leb_spec (vaddr + (r + 1)) b), (Z.ltb_spec b (vaddr + memsz)), (Z.leb_spec (vaddr + r) b); try lia; cbn [andb];
    destruct (Z.eqb_spec b (vaddr + r)); try lia; done.
Qed.

End Runs.

Section Loaded.
Context {S : Type} `{AddressSpaceOk S}.
Context (read : Z -> Z -> list Z).

(** A segment the code can load: it begins on a page, its bytes in memory are in range and
    the file has as many as the header says. *)
Record segment_ok (p : Elf32_Phdr) : Prop := {
  so_aligned : p_vaddr p mod 0x1000 = 0;
  so_size : 0 <= p_vaddr p /\ 0 <= p_filesz p <= p_memsz p /\ p_vaddr p + p_memsz p + 0x1000 <= 4294967296;
  so_range a : p_vaddr p <= a < p_vaddr p + p_memsz p -> sp_range a;
  so_file : Z.of_nat (length (read (p_offset p) (p_filesz p))) = p_filesz p
}.

Definition pages_for (p : Elf32_Phdr) : nat := Z.to_nat ((p_memsz p + 0xFFF) / 0x1000).

(** The byte of the segment at an offset. *)
Definition segment_byte (p : Elf32_Phdr) (i : Z) : Z :=
  if i <? p_filesz p then u8 (byte_at (read (p_offset p) (p_filesz p)) i) else 0.


Definition inside (p : Elf32_Phdr) (b : Z) : Prop := p_vaddr p <= b < p_vaddr p + p_memsz p.

Lemma load_segment_ok n s p :
  sp_ok (pages_for p + n) s -> segment_ok p ->
  exists s', load_segment read s p = Ret s' /\ sp_ok n s' /\
    (forall b, inside p b -> peek s' b = Some (segment_byte p (b - p_vaddr p))) /\
    (forall b v, ~ inside p b -> peek s b = Some v -> peek s' b = Some v).
Proof.
  intros Hok [Ha (Hv & Hf & Hend) Hr Hfile]. unfold load_segment.
  assert (0 <= p_memsz p / 0x1000 /\ p_memsz p <= 0x1000 * ((p_memsz p + 0xFFF) / 0x1000) /\ (p_memsz p + 0xFFF) / 0x1000 <= p_memsz p / 0x1000 + 1) as (Hd0 & Hd1 & Hd2)
    by (Z.to_euclidean_division_equations; lia).
  rewrite (u32_small (p_vaddr p + p_memsz p)) by lia.
  destruct (back_pages_ok (pages_for p) (Datatypes.S (Z.to_nat (p_memsz p / 0x1000 + 1))) n s (p_vaddr p) (p_vaddr p + p_memsz p) Hok) as (s1 & -> & Hok1 & Hm1 & Hk1);
    [unfold pages_for; lia|done|lia|lia|unfold pages_for; lia|done|].
  cbn [mbind outcome_bind]. set (bs := take (Z.to_nat (p_filesz p)) (read (p_offset p) (p_filesz p))).
  assert (bs = read (p_offset p) (p_filesz p)) as Ebs by (apply take_ge; lia).
  assert (Z.of_nat (length bs) = p_filesz p) as Hlen by (by rewrite Ebs).
  destruct (poke_all_ok n s1 (p_vaddr p) bs) as (s2 & -> & Hok2 & Hp2); [done|lia|lia|intros; apply Hm1; lia|]. cbn [mbind outcome_bind].
  destruct (zero_rest_ok (Z.to_nat (p_memsz p - p_filesz p)) (Datatypes.S (Z.to_nat (p_memsz p - p_filesz p))) n s2 (p_vaddr p) (p_filesz p) (p_memsz p) Hok2)
    as (s3 & -> & Hok3 & Hp3); [lia|lia|lia|lia|lia| |].
  { intros b Hb. rewrite Hp2. destruct (_ && _); [by eexists|]. apply Hm1. lia. }
  exists s3. split; [done|]. split; [done|]. rewrite Hlen in Hp2. unfold inside, segment_byte. split.
  - intros b Hb. rewrite Hp3, Hp2. rewrite <- Ebs.
    destruct (Z.leb_spec (p_vaddr p + p_filesz p) b), (Z.ltb_spec b (p_vaddr p + p_memsz p)), (Z.ltb_spec (b - p_vaddr p) (p_filesz p)),
      (Z.leb_spec (p_vaddr p) b), (Z.ltb_spec b (p_vaddr p + p_filesz p)); try lia; done.
  - intros b v Hb Hpk. rewrite Hp3, Hp2.
    destruct (Z.leb_spec (p_vaddr p + p_filesz p) b), (Z.ltb_spec b (p_vaddr p + p_memsz p)),
      (Z.leb_spec (p_vaddr p) b), (Z.ltb_spec b (p_vaddr p + p_filesz p)); try lia; cbn [andb]; by apply Hk1.
Qed.

(** The segments that are loaded, and the pages they need. *)
Definition loadable (ps : list Elf32_Phdr) : list Elf32_Phdr := filter (fun p => p_type p = PT_LOAD) ps.
Definition pages_of (ps : list Elf32_Phdr) : nat := sum_list (pages_for <$> loadable ps).

(** No byte belongs to two segments. *)
Fixpoint apart (ps : list Elf32_Phdr) : Prop :=
  match ps with
  | [] => True
  | p :: ps' => Forall (fun q => forall b, inside p b -> ~ inside q b) ps' /\ apart ps'
  end.

Lemma load_segments_ok n s ps :
  sp_ok (pages_of ps + n) s -> Forall segment_ok (loadable ps) -> apart (loadable ps) ->
  exists s', load_segments read s ps = Ret s' /\ sp_ok n s' /\
    (forall p b, p ∈ loadable ps -> inside p b -> peek s' b = Some (segment_byte p (b - p_vaddr p))) /\
    (forall b v, Forall (fun p => ~ inside p b) (loadable ps) -> peek s b = Some v -> peek s' b = Some v).
Proof.
  revert s. induction ps as [|p ps IH]; intros s Hok Hseg Hap; cbn [load_segments].
  { exists s. split; [done|]. split; [done|]. split; [by intros p b ?%elem_of_nil|done]. }
  unfold pages_of, loadable in *. rewrite filter_cons in *. destruct (Z.eqb_spec (p_type p) PT_LOAD) as [Et|Hne].
  - rewrite decide_True in * by done. cbn [fmap list_fmap sum_list sum_list_with] in Hok. apply Forall_cons in Hseg as [Hp Hseg]. destruct Hap as [Hap1 Hap].
    rewrite <- Nat.add_assoc in Hok. destruct (load_segment_ok _ s p Hok Hp) as (s1 & -> & Hok1 & Hin1 & Hout1). cbn [mbind outcome_bind].
    destruct (IH s1 Hok1 Hseg Hap) as (s' & -> & Hok' & Hin' & Hout'). exists s'. split; [done|]. split; [done|]. split.
    + intros q b [->|Hq]%elem_of_cons Hb; [|by apply Hin']. apply Hout'; [|by apply Hin1].
      eapply Forall_impl; [exact Hap1|]. intros q Hq. by apply Hq.
    + intros b v [Hb Hbs]%Forall_cons Hpk. apply Hout'; [done|]. by apply Hout1.
  - rewrite decide_False in * by done. cbn [mbind outcome_bind]. by apply IH.
Qed.

(** Loading the segments of a program is copying them: every byte of a segment is the
    file's byte where the file has one and 0 behind it, and no other byte of the address
    space changes. *)
Theorem load_segments_copies n s ps :
  sp_ok (pages_of ps + n) s -> Forall segment_ok (loadable ps) -> apart (loadable ps) ->
  exists s', load_segments read s ps = Ret s' /\ sp_ok n s' /\
    (forall p b, p ∈ loadable ps -> inside p b -> peek s' b = Some (segment_byte p (b - p_vaddr p))) /\
    (forall b v, Forall (fun p => ~ inside p b) (loadable ps) -> peek s b = Some v -> peek s' b = Some v).
Proof. apply load_segments_ok. Qed.

End Loaded.

(** ** The arguments *)

Definition word_bytes (v : Z) : list Z := [v mod 256; v / 256 mod 256; v / 65536 mod 256; v / 16777216 mod 256].

(** The auxiliary vector: one made-up entry and the end mark. *)
Definition auxv : list Z := word_bytes 256 ++ word_bytes 0xDEADBEEF ++ word_bytes 0 ++ word_bytes 0.

(** [while (heap & 0xFFF) heap++]. *)
Fixpoint align_up (fuel : nat) (heap : Z) : Z :=
  match fuel with
  | O => heap
  | Datatypes.S fuel' => if truthy (Z.land heap 0xFFF) then align_up fuel' (u32 (heap + 1)) else heap
  end.

Section Arguments.
Context {S : Type} `{AddressSpace S}.

(** The loop over the arguments, and the one over the environment: the pages of the string
    and one more are backed, its address goes to the table, its bytes to the heap. *)
Fixpoint copy_strings (s : S) (heap table : Z) (strs : list cstring) : outcome (S * Z) :=
  match strs with
  | [] => Ret (s, heap)
  | str :: strs' =>
      let size := strlen str + 1 in
      s ← back_pages (Datatypes.S (Z.to_nat (size / 0x1000 + 2))) s heap (u32 (heap + size + 0x1000));
      s ← poke_all s table (word_bytes heap);
      s ← poke_all s heap (str ++ [0]);
      copy_strings s (u32 (heap + size)) (u32 (table + 4)) strs'
  end.

(** From [heap = image.entry + image.size] to the copy of the auxiliary vector: the address of
    the argument table and the end of the heap. *)
Definition place_arguments (s : S) (image_end : Z) (argv env : list cstring) : outcome (S * Z * Z) :=
  let heap := align_up (Z.to_nat 0x1000) image_end in
  s ← back s heap;
  let argv_ := heap in
  let heap := u32 (heap + 4 * (Z.of_nat (length argv) + 1)) in
  let env_ := heap in
  let heap := u32 (heap + 4 * (Z.of_nat (length env) + 1)) in
  let auxv_ptr := heap in
  let heap := u32 (heap + Z.of_nat (length auxv)) in
  '(s, heap) ← copy_strings s heap argv_ argv;
  s ← poke_all s (u32 (argv_ + 4 * Z.of_nat (length argv))) (word_bytes 0);
  '(s, heap) ← copy_strings s heap env_ env;
  s ← poke_all s (u32 (env_ + 4 * Z.of_nat (length env))) (word_bytes 0);
  s ← poke_all s auxv_ptr auxv;
  Ret (s, argv_, heap).

End Arguments.

Section Placed.
Context {S : Type} `{AddressSpaceOk S}.

(** The bytes at an address. *)
Definition holds (s : S) (a : Z) (bs : list Z) : Prop := forall i x, bs !! i = Some x -> peek s (a + Z.of_nat i) = Some x.

(** The table at [table] points to the strings, which follow each other from [heap] on. *)
Fixpoint strings_at (s : S) (heap table : Z) (strs : list cstring) : Prop :=
  match strs with
  | [] => True
  | str :: strs' => holds s table (word_bytes heap) /\ holds s heap (str ++ [0]) /\ strings_at s (heap + strlen str + 1) (table + 4) strs'
  end.

Definition total (strs : list cstring) : Z := foldr (fun str t => strlen str + 1 + t) 0 strs.
Definition string_pages (strs : list cstring) : nat := sum_list ((fun str => Z.to_nat ((strlen str + 1) / 0x1000 + 2)) <$> strs).

Lemma strlen_pos str : 0 <= strlen str.
Proof. unfold strlen. lia. Qed.

Lemma total_pos strs : 0 <= total strs.
Proof. induction strs as [|str strs IH]; [done|]. cbn [total foldr]. fold (total strs). pose proof (strlen_pos str). lia. Qed.

Lemma word_bytes_small v : Forall (fun b => 0 <= b < 256) (word_bytes v).
Proof. repeat constructor; apply Z.mod_pos_bound; lia. Qed.

(** Stores of bytes are found again. *)
Lemma poke_all_holds n s a bs :
  sp_ok n s -> 0 <= a -> a + Z.of_nat (length bs) < 4294967296 -> (forall b, a <= b < a + Z.of_nat (length bs) -> is_Some (peek s b)) ->
  Forall (fun b => 0 <= b < 256) bs ->
  exists s', poke_all s a bs = Ret s' /\ sp_ok n s' /\ holds s' a bs /\
    (forall b, b < a \/ a + Z.of_nat (length bs) <= b -> peek s' b = peek s b) /\ (forall b, is_Some (peek s b) -> is_Some (peek s' b)).
Proof.
  intros Hok Ha Hb Hm Hbs. destruct (poke_all_ok n s a bs Hok Ha Hb Hm) as (s' & E & Hok' & Hp). exists s'. split; [done|]. split; [done|]. split; [|split].
  - intros i x Hx. pose proof (lookup_lt_Some _ _ _ Hx). rewrite Hp.
    destruct (Z.leb_spec a (a + Z.of_nat i)), (Z.ltb_spec (a + Z.of_nat i) (a + Z.of_nat (length bs))); try lia. cbn [andb]. unfold byte_at.
    replace (Z.to_nat (a + Z.of_nat i - a)) with i by lia. rewrite Hx. cbn. f_equal. apply u8_small. rewrite Forall_forall in Hbs. apply Hbs. by eapply list_elem_of_lookup_2.
  - intros b Hout. rewrite Hp. destruct (Z.leb_spec a b), (Z.ltb_spec b (a + Z.of_nat (length bs))); try lia; done.
  - intros b Hs. rewrite Hp. destruct (_ && _); [by eexists|done].
Qed.

Lemma holds_mono s s' a bs : (forall b v, a <= b < a + Z.of_nat (length bs) -> peek s b = Some v -> peek s' b = Some v) -> holds s a bs -> holds s' a bs.
Proof. intros Hk Hh i x Hx. pose proof (lookup_lt_Some _ _ _ Hx). apply Hk; [lia|]. by apply Hh. Qed.

Lemma strings_mono s s' heap table strs :
  (forall b v, table <= b < table + 4 * Z.of_nat (length strs) \/ heap <= b < heap + total strs -> peek s b = Some v -> peek s' b = Some v) ->
  strings_at s heap table strs -> strings_at s' heap table strs.
Proof.
  revert heap table. induction strs as [|str strs IH]; intros heap table Hk; cbn [strings_at]; [done|]. intros (Hw & Hs & Hrest).
  cbn [length total foldr] in Hk. fold (total strs) in Hk. pose proof (strlen_pos str). pose proof (total_pos strs). split; [|split].
  - eapply holds_mono; [|exact Hw]. intros b v Hb. apply Hk. cbn [length word_bytes] in Hb. lia.
  - eapply holds_mono; [|exact Hs]. intros b v Hb. apply Hk. rewrite length_app in Hb. cbn [length] in Hb. unfold strlen in *. lia.
  - eapply IH; [|exact Hrest]. intros b v Hb. apply Hk. lia.
Qed.

Lemma copy_strings_ok n s heap table strs :
  sp_ok (string_pages strs + n) s -> Forall cstring_ok strs -> 0 <= table -> table + 4 * Z.of_nat (length strs) <= heap ->
  heap + total strs + 0x2000 <= 4294967296 -> (forall a, heap <= a < heap + total strs + 0x1000 -> sp_range a) ->
  (forall b, table <= b < table + 4 * Z.of_nat (length strs) -> is_Some (peek s b)) ->
  exists s', copy_strings s heap table strs = Ret (s', heap + total strs) /\ sp_ok n s' /\ strings_at s' heap table strs /\
    (forall b v, b < table \/ table + 4 * Z.of_nat (length strs) <= b < heap \/ heap + total strs <= b -> peek s b = Some v -> peek s' b = Some v) /\
    (forall b, is_Some (peek s b) -> is_Some (peek s' b)).
Proof.
  revert s heap table. induction strs as [|str strs IH]; intros s heap table Hok Hcs Ht Hth Hend Hr Hm.
  { cbn [copy_strings total foldr] in *. exists s. rewrite Z.add_0_r. done. }
  cbn [copy_strings total foldr length] in *. fold (total strs) in *. apply Forall_cons in Hcs as [Hc Hcs].
  pose proof (strlen_pos str). pose proof (total_pos strs). set (size := strlen str + 1) in *.
  assert (0 <= size / 0x1000 /\ size < 0x1000 * (size / 0x1000 + 1)) as [Hd0 Hd1] by (Z.to_euclidean_division_equations; lia).
  change (string_pages (str :: strs)) with (Z.to_nat (size / 0x1000 + 2) + string_pages strs)%nat in Hok. rewrite <- Nat.add_assoc in Hok.
  rewrite (u32_small (heap + size + 0x1000)) by lia.
  destruct (back_run_ok (Z.to_nat (size / 0x1000 + 2)) (Datatypes.S (Z.to_nat (size / 0x1000 + 2))) _ s heap (heap + size + 0x1000) Hok)
    as (s1 & -> & Hok1 & Hm1 & Hk1); [lia|lia|lia|lia|intros; apply Hr; lia|]. cbn [mbind outcome_bind].
  assert (forall b, heap <= b < heap + size -> is_Some (peek s1 b)) as Hm1' by (intros b Hb; apply Hm1; Z.to_euclidean_division_equations; lia).
  destruct (poke_all_holds _ s1 table (word_bytes heap) Hok1) as (s2 & -> & Hok2 & Hh2 & Ho2 & Hs2); [lia|cbn; lia| |apply word_bytes_small|].
  { intros b Hb. cbn [length word_bytes] in Hb. destruct (Hm b) as [v Hv]; [lia|]. exists v. by apply Hk1. }
  cbn [mbind outcome_bind]. assert (Z.of_nat (length (str ++ [0])) = size) as Hlen by (rewrite length_app; cbn [length]; unfold size, strlen; lia).
  destruct (poke_all_holds _ s2 heap (str ++ [0]) Hok2) as (s3 & -> & Hok3 & Hh3 & Ho3 & Hs3); [lia|lia|intros b Hb; apply Hs2, Hm1'; lia| |].
  { apply Forall_app. split; [|repeat constructor; lia]. eapply Forall_impl; [exact Hc|]. unfold byte_ok. intros; lia. }
  cbn [mbind outcome_bind]. rewrite (u32_small (heap + size)), (u32_small (table + 4)) by lia. rewrite Hlen in Ho3. cbn [length word_bytes] in Ho2.
  destruct (IH s3 (heap + size) (table + 4) Hok3 Hcs) as (s' & -> & Hok' & Hat & Hk' & Hs'); [lia|lia|lia|intros; apply Hr; lia| |].
  { intros b Hb. apply Hs3, Hs2. destruct (Hm b) as [v Hv]; [lia|]. exists v. by apply Hk1. }
  exists s'. split; [do 2 f_equal; lia|]. split; [done|]. split; [|split].
  - cbn [strings_at]. replace (heap + strlen str + 1) with (heap + size) by (unfold size; lia). split; [|split; [|done]].
    + eapply holds_mono; [|exact Hh2]. cbn [length word_bytes]. intros b v Hb Hv. apply Hk'; [lia|]. rewrite Ho3 by lia. done.
    + eapply holds_mono; [|exact Hh3]. rewrite Hlen. intros b v Hb Hv. apply Hk'; [lia|done].
  - intros b v Hb Hv. apply Hk'; [lia|]. rewrite Ho3, Ho2 by lia. by apply Hk1.
  - intros b [v Hv]. apply Hs', Hs3, Hs2. exists v. by apply Hk1.
Qed.

Lemma align_up_ok fuel h : 0 <= h -> h + 0x1000 < 4294967296 -> (- h) mod 0x1000 < Z.of_nat fuel ->
  align_up fuel h mod 0x1000 = 0 /\ h <= align_up fuel h < h + 0x1000.
Proof.
  revert h. induction fuel as [|fuel IH]; intros h Hh Hb Hf; [pose proof (Z.mod_pos_bound (- h) 0x1000); lia|].
  cbn [align_up]. change 0xFFF with (Z.ones 12). rewrite Z.land_ones by lia. change (2 ^ 12) with 0x1000. unfold truthy.
  destruct (Z.eqb_spec (h mod 0x1000) 0) as [E|Hne]; cbn [negb]; [lia|]. rewrite u32_small by lia.
  destruct (Z.eq_dec ((h + 1) mod 0x1000) 0) as [E1|Hne1].
  - assert (align_up fuel (h + 1) = h + 1) as ->; [|lia]. destruct fuel as [|fuel']; [done|]. cbn [align_up]. change 0xFFF with (Z.ones 12).
    rewrite Z.land_ones by lia. change (2 ^ 12) with 0x1000. by rewrite E1.
  - destruct (Z.eq_dec (h + 1 + 0x1000) 4294967296) as [E2|]; [Z.to_euclidean_division_equations; lia|].
    assert ((- h) mod 0x1000 = (- (h + 1)) mod 0x1000 + 1) by (Z.to_euclidean_division_equations; lia).
    destruct (IH (h + 1)) as [Hm Hr]; [lia|lia|lia|]. split; [done|]. split; [lia|].
    assert (align_up fuel (h + 1) <> h + 0x1000); [|lia]. intros E. rewrite E in Hm. Z.to_euclidean_division_equations; lia.
Qed.

(** The size of the two tables and the auxiliary vector. *)
Definition tables_size (argv env : list cstring) : Z :=
  4 * (Z.of_nat (length argv) + 1) + 4 * (Z.of_nat (length env) + 1) + Z.of_nat (length auxv).

(** What the program finds at [base]. *)
Record arguments_at (s : S) (base : Z) (argv env : list cstring) : Prop := {
  aa_argv : strings_at s (base + tables_size argv env) base argv;
  aa_argv_end : holds s (base + 4 * Z.of_nat (length argv)) (word_bytes 0);
  aa_env : strings_at s (base + tables_size argv env + total argv) (base + 4 * (Z.of_nat (length argv) + 1)) env;
  aa_env_end : holds s (base + 4 * (Z.of_nat (length argv) + 1) + 4 * Z.of_nat (length env)) (word_bytes 0);
  aa_auxv : holds s (base + 4 * (Z.of_nat (length argv) + 1) + 4 * (Z.of_nat (length env) + 1)) auxv
}.

Lemma place_arguments_ok n s image_end argv env :
  sp_ok (Datatypes.S (string_pages argv + (string_pages env + n))) s -> Forall cstring_ok argv -> Forall cstring_ok env -> 0 <= image_end ->
  let size := tables_size argv env + total argv + total env in
  image_end + 0x1000 + size + 0x2000 <= 4294967296 -> tables_size argv env <= 0x1000 ->
  (forall a, image_end <= a < image_end + 0x1000 + size + 0x1000 -> sp_range a) ->
  exists s' base, place_arguments s image_end argv env = Ret (s', base, base + size) /\ sp_ok n s' /\
    base mod 0x1000 = 0 /\ image_end <= base < image_end + 0x1000 /\ arguments_at s' base argv env /\
    forall b v, b < base \/ base + size <= b -> peek s b = Some v -> peek s' b = Some v.
Proof.
  intros Hok Ha He H0' size Hend Htab Hr. unfold place_arguments. pose proof (total_pos argv) as Hta. pose proof (total_pos env) as Hte.
  destruct (align_up_ok (Z.to_nat 0x1000) image_end) as [Hal Hbase]; [lia|unfold size, tables_size in *; cbn [length auxv app word_bytes] in *; lia|
    pose proof (Z.mod_pos_bound (- image_end) 0x1000); lia|].
  set (base := align_up (Z.to_nat 0x1000) image_end) in *.
  assert (Z.of_nat (length auxv) = 16) as Hax by done. unfold size, tables_size in *. rewrite ?Hax in *.
  set (na := Z.of_nat (length argv)) in *. set (ne := Z.of_nat (length env)) in *. assert (0 <= na /\ 0 <= ne) as [Hna Hne] by lia.
  destruct (back_ok _ s base Hok) as (s1 & -> & Hok1 & Hm1 & Hk1); [apply Hr; lia|]. cbn [mbind outcome_bind].
  rewrite (u32_small (base + 4 * (na + 1))) by lia. rewrite (u32_small (base + 4 * (na + 1) + 4 * (ne + 1))) by lia.
  rewrite (u32_small (base + 4 * (na + 1) + 4 * (ne + 1) + 16)) by lia.
  set (env_ := base + 4 * (na + 1)) in *. set (ax := env_ + 4 * (ne + 1)) in *. assert (ax + 16 <= base + 0x1000) as Hax0 by lia.
  assert (forall b, base <= b < ax + 16 -> is_Some (peek s1 b)) as Hm1' by (intros b Hb; apply Hm1; Z.to_euclidean_division_equations; lia).
  destruct (copy_strings_ok (string_pages env + n) s1 (ax + 16) base argv Hok1 Ha) as (s2 & -> & Hok2 & Hat2 & Hk2 & Hs2);
    [lia|fold na; lia|lia|intros; apply Hr; lia|intros b Hb; fold na in Hb; apply Hm1'; lia|]. cbn [mbind outcome_bind]. fold na in Hk2.
  rewrite (u32_small (base + 4 * na)) by lia.
  destruct (poke_all_holds _ s2 (base + 4 * na) (word_bytes 0) Hok2) as (s3 & -> & Hok3 & Hh3 & Ho3 & Hs3);
    [lia|cbn; lia|cbn [length word_bytes]; intros b Hb; apply Hs2, Hm1'; lia|apply word_bytes_small|]. cbn [mbind outcome_bind]. cbn [length word_bytes] in Ho3.
  destruct (copy_strings_ok n s3 (ax + 16 + total argv) env_ env Hok3 He) as (s4 & -> & Hok4 & Hat4 & Hk4 & Hs4);
    [lia|fold ne; lia|lia|intros; apply Hr; lia|intros b Hb; fold ne in Hb; apply Hs3, Hs2, Hm1'; lia|]. cbn [mbind outcome_bind]. fold ne in Hk4.
  rewrite (u32_small (env_ + 4 * ne)) by lia.
  destruct (poke_all_holds _ s4 (env_ + 4 * ne) (word_bytes 0) Hok4) as (s5 & -> & Hok5 & Hh5 & Ho5 & Hs5);
    [lia|cbn; lia|cbn [length word_bytes]; intros b Hb; apply Hs4, Hs3, Hs2, Hm1'; lia|apply word_bytes_small|]. cbn [mbind outcome_bind]. cbn [length word_bytes] in Ho5.
  destruct (poke_all_holds _ s5 ax auxv Hok5) as (s6 & -> & Hok6 & Hh6 & Ho6 & Hs6);
    [lia|rewrite Hax; lia|rewrite Hax; intros b Hb; apply Hs5, Hs4, Hs3, Hs2, Hm1'; lia|repeat (apply Forall_app; split); apply word_bytes_small|].
  cbn [mbind outcome_bind]. rewrite Hax in Ho6. exists s6, base. split; [do 2 f_equal; lia|]. split; [done|]. split; [done|]. split; [done|].
  assert (forall b v, base <= b < base + 4 * na \/ ax + 16 <= b < ax + 16 + total argv -> peek s2 b = Some v -> peek s6 b = Some v) as K26.
  { intros b v Hb Hv. rewrite Ho6, Ho5 by lia. apply Hk4; [lia|]. by rewrite Ho3 by lia. }
  split; [constructor; unfold tables_size; rewrite ?Hax; fold na ne env_ ax|].
  - replace (base + (4 * (na + 1) + 4 * (ne + 1) + 16)) with (ax + 16) by lia. eapply strings_mono; [|exact Hat2]. fold na. exact K26.
  - eapply holds_mono; [|exact Hh3]. cbn [length word_bytes]. intros b v Hb Hv. rewrite Ho6, Ho5 by lia. apply Hk4; [lia|done].
  - replace (base + (4 * (na + 1) + 4 * (ne + 1) + 16) + total argv) with (ax + 16 + total argv) by lia.
    eapply strings_mono; [|exact Hat4]. fold ne. intros b v Hb Hv. rewrite Ho6, Ho5 by lia. done.
  - eapply holds_mono; [|exact Hh5]. cbn [length word_bytes]. intros b v Hb Hv. rewrite Ho6 by lia. done.
  - exact Hh6.
  - intros b v Hb Hv. rewrite Ho6, Ho5 by lia. apply Hk4; [lia|]. rewrite Ho3 by lia. apply Hk2; [lia|]. by apply Hk1.
Qed.

End Placed.

End Elf.
