(* ===== verification/Exec.v ===== *)
(** * Starting programs ([exec], [exec_elf] and [exec_shebang] of [kernel/src/elf.c])

    [exec] opens the file, makes a task and hands both to the loader whose magic bytes
    the file begins with.  [exec_elf] empties the address space, loads the segments,
    fills the task in, lays the arguments out and puts the task into the queues of the
    scheduler; for a dynamic executable it starts [/lib/ld.so] instead.  [exec_shebang]
    starts the interpreter that a script names.  Files are what [read_fs] returns of them;
    [ENOENT] and [ENOEXEC] have the values of the toolchain's [errno.h]. *)

From stdpp Require Import base gmap numbers strings list.
From S2P Require Import Prelude CString TaskRing Scheduler Elf.
Import TaskRing.

Module Exec.
Import Elf.

Definition ENOENT : Z := 2.
Definition ENOEXEC : Z := 8.
Definition USER_STACK_BOTTOM : Z := 0x190000.
Definition USER_STACK_TOP : Z := 0x190000.
Definition SHM_START : Z := 0x190000.

(** A file that is open. *)
Record file_t := File { read : Z -> Z -> list Z; mask : Z; uid : Z }.

Record image_t := Image {
  size : Z; entry : Z; heap : Z; heap_actual : Z; user_stack : Z; start : Z; shm_heap : Z
}.

(** A table of descriptors: what [malloc] left in the entries that are not set. *)
Record fd_table_t := Table { entries : list ptr; length_ : Z; capacity : Z; refs : Z }.

(** The fields of [task_t] that [Scheduler.task_t] does not have. *)
Record program_t := Program {
  name : cstring; cmdline : option (list cstring); user : Z; umask : Z; group : Z; image : image_t;
  fds : fd_table_t; wd_node : ptr; wd_name : cstring; finished : Z; started : Z; running : Z;
  wait_queue : list ptr; shm_mappings : list ptr; signal_queue : list ptr; signal_kstack : ptr; is_tasklet : Z
}.

Definition set_user (p : program_t) (u : Z) : program_t :=
  Program (name p) (cmdline p) u (umask p) (group p) (image p) (fds p) (wd_node p) (wd_name p) (finished p) (started p) (running p)
    (wait_queue p) (shm_mappings p) (signal_queue p) (signal_kstack p) (is_tasklet p).
Definition set_image (p : program_t) (i : image_t) : program_t :=
  Program (name p) (cmdline p) (user p) (umask p) (group p) i (fds p) (wd_node p) (wd_name p) (finished p) (started p) (running p)
    (wait_queue p) (shm_mappings p) (signal_queue p) (signal_kstack p) (is_tasklet p).
Definition set_name (p : program_t) (n : cstring) : program_t :=
  Program n (cmdline p) (user p) (umask p) (group p) (image p) (fds p) (wd_node p) (wd_name p) (finished p) (started p) (running p)
    (wait_queue p) (shm_mappings p) (signal_queue p) (signal_kstack p) (is_tasklet p).

(** The kernel as [exec] sees it: the current address space, the scheduler, the tasks. *)
Record machine (S : Type) := Machine { space : S; sched : Scheduler.sched; programs : gmap ptr program_t }.
Arguments Machine {S} _ _ _.
Arguments space {S} _.
Arguments sched {S} _.
Arguments programs {S} _.

Definition put_program {S} (m : machine S) (t : ptr) (p : program_t) : machine S :=
  Machine (space m) (sched m) (<[t := p]> (programs m)).

Section Exec.
Context {S : Type} `{AddressSpace S} `{ElementAlloc}.

(** [kopen] and [kopen2]; the root node; the address of [kexit]; what the structures on the
    stack and in new memory held before. *)
Context (open : cstring -> option file_t) (fs_root : ptr) (kexit : Z) (junk : list Z) (junk_entries : list ptr).

(** What [valloc] returns for the kernel stack and for the first frame of the task. *)
Context (stack frame : ptr).

(** ** ELF files *)

(** [new_task->id = pid++] up to [new_task->is_tasklet = 0]: the fields of the scheduler. *)
Definition fresh_sched_task (t : Scheduler.task_t) : Scheduler.task_t :=
  Scheduler.Task NULL Scheduler.TASK_RUNNING (Scheduler.wakeup_time t) Scheduler.PRIO_HIGH 10 1 0 0 1 0 Scheduler.THREAD
    (Scheduler.kernel_stack t) (Scheduler.syscall_registers t).

(** The same lines, the other fields. *)
Definition fresh_program (p : program_t) : program_t :=
  Program (cstr "init") None 0 18 0 (Image 0 0 0 0 0 (start (image p)) SHM_START)
    (Table (<[0%nat := fs_root]> junk_entries) 12 44 1) fs_root (cstr "/") 0 1 1 [] [] [] NULL 0.

Definition initialise (m : machine S) (t : ptr) : outcome (machine S) :=
  let sc := sched m in
  st ← Scheduler.task (Scheduler.tasks sc) t;
  p ← of_option (programs m !! t);
  Ret (Machine (space m)
         (Scheduler.Sched (<[t := fresh_sched_task st]> (Scheduler.tasks sc)) (Scheduler.ready_queue sc) (Scheduler.current_task sc)
            (Scheduler.task_queue sc) (Scheduler.DOTASKSWITCH sc) (Scheduler.frames sc) (s32 (Scheduler.pid sc + 1)))
         (<[t := fresh_program p]> (programs m))).

(** [create_user_task(location, new_task, argc, argv)]. *)
Definition enter_user_jmp (sc : Scheduler.sched) (location argc argv : Z) (t : ptr) : outcome Scheduler.sched :=
  Scheduler._get_task_stack sc kexit t location argc argv 3 Scheduler.PRIO_HIGH Scheduler.THREAD stack frame.

(** [exec_elf] behind the search for [PT_DYNAMIC]. *)
Definition load_elf (m : machine S) (file : file_t) (h : Elf32_Header) (argv env : list cstring) (t : ptr) : outcome (machine S * Z) :=
  let ps := phdrs (read file) junk h in
  let '(base_addr, end_addr) := bounds ps 0xFFFFFFFF 0 in
  p ← of_option (programs m !! t);
  let i := image p in
  let m := put_program m t (set_image p (Image (s32 (end_addr - base_addr)) base_addr (heap i) (heap_actual i) (user_stack i) (start i) (shm_heap i))) in
  s ← reset (space m);
  s ← load_segments (read file) s ps;
  s ← back_pages 1 s USER_STACK_BOTTOM USER_STACK_TOP;
  m ← initialise (Machine s (sched m) (programs m)) t;
  p ← of_option (programs m !! t);
  '(s, argv_, heap) ← place_arguments (space m) (u32 (entry (image p) + size (image p))) argv env;
  let actual := u32 (heap + (0x1000 - heap mod 0x1000)) in
  s ← back s actual;
  let i := image p in
  let p := set_image p (Image (size i) (entry i) heap actual USER_STACK_TOP (e_entry h) (shm_heap i)) in
  sc ← enter_user_jmp (sched m) (e_entry h) (Z.of_nat (length argv)) argv_ t;
  Ret (Machine s sc (<[t := p]> (programs m)), 0).

Definition valid_magic (h : Elf32_Header) : bool := bool_decide (take 4 (e_ident h) = ELFMAG).
Definition dynamic (ps : list Elf32_Phdr) : bool := existsb (fun p => p_type p =? PT_DYNAMIC) ps.

(** A dynamic [ld.so] would start itself for ever: [fuel] bounds that recursion, and 2 is
    enough for the program and an [ld.so] that is not dynamic. *)
Fixpoint exec_elf (fuel : nat) (m : machine S) (file : file_t) (argv env : list cstring) (t : ptr) : outcome (machine S * Z) :=
  match fuel with
  | O => OutOfFuel
  | Datatypes.S fuel' =>
      let h := read_header (read file) junk in
      if negb (valid_magic h) then Ret (m, -1)
      else
        p ← of_option (programs m !! t);
        let m := if truthy (Z.land (mask file) 0x800) then put_program m t (set_user p (uid file)) else m in
        if dynamic (phdrs (read file) junk h) then
          match open (cstr "/lib/ld.so") with
          | None => Ret (m, -1)
          | Some ld => exec_elf fuel' m ld (cstr "ld.so" :: cstr "-e" :: name p :: argv) env t
          end
        else load_elf m file h argv env t
  end.

(** ** Scripts *)

(** [strpbrk] over the bytes of a buffer: what is before the byte it finds, that byte, what
    follows.  Running out of the buffer is a fault. *)
Fixpoint strpbrk (bs : list Z) (set : list Z) : outcome (option (list Z * Z * list Z)) :=
  match bs with
  | [] => Fault
  | c :: bs' =>
      if c =? 0 then Ret None
      else if bool_decide (c ∈ set) then Ret (Some ([], c, bs'))
      else r ← strpbrk bs' set; Ret (option_map (fun '(a, x, b) => (c :: a, x, b)) r)
  end.

(** The first line: the command and its argument, or nothing. *)
Definition shebang_line (tmp : list Z) : outcome (option (cstring * option cstring)) :=
  r ← strpbrk (drop 2 tmp) [32; 10];
  match r with
  | None => Ret None
  | Some (cmd, c, rest) =>
      if c =? 32 then
        r ← strpbrk rest [10];
        Ret (option_map (fun '(arg, _, _) => (cmd, Some arg)) r)
      else Ret (Some (cmd, None))
  end.

(** [args[j] = argv[i]] for the arguments behind the first. *)
Fixpoint copy_args (args : list (option cstring)) (j : Z) (argv : list cstring) : outcome (list (option cstring) * Z) :=
  match argv with
  | [] => Ret (args, j)
  | a :: argv' => args ← aset args j (Some a); copy_args args (j + 1) argv'
  end.

(** The array [args], which has [nargc + 1] elements. *)
Definition shebang_args (path cmd : cstring) (arg : option cstring) (argv : list cstring) : outcome (list (option cstring)) :=
  let nargc := Z.of_nat (length argv) + (match arg with Some _ => 2 | None => 1 end) in
  args ← aset (replicate (Z.to_nat (nargc + 1)) None) 0 (Some cmd);
  args ← aset args 1 (match arg with Some a => Some a | None => Some path end);
  args ← aset args 2 (match arg with Some _ => Some path | None => None end);
  args ← aset args 3 None;
  '(args, j) ← copy_args args (match arg with Some _ => 3 | None => 2 end) (drop 1 argv);
  args ← aset args j None;
  Ret (take (Z.to_nat nargc) args).

(** [run] is [exec]. *)
Definition exec_shebang (run : machine S -> cstring -> list cstring -> list cstring -> outcome (machine S * Z))
    (m : machine S) (path : cstring) (file : file_t) (argv env : list cstring) : outcome (machine S * Z) :=
  line ← shebang_line (fill (read file) 0 100 junk);
  match line with
  | None => Ret (m, - ENOEXEC)
  | Some (cmd, arg) =>
      args ← shebang_args path cmd arg argv;
      args ← of_option (mapM (fun a => a) args);
      run m cmd args env
  end.

(** ** The dispatch *)

Inductive exec_func := Run_elf | Run_shebang.
Definition fmts : list (exec_func * list Z * nat) := [(Run_elf, ELFMAG, 4%nat); (Run_shebang, [35; 33; 0; 0], 2%nat)].

Fixpoint matches (a b : list Z) (len : nat) : bool :=
  match len, a, b with
  | O, _, _ => true
  | Datatypes.S len', x :: a', y :: b' => if x =? y then matches a' b' len' else false
  | _, _, _ => false
  end.

Definition recognise (head : list Z) : option exec_func :=
  option_map (fun '(f, _, _) => f) (List.find (fun '(_, bytes, len) => matches bytes head len) fmts).

(** [valloc(sizeof(task_t))] gives [new_task n] when [n] more calls are allowed: every script
    makes one.  Its fields are what the memory held. *)
Context (new_task : nat -> ptr) (stale_task : Scheduler.task_t) (stale_program : program_t).

Fixpoint exec (fuel : nat) (m : machine S) (path : cstring) (argv env : list cstring) : outcome (machine S * Z) :=
  match fuel with
  | O => OutOfFuel
  | Datatypes.S fuel' =>
      match open path with
      | None => Ret (m, - ENOENT)
      | Some file =>
          let t := new_task fuel' in
          let m := Machine (space m) (Scheduler.put_tasks (sched m) (<[t := stale_task]> (Scheduler.tasks (sched m))))
                     (<[t := set_name stale_program (strdup path)]> (programs m)) in
          match recognise (take 4 (fill (read file) 0 4 junk)) with
          | Some Run_elf => exec_elf 2 m file argv env t
          | Some Run_shebang => exec_shebang (exec fuel') m path file argv env
          | None => Ret (m, - ENOEXEC)
          end
      end
  end.

End Exec.

(** ** What a program finds when it starts *)

Section Starts.
Context {S : Type} `{AddressSpaceOk S} `{ElementAlloc}.
Context (open : cstring -> option file_t) (fs_root : ptr) (kexit : Z) (junk : list Z) (junk_entries : list ptr) (stack frame : ptr).

Definition arguments_size (argv env : list cstring) : Z := tables_size argv env + total argv + total env.
Definition header (file : file_t) : Elf32_Header := read_header (read file) junk.
Definition segments (file : file_t) : list Elf32_Phdr := loadable (phdrs (read file) junk (header file)).
Definition demand (file : file_t) (argv env : list cstring) : nat :=
  pages_of (phdrs (read file) junk (header file)) + Datatypes.S (string_pages argv + (string_pages env + 1)).

(** A static executable that can be loaded with these arguments: its segments lie apart, above
    the arguments, and the tables of the arguments fit into a page. *)
Record program_ok (file : file_t) (argv env : list cstring) : Prop := {
  po_magic : valid_magic (header file) = true;
  po_static : dynamic (phdrs (read file) junk (header file)) = false;
  po_segments : Forall (segment_ok (read file)) (segments file);
  po_apart : apart (segments file);
  po_strings : Forall cstring_ok argv /\ Forall cstring_ok env;
  po_tables : tables_size argv env <= 0x1000;
  po_above : Forall (fun p => arguments_size argv env <= p_vaddr p) (segments file);
  po_range a : 0 <= a < arguments_size argv env + 0x2000 -> sp_range a;
  po_size : arguments_size argv env + 0x3000 <= 4294967296
}.

(** The queues of the scheduler, and a task that is in none of them. *)
Record queues_ok (sc : Scheduler.sched) (ts l : list ptr) (t : ptr) : Prop := {
  qo_current : Scheduler.current_task sc <> NULL /\ is_Some (Scheduler.tasks sc !! Scheduler.current_task sc);
  qo_ring : rep (Scheduler.task_queue sc) ts;
  qo_chain : Scheduler.chain (Scheduler.tasks sc) (Scheduler.ready_queue sc) l;
  qo_queue : NoDup l /\ l <> [];
  qo_new : t <> NULL /\ t <> Scheduler.current_task sc /\ (t ∉ l);
  qo_task : is_Some (Scheduler.tasks sc !! t)
}.

(** The program has started as task [t]. *)
Record started_as (m m' : machine S) (file : file_t) (argv env : list cstring) (ts l : list ptr) (t : ptr) : Prop := {
  sa_code p b : p ∈ segments file -> inside p b -> peek (space m') b = Some (segment_byte (read file) p (b - p_vaddr p));
  sa_arguments : arguments_at (space m') 0 argv env;
  sa_queue : Scheduler.chain (Scheduler.tasks (sched m')) (Scheduler.ready_queue (sched m')) (l ++ [t]);
  sa_ring : rep (Scheduler.task_queue (sched m')) (insert_after ts t);
  sa_frame : Scheduler.frames (sched m') !! frame =
    Some (Scheduler.initial_frame kexit (e_entry (header file)) (Z.of_nat (length argv)) 0 3 Scheduler.THREAD);
  sa_program : exists p, programs m' !! t = Some p /\ user p = 0 /\ heap (image p) = arguments_size argv env /\
    start (image p) = e_entry (header file)
}.

Lemma initialise_ok (m : machine S) ts l t p :
  queues_ok (sched m) ts l t -> programs m !! t = Some p ->
  exists m' st, initialise fs_root junk_entries m t = Ret m' /\ space m' = space m /\ queues_ok (sched m') ts l t /\
    programs m' !! t = Some (fresh_program fs_root junk_entries p) /\ Scheduler.tasks (sched m') !! t = Some st /\ Scheduler.next st = NULL.
Proof.
  intros [[Hc0 Hc] Hr Hch Hq (Ht0 & Htc & Htl) [st Hst]] Hp. unfold initialise. rewrite (Scheduler.task_ok _ _ _ Ht0 Hst). cbn [mbind outcome_bind].
  rewrite Hp. cbn [of_option mbind outcome_bind]. eexists _, _. split; [done|]. split; [done|]. split; [|cbn [programs sched Scheduler.tasks]; by rewrite !lookup_insert_eq].
  constructor; cbn [sched Scheduler.current_task Scheduler.tasks Scheduler.task_queue Scheduler.ready_queue]; try done.
  - split; [done|]. by rewrite lookup_insert_ne.
  - apply (Scheduler.queue_frame (Scheduler.tasks (sched m))); [|done]. intros b Hb. rewrite lookup_insert_ne; [done|]. intros <-. done.
  - rewrite lookup_insert_eq. by eexists.
Qed.

Lemma enter_user_jmp_ok sc ts l t st location argc argv :
  queues_ok sc ts l t -> Scheduler.tasks sc !! t = Some st -> Scheduler.next st = NULL ->
  exists sc', enter_user_jmp kexit stack frame sc location argc argv t = Ret sc' /\
    Scheduler.chain (Scheduler.tasks sc') (Scheduler.ready_queue sc') (l ++ [t]) /\ rep (Scheduler.task_queue sc') (insert_after ts t) /\
    Scheduler.frames sc' !! frame = Some (Scheduler.initial_frame kexit location argc argv 3 Scheduler.THREAD).
Proof.
  intros [[Hc0 Hc] Hr Hch [Hnd Hne] (Ht0 & Htc & Htl) _] Hst Hnx. destruct (exists_last Hne) as (l' & a & ->).
  destruct (Scheduler.new_task_joins sc ts l' a kexit t location argc argv 3 Scheduler.PRIO_HIGH Scheduler.THREAD stack frame st)
    as (sc' & E & Hj1 & Hj2 & _ & Hj3); try done. by exists sc'.
Qed.

Lemma load_elf_ok (m : machine S) file argv env ts l t p n :
  sp_ok (demand file argv env + n) (space m) -> program_ok file argv env -> queues_ok (sched m) ts l t -> programs m !! t = Some p ->
  exists m', load_elf fs_root kexit junk junk_entries stack frame m file (header file) argv env t = Ret (m', 0) /\
    started_as m m' file argv env ts l t /\ sp_ok n (space m').
Proof.
  intros Hsp [_ _ Hseg Hap [Ha He] Htab Habove Hr Hsz] Hq Hp. unfold load_elf. destruct (bounds _ _ _) as [base fin]. rewrite Hp. cbn [of_option mbind outcome_bind].
  destruct (reset_ok _ _ Hsp) as (s1 & Er & Hs1). cbn [put_program space sched programs]. rewrite Er. cbn [mbind outcome_bind].
  unfold demand in Hs1. rewrite <- Nat.add_assoc in Hs1. cbn [Nat.add] in Hs1. rewrite <- !Nat.add_assoc in Hs1.
  destruct (load_segments_ok (read file) _ s1 _ Hs1 Hseg Hap) as (s2 & -> & Hs2 & Hin & _). cbn [mbind outcome_bind back_pages].
  change (USER_STACK_BOTTOM <? USER_STACK_TOP) with false. cbn [mbind outcome_bind].
  set (p1 := set_image _ _). destruct (initialise_ok (Machine s2 (sched m) (<[t := p1]> (programs m))) ts l t p1 Hq) as (m3 & st & -> & Esp & Hq3 & Hp3 & Hst & Hnx);
    [apply lookup_insert_eq|]. cbn [mbind outcome_bind]. rewrite Hp3. cbn [of_option mbind outcome_bind fresh_program image entry size].
  rewrite Esp. change (u32 (0 + 0)) with 0. cbn [space] in *.
  destruct (place_arguments_ok (1 + n) s2 0 argv env Hs2 Ha He) as (s4 & b & -> & Hs4 & Hb0 & Hb & Hat & Hk); [lia|fold (arguments_size argv env); lia|done|
    fold (arguments_size argv env); intros a Ha'; apply Hr; lia|]. fold (arguments_size argv env) in *.
  assert (b = 0) as -> by (Z.to_euclidean_division_equations; lia). rewrite Z.add_0_l in *. cbn [mbind outcome_bind].
  assert (0 <= arguments_size argv env) as H0a by (unfold arguments_size, tables_size; pose proof (total_pos argv); pose proof (total_pos env); lia).
  pose proof (Z.mod_pos_bound (arguments_size argv env) 0x1000) as Hmod. rewrite u32_small by lia.
  destruct (back_ok _ s4 (arguments_size argv env + (0x1000 - arguments_size argv env mod 0x1000)) Hs4) as (s5 & -> & Hs5 & _ & Hk5); [apply Hr; lia|].
  cbn [mbind outcome_bind]. destruct (enter_user_jmp_ok _ ts l t st (e_entry (header file)) (Z.of_nat (length argv)) 0 Hq3 Hst Hnx) as (sc & -> & Hch & Hrep & Hfr).
  cbn [mbind outcome_bind]. eexists. split; [done|]. split; [|done]. constructor; cbn [space sched programs]; try done.
  - intros q a Hq' Hin'. apply Hk5, Hk; [|by apply Hin]. rewrite Forall_forall in Habove. specialize (Habove q Hq'). unfold inside in Hin'. lia.
  - destruct Hat. constructor; eauto using strings_mono, holds_mono.
  - rewrite lookup_insert_eq. eexists. split; [done|]. done.
Qed.

(** C8: An executable that can be loaded is started: its segments are in memory as the file
    has them, the arguments and the environment lie at address 0 in the shape the program
    expects, and the new task stands at the end of the ready queue and in the ring, with a
    first frame that enters the program in user mode.  It runs as user 0, whatever the mode
    of the file and the user that started it. *)
Theorem exec_elf_starts (m : machine S) file argv env ts l t p n fuel :
  sp_ok (demand file argv env + n) (space m) -> program_ok file argv env -> queues_ok (sched m) ts l t -> programs m !! t = Some p ->
  exists m', exec_elf open fs_root kexit junk junk_entries stack frame (Datatypes.S fuel) m file argv env t = Ret (m', 0) /\
    started_as m m' file argv env ts l t.
Proof.
  intros Hsp Hpo Hq Hp. cbn [exec_elf]. fold (header file). rewrite (po_magic _ _ _ Hpo), (po_static _ _ _ Hpo). cbn [negb]. rewrite Hp. cbn [of_option mbind outcome_bind].
  set (m1 := if truthy _ then _ else _). assert (space m1 = space m /\ sched m1 = sched m /\ is_Some (programs m1 !! t)) as (E1 & E2 & [p1 Hp1]).
  { unfold m1. destruct (truthy _); cbn [put_program space sched programs]; rewrite ?lookup_insert_eq, ?Hp; by eauto. }
  destruct (load_elf_ok m1 file argv env ts l t p1 n) as (m' & E & [] & _); rewrite ?E1, ?E2; try done. exists m'. split; [done|]. by constructor.
Qed.

(** A file without the magic bytes is refused and nothing changes. *)
Theorem exec_elf_refuses (m : machine S) file argv env t fuel :
  valid_magic (header file) = false ->
  exec_elf open fs_root kexit junk junk_entries stack frame (Datatypes.S fuel) m file argv env t = Ret (m, -1).
Proof. intros Hm. cbn [exec_elf]. fold (header file). by rewrite Hm. Qed.

(** A dynamic executable is started through [/lib/ld.so], with its arguments behind
    the three the loader is given. *)
Lemma exec_elf_dynamic (m : machine S) file ld argv env t p fuel :
  valid_magic (header file) = true -> dynamic (phdrs (read file) junk (header file)) = true -> open (cstr "/lib/ld.so") = Some ld ->
  truthy (Z.land (mask file) 0x800) = false -> programs m !! t = Some p ->
  exec_elf open fs_root kexit junk junk_entries stack frame (Datatypes.S fuel) m file argv env t =
  exec_elf open fs_root kexit junk junk_entries stack frame fuel m ld (cstr "ld.so" :: cstr "-e" :: name p :: argv) env t.
Proof. intros Hm Hd Ho Hs Hp. cbn [exec_elf]. fold (header file). rewrite Hm, Hp. cbn [negb of_option mbind outcome_bind]. by rewrite Hs, Hd, Ho. Qed.

End Starts.

(** ** Scripts *)

Lemma strpbrk_ok a c b set : Forall (fun x => x <> 0 /\ x ∉ set) a -> c <> 0 -> c ∈ set -> strpbrk (a ++ c :: b) set = Ret (Some (a, c, b)).
Proof.
  intros Ha Hc Hin. induction Ha as [|x a [Hx0 Hx] _ IH]; cbn [app strpbrk].
  - rewrite (proj2 (Z.eqb_neq _ _) Hc), bool_decide_eq_true_2 by done. done.
  - rewrite (proj2 (Z.eqb_neq _ _) Hx0), bool_decide_eq_false_2, IH by done. done.
Qed.

(** The arguments of the interpreter. *)
Definition interpreter_args (path cmd : cstring) (arg : option cstring) (argv : list cstring) : list cstring :=
  cmd :: match arg with Some a => [a] | None => [] end ++ path :: drop 1 argv.

Lemma copy_args_ok pre args argv : (length argv <= length args)%nat ->
  copy_args (pre ++ args) (Z.of_nat (length pre)) argv = Ret (pre ++ (Some <$> argv) ++ drop (length argv) args, Z.of_nat (length pre + length argv)).
Proof.
  revert pre args. induction argv as [|a argv IH]; intros pre args Hl; cbn [copy_args length].
  { rewrite Nat.add_0_r. done. }
  destruct args as [|x args]; cbn [length] in Hl; [lia|]. rewrite aset_in_range by (rewrite length_app; cbn [length]; lia). cbn [mbind outcome_bind].
  rewrite Nat2Z.id, insert_app_r_alt, Nat.sub_diag by done. cbn [insert list_insert].
  change (pre ++ Some a :: args) with (pre ++ [Some a] ++ args). rewrite app_assoc.
  replace (Z.of_nat (length pre) + 1) with (Z.of_nat (length (pre ++ [Some a]))) by (rewrite length_app; cbn [length]; lia).
  rewrite IH by lia. rewrite length_app. cbn [length]. cbn [fmap list_fmap drop]. rewrite <- app_assoc. do 2 f_equal. f_equal. lia.
Qed.

Lemma aset_at {A} pre (y x : A) l i : i = Z.of_nat (length pre) -> aset (pre ++ y :: l) i x = Ret (pre ++ x :: l).
Proof. intros ->. rewrite aset_in_range by (rewrite length_app; cbn [length]; lia). by rewrite Nat2Z.id, insert_app_r_alt, Nat.sub_diag by done. Qed.

Lemma set_first_four {B} (x0 x1 x2 x3 y0 y1 y2 y3 : option cstring) l (k : list (option cstring) -> outcome B) :
  (args ← aset (y0 :: y1 :: y2 :: y3 :: l) 0 x0; args ← aset args 1 x1; args ← aset args 2 x2; args ← aset args 3 x3; k args) =
  k (x0 :: x1 :: x2 :: x3 :: l).
Proof.
  pose proof (aset_at [] y0 x0 (y1 :: y2 :: y3 :: l) 0 eq_refl) as E0. pose proof (aset_at [x0] y1 x1 (y2 :: y3 :: l) 1 eq_refl) as E1.
  pose proof (aset_at [x0; x1] y2 x2 (y3 :: l) 2 eq_refl) as E2. pose proof (aset_at [x0; x1; x2] y3 x3 l 3 eq_refl) as E3. cbn [app] in *.
  rewrite E0. cbn [mbind outcome_bind]. rewrite E1. cbn [mbind outcome_bind]. rewrite E2. cbn [mbind outcome_bind]. by rewrite E3.
Qed.

(** The array is long enough when the line has an argument, or the script has one. *)
Lemma shebang_args_ok path cmd arg argv a rest : argv = a :: rest -> (arg = None -> rest <> []) ->
  shebang_args path cmd arg argv = Ret (Some <$> interpreter_args path cmd arg argv).
Proof.
  intros -> Hr. unfold shebang_args, interpreter_args. cbn [length]. change (drop 1 (a :: rest)) with rest. destruct arg as [x|].
  - replace (Z.to_nat (Z.of_nat (S (length rest)) + 2 + 1)) with (4 + length rest)%nat by lia. rewrite replicate_add. cbn [replicate].
    cbn [app]. rewrite set_first_four.
    pose proof (copy_args_ok [Some cmd; Some x; Some path] (None :: replicate (length rest) None) rest) as E. cbn [length app] in E. change (Z.of_nat 3) with 3 in E.
    rewrite E by (rewrite length_replicate; lia). cbn [mbind outcome_bind].
    rewrite aset_in_range by (cbn [length]; rewrite length_app, length_fmap, length_drop; cbn [length]; rewrite length_replicate; lia). cbn [mbind outcome_bind].
    replace (Z.to_nat (Z.of_nat (S (length rest)) + 2)) with (3 + length rest)%nat by lia. rewrite Nat2Z.id, take_insert_ge by lia.
    cbn [Nat.add take]. rewrite take_app_length' by (rewrite ?length_fmap; lia). done.
  - destruct rest as [|b rest]; [by destruct Hr|]. cbn [length].
    replace (Z.to_nat (Z.of_nat (S (S (length rest))) + 1 + 1)) with (4 + length rest)%nat by lia. rewrite replicate_add. cbn [replicate].
    cbn [app]. rewrite set_first_four.
    pose proof (copy_args_ok [Some cmd; Some path] (None :: None :: replicate (length rest) None) (b :: rest)) as E. cbn [length app] in E. change (Z.of_nat 2) with 2 in E.
    rewrite E by (rewrite length_replicate; lia). cbn [mbind outcome_bind].
    rewrite aset_in_range by (cbn [length]; rewrite length_app, length_fmap, length_drop; cbn [length]; rewrite length_replicate; lia). cbn [mbind outcome_bind].
    replace (Z.to_nat (Z.of_nat (S (S (length rest))) + 1)) with (3 + length rest)%nat by lia. rewrite Nat2Z.id, take_insert_ge by lia.
    cbn [Nat.add take]. rewrite take_app_length' by (rewrite ?length_fmap; cbn [length]; lia). done.
Qed.

(** The first line of a script: the bytes of the file after the two magic ones. *)
Definition line_of (cmd : cstring) (arg : option cstring) : list Z :=
  cmd ++ match arg with Some a => 32 :: a | None => [] end ++ [10].

Definition plain (stop : list Z) (s : cstring) : Prop := Forall (fun x => x <> 0 /\ x ∉ stop) s.

Lemma shebang_line_ok a b cmd arg rest : plain [32; 10] cmd -> (forall x, arg = Some x -> plain [10] x) ->
  shebang_line (a :: b :: line_of cmd arg ++ rest) = Ret (Some (cmd, arg)).
Proof.
  intros Hc Ha. unfold shebang_line, line_of. change (drop 2 (a :: b :: ?l)) with l. rewrite <- !app_assoc. destruct arg as [x|]; cbn [app].
  - rewrite (strpbrk_ok cmd 32) by (done || set_solver). cbn [mbind outcome_bind]. change (32 =? 32) with true. cbn iota.
    by rewrite (strpbrk_ok x 10) by (auto || set_solver).
  - by rewrite (strpbrk_ok cmd 10) by (done || set_solver).
Qed.

Section Scripts.
Context {S : Type} `{AddressSpaceOk S} `{ElementAlloc}.
Context (open : cstring -> option file_t) (fs_root : ptr) (kexit : Z) (junk : list Z) (junk_entries : list ptr) (stack frame : ptr).
Context (new_task : nat -> ptr) (stale_task : Scheduler.task_t) (stale_program : program_t).

(** The machine with the task [exec] makes before it looks at the file. *)
Definition with_task (m : machine S) (path : cstring) (t : ptr) : machine S :=
  Machine (space m) (Scheduler.put_tasks (sched m) (<[t := stale_task]> (Scheduler.tasks (sched m))))
    (<[t := set_name stale_program (strdup path)]> (programs m)).

Notation run := (exec open fs_root kexit junk junk_entries stack frame new_task stale_task stale_program).

Lemma exec_open fuel (m : machine S) path argv env file : open path = Some file ->
  run (Datatypes.S fuel) m path argv env =
  match recognise (take 4 (fill (read file) 0 4 junk)) with
  | Some Run_elf => exec_elf open fs_root kexit junk junk_entries stack frame 2 (with_task m path (new_task fuel)) file argv env (new_task fuel)
  | Some Run_shebang => exec_shebang junk (run fuel) (with_task m path (new_task fuel)) path file argv env
  | None => Ret (with_task m path (new_task fuel), - ENOEXEC)
  end.
Proof. intros Ho. cbn [exec]. by rewrite Ho. Qed.

(** A file that begins with a line for an interpreter. *)
Definition script (file : file_t) (cmd : cstring) (arg : option cstring) : Prop :=
  plain [32; 10] cmd /\ (forall x, arg = Some x -> plain [10] x) /\
  (exists rest, fill (read file) 0 100 junk = 35 :: 33 :: line_of cmd arg ++ rest) /\
  exists rest, fill (read file) 0 4 junk = 35 :: 33 :: rest.

Lemma script_recognised file cmd arg : script file cmd arg -> recognise (take 4 (fill (read file) 0 4 junk)) = Some Run_shebang.
Proof. intros (_ & _ & _ & rest & ->). done. Qed.

(** A script is run by its interpreter: [exec] starts the command of the first line, with
    the argument of that line if there is one, the path of the script and the arguments of
    the script after it. *)
Theorem exec_script fuel (m : machine S) path argv env file cmd arg a rest :
  open path = Some file -> script file cmd arg -> argv = a :: rest -> (arg = None -> rest <> []) ->
  run (Datatypes.S fuel) m path argv env =
  run fuel (with_task m path (new_task fuel)) cmd (interpreter_args path cmd arg argv) env.
Proof.
  intros Ho Hs Ha Hr. rewrite (exec_open fuel m path argv env file Ho), (script_recognised file cmd arg Hs).
  destruct Hs as (Hc & Hx & (tail & Ef) & _). unfold exec_shebang. rewrite Ef, (shebang_line_ok 35 33 cmd arg tail Hc Hx). cbn [mbind outcome_bind].
  rewrite (shebang_args_ok path cmd arg argv a rest Ha Hr). cbn [mbind outcome_bind]. by rewrite (mapM_fmap_Some (fun x => x) Some) by done.
Qed.

(** A script without arguments, whose line names only the interpreter: [args[3] = NULL] is
    outside the array of three. *)
Theorem exec_script_overruns fuel (m : machine S) path env file cmd a :
  open path = Some file -> script file cmd None -> run (Datatypes.S fuel) m path [a] env = Fault.
Proof.
  intros Ho Hs. rewrite (exec_open fuel m path [a] env file Ho), (script_recognised file cmd None Hs).
  destruct Hs as (Hc & Hx & (tail & Ef) & _). unfold exec_shebang. by rewrite Ef, (shebang_line_ok 35 33 cmd None tail Hc Hx).
Qed.

(** A path that does not name a file, and a file that no loader knows. *)
Theorem exec_errors fuel (m : machine S) path argv env :
  (open path = None -> run (Datatypes.S fuel) m path argv env = Ret (m, - ENOENT)) /\
  forall file, open path = Some file -> recognise (take 4 (fill (read file) 0 4 junk)) = None ->
    run (Datatypes.S fuel) m path argv env = Ret (with_task m path (new_task fuel), - ENOEXEC).
Proof.
  split; [intros Ho; cbn [exec]; by rewrite Ho|]. intros file Ho Hr. by rewrite (exec_open _ _ _ _ _ _ Ho), Hr.
Qed.

End Scripts.

End Exec.
