(* ===== verification/UserSpace.v ===== *)
(** * The address space of a program ([back], [peek], [poke] and [reset] on page tables)

    Programs are linked to addresses whose page tables the kernel has made, and every
    directory shares them.  [UserSpace] implements the interface of the file [Elf] for the
    first [K] tables: a byte is found through the entry of its page, in the memory of the
    frame.  The laws rest on an invariant of the directory: no two pages lead to the same
    frame, and no page leads to a free one. *)

From stdpp Require Import base gmap numbers list.
From S2P Require Import Prelude Frames Paging Spaces Release CString TaskRing Scheduler Elf Exec.

Module UserSpace.
Import Frames Paging Spaces Release FrameInstance.

(** The paging structures and the bytes of physical memory. *)
Record user := User { um : memory; bytes : Z -> Z }.

Definition at_page (s : user) (q : Z) : option page_t := entry (um s) (current_directory (um s)) q.

Definition peek_byte (s : user) (a : Z) : option Z :=
  if a <? 0 then None
  else p ← at_page s (a / 0x1000); if present p =? 0 then None else Some (bytes s (frame p * 0x1000 + a mod 0x1000)).

Definition poke_byte (s : user) (a v : Z) : outcome user :=
  if a <? 0 then Fault
  else
    p ← of_option (at_page s (a / 0x1000));
    if present p =? 0 then Fault
    else
      let x := frame p * 0x1000 + a mod 0x1000 in
      Ret (User (um s) (fun y => if y =? x then u8 v else bytes s y)).

#[export] Instance user_space `{KernelHeap} : AddressSpace user := {
  back s a := m ← back_page (um s) a (current_directory (um s)); Ret (User m (bytes s));
  peek := peek_byte;
  poke := poke_byte;
  reset s := m ← release_directory_for_exec (um s) (current_directory (um s)); Ret (User m (bytes s))
}.

(** ** The invariant *)

Section Invariant.
Context (K : Z).

(** The directory: full size, its tables exist and stand in one place, and the first [K] are
    the kernel's. *)
Record directory_ok (m : memory) (d k : page_directory_t) : Prop := {
  do_dir : directories m !! current_directory m = Some d;
  do_kernel : directories m !! kernel_directory m = Some k /\ kernel_directory m <> current_directory m;
  do_len : length (tables d) = 1024%nat /\ length (physical_tables d) = 1024%nat /\ length (tables k) = 1024%nat;
  do_kept x : 0 <= x < K -> exists t, t <> 0 /\ tables d !! Z.to_nat x = Some t /\ tables k !! Z.to_nat x = Some t;
  do_table x t : tables d !! x = Some t -> t <> 0 -> exists ps, page_tables m !! t = Some ps /\ length ps = 1024%nat;
  do_once x y t : tables d !! x = Some t -> tables d !! y = Some t -> t <> 0 -> x = y
}.

(** The frames: those of pages are in use, and by one page each; frame 0 is nobody's. *)
Record frames_ok (n : nat) (m : memory) (dir : ptr) : Prop := {
  fo_wf : wf (fr m);
  fo_zero : used (fr m) 0 = true;
  fo_free : (n <= length (free_list (fr m)))%nat;
  fo_page q p : 0 <= q -> entry m dir q = Some p -> 0 <= frame p < nframes (fr m) /\ (present p <> 0 -> frame p <> 0) /\
    (frame p <> 0 -> used (fr m) (frame p) = true);
  fo_once q q' p p' : 0 <= q -> 0 <= q' -> entry m dir q = Some p -> entry m dir q' = Some p' -> frame p <> 0 -> frame p = frame p' -> q = q'
}.

Definition user_ok (n : nat) (s : user) : Prop :=
  (exists d k, directory_ok (um s) d k) /\ frames_ok n (um s) (current_directory (um s)).

(** ** Pages *)

Lemma at_table s d k q : directory_ok (um s) d k -> at_page s q =
  t ← tables d !! Z.to_nat (q / 1024); if t =? 0 then None else pages ← page_tables (um s) !! t; pages !! Z.to_nat (q mod 1024).
Proof. intros Hd. unfold at_page, entry. by rewrite (do_dir _ _ _ Hd). Qed.

(** The entry of a page in a table that exists is written. *)
Lemma write_entry_ok m d k q f :
  directory_ok m d k -> 0 <= q -> (exists t, tables d !! Z.to_nat (q / 1024) = Some t /\ t <> 0) ->
  exists t ps p, page_tables m !! t = Some ps /\ entry m (current_directory m) q = Some p /\ t <> 0 /\
    forall p', let m' := set_fr (set_tables m (<[t := <[Z.to_nat (q mod 1024) := p']> ps]> (page_tables m))) f in
      (m' ← write_page (set_fr m f) (t, q mod 1024) p'; Ret m') = Ret m' /\ read_page m (t, q mod 1024) = Ret p /\
      tables d !! Z.to_nat (q / 1024) = Some t /\ directory_ok m' d k /\
      forall q', 0 <= q' -> entry m' (current_directory m) q' = if q' =? q then Some p' else entry m (current_directory m) q'.
Proof.
  intros Hd Hq (t & Ht & Hn). pose proof (page_split q Hq) as Hs. destruct (do_table _ _ _ Hd _ _ Ht Hn) as (ps & Hps & Hl).
  destruct (aget_in_range ps (q mod 1024)) as (p & Hp & Hg); [lia|]. exists t, ps, p. split; [done|].
  pose proof (do_dir _ _ _ Hd) as Edir.
  split; [unfold entry; rewrite Edir; cbn; rewrite Ht; cbn; by rewrite (proj2 (Z.eqb_neq _ _) Hn), Hps|]. split; [done|]. intros p' m'. split; [|split; [|split; [|split]]].
  - unfold write_page. cbn [fst snd set_fr page_tables]. rewrite Hps. cbn [of_option mbind outcome_bind]. by rewrite aset_in_range by lia.
  - unfold read_page. cbn [fst snd]. rewrite Hps. cbn [of_option mbind outcome_bind]. done.
  - done.
  - destruct Hd as [H1 H2 H3 H4 H5 H6]. constructor; try done. intros x t' Hx Hn'. cbn [m' set_fr set_tables page_tables].
    destruct (decide (t' = t)) as [->|]; [|rewrite lookup_insert_ne by done; by apply (H5 x)].
    eexists. rewrite lookup_insert_eq. split; [done|]. by rewrite length_insert.
  - intros q' Hq'. unfold entry. cbn [m' set_fr set_tables directories page_tables]. rewrite Edir. cbn. pose proof (page_split q' Hq') as Hs'.
    destruct (tables d !! Z.to_nat (q' / 1024)) as [t'|] eqn:Et'; cbn.
    2: { destruct (Z.eqb_spec q' q) as [->|]; [congruence|done]. }
    destruct (Z.eqb_spec t' 0) as [->|Hn']; [destruct (Z.eqb_spec q' q) as [->|]; [congruence|done]|].
    destruct (decide (t' = t)) as [->|Hne].
    + pose proof (do_once _ _ _ Hd _ _ _ Ht Et' Hn) as Ei. rewrite lookup_insert_eq, Hps. cbn. destruct (Z.eqb_spec q' q) as [->|Hqq].
      * apply list_lookup_insert_eq. lia.
      * apply list_lookup_insert_ne. pose proof (Z.div_pos q 1024). pose proof (Z.div_pos q' 1024). lia.
    + rewrite lookup_insert_ne by done. destruct (Z.eqb_spec q' q) as [->|]; [congruence|done].
Qed.

Lemma peek_page s a : 0 <= a -> peek_byte s a = p ← at_page s (a / 0x1000); if present p =? 0 then None else Some (bytes s (frame p * 0x1000 + a mod 0x1000)).
Proof. intros Ha. unfold peek_byte. by destruct (Z.ltb_spec a 0); [lia|]. Qed.

Lemma user_less n s : user_ok (S n) s -> user_ok n s.
Proof. intros [Hd [H1 H2 H3 H4 H5]]. split; [done|]. constructor; try done. lia. Qed.

Section Laws.
Context `{KernelHeap}.

(** [alloc_frame] on the entry of a page. *)
Lemma alloc_entry n m dir q p : frames_ok (S n) m dir -> 0 <= q -> entry m dir q = Some p ->
  exists fs p', alloc_frame (fr m) p 0 1 = Ret (fs, p') /\ present p' <> 0 /\ frame p' <> 0 /\ (present p <> 0 -> frame p' = frame p) /\
    forall m', fr m' = fs -> (forall q', 0 <= q' -> entry m' dir q' = if q' =? q then Some p' else entry m dir q') -> frames_ok n m' dir.
Proof.
  intros [Hwf Hz Hfree Hpg Honce] Hq He. destruct (Hpg q p Hq He) as (Hr & Hpr & Hu). destruct (Z.eq_dec (frame p) 0) as [E0|Hn0].
  - destruct (free_list (fr m)) as [|x0 fl] eqn:El; [cbn in Hfree; lia|].
    destruct (alloc_frame_new (fr m) p 0 1 Hwf E0) as (f & fs & -> & Hm & Huf & _ & Hwf' & En & Hused).
    { exists x0. apply and_comm, free_list_spec. rewrite El. left. }
    pose proof (managed_frame _ _ Hm) as Hfb. assert (f <> 0) by (intros ->; congruence).
    eexists _, _. split; [done|]. cbn [present frame]. split; [done|]. split; [done|]. split; [intros Hp; by apply Hpr in Hp|].
    intros m' Ef Hent. assert (forall q' p1, 0 <= q' -> entry m dir q' = Some p1 -> frame p1 <> f) as Hnf.
    { intros q' p1 Hq' He1 E. destruct (Hpg q' p1 Hq' He1) as (_ & _ & Hu1). rewrite E in Hu1. rewrite Hu1 in Huf; congruence. }
    constructor; rewrite ?Ef, ?En.
    + done.
    + rewrite Hused, Hz by lia. by rewrite orb_true_r.
    + pose proof (Permutation_length (free_list_take _ _ _ En Hm Huf Hused)) as Hp. rewrite El in Hp. cbn [length] in *. lia.
    + intros q' p1 Hq'. rewrite Hent by done. destruct (Z.eqb_spec q' q) as [->|Hne].
      * intros [= <-]. cbn [present frame]. split; [lia|]. split; [done|]. intros _. rewrite Hused by lia. by rewrite Z.eqb_refl.
      * intros He1. destruct (Hpg q' p1 Hq' He1) as (Hr1 & Hp1 & Hu1). split; [lia|]. split; [done|]. intros Hn1. rewrite Hused by lia. by rewrite Hu1, orb_true_r.
    + intros q1 q2 p1 p2 H1 H2. rewrite !Hent by done. destruct (Z.eqb_spec q1 q) as [->|], (Z.eqb_spec q2 q) as [->|]; [done| | |by apply Honce].
      * intros [= <-] He2 _ E. cbn [frame] in E. by destruct (Hnf q2 p2 H2 He2).
      * intros He1 [= <-] _ E. cbn [frame] in E. by destruct (Hnf q1 p1 H1 He1).
  - exists (fr m), (grant p 0 1 (frame p)). split; [unfold alloc_frame; by rewrite (proj2 (Z.eqb_neq _ _) Hn0)|]. cbn [grant present frame].
    split; [done|]. split; [done|]. split; [done|]. intros m' Ef Hent. constructor; rewrite ?Ef; try done.
    + lia.
    + intros q' p1 Hq'. rewrite Hent by done. destruct (Z.eqb_spec q' q) as [->|]; [|by apply Hpg]. intros [= <-]. done.
    + intros q1 q2 p1 p2 H1 H2. rewrite !Hent by done. destruct (Z.eqb_spec q1 q) as [->|], (Z.eqb_spec q2 q) as [->|]; [done| | |by apply Honce].
      * intros [= <-] He2. cbn [grant frame]. by apply Honce.
      * intros He1 [= <-]. cbn [grant frame]. by apply Honce.
Qed.

Lemma back_user n s a : user_ok (S n) s -> 0 <= a < K * 0x400000 ->
  exists s', back s a = Ret s' /\ user_ok n s' /\ (forall b, b / 0x1000 = a / 0x1000 -> is_Some (peek s' b)) /\
    forall b v, peek s b = Some v -> peek s' b = Some v.
Proof.
  intros [(d & k & Hd) Hf] Ha. set (q := a / 0x1000). assert (0 <= q) as Hq by (apply Z.div_pos; lia).
  assert (0 <= q / 1024 < K) as Hx by (unfold q; Z.to_euclidean_division_equations; lia).
  destruct (do_kept _ _ _ Hd (q / 1024) Hx) as (t & Hn & Ht & _).
  destruct (write_entry_ok (um s) d k q (fr (um s)) Hd Hq) as (t0 & ps & p & Hps & He & _ & Hw0); [by exists t|].
  assert (t0 = t) as -> by (destruct (Hw0 p) as (_ & _ & E & _); congruence).
  destruct (alloc_entry n (um s) _ q p Hf Hq He) as (fs & p' & Ea & Hpr & Hfr & Hsame & Hfo).
  destruct (write_entry_ok (um s) d k q fs Hd Hq) as (t1 & ps1 & p1 & Hps1 & He1 & _ & Hw); [by exists t|].
  destruct (Hw p') as (Ew & Er & Et & Hd' & Hent). assert (t1 = t) as -> by congruence.
  cbn [back user_space]. unfold back_page, update_page, get_page, directory. rewrite (do_dir _ _ _ Hd). cbn [of_option mbind outcome_bind]. fold q.
  rewrite (aget_lookup _ _ t) by (done || lia). cbn [mbind outcome_bind]. unfold truthy. rewrite (proj2 (Z.eqb_neq _ _) Hn). cbn [negb mbind outcome_bind of_option].
  rewrite Er. cbn [mbind outcome_bind]. assert (p1 = p) as -> by congruence. rewrite Ea. cbn [mbind outcome_bind].
  destruct (write_page (set_fr (um s) fs) (t, q mod 1024) p') as [m'| |]; [|done|done]. cbn [mbind outcome_bind] in *. injection Ew as ->.
  eexists. split; [done|]. set (m' := set_fr _ _) in *. cbn [peek user_space]. split; [|split].
  - split; [by exists d, k|]. by apply Hfo.
  - intros b Hb. assert (0 <= b) as Hb0 by (unfold q in *; Z.to_euclidean_division_equations; lia). rewrite peek_page by done. unfold at_page. cbn [um bytes].
    change (current_directory m') with (current_directory (um s)). rewrite Hent by (apply Z.div_pos; lia). rewrite Hb. fold q. rewrite Z.eqb_refl. cbn.
    rewrite (proj2 (Z.eqb_neq _ _) Hpr). by eexists.
  - intros b v. unfold peek_byte. destruct (Z.ltb_spec b 0); [done|]. unfold at_page. cbn [um bytes]. change (current_directory m') with (current_directory (um s)).
    rewrite Hent by (apply Z.div_pos; lia). destruct (Z.eqb_spec (b / 0x1000) q) as [->|]; [|done]. rewrite He. cbn.
    destruct (Z.eqb_spec (present p) 0) as [|Hp]; [done|]. rewrite (proj2 (Z.eqb_neq _ _) Hpr), Hsame by done. done.
Qed.

Lemma poke_user n s a v : user_ok n s -> is_Some (peek s a) ->
  exists s', poke s a v = Ret s' /\ user_ok n s' /\ forall b, peek s' b = if b =? a then Some (u8 v) else peek s b.
Proof.
  intros [Hd Hf] [w Hw]. cbn [peek poke user_space] in *. unfold peek_byte in Hw. unfold poke_byte. destruct (Z.ltb_spec a 0); [done|].
  destruct (at_page s (a / 0x1000)) as [p|] eqn:Ea; [|done]. cbn in Hw. cbn [of_option mbind outcome_bind]. destruct (Z.eqb_spec (present p) 0) as [|Hp]; [done|].
  eexists. split; [done|]. split; [done|]. intros b. unfold peek_byte. destruct (Z.ltb_spec b 0); [destruct (Z.eqb_spec b a); [lia|done]|].
  change (at_page (User _ _) ?q) with (at_page s q). destruct (at_page s (b / 0x1000)) as [p'|] eqn:Eb; cbn.
  2: { destruct (Z.eqb_spec b a) as [->|]; [congruence|done]. }
  destruct (Z.eqb_spec (present p') 0) as [E|Hp']; [destruct (Z.eqb_spec b a) as [->|]; [congruence|done]|].
  destruct (fo_page _ _ _ Hf (a / 0x1000) p) as (_ & Hpn & _); [by apply Z.div_pos|done|].
  destruct (Z.eqb_spec b a) as [->|Hne]; [assert (p' = p) as -> by congruence; by rewrite Z.eqb_refl|].
  destruct (Z.eqb_spec (frame p' * 0x1000 + b mod 0x1000) (frame p * 0x1000 + a mod 0x1000)) as [E|]; [|done]. exfalso.
  pose proof (Z.mod_pos_bound b 0x1000). pose proof (Z.mod_pos_bound a 0x1000). assert (frame p = frame p') as Ef by lia.
  assert (a / 0x1000 = b / 0x1000) as Eq by (apply (fo_once _ _ _ Hf _ _ p p'); auto using Z.div_pos with lia).
  apply Hne. Z.to_euclidean_division_equations; lia.
Qed.

Lemma own_index ts kts t : t ∈ own_tables ts kts -> exists x kt, ts !! x = Some t /\ kts !! x = Some kt /\ own_table t kt = true.
Proof.
  unfold own_tables. intros ([t0 kt] & Hin & (x & Hx)%list_elem_of_lookup)%list_elem_of_bind. cbn [fst snd] in Hin. destruct (own_table t0 kt) eqn:Eo; [|by apply elem_of_nil in Hin].
  apply list_elem_of_singleton in Hin as ->. apply lookup_zip_with_Some in Hx as (t1 & kt1 & [= <- <-] & H1 & H2). by exists x, kt.
Qed.

Lemma own_not_null t kt : own_table t kt = true -> t <> 0.
Proof. unfold own_table. by destruct (Z.eqb_spec t 0). Qed.

Lemma own_once ts kts : (forall x y t, ts !! x = Some t -> ts !! y = Some t -> t <> 0 -> x = y) -> NoDup (own_tables ts kts).
Proof.
  revert kts. induction ts as [|t ts IH]; intros [|kt kts] Ho; try by apply NoDup_nil. rewrite own_tables_cons.
  assert (NoDup (own_tables ts kts)) as Hnd by (apply IH; intros x y t' Hx Hy Hn; assert (S x = S y) by (by apply (Ho (S x) (S y) t')); lia).
  destruct (own_table t kt) eqn:Eo; [|done]. cbn [app]. constructor; [|done]. intros (x & _ & Hx & _)%own_index.
  assert (0%nat = S x) by (apply (Ho 0%nat (S x) t); [done|done|by eapply own_not_null]). done.
Qed.

Lemma freed_free fs fs' l : freed fs fs' l -> (length (free_list fs) <= length (free_list fs'))%nat.
Proof.
  intros (_ & En & Hu). apply submseteq_length, NoDup_submseteq; [apply free_list_NoDup|]. intros x [Hx Hm]%free_list_spec. apply free_list_spec.
  split; [|unfold managed in *; by rewrite En]. rewrite Hu by apply Hm. by rewrite Hx, andb_false_r.
Qed.

(** What is left of the entries. *)
Lemma emptied_entry m m' d k q p :
  directory_ok m d k -> directories m' = <[current_directory m := emptied d k]> (directories m) ->
  without (page_tables m) (own_tables (tables d) (tables k)) (page_tables m') ->
  0 <= q -> entry m' (current_directory m) q = Some p -> entry m (current_directory m) q = Some p /\
    exists t kt, tables d !! Z.to_nat (q / 1024) = Some t /\ tables k !! Z.to_nat (q / 1024) = Some kt /\ own_table t kt = false.
Proof.
  intros Hd Ed Hw Hq. unfold entry. rewrite Ed, lookup_insert_eq, (do_dir _ _ _ Hd). cbn [mbind option_bind emptied tables].
  rewrite lookup_zip_with. destruct (tables d !! _) as [t|] eqn:Et; [|done]. cbn [mbind option_bind].
  destruct (tables k !! _) as [kt|] eqn:Ek; [|done]. cbn [mbind option_bind]. destruct (own_table t kt) eqn:Eo; [done|].
  destruct (Z.eqb_spec t 0) as [|Hn]; [done|]. rewrite Hw, bool_decide_eq_false_2; [intros ->; split; [done|by exists t, kt]|].
  intros (x & kt' & Hx & Hkt & Ho)%own_index. pose proof (do_once _ _ _ Hd _ _ _ Hx Et Hn) as ->. congruence.
Qed.

Lemma entry_index m d k x t ps i p : directory_ok m d k -> tables d !! x = Some t -> t <> 0 -> page_tables m !! t = Some ps -> length ps = 1024%nat -> ps !! i = Some p ->
  (Z.of_nat x * 1024 + Z.of_nat i) / 1024 = Z.of_nat x /\ entry m (current_directory m) (Z.of_nat x * 1024 + Z.of_nat i) = Some p.
Proof.
  intros Hd Hx Hn Hps Hl Hi. pose proof (lookup_lt_Some _ _ _ Hi).
  assert ((Z.of_nat x * 1024 + Z.of_nat i) / 1024 = Z.of_nat x) as Eq by (rewrite Z.div_add_l, Z.div_small by lia; lia). split; [done|].
  assert ((Z.of_nat x * 1024 + Z.of_nat i) mod 1024 = Z.of_nat i) as Em by (rewrite Z.add_comm, Z.mod_add, Z.mod_small by lia; lia).
  unfold entry. rewrite (do_dir _ _ _ Hd), Eq, Em, !Nat2Z.id. cbn. rewrite Hx. cbn. by rewrite (proj2 (Z.eqb_neq _ _) Hn), Hps.
Qed.

Lemma own_frames m d k f : directory_ok m d k -> f ∈ own_tables (tables d) (tables k) ≫= frames_of (page_tables m) ->
  exists q p t kt, 0 <= q /\ entry m (current_directory m) q = Some p /\ frame p = f /\ f <> 0 /\
    tables d !! Z.to_nat (q / 1024) = Some t /\ tables k !! Z.to_nat (q / 1024) = Some kt /\ own_table t kt = true.
Proof.
  intros Hd (t & Hin & (x & kt & Hx & Hk & Ho)%own_index)%list_elem_of_bind. pose proof (own_not_null _ _ Ho) as Hn.
  destruct (do_table _ _ _ Hd x t Hx Hn) as (ps & Hps & Hl). unfold frames_of in Hin. rewrite Hps in Hin.
  apply list_elem_of_fmap in Hin as (p & -> & (Hf & (i & Hi)%list_elem_of_lookup)%list_elem_of_filter).
  destruct (entry_index m d k x t ps i p Hd Hx Hn Hps Hl Hi) as [Eq He].
  exists (Z.of_nat x * 1024 + Z.of_nat i), p, t, kt. split; [lia|]. split; [done|]. by rewrite Eq, Nat2Z.id.
Qed.

Lemma reset_user n s : user_ok n s -> exists s', reset s = Ret s' /\ user_ok n s'.
Proof.
  intros [(d & k & Hd) Hf]. destruct (do_len _ _ _ Hd) as (Hl & Hlp & Hlk). destruct (do_kernel _ _ _ Hd) as [Hk Hne].
  destruct (release_for_exec_ok (um s) (current_directory (um s)) d k (do_dir _ _ _ Hd) Hk (fo_wf _ _ _ Hf) Hl Hlp Hlk) as (m' & E & Ed & Hfr & Hw & Ek & Ec).
  { apply own_once. apply (do_once _ _ _ Hd). }
  { apply Forall_forall. intros t (x & kt & Hx & Hkt & Ho)%own_index. pose proof (own_not_null _ _ Ho) as Hn.
    destruct (do_table _ _ _ Hd x t Hx Hn) as (ps & Hps & Hpl). exists ps. split; [done|]. apply Forall_forall. intros p (i & Hi)%list_elem_of_lookup.
    apply (fo_page _ _ _ Hf (Z.of_nat x * 1024 + Z.of_nat i) p); [lia|]. by eapply entry_index. }
  cbn [reset user_space]. rewrite E. cbn [mbind outcome_bind]. eexists. split; [done|]. pose proof Hfr as (Hwf' & En & Hu).
  assert (forall q p, 0 <= q -> entry m' (current_directory (um s)) q = Some p -> entry (um s) (current_directory (um s)) q = Some p) as Hkeep
    by (intros q p Hq He; by destruct (emptied_entry _ _ _ _ _ _ Hd Ed Hw Hq He)).
  split; [exists (emptied d k), k; constructor|]; cbn [um bytes]; rewrite ?Ec, ?Ek.
  - rewrite Ed. apply lookup_insert_eq.
  - by rewrite Ed, lookup_insert_ne.
  - cbn [emptied tables physical_tables]. rewrite !length_zip_with. lia.
  - intros x Hx. destruct (do_kept _ _ _ Hd x Hx) as (t & Hn & H1 & H2). exists t. split; [done|]. split; [|done]. cbn [emptied tables].
    rewrite lookup_zip_with, H1, H2. cbn. unfold own_table. by rewrite Z.eqb_refl, andb_false_r.
  - intros x t Hx Hn. cbn [emptied tables] in Hx. apply lookup_zip_with_Some in Hx as (t0 & kt & E0 & H0 & H1). destruct (own_table t0 kt) eqn:Eo; [by subst|]. subst t0.
    rewrite Hw, bool_decide_eq_false_2; [by apply (do_table _ _ _ Hd x)|]. intros (y & kt' & Hy & Hkt & Ho)%own_index.
    pose proof (do_once _ _ _ Hd _ _ _ Hy H0 Hn) as ->. congruence.
  - intros x y t Hx Hy Hn. cbn [emptied tables] in Hx, Hy. apply lookup_zip_with_Some in Hx as (t0 & k0 & E0 & H0 & _), Hy as (t1 & k1 & E1 & H1 & _).
    destruct (own_table t0 k0); [by subst|]. destruct (own_table t1 k1); [by subst|]. subst. by apply (do_once _ _ _ Hd _ _ t1).
  - constructor; rewrite ?En.
    + done.
    + rewrite Hu, (fo_zero _ _ _ Hf) by lia. rewrite bool_decide_eq_false_2; [done|]. by intros (_ & _ & _ & _ & _ & _ & _ & Hn & _)%(own_frames _ d k); [|].
    + pose proof (freed_free _ _ _ Hfr). pose proof (fo_free _ _ _ Hf). lia.
    + intros q p Hq He. destruct (emptied_entry _ _ _ _ _ _ Hd Ed Hw Hq He) as (He0 & t & kt & Ht & Hkt & Hown).
      destruct (fo_page _ _ _ Hf q p Hq He0) as (Hr & Hp & Hus). split; [done|]. split; [done|]. intros Hn. rewrite Hu, Hus by (lia || done).
      rewrite bool_decide_eq_false_2; [done|]. intros (q1 & p1 & t1 & kt1 & Hq1 & He1 & E1 & _ & Ht1 & Hk1 & Ho1)%(own_frames _ d k); [|done].
      assert (q = q1) as <- by (apply (fo_once _ _ _ Hf q q1 p p1); auto). congruence.
    + intros q q' p p' Hq Hq' He%Hkeep He'%Hkeep; [|done..]. by apply (fo_once _ _ _ Hf).
Qed.

End Laws.
End Invariant.

(** ** The interface is satisfied *)

#[export] Program Instance user_space_ok (K : Z) `{KernelHeap} : AddressSpaceOk user := {
  sp_ok := user_ok K;
  sp_range a := 0 <= a < K * 0x400000
}.
Next Obligation. intros K HK n s. apply user_less. Qed.
Next Obligation. intros K HK n s a. apply back_user. Qed.
Next Obligation. intros K HK n s a v. apply poke_user. Qed.
Next Obligation. intros K HK n s. apply reset_user. Qed.


(** ** Witnesses: a program of one segment is loaded into the first table *)

Module Demo.
Import Bump Elf.
#[local] Existing Instance TaskRing.fresh_element.

Definition bits : frames_t := Build_frames [0xFFFFFFFF; 1; 0; 0] 64.
Definition own_page : page_t := Build_page 1 1 1 0 0 32.
Definition kernel_tables : list ptr := 0x2000 :: replicate 1023 0.
Definition user_tables : list ptr := <[5%nat := 0x2200]> kernel_tables.
Definition no_pages : list page_t := replicate 1024 zero_page.
Definition mem : memory :=
  Build_memory bits {[ 0x2000 := no_pages; 0x2200 := <[0%nat := own_page]> no_pages ]}
    {[ 0x1000 := Build_directory kernel_tables kernel_tables 0 1; 0x1100 := Build_directory user_tables user_tables 0 1 ]}
    0x800 0x3000 0x800000 0x1000 0x1100 [].
Definition demo : user := User mem (fun _ => 7).

Lemma user_table x t : user_tables !! x = Some t -> t <> 0 -> (x = 0%nat /\ t = 0x2000) \/ (x = 5%nat /\ t = 0x2200).
Proof.
  intros Hx Hn. apply list_lookup_insert_Some in Hx as [(-> & <- & _)|[_ Hx]]; [by right|]. destruct x as [|x]; [left; by injection Hx as <-|].
  apply lookup_replicate in Hx as [-> _]. done.
Qed.

Lemma user_directory : directory_ok 1 mem (Build_directory user_tables user_tables 0 1) (Build_directory kernel_tables kernel_tables 0 1).
Proof.
  constructor; cbn [tables physical_tables].
  - done.
  - done.
  - done.
  - intros x Hx. assert (x = 0) as -> by lia. by exists 0x2000.
  - intros x t Hx Hn. destruct (user_table x t Hx Hn) as [[_ ->]|[_ ->]]; eexists; (split; [reflexivity|]); [done|by rewrite length_insert].
  - intros x y t Hx Hy Hn. destruct (user_table x t Hx Hn) as [[-> ->]|[-> ->]], (user_table y _ Hy Hn) as [[-> ?]|[-> ?]]; done.
Qed.

Lemma demo_entry q p : 0 <= q -> entry mem 0x1100 q = Some p -> p = zero_page \/ (q = 5120 /\ p = own_page).
Proof.
  intros Hq (t & ps & (d & [= <-] & Ht) & Hn & Hps & Hp)%entry_at. pose proof (page_split q Hq). cbn [tables] in Ht.
  destruct (user_table _ t Ht Hn) as [[Ex ->]|[Ex ->]]; cbn [mem page_tables] in Hps.
  - rewrite lookup_insert_eq in Hps. apply (inj Some) in Hps as <-. apply lookup_replicate in Hp as [-> _]. by left.
  - rewrite lookup_insert_ne, lookup_singleton_eq in Hps by done. apply (inj Some) in Hps as <-.
    apply list_lookup_insert_Some in Hp as [(Ei & <- & _)|[_ Hp]]; [right; split; [lia|done]|]. apply lookup_replicate in Hp as [-> _]. by left.
Qed.

Lemma demo_ok n : (n <= 31)%nat -> user_ok 1 n demo.
Proof.
  intros Hn. split; [by eexists _, _; apply user_directory|]. constructor; cbn [demo um mem fr current_directory].
  - split; [vm_compute; intuition done|]. split; [done|]. repeat constructor; vm_compute; intuition done.
  - done.
  - change (length (free_list bits)) with 31%nat. done.
  - intros q p Hq [->|[-> ->]]%demo_entry; [| |done]; cbn; (split; [lia|]); done.
  - intros q q' p p' Hq Hq' [->|[-> ->]]%demo_entry [->|[-> ->]]%demo_entry; cbn; done.
Qed.

(** The file: a header, one program header, four bytes. *)
Definition image_bytes : list Z :=
  ELFMAG ++ replicate 20 0 ++ word_bytes 0x10000 ++ word_bytes 52 ++ replicate 10 0 ++ [32; 0; 1; 0] ++ replicate 6 0 ++
  word_bytes PT_LOAD ++ word_bytes 84 ++ word_bytes 0x10000 ++ word_bytes 0 ++ word_bytes 4 ++ word_bytes 8 ++ replicate 8 0 ++ [11; 22; 33; 44].
Definition elf_file : Exec.file_t := Exec.File (fun off n => List.firstn (Z.to_nat n) (drop (Z.to_nat off) image_bytes)) 0x800 5.
Definition segment : Elf32_Phdr := Phdr PT_LOAD 84 0x10000 4 8.
Definition args : list cstring := [[97; 98]].

Lemma elf_segments : phdrs (Exec.read elf_file) [] (Exec.header [] elf_file) = [segment].
Proof. vm_compute. reflexivity. Qed.

Lemma segment_fits : segment_ok (H0 := user_space_ok 1) (Exec.read elf_file) segment.
Proof. constructor; cbn [segment p_vaddr p_memsz p_filesz p_offset]; try done. intros a Ha. cbn [sp_range user_space_ok]. lia. Qed.

Lemma load_segments_copies_witness :
  exists s', load_segments (Exec.read elf_file) demo [segment] = Ret s' /\ peek s' 0x10001 = Some 22 /\ peek s' 0x10006 = Some 0.
Proof.
  destruct (load_segments_copies (H0 := user_space_ok 1) (Exec.read elf_file) 0 demo [segment]) as (s' & E & _ & Hin & _);
    [apply demo_ok; by vm_compute; lia|by repeat constructor; apply segment_fits|by repeat constructor|].
  exists s'. split; [exact E|]. split; (rewrite (Hin segment); [reflexivity|left|unfold inside; cbn; lia]).
Defined.

Definition blank_image : Exec.image_t := Exec.Image 0 0 0 0 0 0 0.
Definition blank_program : Exec.program_t :=
  Exec.Program [112] None 9 0 0 blank_image (Exec.Table [] 0 0 0) 0 [] 0 0 0 [] [] [] 0 0.
Definition machine : Exec.machine user := Exec.Machine demo Scheduler.demo {[ 40 := blank_program ]}.

Lemma elf_fits : Exec.program_ok (H0 := user_space_ok 1) [] elf_file args [].
Proof.
  constructor; unfold Exec.segments; rewrite ?elf_segments; cbn [loadable filter list_filter decide].
  - reflexivity.
  - reflexivity.
  - by repeat constructor; apply segment_fits.
  - by repeat constructor.
  - split; repeat constructor; done.
  - done.
  - by repeat constructor.
  - intros a. change (Exec.arguments_size args []) with 31. cbn [sp_range user_space_ok]. lia.
  - done.
Qed.

Lemma queues_fit : Exec.queues_ok Scheduler.demo [10; 20; 30] [10; 20; 30] 40.
Proof.
  constructor; [by split; [|eexists]|apply TaskRing.three_rep|apply Scheduler.demo_chain|by split; [by_decide|]|split; [done|]; split; [done|by_decide]|by eexists].
Qed.

Lemma exec_elf_starts_witness :
  exists m', Exec.exec_elf (fun _ => None) 3 9 [] [] 4096 700 1 machine elf_file args [] 40 = Ret (m', 0) /\
    peek (Exec.space m') 0x10001 = Some 22 /\ peek (Exec.space m') 28 = Some 97 /\
    Scheduler.chain (Scheduler.tasks (Exec.sched m')) (Scheduler.ready_queue (Exec.sched m')) [10; 20; 30; 40] /\
    exists p, Exec.programs m' !! 40 = Some p /\ Exec.user p = 0.
Proof.
  destruct (Exec.exec_elf_starts (H0 := user_space_ok 1) (fun _ => None) 3 9 [] [] 4096 700 machine elf_file args [] [10; 20; 30] [10; 20; 30] 40 blank_program 0 0)
    as (m' & E & [Hcode Harg Hq _ _ (p & Hp & Hu & _)]); [apply demo_ok; vm_compute; lia|exact elf_fits|exact queues_fit|reflexivity|].
  exists m'. split; [exact E|]. split; [|split; [|split; [exact Hq|exists p; split; [exact Hp|exact Hu]]]].
  - rewrite (Hcode segment); [reflexivity|unfold Exec.segments; rewrite elf_segments; left|unfold inside; cbn; lia].
  - pose proof (aa_argv _ _ _ _ Harg) as Ha. cbn [strings_at args] in Ha. apply proj2, proj1 in Ha. apply (Ha 0%nat 97). reflexivity.
Defined.

(** A script: [#!sh -x]. *)
Definition script_bytes : list Z := [35; 33; 115; 104; 32; 45; 120; 10; 108; 115; 10].
Definition script_file : Exec.file_t := Exec.File (fun off n => List.firstn (Z.to_nat n) (drop (Z.to_nat off) script_bytes)) 0 0.
Definition files (path : cstring) : option Exec.file_t := if bool_decide (path = [115]) then Some script_file else None.

Lemma exec_script_witness :
  Exec.exec files 3 9 [] [] 4096 700 (fun n => 40 + Z.of_nat n) (Scheduler.blank NULL 0 0 0) blank_program 2 machine [115] [[115]; [97]] [] =
  Ret (Exec.with_task (Scheduler.blank NULL 0 0 0) blank_program machine [115] 41, - Exec.ENOENT).
Proof.
  rewrite (Exec.exec_script files 3 9 [] [] 4096 700 (fun n => 40 + Z.of_nat n) (Scheduler.blank NULL 0 0 0) blank_program 1 machine [115] [[115]; [97]] []
             script_file [115; 104] (Some [45; 120]) [115] [[97]]); [reflexivity|reflexivity| |reflexivity|done].
  split; [repeat constructor; done || by_decide|]. split; [intros x [= <-]; repeat constructor; done || by_decide|].
  split; eexists; vm_compute; reflexivity.
Defined.

End Demo.

End UserSpace.
