(* ===== verification/Wait.v ===== *)
(** * Wait queues and the ready list ([kernel/src/task/proc.c])

    A process carries two list nodes in its own structure: [sleep_node], by which it
    stands in a wait queue, and [sched_node], by which it stands in the list of ready
    processes.  [sleep_on], [make_process_ready] and the functions that wake a queue move
    these nodes with the operations of the file [LinkedList]; nothing is allocated.  The
    theorems say what the moves do to the queues as sequences of processes. *)

From stdpp Require Import base gmap numbers list.
From S2P Require Import Prelude LinkedList.

Module Wait.
Import LinkedList.

(** ** State *)

(** The fields of [task_t] that sleeping and signals use. *)
Record task_t := Task {
  finished : Z; user : Z; sleep_interrupted : Z; timed_sleep_node : ptr; functions : list Z; signal_queue : ptr; node_waits : ptr
}.

Definition set_interrupted (t : task_t) (v : Z) : task_t :=
  Task (finished t) (user t) v (timed_sleep_node t) (functions t) (signal_queue t) (node_waits t).

Record state := State {
  hp : heap; tasks : gmap ptr task_t; process_list : ptr; sleep_queue : ptr; current_task : ptr
}.

Definition set_hp (s : state) (h : heap) : state := State h (tasks s) (process_list s) (sleep_queue s) (current_task s).
Definition put_task (s : state) (p : ptr) (t : task_t) : state := State (hp s) (<[p := t]> (tasks s)) (process_list s) (sleep_queue s) (current_task s).
Definition task (s : state) (p : ptr) : outcome task_t := if p =? NULL then Fault else of_option (tasks s !! p).

(** ** Operations *)

Section Operations.

(** The offsets of the two nodes in [task_t]. *)
Context (SLEEP SCHED : Z).
Definition sleep_node (p : ptr) : ptr := p + SLEEP.
Definition sched_node (p : ptr) : ptr := p + SCHED.

Definition process_is_ready (s : state) (proc : ptr) : outcome bool :=
  n ← get_node (hp s) (sched_node proc); Ret (negb (owner n =? NULL)).

(** The first part of [make_process_ready]: the process leaves the queue it sleeps in. *)
Definition leave_queue (s : state) (proc : ptr) : outcome state :=
  t ← task s proc;
  n ← get_node (hp s) (sleep_node proc);
  if owner n =? NULL then Ret s
  else if owner n =? sleep_queue s then
    if timed_sleep_node t =? NULL then Ret s
    else
      h ← list_delete (hp s) (sleep_queue s) (timed_sleep_node t);
      h ← set_owner h (sleep_node proc) NULL;
      x ← get_node h (timed_sleep_node t);
      Ret (set_hp s (free h (value x)))
  else
    h ← list_delete (hp s) (owner n) (sleep_node proc);
    Ret (set_hp (put_task s proc (set_interrupted t 1)) h).

Definition make_process_ready (s : state) (proc : ptr) : outcome state :=
  s ← leave_queue s proc;
  n ← get_node (hp s) (sched_node proc);
  if owner n =? NULL then
    h ← list_append (hp s) (process_list s) (sched_node proc);
    Ret (set_hp s h)
  else Ret s.

(** The loop of [wakeup_queue] and [wakeup_queue_interrupted]; [mark] is what the latter does
    to the task. *)
Fixpoint wakeup_loop (fuel : nat) (mark : task_t -> task_t) (s : state) (queue : ptr) (awoken : Z) : outcome (state * Z) :=
  match fuel with
  | O => OutOfFuel
  | S fuel' =>
      hd ← get_list (hp s) queue;
      if 0 <? length_ hd then
        '(h, node) ← list_pop (hp s) queue;
        n ← get_node h node;
        let s := set_hp s h in
        t ← task s (value n);
        s ← (if finished t =? 0 then make_process_ready (put_task s (value n) (mark t)) (value n) else Ret s);
        wakeup_loop fuel' mark s queue (s32 (awoken + 1))
      else Ret (s, awoken)
  end.

(** The number of tasks bounds the length of a queue. *)
Definition wakeup_queue (s : state) (queue : ptr) : outcome (state * Z) :=
  wakeup_loop (S (size (tasks s))) (fun t => t) s queue 0.
Definition wakeup_queue_interrupted (s : state) (queue : ptr) : outcome (state * Z) :=
  wakeup_loop (S (size (tasks s))) (fun t => set_interrupted t 1) s queue 0.

(** [sleep_on] up to the switch: whether the process went to sleep.  What the call returns
    after the switch is 0 when it did not, and otherwise the field of the task that is current
    when the processor comes back to this stack. *)
Definition sleep_on (s : state) (queue : ptr) : outcome (state * bool) :=
  let proc := current_task s in
  t ← task s proc;
  n ← get_node (hp s) (sleep_node proc);
  if owner n =? NULL then
    h ← list_append (hp s) queue (sleep_node proc);
    Ret (set_hp (put_task s proc (set_interrupted t 0)) h, true)
  else Ret (s, false).

Definition process_available (s : state) : outcome bool :=
  hd ← get_list (hp s) (process_list s); Ret (negb (head_ hd =? NULL)).

(** The message for a foreign node reads its value. *)
Definition next_ready_process (s : state) : outcome (state * ptr) :=
  ready ← process_available s;
  if (ready : bool) then
    '(h, np) ← list_dequeue (hp s) (process_list s);
    n ← get_node h np;
    Ret (set_hp s h, value n)
  else Ret (s, current_task s).

(** ** The queues as sequences *)

(** What the field [value] of the two nodes of a process holds.  The source means it to be the
    process but assigns it nowhere (the assignments are commented out), so nothing is said
    about it here; only the functions that wake a queue or take a ready process read it. *)
Context (V : ptr -> ptr).

(** [ready] are the ready processes, [Q] the wait queues by address. *)
Record wait_ok (s : state) (ready : list ptr) (Q : gmap ptr (list ptr)) : Prop := {
  w_ready : list_rep (hp s) (process_list s) (sched_node <$> ready) (V <$> ready);
  w_queue q ps : Q !! q = Some ps -> list_rep (hp s) q (sleep_node <$> ps) (V <$> ps);
  w_names : Q !! process_list s = None /\ Q !! sleep_queue s = None;
  w_live p : p ∈ ready \/ (exists q ps, Q !! q = Some ps /\ p ∈ ps) -> is_Some (tasks s !! p);
  w_sleep p : is_Some (tasks s !! p) -> exists n, nodes (hp s) !! sleep_node p = Some n /\ value n = V p /\
    (owner n = NULL \/ exists ps, Q !! owner n = Some ps /\ p ∈ ps);
  w_sched p : is_Some (tasks s !! p) -> exists n, nodes (hp s) !! sched_node p = Some n /\ value n = V p /\
    (owner n = NULL \/ p ∈ ready);
  w_addr p : is_Some (tasks s !! p) -> p <> NULL /\ sleep_node p <> NULL /\ sched_node p <> NULL /\
    forall p', is_Some (tasks s !! p') -> sleep_node p <> sched_node p';
  w_few : Z.of_nat (size (tasks s)) + 1 < 2147483648
}.

End Operations.

(** ** Lists in one heap *)

(** The node of an element, and what it carries. *)
Lemma rep_value h l (f V : ptr -> ptr) ps x : list_rep h l (f <$> ps) (V <$> ps) -> x ∈ ps -> exists n, nodes h !! f x = Some n /\ owner n = l /\ value n = V x.
Proof.
  intros Hr (l1 & l2 & ->)%list_elem_of_split. rewrite !fmap_app, !fmap_cons in Hr.
  pose proof (rep_get_node _ _ _ _ _ _ _ _ Hr ltac:(by rewrite !length_fmap)) as Hg. unfold get_node in Hg.
  destruct (f x =? NULL); [done|]. destruct (nodes h !! f x) as [n|]; [|done]. cbn in Hg. injection Hg as ->. by eexists.
Qed.

Lemma list_frame h h' l ps l2 ps2 vs2 : list_rep h l2 ps2 vs2 -> frame h h' l ps -> l2 <> l -> (forall p, p ∈ ps2 -> p ∉ ps) -> list_rep h' l2 ps2 vs2.
Proof.
  intros [H1 H2 H3 H4 H5] [Hn Hl] Hne Hdis. constructor; try done; [by rewrite Hl|]. eapply seg_agree; [|exact H5]. intros p Hp. apply Hn. by apply Hdis.
Qed.

Lemma rep_node h l ps vs p : list_rep h l ps vs -> p ∈ ps -> exists n, nodes h !! p = Some n /\ owner n = l.
Proof.
  intros Hr (a & b & ->)%list_elem_of_split. destruct (rep_split _ _ _ _ _ _ Hr) as (va & v & vb & -> & Hva & _).
  pose proof (rep_get_node _ _ _ _ _ _ _ _ Hr Hva) as Hg. unfold get_node in Hg. destruct (p =? NULL); [done|].
  destruct (nodes h !! p) as [n|]; [|done]. cbn in Hg. injection Hg as ->. by eexists.
Qed.

(** Two lists share no node. *)
Lemma rep_apart h l ps vs l2 ps2 vs2 p : list_rep h l ps vs -> list_rep h l2 ps2 vs2 -> l2 <> l -> p ∈ ps2 -> p ∉ ps.
Proof.
  intros Hr Hr2 Hne Hp Hp'. destruct (rep_node _ _ _ _ _ Hr Hp') as (n & Hn & Ho), (rep_node _ _ _ _ _ Hr2 Hp) as (n' & Hn' & Ho'). congruence.
Qed.

Lemma filter_agree {A} (P P' : A -> Prop) `{forall x, Decision (P x), forall x, Decision (P' x)} (l : list A) :
  (forall x, x ∈ l -> P x <-> P' x) -> filter P l = filter P' l.
Proof.
  induction l as [|x l IH]; intros Hx; [done|]. rewrite !filter_cons, IH by (intros y Hy; apply Hx; by right).
  destruct (decide (P x)) as [Hp|Hp]; rewrite (Hx x) in Hp by left; [by rewrite decide_True|by rewrite decide_False].
Qed.

Section Moves.
Context (SLEEP SCHED : Z) (V : ptr -> ptr).
Notation sleep_node := (sleep_node SLEEP).
Notation sched_node := (sched_node SCHED).
Notation wait_ok := (wait_ok SLEEP SCHED V).

Lemma sleep_in p (ps : list ptr) : sleep_node p ∈ sleep_node <$> ps <-> p ∈ ps.
Proof.
  rewrite list_elem_of_fmap. split; [|intros Hp; by exists p]. intros (x & E & Hx). unfold Wait.sleep_node in E. assert (x = p) as <- by lia. done.
Qed.

Lemma sched_in p (ps : list ptr) : sched_node p ∈ sched_node <$> ps <-> p ∈ ps.
Proof.
  rewrite list_elem_of_fmap. split; [|intros Hp; by exists p]. intros (x & E & Hx). unfold Wait.sched_node in E. assert (x = p) as <- by lia. done.
Qed.

Lemma sleep_not_sched s ready Q p (ps : list ptr) : wait_ok s ready Q -> is_Some (tasks s !! p) -> (forall x, x ∈ ps -> is_Some (tasks s !! x)) -> sched_node p ∉ sleep_node <$> ps.
Proof. intros Hw Hp Hps (x & E & Hx)%list_elem_of_fmap. destruct (w_addr _ _ _ _ _ _ Hw x (Hps x Hx)) as (_ & _ & _ & Hne). by apply (Hne p Hp). Qed.

Lemma sched_not_sleep s ready Q p (ps : list ptr) : wait_ok s ready Q -> is_Some (tasks s !! p) -> (forall x, x ∈ ps -> is_Some (tasks s !! x)) -> sleep_node p ∉ sched_node <$> ps.
Proof. intros Hw Hp Hps (x & E & Hx)%list_elem_of_fmap. destruct (w_addr _ _ _ _ _ _ Hw p Hp) as (_ & _ & _ & Hne). by apply (Hne x (Hps x Hx)). Qed.

Lemma queue_live s ready Q q ps x : wait_ok s ready Q -> Q !! q = Some ps -> x ∈ ps -> is_Some (tasks s !! x).
Proof. intros Hw Hq Hx. apply (w_live _ _ _ _ _ _ Hw). right. by exists q, ps. Qed.

Lemma queue_nodup s ready Q q ps : wait_ok s ready Q -> Q !! q = Some ps -> NoDup ps.
Proof. intros Hw Hq. eapply NoDup_fmap_1, (rep_nodup _ _ _ _ (w_queue _ _ _ _ _ _ Hw q ps Hq)). Qed.

Lemma few_tasks (s : state) ps : NoDup ps -> (forall x, x ∈ ps -> is_Some (tasks s !! x)) -> (length ps <= size (tasks s))%nat.
Proof.
  intros Hnd Hl. rewrite <- (size_list_to_set (C := gset ptr)) by done. rewrite <- (size_dom (D := gset ptr) (tasks s)). apply subseteq_size.
  intros x Hx%elem_of_list_to_set. apply elem_of_dom. by apply Hl.
Qed.

Lemma queue_short s ready Q q ps : wait_ok s ready Q -> Q !! q = Some ps -> Z.of_nat (length ps) + 1 < 2147483648.
Proof.
  intros Hw Hq. pose proof (w_few _ _ _ _ _ _ Hw). pose proof (few_tasks s ps (queue_nodup _ _ _ _ _ Hw Hq) (fun x => queue_live _ _ _ _ _ x Hw Hq)). lia.
Qed.

Lemma ready_nodup s ready Q : wait_ok s ready Q -> NoDup ready.
Proof. intros Hw. eapply NoDup_fmap_1, (rep_nodup _ _ _ _ (w_ready _ _ _ _ _ _ Hw)). Qed.

Lemma ready_short s ready Q : wait_ok s ready Q -> Z.of_nat (length ready) + 1 < 2147483648.
Proof.
  intros Hw. pose proof (w_few _ _ _ _ _ _ Hw). pose proof (few_tasks s ready (ready_nodup _ _ _ Hw) (fun x Hx => w_live _ _ _ _ _ _ Hw x (or_introl Hx))). lia.
Qed.

(** A process that sleeps stands in one queue. *)
Lemma queue_owner s ready Q q ps p : wait_ok s ready Q -> Q !! q = Some ps -> p ∈ ps -> exists n, nodes (hp s) !! sleep_node p = Some n /\ owner n = q /\ value n = V p.
Proof.
  intros Hw Hq Hp. by apply (rep_value _ _ _ _ _ _ (w_queue _ _ _ _ _ _ Hw q ps Hq)).
Qed.

Lemma queue_once s ready Q q q' ps ps' p : wait_ok s ready Q -> Q !! q = Some ps -> Q !! q' = Some ps' -> p ∈ ps -> p ∈ ps' -> q = q'.
Proof.
  intros Hw Hq Hq' Hp Hp'. destruct (queue_owner _ _ _ _ _ _ Hw Hq Hp) as (n & Hn & Ho & _), (queue_owner _ _ _ _ _ _ Hw Hq' Hp') as (n' & Hn' & Ho' & _). congruence.
Qed.

(** Changing a task that is there changes no queue. *)
Lemma put_task_ok s ready Q p t : wait_ok s ready Q -> is_Some (tasks s !! p) -> wait_ok (put_task s p t) ready Q.
Proof.
  intros [H1 H2 H3 H4 H5 H6 H7 H8] Hp.
  assert (forall x, is_Some (<[p := t]> (tasks s) !! x) <-> is_Some (tasks s !! x)) as Hd.
  { intros x. rewrite lookup_insert_is_Some. destruct (decide (p = x)) as [<-|]; tauto. }
  constructor; cbn [put_task hp tasks process_list sleep_queue]; try done.
  - intros x Hx. apply Hd. by apply H4.
  - intros x Hx%Hd. by apply H5.
  - intros x Hx%Hd. by apply H6.
  - intros x Hx%Hd. destruct (H7 x Hx) as (Ha & Hb & Hc & Hx'). do 3 (split; [done|]). intros p' Hp'%Hd. by apply Hx'.
  - by rewrite map_size_insert_Some.
Qed.

(** Lists of other things in the heap stay as they are. *)
Definition keeps (s s' : state) (Q : gmap ptr (list ptr)) : Prop :=
  forall l ps vs, list_rep (hp s) l ps vs -> Q !! l = None -> l <> process_list s -> list_rep (hp s') l ps vs.

(** A process leaves a queue. *)
Lemma unlink_ok s ready Q q a p b : wait_ok s ready Q -> Q !! q = Some (a ++ p :: b) ->
  exists h', list_delete (hp s) q (sleep_node p) = Ret h' /\ wait_ok (set_hp s h') ready (<[q := a ++ b]> Q) /\
    nodes h' !! sleep_node p = Some (Node NULL NULL (V p) NULL) /\ keeps s (set_hp s h') Q.
Proof.
  intros Hw Hq. pose proof (w_queue _ _ _ _ _ _ Hw q _ Hq) as Hr. pose proof (queue_short _ _ _ _ _ Hw Hq) as Hsh. pose proof (queue_nodup _ _ _ _ _ Hw Hq) as Hnd.
  assert (forall x, x ∈ a ++ p :: b -> is_Some (tasks s !! x)) as Hlive by (intros x; by apply (queue_live _ _ _ _ _ x Hw Hq)).
  pose proof Hr as Hr0. rewrite !fmap_app, !fmap_cons in Hr.
  destruct (list_delete_rep _ _ _ _ _ _ _ _ Hr) as (h' & E & Hr' & Hx & Hf); [by rewrite !length_fmap|rewrite length_app in *; cbn [length] in *; rewrite !length_fmap; lia|].
  rewrite <- !fmap_app in Hr'. change (sleep_node p :: (sleep_node <$> b)) with (sleep_node <$> p :: b) in Hf. rewrite <- fmap_app in Hf.
  exists h'. split; [done|]. pose proof (w_names _ _ _ _ _ _ Hw) as [Hn1 Hn2].
  assert (forall x, is_Some (tasks s !! x) -> nodes h' !! sched_node x = nodes (hp s) !! sched_node x) as Hsched.
  { intros x Hx'. apply Hf. by apply (sleep_not_sched s ready Q). }
  split; [|split; [done|]; intros l ps' vs' Hl Hql Hlp; eapply list_frame; [exact Hl|exact Hf|congruence|]; intros x Hx'; apply (rep_apart _ _ _ _ _ _ _ _ Hr0 Hl); [congruence|done]].
  constructor; cbn [set_hp hp tasks process_list sleep_queue].
  - eapply list_frame; [exact (w_ready _ _ _ _ _ _ Hw)|exact Hf|congruence|]. intros x (y & -> & Hy)%list_elem_of_fmap. apply (sleep_not_sched s ready Q); [done| |done].
    apply (w_live _ _ _ _ _ _ Hw). by left.
  - intros q' ps' Hq'. apply lookup_insert_Some in Hq' as [[<- <-]|[Hne Hq']]; [done|]. pose proof (w_queue _ _ _ _ _ _ Hw q' ps' Hq') as Hr2.
    eapply list_frame; [exact Hr2|exact Hf|done|]. intros x Hx'. by apply (rep_apart _ _ _ _ _ _ _ _ Hr0 Hr2).
  - rewrite !lookup_insert_ne by congruence. done.
  - intros x [Hx'|(q' & ps' & Hq' & Hx')]; [apply (w_live _ _ _ _ _ _ Hw); by left|].
    apply lookup_insert_Some in Hq' as [[<- <-]|[Hne Hq']]; [apply Hlive; set_solver|by apply (queue_live _ _ _ _ _ x Hw Hq')].
  - intros x Hx'. destruct (w_sleep _ _ _ _ _ _ Hw x Hx') as (n & Hn & Hv & Ho). destruct (decide (x = p)) as [->|Hxp]; [eexists; split; [exact Hx|]; split; [done|by left]|].
    destruct (decide (x ∈ a ++ b)) as [Hin|Hni].
    + destruct (rep_value _ _ _ _ _ _ Hr' Hin) as (n' & Hn' & Ho' & Hv'). exists n'. split; [done|]. split; [done|]. right. exists (a ++ b). by rewrite Ho', lookup_insert_eq.
    + exists n. rewrite (proj1 Hf) by (rewrite sleep_in; set_solver). split; [done|]. split; [done|]. destruct Ho as [|(ps & Hps & Hin)]; [by left|]. right.
      exists ps. split; [|done]. rewrite lookup_insert_ne; [done|]. intros E'. assert (ps = a ++ p :: b) as -> by congruence. set_solver.
  - intros x Hx'. rewrite Hsched by done. by apply (w_sched _ _ _ _ _ _ Hw).
  - apply (w_addr _ _ _ _ _ _ Hw).
  - apply (w_few _ _ _ _ _ _ Hw).
Qed.

(** A process that sleeps nowhere joins a queue. *)
Lemma link_ok s ready Q q ps p n : wait_ok s ready Q -> Q !! q = Some ps -> is_Some (tasks s !! p) ->
  nodes (hp s) !! sleep_node p = Some n -> owner n = NULL ->
  exists h', list_append (hp s) q (sleep_node p) = Ret h' /\ wait_ok (set_hp s h') ready (<[q := ps ++ [p]]> Q).
Proof.
  intros Hw Hq Hp Hn Ho. pose proof (w_queue _ _ _ _ _ _ Hw q _ Hq) as Hr. pose proof (queue_short _ _ _ _ _ Hw Hq) as Hsh.
  destruct (w_addr _ _ _ _ _ _ Hw p Hp) as (Hp0 & Hs0 & _ & _). destruct (w_sleep _ _ _ _ _ _ Hw p Hp) as (n' & Hn' & Hv & _). assert (n' = n) as -> by congruence.
  assert (forall q' ps', Q !! q' = Some ps' -> p ∉ ps') as Hnone.
  { intros q' ps' Hq' Hin. destruct (queue_owner _ _ _ _ _ _ Hw Hq' Hin) as (n' & Hn1 & Ho1 & _). pose proof (rep_addr _ _ _ _ (w_queue _ _ _ _ _ _ Hw q' ps' Hq')). congruence. }
  destruct (list_append_rep _ _ _ _ (sleep_node p) n Hr) as (h' & E & Hr' & Hf); [unfold room; by rewrite length_fmap|done|rewrite sleep_in; by apply (Hnone q)|done|].
  rewrite Hv in Hr'. change [sleep_node p] with (sleep_node <$> [p]) in Hr'. change [V p] with (V <$> [p]) in Hr'. rewrite <- !fmap_app in Hr'.
  assert (forall x, x ∈ p :: ps -> is_Some (tasks s !! x)) as Hlive by (intros x [->|Hx]%elem_of_cons; [done|by apply (queue_live _ _ _ _ _ x Hw Hq)]).
  change (sleep_node p :: (sleep_node <$> ps)) with (sleep_node <$> p :: ps) in Hf.
  exists h'. split; [done|]. pose proof (w_names _ _ _ _ _ _ Hw) as [Hn1 Hn2].
  assert (forall x, is_Some (tasks s !! x) -> nodes h' !! sched_node x = nodes (hp s) !! sched_node x) as Hsched.
  { intros x Hx'. apply Hf. by apply (sleep_not_sched s ready Q). }
  constructor; cbn [set_hp hp tasks process_list sleep_queue].
  - eapply list_frame; [exact (w_ready _ _ _ _ _ _ Hw)|exact Hf|congruence|]. intros x (y & -> & Hy)%list_elem_of_fmap. apply (sleep_not_sched s ready Q); [done| |done].
    apply (w_live _ _ _ _ _ _ Hw). by left.
  - intros q' ps' Hq'. apply lookup_insert_Some in Hq' as [[<- <-]|[Hne Hq']]; [done|]. pose proof (w_queue _ _ _ _ _ _ Hw q' ps' Hq') as Hr2.
    eapply list_frame; [exact Hr2|exact Hf|done|]. intros x Hx'. rewrite fmap_cons, elem_of_cons. intros [->|Hx]; [by apply sleep_in, (Hnone q' ps') in Hx'|].
    by apply (rep_apart _ _ _ _ _ _ _ _ Hr Hr2 ltac:(done) Hx').
  - rewrite !lookup_insert_ne by congruence. done.
  - intros x [Hx'|(q' & ps' & Hq' & Hx')]; [apply (w_live _ _ _ _ _ _ Hw); by left|].
    apply lookup_insert_Some in Hq' as [[<- <-]|[Hne Hq']]; [apply Hlive; set_solver|by apply (queue_live _ _ _ _ _ x Hw Hq')].
  - intros x Hx'. destruct (w_sleep _ _ _ _ _ _ Hw x Hx') as (m & Hm & Hvm & Hom). destruct (decide (x ∈ ps ++ [p])) as [Hin|Hni].
    + destruct (rep_value _ _ _ _ _ _ Hr' Hin) as (n' & Hn'' & Ho' & Hv'). exists n'. split; [done|]. split; [done|]. right. exists (ps ++ [p]). by rewrite Ho', lookup_insert_eq.
    + exists m. rewrite (proj1 Hf) by (rewrite sleep_in; set_solver). split; [done|]. split; [done|]. destruct Hom as [|(ps' & Hps & Hin)]; [by left|]. right.
      exists ps'. split; [|done]. rewrite lookup_insert_ne; [done|]. intros E'. assert (ps' = ps) as -> by congruence. set_solver.
  - intros x Hx'. rewrite Hsched by done. by apply (w_sched _ _ _ _ _ _ Hw).
  - apply (w_addr _ _ _ _ _ _ Hw).
  - apply (w_few _ _ _ _ _ _ Hw).
Qed.

(** What is left when only the nodes of the ready list change. *)
Lemma ready_frame s ready ready' Q h' l : wait_ok s ready Q -> frame (hp s) h' (process_list s) (sched_node <$> l) ->
  (forall x, x ∈ l -> is_Some (tasks s !! x)) -> (forall x, x ∈ ready' -> x ∈ ready \/ x ∈ l) ->
  list_rep h' (process_list s) (sched_node <$> ready') (V <$> ready') ->
  (forall x, is_Some (tasks s !! x) -> exists n, nodes h' !! sched_node x = Some n /\ value n = V x /\ (owner n = NULL \/ x ∈ ready')) ->
  wait_ok (set_hp s h') ready' Q.
Proof.
  intros Hw Hf Hlive Hsub Hr' Hsc. pose proof (w_names _ _ _ _ _ _ Hw) as [Hn1 Hn2].
  constructor; cbn [set_hp hp tasks process_list sleep_queue]; [done| |done| | |done|apply (w_addr _ _ _ _ _ _ Hw)|apply (w_few _ _ _ _ _ _ Hw)].
  - intros q ps Hq. eapply list_frame; [exact (w_queue _ _ _ _ _ _ Hw q ps Hq)|exact Hf|congruence|]. intros x (y & -> & Hy)%list_elem_of_fmap.
    apply (sched_not_sleep s ready Q); [done|by apply (queue_live _ _ _ _ _ y Hw Hq)|done].
  - intros x [Hx|Hx]; [|apply (w_live _ _ _ _ _ _ Hw); by right]. destruct (Hsub x Hx) as [Hx'|Hx']; [apply (w_live _ _ _ _ _ _ Hw); by left|by apply Hlive].
  - intros x Hx. rewrite (proj1 Hf) by (by apply (sched_not_sleep s ready Q)). by apply (w_sleep _ _ _ _ _ _ Hw).
Qed.

Lemma enqueue_ok s ready Q p n : wait_ok s ready Q -> is_Some (tasks s !! p) -> nodes (hp s) !! sched_node p = Some n -> owner n = NULL ->
  exists h', list_append (hp s) (process_list s) (sched_node p) = Ret h' /\ wait_ok (set_hp s h') (ready ++ [p]) Q /\ keeps s (set_hp s h') Q.
Proof.
  intros Hw Hp Hn Ho. pose proof (w_ready _ _ _ _ _ _ Hw) as Hr. pose proof (ready_short _ _ _ Hw) as Hsh.
  destruct (w_addr _ _ _ _ _ _ Hw p Hp) as (Hp0 & _ & Hs0 & _). destruct (w_sched _ _ _ _ _ _ Hw p Hp) as (n' & Hn' & Hv & _). assert (n' = n) as -> by congruence.
  assert (p ∉ ready) as Hnone.
  { intros Hin. destruct (rep_value _ _ _ _ _ _ Hr Hin) as (n' & Hn1 & Ho1 & _). pose proof (rep_addr _ _ _ _ Hr). congruence. }
  destruct (list_append_rep _ _ _ _ (sched_node p) n Hr) as (h' & E & Hr' & Hf); [unfold room; by rewrite length_fmap|done|by rewrite sched_in|done|].
  rewrite Hv in Hr'. change [sched_node p] with (sched_node <$> [p]) in Hr'. change [V p] with (V <$> [p]) in Hr'. rewrite <- !fmap_app in Hr'. exists h'. split; [done|].
  split; [|intros l ps' vs' Hl Hql Hlp; eapply list_frame; [exact Hl|exact Hf|done|]; intros x Hx'; rewrite elem_of_cons; intros [->|Hx];
           [destruct (rep_node _ _ _ _ _ Hl Hx') as (n' & Hn1 & Ho1); pose proof (rep_addr _ _ _ _ Hl); congruence|by apply (rep_apart _ _ _ _ _ _ _ _ Hr Hl Hlp Hx')]].
  eapply (ready_frame s ready (ready ++ [p]) Q h' (p :: ready)); [done|exact Hf| |set_solver|done|].
  - intros x [->|Hx]%elem_of_cons; [done|]. apply (w_live _ _ _ _ _ _ Hw). by left.
  - intros x Hx. destruct (decide (x ∈ ready ++ [p])) as [Hin|Hni].
    + destruct (rep_value _ _ _ _ _ _ Hr' Hin) as (n' & Hn'' & _ & Hv'). exists n'. split; [done|]. split; [done|by right].
    + destruct (w_sched _ _ _ _ _ _ Hw x Hx) as (m & Hm & Hvm & Hom). exists m.
      rewrite (proj1 Hf) by (change (sched_node p :: (sched_node <$> ready)) with (sched_node <$> p :: ready); rewrite sched_in; set_solver).
      split; [done|]. split; [done|]. destruct Hom as [|Hin]; [by left|set_solver].
Qed.

Lemma dequeue_ok s ready Q p : wait_ok s (p :: ready) Q ->
  exists h', list_dequeue (hp s) (process_list s) = Ret (h', sched_node p) /\ wait_ok (set_hp s h') ready Q /\ nodes h' !! sched_node p = Some (Node NULL NULL (V p) NULL).
Proof.
  intros Hw. pose proof (w_ready _ _ _ _ _ _ Hw) as Hr. pose proof (ready_short _ _ _ Hw) as Hsh. pose proof (ready_nodup _ _ _ Hw) as [Hnp Hnd]%NoDup_cons.
  unfold list_dequeue. rewrite (rep_get_list _ _ _ _ Hr). cbn [mbind outcome_bind header_of head_ fmap list_fmap hd].
  assert (sched_node p <> NULL) as Hp0 by (apply (w_addr _ _ _ _ _ _ Hw), (w_live _ _ _ _ _ _ Hw); left; left). rewrite (proj2 (Z.eqb_neq _ _) Hp0).
  destruct (list_delete_rep (hp s) (process_list s) [] (sched_node p) (fmap (M := list) sched_node ready) [] (V p) (fmap (M := list) V ready) Hr) as (h' & -> & Hr' & Hx & Hf); [done|cbn [length app] in *; rewrite length_fmap; lia|].
  cbn [mbind outcome_bind app] in *. exists h'. split; [done|]. split; [|done].
  eapply (ready_frame s (p :: ready) ready Q h' (p :: ready)); [done|exact Hf| |set_solver|done|].
  - intros x Hin. apply (w_live _ _ _ _ _ _ Hw). by left.
  - intros x Hx'. destruct (decide (x = p)) as [->|Hne]; [eexists; split; [exact Hx|]; split; [done|by left]|]. destruct (decide (x ∈ ready)) as [Hin|Hni].
    + destruct (rep_value _ _ _ _ _ _ Hr' Hin) as (n' & Hn'' & _ & Hv'). exists n'. split; [done|]. split; [done|by right].
    + destruct (w_sched _ _ _ _ _ _ Hw x Hx') as (m & Hm & Hvm & Hom). exists m.
      rewrite (proj1 Hf) by (change (sched_node p :: (sched_node <$> ready)) with (sched_node <$> p :: ready); rewrite sched_in; set_solver).
      split; [done|]. split; [done|]. destruct Hom as [|Hin]; [by left|set_solver].
Qed.

(** ** Waking and sleeping *)

Definition sleeping (p : ptr) (Q : gmap ptr (list ptr)) : Prop := exists q ps, Q !! q = Some ps /\ p ∈ ps.
Definition without (p : ptr) (Q : gmap ptr (list ptr)) : gmap ptr (list ptr) := (fun ps => filter (fun x => x <> p) ps) <$> Q.
Definition join (ready : list ptr) (p : ptr) : list ptr := if bool_decide (p ∈ ready) then ready else ready ++ [p].

Lemma filter_others (p : ptr) (ps : list ptr) : p ∉ ps -> filter (fun x => x <> p) ps = ps.
Proof. induction ps as [|x ps IH]; intros Hp; [done|]. rewrite not_elem_of_cons in Hp. rewrite filter_cons_True by (intros ->; tauto). rewrite IH; tauto. Qed.

Lemma without_none p Q : ~ sleeping p Q -> without p Q = Q.
Proof.
  intros Hn. apply map_eq. intros q. unfold without. rewrite lookup_fmap. destruct (Q !! q) as [ps|] eqn:Eq; [|done]. cbn. f_equal. apply filter_others.
  intros Hp. apply Hn. by exists q, ps.
Qed.

Lemma without_one s ready Q q a p b : wait_ok s ready Q -> Q !! q = Some (a ++ p :: b) -> without p Q = <[q := a ++ b]> Q.
Proof.
  intros Hw Hq. pose proof (queue_nodup _ _ _ _ _ Hw Hq) as [Hnp _]%NoDup_middle. rewrite elem_of_app in Hnp. apply map_eq. intros q'. unfold without. rewrite lookup_fmap.
  destruct (decide (q = q')) as [<-|Hne].
  - rewrite lookup_insert_eq, Hq. cbn. rewrite filter_app, filter_cons_False by tauto. rewrite !filter_others by tauto. done.
  - rewrite lookup_insert_ne by done. destruct (Q !! q') as [ps|] eqn:Eq'; [|done]. cbn. f_equal. apply filter_others. intros Hp. apply Hne.
    apply (queue_once _ _ _ q q' _ ps p Hw Hq Eq'); [set_solver|done].
Qed.

(** The fields that the moves leave alone. *)
Definition same_kernel (s s' : state) : Prop :=
  process_list s' = process_list s /\ sleep_queue s' = sleep_queue s /\ current_task s' = current_task s.

Lemma task_some s p t : p <> NULL -> tasks s !! p = Some t -> task s p = Ret t.
Proof. intros Hp Ht. unfold task. by rewrite (proj2 (Z.eqb_neq _ _) Hp), Ht. Qed.

Lemma leave_queue_ok s ready Q p t : wait_ok s ready Q -> tasks s !! p = Some t ->
  exists s' t', leave_queue SLEEP s p = Ret s' /\ wait_ok s' ready (without p Q) /\ same_kernel s s' /\ keeps s s' Q /\ tasks s' = <[p := t']> (tasks s) /\
    ((~ sleeping p Q /\ t' = t) \/ (sleeping p Q /\ t' = set_interrupted t 1)).
Proof.
  intros Hw Ht. destruct (w_addr _ _ _ _ _ _ Hw p) as (Hp0 & Hs0 & _); [done|]. destruct (w_sleep _ _ _ _ _ _ Hw p) as (n & Hn & Hv & Ho); [done|].
  unfold leave_queue. rewrite (task_some s p t Hp0 Ht). cbn [mbind outcome_bind]. rewrite (get_node_eq _ _ _ Hs0 Hn). cbn [mbind outcome_bind].
  destruct Ho as [Ho|(ps & Hq & Hin)].
  - assert (~ sleeping p Q) as Hns.
    { intros (q & ps & Hq & Hin). destruct (queue_owner _ _ _ _ _ _ Hw Hq Hin) as (n' & Hn' & Ho' & _). pose proof (rep_addr _ _ _ _ (w_queue _ _ _ _ _ _ Hw q ps Hq)). congruence. }
    rewrite Ho, Z.eqb_refl. exists s, t. rewrite without_none, insert_id by done. do 3 (split; [done|]). split; [by intros l|]. split; [done|]. by left.
  - assert (owner n <> NULL) as Ho0 by (apply (rep_addr _ _ _ _ (w_queue _ _ _ _ _ _ Hw _ ps Hq))). rewrite (proj2 (Z.eqb_neq _ _) Ho0).
    assert (owner n <> sleep_queue s) as Hos by (intros E; pose proof (w_names _ _ _ _ _ _ Hw) as [_ E']; congruence). rewrite (proj2 (Z.eqb_neq _ _) Hos).
    pose proof Hin as (a & b & ->)%list_elem_of_split. destruct (unlink_ok s ready Q (owner n) a p b Hw Hq) as (h' & -> & Hw' & _ & Hk). cbn [mbind outcome_bind].
    eexists _, (set_interrupted t 1). split; [done|]. rewrite (without_one s ready Q (owner n) a p b Hw Hq).
    split; [by apply (put_task_ok (set_hp s h'))|]. split; [done|]. split; [exact Hk|]. split; [done|]. right. split; [|done]. by exists (owner n), (a ++ p :: b).
Qed.

Lemma make_ready_ok s ready Q p t : wait_ok s ready Q -> tasks s !! p = Some t ->
  exists s' t', make_process_ready SLEEP SCHED s p = Ret s' /\ wait_ok s' (join ready p) (without p Q) /\ same_kernel s s' /\ keeps s s' Q /\ tasks s' = <[p := t']> (tasks s) /\
    ((~ sleeping p Q /\ t' = t) \/ (sleeping p Q /\ t' = set_interrupted t 1)).
Proof.
  intros Hw Ht. destruct (leave_queue_ok s ready Q p t Hw Ht) as (s1 & t' & E & Hw1 & (E1 & E2 & E3) & Hk1 & Et & Hc). unfold make_process_ready. rewrite E. cbn [mbind outcome_bind].
  assert (is_Some (tasks s1 !! p)) as Hp1 by (rewrite Et, lookup_insert_eq; done). destruct (w_addr _ _ _ _ _ _ Hw1 p Hp1) as (_ & _ & Hs0 & _).
  destruct (w_sched _ _ _ _ _ _ Hw1 p Hp1) as (n & Hn & Hv & Ho). rewrite (get_node_eq _ _ _ Hs0 Hn). cbn [mbind outcome_bind]. unfold join.
  destruct (Z.eqb_spec (owner n) NULL) as [E0|Hne].
  - rewrite bool_decide_eq_false_2.
    2: { intros Hin. destruct (rep_value _ _ _ _ _ _ (w_ready _ _ _ _ _ _ Hw1) Hin) as (n' & Hn' & Ho' & _). pose proof (rep_addr _ _ _ _ (w_ready _ _ _ _ _ _ Hw1)). congruence. }
    destruct (enqueue_ok s1 ready _ p n Hw1 Hp1 Hn E0) as (h' & -> & Hw2 & Hk2). cbn [mbind outcome_bind]. eexists _, t'. split; [done|]. split; [done|]. split; [done|]. split; [|done].
    intros l ps vs Hl Hq Hlp. apply Hk2; [by apply Hk1| |by rewrite E1]. unfold without. by rewrite lookup_fmap, Hq.
  - destruct Ho as [|Hin]; [done|]. rewrite bool_decide_eq_true_2 by done. exists s1, t'. split; [done|]. split; [done|]. by split.
Qed.

(** A queue that is woken: who is ready afterwards, and what happens to the tasks. *)
Definition alive (ts : gmap ptr task_t) (p : ptr) : bool := match ts !! p with Some t => finished t =? 0 | None => false end.
Definition awaken (ts : gmap ptr task_t) (ready ps : list ptr) : list ptr := ready ++ filter (fun p => p ∉ ready /\ alive ts p = true) (reverse ps).
Definition marked (mark : task_t -> task_t) (t : task_t) : task_t := if finished t =? 0 then mark t else t.

Lemma awaken_snoc ts ts' ready ps p : p ∉ ps -> (forall x, x ∈ ps -> alive ts' x = alive ts x) ->
  awaken ts ready (ps ++ [p]) = awaken ts' (if alive ts p then join ready p else ready) ps.
Proof.
  intros Hp Hal. unfold awaken. rewrite reverse_snoc, filter_cons.
  assert (forall r : list ptr, (forall x, x ∈ ps -> x ∈ r <-> x ∈ ready) -> filter (fun x => x ∉ r /\ alive ts' x = true) (reverse ps) = filter (fun x => x ∉ ready /\ alive ts x = true) (reverse ps)) as Hf.
  { intros r Hr. apply filter_agree. intros x Hx. rewrite elem_of_reverse in Hx. rewrite (Hr x Hx), (Hal x Hx). tauto. }
  destruct (alive ts p) eqn:Ea; unfold join.
  - destruct (decide (p ∈ ready)) as [Hin|Hni].
    + rewrite bool_decide_eq_true_2, decide_False by (done || tauto). by rewrite Hf.
    + rewrite bool_decide_eq_false_2, decide_True by done. rewrite <- app_assoc. cbn [app]. f_equal. f_equal. symmetry. apply Hf. intros x Hx. rewrite elem_of_app, list_elem_of_singleton.
      split; [intros [?| ->]; done|by left].
  - rewrite decide_False by (intros [_ ?]; congruence). by rewrite Hf.
Qed.

Lemma wakeup_loop_ok mark fuel s ready Q q ps awoken :
  (forall t, finished (mark t) = finished t) -> (forall p, p ∈ ps -> V p = p) ->
  wait_ok s ready Q -> Q !! q = Some ps -> (length ps < fuel)%nat -> 0 <= awoken -> awoken + Z.of_nat (length ps) < 2147483648 ->
  exists s', wakeup_loop SLEEP SCHED fuel mark s q awoken = Ret (s', awoken + Z.of_nat (length ps)) /\
    wait_ok s' (awaken (tasks s) ready ps) (<[q := []]> Q) /\ same_kernel s s' /\
    forall x, tasks s' !! x = (if bool_decide (x ∈ ps) then marked mark <$> tasks s !! x else tasks s !! x).
Proof.
  intros Hmark HV. revert fuel s ready Q awoken. induction ps as [|p ps IH] using rev_ind; intros fuel s ready Q awoken Hw Hq Hfuel Haw Hb;
    (destruct fuel as [|fuel]; [lia|]); cbn [wakeup_loop]; rewrite (rep_get_list _ _ _ _ (w_queue _ _ _ _ _ _ Hw q _ Hq)); cbn [mbind outcome_bind header_of length_].
  { cbn [fmap list_fmap length]. change (0 <? Z.of_nat 0) with false. exists s. rewrite Z.add_0_r, insert_id by done. split; [done|]. unfold awaken. cbn [reverse rev_append filter].
    rewrite app_nil_r. split; [done|]. split; [done|]. intros x. by rewrite bool_decide_eq_false_2 by apply not_elem_of_nil. }
  rewrite length_fmap, length_app in *. cbn [length] in *. destruct (Z.ltb_spec 0 (Z.of_nat (length ps + 1))); [|lia].
  destruct (unlink_ok s ready Q q ps p [] Hw Hq) as (h' & Ed & Hw' & Hn & _). rewrite app_nil_r in Hw'.
  pose proof (queue_live _ _ _ _ _ p Hw Hq ltac:(set_solver)) as [t Ht]. destruct (w_addr _ _ _ _ _ _ Hw p) as (Hp0 & Hs0 & _); [done|].
  pose proof (queue_nodup _ _ _ _ _ Hw Hq) as [Hnp _]%NoDup_middle. rewrite app_nil_r in Hnp.
  unfold list_pop. rewrite (rep_get_list _ _ _ _ (w_queue _ _ _ _ _ _ Hw q _ Hq)). cbn [mbind outcome_bind header_of tail_]. rewrite fmap_app. cbn [fmap list_fmap].
  rewrite last_snoc_d, (proj2 (Z.eqb_neq _ _) Hs0), Ed. cbn [mbind outcome_bind]. rewrite (get_node_eq _ _ _ Hs0 Hn). cbn [mbind outcome_bind value]. rewrite (HV p) by set_solver.
  rewrite (task_some (set_hp s h') p t Hp0 Ht). cbn [mbind outcome_bind].
  assert (~ sleeping p (<[q := ps]> Q)) as Hns.
  { intros (q' & ps' & Hq' & Hin). apply lookup_insert_Some in Hq' as [[<- <-]|[Hne Hq']]; [done|]. apply Hne. apply (queue_once _ _ _ q q' _ ps' p Hw Hq Hq'); [set_solver|done]. }
  assert (exists s1, (if finished t =? 0 then make_process_ready SLEEP SCHED (put_task (set_hp s h') p (mark t)) p else Ret (set_hp s h')) = Ret s1 /\
    wait_ok s1 (if alive (tasks s) p then join ready p else ready) (<[q := ps]> Q) /\ same_kernel s s1 /\ tasks s1 = <[p := marked mark t]> (tasks s)) as (s1 & -> & Hw1 & Hk1 & Et1).
  { unfold alive, marked. rewrite Ht. destruct (finished t =? 0); [|exists (set_hp s h'); do 3 (split; [done|]); by rewrite insert_id].
    destruct (make_ready_ok (put_task (set_hp s h') p (mark t)) ready (<[q := ps]> Q) p (mark t)) as (s1 & t' & E & Hw1 & Hk & _ & Et & Hc);
      [by apply put_task_ok|apply lookup_insert_eq|]. destruct Hc as [[_ ->]|[Hc _]]; [|done]. rewrite without_none in Hw1 by done.
    exists s1. split; [done|]. split; [done|]. split; [done|]. rewrite Et. cbn [put_task tasks set_hp]. by rewrite insert_insert_eq. }
  cbn [mbind outcome_bind]. rewrite (s32_small (awoken + 1)) by lia.
  assert (forall x, x ∈ ps -> alive (tasks s1) x = alive (tasks s) x) as Hal by (intros x Hx; unfold alive; rewrite Et1, lookup_insert_ne; [done|by intros ->]).
  destruct (IH ltac:(intros x Hx; apply HV; set_solver) fuel s1 _ (<[q := ps]> Q) (awoken + 1) Hw1) as (s' & -> & Hw2 & Hk2 & Ht2); [apply lookup_insert_eq|lia|lia|lia|].
  exists s'. split; [do 2 f_equal; lia|]. rewrite insert_insert_eq in Hw2. rewrite (awaken_snoc (tasks s) (tasks s1)) by done. split; [done|]. split.
  - destruct Hk1 as (E1 & E2 & E3), Hk2 as (E4 & E5 & E6). unfold same_kernel. by rewrite E4, E5, E6.
  - intros x. rewrite Ht2, Et1. destruct (decide (x = p)) as [->|Hne].
    + rewrite bool_decide_eq_false_2 by done. rewrite (bool_decide_eq_true_2 (p ∈ ps ++ [p])) by set_solver. by rewrite lookup_insert_eq, Ht.
    + rewrite lookup_insert_ne by done. by rewrite (bool_decide_ext (x ∈ ps ++ [p]) (x ∈ ps)) by set_solver.
Qed.

Lemma queue_fuel s ready Q q ps : wait_ok s ready Q -> Q !! q = Some ps -> (length ps < S (size (tasks s)))%nat /\ Z.of_nat (length ps) < 2147483648.
Proof.
  intros Hw Hq. pose proof (few_tasks s ps (queue_nodup _ _ _ _ _ Hw Hq) (fun x => queue_live _ _ _ _ _ x Hw Hq)). pose proof (w_few _ _ _ _ _ _ Hw). lia.
Qed.

Lemma wakeup_queue_ok s ready Q q ps : wait_ok s ready Q -> Q !! q = Some ps -> (forall p, p ∈ ps -> V p = p) ->
  exists s', wakeup_queue SLEEP SCHED s q = Ret (s', Z.of_nat (length ps)) /\
    wait_ok s' (awaken (tasks s) ready ps) (<[q := []]> Q) /\ same_kernel s s' /\ tasks s' = tasks s.
Proof.
  intros Hw Hq HV. destruct (queue_fuel _ _ _ _ _ Hw Hq) as [Hf Hl].
  destruct (wakeup_loop_ok (fun t => t) (S (size (tasks s))) s ready Q q ps 0) as (s' & E & Hw' & Hk & Ht); [done|done|done|done|done|lia|lia|].
  exists s'. split; [exact E|]. split; [done|]. split; [done|]. apply map_eq. intros x. rewrite Ht. destruct (bool_decide (x ∈ ps)); [|done].
  destruct (tasks s !! x) as [t|]; [|done]. cbn. unfold marked. by destruct (finished t =? 0).
Qed.

(** Waking a queue on which nobody sleeps changes nothing and returns 0.  For a queue with
    sleepers [wakeup_queue_ok] says what the function would do if the nodes carried their
    processes, and [wakeup_unset] what it does as the nodes are. *)
Theorem wakeup_queue_empty s ready Q q : wait_ok s ready Q -> Q !! q = Some [] -> wakeup_queue SLEEP SCHED s q = Ret (s, 0).
Proof.
  intros Hw Hq. unfold wakeup_queue. cbn [wakeup_loop]. rewrite (rep_get_list _ _ _ _ (w_queue _ _ _ _ _ _ Hw q _ Hq)). done.
Qed.

(** A process that is made ready leaves the queue it sleeps in, and is told that its sleep
    was interrupted. *)
Theorem make_process_ready_moves s ready Q p t : wait_ok s ready Q -> tasks s !! p = Some t ->
  exists s' t', make_process_ready SLEEP SCHED s p = Ret s' /\ wait_ok s' (join ready p) (without p Q) /\ same_kernel s s' /\ keeps s s' Q /\ tasks s' = <[p := t']> (tasks s) /\
    ((~ sleeping p Q /\ t' = t) \/ (sleeping p Q /\ t' = set_interrupted t 1)).
Proof. apply make_ready_ok. Qed.

Lemma sleep_on_ok s ready Q q ps t : wait_ok s ready Q -> Q !! q = Some ps -> tasks s !! current_task s = Some t -> ~ sleeping (current_task s) Q ->
  exists s', sleep_on SLEEP s q = Ret (s', true) /\ wait_ok s' ready (<[q := ps ++ [current_task s]]> Q) /\ same_kernel s s' /\
    tasks s' = <[current_task s := set_interrupted t 0]> (tasks s).
Proof.
  intros Hw Hq Ht Hns. destruct (w_addr _ _ _ _ _ _ Hw (current_task s)) as (Hp0 & Hs0 & _); [done|]. destruct (w_sleep _ _ _ _ _ _ Hw (current_task s)) as (n & Hn & _ & Ho); [done|].
  assert (owner n = NULL) as Ho0 by (destruct Ho as [|(ps' & Hq' & Hin)]; [done|]; destruct Hns; by exists (owner n), ps').
  unfold sleep_on. rewrite (task_some s _ t Hp0 Ht). cbn [mbind outcome_bind]. rewrite (get_node_eq _ _ _ Hs0 Hn). cbn [mbind outcome_bind]. rewrite Ho0, Z.eqb_refl.
  destruct (link_ok s ready Q q ps (current_task s) n Hw Hq) as (h' & -> & Hw'); [done|done|done|]. cbn [mbind outcome_bind].
  eexists. split; [done|]. split; [by apply (put_task_ok (set_hp s h'))|]. done.
Qed.

(** A process that sleeps and is made ready, as [send_signal] does, whatever the values of the
    nodes are: it stands at the end of the queue it sleeps on, then behind the ready processes
    and in no queue, and its sleep counts as interrupted. *)
Theorem sleep_made_ready s ready Q q ps t c : wait_ok s ready Q -> Q !! q = Some ps -> tasks s !! current_task s = Some t ->
  ~ sleeping (current_task s) Q ->
  exists s1 s2, sleep_on SLEEP s q = Ret (s1, true) /\ wait_ok s1 ready (<[q := ps ++ [current_task s]]> Q) /\
    make_process_ready SLEEP SCHED (State (hp s1) (tasks s1) (process_list s1) (sleep_queue s1) c) (current_task s) = Ret s2 /\
    wait_ok s2 (join ready (current_task s)) Q /\ tasks s2 = <[current_task s := set_interrupted t 1]> (tasks s).
Proof.
  intros Hw Hq Ht Hns. destruct (sleep_on_ok s ready Q q ps t Hw Hq Ht Hns) as (s1 & E1 & Hw1 & (K1 & K2 & K3) & T1).
  assert (tasks s1 !! current_task s = Some (set_interrupted t 0)) as Ht1 by (rewrite T1; apply lookup_insert_eq).
  assert (wait_ok (State (hp s1) (tasks s1) (process_list s1) (sleep_queue s1) c) ready (<[q := ps ++ [current_task s]]> Q)) as Hw1' by (destruct Hw1; by constructor).
  assert (<[q := ps ++ [current_task s]]> Q !! q = Some (ps ++ current_task s :: [])) as Hq1 by apply lookup_insert_eq.
  destruct (make_ready_ok _ ready _ (current_task s) (set_interrupted t 0) Hw1' Ht1) as (s2 & t' & E2 & Hw2 & _ & _ & T2 & Hc).
  rewrite (without_one _ ready _ q ps (current_task s) [] Hw1' Hq1), insert_insert_eq, app_nil_r, insert_id in Hw2 by done.
  exists s1, s2. split; [exact E1|]. split; [exact Hw1|]. split; [exact E2|]. split; [exact Hw2|].
  destruct Hc as [[Hc _]|[_ ->]]; [destruct Hc; exists q, (ps ++ [current_task s]); split; [apply lookup_insert_eq|set_solver]|].
  rewrite T2. cbn [tasks]. by rewrite T1, insert_insert_eq.
Qed.

(** The node of a task whose value was never set stands for no process: waking the queue
    reads the task at address 0. *)
Theorem wakeup_unset s q a x va : list_rep (hp s) q (a ++ [x]) (va ++ [NULL]) -> Z.of_nat (length (a ++ [x])) < 2147483648 ->
  wakeup_queue SLEEP SCHED s q = Fault.
Proof.
  intros Hr Hl. assert (length va = length a) as Hva by (pose proof (rep_length _ _ _ _ Hr) as E; rewrite !length_app in E; cbn [length] in E; lia).
  pose proof (rep_get_list _ _ _ _ Hr) as Hg. destruct (list_delete_rep _ _ _ _ _ _ _ _ Hr Hva Hl) as (h' & Ed & _ & Hn & _).
  unfold wakeup_queue. cbn [wakeup_loop]. rewrite Hg. cbn [mbind outcome_bind header_of length_]. rewrite length_app in *. cbn [length] in *.
  destruct (Z.ltb_spec 0 (Z.of_nat (length a + 1))); [|lia]. unfold list_pop. rewrite Hg. cbn [mbind outcome_bind header_of tail_]. rewrite last_snoc_d.
  assert (x <> NULL) as Hx by (pose proof (rep_null _ _ _ _ Hr); set_solver). rewrite (proj2 (Z.eqb_neq _ _) Hx), Ed. cbn [mbind outcome_bind].
  rewrite (get_node_eq _ _ _ Hx Hn). done.
Qed.

(** The first node is taken off the list of ready processes, and what it carries is returned. *)
Theorem next_ready_process_takes s p ready Q : wait_ok s (p :: ready) Q ->
  exists s', next_ready_process s = Ret (s', V p) /\ wait_ok s' ready Q /\ tasks s' = tasks s.
Proof.
  intros Hw. destruct (dequeue_ok s ready Q p Hw) as (h' & E & Hw' & Hn). assert (sched_node p <> NULL) as Hp0 by (apply (w_addr _ _ _ _ _ _ Hw), (w_live _ _ _ _ _ _ Hw); left; left).
  unfold next_ready_process, process_available. rewrite (rep_get_list _ _ _ _ (w_ready _ _ _ _ _ _ Hw)). cbn [mbind outcome_bind header_of head_ fmap list_fmap hd].
  rewrite (proj2 (Z.eqb_neq _ _) Hp0). cbn [negb]. rewrite E. cbn [mbind outcome_bind]. rewrite (get_node_eq _ _ _ Hp0 Hn). eexists. done.
Qed.

End Moves.

(** ** Lists beside the queues *)

Section Beside.
Context `{Valloc} (SLEEP SCHED : Z) (V : ptr -> ptr).
Notation wait_ok := (wait_ok SLEEP SCHED V).

(** A list [l] that is neither a wait queue nor the ready list: its nodes are no process's. *)
Definition beside (s : Wait.state) (Q : gmap ptr (list ptr)) (l : ptr) : Prop := Q !! l = None /\ l <> process_list s.

Lemma beside_nodes s ready Q l ps vs x p : wait_ok s ready Q -> list_rep (hp s) l ps vs -> beside s Q l -> p ∈ ps -> is_Some (tasks s !! x) ->
  p <> sleep_node SLEEP x /\ p <> sched_node SCHED x.
Proof.
  intros Hw Hl [Hq Hn] Hp Hx. destruct (rep_node _ _ _ _ _ Hl Hp) as (n & En & Eo). pose proof (rep_addr _ _ _ _ Hl) as Hl0. split; intros ->.
  - destruct (w_sleep _ _ _ _ _ _ Hw x Hx) as (n' & En' & _ & [Ho|(ps' & Hps & _)]); congruence.
  - destruct (w_sched _ _ _ _ _ _ Hw x Hx) as (n' & En' & _ & [Ho|Hin]); [congruence|].
    destruct (rep_value _ _ _ _ _ _ (w_ready _ _ _ _ _ _ Hw) Hin) as (n2 & En2 & Eo2 & _). congruence.
Qed.

(** Changing the header of [l] and nodes that are no process's keeps the queues. *)
Lemma beside_ok s ready Q h' l xs : wait_ok s ready Q -> beside s Q l -> frame (hp s) h' l xs ->
  (forall p x, p ∈ xs -> is_Some (tasks s !! x) -> p <> sleep_node SLEEP x /\ p <> sched_node SCHED x) -> wait_ok (set_hp s h') ready Q.
Proof.
  intros Hw [Hq Hn] Hf Hxs. pose proof Hw as [H1 H2 H3 H4 H5 H6 H7 H8].
  assert (forall x, is_Some (tasks s !! x) -> nodes h' !! sleep_node SLEEP x = nodes (hp s) !! sleep_node SLEEP x /\ nodes h' !! sched_node SCHED x = nodes (hp s) !! sched_node SCHED x) as Hsame.
  { intros x Hx. split; apply Hf; intros Hin; by destruct (Hxs _ x Hin Hx). }
  constructor; cbn [set_hp hp tasks process_list sleep_queue]; try done.
  - eapply list_frame; [exact H1|exact Hf|done|]. intros p (x & -> & Hx)%list_elem_of_fmap Hin. destruct (Hxs _ x Hin) as [_ Hne]; [apply H4; by left|done].
  - intros q ps Hps. eapply list_frame; [exact (H2 q ps Hps)|exact Hf|congruence|]. intros p (x & -> & Hx)%list_elem_of_fmap Hin.
    destruct (Hxs _ x Hin) as [Hne _]; [apply H4; right; by exists q, ps|done].
  - intros x Hx. rewrite (proj1 (Hsame x Hx)). by apply H5.
  - intros x Hx. rewrite (proj2 (Hsame x Hx)). by apply H6.
Qed.

Lemma insert_beside s ready Q l ps vs v : wait_ok s ready Q -> list_rep (hp s) l ps vs -> room ps -> beside s Q l ->
  exists h' p, list_insert (hp s) l v = Ret (h', p) /\ list_rep h' l (ps ++ [p]) (vs ++ [v]) /\ wait_ok (set_hp s h') ready Q.
Proof.
  intros Hw Hl Hr Hb. destruct (list_insert_refines (hp s) l ps vs v Hl Hr) as (h' & E & Hl' & Hf). exists h', (valloc (hp s)). split; [done|]. split; [done|].
  eapply (beside_ok s ready Q h' l); [done|done|exact Hf|]. intros p x [->|Hp]%elem_of_cons Hx; [|by apply (beside_nodes s ready Q l ps vs)].
  pose proof (valloc_node (hp s)) as Hv. split; intros E'; [destruct (w_sleep _ _ _ _ _ _ Hw x Hx) as (n & Hn & _)|destruct (w_sched _ _ _ _ _ _ Hw x Hx) as (n & Hn & _)]; congruence.
Qed.

Lemma rep_free h l ps vs n : list_rep h l ps vs -> n <> l -> n ∉ ps -> list_rep (free h n) l ps vs.
Proof.
  intros [H1 H2 H3 H4 H5] Hl Hn. constructor; try done; cbn [free lists nodes]; [by rewrite lookup_delete_ne|].
  eapply seg_agree; [|exact H5]. intros q Hq. rewrite lookup_delete_ne; [done|]. by intros ->.
Qed.

(** Freeing a header without members, or a block that is neither a queue nor a node. *)
Lemma free_ok s ready Q n : wait_ok s ready Q -> n <> process_list s -> Q !! n = None \/ Q !! n = Some [] ->
  (forall x, is_Some (tasks s !! x) -> n <> sleep_node SLEEP x /\ n <> sched_node SCHED x) -> wait_ok (set_hp s (free (hp s) n)) ready (delete n Q).
Proof.
  intros [H1 H2 H3 H4 H5 H6 H7 H8] Hpl HQ Hap.
  constructor; cbn [set_hp hp tasks process_list sleep_queue]; try done.
  - apply rep_free; [done|done|]. intros (y & E' & Hy)%list_elem_of_fmap. destruct (Hap y) as [_ ?]; [apply H4; by left|done].
  - intros q qs [Hne Hqs]%lookup_delete_Some. apply rep_free; [by apply H2|done|]. intros (y & E' & Hy)%list_elem_of_fmap. destruct (Hap y) as [? _]; [apply H4; right; by exists q, qs|done].
  - rewrite lookup_delete_ne by done. split; [apply H3|]. destruct (decide (n = sleep_queue s)) as [->|]; [apply lookup_delete_eq|rewrite lookup_delete_ne by done; apply H3].
  - intros p [Hp|(q & qs & [_ Hq]%lookup_delete_Some & Hp)]; apply H4; [by left|right; by exists q, qs].
  - intros y Hy. cbn [free nodes]. rewrite lookup_delete_ne by (by apply Hap). destruct (H5 y Hy) as (m & Hm & Hv & [Ho|(ps & Hps & Hin)]); exists m; (split; [done|]); (split; [done|]); [by left|].
    right. exists ps. split; [|done]. rewrite lookup_delete_ne; [done|]. intros ->. destruct HQ as [HQ|HQ]; rewrite HQ in Hps; [done|]. injection Hps as <-. by apply elem_of_nil in Hin.
  - intros y Hy. cbn [free nodes]. rewrite lookup_delete_ne by (by apply Hap). by apply H6.
Qed.

(** Nodes of a list that are freed one after the other ([list_free]). *)
Lemma free_from_ok Q ps : forall fuel s ready pr vs l, wait_ok s ready Q -> seg (nodes (hp s)) l pr ps vs NULL -> NoDup ps -> NULL ∉ ps -> (length ps < fuel)%nat ->
  (forall p, p ∈ ps -> p <> process_list s /\ Q !! p = None /\ forall x, is_Some (tasks s !! x) -> p <> sleep_node SLEEP x /\ p <> sched_node SCHED x) ->
  exists h', free_from fuel (hp s) (hd NULL ps) = Ret h' /\ wait_ok (set_hp s h') ready Q /\
    forall l' ps' vs', list_rep (hp s) l' ps' vs' -> l' ∉ ps -> (forall p, p ∈ ps' -> p ∉ ps) -> list_rep h' l' ps' vs'.
Proof.
  induction ps as [|p ps IH]; intros fuel s ready pr vs l Hw Hs Hnd Hnull Hfuel Hap; (destruct fuel as [|fuel]; [cbn in Hfuel; lia|]); cbn [free_from hd].
  { rewrite Z.eqb_refl. exists (hp s). split; [done|]. split; [by destruct s|done]. }
  destruct vs as [|v vs]; [done|]. destruct Hs as [Hp Hs]. apply NoDup_cons in Hnd as [Hpn Hnd]. assert (p <> NULL) as Hp0 by set_solver.
  rewrite (proj2 (Z.eqb_neq _ _) Hp0), (get_node_eq _ _ _ Hp0 Hp). cbn [mbind outcome_bind next length] in *. destruct (Hap p) as (Hpl & HQ & Hno); [left|].
  pose proof (free_ok s ready Q p Hw Hpl (or_introl HQ) Hno) as Hw'. rewrite delete_id in Hw' by done.
  destruct (IH fuel (set_hp s (free (hp s) p)) ready p vs l Hw') as (h' & E & Hw2 & Hk); [|done|set_solver|lia|intros q Hq; apply Hap; by right|].
  { cbn [set_hp hp free nodes]. eapply seg_agree; [|exact Hs]. intros q Hq. rewrite lookup_delete_ne; [done|]. by intros ->. }
  exists h'. split; [exact E|]. split; [exact Hw2|]. intros l' ps' vs' Hl Hl' Hps'. apply Hk; [|set_solver|set_solver]. apply rep_free; [done|set_solver|set_solver].
Qed.

End Beside.

(** ** Witnesses: two processes sleep on one queue, a third runs *)

Module Demo.

Definition proc : task_t := Task 0 0 7 NULL [] 0 0.
Definition dead : task_t := Task 1 0 7 NULL [] 0 0.
Definition nodes_ : gmap ptr node_t :=
  {[ 101 := Node 201 NULL 100 8; 201 := Node NULL 101 200 8; 301 := Node NULL NULL 300 NULL;
     102 := Node NULL NULL 100 NULL; 202 := Node NULL NULL 200 NULL; 302 := Node NULL NULL 300 4 ]}.
Definition demo : state :=
  State (Heap nodes_ {[ 4 := Header 302 302 1; 8 := Header 101 201 2; 12 := Header NULL NULL 0 ]} []) {[ 100 := proc; 200 := dead; 300 := proc ]} 4 12 300.
Definition queues : gmap ptr (list ptr) := {[ 8 := [100; 200] ]}.

Lemma queues_one q ps : queues !! q = Some ps -> q = 8 /\ ps = [100; 200].
Proof. unfold queues. intros [<- <-]%lookup_singleton_Some. done. Qed.

Lemma demo_tasks p : is_Some (tasks demo !! p) -> p = 100 \/ p = 200 \/ p = 300.
Proof.
  intros [t Ht]. cbn [demo tasks] in Ht. apply lookup_insert_Some in Ht as [[<- _]|[_ Ht]]; [by left|]. right.
  apply lookup_insert_Some in Ht as [[<- _]|[_ [<- _]%lookup_singleton_Some]]; [by left|by right].
Qed.

Lemma demo_waits : wait_ok 1 2 (fun p => p) demo [300] queues.
Proof.
  constructor.
  - constructor; [done|done|by_decide|by_decide|]. repeat split.
  - intros q ps [-> ->]%queues_one. constructor; [done|done|by_decide|by_decide|]. repeat split.
  - done.
  - intros p [->%list_elem_of_singleton|(q & ps & [_ ->]%queues_one & Hp)]; [by eexists|]. rewrite !elem_of_cons in Hp. destruct Hp as [->|[->|[]%elem_of_nil]]; by eexists.
  - intros p [->|[->| ->]]%demo_tasks; (eexists; split; [reflexivity|]; split; [done|]); [right|right|by left]; exists [100; 200]; (split; [done|]); by_decide.
  - intros p [->|[->| ->]]%demo_tasks; (eexists; split; [reflexivity|]; split; [done|]); [by left|by left|right; left].
  - intros p [->|[->| ->]]%demo_tasks; (do 3 (split; [done|])); intros p' [->|[->| ->]]%demo_tasks; done.
  - done.
Qed.

Lemma sleep_made_ready_witness :
  exists s1 s2, sleep_on 1 demo 8 = Ret (s1, true) /\
    make_process_ready 1 2 (State (hp s1) (tasks s1) (process_list s1) (sleep_queue s1) 100) 300 = Ret s2 /\ wait_ok 1 2 (fun p => p) s2 [300] queues.
Proof.
  destruct (sleep_made_ready 1 2 (fun p => p) demo [300] queues 8 [100; 200] proc 100 demo_waits) as (s1 & s2 & E1 & _ & E2 & Hw & _); [done|done| |].
  - intros (q & ps & [_ ->]%queues_one & Hp). revert Hp. by_decide.
  - exists s1, s2. split; [exact E1|]. split; [exact E2|exact Hw].
Defined.

End Demo.

End Wait.
