(* ===== verification/Signals.v ===== *)
(** * Signals ([kernel/src/signal.c])

    [signal_receiver], the part of [send_signal] behind the search of the receiver, puts a
    signal into its queue and makes it ready;
    [handle_signal] decides what a signal does to the process that takes it;
    [return_from_signal_handler] and [fix_signal_stacks] give the process back the stack
    and the registers it had before the handler.  The queues of processes are those of the
    file [Wait]; the queue of signals and the list of returning processes are lists in the
    same heap. *)

From stdpp Require Import base gmap numbers list.
From S2P Require Import Prelude LinkedList Wait.

Module Signals.
Import LinkedList Wait.

Definition NUMSIGNALS : Z := 38.
Definition USER_ROOT_UID : Z := 0.
Definition SIGNAL_RETURN : Z := 0xFFFFDEAF.
Definition KERNEL_STACK_SIZE : Z := 8192.

(** What a signal without a handler does: 1 and 2 kill, 3 would stop the process.  The table
    ends at signal 36. *)
Definition isdeadly : list Z :=
  [0; 1; 1; 2; 2; 2; 2; 2; 2; 1; 2; 2; 2; 1; 1; 1; 1; 1; 0; 0; 0; 0; 0; 3; 3; 0; 3; 3; 1; 1; 2; 2; 0; 1; 0; 0; 0].

Record signal_t := Signal { handler : Z; signum : Z }.
Record thread_t := Thread { esp : Z; ebp : Z; eip : Z }.

(** The fields of [task_t] that only the handling of signals uses. *)
Record context_t := Context_ {
  thread : thread_t; signal_state : thread_t; signal_kstack : ptr; stack : Z; user_stack : Z; useresp : Z
}.

(** [blocks] are the kernel stacks and the saved copies of them, by their first address. *)
Record state := State {
  w : Wait.state; sigs : gmap ptr signal_t; contexts : gmap ptr context_t; rets_from_sig : ptr; blocks : gmap ptr (list Z)
}.

Definition set_w (s : state) (x : Wait.state) : state := State x (sigs s) (contexts s) (rets_from_sig s) (blocks s).

Definition set_functions (t : task_t) (fs : list Z) : task_t :=
  Task (finished t) (user t) (sleep_interrupted t) (timed_sleep_node t) fs (signal_queue t) (node_waits t).

(** [malloc] for a [signal_t]. *)
Class SigAlloc := {
  new_sig : gmap ptr signal_t -> ptr;
  new_sig_fresh m : m !! new_sig m = None;
  new_sig_null m : new_sig m <> NULL
}.

Section Operations.
Context `{Valloc} `{SigAlloc} (SLEEP SCHED : Z).

(** [process_from_pid]: the list of ready processes is passed as a tree, so that the field
    [root] that is read is the tail of the list and the [value] of that node is [next] of the
    list's last node.  In a list that ends there it is NULL, and the comparison reads the task
    at address 0; a search that got further is not described. *)
Definition process_from_pid (s : Wait.state) (pid : Z) : outcome ptr :=
  if pid <? 0 then Ret NULL
  else
    hd ← get_list (hp s) (process_list s);
    n ← get_node (hp s) (tail_ hd);
    _ ← task s (next n);
    Fault.

(** [send_signal] for the receiver that was found.  [process_awaken_from_fswait], which is
    called for a receiver that waits on nodes, has an empty body. *)
Definition signal_receiver (s : state) (receiver signal : Z) : outcome (state * Z) :=
  r ← task (w s) receiver;
  c ← task (w s) (current_task (w s));
  if negb (user r =? user c) && negb (user c =? USER_ROOT_UID) then Ret (s, 1)
  else if NUMSIGNALS <? signal then Ret (s, 1)
  else if truthy (finished r) then Ret (s, 1)
  else
    f ← aget (functions r) signal;
    blocked ← (if f =? 0 then d ← aget isdeadly signal; Ret (d =? 0) else Ret false);
    if (blocked : bool) then Ret (s, 1)
    else
      let sig := new_sig (sigs s) in
      let sigs := <[sig := Signal f signal]> (sigs s) in
      ready ← process_is_ready SCHED (w s) receiver;
      x ← (if (ready : bool) then Ret (w s) else make_process_ready SLEEP SCHED (w s) receiver);
      r ← task x receiver;
      '(h, _) ← list_insert (hp x) (signal_queue r) sig;
      Ret (State (set_hp x h) sigs (contexts s) (rets_from_sig s) (blocks s), 0).

Definition send_signal (s : state) (process signal : Z) : outcome (state * Z) :=
  receiver ← process_from_pid (w s) process;
  if receiver =? NULL then Ret (s, 1) else signal_receiver s receiver signal.

(** What becomes of the process: nothing, the call of [exit], or the entry of the handler. *)
Inductive action := Ignored | Killed (status : Z) | Entered (location stack signum : Z).

Definition handle_signal (s : state) (proc sig : ptr) : outcome (state * action) :=
  g ← of_option (sigs s !! sig);
  let s := State (w s) (delete sig (sigs s)) (contexts s) (rets_from_sig s) (blocks s) in
  t ← task (w s) proc;
  if truthy (finished t) then Ret (s, Ignored)
  else if (signum g =? 0) || (NUMSIGNALS <=? signum g) then Ret (s, Ignored)
  else if handler g =? 0 then
    dowhat ← aget isdeadly (signum g);
    if (dowhat =? 1) || (dowhat =? 2) then Ret (s, Killed (128 + signum g)) else Ret (s, Ignored)
  else if handler g =? 1 then Ret (s, Ignored)
  else
    x ← of_option (contexts s !! proc);
    let stack := if useresp x <? 0x10000100 then user_stack x else useresp x in
    Ret (s, Entered (handler g) stack (signum g)).

(** [enter_signal_handler]: the words pushed on the user stack, from the lowest address, and
    the registers after the [iret]: eip, cs, esp, ss. *)
Definition enter_signal_handler (location signum stack : Z) : (Z * list Z) * (Z * Z * Z * Z) :=
  ((u32 (stack - 8), [SIGNAL_RETURN; signum]), (location, 0x1B, u32 (stack - 8), 0x23)).

(** [sys_signal]: the running process sets its handler of a signal and gets the old one. *)
Definition sys_signal (s : state) (signum handler : Z) : outcome (state * Z) :=
  if NUMSIGNALS <? signum then Ret (s, -1)
  else
    t ← task (w s) (current_task (w s));
    old ← aget (functions t) signum;
    fs ← aset (functions t) signum handler;
    Ret (set_w s (put_task (w s) (current_task (w s)) (set_functions t fs)), s32 old).

(** [sys_kill] *)
Definition sys_kill (s : state) (process signal : Z) : outcome (state * Z) := send_signal s process signal.

(** [switch_next] has an empty body. *)
Definition return_from_signal_handler (s : state) : outcome state :=
  let '(h, l) := if rets_from_sig s =? NULL then list_create (hp (w s)) else (hp (w s), rets_from_sig s) in
  '(h, _) ← list_insert h l (current_task (w s));
  Ret (State (set_hp (w s) h) (sigs s) (contexts s) l (blocks s)).

(** The process gets its registers and its stack back. *)
Definition restore (s : state) (p : ptr) : outcome state :=
  x ← of_option (contexts s !! p);
  saved ← of_option (blocks s !! signal_kstack x);
  bytes ← mem_read saved 0 KERNEL_STACK_SIZE;
  old ← of_option (blocks s !! (u32 (stack x - KERNEL_STACK_SIZE)));
  new ← mem_write old 0 bytes;
  let blocks := delete (signal_kstack x) (<[u32 (stack x - KERNEL_STACK_SIZE) := new]> (blocks s)) in
  let th := Thread (esp (signal_state x)) (ebp (signal_state x)) (eip (signal_state x)) in
  let x := Context_ th (signal_state x) NULL (stack x) (user_stack x) (useresp x) in
  y ← make_process_ready SLEEP SCHED (w s) p;
  Ret (State y (sigs s) (<[p := x]> (contexts s)) (rets_from_sig s) blocks).

(** [while (rets_from_sig->head)]; [redo] is [redo_me]. *)
Fixpoint fix_loop (fuel : nat) (s : state) (redo : bool) : outcome (state * bool) :=
  match fuel with
  | O => OutOfFuel
  | S fuel' =>
      hd ← get_list (hp (w s)) (rets_from_sig s);
      if head_ hd =? NULL then Ret (s, redo)
      else
        '(h, n) ← list_dequeue (hp (w s)) (rets_from_sig s);
        if n =? NULL then fix_loop fuel' (set_w s (set_hp (w s) h)) redo
        else
          nd ← get_node h n;
          let s := set_w s (set_hp (w s) (free h n)) in
          if value nd =? current_task (w s) then fix_loop fuel' s true
          else s ← restore s (value nd); fix_loop fuel' s redo
  end.

Definition fix_signal_stacks (s : state) : outcome state :=
  '(s, redo) ← (if rets_from_sig s =? NULL then Ret (s, false) else fix_loop (walk_fuel (hp (w s))) s false);
  if (redo : bool) then
    '(h, _) ← list_insert (hp (w s)) (rets_from_sig s) (current_task (w s));
    Ret (set_w s (set_hp (w s) h))
  else Ret s.

End Operations.

(** ** Sending *)

Section Sending.
Context `{Valloc} `{SigAlloc} (SLEEP SCHED : Z) (V : ptr -> ptr).
Notation wait_ok := (wait_ok SLEEP SCHED V).
Notation signal_receiver := (signal_receiver SLEEP SCHED).

(** The reasons to refuse, in the order of the code: another user's process, a number that is
    too large, a process that has finished, a signal that would do nothing. *)
Definition refused (r c : task_t) (signal f : Z) : bool :=
  (negb (user r =? user c) && negb (user c =? USER_ROOT_UID)) || (NUMSIGNALS <? signal) || truthy (finished r) ||
  ((f =? 0) && (default 0 (isdeadly !! Z.to_nat signal) =? 0)).

Lemma signal_receiver_ok s ready Q signal p r c f ps sg :
  wait_ok (w s) ready Q -> tasks (w s) !! p = Some r -> tasks (w s) !! current_task (w s) = Some c ->
  0 <= signal -> functions r !! Z.to_nat signal = Some f -> (f = 0 -> signal < 37) ->
  list_rep (hp (w s)) (signal_queue r) ps sg -> room ps -> beside (w s) Q (signal_queue r) ->
  if refused r c signal f then signal_receiver s p signal = Ret (s, 1)
  else exists s' x, signal_receiver s p signal = Ret (s', 0) /\ sigs s' = <[new_sig (sigs s) := Signal f signal]> (sigs s) /\
    list_rep (hp (w s')) (signal_queue r) (ps ++ [x]) (sg ++ [new_sig (sigs s)]) /\
    (if bool_decide (p ∈ ready) then wait_ok (w s') ready Q else wait_ok (w s') (ready ++ [p]) (without p Q)) /\
    contexts s' = contexts s /\ exists t', tasks (w s') !! p = Some t' /\ finished t' = finished r.
Proof.
  intros Hw Hr Hc H0s Hf Hdead Hl Hroom Hb. destruct (w_addr _ _ _ _ _ _ Hw p) as (Hp0 & _ & Hs0 & _); [done|].
  destruct (w_addr _ _ _ _ _ _ Hw (current_task (w s))) as (Hc0 & _); [done|]. unfold Signals.signal_receiver.
  rewrite (task_some _ _ _ Hp0 Hr). cbn [mbind outcome_bind]. rewrite (task_some _ _ _ Hc0 Hc). cbn [mbind outcome_bind]. unfold refused.
  destruct (negb (user r =? user c) && negb (user c =? USER_ROOT_UID)); cbn [orb]; [done|]. destruct (NUMSIGNALS <? signal); cbn [orb]; [done|].
  destruct (truthy (finished r)); cbn [orb]; [done|]. rewrite (aget_lookup (functions r) signal f H0s Hf). cbn [mbind outcome_bind].
  assert ((if f =? 0 then d ← aget isdeadly signal; Ret (d =? 0) else Ret false) = Ret ((f =? 0) && (default 0 (isdeadly !! Z.to_nat signal) =? 0))) as ->.
  { destruct (Z.eqb_spec f 0) as [->|]; [|done]. destruct (aget_in_range isdeadly signal) as (d & Hd & ->); [specialize (Hdead eq_refl); cbn; lia|]. cbn [mbind outcome_bind]. by rewrite Hd. }
  cbn [mbind outcome_bind]. destruct ((f =? 0) && _); [done|].
  destruct (w_sched _ _ _ _ _ _ Hw p) as (n & Hn & _ & Ho); [done|]. unfold process_is_ready. rewrite (get_node_eq _ _ _ Hs0 Hn). cbn [mbind outcome_bind].
  pose proof (rep_addr _ _ _ _ (w_ready _ _ _ _ _ _ Hw)) as Hpl0.
  destruct (decide (p ∈ ready)) as [Hin|Hni].
  - rewrite bool_decide_eq_true_2 by done. destruct (rep_value _ _ _ _ _ _ (w_ready _ _ _ _ _ _ Hw) Hin) as (n' & Hn' & Ho' & _). assert (n' = n) as -> by congruence.
    rewrite Ho', (proj2 (Z.eqb_neq _ _) Hpl0). cbn [negb mbind outcome_bind]. rewrite (task_some _ _ _ Hp0 Hr). cbn [mbind outcome_bind].
    destruct (insert_beside SLEEP SCHED V (w s) ready Q _ ps sg (new_sig (sigs s)) Hw Hl Hroom Hb) as (h' & x & -> & Hl' & Hw'). cbn [mbind outcome_bind]. eexists _, x. do 5 (split; [done|]). by exists r.
  - rewrite bool_decide_eq_false_2 by done. destruct Ho as [Ho|]; [|done]. rewrite Ho, Z.eqb_refl. cbn [negb].
    destruct (make_ready_ok SLEEP SCHED V (w s) ready Q p r Hw Hr) as (y & t' & -> & Hwy & (E1 & _) & Hk & Et & Hc'). cbn [mbind outcome_bind].
    assert (tasks y !! p = Some t') as Hty by (rewrite Et; apply lookup_insert_eq). rewrite (task_some _ _ _ Hp0 Hty). cbn [mbind outcome_bind].
    assert (signal_queue t' = signal_queue r) as -> by (destruct Hc' as [[_ ->]|[_ ->]]; done). destruct Hb as [Hb1 Hb2].
    assert (list_rep (hp y) (signal_queue r) ps sg) as Hly by (by apply Hk).
    assert (beside y (without p Q) (signal_queue r)) as Hby by (split; [unfold without; by rewrite lookup_fmap, Hb1|by rewrite E1]).
    destruct (insert_beside SLEEP SCHED V y _ _ _ ps sg (new_sig (sigs s)) Hwy Hly Hroom Hby) as (h' & x & -> & Hl' & Hw'). cbn [mbind outcome_bind].
    eexists _, x. do 3 (split; [done|]). unfold join in Hw'. rewrite bool_decide_eq_false_2 in Hw' by done. do 2 (split; [done|]). exists t'. split; [done|]. destruct Hc' as [[_ ->]|[_ ->]]; done.
Qed.

(** For a receiver that was found, a signal is queued or refused: a signal to another user's process, with a number that
    is too large, to a finished process or without effect is answered with 1 and changes
    nothing; any other is put behind the signals of the receiver, with the handler that
    the receiver has registered, and the receiver is ready. *)
Theorem signal_receiver_queues s ready Q signal p r c f ps sg :
  wait_ok (w s) ready Q -> tasks (w s) !! p = Some r -> tasks (w s) !! current_task (w s) = Some c ->
  0 <= signal -> functions r !! Z.to_nat signal = Some f -> (f = 0 -> signal < 37) ->
  list_rep (hp (w s)) (signal_queue r) ps sg -> room ps -> beside (w s) Q (signal_queue r) ->
  if refused r c signal f then signal_receiver s p signal = Ret (s, 1)
  else exists s' x, signal_receiver s p signal = Ret (s', 0) /\ sigs s' = <[new_sig (sigs s) := Signal f signal]> (sigs s) /\
    list_rep (hp (w s')) (signal_queue r) (ps ++ [x]) (sg ++ [new_sig (sigs s)]) /\
    if bool_decide (p ∈ ready) then wait_ok (w s') ready Q else wait_ok (w s') (ready ++ [p]) (without p Q).
Proof.
  intros Hw Hr Hc Hs0 Hf Hd Hl Hroom Hb. pose proof (signal_receiver_ok s ready Q signal p r c f ps sg Hw Hr Hc Hs0 Hf Hd Hl Hroom Hb) as Hok.
  destruct (refused r c signal f); [done|]. destruct Hok as (s' & x & E & Es & Hl' & Hw' & _). by exists s', x.
Qed.

(** Signals 37 and 38 pass the test of the number, and for a receiver without a handler
    the table is read behind its end. *)
Theorem signal_receiver_overruns s ready Q signal p r c :
  wait_ok (w s) ready Q -> tasks (w s) !! p = Some r -> tasks (w s) !! current_task (w s) = Some c ->
  user r = user c -> finished r = 0 -> 37 <= signal <= 38 -> functions r !! Z.to_nat signal = Some 0 -> signal_receiver s p signal = Fault.
Proof.
  intros Hw Hr Hc Hu Hfin Hs Hf. destruct (w_addr _ _ _ _ _ _ Hw p) as (Hp0 & _); [done|]. destruct (w_addr _ _ _ _ _ _ Hw (current_task (w s))) as (Hc0 & _); [done|].
  unfold Signals.signal_receiver. rewrite (task_some _ _ _ Hp0 Hr). cbn [mbind outcome_bind].
  rewrite (task_some _ _ _ Hc0 Hc). cbn [mbind outcome_bind]. rewrite Hu, Z.eqb_refl, Hfin. cbn [negb andb]. unfold NUMSIGNALS. destruct (Z.ltb_spec 38 signal); [lia|].
  change (truthy 0) with false. cbn iota. rewrite (aget_lookup (functions r) signal 0 ltac:(lia) Hf). cbn [mbind outcome_bind]. change (0 =? 0) with true. cbn iota.
  rewrite aget_out_of_range; [done|cbn; lia].
Qed.

(** The code is wrong here: no receiver is ever found.  Sending to a number that is not
    negative faults, whoever is ready. *)
Theorem send_signal_faults s ready Q pid signal : wait_ok (w s) ready Q -> 0 <= pid -> send_signal SLEEP SCHED s pid signal = Fault.
Proof.
  intros Hw Hp. unfold send_signal, process_from_pid. rewrite (proj2 (Z.ltb_ge _ _) Hp). pose proof (w_ready _ _ _ _ _ _ Hw) as Hr.
  rewrite (rep_get_list _ _ _ _ Hr). cbn [mbind outcome_bind header_of tail_].
  destruct ready as [|p ready _] using rev_ind; [done|]. rewrite !fmap_app in *. cbn [fmap list_fmap] in *. rewrite last_snoc_d.
  assert (sched_node SCHED p <> NULL) as Hp0 by (apply (w_addr _ _ _ _ _ _ Hw), (w_live _ _ _ _ _ _ Hw); left; set_solver).
  change (fmap (M := list) (sched_node SCHED) ready ++ [sched_node SCHED p]) with (fmap (M := list) (sched_node SCHED) ready ++ sched_node SCHED p :: []) in Hr.
  pose proof (rep_get_node _ _ _ _ _ _ _ _ Hr ltac:(by rewrite !length_fmap)) as ->. done.
Qed.

End Sending.

(** ** Returning from a handler *)

Section Returning.
Context `{Valloc} (SLEEP SCHED : Z) (V : ptr -> ptr).
Notation wait_ok := (wait_ok SLEEP SCHED V).

Definition saved_at (x : context_t) : ptr := signal_kstack x.
Definition stack_at (x : context_t) : ptr := u32 (stack x - KERNEL_STACK_SIZE).

(** A process whose stack was saved. *)
Definition saved (s : state) (p : ptr) (x : context_t) (bytes : list Z) : Prop :=
  contexts s !! p = Some x /\ blocks s !! saved_at x = Some bytes /\ Z.of_nat (length bytes) = KERNEL_STACK_SIZE /\
  saved_at x <> stack_at x /\ exists old, blocks s !! stack_at x = Some old /\ Z.of_nat (length old) = KERNEL_STACK_SIZE.

(** What the process has afterwards: the stack and the registers that were saved. *)
Definition restored (s : state) (p : ptr) (x : context_t) (bytes : list Z) : Prop :=
  contexts s !! p = Some (Context_ (Thread (esp (signal_state x)) (ebp (signal_state x)) (eip (signal_state x))) (signal_state x) NULL (stack x) (user_stack x) (useresp x)) /\
  blocks s !! stack_at x = Some bytes.

Lemma restore_ok s ready Q p t x bytes : wait_ok (w s) ready Q -> tasks (w s) !! p = Some t -> saved s p x bytes ->
  exists s', restore SLEEP SCHED s p = Ret s' /\ restored s' p x bytes /\ wait_ok (w s') (join ready p) (without p Q) /\
    same_kernel (w s) (w s') /\ keeps (w s) (w s') Q /\ (forall y, is_Some (tasks (w s) !! y) -> is_Some (tasks (w s') !! y)) /\
    rets_from_sig s' = rets_from_sig s /\
    (forall p', p' <> p -> contexts s' !! p' = contexts s !! p') /\
    (forall a, a <> saved_at x -> a <> stack_at x -> blocks s' !! a = blocks s !! a).
Proof.
  intros Hw Ht (Hx & Hb & Hlen & Hne & old & Ho & Hold). unfold restore. rewrite Hx. cbn [of_option mbind outcome_bind]. fold (saved_at x) (stack_at x). rewrite Hb.
  cbn [of_option mbind outcome_bind]. rewrite mem_read_all by done. cbn [mbind outcome_bind]. rewrite Ho. cbn [of_option mbind outcome_bind].
  rewrite mem_write_all by lia. cbn [mbind outcome_bind]. destruct (make_ready_ok SLEEP SCHED V (w s) ready Q p t Hw Ht) as (y & t' & -> & Hwy & Hs & Hk & Et & _).
  cbn [mbind outcome_bind]. eexists. split; [done|]. split; [split; [apply lookup_insert_eq|]|].
  { cbn [blocks]. rewrite lookup_delete_ne by done. apply lookup_insert_eq. }
  split; [done|]. split; [done|]. split; [done|]. split; [|split; [done|split]].
  - intros z Hz. cbn [w]. rewrite Et, lookup_insert_is_Some'. by right.
  - intros p' Hp. by apply lookup_insert_ne.
  - intros a H1 H2. cbn [blocks]. rewrite lookup_delete_ne, lookup_insert_ne by done. done.
Qed.

(** The list [l] of returning processes: beside the queues, and no node of it is a queue. *)
Record returning (s : state) (Q : gmap ptr (list ptr)) (ps vs : list ptr) : Prop := {
  r_list : list_rep (hp (w s)) (rets_from_sig s) ps vs;
  r_room : room ps;
  r_beside : beside (w s) Q (rets_from_sig s);
  r_nodes p : p ∈ ps -> Q !! p = None /\ p <> process_list (w s) /\ p <> rets_from_sig s
}.

Lemma take_returning s ready Q n ps p vs : wait_ok (w s) ready Q -> returning s Q (n :: ps) (p :: vs) ->
  exists h, list_dequeue (hp (w s)) (rets_from_sig s) = Ret (h, n) /\ n <> NULL /\ get_node h n = Ret (Node NULL NULL p NULL) /\
    let s' := set_w s (set_hp (w s) (free h n)) in wait_ok (w s') ready Q /\ returning s' Q ps vs.
Proof.
  intros Hw [Hl Hroom Hb Hn]. assert (n <> NULL) as Hn0 by (intros ->; destruct (rep_null _ _ _ _ Hl); left).
  destruct (list_delete_rep (hp (w s)) (rets_from_sig s) [] n ps [] p vs Hl) as (h & E & Hl' & Hx & Hf); [done|unfold room in Hroom; cbn [app]; lia|]. cbn [app] in *.
  exists h. split. { unfold list_dequeue. rewrite (rep_get_list _ _ _ _ Hl). cbn [mbind outcome_bind header_of head_ hd]. rewrite (proj2 (Z.eqb_neq _ _) Hn0), E. done. }
  split; [done|]. split; [by apply get_node_eq|]. cbn zeta.
  assert (wait_ok (set_hp (w s) h) ready Q) as Hwh.
  { eapply (beside_ok SLEEP SCHED V (w s) ready Q h); [done|done|exact Hf|]. intros q y Hq Hy. by apply (beside_nodes SLEEP SCHED V (w s) ready Q (rets_from_sig s) (n :: ps) (p :: vs)). }
  destruct (Hn n) as (HQ & Hpl & Hne); [left|]. pose proof (rep_nodup _ _ _ _ Hl) as [Hni Hnd]%NoDup_cons.
  split.
  - pose proof (free_ok SLEEP SCHED V (set_hp (w s) h) ready Q n Hwh Hpl) as Hfr. rewrite delete_id in Hfr by done. apply Hfr; [by left|].
    intros y Hy. apply (beside_nodes SLEEP SCHED V (w s) ready Q (rets_from_sig s) (n :: ps) (p :: vs)); [done|done|done|left|done].
  - constructor; cbn [set_w w set_hp hp process_list rets_from_sig]; [apply rep_free; [done|done|done]|unfold room in *; cbn [length] in Hroom; lia|done|].
    intros q Hq. apply Hn. by right.
Qed.

(** The saved stacks of the processes [vs], apart from each other. *)
Definition all_saved (s : state) (vs : list ptr) (X : ptr -> context_t) (B : ptr -> list Z) : Prop :=
  (forall p, p ∈ vs -> p <> current_task (w s) -> is_Some (tasks (w s) !! p) /\ saved s p (X p) (B p)) /\
  (forall p q, p ∈ vs -> q ∈ vs -> p <> current_task (w s) -> q <> current_task (w s) -> p <> q -> saved_at (X p) <> saved_at (X q) /\ saved_at (X p) <> stack_at (X q) /\ stack_at (X p) <> stack_at (X q)).

Lemma fix_loop_ok fuel ps : forall s ready Q vs redo X B,
  wait_ok (w s) ready Q -> returning s Q ps vs -> NoDup vs -> all_saved s vs X B -> (length ps < fuel)%nat ->
  exists s' ready' Q', fix_loop SLEEP SCHED fuel s redo = Ret (s', redo || bool_decide (current_task (w s) ∈ vs)) /\
    wait_ok (w s') ready' Q' /\ returning s' Q' [] [] /\ current_task (w s') = current_task (w s) /\ (forall p, p ∈ ready -> p ∈ ready') /\
    (forall p, p ∈ vs -> p <> current_task (w s) -> restored s' p (X p) (B p) /\ p ∈ ready') /\
    (forall p, p ∉ vs -> contexts s' !! p = contexts s !! p) /\
    (forall a, (forall p, p ∈ vs -> p <> current_task (w s) -> a <> saved_at (X p) /\ a <> stack_at (X p)) -> blocks s' !! a = blocks s !! a).
Proof.
  revert fuel. induction ps as [|n ps IH]; intros fuel s ready Q vs redo X B Hw Hr Hnd [Hs Hap] Hfuel; (destruct fuel as [|fuel]; [cbn in Hfuel; lia|]); cbn [fix_loop];
    pose proof (r_list _ _ _ _ Hr) as Hl; rewrite (rep_get_list _ _ _ _ Hl); cbn [mbind outcome_bind header_of head_ hd];
    pose proof (rep_length _ _ _ _ Hl) as Hlen; (destruct vs as [|p vs]; [|]; try done).
  - rewrite Z.eqb_refl. exists s, ready, Q. rewrite orb_false_r. split; [done|]. do 4 (split; [done|]). split; [|done]. intros p []%elem_of_nil.
  - destruct (take_returning s ready Q n ps p vs Hw Hr) as (h & E & Hn0 & Eg & Hw1 & Hr1). rewrite (proj2 (Z.eqb_neq _ _) Hn0), E. cbn [mbind outcome_bind].
    rewrite (proj2 (Z.eqb_neq _ _) Hn0), Eg. cbn [mbind outcome_bind value]. cbn zeta in *. set (s1 := set_w s _) in *. apply NoDup_cons in Hnd as [Hpv Hnd].
    assert (all_saved s1 vs X B) as Hs1 by (split; [intros y Hy; apply Hs; by right|intros y z Hy Hz; apply Hap; by right]). cbn [length] in Hfuel.
    change (current_task (w s1)) with (current_task (w s)).
    destruct (Z.eqb_spec p (current_task (w s))) as [Ep|Hpc].
    + destruct (IH fuel s1 ready Q vs true X B Hw1 Hr1 Hnd Hs1) as (s' & ready' & Q' & -> & Hw' & Hr' & Ec & Hrd & Hall & Hc & Hb); [lia|].
      exists s', ready', Q'. rewrite (bool_decide_eq_true_2 (current_task (w s) ∈ p :: vs)) by (rewrite <- Ep; left). rewrite orb_true_r. split; [done|]. split; [done|]. split; [done|]. split; [done|]. split; [done|].
      split; [intros y [->|Hy]%elem_of_cons Hyc; [done|by apply Hall]|]. split; [intros y Hy; apply Hc; set_solver|]. intros a Ha. apply Hb. intros y Hy. apply Ha. by right.
    + destruct (Hs p) as [[t Ht] Hsv]; [left|done|]. destruct (restore_ok s1 ready Q p t (X p) (B p) Hw1 Ht Hsv) as (s2 & -> & Hres & Hw2 & (K1 & K2 & K3) & Hk & Hdom & Er & Hcx & Hbl).
      cbn [mbind outcome_bind]. assert (returning s2 (without p Q) ps vs) as Hr2.
      { destruct Hr1 as [R1 R2 [R3 R3'] R4]. rewrite <- Er in *. assert (forall q, Q !! q = None -> without p Q !! q = None) as Hwo by (intros q Hq; unfold without; by rewrite lookup_fmap, Hq).
        constructor; [by apply Hk|done|split; [by apply Hwo|by rewrite K1]|]. intros q Hq. destruct (R4 q Hq) as (A1 & A2 & A3). split; [by apply Hwo|]. by rewrite K1. }
      assert (all_saved s2 vs X B) as Hs2.
      { unfold all_saved. rewrite K3. split; [|apply Hs1]. intros y Hy Hyc. destruct (proj1 Hs1 y Hy Hyc) as [Hty (G1 & G2 & G3 & G4 & old & G5 & G6)]. split; [by apply Hdom|].
        assert (y <> p) as Hyp by (intros ->; done). destruct (Hap p y) as (A1 & A2 & A3); [left|by right|done|done|done|]. destruct (Hap y p) as (A4 & A5 & A6); [by right|left|done|done|done|].
        split; [by rewrite Hcx|]. split; [by rewrite Hbl|]. split; [done|]. split; [done|]. exists old. split; [|done]. rewrite Hbl; [done|done|done]. }
      destruct (IH fuel s2 _ _ vs redo X B Hw2 Hr2 Hnd Hs2) as (s' & ready' & Q' & -> & Hw' & Hr' & Ec & Hrd & Hall & Hc & Hb); [lia|].
      rewrite K3 in *. change (current_task (w s1)) with (current_task (w s)) in *. exists s', ready', Q'.
      assert (bool_decide (current_task (w s) ∈ p :: vs) = bool_decide (current_task (w s) ∈ vs)) as -> by (apply bool_decide_ext; set_solver).
      split; [done|]. split; [done|]. split; [done|]. split; [done|]. assert (p ∈ join ready p /\ forall y, y ∈ ready -> y ∈ join ready p) as [Hj1 Hj2].
      { unfold join. destruct (bool_decide_reflect (p ∈ ready)); set_solver. }
      split; [intros y Hy; by apply Hrd, Hj2|]. split.
      * intros y [->|Hy]%elem_of_cons Hyc; [|by apply Hall]. split; [|by apply Hrd]. destruct Hres as [G1 G2]. split; [by rewrite Hc|]. rewrite Hb; [done|].
        intros z Hz Hzc. destruct (Hap z p) as (A1 & A2 & A3); [by right|left|done|done|by intros ->|]. split; [done|by apply not_eq_sym].
      * split; [intros y Hy; rewrite Hc by set_solver; rewrite Hcx by set_solver; done|]. intros a Ha. rewrite Hb; [|intros y Hy; apply Ha; by right]. destruct (Ha p) as [A1 A2]; [left|done|]. by rewrite Hbl.
Qed.

(** Every process that has returned from a handler, other than the running one, gets the
    registers and the kernel stack that were saved for it and is ready; the running one
    stays in the list, alone, for the next time. *)
Theorem fix_signal_stacks_restores s ready Q ps vs X B :
  wait_ok (w s) ready Q -> returning s Q ps vs -> NoDup vs -> all_saved s vs X B ->
  exists s' ready' Q' ps', fix_signal_stacks SLEEP SCHED s = Ret s' /\ wait_ok (w s') ready' Q' /\
    list_rep (hp (w s')) (rets_from_sig s') ps' (if bool_decide (current_task (w s) ∈ vs) then [current_task (w s)] else []) /\
    forall p, p ∈ vs -> p <> current_task (w s) -> restored s' p (X p) (B p) /\ p ∈ ready'.
Proof.
  intros Hw Hr Hnd Hs. unfold fix_signal_stacks. pose proof (r_list _ _ _ _ Hr) as Hl. rewrite (proj2 (Z.eqb_neq _ _) (rep_addr _ _ _ _ Hl)).
  destruct (fix_loop_ok (walk_fuel (hp (w s))) ps s ready Q vs false X B Hw Hr Hnd Hs (rep_fuel _ _ _ _ Hl)) as (s' & ready' & Q' & -> & Hw' & Hr' & Ec & _ & Hall & _).
  cbn [mbind outcome_bind orb]. destruct (bool_decide (current_task (w s) ∈ vs)); [|exists s', ready', Q', []; split; [done|]; split; [done|]; split; [exact (r_list _ _ _ _ Hr')|exact Hall]].
  destruct (insert_beside SLEEP SCHED V (w s') ready' Q' _ [] [] (current_task (w s')) Hw' (r_list _ _ _ _ Hr') (r_room _ _ _ _ Hr') (r_beside _ _ _ _ Hr')) as (h' & n & -> & Hl2 & Hw2).
  cbn [mbind outcome_bind]. eexists _, ready', Q', [n]. rewrite <- Ec. split; [done|]. split; [done|]. split; [done|]. rewrite Ec. exact Hall.
Qed.

(** No code saves the stack of a process that enters a handler: [signal_kstack] is [NULL],
    and the stack is copied from there. *)
Theorem fix_signal_stacks_unsaved s ready Q n ps p vs x :
  wait_ok (w s) ready Q -> returning s Q (n :: ps) (p :: vs) -> p <> current_task (w s) ->
  contexts s !! p = Some x -> signal_kstack x = NULL -> blocks s !! NULL = None -> fix_signal_stacks SLEEP SCHED s = Fault.
Proof.
  intros Hw Hr Hp Hx Hk Hb. unfold fix_signal_stacks. pose proof (r_list _ _ _ _ Hr) as Hl. rewrite (proj2 (Z.eqb_neq _ _) (rep_addr _ _ _ _ Hl)). unfold walk_fuel. cbn [fix_loop].
  rewrite (rep_get_list _ _ _ _ Hl). cbn [mbind outcome_bind header_of head_ hd]. destruct (take_returning s ready Q n ps p vs Hw Hr) as (h & -> & Hn0 & Eg & _).
  rewrite (proj2 (Z.eqb_neq _ _) Hn0). cbn [mbind outcome_bind]. rewrite (proj2 (Z.eqb_neq _ _) Hn0), Eg. cbn [mbind outcome_bind value set_w w set_hp current_task].
  rewrite (proj2 (Z.eqb_neq _ _) Hp). unfold restore. cbn [set_w contexts blocks]. rewrite Hx. cbn [of_option mbind outcome_bind]. by rewrite Hk, Hb.
Qed.

End Returning.

(** ** Witnesses *)

Module Demo.

#[export] Program Instance fresh_sig : SigAlloc := {| new_sig m := fresh ({[NULL]} ∪ dom m : gset ptr) |}.
Next Obligation. intros m. apply not_elem_of_dom. pose proof (is_fresh ({[NULL]} ∪ dom m : gset ptr)). set_solver. Qed.
Next Obligation. intros m E. pose proof (is_fresh ({[NULL]} ∪ dom m : gset ptr)). rewrite E in *. set_solver. Qed.

(** Process 100 sleeps in queue 8, process 300 is running; their signals are in the lists 20 and 24. *)
Definition handlers : list Z := replicate 39 0.
Definition sleeper : task_t := Task 0 5 0 NULL handlers 20 0.
Definition runner : task_t := Task 0 5 0 NULL handlers 24 0.
Definition nodes_ : gmap ptr node_t :=
  {[ 101 := Node NULL NULL 100 8; 102 := Node NULL NULL 100 NULL; 301 := Node NULL NULL 300 NULL; 302 := Node NULL NULL 300 4 ]}.
Definition waits : Wait.state :=
  Wait.State (Heap nodes_ {[ 4 := Header 302 302 1; 8 := Header 101 101 1; 20 := Header NULL NULL 0; 24 := Header NULL NULL 0 ]} [])
    {[ 100 := sleeper; 300 := runner ]} 4 12 300.
Definition context : context_t := Context_ (Thread 0 0 0) (Thread 0 0 0) NULL 0x8000 0x20000000 0x1FFFFF00.
Definition demo : state := State waits ∅ {[ 100 := context; 300 := context ]} NULL ∅.
Definition queues : gmap ptr (list ptr) := {[ 8 := [100] ]}.

Lemma sig_queues q ps : queues !! q = Some ps -> q = 8 /\ ps = [100].
Proof. unfold queues. intros [<- <-]%lookup_singleton_Some. done. Qed.

Lemma sig_tasks p : is_Some (tasks waits !! p) -> p = 100 \/ p = 300.
Proof. intros [t Ht]. cbn [waits tasks] in Ht. apply lookup_insert_Some in Ht as [[<- _]|[_ [<- _]%lookup_singleton_Some]]; [by left|by right]. Qed.

(** Checks the queues of a state with these two processes. *)
Ltac two_processes := constructor;
  [ constructor; [done|done|by_decide|by_decide|]; repeat split
  | intros q ps [-> ->]%sig_queues; constructor; [done|done|by_decide|by_decide|]; repeat split
  | done
  | intros p [->%list_elem_of_singleton|(q & ps & [_ ->]%sig_queues & ->%list_elem_of_singleton)]; by eexists
  | intros p [->| ->]%sig_tasks; (eexists; split; [reflexivity|]; split; [done|]); [right|by left]; exists [100]; split; [done|by left]
  | intros p [->| ->]%sig_tasks; (eexists; split; [reflexivity|]; split; [done|]); [by left|right; by left]
  | intros p [->| ->]%sig_tasks; (do 3 (split; [done|])); intros p' [->| ->]%sig_tasks; done
  | done ].

Lemma sig_waits : wait_ok 1 2 (fun p => p) waits [300] queues.
Proof. two_processes. Qed.

Lemma no_signals l : l = 20 \/ l = 24 -> list_rep (hp waits) l [] [].
Proof. intros [->| ->]; (constructor; [done|done|constructor|by_decide|done]). Qed.

Lemma signal_receiver_queues_witness :
  exists s' x, signal_receiver 1 2 demo 100 2 = Ret (s', 0) /\ sigs s' = {[ new_sig ∅ := Signal 0 2 ]} /\
    list_rep (hp (w s')) 20 [x] [new_sig ∅] /\ wait_ok 1 2 (fun p => p) (w s') [300; 100] {[ 8 := [] ]}.
Proof.
  assert (refused sleeper runner 2 0 = false) as Er by (vm_compute; reflexivity). assert (100 ∉ [300]) as Hni by by_decide.
  pose proof (signal_receiver_queues 1 2 (fun p => p) demo [300] queues 2 100 sleeper runner 0 [] [] sig_waits) as Hok.
  rewrite Er, bool_decide_eq_false_2 in Hok by exact Hni. destruct Hok as (s' & x & E & Es & Hl & Hw); [done|done|done|done|done|apply no_signals; by left|done|done|].
  exists s', x. split; [exact E|]. split; [exact Es|]. split; [exact Hl|exact Hw].
Defined.

(** Process 100 has returned from its handler, process 300 is running. *)
Definition saved_context : context_t := Context_ (Thread 0 0 0) (Thread 7 8 9) 0x50000 0x62000 0x20000000 0x1FFFFF00.
Definition bytes : list Z := replicate 8192 1.
Definition blank : list Z := replicate 8192 0.
Definition waits2 : Wait.state :=
  Wait.State (Heap (<[ 40 := Node NULL NULL 100 28 ]> nodes_) {[ 4 := Header 302 302 1; 8 := Header 101 101 1; 28 := Header 40 40 1 ]} [])
    {[ 100 := sleeper; 300 := runner ]} 4 12 300.
Definition demo2 : state := State waits2 ∅ {[ 100 := saved_context ]} 28 {[ 0x50000 := bytes; 0x60000 := blank ]}.

Lemma returned_waits : wait_ok 1 2 (fun p => p) waits2 [300] queues.
Proof. two_processes. Qed.

Lemma demo2_returning : returning demo2 queues [40] [100].
Proof. constructor; [constructor; [done|done|by_decide|by_decide|]; repeat split|done|done|]. intros p ->%list_elem_of_singleton. done. Qed.

Lemma demo2_saved : all_saved demo2 [100] (fun _ => saved_context) (fun _ => bytes).
Proof.
  split.
  - intros p ->%list_elem_of_singleton _. split; [by eexists|]. split; [reflexivity|]. split; [reflexivity|]. split; [reflexivity|]. split; [done|]. exists blank. split; reflexivity.
  - intros p q ->%list_elem_of_singleton ->%list_elem_of_singleton. done.
Qed.

Lemma fix_signal_stacks_restores_witness :
  exists s' ready' Q' ps', fix_signal_stacks 1 2 demo2 = Ret s' /\ wait_ok 1 2 (fun p => p) (w s') ready' Q' /\ list_rep (hp (w s')) (rets_from_sig s') ps' [] /\
    restored s' 100 saved_context bytes /\ 100 ∈ ready'.
Proof.
  destruct (fix_signal_stacks_restores 1 2 (fun p => p) demo2 [300] queues [40] [100] (fun _ => saved_context) (fun _ => bytes) returned_waits demo2_returning) as (s' & ready' & Q' & ps' & E & Hw & Hl & Hall);
    [by_decide|apply demo2_saved|].
  exists s', ready', Q', ps'. split; [exact E|]. split; [exact Hw|]. split; [exact Hl|]. apply (Hall 100); [left|discriminate].
Defined.

End Demo.

End Signals.
