(* ===== verification/Exit.v ===== *)
(** * The end of a process ([kernel/src/task/proc.c])

    [task_exit] composes the other components: the lists of the process and its memory are
    given back, its descriptors are closed when nobody else uses their table, its status is
    kept, and the queue of its parent is woken.  The state is the product of the
    states of the components; a task is one address with the fields each of them uses. *)

From stdpp Require Import base gmap numbers list.
From S2P Require Import Prelude Bitset LinkedList Tree Descriptors Process Paging Spaces ShmNames Shm ShmSpec ShmCorrect Release Wait.

Module Exit.
Import LinkedList.

(** The fields of [task_t] that are in no other component. *)
Record proc_t := Proc {
  id : Z; group : Z; status : Z; tree_entry : ptr; wait_queue : ptr; wd_name : ptr; shm_list : ptr; signal_kstack : ptr; fds : ptr; user_stack : Z
}.

Definition set_status (x : proc_t) (v : Z) : proc_t :=
  Proc (id x) (group x) v (tree_entry x) (wait_queue x) (wd_name x) (shm_list x) (signal_kstack x) (fds x) (user_stack x).

Section Operations.
Context {W : Type} `{Descriptors.NodeOps W} (SLEEP SCHED : Z).

(** [released] are the other blocks given to [free]: strings, stacks, the array of descriptors. *)
Record kernel := Kernel {
  procs : gmap ptr proc_t; w : Wait.state; mem : Shm.state; tables : gmap ptr Descriptors.fd_table_t;
  files : gmap ptr Descriptors.fs_node_t; world : W; process_tree : Tree.state; released : list ptr
}.

Definition set_w (s : kernel) x := Kernel (procs s) x (mem s) (tables s) (files s) (world s) (process_tree s) (released s).
Definition release (s : kernel) (p : ptr) := Kernel (procs s) (w s) (mem s) (tables s) (files s) (world s) (process_tree s) (p :: released s).

(** [list_free] of a list of the process, and [free] of its header. *)
Definition free_list (s : kernel) (l : ptr) : outcome kernel :=
  h ← list_free (Wait.hp (w s)) l;
  Ret (set_w s (Wait.set_hp (w s) (free h l))).

Definition set_finished (t : Wait.task_t) (v : Z) : Wait.task_t :=
  Wait.Task v (Wait.user t) (Wait.sleep_interrupted t) (Wait.timed_sleep_node t) (Wait.functions t) (Wait.signal_queue t) (Wait.node_waits t).
Definition no_waits (t : Wait.task_t) : Wait.task_t :=
  Wait.Task (Wait.finished t) (Wait.user t) (Wait.sleep_interrupted t) (Wait.timed_sleep_node t) (Wait.functions t) (Wait.signal_queue t) NULL.

(** The loop over the descriptors. *)
Fixpoint close_all (d : Descriptors.state W) (i : Z) (todo : nat) : outcome (Descriptors.state W) :=
  match todo with
  | O => Ret d
  | S todo' =>
      e ← aget (Descriptors.entries (Descriptors.fds d)) i;
      d ← (if e =? NULL then Ret d
           else
             d ← Descriptors.close_fs d e;
             es ← aset (Descriptors.entries (Descriptors.fds d)) i NULL;
             Ret (Descriptors.set_fds d (Descriptors.set_entries (Descriptors.fds d) es)));
      close_all d (i + 1) todo'
  end.

(** The last part of [cleanup_process]. *)
Definition drop_fds (s : kernel) (x : proc_t) : outcome kernel :=
  t ← of_option (tables s !! fds x);
  let t := Descriptors.Build_fds (Descriptors.entries t) (Descriptors.length_ t) (Descriptors.capacity t) (s32 (Descriptors.refs t - 1)) in
  if Descriptors.refs t =? 0 then
    d ← close_all (Descriptors.State (files s) t (world s)) 0 (Z.to_nat (Descriptors.length_ t));
    let s := Kernel (procs s) (w s) (mem s) (delete (fds x) (tables s)) (Descriptors.nodes d) (Descriptors.world d) (process_tree s) (released s) in
    Ret (release s (u32 (user_stack x - 0x190000)))
  else Ret (Kernel (procs s) (w s) (mem s) (<[fds x := t]> (tables s)) (files s) (world s) (process_tree s) (released s)).

Definition cleanup_process (s : kernel) (proc : ptr) (retval : Z) : outcome kernel :=
  x ← of_option (procs s !! proc);
  t ← Wait.task (w s) proc;
  let s := Kernel (<[proc := set_status x retval]> (procs s)) (Wait.put_task (w s) proc (set_finished t 1)) (mem s) (tables s) (files s) (world s) (process_tree s) (released s) in
  s ← free_list s (wait_queue x);
  s ← free_list s (Wait.signal_queue t);
  let s := release s (wd_name x) in
  s ← (if Wait.node_waits t =? NULL then Ret s
       else s ← free_list s (Wait.node_waits t); Ret (set_w s (Wait.put_task (w s) proc (no_waits (set_finished t 1)))));
  m ← Release.cleanup_memory (mem s) proc;
  let s := Kernel (procs s) (w s) m (tables s) (files s) (world s) (process_tree s) (shm_list x :: released s) in
  let s := if signal_kstack x =? NULL then s else release s (signal_kstack x) in
  drop_fds s x.

(** What the process tree and [waitpid] see of a state. *)
Definition view (s : kernel) : Process.kernel :=
  Process.Kernel
    (map_imap (fun p x => t ← Wait.tasks (w s) !! p;
                          Some (Process.Task (id x) (group x) (truthy (Wait.finished t)) (status x) (tree_entry x) [])) (procs s))
    (process_tree s) [] (Bitset.bitset_init 0) 0 [].

(** [task_exit], up to the interrupt that switches to another task. *)
Definition task_exit (s : kernel) (retval : Z) : outcome kernel :=
  let current := Wait.current_task (w s) in
  x ← of_option (procs s !! current);
  if id x =? 0 then Ret s
  else
    s ← cleanup_process s current retval;
    parent ← Process.process_get_parent (view s) current;
    if parent =? NULL then Ret s
    else
      t ← Wait.task (w s) parent;
      if truthy (Wait.finished t) then Ret s
      else
        y ← of_option (procs s !! parent);
        '(k, _) ← Wait.wakeup_queue SLEEP SCHED (w s) (wait_queue y);
        Ret (set_w s k).

End Operations.

Arguments kernel W : clear implicits.

(** ** Descriptors *)

Section Closing.
Import Descriptors.
Context {W : Type} `{NodeOps W}.

(** Every descriptor is closed: the nodes that are left are those that others use. *)
Lemma close_all_ok others todo : forall (d : Descriptors.state W) i,
  Descriptors.inv others d -> 0 <= i -> i + Z.of_nat todo = length_ (Descriptors.fds d) -> (forall j, (j < Z.to_nat i)%nat -> live (Descriptors.fds d) !! j = Some NULL) ->
  exists d', close_all d i todo = Ret d' /\ Descriptors.inv others d' /\ length_ (Descriptors.fds d') = length_ (Descriptors.fds d) /\ Forall (eq NULL) (live (Descriptors.fds d')).
Proof.
  induction todo as [|todo IH]; intros d i Hi H0 Hlen Hdone; cbn [close_all].
  { exists d. split; [done|]. split; [done|]. split; [done|]. apply Forall_lookup. intros j e Hj. pose proof (length_live _ (inv_table _ _ Hi)) as Hll.
    pose proof (lookup_lt_Some _ _ _ Hj). rewrite Hdone in Hj by lia. by injection Hj. }
  pose proof (inv_table _ _ Hi) as Hw. destruct (entry_ok (Descriptors.fds d) i Hw) as (e & -> & He); [lia|]. cbn [mbind outcome_bind]. destruct (Z.eqb_spec e NULL) as [->|Hne]; cbn [mbind outcome_bind].
  { destruct (IH d (i + 1) Hi) as (d' & E & Hi' & El & Hall); [lia|lia| |by exists d']. intros j Hj. destruct (decide (j = Z.to_nat i)) as [->|]; [done|]. apply Hdone. lia. }
  destruct (close_fs_ok others d e Hi) as (ns & w & -> & Hns); [by eapply list_elem_of_lookup_2|]. pose proof Hw as [Ha Hl Hc]. cbn [mbind outcome_bind Descriptors.fds]. rewrite aset_in_range by lia. cbn [mbind outcome_bind].
  assert (live (set_entries (Descriptors.fds d) (<[Z.to_nat i := NULL]> (entries (Descriptors.fds d)))) = <[Z.to_nat i := NULL]> (live (Descriptors.fds d))) as El by (apply live_insert; lia).
  match goal with |- context [close_all ?x _ _] => destruct (IH x (i + 1)) as (d' & E & Hi' & El' & Hall) end; cbn [set_fds Descriptors.fds].
  - apply (inv_store others d ns w (Z.to_nat i) e NULL); [done|by apply wf_insert|done|exact El|done|by left|exact Hns].
  - lia.
  - cbn [set_entries length_]. lia.
  - intros j Hj. rewrite El. destruct (decide (j = Z.to_nat i)) as [->|]; [apply list_lookup_insert_eq; by eapply lookup_lt_Some|]. rewrite list_lookup_insert_ne by lia. apply Hdone. lia.
  - by exists d'.
Qed.

Lemma count_others others (d : Descriptors.state W) q n : Descriptors.inv others d -> Forall (eq NULL) (live (Descriptors.fds d)) -> nodes d !! q = Some n -> refcount n = -1 \/ refcount n = others q.
Proof.
  intros Hi Hall Hn. destruct (inv_count _ _ Hi q n Hn) as [|E]; [by left|]. right. rewrite E. assert (q <> NULL) as Hq by (intros ->; by rewrite (inv_null _ _ Hi) in Hn).
  enough (holders (Descriptors.fds d) q = 0) by lia. unfold holders. induction Hall as [|e l <- _ IH]; [apply count_nil|]. rewrite count_cons, IH. by rewrite bool_decide_eq_false_2.
Qed.

End Closing.

(** ** Memory *)

Section Memory.
Import Frames Paging Shm ShmSpec ShmCorrect Release.

Lemma cleanup_memory_ok D s r p t d k :
  inv D None s r -> Shm.tasks s !! p = Some t -> directories (pg s) !! page_directory t = Some d -> directories (pg s) !! kernel_directory (pg s) = Some k ->
  page_directory t <> kernel_directory (pg s) -> -2147483648 < ref_count d < 2147483648 -> length (Paging.tables d) = 1024%nat ->
  NoDup (own_tables (Paging.tables d) (Paging.tables k)) -> Forall (table_ok (pg s)) (own_tables (Paging.tables d) (Paging.tables k)) ->
  exists s', cleanup_memory s p = Ret s' /\ Shm.tasks s' = <[p := set_mappings t []]> (Shm.tasks s) /\
    (ref_count d <= 1 -> directories (pg s') !! page_directory t = None) /\
    forall i c, chunks s !! i = Some c -> is_Some (chunks s' !! i) <-> exists q u m, q <> p /\ Shm.tasks s !! q = Some u /\ m ∈ shm_mappings u /\ m_chunk m = i.
Proof.
  intros Hi Ht Hd Hk Hne Hrc Hlen Hnd Htok. destruct (shm_release_all_ok D s r p t Hi Ht) as (s1 & E1 & Hi1 & Ets & _ & (fs & Epg & Enf) & Halive).
  unfold cleanup_memory. rewrite Ht. cbn [of_option mbind outcome_bind]. rewrite E1. cbn [mbind outcome_bind].
  destruct (release_directory_ok (pg s1) (page_directory t) d k) as (m2 & -> & Hrel); rewrite ?Epg; cbn [set_fr directories kernel_directory fr]; try done.
  { pose proof (proj1 (i_frames _ _ _ _ Hi1)) as Hwf. by rewrite Epg in Hwf. }
  { eapply Forall_impl; [exact Htok|]. intros x (ps & Hps & Hf). exists ps. cbn [fr page_tables set_fr]. by rewrite Enf. }
  cbn [mbind outcome_bind]. eexists. split; [done|]. cbn [set_pg Shm.tasks pg chunks]. split; [done|]. split; [|done].
  intros Hle. rewrite (proj2 (Z.leb_le _ _) Hle) in Hrel. destruct Hrel as (_ & _ & ->). apply lookup_delete_eq.
Qed.

End Memory.

(** ** The end of a process *)

Section Ending.
Import Wait.
Context {W : Type} `{Descriptors.NodeOps W} (SLEEP SCHED : Z) (V : ptr -> ptr).
Notation wait_ok := (wait_ok SLEEP SCHED V).

(** An address that is neither the ready list nor a node of a process. *)
Definition loose (k : Wait.state) (a : ptr) : Prop :=
  a <> process_list k /\ forall y, is_Some (tasks k !! y) -> a <> sleep_node SLEEP y /\ a <> sched_node SCHED y.

Lemma free_list_ok (s : kernel W) ready Q l ps vs :
  wait_ok (w s) ready Q -> list_rep (hp (w s)) l ps vs -> Q !! l = None \/ Q !! l = Some [] -> loose (w s) l -> l ∉ ps ->
  (forall q, q ∈ ps -> Q !! q = None /\ loose (w s) q) ->
  exists h, free_list s l = Ret (set_w s (set_hp (w s) h)) /\ wait_ok (set_hp (w s) h) ready (delete l Q) /\
    forall l' ps' vs', list_rep (hp (w s)) l' ps' vs' -> l' <> l -> l' ∉ ps -> (forall q, q ∈ ps' -> q ∉ l :: ps) -> list_rep h l' ps' vs'.
Proof.
  intros Hw Hl HQ [Hpl Hloose] Hlp Hps. unfold free_list, list_free. rewrite (rep_get_list _ _ _ _ Hl). cbn [mbind outcome_bind header_of head_].
  destruct (free_from_ok SLEEP SCHED V Q ps (walk_fuel (hp (w s))) (w s) ready NULL vs l Hw (rep_seg _ _ _ _ Hl) (rep_nodup _ _ _ _ Hl) (rep_null _ _ _ _ Hl) (rep_fuel _ _ _ _ Hl)) as (h & -> & Hw' & Hk).
  { intros q Hq. destruct (Hps q Hq) as [HQq [Hqp Hq']]. done. }
  cbn [mbind outcome_bind]. eexists. split; [done|]. split; [by apply (free_ok SLEEP SCHED V (set_hp (w s) h) ready Q l Hw')|].
  intros l' ps' vs' Hl' Hne Hni Hap. apply rep_free; [apply Hk; [done|done|set_solver]|done|set_solver].
Qed.

(** A process [p] that can end: nobody waits on its queue, its signals are in a list of its
    own.  ([node_waits] is never set: [process_wait_nodes] has an empty body.) *)
Record ending (s : kernel W) (ready : list ptr) (Q : gmap ptr (list ptr)) (p : ptr) (x : proc_t) (t : task_t) (ps vs : list ptr) : Prop := {
  e_wait : wait_ok (w s) ready Q;
  e_current : current_task (w s) = p;
  e_proc : procs s !! p = Some x;
  e_task : tasks (w s) !! p = Some t;
  e_queue : Q !! wait_queue x = Some [];
  e_signals : list_rep (hp (w s)) (signal_queue t) ps vs;
  e_beside : Q !! signal_queue t = None;
  e_loose q : q ∈ wait_queue x :: signal_queue t :: ps -> loose (w s) q;
  e_nodes q : q ∈ ps -> Q !! q = None /\ q <> signal_queue t;
  e_waits : node_waits t = NULL
}.

(** What becomes of the table of descriptors, of which [others] count the other users. *)
Definition dropped (s s' : kernel W) (x : proc_t) (T : Descriptors.fd_table_t) (others : ptr -> Z) : Prop :=
  if Descriptors.refs T =? 1 then
    tables s' = delete (fds x) (tables s) /\ forall q n, files s' !! q = Some n -> Descriptors.refcount n = -1 \/ Descriptors.refcount n = others q
  else files s' = files s /\ tables s' = <[fds x := Descriptors.Build_fds (Descriptors.entries T) (Descriptors.length_ T) (Descriptors.capacity T) (Descriptors.refs T - 1)]> (tables s).

Lemma drop_fds_ok (s : kernel W) x T others : tables s !! fds x = Some T -> 0 < Descriptors.refs T < 2147483648 -> Descriptors.inv others (Descriptors.State (files s) T (world s)) ->
  exists s', drop_fds s x = Ret s' /\ dropped s s' x T others /\ procs s' = procs s /\ w s' = w s /\ mem s' = mem s /\ process_tree s' = process_tree s.
Proof.
  intros HT Hr Hi. unfold drop_fds, dropped. rewrite HT. cbn [of_option mbind outcome_bind Descriptors.refs]. rewrite s32_small by lia.
  destruct (Z.eqb_spec (Descriptors.refs T - 1) 0), (Z.eqb_spec (Descriptors.refs T) 1); try lia; cbn [mbind outcome_bind]; [|eexists; done].
  set (T1 := Descriptors.Build_fds _ _ _ _). assert (Descriptors.inv others (Descriptors.State (files s) T1 (world s))) as Hi1 by (destruct Hi as [[] ? ? ? ?]; by constructor).
  destruct (close_all_ok others (Z.to_nat (Descriptors.length_ T1)) (Descriptors.State (files s) T1 (world s)) 0 Hi1) as (d & -> & Hi' & _ & Hall); [lia| |lia|].
  { cbn [Descriptors.fds T1 Descriptors.length_]. destruct (Descriptors.wt_length _ (Descriptors.inv_table _ _ Hi)). cbn [Descriptors.fds] in *. lia. }
  cbn [mbind outcome_bind]. eexists. split; [done|]. cbn [release tables files procs w mem process_tree]. split; [|done]. split; [done|].
  intros q n Hn. by apply (count_others others d).
Qed.

Lemma cleanup_process_ok (s : kernel W) ready Q p x t ps vs m T others retval :
  ending s ready Q p x t ps vs -> Release.cleanup_memory (mem s) p = Ret m ->
  tables s !! fds x = Some T -> 0 < Descriptors.refs T < 2147483648 -> Descriptors.inv others (Descriptors.State (files s) T (world s)) ->
  exists s', cleanup_process s p retval = Ret s' /\ wait_ok (w s') ready (delete (wait_queue x) Q) /\
    tasks (w s') = <[p := set_finished t 1]> (tasks (w s)) /\ current_task (w s') = p /\
    procs s' = <[p := set_status x retval]> (procs s) /\ mem s' = m /\ process_tree s' = process_tree s /\ dropped s s' x T others.
Proof.
  intros He Hm HT Hr Hi. pose proof He as [Hw Hc Hx Ht Hq Hsg Hb Hlo Hn Hnw]. destruct (w_addr _ _ _ _ _ _ Hw p) as (Hp0 & _); [done|].
  unfold cleanup_process. rewrite Hx. cbn [of_option mbind outcome_bind]. rewrite (task_some _ _ _ Hp0 Ht). cbn [mbind outcome_bind].
  pose proof (put_task_ok SLEEP SCHED V (w s) ready Q p (set_finished t 1) Hw (ltac:(done) : is_Some (tasks (w s) !! p))) as Hw1. set (s1 := Kernel _ _ _ _ _ _ _ _).
  assert (forall a, loose (w s) a -> loose (w s1) a) as Hlo1.
  { intros a [A1 A2]. split; [done|]. intros y Hy. apply A2. cbn [w s1 put_task tasks] in Hy. apply lookup_insert_is_Some in Hy as [<-|[_ ?]]; done. }
  assert (wait_queue x <> signal_queue t) as Hne by congruence. assert (wait_queue x ∉ ps) as Hnp by (intros Hin; destruct (Hn _ Hin); congruence).
  assert (signal_queue t ∉ ps) as Hsp by (intros Hin; by destruct (Hn _ Hin)).
  destruct (free_list_ok s1 ready Q (wait_queue x) [] [] Hw1 (w_queue _ _ _ _ _ _ Hw1 _ _ Hq)) as (h1 & -> & Hw2 & Hk1); [by right|apply Hlo1, Hlo; left|apply not_elem_of_nil|intros q []%elem_of_nil|]. cbn [mbind outcome_bind].
  set (s2 := set_w s1 _). assert (list_rep (hp (w s2)) (signal_queue t) ps vs) as Hsg2.
  { apply Hk1; [done|done|apply not_elem_of_nil|]. intros q Hin Heq. apply list_elem_of_singleton in Heq. by subst q. }
  destruct (free_list_ok s2 ready (delete (wait_queue x) Q) (signal_queue t) ps vs Hw2 Hsg2) as (h2 & -> & Hw3 & _).
  { left. by rewrite lookup_delete_ne. } { apply (Hlo1 _ (Hlo _ ltac:(right; left))). } { done. }
  { intros q Hin. split; [rewrite lookup_delete_ne by (intros E; apply Hnp; by rewrite E); by apply Hn|]. apply (Hlo1 _ (Hlo _ ltac:(by right; right))). }
  cbn [mbind outcome_bind]. rewrite Hnw, Z.eqb_refl. cbn [mbind outcome_bind release mem s2 s1 set_w]. rewrite Hm. cbn [mbind outcome_bind].
  match goal with |- context [drop_fds ?z x] => destruct (drop_fds_ok z x T others) as (s' & -> & Hd & Ep & Ew & Em & Et) end.
  { by destruct (signal_kstack x =? NULL). } { done. } { by destruct (signal_kstack x =? NULL). }
  exists s'. split; [done|]. rewrite (delete_id (delete _ Q)) in Hw3 by (by rewrite lookup_delete_ne).
  destruct (signal_kstack x =? NULL); cbn [release set_w procs w mem process_tree tables files] in *; rewrite Ep, Ew, Em, Et; done.
Qed.

(** The address space of a process that ends. *)
Record space_ok (m : Shm.state) (p : ptr) (D : list ptr) (r : Tree.rose) (mt : Shm.task_t) (d k : Paging.page_directory_t) : Prop := {
  sp_inv : ShmSpec.inv D None m r;
  sp_task : Shm.tasks m !! p = Some mt;
  sp_dir : Paging.directories (Shm.pg m) !! Shm.page_directory mt = Some d;
  sp_kernel : Paging.directories (Shm.pg m) !! Paging.kernel_directory (Shm.pg m) = Some k;
  sp_own : Shm.page_directory mt <> Paging.kernel_directory (Shm.pg m);
  sp_count : -2147483648 < Paging.ref_count d < 2147483648;
  sp_length : length (Paging.tables d) = 1024%nat;
  sp_distinct : NoDup (Release.own_tables (Paging.tables d) (Paging.tables k));
  sp_tables : Forall (Release.table_ok (Shm.pg m)) (Release.own_tables (Paging.tables d) (Paging.tables k))
}.

(** Process [q] is the parent of [p] in the tree, and nobody sleeps on its queue (a sleeper
    there would make the waking fault, [wakeup_unset]). *)
Record parent_ok (s : kernel W) (Q : gmap ptr (list ptr)) (p q : ptr) (x y : proc_t) (u : task_t) : Prop := {
  pa_tree : exists n pn, Tree.get_node (process_tree s) (tree_entry x) = Ret n /\ Tree.value n = p /\ Tree.parent n = tree_entry y /\
    Tree.get_node (process_tree s) (tree_entry y) = Ret pn /\ Tree.value pn = q;
  pa_entry : tree_entry y <> NULL;
  pa_other : q <> p;
  pa_proc : procs s !! q = Some y;
  pa_task : tasks (w s) !! q = Some u;
  pa_runs : finished u = 0;
  pa_queue : Q !! wait_queue y = Some [];
  pa_queues : wait_queue y <> wait_queue x
}.

Lemma view_task (s : kernel W) p x t : p <> NULL -> procs s !! p = Some x -> tasks (w s) !! p = Some t ->
  Process.get_task (view s) p = Ret (Process.Task (id x) (group x) (truthy (finished t)) (status x) (tree_entry x) []).
Proof. intros Hp Hx Ht. unfold Process.get_task. rewrite (proj2 (Z.eqb_neq _ _) Hp). cbn [view Process.tasks]. by rewrite map_lookup_imap, Hx; cbn [mbind option_bind]; rewrite Ht. Qed.

Lemma task_exit_ok (s : kernel W) ready Q p x t ps vs q y u D r mt d k T others retval :
  ending s ready Q p x t ps vs -> id x <> 0 -> parent_ok s Q p q x y u -> space_ok (mem s) p D r mt d k ->
  tables s !! fds x = Some T -> 0 < Descriptors.refs T < 2147483648 -> Descriptors.inv others (Descriptors.State (files s) T (world s)) ->
  exists s', task_exit SLEEP SCHED s retval = Ret s' /\
    procs s' = <[p := set_status x retval]> (procs s) /\ tasks (w s') = <[p := set_finished t 1]> (tasks (w s)) /\ process_tree s' = process_tree s /\
    wait_ok (w s') ready (delete (wait_queue x) Q) /\
    dropped s s' x T others /\ Shm.tasks (mem s') = <[p := Shm.set_mappings mt []]> (Shm.tasks (mem s)) /\
    (Paging.ref_count d <= 1 -> Paging.directories (Shm.pg (mem s')) !! Shm.page_directory mt = None).
Proof.
  intros He Hid [(n & pn & Hn & Hv & Hpar & Hpn & Hq) Hte Hqp Hy Hu Hrun HQ Hqq] [M1 M2 M3 M4 M5 M6 M7 M8 M9] HT Hr Hi.
  destruct (cleanup_memory_ok D (mem s) r p mt d k M1 M2 M3 M4 M5 M6 M7 M8 M9) as (m & Hm & Hmt & Hdir & _).
  destruct (cleanup_process_ok s ready Q p x t ps vs m T others retval He Hm HT Hr Hi) as (s1 & Ec & Hw1 & Et1 & Ecur & Ep1 & Em1 & Etr1 & Hd1).
  destruct (w_addr _ _ _ _ _ _ (e_wait _ _ _ _ _ _ _ _ He) p) as (Hp0 & _); [by rewrite (e_task _ _ _ _ _ _ _ _ He)|].
  destruct (w_addr _ _ _ _ _ _ (e_wait _ _ _ _ _ _ _ _ He) q) as (Hq0 & _); [done|].
  unfold task_exit. rewrite (e_current _ _ _ _ _ _ _ _ He), (e_proc _ _ _ _ _ _ _ _ He). cbn [of_option mbind outcome_bind]. rewrite (proj2 (Z.eqb_neq _ _) Hid), Ec. cbn [mbind outcome_bind].
  assert (procs s1 !! p = Some (set_status x retval)) as Hx1 by (rewrite Ep1; apply lookup_insert_eq). assert (tasks (w s1) !! p = Some (set_finished t 1)) as Ht1 by (rewrite Et1; apply lookup_insert_eq).
  assert (procs s1 !! q = Some y) as Hy1 by (by rewrite Ep1, lookup_insert_ne). assert (tasks (w s1) !! q = Some u) as Hu1 by (by rewrite Et1, lookup_insert_ne).
  unfold Process.process_get_parent. rewrite (view_task s1 p _ _ Hp0 Hx1 Ht1). cbn [mbind outcome_bind Process.tree_entry set_status tree_entry view Process.process_tree]. rewrite Etr1, Hn. cbn [mbind outcome_bind].
  rewrite Hpar, (proj2 (Z.eqb_neq _ _) Hte), Hpn. cbn [mbind outcome_bind]. rewrite Hq, (proj2 (Z.eqb_neq _ _) Hq0), (task_some _ _ _ Hq0 Hu1). cbn [mbind outcome_bind].
  rewrite Hrun. change (truthy 0) with false. cbn iota. rewrite Hy1. cbn [of_option mbind outcome_bind].
  assert (delete (wait_queue x) Q !! wait_queue y = Some []) as HQ1 by (by rewrite lookup_delete_ne).
  rewrite (wakeup_queue_empty SLEEP SCHED V (w s1) ready _ (wait_queue y) Hw1 HQ1). cbn [mbind outcome_bind].
  eexists. split; [done|]. cbn [set_w procs w mem process_tree tables files]. rewrite Em1. split; [done|]. split; [done|]. split; [done|]. split; [done|]. split; [|done].
  unfold dropped in *. by destruct (Descriptors.refs T =? 1).
Qed.

(** The end of a process whose parent does not sleep: its status is kept, it is marked as
    finished, the ready processes and the other queues stay, its mappings of shared memory are gone and its directory is freed if it was the last user,
    and when its table of descriptors has no other user every descriptor is closed, so that
    the count of each node is the number of its other users. *)
Theorem task_exit_ends (s : kernel W) ready Q p x t ps vs q y u D r mt d k T others retval :
  ending s ready Q p x t ps vs -> id x <> 0 -> parent_ok s Q p q x y u -> space_ok (mem s) p D r mt d k ->
  tables s !! fds x = Some T -> 0 < Descriptors.refs T < 2147483648 -> Descriptors.inv others (Descriptors.State (files s) T (world s)) ->
  exists s', task_exit SLEEP SCHED s retval = Ret s' /\
    procs s' = <[p := set_status x retval]> (procs s) /\ tasks (w s') = <[p := set_finished t 1]> (tasks (w s)) /\ process_tree s' = process_tree s /\
    wait_ok (w s') ready (delete (wait_queue x) Q) /\
    dropped s s' x T others /\ Shm.tasks (mem s') = <[p := Shm.set_mappings mt []]> (Shm.tasks (mem s)) /\
    (Paging.ref_count d <= 1 -> Paging.directories (Shm.pg (mem s')) !! Shm.page_directory mt = None).
Proof. apply task_exit_ok. Qed.

End Ending.

(** ** Witnesses: process 100 ends while its parent 300 is idle *)

Module Demo.
Import Wait.

#[local] Existing Instance Descriptors.demo_ops.

Definition child_task : task_t := Task 0 5 0 NULL [] 20 NULL.
Definition parent_task : task_t := Task 0 5 0 NULL [] 24 NULL.
Definition nodes_ : gmap ptr node_t :=
  {[ 101 := Node NULL NULL NULL NULL; 102 := Node NULL NULL NULL 4; 301 := Node NULL NULL NULL NULL; 302 := Node NULL NULL NULL NULL ]}.
Definition waits : Wait.state :=
  Wait.State (Heap nodes_ {[ 4 := Header 102 102 1; 8 := Header NULL NULL 0; 12 := Header NULL NULL 0; 20 := Header NULL NULL 0 ]} [])
    {[ 100 := child_task; 300 := parent_task ]} 4 16 100.
Definition child : proc_t := Proc 7 0 0 60 12 1000 1004 NULL 1008 0x20000000.
Definition parent : proc_t := Proc 1 0 0 50 8 1012 1016 NULL 1020 0x20000000.
Definition tree : Tree.state := Tree.State (Tree.Build_tree 2 50) {[ 50 := Tree.Node 300 [60] NULL; 60 := Tree.Node 100 [] 50 ]} [].
Definition demo : kernel Descriptors.demo_world :=
  Kernel {[ 100 := child; 300 := parent ]} waits Release.Demo.both {[ 1008 := Descriptors.demo_fds ]} (Descriptors.nodes Descriptors.demo) (Descriptors.world Descriptors.demo) tree [].
Definition queues : gmap ptr (list ptr) := {[ 8 := []; 12 := [] ]}.

Lemma exit_queues q ps : queues !! q = Some ps -> (q = 8 /\ ps = []) \/ (q = 12 /\ ps = []).
Proof. unfold queues. intros [[<- <-]|[_ [<- <-]%lookup_singleton_Some]]%lookup_insert_Some; [by left|by right]. Qed.

Lemma exit_tasks p : is_Some (tasks waits !! p) -> p = 100 \/ p = 300.
Proof. intros [t Ht]. cbn [waits tasks] in Ht. apply lookup_insert_Some in Ht as [[<- _]|[_ [<- _]%lookup_singleton_Some]]; [by left|by right]. Qed.

Lemma exit_waits : wait_ok 1 2 (fun _ => 0) waits [100] queues.
Proof.
  constructor.
  - constructor; [done|done|by_decide|by_decide|]. repeat split.
  - intros q ps [[-> ->]|[-> ->]]%exit_queues; (constructor; [done|done|by_decide|by_decide|]); repeat split.
  - done.
  - intros p [->%list_elem_of_singleton|(q & ps & [[_ ->]|[_ ->]]%exit_queues & Hp)]; [by eexists|by apply elem_of_nil in Hp|by apply elem_of_nil in Hp].
  - intros p [->| ->]%exit_tasks; (eexists; split; [reflexivity|]; split; [done|]); by left.
  - intros p [->| ->]%exit_tasks; (eexists; split; [reflexivity|]; split; [done|]); [right; by left|by left].
  - intros p [->| ->]%exit_tasks; (do 3 (split; [done|])); intros p' [->| ->]%exit_tasks; done.
  - done.
Qed.

Lemma child_ends : ending 1 2 (fun _ => 0) demo [100] queues 100 child child_task [] [].
Proof.
  constructor; [exact exit_waits|done|done|done|done|constructor; [done|done|constructor|by_decide|done]|done| |intros q []%elem_of_nil|done].
  intros q Hq. cbn [child child_task wait_queue signal_queue] in Hq. rewrite !elem_of_cons, elem_of_nil in Hq. destruct Hq as [->|[->|[]]]; (split; [done|]); intros y [->| ->]%exit_tasks; done.
Qed.

Lemma parent_idle : parent_ok demo queues 100 300 child parent parent_task.
Proof. constructor; try done. exists (Tree.Node 100 [] 50), (Tree.Node 300 [60] NULL). done. Qed.

Lemma child_space : space_ok Release.Demo.both 100 Release.Demo.dirs Release.Demo.rose (Release.Demo.proc 0x1100) (Release.Demo.dir_with 0x2100)
  (Paging.Build_directory Release.Demo.no_tables Release.Demo.no_tables 0 1).
Proof.
  constructor; [exact Release.Demo.both_inv|reflexivity|reflexivity|reflexivity|discriminate|split; reflexivity|reflexivity| |];
    cbn [Paging.tables]; rewrite Release.Demo.own_is; [by_decide|]. constructor; [exact Release.Demo.table_frames|constructor].
Qed.

Lemma task_exit_ends_witness :
  exists s', task_exit 1 2 demo 42 = Ret s' /\ procs s' !! 100 = Some (set_status child 42) /\ tables s' !! 1008 = None /\
    (forall q n, files s' !! q = Some n -> Descriptors.refcount n = -1 \/ Descriptors.refcount n = Descriptors.demo_others q) /\
    Paging.directories (Shm.pg (mem s')) !! 0x1100 = None.
Proof.
  destruct (task_exit_ends 1 2 (fun _ => 0) demo [100] queues 100 child child_task [] [] 300 parent parent_task Release.Demo.dirs Release.Demo.rose (Release.Demo.proc 0x1100)
    (Release.Demo.dir_with 0x2100) (Paging.Build_directory Release.Demo.no_tables Release.Demo.no_tables 0 1) Descriptors.demo_fds Descriptors.demo_others 42
    child_ends ltac:(discriminate) parent_idle child_space eq_refl ltac:(split; reflexivity) Descriptors.table_inv) as (s' & E & Ep & _ & _ & _ & [Ed Hf] & _ & Hdir).
  exists s'. split; [exact E|]. split; [rewrite Ep; apply lookup_insert_eq|]. split; [rewrite Ed; apply lookup_delete_eq|]. split; [exact Hf|]. apply Hdir. cbn [Release.Demo.dir_with Paging.ref_count]. lia.
Defined.

End Demo.

End Exit.
