(* ===== verification/Strftime.v ===== *)
(** * Dates as text ([kernel/src/strftime.c])

    [strftime] goes over its format; each conversion is a call of [sprintf] of
    [kernel/src/kprintf.c] at the place reached so far.  The limit [max] counts the
    characters that are copied from the format, not those that conversions write. *)

From stdpp Require Import base numbers strings list.
From S2P Require Import Prelude CString LocalTime Vsprintf Kprintf.

Module Strftime.
Import LocalTime Vsprintf.

Definition weekdays : list (list Z) :=
  [cstr "Sunday"; cstr "Monday"; cstr "Tuesday"; cstr "Wednesday"; cstr "Thursday"; cstr "Friday"; cstr "Saturday"].
Definition weekdays_short : list (list Z) :=
  [cstr "Sun"; cstr "Mon"; cstr "Tue"; cstr "Wed"; cstr "Thu"; cstr "Fri"; cstr "Sat"].
Definition months : list (list Z) :=
  [cstr "January"; cstr "February"; cstr "March"; cstr "April"; cstr "May"; cstr "June"; cstr "July"; cstr "August";
   cstr "September"; cstr "October"; cstr "November"; cstr "December"].
Definition months_short : list (list Z) :=
  [cstr "Jan"; cstr "Feb"; cstr "Mar"; cstr "Apr"; cstr "May"; cstr "Jun"; cstr "Jul"; cstr "Aug"; cstr "Sep"; cstr "Oct"; cstr "Nov"; cstr "Dec"].

(** The hour of a clock with twelve hours. *)
Definition hour12 (h : Z) : Z := if h =? 0 then 12 else if h =? 12 then 12 else Z.rem h 12.
Definition half (h : Z) (am pm : list Z) : list Z := if h <? 12 then am else pm.

(** The cases of the [switch]: the format and the arguments given to [sprintf]; no call for
    a character that has no case. *)
Definition conversion (c : Z) (tm : tm) : outcome (option (list Z * list arg)) :=
  let year := s32 (tm_year tm + 1900) in
  let mon := s32 (tm_mon tm + 1) in
  let call f a := Ret (Some (cstr f, a)) in
  let name l i := n ← aget l i; Ret (Some (cstr "%s", [AStr (Some n)])) in
  let date := call "%02d/%02d/%02d" [AInt mon; AInt (tm_mday tm); AInt (Z.rem (tm_year tm) 100)] in
  let time := call "%02d:%02d:%02d" [AInt (tm_hour tm); AInt (tm_min tm); AInt (tm_sec tm)] in
  if c =? 97 then name weekdays_short (tm_wday tm)
  else if c =? 65 then name weekdays (tm_wday tm)
  else if (c =? 104) || (c =? 98) then name months_short (tm_mon tm)
  else if c =? 66 then name months (tm_mon tm)
  else if c =? 99 then
    d ← aget weekdays_short (tm_wday tm);
    m ← aget months_short (tm_mon tm);
    call "%s %s %02d %02d:%02d:%02d %04d"
      [AStr (Some d); AStr (Some m); AInt (tm_mday tm); AInt (tm_hour tm); AInt (tm_min tm); AInt (tm_sec tm); AInt year]
  else if c =? 67 then call "%02d" [AInt (Z.quot year 100)]
  else if c =? 100 then call "%02d" [AInt (tm_mday tm)]
  else if c =? 68 then date
  else if c =? 101 then call "%2d" [AInt (tm_mday tm)]
  else if c =? 70 then call "%04d-%02d-%02d" [AInt year; AInt mon; AInt (tm_mday tm)]
  else if c =? 72 then call "%02d" [AInt (tm_hour tm)]
  else if c =? 73 then call "%02d" [AInt (hour12 (tm_hour tm))]
  else if c =? 106 then call "%03d" [AInt (tm_yday tm)]
  else if c =? 107 then call "%2d" [AInt (tm_hour tm)]
  else if c =? 108 then call "%2d" [AInt (hour12 (tm_hour tm))]
  else if c =? 109 then call "%02d" [AInt mon]
  else if c =? 77 then call "%02d" [AInt (tm_min tm)]
  else if c =? 110 then Ret (Some ([10], []))
  else if c =? 112 then call "%s" [AStr (Some (half (tm_hour tm) (cstr "AM") (cstr "PM")))]
  else if c =? 80 then call "%s" [AStr (Some (half (tm_hour tm) (cstr "am") (cstr "pm")))]
  else if c =? 114 then
    call "%02d:%02d:%02d %s"
      [AInt (hour12 (tm_hour tm)); AInt (tm_min tm); AInt (tm_sec tm); AStr (Some (half (tm_hour tm) (cstr "AM") (cstr "PM")))]
  else if c =? 82 then call "%02d:%02d" [AInt (tm_hour tm); AInt (tm_min tm)]
  else if c =? 83 then call "%02d" [AInt (tm_sec tm)]
  else if c =? 116 then Ret (Some ([9], []))
  else if c =? 84 then time
  else if c =? 117 then call "%d" [AInt (if tm_wday tm =? 0 then 7 else tm_wday tm)]
  else if c =? 119 then call "%d" [AInt (tm_wday tm)]
  else if c =? 120 then date
  else if c =? 88 then time
  else if c =? 121 then call "%02d" [AInt (Z.rem (tm_year tm) 100)]
  else if c =? 89 then call "%04d" [AInt year]
  else if c =? 122 then call "+0000" []
  else if c =? 90 then call "UTC" []
  else if c =? 37 then call "%c" [AInt 37]
  else if (c =? 86) || (c =? 87) || (c =? 115) || (c =? 85) || (c =? 71) || (c =? 103) then call "<%c unsupported>" [AInt c]
  else Ret None.

(** The modifier after a percent sign is skipped. *)
Definition modifier (f : list Z) : list Z :=
  match f with c :: f' => if (c =? 69) || (c =? 48) then f' else f | [] => [] end.

(** The loop over the format.  [Stopped] is the return in the middle, without a terminator.
    At the end of the format after a percent sign the loop would go on behind the
    terminator. *)
Inductive progress := Finished (m : Z -> Z) (b : Z) | Stopped (m : Z -> Z) (b : Z).

Fixpoint strftime_loop (fuel : nat) (m : Z -> Z) (b count max : Z) (f : list Z) (tm : tm) : outcome progress :=
  match fuel with
  | O => OutOfFuel
  | S fuel' =>
      match f with
      | [] => Ret (Finished m b)
      | c :: f' =>
          if negb (c =? 37) then
            let count := s32 (count + 1) in
            let m := poke m b c in
            let b := b + 1 in
            if count =? max then Ret (Stopped m b) else strftime_loop fuel' m b count max f' tm
          else
            match modifier f' with
            | [] => Fault
            | c :: f' =>
                call ← conversion c tm;
                match call with
                | Some (fmt, args) => '(n, m) ← Kprintf.sprintf m b fmt args; strftime_loop fuel' m (b + n) count max f' tm
                | None => strftime_loop fuel' m b count max f' tm
                end
            end
      end
  end.

Definition strftime (m : Z -> Z) (s max : Z) (fmt : list Z) (tm : tm) : outcome ((Z -> Z) * Z) :=
  r ← strftime_loop (S (length fmt)) m s 0 max fmt tm;
  match r with
  | Finished m b => Ret (poke m b 0, s32 (b - s))
  | Stopped m b => Ret (m, s32 (b - s))
  end.

(** [output] has 26 bytes. *)
Definition asctime (m : Z -> Z) (output : Z) (tm : tm) : outcome (Z -> Z) :=
  '(m, _) ← strftime m output 26 (cstr "%a %b %d %T %Y" ++ [10]) tm; Ret m.

(** ** The text of a date *)

Fixpoint text_loop (fuel : nat) (f : list Z) (tm : tm) : outcome (list Z) :=
  match fuel with
  | O => OutOfFuel
  | S fuel' =>
      match f with
      | [] => Ret []
      | c :: f' =>
          if negb (c =? 37) then cs ← text_loop fuel' f' tm; Ret (c :: cs)
          else
            match modifier f' with
            | [] => Fault
            | c :: f' =>
                call ← conversion c tm;
                cs ← (match call with Some (fmt, args) => Kprintf.text fmt args | None => Ret [] end);
                ds ← text_loop fuel' f' tm;
                Ret (cs ++ ds)
            end
      end
  end.

Definition date_text (fmt : list Z) (tm : tm) : outcome (list Z) := text_loop (S (length fmt)) fmt tm.

(** The characters of the format that are copied. *)
Fixpoint literals (fuel : nat) (f : list Z) : Z :=
  match fuel with
  | O => 0
  | S fuel' =>
      match f with
      | [] => 0
      | c :: f' => if negb (c =? 37) then 1 + literals fuel' f' else literals fuel' (drop 1 (modifier f'))
      end
  end.

Abbreviation len := Vsprintf.len.

Lemma literals_nonneg fuel f : 0 <= literals fuel f.
Proof. revert f. induction fuel as [|fuel IH]; intros f; cbn [literals]; [lia|]. destruct f as [|c f]; [lia|]. destruct (negb _); [specialize (IH f); lia|apply IH]. Qed.

Lemma modifier_length f : (length (modifier f) <= length f)%nat.
Proof. destruct f as [|c f]; cbn; [lia|]. destruct (_ || _); cbn; lia. Qed.

(** Two steps, the first of which has also written the byte after its text. *)
Lemma splice_loose m m1 m2 b cs ds :
  (forall x, x <> b + len cs -> m1 x = Kprintf.splice m b cs x) -> (forall x, x <> b + len cs + len ds -> m2 x = Kprintf.splice m1 (b + len cs) ds x) ->
  forall x, x <> b + len (cs ++ ds) -> m2 x = Kprintf.splice m b (cs ++ ds) x.
Proof.
  intros H1 H2 x Hx. rewrite Vsprintf.len_app in Hx. rewrite H2 by lia. rewrite <- Kprintf.splice_app.
  assert (0 <= len ds) by (unfold Vsprintf.len; lia). destruct (decide (b + len cs <= x < b + len cs + len ds)) as [Hin|Hout].
  - unfold Kprintf.splice at 1. rewrite (proj2 (Z.leb_le _ _)), (proj2 (Z.ltb_lt _ _)) by lia. symmetry. unfold Kprintf.splice at 1. by rewrite (proj2 (Z.leb_le _ _)), (proj2 (Z.ltb_lt _ _)) by lia.
  - assert (forall f, Kprintf.splice f (b + len cs) ds x = f x) as Hs by (intros f; unfold Kprintf.splice; destruct (Z.leb_spec (b + len cs) x), (Z.ltb_spec x (b + len cs + len ds)); done || (exfalso; lia)).
    rewrite !Hs. apply H1. lia.
Qed.

Lemma sprintf_ok m b fmt args cs : Kprintf.text fmt args = Ret cs -> len cs < 2147483648 ->
  exists m', Kprintf.sprintf m b fmt args = Ret (len cs, m') /\ forall x, x <> b + len cs -> m' x = Kprintf.splice m b cs x.
Proof.
  intros E Hl. pose proof (Kprintf.vasprintf_writes m b fmt args) as Hw. rewrite E in Hw. destruct Hw as (m' & Em & Hm). exists m'. unfold Kprintf.sprintf. rewrite Em, s32_small by (unfold len, Vsprintf.len in *; lia).
  split; [done|]. intros x Hx. rewrite Hm. by rewrite (proj2 (Z.eqb_neq _ _) Hx).
Qed.

Lemma strftime_loop_ok fuel : forall m b count max f tm cs,
  text_loop fuel f tm = Ret cs -> len cs < 2147483648 -> 0 <= count -> count + literals fuel f < max -> max < 2147483648 ->
  exists m', strftime_loop fuel m b count max f tm = Ret (Finished m' (b + len cs)) /\ forall x, x <> b + len cs -> m' x = Kprintf.splice m b cs x.
Proof.
  induction fuel as [|fuel IH]; intros m b count max f tm cs; cbn [text_loop strftime_loop literals]; [done|]. destruct f as [|c f].
  { intros [= <-] _ _ _ _. exists m. rewrite Z.add_0_r. split; [done|]. intros x _. by rewrite Kprintf.splice_nil. }
  destruct (negb (c =? 37)).
  - destruct (text_loop fuel f tm) as [ds| |] eqn:E; cbn [mbind outcome_bind]; try done. intros [= <-] Hl H0 Hc Hm. change (c :: ds) with ([c] ++ ds) in *. rewrite Vsprintf.len_app in *. change (len [c]) with 1 in *.
    pose proof (literals_nonneg fuel f). rewrite s32_small by lia. destruct (Z.eqb_spec (count + 1) max); [lia|].
    destruct (IH (poke m b c) (b + 1) (count + 1) max f tm ds E) as (m' & -> & Hm'); [unfold len, Vsprintf.len in *; lia|lia|lia|lia|].
    exists m'. rewrite Z.add_assoc. split; [done|]. intros x Hx. apply (splice_loose m (poke m b c)); [intros y _; by rewrite Kprintf.splice_one|exact Hm'|]. rewrite Vsprintf.len_app. change (len [c]) with 1. lia.
  - destruct (modifier f) as [|c' f'] eqn:Ef; [done|]. change (drop 1 (c' :: f')) with f'. destruct (conversion c' tm) as [call| |]; cbn [mbind outcome_bind]; try done.
    destruct call as [[fmt args]|].
    + destruct (Kprintf.text fmt args) as [ds| |] eqn:Et; cbn [mbind outcome_bind]; try done. destruct (text_loop fuel f' tm) as [es| |] eqn:E; cbn [mbind outcome_bind]; try done.
      intros [= <-] Hl H0 Hc Hm. rewrite Vsprintf.len_app in *. assert (0 <= len ds /\ 0 <= len es) by (unfold len, Vsprintf.len; lia).
      destruct (sprintf_ok m b fmt args ds Et) as (m1 & -> & Hm1); [lia|]. cbn [mbind outcome_bind]. destruct (IH m1 (b + len ds) count max f' tm es E) as (m' & -> & Hm'); [lia|lia|lia|lia|].
      exists m'. rewrite Z.add_assoc. split; [done|]. intros x Hx. apply (splice_loose m m1); [done|done|]. rewrite Vsprintf.len_app. lia.
    + cbn [mbind outcome_bind]. destruct (text_loop fuel f' tm) as [es| |] eqn:E; cbn [mbind outcome_bind app]; try done. intros [= <-]. by apply IH.
Qed.

(** As long as the format copies fewer than [max] characters, [strftime] stores the text of
    the date and a terminator, changes no other byte, and returns the length of the text;
    this holds however long the text is, so conversions write past [max] bytes. *)
Lemma strftime_ok m s max fmt tm cs :
  date_text fmt tm = Ret cs -> len cs < 2147483648 -> literals (S (length fmt)) fmt < max < 2147483648 ->
  exists m', strftime m s max fmt tm = Ret (m', len cs) /\ forall x, m' x = if x =? s + len cs then 0 else Kprintf.splice m s cs x.
Proof.
  intros E Hl Hm. unfold strftime. destruct (strftime_loop_ok _ m s 0 max fmt tm cs E Hl) as (m' & -> & Hm'); [lia|lia|lia|]. cbn [mbind outcome_bind].
  eexists. rewrite s32_small by (unfold len, Vsprintf.len in *; lia). split; [do 2 f_equal; lia|]. intros x. unfold poke. destruct (Z.eqb_spec x (s + len cs)); [done|by apply Hm'].
Qed.

(** ** The date of [asctime] *)

Definition two (v : Z) : list Z := [48 + v / 10; 48 + v mod 10].
Definition four (v : Z) : list Z := two (v / 100) ++ two (v mod 100).

Lemma all_below (P : Z -> bool) (n : nat) : forallb P (seqZ 0 (Z.of_nat n)) = true -> forall v, 0 <= v < Z.of_nat n -> P v = true.
Proof. intros Hall v Hv. rewrite forallb_forall in Hall. apply Hall. apply list_elem_of_In. apply elem_of_seqZ. lia. Qed.

Definition prints (width : Z) (t : list Z) (v : Z) : bool := match Kprintf.dec_text v width with Ret cs => bool_decide (cs = t) | _ => false end.

Lemma prints_eq width t v : prints width t v = true -> Kprintf.dec_text v width = Ret t.
Proof. unfold prints. destruct (Kprintf.dec_text v width) as [cs| |]; try done. by intros ->%bool_decide_eq_true. Qed.

Lemma dec_two v : 0 <= v < 100 -> Kprintf.dec_text (u32 v) 2 = Ret (two v).
Proof. intros Hv. rewrite u32_small by lia. apply prints_eq. apply (all_below (fun v => prints 2 (two v) v) 100); [vm_compute; reflexivity|lia]. Qed.

Lemma dec_four v : 0 <= v < 10000 -> Kprintf.dec_text (u32 v) 4 = Ret (four v).
Proof. intros Hv. rewrite u32_small by lia. apply prints_eq. apply (all_below (fun v => prints 4 (four v) v) (Z.to_nat 10000)); [vm_compute; reflexivity|lia]. Qed.

(** One step of the text of a format: a character, a number. *)
Lemma step_char fuel c f args cs : c <> 37 -> Kprintf.text_loop fuel f args = Ret cs -> Kprintf.text_loop (S fuel) (c :: f) args = Ret (c :: cs).
Proof. intros Hc E. cbn [Kprintf.text_loop]. rewrite (proj2 (Z.eqb_neq _ _) Hc). cbn [negb]. by rewrite E. Qed.

Lemma step_number fuel f f' args v width cs ds : Kprintf.get_width f 0 = (width, 100 :: f') -> Kprintf.dec_text (u32 v) width = Ret cs -> Kprintf.text_loop fuel f' args = Ret ds ->
  Kprintf.text_loop (S fuel) (37 :: f) (AInt v :: args) = Ret (cs ++ ds).
Proof. intros Ew Ed E. cbn [Kprintf.text_loop]. change (negb (37 =? 37)) with false. cbn iota. unfold Kprintf.convert_text. rewrite Ew. cbn [Z.eqb Pos.eqb va_int mbind outcome_bind]. rewrite Ed. cbn [mbind outcome_bind]. by rewrite E. Qed.

Lemma text_two v : 0 <= v < 100 -> Kprintf.text (cstr "%02d") [AInt v] = Ret (two v).
Proof.
  intros Hv. unfold Kprintf.text. change (cstr "%02d") with [37; 48; 50; 100]. rewrite <- (app_nil_r (two v)). eapply step_number; [reflexivity|by apply dec_two|reflexivity].
Qed.

Lemma text_four v : 0 <= v < 10000 -> Kprintf.text (cstr "%04d") [AInt v] = Ret (four v).
Proof.
  intros Hv. unfold Kprintf.text. change (cstr "%04d") with [37; 48; 52; 100]. rewrite <- (app_nil_r (four v)). eapply step_number; [reflexivity|by apply dec_four|reflexivity].
Qed.

Lemma text_time h m s : 0 <= h < 100 -> 0 <= m < 100 -> 0 <= s < 100 ->
  Kprintf.text (cstr "%02d:%02d:%02d") [AInt h; AInt m; AInt s] = Ret (two h ++ [58] ++ two m ++ [58] ++ two s).
Proof.
  intros Hh Hm Hs. unfold Kprintf.text. change (cstr "%02d:%02d:%02d") with [37; 48; 50; 100; 58; 37; 48; 50; 100; 58; 37; 48; 50; 100].
  eapply step_number; [reflexivity|by apply dec_two|]. apply step_char; [done|]. eapply step_number; [reflexivity|by apply dec_two|]. apply step_char; [done|].
  rewrite <- (app_nil_r (two s)). eapply step_number; [reflexivity|by apply dec_two|reflexivity].
Qed.

Lemma text_name n : Kprintf.text (cstr "%s") [AStr (Some n)] = Ret n.
Proof. unfold Kprintf.text. change (cstr "%s") with [37; 115]. rewrite <- (app_nil_r n) at 2. reflexivity. Qed.

(** One step of the text of a date. *)
Lemma step_literal fuel c f tm cs : c <> 37 -> text_loop fuel f tm = Ret cs -> text_loop (S fuel) (c :: f) tm = Ret ([c] ++ cs).
Proof. intros Hc E. cbn [text_loop]. rewrite (proj2 (Z.eqb_neq _ _) Hc). cbn [negb]. by rewrite E. Qed.

Lemma step_field fuel f c f' tm fmt args cs ds : modifier f = c :: f' -> conversion c tm = Ret (Some (fmt, args)) -> Kprintf.text fmt args = Ret cs -> text_loop fuel f' tm = Ret ds ->
  text_loop (S fuel) (37 :: f) tm = Ret (cs ++ ds).
Proof. intros Em Ec Et E. cbn [text_loop]. change (negb (37 =? 37)) with false. cbn iota. rewrite Em, Ec. cbn [mbind outcome_bind]. rewrite Et. cbn [mbind outcome_bind]. by rewrite E. Qed.

(** The fields of a date are in their ranges. *)
Record valid_tm (tm : tm) : Prop := {
  v_sec : 0 <= tm_sec tm <= 60; v_min : 0 <= tm_min tm < 60; v_hour : 0 <= tm_hour tm < 24; v_mday : 1 <= tm_mday tm <= 31;
  v_mon : 0 <= tm_mon tm < 12; v_year : 0 <= tm_year tm < 8100; v_wday : 0 <= tm_wday tm < 7
}.

Definition asctime_text (tm : tm) (day month : list Z) : list Z :=
  day ++ [32] ++ month ++ [32] ++ two (tm_mday tm) ++ [32] ++ (two (tm_hour tm) ++ [58] ++ two (tm_min tm) ++ [58] ++ two (tm_sec tm)) ++ [32] ++ four (tm_year tm + 1900) ++ [10].

Lemma asctime_date tm day month : valid_tm tm -> aget weekdays_short (tm_wday tm) = Ret day -> aget months_short (tm_mon tm) = Ret month ->
  date_text (cstr "%a %b %d %T %Y" ++ [10]) tm = Ret (asctime_text tm day month).
Proof.
  intros [Hs Hm Hh Hd Hmo Hy Hw] Eday Emon. unfold date_text, asctime_text. change (cstr "%a %b %d %T %Y" ++ [10]) with [37; 97; 32; 37; 98; 32; 37; 100; 32; 37; 84; 32; 37; 89; 10].
  eapply step_field; [reflexivity|unfold conversion; cbn [Z.eqb Pos.eqb orb]; rewrite Eday; reflexivity|apply text_name|]. apply step_literal; [done|].
  eapply step_field; [reflexivity|unfold conversion; cbn [Z.eqb Pos.eqb orb]; rewrite Emon; reflexivity|apply text_name|]. apply step_literal; [done|].
  eapply step_field; [reflexivity|reflexivity|apply text_two; lia|]. apply step_literal; [done|]. eapply step_field; [reflexivity|reflexivity|apply text_time; lia|]. apply step_literal; [done|].
  eapply step_field; [reflexivity|reflexivity|rewrite s32_small by lia; apply text_four; lia|]. rewrite <- (app_nil_r [10]). by apply step_literal.
Qed.

(** C36: [asctime] of a valid date of the years 1900 to 9999 fills its buffer of 26 bytes exactly: the name of the day and of
    the month, the day, the time and the year in 25 characters and the terminator; no byte
    outside the buffer is written. *)
Theorem asctime_fits m output tm : valid_tm tm ->
  exists m' day month, asctime m output tm = Ret m' /\ weekdays_short !! Z.to_nat (tm_wday tm) = Some day /\ months_short !! Z.to_nat (tm_mon tm) = Some month /\
    len (asctime_text tm day month) = 25 /\ m' (output + 25) = 0 /\
    (forall x, output <= x < output + 25 -> m' x = nth (Z.to_nat (x - output)) (asctime_text tm day month) 0) /\
    (forall x, x < output \/ output + 26 <= x -> m' x = m x).
Proof.
  intros Hv. pose proof Hv as [Hs Hm Hh Hd Hmo Hy Hw].
  destruct (aget_in_range weekdays_short (tm_wday tm)) as (day & Hday & Eday); [cbn; lia|]. destruct (aget_in_range months_short (tm_mon tm)) as (month & Hmonth & Emon); [cbn; lia|].
  pose proof (asctime_date tm day month Hv Eday Emon) as Ed.
  assert (length day = 3%nat) as Ld. { apply list_elem_of_lookup_2 in Hday. revert Hday. apply (proj1 (Forall_forall (fun l => length l = 3%nat) weekdays_short)). repeat constructor. }
  assert (length month = 3%nat) as Lm. { apply list_elem_of_lookup_2 in Hmonth. revert Hmonth. apply (proj1 (Forall_forall (fun l => length l = 3%nat) months_short)). repeat constructor. }
  assert (len (asctime_text tm day month) = 25) as Hlen. { unfold Vsprintf.len, asctime_text, four, two. rewrite !length_app, Ld, Lm. done. }
  destruct (strftime_ok m output 26 _ tm _ Ed) as (m' & E & Hm'); [lia|split; [vm_compute; reflexivity|lia]|]. rewrite Hlen in *. exists m', day, month. split; [unfold asctime; by rewrite E|].
  do 3 (split; [done|]). split; [rewrite Hm', Z.eqb_refl; done|]. unfold Kprintf.splice in Hm'. rewrite Hlen in Hm'. split; intros x Hx; rewrite Hm'.
  - destruct (Z.eqb_spec x (output + 25)); [lia|]. by rewrite (proj2 (Z.leb_le _ _)), (proj2 (Z.ltb_lt _ _)) by lia.
  - destruct (Z.eqb_spec x (output + 25)); [lia|]. destruct (Z.leb_spec output x), (Z.ltb_spec x (output + 25)); done || (exfalso; lia).
Qed.

(** The epoch: Thu Jan 01 00:00:00 1970. *)
Lemma asctime_fits_witness : exists m' day month, asctime (fun _ => 7) 100 (Build_tm 0 0 0 1 0 70 4 0 0) = Ret m' /\ weekdays_short !! 4%nat = Some day /\ months_short !! 0%nat = Some month /\
  m' 125 = 0 /\ m' 126 = 7.
Proof.
  destruct (asctime_fits (fun _ => 7) 100 (Build_tm 0 0 0 1 0 70 4 0 0)) as (m' & day & month & E & Hd & Hm & _ & Hz & _ & Ho).
  - constructor; cbn; lia.
  - exists m', day, month. split; [exact E|]. split; [exact Hd|]. split; [exact Hm|]. split; [exact Hz|]. apply Ho. lia.
Defined.

End Strftime.
