(* ===== verification/Args.v ===== *)
(** * The arguments of the kernel ([kernel/src/args.c])

    The command line is split at its blanks; each word is a name, or a name and a value
    with a [=] between them.  The words are copied, and the table holds addresses of the
    values inside the copies. *)

From stdpp Require Import base gmap numbers strings list.
From S2P Require Import Prelude CString LinkedList Hashmap.

Module Args.
Import Hashmap.

(** Memory for a copy of a string. *)
Class StrAlloc := {
  new_str : gmap ptr (list Z) -> ptr;
  new_str_fresh m : m !! new_str m = None;
  new_str_pos m : 0 < new_str m
}.

(** [blocks] are the copies by their first address. *)
Record state := State { kernel_args_map : option (hashmap_t cstring); blocks : gmap ptr (list Z) }.

Definition args_present (s : state) (karg : cstring) : outcome Z :=
  match kernel_args_map s with None => Ret 0 | Some m => hashmap_has m karg end.

Definition args_value (s : state) (karg : cstring) : outcome ptr :=
  match kernel_args_map s with None => Ret NULL | Some m => hashmap_get m karg end.

(** The search of the first [=]: what is before it and, when there is one, what follows. *)
Fixpoint cut (v : cstring) : cstring * option cstring :=
  match v with
  | [] => ([], None)
  | c :: v' => if c =? 61 then ([], Some v') else let '(name, value) := cut v' in (c :: name, value)
  end.

(** The body of the loop over the words: the [=] becomes a terminator. *)
Definition set_arg `{StrAlloc} (m : hashmap_t cstring) (bs : gmap ptr (list Z)) (word : cstring) : outcome (hashmap_t cstring * gmap ptr (list Z)) :=
  let c := new_str bs in
  let '(name, value) := cut word in
  let '(block, v) := match value with
                     | Some x => (name ++ 0 :: x ++ [0], c + strlen name + 1)
                     | None => (word ++ [0], NULL)
                     end in
  '(m, _) ← hashmap_set m name v;
  Ret (m, <[c := block]> bs).

Fixpoint set_args `{StrAlloc} (m : hashmap_t cstring) (bs : gmap ptr (list Z)) (argv : list cstring) : outcome (hashmap_t cstring * gmap ptr (list Z)) :=
  match argv with
  | [] => Ret (m, bs)
  | word :: argv' => '(m, bs) ← set_arg m bs word; set_args m bs argv'
  end.

(** [argv] has 1024 elements, and the words are followed by [NULL].  The copy [arg] of the whole line is freed at the end. *)
Definition args_parse `{StrAlloc} (s : state) (_arg : option cstring) : outcome state :=
  match _arg with
  | None => Ret s
  | Some line =>
      let argv := tokenize line 32 in
      if 1024 <=? Z.of_nat (length argv) then Fault
      else
        let m := default (hashmap_create 10) (kernel_args_map s) in
        '(m, bs) ← set_args m (blocks s) argv;
        Ret (State (Some m) bs)
  end.

(** ** What the words say *)

Definition setting (g : gmap cstring (option cstring)) (word : cstring) : gmap cstring (option cstring) := <[(cut word).1 := (cut word).2]> g.
Definition settings (argv : list cstring) : gmap cstring (option cstring) := foldl setting ∅ argv.

(** The string [x] is at address [p]. *)
Definition text_at (bs : gmap ptr (list Z)) (p : ptr) (x : cstring) : Prop :=
  exists a b rest, bs !! a = Some b /\ a <= p /\ drop (Z.to_nat (p - a)) b = x ++ 0 :: rest.

Definition value_at (bs : gmap ptr (list Z)) (p : ptr) (v : option cstring) : Prop :=
  match v with None => p = NULL | Some x => p <> NULL /\ text_at bs p x end.

(** The table stands for the settings. *)
Record stands (m : hashmap_t cstring) (bs : gmap ptr (list Z)) (g : gmap cstring (option cstring)) : Prop := {
  st_inv : inv m;
  st_dom k : is_Some (abs m !! k) <-> is_Some (g !! k);
  st_value k p v : abs m !! k = Some p -> g !! k = Some v -> value_at bs p v
}.

Section Parsing.
Context `{StrAlloc}.

Lemma text_at_more bs c b p x : bs !! c = None -> text_at bs p x -> text_at (<[c := b]> bs) p x.
Proof. intros Hc (a & b' & rest & Ha & Hp). exists a, b', rest. split; [|done]. rewrite lookup_insert_ne; [done|]. intros ->. congruence. Qed.

Lemma cut_ok word : cstring_ok word -> cstring_ok (cut word).1.
Proof.
  induction word as [|c word IH]; cbn [cut]; [by constructor|]. intros [Hc Hw]%Forall_cons. destruct (c =? 61); [by constructor|].
  destruct (cut word) as [name value]. constructor; [done|by apply IH].
Qed.

Lemma set_arg_ok m bs g word : stands m bs g -> cstring_ok word ->
  exists m' bs', set_arg m bs word = Ret (m', bs') /\ stands m' bs' (setting g word).
Proof.
  intros [Hi Hd Hv] Hw. unfold set_arg, setting. pose proof (cut_ok word Hw) as Hk. destruct (cut word) as [name value]. cbn [fst snd] in *.
  pose proof (new_str_fresh bs) as Hc. pose proof (new_str_pos bs) as Hc0. set (c := new_str bs) in *.
  assert (exists block v, match value with Some x => (name ++ 0 :: x ++ [0], c + strlen name + 1) | None => (word ++ [0], NULL) end = (block, v) /\
    value_at (<[c := block]> bs) v value) as (block & v & -> & Hval).
  { destruct value as [x|]; eexists _, _; (split; [reflexivity|]); [|done]. split; [unfold strlen, NULL; lia|]. exists c, (name ++ 0 :: x ++ [0]), []. split; [apply lookup_insert_eq|].
    split; [unfold strlen; lia|]. replace (Z.to_nat (c + strlen name + 1 - c)) with (S (length name)) by (unfold strlen; lia).
    rewrite drop_app_ge by lia. replace (S (length name) - length name)%nat with 1%nat by lia. done. }
  destruct (hashmap_set_ok m name v Hi Hk) as (m' & -> & Hi' & Ha). cbn [mbind outcome_bind]. eexists _, _. split; [done|]. constructor; [done| |].
  - intros k. rewrite Ha. rewrite !lookup_insert_is_Some. rewrite Hd. done.
  - intros k p u Hp Hu. rewrite Ha in Hp. apply lookup_insert_Some in Hp as [[<- <-]|[Hne Hp]].
    + rewrite lookup_insert_eq in Hu. injection Hu as <-. exact Hval.
    + rewrite lookup_insert_ne in Hu by done. pose proof (Hv k p u Hp Hu) as Hx. destruct u as [x|]; [|done]. destruct Hx as [Hx1 Hx2]. split; [done|by apply text_at_more].
Qed.

Lemma set_args_ok argv : forall m bs g, stands m bs g -> Forall cstring_ok argv ->
  exists m' bs', set_args m bs argv = Ret (m', bs') /\ stands m' bs' (foldl setting g argv).
Proof.
  induction argv as [|word argv IH]; intros m bs g Hs Hall; cbn [set_args foldl]; [by exists m, bs|]. apply Forall_cons in Hall as [Hw Hall].
  destruct (set_arg_ok m bs g word Hs Hw) as (m' & bs' & -> & Hs'). cbn [mbind outcome_bind]. by apply IH.
Qed.

(** After the command line was parsed, a name is present exactly if a word of the line has it,
    and the value of a name is that of the last such word: the address of a copy of
    the text after the first [=], or [NULL] for a word without one. *)
Theorem args_parse_settings line bs : cstring_ok line -> Z.of_nat (length (tokenize line 32)) < 1024 ->
  exists s, args_parse (State None bs) (Some line) = Ret s /\
    forall k, cstring_ok k ->
      args_present s k = Ret (b2z (bool_decide (is_Some (settings (tokenize line 32) !! k)))) /\
      exists p, args_value s k = Ret p /\ value_at (blocks s) p (default None (settings (tokenize line 32) !! k)).
Proof.
  intros Hl Hn. unfold args_parse. destruct (Z.leb_spec 1024 (Z.of_nat (length (tokenize line 32)))); [lia|]. cbn [kernel_args_map default blocks].
  destruct (create_inv (K := cstring) 10 ltac:(lia)) as [Hi Ha].
  assert (stands (hashmap_create 10) bs ∅) as Hs0.
  { constructor; [done| |]; [intros k; rewrite Ha, !lookup_empty; done|]. intros k p v. by rewrite Ha, lookup_empty. }
  destruct (set_args_ok (tokenize line 32) _ bs ∅ Hs0 (tokenize_cstring_ok _ 32 Hl)) as (m & bs' & -> & [Hi' Hd Hv]). cbn [mbind outcome_bind]. eexists. split; [done|].
  intros k Hk. unfold args_present, args_value. cbn [kernel_args_map blocks]. destruct (hashmap_get_refines m k Hi' Hk) as [-> ->]. fold (settings (tokenize line 32)) in *. split.
  - do 2 f_equal. apply bool_decide_ext, Hd.
  - eexists. split; [done|]. destruct (abs m !! k) as [p|] eqn:Ep; cbn [default].
    + destruct (proj1 (Hd k)) as [v Hk']; [by rewrite Ep|]. rewrite Hk'. cbn [default]. by apply (Hv k).
    + destruct (settings _ !! k) eqn:Es; [|done]. destruct (proj2 (Hd k)) as [q Hq]; [by rewrite Es|congruence].
Qed.

End Parsing.

(** ** Witnesses *)

Module Demo.

Definition top (l : list ptr) : Z := foldr Z.max 0 l.

Lemma top_max l x : x ∈ l -> x <= top l.
Proof. induction l as [|y l IH]; [by intros ?%elem_of_nil|]. intros [->|Hx]%elem_of_cons; cbn; [lia|]. specialize (IH Hx). fold (top l). lia. Qed.

#[export] Program Instance next_str : StrAlloc := {| new_str m := 1 + top (map_to_list m).*1 |}.
Next Obligation.
  intros m. destruct (m !! (1 + top (map_to_list m).*1)) as [b|] eqn:E; [|done]. exfalso.
  assert (1 + top (map_to_list m).*1 ∈ (map_to_list m).*1) as Hin%top_max; [|lia]. apply list_elem_of_fmap. eexists (_, b). split; [done|by apply elem_of_map_to_list].
Qed.
Next Obligation. intros m. enough (0 <= top (map_to_list m).*1) by lia. generalize (map_to_list m).*1. intros l. induction l; cbn; [lia|]. fold (top l). lia. Qed.

Lemma args_parse_settings_witness :
  exists s p, args_parse (State None ∅) (Some (cstr "root=/dev/hda quiet root=/dev/hdb")) = Ret s /\
    args_present s (cstr "quiet") = Ret 1 /\ args_value s (cstr "quiet") = Ret NULL /\ args_value s (cstr "root") = Ret p /\ text_at (blocks s) p (cstr "/dev/hdb").
Proof.
  destruct (args_parse_settings (cstr "root=/dev/hda quiet root=/dev/hdb") ∅) as (s & E & Hk); [by_decide|by vm_compute|].
  destruct (Hk (cstr "quiet")) as (E1 & p1 & E2 & H2); [by_decide|]. destruct (Hk (cstr "root")) as (_ & p & E3 & _ & H3); [by_decide|].
  exists s, p. split; [exact E|]. split; [exact E1|]. split; [rewrite E2; f_equal; exact H2|]. split; [exact E3|exact H3].
Defined.

End Demo.

End Args.
