(* ===== verification/Kutils.v ===== *)
(** * Memory and string routines ([kernel/src/kutils.c])

    The routines as the code has them, on a memory of bytes: copying by words, moving
    between ranges that overlap, searching a word at a time, sets of characters as
    bit maps, and the tokenizer that writes terminators into its string.  Each is shown
    to do what its plain definition says; the file [CString] has those definitions for
    the string functions that other parts use. *)

From stdpp Require Import base numbers list.
From S2P Require Import Prelude CString Frames.

Module Kutils.

(** A memory; every cell holds a byte. *)
Definition bytes_ok (m : Z -> Z) : Prop := forall x, 0 <= m x < 256.
Definition put8 (m : Z -> Z) (a v : Z) : Z -> Z := fun x => if x =? a then v else m x.

(** Words, low byte first. *)
Definition get32 (m : Z -> Z) (a : Z) : Z := m a + 256 * m (a + 1) + 65536 * m (a + 2) + 16777216 * m (a + 3).
Definition put32 (m : Z -> Z) (a v : Z) : Z -> Z :=
  put8 (put8 (put8 (put8 m a (v mod 256)) (a + 1) (v / 256 mod 256)) (a + 2) (v / 65536 mod 256)) (a + 3) (v / 16777216 mod 256).

(** ** Copying and filling *)

(** [for (i=0;i<num_dwords;i++) dest32[i] = src32[i]], and the same for bytes. *)
Fixpoint copy32 (m : Z -> Z) (dest src i : Z) (todo : nat) : Z -> Z :=
  match todo with
  | O => m
  | S todo' => copy32 (put32 m (dest + 4 * i) (get32 m (src + 4 * i))) dest src (i + 1) todo'
  end.
Fixpoint copy8 (m : Z -> Z) (dest src i : Z) (todo : nat) : Z -> Z :=
  match todo with
  | O => m
  | S todo' => copy8 (put8 m (dest + i) (m (src + i))) dest src (i + 1) todo'
  end.

Definition memcpy (m : Z -> Z) (dest src n : Z) : Z -> Z :=
  let num_dwords := u32 (Z.quot n 4) in
  let num_bytes := u32 (Z.rem n 4) in
  let m := copy32 m dest src 0 (Z.to_nat num_dwords) in
  copy8 m (dest + num_dwords * 4) (src + num_dwords * 4) 0 (Z.to_nat num_bytes).

Fixpoint fill32 (m : Z -> Z) (dest val i : Z) (todo : nat) : Z -> Z :=
  match todo with O => m | S todo' => fill32 (put32 m (dest + 4 * i) val) dest val (i + 1) todo' end.
Fixpoint fill8 (m : Z -> Z) (dest val i : Z) (todo : nat) : Z -> Z :=
  match todo with O => m | S todo' => fill8 (put8 m (dest + i) val) dest val (i + 1) todo' end.

Definition memset (m : Z -> Z) (dest val n : Z) : Z -> Z :=
  let num_dwords := u32 (Z.quot n 4) in
  let num_bytes := u32 (Z.rem n 4) in
  let val8 := u8 val in
  let val32 := u32 (Z.lor (Z.lor (Z.lor val (s32 (Z.shiftl val 8))) (s32 (Z.shiftl val 16))) (s32 (Z.shiftl val 24))) in
  let m := fill32 m dest val32 0 (Z.to_nat num_dwords) in
  fill8 m (dest + num_dwords * 4) val8 0 (Z.to_nat num_bytes).

(** ** Moving between ranges that overlap *)

(** [while ((uintptr_t)d % sizeof(size_t))]: bytes up to the next word.  The flag says that
    none were left, which ends the call. *)
Fixpoint align_up (fuel : nat) (m : Z -> Z) (d s n : Z) : outcome ((Z -> Z) * Z * Z * Z * bool) :=
  if d mod 4 =? 0 then Ret (m, d, s, n, false)
  else if n =? 0 then Ret (m, d, s, n, true)
  else match fuel with
       | O => OutOfFuel
       | S fuel' => align_up fuel' (put8 m d (m s)) (d + 1) (s + 1) (n - 1)
       end.

(** [for (; n >= sizeof(size_t); ...)] and [for (; n; n--)]. *)
Fixpoint words_up (fuel : nat) (m : Z -> Z) (d s n : Z) : outcome ((Z -> Z) * Z * Z * Z) :=
  if 4 <=? n then
    match fuel with
    | O => OutOfFuel
    | S fuel' => words_up fuel' (put32 m d (get32 m s)) (d + 4) (s + 4) (n - 4)
    end
  else Ret (m, d, s, n).
Fixpoint bytes_up (fuel : nat) (m : Z -> Z) (d s n : Z) : outcome (Z -> Z) :=
  if n =? 0 then Ret m
  else match fuel with O => OutOfFuel | S fuel' => bytes_up fuel' (put8 m d (m s)) (d + 1) (s + 1) (n - 1) end.

(** The same from the end, where [d] and [s] stay. *)
Fixpoint align_down (fuel : nat) (m : Z -> Z) (d s n : Z) : outcome ((Z -> Z) * Z * bool) :=
  if (d + n) mod 4 =? 0 then Ret (m, n, false)
  else if n =? 0 then Ret (m, n, true)
  else match fuel with
       | O => OutOfFuel
       | S fuel' => align_down fuel' (put8 m (d + (n - 1)) (m (s + (n - 1)))) d s (n - 1)
       end.
Fixpoint words_down (fuel : nat) (m : Z -> Z) (d s n : Z) : outcome ((Z -> Z) * Z) :=
  if 4 <=? n then
    match fuel with
    | O => OutOfFuel
    | S fuel' => words_down fuel' (put32 m (d + (n - 4)) (get32 m (s + (n - 4)))) d s (n - 4)
    end
  else Ret (m, n).
Fixpoint bytes_down (fuel : nat) (m : Z -> Z) (d s n : Z) : outcome (Z -> Z) :=
  if n =? 0 then Ret m
  else match fuel with O => OutOfFuel | S fuel' => bytes_down fuel' (put8 m (d + (n - 1)) (m (s + (n - 1)))) d s (n - 1) end.

(** Each loop has a unit of fuel for each byte. *)
Definition memmove (m : Z -> Z) (dest src n : Z) : outcome (Z -> Z) :=
  let fuel := Z.to_nat n in
  if dest =? src then Ret m
  else if (src + n <=? dest) || (dest + n <=? src) then Ret (memcpy m dest src n)
  else if dest <? src then
    if src mod 4 =? dest mod 4 then
      '(m, d, s, n, out) ← align_up fuel m dest src n;
      if (out : bool) then Ret m
      else '(m, d, s, n) ← words_up fuel m d s n; bytes_up fuel m d s n
    else bytes_up fuel m dest src n
  else
    if src mod 4 =? dest mod 4 then
      '(m, n, out) ← align_down fuel m dest src n;
      if (out : bool) then Ret m
      else '(m, n) ← words_down fuel m dest src n; bytes_down fuel m dest src n
    else bytes_down fuel m dest src n.

(** ** Searching a word at a time *)

(** [magic_bits] and [charmask] of [strchrnul]; [unsigned long] has 32 bits. *)
Definition magic_bits : Z := Z.lor (Z.shiftr (u32 (Z.shiftl (u32 (u32 (-1) / 0xff * 0xfe)) 1)) 1) 1.
Definition charmask (c : Z) : Z :=
  let mask := Z.lor c (Z.shiftl c 8) in
  Z.lor mask (u32 (Z.shiftl mask 16)).

(** [((longword + magic_bits) ^ ~longword) & ~magic_bits]: the holes that the sum does not change. *)
Definition holes (longword : Z) : Z :=
  Z.land (Z.lxor (u32 (longword + magic_bits)) (u32 (Z.lnot longword))) (u32 (Z.lnot magic_bits)).

(** The four tests of the bytes of a word. *)
Definition stop_at (m : Z -> Z) (c a : Z) : bool := (m a =? c) || (m a =? 0).
Definition find_in_word (m : Z -> Z) (c cp : Z) : option Z :=
  if stop_at m c cp then Some cp else if stop_at m c (cp + 1) then Some (cp + 1)
  else if stop_at m c (cp + 2) then Some (cp + 2) else if stop_at m c (cp + 3) then Some (cp + 3) else None.

(** The characters in front of the first whole word. *)
Fixpoint chr_align (fuel : nat) (m : Z -> Z) (c char_ptr : Z) : outcome (Z * bool) :=
  if Z.land char_ptr 3 =? 0 then Ret (char_ptr, false)
  else if stop_at m c char_ptr then Ret (char_ptr, true)
  else match fuel with O => OutOfFuel | S fuel' => chr_align fuel' m c (char_ptr + 1) end.

Fixpoint chr_words (fuel : nat) (m : Z -> Z) (c longword_ptr : Z) : outcome Z :=
  match fuel with
  | O => OutOfFuel
  | S fuel' =>
      let longword := get32 m longword_ptr in
      if truthy (holes longword) || truthy (holes (Z.lxor longword (charmask c))) then
        match find_in_word m c longword_ptr with
        | Some cp => Ret cp
        | None => chr_words fuel' m c (longword_ptr + 4)
        end
      else chr_words fuel' m c (longword_ptr + 4)
  end.

(** [fuel] bounds the number of words that are looked at. *)
Definition strchrnul (fuel : nat) (m : Z -> Z) (s c_in : Z) : outcome Z :=
  let c := u8 c_in in
  '(char_ptr, found) ← chr_align 4 m c s;
  if (found : bool) then Ret char_ptr else chr_words fuel m c char_ptr.

Definition strchr (fuel : nat) (m : Z -> Z) (s c : Z) : outcome Z :=
  r ← strchrnul fuel m s c;
  Ret (if m r =? u8 c then r else 0).

(** [lfind] *)
Definition lfind := strchr.

Fixpoint memrchr_loop (m : Z -> Z) (s c : Z) (n : nat) : Z :=
  match n with
  | O => 0
  | S n' => if m (s + Z.of_nat n') =? c then s + Z.of_nat n' else memrchr_loop m s c n'
  end.
Definition memrchr (m : Z -> Z) (s c n : Z) : Z := memrchr_loop m s (u8 c) (Z.to_nat n).

Fixpoint strlen_loop (fuel : nat) (m : Z -> Z) (str ret : Z) : outcome Z :=
  if m (str + ret) =? 0 then Ret ret
  else match fuel with O => OutOfFuel | S fuel' => strlen_loop fuel' m str (ret + 1) end.
Definition strlen (fuel : nat) (m : Z -> Z) (str : Z) : outcome Z := strlen_loop fuel m str 0.

Definition strrchr (fuel : nat) (m : Z -> Z) (s c : Z) : outcome Z :=
  n ← strlen fuel m s; Ret (memrchr m s c (n + 1)).

(** [rfind] *)
Definition rfind := strrchr.

(** ** Sets of characters *)

(** [BITOP]: the set is an array of eight words. *)
Definition set_bit (byteset : list Z) (c : Z) : outcome (list Z) :=
  w ← aget byteset (c / 32); aset byteset (c / 32) (Z.lor w (u32 (Z.shiftl 1 (c mod 32)))).
Definition test_bit (byteset : list Z) (c : Z) : outcome bool :=
  w ← aget byteset (c / 32); Ret (truthy (Z.land w (u32 (Z.shiftl 1 (c mod 32))))).

Fixpoint fill_set (fuel : nat) (m : Z -> Z) (c : Z) (byteset : list Z) : outcome (list Z) :=
  if m c =? 0 then Ret byteset
  else match fuel with
       | O => OutOfFuel
       | S fuel' => byteset ← set_bit byteset (m c); fill_set fuel' m (c + 1) byteset
       end.

(** [for (; *s && BITOP(byteset, *s, &); s++)] with [want] true, and its negation with false. *)
Fixpoint span_set (fuel : nat) (m : Z -> Z) (s : Z) (byteset : list Z) (want : bool) : outcome Z :=
  if m s =? 0 then Ret s
  else
    b ← test_bit byteset (m s);
    if negb (Bool.eqb b want) then Ret s
    else match fuel with O => OutOfFuel | S fuel' => span_set fuel' m (s + 1) byteset want end.

(** [for (; *s == *c; s++)] *)
Fixpoint span_char (fuel : nat) (m : Z -> Z) (s c : Z) : outcome Z :=
  if negb (m s =? m c) then Ret s
  else match fuel with O => OutOfFuel | S fuel' => span_char fuel' m (s + 1) c end.

Definition strspn (fuel : nat) (m : Z -> Z) (s c : Z) : outcome Z :=
  if m c =? 0 then Ret 0
  else if m (c + 1) =? 0 then e ← span_char fuel m s c; Ret (e - s)
  else
    byteset ← fill_set fuel m c (replicate 8 0);
    e ← span_set fuel m s byteset true; Ret (e - s).

Definition strcspn (fuel : nat) (m : Z -> Z) (s c : Z) : outcome Z :=
  if negb (m c =? 0) && negb (m (c + 1) =? 0) then
    byteset ← fill_set fuel m c (replicate 8 0);
    e ← span_set fuel m s byteset false; Ret (e - s)
  else e ← strchrnul fuel m s (m c); Ret (e - s).

Definition strpbrk (fuel : nat) (m : Z -> Z) (s b : Z) : outcome Z :=
  n ← strcspn fuel m s b;
  Ret (if m (s + n) =? 0 then 0 else s + n).

(** [strtok_r] returns the memory, the token ([NULL] for none) and the new [*saveptr]. *)
Definition strtok_r (fuel : nat) (m : Z -> Z) (str delim saveptr : Z) : outcome ((Z -> Z) * Z * Z) :=
  let str := if str =? 0 then saveptr else str in
  n ← strspn fuel m str delim;
  let str := str + n in
  if m str =? 0 then Ret (m, 0, str)
  else
    let token := str in
    str ← strpbrk fuel m token delim;
    if str =? 0 then e ← lfind fuel m token 0; Ret (m, token, e)
    else Ret (put8 m str 0, token, str + 1).

(** ** Bounded copies and comparisons *)

(** The loop of [strlcpy]: characters up to the terminator or until [n] is used up. *)
Fixpoint lcpy_loop (fuel : nat) (m : Z -> Z) (d s n : Z) : outcome ((Z -> Z) * Z * Z * Z) :=
  match fuel with
  | O => OutOfFuel
  | S fuel' =>
      let c := m s in
      let m := put8 m d c in
      if c =? 0 then Ret (m, d + 1, s + 1, n)
      else if n - 1 =? 0 then Ret (m, d + 1, s + 1, n - 1)
      else lcpy_loop fuel' m (d + 1) (s + 1) (n - 1)
  end.

(** [while ( *s++)] *)
Fixpoint to_end (fuel : nat) (m : Z -> Z) (s : Z) : outcome Z :=
  if m s =? 0 then Ret (s + 1) else match fuel with O => OutOfFuel | S fuel' => to_end fuel' m (s + 1) end.

Definition strlcpy (fuel : nat) (m : Z -> Z) (dst src siz : Z) : outcome ((Z -> Z) * Z) :=
  '(m, d, s, n) ← (if negb (siz =? 0) && negb (siz - 1 =? 0) then lcpy_loop fuel m dst src (siz - 1)
                   else Ret (m, dst, src, if siz =? 0 then 0 else siz - 1));
  '(m, s) ← (if n =? 0 then
               let m := if siz =? 0 then m else put8 m d 0 in
               s ← to_end fuel m s; Ret (m, s)
             else Ret (m, s));
  Ret (m, s - src - 1).

Fixpoint memcmp_loop (m : Z -> Z) (us1 us2 : Z) (count : nat) : Z :=
  match count with
  | O => 0
  | S count' => if negb (m us1 =? m us2) then (if m us1 <? m us2 then -1 else 1) else memcmp_loop m (us1 + 1) (us2 + 1) count'
  end.
Definition memcmp (m : Z -> Z) (lhs rhs count : Z) : Z := memcmp_loop m lhs rhs (Z.to_nat count).

(** [strncmp] has no [return] behind its loop: for strings that differ its value is undefined. *)
Fixpoint strncmp_loop (m : Z -> Z) (s1 s2 : Z) (n : nat) : outcome Z :=
  match n with
  | O => Fault
  | S n' =>
      if m s1 =? m s2 then if (Z.of_nat n' =? 0) || (m s1 =? 0) then Ret 0 else strncmp_loop m (s1 + 1) (s2 + 1) n'
      else Fault
  end.
Definition strncmp (m : Z -> Z) (s1 s2 n : Z) : outcome Z :=
  if (n =? 0) || (s1 =? 0) || (s2 =? 0) then Ret 0 else strncmp_loop m s1 s2 (Z.to_nat n).

(** ** What copying means *)

(** Only the range of [n] bytes at [d] changes, to what was at [s]. *)
Definition moved (m m' : Z -> Z) (d s n : Z) : Prop :=
  forall x, m' x = if (d <=? x) && (x <? d + n) then m (x - d + s) else m x.

(** The upper part of a range has been moved: the bytes from [k] on. *)
Definition moved_from (m m' : Z -> Z) (d s k n : Z) : Prop :=
  forall x, m' x = if (d + k <=? x) && (x <? d + n) then m (x - d + s) else m x.

Lemma put8_bytes m a v : bytes_ok m -> 0 <= v < 256 -> bytes_ok (put8 m a v).
Proof. intros Hm Hv x. unfold put8. by destruct (x =? a). Qed.

(** Storing a word that was loaded copies its four bytes. *)
Lemma put32_get32 m m2 a b x : bytes_ok m2 -> put32 m a (get32 m2 b) x = if (a <=? x) && (x <? a + 4) then m2 (x - a + b) else m x.
Proof.
  intros Hm. pose proof (Hm b) as H0. pose proof (Hm (b + 1)) as H1. pose proof (Hm (b + 2)) as H2. pose proof (Hm (b + 3)) as H3.
  unfold put32, put8, get32. set (v := _ + _ + _ + _).
  assert (v mod 256 = m2 b) as E0 by (subst v; Z.to_euclidean_division_equations; lia).
  assert (v / 256 mod 256 = m2 (b + 1)) as E1 by (subst v; Z.to_euclidean_division_equations; lia).
  assert (v / 65536 mod 256 = m2 (b + 2)) as E2 by (subst v; Z.to_euclidean_division_equations; lia).
  assert (v / 16777216 mod 256 = m2 (b + 3)) as E3 by (subst v; Z.to_euclidean_division_equations; lia).
  rewrite E0, E1, E2, E3. destruct (Z.eqb_spec x (a + 3)) as [->|]; [|destruct (Z.eqb_spec x (a + 2)) as [->|]; [|destruct (Z.eqb_spec x (a + 1)) as [->|]; [|destruct (Z.eqb_spec x a) as [->|]]]];
    zcases; cbn [andb]; try lia; try (f_equal; lia); done.
Qed.

(** One step of [c] bytes. *)
Definition step (m1 m2 : Z -> Z) (d s c : Z) : Prop := forall x, m2 x = if (d <=? x) && (x <? d + c) then m1 (x - d + s) else m1 x.

Lemma step_word m d s : bytes_ok m -> step m (put32 m d (get32 m s)) d s 4.
Proof. intros Hm x. by apply put32_get32. Qed.

Lemma step_byte m d s : step m (put8 m d (m s)) d s 1.
Proof. intros x. unfold put8. zcases; cbn [andb]; try lia; try done. f_equal. lia. Qed.

Lemma moved_nil m d s : moved m m d s 0.
Proof. intros x. zcases; cbn [andb]; done || lia. Qed.

Lemma moved_bytes m m' d s n : bytes_ok m -> moved m m' d s n -> bytes_ok m'.
Proof. intros Hm H x. rewrite H. destruct (_ && _); apply Hm. Qed.

Lemma moved_step m m1 m2 d s k c : moved m m1 d s k -> 0 <= k -> 0 <= c -> d <= s \/ s + k + c <= d -> step m1 m2 (d + k) (s + k) c -> moved m m2 d s (k + c).
Proof.
  intros H1 Hk Hc Hd H2 x. rewrite H2, !H1. destruct (Z.leb_spec (d + k) x), (Z.ltb_spec x (d + k + c)); cbn [andb].
  - destruct (Z.leb_spec d (x - (d + k) + (s + k))), (Z.ltb_spec (x - (d + k) + (s + k)) (d + k)); cbn [andb]; try lia; zcases; cbn [andb]; try lia; f_equal; lia.
  - zcases; cbn [andb]; done || lia.
  - zcases; cbn [andb]; done || lia.
  - zcases; cbn [andb]; done || lia.
Qed.

(** *** [memcpy] *)

Lemma copy32_ok todo : forall m m1 d s i, bytes_ok m -> moved m m1 d s (4 * i) -> 0 <= i -> d <= s \/ s + 4 * (i + Z.of_nat todo) <= d ->
  moved m (copy32 m1 d s i todo) d s (4 * (i + Z.of_nat todo)).
Proof.
  induction todo as [|todo IH]; intros m m1 d s i Hm H Hi Hd; cbn [copy32]; [by rewrite Z.add_0_r|].
  replace (i + Z.of_nat (S todo)) with (i + 1 + Z.of_nat todo) in * by lia. apply IH; [done| |lia|done].
  replace (4 * (i + 1)) with (4 * i + 4) by lia. eapply moved_step; [exact H|lia|lia|lia|]. apply step_word. by eapply moved_bytes.
Qed.

Lemma copy8_ok todo : forall m m1 d s k i, moved m m1 d s (k + i) -> 0 <= k -> 0 <= i -> d <= s \/ s + k + i + Z.of_nat todo <= d ->
  moved m (copy8 m1 (d + k) (s + k) i todo) d s (k + i + Z.of_nat todo).
Proof.
  induction todo as [|todo IH]; intros m m1 d s k i H Hk Hi Hd; cbn [copy8]; [by rewrite Z.add_0_r|].
  replace (k + i + Z.of_nat (S todo)) with (k + (i + 1) + Z.of_nat todo) by lia. apply IH; [|lia|lia|lia].
  rewrite Z.add_assoc. eapply moved_step; [exact H|lia|lia|lia|]. rewrite !Z.add_assoc. apply step_byte.
Qed.

Lemma memcpy_ok m d s n : bytes_ok m -> 0 <= n < 2147483648 -> d <= s \/ s + n <= d -> moved m (memcpy m d s n) d s n.
Proof.
  intros Hm Hn Hd. unfold memcpy. rewrite Z.quot_div_nonneg, Z.rem_mod_nonneg by lia. pose proof (Z.div_mod n 4 ltac:(lia)) as E. pose proof (Z.mod_pos_bound n 4 ltac:(lia)).
  assert (0 <= n / 4 <= n) by (split; [apply Z.div_pos; lia|apply Z.div_le_upper_bound; lia]). rewrite !u32_small by lia.
  pose proof (copy32_ok (Z.to_nat (n / 4)) m m d s 0 Hm (moved_nil m d s) ltac:(lia)) as H1. rewrite Z2Nat.id, Z.add_0_l in H1 by lia. specialize (H1 ltac:(lia)).
  pose proof (copy8_ok (Z.to_nat (n mod 4)) m (copy32 m d s 0 (Z.to_nat (n / 4))) d s (4 * (n / 4)) 0) as H2. rewrite !Z.add_0_r, Z2Nat.id in H2 by lia. specialize (H2 H1 ltac:(lia) ltac:(lia) ltac:(lia)).
  rewrite (Z.mul_comm (n / 4) 4). rewrite <- E in H2. exact H2.
Qed.

(** *** [memmove], upwards *)

Lemma bytes_up_ok fuel : forall m m1 d s k n, moved m m1 d s k -> 0 <= k -> 0 <= n <= Z.of_nat fuel -> d <= s ->
  exists m', bytes_up fuel m1 (d + k) (s + k) n = Ret m' /\ moved m m' d s (k + n).
Proof.
  induction fuel as [|fuel IH]; intros m m1 d s k n H Hk Hn Hd; cbn [bytes_up]; destruct (Z.eqb_spec n 0) as [->|]; try lia; [by exists m1; rewrite Z.add_0_r|by exists m1; rewrite Z.add_0_r|].
  rewrite <- !Z.add_assoc. replace (k + n) with (k + 1 + (n - 1)) by lia. apply IH; [|lia|lia|done]. eapply moved_step; [exact H|lia|lia|by left|apply step_byte].
Qed.

Lemma words_up_ok fuel : forall m m1 d s k n, bytes_ok m -> moved m m1 d s k -> 0 <= k -> 0 <= n <= Z.of_nat fuel -> d <= s ->
  exists m' j, words_up fuel m1 (d + k) (s + k) n = Ret (m', d + j, s + j, k + n - j) /\ moved m m' d s j /\ k <= j <= k + n.
Proof.
  induction fuel as [|fuel IH]; intros m m1 d s k n Hm H Hk Hn Hd; cbn [words_up]; destruct (Z.leb_spec 4 n); try lia.
  - exists m1, k. replace (k + n - k) with n by lia. split; [done|]. split; [done|lia].
  - rewrite <- !Z.add_assoc. destruct (IH m (put32 m1 (d + k) (get32 m1 (s + k))) d s (k + 4) (n - 4) Hm) as (m' & j & E & Hj & Hb); [|lia|lia|done|].
    { eapply moved_step; [exact H|lia|lia|by left|]. apply step_word. by eapply moved_bytes. }
    exists m', j. replace (k + n - j) with (k + 4 + (n - 4) - j) by lia. split; [exact E|]. split; [done|lia].
  - exists m1, k. replace (k + n - k) with n by lia. split; [done|]. split; [done|lia].
Qed.

Lemma aligned_up fuel : forall m m1 d s k n, moved m m1 d s k -> 0 <= k -> 0 <= n <= Z.of_nat fuel -> d <= s ->
  exists m' j out, align_up fuel m1 (d + k) (s + k) n = Ret (m', d + j, s + j, k + n - j, out) /\ moved m m' d s j /\ k <= j <= k + n /\ (out = true -> j = k + n).
Proof.
  induction fuel as [|fuel IH]; intros m m1 d s k n H Hk Hn Hd; cbn [align_up]; destruct ((d + k) mod 4 =? 0); try (exists m1, k, false; replace (k + n - k) with n by lia; split; [done|]; split; [done|]; split; [lia|done]);
    destruct (Z.eqb_spec n 0) as [->|]; try (exists m1, k, true; replace (k + 0 - k) with 0 by lia; split; [done|]; split; [done|]; split; lia); [lia|].
  rewrite <- !Z.add_assoc. destruct (IH m (put8 m1 (d + k) (m1 (s + k))) d s (k + 1) (n - 1)) as (m' & j & out & E & Hj & Hb & Ho); [|lia|lia|done|].
  { eapply moved_step; [exact H|lia|lia|by left|apply step_byte]. }
  exists m', j, out. replace (k + n - j) with (k + 1 + (n - 1) - j) by lia. split; [exact E|]. split; [done|]. split; [lia|]. intros ->. rewrite Ho by done. lia.
Qed.

(** *** [memmove], downwards *)

Lemma moved_from_nil m d s n : moved_from m m d s n n.
Proof. intros x. zcases; cbn [andb]; done || lia. Qed.

Lemma moved_from_bytes m m' d s k n : bytes_ok m -> moved_from m m' d s k n -> bytes_ok m'.
Proof. intros Hm H x. rewrite H. destruct (_ && _); apply Hm. Qed.

Lemma moved_from_step m m1 m2 d s k n c : moved_from m m1 d s (k + c) n -> 0 <= k -> 0 <= c -> k + c <= n -> s <= d -> step m1 m2 (d + k) (s + k) c -> moved_from m m2 d s k n.
Proof.
  intros H1 Hk Hc Hn Hd H2 x. rewrite H2, !H1. destruct (Z.leb_spec (d + k) x), (Z.ltb_spec x (d + k + c)); cbn [andb].
  - destruct (Z.leb_spec (d + (k + c)) (x - (d + k) + (s + k))), (Z.ltb_spec (x - (d + k) + (s + k)) (d + n)); cbn [andb]; try lia; zcases; cbn [andb]; try lia; f_equal; lia.
  - zcases; cbn [andb]; done || lia.
  - zcases; cbn [andb]; done || lia.
  - zcases; cbn [andb]; done || lia.
Qed.

Lemma bytes_down_ok fuel : forall m m1 d s k n, moved_from m m1 d s k n -> 0 <= k <= n -> k <= Z.of_nat fuel -> s <= d ->
  exists m', bytes_down fuel m1 d s k = Ret m' /\ moved m m' d s n.
Proof.
  assert (forall m m1 d s n, moved_from m m1 d s 0 n -> moved m m1 d s n) as H0 by (intros m m1 d s n H x; rewrite H; by rewrite Z.add_0_r).
  induction fuel as [|fuel IH]; intros m m1 d s k n H Hk Hf Hd; cbn [bytes_down]; destruct (Z.eqb_spec k 0) as [->|]; try lia; [exists m1; split; [done|by apply H0]..|].
  apply IH; [|lia|lia|done]. eapply (moved_from_step _ m1 _ _ _ (k - 1) _ 1); [by replace (k - 1 + 1) with k by lia|lia|lia|lia|done|apply step_byte].
Qed.

Lemma words_down_ok fuel : forall m m1 d s k n, bytes_ok m -> moved_from m m1 d s k n -> 0 <= k <= n -> k <= Z.of_nat fuel -> s <= d ->
  exists m' j, words_down fuel m1 d s k = Ret (m', j) /\ moved_from m m' d s j n /\ 0 <= j <= k.
Proof.
  induction fuel as [|fuel IH]; intros m m1 d s k n Hm H Hk Hf Hd; cbn [words_down]; destruct (Z.leb_spec 4 k); try lia; [exists m1, k; split; [done|]; split; [done|lia]| |exists m1, k; split; [done|]; split; [done|lia]].
  destruct (IH m (put32 m1 (d + (k - 4)) (get32 m1 (s + (k - 4)))) d s (k - 4) n Hm) as (m' & j & E & Hj & Hb); [|lia|lia|done|exists m', j; split; [exact E|]; split; [done|lia]].
  eapply (moved_from_step _ m1 _ _ _ (k - 4) _ 4); [by replace (k - 4 + 4) with k by lia|lia|lia|lia|done|]. apply step_word. by eapply moved_from_bytes.
Qed.

Lemma aligned_down fuel : forall m m1 d s k n, moved_from m m1 d s k n -> 0 <= k <= n -> k <= Z.of_nat fuel -> s <= d ->
  exists m' j out, align_down fuel m1 d s k = Ret (m', j, out) /\ moved_from m m' d s j n /\ 0 <= j <= k /\ (out = true -> j = 0).
Proof.
  induction fuel as [|fuel IH]; intros m m1 d s k n H Hk Hf Hd; cbn [align_down]; destruct ((d + k) mod 4 =? 0); try (exists m1, k, false; split; [done|]; split; [done|]; split; [lia|done]);
    destruct (Z.eqb_spec k 0) as [->|]; try (exists m1, 0, true; split; [done|]; split; [done|]; split; [lia|done]); [lia|].
  destruct (IH m (put8 m1 (d + (k - 1)) (m1 (s + (k - 1)))) d s (k - 1) n) as (m' & j & out & E & Hj & Hb & Ho); [|lia|lia|done|exists m', j, out; split; [exact E|]; split; [done|]; split; [lia|done]].
  eapply (moved_from_step _ m1 _ _ _ (k - 1) _ 1); [by replace (k - 1 + 1) with k by lia|lia|lia|lia|done|apply step_byte].
Qed.

(** C37: [memmove] moves: however the two ranges overlap and whatever their alignment, afterwards
    the [n] bytes at [dest] are what the [n] bytes at [src] were before, and no other
    byte has changed. *)
Theorem memmove_moves m dest src n : bytes_ok m -> 0 <= n < 2147483648 ->
  exists m', memmove m dest src n = Ret m' /\ forall x, m' x = if (dest <=? x) && (x <? dest + n) then m (x - dest + src) else m x.
Proof.
  intros Hm Hn. unfold memmove. destruct (Z.eqb_spec dest src) as [->|Hne].
  { exists m. split; [done|]. intros x. destruct (_ && _); [f_equal; lia|done]. }
  destruct (Z.leb_spec (src + n) dest), (Z.leb_spec (dest + n) src); cbn [orb]; try (eexists; split; [done|]; apply memcpy_ok; [done|done|lia]).
  destruct (Z.ltb_spec dest src) as [Hlt|Hge].
  - pose proof (moved_nil m dest src) as Hz. destruct (src mod 4 =? dest mod 4).
    + destruct (aligned_up (Z.to_nat n) m m dest src 0 n Hz) as (m1 & j & out & E & H1 & Hj & Ho); [lia|lia|lia|]. rewrite !Z.add_0_r in E. rewrite E. cbn [mbind outcome_bind].
      destruct out; [exists m1; split; [done|]; rewrite Ho in H1 by done; rewrite Z.add_0_l in H1; exact H1|].
      destruct (words_up_ok (Z.to_nat n) m m1 dest src j (0 + n - j) Hm H1) as (m2 & i & -> & H2 & Hi); [lia|lia|lia|]. cbn [mbind outcome_bind].
      destruct (bytes_up_ok (Z.to_nat n) m m2 dest src i (j + (0 + n - j) - i) H2) as (m3 & E3 & H3); [lia|lia|lia|].
      exists m3. split; [exact E3|]. replace (i + (j + (0 + n - j) - i)) with n in H3 by lia. exact H3.
    + destruct (bytes_up_ok (Z.to_nat n) m m dest src 0 n Hz) as (m1 & E & H1); [lia|lia|lia|]. rewrite !Z.add_0_r in E. rewrite Z.add_0_l in H1. by exists m1.
  - pose proof (moved_from_nil m dest src n) as Hz. destruct (src mod 4 =? dest mod 4).
    + destruct (aligned_down (Z.to_nat n) m m dest src n n Hz) as (m1 & j & out & -> & H1 & Hj & Ho); [lia|lia|lia|]. cbn [mbind outcome_bind].
      destruct out; [exists m1; split; [done|]; rewrite Ho in H1 by done; intros x; rewrite H1; by rewrite Z.add_0_r|].
      destruct (words_down_ok (Z.to_nat n) m m1 dest src j n Hm H1) as (m2 & i & -> & H2 & Hi); [lia|lia|lia|]. cbn [mbind outcome_bind].
      by destruct (bytes_down_ok (Z.to_nat n) m m2 dest src i n H2) as (m3 & E3 & H3); [lia|lia|lia|exists m3].
    + by destruct (bytes_down_ok (Z.to_nat n) m m dest src n n Hz) as (m1 & E & H1); [lia|lia|lia|exists m1].
Qed.

(** ** Searching *)

(** The first byte from [a] on that is [c] or a terminator. *)
Definition first_stop (m : Z -> Z) (c a x : Z) : Prop := a <= x /\ stop_at m c x = true /\ forall y, a <= y < x -> stop_at m c y = false.

(** A word that is not suspect has no zero byte: a zero byte stops the carry before the
    hole behind it. *)
Lemma hole_bit lw k : k = 8 \/ k = 16 \/ k = 24 \/ k = 31 -> 0 <= lw < 4294967296 ->
  Z.testbit (lw + 0x7EFEFEFF) k = Z.testbit lw k -> holes lw <> 0.
Proof.
  intros Hk Hlw Hbit E. assert (Z.testbit (holes lw) k = true) as Ht; [|rewrite E, Z.bits_0 in Ht; done].
  unfold holes. change magic_bits with 0x7EFEFEFF. change (u32 (Z.lnot 0x7EFEFEFF)) with 0x81010100. rewrite Z.land_spec, Z.lxor_spec. unfold u32. change 4294967296 with (2 ^ 32).
  rewrite !Z.mod_pow2_bits_low by lia. rewrite Z.lnot_spec, Hbit by lia. destruct (Z.testbit lw k); destruct Hk as [->|[->|[->| ->]]]; reflexivity.
Qed.

Lemma testbit_same a b k : 0 <= k -> (a / 2 ^ k) mod 2 = (b / 2 ^ k) mod 2 -> Z.testbit a k = Z.testbit b k.
Proof. intros Hk E. rewrite !Z.testbit_odd, !Z.shiftr_div_pow2 by done. rewrite !Zodd_mod. by rewrite E. Qed.

Lemma holes_zero m a : bytes_ok m -> m a = 0 \/ m (a + 1) = 0 \/ m (a + 2) = 0 \/ m (a + 3) = 0 -> holes (get32 m a) <> 0.
Proof.
  intros Hm Hz. pose proof (Hm a) as H0. pose proof (Hm (a + 1)) as H1. pose proof (Hm (a + 2)) as H2. pose proof (Hm (a + 3)) as H3. unfold get32.
  set (b0 := m a) in *. set (b1 := m (a + 1)) in *. set (b2 := m (a + 2)) in *. set (b3 := m (a + 3)) in *. clearbody b0 b1 b2 b3.
  destruct Hz as [->|[->|[->| ->]]]; [apply (hole_bit _ 8)|apply (hole_bit _ 16)|apply (hole_bit _ 24)|apply (hole_bit _ 31)];
    try lia; apply testbit_same; try lia; cbn [Z.pow Z.pow_pos Pos.iter]; Z.to_euclidean_division_equations; lia.
Qed.

(** Bytes of an exclusive or. *)
Lemma byte_bits b q n : 0 <= b < 256 -> 0 <= n -> Z.testbit (b + 256 * q) n = if n <? 8 then Z.testbit b n else Z.testbit q (n - 8).
Proof.
  intros Hb Hn. destruct (Z.ltb_spec n 8).
  - rewrite <- (Z.mod_pow2_bits_low (b + 256 * q) 8 n) by lia. change (2 ^ 8) with 256. f_equal. Z.to_euclidean_division_equations; lia.
  - replace n with (n - 8 + 8) at 1 by lia. rewrite <- Z.div_pow2_bits by lia. f_equal. change (2 ^ 8) with 256. Z.to_euclidean_division_equations; lia.
Qed.

Lemma lxor_byte b c : 0 <= b < 256 -> 0 <= c < 256 -> 0 <= Z.lxor b c < 256.
Proof.
  intros Hb Hc. assert (0 <= Z.lxor b c) as H0 by (apply Z.lxor_nonneg; lia). split; [done|]. change 256 with (2 ^ 8). destruct (decide (Z.lxor b c = 0)) as [->|Hne]; [done|].
  apply Z.log2_lt_pow2; [lia|]. eapply Z.le_lt_trans; [apply Z.log2_lxor; lia|]. apply Z.max_lub_lt; (destruct (decide (b = 0)) as [->|]; destruct (decide (c = 0)) as [->|]; try (cbn; lia)); apply Z.log2_lt_pow2; lia.
Qed.

Lemma lxor_split b c q r : 0 <= b < 256 -> 0 <= c < 256 -> Z.lxor (b + 256 * q) (c + 256 * r) = Z.lxor b c + 256 * Z.lxor q r.
Proof.
  intros Hb Hc. apply Z.bits_inj'. intros n Hn. rewrite Z.lxor_spec, !byte_bits by (done || by apply lxor_byte). destruct (n <? 8); by rewrite Z.lxor_spec.
Qed.

Lemma charmask_bytes c : 0 <= c < 256 -> charmask c = c + 256 * (c + 256 * (c + 256 * c)).
Proof.
  intros Hc. apply Z.eqb_eq. assert (forallb (fun c => charmask c =? c + 256 * (c + 256 * (c + 256 * c))) (seqZ 0 256) = true) as Hall by (vm_compute; reflexivity).
  rewrite forallb_forall in Hall. apply Hall, list_elem_of_In, elem_of_seqZ. lia.
Qed.

Lemma get32_lxor m a c : bytes_ok m -> 0 <= c < 256 -> Z.lxor (get32 m a) (charmask c) = get32 (fun x => Z.lxor (m x) c) a.
Proof.
  intros Hm Hc. rewrite charmask_bytes by done. unfold get32. replace (m a + 256 * m (a + 1) + 65536 * m (a + 2) + 16777216 * m (a + 3)) with (m a + 256 * (m (a + 1) + 256 * (m (a + 2) + 256 * m (a + 3)))) by lia.
  rewrite !lxor_split by done. lia.
Qed.

(** A word that passes both tests has no byte to stop at. *)
Lemma suspect m c a x : bytes_ok m -> 0 <= c < 256 -> a <= x < a + 4 -> stop_at m c x = true -> truthy (holes (get32 m a)) || truthy (holes (Z.lxor (get32 m a) (charmask c))) = true.
Proof.
  intros Hm Hc Hx Hs. apply orb_true_iff in Hs as [->%Z.eqb_eq|Hs%Z.eqb_eq] || apply orb_true_iff in Hs as [Hs%Z.eqb_eq|Hs%Z.eqb_eq].
  all: assert (x = a \/ x = a + 1 \/ x = a + 2 \/ x = a + 3) as Hcase by lia; apply orb_true_iff.
  - right. apply negb_true_iff, Z.eqb_neq. rewrite get32_lxor by done. apply holes_zero; [intros y; by apply lxor_byte|].
    destruct Hcase as [<-|[<-|[<-|<-]]]; rewrite Hs, Z.lxor_nilpotent; auto.
  - left. apply negb_true_iff, Z.eqb_neq. apply holes_zero; [done|]. destruct Hcase as [<-|[<-|[<-|<-]]]; rewrite Hs; auto.
Qed.

Lemma find_in_word_ok m c a x : first_stop m c a x ->
  (x < a + 4 -> find_in_word m c a = Some x) /\ (a + 4 <= x -> find_in_word m c a = None).
Proof.
  intros (Hx & Hs & Hb). unfold find_in_word.
  destruct (decide (x = a)) as [->|]; [rewrite Hs; split; [done|lia]|]. rewrite (Hb a) by lia.
  destruct (decide (x = a + 1)) as [->|]; [rewrite Hs; split; [done|lia]|]. rewrite (Hb (a + 1)) by lia.
  destruct (decide (x = a + 2)) as [->|]; [rewrite Hs; split; [done|lia]|]. rewrite (Hb (a + 2)) by lia.
  destruct (decide (x = a + 3)) as [->|]; [rewrite Hs; split; [done|lia]|]. rewrite (Hb (a + 3)) by lia. split; [lia|done].
Qed.

Lemma chr_words_ok m c x : bytes_ok m -> 0 <= c < 256 -> forall fuel a, first_stop m c a x -> x < a + 4 * Z.of_nat fuel -> chr_words fuel m c a = Ret x.
Proof.
  intros Hm Hc. induction fuel as [|fuel IH]; intros a Hf Hfuel; [destruct Hf; lia|]. cbn [chr_words]. destruct (find_in_word_ok m c a x Hf) as [Hin Hout].
  destruct (decide (x < a + 4)) as [Hlt|Hge].
  - destruct Hf as (Hx & Hs & _). rewrite (suspect m c a x) by (done || lia). by rewrite Hin.
  - assert (chr_words fuel m c (a + 4) = Ret x) as E. { apply IH; [|lia]. destruct Hf as (Hx & Hs & Hb). split; [lia|]. split; [done|]. intros y Hy. apply Hb. lia. }
    rewrite Hout by lia. by destruct (_ || _).
Qed.

Lemma chr_align_ok m c x : forall fuel a, 0 <= a -> first_stop m c a x -> a mod 4 = 0 \/ 4 - a mod 4 <= Z.of_nat fuel ->
  exists b found, chr_align fuel m c a = Ret (b, found) /\ (if found then b = x else first_stop m c b x /\ a <= b).
Proof.
  induction fuel as [|fuel IH]; intros a Ha Hf Hfuel; cbn [chr_align]; change 3 with (Z.ones 2); rewrite Z.land_ones by lia; change (2 ^ 2) with 4; destruct (Z.eqb_spec (a mod 4) 0); try (exists a, false; split; [done|]; split; [done|lia]); try lia.
  { pose proof (Z.mod_pos_bound a 4 ltac:(lia)). lia. }
  destruct Hf as (Hx & Hs & Hb). destruct (stop_at m c a) eqn:Es.
  - exists a, true. split; [done|]. destruct (decide (a = x)) as [|]; [done|]. rewrite Hb in Es by lia. done.
  - assert (a <> x) by (intros ->; congruence). destruct (IH (a + 1)) as (b & found & E & Hr); [lia| | |].
    { split; [lia|]. split; [done|]. intros y Hy. apply Hb. lia. }
    { destruct Hfuel as [|Hfuel]; [done|]. pose proof (Z.mod_pos_bound a 4 ltac:(lia)). destruct (decide (a mod 4 = 3)); [left|right]; Z.to_euclidean_division_equations; lia. }
    exists b, found. split; [done|]. destruct found; [done|]. destruct Hr. split; [done|lia].
Qed.

Lemma strchrnul_ok m s c x fuel : bytes_ok m -> 0 <= s -> first_stop m (u8 c) s x -> x < s + 4 * Z.of_nat fuel -> strchrnul fuel m s c = Ret x.
Proof.
  intros Hm Hs Hf Hfuel. unfold strchrnul. pose proof (Z.mod_pos_bound s 4 ltac:(lia)).
  destruct (chr_align_ok m (u8 c) x 4 s Hs Hf) as (b & found & -> & Hr); [destruct (decide (s mod 4 = 0)); [by left|right; lia]|]. cbn [mbind outcome_bind].
  destruct found; [by rewrite Hr|]. destruct Hr as [Hr Hb]. apply chr_words_ok; [done|apply u8_bound|done|lia].
Qed.

(** C39: The search a word at a time finds the first byte that is the character or the terminator,
    from every alignment: the bit pattern that skips words never skips such a byte. *)
Theorem strchrnul_finds m s c x fuel : bytes_ok m -> 0 <= s -> first_stop m (u8 c) s x -> x < s + 4 * Z.of_nat fuel -> strchrnul fuel m s c = Ret x.
Proof. apply strchrnul_ok. Qed.

(** ** Strings in memory *)

Record cstring_at (m : Z -> Z) (a : Z) (xs : cstring) : Prop := {
  ca_chars i x : xs !! i = Some x -> m (a + Z.of_nat i) = x;
  ca_ok : cstring_ok xs;
  ca_end : m (a + Z.of_nat (length xs)) = 0
}.

Lemma at_nil m a : m a = 0 -> cstring_at m a [].
Proof. intros E. constructor; [done|constructor|]. by rewrite Z.add_0_r. Qed.

Lemma at_cons m a x xs : cstring_at m a (x :: xs) <-> m a = x /\ byte_ok x /\ cstring_at m (a + 1) xs.
Proof.
  split.
  - intros [H1 H2 H3]. apply Forall_cons in H2 as [Hx Hxs]. split; [rewrite <- (H1 0%nat x eq_refl); f_equal; lia|]. split; [done|]. constructor; [|done|].
    + intros i y Hy. rewrite <- (H1 (S i) y Hy). f_equal. lia.
    + rewrite <- H3. f_equal. cbn [length]. lia.
  - intros (E & Hx & [H1 H2 H3]). constructor; [|by constructor|].
    + intros [|i] y Hy; cbn in Hy; [injection Hy as <-; rewrite Z.add_0_r; done|]. rewrite <- (H1 i y Hy). f_equal. lia.
    + rewrite <- H3. f_equal. cbn [length]. lia.
Qed.

Lemma at_app m a xs ys : cstring_at m a (xs ++ ys) -> cstring_at m (a + Z.of_nat (length xs)) ys.
Proof. revert a. induction xs as [|x xs IH]; intros a; cbn [app length]; [by rewrite Z.add_0_r|]. intros (_ & _ & H)%at_cons. replace (a + Z.of_nat (S (length xs))) with (a + 1 + Z.of_nat (length xs)) by lia. by apply IH. Qed.

Lemma at_frame m m' a xs : cstring_at m a xs -> (forall x, a <= x <= a + Z.of_nat (length xs) -> m' x = m x) -> cstring_at m' a xs.
Proof.
  intros [H1 H2 H3] Hm. constructor; [|done|].
  - intros i x Hx. rewrite Hm; [by apply H1|]. apply lookup_lt_Some in Hx. lia.
  - rewrite Hm; [done|lia].
Qed.

Lemma at_zero m a xs : cstring_at m a xs -> (m a =? 0) = bool_decide (xs = []).
Proof.
  destruct xs as [|x xs]; [intros [_ _ E]; rewrite Z.add_0_r in E; rewrite E; done|]. intros (E & [Hx _] & _)%at_cons. rewrite E. rewrite bool_decide_eq_false_2 by done. apply Z.eqb_neq. lia.
Qed.

(** [strlen] *)
Lemma strlen_loop_ok m : forall fuel xs a r, cstring_at m (a + r) xs -> (length xs <= fuel)%nat -> strlen_loop fuel m a r = Ret (r + Z.of_nat (length xs)).
Proof.
  induction fuel as [|fuel IH]; intros xs a r Hc Hf; cbn [strlen_loop]; rewrite (at_zero _ _ _ Hc); destruct xs as [|x xs]; cbn [length] in *; try lia; try (rewrite bool_decide_eq_true_2, Z.add_0_r by done; done).
  rewrite bool_decide_eq_false_2 by done. apply at_cons in Hc as (_ & _ & Hc). rewrite <- Z.add_assoc in Hc. rewrite (IH xs a (r + 1) Hc) by lia. f_equal. lia.
Qed.

(** The first character of a string that is [c], or its end. *)
Fixpoint index_of (c : Z) (xs : cstring) : nat := match xs with [] => O | x :: xs' => if x =? c then O else S (index_of c xs') end.

Lemma index_le c xs : (index_of c xs <= length xs)%nat.
Proof. induction xs as [|x xs IH]; cbn; [lia|]. destruct (x =? c); lia. Qed.

Lemma first_stop_at m a xs c : cstring_at m a xs -> first_stop m c a (a + Z.of_nat (index_of c xs)).
Proof.
  revert a. induction xs as [|x xs IH]; intros a Hc; cbn [index_of].
  { rewrite Z.add_0_r. destruct Hc as [_ _ E]. rewrite Z.add_0_r in E. split; [lia|]. split; [unfold stop_at; rewrite E; apply orb_true_r|lia]. }
  apply at_cons in Hc as (E & [Hx _] & Hc). destruct (Z.eqb_spec x c) as [->|Hne].
  { rewrite Z.add_0_r. split; [lia|]. split; [unfold stop_at; by rewrite E, Z.eqb_refl|lia]. }
  destruct (IH (a + 1) Hc) as (H1 & H2 & H3). replace (a + Z.of_nat (S (index_of c xs))) with (a + 1 + Z.of_nat (index_of c xs)) by lia. split; [lia|]. split; [done|].
  intros y Hy. destruct (decide (y = a)) as [->|]; [|apply H3; lia]. unfold stop_at. rewrite E, (proj2 (Z.eqb_neq x c)), (proj2 (Z.eqb_neq x 0)) by lia. done.
Qed.

Lemma strchrnul_at m a xs c fuel : bytes_ok m -> 0 <= a -> cstring_at m a xs -> (length xs < fuel)%nat -> strchrnul fuel m a c = Ret (a + Z.of_nat (index_of (u8 c) xs)).
Proof. intros Hm Ha Hc Hf. apply strchrnul_ok; [done|done|by apply first_stop_at|]. pose proof (index_le (u8 c) xs). lia. Qed.

(** *** Sets of characters *)

(** The array stands for the set of the characters of [cs]. *)
Definition stands (set : list Z) (cs : cstring) : Prop :=
  length set = 8%nat /\ forall c, 0 <= c < 256 -> exists w, set !! Z.to_nat (c / 32) = Some w /\ Z.testbit w (c mod 32) = bool_decide (c ∈ cs).

Lemma stands_nil : stands (replicate 8 0) [].
Proof.
  split; [done|]. intros c Hc. exists 0. split; [apply lookup_replicate; split; [done|]; assert (c / 32 < 8) by (apply Z.div_lt_upper_bound; lia); assert (0 <= c / 32) by (apply Z.div_pos; lia); lia|].
  rewrite Z.bits_0. symmetry. apply bool_decide_eq_false_2. apply not_elem_of_nil.
Qed.

Lemma word_index c : 0 <= c < 256 -> 0 <= c / 32 < 8.
Proof. intros Hc. split; [apply Z.div_pos; lia|apply Z.div_lt_upper_bound; lia]. Qed.

Lemma test_bit_ok set cs c : stands set cs -> 0 <= c < 256 -> test_bit set c = Ret (bool_decide (c ∈ cs)).
Proof.
  intros [Hl Hs] Hc. destruct (Hs c Hc) as (w & Hw & Hb). pose proof (word_index c Hc). unfold test_bit. rewrite (aget_lookup _ _ w) by (lia || done). cbn [mbind outcome_bind].
  rewrite Frames.mask_test by (apply Z.mod_pos_bound; lia). by rewrite Hb.
Qed.

Lemma set_bit_ok set cs c : stands set cs -> 0 <= c < 256 -> exists set', set_bit set c = Ret set' /\ stands set' (c :: cs).
Proof.
  intros [Hl Hs] Hc. destruct (Hs c Hc) as (w & Hw & Hb). pose proof (word_index c Hc) as Hi. unfold set_bit. rewrite (aget_lookup _ _ w) by (lia || done). cbn [mbind outcome_bind].
  rewrite aset_in_range by lia. eexists. split; [done|]. split; [by rewrite length_insert|]. intros c' Hc'. destruct (Hs c' Hc') as (w' & Hw' & Hb'). pose proof (word_index c' Hc') as Hi'.
  pose proof (Z.mod_pos_bound c 32 ltac:(lia)). pose proof (Z.mod_pos_bound c' 32 ltac:(lia)). pose proof (Z.div_mod c 32 ltac:(lia)). pose proof (Z.div_mod c' 32 ltac:(lia)).
  assert (bool_decide (c' ∈ c :: cs) = bool_decide (c' = c) || bool_decide (c' ∈ cs)) as ->.
  { destruct (decide (c' = c)) as [->|]; [rewrite !bool_decide_eq_true_2 by (done || left); done|]. rewrite (bool_decide_eq_false_2 (c' = c)) by done. cbn [orb]. apply bool_decide_ext. rewrite elem_of_cons. tauto. }
  destruct (decide (c' / 32 = c / 32)) as [Ed|Hd].
  - exists (Z.lor w (u32 (Z.shiftl 1 (c mod 32)))). rewrite Ed in *. assert (w' = w) as -> by congruence. split; [apply list_lookup_insert_eq; lia|].
    rewrite Frames.lor_bit, Hb' by lia. f_equal. destruct (Z.eqb_spec (c' mod 32) (c mod 32)) as [Em|Em]; symmetry; [apply bool_decide_eq_true_2; lia|apply bool_decide_eq_false_2; congruence].
  - exists w'. split; [rewrite list_lookup_insert_ne by lia; done|]. rewrite Hb', (bool_decide_eq_false_2 (c' = c)) by congruence. done.
Qed.

Lemma fill_set_ok m : forall fuel cs c set ds, cstring_at m c cs -> (length cs <= fuel)%nat -> stands set ds -> exists set', fill_set fuel m c set = Ret set' /\ stands set' (reverse cs ++ ds).
Proof.
  induction fuel as [|fuel IH]; intros cs c set ds Hc Hf Hs; cbn [fill_set]; rewrite (at_zero _ _ _ Hc); destruct cs as [|x cs]; cbn [length] in *; try lia; try (rewrite bool_decide_eq_true_2 by done; by exists set).
  rewrite bool_decide_eq_false_2 by done. apply at_cons in Hc as (E & Hx & Hc). unfold byte_ok in Hx. rewrite E. destruct (set_bit_ok set ds x Hs) as (set' & -> & Hs'); [lia|]. cbn [mbind outcome_bind].
  destruct (IH cs (c + 1) set' (x :: ds) Hc) as (set2 & E2 & Hs2); [lia|done|]. exists set2. split; [done|]. rewrite reverse_cons, <- app_assoc. done.
Qed.

(** The characters in front that satisfy [p]. *)
Fixpoint prefix_len (p : Z -> bool) (xs : cstring) : nat := match xs with [] => O | x :: xs' => if p x then S (prefix_len p xs') else O end.

Lemma prefix_ext p q xs : (forall x, p x = q x) -> prefix_len p xs = prefix_len q xs.
Proof. intros E. induction xs as [|x xs IH]; cbn; [done|]. by rewrite E, IH. Qed.

Lemma span_set_ok m set cs want : stands set cs -> forall fuel xs s, cstring_at m s xs -> (length xs <= fuel)%nat ->
  span_set fuel m s set want = Ret (s + Z.of_nat (prefix_len (fun x => Bool.eqb (bool_decide (x ∈ cs)) want) xs)).
Proof.
  intros Hs. induction fuel as [|fuel IH]; intros xs s Hc Hf; cbn [span_set]; rewrite (at_zero _ _ _ Hc); destruct xs as [|x xs]; cbn [length prefix_len] in *; try lia; try (rewrite bool_decide_eq_true_2, Z.add_0_r by done; done).
  rewrite bool_decide_eq_false_2 by done. apply at_cons in Hc as (E & Hx & Hc). unfold byte_ok in Hx. rewrite E, (test_bit_ok set cs x) by (done || lia). cbn [mbind outcome_bind].
  destruct (Bool.eqb (bool_decide (x ∈ cs)) want); cbn [negb]; [|by rewrite Z.add_0_r]. rewrite (IH xs (s + 1) Hc) by lia. f_equal. lia.
Qed.

Lemma span_char_ok m c d : m c = d -> d <> 0 -> forall fuel xs s, cstring_at m s xs -> (length xs <= fuel)%nat ->
  span_char fuel m s c = Ret (s + Z.of_nat (prefix_len (fun x => x =? d) xs)).
Proof.
  intros Ec Hd. induction fuel as [|fuel IH]; intros xs s Hc Hf; cbn [span_char]; rewrite Ec; destruct xs as [|x xs]; cbn [length prefix_len] in *; try lia.
  - destruct Hc as [_ _ E]. rewrite Z.add_0_r in *. rewrite E, (proj2 (Z.eqb_neq 0 d)) by congruence. done.
  - destruct Hc as [_ _ E]. rewrite Z.add_0_r in *. rewrite E, (proj2 (Z.eqb_neq 0 d)) by congruence. done.
  - apply at_cons in Hc as (-> & _ & Hc). destruct (x =? d); cbn [negb]; [|by rewrite Z.add_0_r]. rewrite (IH xs (s + 1) Hc) by lia. f_equal. lia.
Qed.

Lemma elem_single (x c : Z) : bool_decide (x ∈ [c]) = (x =? c).
Proof. destruct (Z.eqb_spec x c) as [->|Hne]; [apply bool_decide_eq_true_2; left|apply bool_decide_eq_false_2]. by intros ?%list_elem_of_singleton. Qed.

Lemma strspn_ok m s c xs cs fuel : cstring_at m s xs -> cstring_at m c cs -> (length xs <= fuel)%nat -> (length cs <= fuel)%nat ->
  strspn fuel m s c = Ret (Z.of_nat (prefix_len (fun x => bool_decide (x ∈ cs)) xs)).
Proof.
  intros Hx Hc Hf Hf2. unfold strspn. rewrite (at_zero _ _ _ Hc). destruct cs as [|d cs].
  { rewrite bool_decide_eq_true_2 by done. destruct xs as [|x xs]; [done|]. cbn [prefix_len]. by rewrite bool_decide_eq_false_2 by apply not_elem_of_nil. }
  rewrite bool_decide_eq_false_2 by done. pose proof Hc as (Ed & Hd & Hc1)%at_cons. unfold byte_ok in Hd. rewrite (at_zero _ _ _ Hc1). destruct cs as [|d2 cs].
  - rewrite bool_decide_eq_true_2 by done. rewrite (span_char_ok m c d Ed ltac:(lia) fuel xs s Hx Hf). cbn [mbind outcome_bind]. f_equal. rewrite (prefix_ext (fun x => x =? d) (fun x => bool_decide (x ∈ [d]))) by (intros x; by rewrite elem_single). lia.
  - rewrite bool_decide_eq_false_2 by done. destruct (fill_set_ok m fuel _ c _ [] Hc Hf2 stands_nil) as (set & -> & Hs). cbn [mbind outcome_bind].
    rewrite (span_set_ok m set _ true Hs fuel xs s Hx Hf). cbn [mbind outcome_bind]. f_equal. rewrite (prefix_ext _ (fun x => bool_decide (x ∈ d :: d2 :: cs))); [lia|].
    intros x. rewrite (bool_decide_ext _ (x ∈ d :: d2 :: cs)) by (rewrite app_nil_r, elem_of_reverse; done). by destruct (bool_decide _).
Qed.

Lemma prefix_index c xs : prefix_len (fun x => negb (bool_decide (x ∈ [c]))) xs = index_of c xs.
Proof. induction xs as [|x xs IH]; cbn [prefix_len index_of]; [done|]. rewrite elem_single. destruct (x =? c); cbn [negb]; [done|by rewrite IH]. Qed.

Lemma strcspn_ok m s c xs cs fuel : bytes_ok m -> 0 <= s -> cstring_at m s xs -> cstring_at m c cs -> (length xs < fuel)%nat -> (length cs <= fuel)%nat ->
  strcspn fuel m s c = Ret (Z.of_nat (prefix_len (fun x => negb (bool_decide (x ∈ cs))) xs)).
Proof.
  intros Hm H0 Hx Hc Hf Hf2. unfold strcspn. rewrite (at_zero _ _ _ Hc). destruct cs as [|d cs].
  { rewrite bool_decide_eq_true_2 by done. cbn [negb andb]. destruct Hc as [_ _ E]. rewrite Z.add_0_r in E. rewrite E, (strchrnul_at m s xs 0 fuel Hm H0 Hx Hf). cbn [mbind outcome_bind]. f_equal.
    change (u8 0) with 0. replace (index_of 0 xs) with (prefix_len (fun x => negb (bool_decide (x ∈ []))) xs); [lia|]. destruct Hx as [_ Hok _]. clear -Hok. induction xs as [|x xs IH]; [done|].
    apply Forall_cons in Hok as [[Hx _] Hok]. cbn [prefix_len index_of]. rewrite bool_decide_eq_false_2 by apply not_elem_of_nil. cbn [negb]. rewrite (proj2 (Z.eqb_neq x 0)) by lia. by rewrite IH. }
  rewrite bool_decide_eq_false_2 by done. pose proof Hc as (Ed & Hd & Hc1)%at_cons. unfold byte_ok in Hd. rewrite (at_zero _ _ _ Hc1). destruct cs as [|d2 cs].
  - rewrite bool_decide_eq_true_2 by done. cbn [negb andb]. rewrite (strchrnul_at m s xs _ fuel Hm H0 Hx Hf), Ed, u8_small by lia. cbn [mbind outcome_bind]. f_equal. rewrite prefix_index. lia.
  - rewrite bool_decide_eq_false_2 by done. cbn [negb andb]. destruct (fill_set_ok m fuel _ c _ [] Hc Hf2 stands_nil) as (set & -> & Hs). cbn [mbind outcome_bind].
    rewrite (span_set_ok m set _ false Hs fuel xs s Hx) by lia. cbn [mbind outcome_bind]. f_equal. rewrite (prefix_ext _ (fun x => negb (bool_decide (x ∈ d :: d2 :: cs)))); [lia|].
    intros x. rewrite (bool_decide_ext _ (x ∈ d :: d2 :: cs)) by (rewrite app_nil_r, elem_of_reverse; done). by destruct (bool_decide _).
Qed.

(** Both spans, for every set: none, one or more characters.  [strspn] gives the length of the
    longest prefix of characters of the set, [strcspn] of characters outside it. *)
Theorem spans_correct m s c xs cs fuel : bytes_ok m -> 0 <= s -> cstring_at m s xs -> cstring_at m c cs -> (length xs < fuel)%nat -> (length cs <= fuel)%nat ->
  strspn fuel m s c = Ret (Z.of_nat (prefix_len (fun x => bool_decide (x ∈ cs)) xs)) /\
  strcspn fuel m s c = Ret (Z.of_nat (prefix_len (fun x => negb (bool_decide (x ∈ cs))) xs)).
Proof. intros Hm H0 Hx Hc Hf Hf2. split; [apply strspn_ok; [done|done|lia|done]|by apply strcspn_ok]. Qed.

(** *** The tokenizer *)

Lemma skip_prefix d xs : skip_delim d xs = drop (prefix_len (fun x => bool_decide (x ∈ [d])) xs) xs.
Proof. induction xs as [|x xs IH]; cbn [skip_delim prefix_len]; [done|]. rewrite elem_single. destruct (x =? d); [exact IH|done]. Qed.

Lemma at_drop m a xs n : cstring_at m a xs -> (n <= length xs)%nat -> cstring_at m (a + Z.of_nat n) (drop n xs).
Proof. intros H Hn. rewrite <- (take_drop n xs) in H. apply at_app in H. by rewrite length_take_le in H. Qed.

Lemma prefix_le p xs : (prefix_len p xs <= length xs)%nat.
Proof. induction xs as [|x xs IH]; cbn; [lia|]. destruct (p x); lia. Qed.

Lemma cut_index d xs : cut_delim d xs = (take (index_of d xs) xs, if decide (index_of d xs < length xs)%nat then Some (drop (S (index_of d xs)) xs) else None).
Proof.
  induction xs as [|x xs IH]; [done|]. cbn [cut_delim index_of]. destruct (x =? d); [done|]. rewrite IH. cbn [take drop length]. f_equal.
  destruct (decide (index_of d xs < length xs)%nat), (decide (S (index_of d xs) < S (length xs))%nat); done || lia.
Qed.

(** A terminator that is written over the character at [n] ends the string there. *)
Lemma at_cut m a xs n : cstring_at m a xs -> (n < length xs)%nat -> cstring_at (put8 m (a + Z.of_nat n) 0) a (take n xs) /\ cstring_at (put8 m (a + Z.of_nat n) 0) (a + Z.of_nat n + 1) (drop (S n) xs).
Proof.
  intros H Hn. split.
  - destruct H as [H1 H2 H3]. constructor.
    + intros i x [Hx Hi]%lookup_take_Some. unfold put8. rewrite (proj2 (Z.eqb_neq _ _)) by lia. by apply H1.
    + by apply Forall_take.
    + rewrite length_take_le by lia. unfold put8. by rewrite Z.eqb_refl.
  - apply (at_frame m); [replace (a + Z.of_nat n + 1) with (a + Z.of_nat (S n)) by lia; apply at_drop; [done|lia]|]. intros x Hx. unfold put8. rewrite (proj2 (Z.eqb_neq _ _)); [done|lia].
Qed.

Lemma char_at m a xs n : cstring_at m a xs -> (m (a + Z.of_nat n) =? 0) = bool_decide (length xs <= n)%nat \/ (length xs < n)%nat.
Proof.
  intros [H1 H2 H3]. destruct (decide (n = length xs)) as [->|]; [left; rewrite H3; symmetry; apply bool_decide_eq_true_2; lia|]. destruct (decide (length xs < n)%nat); [by right|]. left.
  destruct (lookup_lt_is_Some_2 xs n) as [x Hx]; [lia|]. rewrite (H1 n x Hx). rewrite bool_decide_eq_false_2 by lia. pose proof (proj1 (Forall_forall _ _) H2 x (list_elem_of_lookup_2 _ _ _ Hx)) as [Hb _]. apply Z.eqb_neq. lia.
Qed.

Lemma index_nul xs : cstring_ok xs -> index_of 0 xs = length xs.
Proof. induction 1 as [|x xs [Hx _] _ IH]; [done|]. cbn [index_of length]. rewrite (proj2 (Z.eqb_neq x 0)) by lia. by rewrite IH. Qed.

(** C10: The tokenizer of the kernel, which searches by words and writes a terminator into the
    string, returns the token and the rest that the definition on sequences gives: both are
    strings in the new memory, and no byte outside the string has changed.  The call is the
    first on its string (which is not NULL), and the delimiter is one character. *)
Theorem strtok_r_refines m str delim saveptr xs d fuel :
  bytes_ok m -> 0 < str -> cstring_at m str xs -> cstring_at m delim [d] -> (length xs < fuel)%nat ->
  exists m' token save, strtok_r fuel m str delim saveptr = Ret (m', token, save) /\
    (forall x, x < str \/ str + Z.of_nat (length xs) < x -> m' x = m x) /\
    match CString.strtok_r xs d with
    | (None, rest) => token = 0 /\ cstring_at m' save rest
    | (Some t, rest) => token <> 0 /\ cstring_at m' token t /\ cstring_at m' save rest
    end.
Proof.
  intros Hm H0 Hx Hd Hf. pose proof Hd as (_ & Hdb & _)%at_cons. unfold byte_ok in Hdb. unfold strtok_r. rewrite (proj2 (Z.eqb_neq str 0)) by lia.
  rewrite (strspn_ok m str delim xs [d] fuel Hx Hd) by (cbn; lia). cbn [mbind outcome_bind]. unfold CString.strtok_r. rewrite skip_prefix. set (n := prefix_len _ xs). pose proof (prefix_le (fun x => bool_decide (x ∈ [d])) xs) as Hn. fold n in Hn.
  pose proof (at_drop m str xs n Hx Hn) as Hy. pose proof (length_drop xs n) as Hlen. set (ys := drop n xs) in *. rewrite (at_zero _ _ _ Hy). destruct ys as [|y ys'] eqn:Ey.
  { rewrite bool_decide_eq_true_2 by done. eexists _, _, _. split; [done|]. done. }
  rewrite <- Ey in *. rewrite bool_decide_eq_false_2 by congruence. rewrite cut_index. unfold strpbrk.
  rewrite (strcspn_ok m (str + Z.of_nat n) delim ys [d] fuel Hm ltac:(lia) Hy Hd) by (cbn [length]; lia). cbn [mbind outcome_bind]. rewrite prefix_index. pose proof (index_le d ys) as Hi.
  destruct (char_at m _ ys (index_of d ys) Hy) as [Ez|]; [|lia]. rewrite Ez. destruct (decide (index_of d ys < length ys)%nat) as [Hlt|Hge].
  - rewrite bool_decide_eq_false_2 by lia. rewrite (proj2 (Z.eqb_neq _ 0)) by lia. destruct (at_cut m _ ys (index_of d ys) Hy Hlt) as [Ht Hr].
    eexists _, _, _. split; [done|]. split; [intros x Hxx; unfold put8; rewrite (proj2 (Z.eqb_neq _ _)) by lia; done|]. rewrite Ey in *. cbn iota. split; [lia|]. done.
  - rewrite bool_decide_eq_true_2 by lia. change (0 =? 0) with true. cbn iota. unfold lfind, strchr. rewrite (strchrnul_at m (str + Z.of_nat n) ys 0 fuel Hm ltac:(lia) Hy) by lia. cbn [mbind outcome_bind]. change (u8 0) with 0.
    rewrite (index_nul ys) by apply Hy. rewrite (ca_end _ _ _ Hy), Z.eqb_refl. eexists _, _, _. split; [done|]. split; [done|]. rewrite Ey in *. cbn iota. split; [lia|].
    split; [rewrite take_ge by lia; done|]. apply at_nil. apply (ca_end _ _ _ Hy).
Qed.

(** ** Filling *)

Definition filled (m m' : Z -> Z) (d n v : Z) : Prop := forall x, m' x = if (d <=? x) && (x <? d + n) then v else m x.

Lemma filled_step m m1 m2 d k c v : filled m m1 d k v -> 0 <= k -> 0 <= c -> filled m1 m2 (d + k) c v -> filled m m2 d (k + c) v.
Proof. intros H1 Hk Hc H2 x. rewrite H2, H1. zcases; cbn [andb]; done || lia. Qed.

Lemma memset_word val : 0 <= val < 256 ->
  u32 (Z.lor (Z.lor (Z.lor val (s32 (Z.shiftl val 8))) (s32 (Z.shiftl val 16))) (s32 (Z.shiftl val 24))) = val + 256 * val + 65536 * val + 16777216 * val.
Proof.
  intros Hv. apply Z.eqb_eq.
  assert (forallb (fun v => u32 (Z.lor (Z.lor (Z.lor v (s32 (Z.shiftl v 8))) (s32 (Z.shiftl v 16))) (s32 (Z.shiftl v 24))) =? v + 256 * v + 65536 * v + 16777216 * v) (seqZ 0 256) = true) as Hall by (vm_compute; reflexivity).
  rewrite forallb_forall in Hall. apply Hall, list_elem_of_In, elem_of_seqZ. lia.
Qed.

Lemma fill_word m d v : 0 <= v < 256 -> filled m (put32 m d (v + 256 * v + 65536 * v + 16777216 * v)) d 4 v.
Proof. intros Hv x. change (v + 256 * v + 65536 * v + 16777216 * v) with (get32 (fun _ => v) 0). rewrite put32_get32 by (by intros y). done. Qed.

Lemma fill32_ok todo : forall m m1 d v i, 0 <= v < 256 -> filled m m1 d (4 * i) v -> 0 <= i -> filled m (fill32 m1 d (v + 256 * v + 65536 * v + 16777216 * v) i todo) d (4 * (i + Z.of_nat todo)) v.
Proof.
  induction todo as [|todo IH]; intros m m1 d v i Hv H Hi; cbn [fill32]; [by rewrite Z.add_0_r|]. replace (i + Z.of_nat (S todo)) with (i + 1 + Z.of_nat todo) by lia. apply IH; [done| |lia].
  replace (4 * (i + 1)) with (4 * i + 4) by lia. eapply filled_step; [exact H|lia|lia|by apply fill_word].
Qed.

Lemma fill8_ok todo : forall m m1 d v k i, filled m m1 d (k + i) v -> 0 <= k -> 0 <= i -> filled m (fill8 m1 (d + k) v i todo) d (k + i + Z.of_nat todo) v.
Proof.
  induction todo as [|todo IH]; intros m m1 d v k i H Hk Hi; cbn [fill8]; [by rewrite Z.add_0_r|]. replace (k + i + Z.of_nat (S todo)) with (k + (i + 1) + Z.of_nat todo) by lia. apply IH; [|lia|lia].
  rewrite Z.add_assoc. eapply filled_step; [exact H|lia|lia|]. intros x. unfold put8. zcases; cbn [andb]; done || lia.
Qed.

(** [memset] of a byte fills the range, four bytes at a time. *)
Theorem memset_fills m dest val n : 0 <= val < 256 -> 0 <= n < 2147483648 ->
  forall x, memset m dest val n x = if (dest <=? x) && (x <? dest + n) then val else m x.
Proof.
  intros Hv Hn. unfold memset. rewrite memset_word, u8_small, Z.quot_div_nonneg, Z.rem_mod_nonneg by lia. pose proof (Z.div_mod n 4 ltac:(lia)) as E. pose proof (Z.mod_pos_bound n 4 ltac:(lia)).
  assert (0 <= n / 4 <= n) by (split; [apply Z.div_pos; lia|apply Z.div_le_upper_bound; lia]). rewrite !u32_small by lia.
  pose proof (fill32_ok (Z.to_nat (n / 4)) m m dest val 0 Hv) as H1. rewrite Z2Nat.id, Z.add_0_l in H1 by lia. specialize (H1 ltac:(intros x; zcases; cbn [andb]; done || lia) ltac:(lia)).
  pose proof (fill8_ok (Z.to_nat (n mod 4)) m (fill32 m dest (val + 256 * val + 65536 * val + 16777216 * val) 0 (Z.to_nat (n / 4))) dest val (4 * (n / 4)) 0) as H2. rewrite !Z.add_0_r, Z2Nat.id in H2 by lia.
  specialize (H2 H1 ltac:(lia) ltac:(lia)). rewrite (Z.mul_comm (n / 4) 4). rewrite <- E in H2. exact H2.
Qed.

(** A larger value is not cut to a byte before it is spread over a word. *)
Example memset_large : memset (fun _ => 0) 0 0x1FE 4 1 = 0xFF.
Proof. reflexivity. Qed.

(** ** Bounded copies *)

Lemma to_end_ok m : forall fuel xs s, cstring_at m s xs -> (length xs <= fuel)%nat -> to_end fuel m s = Ret (s + Z.of_nat (length xs) + 1).
Proof.
  induction fuel as [|fuel IH]; intros xs s Hc Hf; cbn [to_end]; rewrite (at_zero _ _ _ Hc); destruct xs as [|x xs]; cbn [length] in *; try lia; try (rewrite bool_decide_eq_true_2, Z.add_0_r by done; done).
  rewrite bool_decide_eq_false_2 by done. apply at_cons in Hc as (_ & _ & Hc). rewrite (IH xs (s + 1) Hc) by lia. f_equal. lia.
Qed.

(** The loop copies until the terminator or until [n] is used up. *)
Lemma lcpy_loop_ok : forall fuel m xs d s n, cstring_at m s xs -> 0 < n -> (length xs < fuel)%nat -> d + n <= s \/ s + Z.of_nat (length xs) < d ->
  let k := Z.of_nat (length xs) in
  exists m', (if k <? n then lcpy_loop fuel m d s n = Ret (m', d + k + 1, s + k + 1, n - k) else lcpy_loop fuel m d s n = Ret (m', d + n, s + n, 0)) /\
    moved m m' d s (Z.min (k + 1) n).
Proof.
  induction fuel as [|fuel IH]; intros m xs d s n Hc Hn Hf Hd k; [lia|]. cbn [lcpy_loop]. rewrite (at_zero _ _ _ Hc). destruct xs as [|x xs]; subst k; cbn [length] in *.
  { rewrite bool_decide_eq_true_2 by done. rewrite (proj2 (Z.ltb_lt _ _)) by lia. eexists. split; [repeat f_equal; lia|]. rewrite Z.min_l by lia. pose proof (step_byte m d s) as Hs. intros y. rewrite Hs. done. }
  rewrite bool_decide_eq_false_2 by done. pose proof Hc as (E & _ & Hc1)%at_cons.
  assert (cstring_at (put8 m d (m s)) (s + 1) xs) as Hc2 by (apply (at_frame m); [done|]; intros y Hy; unfold put8; rewrite (proj2 (Z.eqb_neq _ _)); [done|lia]).
  assert (moved m (put8 m d (m s)) d s 1) as H1 by (intros y; apply (step_byte m d s)).
  destruct (Z.eqb_spec (n - 1) 0) as [En|Hn1].
  { rewrite (proj2 (Z.ltb_ge _ _)) by lia. eexists. split; [repeat f_equal; lia|]. by rewrite Z.min_r, (ltac:(lia) : n = 1) by lia. }
  destruct (IH (put8 m d (m s)) xs (d + 1) (s + 1) (n - 1) Hc2) as (m' & Er & Hm'); [lia|lia|lia|]. exists m'. split.
  - destruct (Z.ltb_spec (Z.of_nat (length xs)) (n - 1)), (Z.ltb_spec (Z.of_nat (S (length xs))) n); try lia; rewrite Er; repeat match goal with |- Ret _ = Ret _ => f_equal | |- (_, _) = (_, _) => f_equal end; lia.
  - replace (Z.min (Z.of_nat (S (length xs)) + 1) n) with (1 + Z.min (Z.of_nat (length xs) + 1) (n - 1)) by lia. intros y. rewrite Hm'. rewrite !H1.
    zcases; cbn [andb]; try lia; try done; f_equal; lia.
Qed.

(** [strlcpy] returns the length of the source; with a size that is not 0 the destination
    holds as much of it as fits, terminated, and no byte outside the destination
    changes. *)
Theorem strlcpy_copies m dst src siz xs fuel : cstring_at m src xs -> 0 <= siz -> (length xs < fuel)%nat -> dst + siz <= src \/ src + Z.of_nat (length xs) < dst ->
  exists m', strlcpy fuel m dst src siz = Ret (m', Z.of_nat (length xs)) /\
    (0 < siz -> cstring_at m' dst (take (Z.to_nat (siz - 1)) xs)) /\ (forall x, x < dst \/ dst + siz <= x -> m' x = m x).
Proof.
  intros Hc H0 Hf Hd. unfold strlcpy. set (k := Z.of_nat (length xs)) in *. destruct (Z.eqb_spec siz 0) as [->|Hz]; cbn [negb andb mbind outcome_bind].
  { rewrite Z.eqb_refl, (to_end_ok m fuel xs src Hc) by lia. cbn [mbind outcome_bind]. exists m. split; [do 2 f_equal; lia|]. split; [lia|done]. }
  destruct (Z.eqb_spec (siz - 1) 0) as [E1|H1]; cbn [negb mbind outcome_bind].
  { rewrite E1, Z.eqb_refl. assert (cstring_at (put8 m dst 0) src xs) as Hc' by (apply (at_frame m); [done|]; intros y Hy; unfold put8; rewrite (proj2 (Z.eqb_neq _ _)); [done|lia]).
    rewrite (to_end_ok _ fuel xs src Hc') by lia. cbn [mbind outcome_bind]. eexists. split; [do 2 f_equal; lia|]. split.
    - intros _. apply at_nil. unfold put8. by rewrite Z.eqb_refl.
    - intros y Hy. unfold put8. rewrite (proj2 (Z.eqb_neq _ _)); [done|lia]. }
  destruct (lcpy_loop_ok fuel m xs dst src (siz - 1) Hc) as (m1 & Er & Hm1); [lia|lia|lia|]. fold k in Er, Hm1. destruct (Z.ltb_spec k (siz - 1)) as [Hlt|Hge]; rewrite Er; cbn [mbind outcome_bind].
  - rewrite (proj2 (Z.eqb_neq (siz - 1 - k) 0)) by lia. cbn [mbind outcome_bind]. rewrite Z.min_l in Hm1 by lia. exists m1. split; [do 2 f_equal; lia|]. split.
    + intros _. rewrite take_ge by lia. destruct Hc as [C1 C2 C3]. constructor; [|done|].
      * intros i x Hx. rewrite Hm1. pose proof (lookup_lt_Some _ _ _ Hx). rewrite (proj2 (Z.leb_le _ _)), (proj2 (Z.ltb_lt _ _)) by lia. rewrite <- (C1 i x Hx). cbn [andb]. f_equal. lia.
      * rewrite Hm1, (proj2 (Z.leb_le _ _)), (proj2 (Z.ltb_lt _ _)) by lia. rewrite <- C3. cbn [andb]. f_equal. lia.
    + intros y Hy. rewrite Hm1. zcases; cbn [andb]; done || lia.
  - rewrite Z.eqb_refl. rewrite Z.min_r in Hm1 by lia. pose proof (at_drop m src xs (Z.to_nat (siz - 1)) Hc ltac:(lia)) as Hr. rewrite Z2Nat.id in Hr by lia.
    assert (cstring_at (put8 m1 (dst + (siz - 1)) 0) (src + (siz - 1)) (drop (Z.to_nat (siz - 1)) xs)) as Hr'.
    { apply (at_frame m); [done|]. rewrite length_drop. intros y Hy. unfold put8. rewrite (proj2 (Z.eqb_neq _ _)) by lia. rewrite Hm1. zcases; cbn [andb]; done || lia. }
    rewrite (to_end_ok _ fuel _ _ Hr') by (rewrite length_drop; lia). rewrite length_drop. cbn [mbind outcome_bind]. eexists. split; [do 2 f_equal; lia|]. destruct Hc as [C1 C2 C3]. split.
    + intros _. constructor.
      * intros i x [Hx Hi]%lookup_take_Some. unfold put8. rewrite (proj2 (Z.eqb_neq _ _)) by lia. rewrite Hm1, (proj2 (Z.leb_le _ _)), (proj2 (Z.ltb_lt _ _)) by lia. rewrite <- (C1 i x Hx). cbn [andb]. f_equal. lia.
      * by apply Forall_take.
      * rewrite length_take_le by lia. rewrite Z2Nat.id by lia. unfold put8. by rewrite Z.eqb_refl.
    + intros y Hy. unfold put8. rewrite (proj2 (Z.eqb_neq _ _)) by lia. rewrite Hm1. zcases; cbn [andb]; done || lia.
Qed.

(** ** Searching from the end, and comparing *)

(** [strrchr] finds the last occurrence; the terminator counts as a character. *)
Theorem strrchr_last m s c xs fuel : cstring_at m s xs -> (length xs <= fuel)%nat ->
  exists r, strrchr fuel m s c = Ret r /\
    ((r = 0 /\ forall x, s <= x <= s + Z.of_nat (length xs) -> m x <> u8 c) \/
     (s <= r <= s + Z.of_nat (length xs) /\ m r = u8 c /\ forall x, r < x <= s + Z.of_nat (length xs) -> m x <> u8 c)).
Proof.
  intros Hc Hf. unfold strrchr, strlen. rewrite <- (Z.add_0_r s) in Hc. rewrite (strlen_loop_ok m fuel xs s 0 Hc Hf). cbn [mbind outcome_bind]. eexists. split; [done|]. unfold memrchr.
  replace (Z.to_nat (0 + Z.of_nat (length xs) + 1)) with (S (length xs)) by lia. generalize (u8 c). intros d.
  assert (forall n, (memrchr_loop m s d n = 0 /\ forall x, s <= x < s + Z.of_nat n -> m x <> d) \/
    (s <= memrchr_loop m s d n < s + Z.of_nat n /\ m (memrchr_loop m s d n) = d /\ forall x, memrchr_loop m s d n < x < s + Z.of_nat n -> m x <> d)) as Hall.
  { induction n as [|n IH]; cbn [memrchr_loop]; [left; split; [done|lia]|]. destruct (Z.eqb_spec (m (s + Z.of_nat n)) d) as [E|Hne].
    - right. split; [lia|]. split; [done|lia].
    - destruct IH as [[E Hx]|(H1 & H2 & H3)]; [left; split; [done|]|right; split; [lia|]; split; [done|]]; intros x Hx'; (destruct (decide (x = s + Z.of_nat n)) as [->|]; [done|]); [apply Hx|apply H3]; lia. }
  destruct (Hall (S (length xs))) as [[E Hx]|(H1 & H2 & H3)]; [left; split; [done|]; intros x Hx'; apply Hx; lia|right; split; [lia|]; split; [done|]; intros x Hx; apply H3; lia].
Qed.

(** [memcmp] is 0 exactly for equal ranges. *)
Theorem memcmp_zero m lhs rhs count : 0 <= count -> memcmp m lhs rhs count = 0 <-> forall i, 0 <= i < count -> m (lhs + i) = m (rhs + i).
Proof.
  intros Hc. unfold memcmp. rewrite <- (Z2Nat.id count) in * by done. rewrite Nat2Z.id. clear Hc. generalize (Z.to_nat count). intros n. revert lhs rhs. induction n as [|n IH]; intros lhs rhs; cbn [memcmp_loop]; [split; [lia|done]|].
  destruct (Z.eqb_spec (m lhs) (m rhs)) as [E|Hne]; cbn [negb].
  - rewrite IH. split; intros H i Hi.
    + destruct (decide (i = 0)) as [->|]; [by rewrite !Z.add_0_r|]. specialize (H (i - 1) ltac:(lia)). by replace (lhs + 1 + (i - 1)) with (lhs + i) in H by lia; replace (rhs + 1 + (i - 1)) with (rhs + i) in H by lia.
    + rewrite <- !Z.add_assoc. apply H. lia.
  - split; [destruct (m lhs <? m rhs); lia|]. intros H. destruct Hne. specialize (H 0 ltac:(lia)). by rewrite !Z.add_0_r in H.
Qed.

(** [strncmp] of ranges that differ has no value. *)
Theorem strncmp_undefined m s1 s2 n i : s1 <> 0 -> s2 <> 0 -> 0 <= i < n -> m (s1 + i) <> m (s2 + i) -> (forall j, 0 <= j < i -> m (s1 + j) = m (s2 + j) /\ m (s1 + j) <> 0) ->
  strncmp m s1 s2 n = Fault.
Proof.
  intros H1 H2 Hi Hd Hj. unfold strncmp. rewrite (proj2 (Z.eqb_neq n 0)), (proj2 (Z.eqb_neq s1 0)), (proj2 (Z.eqb_neq s2 0)) by lia. cbn [orb]. clear H1 H2.
  replace n with (Z.of_nat (Z.to_nat n)) in Hi by lia. revert s1 s2 i Hi Hd Hj. generalize (Z.to_nat n). intros k. induction k as [|k IH]; intros s1 s2 i Hi Hd Hj; cbn [strncmp_loop]; [done|].
  destruct (decide (i = 0)) as [->|Hi0]; [rewrite !Z.add_0_r in Hd; by rewrite (proj2 (Z.eqb_neq _ _) Hd)|]. destruct (Hj 0 ltac:(lia)) as [E En]. rewrite !Z.add_0_r in *. rewrite E, Z.eqb_refl.
  rewrite (proj2 (Z.eqb_neq (Z.of_nat k) 0)), (proj2 (Z.eqb_neq (m s2) 0)) by (congruence || lia). cbn [orb]. apply (IH (s1 + 1) (s2 + 1) (i - 1)); [lia| |].
  - by replace (s1 + 1 + (i - 1)) with (s1 + i) by lia; replace (s2 + 1 + (i - 1)) with (s2 + i) by lia.
  - intros j Hj'. specialize (Hj (j + 1) ltac:(lia)). by replace (s1 + 1 + j) with (s1 + (j + 1)) by lia; replace (s2 + 1 + j) with (s2 + (j + 1)) by lia.
Qed.

Module Demo.

(** A memory that holds two words with a blank between them from address 1 on, and a
    delimiter at address 40. *)
Definition text : list Z := [0; 111; 110; 101; 32; 116; 119; 111; 0].
Definition mem (x : Z) : Z := if x =? 40 then 32 else if (0 <=? x) && (x <? 9) then nth (Z.to_nat x) text 0 else 0.

Lemma mem_ok : bytes_ok mem.
Proof.
  intros x. unfold mem. destruct (Z.eqb_spec x 40); [lia|]. destruct (Z.leb_spec 0 x); [|cbn; lia]. destruct (Z.ltb_spec x 9); [|cbn; lia]. cbn [andb].
  assert (x = 0 \/ x = 1 \/ x = 2 \/ x = 3 \/ x = 4 \/ x = 5 \/ x = 6 \/ x = 7 \/ x = 8) as Hx by lia. repeat destruct Hx as [->|Hx]; try subst x; split; vm_compute; congruence.
Qed.

Lemma mem_text : cstring_at mem 1 [111; 110; 101; 32; 116; 119; 111].
Proof.
  constructor; [|repeat constructor; unfold byte_ok; lia|reflexivity].
  intros i x Hx. do 7 (destruct i as [|i]; [by injection Hx as <-|]). done.
Qed.
Lemma mem_delim : cstring_at mem 40 [32].
Proof. constructor; [|repeat constructor; unfold byte_ok; lia|reflexivity]. intros i x Hx. destruct i as [|i]; [by injection Hx as <-|done]. Qed.

(** A move by one within the text: the ranges overlap and are not aligned. *)
Lemma memmove_moves_witness : exists m', memmove mem 2 1 6 = Ret m' /\ m' 2 = 111 /\ m' 7 = 119 /\ m' 8 = 0.
Proof.
  destruct (memmove_moves mem 2 1 6 mem_ok ltac:(lia)) as (m' & E & H). exists m'. split; [exact E|]. rewrite !H. split; [reflexivity|]. split; reflexivity.
Defined.

Lemma strchrnul_finds_witness : strchrnul 3 mem 1 32 = Ret 4.
Proof.
  apply (strchrnul_finds mem 1 32 4 3 mem_ok); [lia| |cbn; lia]. split; [lia|]. split; [reflexivity|].
  intros y Hy. assert (y = 1 \/ y = 2 \/ y = 3) as [->|[->| ->]] by lia; reflexivity.
Defined.

Lemma strtok_r_refines_witness : exists m' token save, strtok_r 8 mem 1 40 0 = Ret (m', token, save) /\ token <> 0 /\ cstring_at m' token [111; 110; 101] /\ cstring_at m' save [116; 119; 111].
Proof.
  destruct (strtok_r_refines mem 1 40 0 _ 32 8 mem_ok ltac:(lia) mem_text mem_delim ltac:(cbn; lia)) as (m' & t & s & E & _ & H). exists m', t, s. split; [exact E|]. exact H.
Defined.

End Demo.

End Kutils.
