(* ===== verification/Console.v ===== *)
(** * The text screen ([kernel/src/video.c])

    The screen is a part of memory, 25 rows of 80 cells of two bytes, with the cursor in two
    variables.  The model writes to a memory of bytes with the routines of [Kutils]; what is
    sent to the ports of the display is a log.  The screen is shown to display the last lines
    of what has been printed. *)

From stdpp Require Import base numbers strings list.
From S2P Require Import Prelude CString Vsprintf Kutils.

Module Console.

Import Vsprintf.
Import Kutils.

Definition VGA_WIDTH : Z := 80.
Definition VGA_HEIGHT : Z := 25.
Definition video_ram : Z := 0xB8000.
Definition COLOR_BLACK : Z := 0.
Definition COLOR_WHITE : Z := 15.

(** The memory, the variables of the file, and what was sent to ports, the last first. *)
Record console := Console { ram : Z -> Z; term_color : Z; c_y : Z; c_x : Z; sent : list (Z * Z) }.

Definition set_ram (s : console) m := Console m (term_color s) (c_y s) (c_x s) (sent s).
Definition move (s : console) y x := Console (ram s) (term_color s) y x (sent s).
Definition outb (s : console) (port data : Z) : console := Console (ram s) (term_color s) (c_y s) (c_x s) ((port, u8 data) :: sent s).

Definition get16 (m : Z -> Z) (a : Z) : Z := m a + 256 * m (a + 1).
Definition put16 (m : Z -> Z) (a v : Z) : Z -> Z := put8 (put8 m a (v mod 256)) (a + 1) (v / 256 mod 256).

(** [for( ;count != 0; count--) *temp++ = value;] *)
Fixpoint memsetw (m : Z -> Z) (dest value : Z) (count : nat) : Z -> Z :=
  match count with O => m | S count' => memsetw (put16 m dest value) (dest + 2) value count' end.

Definition make_color (bg fg : Z) : Z := u8 (Z.lor fg (Z.shiftl bg 4)).
Definition make_vga_entry (c color : Z) : Z := u16 (Z.lor c (Z.shiftl color 8)).
Definition blank : Z := make_vga_entry 32 (make_color COLOR_BLACK COLOR_BLACK).

(** The loop of [clear], with the rows that remain. *)
Fixpoint clear_rows (m : Z -> Z) (i : Z) (todo : nat) : Z -> Z :=
  match todo with
  | O => m
  | S todo' => clear_rows (memsetw m (video_ram + 2 * (i * VGA_WIDTH)) blank (Z.to_nat VGA_WIDTH)) (i + 1) todo'
  end.
Definition clear (s : console) : console := set_ram s (clear_rows (ram s) 0 (Z.to_nat VGA_HEIGHT)).

Definition set_term_color (s : console) (color : Z) : console := Console (ram s) color (c_y s) (c_x s) (sent s).

Definition init_video_term (s : console) : console :=
  set_term_color (move (clear s) 0 0) (make_color COLOR_BLACK COLOR_WHITE).

Definition update_cursor (s : console) : console :=
  let curloc := u16 (c_y s * 80 + c_x s) in
  let s := outb s 0x3D4 14 in
  let s := outb s 0x3D5 (Z.shiftr curloc 8) in
  let s := outb s 0x3D4 15 in
  outb s 0x3D5 curloc.

Definition scroll (s : console) : console :=
  if 25 <=? c_y s then
    let m := memcpy (ram s) video_ram (video_ram + 2 * 80) (24 * 80 * 2) in
    let m := memsetw m (video_ram + 2 * (24 * 80)) blank 80 in
    move (set_ram s m) (25 - 1) (c_x s)
  else s.

(** The first part of [putch]: [c] is a signed character. *)
Definition put_cell (s : console) (c : Z) : console :=
  if c =? 8 then (if c_x s =? 0 then s else move s (c_y s) (c_x s - 1))
  else if 80 <=? c_x s then move s (u32 (c_y s + 1)) 0
  else if c =? 9 then move s (c_y s) (Z.land (u32 (c_x s + 8)) (u32 (Z.lnot 7)))
  else if c =? 10 then move s (u32 (c_y s + 1)) 0
  else if c =? 13 then move s (c_y s) 0
  else if 32 <=? c then
    move (set_ram s (put16 (ram s) (video_ram + 2 * (c_y s * 80 + c_x s)) (make_vga_entry c (term_color s)))) (c_y s) (u32 (c_x s + 1))
  else s.
Definition putch (s : console) (c : Z) : console := update_cursor (scroll (put_cell s c)).

(** The loop over the characters of a string. *)
Fixpoint puts (s : console) (text : cstring) : console :=
  match text with [] => s | c :: text' => puts (putch s (s8 c)) text' end.

(** ** Numbers *)

(** [while (acc > 0)]: the digits, the lowest first. *)
Fixpoint dec_digits (fuel : nat) (acc : Z) : list Z :=
  match fuel with
  | O => []
  | S fuel' => if 0 <? acc then 48 + Z.rem acc 10 :: dec_digits fuel' (Z.quot acc 10) else []
  end.

(** Ten rounds are enough for 32 bits; [c2] holds the digits in the other order. *)
Definition put_dec (s : console) (n : Z) : console :=
  if n =? 0 then putch s 48 else puts s (rev (dec_digits 10 (s32 n))).

(** [for (i = 28; i > 0; i -= 4)], with the number of rounds that remain. *)
Fixpoint hex_loop (s : console) (n : Z) (todo : nat) (noZeroes : bool) : console :=
  match todo with
  | O => s
  | S todo' =>
      let tmp := Z.land (Z.shiftr n (4 * Z.of_nat todo)) 0xF in
      if (tmp =? 0) && noZeroes then hex_loop s n todo' noZeroes
      else if 0xA <=? tmp then hex_loop (putch s (tmp - 0xA + 97)) n todo' false
      else hex_loop (putch s (tmp + 48)) n todo' false
  end.
Definition monitor_write_hex (s : console) (n : Z) : console := hex_loop (puts s (cstr "0x")) n 7 true.

(** [vprintf]: a percent sign before any other character is left out. *)
Fixpoint vprintf (s : console) (args : cstring) (ap : list arg) : outcome console :=
  match args with
  | [] => Ret s
  | c :: args' =>
      if c =? 37 then
        match args' with
        | [] => Ret s
        | d :: args'' =>
            if d =? 99 then match ap with AInt v :: ap' => vprintf (putch s (s8 v)) args'' ap' | _ => Fault end
            else if d =? 120 then match ap with AInt v :: ap' => vprintf (monitor_write_hex s (u32 v)) args'' ap' | _ => Fault end
            else if d =? 100 then match ap with AInt v :: ap' => vprintf (put_dec s (u32 v)) args'' ap' | _ => Fault end
            else if d =? 115 then match ap with AStr (Some t) :: ap' => vprintf (puts s t) args'' ap' | _ => Fault end
            else vprintf s args' ap
        end
      else vprintf (putch s (s8 c)) args' ap
  end.


(** ** Cells *)

(** The entry of a cell, counted from the upper left corner. *)
Definition cell (m : Z -> Z) (i : Z) : Z := get16 m (video_ram + 2 * i).

(** Nothing outside the screen differs. *)
Definition same_outside (m m' : Z -> Z) : Prop := forall x, x < video_ram \/ video_ram + 4000 <= x -> m' x = m x.

Lemma put16_cell m i j v : 0 <= v < 65536 -> cell (put16 m (video_ram + 2 * i) v) j = if j =? i then v else cell m j.
Proof.
  intros Hv. unfold cell, get16, put16, put8. destruct (Z.eqb_spec j i) as [->|Hne].
  - zcases; try lia. Z.to_euclidean_division_equations; lia.
  - zcases; try lia.
Qed.

Lemma put16_bytes m a v : bytes_ok m -> bytes_ok (put16 m a v).
Proof. intros Hm. unfold put16. apply put8_bytes; [apply put8_bytes; [done|]|]; apply Z.mod_pos_bound; lia. Qed.

Lemma put16_outside m i v : 0 <= i < 2000 -> same_outside m (put16 m (video_ram + 2 * i) v).
Proof. intros Hi x Hx. unfold put16, put8. zcases; lia || done. Qed.

Lemma same_trans m1 m2 m3 : same_outside m1 m2 -> same_outside m2 m3 -> same_outside m1 m3.
Proof. intros H1 H2 x Hx. by rewrite H2, H1. Qed.

(** Filling cells. *)
Lemma memsetw_ok v n : forall m i, 0 <= v < 65536 -> bytes_ok m -> 0 <= i -> i + Z.of_nat n <= 2000 ->
  let m' := memsetw m (video_ram + 2 * i) v n in
  (forall j, cell m' j = if (i <=? j) && (j <? i + Z.of_nat n) then v else cell m j) /\ bytes_ok m' /\ same_outside m m'.
Proof.
  induction n as [|n IH]; intros m i Hv Hm Hi Hn m'; subst m'; cbn [memsetw].
  - split; [|done]. intros j. zcases; cbn [andb]; done || lia.
  - replace (video_ram + 2 * i + 2) with (video_ram + 2 * (i + 1)) by lia. destruct (IH (put16 m (video_ram + 2 * i) v) (i + 1)) as (Hc & Hb & Ho); [done|by apply put16_bytes|lia|lia|].
    split; [|split; [exact Hb|apply (same_trans _ (put16 m (video_ram + 2 * i) v)); [apply put16_outside; lia|exact Ho]]]. intros j. rewrite Hc, put16_cell by done. zcases; cbn [andb]; done || lia.
Qed.

(** Scrolling: the cells move up by a row and the last row is blank. *)
Lemma scroll_ram m : bytes_ok m ->
  let m' := memsetw (memcpy m video_ram (video_ram + 2 * 80) (24 * 80 * 2)) (video_ram + 2 * (24 * 80)) blank 80 in
  (forall j, 0 <= j < 2000 -> cell m' j = if j <? 1920 then cell m (j + 80) else blank) /\ bytes_ok m' /\ same_outside m m'.
Proof.
  intros Hm m'. pose proof (memcpy_ok m video_ram (video_ram + 2 * 80) (24 * 80 * 2) Hm ltac:(lia) ltac:(left; lia)) as Hc.
  assert (bytes_ok (memcpy m video_ram (video_ram + 2 * 80) (24 * 80 * 2))) as Hb by (intros x; rewrite Hc; destruct (_ && _); apply Hm).
  destruct (memsetw_ok blank 80 _ (24 * 80) ltac:(vm_compute; split; congruence) Hb ltac:(lia) ltac:(lia)) as (Hf & Hfb & Hfo). split; [|split; [exact Hfb|]].
  - intros j Hj. subst m'. rewrite Hf. destruct (Z.ltb_spec j 1920); zcases; cbn [andb]; try lia; try done. unfold cell, get16. rewrite !Hc. zcases; cbn [andb]; try lia. f_equal; [f_equal; lia|]. f_equal. f_equal. lia.
  - intros x Hx. subst m'. rewrite Hfo by done. rewrite Hc. zcases; cbn [andb]; done || lia.
Qed.

(** ** The screen stays the screen *)

Record screen_ok (s : console) : Prop := {
  ok_bytes : bytes_ok (ram s);
  ok_row : 0 <= c_y s < 25;
  ok_col : 0 <= c_x s <= 80
}.

Lemma u16_bound v : 0 <= u16 v < 65536.
Proof. apply Z.mod_pos_bound. lia. Qed.

(** [put_cell] may leave the cursor one row below the screen; [scroll] puts it back. *)
Lemma put_cell_ok s c : screen_ok s ->
  let s' := put_cell s c in bytes_ok (ram s') /\ 0 <= c_y s' <= 25 /\ 0 <= c_x s' <= 80 /\ same_outside (ram s) (ram s') /\ term_color s' = term_color s.
Proof.
  intros [Hb Hy Hx] s'. subst s'. unfold put_cell.
  assert (c_x s < 80 -> 0 <= Z.land (c_x s + 8) (u32 (Z.lnot 7)) <= 80) as Htab.
  { intros Hn. change (u32 (Z.lnot 7)) with (Z.land (Z.lnot 7) (Z.ones 32)). rewrite Z.land_assoc, Z.land_ones by lia. change (Z.lnot 7) with (Z.lnot (Z.ones 3)).
    rewrite <- Z.ldiff_land, Z.ldiff_ones_r by lia. rewrite Z.shiftr_div_pow2, Z.shiftl_mul_pow2 by lia. change (2 ^ 3) with 8. Z.to_euclidean_division_equations; lia. }
  repeat case_match; cbn [move set_ram ram c_y c_x term_color]; rewrite ?u32_small by lia; repeat match goal with |- _ /\ _ => split end; try done; try lia;
    [by apply put16_bytes|apply put16_outside; lia].
Qed.

Lemma putch_ok s c : screen_ok s -> screen_ok (putch s c) /\ same_outside (ram s) (ram (putch s c)) /\ term_color (putch s c) = term_color s.
Proof.
  intros H. destruct (put_cell_ok s c H) as (Hb & Hy & Hx & Ho & Ht). unfold putch, scroll, update_cursor. destruct (Z.leb_spec 25 (c_y (put_cell s c))).
  - destruct (scroll_ram _ Hb) as (_ & Hb' & Ho'). split; [|split; [exact (same_trans _ _ _ Ho Ho')|done]]. constructor; [exact Hb'|cbn; lia|exact Hx].
  - split; [constructor; [exact Hb|cbn; lia|exact Hx]|]. done.
Qed.

Lemma puts_ok s text : screen_ok s ->
  screen_ok (puts s text) /\ same_outside (ram s) (ram (puts s text)) /\ term_color (puts s text) = term_color s.
Proof.
  revert s. induction text as [|c text IH]; intros s H; [done|]. cbn [puts]. destruct (putch_ok s (s8 c) H) as (H1 & H2 & H3). destruct (IH _ H1) as (H4 & H5 & H6).
  split; [exact H4|]. split; [exact (same_trans _ _ _ H2 H5)|]. by rewrite H6.
Qed.

(** Whatever is printed, the cursor stays on the screen and no byte outside the screen
    changes; the color that is set stays. *)
Theorem puts_confined s text : screen_ok s ->
  screen_ok (puts s text) /\ same_outside (ram s) (ram (puts s text)) /\ term_color (puts s text) = term_color s.
Proof. apply puts_ok. Qed.

(** ** What the screen shows *)

(** A row shows a line: its entries, and blanks behind them. *)
Definition row_shows (m : Z -> Z) (r : Z) (line : list Z) : Prop := forall c, 0 <= c < 80 -> cell m (r * 80 + c) = nth (Z.to_nat c) line 32.

(** The lines printed so far, the last first: the cursor is behind the last of them, and the
    rows above show the ones before. *)
Record shows (s : console) (lines : list (list Z)) : Prop := {
  sh_ok : screen_ok s;
  sh_lines : lines <> [];
  sh_short : Forall (fun l => Z.of_nat (length l) <= 80) lines;
  sh_row : c_y s = Z.min 24 (Z.of_nat (length lines) - 1);
  sh_col : c_x s = Z.of_nat (length (hd [] lines));
  sh_rows r : 0 <= r < 25 -> row_shows (ram s) r (if r <=? c_y s then nth (Z.to_nat (c_y s - r)) lines [] else [])
}.

(** A character that is printed, and the entry of its cell. *)
Definition printable (c : Z) : Prop := 32 <= c < 128.
Definition glyph (color c : Z) : Z := c + 256 * color.

Lemma glyph_entry color c : 0 <= color < 256 -> printable c -> make_vga_entry c color = glyph color c.
Proof.
  intros Hc Hp. unfold printable in Hp. unfold make_vga_entry, glyph. rewrite Z.shiftl_mul_pow2 by lia. change (2 ^ 8) with 256.
  assert (Z.lor c (color * 256) = c + 256 * color) as ->; [|apply Z.mod_small; lia].
  rewrite <- Z.lxor_lor, <- Z.add_nocarry_lxor; try lia; change 256 with (2 ^ 8); rewrite <- Z.shiftl_mul_pow2 by lia; apply Z.bits_inj'; intros n Hn; rewrite Z.land_spec, Z.bits_0;
    (destruct (Z_lt_ge_dec n 8); [rewrite Z.shiftl_spec_low by lia; apply andb_false_r|]); rewrite (Z.bits_above_log2 c n); try done; try lia;
    apply Z.log2_lt_pow2; try lia; apply (Z.lt_le_trans _ (2 ^ 8)); try lia; apply Z.pow_le_mono_r; lia.
Qed.

Lemma shows_cursor s lines : shows s lines -> shows (update_cursor s) lines.
Proof. intros [[H1 H2 H3] H4 H5 H6 H7 H8]. constructor; [constructor; done|done..]. Qed.

(** The end of a line. *)
Lemma shows_newline s lines : shows s lines -> shows (scroll (move s (u32 (c_y s + 1)) 0)) ([] :: lines).
Proof.
  intros [[Hb Hy Hx] Hne Hs Hr Hc Hrows]. assert (0 < Z.of_nat (length lines)) by (destruct lines; [done|cbn [length]; lia]). unfold scroll. rewrite u32_small by lia. cbn [move c_y c_x ram].
  assert (Forall (fun l : list Z => Z.of_nat (length l) <= 80) ([] :: lines)) as Hs' by (constructor; [cbn; lia|done]).
  destruct (Z.leb_spec 25 (c_y s + 1)) as [Hge|Hlt].
  - destruct (scroll_ram _ Hb) as (Hcell & Hb' & _). constructor; [constructor; [exact Hb'|cbn; lia|cbn; lia]|done|done|cbn [set_ram move c_y length]; lia|done|].
    cbn [set_ram move c_y ram]. intros r Hr' c Hcc. rewrite Hcell by lia. rewrite (proj2 (Z.leb_le r (25 - 1))) by lia. destruct (Z.ltb_spec (r * 80 + c) 1920).
    + replace (r * 80 + c + 80) with ((r + 1) * 80 + c) by lia. rewrite (Hrows (r + 1) ltac:(lia) c Hcc). rewrite (proj2 (Z.leb_le _ _)) by lia.
      replace (Z.to_nat (25 - 1 - r)) with (S (Z.to_nat (c_y s - (r + 1)))) by lia. done.
    + replace r with 24 by lia. cbn. by destruct (Z.to_nat c).
  - constructor; [constructor; [exact Hb|cbn; lia|cbn; lia]|done|done|cbn [move c_y length]; lia|done|]. cbn [move c_y ram]. intros r Hr' c Hcc. rewrite (Hrows r Hr' c Hcc).
    destruct (Z.leb_spec r (c_y s)), (Z.leb_spec r (c_y s + 1)); try lia.
    + replace (Z.to_nat (c_y s + 1 - r)) with (S (Z.to_nat (c_y s - r))) by lia. done.
    + replace (Z.to_nat (c_y s + 1 - r)) with 0%nat by lia. done.
Qed.

(** A character on a line that is not full. *)
Lemma shows_append s line above e : shows s (line :: above) -> Z.of_nat (length line) < 80 -> 0 <= e < 65536 ->
  shows (scroll (move (set_ram s (put16 (ram s) (video_ram + 2 * (c_y s * 80 + c_x s)) e)) (c_y s) (u32 (c_x s + 1)))) ((line ++ [e]) :: above).
Proof.
  intros [[Hb Hy Hx] Hne Hs Hr Hc Hrows] Hlen He. cbn [hd] in Hc. unfold scroll. cbn [move set_ram c_y]. rewrite (proj2 (Z.leb_gt 25 (c_y s))) by lia. rewrite u32_small by lia.
  apply Forall_cons in Hs as [_ Hs]. constructor; cbn [move set_ram ram c_y c_x].
  - constructor; cbn [move set_ram ram c_y c_x]; [by apply put16_bytes|lia|lia].
  - done.
  - constructor; [rewrite length_app; cbn [length]; lia|done].
  - exact Hr.
  - cbn [hd]. rewrite length_app. cbn [length]. lia.
  - intros r Hr' c Hcc. rewrite put16_cell by done. pose proof (Hrows r Hr' c Hcc) as E. destruct (Z.eqb_spec (r * 80 + c) (c_y s * 80 + c_x s)) as [Ei|Hi].
    + assert (r = c_y s /\ c = c_x s) as [-> ->] by lia. rewrite (proj2 (Z.leb_le _ _)), Z.sub_diag by lia. change (nth (Z.to_nat 0) ((line ++ [e]) :: above) []) with (line ++ [e]). rewrite Hc, Nat2Z.id, app_nth2, Nat.sub_diag by lia. done.
    + rewrite E. destruct (Z.leb_spec r (c_y s)); [|done]. destruct (decide (r = c_y s)) as [->|Hne'].
      * rewrite Z.sub_diag. change (nth (Z.to_nat 0) ((line ++ [e]) :: above) []) with (line ++ [e]). change (nth (Z.to_nat 0) (line :: above) []) with line.
        destruct (Z_lt_ge_dec c (Z.of_nat (length line))); [rewrite app_nth1 by lia; done|]. rewrite !nth_overflow; [done|rewrite length_app; cbn [length]; lia|lia].
      * replace (Z.to_nat (c_y s - r)) with (S (Z.to_nat (c_y s - r - 1))) by lia. done.
Qed.

Lemma putch_printable s line above c : shows s (line :: above) -> 0 <= term_color s < 256 -> printable c -> Z.of_nat (length line) < 80 ->
  shows (putch s c) ((line ++ [glyph (term_color s) c]) :: above).
Proof.
  intros H Ht Hp Hlen. pose proof Hp as Hp'. unfold printable in Hp'. pose proof (sh_col _ _ H) as Hc. cbn [hd] in Hc. unfold putch, put_cell. apply shows_cursor.
  rewrite (proj2 (Z.eqb_neq c 8)), (proj2 (Z.eqb_neq c 9)), (proj2 (Z.eqb_neq c 13)), (proj2 (Z.eqb_neq c 10)), (proj2 (Z.leb_gt 80 (c_x s))), (proj2 (Z.leb_le 32 c)) by lia.
  rewrite <- glyph_entry by done. apply shows_append; [done|lia|apply u16_bound].
Qed.

Lemma putch_newline s lines : shows s lines -> shows (putch s 10) ([] :: lines).
Proof.
  intros H. unfold putch, put_cell. apply shows_cursor. cbn [Z.eqb Pos.eqb]. destruct (80 <=? c_x s); by apply shows_newline.
Qed.

Lemma s8_printable c : printable c -> s8 c = c.
Proof. unfold printable, s8. intros Hp. rewrite Z.mod_small by lia. lia. Qed.

Lemma puts_text_app s t1 t2 : puts s (t1 ++ t2) = puts (puts s t1) t2.
Proof. revert s. induction t1 as [|c t1 IH]; intros s; [done|]. cbn [app puts]. apply IH. Qed.

(** A part of a line that fits. *)
Lemma puts_part f : forall s line above, shows s (line :: above) -> 0 <= term_color s < 256 -> Forall printable f -> Z.of_nat (length line + length f) <= 80 ->
  shows (puts s f) ((line ++ map (glyph (term_color s)) f) :: above).
Proof.
  induction f as [|c f IH]; intros s line above H Ht Hp Hlen; cbn [puts map]; [by rewrite app_nil_r|]. apply Forall_cons in Hp as [Hc Hp]. cbn [length] in Hlen.
  rewrite s8_printable by done. destruct (putch_ok s c (sh_ok _ _ H)) as (_ & _ & Et). rewrite cons_middle, app_assoc, <- Et.
  apply IH; [rewrite Et; apply putch_printable; [done..|lia]|by rewrite Et|done|rewrite length_app; cbn [length]; lia].
Qed.

(** The position that the display was last told. *)
Definition cursor_at (s : console) (pos : Z) : Prop :=
  exists rest, sent s = (0x3D5, pos mod 256) :: (0x3D4, 15) :: (0x3D5, pos / 256) :: (0x3D4, 14) :: rest.

Lemma putch_cursor s c : screen_ok s -> cursor_at (putch s c) (80 * c_y (putch s c) + c_x (putch s c)).
Proof.
  intros H. destruct (putch_ok s c H) as ([_ Hy Hx] & _). unfold putch, update_cursor in *. cbn [outb c_y c_x] in *. set (t := scroll (put_cell s c)) in *. eexists. cbn [outb sent].
  unfold u16. rewrite (Z.mod_small (c_y t * 80 + c_x t)) by lia. unfold u8. rewrite Z.shiftr_div_pow2 by lia. change (2 ^ 8) with 256. rewrite (Z.mod_small (_ / 256)) by (Z.to_euclidean_division_equations; lia).
  by rewrite (Z.mul_comm (c_y t) 80).
Qed.

(** C35: The screen shows what is printed, if the text consists of newlines and printable ASCII
    characters and no line gets more than 80 of them (the character behind a full line is
    lost; backspace, tab and carriage return are not covered): printing [f] and then the
    lines [ls], each after a newline, puts [f] behind the line the cursor is in and the
    others below it; the rows show the last 25 lines, the screen being scrolled when it is full,
    with the cursor behind the last line, in the variables and on the display.  No byte
    outside the screen changes. *)
Theorem puts_shows s line above f ls :
  let color := term_color s in
  let text := f ++ concat (map (cons 10) ls) in
  shows s (line :: above) -> 0 <= color < 256 -> Forall (Forall printable) (f :: ls) ->
  Z.of_nat (length line + length f) <= 80 -> Forall (fun l => Z.of_nat (length l) <= 80) ls ->
  shows (puts s text) (rev (map (map (glyph color)) ls) ++ (line ++ map (glyph color) f) :: above) /\
  same_outside (ram s) (ram (puts s text)) /\
  (text <> [] -> cursor_at (puts s text) (80 * c_y (puts s text) + c_x (puts s text))).
Proof.
  intros color text H Hcol Hp Hf Hls. split; [|split; [apply (puts_ok s text (sh_ok _ _ H))|]].
  - subst text. rewrite puts_text_app. apply Forall_cons in Hp as [Hpf Hp]. pose proof (puts_part f s line above H Hcol Hpf Hf) as H1.
    pose proof (proj2 (proj2 (puts_ok s f (sh_ok _ _ H)))) as Et. fold color in H1, Et. revert H1. generalize ((line ++ map (glyph color) f) :: above).
    revert Et. generalize (puts s f). clear H Hf Hpf. induction ls as [|l ls IH]; intros t Et lines H; [done|]. apply Forall_cons in Hp as [Hpl Hp]. apply Forall_cons in Hls as [Hl Hls].
    cbn [map concat rev]. rewrite <- app_assoc. change (puts t ((10 :: l) ++ concat (map (cons 10) ls))) with (puts (putch t 10) (l ++ concat (map (cons 10) ls))). rewrite puts_text_app.
    destruct (putch_ok t 10 (sh_ok _ _ H)) as (Hok & _ & Et1). pose proof (puts_part l (putch t 10) [] lines (putch_newline _ _ H)) as H2. rewrite Et1, Et in H2.
    apply (IH Hp Hls (puts (putch t 10) l)); [|by apply H2]. rewrite (proj2 (proj2 (puts_ok _ l Hok))). congruence.
  - intros Hne. destruct (exists_last Hne) as (text' & c & ->). rewrite puts_text_app. cbn [puts]. apply putch_cursor, (proj1 (puts_ok s text' (sh_ok _ _ H))).
Qed.

(** ** Start-up *)

Lemma clear_rows_ok todo : forall m i, bytes_ok m -> 0 <= i -> i + Z.of_nat todo <= 25 ->
  let m' := clear_rows m i todo in (forall j, cell m' j = if (i * 80 <=? j) && (j <? (i + Z.of_nat todo) * 80) then blank else cell m j) /\ bytes_ok m' /\ same_outside m m'.
Proof.
  induction todo as [|todo IH]; intros m i Hm Hi Ht m'; subst m'; cbn [clear_rows].
  - split; [|done]. intros j. zcases; cbn [andb]; done || lia.
  - unfold VGA_WIDTH. destruct (memsetw_ok blank (Z.to_nat 80) m (i * 80) ltac:(vm_compute; split; congruence) Hm ltac:(lia) ltac:(lia)) as (Hc & Hb & Ho).
    destruct (IH _ (i + 1) Hb ltac:(lia) ltac:(lia)) as (Hc' & Hb' & Ho'). split; [|split; [exact Hb'|exact (same_trans _ _ _ Ho Ho')]]. intros j. rewrite Hc', Hc. zcases; cbn [andb]; done || lia.
Qed.

(** [init_video_term] makes the screen an empty page. *)
Lemma init_shows s : bytes_ok (ram s) -> shows (init_video_term s) [[]].
Proof.
  intros Hb. destruct (clear_rows_ok (Z.to_nat VGA_HEIGHT) (ram s) 0 Hb ltac:(lia) ltac:(done)) as (Hc & Hb' & _). constructor; [constructor; [exact Hb'|cbn; lia|cbn; lia]|done|constructor; [cbn; lia|constructor]|done|done|].
  intros r Hr c Hcc. cbn [init_video_term set_term_color move clear set_ram ram c_y]. rewrite Hc. unfold VGA_HEIGHT. zcases; cbn [andb]; try lia; [|by destruct (Z.to_nat c)].
  assert (r = 0) as -> by lia. by destruct (Z.to_nat c).
Qed.

(** ** Numbers *)

Lemma dec_digits_text fuel : forall v, 0 <= v -> v < 10 ^ Z.of_nat fuel -> foldl (fun acc d => 10 * acc + (d - 48)) 0 (rev (dec_digits fuel v)) = v.
Proof.
  induction fuel as [|fuel IH]; intros v Hv Hb; cbn [dec_digits]; [cbn in *; lia|]. destruct (Z.ltb_spec 0 v) as [Hp|]; [|cbn; lia]. cbn [rev]. rewrite foldl_app. cbn [foldl].
  rewrite Z.quot_div_nonneg, Z.rem_mod_nonneg by lia. rewrite IH; [Z.to_euclidean_division_equations; lia|apply Z.div_pos; lia|apply Z.div_lt_upper_bound; [lia|]].
  rewrite Nat2Z.inj_succ, Z.pow_succ_r in Hb by lia. lia.
Qed.

(** [put_dec] prints the digits of a positive number, and nothing for one that is negative. *)
Theorem put_dec_prints s n : 0 < n < 4294967296 ->
  exists ds, put_dec s n = puts s ds /\ (n < 2147483648 -> foldl (fun acc d => 10 * acc + (d - 48)) 0 ds = n) /\ (2147483648 <= n -> ds = []).
Proof.
  intros Hn. unfold put_dec. rewrite (proj2 (Z.eqb_neq n 0)) by lia. eexists. split; [reflexivity|]. split.
  - intros Hs. rewrite s32_small by lia. apply dec_digits_text; lia.
  - intros Hs. assert (s32 n < 0) as Hlt by (unfold s32; rewrite <- (Z.mod_unique (n + 2147483648) 4294967296 1 (n - 2147483648)); lia).
    cbn [dec_digits]. by rewrite (proj2 (Z.ltb_ge _ _)) by lia.
Qed.

(** [monitor_write_hex] leaves out the last digit. *)
Theorem hex_last_digit s n : 0 <= n < 4294967296 -> monitor_write_hex s n = monitor_write_hex s (16 * (n / 16)).
Proof.
  intros Hn. unfold monitor_write_hex. set (t := puts s (cstr "0x")). clearbody t. generalize true. intros b.
  assert (forall k, (0 < k)%nat -> Z.shiftr (16 * (n / 16)) (4 * Z.of_nat k) = Z.shiftr n (4 * Z.of_nat k)) as Hsh.
  { intros k Hk. rewrite !Z.shiftr_div_pow2 by lia. replace (4 * Z.of_nat k) with (4 + 4 * (Z.of_nat k - 1)) by lia. rewrite Z.pow_add_r by lia. change (2 ^ 4) with 16.
    rewrite <- !Z.div_div by lia. f_equal. rewrite Z.mul_comm, Z.div_mul by lia. done. }
  generalize 7%nat. intros k. revert t b. induction k as [|k IH]; intros t b; cbn [hex_loop]; [done|]. rewrite (Hsh (S k)) by lia.
  set (d := Z.land (Z.shiftr n (4 * Z.of_nat (S k))) 15). destruct ((d =? 0) && b); [apply IH|]. destruct (10 <=? d); apply IH.
Qed.

Module Demo.

Definition start : console := init_video_term (Console (fun _ => 7) 0 3 4 []).

Lemma start_shows : shows start [[]].
Proof. apply init_shows. intros x. cbn. lia. Qed.

Lemma puts_shows_witness : shows (puts start (cstr "hi" ++ [10; 33])) [[0x0F21]; [0x0F68; 0x0F69]] /\ cursor_at (puts start (cstr "hi" ++ [10; 33])) 81.
Proof.
  destruct (puts_shows start [] [] (cstr "hi") [[33]] start_shows) as (H1 & _ & H2).
  - vm_compute. split; congruence.
  - repeat constructor; vm_compute; congruence.
  - vm_compute. congruence.
  - repeat constructor; vm_compute; congruence.
  - split; [exact H1|]. apply H2. discriminate.
Defined.

Lemma puts_confined_witness : screen_ok (puts start (cstr "hi")) /\ same_outside (ram start) (ram (puts start (cstr "hi"))) /\ term_color (puts start (cstr "hi")) = term_color start.
Proof. exact (puts_confined start (cstr "hi") (sh_ok _ _ start_shows)). Defined.

End Demo.

End Console.
