(* ===== verification/Interrupts.v ===== *)
(** * Interrupts and the timer ([kernel/src/dev/cpu/interrupts.c], [kernel/src/dev/timer.c])

    The table of handlers, the nesting of sections that run with interrupts off, the handler
    of the timer with its time slices, and the entry of a hardware interrupt, which switches
    tasks before it calls the handler.  Together with the ring of tasks this gives every
    task its turn. *)

From stdpp Require Import base numbers gmap list.
From S2P Require Import Prelude TaskRing Scheduler.

Module Sync.

(** The interrupt flag of the processor and [sync_depth]. *)
Record sync_state := State { IF : bool; sync_depth : Z }.

Definition int_disable (s : sync_state) : sync_state :=
  State false (if IF s then 1 else s32 (sync_depth s + 1)).
Definition int_resume (s : sync_state) : sync_state :=
  if (sync_depth s =? 0) || (sync_depth s =? 1) then State true (sync_depth s)
  else State (IF s) (s32 (sync_depth s - 1)).
Definition int_enable (s : sync_state) : sync_state := State true 0.

(** What a section that is not to be interrupted does: it may contain others. *)
Inductive section := Section_ (inner : list section).

Fixpoint enter (x : section) (s : sync_state) : sync_state :=
  let '(Section_ inner) := x in int_resume (foldl (fun s x => enter x s) (int_disable s) inner).

(** How deep sections are nested. *)
Fixpoint depth (x : section) : Z :=
  let '(Section_ inner) := x in 1 + foldr (fun x d => Z.max (depth x) d) 0 inner.

(** The flag during a section: every state in which code of the section runs. *)
Fixpoint inside (x : section) (s : sync_state) : list sync_state :=
  let '(Section_ inner) := x in
  int_disable s :: (fix go (s : sync_state) (l : list section) : list sync_state :=
    match l with [] => [] | y :: l' => inside y s ++ enter y s :: go (enter y s) l' end) (int_disable s) inner.

(** ** Nesting *)

Lemma section_ind' (P : section -> Prop) : (forall inner, Forall P inner -> P (Section_ inner)) -> forall x, P x.
Proof. intros H. fix go 1. intros [inner]. apply H. induction inner as [|x inner IH]; [constructor|constructor; [apply go|exact IH]]. Qed.

Lemma depth_pos x : 0 < depth x.
Proof. destruct x as [inner]. cbn [depth]. induction inner as [|y inner IH]; cbn [foldr]; lia. Qed.

(** The states in which a sequence of sections runs. *)
Fixpoint along (s : sync_state) (l : list section) : list sync_state :=
  match l with [] => [] | y :: l' => inside y s ++ enter y s :: along (enter y s) l' end.

Lemma inside_eq inner s : inside (Section_ inner) s = int_disable s :: along (int_disable s) inner.
Proof. reflexivity. Qed.

(** With interrupts off a section leaves everything as it was. *)
Lemma nested_section x : forall d, 1 <= d -> d + depth x < 2147483648 ->
  enter x (State false d) = State false d /\ Forall (fun t => IF t = false) (inside x (State false d)).
Proof.
  induction x as [inner IH] using section_ind'. intros d Hd Hb. rewrite inside_eq. cbn [enter depth] in *. unfold int_disable. cbn [IF sync_depth].
  assert (0 <= foldr (fun x d => Z.max (depth x) d) 0 inner) as Hf by (clear; induction inner as [|y inner IH]; cbn [foldr]; lia). rewrite s32_small by lia.
  assert (foldl (fun s x => enter x s) (State false (d + 1)) inner = State false (d + 1) /\ Forall (fun t => IF t = false) (along (State false (d + 1)) inner)) as [Ef Hi].
  { clear Hf. induction IH as [|y inner Hy _ IHl]; [done|]. cbn [foldl foldr along] in *. destruct (Hy (d + 1)) as [E Hin]; [lia|lia|]. rewrite E. destruct IHl as [E' Hl]; [lia|].
    split; [exact E'|]. apply Forall_app. split; [exact Hin|]. constructor; [done|exact Hl]. }
  rewrite Ef. split; [|constructor; [done|exact Hi]]. unfold int_resume. cbn [sync_depth IF]. rewrite (proj2 (Z.eqb_neq _ 0)), (proj2 (Z.eqb_neq _ 1)) by lia. cbn [orb]. rewrite s32_small by lia. f_equal. lia.
Qed.

(** A section that begins with interrupts on runs with interrupts off, however sections are
    nested in it, and interrupts are on again when it ends and not before. *)
Theorem sections_nest x s : IF s = true -> depth x < 2147483647 ->
  enter x s = State true 1 /\ Forall (fun t => IF t = false) (inside x s).
Proof.
  destruct x as [inner]. intros Hs Hb. rewrite inside_eq. cbn [enter depth] in *. unfold int_disable. rewrite Hs.
  assert (foldl (fun s x => enter x s) (State false 1) inner = State false 1 /\ Forall (fun t => IF t = false) (along (State false 1) inner)) as [Ef Hi].
  { induction inner as [|y inner IHl]; [done|]. cbn [foldl foldr along] in *. destruct (nested_section y 1) as [E Hin]; [lia|lia|]. rewrite E. destruct IHl as [E' Hl]; [lia|].
    split; [exact E'|]. apply Forall_app. split; [exact Hin|]. constructor; [done|exact Hl]. }
  rewrite Ef. split; [done|]. constructor; [done|exact Hi].
Qed.

Lemma sections_nest_witness : enter (Section_ [Section_ []; Section_ [Section_ []]]) (State true 0) = State true 1.
Proof. apply (sections_nest (Section_ [Section_ []; Section_ [Section_ []]]) (State true 0)); reflexivity. Defined.

(** With interrupts off and no section open, which is how a handler starts at first, the
    end of a section turns them on. *)
Example resume_turns_on : enter (Section_ []) (State false 0) = State true 1.
Proof. reflexivity. Qed.

End Sync.

Module Interrupts.
Import TaskRing Scheduler.

Definition SUBTICKS_PER_TICK : Z := 1000.
Definition RESYNC_TIME : Z := 1.

(** The variables of the timer. *)
Record clock := Clock { timerticks : Z; timer_subticks : Z; _timer_drift : Z; behind : Z; boot_time : Z }.

(** The counting part of [timer_handle]; [new_time] is what [read_cmos] would return. *)
Definition resync (c : clock) (new_time : Z) : clock :=
  if timerticks c mod RESYNC_TIME =? 0 then
    let drift := s32 (u32 (new_time - boot_time c - timerticks c)) in
    Clock (timerticks c) 0 drift (if 0 <? drift then 1 else 0) (boot_time c)
  else Clock (timerticks c) 0 (_timer_drift c) (behind c) (boot_time c).
Definition count (c : clock) (new_time : Z) : clock :=
  let sub1 := u32 (timer_subticks c + 1) in
  let sub2 := u32 (sub1 + 1) in
  let at_ sub := Clock (u32 (timerticks c + 1)) sub (_timer_drift c) (behind c) (boot_time c) in
  if sub1 =? SUBTICKS_PER_TICK then resync (at_ sub1) new_time
  else if truthy (behind c) then (if sub2 =? SUBTICKS_PER_TICK then resync (at_ sub2) new_time else at_ sub2)
  else at_ sub1.

(** What is in the table of handlers: the timer, or another device. *)
Inductive routine := Timer | Device (n : Z).
Record state := State { clk : clock; sc : sched; task_switching : Z; irq_routines : list (option routine) }.

Definition set_sc (s : state) x := State (clk s) x (task_switching s) (irq_routines s).
Definition set_switching (s : state) v := State (clk s) (sc s) v (irq_routines s).

Definition install_device (s : state) (irq : Z) (handler : routine) : outcome state :=
  t ← aset (irq_routines s) irq (Some handler); Ret (State (clk s) (sc s) (task_switching s) t).
Definition irq_uninstall_handler (s : state) (irq : Z) : outcome state :=
  t ← aset (irq_routines s) irq None; Ret (State (clk s) (sc s) (task_switching s) t).

(** The time slice of the task that runs. *)
Definition timer_handle (s : state) (new_time : Z) : outcome state :=
  let s := State (count (clk s) new_time) (sc s) (task_switching s) (irq_routines s) in
  let cur := current_task (sc s) in
  t ← task (tasks (sc s)) cur;
  if 0 <? time_to_run t then
    Ret (set_switching (set_sc s (put_tasks (sc s) (<[cur := set_time t (u32 (time_to_run t - 1))]> (tasks (sc s))))) 0)
  else Ret (set_switching s 1).

(** [relative_time]: a moment so many seconds and parts of a second from now. *)
Definition relative_time (c : clock) (seconds subseconds : Z) : Z * Z :=
  if SUBTICKS_PER_TICK <? u32 (subseconds + timer_subticks c) then
    (u32 (timerticks c + seconds + 1), u32 (subseconds + timer_subticks c - SUBTICKS_PER_TICK))
  else (u32 (timerticks c + seconds), u32 (timer_subticks c + subseconds)).

(** An interrupt: the stack and instruction pointer that were saved, and the clock. *)
Record event := Event { sp : Z; ip : Z; cmos : Z }.

Section Entry.

(** The number of the interrupt in the frame at a stack, what other devices do, and the
    monitor of virtual-8086 tasks, which runs for the frames that have the flag. *)
Context (int_no : Z -> Z) (vm86 : Z -> bool) (device : Z -> state -> outcome state) (monitor : Z -> state -> outcome state).

(** [irq_handler]: the frame looked at is that of the task switched to.  The handler of the
    coprocessor in the middle is for number 7, which has no entry in the table. *)
Definition irq_handler (s : state) (e : event) : outcome (state * Z) :=
  '(c, esp) ← (if task_switching s =? 1 then _task_switch (sc s) (timerticks (clk s)) (sp e) (ip e) else Ret (sc s, sp e));
  let s := set_switching (set_sc s c) 0 in
  handler ← aget (irq_routines s) (u32 (int_no esp - 32));
  s ← match handler with
      | None => Ret s
      | Some Timer => timer_handle s (cmos e)
      | Some (Device n) => device n s
      end;
  s ← (if vm86 esp then monitor esp s else Ret s);
  Ret (s, esp).

(** A run of interrupts. *)
Fixpoint run (s : state) (events : list event) : outcome state :=
  match events with
  | [] => Ret s
  | e :: events' => '(s, _) ← irq_handler s e; run s events'
  end.

(** ** Turns *)

(** A frame that the timer interrupt has pushed. *)
Definition timer_frame (e : Z) : Prop := int_no e = 32 /\ vm86 e = false.

(** The tasks of the ring are in the ready queue and none of them sleeps; the one that runs is
    the current one of the ring, and those that wait were interrupted by the timer.  [B]
    bounds the time slices. *)
Record turn (B : Z) (s : state) (ts l : list ptr) : Prop := {
  t_bound : 3 <= B < 4294967296;
  t_on : DOTASKSWITCH (sc s) <> 0;
  t_flag : task_switching s = 0 \/ task_switching s = 1;
  t_ring : rep (task_queue (sc s)) ts;
  t_cur : head ts = Some (current_task (sc s));
  t_nodup : NoDup ts;
  t_queue : chain (tasks (sc s)) (ready_queue (sc s)) l;
  t_qnodup : NoDup l;
  t_in a : a ∈ ts -> a ∈ l /\ exists t, tasks (sc s) !! a = Some t /\ Scheduler.state t <> TASK_SLEEPING /\ 0 <= time_to_run t <= B /\ (a <> current_task (sc s) -> timer_frame (esp t));
  t_table : irq_routines s !! 0%nat = Some (Some Timer)
}.

(** The time that is left to the task that runs. *)
Definition time_left (s : state) : Z := from_option time_to_run 0 (tasks (sc s) !! current_task (sc s)).

Lemma switch_keeps_on c c' now x y e : _task_switch c now x y = Ret (c', e) -> DOTASKSWITCH c' = DOTASKSWITCH c.
Proof.
  unfold _task_switch. destruct (DOTASKSWITCH c =? 0); [by intros [= <- _]|]. destruct (current_task c =? NULL); [by intros [= <- _]|]. intros E.
  apply bind_Ret_inv in E as (t & _ & E). apply bind_Ret_inv in E as ([r p] & _ & E). cbv beta iota zeta in E. destruct (current_task c =? p); [by injection E as <- _|].
  apply bind_Ret_inv in E as (t1 & _ & E). apply bind_Ret_inv in E as (m1 & _ & E). apply bind_Ret_inv in E as (p1 & _ & E). apply bind_Ret_inv in E as (t2 & _ & E). by injection E as <- _.
Qed.

(** The timer takes from the time of the task that runs, or asks for a switch. *)
Lemma timer_turn B s ts l c : turn B s ts l ->
  exists s', timer_handle s c = Ret s' /\ turn B s' ts l /\ current_task (sc s') = current_task (sc s) /\
    ((task_switching s' = 0 /\ time_left s' = time_left s - 1) \/ (task_switching s' = 1 /\ time_left s = 0)).
Proof.
  intros [HB Hon Hfl Hring Hcur Hnd Hq Hqn Hin Htab]. destruct ts as [|a ts]; [done|]. injection Hcur as ->. set (cur := current_task (sc s)) in *.
  destruct (Hin cur ltac:(left)) as (Hl & t & Ht & Hst & Htm & _). destruct (chain_cell _ _ _ cur Hq Hl) as [Hn _].
  unfold timer_handle. cbn [sc]. fold cur. rewrite (task_ok _ _ _ Hn Ht). cbn [mbind outcome_bind]. unfold time_left. fold cur. rewrite Ht. cbn [from_option].
  destruct (Z.ltb_spec 0 (time_to_run t)) as [Hp|Hz].
  - eexists. split; [reflexivity|]. cbn [set_switching set_sc sc task_switching put_tasks current_task tasks]. fold cur. rewrite lookup_insert_eq. cbn [from_option set_time time_to_run]. rewrite u32_small by lia.
    split; [|split; [done|]; left; done].
    constructor; cbn [set_switching set_sc sc task_switching put_tasks current_task tasks DOTASKSWITCH task_queue ready_queue irq_routines]; try done; [by left| |].
    + apply (queue_frame (tasks (sc s))); [|done]. intros x _. destruct (decide (x = cur)) as [->|]; [by rewrite lookup_insert_eq, Ht|by rewrite lookup_insert_ne].
    + intros x Hx. destruct (Hin x Hx) as (Hxl & tx & Htx & H1 & H2 & H3). split; [done|]. fold cur. destruct (decide (x = cur)) as [->|].
      * rewrite lookup_insert_eq. eexists. split; [done|]. cbn [set_time Scheduler.state time_to_run]. split; [done|]. split; [lia|done].
      * rewrite lookup_insert_ne by done. eauto.
  - eexists. split; [reflexivity|]. cbn [set_switching sc task_switching]. split; [|split; [done|]; right; split; [done|lia]]. constructor; try done. by right.
Qed.

Lemma aget_zero {A} (t : list A) : aget t 0 = of_option (t !! 0%nat).
Proof. reflexivity. Qed.

(** An interrupt without a switch. *)
Lemma tick_runs B s ts l e : turn B s ts l -> task_switching s = 0 -> timer_frame (sp e) ->
  exists s', irq_handler s e = Ret (s', sp e) /\ turn B s' ts l /\ current_task (sc s') = current_task (sc s) /\
    ((task_switching s' = 0 /\ time_left s' = time_left s - 1) \/ (task_switching s' = 1 /\ time_left s = 0)).
Proof.
  intros Ht H0 [Hi Hv]. unfold irq_handler. rewrite H0. cbn [Z.eqb mbind outcome_bind]. replace (set_switching (set_sc s (sc s)) 0) with s by (destruct s; cbn in *; by subst).
  rewrite Hi. change (u32 (32 - 32)) with 0. rewrite aget_zero, (t_table _ _ _ _ Ht). cbn [of_option mbind outcome_bind].
  destruct (timer_turn B s ts l (cmos e) Ht) as (s' & -> & H1 & H2 & H3). cbn [mbind outcome_bind]. rewrite Hv. cbn [mbind outcome_bind]. by exists s'.
Qed.

(** The next task of the ring, awake, is the one chosen. *)
Lemma first_awake_head m p l2 t : m !! p = Some t -> Scheduler.state t <> TASK_SLEEPING -> first_awake m (p :: l2) = Some p.
Proof. intros Ht Hs. cbn [first_awake]. unfold asleep. rewrite Ht. by rewrite (proj2 (Z.eqb_neq _ _) Hs). Qed.

(** What a switch leaves of a task that does not sleep. *)
Lemma prepared_awake c now x y l p q t B : tasks c !! q = Some t -> Scheduler.state t <> TASK_SLEEPING -> 3 <= B -> 0 <= time_to_run t <= B ->
  exists t', prepared c now x y l p q = Some t' /\ Scheduler.state t' <> TASK_SLEEPING /\ 0 <= time_to_run t' <= B /\ esp t' = if decide (q = current_task c) then x else esp t.
Proof.
  intros Ht Hs HB Htm. unfold prepared. rewrite Ht.
  assert (forall u, Scheduler.state u <> TASK_SLEEPING -> wake now u = u) as Hwake by (intros u Hu; unfold wake; by rewrite (proj2 (Z.eqb_neq _ _) Hu)).
  assert (forall u, Scheduler.state u <> TASK_SLEEPING -> 0 <= time_to_run u <= B -> Scheduler.state (slice u) <> TASK_SLEEPING /\ 0 <= time_to_run (slice u) <= B /\ esp (slice u) = esp u) as Hslice.
  { intros u Hu Hb. unfold slice. repeat case_match; cbn [set_time Scheduler.state time_to_run esp]; (split; [done|]); (split; [lia|done]). }
  assert (exists u, (if decide (q = current_task c) then (fun t => set_regs t x y) <$> Some t else Some t) = Some u /\ Scheduler.state u <> TASK_SLEEPING /\ 0 <= time_to_run u <= B /\
    esp u = if decide (q = current_task c) then x else esp t) as (u & -> & Hu & Hb & He) by (case_decide; eexists; split; [reflexivity| |reflexivity|]; done).
  destruct (Hslice u Hu Hb) as (Hu' & Hb' & He'). rewrite He in He'.
  destruct (decide (q = p)); cbn [fmap option_fmap option_map]; (destruct (decide (q ∈ l)); cbn [fmap option_fmap option_map]; eexists; (split; [reflexivity|])); rewrite ?Hwake by done; done.
Qed.

(** An interrupt with a switch: the next task of the ring has its turn. *)
Lemma tick_switches B s a b rest l e : turn B s (a :: b :: rest) l -> task_switching s = 1 -> timer_frame (sp e) ->
  exists s' e', irq_handler s e = Ret (s', e') /\ turn B s' (rotate (a :: b :: rest)) l.
Proof.
  intros Ht H1 Hf. pose proof Ht as [HB Hon Hfl Hring Hcur Hnd Hq Hqn Hin Htab]. injection Hcur as Ea.
  destruct (Hin a ltac:(left)) as (Hal & ta & Hta & _). destruct (chain_cell _ _ _ a Hq Hal) as [Han _].
  destruct (Hin b ltac:(right; left)) as (Hbl & tb & Htb & Hbs & Hbt & Hbf). assert (a <> b) as Hab by (intros ->; apply NoDup_cons in Hnd as [Hx _]; apply Hx; left).
  pose proof Hbl as (l1 & l2 & El)%list_elem_of_split.
  destruct (task_switch_ok (sc s) (timerticks (clk s)) (sp e) (ip e) (a :: b :: rest) b l l1 l2) as (c & t & Esw & Hts & Hct & Hcc & Hrq & Hch & Hrep); [done|by rewrite <- Ea|rewrite <- Ea; by eexists|done|done|by rewrite <- Ea|done|done|done|].
  destruct (prepared_awake (sc s) (timerticks (clk s)) (sp e) (ip e) l b b tb B Htb Hbs ltac:(lia) Hbt) as (tb' & Hp & Hps & Hpt & Hpe). rewrite <- Hts in Hp.
  rewrite (first_awake_head _ _ _ _ Hp Hps) in Hcc. cbn [default from_option id] in Hcc. rewrite Hcc, Hp in Hct. injection Hct as <-. rewrite decide_False in Hpe by congruence.
  assert (timer_frame (esp tb')) as [Hi Hv] by (rewrite Hpe; apply Hbf; congruence).
  set (s1 := set_switching (set_sc s c) 0). assert (turn B s1 (rotate (a :: b :: rest)) l) as Ht1.
  { constructor; cbn [s1 set_switching set_sc sc task_switching irq_routines]; try done.
    - by rewrite (switch_keeps_on _ _ _ _ _ _ Esw).
    - by left.
    - cbn [rotate app head]. by rewrite Hcc.
    - cbn [rotate]. rewrite (Permutation_app_comm (b :: rest) [a]). exact Hnd.
    - by rewrite Hrq.
    - intros x Hx. destruct (Hin x) as (Hxl & tx & Htx & Hxs & Hxt & Hxf); [by rewrite (Permutation_app_comm (b :: rest) [a]) in Hx|]. split; [done|].
      destruct (prepared_awake (sc s) (timerticks (clk s)) (sp e) (ip e) l b x tx B Htx Hxs ltac:(lia) Hxt) as (tx' & Hp' & Hps' & Hpt' & Hpe'). rewrite Hts. exists tx'. split; [done|]. split; [done|]. split; [done|].
      intros _. rewrite Hpe'. destruct (decide (x = current_task (sc s))); [done|by apply Hxf]. }
  unfold irq_handler. rewrite H1. cbn [Z.eqb Pos.eqb]. rewrite Esw. cbn [mbind outcome_bind]. fold s1. rewrite Hi. change (u32 (32 - 32)) with 0. rewrite aget_zero.
  rewrite (t_table _ _ _ _ Ht1). cbn [of_option mbind outcome_bind]. destruct (timer_turn B s1 _ l (cmos e) Ht1) as (s' & -> & H2 & _). cbn [mbind outcome_bind]. rewrite Hv. cbn [mbind outcome_bind]. eauto.
Qed.

Lemma run_app s es1 es2 : run s (es1 ++ es2) = s' ← run s es1; run s' es2.
Proof.
  revert s. induction es1 as [|e es1 IH]; intros s; [done|]. cbn [app run]. rewrite bind_assoc. destruct (irq_handler s e) as [[s' x]| |]; [|done|done]. cbn [mbind outcome_bind]. apply IH.
Qed.

(** A task runs until its time is used up; then a switch is asked for. *)
Lemma slice_ends B k : forall s ts l es, turn B s ts l -> task_switching s = 0 -> time_left s = Z.of_nat k -> length es = S k -> Forall (fun e => timer_frame (sp e)) es ->
  exists s', run s es = Ret s' /\ turn B s' ts l /\ task_switching s' = 1.
Proof.
  induction k as [|k IH]; intros s ts l es Ht H0 Hk Hl Hf; (destruct es as [|e es]; [done|]); apply Forall_cons in Hf as [He Hf]; cbn [run];
    destruct (tick_runs B s ts l e Ht H0 He) as (s1 & -> & Ht1 & Hc1 & Hor); cbn [mbind outcome_bind].
  - destruct es; [|done]. destruct Hor as [[H1 H2]|[H1 _]]; [|by exists s1]. destruct (t_in _ _ _ _ Ht1 (current_task (sc s1))) as (_ & t & E & _ & Hb & _).
    { pose proof (t_cur _ _ _ _ Ht1) as Hh. destruct ts; [done|]. injection Hh as ->. left. }
    unfold time_left in H2 at 1. rewrite E in H2. cbn [from_option] in H2. lia.
  - destruct Hor as [[H1 H2]|[_ H2]]; [|lia]. apply (IH s1 ts l es Ht1 H1); [lia|cbn in Hl; lia|done].
Qed.

(** Within the longest slice and two interrupts the next task runs. *)
Lemma next_turn B s a b rest l : turn B s (a :: b :: rest) l ->
  exists n, (0 < n <= Z.to_nat B + 2)%nat /\ forall es, length es = n -> Forall (fun e => timer_frame (sp e)) es -> exists s', run s es = Ret s' /\ turn B s' (rotate (a :: b :: rest)) l.
Proof.
  intros Ht. destruct (t_flag _ _ _ _ Ht) as [H0|H1].
  - destruct (t_in _ _ _ _ Ht a) as (_ & t & E & _ & Hb & _); [left|]. pose proof (t_cur _ _ _ _ Ht) as Hc. injection Hc as Hc.
    assert (time_left s = Z.of_nat (Z.to_nat (time_to_run t))) as Hk by (unfold time_left; rewrite <- Hc, E; cbn; lia).
    exists (S (S (Z.to_nat (time_to_run t)))). split; [lia|]. intros es Hl Hf. assert (es <> []) as Hne by (by intros ->). destruct (exists_last Hne) as (es' & e & ->).
    rewrite length_app in Hl. cbn [length] in Hl. apply Forall_app in Hf as [Hf1 Hf2]. destruct (slice_ends B _ s _ l es' Ht H0 Hk ltac:(lia) Hf1) as (s1 & E1 & Ht1 & H1).
    rewrite run_app, E1. cbn [mbind outcome_bind run]. apply Forall_cons in Hf2 as [He _]. destruct (tick_switches B s1 a b rest l e Ht1 H1 He) as (s2 & x & -> & Ht2). cbn [mbind outcome_bind]. eauto.
  - exists 1%nat. split; [lia|]. intros es Hl Hf. destruct es as [|e [|]]; [done| |done]. apply Forall_cons in Hf as [He _]. cbn [run].
    destruct (tick_switches B s a b rest l e Ht H1 He) as (s2 & x & -> & Ht2). cbn [mbind outcome_bind]. eauto.
Qed.

Lemma turns_pass B : forall pre s a post l es, turn B s (pre ++ a :: post) l -> Forall (fun e => timer_frame (sp e)) es -> (length pre * (Z.to_nat B + 2) <= length es)%nat ->
  exists n s', (n <= length pre * (Z.to_nat B + 2))%nat /\ run s (take n es) = Ret s' /\ current_task (sc s') = a.
Proof.
  induction pre as [|x pre IH]; intros s a post l es Ht Hf Hl.
  - exists 0%nat, s. rewrite take_0. split; [lia|]. split; [done|]. pose proof (t_cur _ _ _ _ Ht) as Hc. by injection Hc as ->.
  - assert (exists b rest, (x :: pre) ++ a :: post = x :: b :: rest /\ rotate (x :: b :: rest) = pre ++ a :: (post ++ [x])) as (b & rest & E & Er).
    { destruct pre as [|y pre]; cbn [app]; eexists _, _; (split; [reflexivity|]); cbn [rotate app]; [done|]. by rewrite <- app_assoc. }
    rewrite E in Ht. destruct (next_turn B s x b rest l Ht) as (n & Hn & Hrun). cbn [length] in Hl. destruct (Hrun (take n es)) as (s1 & E1 & Ht1); [rewrite length_take; lia|by apply Forall_take|].
    rewrite Er in Ht1. destruct (IH s1 a (post ++ [x]) l (drop n es) Ht1 ltac:(by apply Forall_drop) ltac:(rewrite length_drop; lia)) as (k & s' & Hk & E2 & Hc).
    exists (n + k)%nat, s'. split; [cbn [length]; lia|]. split; [|done]. rewrite <- take_take_drop, run_app, E1. exact E2.
Qed.

(** Preemption gives every task its turn: with a ring of tasks of which none sleeps, each of
    them runs after at most as many timer interrupts as there are tasks, times the longest
    time slice and two. *)
Theorem every_task_runs B s ts l a es : turn B s ts l -> a ∈ ts -> Forall (fun e => timer_frame (sp e)) es -> (length ts * (Z.to_nat B + 2) <= length es)%nat ->
  exists n s', (n <= length ts * (Z.to_nat B + 2))%nat /\ run s (take n es) = Ret s' /\ current_task (sc s') = a.
Proof.
  intros Ht (pre & post & ->)%list_elem_of_split Hf Hl. rewrite length_app in *. destruct (turns_pass B pre s a post l es Ht Hf) as (n & s' & Hn & H); [nia|]. exists n, s'. split; [nia|exact H].
Qed.

End Entry.

(** ** Time *)

(** The parts of a second never reach a whole one, and ticks are counted. *)
Theorem count_bounded c new_time : 0 <= timer_subticks c < SUBTICKS_PER_TICK -> 0 <= timerticks c < 4294967295 ->
  0 <= timer_subticks (count c new_time) < SUBTICKS_PER_TICK /\ timerticks (count c new_time) = timerticks c + 1.
Proof.
  unfold SUBTICKS_PER_TICK. intros Hs Ht. unfold count, resync, SUBTICKS_PER_TICK. cbn [timerticks timer_subticks]. rewrite !(u32_small (timer_subticks c + _)) by lia. rewrite !(u32_small (timer_subticks c + 1 + 1)) by lia.
  rewrite (u32_small (timerticks c + 1)) by lia. repeat case_match; cbn [timerticks timer_subticks]; lia.
Qed.

(** [relative_time] is right for less than a second, except that exactly one second is left
    as a thousand parts. *)
Theorem relative_time_adds c seconds subseconds : 0 <= timer_subticks c < SUBTICKS_PER_TICK -> 0 <= subseconds <= SUBTICKS_PER_TICK -> 0 <= seconds -> 0 <= timerticks c -> timerticks c + seconds < 4294967295 ->
  let '(s, ss) := relative_time c seconds subseconds in
  s * SUBTICKS_PER_TICK + ss = (timerticks c + seconds) * SUBTICKS_PER_TICK + timer_subticks c + subseconds /\ 0 <= ss <= SUBTICKS_PER_TICK.
Proof.
  unfold SUBTICKS_PER_TICK. intros H1 H2 H3 H4 H5. unfold relative_time, SUBTICKS_PER_TICK. rewrite (u32_small (subseconds + _)) by lia. destruct (Z.ltb_spec 1000 (subseconds + timer_subticks c)); rewrite !u32_small by lia; lia.
Qed.

Module Demo.

(** Three tasks, the first of which runs. *)
Definition three_tasks : sched :=
  Sched {[10 := blank 20 TASK_RUNNING 0 1000; 20 := blank 30 TASK_RUNNING 0 2000; 30 := blank NULL TASK_RUNNING 0 3000]} 10 10 three 1 ∅ 2.
Definition start : state := State (Clock 5 0 0 0 0) three_tasks 0 [Some Timer].

Lemma start_turn : turn (fun _ => 32) (fun _ => false) 3 start [10; 20; 30] [10; 20; 30].
Proof.
  constructor; [lia|done|by left|exact three_rep|done|by_decide| |by_decide| |done].
  - by repeat (split; [done|]; split; [done|]; eexists; split; [done|]).
  - intros a Ha. split; [done|]. rewrite !elem_of_cons, elem_of_nil in Ha. destruct Ha as [->|[->|[->|[]]]]; (eexists; split; [reflexivity|]; split; [done|]; split; [cbn; lia|done]).
Qed.

Lemma every_task_runs_witness : exists n s', (n <= 15)%nat /\
  run (fun _ => 32) (fun _ => false) (fun _ s => Ret s) (fun _ s => Ret s) start (take n (replicate 15 (Event 9000 0 0))) = Ret s' /\ current_task (sc s') = 30.
Proof.
  apply (every_task_runs (fun _ => 32) (fun _ => false) (fun _ s => Ret s) (fun _ s => Ret s) 3 start [10; 20; 30] [10; 20; 30] 30 (replicate 15 (Event 9000 0 0)) start_turn).
  - right. right. left.
  - apply Forall_replicate. split; reflexivity.
  - cbn. lia.
Defined.

End Demo.

End Interrupts.
