(* ===== verification/Syscalls.v ===== *)
(** * System calls by name ([kernel/src/syscalls.c])

    The calls that open, look up and describe files by their names, the working directory,
    the heap of a program, pipes, and the dispatch of a call by its number.  They work on the
    descriptors of the file [Descriptors]; finding a node by name is an interface, and so is
    the address space whose pages [sys_sbrk] backs.  [PTR_VALIDATE] prints a message and
    goes on, so it has no part in the model. *)

From stdpp Require Import base numbers gmap list.
From S2P Require Import Prelude CString Vfs Descriptors Elf.

Definition O_WRONLY : Z := 0x0001.
Definition O_RDWR : Z := 0x0002.
Definition O_APPEND : Z := 0x0008.
Definition O_CREAT : Z := 0x0200.
Definition O_NOFOLLOW : Z := 0x1000.
Definition O_PATH : Z := 0x2000.
Definition EACCES : Z := 13.
Definition ENOENT : Z := 2.

(** The fields of [fs_node_t] that [stat_node] reports; [get_size] is the value of the callback,
    if the node has one. *)
Record attributes := Attributes {
  device : Z; inode : Z; flags : Z; mode_bits : Z; nlink : Z; owner_id : Z; gid : Z; node_length : Z; atime : Z; mtime : Z; ctime : Z; get_size : option Z
}.

(** What the virtual file system offers: opening and creating by name, the attributes of a
    node, the target of a link and the size of the buffer it needs. *)
Class FileNames (W : Type) := {
  kopen2 : cstring -> Z -> Descriptors.state W -> outcome (Descriptors.state W * ptr);
  create_file_fs : cstring -> Z -> Descriptors.state W -> outcome (Descriptors.state W * Z);
  attributes_of : ptr -> W -> attributes;
  readlink_fs : ptr -> W -> Z -> list Z * Z
}.

(** A node that is opened is new, is counted once or never freed, and is the caller's;
    nothing else changes.  Creating a file changes what is behind the nodes. *)
Class FileNamesOk (W : Type) `{FileNames W} := {
  kopen2_ok path fl s : exists s' p, kopen2 path fl s = Ret (s', p) /\ Descriptors.fds s' = Descriptors.fds s /\
    ((p = NULL /\ Descriptors.nodes s' = Descriptors.nodes s) \/
     (p <> NULL /\ Descriptors.nodes s !! p = None /\
      exists n, (Descriptors.refcount n = 1 \/ Descriptors.refcount n = -1) /\ Descriptors.nodes s' = <[p := n]> (Descriptors.nodes s)));
  create_file_fs_ok path mode s : exists s' r, create_file_fs path mode s = Ret (s', r) /\ Descriptors.fds s' = Descriptors.fds s /\ Descriptors.nodes s' = Descriptors.nodes s
}.

Module Syscalls.
Import Descriptors.

Section Calls.
Context {W : Type} `{NodeOps W} `{FileNames W}.

(** ** Files by name *)

(** [sys_open] for the task's [user]; [junk] is the array that [realloc] returns if the
    table of descriptors is full. *)
Definition sys_open (user : Z) (s : state W) (file : cstring) (fl mode : Z) (junk : list ptr) : outcome (state W * Z) :=
  '(s, node) ← kopen2 file fl s;
  n ← node_at s node;
  match n with
  | Some _ =>
      if negb (truthy (has_permission user n 4)) then Ret (s, - EACCES)
      else if (truthy (Z.land fl O_RDWR) || truthy (Z.land fl O_APPEND) || truthy (Z.land fl O_WRONLY)) && negb (truthy (has_permission user n 2)) then Ret (s, - EACCES)
      else install_node s node junk
  | None =>
      if truthy (Z.land fl O_CREAT) then
        '(s, result) ← create_file_fs file mode s;
        if result =? 0 then '(s, node) ← kopen2 file fl s; install_node s node junk
        else Ret (s, result)
      else install_node s NULL junk
  end.

Definition sys_access (s : state W) (file : cstring) : outcome (state W * Z) :=
  '(s, node) ← kopen2 file 0 s;
  if node =? NULL then Ret (s, -1) else s ← close_fs s node; Ret (s, 0).

(** [struct stat], without the fields nobody sets. *)
Record stat := Stat {
  st_dev : Z; st_ino : Z; st_mode : Z; st_nlink : Z; st_uid : Z; st_gid : Z; st_rdev : Z; st_size : Z; st_atime : Z; st_mtime : Z; st_ctime : Z; st_blksize : Z
}.

Definition FS_FILE : Z := 0x01.
Definition FS_DIRECTORY : Z := 0x02.
Definition FS_CHARDEVICE : Z := 0x04.
Definition FS_BLOCKDEVICE : Z := 0x08.
Definition FS_PIPE : Z := 0x10.
Definition FS_SYMLINK : Z := 0x20.
(** The types are written in octal. *)
Definition _IFIFO : Z := 0x1000.
Definition _IFCHR : Z := 0x2000.
Definition _IFDIR : Z := 0x4000.
Definition _IFBLK : Z := 0x6000.
Definition _IFREG : Z := 0x8000.
Definition _IFLNK : Z := 0xA000.

Definition type_bits (fl : Z) : Z :=
  let add bit v acc := if truthy (Z.land fl bit) then Z.lor acc v else acc in
  add FS_SYMLINK _IFLNK (add FS_PIPE _IFIFO (add FS_BLOCKDEVICE _IFBLK (add FS_CHARDEVICE _IFCHR (add FS_DIRECTORY _IFDIR (add FS_FILE _IFREG 0))))).

(** [stat_node]: for no node the structure is cleared and the call fails. *)
Definition stat_node (s : state W) (fn : ptr) : stat * Z :=
  if fn =? NULL then (Stat 0 0 0 0 0 0 0 0 0 0 0 0, -1)
  else
    let a := attributes_of fn (world s) in
    (Stat (u16 (Z.shiftr (Z.land (device a) 0xFFFF0) 8)) (u16 (inode a)) (Z.lor (mode_bits a) (type_bits (flags a))) (u16 (nlink a)) (u16 (owner_id a)) (u16 (gid a)) 0
          (default (node_length a) (get_size a)) (atime a) (mtime a) (ctime a) 512, 0).

Definition sys_stat (s : state W) (fd : Z) : outcome (option stat * Z) :=
  e ← fd_entry (fds s) fd;
  match e with Some fn => let '(st, r) := stat_node s fn in Ret (Some st, r) | None => Ret (None, -1) end.

Definition sys_lstat (s : state W) (file : cstring) : outcome (state W * stat * Z) :=
  '(s, fn) ← kopen2 file (Z.lor O_PATH O_NOFOLLOW) s;
  let '(st, result) := stat_node s fn in
  s ← (if fn =? NULL then Ret s else close_fs s fn);
  Ret (s, st, result).

Definition sys_readlink (s : state W) (file : cstring) (len : Z) : outcome (state W * list Z * Z) :=
  '(s, node) ← kopen2 file (Z.lor O_PATH O_NOFOLLOW) s;
  if node =? NULL then Ret (s, [], - ENOENT)
  else
    let '(bytes, rv) := readlink_fs node (world s) len in
    s ← close_fs s node;
    Ret (s, bytes, rv).

(** ** The working directory *)

(** The call returns the new name of the working directory with its value. *)
Definition sys_chdir (s : state W) (wd_name newdir : cstring) : outcome (state W * cstring * Z) :=
  let path := Path.canonicalize_path wd_name newdir in
  '(s, chd) ← kopen2 path 0 s;
  if chd =? NULL then Ret (s, wd_name, -1)
  else
    let directory := truthy (Z.land (flags (attributes_of chd (world s))) FS_DIRECTORY) in
    s ← close_fs s chd;
    Ret (if directory then (s, path, 0) else (s, wd_name, -1)).

(** The bytes that [sys_getcwd] stores. *)
Definition sys_getcwd (wd_name : cstring) (size : Z) : list Z := take (Z.to_nat (Z.min size (strlen wd_name + 1))) (wd_name ++ [0]).

Definition sys_umask (mode : Z) : Z := Z.land mode 0x1FF.

(** ** Pipes *)

(** [make_unix_pipe] makes two nodes, at the addresses that [malloc] returns;
    [uid] is 0 in both and [mask] 0666.  [junk t] is the array that [realloc] returns for the
    table [t] when it is full. *)
Definition pipe_nodes (s : state W) (p0 p1 : ptr) : state W :=
  put_node (put_node s p0 (Build_node 0 0 0 true false 0x1B6 0)) p1 (Build_node 0 0 0 false true 0x1B6 0).

Definition sys_pipe (s : state W) (p0 p1 : ptr) (junk : fd_table_t -> list ptr) : outcome (state W * Z * Z) :=
  let s := pipe_nodes s p0 p1 in
  s ← open_fs s p0 0;
  s ← open_fs s p1 0;
  '(t, fd0) ← process_append_fd (fds s) p0 (junk (fds s));
  let s := set_fds s t in
  '(t, fd1) ← process_append_fd (fds s) p1 (junk (fds s));
  Ret (set_fds s t, fd0, fd1).

End Calls.

(** ** The heap of a program *)

Section Heap.
Context {S : Type} `{AddressSpace S}.

(** [image.heap] and [image.heap_actual]. *)
Record image := Image { heap : Z; heap_actual : Z }.

(** [while (proc->image.heap > proc->image.heap_actual)] *)
Fixpoint sbrk_pages (fuel : nat) (s : S) (im : image) : outcome (S * image) :=
  if heap_actual im <? heap im then
    match fuel with
    | O => OutOfFuel
    | Datatypes.S fuel' =>
        let im := Image (heap im) (u32 (heap_actual im + 0x1000)) in
        s ← back s (heap_actual im);
        sbrk_pages fuel' s im
    end
  else Ret (s, im).

(** The fields [group] and [image] of the tasks. *)
Record program := Program { group : Z; image_of : image }.

(** The process whose heap it is: the one that has the number of the group, if the task is in one. *)
Definition heap_owner (process_from_pid : Z -> outcome ptr) (ts : gmap ptr program) (current_task : ptr) : outcome ptr :=
  t ← of_option (ts !! current_task);
  if negb (group t =? 0) then process_from_pid (group t) else Ret current_task.

(** [sys_sbrk] of the current task.  [process_from_pid] is the lookup of a process
    ([Signals.process_from_pid] is its code); [fuel] bounds the number of pages. *)
Definition sys_sbrk (process_from_pid : Z -> outcome ptr) (fuel : nat) (s : S) (ts : gmap ptr program) (current_task : ptr) (size : Z) : outcome (S * gmap ptr program * Z) :=
  p ← heap_owner process_from_pid ts current_task;
  proc ← of_option (ts !! p);
  let im := image_of proc in
  let i_ret := heap im in
  let ret := Z.land (u32 (i_ret + 0xfff)) (u32 (Z.lnot 0xfff)) in
  '(s, im) ← sbrk_pages fuel s (Image (u32 (i_ret + (ret - i_ret) + size)) (heap_actual im));
  Ret (s, <[p := Program (group proc) im]> ts, ret).

End Heap.

(** ** The dispatch *)

(** The functions of the table. *)
Inductive call :=
  | call_kexit | call_nop | call_sys_open | call_sys_read | call_sys_write | call_sys_close | call_gettimeofday | call_sys_execve | call_sys_fork
  | call_sys_gettid | call_sys_sbrk | call_sys_seek | call_sys_stat | call_sys_dup2 | call_sys_getuid | call_sys_readdir | call_sys_chdir
  | call_sys_getcwd | call_sys_mkdir | call_sys_kill | call_sys_yield | call_udelay | call_sys_ioctl | call_sys_access | call_sys_umask
  | call_sys_waitpid | call_sys_pipe | call_ipaddr_addr | call_bind | call_setsockopt | call_recv | call_select | call_accept | call_getsockname
  | call_getpeername | call_connect | call_listen | call_socket | call_send | call_gethostbyname.

Definition syscalls : list call :=
  [call_kexit; call_nop; call_sys_open; call_sys_read; call_sys_write; call_sys_close; call_gettimeofday; call_sys_execve; call_sys_fork;
   call_sys_gettid; call_sys_sbrk; call_nop; call_nop; call_nop; call_sys_seek; call_sys_stat; call_nop; call_nop; call_nop; call_nop; call_nop;
   call_nop; call_sys_dup2; call_sys_getuid; call_nop; call_nop; call_nop; call_sys_readdir; call_sys_chdir; call_sys_getcwd; call_nop; call_nop;
   call_nop; call_nop; call_sys_mkdir; call_nop; call_nop; call_sys_kill; call_nop; call_nop; call_nop; call_nop; call_sys_yield; call_nop; call_nop;
   call_nop; call_udelay; call_sys_ioctl; call_sys_access; call_sys_stat; call_nop; call_sys_umask; call_nop; call_sys_waitpid; call_sys_pipe;
   call_nop; call_nop; call_nop; call_sys_stat; call_nop; call_nop; call_ipaddr_addr; call_bind; call_nop; call_setsockopt; call_nop; call_recv;
   call_select; call_accept; call_getsockname; call_nop; call_getpeername; call_connect; call_nop; call_listen; call_nop; call_nop; call_nop;
   call_socket; call_send; call_gethostbyname].

(** The registers of a call; [edi], [esi], [edx], [ecx] and [ebx] are pushed in this order. *)
Record regs := Regs { eax : Z; ebx : Z; ecx : Z; edx : Z; esi : Z; edi : Z }.

(** [invoke] runs a function of the table with its arguments; [note] stores the frame in the
    task.  A number outside the table changes nothing. *)
Definition syscall_handler {K : Type} (invoke : call -> list Z -> K -> outcome (K * Z)) (note : regs -> K -> K) (k : K) (r : regs) : outcome (K * regs) :=
  if Z.of_nat (length syscalls) <=? eax r then Ret (k, r)
  else
    c ← aget syscalls (eax r);
    '(k, v) ← invoke c [ebx r; ecx r; edx r; esi r; edi r] (note r k);
    Ret (k, Regs v (ebx r) (ecx r) (edx r) (esi r) (edi r)).

(** ** Names and references *)

Section Names.
Context {W : Type} `{NodeOps W} `{FileNamesOk W}.

(** The only change is a node that is never freed. *)
Definition kept (s s' : state W) : Prop :=
  fds s' = fds s /\ (nodes s' = nodes s \/ exists p n, nodes s !! p = None /\ refcount n = -1 /\ nodes s' = <[p := n]> (nodes s)).

(** What is opened and closed again is gone. *)
Lemma close_opened (s s1 : state W) p n : p <> NULL -> nodes s !! p = None -> refcount n = 1 \/ refcount n = -1 -> fds s1 = fds s -> nodes s1 = <[p := n]> (nodes s) ->
  exists s2, close_fs s1 p = Ret s2 /\ kept s s2.
Proof.
  intros Hp Hnone Hn Hf Hns. unfold close_fs. rewrite (proj2 (Z.eqb_neq _ _) Hp), Hns, lookup_insert_eq. cbn [of_option mbind outcome_bind]. destruct Hn as [E|E]; rewrite E.
  - eexists. split; [reflexivity|]. split; [done|]. left. cbn [nodes]. by rewrite delete_insert_id.
  - exists s1. split; [done|]. split; [done|]. right. eauto.
Qed.

(** Looking at a file by its name leaves no reference behind: after [sys_access],
    [sys_lstat], [sys_readlink] and [sys_chdir], whatever they return, the descriptors and
    the nodes are as before, but for a node that is never freed.  The working directory
    changes only when [sys_chdir] returns 0, to the canonical path. *)
Theorem name_calls_keep (s : state W) file wd len :
  (exists s' v, sys_access s file = Ret (s', v) /\ kept s s') /\
  (exists s' st v, sys_lstat s file = Ret (s', st, v) /\ kept s s') /\
  (exists s' bytes v, sys_readlink s file len = Ret (s', bytes, v) /\ kept s s') /\
  (exists s' wd' v, sys_chdir s wd file = Ret (s', wd', v) /\ kept s s' /\ ((v = 0 /\ wd' = Path.canonicalize_path wd file) \/ (v = -1 /\ wd' = wd))).
Proof.
  split_and!.
  - unfold sys_access. destruct (kopen2_ok file 0 s) as (s1 & p & -> & Hf & [[-> Hn]|(Hp & Hno & n & Hr & Hn)]); cbn [mbind outcome_bind]; [by eexists s1, (-1); split; [|split; [|left]]|].
    rewrite (proj2 (Z.eqb_neq _ _) Hp). destruct (close_opened s s1 p n Hp Hno Hr Hf Hn) as (s2 & -> & Hk). by exists s2, 0.
  - unfold sys_lstat. destruct (kopen2_ok file (Z.lor O_PATH O_NOFOLLOW) s) as (s1 & p & -> & Hf & [[-> Hn]|(Hp & Hno & n & Hr & Hn)]); cbn [mbind outcome_bind].
    + eexists s1, _, (-1). split; [reflexivity|]. split; [done|by left].
    + destruct (stat_node s1 p) as [st v] eqn:E. rewrite (proj2 (Z.eqb_neq _ _) Hp). destruct (close_opened s s1 p n Hp Hno Hr Hf Hn) as (s2 & -> & Hk). by exists s2, st, v.
  - unfold sys_readlink. destruct (kopen2_ok file (Z.lor O_PATH O_NOFOLLOW) s) as (s1 & p & -> & Hf & [[-> Hn]|(Hp & Hno & n & Hr & Hn)]); cbn [mbind outcome_bind]; [by eexists s1, [], (- ENOENT); split; [|split; [|left]]|].
    rewrite (proj2 (Z.eqb_neq _ _) Hp). destruct (readlink_fs p (world s1) len) as [bs v]. destruct (close_opened s s1 p n Hp Hno Hr Hf Hn) as (s2 & -> & Hk). by exists s2, bs, v.
  - unfold sys_chdir. destruct (kopen2_ok (Path.canonicalize_path wd file) 0 s) as (s1 & p & -> & Hf & [[-> Hn]|(Hp & Hno & n & Hr & Hn)]); cbn [mbind outcome_bind].
    + exists s1, wd, (-1). split; [done|]. split; [split; [done|by left]|by right].
    + rewrite (proj2 (Z.eqb_neq _ _) Hp). destruct (close_opened s s1 p n Hp Hno Hr Hf Hn) as (s2 & -> & Hk). cbn [mbind outcome_bind].
      destruct (truthy _); eexists s2, _, _; (split; [reflexivity|]); (split; [exact Hk|]); [by left|by right].
Qed.

(** A node that was opened is one reference outside the table. *)
Lemma opened_inv others (s s1 : state W) p n : inv others s -> p <> NULL -> nodes s !! p = None -> refcount n = 1 \/ refcount n = -1 -> fds s1 = fds s -> nodes s1 = <[p := n]> (nodes s) ->
  inv (fun q => if decide (q = p) then 1 else others q) s1.
Proof.
  intros Hi Hp Hno Hr Hf Hn. constructor; rewrite ?Hf, ?Hn.
  - apply Hi.
  - rewrite lookup_insert_ne by done. apply Hi.
  - intros q Hq. destruct (decide (q = p)) as [->|]; [right; rewrite lookup_insert_eq; eauto|]. rewrite lookup_insert_ne by done. by apply (inv_live _ _ Hi).
  - intros q m Hm. destruct (decide (q = p)) as [->|].
    + rewrite lookup_insert_eq in Hm. injection Hm as <-. destruct Hr as [Hr|Hr]; [right|by left]. rewrite Hr. assert (holders (fds s) p = 0) as ->; [|done].
      unfold holders. destruct (decide (p ∈ live (fds s))) as [Hin|Hout].
      * destruct (inv_live _ _ Hi p Hin) as [|[x Hx]]; [done|congruence].
      * pose proof (count_nonneg p (live (fds s))). destruct (Z.eq_dec (count p (live (fds s))) 0) as [|Hne]; [done|]. exfalso. apply Hout. revert Hne. clear. unfold count. induction (live (fds s)) as [|x l IH]; [done|].
        rewrite filter_cons. destruct (decide (x = p)) as [->|]; [intros _; left|]. intros Hne. right. by apply IH.
    + rewrite lookup_insert_ne in Hm by done. by apply (inv_count _ _ Hi).
  - intros q. destruct (decide (q = p)); [lia|apply Hi].
Qed.

(** The descriptor [fd], the least that was free, refers to the node [p], which is at offset 0
    and is counted once. *)
Record given (others : ptr -> Z) (s s' : state W) (fd : Z) (p : ptr) (n : fs_node_t) : Prop := {
  g_node : p <> NULL /\ nodes s !! p = None;
  g_append : append (fds s) fd p (fds s');
  g_inv : inv (fun q => if decide (q = p) then 0 else others q) s';
  g_lookup : nodes s' !! p = Some n;
  g_offset : offset n = 0
}.

Definition wants_write (fl : Z) : bool := truthy (Z.land fl O_RDWR) || truthy (Z.land fl O_APPEND) || truthy (Z.land fl O_WRONLY).

(** What [sys_open] can do: give a descriptor to a node that the user may read, and write if
    that is asked for; create a file that was not there; refuse for want of permission, with the
    node left open; or fail with nothing changed. *)
Inductive open_result (user : Z) (others : ptr -> Z) (s : state W) (file : cstring) (fl : Z) : state W -> Z -> Prop :=
| Opened s' fd p n : given others s s' fd p n -> has_permission user (Some n) 4 <> 0 -> (wants_write fl = true -> has_permission user (Some n) 2 <> 0) -> open_result user others s file fl s' fd
| Created s1 s' fd p n : kopen2 file fl s = Ret (s1, NULL) -> truthy (Z.land fl O_CREAT) = true -> given others s s' fd p n -> open_result user others s file fl s' fd
| Denied s' p n : fds s' = fds s -> nodes s' = <[p := n]> (nodes s) -> has_permission user (Some n) 4 = 0 \/ (wants_write fl = true /\ has_permission user (Some n) 2 = 0) -> open_result user others s file fl s' (- EACCES)
| Failed s1 s' v : kopen2 file fl s = Ret (s1, NULL) -> v <> 0 -> fds s' = fds s -> nodes s' = nodes s -> open_result user others s file fl s' v.

Lemma install_offset (s s' : state W) p n junk fd : p <> NULL -> nodes s !! p = Some n -> install_node s p junk = Ret (s', fd) -> nodes s' !! p = Some (set_offset n 0).
Proof.
  intros Hp Hn. unfold install_node. rewrite (proj2 (Z.eqb_neq _ _) Hp), Hn. cbn [of_option mbind outcome_bind]. intros E. apply bind_Ret_inv in E as ([t k] & _ & E). injection E as <- _.
  cbn [set_fds put_node nodes]. by rewrite lookup_insert_eq.
Qed.

Lemma install_opened others (s s1 : state W) p n junk : inv others s -> p <> NULL -> nodes s !! p = None -> refcount n = 1 \/ refcount n = -1 -> fds s1 = fds s -> nodes s1 = <[p := n]> (nodes s) ->
  grows (fds s) junk ->
  exists s' fd, install_node s1 p junk = Ret (s', fd) /\ given others s s' fd p (set_offset n 0).
Proof.
  intros Hi Hp Hno Hr Hf Hn Hj. pose proof (opened_inv others s s1 p n Hi Hp Hno Hr Hf Hn) as Hi1.
  destruct (install_ok _ s1 p n junk Hi1) as (s' & fd & E & Hi' & Ha); [by rewrite Hn, lookup_insert_eq|rewrite decide_True by done; lia|by rewrite Hf|].
  exists s', fd. split; [done|]. rewrite Hf in Ha. constructor; [done|done| |apply (install_offset s1 s' p n junk fd Hp); [by rewrite Hn, lookup_insert_eq|done]|done].
  destruct Hi' as [I1 I2 I3 I4 I5]. constructor; [done|done|done| |].
  - intros q x Hx. destruct (I4 q x Hx) as [|E']; [by left|right]. rewrite E'. destruct (decide (q = p)) as [->|Hq]; [by rewrite bool_decide_eq_true_2|rewrite bool_decide_eq_false_2 by congruence; simpl; lia].
  - intros q. destruct (decide (q = p)); [lia|apply Hi].
Qed.

(** Given names that are looked up and created as [FileNamesOk] says, and a table that has
    room, [sys_open] returns: either the least free descriptor refers to a new node at
    offset 0 that is counted once and that the caller may read, and write if that is asked
    for, or that was created because it was not there; or the call fails with a value
    other than 0 and the descriptors are as before. *)
Theorem sys_open_result user others (s : state W) file fl mode junk : inv others s -> grows (fds s) junk ->
  exists s' v, sys_open user s file fl mode junk = Ret (s', v) /\ open_result user others s file fl s' v.
Proof.
  intros Hi Hj. unfold sys_open. destruct (kopen2_ok file fl s) as (s1 & p & Ek & Hf & [[-> Hn]|(Hp & Hno & n & Hr & Hn)]); rewrite Ek; cbn [mbind outcome_bind]; unfold node_at.
  - rewrite Z.eqb_refl. cbn [mbind outcome_bind]. destruct (truthy (Z.land fl O_CREAT)) eqn:Ec; [|exists s1, (-1); split; [done|]; by apply (Failed _ _ _ _ _ s1)].
    destruct (create_file_fs_ok file mode s1) as (s2 & r & -> & Hf2 & Hn2). cbn [mbind outcome_bind]. destruct (Z.eqb_spec r 0) as [->|Hr]; [|exists s2, r; split; [done|]; apply (Failed _ _ _ _ _ s1); congruence].
    destruct (kopen2_ok file fl s2) as (s3 & p & -> & Hf3 & [[-> Hn3]|(Hp & Hno & n & Hr & Hn3)]); cbn [mbind outcome_bind].
    + exists s3, (-1). split; [done|]. apply (Failed _ _ _ _ _ s1); [done|lia|congruence|congruence].
    + destruct (install_opened others s s3 p n junk) as (s' & fd & E & Hg); [done|done|congruence|done|congruence|congruence|done|]. exists s', fd. split; [exact E|]. by apply (Created _ _ _ _ _ s1 s' fd p (set_offset n 0)).
  - rewrite (proj2 (Z.eqb_neq _ _) Hp), Hn, lookup_insert_eq. cbn [of_option mbind outcome_bind].
    destruct (Z.eqb_spec (has_permission user (Some n) 4) 0) as [E4|E4]; unfold truthy at 1; [rewrite E4|rewrite (proj2 (Z.eqb_neq _ _) E4)]; cbn [negb Z.eqb];
      [exists s1, (- EACCES); split; [done|]; apply (Denied _ _ _ _ _ s1 p n); auto|].
    fold (wants_write fl). destruct (wants_write fl && negb (truthy (has_permission user (Some n) 2))) eqn:Ew.
    + apply andb_true_iff in Ew as [Ew1 Ew2%negb_true_iff%negb_false_iff%Z.eqb_eq]. exists s1, (- EACCES). split; [done|]. apply (Denied _ _ _ _ _ s1 p n); auto.
    + destruct (install_opened others s s1 p n junk) as (s' & fd & E & Hg); [done..|]. exists s', fd. split; [exact E|]. apply (Opened _ _ _ _ _ s' fd p (set_offset n 0)); [done|done|].
      intros Hw. rewrite Hw in Ew. cbn [andb] in Ew. apply negb_false_iff, negb_true_iff, Z.eqb_neq in Ew. exact Ew.
Qed.

(** A table with room for two descriptors has room for one after the first. *)
Lemma append_room t e junk t' k : wf_table t -> length_ t + 1 < capacity t -> process_append_fd t e junk = Ret (t', k) -> append t k e t' -> length_ t' < capacity t'.
Proof.
  intros Hw Hroom E (Hw' & Happ & _). assert (length_ t' <= length_ t + 1) as Hl.
  { pose proof (length_live t Hw). pose proof (length_live t' Hw') as Hl'. destruct Happ as [(_ & _ & El)|(_ & El)]; rewrite El in Hl'; [rewrite length_insert in Hl'|rewrite length_app in Hl'; cbn [length] in Hl']; lia. }
  enough (capacity t' = capacity t) by lia. unfold process_append_fd in E. apply bind_Ret_inv in E as (g & _ & E). destruct g as [i|]; apply bind_Ret_inv in E as (es & _ & E); injection E as <- _; [done|].
  cbn [capacity]. by rewrite (proj2 (Z.eqb_neq (length_ t) (capacity t))) by lia.
Qed.

(** The two ends of a pipe, opened. *)
Lemma pipe_opened (s : state W) p0 p1 : p0 <> NULL -> p1 <> NULL -> p0 <> p1 ->
  let n0 := Build_node 1 0 0 true false 0x1B6 0 in let n1 := Build_node 1 0 0 false true 0x1B6 0 in
  exists s1 s2, open_fs (pipe_nodes s p0 p1) p0 0 = Ret s1 /\ open_fs s1 p1 0 = Ret s2 /\ fds s2 = fds s /\ nodes s2 = <[p1 := n1]> (<[p0 := n0]> (nodes s)).
Proof.
  intros Hq0 Hq1 Hne n0 n1. unfold pipe_nodes, open_fs. rewrite (proj2 (Z.eqb_neq _ _) Hq0), (proj2 (Z.eqb_neq _ _) Hq1). cbn [put_node nodes]. eexists. eexists.
  split; [rewrite lookup_insert_ne, lookup_insert_eq by done; reflexivity|]. cbn [set_world put_node nodes of_option refcount Z.leb Z.compare].
  split; [rewrite lookup_insert_ne, lookup_insert_eq by done; reflexivity|]. split; [done|]. cbn [set_world put_node nodes of_option refcount Z.leb Z.compare]. apply map_eq. intros q.
  rewrite !lookup_insert. by repeat case_decide.
Qed.

(** [sys_pipe] gives two different descriptors, the least free ones, to the two ends; each
    end is counted once, and all other descriptors are as before, if the table has room. *)
Theorem sys_pipe_ends others (s : state W) p0 p1 junk : inv others s -> p0 <> NULL -> p1 <> NULL -> p0 <> p1 -> nodes s !! p0 = None -> nodes s !! p1 = None ->
  length_ (fds s) + 1 < capacity (fds s) ->
  exists s' t fd0 fd1, sys_pipe s p0 p1 junk = Ret (s', fd0, fd1) /\ append (fds s) fd0 p0 t /\ append t fd1 p1 (fds s') /\
    inv (fun q => if decide (q = p0 \/ q = p1) then 0 else others q) s'.
Proof.
  intros Hi Hq0 Hq1 Hne Hn0 Hn1 Hj. unfold sys_pipe. destruct (pipe_opened s p0 p1 Hq0 Hq1 Hne) as (s1 & s2 & -> & E2 & Hf & Hn). cbn [mbind outcome_bind]. rewrite E2. cbn [mbind outcome_bind]. clear E2.
  set (n0 := Build_node 1 0 0 true false 0x1B6 0) in *. set (n1 := Build_node 1 0 0 false true 0x1B6 0) in *. pose proof (inv_table _ _ Hi) as Hw.
  pose proof (opened_inv others s (State (<[p0 := n0]> (nodes s)) (fds s) (world s)) p0 n0 Hi Hq0 Hn0 (or_introl eq_refl) eq_refl eq_refl) as Hi1.
  pose proof (opened_inv _ _ s2 p1 n1 Hi1 Hq1) as Hi2. cbn [nodes fds] in Hi2. specialize (Hi2 ltac:(by rewrite lookup_insert_ne) (or_introl eq_refl) Hf Hn). clear Hi1.
  rewrite Hf. destruct (append_ok (fds s) p0 (junk (fds s)) Hw (grows_room (fds s) (junk (fds s)) ltac:(lia))) as (t & k0 & E0 & Ha0). rewrite E0. cbn [mbind outcome_bind set_fds fds].
  pose proof (append_room _ _ _ _ _ Hw Hj E0 Ha0) as Hroom. pose proof Ha0 as [Hwt _].
  destruct (append_ok t p1 (junk t) Hwt (grows_room _ _ Hroom)) as (t' & k1 & E1 & Ha1). rewrite E1. cbn [mbind outcome_bind].
  eexists _, t, k0, k1. split; [reflexivity|]. split; [exact Ha0|]. split; [exact Ha1|].
  assert (inv (fun q => if decide (q = p1) then 1 else if decide (q = p0) then 0 else others q) (set_fds s2 t)) as Hi3.
  { rewrite <- Hf in Ha0. apply (inv_append _ _ s2 t k0 p0 Hi2 Ha0); [right; rewrite Hn, lookup_insert_ne, lookup_insert_eq by done; eauto| |].
    - intros q _. destruct (decide (q = p1)) as [->|]; [by rewrite bool_decide_eq_false_2|]. destruct (decide (q = p0)) as [->|]; [by rewrite bool_decide_eq_true_2|]. rewrite bool_decide_eq_false_2 by congruence. simpl. lia.
    - intros q. pose proof (inv_others _ _ Hi q). repeat case_decide; lia. }
  apply (inv_append _ _ (set_fds s2 t) t' k1 p1 Hi3 Ha1); [right; cbn [set_fds nodes]; rewrite Hn, lookup_insert_eq; eauto| |].
  - intros q _. destruct (decide (q = p1)) as [->|]; [rewrite decide_True by auto; by rewrite bool_decide_eq_true_2|]. rewrite bool_decide_eq_false_2 by congruence. simpl. repeat case_decide; naive_solver lia.
  - intros q. pose proof (inv_others _ _ Hi q). case_decide; lia.
Qed.

End Names.

(** ** The heap grows *)

Section HeapProofs.
Context {S : Type} `{AddressSpaceOk S}.

(** The pages of the heap from [base] on are backed, [heap_actual] being the last of them. *)
Record heap_ok (base : Z) (im : image) (s : S) : Prop := {
  h_range : 0 <= base <= heap im;
  h_page : 0 <= heap_actual im /\ heap_actual im mod 0x1000 = 0;
  h_backed a : base <= a < heap_actual im + 0x1000 -> is_Some (peek s a)
}.

Lemma sbrk_pages_ok base : forall fuel n s im, heap_ok base im s -> sp_ok n s -> (n <= fuel)%nat -> heap im <= heap_actual im + 0x1000 * Z.of_nat n -> heap im < 4294963200 ->
  (forall a, base <= a < heap im + 0x1000 -> sp_range a) -> base <= heap_actual im + 0x1000 ->
  exists s' im', sbrk_pages fuel s im = Ret (s', im') /\ heap im' = heap im /\ heap im' <= heap_actual im' /\ heap_ok base im' s' /\ forall b v, peek s b = Some v -> peek s' b = Some v.
Proof.
  induction fuel as [|fuel IH]; intros n s im Hh Hs Hf Hn Hb Hr Hba; pose proof Hh as [Hra [Hp0 Hpm] Hk]; cbn [sbrk_pages]; destruct (Z.ltb_spec (heap_actual im) (heap im)) as [Hlt|Hge]; try lia;
    try (exists s, im; split; [done|]; split; [done|]; split; [lia|]; split; done).
  destruct n as [|n]; [lia|]. rewrite u32_small by lia. cbn [heap_actual heap].
  destruct (back_ok n s (heap_actual im + 0x1000) Hs) as (s1 & -> & Hs1 & Hnew & Hold); [apply Hr; lia|]. cbn [mbind outcome_bind].
  destruct (IH n s1 (Image (heap im) (heap_actual im + 0x1000))) as (s2 & im2 & E & H1 & H2 & H3 & H4); cbn [heap heap_actual]; [|done|lia|lia|done|done|lia|].
  - constructor; cbn [heap heap_actual]; [done|split; [lia|]; Z.to_euclidean_division_equations; lia|]. intros a Ha. destruct (Z_lt_ge_dec a (heap_actual im + 0x1000)) as [Hl|Hg].
    + destruct (Hk a ltac:(lia)) as [v Hv]. exists v. by apply Hold.
    + apply Hnew. Z.to_euclidean_division_equations; lia.
  - exists s2, im2. split; [done|]. split; [done|]. split; [done|]. split; [done|]. intros b v Hv. by apply H4, Hold.
Qed.

(** C23: [sys_sbrk] returns a page boundary at or behind the old end of the heap; all bytes from
    there up to the new end are backed by memory, and what the program had stored stays.  The
    heap is that of the task, or of the process that has the number of its group, if that
    process is found; the address space has pages left for the new end. *)
Theorem sys_sbrk_backs from_pid base n s ts current p g im size fuel :
  heap_owner from_pid ts current = Ret p -> ts !! p = Some (Program g im) ->
  heap_ok base im s -> base <= heap_actual im + 0x1000 -> sp_ok n s -> (n <= fuel)%nat -> 0 <= size ->
  let ret := 0x1000 * ((heap im + 0xfff) / 0x1000) in
  ret + size < 4294963200 -> ret + size <= heap_actual im + 0x1000 * Z.of_nat n -> (forall a, base <= a < ret + size + 0x1000 -> sp_range a) ->
  exists s' im', sys_sbrk from_pid fuel s ts current size = Ret (s', <[p := Program g im']> ts, ret) /\ heap im' = ret + size /\ heap im <= ret /\ heap_ok base im' s' /\
    (forall a, ret <= a < ret + size -> is_Some (peek s' a)) /\ (forall b v, peek s b = Some v -> peek s' b = Some v).
Proof.
  intros Ho Hp Hh Hba Hs Hf Hz ret Hb Hn Hr. pose proof Hh as [Hra [Hp0 Hpm] Hk]. unfold sys_sbrk. rewrite Ho. cbn [mbind outcome_bind]. rewrite Hp. cbn [of_option mbind outcome_bind image_of group].
  assert (heap im <= ret) as Hle by (unfold ret; Z.to_euclidean_division_equations; lia).
  assert (Z.land (u32 (heap im + 0xfff)) (u32 (Z.lnot 0xfff)) = ret) as ->.
  { rewrite u32_small by (unfold ret in *; Z.to_euclidean_division_equations; lia). change (u32 (Z.lnot 0xfff)) with (Z.land (Z.lnot (Z.ones 12)) (Z.ones 32)). rewrite Z.land_assoc, Z.land_ones, <- Z.ldiff_land, Z.ldiff_ones_r by lia.
    rewrite Z.shiftr_div_pow2, Z.shiftl_mul_pow2 by lia. change (2 ^ 12) with 0x1000. unfold ret in *. rewrite Z.mul_comm. apply Z.mod_small. lia. }
  replace (heap im + (ret - heap im) + size) with (ret + size) by lia. rewrite u32_small by lia.
  destruct (sbrk_pages_ok base fuel n s (Image (ret + size) (heap_actual im))) as (s' & im' & -> & H1 & H2 & H3 & H4); cbn [heap heap_actual]; [|done|done|done|done|done|done|].
  - constructor; cbn [heap heap_actual]; [lia|done|done].
  - cbn [mbind outcome_bind]. cbn [heap] in H1. exists s', im'. split; [done|]. split; [done|]. split; [done|]. split; [done|]. split; [|done]. intros a Ha. apply (h_backed _ _ _ H3). lia.
Qed.

End HeapProofs.

Module Demo.

(** Files that are new nodes at the next address; only one name is missing. *)
Definition next_ptr (m : gmap ptr fs_node_t) : ptr := map_fold (fun k _ a => Z.max (k + 1) a) 1 m.

Lemma next_ptr_new m : next_ptr m <> NULL /\ m !! next_ptr m = None.
Proof.
  assert (1 <= next_ptr m /\ forall k, is_Some (m !! k) -> k < next_ptr m) as [H1 H2].
  { unfold next_ptr. apply (map_fold_weak_ind (fun r m => 1 <= r /\ forall k, is_Some (m !! k) -> k < r)).
    - split; [lia|]. intros k [x Hx]. by rewrite lookup_empty in Hx.
    - intros i x m' r _ [Hr Hk]. split; [lia|]. intros k Hx. rewrite lookup_insert in Hx. destruct (decide (i = k)) as [->|]; [lia|]. specialize (Hk k Hx). lia. }
  unfold NULL. split; [lia|]. destruct (m !! next_ptr m) as [x|] eqn:E; [|done]. specialize (H2 (next_ptr m) ltac:(eauto)). lia.
Qed.

#[local] Existing Instance demo_ops.

#[local] Instance demo_names : FileNames demo_world := {
  kopen2 path fl s := if bool_decide (path = [47; 120]) then Ret (s, NULL)
                      else let p := next_ptr (nodes s) in Ret (put_node s p (Build_node 1 7 9 true false 0x1A4 0), p);
  create_file_fs path mode s := Ret (s, -1);
  attributes_of p w := Attributes 0 0 FS_DIRECTORY 0 0 0 0 0 0 0 0 None;
  readlink_fs p w len := ([], 0)
}.

#[local] Instance demo_names_ok : FileNamesOk demo_world.
Proof.
  constructor; cbn [kopen2 create_file_fs demo_names].
  - intros path fl s. case_bool_decide; [by exists s, NULL; split_and!; [| |left]|]. destruct (next_ptr_new (nodes s)) as [Hp Hn].
    eexists _, (next_ptr (nodes s)). split; [reflexivity|]. split; [done|]. right. split; [done|]. split; [done|]. exists (Build_node 1 7 9 true false 0x1A4 0). split; [by left|reflexivity].
  - intros path mode s. by exists s, (-1).
Qed.

(** The descriptors of the demonstration of [Descriptors]. *)
Lemma sys_open_result_witness : exists s' v, sys_open 7 demo [47; 97] 0 0 [] = Ret (s', v) /\ open_result 7 demo_others demo [47; 97] 0 s' v.
Proof. apply (sys_open_result 7 demo_others demo [47; 97] 0 0 [] table_inv), grows_room. reflexivity. Defined.

Lemma sys_pipe_ends_witness : exists s' t fd0 fd1, sys_pipe demo 1000 1001 (fun _ => []) = Ret (s', fd0, fd1) /\ append (fds demo) fd0 1000 t /\ append t fd1 1001 (fds s') /\
  inv (fun q => if decide (q = 1000 \/ q = 1001) then 0 else demo_others q) s'.
Proof. apply (sys_pipe_ends demo_others demo 1000 1001 _ table_inv); try discriminate; reflexivity. Defined.

Lemma name_calls_keep_witness : exists s' v, sys_access demo [47; 97] = Ret (s', v) /\ kept demo s'.
Proof. exact (proj1 (name_calls_keep demo [47; 97] [47] 10)). Defined.

(** A flat memory whose pages appear when they are backed. *)
Definition flat := Z -> option Z.
#[local] Instance flat_space : AddressSpace flat := {
  back s a := Ret (fun b => if b / 0x1000 =? a / 0x1000 then Some (default 0 (s b)) else s b);
  peek s a := s a;
  poke s a v := match s a with Some _ => Ret (fun b => if b =? a then Some (u8 v) else s b) | None => Fault end;
  reset s := Ret s
}.
#[local] Instance flat_space_ok : AddressSpaceOk flat.
Proof.
  apply (Build_AddressSpaceOk flat _ (fun _ _ => True) (fun _ => True)); cbn [back peek poke reset flat_space]; [done| | |].
  - intros n s a _ _. eexists. split; [reflexivity|]. split; [done|]. split.
    + intros b ->. rewrite Z.eqb_refl. eauto.
    + intros b v Hv. rewrite Hv. by destruct (_ =? _).
  - intros n s a v _ [x Hx]. rewrite Hx. by eexists.
  - intros n s _. by eexists.
Defined.

Lemma sys_sbrk_backs_witness : exists s' im', sys_sbrk (fun _ => Fault) 3 ((fun a => if a / 0x1000 =? 5 then Some 0 else None) : flat) {[ 100 := Program 0 (Image 0x5010 0x5000) ]} 100 0x1800 =
    Ret (s', <[100 := Program 0 im']> {[ 100 := Program 0 (Image 0x5010 0x5000) ]}, 0x6000) /\
  heap im' = 0x7800 /\ is_Some (peek s' 0x77ff).
Proof.
  destruct (sys_sbrk_backs (fun _ => Fault) 0x5000 3 ((fun a => if a / 0x1000 =? 5 then Some 0 else None) : flat) {[ 100 := Program 0 (Image 0x5010 0x5000) ]} 100 100 0 (Image 0x5010 0x5000) 0x1800 3) as (s' & im' & E & Hh & _ & _ & Hb & _).
  - reflexivity.
  - reflexivity.
  - constructor; cbn [heap heap_actual]; [lia|split; [lia|reflexivity]|]. intros a Ha. cbn [peek flat_space]. rewrite (proj2 (Z.eqb_eq _ _)); [eauto|]. Z.to_euclidean_division_equations; lia.
  - cbn; lia.
  - exact I.
  - lia.
  - lia.
  - reflexivity.
  - discriminate.
  - intros; exact I.
  - exists s', im'. split; [exact E|]. split; [exact Hh|]. apply Hb. split; [discriminate|reflexivity].
Defined.

End Demo.

End Syscalls.
