(* ===== verification/Pci.v ===== *)
(** * The PCI buses ([kernel/src/pci.c])

    The configuration space is a function from addresses to words; a scan of the buses is the
    sequence of calls that it makes for the functions it finds.  A bridge leads to another
    bus, so the scan is recursive; it ends because the numbers of buses grow. *)

From stdpp Require Import base numbers list.
From S2P Require Import Prelude.

Module Pci.

Definition PCI_VENDOR_ID : Z := 0x00.
Definition PCI_DEVICE_ID : Z := 0x02.
Definition PCI_SUBCLASS : Z := 0x0a.
Definition PCI_CLASS : Z := 0x0b.
Definition PCI_HEADER_TYPE : Z := 0x0e.
Definition PCI_SECONDARY_BUS : Z := 0x19.
Definition PCI_TYPE_BRIDGE : Z := 0x0604.
Definition PCI_NONE : Z := 0xFFFF.

Definition pci_extract_bus (device : Z) : Z := u8 (Z.shiftr device 16).
Definition pci_extract_slot (device : Z) : Z := u8 (Z.shiftr device 8).
Definition pci_extract_func (device : Z) : Z := u8 device.
Definition pci_get_addr (device field : Z) : Z :=
  Z.lor (Z.lor (Z.lor (Z.lor 0x80000000 (Z.shiftl (pci_extract_bus device) 16)) (Z.shiftl (pci_extract_slot device) 11)) (Z.shiftl (pci_extract_func device) 8)) (Z.land field 0xFC).
Definition pci_box_device (bus slot func : Z) : Z := u32 (Z.lor (Z.lor (Z.shiftl bus 16) (Z.shiftl slot 8)) func).

Section Scan.

(** What the value port gives after an address was written to the address port. *)
Context (conf : Z -> Z).

(** The ports behind the value port give the upper parts of the word. *)
Definition inportl (addr : Z) : Z := u32 (conf addr).
Definition inports (addr offset : Z) : Z := u16 (Z.shiftr (conf addr) (8 * offset)).
Definition inportb (addr offset : Z) : Z := u8 (Z.shiftr (conf addr) (8 * offset)).

Definition pci_read_field (device field size : Z) : Z :=
  let addr := pci_get_addr device field in
  if size =? 4 then inportl addr
  else if size =? 2 then inports addr (Z.land field 2)
  else if size =? 1 then inportb addr (Z.land field 3)
  else 0xFFFF.

Definition pci_find_type (dev : Z) : Z := u16 (Z.lor (Z.shiftl (pci_read_field dev PCI_CLASS 1) 8) (pci_read_field dev PCI_SUBCLASS 1)).

(** A call of the function that is handed to the scan. *)
Record hit := Hit { h_dev : Z; h_vendor : Z; h_device : Z }.
Definition pci_scan_hit (dev : Z) : hit := Hit dev (pci_read_field dev PCI_VENDOR_ID 2) (pci_read_field dev PCI_DEVICE_ID 2).

(** One function: the call, and the bus behind a bridge. *)
Definition pci_scan_func (scan_bus : Z -> outcome (list hit)) (type bus slot func : Z) : outcome (list hit) :=
  let dev := pci_box_device bus slot func in
  let here := if (type =? -1) || (type =? pci_find_type dev) then [pci_scan_hit dev] else [] in
  below ← (if pci_find_type dev =? PCI_TYPE_BRIDGE then scan_bus (pci_read_field dev PCI_SECONDARY_BUS 1) else Ret []);
  Ret (here ++ below).

(** [for (int func = 1; func < 8; func++)] *)
Fixpoint scan_funcs (scan_bus : Z -> outcome (list hit)) (type bus slot func : Z) (todo : nat) : outcome (list hit) :=
  match todo with
  | O => Ret []
  | S todo' =>
      l ← (if pci_read_field (pci_box_device bus slot func) PCI_VENDOR_ID 2 =? PCI_NONE then Ret [] else pci_scan_func scan_bus type bus slot func);
      l' ← scan_funcs scan_bus type bus slot (func + 1) todo';
      Ret (l ++ l')
  end.

Definition pci_scan_slot (scan_bus : Z -> outcome (list hit)) (type bus slot : Z) : outcome (list hit) :=
  let dev := pci_box_device bus slot 0 in
  if pci_read_field dev PCI_VENDOR_ID 2 =? PCI_NONE then Ret []
  else
    l ← pci_scan_func scan_bus type bus slot 0;
    if pci_read_field dev PCI_HEADER_TYPE 1 =? 0 then Ret l
    else l' ← scan_funcs scan_bus type bus slot 1 7; Ret (l ++ l').

(** [for (int slot = 0; slot < 32; ++slot)] *)
Fixpoint scan_slots (scan_bus : Z -> outcome (list hit)) (type bus slot : Z) (todo : nat) : outcome (list hit) :=
  match todo with
  | O => Ret []
  | S todo' =>
      l ← pci_scan_slot scan_bus type bus slot;
      l' ← scan_slots scan_bus type bus (slot + 1) todo';
      Ret (l ++ l')
  end.

(** [fuel] bounds the depth of bridges. *)
Fixpoint pci_scan_bus (fuel : nat) (type bus : Z) : outcome (list hit) :=
  match fuel with
  | O => OutOfFuel
  | S fuel' => scan_slots (pci_scan_bus fuel' type) type bus 0 32
  end.

(** The loop over the functions of the first device, each of which is a bus. *)
Fixpoint scan_hosts (type func : Z) (todo : nat) : outcome (list hit) :=
  match todo with
  | O => Ret []
  | S todo' =>
      if pci_read_field (pci_box_device 0 0 func) PCI_VENDOR_ID 2 =? PCI_NONE then Ret []
      else
        l ← pci_scan_bus 256 type func;
        l' ← scan_hosts type (func + 1) todo';
        Ret (l ++ l')
  end.

Definition pci_scan (type : Z) : outcome (list hit) :=
  if Z.land (pci_read_field 0 PCI_HEADER_TYPE 1) 0x80 =? 0 then pci_scan_bus 256 type 0
  else scan_hosts type 0 8.

(** ** What there is to find *)

Definition answers (bus slot func : Z) : Prop := pci_read_field (pci_box_device bus slot func) PCI_VENDOR_ID 2 <> PCI_NONE.

(** A function of a device: the first one, or another one of a device that has several. *)
Definition present (bus slot func : Z) : Prop :=
  0 <= slot < 32 /\ answers bus slot 0 /\
  (func = 0 \/ (1 <= func < 8 /\ pci_read_field (pci_box_device bus slot 0) PCI_HEADER_TYPE 1 <> 0 /\ answers bus slot func)).

(** The bus behind a bridge. *)
Definition bridge (bus to : Z) : Prop :=
  exists slot func, present bus slot func /\ pci_find_type (pci_box_device bus slot func) = PCI_TYPE_BRIDGE /\ to = pci_read_field (pci_box_device bus slot func) PCI_SECONDARY_BUS 1.

Inductive leads : Z -> Z -> Prop :=
| leads_here b : leads b b
| leads_on a b c : bridge a b -> leads b c -> leads a c.

(** The buses at the host: one, or one for every function of the first device up to the first
    that does not answer. *)
Definition host (b : Z) : Prop :=
  if Z.land (pci_read_field 0 PCI_HEADER_TYPE 1) 0x80 =? 0 then b = 0
  else 0 <= b < 8 /\ forall f, 0 <= f <= b -> answers 0 0 f.

Definition matches (type bus slot func : Z) : Prop := type = -1 \/ type = pci_find_type (pci_box_device bus slot func).

(** ** The scan *)

(** The calls for a bus and everything behind it. *)
Definition behind (type bus : Z) (h : hit) : Prop :=
  exists b slot func, leads bus b /\ present b slot func /\ matches type b slot func /\ h = pci_scan_hit (pci_box_device b slot func).

(** The calls for one function. *)
Definition found (type bus slot func : Z) (h : hit) : Prop :=
  (matches type bus slot func /\ h = pci_scan_hit (pci_box_device bus slot func)) \/
  (pci_find_type (pci_box_device bus slot func) = PCI_TYPE_BRIDGE /\ behind type (pci_read_field (pci_box_device bus slot func) PCI_SECONDARY_BUS 1) h).

Lemma behind_found type bus h : behind type bus h <-> exists slot func, present bus slot func /\ found type bus slot func h.
Proof.
  split.
  - intros (b & slot & func & Hl & Hp & Hm & ->). destruct Hl as [b|a b c (s & f & Hps & Ht & ->) Hl]; [exists slot, func; split; [done|by left]|].
    exists s, f. split; [done|]. right. split; [done|]. by exists c, slot, func.
  - intros (slot & func & Hp & [[Hm ->]|[Ht (b & s & f & Hl & Hp' & Hm & ->)]]); [exists bus, slot, func; split; [constructor|done]|].
    exists b, s, f. split; [|done]. eapply leads_on; [|exact Hl]. by exists slot, func.
Qed.

(** With a scan that is right for the buses behind the bridges of this one. *)
Section Bus.
Context (sub : Z -> outcome (list hit)) (type bus : Z).
Hypothesis sub_ok : forall to, bridge bus to -> exists l, sub to = Ret l /\ forall h, h ∈ l <-> behind type to h.

Lemma func_ok slot func : present bus slot func -> exists l, pci_scan_func sub type bus slot func = Ret l /\ forall h, h ∈ l <-> found type bus slot func h.
Proof.
  intros Hp. unfold pci_scan_func, found, matches. set (dev := pci_box_device bus slot func).
  assert (forall h, h ∈ (if (type =? -1) || (type =? pci_find_type dev) then [pci_scan_hit dev] else []) <-> (type = -1 \/ type = pci_find_type dev) /\ h = pci_scan_hit dev) as Hhere.
  { intros h. destruct (Z.eqb_spec type (-1)), (Z.eqb_spec type (pci_find_type dev)); cbn [orb]; rewrite ?list_elem_of_singleton, ?elem_of_nil; tauto. }
  destruct (Z.eqb_spec (pci_find_type dev) PCI_TYPE_BRIDGE) as [E|Hne].
  - destruct (sub_ok (pci_read_field dev PCI_SECONDARY_BUS 1)) as (l & -> & Hl); [by exists slot, func|]. cbn [mbind outcome_bind]. eexists. split; [reflexivity|]. intros h. rewrite elem_of_app, Hhere, Hl. tauto.
  - cbn [mbind outcome_bind]. eexists. split; [reflexivity|]. intros h. rewrite elem_of_app, Hhere, elem_of_nil. tauto.
Qed.

Lemma funcs_ok slot todo : forall func, 0 <= slot < 32 -> answers bus slot 0 -> pci_read_field (pci_box_device bus slot 0) PCI_HEADER_TYPE 1 <> 0 -> 1 <= func -> func + Z.of_nat todo <= 8 ->
  exists l, scan_funcs sub type bus slot func todo = Ret l /\ forall h, h ∈ l <-> exists f, func <= f < func + Z.of_nat todo /\ answers bus slot f /\ found type bus slot f h.
Proof.
  induction todo as [|todo IH]; intros func Hs H0 Hh Hf Hb; cbn [scan_funcs].
  { exists []. split; [done|]. intros h. rewrite elem_of_nil. split; [done|]. intros (f & Hf' & _). lia. }
  destruct (IH (func + 1) Hs H0 Hh) as (l' & El & Hl'); [lia|lia|].
  assert (exists l, (if pci_read_field (pci_box_device bus slot func) PCI_VENDOR_ID 2 =? PCI_NONE then Ret [] else pci_scan_func sub type bus slot func) = Ret l /\
    forall h, h ∈ l <-> answers bus slot func /\ found type bus slot func h) as (l & -> & Hl).
  { unfold answers. destruct (Z.eqb_spec (pci_read_field (pci_box_device bus slot func) PCI_VENDOR_ID 2) PCI_NONE) as [E|Hne].
    - exists []. split; [done|]. intros h. rewrite elem_of_nil. tauto.
    - destruct (func_ok slot func) as (l & E & Hl); [split; [done|]; split; [done|]; right; split; [lia|]; by split|]. exists l. split; [done|]. intros h. rewrite Hl. tauto. }
  cbn [mbind outcome_bind]. rewrite El. cbn [mbind outcome_bind]. eexists. split; [reflexivity|]. intros h. rewrite elem_of_app, Hl, Hl'. split.
  - intros [[Ha Hx]|(f & Hf' & Hx)]; [exists func; split; [lia|done]|exists f; split; [lia|done]].
  - intros (f & Hf' & Ha & Hx). destruct (decide (f = func)) as [->|]; [by left|]. right. exists f. split; [lia|done].
Qed.

Lemma slot_ok slot : 0 <= slot < 32 -> exists l, pci_scan_slot sub type bus slot = Ret l /\ forall h, h ∈ l <-> exists func, present bus slot func /\ found type bus slot func h.
Proof.
  intros Hs. unfold pci_scan_slot. destruct (Z.eqb_spec (pci_read_field (pci_box_device bus slot 0) PCI_VENDOR_ID 2) PCI_NONE) as [E|Hne].
  { exists []. split; [done|]. intros h. rewrite elem_of_nil. split; [done|]. intros (f & (_ & Ha & _) & _). by apply Ha. }
  destruct (func_ok slot 0) as (l & -> & Hl); [split; [done|]; split; [done|by left]|]. cbn [mbind outcome_bind].
  destruct (Z.eqb_spec (pci_read_field (pci_box_device bus slot 0) PCI_HEADER_TYPE 1) 0) as [E|Hh].
  - exists l. split; [done|]. intros h. rewrite Hl. split; [intros Hx; exists 0; split; [split; [done|]; split; [done|by left]|done]|]. intros (f & (_ & _ & [->|(_ & Hc & _)]) & Hx); [done|]. by destruct Hc.
  - destruct (funcs_ok slot 7 1 Hs Hne Hh) as (l' & -> & Hl'); [lia|lia|]. cbn [mbind outcome_bind]. eexists. split; [reflexivity|]. intros h. rewrite elem_of_app, Hl, Hl'. split.
    + intros [Hx|(f & Hf & Ha & Hx)]; [exists 0; split; [split; [done|]; split; [done|by left]|done]|]. exists f. split; [|done]. split; [done|]. split; [done|]. right. split; [lia|done].
    + intros (f & (_ & _ & [->|(Hf & _ & Ha)]) & Hx); [by left|]. right. exists f. split; [lia|done].
Qed.

Lemma slots_ok todo : forall slot, 0 <= slot -> slot + Z.of_nat todo <= 32 ->
  exists l, scan_slots sub type bus slot todo = Ret l /\ forall h, h ∈ l <-> exists s func, slot <= s < slot + Z.of_nat todo /\ present bus s func /\ found type bus s func h.
Proof.
  induction todo as [|todo IH]; intros slot Hs Hb; cbn [scan_slots].
  { exists []. split; [done|]. intros h. rewrite elem_of_nil. split; [done|]. intros (x & f & Hx & _). lia. }
  destruct (slot_ok slot) as (l & -> & Hl); [lia|]. cbn [mbind outcome_bind]. destruct (IH (slot + 1)) as (l' & -> & Hl'); [lia|lia|]. cbn [mbind outcome_bind]. eexists. split; [reflexivity|].
  intros h. rewrite elem_of_app, Hl, Hl'. split.
  - intros [(f & Hx)|(x & f & Hr & Hx)]; [exists slot, f; split; [lia|done]|exists x, f; split; [lia|done]].
  - intros (x & f & Hr & Hx). destruct (decide (x = slot)) as [->|]; [left; by exists f|]. right. exists x, f. split; [lia|done].
Qed.

End Bus.

(** The bus behind a bridge has a higher number, as the bus numbers of PCI do. *)
Hypothesis upwards : forall bus to, 0 <= bus < 256 -> bridge bus to -> bus < to.

Lemma scan_bus_ok type : forall fuel bus, 256 - bus <= Z.of_nat fuel -> 0 <= bus < 256 -> exists l, pci_scan_bus fuel type bus = Ret l /\ forall h, h ∈ l <-> behind type bus h.
Proof.
  induction fuel as [|fuel IH]; intros bus Hf Hb; [lia|]. cbn [pci_scan_bus]. destruct (slots_ok (pci_scan_bus fuel type) type bus) with (todo := 32%nat) (slot := 0) as (l & -> & Hl); [|lia|lia|].
  - intros to Hto. pose proof (upwards _ _ Hb Hto). destruct Hto as (s & f & _ & _ & Et). apply IH; [lia|]. rewrite Et. apply Z.mod_pos_bound. lia.
  - exists l. split; [done|]. intros h. rewrite Hl, behind_found. split; [intros (x & f & _ & Hx); by exists x, f|]. intros (x & f & Hp & Hx). exists x, f. split; [|done]. destruct Hp as [Hx' _]. lia.
Qed.

Lemma hosts_ok type todo : forall func, 0 <= func -> func + Z.of_nat todo = 8 -> (forall f, 0 <= f < func -> answers 0 0 f) ->
  exists l, scan_hosts type func todo = Ret l /\ forall h, h ∈ l <-> exists b, func <= b < 8 /\ (forall f, 0 <= f <= b -> answers 0 0 f) /\ behind type b h.
Proof.
  induction todo as [|todo IH]; intros func Hf Ht Ha; cbn [scan_hosts].
  { exists []. split; [done|]. intros h. rewrite elem_of_nil. split; [done|]. intros (b & Hb & _). lia. }
  destruct (Z.eqb_spec (pci_read_field (pci_box_device 0 0 func) PCI_VENDOR_ID 2) PCI_NONE) as [E|Hne].
  { exists []. split; [done|]. intros h. rewrite elem_of_nil. split; [done|]. intros (b & Hb & Hall & _). by apply (Hall func); [lia|]. }
  assert (forall f, 0 <= f < func + 1 -> answers 0 0 f) as Ha' by (intros f Hf'; destruct (decide (f = func)) as [->|]; [done|apply Ha; lia]).
  destruct (scan_bus_ok type 256 func) as (l & -> & Hl); [lia|lia|]. cbn [mbind outcome_bind]. destruct (IH (func + 1)) as (l' & -> & Hl'); [lia|lia|done|]. cbn [mbind outcome_bind]. eexists. split; [reflexivity|].
  intros h. rewrite elem_of_app, Hl, Hl'. split.
  - intros [Hx|(b & Hb & Hx)]; [exists func; split; [lia|]; split; [intros f Hf'; apply Ha'; lia|done]|exists b; split; [lia|done]].
  - intros (b & Hb & Hall & Hx). destruct (decide (b = func)) as [->|]; [by left|]. right. exists b. split; [lia|done].
Qed.

(** C19: If every bridge leads to a bus with a higher number (with a bridge whose secondary
    bus has not been set, the code does not end), a scan ends and calls the function for exactly
    the functions of that type that answer on a bus that can be reached from the host through
    bridges. *)
Theorem pci_scan_finds type : exists l, pci_scan type = Ret l /\ forall h, h ∈ l <-> exists b, host b /\ behind type b h.
Proof.
  unfold pci_scan, host. destruct (Z.land (pci_read_field 0 PCI_HEADER_TYPE 1) 0x80 =? 0).
  - destruct (scan_bus_ok type 256 0) as (l & -> & Hl); [lia|lia|]. exists l. split; [done|]. intros h. rewrite Hl. split; [intros Hx; by exists 0|]. by intros (b & -> & Hx).
  - destruct (hosts_ok type 8 0) as (l & -> & Hl); [lia|lia|intros f Hf; lia|]. exists l. split; [done|]. intros h. rewrite Hl. split; intros (b & Hx); exists b; [split; [split; apply Hx|apply Hx]|destruct Hx as [[H1 H2] H3]; split; [lia|done]].
Qed.

End Scan.

(** ** Addresses *)

(** The parts of a device number do not overlap, so boxing is undone by extraction. *)
Lemma pci_box_extract bus slot func : 0 <= bus < 256 -> 0 <= slot < 256 -> 0 <= func < 256 ->
  let dev := pci_box_device bus slot func in pci_extract_bus dev = bus /\ pci_extract_slot dev = slot /\ pci_extract_func dev = func.
Proof.
  intros Hb Hs Hf dev. assert (dev = 65536 * bus + 256 * slot + func) as ->.
  { unfold dev, pci_box_device. replace (Z.shiftl bus 16) with (Z.shiftl (Z.shiftl bus 8) 8) by (by rewrite Z.shiftl_shiftl by lia). rewrite <- Z.shiftl_lor, (lor_apart bus slot 8), (lor_apart _ func 8) by lia. rewrite u32_small by lia. lia. }
  unfold pci_extract_bus, pci_extract_slot, pci_extract_func, u8. rewrite !Z.shiftr_div_pow2 by lia. change (2 ^ 16) with 65536. change (2 ^ 8) with 256. Z.to_euclidean_division_equations; lia.
Qed.

(** The address of a field has the parts of the device side by side: fields of different
    functions have different addresses. *)
Theorem pci_get_addr_value bus slot func field : 0 <= bus < 256 -> 0 <= slot < 32 -> 0 <= func < 8 -> 0 <= field < 256 ->
  pci_get_addr (pci_box_device bus slot func) field = 0x80000000 + 65536 * bus + 2048 * slot + 256 * func + Z.land field 0xFC /\ 0 <= Z.land field 0xFC < 256.
Proof.
  intros Hb Hs Hf Hd. assert (0 <= Z.land field 0xFC < 256) as Hl.
  { split; [apply Z.land_nonneg; left; lia|]. rewrite <- (Z.mod_small field 256) by lia. change 256 with (2 ^ 8) at 1. rewrite <- Z.land_ones, <- Z.land_assoc, (Z.land_comm (Z.ones 8)), Z.land_assoc, Z.land_ones by lia. apply Z.mod_pos_bound. lia. }
  split; [|exact Hl]. unfold pci_get_addr. destruct (pci_box_extract bus slot func) as (-> & -> & ->); [lia|lia|lia|]. change 0x80000000 with (Z.shiftl 0x8000 16) at 1.
  rewrite <- Z.shiftl_lor. change 0x8000 with (Z.shiftl 0x80 8) at 1. rewrite (lor_apart 0x80 bus 8), (lor_apart _ (Z.shiftl slot 11) 16) by (rewrite ?Z.shiftl_mul_pow2; lia). rewrite (Z.shiftl_mul_pow2 slot) by lia.
  replace ((128 * 2 ^ 8 + bus) * 2 ^ 16 + slot * 2 ^ 11) with (Z.shiftl ((128 * 2 ^ 8 + bus) * 32 + slot) 11) by (rewrite Z.shiftl_mul_pow2 by lia; lia).
  rewrite (lor_apart _ (Z.shiftl func 8) 11) by (rewrite ?Z.shiftl_mul_pow2; lia). rewrite (Z.shiftl_mul_pow2 func) by lia.
  replace (((128 * 2 ^ 8 + bus) * 32 + slot) * 2 ^ 11 + func * 2 ^ 8) with (Z.shiftl ((((128 * 2 ^ 8 + bus) * 32 + slot) * 8) + func) 8) by (rewrite Z.shiftl_mul_pow2 by lia; lia).
  rewrite lor_apart by lia. lia.
Qed.

Module Demo.

(** A bus with a bridge in slot 1, behind which there is one device. *)
Definition conf (addr : Z) : Z :=
  if addr =? 0x80000800 then 0x00018086 else if addr =? 0x80000808 then 0x06040000 else if addr =? 0x80000818 then 0x00000100
  else if addr =? 0x80010000 then 0x813910EC else if addr =? 0x80010008 then 0x02000000
  else if Z.land addr 0xFC =? 0 then 0xFFFFFFFF else 0.

Example scan_both : pci_scan conf (-1) = Ret [pci_scan_hit conf 0x100; pci_scan_hit conf 0x10000].
Proof. vm_compute. reflexivity. Qed.

Lemma conf_upwards bus to : 0 <= bus < 256 -> bridge conf bus to -> bus < to.
Proof.
  intros Hb (slot & func & (Hs & _ & Hf) & Ht & ->). assert (0 <= func < 8) as Hf' by lia. clear Hf. unfold pci_find_type, pci_read_field in *. cbn [Z.eqb Pos.eqb] in *. unfold inportb in *.
  destruct (pci_get_addr_value bus slot func PCI_CLASS Hb Hs Hf' ltac:(vm_compute; split; congruence)) as [E1 _]. destruct (pci_get_addr_value bus slot func PCI_SUBCLASS Hb Hs Hf' ltac:(vm_compute; split; congruence)) as [E2 _].
  destruct (pci_get_addr_value bus slot func PCI_SECONDARY_BUS Hb Hs Hf' ltac:(vm_compute; split; congruence)) as [E3 _]. rewrite E1, E2 in Ht. rewrite E3. clear E1 E2 E3.
  change (Z.land PCI_CLASS 0xFC) with 8 in Ht. change (Z.land PCI_SUBCLASS 0xFC) with 8 in Ht. change (Z.land PCI_SECONDARY_BUS 0xFC) with 0x18. unfold conf in Ht.
  destruct (Z.eqb_spec (0x80000000 + 65536 * bus + 2048 * slot + 256 * func + 8) 0x80000800); [lia|]. destruct (Z.eqb_spec (0x80000000 + 65536 * bus + 2048 * slot + 256 * func + 8) 0x80000808) as [E|].
  - assert (bus = 0 /\ slot = 1 /\ func = 0) as (-> & -> & ->) by lia. reflexivity.
  - repeat match type of Ht with context [?a =? ?b] => destruct (a =? b) end; vm_compute in Ht; discriminate.
Qed.

Lemma pci_scan_finds_witness : exists l, pci_scan conf 0x0200 = Ret l /\ forall h, h ∈ l <-> exists b, host conf b /\ behind conf 0x0200 b h.
Proof. exact (pci_scan_finds conf conf_upwards 0x0200). Defined.

End Demo.

End Pci.
