(* ===== verification/Tables.v ===== *)
(** * Descriptor tables ([kernel/src/dev/cpu/gdt.c], [kernel/src/dev/cpu/idt.c])

    The entries of the segment and interrupt tables as the structures of the source, laid out as
    bytes, and what the processor reads from these bytes. *)

From stdpp Require Import base numbers list.
From S2P Require Import Prelude.

Module Tables.

Definition NUM_OF_GDT : Z := 6.

Record gdt_entry := Gdt { limit_low : Z; base_low : Z; base_middle : Z; access : Z; gran : Z; base_high : Z }.
Record idt_entry := Idt { base_lo : Z; sel : Z; always0 : Z; flags : Z; base_hi : Z }.

(** The fields of [tss_entry_struct] that are set to something other than 0. *)
Record tss_entry_t := Tss { ss0 : Z; esp0 : Z; cs : Z; ss : Z; ds : Z; es : Z; fs : Z; gs : Z }.
Definition sizeof_tss : Z := 104.

Record state := State { gdt : list gdt_entry; tss_entry : tss_entry_t; idt : list idt_entry }.

Definition gdt_set_gate (t : list gdt_entry) (num base limit acc gr : Z) : outcome (list gdt_entry) :=
  let low_gran := Z.land (Z.shiftr limit 16) 0x0f in
  aset t num (Gdt (Z.land limit 0xffff) (Z.land base 0xffff) (Z.land (Z.shiftr base 16) 0xff) acc (Z.lor low_gran (Z.land gr 0xf0)) (Z.land (Z.shiftr base 24) 0xff)).

(** [addr] is the address of [tss_entry]. *)
Definition write_tss (s : state) (addr num ss0_ esp0_ : Z) : outcome state :=
  let limit := u32 (addr + sizeof_tss) in
  t ← gdt_set_gate (gdt s) num addr limit 0xE9 0x00;
  Ret (State t (Tss ss0_ esp0_ 0x0b 0x13 0x13 0x13 0x13 0x13) (idt s)).

Definition gdt_install (s : state) (addr : Z) : outcome state :=
  t ← gdt_set_gate (gdt s) 0 0 0 0 0;
  t ← gdt_set_gate t 1 0 0xffffffff 0x9a 0xcf;
  t ← gdt_set_gate t 2 0 0xffffffff 0x92 0xcf;
  t ← gdt_set_gate t 3 0 0xffffffff 0xfa 0xcf;
  t ← gdt_set_gate t 4 0 0xffffffff 0xf2 0xcf;
  write_tss (State t (tss_entry s) (idt s)) addr 5 0x10 0x0.

Definition set_kernel_stack (s : state) (stack : Z) : state :=
  let t := tss_entry s in State (gdt s) (Tss (ss0 t) stack (cs t) (ss t) (ds t) (es t) (fs t) (gs t)) (idt s).

(** [num] is a byte, so it is always in the table. *)
Definition idt_set_gate (t : list idt_entry) (num base sel_ flags_ : Z) : outcome (list idt_entry) :=
  aset t (u8 num) (Idt (Z.land base 0xffff) sel_ 0 (Z.lor flags_ 0x60) (Z.land (Z.shiftr base 16) 0xffff)).

(** ** The layout *)

Definition gdt_bytes (e : gdt_entry) : list Z :=
  [limit_low e mod 256; limit_low e / 256; base_low e mod 256; base_low e / 256; base_middle e; access e; gran e; base_high e].
Definition idt_bytes (e : idt_entry) : list Z :=
  [base_lo e mod 256; base_lo e / 256; sel e mod 256; sel e / 256; always0 e; flags e; base_hi e mod 256; base_hi e / 256].

(** What the processor makes of eight bytes: the base and the last offset of a segment, which
    counts pages when the highest bit of the seventh byte is set; the privilege that is
    needed; the address of a handler. *)
Definition byte (d : list Z) (i : nat) : Z := nth i d 0.
Definition seg_base (d : list Z) : Z := byte d 2 + 256 * byte d 3 + 65536 * byte d 4 + 16777216 * byte d 7.
Definition seg_limit (d : list Z) : Z :=
  let l := byte d 0 + 256 * byte d 1 + 65536 * (byte d 6 mod 16) in if 128 <=? byte d 6 then 4096 * l + 4095 else l.
Definition privilege (d : list Z) : Z := byte d 5 / 32 mod 4.
Definition handler (d : list Z) : Z := byte d 0 + 256 * byte d 1 + 65536 * byte d 6 + 16777216 * byte d 7.
Definition selector (d : list Z) : Z := byte d 2 + 256 * byte d 3.

(** The parts of a number. *)
Lemma low16 x : Z.land x 0xffff = x mod 65536.
Proof. change 0xffff with (Z.ones 16). by rewrite Z.land_ones by lia. Qed.
Lemma low8 x : Z.land x 0xff = x mod 256.
Proof. change 0xff with (Z.ones 8). by rewrite Z.land_ones by lia. Qed.
Lemma low4 x : Z.land x 0x0f = x mod 16.
Proof. change 0x0f with (Z.ones 4). by rewrite Z.land_ones by lia. Qed.

Lemma high_nibble x : 0 <= x < 256 -> Z.land x 0xf0 = Z.shiftl (x / 16) 4.
Proof.
  intros Hx. apply Z.eqb_eq. assert (forallb (fun v => Z.land v 0xf0 =? Z.shiftl (v / 16) 4) (seqZ 0 256) = true) as Hall by (vm_compute; reflexivity).
  rewrite forallb_forall in Hall. apply Hall, list_elem_of_In, elem_of_seqZ. lia.
Qed.

Lemma nibbles l g : 0 <= l < 16 -> 0 <= g < 256 -> Z.lor l (Z.land g 0xf0) = 16 * (g / 16) + l.
Proof. intros Hl Hg. rewrite high_nibble, Z.lor_comm, lor_apart by lia. lia. Qed.

(** A segment as the processor reads it back. *)
Theorem gdt_gate_decodes t num base limit acc gr :
  0 <= num < Z.of_nat (length t) -> 0 <= base < 4294967296 -> 0 <= limit < 4294967296 -> 0 <= acc < 256 -> 0 <= gr < 256 ->
  exists e, gdt_set_gate t num base limit acc gr = Ret (<[Z.to_nat num := e]> t) /\
    seg_base (gdt_bytes e) = base /\ byte (gdt_bytes e) 5 = acc /\ Forall (fun b => 0 <= b < 256) (gdt_bytes e) /\
    seg_limit (gdt_bytes e) = if 128 <=? gr then 4096 * (limit mod 1048576) + 4095 else limit mod 1048576.
Proof.
  intros Hn Hb Hl Ha Hg. unfold gdt_set_gate. rewrite low4, !low16, !low8, nibbles, !Z.shiftr_div_pow2 by (rewrite ?Z.shiftr_div_pow2 by lia; try apply Z.mod_pos_bound; lia).
  change (2 ^ 16) with 65536. change (2 ^ 24) with 16777216. rewrite aset_in_range by done. eexists. split; [reflexivity|]. unfold seg_base, seg_limit, gdt_bytes, byte. cbn [nth limit_low base_low base_middle access gran base_high].
  split; [Z.to_euclidean_division_equations; lia|]. split; [done|]. split; [repeat constructor; Z.to_euclidean_division_equations; lia|].
  replace ((16 * (gr / 16) + (limit / 65536) mod 16) mod 16) with ((limit / 65536) mod 16) by (Z.to_euclidean_division_equations; lia).
  replace (128 <=? 16 * (gr / 16) + (limit / 65536) mod 16) with (128 <=? gr) by (apply eq_true_iff_eq; rewrite !Z.leb_le; Z.to_euclidean_division_equations; lia).
  replace ((limit mod 65536) mod 256 + 256 * (limit mod 65536 / 256) + 65536 * ((limit / 65536) mod 16)) with (limit mod 1048576) by (Z.to_euclidean_division_equations; lia). done.
Qed.

(** After [gdt_install] the segments for code and data, of the kernel (0) and of programs (3),
    begin at 0 and end at the last byte of memory. *)
Theorem gdt_install_flat s addr : length (gdt s) = 6%nat -> 0 <= addr < 4294967296 ->
  exists s', gdt_install s addr = Ret s' /\
    Forall2 (fun i p => exists e, gdt s' !! i = Some e /\ seg_base (gdt_bytes e) = 0 /\ seg_limit (gdt_bytes e) = 4294967295 /\ privilege (gdt_bytes e) = p)
      [1; 2; 3; 4]%nat [0; 0; 3; 3] /\
    (exists e, gdt s' !! 5%nat = Some e /\ seg_base (gdt_bytes e) = addr) /\ ss0 (tss_entry s') = 0x10.
Proof.
  intros Hl Ha. unfold gdt_install, write_tss. destruct (gdt s) as [|e0 [|e1 [|e2 [|e3 [|e4 [|e5 [|]]]]]]]; try done. cbn [gdt].
  destruct (gdt_gate_decodes [e0; e1; e2; e3; e4; e5] 5 addr (u32 (addr + sizeof_tss)) 0xE9 0) as (e & E & Eb & _); [cbn; lia|done|apply u32_bound|lia|lia|].
  unfold gdt_set_gate in *. cbn in E. injection E as E. cbn. eexists. split; [reflexivity|]. cbn [gdt tss_entry ss0]. rewrite E. split; [|split; [eexists; split; [reflexivity|exact Eb]|done]].
  repeat constructor; (eexists; split; [reflexivity|]; split; [|split]; reflexivity).
Qed.

(** A gate leads to its handler; every gate can be used by programs, whatever its flags
    ask for. *)
Theorem idt_gate_decodes t num base sel_ flags_ : length t = 256%nat -> 0 <= num < 256 -> 0 <= base < 4294967296 -> 0 <= sel_ < 65536 -> 0 <= flags_ < 256 ->
  exists e, idt_set_gate t num base sel_ flags_ = Ret (<[Z.to_nat num := e]> t) /\ handler (idt_bytes e) = base /\ selector (idt_bytes e) = sel_ /\ privilege (idt_bytes e) = 3.
Proof.
  intros Hl Hn Hb Hs Hf. unfold idt_set_gate. rewrite u8_small, aset_in_range by lia. eexists. split; [reflexivity|]. unfold handler, selector, privilege, idt_bytes, byte. cbn [nth base_lo sel always0 flags base_hi].
  rewrite !low16, Z.shiftr_div_pow2 by lia. change (2 ^ 16) with 65536. split; [Z.to_euclidean_division_equations; lia|]. split; [Z.to_euclidean_division_equations; lia|].
  apply Z.eqb_eq. assert (forallb (fun v => Z.lor v 0x60 / 32 mod 4 =? 3) (seqZ 0 256) = true) as Hall by (vm_compute; reflexivity). rewrite forallb_forall in Hall. apply Hall, list_elem_of_In, elem_of_seqZ. lia.
Qed.

End Tables.
