(* ===== verification/Rtl8139.v ===== *)
(** * The network card ([kernel/src/8139.c])

    The driver hands packets to the card in four buffers that are used in turn, and takes
    packets from a buffer that the card fills.  What the card's registers give when they are
    read is an argument; what is written to them is a log.  Of the network stack behind the
    driver there is the allocation of the pieces that a packet is copied into, from a pool
    whose free pieces are counted by an argument.  The stack's packets begin with
    [ETH_PAD_SIZE] bytes of padding that the driver drops and puts back. *)

From stdpp Require Import base numbers list.
From S2P Require Import Prelude.

Module Rtl8139.

Definition RX_BUF_LEN : Z := 81921.
Definition TX_BUF_LEN : Z := 40961.
Definition TSD0 : Z := 0x10.
Definition CAPR : Z := 0x38.
Definition IMR : Z := 0x3c.
Definition ISR : Z := 0x3e.
Definition CR_BUFE : Z := 0x01.
Definition MSR_LINKB : Z := 0x4.
Definition ISR_ROK : Z := 0x01.
Definition ISR_TOK : Z := 0x04.
Definition TSD_TABT : Z := Z.shiftl 1 30.
Definition TSD_OWC : Z := Z.shiftl 1 29.
Definition TSD_TOK : Z := Z.shiftl 1 15.
Definition TSD_TUN : Z := Z.shiftl 1 14.
Definition INT_MASK : Z := 0x1F.
Definition INT_MASK_NO_ROK : Z := 0x1E.
Definition ETH_PAD_SIZE : Z := 2.
Definition PBUF_POOL_BUFSIZE : Z := 1520.
Inductive err_t := ERR_OK | ERR_CONN | ERR_IF.

(** [rtl1839if_t], and what was written to the card's registers, the last first. *)
Record rtl := Rtl {
  tx_queue : Z; tx_complete : Z; tx_inuse : list Z; tx_buffer : list (list Z); rx_buffer : list Z; rx_pos : Z; polling : Z; out : list (Z * Z)
}.
Definition set_tx (s : rtl) q c u b o := Rtl q c u b (rx_buffer s) (rx_pos s) (polling s) o.
Definition set_rx (s : rtl) p := Rtl (tx_queue s) (tx_complete s) (tx_inuse s) (tx_buffer s) (rx_buffer s) p (polling s) (out s).
Definition outport (s : rtl) (reg v : Z) := Rtl (tx_queue s) (tx_complete s) (tx_inuse s) (tx_buffer s) (rx_buffer s) (rx_pos s) (polling s) ((reg, v) :: out s).

(** ** Sending *)

(** [pbuf_header(p, -ETH_PAD_SIZE)], which ends in [do_abort] when the first piece is shorter. *)
Definition drop_padding (p : list (list Z)) : outcome (list (list Z)) :=
  match p with
  | q :: p' => if ETH_PAD_SIZE <=? Z.of_nat (length q) then Ret (drop (Z.to_nat ETH_PAD_SIZE) q :: p') else Fault
  | [] => Fault
  end.

(** The loop over the pieces of a packet. *)
Fixpoint copy_pieces (buf : list Z) (i : Z) (p : list (list Z)) : outcome (list Z) :=
  match p with
  | [] => Ret buf
  | q :: p' => buf ← mem_write buf i q; copy_pieces buf (u32 (i + Z.of_nat (length q))) p'
  end.

Definition tot_len (p : list (list Z)) : Z := Z.of_nat (length (concat p)).

(** [msr] is what the register of the link gives.  The padding is put back into [p] at the end,
    which leaves the packet as it was given. *)
Definition rtl8139if_output (s : rtl) (p : list (list Z)) (msr : Z) : outcome (rtl * err_t) :=
  let transmitid := tx_queue s mod 4 in
  if 3 <? u32 (tx_queue s - tx_complete s) then Ret (s, ERR_IF)
  else if 1792 <? tot_len p then Ret (s, ERR_IF)
  else
    u ← aget (tx_inuse s) transmitid;
    if u =? 1 then Ret (s, ERR_IF)
    else if truthy (Z.land msr MSR_LINKB) then Ret (s, ERR_CONN)
    else
      us ← aset (tx_inuse s) transmitid 1;
      p ← drop_padding p;
      b ← aget (tx_buffer s) transmitid;
      b ← copy_pieces b 0 p;
      bs ← aset (tx_buffer s) transmitid b;
      Ret (set_tx s (u32 (tx_queue s + 1)) (tx_complete s) us bs ((TSD0 + 4 * transmitid, tot_len p) :: out s), ERR_OK).

(** [while (checks > 0)]: [reads] is what the status registers give, one for each round. *)
Fixpoint tx_loop (s : rtl) (checks : Z) (reads : list Z) : outcome rtl :=
  if checks =? 0 then Ret s
  else match reads with
       | [] => OutOfFuel
       | txstatus :: reads' =>
           let tmp8 := tx_complete s mod 4 in
           if Z.land txstatus (Z.lor (Z.lor TSD_TOK TSD_TUN) TSD_TABT) =? 0 then Ret s
           else if truthy (Z.land txstatus (Z.lor TSD_TABT TSD_OWC)) then tx_loop s checks reads'
           else if truthy (Z.land txstatus TSD_TOK) then
             us ← aset (tx_inuse s) tmp8 0;
             tx_loop (set_tx s (tx_queue s) (u32 (tx_complete s + 1)) us (tx_buffer s) (out s)) (checks - 1) reads'
           else tx_loop s checks reads'
       end.
Definition rtl_tx_inthandler (s : rtl) (reads : list Z) : outcome rtl := tx_loop s (u32 (tx_queue s - tx_complete s)) reads.

(** ** Receiving *)

(** A 16-bit word of the receive buffer. *)
Definition rx_word (buf : list Z) (pos : Z) : outcome Z := lo ← aget buf pos; hi ← aget buf (pos + 1); Ret (lo + 256 * hi).

(** [pbuf_alloc] from the pool: the lengths of the pieces, when [free] pieces are enough. *)
Fixpoint pool_pieces (free : nat) (rem_len : Z) : option (list Z) :=
  if rem_len <=? 0 then Some []
  else match free with
       | O => None
       | S free' => let len := Z.min rem_len PBUF_POOL_BUFSIZE in cons len <$> pool_pieces free' (rem_len - len)
       end.
Definition pbuf_alloc (free : nat) (length : Z) : option (list Z) :=
  match free with
  | O => None
  | S free' => let len := Z.min length PBUF_POOL_BUFSIZE in cons len <$> pool_pieces free' (length - len)
  end.

(** [pbuf_header(p, -ETH_PAD_SIZE)] on the lengths. *)
Definition drop_padding_len (lens : list Z) : outcome (list Z) :=
  match lens with
  | len :: lens' => if ETH_PAD_SIZE <=? len then Ret (len - ETH_PAD_SIZE :: lens') else Fault
  | [] => Fault
  end.

(** The loop over the pieces of a new packet; a piece that reaches the end of the buffer
    continues at its beginning.  [rx_pos] has 16 bits. *)
Fixpoint fill_pieces (buf : list Z) (pos : Z) (lens : list Z) : outcome (list Z * Z) :=
  match lens with
  | [] => Ret ([], pos)
  | len :: lens' =>
      let i := u16 (if len <? RX_BUF_LEN - pos then len else RX_BUF_LEN - pos) in
      a ← mem_read buf pos i;
      b ← (if i <? len then mem_read buf 0 (len - i) else Ret []);
      '(rest, pos) ← fill_pieces buf (u16 ((pos + len) mod RX_BUF_LEN)) lens';
      Ret (a ++ b ++ rest, pos)
  end.

(** One packet after its header, and what is given to the network stack behind the padding. *)
Definition rx_packet (s : rtl) (free : nat) : outcome (rtl * option (list Z)) :=
  word ← rx_word (rx_buffer s) (rx_pos s);
  let length := u16 (word - 4) in
  let s := set_rx s (u16 ((rx_pos s + 2) mod RX_BUF_LEN)) in
  let length := u16 (length + ETH_PAD_SIZE) in
  '(s, packet) ← match pbuf_alloc free length with
                 | Some lens =>
                     lens ← drop_padding_len lens;
                     '(bytes, pos) ← fill_pieces (rx_buffer s) (rx_pos s) lens;
                     Ret (set_rx s pos, Some bytes)
                 | None => Ret (set_rx s (u16 (rx_pos s + (rx_pos s + length) mod RX_BUF_LEN)), None)
                 end;
  let s := set_rx s (u16 (Z.land (rx_pos s + 4 + 3) (Z.lnot 3) mod RX_BUF_LEN)) in
  Ret (outport s CAPR (u16 (rx_pos s - 0x10)), packet).

(** [while(!(cmd & CR_BUFE))]: a round has what the command register gives, and the free pieces
    of the pool. *)
Fixpoint rx_loop (s : rtl) (rounds : list (Z * nat)) : outcome (rtl * list (list Z)) :=
  match rounds with
  | [] => OutOfFuel
  | (cmd, free) :: rounds' =>
      if truthy (Z.land cmd CR_BUFE) then Ret (s, [])
      else
        header ← rx_word (rx_buffer s) (rx_pos s);
        let s := set_rx s (u16 ((rx_pos s + 2) mod RX_BUF_LEN)) in
        if truthy (Z.land header ISR_ROK) then
          '(s, packet) ← rx_packet s free;
          '(s, packets) ← rx_loop s rounds';
          Ret (s, match packet with Some b => b :: packets | None => packets end)
        else Ret (s, [])
  end.

Definition set_polling (s : rtl) (v : Z) := Rtl (tx_queue s) (tx_complete s) (tx_inuse s) (tx_buffer s) (rx_buffer s) (rx_pos s) v (out s).

Definition rtl_rx_inthandler (s : rtl) (rounds : list (Z * nat)) : outcome (rtl * list (list Z)) :=
  '(s, packets) ← rx_loop s rounds;
  Ret (outport (set_polling s 0) IMR INT_MASK, packets).

(** ** The interrupt *)

(** [while (1)]: a round has what the status register gives, whether the stack takes the call of
    [rtl8139if_poll], and what the transmit status registers give.  The calls are counted. *)
Fixpoint irq_loop (s : rtl) (rounds : list (Z * bool * list Z)) : outcome (rtl * Z) :=
  match rounds with
  | [] => OutOfFuel
  | (isr_contents, ok, reads) :: rounds' =>
      if isr_contents =? 0 then Ret (s, 0)
      else
        let post := truthy (Z.land isr_contents ISR_ROK) && negb (truthy (polling s)) && ok in
        let s := if post then set_polling s 1 else s in
        s ← (if truthy (Z.land isr_contents ISR_TOK) then rtl_tx_inthandler s reads else Ret s);
        '(s, n) ← irq_loop (outport s ISR (Z.land isr_contents INT_MASK)) rounds';
        Ret (s, (if post then 1 else 0) + n)
  end.

Definition rtl8139if_handler (s : rtl) (rounds : list (Z * bool * list Z)) : outcome (rtl * Z) :=
  '(s, n) ← irq_loop (outport s IMR 0) rounds;
  Ret (outport s IMR (if truthy (polling s) then INT_MASK_NO_ROK else INT_MASK), n).

(** ** The buffers are a queue *)

(** The packets that the card has not yet sent, the oldest first: they are in the buffers from
    [tx_complete] on, and these are marked as in use. *)
Record tx_inv (s : rtl) (q : list (list Z)) : Prop := {
  ti_words : 0 <= tx_queue s < 4294967296 /\ 0 <= tx_complete s < 4294967296;
  ti_len : u32 (tx_queue s - tx_complete s) = Z.of_nat (length q);
  ti_short : Z.of_nat (length q) <= 4;
  ti_sizes : length (tx_inuse s) = 4%nat /\ length (tx_buffer s) = 4%nat /\ Forall (fun b : list Z => Z.of_nat (length b) = TX_BUF_LEN) (tx_buffer s);
  ti_use i : 0 <= i < 4 -> tx_inuse s !! Z.to_nat ((tx_complete s + i) mod 4) = Some (if i <? Z.of_nat (length q) then 1 else 0);
  ti_data i p : q !! i = Some p -> exists b, tx_buffer s !! Z.to_nat ((tx_complete s + Z.of_nat i) mod 4) = Some b /\ take (length p) b = p
}.

Lemma copy_pieces_ok p : forall buf i, 0 <= i -> i + tot_len p <= Z.of_nat (length buf) -> i + tot_len p < 4294967296 ->
  exists buf', copy_pieces buf i p = Ret buf' /\ length buf' = length buf /\
    forall j, 0 <= j -> buf' !! Z.to_nat j = if (i <=? j) && (j <? i + tot_len p) then concat p !! Z.to_nat (j - i) else buf !! Z.to_nat j.
Proof.
  unfold tot_len. induction p as [|x p IH]; intros buf i Hi Hl Hb; cbn [copy_pieces concat] in *.
  - exists buf. split; [done|]. split; [done|]. intros j Hj. zcases; cbn [andb]; done || (cbn [length] in *; lia).
  - rewrite length_app in *. destruct (mem_write_ok buf i x) as (b1 & -> & Hl1 & H1); [lia|lia|]. cbn [mbind outcome_bind]. rewrite u32_small by lia.
    destruct (IH b1 (i + Z.of_nat (length x))) as (b2 & -> & Hl2 & H2); [lia|lia|lia|]. exists b2. split; [done|]. split; [lia|]. intros j Hj. rewrite H2, H1 by lia.
    destruct (Z.leb_spec i j), (Z.ltb_spec j (i + Z.of_nat (length x))), (Z.leb_spec (i + Z.of_nat (length x)) j); cbn [andb]; try lia.
    + rewrite (proj2 (Z.ltb_lt _ _)) by lia. by rewrite lookup_app_l by lia.
    + replace (i + Z.of_nat (length x + length (concat p))) with (i + Z.of_nat (length x) + Z.of_nat (length (concat p))) by lia. destruct (_ <? _) eqn:E; [|done]. apply Z.ltb_lt in E.
      rewrite lookup_app_r by lia. f_equal. lia.
    + done.
Qed.

(** The slot that is used next. *)
Lemma next_slot s q : tx_inv s q -> tx_queue s mod 4 = (tx_complete s + Z.of_nat (length q)) mod 4.
Proof. intros [[Hq Hc] Hl Hs _ _ _]. unfold u32 in Hl. Z.to_euclidean_division_equations; lia. Qed.

Lemma other_slot c i j : 0 <= i < 4 -> 0 <= j < 4 -> i <> j -> Z.to_nat ((c + i) mod 4) <> Z.to_nat ((c + j) mod 4).
Proof. intros Hi Hj Hne E. apply (f_equal Z.of_nat) in E. rewrite !Z2Nat.id in E by (apply Z.mod_pos_bound; lia). Z.to_euclidean_division_equations; lia. Qed.

Lemma padding_len x p : ETH_PAD_SIZE <= Z.of_nat (length x) -> tot_len (drop 2 x :: p) = tot_len (x :: p) - ETH_PAD_SIZE.
Proof. unfold tot_len, ETH_PAD_SIZE. cbn [concat]. rewrite !length_app, length_drop. lia. Qed.

(** C38: The four transmit buffers are a queue of packets: a packet that fits is appended, less its padding, without
    touching those that the card has not sent, and the card is told its buffer and length; with
    four packets waiting, a packet that is too long or no link the call fails and nothing
    changes. *)
Theorem output_enqueues s q x p msr : tx_inv s q -> ETH_PAD_SIZE <= Z.of_nat (length x) ->
  exists s' e, rtl8139if_output s (x :: p) msr = Ret (s', e) /\
    if (Z.of_nat (length q) <? 4) && (tot_len (x :: p) <=? 1792) && (Z.land msr MSR_LINKB =? 0)
    then e = ERR_OK /\ tx_inv s' (q ++ [drop 2 x ++ concat p]) /\ out s' = (TSD0 + 4 * (tx_queue s mod 4), tot_len (x :: p) - ETH_PAD_SIZE) :: out s
    else e <> ERR_OK /\ s' = s.
Proof.
  intros Hi Hx. pose proof (next_slot s q Hi) as Eslot. pose proof Hi as [[Hq Hc] Hl Hs (L1 & L2 & L3) Hu Hd]. unfold rtl8139if_output. rewrite Hl.
  destruct (Z.ltb_spec 3 (Z.of_nat (length q))) as [Hf|Hf]; [rewrite (proj2 (Z.ltb_ge _ 4)) by lia; cbn [andb]; by exists s, ERR_IF|]. rewrite (proj2 (Z.ltb_lt _ 4)) by lia. cbn [andb].
  destruct (Z.ltb_spec 1792 (tot_len (x :: p))) as [Ht|Ht]; [rewrite (proj2 (Z.leb_gt _ _)) by lia; cbn [andb]; by exists s, ERR_IF|]. rewrite (proj2 (Z.leb_le _ _)) by lia. cbn [andb].
  pose proof (Hu (Z.of_nat (length q)) ltac:(lia)) as Hslot. rewrite <- Eslot, Z.ltb_irrefl in Hslot. pose proof (Z.mod_pos_bound (tx_queue s) 4 ltac:(lia)) as Hm.
  rewrite (aget_lookup (tx_inuse s) (tx_queue s mod 4) 0) by (done || lia). cbn [mbind outcome_bind]. change (0 =? 1) with false. cbn iota. unfold truthy.
  destruct (Z.eqb_spec (Z.land msr MSR_LINKB) 0); cbn [negb]; [|by exists s, ERR_CONN]. rewrite aset_in_range by lia. cbn [mbind outcome_bind drop_padding]. rewrite (proj2 (Z.leb_le _ _) Hx). cbn [mbind outcome_bind]. change (Z.to_nat ETH_PAD_SIZE) with 2%nat.
  pose proof (padding_len x p Hx) as Htot. set (p' := drop 2 x :: p) in *. assert (0 <= tot_len p' <= 1792) by (rewrite Htot; unfold tot_len, ETH_PAD_SIZE in *; cbn [concat] in *; rewrite length_app in *; lia).
  change (drop 2 x ++ concat p) with (concat p'). clearbody p'.
  destruct (aget_in_range (tx_buffer s) (tx_queue s mod 4)) as (b & Hb & ->); [lia|]. cbn [mbind outcome_bind]. pose proof (Forall_lookup_1 _ _ _ _ L3 Hb) as Lb. unfold TX_BUF_LEN in Lb. cbn beta in Lb.
  destruct (copy_pieces_ok p' b 0) as (b' & -> & Lb' & Hb'); [lia|lia|lia|]. cbn [mbind outcome_bind]. rewrite aset_in_range by lia. cbn [mbind outcome_bind]. eexists _, ERR_OK. split; [reflexivity|]. split; [done|]. rewrite <- Htot. split; [|done].
  constructor; cbn [set_tx tx_queue tx_complete tx_inuse tx_buffer]; rewrite ?length_app; cbn [length].
  - split; [apply u32_bound|done].
  - revert Hl. unfold u32. intros Hl. Z.to_euclidean_division_equations; lia.
  - lia.
  - rewrite !length_insert. split; [done|]. split; [done|]. apply Forall_insert; [done|]. cbn beta. by rewrite Lb'.
  - intros i Hi4. destruct (decide (i = Z.of_nat (length q))) as [->|Hne].
    + rewrite Eslot, list_lookup_insert_eq by (rewrite <- Eslot, L1; lia). rewrite (proj2 (Z.ltb_lt _ _)) by lia. done.
    + rewrite Eslot, list_lookup_insert_ne by (apply other_slot; lia). rewrite (Hu i Hi4). destruct (Z.ltb_spec i (Z.of_nat (length q))), (Z.ltb_spec i (Z.of_nat (length q + 1))); done || lia.
  - intros i y [Hy|[Hge Hy]]%lookup_app_Some.
    + pose proof (lookup_lt_Some _ _ _ Hy). rewrite Eslot, list_lookup_insert_ne by (apply other_slot; lia). by apply Hd.
    + destruct (i - length q)%nat as [|] eqn:Ei; [|done]. injection Hy as <-. assert (i = length q) as -> by lia. exists b'. rewrite Eslot, list_lookup_insert_eq by (rewrite <- Eslot, L2; lia). split; [done|].
      apply list_eq. intros j. destruct (decide (j < length (concat p'))%nat) as [Hj|Hj].
      * rewrite lookup_take_lt by done. specialize (Hb' (Z.of_nat j) ltac:(lia)). rewrite Nat2Z.id in Hb'. rewrite Hb'. unfold tot_len. rewrite (proj2 (Z.leb_le _ _)), (proj2 (Z.ltb_lt _ _)) by lia. cbn [andb]. f_equal. lia.
      * rewrite lookup_take_ge by lia. symmetry. apply lookup_ge_None_2. lia.
Qed.

(** After [rtl8139if_init] has cleared the driver's state the queue is empty. *)
Definition rtl_zero : rtl := Rtl 0 0 (replicate 4 0) (replicate 4 (replicate (Z.to_nat TX_BUF_LEN) 0)) (replicate (Z.to_nat (RX_BUF_LEN + 16)) 0) 0 0 [].

Lemma rtl_zero_inv : tx_inv rtl_zero [].
Proof.
  constructor; unfold rtl_zero; cbn [tx_queue tx_complete tx_inuse tx_buffer length].
  - lia.
  - done.
  - lia.
  - rewrite !length_replicate. split; [done|]. split; [done|]. apply Forall_replicate. rewrite length_replicate, Z2Nat.id; [done|]. unfold TX_BUF_LEN. lia.
  - intros i Hi. pose proof (Z.mod_pos_bound (0 + i) 4 ltac:(lia)). rewrite (proj2 (Z.ltb_ge _ _)) by lia. apply lookup_replicate_2. lia.
  - done.
Qed.

Lemma output_enqueues_witness : exists s' e, rtl8139if_output rtl_zero ([0; 0; 7] :: [[8]]) 0 = Ret (s', e) /\
  e = ERR_OK /\ tx_inv s' [[7; 8]] /\ out s' = [(TSD0, 2)].
Proof. destruct (output_enqueues rtl_zero [] [0; 0; 7] [[8]] 0 rtl_zero_inv) as (s' & e & E & H); [unfold ETH_PAD_SIZE; cbn; lia|]. exists s', e. split; [exact E|]. exact H. Defined.

(** ** What was sent leaves the queue *)

(** A status of a packet that was sent, of one that is not finished, and of one that was
    aborted. *)
Definition sent (st : Z) : Prop := Z.land st (Z.lor TSD_TABT TSD_OWC) = 0 /\ Z.land st TSD_TOK <> 0.
Definition unfinished (st : Z) : Prop := Z.land st (Z.lor (Z.lor TSD_TOK TSD_TUN) TSD_TABT) = 0.

Lemma land_lor_nonzero st a b : Z.land st a <> 0 -> Z.land st (Z.lor a b) <> 0.
Proof. intros H E. apply H. apply Z.bits_inj'. intros n Hn. rewrite Z.land_spec, Z.bits_0. apply (f_equal (fun z => Z.testbit z n)) in E. rewrite Z.land_spec, Z.lor_spec, Z.bits_0 in E. by destruct (Z.testbit st n), (Z.testbit a n). Qed.

(** One packet leaves the queue. *)
Lemma complete_one s p q : tx_inv s (p :: q) -> exists us, aset (tx_inuse s) (tx_complete s mod 4) 0 = Ret us /\
  tx_inv (set_tx s (tx_queue s) (u32 (tx_complete s + 1)) us (tx_buffer s) (out s)) q.
Proof.
  intros [[Hq Hc] Hl Hs (L1 & L2 & L3) Hu Hd]. cbn [length] in *. pose proof (Z.mod_pos_bound (tx_complete s) 4 ltac:(lia)) as Hm. rewrite aset_in_range by lia. eexists. split; [done|].
  assert (forall i, (u32 (tx_complete s + 1) + i) mod 4 = (tx_complete s + (1 + i)) mod 4) as Ew. { intros i. unfold u32. Z.to_euclidean_division_equations; lia. }
  constructor; cbn [set_tx tx_queue tx_complete tx_inuse tx_buffer].
  - split; [done|apply u32_bound].
  - revert Hl. unfold u32. intros Hl. Z.to_euclidean_division_equations; lia.
  - lia.
  - by rewrite length_insert.
  - intros i Hi. rewrite Ew. destruct (decide (i = 3)) as [->|Hne].
    + replace ((tx_complete s + (1 + 3)) mod 4) with (tx_complete s mod 4) by (Z.to_euclidean_division_equations; lia). rewrite list_lookup_insert_eq by lia. rewrite (proj2 (Z.ltb_ge _ _)) by lia. done.
    + rewrite list_lookup_insert_ne by (intros E; by apply (other_slot (tx_complete s) 0 (1 + i)); [lia|lia|lia|rewrite Z.add_0_r]). rewrite Hu by lia. destruct (Z.ltb_spec (1 + i) (Z.of_nat (S (length q)))), (Z.ltb_spec i (Z.of_nat (length q))); done || lia.
  - intros i x Hx. rewrite Ew. replace (1 + Z.of_nat i) with (Z.of_nat (S i)) by lia. exact (Hd (S i) x Hx).
Qed.

Lemma tx_loop_completes sts : forall s q rest, tx_inv s q -> Forall sent sts -> (length sts <= length q)%nat ->
  (length sts = length q \/ exists st rest', rest = st :: rest' /\ unfinished st) ->
  exists s', tx_loop s (Z.of_nat (length q)) (sts ++ rest) = Ret s' /\ tx_inv s' (drop (length sts) q).
Proof.
  induction sts as [|st sts IH]; intros s q rest Hi Hst Hle Hrest; cbn [length app drop] in *.
  - exists s. split; [|done]. destruct Hrest as [E|(st & rest' & -> & Hun)].
    + rewrite <- E. by destruct rest.
    + cbn [tx_loop]. rewrite Hun. by case_match.
  - destruct q as [|p q]; cbn [length] in *; [lia|]. apply Forall_cons in Hst as [[Hok Htok] Hst]. cbn [tx_loop]. rewrite (proj2 (Z.eqb_neq _ _)) by lia.
    rewrite (proj2 (Z.eqb_neq _ _)) by (by apply land_lor_nonzero, land_lor_nonzero). unfold truthy. rewrite Hok, (proj2 (Z.eqb_neq _ _) Htok). cbn [Z.eqb negb].
    destruct (complete_one s p q Hi) as (us & -> & Hi'). cbn [mbind outcome_bind]. replace (Z.of_nat (S (length q)) - 1) with (Z.of_nat (length q)) by lia.
    apply (IH _ q rest Hi' Hst); [lia|]. destruct Hrest as [E|E]; [left; lia|by right].
Qed.

(** When the card has sent some packets, the oldest, the interrupt takes exactly these from the
    queue and their buffers can be used again. *)
Theorem tx_inthandler_completes s q sts rest : tx_inv s q -> Forall sent sts -> (length sts <= length q)%nat ->
  (length sts = length q \/ exists st rest', rest = st :: rest' /\ unfinished st) ->
  exists s', rtl_tx_inthandler s (sts ++ rest) = Ret s' /\ tx_inv s' (drop (length sts) q).
Proof. intros Hi ???. unfold rtl_tx_inthandler. rewrite (ti_len _ _ Hi). by apply tx_loop_completes. Qed.

(** The code is wrong here: after an abort the loop reads the same status again without doing
    anything about it, so that the interrupt does not end while the card reports the abort. *)
Theorem tx_inthandler_abort_stuck s q n st : tx_inv s q -> q <> [] -> Z.land st TSD_TABT <> 0 ->
  rtl_tx_inthandler s (replicate n st) = OutOfFuel.
Proof.
  intros Hi Hq Hst. unfold rtl_tx_inthandler. rewrite (ti_len _ _ Hi). destruct q as [|p q]; [done|]. clear Hi Hq. induction n as [|n IH]; cbn [replicate tx_loop]; rewrite (proj2 (Z.eqb_neq _ _)) by (cbn [length]; lia); [done|].
  assert (Z.land st (Z.lor (Z.lor TSD_TOK TSD_TUN) TSD_TABT) <> 0) as H1 by (rewrite Z.lor_comm; by apply land_lor_nonzero).
  rewrite (proj2 (Z.eqb_neq _ _) H1). unfold truthy. rewrite (proj2 (Z.eqb_neq _ _) (land_lor_nonzero _ _ TSD_OWC Hst)). done.
Qed.

(** ** What the card received is delivered *)

Definition total (lens : list Z) : Z := foldr Z.add 0 lens.

Lemma u16_small z : 0 <= z < 65536 -> u16 z = z.
Proof. apply Z.mod_small. Qed.

Lemma pool_pieces_ok free : forall n, n <= Z.of_nat free * PBUF_POOL_BUFSIZE -> exists lens, pool_pieces free n = Some lens /\ Forall (Z.le 0) lens /\ total lens = Z.max 0 n.
Proof.
  unfold PBUF_POOL_BUFSIZE. induction free as [|free IH]; intros n Hn; cbn [pool_pieces]; destruct (Z.leb_spec n 0); try lia.
  - exists []. split; [done|]. split; [done|]. cbn. lia.
  - exists []. split; [done|]. split; [done|]. cbn. lia.
  - unfold PBUF_POOL_BUFSIZE. destruct (IH (n - Z.min n 1520)) as (lens & -> & Hf & Ht); [lia|]. eexists. split; [done|]. split; [constructor; [lia|done]|]. cbn [total foldr]. fold (total lens). lia.
Qed.

(** The pieces for a packet have together its length and the padding. *)
Lemma pieces_ok free n : 0 <= n -> n + ETH_PAD_SIZE <= Z.of_nat free * PBUF_POOL_BUFSIZE ->
  exists lens lens', pbuf_alloc free (n + ETH_PAD_SIZE) = Some lens /\ drop_padding_len lens = Ret lens' /\ Forall (Z.le 0) lens' /\ total lens' = n.
Proof.
  unfold pbuf_alloc, ETH_PAD_SIZE, PBUF_POOL_BUFSIZE. intros Hn Hf. destruct free as [|free]; [lia|]. destruct (pool_pieces_ok free (n + 2 - Z.min (n + 2) 1520)) as (lens & -> & Hp & Ht); [unfold PBUF_POOL_BUFSIZE; lia|].
  eexists _, _. split; [done|]. cbn [drop_padding_len fmap option_fmap option_map]. unfold ETH_PAD_SIZE. rewrite (proj2 (Z.leb_le _ _)) by lia. split; [done|]. split; [constructor; [lia|done]|]. cbn [total foldr]. fold (total lens). lia.
Qed.

Lemma mem_read_split l pos a b bytes : 0 <= a -> 0 <= b -> mem_read l pos (a + b) = Ret bytes ->
  mem_read l pos a = Ret (take (Z.to_nat a) bytes) /\ mem_read l (pos + a) b = Ret (drop (Z.to_nat a) bytes).
Proof.
  unfold mem_read. intros Ha Hb. destruct (Z.leb_spec 0 pos), (Z.leb_spec 0 (a + b)), (Z.leb_spec (pos + (a + b)) (Z.of_nat (length l))); cbn [andb]; try discriminate. intros [= <-].
  rewrite (proj2 (Z.leb_le 0 a)), (proj2 (Z.leb_le (pos + a) _)), (proj2 (Z.leb_le 0 (pos + a))), (proj2 (Z.leb_le 0 b)), (proj2 (Z.leb_le (pos + a + b) _)) by lia. cbn [andb]. split; f_equal.
  - rewrite take_take. f_equal. lia.
  - rewrite skipn_firstn_comm, drop_drop. f_equal; [|f_equal]; lia.
Qed.

Lemma total_nonneg lens : Forall (Z.le 0) lens -> 0 <= total lens.
Proof. induction 1; cbn [total foldr]; [lia|]. fold (total l). lia. Qed.

Lemma fill_pieces_ok lens : forall buf pos bytes, Forall (Z.le 0) lens -> 0 <= pos -> pos + total lens < 65536 -> mem_read buf pos (total lens) = Ret bytes ->
  fill_pieces buf pos lens = Ret (bytes, pos + total lens).
Proof.
  induction lens as [|n lens IH]; intros buf pos bytes Hf Hp Hb Hr.
  - cbn [fill_pieces total foldr] in *. unfold mem_read in Hr. destruct (_ && _); [|done]. injection Hr as <-. change (Z.to_nat 0) with O. rewrite take_0, Z.add_0_r. done.
  - apply Forall_cons in Hf as [Hn Hf]. cbn [total foldr] in *. fold (total lens) in *. pose proof (total_nonneg _ Hf). apply mem_read_split in Hr as [Ha Hrest]; [|done|done]. cbn [fill_pieces]. unfold RX_BUF_LEN.
    rewrite (proj2 (Z.ltb_lt n _)) by lia. rewrite (u16_small n) by lia. rewrite Ha. cbn [mbind outcome_bind]. rewrite Z.ltb_irrefl. cbn [mbind outcome_bind]. rewrite (Z.mod_small (pos + n)), u16_small by lia.
    rewrite (IH buf (pos + n) _ Hf ltac:(lia) ltac:(lia) Hrest). cbn [mbind outcome_bind app]. rewrite take_drop, Z.add_assoc. done.
Qed.

(** Frames behind each other in the receive buffer, each with a header, its length with the
    checksum, and the checksum behind it, at multiples of four bytes. *)
Inductive frames (buf : list Z) : Z -> list (list Z) -> Z -> Prop :=
  | frames_nil pos : frames buf pos [] pos
  | frames_cons pos header data fs last : 0 <= pos -> pos + Z.of_nat (length data) + 11 < 65536 ->
      rx_word buf pos = Ret header -> Z.land header ISR_ROK <> 0 ->
      rx_word buf (pos + 2) = Ret (Z.of_nat (length data) + 4) ->
      mem_read buf (pos + 4) (Z.of_nat (length data)) = Ret data ->
      frames buf (Z.land (pos + 4 + Z.of_nat (length data) + 4 + 3) (Z.lnot 3)) fs last ->
      frames buf pos (data :: fs) last.

(** The rounds of the loop: the card has a packet and the pool has room for it. *)
Definition has_packet (r : Z * nat) (data : list Z) : Prop :=
  Z.land (fst r) CR_BUFE = 0 /\ Z.of_nat (length data) + ETH_PAD_SIZE <= Z.of_nat (snd r) * PBUF_POOL_BUFSIZE.

Lemma align4_bound z : 0 <= z -> 0 <= Z.land z (Z.lnot 3) <= z.
Proof.
  intros Hz. replace (Z.land z (Z.lnot 3)) with (4 * (z / 4)); [Z.to_euclidean_division_equations; lia|]. symmetry. change 4 with (2 ^ 2). rewrite (Z.mul_comm (2 ^ 2)), <- Z.shiftl_mul_pow2, <- Z.shiftr_div_pow2 by lia.
  change (Z.lnot 3) with (Z.lnot (Z.ones 2)). rewrite <- Z.ldiff_land. by apply Z.ldiff_ones_r.
Qed.

Lemma rx_packet_ok s data free : let pos := rx_pos s in 0 <= pos -> pos + Z.of_nat (length data) + 9 < 65536 ->
  rx_word (rx_buffer s) pos = Ret (Z.of_nat (length data) + 4) -> mem_read (rx_buffer s) (pos + 2) (Z.of_nat (length data)) = Ret data ->
  Z.of_nat (length data) + ETH_PAD_SIZE <= Z.of_nat free * PBUF_POOL_BUFSIZE ->
  exists s', rx_packet s free = Ret (s', Some data) /\ rx_buffer s' = rx_buffer s /\ rx_pos s' = Z.land (pos + 2 + Z.of_nat (length data) + 4 + 3) (Z.lnot 3).
Proof.
  intros pos Hp Hb Hw Hr Hf. unfold rx_packet. fold pos. rewrite Hw. cbn [mbind outcome_bind set_rx rx_pos rx_buffer]. replace (Z.of_nat (length data) + 4 - 4) with (Z.of_nat (length data)) by lia.
  rewrite (u16_small (Z.of_nat (length data))), (u16_small (_ + ETH_PAD_SIZE)) by (unfold ETH_PAD_SIZE; lia). unfold RX_BUF_LEN. rewrite (Z.mod_small (pos + 2)), (u16_small (pos + 2)) by lia.
  destruct (pieces_ok free (Z.of_nat (length data))) as (lens & lens' & -> & -> & Hn & Ht); [lia|done|]. cbn [mbind outcome_bind]. rewrite <- Ht in Hr. rewrite (fill_pieces_ok lens' _ _ data) by (done || lia). cbn [mbind outcome_bind set_rx rx_pos rx_buffer outport]. rewrite Ht.
  eexists. split; [done|]. split; [done|]. cbn [set_rx rx_pos outport]. pose proof (align4_bound (pos + 2 + Z.of_nat (length data) + 4 + 3) ltac:(lia)). rewrite Z.mod_small, u16_small by lia. done.
Qed.

Lemma rx_loop_ok buf pos fs last : frames buf pos fs last -> forall s rounds cmd free, rx_buffer s = buf -> rx_pos s = pos -> Forall2 has_packet rounds fs -> Z.land cmd CR_BUFE <> 0 ->
  exists s', rx_loop s (rounds ++ [(cmd, free)]) = Ret (s', fs) /\ rx_pos s' = last.
Proof.
  induction 1 as [pos|pos header data fs last Hp Hb Hh Hok Hw Hr Hfs IH]; intros s rounds cmd free Eb Ep Hrs Hcmd.
  - inversion Hrs; subst. cbn [app rx_loop]. unfold truthy. rewrite (proj2 (Z.eqb_neq _ _) Hcmd). cbn [negb]. by exists s.
  - inversion Hrs as [|[c f] ? rounds' ? [Hc Hf] Hrs']; subst. cbn [fst snd] in *. cbn [app rx_loop]. unfold truthy at 1. rewrite Hc. cbn [Z.eqb negb]. rewrite Hh. cbn [mbind outcome_bind]. unfold truthy. rewrite (proj2 (Z.eqb_neq _ _) Hok). cbn [negb].
    unfold RX_BUF_LEN at 1. rewrite Z.mod_small, u16_small by lia. destruct (rx_packet_ok (set_rx s (rx_pos s + 2)) data f) as (s1 & -> & E1 & E2); cbn [set_rx rx_pos rx_buffer] in *; [lia|lia|done|by rewrite <- Z.add_assoc|done|].
    cbn [mbind outcome_bind]. destruct (IH s1 rounds' cmd free) as (s' & -> & Hl); [done| |done|done|].
    + rewrite E2. f_equal. lia.
    + cbn [mbind outcome_bind]. by exists s'.
Qed.

(** The frames that the card has put into the buffer, short of its first 64 KiB, are delivered
    in their order and with their bytes, the driver's position is behind the last, and the
    interrupts are on again. *)
Theorem rx_inthandler_delivers s fs last rounds cmd free :
  frames (rx_buffer s) (rx_pos s) fs last -> Forall2 has_packet rounds fs -> Z.land cmd CR_BUFE <> 0 ->
  exists s', rtl_rx_inthandler s (rounds ++ [(cmd, free)]) = Ret (s', fs) /\ rx_pos s' = last /\ polling s' = 0 /\ head (out s') = Some (IMR, INT_MASK).
Proof.
  intros Hf Hrs Hc. unfold rtl_rx_inthandler. destruct (rx_loop_ok _ _ _ _ Hf s rounds cmd free) as (s' & -> & Hl); [done..|]. cbn [mbind outcome_bind]. by eexists.
Qed.

(** ** One poll at a time *)

Lemma tx_loop_polling reads : forall s n s', tx_loop s n reads = Ret s' -> polling s' = polling s.
Proof.
  induction reads as [|st reads IH]; intros s n s'; cbn [tx_loop]; repeat case_match; intros E; simplify_eq/=; try done; try by eapply IH.
  destruct (aset _ _ _) eqn:Ea; cbn [mbind outcome_bind] in E; try done. by apply IH in E.
Qed.

(** While a call of the driver is pending in the network stack the interrupt posts no other, and
    it leaves the receive interrupt masked exactly while one is pending. *)
Theorem handler_one_poll s rounds s' n : 0 <= polling s <= 1 -> rtl8139if_handler s rounds = Ret (s', n) ->
  polling s' = polling s + n /\ polling s' <= 1 /\ head (out s') = Some (IMR, if polling s' =? 1 then INT_MASK_NO_ROK else INT_MASK).
Proof.
  intros Hp. unfold rtl8139if_handler. destruct (irq_loop _ _) as [[s1 m]| |] eqn:E; cbn [mbind outcome_bind]; try done. intros [= <- <-].
  assert (polling s1 = polling s + m /\ 0 <= polling s1 <= 1) as [Hm Hb].
  { revert E. change (polling s) with (polling (outport s IMR 0)) in *. revert Hp. generalize (outport s IMR 0). clear s. revert m. induction rounds as [|[[isr ok] reads] rounds IH]; intros m s Hp; cbn [irq_loop]; [done|].
    case_match; [intros [= <- <-]; lia|]. set (post := _ && _ && _). assert (post = true -> polling s = 0) as Hpost. { subst post. unfold truthy. destruct (Z.eqb_spec (polling s) 0); [done|]. cbn [negb]. rewrite andb_false_r. done. }
    clearbody post. destruct (if truthy (Z.land isr ISR_TOK) then _ else _) as [s2| |] eqn:E2; cbn [mbind outcome_bind]; try done.
    assert (polling s2 = polling s + (if post then 1 else 0) /\ polling s2 <= 1) as [H2 H3]. { destruct (truthy _); [apply tx_loop_polling in E2; rewrite E2|injection E2 as <-]; destruct post; cbn [set_polling polling]; rewrite ?Hpost by done; lia. }
    destruct (irq_loop _ rounds) as [[s3 k]| |] eqn:E3; cbn [mbind outcome_bind]; try done. intros [= <- <-]. apply IH in E3; cbn [outport polling] in *; lia || (destruct post; lia). }
  cbn [outport polling out head]. split; [done|]. split; [lia|]. unfold truthy. destruct (Z.eqb_spec (polling s1) 0), (Z.eqb_spec (polling s1) 1); cbn [negb]; done || lia.
Qed.

End Rtl8139.
